(* ===== verification/_CoqProject ===== *)
-Q . S2P
Prelude.v
Ascii.v
Bytes.v
WsFrame.v
Utf8.v
TextDiff.v
TextDiffFacts.v
GoPath.v
Strconv.v
GoStrings.v
Parser.v
HunOptions.v
HunStem.v
HunFacts.v
NetIP.v
Base64.v
IoReader.v
LibNet.v
SmtpCommand.v
SmtpServer.v
SmtpResponse.v
SmtpDelivery.v
SmtpClient.v
SmtpClientFacts.v
Json.v
Ints.v
MemFS.v
MemFSFacts.v
HttpRoute.v
HttpServer.v
HttpServerFacts.v
HttpHeader.v
HttpResponse.v
WsServer.v
WsServerFacts.v
WsStream.v
WsMessages.v
WsRoutes.v
WsRoutesFacts.v
WsHandshake.v
WsHandshakeFacts.v
Sha1.v
WsConnect.v
WsClient.v
WsClientFacts.v
Strings.v
Runes.v
StringTable.v
TabRecord.v
Tabula.v
TabulaFacts.v
Dsv.v
DsvFacts.v
Ini.v
IniPrune.v
IniReader.v
IniRoundtrip.v
DnsHeader.v
DnsMessage.v
DnsTTL.v
DnsCaches.v
DnsUnpack.v
DnsNames.v
DnsRoundtrip.v
DnsZone.v
DnsZoneFacts.v
DnsHosts.v
Spf.v
DkimTag.v
DkimSignature.v
DkimFacts.v
EmailField.v
EmailMessage.v
EmailFacts.v
EmailTotal.v
EmailAddress.v
EmailDkim.v
EmailDkimFacts.v
DnsServer.v
DnsServerFacts.v
