(* ===== verification/Prelude.v ===== *)
(** Verification of the Go library collection [github.com/shuLhan/share].

    * The program

    The repository is a collection of packages under [src/lib/].  The ones that
    carry protocols and data of their own are modelled here:

    - [lib/smtp]: a mail server.  A connection is a loop ([Server.handle]) that
      reads a line, parses it into a [Command], runs the handler of the command
      on the receiver of the connection, and writes a reply; a mail that is
      complete is put in the queue of the server, from which
      [processMailTxQueue] hands it to the local handler, the relay or the
      bounce queue.  A client of it writes the commands and reads the replies.
    - [lib/email]: messages, their header fields, addresses and bodies, and in
      [lib/email/dkim] the signatures over them, which the messages make and verify
      with keys that are looked up in the DNS.
    - [lib/dns]: messages, their packing with name compression and unpacking;
      a server that answers from its caches of answers and forwards what is not
      there to other name servers; the loaders of zone files and hosts files, which
      fill the caches.
    - [lib/websocket]: the handshake of a client with a server, with the routes
      of the requests after it; frames, their packing and their unpacking from
      the chunks a connection delivers; on either end, what puts fragments together
      and answers control frames, and on the server a registry of clients.
    - [lib/http] and [lib/memfs]: the parser of responses, which the WebSocket
      client uses, and a server of endpoints, found by routes with keys, and of the
      files of a directory that is mounted in memory.
    - [lib/ini]: a parser and printer of INI files, and the lookup, change,
      pruning and merging of their sections.
    - [lib/hunspell], with the tokenizer [lib/parser]: spelling dictionaries; the options
      and affixes of one file make of the lines of another the words that are known.
    - [lib/spf]: the check of a host against the policy of a domain, which is looked up
      in the DNS.
    - [lib/text/diff]: the differences of two files, by lines and within lines.
    - [lib/tabula] and [lib/dsv]: tables of records, kept as rows, as columns or as both,
      that a reader makes of files of delimited values and a writer puts into them.
    - [lib/net], [lib/json], [lib/io], [lib/bytes], [lib/ascii], [lib/strings],
      [lib/runes], [lib/ints], [lib/ints64]: the helpers of the packages above and others.

    * Files, parts and code

    - [Prelude] (this file): machine integers, the outcome of a call, slices,
      shared automation.
    - [Ascii] [lib/ascii/ascii.go]; [Bytes] [lib/bytes/bytes.go]; [Ints]
      [lib/ints/ints.go] and [lib/ints64/ints64.go]; [Strings]
      [lib/strings/strings.go] and [string.go]; [StringTable] [row.go] and [table.go]
      there; [Runes] [lib/runes/runes.go]; [Json] [lib/json/json.go];
      [IoReader] [lib/io/reader.go]; [LibNet] [lib/net/net.go], [is.go],
      [parser.go] and [resolvconf.go].
    - [TextDiff] [lib/text] and [lib/text/diff], with [TextDiffFacts].
    - [TabRecord] [lib/tabula/record.go], [records.go], [column.go], [columns.go], [row.go],
      [rows.go] and [maprows.go]; [Tabula] [dataset.go], [datasetinterface.go] and
      [claset.go], with [TabulaFacts]; [Dsv] [lib/dsv/reader.go], [readerinterface.go],
      [metadata.go] and [writer.go], with [DsvFacts].
    - [Parser] [lib/parser/parser.go]; [HunOptions] [lib/hunspell/options.go], [affix.go],
      [affix_rule.go], [flags.go] and [morphemes.go]; [HunStem] [stem.go],
      [dictionary.go], [spell.go] and [hunspell.go], with [HunFacts]; [Spf] [lib/spf].
    - [Utf8], [GoStrings], [Strconv], [NetIP], [GoPath], [Base64], [Sha1], [HttpHeader]: what the
      packages use of Go's [unicode/utf8], [unicode], [strings], [strconv], [fmt],
      [net], [path], [encoding/base64], [crypto/sha1] and [net/http].
    - [WsFrame] [lib/websocket/frame.go] and [frames.go], with the loop of
      [Server.reader] in [server.go] that resumes a frame; [WsServer]
      [clientmanager.go] and the handlers, the reader and the pinger of
      [server.go]; [WsServerFacts] the invariant of the registry; [WsStream] a
      stream of frames in packets, for both ends; [WsMessages]
      the server against a reference conversation; [WsConnect] the opening of a
      connection ([Client.handshake] with [Server.upgrader]); [WsClient] the
      client of [client.go], with [WsClientFacts]; [WsRoutes] [rootroute.go],
      [route.go] and [request.go], with [WsRoutesFacts]; [WsHandshake]
      [handshake.go], with [WsHandshakeFacts].
    - [SmtpCommand] [lib/smtp/smtp.go] and [command.go]; [SmtpServer]
      [server.go], [receiver.go], [mail.go], [error.go], [extension*.go] and
      [handler.go]; [SmtpResponse] [response.go]; [SmtpDelivery] [account.go],
      [domain.go], [environment.go], [localhandler.go], [serverinfo.go] and the
      queue of [server.go]; [SmtpClient] [client.go], with [SmtpClientFacts], the
      client and the server together.  The interface [Handler] is a class: the session is
      verified against it and [SmtpDelivery] gives the local handler as an
      instance.
    - [DnsHeader] [lib/dns/sectionheader.go], [sectionquestion.go] and the setters
      of [message.go]; [DnsMessage] the records and the packing of [message.go];
      [DnsUnpack] [resourcerecord.go] and the unpacking of [message.go];
      [DnsNames] and [DnsRoundtrip] the proofs that tie the two; [DnsTTL] the
      ageing of messages; [DnsCaches] [answer.go], [answers.go] and [caches.go];
      [DnsZone] [masterfile.go] and [lib/time/duration.go], with
      [DnsZoneFacts]; [DnsHosts] [hosts.go] and [lib/net/is.go]; [DnsServer]
      [server.go] and [request.go], with [DnsServerFacts].
    - [DkimTag] [lib/email/dkim/tag.go], [parser.go] and the names of values;
      [DkimSignature] [signature.go], [key.go] and [keypool.go]; [EmailField]
      [lib/email/field.go], [address.go] and [contenttype.go]; [EmailMessage]
      [header.go], [body.go], [mime.go] and [message.go]; [EmailDkim] the signing
      and verifying of [message.go] and the lookup of [dns.go]; their proofs are in
      [DkimFacts], [EmailFacts], [EmailTotal], [EmailAddress] and [EmailDkimFacts].
    - [HttpResponse] [lib/http/response.go]; [HttpRoute] [route.go]; [HttpServer]
      [endpoint.go] and [server.go], with [HttpServerFacts]; [MemFS]
      [lib/memfs/memfs.go] and [node.go], with [MemFSFacts].
    - [Ini] [lib/ini/ini.go], [section.go], [variable.go], [linemode.go] and
      [common.go]; [IniReader] [reader.go]; [IniPrune] and [IniRoundtrip] their
      proofs.

    * How code becomes a definition

    A definition has the name of the function it models, with the name of the
    type in front where two types have a method of one name.  A byte is a [Z], a
    slice of bytes and a string are lists of them, and an integer of a fixed
    width is a [Z] that is wrapped where the code computes with it.  A call
    that can fail, panic or loop returns an [outcome]: a value, the error of
    the code, a panic, or the end of the fuel.  State that the code changes is
    passed and returned; where pointers are shared and it matters (the answers
    of the caches, the sections of an [Ini], the nodes of a file system, the records and
    rows of a table, the arrays behind the lists of a partition) there is a
    store and addresses.  The connection of a mail session is the world of
    [SmtpServer]: the chunks that are still to be read, the bytes written, the queue,
    the random numbers and the clock.  Goroutines, of the DNS server, are actors of a
    state machine: a run is a list of actions in any order, and an action that the
    code would block on is not enabled.  The iteration over a Go map is over a list of
    its keys in any order.

    * What the theorems show

    - Mail: the client and the server understand each other: with the replies of
      the one and the lines of the other, both end and the mail is in the queue, where
      no read of the server ends after an end of data that is inside of the text; a
      session that authenticates and sends its commands delivers the mail
      with the sender, the recipients and the data that were sent, one mail for
      each recipient; no mail is queued but from a client that named a credential, on
      its connection and before the mail, that the handler took, and so none with a
      wrong password or in server mode; every command gets an answer; every session ends; the
      bytes after DATA are kept but for the terminator; a client reads from a
      reply the code and the text the server put in; the parser of commands is
      the inverse of their text, and panics exactly on the inputs that are
      described; a mail that cannot be delivered bounces after six tries.
    - Email: a message is parsed on every text but those that begin with an empty
      line, which panic; a header is parsed and printed back byte for byte, and its
      relaxed form is that of its fields; mailboxes that
      have a local part and a domain are parsed back from their text; a
      signature of the values that its text can hold is parsed back from it; and a
      message that is signed, with names of headers in lower case, is
      verified with the key of its signer.
    - DNS: headers, names and whole messages unpack to what was packed; unpacking
      a name ends, but for pointer loops; TTLs age without wrapping, in the
      records and in the packet alike; the caches refine a finite map with a
      list of least recently used answers, their invariant holds in every
      reachable state, pruning removes the old answers; a zone file with a
      record of absolute names on each line, and a hosts file without blanks at the ends
      of its lines, are loaded as the packed messages of
      their records; the server answers no request twice, and loses none but those
      that a forwarder drops; what it answers has the identifier and the question of
      the request, and the content is one that was loaded or that came from a name server;
      and it counts its forwarders, in every interleaving; and the theorems on
      what goes wrong: records that break the packing of the next one, ages
      that are subtracted twice, updates that stop pruning, zone and hosts files
      that are loaded as something else.
    - WebSocket: a well-formed handshake is accepted with the key and the names
      it has, and one without colons panics; a client and a server connect; the tree of routes refines a list
      of patterns; frames and control frames are valid and are read back, in one
      piece or in any chunks but the one case that is described; messages,
      in fragments with control frames between them, reach the application
      whole however the stream is cut, on the server and on the client, and a client
      that breaks the rules, by a frame without a mask too, is answered and dropped; the registry of clients is consistent in every
      reachable state and no packet makes the server panic.
    - HTTP: the header of a response is parsed as it was written, and panics exactly on
      the lines that are described; a route matches the paths that fit it and gives the
      values of its keys; a server answers every request but those that put a value
      in a form that is nil, which panic; mounting a directory keeps the files that
      are included, at their paths, but for empty files of an unknown type, and a GET
      request gets them; an endpoint that is registered twice is shared.
    - INI: parsing ends on every input; what is written is read back with the
      same lookups; setting a variable updates the map of variables; pruning
      keeps the lookups and leaves no repetition.
    - Spelling: a dictionary knows exactly the words that its lines and the affixes of
      their flags make, looking one up leads back to its line, and whatever an affix file
      holds, rules refer to affixes that are there; applying affixes ends where they do not
      lead in a circle, and not otherwise.
    - SPF: macros without several separators, and with other letters than those of the
      name of the host, mean what the standard says; a check ends without a panic, and
      what it gives is described: none, an error of the DNS or of the policy, or a
      pass, and never a fail, which the code does not give.
    - Differences: every line that is read of the old file, which the last is not where it
      has no line feed, is kept, deleted or changed, in order,
      and every line of the new one kept, added or changed; the chunks of a changed line
      turn the old one into the new one; the ratio of two texts is at most 1, and 1 for equal texts.
    - Tables: a dataset in any mode is one table, whatever rows of its width are pushed or
      deleted and whatever mode it is brought to, where no row is deleted in columns mode; what is written of one between quotes is read back, whatever
      bytes the values hold; and the theorems on what goes wrong without the quotes, with columns that are skipped and with
      lines that are joined.
    - Helpers: the partitions of a list are all given, each once, where lists share no array, as
      with the growth of Go's [append] up to five elements;
      the difference of two slices of runes is that of sets; a resolver file of any bytes gives a configuration within the bounds of the
      manual; escaped JSON is a JSON string and is unescaped to what it was;
      sorting by index sorts, in either order, and gives the permutation; the
      reader reads up to the separator and numbers as they are written;
      cutting agrees with a search and ends.

    * Fuel

    Loops that are not structural take fuel, and a theorem says how much is
    enough: a name of [n] bytes unpacks with [name_fuel] (pointers aside, a
    label is a byte or more); a session with the bytes it has to read and the
    chunks they come in; merging [r - l] elements with two rounds for each
    ([merge_fuel]); merge sort with the length of the slice; parsing an INI file
    with one line for each byte; a zone or hosts file with two rounds more than it
    has bytes, and one for each level of inclusion, which the code does not
    bound.  Applying affixes takes as many steps as they
    lead from one to another ([bounded]).  Loops by runes take the number of bytes.  Reading a file of delimited values
    takes one round for each byte, and so does the search for a right quote.  The parsers of headers,
    signatures, responses and resolver files and the differences take the length of the text, because every round reads a
    byte or more.

    * Not modelled

    Sockets, TLS, timers and locks: an operation under a lock is atomic here.  Files
    are what a function gives for a name, or the tree that is mounted.  Everything
    that works by reflection ([Marshal] and [Unmarshal] of [lib/ini]) and everything
    on floating-point numbers ([lib/floats64], [lib/mining], the ratios
    of [lib/strings]).  Parameters of the model are: the password hash of [bcrypt]; in
    the class [Crypto], the hash functions and RSA; [compress/gzip]; the tables of
    content types and the detection of a type from the content; the parsing of forms
    and the JSON of errors in [lib/http]; the tables of [unicode] above ASCII, in the
    class [Unicode]; the operations on floating-point numbers that durations in zone
    files need, in the class [Float64], and those that the cells of a table need, in the
    class [Floats]; how far [append] makes a list of a partition grow; whether a ratio in single precision is above the threshold of a
    change; what the system or the DNS gives for a name; in the class [Regexp], regular
    expressions; and [grown], the bytes that [append] leaves
    behind a slice where the code reads them.  Evaluators, callbacks and handlers of
    an application are functions.  Left out of [lib/memfs]: what looks at the file
    system a second time ([AddFile], [Update], development mode), symbolic links and
    generated code.  The DNS clients and the storage of mails are calls of
    sockets and files.  Two datasets that hold one column do not share its array, and the
    random choice of columns, the JSON of configurations and the files that a reader opens are
    left out.  The
    remaining packages call services, programs or the standard library. *)

From Stdlib Require Import ZArith Lia.
From stdpp Require Export base tactics list numbers gmap strings.

Set Default Proof Using "Type".

Declare Scope go_scope.
Delimit Scope go_scope with go.

(** ** Machine integers

    A Go integer of a fixed width is a [Z]; every conversion or arithmetic
    operation that may leave the width is followed by the matching wrap. *)

Definition u8 (z : Z) : Z := (z mod 2 ^ 8)%Z.
Definition u16 (z : Z) : Z := (z mod 2 ^ 16)%Z.
Definition u32 (z : Z) : Z := (z mod 2 ^ 32)%Z.
Definition u64 (z : Z) : Z := (z mod 2 ^ 64)%Z.
Definition s16 (z : Z) : Z := ((z + 2 ^ 15) mod 2 ^ 16 - 2 ^ 15)%Z.
Definition s32 (z : Z) : Z := ((z + 2 ^ 31) mod 2 ^ 32 - 2 ^ 31)%Z.
Definition s64 (z : Z) : Z := ((z + 2 ^ 63) mod 2 ^ 64 - 2 ^ 63)%Z.

(** A byte is a [Z] in range; a Go [[]byte] or [string] is a list of them. *)
Definition is_byte (b : Z) : Prop := (0 <= b < 256)%Z.
Definition is_u16 (v : Z) : Prop := (0 <= v < 65536)%Z.
Definition is_u32 (v : Z) : Prop := (0 <= v < 4294967296)%Z.
Definition is_bytes (l : list Z) : Prop := Forall is_byte l.

#[export] Instance is_byte_dec b : Decision (is_byte b).
Proof. unfold is_byte. apply _. Defined.
#[export] Instance is_u16_dec v : Decision (is_u16 v).
Proof. unfold is_u16. apply _. Defined.
#[export] Instance is_u32_dec v : Decision (is_u32 v).
Proof. unfold is_u32. apply _. Defined.
#[export] Instance is_bytes_dec l : Decision (is_bytes l).
Proof. unfold is_bytes. apply _. Defined.

Lemma u8_is_byte z : is_byte (u8 z).
Proof. unfold is_byte, u8. apply Z.mod_pos_bound. lia. Qed.

Lemma u8_id z : is_byte z -> u8 z = z.
Proof. unfold is_byte, u8. intros. apply Z.mod_small. lia. Qed.

Lemma u16_id z : is_u16 z -> u16 z = z.
Proof. unfold is_u16, u16. intros. apply Z.mod_small. lia. Qed.

Lemma u16_is_u16 z : is_u16 (u16 z).
Proof. unfold is_u16, u16. apply Z.mod_pos_bound. lia. Qed.

(** A boolean fact about every byte is one computation over the 256 values. *)
Definition all_bytes : list Z := seqZ 0 256.

Lemma byte_in_all b : is_byte b -> b ∈ all_bytes.
Proof. intros [??]. unfold all_bytes. apply elem_of_seqZ. lia. Qed.

Lemma byte_forall (P : Z -> bool) :
  forallb P all_bytes = true -> forall b, is_byte b -> P b = true.
Proof.
  intros H b Hb. rewrite forallb_forall in H. apply H.
  apply list_elem_of_In, byte_in_all, Hb.
Qed.

(** [by_bytes b Hb] proves a goal about the single byte [b] by evaluating its
    decision procedure on all 256 values. *)
Ltac by_bytes b Hb :=
  pattern b;
  match goal with
  | |- ?P b =>
      refine (bool_decide_unpack (P b) _);
      apply Is_true_eq_left;
      revert b Hb;
      refine (byte_forall (fun b => bool_decide (P b)) _);
      vm_compute; reflexivity
  end.

(** ** Bitwise facts *)

Lemma lor_shiftl_add a b n :
  (0 <= n)%Z -> (0 <= b < 2 ^ n)%Z -> Z.lor (Z.shiftl a n) b = (a * 2 ^ n + b)%Z.
Proof.
  intros Hn Hb. rewrite <- Z.shiftl_mul_pow2 by lia.
  rewrite <- Z.lxor_lor, Z.add_nocarry_lxor; trivial.
  all: apply Z.bits_inj'; intros i Hi;
    rewrite Z.land_spec, Z.bits_0;
    destruct (Z.lt_ge_cases i n);
    [rewrite Z.shiftl_spec_low by lia; reflexivity
    | rewrite <- (Z.mod_small b (2 ^ n)), Z.mod_pow2_bits_high by lia; apply andb_false_r].
Qed.

(** ** Results of Go code

    [Ok a] is a normal return, [Err e] a returned error, [Panic] a run-time
    panic (an index or slice out of range, a nil dereference) and [NoFuel] the
    exhaustion of the step bound of a loop or recursion that need not stop. *)

Inductive outcome (E A : Type) : Type :=
| Ok (a : A)
| Err (e : E)
| Panic
| NoFuel.
Arguments Ok {E A} a.
Arguments Err {E A} e.
Arguments Panic {E A}.
Arguments NoFuel {E A}.

#[export] Instance outcome_ret E : MRet (outcome E) := fun A a => Ok a.
#[export] Instance outcome_bind E : MBind (outcome E) := fun A B f m =>
  match m with
  | Ok a => f a
  | Err e => Err e
  | Panic => Panic
  | NoFuel => NoFuel
  end.

#[export] Instance outcome_eq_dec {E A} `{EqDecision E, EqDecision A} :
  EqDecision (outcome E A).
Proof. solve_decision. Defined.

Lemma bind_Ok_inv {E A B} (m : outcome E A) (f : A -> outcome E B) b :
  (m ≫= f) = Ok b -> exists a, m = Ok a /\ f a = Ok b.
Proof. destruct m; cbn; intros; try discriminate. eauto. Qed.

Lemma bind_Ok {E A B} (a : A) (f : A -> outcome E B) : (Ok a ≫= f) = f a.
Proof. reflexivity. Qed.

Ltac bind_inv H :=
  match type of H with
  | mbind _ _ = Ok _ =>
      let x := fresh "x" in let Hx := fresh "Hx" in
      apply bind_Ok_inv in H as (x & Hx & H)
  end.

(** ** Slices *)

(** [data[i]]: panics when out of range. *)
Definition get_at {E A} (l : list A) (i : nat) : outcome E A :=
  match l !! i with Some a => Ok a | None => Panic end.

(** [data[i] = v]: panics when out of range. *)
Definition set_at {E A} (l : list A) (i : nat) (v : A) : outcome E (list A) :=
  if decide (i < length l) then Ok (<[i := v]> l) else Panic.

(** [data[lo:hi]] on a slice whose capacity is its length. *)
Definition slice {E A} (l : list A) (lo hi : nat) : outcome E (list A) :=
  if decide (lo <= hi <= length l) then Ok (take (hi - lo) (drop lo l)) else Panic.

Lemma get_at_Some {E A} (l : list A) i (a : A) :
  l !! i = Some a -> get_at (E := E) l i = Ok a.
Proof. unfold get_at. by intros ->. Qed.

Lemma get_at_app_r {E A} (l k : list A) (n i : nat) :
  n = length l + i -> get_at (E := E) (l ++ k) n = get_at k i.
Proof.
  intros ->. unfold get_at. rewrite lookup_app_r by lia.
  by replace (length l + i - length l) with i by lia.
Qed.

Lemma set_at_Ok {E A} (l : list A) i v :
  i < length l -> set_at (E := E) l i v = Ok (<[i := v]> l).
Proof. unfold set_at. intros. by rewrite decide_True. Qed.

Lemma set_at_app {E A} (pre : list A) b rest i v :
  i = length pre -> set_at (E := E) (pre ++ b :: rest) i v = Ok (pre ++ v :: rest).
Proof.
  intros ->. rewrite set_at_Ok by (rewrite length_app; simpl; lia).
  by rewrite insert_app_r_alt, Nat.sub_diag by lia.
Qed.

Lemma slice_Ok {E A} (l : list A) lo hi :
  lo <= hi <= length l -> slice (E := E) l lo hi = Ok (take (hi - lo) (drop lo l)).
Proof. unfold slice. intros. by rewrite decide_True. Qed.

Lemma slice_app {E A} (l m r : list A) (lo hi : nat) :
  lo = length l -> hi = length l + length m ->
  slice (E := E) (l ++ m ++ r) lo hi = Ok m.
Proof.
  intros -> ->. rewrite slice_Ok by (rewrite !length_app; lia).
  rewrite drop_app_length.
  replace (length l + length m - length l) with (length m) by lia.
  by rewrite take_app_length.
Qed.

(** ** String literals as byte lists *)

Definition str (s : string) : list Z :=
  (fun a => Z.of_N (Ascii.N_of_ascii a)) <$> String.list_ascii_of_string s.

(** Whether a slice has no element ([len(s) == 0]). *)
Definition isnil {A} (l : list A) : bool := match l with [] => true | _ => false end.

(** ** Shared list lemmas *)

Lemma drop_S_lookup {A} (l : list A) i (a : A) :
  l !! i = Some a -> drop i l = a :: drop (S i) l.
Proof. intros. by apply drop_S. Qed.

Lemma prefix_of_drop {A} (l k : list A) i :
  k `prefix_of` drop i l -> k ≠ [] -> i + length k <= length l.
Proof.
  intros [r Hr] Hk.
  assert (Hl : length (drop i l) = length k + length r) by (by rewrite Hr, length_app).
  rewrite length_drop in Hl. destruct k; [done|]. simpl in *. lia.
Qed.

Create HintDb go.
Create Rewrite HintDb go.
#[export] Hint Resolve u8_is_byte u16_is_u16 : go.
#[export] Hint Rewrite @bind_Ok : go.
