(* ===== verification/Ascii.v ===== *)
(** Package [lib/ascii]: classification and case mapping of ASCII bytes. *)

From Stdlib Require Import ZArith Lia.
From S2P Require Import Prelude.

Local Open Scope Z_scope.

(** [IsAlpha]: a letter of either case. *)
Definition IsAlpha (b : Z) : bool :=
  ((97 <=? b) && (b <=? 122)) || ((65 <=? b) && (b <=? 90)).

(** [IsDigit]. *)
Definition IsDigit (b : Z) : bool := (48 <=? b) && (b <=? 57).

(** [IsAlnum]. *)
Definition IsAlnum (b : Z) : bool := IsAlpha b || IsDigit b.

(** [IsDigits]: the loop returns at the first byte that is no digit. *)
Fixpoint IsDigits (data : list Z) : bool :=
  match data with
  | [] => true
  | c :: data' => if negb (IsDigit c) then false else IsDigits data'
  end.

(** [IsHex]; note the lower bound ['1'] of the first range. *)
Definition IsHex (b : Z) : bool :=
  ((49 <=? b) && (b <=? 57)) || ((97 <=? b) && (b <=? 102)) || ((65 <=? b) && (b <=? 70)).

(** [IsSpace]: tab, line feed, vertical tab, form feed, carriage return, space. *)
Definition IsSpace (b : Z) : bool :=
  (b =? 9) || (b =? 10) || (b =? 11) || (b =? 12) || (b =? 13) || (b =? 32).

(** [Spaces]. *)
Definition Spaces : list Z := [9; 10; 11; 12; 13; 32].

Definition lower_byte (c : Z) : Z :=
  if (c <? 65) || (90 <? c) then c else u8 (c + 32).

Definition upper_byte (c : Z) : Z :=
  if (c <? 97) || (122 <? c) then c else u8 (c - 32).

(** [ToLower], [ToUpper]: the in-place loops over the slice. *)
Fixpoint ToLower (data : list Z) : list Z :=
  match data with
  | [] => []
  | c :: data' => lower_byte c :: ToLower data'
  end.

Fixpoint ToUpper (data : list Z) : list Z :=
  match data with
  | [] => []
  | c :: data' => upper_byte c :: ToUpper data'
  end.

(** ** Facts *)

Lemma IsSpace_Spaces b : IsSpace b = true <-> b ∈ Spaces.
Proof.
  unfold IsSpace, Spaces. rewrite !elem_of_cons, elem_of_nil, !orb_true_iff, !Z.eqb_eq. tauto.
Qed.

Lemma lower_byte_byte c : is_byte c -> is_byte (lower_byte c).
Proof. intros. unfold lower_byte. destruct (_ || _); auto with go. Qed.

Lemma lower_byte_idem c : is_byte c -> lower_byte (lower_byte c) = lower_byte c.
Proof. intros Hc. by_bytes c Hc. Qed.

Lemma ToLower_map data : ToLower data = lower_byte <$> data.
Proof. induction data; simpl; by f_equal. Qed.

Lemma ToUpper_map data : ToUpper data = upper_byte <$> data.
Proof. induction data; simpl; by f_equal. Qed.

Lemma length_ToLower data : length (ToLower data) = length data.
Proof. rewrite ToLower_map. apply length_fmap. Qed.

Lemma ToLower_app l k : ToLower (l ++ k) = ToLower l ++ ToLower k.
Proof. rewrite !ToLower_map. apply fmap_app. Qed.

Lemma ToLower_bytes data : is_bytes data -> is_bytes (ToLower data).
Proof. induction 1; simpl; constructor; auto using lower_byte_byte. Qed.

(** A slice that has no upper-case letter, which [ToLower] leaves alone. *)
Definition is_lower (data : list Z) : Prop := Forall (fun c => lower_byte c = c) data.

Lemma ToLower_id data : is_lower data -> ToLower data = data.
Proof. induction 1; simpl; congruence. Qed.

Lemma ToLower_is_lower data : is_bytes data -> is_lower (ToLower data).
Proof. induction 1; simpl; constructor; auto using lower_byte_idem. Qed.

Lemma ToLower_idem data : is_bytes data -> ToLower (ToLower data) = ToLower data.
Proof. intros. by apply ToLower_id, ToLower_is_lower. Qed.

Lemma lower_upper_byte c : is_byte c -> lower_byte (upper_byte c) = lower_byte c.
Proof. intros Hc. by_bytes c Hc. Qed.

(** Case mapping changes letters only, and both mappings agree up to case. *)
Lemma ToLower_ToUpper data : is_bytes data -> ToLower (ToUpper data) = ToLower data.
Proof. induction 1; simpl; f_equal; auto using lower_upper_byte. Qed.

#[export] Hint Resolve lower_byte_byte ToLower_bytes ToLower_is_lower : go.
