(* ===== verification/Bytes.v ===== *)
(** Package [lib/bytes]: big-endian packing, token search and cutting of byte
    slices.  Indices are [nat]; a parameter the code lets be negative is a [Z]. *)

From Stdlib Require Import ZArith Lia Sorted.
From S2P Require Import Prelude Ascii.

Local Open Scope Z_scope.

Section Endian.
Context {E : Type}.

(** [AppendInt16], [AppendUint16]: [byte(v>>8)], then [byte(v)]. *)
Definition AppendUint16 (data : list Z) (v : Z) : list Z :=
  data ++ [u8 (Z.shiftr v 8)] ++ [u8 v].
Definition AppendInt16 (data : list Z) (v : Z) : list Z :=
  data ++ [u8 (Z.shiftr v 8)] ++ [u8 v].

(** [AppendInt32], [AppendUint32]. *)
Definition AppendUint32 (data : list Z) (v : Z) : list Z :=
  data ++ [u8 (Z.shiftr v 24)] ++ [u8 (Z.shiftr v 16)] ++ [u8 (Z.shiftr v 8)] ++ [u8 v].
Definition AppendInt32 (data : list Z) (v : Z) : list Z :=
  data ++ [u8 (Z.shiftr v 24)] ++ [u8 (Z.shiftr v 16)] ++ [u8 (Z.shiftr v 8)] ++ [u8 v].

Definition ReadUint16 (data : list Z) (x : nat) : outcome E Z :=
  b0 ← get_at data x; b1 ← get_at data (x + 1)%nat;
  Ok (Z.lor (u16 (Z.shiftl b0 8)) b1).

Definition ReadInt16 (data : list Z) (x : nat) : outcome E Z :=
  b0 ← get_at data x; b1 ← get_at data (x + 1)%nat;
  Ok (Z.lor (s16 (Z.shiftl b0 8)) b1).

Definition ReadUint32 (data : list Z) (x : nat) : outcome E Z :=
  b0 ← get_at data x; b1 ← get_at data (x + 1)%nat;
  b2 ← get_at data (x + 2)%nat; b3 ← get_at data (x + 3)%nat;
  Ok (Z.lor (Z.lor (Z.lor (u32 (Z.shiftl b0 24)) (u32 (Z.shiftl b1 16)))
                   (u32 (Z.shiftl b2 8))) b3).

Definition ReadInt32 (data : list Z) (x : nat) : outcome E Z :=
  b0 ← get_at data x; b1 ← get_at data (x + 1)%nat;
  b2 ← get_at data (x + 2)%nat; b3 ← get_at data (x + 3)%nat;
  Ok (Z.lor (Z.lor (Z.lor (s32 (Z.shiftl b0 24)) (s32 (Z.shiftl b1 16)))
                   (s32 (Z.shiftl b2 8))) b3).

Definition WriteUint16 (data : list Z) (x : nat) (v : Z) : outcome E (list Z) :=
  data ← set_at data x (u8 (Z.shiftr v 8));
  set_at data (x + 1)%nat (u8 v).

Definition WriteUint32 (data : list Z) (x : nat) (v : Z) : outcome E (list Z) :=
  data ← set_at data x (u8 (Z.shiftr v 24));
  data ← set_at data (x + 1)%nat (u8 (Z.shiftr v 16));
  data ← set_at data (x + 2)%nat (u8 (Z.shiftr v 8));
  set_at data (x + 3)%nat (u8 v).
End Endian.

(** The dynamic type of an argument of [Concat]. *)
Inductive concat_arg : Type :=
| ArgString (s : list Z)
| ArgBytes (b : list Z)
| ArgOther.

Fixpoint Concat_loop (out : list Z) (args : list concat_arg) : list Z :=
  match args with
  | [] => out
  | ArgString s :: args' => Concat_loop (out ++ s) args'
  | ArgBytes b :: args' => Concat_loop (out ++ b) args'
  | ArgOther :: args' => Concat_loop out args'
  end.

Definition Concat (sb : list Z) (args : list concat_arg) : list Z :=
  Concat_loop (if decide (0 < length sb)%nat then sb else []) args.

(** [IsTokenAt]: the comparison loop, then the guards in front of it. *)
Fixpoint IsTokenAt_loop (line token : list Z) (p : nat) : bool :=
  match token with
  | [] => true
  | t :: token' =>
      match line !! p with
      | Some c => if negb (c =? t) then false else IsTokenAt_loop line token' (S p)
      | None => false
      end
  end.

Definition IsTokenAt (line token : list Z) (p : Z) : bool :=
  if decide (length token = 0%nat) then false
  else
    let p := if p <? 0 then 0 else p in
    if Z.of_nat (length line) <? p + Z.of_nat (length token) then false
    else IsTokenAt_loop line token (Z.to_nat p).

(** [CutUntilToken]: the loop over [p]; [v] is the cut prefix, [escaped] says
    that the previous byte was an escape.  An escaped token moves [p] past the
    whole token. *)
Fixpoint CutUntilToken_loop (fuel : nat) (line token : list Z) (tok0 : Z) (checkEsc : bool)
    (v : list Z) (p : nat) (escaped : bool) : list Z * Z * bool :=
  match fuel with
  | O => (v, Z.of_nat p, false)
  | S fuel =>
      let loop := CutUntilToken_loop fuel line token tok0 checkEsc in
      match line !! p with
      | None => (v, Z.of_nat p, false)
      | Some c =>
          if checkEsc && (c =? 92) then
            if escaped then loop (v ++ [92]) (S p) false
            else loop v (S p) true
          else if negb (c =? tok0) then
            loop ((if escaped then v ++ [92] else v) ++ [c]) (S p) false
          else if negb (IsTokenAt line token (Z.of_nat p)) then
            loop ((if escaped then v ++ [92] else v) ++ [c]) (S p) false
          else if escaped then loop (v ++ token) (p + length token)%nat false
          else (v, Z.of_nat (p + length token), true)
      end
  end.

Definition CutUntilToken (line token : list Z) (startAt : Z) (checkEsc : bool)
    : list Z * Z * bool :=
  match token with
  | [] => (line, -1, false)
  | tok0 :: _ =>
      let startAt := if startAt <? 0 then 0 else startAt in
      CutUntilToken_loop (S (length line)) line token tok0 checkEsc [] (Z.to_nat startAt) false
  end.

(** [TokenFind]: one pass over the line; [y] counts the matched bytes of the
    token and [at] is where the current match began.  [y] is below the token
    length at every read of [token[y]]. *)
Fixpoint TokenFind_loop (token rest : list Z) (x : Z) (y : nat) (at_ : Z) : Z :=
  match rest with
  | [] => if decide (y < length token)%nat then -1 else at_
  | c :: rest' =>
      if bool_decide (token !! y = Some c) then
        let at_ := if decide (y = 0%nat) then x else at_ in
        if decide (S y = length token) then at_
        else TokenFind_loop token rest' (x + 1) (S y) at_
      else if negb (at_ =? -1) then TokenFind_loop token rest' (x + 1) 0 (-1)
      else TokenFind_loop token rest' (x + 1) y at_
  end.

Definition TokenFind (line token : list Z) (startat : Z) : Z :=
  if decide (length token = 0%nat) then -1
  else
    let startat := if startat <? 0 then 0 else startat in
    TokenFind_loop token (drop (Z.to_nat startat) line) startat 0 (-1).

(** [EncloseRemove]: the recursive call is on a line that lost at least one
    byte; the fuel is the length of the line. *)
Fixpoint EncloseRemove_rec (fuel : nat) (line leftcap rightcap : list Z) : list Z * bool :=
  match fuel with
  | O => (line, false)
  | S fuel =>
      let lidx := TokenFind line leftcap 0 in
      let ridx := TokenFind line rightcap (lidx + 1) in
      if (lidx <? 0) || (ridx <? 0) || (ridx <=? lidx) then (line, false)
      else
        let newline := take (Z.to_nat lidx) line
                       ++ drop (Z.to_nat ridx + length rightcap) line in
        ((EncloseRemove_rec fuel newline leftcap rightcap).1, true)
  end.

Definition EncloseRemove (line leftcap rightcap : list Z) : list Z * bool :=
  EncloseRemove_rec (S (length line)) line leftcap rightcap.

(** [EncloseToken]: one iteration per token found. *)
Fixpoint EncloseToken_loop (fuel : nat) (line token leftcap rightcap newline : list Z)
    (startat : Z) : list Z * Z :=
  match fuel with
  | O => (newline, startat)
  | S fuel =>
      let foundat := TokenFind line token startat in
      if foundat <? 0 then (newline ++ drop (Z.to_nat startat) line, startat)
      else
        EncloseToken_loop fuel line token leftcap rightcap
          (newline ++ take (Z.to_nat foundat - Z.to_nat startat) (drop (Z.to_nat startat) line)
           ++ leftcap ++ token ++ rightcap)
          (foundat + Z.of_nat (length token))
  end.

Definition EncloseToken (line token leftcap rightcap : list Z) : list Z * bool :=
  let '(newline, startat) :=
    EncloseToken_loop (S (length line)) line token leftcap rightcap [] 0 in
  (newline, 0 <? startat).

(** [ReadHexByte]: the loop runs with [y = 4] and then [y = 0]. *)
Definition hex_or (b c : Z) (y : Z) : option Z :=
  if (48 <=? c) && (c <=? 57) then Some (Z.lor b (u8 (Z.shiftl (c - 48) y)))
  else if (65 <=? c) && (c <=? 70) then Some (Z.lor b (u8 (Z.shiftl (c - 55) y)))
  else if (97 <=? c) && (c <=? 102) then Some (Z.lor b (u8 (Z.shiftl (c - 87) y)))
  else None.

Definition ReadHexByte {E} (data : list Z) (x : nat) : outcome E (Z * bool) :=
  if decide (length data < x + 2)%nat then Ok (0, false)
  else
    c ← get_at data x;
    match hex_or 0 c 4 with
    | None => Ok (0, false)
    | Some b =>
        c ← get_at data (S x);
        match hex_or b c 0 with
        | None => Ok (b, false)
        | Some b => Ok (b, true)
        end
    end.

(** [InReplace]. *)
Fixpoint InReplace_found (c : Z) (allowed : list Z) : bool :=
  match allowed with
  | [] => false
  | a :: allowed' => if c =? a then true else InReplace_found c allowed'
  end.

Fixpoint InReplace (inp allowed : list Z) (c : Z) : list Z :=
  match inp with
  | [] => []
  | b :: inp' =>
      (if negb (InReplace_found b allowed) then c else b) :: InReplace inp' allowed c
  end.

(** Standard library [bytes.Index]: the first occurrence of a separator. *)
Fixpoint Index (s sep : list Z) : option nat :=
  if decide (sep `prefix_of` s) then Some 0%nat
  else match s with
       | [] => None
       | _ :: s' => S <$> Index s' sep
       end.

(** [Indexes]: every iteration drops the bytes up to the end of the match. *)
Fixpoint Indexes_loop (fuel : nat) (s token : list Z) (offset : nat) : list nat :=
  match fuel with
  | O => []
  | S fuel =>
      match Index s token with
      | None => []
      | Some idx =>
          let skip := (idx + length token)%nat in
          (offset + idx)%nat :: Indexes_loop fuel (drop skip s) token (offset + skip)
      end
  end.

Definition Indexes (s token : list Z) : list nat :=
  if decide (length s = 0%nat \/ length token = 0%nat) then []
  else Indexes_loop (S (length s)) s token 0.

(** [SkipAfterToken]; [token[0]] panics on an empty token. *)
Fixpoint SkipAfterToken_loop {E} (fuel : nat) (line token : list Z) (checkEsc : bool)
    (p : nat) (escaped : bool) : outcome E (nat * bool) :=
  match fuel with
  | O => NoFuel
  | S fuel =>
      let loop := SkipAfterToken_loop fuel line token checkEsc (S p) in
      match line !! p with
      | None => Ok (p, false)
      | Some c =>
          if checkEsc && (c =? 92) then loop true
          else
            tok0 ← get_at token 0%nat;
            if negb (c =? tok0) then loop false
            else if negb (IsTokenAt line token (Z.of_nat p)) then loop false
            else if checkEsc && escaped then loop false
            else Ok ((p + length token)%nat, true)
      end
  end.

Definition SkipAfterToken {E} (line token : list Z) (startAt : Z) (checkEsc : bool)
    : outcome E (nat * bool) :=
  let startAt := if startAt <? 0 then 0 else startAt in
  SkipAfterToken_loop (S (length line)) line token checkEsc (Z.to_nat startAt) false.

(** [SnippetByIndexes]; the slice expression panics when an index lies beyond
    the data by more than the snippet length. *)
Fixpoint SnippetByIndexes {E} (s : list Z) (indexes : list Z) (sniplen : Z)
    : outcome E (list (list Z)) :=
  match indexes with
  | [] => Ok []
  | idx :: indexes' =>
      let start := if idx - sniplen <? 0 then 0 else idx - sniplen in
      let end_ := if Z.of_nat (length s) <? idx + sniplen then Z.of_nat (length s)
                  else idx + sniplen in
      if end_ <? 0 then Panic
      else
        snip ← slice s (Z.to_nat start) (Z.to_nat end_);
        rest ← SnippetByIndexes s indexes' sniplen;
        Ok (snip :: rest)
  end.

(** Standard library [unicode.IsSpace] on a byte taken as a rune. *)
Definition rune_IsSpace_latin1 (b : Z) : bool := IsSpace b || (b =? 133) || (b =? 160).

(** [WordIndexes]: keep the matches with a space or an end on both sides. *)
Definition WordIndexes_keep (s word : list Z) (idx : nat) : bool :=
  (match idx with
   | O => true
   | S x => match s !! x with Some c => rune_IsSpace_latin1 c | None => false end
   end)
  && (match s !! (idx + length word)%nat with
      | None => true
      | Some c => rune_IsSpace_latin1 c
      end).

Definition WordIndexes (s word : list Z) : list nat :=
  base.filter (fun idx => WordIndexes_keep s word idx = true) (Indexes s word).

(** ** Big-endian round trips *)

Lemma lor_bytes2 a b : is_byte b -> Z.lor (Z.shiftl a 8) b = a * 256 + b.
Proof. intros. rewrite lor_shiftl_add; unfold is_byte in *; lia. Qed.

Lemma lor_bytes4 a b c d :
  is_byte b -> is_byte c -> is_byte d ->
  Z.lor (Z.lor (Z.lor (Z.shiftl a 24) (Z.shiftl b 16)) (Z.shiftl c 8)) d
  = a * 2 ^ 24 + b * 2 ^ 16 + c * 2 ^ 8 + d.
Proof.
  unfold is_byte. intros. rewrite <- !Z.lor_assoc.
  rewrite (lor_shiftl_add c d 8) by lia.
  rewrite (lor_shiftl_add b _ 16) by lia.
  rewrite (lor_shiftl_add a _ 24) by lia. lia.
Qed.

Lemma u16_shiftl8 b : is_byte b -> u16 (Z.shiftl b 8) = Z.shiftl b 8.
Proof. intros. rewrite Z.shiftl_mul_pow2 by lia. apply u16_id. unfold is_byte, is_u16 in *. lia. Qed.

Lemma u32_shiftl b n : is_byte b -> 0 <= n <= 24 -> u32 (Z.shiftl b n) = Z.shiftl b n.
Proof.
  intros Hb Hn. rewrite Z.shiftl_mul_pow2 by lia. unfold u32, is_byte in *.
  apply Z.mod_small. pose proof (Z.pow_le_mono_r 2 n 24). pose proof (Z.pow_pos_nonneg 2 n). nia.
Qed.

(** The signed reading of the top byte of a [w]-byte integer. *)
Definition top_signed (b : Z) : Z := if b <? 128 then b else b - 256.

Lemma s16_shiftl8 b : is_byte b -> s16 (Z.shiftl b 8) = Z.shiftl (top_signed b) 8.
Proof. intros Hb. by_bytes b Hb. Qed.

Lemma s32_shiftl24 b : is_byte b -> s32 (Z.shiftl b 24) = Z.shiftl (top_signed b) 24.
Proof. intros Hb. by_bytes b Hb. Qed.

Lemma s32_shiftl b n : is_byte b -> 0 <= n <= 16 -> s32 (Z.shiftl b n) = Z.shiftl b n.
Proof.
  intros Hb Hn. rewrite Z.shiftl_mul_pow2 by lia. unfold s32, is_byte in *.
  assert (b * 2 ^ n < 2 ^ 31).
  { pose proof (Z.pow_le_mono_r 2 n 16). pose proof (Z.pow_pos_nonneg 2 n). nia. }
  pose proof (Z.pow_pos_nonneg 2 n).
  rewrite Z.mod_small by nia. lia.
Qed.

Lemma get_at_tail {E A} (l : list A) (k : list A) (i : nat) (a : A) :
  k !! i = Some a -> get_at (E := E) (l ++ k) (length l + i)%nat = Ok a.
Proof. intros. rewrite (get_at_app_r l k _ i) by lia. by apply get_at_Some. Qed.

Lemma get_at_tail0 {E A} (l : list A) (k : list A) (a : A) :
  get_at (E := E) (l ++ a :: k) (length l) = Ok a.
Proof. rewrite (get_at_app_r l _ _ 0) by lia. done. Qed.

Ltac read_bytes :=
  rewrite ?get_at_tail0; cbn [mbind outcome_bind];
  repeat (erewrite get_at_tail by reflexivity; cbn [mbind outcome_bind]).

Lemma ReadUint16_at {E} pre b0 b1 rest :
  is_byte b0 -> is_byte b1 ->
  ReadUint16 (E := E) (pre ++ b0 :: b1 :: rest) (length pre) = Ok (b0 * 256 + b1).
Proof.
  intros. unfold ReadUint16. read_bytes.
  by rewrite u16_shiftl8, lor_bytes2 by done.
Qed.

Lemma ReadInt16_at {E} pre b0 b1 rest :
  is_byte b0 -> is_byte b1 ->
  ReadInt16 (E := E) (pre ++ b0 :: b1 :: rest) (length pre) = Ok (top_signed b0 * 256 + b1).
Proof.
  intros. unfold ReadInt16. read_bytes.
  by rewrite s16_shiftl8, lor_bytes2 by done.
Qed.

Lemma ReadUint32_at {E} pre b0 b1 b2 b3 rest :
  is_byte b0 -> is_byte b1 -> is_byte b2 -> is_byte b3 ->
  ReadUint32 (E := E) (pre ++ b0 :: b1 :: b2 :: b3 :: rest) (length pre)
  = Ok (b0 * 2 ^ 24 + b1 * 2 ^ 16 + b2 * 2 ^ 8 + b3).
Proof.
  intros. unfold ReadUint32. read_bytes.
  by rewrite !u32_shiftl, lor_bytes4 by (done || lia).
Qed.

Lemma ReadInt32_at {E} pre b0 b1 b2 b3 rest :
  is_byte b0 -> is_byte b1 -> is_byte b2 -> is_byte b3 ->
  ReadInt32 (E := E) (pre ++ b0 :: b1 :: b2 :: b3 :: rest) (length pre)
  = Ok (top_signed b0 * 2 ^ 24 + b1 * 2 ^ 16 + b2 * 2 ^ 8 + b3).
Proof.
  intros. unfold ReadInt32. read_bytes.
  by rewrite s32_shiftl24, !s32_shiftl, lor_bytes4 by (done || lia).
Qed.

(** The bytes a value is split into, in terms of quotients and remainders. *)
Ltac split_value :=
  unfold u8, top_signed, is_u16, is_u32 in *;
  rewrite ?Z.shiftr_div_pow2 by lia;
  repeat case_match; rewrite ?Z.ltb_lt, ?Z.ltb_ge in *;
  Z.div_mod_to_equations; lia.

Lemma ReadUint16_Append {E} data v rest :
  is_u16 v -> ReadUint16 (E := E) (AppendUint16 data v ++ rest) (length data) = Ok v.
Proof.
  intros Hv. unfold AppendUint16. rewrite <- !(assoc_L (++)).
  simpl. rewrite ReadUint16_at by auto with go. f_equal. split_value.
Qed.

Lemma ReadUint32_Append {E} data v rest :
  is_u32 v -> ReadUint32 (E := E) (AppendUint32 data v ++ rest) (length data) = Ok v.
Proof.
  intros Hv. unfold AppendUint32. rewrite <- !(assoc_L (++)).
  simpl. rewrite ReadUint32_at by auto with go. f_equal. split_value.
Qed.

Lemma ReadInt16_Append {E} data v rest :
  -2 ^ 15 <= v < 2 ^ 15 -> ReadInt16 (E := E) (AppendInt16 data v ++ rest) (length data) = Ok v.
Proof.
  intros Hv. unfold AppendInt16. rewrite <- !(assoc_L (++)).
  simpl. rewrite ReadInt16_at by auto with go. f_equal. split_value.
Qed.

Lemma ReadInt32_Append {E} data v rest :
  -2 ^ 31 <= v < 2 ^ 31 -> ReadInt32 (E := E) (AppendInt32 data v ++ rest) (length data) = Ok v.
Proof.
  intros Hv. unfold AppendInt32. rewrite <- !(assoc_L (++)).
  simpl. rewrite ReadInt32_at by auto with go. f_equal. split_value.
Qed.

Lemma WriteUint16_at {E} pre b0 b1 rest v :
  WriteUint16 (E := E) (pre ++ b0 :: b1 :: rest) (length pre) v
  = Ok (AppendUint16 pre v ++ rest).
Proof.
  unfold WriteUint16. rewrite set_at_app by done. cbn [mbind outcome_bind].
  rewrite (cons_middle _ pre), (assoc_L (++)), set_at_app by (rewrite length_app; simpl; lia).
  unfold AppendUint16. f_equal. by rewrite <- !(assoc_L (++)).
Qed.

Lemma WriteUint32_at {E} pre b0 b1 b2 b3 rest v :
  WriteUint32 (E := E) (pre ++ b0 :: b1 :: b2 :: b3 :: rest) (length pre) v
  = Ok (AppendUint32 pre v ++ rest).
Proof.
  unfold WriteUint32. rewrite set_at_app by done. cbn [mbind outcome_bind].
  do 2 (rewrite (cons_middle _ _ (_ :: _ :: _)), (assoc_L (++)), set_at_app
    by (rewrite !length_app; simpl; lia); cbn [mbind outcome_bind]).
  rewrite (cons_middle _ _ (_ :: _)), (assoc_L (++)), set_at_app
    by (rewrite !length_app; simpl; lia).
  unfold AppendUint32. f_equal. by rewrite <- !(assoc_L (++)).
Qed.

Lemma length_AppendUint16 l v : length (AppendUint16 l v) = (length l + 2)%nat.
Proof. unfold AppendUint16. rewrite !length_app. simpl. lia. Qed.

Lemma length_AppendUint32 l v : length (AppendUint32 l v) = (length l + 4)%nat.
Proof. unfold AppendUint32. rewrite !length_app. simpl. lia. Qed.

(** Overwriting a field in place makes it read back as the new value. *)
Lemma ReadUint16_Write {E} data x v :
  is_u16 v -> (x + 2 <= length data)%nat ->
  (d ← WriteUint16 (E := E) data x v; ReadUint16 d x) = Ok v.
Proof.
  intros Hv Hx.
  destruct (lookup_lt_is_Some_2 data x) as [b0 H0]; [lia|].
  destruct (lookup_lt_is_Some_2 data (S x)) as [b1 H1]; [lia|].
  rewrite <- (take_drop_middle data x b0 H0), (drop_S_lookup data (S x) b1 H1).
  assert (Hl : length (take x data) = x) by (rewrite length_take; lia).
  revert Hl. generalize (take x data) (drop (S (S x)) data). clear H0 H1 Hx. intros pre rest <-.
  rewrite WriteUint16_at. cbn [mbind outcome_bind].
  by apply ReadUint16_Append.
Qed.

(** ** Token search *)

Lemma IsTokenAt_loop_spec line token p :
  IsTokenAt_loop line token p = true <-> token `prefix_of` drop p line.
Proof.
  revert p. induction token as [|t token IH]; intros p; simpl.
  { split; [intros; apply prefix_nil | done]. }
  destruct (line !! p) as [c|] eqn:Hc.
  - rewrite (drop_S_lookup _ _ _ Hc). destruct (Z.eqb_spec c t) as [->|Hne]; simpl.
    + rewrite IH. split; [apply prefix_cons | apply prefix_cons_inv_2].
    + split; [done|]. intros H. apply prefix_cons_inv_1 in H. congruence.
  - split; [done|]. apply lookup_ge_None in Hc. rewrite drop_ge by done.
    intros H. by apply prefix_nil_inv in H.
Qed.

Lemma IsTokenAt_spec line token (p : nat) :
  IsTokenAt line token (Z.of_nat p) = true <-> token ≠ [] /\ token `prefix_of` drop p line.
Proof.
  unfold IsTokenAt. destruct (decide (length token = 0%nat)) as [He|He].
  { apply nil_length_inv in He as ->. naive_solver. }
  assert (token ≠ []) by (intros ->; done).
  rewrite (proj2 (Z.ltb_ge (Z.of_nat p) 0)) by lia.
  destruct (Z.ltb_spec (Z.of_nat (length line)) (Z.of_nat p + Z.of_nat (length token))).
  - split; [done|]. intros [_ Hp%prefix_of_drop]; [lia|done].
  - rewrite Nat2Z.id, IsTokenAt_loop_spec. tauto.
Qed.

Lemma IsTokenAt_false line token (p : nat) :
  token ≠ [] -> IsTokenAt line token (Z.of_nat p) = false <-> ~ token `prefix_of` drop p line.
Proof.
  intros Hne. destruct (IsTokenAt line token (Z.of_nat p)) eqn:Ht.
  - rewrite IsTokenAt_spec in Ht. naive_solver.
  - split; [|done]. intros _ Hp.
    rewrite (proj2 (IsTokenAt_spec line token p)) in Ht; done.
Qed.

(** What [TokenFind]'s pass knows after [x] bytes: no match in progress, or the
    first [y] bytes of the token end at [x]. *)
Definition find_inv (line token : list Z) (x y : nat) (at_ : Z) : Prop :=
  (at_ = -1 /\ y = 0%nat)
  \/ (0 < y <= x /\ at_ = Z.of_nat (x - y) /\ take y token `prefix_of` drop (x - y) line)%nat.

Lemma prefix_extend (line token : list Z) (s y : nat) c :
  take y token `prefix_of` drop s line -> token !! y = Some c -> line !! (s + y)%nat = Some c ->
  take (S y) token `prefix_of` drop s line.
Proof.
  intros [r Hr] Ht Hl.
  assert (Hy : length (take y token) = y).
  { apply lookup_lt_Some in Ht. rewrite length_take. lia. }
  rewrite (take_S_r _ _ _ Ht). destruct r as [|c' r].
  - rewrite app_nil_r in Hr. rewrite <- lookup_drop, Hr, lookup_take_ge in Hl by lia. done.
  - exists r. rewrite Hr. rewrite <- lookup_drop, Hr, lookup_app_r in Hl by lia.
    replace (y - length (take y token))%nat with 0%nat in Hl by lia.
    injection Hl as ->. by rewrite <- (assoc_L (++)).
Qed.

Lemma TokenFind_loop_sound line token s : forall rest x y at_ r,
  rest = drop x line -> (s <= x - y)%nat -> (y < length token)%nat ->
  find_inv line token x y at_ ->
  TokenFind_loop token rest (Z.of_nat x) y at_ = r -> 0 <= r ->
  exists m, r = Z.of_nat m /\ (s <= m)%nat /\ token `prefix_of` drop m line.
Proof.
  induction rest as [|c rest IH]; intros x y at_ r Hrest Hs Hy Hinv Hr Hpos; simpl in Hr.
  { rewrite decide_True in Hr by done. lia. }
  assert (Hc : line !! x = Some c) by (rewrite <- (Nat.add_0_r x), <- lookup_drop, <- Hrest; done).
  assert (Hrest' : rest = drop (S x) line) by (rewrite (drop_S_lookup _ _ _ Hc) in Hrest; congruence).
  replace (Z.of_nat x + 1) with (Z.of_nat (S x)) in Hr by lia.
  case_bool_decide as Htok.
  - set (at' := if decide (y = 0%nat) then Z.of_nat x else at_) in *.
    assert (at' = Z.of_nat (x - y) /\ (y <= x)%nat
                  /\ take (S y) token `prefix_of` drop (x - y) line) as (Hat & Hyx & Hpre).
    { unfold at'. destruct Hinv as [[-> ->]|(Hyx & -> & Hpre)].
      - rewrite decide_True by done. split_and!; [lia | lia |].
        apply (prefix_extend _ _ _ 0 c); rewrite ?Nat.sub_0_r, ?Nat.add_0_r; auto using prefix_nil.
      - rewrite decide_False by lia. split_and!; [done|lia|].
        apply (prefix_extend _ _ _ _ c); auto. by replace (x - y + y)%nat with x by lia. }
    destruct (decide (S y = length token)) as [Hend|Hend].
    + exists (x - y)%nat. rewrite Hend, take_ge in Hpre by lia. split_and!; [congruence|lia|done].
    + eapply IH; [..|exact Hr|done]; try done; try lia.
      right. replace (S x - S y)%nat with (x - y)%nat by lia. split_and!; done || lia.
  - destruct (Z.eqb_spec at_ (-1)) as [->|Hne]; simpl in Hr.
    + destruct Hinv as [[_ ->]|(?&?&?)]; [|lia].
      eapply IH; [..|exact Hr|done]; try done; try lia. by left.
    + eapply IH; [..|exact Hr|done]; try done; try lia. by left.
Qed.

Lemma TokenFind_Some line token (startat : nat) r :
  TokenFind line token (Z.of_nat startat) = r -> 0 <= r ->
  exists m, r = Z.of_nat m /\ (startat <= m)%nat /\ token ≠ [] /\ token `prefix_of` drop m line.
Proof.
  unfold TokenFind. intros Hr Hpos.
  destruct (decide _) as [|Hne]; [lia|].
  rewrite (proj2 (Z.ltb_ge _ _)), Nat2Z.id in Hr by lia.
  destruct (TokenFind_loop_sound line token startat _ startat 0 (-1) r eq_refl)
    as (m & -> & Hs & Hp); try done; try lia.
  { by left. }
  exists m. split_and!; try done. by intros ->.
Qed.

(** [TokenFind] never reports a position that is no match: the index it
    returns is at or after [startat] and the whole token is at that index. *)
Theorem TokenFind_sound line token (startat : nat) :
  0 <= TokenFind line token (Z.of_nat startat) ->
  Z.of_nat startat <= TokenFind line token (Z.of_nat startat)
  /\ IsTokenAt line token (TokenFind line token (Z.of_nat startat)) = true
  /\ TokenFind line token (Z.of_nat startat) + Z.of_nat (length token) <= Z.of_nat (length line).
Proof.
  intros Hpos. destruct (TokenFind_Some line token startat _ eq_refl Hpos) as (m & -> & Hs & Hne & Hp).
  split_and!; [lia | by apply IsTokenAt_spec |].
  pose proof (prefix_of_drop _ _ _ Hp Hne). lia.
Qed.

Lemma TokenFind_sound_witness :
  0 <= TokenFind (str "a=b;c=d") (str "c=") (Z.of_nat 1)
  /\ Z.of_nat 1 <= TokenFind (str "a=b;c=d") (str "c=") (Z.of_nat 1).
Proof.
  split; [vm_compute; discriminate|].
  apply (TokenFind_sound (str "a=b;c=d") (str "c=") 1). vm_compute. discriminate.
Defined.

(** A match that begins at the byte which ended a partial match is missed. *)
Lemma TokenFind_misses :
  IsTokenAt (str "aab") (str "ab") 1 = true /\ TokenFind (str "aab") (str "ab") 0 = -1.
Proof. by vm_compute. Qed.

(** ** Cutting at the first occurrence *)

Lemma Index_cases (s sep : list Z) :
  match Index s sep with
  | Some m => sep `prefix_of` drop m s /\ (forall j, (j < m)%nat -> ~ sep `prefix_of` drop j s)
  | None => forall j, ~ (sep `prefix_of` drop j s)
  end.
Proof.
  induction s as [|c s IH]; simpl; destruct (decide _) as [Hp|Hp]; simpl.
  - split; [done | lia].
  - intros j. by rewrite drop_nil.
  - split; [done | lia].
  - destruct (Index s sep) as [m|]; simpl.
    + destruct IH as [Hm Hlt]. split; [done|]. intros [|j] Hj; [done|]. apply Hlt. lia.
    + intros [|j]; [done | apply IH].
Qed.

Lemma Index_Some_length s sep m : Index s sep = Some m -> sep ≠ [] -> (m + length sep <= length s)%nat.
Proof.
  intros Hi Hne. pose proof (Index_cases s sep) as H. rewrite Hi in H.
  destruct H as [H _]. exact (prefix_of_drop _ _ _ H Hne).
Qed.

(** The scanning loop without escapes, against the first occurrence. *)
Lemma CutUntilToken_loop_Index line token tok0 tk : token = tok0 :: tk ->
  forall rest fuel p v, rest = drop p line -> (p <= length line)%nat -> (length rest < fuel)%nat ->
  CutUntilToken_loop fuel line token tok0 false v p false
  = match Index rest token with
    | Some m => (v ++ take m rest, Z.of_nat (p + m + length token), true)
    | None => (v ++ rest, Z.of_nat (length line), false)
    end.
Proof.
  intros Htok. assert (Hne : token ≠ []) by (by rewrite Htok).
  induction rest as [|c rest IH]; intros fuel p v Hrest Hp Hf; (destruct fuel as [|fuel]; [simpl in Hf; lia|]).
  { simpl. assert (Hl : length (drop p line) = 0%nat) by (by rewrite <- Hrest).
    rewrite length_drop in Hl. rewrite (lookup_ge_None_2 line p) by lia.
    rewrite decide_False by (intros H; by apply prefix_nil_inv in H).
    rewrite app_nil_r. do 2 f_equal. lia. }
  assert (Hc : line !! p = Some c) by (rewrite <- (Nat.add_0_r p), <- lookup_drop, <- Hrest; done).
  pose proof Hrest as Hrest'. rewrite (drop_S_lookup _ _ _ Hc) in Hrest'.
  apply (f_equal tail) in Hrest'. simpl in Hrest'.
  assert (Hlt := lookup_lt_Some _ _ _ Hc).
  cbn [CutUntilToken_loop]. rewrite Hc. cbn [andb].
  assert (Hstep : ~ token `prefix_of` c :: rest ->
    CutUntilToken_loop fuel line token tok0 false (v ++ [c]) (S p) false
    = match Index (c :: rest) token with
      | Some m => (v ++ take m (c :: rest), Z.of_nat (p + m + length token), true)
      | None => (v ++ c :: rest, Z.of_nat (length line), false)
      end).
  { intros Hno. rewrite (IH fuel (S p)) by (done || simpl in *; lia).
    simpl. rewrite decide_False by done.
    destruct (Index rest token) as [m|]; simpl; rewrite <- (assoc_L (++)); simpl;
      repeat f_equal; lia. }
  destruct (Z.eqb_spec c tok0) as [->|Hct]; cbn [negb].
  - destruct (IsTokenAt line token (Z.of_nat p)) eqn:Hat; cbn [negb].
    + apply IsTokenAt_spec in Hat as [_ Hat]. rewrite <- Hrest in Hat.
      simpl. rewrite decide_True by done. simpl. rewrite app_nil_r. repeat f_equal. lia.
    + apply Hstep. apply IsTokenAt_false in Hat; [|done]. by rewrite <- Hrest in Hat.
  - apply Hstep. rewrite Htok. intros Hp'. apply prefix_cons_inv_1 in Hp'. congruence.
Qed.

(** Without escapes, [CutUntilToken] is the cut at the first occurrence
    given by the standard [bytes.Index]: it returns the bytes before the token
    and the position after it, or, when there is no occurrence, the rest of the
    line, the length of the line and false. *)
Theorem CutUntilToken_Index line token (startAt : nat) :
  token ≠ [] /\ (startAt <= length line)%nat ->
  CutUntilToken line token (Z.of_nat startAt) false
  = match Index (drop startAt line) token with
    | Some m => (take m (drop startAt line), Z.of_nat (startAt + m + length token), true)
    | None => (drop startAt line, Z.of_nat (length line), false)
    end.
Proof.
  intros [Hne Hs]. unfold CutUntilToken. destruct token as [|tok0 tk]; [done|].
  rewrite (proj2 (Z.ltb_ge _ _)), Nat2Z.id by lia.
  rewrite (CutUntilToken_loop_Index line (tok0 :: tk) tok0 tk eq_refl (drop startAt line));
    rewrite ?length_drop; done || lia.
Qed.

Lemma CutUntilToken_Index_witness :
  CutUntilToken (str "key=aab") (str "ab") (Z.of_nat 4) false = (str "a", 7, true).
Proof.
  rewrite (CutUntilToken_Index (str "key=aab") (str "ab") 4).
  - vm_compute. reflexivity.
  - split; [discriminate | vm_compute; lia].
Defined.

(** ** Removing enclosed text *)

Lemma EncloseRemove_shrinks line leftcap rightcap lidx ridx :
  lidx = TokenFind line leftcap 0 -> ridx = TokenFind line rightcap (lidx + 1) ->
  (lidx <? 0) || (ridx <? 0) || (ridx <=? lidx) = false ->
  (Z.to_nat lidx <= Z.to_nat ridx + length rightcap)%nat
  /\ (length (take (Z.to_nat lidx) line ++ drop (Z.to_nat ridx + length rightcap) line)
      < length line)%nat.
Proof.
  intros Hl Hr Hcond. rewrite !orb_false_iff, !Z.ltb_ge, Z.leb_gt in Hcond.
  destruct Hcond as [[Hl0 Hr0] Hlt].
  destruct (TokenFind_Some line leftcap 0 lidx) as (m & -> & _ & _ & _); [done..|].
  replace (Z.of_nat m + 1) with (Z.of_nat (S m)) in Hr by lia.
  destruct (TokenFind_Some line rightcap (S m) ridx) as (k & -> & Hk & Hne & Hp); [done..|].
  pose proof (prefix_of_drop _ _ _ Hp Hne).
  assert (length rightcap ≠ 0%nat) by (by destruct rightcap).
  rewrite !Nat2Z.id, length_app, length_take, length_drop. lia.
Qed.

Lemma take_drop_sublist {A} (l : list A) a b : (a <= b)%nat -> take a l ++ drop b l `sublist_of` l.
Proof.
  intros. rewrite <- (take_drop a l) at 3. apply sublist_app; [done|].
  replace b with (a + (b - a))%nat by lia. rewrite <- drop_drop. apply sublist_drop.
Qed.

Lemma EncloseRemove_rec_done leftcap rightcap : forall fuel line,
  (length line < fuel)%nat ->
  (EncloseRemove_rec fuel line leftcap rightcap).1 `sublist_of` line
  /\ forall fuel', EncloseRemove_rec fuel' (EncloseRemove_rec fuel line leftcap rightcap).1
       leftcap rightcap = ((EncloseRemove_rec fuel line leftcap rightcap).1, false).
Proof.
  induction fuel as [|fuel IH]; intros line Hf; [lia|]. simpl.
  destruct (_ || _) eqn:Hcond; simpl.
  - split; [done|]. intros [|fuel']; simpl; [done|]. by rewrite Hcond.
  - edestruct EncloseRemove_shrinks as [Hle Hlt]; [reflexivity | reflexivity | exact Hcond |].
    edestruct IH as [Hsub Hfix]; [|split; [|exact Hfix]]; [lia|].
    etrans; [exact Hsub|]. by apply take_drop_sublist.
Qed.

(** [EncloseRemove] terminates with a line that keeps the bytes of its
    input in order and in which it finds nothing more to remove. *)
Theorem EncloseRemove_done line leftcap rightcap :
  let r := (EncloseRemove line leftcap rightcap).1 in
  r `sublist_of` line /\ EncloseRemove r leftcap rightcap = (r, false).
Proof.
  unfold EncloseRemove. destruct (EncloseRemove_rec_done leftcap rightcap (S (length line)) line)
    as [Hs Hf]; [lia|]. split; [exact Hs | apply Hf].
Qed.

(** ** All occurrences *)

Lemma Indexes_loop_spec token : token ≠ [] -> forall fuel s offset whole,
  s = drop offset whole -> (length s < fuel)%nat ->
  Forall (fun i => offset <= i /\ token `prefix_of` drop i whole)%nat
    (Indexes_loop fuel s token offset)
  /\ StronglySorted (fun i j => i + length token <= j)%nat (Indexes_loop fuel s token offset)
  /\ (forall i, (offset <= i)%nat -> token `prefix_of` drop i whole ->
        exists j, j ∈ Indexes_loop fuel s token offset /\ (j <= i < j + length token)%nat).
Proof.
  intros Hne. assert (length token ≠ 0%nat) by (by destruct token).
  induction fuel as [|fuel IH]; intros s offset whole Hs Hf; [lia|]. simpl.
  pose proof (Index_cases s token) as Hidx.
  destruct (Index s token) as [m|] eqn:Hm.
  2:{ split_and!; [constructor..|]. intros i Hi Hp. destruct (Hidx (i - offset)%nat).
      rewrite Hs, drop_drop. by replace (offset + (i - offset))%nat with i by lia. }
  destruct Hidx as [Hp Hlt]. rewrite Hs, drop_drop in Hp.
  pose proof (Index_Some_length _ _ _ Hm Hne) as Hlen.
  destruct (IH (drop (m + length token) s) (offset + (m + length token))%nat whole) as (H1 & H2 & H3).
  { by rewrite Hs, drop_drop. }
  { rewrite length_drop. lia. }
  split_and!.
  - constructor; [split; [lia|done]|]. eapply Forall_impl; [exact H1|]. simpl. intros ? [??]. split; [lia|done].
  - constructor; [exact H2|]. eapply Forall_impl; [exact H1|]. simpl. intros ? [??]. lia.
  - intros i Hi Hpi. destruct (decide (offset + (m + length token) <= i)%nat) as [Hge|Hge].
    { destruct (H3 i Hge Hpi) as (j & Hj & Hji). exists j. split; [by right | done]. }
    exists (offset + m)%nat. split; [left|]. split; [|lia].
    destruct (decide (offset + m <= i)%nat) as [|Hmi]; [done|].
    destruct (Hlt (i - offset)%nat); [lia|].
    rewrite Hs, drop_drop. by replace (offset + (i - offset))%nat with i by lia.
Qed.

(** [Indexes] returns exactly the non-overlapping occurrences from left to
    right: every index is an occurrence, two consecutive ones are at least a
    token apart, and every occurrence overlaps (or is) a returned one. *)
Theorem Indexes_spec s token :
  token ≠ [] ->
  Forall (fun i => IsTokenAt s token (Z.of_nat i) = true) (Indexes s token)
  /\ StronglySorted (fun i j => i + length token <= j)%nat (Indexes s token)
  /\ (forall i : nat, IsTokenAt s token (Z.of_nat i) = true ->
        exists j, j ∈ Indexes s token /\ (j <= i < j + length token)%nat).
Proof.
  intros Hne. unfold Indexes. destruct (decide _) as [[Hs|Ht]|Hd].
  - apply nil_length_inv in Hs as ->. split_and!; [constructor..|].
    intros i [_ Hp]%IsTokenAt_spec. rewrite drop_nil in Hp. by apply prefix_nil_inv in Hp.
  - by apply nil_length_inv in Ht.
  - destruct (Indexes_loop_spec token Hne (S (length s)) s 0 s) as (H1 & H2 & H3); [done | lia |].
    split_and!; [|exact H2|].
    + eapply Forall_impl; [exact H1|]. simpl. intros i [_ Hp]. by apply IsTokenAt_spec.
    + intros i [_ Hp]%IsTokenAt_spec. apply H3; [lia | done].
Qed.

Lemma Indexes_spec_witness :
  str "aa" ≠ [] /\ Forall (fun i => IsTokenAt (str "aaaba") (str "aa") (Z.of_nat i) = true) [0%nat].
Proof.
  split; [discriminate|].
  apply (Indexes_spec (str "aaaba") (str "aa")). discriminate.
Defined.
