(* ===== verification/WsFrame.v ===== *)
(** Package [lib/websocket], files [frame.go] and [frames.go]: packing and
    unpacking of WebSocket frames.  [Frame.unpack] is resumable: a frame keeps
    in [chopped], [maskKey] and [payload] what it has seen so far. *)

From Stdlib Require Import ZArith Lia.
From S2P Require Import Prelude.

Local Open Scope Z_scope.

(** ** Constants *)

Definition frameSmallPayload : Z := 125.
Definition frameMediumPayload : Z := 126.
Definition frameLargePayload : Z := 127.
Definition frameIsFinished : Z := 128.
Definition frameIsMasked : Z := 128.

Definition OpcodeCont : Z := 0.
Definition OpcodeText : Z := 1.
Definition OpcodeBin : Z := 2.
Definition OpcodeClose : Z := 8.
Definition OpcodePing : Z := 9.
Definition OpcodePong : Z := 10.

Definition StatusNormal : Z := 1000.
Definition StatusBadRequest : Z := 1002.
Definition StatusInvalidData : Z := 1007.

(** ** The frame *)

Record Frame := mkFrame {
  fin : Z; rsv1 : Z; rsv2 : Z; rsv3 : Z;
  opcode : Z;
  masked : Z;
  closeCode : Z;
  len : Z;
  maskKey : list Z;
  payload : list Z;
  chopped : list Z;
  isComplete : bool
}.

(** [&Frame{}]: the zero value. *)
Definition zeroFrame : Frame := mkFrame 0 0 0 0 0 0 0 0 [] [] [] false.

Definition set_first (f : Frame) (b : Z) : Frame :=
  mkFrame (Z.land b frameIsFinished) (Z.land b 64) (Z.land b 32) (Z.land b 16) (Z.land b 15)
    (masked f) (closeCode f) (len f) (maskKey f) (payload f) (chopped f ++ [b]) (isComplete f).
Definition set_second (f : Frame) (b : Z) : Frame :=
  mkFrame (fin f) (rsv1 f) (rsv2 f) (rsv3 f) (opcode f)
    (Z.land b frameIsMasked) (closeCode f) (Z.land b 127) (maskKey f) (payload f)
    (chopped f ++ [b]) (isComplete f).
Definition set_chopped (f : Frame) (c : list Z) : Frame :=
  mkFrame (fin f) (rsv1 f) (rsv2 f) (rsv3 f) (opcode f) (masked f) (closeCode f) (len f)
    (maskKey f) (payload f) c (isComplete f).
Definition set_len (f : Frame) (l : Z) : Frame :=
  mkFrame (fin f) (rsv1 f) (rsv2 f) (rsv3 f) (opcode f) (masked f) (closeCode f) l
    (maskKey f) (payload f) (chopped f) (isComplete f).
Definition set_maskKey (f : Frame) (k : list Z) : Frame :=
  mkFrame (fin f) (rsv1 f) (rsv2 f) (rsv3 f) (opcode f) (masked f) (closeCode f) (len f)
    k (payload f) (chopped f) (isComplete f).
Definition set_payload (f : Frame) (p : list Z) : Frame :=
  mkFrame (fin f) (rsv1 f) (rsv2 f) (rsv3 f) (opcode f) (masked f) (closeCode f) (len f)
    (maskKey f) p (chopped f) (isComplete f).
Definition set_closeCode (f : Frame) (c : Z) : Frame :=
  mkFrame (fin f) (rsv1 f) (rsv2 f) (rsv3 f) (opcode f) (masked f) c (len f)
    (maskKey f) (payload f) (chopped f) (isComplete f).
(** [f.isComplete = true; f.chopped = nil]. *)
Definition set_complete (f : Frame) : Frame :=
  mkFrame (fin f) (rsv1 f) (rsv2 f) (rsv3 f) (opcode f) (masked f) (closeCode f) (len f)
    (maskKey f) (payload f) [] true.

(** ** Packing *)

(** [binary.BigEndian.PutUint16], [PutUint64] and [binary.LittleEndian.PutUint32]. *)
Definition be16 (v : Z) : list Z := [u8 (Z.shiftr v 8); u8 v].
Definition be64 (v : Z) : list Z :=
  (fun i => u8 (Z.shiftr v i)) <$> [56; 48; 40; 32; 24; 16; 8; 0].
Definition le32 (v : Z) : list Z := (fun i => u8 (Z.shiftr v i)) <$> [0; 8; 16; 24].

(** [binary.BigEndian.Uint16] and [Uint64] of the bytes of the slice. *)
Definition from_be (l : list Z) : Z := fold_left (fun a b => Z.lor (Z.shiftl a 8) b) l 0.

(** [data[y] ^ maskKey[(start+y) % 4]] for every [y]. *)
Fixpoint xor_mask (key : list Z) (start : nat) (data : list Z) : list Z :=
  match data with
  | [] => []
  | b :: data' => Z.lxor b (nth (start mod 4) key 0) :: xor_mask key (S start) data'
  end.

(** The length field of the second octet, and the extended length. *)
Definition pack_len (payloadSize : Z) : Z :=
  if 65535 <? payloadSize then frameLargePayload
  else if frameSmallPayload <? payloadSize then frameMediumPayload
  else payloadSize.

Definition pack_ext (l payloadSize : Z) : list Z :=
  if l =? frameLargePayload then be64 payloadSize
  else if l =? frameMediumPayload then be16 (u16 payloadSize)
  else [].

(** [Frame.pack]; [rnd] is the value of [rand.Uint32()], used only when the
    frame has no mask key of its own.  The new frame and the packet. *)
Definition pack (rnd : Z) (f : Frame) : Frame * list Z :=
  let payloadSize := Z.of_nat (length (payload f)) in
  let f := set_len f (pack_len payloadSize) in
  let head := [Z.lor (fin f) (opcode f); Z.lor (masked f) (u8 (len f))]
              ++ pack_ext (len f) payloadSize in
  if masked f =? frameIsMasked then
    let f := if decide (length (maskKey f) = 4%nat) then f else set_maskKey f (le32 rnd) in
    (f, head ++ maskKey f ++ xor_mask (maskKey f) 0 (payload f))
  else (f, head ++ payload f).

(** [NewFrame] and the constructors on top of it. *)
Definition NewFrame (rnd : Z) (op : Z) (isMasked : bool) (payload : list Z) : list Z :=
  (pack rnd (mkFrame frameIsFinished 0 0 0 op (if isMasked then frameIsMasked else 0)
               0 0 [] payload [] false)).2.

Definition newControlFrame (rnd : Z) (op : Z) (isMasked : bool) (payload : list Z) : list Z :=
  NewFrame rnd op isMasked
    (if frameSmallPayload <? Z.of_nat (length payload)
     then take (Z.to_nat frameSmallPayload) payload else payload).

Definition NewFrameClose (rnd : Z) (isMasked : bool) (code : Z) (payload : list Z) : list Z :=
  let code := if code =? 0 then StatusNormal else code in
  newControlFrame rnd OpcodeClose isMasked (be16 (u16 code) ++ payload).

Definition NewFrameBin rnd isMasked payload := NewFrame rnd OpcodeBin isMasked payload.
Definition NewFrameText rnd isMasked payload := NewFrame rnd OpcodeText isMasked payload.
Definition NewFramePing rnd isMasked payload := newControlFrame rnd OpcodePing isMasked payload.
Definition NewFramePong rnd isMasked payload := newControlFrame rnd OpcodePong isMasked payload.

Definition IsData (f : Frame) : bool := (opcode f =? OpcodeText) || (opcode f =? OpcodeBin).

(** [Frame.isValid]. *)
Definition isValid (f : Frame) (isMasked allowRsv1 allowRsv2 allowRsv3 : bool) : bool :=
  if (if isMasked then negb (masked f =? frameIsMasked) else masked f =? frameIsMasked)
  then false
  else if (0 <? rsv1 f) && negb allowRsv1 then false
  else if (0 <? rsv2 f) && negb allowRsv2 then false
  else if (0 <? rsv3 f) && negb allowRsv3 then false
  else if OpcodeClose <=? opcode f then
    if fin f =? 0 then false
    else if frameSmallPayload <? len f then false
    else true
  else true.

(** ** Unpacking *)

(** The default case of the switch on [len(f.chopped)]: the extended length.
    The boolean is false when the code returns nil. *)
Definition unpack_extlen (size : nat) (f : Frame) (packet : list Z) : Frame * list Z * bool :=
  let n := length (chopped f) in
  if decide (n < size)%nat then
    let exp := (size - n)%nat in
    if decide (length packet < exp)%nat
    then (set_chopped f (chopped f ++ packet), [], false)
    else
      let c := chopped f ++ take exp packet in
      (set_len (set_chopped f c) (from_be (take (size - 2) (drop 2 c))), drop exp packet, true)
  else (f, packet, true).

Definition unpack_ext (f : Frame) (packet : list Z) : Frame * list Z * bool :=
  if len f =? frameLargePayload then unpack_extlen 10 f packet
  else if len f =? frameMediumPayload then unpack_extlen 4 f packet
  else (f, packet, true).

(** The loop [for !isHaveLen]: its switch on [len(f.chopped)].  Three
    iterations are enough: each of the first two cases adds one byte to
    [chopped] and the default case ends the loop. *)
Fixpoint unpack_len {E} (fuel : nat) (f : Frame) (packet : list Z)
    : outcome E (Frame * list Z * bool) :=
  match fuel with
  | O => NoFuel
  | S fuel =>
      match length (chopped f) with
      | O =>
          match packet with
          | [] => Panic
          | b :: packet =>
              let f := set_first f b in
              match packet with
              | [] => Ok (f, [], false)
              | _ => unpack_len fuel f packet
              end
          end
      | S O =>
          match packet with
          | [] => Panic
          | b :: packet => unpack_len fuel (set_second f b) packet
          end
      | _ => Ok (unpack_ext f packet)
      end
  end.

(** The mask key; the boolean is as above. *)
Definition unpack_mask (f : Frame) (packet : list Z) : Frame * list Z * bool :=
  if (masked f =? frameIsMasked) && negb (bool_decide (length (maskKey f) = 4%nat)) then
    match packet with
    | [] => (f, [], false)
    | _ =>
        let exp := (4 - length (maskKey f))%nat in
        if decide (length packet < exp)%nat
        then (set_maskKey f (maskKey f ++ packet), [], false)
        else (set_maskKey f (maskKey f ++ take exp packet), drop exp packet, true)
    end
  else (f, packet, true).

Definition close_code (payload : list Z) : Z :=
  match payload with
  | [] => StatusNormal
  | [_] => StatusBadRequest
  | _ => from_be (take 2 payload)
  end.

(** The payload: from [if f.len == 0] to the end of [unpack]. *)
Definition unpack_payload (f : Frame) (packet : list Z) : Frame * list Z :=
  if len f =? 0 then
    let f := if opcode f =? OpcodeClose then set_closeCode f StatusNormal else f in
    (set_complete f, packet)
  else
    match packet with
    | [] => (f, [])
    | _ =>
        let exp := u64 (len f - Z.of_nat (length (payload f))) in
        let exp := if Z.of_nat (length packet) <? exp then Z.of_nat (length packet) else exp in
        let data := take (Z.to_nat exp) packet in
        let data := if masked f =? frameIsMasked
                    then xor_mask (maskKey f) (length (payload f) mod 4) data else data in
        let f := set_payload f (payload f ++ data) in
        let packet := drop (Z.to_nat exp) packet in
        if Z.of_nat (length (payload f)) =? len f then
          let f := if opcode f =? OpcodeClose then set_closeCode f (close_code (payload f)) else f in
          (set_complete f, packet)
        else (f, packet)
    end.

(** [Frame.unpack]: the frame after the call and the returned rest. *)
Definition unpack {E} (f : Frame) (packet : list Z) : outcome E (Frame * list Z) :=
  '(f, packet, go_) ← unpack_len 3 f packet;
  if (go_ : bool) then
    let '(f, packet, go_) := unpack_mask f packet in
    if (go_ : bool) then Ok (unpack_payload f packet) else Ok (f, packet)
  else Ok (f, packet).

(** ** Frames *)

(** [Frames.Append]: a nil frame is ignored. *)
Definition Append (frames : list Frame) (f : option Frame) : list Frame :=
  match f with Some f => frames ++ [f] | None => frames end.

(** [Unpack]: the loop [for len(packet) > 0]; [None] is the nil [*Frames] of an
    empty input. *)
Fixpoint Unpack_loop {E} (fuel : nat) (frames : list Frame) (packet : list Z)
    : outcome E (list Frame) :=
  match packet with
  | [] => Ok frames
  | _ =>
      match fuel with
      | O => NoFuel
      | S fuel =>
          '(f, packet) ← unpack zeroFrame packet;
          Unpack_loop fuel (Append frames (Some f)) packet
      end
  end.

Definition Unpack {E} (inp : list Z) : outcome E (option (list Frame)) :=
  match inp with
  | [] => Ok None
  | _ => frames ← Unpack_loop (length inp) [] inp; Ok (Some frames)
  end.

(** [Frames.fin]: the loop from index 1, then the last frame. *)
Fixpoint fin_loop (acc : list Z) (v : list Frame) : list Z :=
  match v with
  | [] => acc
  | f :: v' =>
      if opcode f =? OpcodeClose then acc
      else if (opcode f =? OpcodePing) || (opcode f =? OpcodePong) then fin_loop acc v'
      else fin_loop (acc ++ payload f) v'
  end.

Definition frames_fin {E} (v : list Frame) (last : option Frame) : outcome E Frame :=
  match v with
  | [] => Panic
  | frame :: v' =>
      let p := fin_loop (payload frame) v' in
      Ok (set_payload frame (p ++ match last with Some l => payload l | None => [] end))
  end.

Fixpoint isClosed (v : list Frame) : bool :=
  match v with
  | [] => false
  | f :: v' => if opcode f =? OpcodeClose then true else isClosed v'
  end.

Definition Frames_Opcode (v : list Frame) : Z :=
  match v with [] => OpcodeCont | f :: _ => opcode f end.

Fixpoint payload_loop (acc : list Z) (v : list Frame) : list Z :=
  match v with
  | [] => acc
  | f :: v' =>
      if opcode f =? OpcodeClose then acc
      else if (opcode f =? OpcodePing) || (opcode f =? OpcodePong) then payload_loop acc v'
      else if fin f =? frameIsFinished then acc ++ payload f
      else payload_loop (acc ++ payload f) v'
  end.

Definition frames_payload (v : list Frame) : list Z :=
  match v with
  | [] => []
  | f :: _ => if negb (IsData f) then [] else payload_loop [] v
  end.

(** ** Bit and length fields *)

Lemma from_be_snoc l b : is_byte b -> from_be (l ++ [b]) = from_be l * 256 + b.
Proof.
  intros Hb. unfold from_be. rewrite fold_left_app.
  generalize (fold_left (fun a b => Z.lor (Z.shiftl a 8) b) l 0). intros a. simpl fold_left.
  unfold is_byte in Hb. rewrite lor_shiftl_add by lia. lia.
Qed.

Lemma from_be_horner v n : 0 <= n -> Z.shiftr v (n + 8) * 256 + u8 (Z.shiftr v n) = Z.shiftr v n.
Proof.
  intros. rewrite <- Z.shiftr_shiftr by lia. unfold u8. rewrite (Z.shiftr_div_pow2 _ 8) by lia.
  change (2 ^ 8) with 256. pose proof (Z.div_mod (Z.shiftr v n) 256). lia.
Qed.

Lemma from_be16 v : is_u16 v -> from_be (be16 v) = v.
Proof.
  intros Hv. unfold be16. change [?a; ?b] with (([] ++ [a]) ++ [b]).
  rewrite !from_be_snoc by auto with go. change (from_be []) with 0.
  unfold u8, is_u16 in *. rewrite Z.shiftr_div_pow2 by lia. Z.div_mod_to_equations. lia.
Qed.

Lemma from_be64 v : 0 <= v < 2 ^ 64 -> from_be (be64 v) = v.
Proof.
  intros Hv. unfold be64. cbn [fmap list_fmap].
  change [?a; ?b; ?c; ?d; ?e; ?f; ?g; ?h]
    with (((((((([] ++ [a]) ++ [b]) ++ [c]) ++ [d]) ++ [e]) ++ [f]) ++ [g]) ++ [h]).
  rewrite !from_be_snoc by auto with go. change (from_be []) with (Z.shiftr 0 8).
  replace (Z.shiftr 0 8) with (Z.shiftr v (56 + 8)).
  2:{ rewrite Z.shiftr_div_pow2 by lia. rewrite Z.div_small by lia. done. }
  rewrite from_be_horner by lia.
  do 7 (match goal with |- context [Z.shiftr v ?a * 256 + u8 (Z.shiftr v ?b)] =>
    replace (Z.shiftr v a) with (Z.shiftr v (b + 8)) by reflexivity; rewrite (from_be_horner v b) by lia
  end).
  apply Z.shiftr_0_r.
Qed.

Lemma length_be64 v : length (be64 v) = 8%nat.
Proof. reflexivity. Qed.

Lemma length_xor_mask key s d : length (xor_mask key s d) = length d.
Proof. revert s. induction d; intros; simpl; auto. Qed.

Lemma xor_mask_involutive key s d : xor_mask key s (xor_mask key s d) = d.
Proof.
  revert s. induction d as [|b d IH]; intros s; cbn [xor_mask app length]; [done|].
  rewrite IH, Z.lxor_assoc, Z.lxor_nilpotent, Z.lxor_0_r. done.
Qed.

Lemma xor_mask_mod key s d : xor_mask key (s mod 4) d = xor_mask key s d.
Proof.
  revert s. induction d as [|b d IH]; intros s; cbn [xor_mask app length]; [done|].
  rewrite Nat.Div0.mod_mod. f_equal. rewrite <- (IH (S (s mod 4))), <- (IH (S s)). f_equal.
  change (S ?x) with (1 + x)%nat. by rewrite Nat.Div0.add_mod_idemp_r.
Qed.

Lemma xor_mask_app key s d1 d2 :
  xor_mask key s (d1 ++ d2) = xor_mask key s d1 ++ xor_mask key (s + length d1) d2.
Proof.
  revert s. induction d1 as [|b d1 IH]; intros s; cbn [xor_mask app length].
  - by rewrite Nat.add_0_r.
  - f_equal. rewrite IH. by rewrite Nat.add_succ_r.
Qed.

(** ** The shape of [unpack] *)

Definition body2 (f : Frame) (p : list Z) : Frame * list Z :=
  let '(f, p, go_) := unpack_mask f p in if go_ : bool then unpack_payload f p else (f, p).
Definition body1 (f : Frame) (p : list Z) : Frame * list Z :=
  let '(f, p, go_) := unpack_ext f p in if go_ : bool then body2 f p else (f, p).

Lemma unpack_body {E} f p : (2 <= length (chopped f))%nat -> unpack (E := E) f p = Ok (body1 f p).
Proof.
  intros Hn. unfold unpack, unpack_len, body1, body2.
  destruct (length (chopped f)) as [|[|n]]; [lia..|]. cbn [mbind outcome_bind].
  destruct (unpack_ext f p) as [[f1 p1] [|]]; [|done].
  destruct (unpack_mask f1 p1) as [[f2 p2] [|]]; done.
Qed.

Lemma unpack_second {E} f b p :
  length (chopped f) = 1%nat -> unpack (E := E) f (b :: p) = Ok (body1 (set_second f b) p).
Proof.
  intros Hn.
  assert (Hn2 : length (chopped (set_second f b)) = 2%nat) by (simpl; rewrite length_app, Hn; done).
  transitivity (unpack (E := E) (set_second f b) p); [|apply unpack_body; lia].
  unfold unpack, unpack_len. rewrite Hn, Hn2. done.
Qed.

Lemma unpack_first {E} f b p :
  chopped f = [] -> p ≠ [] -> unpack (E := E) f (b :: p) = unpack (set_first f b) p.
Proof.
  intros Hn Hp. destruct p as [|b1 p]; [done|].
  assert (Hn1 : length (chopped (set_first f b)) = 1%nat) by (simpl; rewrite Hn; done).
  assert (Hn0 : length (chopped f) = 0%nat) by (by rewrite Hn).
  rewrite (unpack_second (set_first f b)) by done.
  assert (Hn2 : length (chopped (set_second (set_first f b) b1)) = 2%nat)
    by (simpl; rewrite Hn; done).
  transitivity (unpack (E := E) (set_second (set_first f b) b1) p); [|apply unpack_body; lia].
  unfold unpack, unpack_len. by rewrite Hn0, Hn1, Hn2.
Qed.

Lemma unpack_first_only {E} f b : chopped f = [] -> unpack (E := E) f [b] = Ok (set_first f b, []).
Proof. intros Hn. unfold unpack, unpack_len. by rewrite Hn. Qed.

(** ** Unpacking in pieces *)

Lemma from_be_bound l : is_bytes l -> 0 <= from_be l < 256 ^ Z.of_nat (length l).
Proof.
  induction l as [|b l IH] using rev_ind; intros Hl; [unfold from_be; simpl; lia|].
  apply Forall_app in Hl as [Hl Hb]. apply Forall_inv in Hb. specialize (IH Hl).
  rewrite from_be_snoc by done. rewrite length_app. simpl length.
  replace (Z.of_nat (length l + 1)) with (Z.of_nat (length l) + 1) by lia.
  rewrite Z.pow_add_r by lia. unfold is_byte in Hb. lia.
Qed.

(** The mask applied at the current position of the payload. *)
Definition unmask (f : Frame) (d : list Z) : list Z :=
  if masked f =? frameIsMasked then xor_mask (maskKey f) (length (payload f)) d else d.

(** The end of [unpack]: complete the frame when its payload is. *)
Definition finish (f : Frame) (p : list Z) : Frame * list Z :=
  if Z.of_nat (length (payload f)) =? len f then
    (set_complete (if opcode f =? OpcodeClose then set_closeCode f (close_code (payload f)) else f), p)
  else (f, p).

Definition payload_wanted (f : Frame) : Prop :=
  Z.of_nat (length (payload f)) < len f < 2 ^ 64.

Lemma unpack_payload_eq f p :
  payload_wanted f -> p ≠ [] ->
  let k := Nat.min (length p) (Z.to_nat (len f - Z.of_nat (length (payload f)))) in
  unpack_payload f p = finish (set_payload f (payload f ++ unmask f (take k p))) (drop k p).
Proof.
  intros [Hlt Hmax] Hp k. unfold unpack_payload.
  destruct (Z.eqb_spec (len f) 0); [lia|]. destruct p as [|b p]; [done|].
  set (q := b :: p) in *.
  replace (u64 (len f - Z.of_nat (length (payload f))))
    with (len f - Z.of_nat (length (payload f))) by (unfold u64; rewrite Z.mod_small; lia).
  replace (Z.to_nat (if _ <? _ then _ else _)) with k by (destruct (Z.ltb_spec (Z.of_nat (length q)) (len f - Z.of_nat (length (payload f)))); lia).
  unfold finish, unmask. rewrite xor_mask_mod. done.
Qed.

Lemma length_unmask f d : length (unmask f d) = length d.
Proof. unfold unmask. destruct (_ =? _); auto using length_xor_mask. Qed.

Lemma unmask_cons f b d :
  unmask f (b :: d)
  = unmask f [b] ++ unmask (set_payload f (payload f ++ unmask f [b])) d.
Proof.
  unfold unmask. cbn [masked maskKey payload set_payload].
  destruct (masked f =? frameIsMasked); [|done]. rewrite length_app, length_xor_mask. by rewrite <- (xor_mask_app _ _ [b]).
Qed.

Lemma finish_isComplete f p : isComplete f = false ->
  isComplete (finish f p).1 = (Z.of_nat (length (payload f)) =? len f).
Proof. unfold finish. intros. by destruct (_ =? _). Qed.

Lemma payload_step f b rest :
  payload_wanted f -> isComplete f = false -> rest ≠ [] ->
  let f' := set_payload f (payload f ++ unmask f [b]) in
  unpack_payload f [b] = finish f' []
  /\ (if Z.of_nat (length (payload f')) =? len f
      then unpack_payload f (b :: rest) = finish f' rest
      else payload_wanted f' /\ unpack_payload f (b :: rest) = unpack_payload f' rest).
Proof.
  intros Hw Hi Hrest f'. pose proof Hw as [Hlt Hmax].
  assert (Hlen : length (payload f') = S (length (payload f))).
  { simpl. rewrite length_app, length_unmask. simpl. lia. }
  rewrite !unpack_payload_eq by done. rewrite Hlen. split.
  { replace (Nat.min _ _) with 1%nat by (simpl length; lia). done. }
  destruct (Z.eqb_spec (Z.of_nat (S (length (payload f)))) (len f)) as [Heq|Hne].
  - replace (Nat.min _ _) with 1%nat by (simpl length; lia). done.
  - assert (Hw' : payload_wanted f') by (unfold payload_wanted; rewrite Hlen; simpl; lia).
    split; [done|]. rewrite unpack_payload_eq by done. rewrite Hlen.
    change (len f') with (len f).
    set (k := Nat.min (length rest) (Z.to_nat (len f - Z.of_nat (S (length (payload f)))))).
    replace (Nat.min _ _) with (S k) by (simpl length; lia). cbn [take drop].
    rewrite unmask_cons. fold f'. f_equal.
    unfold f' at 2 3. simpl payload. by rewrite <- (assoc_L (++)).
Qed.

(** The extended length, if any, has been read. *)
Definition ext_done (f : Frame) : Prop :=
  (len f = frameLargePayload -> (10 <= length (chopped f))%nat)
  /\ (len f = frameMediumPayload -> (4 <= length (chopped f))%nat).

(** Where an incomplete frame stands. *)
Inductive pending (f : Frame) : Prop :=
| pend_first : chopped f = [] -> maskKey f = [] -> payload f = [] -> pending f
| pend_second : length (chopped f) = 1%nat -> maskKey f = [] -> payload f = [] -> pending f
| pend_ext (size : nat) :
    (len f = frameLargePayload /\ size = 10%nat) \/ (len f = frameMediumPayload /\ size = 4%nat) ->
    (2 <= length (chopped f) < size)%nat ->
    Z.land (nth 1 (chopped f) 0) 127 = len f ->
    maskKey f = [] -> payload f = [] -> pending f
| pend_mask :
    (2 <= length (chopped f))%nat -> ext_done f -> masked f = frameIsMasked ->
    (length (maskKey f) < 4)%nat -> payload f = [] -> 0 <= len f < 2 ^ 64 -> pending f
| pend_payload :
    (2 <= length (chopped f))%nat -> ext_done f ->
    (masked f = frameIsMasked -> length (maskKey f) = 4%nat) -> payload_wanted f -> pending f.

Definition live (f : Frame) : Prop :=
  isComplete f = false /\ is_bytes (chopped f) /\ pending f.

(** A header with a 16-bit extended length equal to 127. *)
Definition medium127 (packet : list Z) : bool :=
  match packet with
  | _ :: h1 :: h2 :: h3 :: _ =>
      (Z.land h1 127 =? frameMediumPayload) && (h2 =? 0) && (h3 =? 127)
  | _ => false
  end.

(** The bytes to come do not make such a header. *)
Definition clean (f : Frame) (s : list Z) : Prop :=
  (length (chopped f) < 2)%nat \/ ~ ext_done f -> medium127 (chopped f ++ s) = false.

Lemma unpack_ext_done f p : ext_done f -> unpack_ext f p = (f, p, true).
Proof.
  intros [H1 H2]. unfold unpack_ext, unpack_extlen.
  destruct (Z.eqb_spec (len f) frameLargePayload); [rewrite decide_False; auto; lia|].
  destruct (Z.eqb_spec (len f) frameMediumPayload); [rewrite decide_False; auto; lia|]. done.
Qed.

Lemma unpack_mask_done f p :
  (masked f = frameIsMasked -> length (maskKey f) = 4%nat) -> unpack_mask f p = (f, p, true).
Proof.
  intros H. unfold unpack_mask. destruct (Z.eqb_spec (masked f) frameIsMasked) as [Hm|]; [|done].
  by rewrite bool_decide_eq_true_2 by auto.
Qed.

Lemma body1_done f p : ext_done f -> body1 f p = body2 f p.
Proof. intros. unfold body1. by rewrite unpack_ext_done. Qed.

Lemma body2_done f p :
  (masked f = frameIsMasked -> length (maskKey f) = 4%nat) -> body2 f p = unpack_payload f p.
Proof. intros. unfold body2. by rewrite unpack_mask_done. Qed.

Lemma body2_masking f p :
  masked f = frameIsMasked -> (length (maskKey f) < 4)%nat ->
  let exp := (4 - length (maskKey f))%nat in
  body2 f p =
    match p with
    | [] => (f, [])
    | _ => if decide (length p < exp)%nat then (set_maskKey f (maskKey f ++ p), [])
           else unpack_payload (set_maskKey f (maskKey f ++ take exp p)) (drop exp p)
    end.
Proof.
  intros Hm Hk exp. unfold body2, unpack_mask. rewrite Hm.
  rewrite bool_decide_eq_false_2 by lia. simpl. destruct p as [|b p]; [done|].
  fold exp. by destruct (decide _).
Qed.

Lemma unpack_payload_nil_len f p : len f = 0 ->
  unpack_payload f p
  = (set_complete (if opcode f =? OpcodeClose then set_closeCode f StatusNormal else f), p).
Proof. intros Hl. unfold unpack_payload. by rewrite Hl. Qed.

Lemma unpack_payload_empty f : len f ≠ 0 -> unpack_payload f [] = (f, []).
Proof. intros Hl. unfold unpack_payload. by rewrite (proj2 (Z.eqb_neq _ _)). Qed.

(** Consuming one byte and then the rest, in terms of the body of [unpack]. *)
Definition byte_step (r1 : Frame * list Z) (whole : Frame * list Z) (rest : list Z) : Prop :=
  r1.2 = [] /\
  ((isComplete r1.1 = true /\ whole = (r1.1, rest))
   \/ (live r1.1 /\ (2 <= length (chopped r1.1))%nat /\ ext_done r1.1 /\ whole = body1 r1.1 rest)).

Lemma mask_done_step f rest :
  isComplete f = false -> is_bytes (chopped f) -> (2 <= length (chopped f))%nat -> ext_done f ->
  (masked f = frameIsMasked -> length (maskKey f) = 4%nat) -> payload f = [] ->
  0 <= len f < 2 ^ 64 ->
  byte_step (unpack_payload f []) (unpack_payload f rest) rest.
Proof.
  intros Hi Hb Hn He Hm Hp Hl. unfold byte_step.
  destruct (decide (len f = 0)) as [H0|H0].
  - rewrite !unpack_payload_nil_len by done. split; [done|left]. done.
  - rewrite unpack_payload_empty by done. cbn [fst snd]. split; [done|right].
    split_and!; [|done|done|by rewrite body1_done, body2_done].
    split_and!; [done|done|]. apply pend_payload; auto. unfold payload_wanted. rewrite Hp. simpl. lia.
Qed.

Lemma header_done_step f rest :
  isComplete f = false -> is_bytes (chopped f) -> (2 <= length (chopped f))%nat -> ext_done f ->
  maskKey f = [] -> payload f = [] -> 0 <= len f < 2 ^ 64 ->
  byte_step (body1 f []) (body1 f rest) rest.
Proof.
  intros Hi Hb Hn He Hk Hp Hl.
  destruct (decide (masked f = frameIsMasked)) as [Hm|Hm].
  - rewrite !body1_done by done. unfold byte_step.
    rewrite (body2_masking f []) by (rewrite ?Hk; simpl; done || lia). cbn [fst snd].
    split; [done|right]. split_and!; [|done|done|by rewrite body1_done].
    split_and!; [done|done|]. apply pend_mask; auto. rewrite Hk. simpl. lia.
  - rewrite !body1_done, !body2_done by done. by apply mask_done_step.
Qed.

Lemma mask_step f b rest :
  isComplete f = false -> is_bytes (chopped f) -> (2 <= length (chopped f))%nat -> ext_done f ->
  masked f = frameIsMasked -> (length (maskKey f) < 4)%nat -> payload f = [] ->
  0 <= len f < 2 ^ 64 -> rest ≠ [] ->
  byte_step (body1 f [b]) (body1 f (b :: rest)) rest.
Proof.
  intros Hi Hb Hn He Hm Hk Hp Hl Hrest. rewrite !body1_done by done.
  rewrite !body2_masking by done.
  set (f' := set_maskKey f (maskKey f ++ [b])).
  assert (Hk' : length (maskKey f') = S (length (maskKey f)))
    by (simpl; rewrite length_app; simpl; lia).
  destruct (decide (S (length (maskKey f)) < 4)%nat) as [Hlt|Hge].
  - rewrite decide_True by (simpl; lia). unfold byte_step. cbn [fst snd]. fold f'.
    split; [done|right]. split_and!; [|done|done|].
    + split_and!; [done|done|]. apply pend_mask; auto. lia.
    + rewrite body1_done by done. rewrite (body2_masking f') by (done || lia).
      destruct rest as [|c rest]; [done|]. rewrite Hk'. simpl length.
      replace (4 - length (maskKey f))%nat with (S (4 - S (length (maskKey f)))) by lia.
      assert (Hassoc : forall x, set_maskKey f (maskKey f ++ b :: x) = set_maskKey f' (maskKey f' ++ x))
        by (intros; unfold f'; simpl; by rewrite <- (assoc_L (++))).
      destruct (decide _), (decide _); try lia; cbn [take drop]; by rewrite Hassoc.
  - replace (4 - length (maskKey f))%nat with 1%nat by lia.
    rewrite !decide_False by (simpl; lia). cbn [take drop]. rewrite take_0, drop_0. fold f'.
    apply mask_done_step; auto. intros _. lia.
Qed.

Lemma payload_byte_step f b rest :
  isComplete f = false -> is_bytes (chopped f) -> (2 <= length (chopped f))%nat -> ext_done f ->
  (masked f = frameIsMasked -> length (maskKey f) = 4%nat) -> payload_wanted f -> rest ≠ [] ->
  byte_step (body1 f [b]) (body1 f (b :: rest)) rest.
Proof.
  intros Hi Hb Hn He Hm Hw Hrest. rewrite !body1_done, !body2_done by done.
  destruct (payload_step f b rest Hw Hi Hrest) as [H1 H2].
  set (f' := set_payload f (payload f ++ unmask f [b])) in *. rewrite H1.
  unfold byte_step, finish in *. change (len f') with (len f) in *.
  destruct (Z.of_nat (length (payload f')) =? len f); cbn [fst snd].
  - split; [done|left]. by rewrite H2.
  - destruct H2 as [Hw' ->]. split; [done|right]. split_and!; [|done|done|].
    + split_and!; [done|done|]. by apply pend_payload.
    + by rewrite body1_done, body2_done.
Qed.

Lemma medium127_from_be c b s :
  is_bytes c -> is_byte b -> length c = 3%nat -> Z.land (nth 1 c 0) 127 = frameMediumPayload ->
  medium127 (c ++ b :: s) = false -> from_be (take 2 (drop 2 (c ++ [b]))) ≠ 127.
Proof.
  intros Hc Hb Hl Hm Hclean. destruct c as [|h0 [|h1 [|h2 [|??]]]]; try done.
  simpl in Hm, Hclean |- *. rewrite Hm in Hclean. simpl in Hclean.
  change [h2; b] with (([] ++ [h2]) ++ [b]).
  apply Forall_cons in Hc as [_ [_ [Hh2 _]%Forall_cons]%Forall_cons].
  rewrite !from_be_snoc by done. change (from_be []) with 0. unfold is_byte in *.
  intros Heq. assert (h2 = 0 /\ b = 127) as [-> ->] by lia. done.
Qed.

Lemma body1_extlen f p size :
  (len f = frameLargePayload /\ size = 10%nat) \/ (len f = frameMediumPayload /\ size = 4%nat) ->
  body1 f p = (let '(f, p, go_) := unpack_extlen size f p in
               if go_ : bool then body2 f p else (f, p)).
Proof.
  intros [[Hl ->]|[Hl ->]]; unfold body1, unpack_ext; rewrite Hl; done.
Qed.

Lemma body1_ext f p size :
  (len f = frameLargePayload /\ size = 10%nat) \/ (len f = frameMediumPayload /\ size = 4%nat) ->
  (length (chopped f) < size)%nat ->
  let exp := (size - length (chopped f))%nat in
  body1 f p =
    if decide (length p < exp)%nat then (set_chopped f (chopped f ++ p), [])
    else let c := chopped f ++ take exp p in
         body2 (set_len (set_chopped f c) (from_be (take (size - 2) (drop 2 c)))) (drop exp p).
Proof.
  intros Hsz Hn exp. rewrite (body1_extlen f p size) by done.
  unfold unpack_extlen. rewrite decide_True by done. by destruct (decide _).
Qed.

(** One byte of the extended length: more are missing, or it was the last. *)
Lemma ext_step f b rest size :
  isComplete f = false -> is_bytes (chopped f) -> is_byte b ->
  (len f = frameLargePayload /\ size = 10%nat) \/ (len f = frameMediumPayload /\ size = 4%nat) ->
  (2 <= length (chopped f) < size)%nat -> Z.land (nth 1 (chopped f) 0) 127 = len f ->
  maskKey f = [] -> payload f = [] -> clean f (b :: rest) -> rest ≠ [] ->
  (body1 f [b]).2 = [] /\
  ((isComplete (body1 f [b]).1 = true /\ body1 f (b :: rest) = ((body1 f [b]).1, rest))
   \/ (live (body1 f [b]).1 /\ (2 <= length (chopped (body1 f [b]).1))%nat
       /\ clean (body1 f [b]).1 rest /\ body1 f (b :: rest) = body1 (body1 f [b]).1 rest)).
Proof.
  intros Hi Hb Hbb Hsz Hn Hh Hk Hp Hclean Hrest.
  assert (Hpend : ~ ext_done f) by (unfold ext_done; intros [??]; destruct Hsz as [[? ->]|[? ->]]; intuition lia).
  specialize (Hclean (or_intror Hpend)).
  assert (Hbytes : is_bytes (chopped f ++ [b])) by (apply Forall_app; split; [done | by constructor]).
  rewrite !(body1_ext f _ size) by (done || lia).
  destruct (decide (S (length (chopped f)) < size)%nat) as [Hlt|Hge].
  - rewrite decide_True by (simpl; lia). cbn [fst snd]. split; [done|right].
    set (f' := set_chopped f (chopped f ++ [b])).
    assert (Hn' : length (chopped f') = S (length (chopped f))) by (simpl; rewrite length_app; simpl; lia).
    split_and!; [|lia| |].
    + split_and!; [done|done|]. apply (pend_ext _ size); auto; [lia|].
      simpl. by rewrite app_nth1 by lia.
    + intros _. simpl. by rewrite <- (assoc_L (++)).
    + rewrite (body1_ext f' _ size) by (done || lia). rewrite Hn'. simpl length.
      replace (size - length (chopped f))%nat with (S (size - S (length (chopped f)))) by lia.
      assert (Hassoc : forall x, chopped f ++ b :: x = chopped f' ++ x)
        by (intros; simpl; by rewrite <- (assoc_L (++))).
      destruct (decide (S (length rest) < S _)%nat), (decide (length rest < _)%nat);
        try lia; cbn [take drop]; by rewrite Hassoc.
  - replace (size - length (chopped f))%nat with 1%nat by lia.
    rewrite !decide_False by (simpl; lia). cbn [take drop]. rewrite take_0, drop_0.
    set (f' := set_len (set_chopped f (chopped f ++ [b])) _).
    assert (Hn' : length (chopped f') = size) by (simpl; rewrite length_app; simpl; lia).
    assert (Hlen : 0 <= len f' < 2 ^ 64).
    { assert (Ht : is_bytes (take (size - 2) (drop 2 (chopped f ++ [b])))) by (by apply Forall_take, Forall_drop).
      apply from_be_bound in Ht. rewrite length_take, length_drop in Ht.
      change (len f') with (from_be (take (size - 2) (drop 2 (chopped f ++ [b])))).
      pose proof (Z.pow_le_mono_r 256 (Z.of_nat (Nat.min (size - 2) (length (chopped f ++ [b]) - 2))) 8).
      change (2 ^ 64) with (256 ^ 8). destruct Hsz as [[_ ->]|[_ ->]]; lia. }
    assert (He : ext_done f').
    { unfold ext_done. rewrite Hn'. destruct Hsz as [[Hl ->]|[Hl ->]]; [lia|].
      split; [|lia]. intros Hbad. exfalso. revert Hbad.
      apply (medium127_from_be _ _ rest); auto; [lia | by rewrite Hh]. }
    destruct (header_done_step f' rest) as [H1 H2]; try done; [lia|].
    rewrite <- !body1_done by done. split; [done|]. destruct H2 as [H2|(H2 & H3 & H4 & H5)]; [by left|right].
    split_and!; [done|done| |done]. intros [?|?]; [lia|done].
Qed.

Lemma second_step f b p :
  isComplete f = false -> is_bytes (chopped f) -> is_byte b -> length (chopped f) = 1%nat ->
  maskKey f = [] -> payload f = [] -> p ≠ [] ->
  let f' := set_second f b in
  (body1 f' []).2 = [] /\
  ((isComplete (body1 f' []).1 = true /\ body1 f' p = ((body1 f' []).1, p))
   \/ ((body1 f' []).1 = f' /\ live f')).
Proof.
  intros Hi Hb Hbb Hn Hk Hp Hne f'.
  assert (Hn' : length (chopped f') = 2%nat) by (simpl; rewrite length_app, Hn; done).
  assert (Hbytes : is_bytes (chopped f')) by (apply Forall_app; split; [done | by constructor]).
  assert (Hnth : nth 1 (chopped f') 0 = b).
  { simpl. rewrite app_nth2 by lia. by rewrite Hn. }
  assert (Hlen : 0 <= len f' < 128).
  { simpl. revert Hbb. generalize b. clear. intros b Hb.
    change ((fun b => 0 <= Z.land b 127 < 128) b). by_bytes b Hb. }
  assert (Hext : forall size,
    (len f' = frameLargePayload /\ size = 10%nat) \/ (len f' = frameMediumPayload /\ size = 4%nat) ->
    (2 < size)%nat -> body1 f' [] = (f', []) /\ live f').
  { intros size Hsz Hs. rewrite (body1_ext f' _ size) by (done || lia).
    rewrite Hn', decide_True by (simpl; lia). rewrite app_nil_r. split; [by destruct f'|].
    split_and!; [done|done|]. apply (pend_ext _ size); auto; [lia|]. by rewrite Hnth. }
  destruct (decide (len f' = frameLargePayload)) as [Hl|Hl].
  { destruct (Hext 10%nat) as [-> Hlive]; [by left|lia|]. split; [done | by right]. }
  destruct (decide (len f' = frameMediumPayload)) as [Hm|Hm].
  { destruct (Hext 4%nat) as [-> Hlive]; [by right|lia|]. split; [done | by right]. }
  assert (He : ext_done f') by (split; done).
  destruct (header_done_step f' p) as [H1 H2]; try done; [lia..|].
  split; [done|]. destruct H2 as [H2|(H2 & H3 & H4 & H5)]; [by left|right].
  assert (Hsame : (body1 f' []).1 = f' \/ isComplete (body1 f' []).1 = true).
  { rewrite body1_done by done. unfold body2, unpack_mask, unpack_payload.
    destruct (_ && _); [by left|]. destruct (len f' =? 0); [by right | by left]. }
  destruct Hsame as [Hsame|Hsame].
  - split; [done|]. by rewrite <- Hsame.
  - destruct H2 as [H2 _]. congruence.
Qed.

Lemma pair_nil {A B} (r : A * list B) : r.2 = [] -> r = (r.1, []).
Proof. destruct r. simpl. by intros ->. Qed.

(** Feeding one byte to a live frame, and then the rest. *)
Lemma unpack_cons {E} f b rest :
  live f -> is_byte b -> clean f (b :: rest) -> rest ≠ [] ->
  exists f1, unpack (E := E) f [b] = Ok (f1, []) /\
    ((isComplete f1 = true /\ unpack (E := E) f (b :: rest) = Ok (f1, rest))
     \/ (live f1 /\ clean f1 rest /\ unpack (E := E) f (b :: rest) = unpack f1 rest)).
Proof.
  intros (Hi & Hb & Hpend) Hbb Hclean Hrest.
  assert (Hbytes : is_bytes (chopped f ++ [b])) by (apply Forall_app; split; [done | by constructor]).
  assert (Hbody : (2 <= length (chopped f))%nat ->
    byte_step (body1 f [b]) (body1 f (b :: rest)) rest ->
    exists f1, unpack (E := E) f [b] = Ok (f1, []) /\
    ((isComplete f1 = true /\ unpack (E := E) f (b :: rest) = Ok (f1, rest))
     \/ (live f1 /\ clean f1 rest /\ unpack (E := E) f (b :: rest) = unpack f1 rest))).
  { intros Hn [H1 H2]. rewrite !unpack_body by done. exists (body1 f [b]).1.
    split; [f_equal; by apply pair_nil|].
    destruct H2 as [[H2 ->]|(H2 & H3 & H4 & ->)]; [by left|right].
    rewrite unpack_body by done. split_and!; [done| |done]. intros [?|?]; [lia|done]. }
  destruct Hpend as [Hc Hk Hp|Hc Hk Hp|size Hsz Hn Hh Hk Hp|Hn He Hm Hk Hp Hl|Hn He Hm Hw].
  - exists (set_first f b). split; [by apply unpack_first_only|]. right.
    rewrite unpack_first by done. split_and!; [| |done].
    + split_and!; [done|done|]. apply pend_second; auto. simpl. by rewrite Hc.
    + intros _. simpl. rewrite <- (assoc_L (++)). apply Hclean. left. rewrite Hc. simpl. lia.
  - destruct (second_step f b rest) as [H1 H2]; try done.
    rewrite !unpack_second by done. exists (body1 (set_second f b) []).1.
    split; [f_equal; by apply pair_nil|].
    destruct H2 as [[H2 ->]|[-> Hlive]]; [by left|right].
    assert (Hn' : length (chopped (set_second f b)) = 2%nat) by (simpl; rewrite length_app, Hc; done).
    rewrite unpack_body by lia. split_and!; [done| |done].
    intros _. simpl. rewrite <- (assoc_L (++)). apply Hclean. left. lia.
  - destruct (ext_step f b rest size) as [H1 H2]; try done.
    rewrite !unpack_body by lia. exists (body1 f [b]).1.
    split; [f_equal; by apply pair_nil|].
    destruct H2 as [[H2 ->]|(H2 & H3 & H4 & ->)]; [by left|right].
    rewrite unpack_body by done. done.
  - apply Hbody; [done|]. by apply mask_step.
  - apply Hbody; [done|]. by apply payload_byte_step.
Qed.

(** Received chunks are given one after the other to a frame until it is
    complete; what is left over is returned with it. *)
Fixpoint feed {E} (f : Frame) (chunks : list (list Z)) : outcome E (Frame * list Z) :=
  match chunks with
  | [] => Ok (f, [])
  | packet :: chunks =>
      '(f, packet) ← unpack f packet;
      if isComplete f then Ok (f, packet ++ concat chunks) else feed f chunks
  end.

Lemma medium127_app l s : medium127 (l ++ s) = false -> medium127 l = false.
Proof. destruct l as [|? [|? [|? [|??]]]]; simpl; auto. Qed.

Lemma medium127_app_zero l : medium127 l = false -> medium127 (l ++ [0]) = false.
Proof.
  destruct l as [|? [|? [|? [|??]]]]; simpl; auto. intros _. by rewrite andb_false_r.
Qed.

Lemma clean_app f l s : clean f (l ++ s) -> clean f l.
Proof. unfold clean. intros H Hc. specialize (H Hc). rewrite (assoc_L (++)) in H. by eapply medium127_app. Qed.

Lemma clean_app_zero f l : clean f l -> clean f (l ++ [0]).
Proof. unfold clean. intros H Hc. specialize (H Hc). rewrite (assoc_L (++)). by apply medium127_app_zero. Qed.

Lemma unpack_app {E} a : forall f b,
  a ≠ [] -> b ≠ [] -> live f -> is_bytes a -> clean f (a ++ b) ->
  exists f1 r, unpack (E := E) f a = Ok (f1, r) /\
    ((isComplete f1 = true /\ unpack (E := E) f (a ++ b) = Ok (f1, r ++ b))
     \/ (r = [] /\ live f1 /\ clean f1 b /\ unpack (E := E) f (a ++ b) = unpack f1 b)).
Proof.
  induction a as [|c a IH]; intros f b Ha Hb Hl Hbytes Hc; [done|].
  apply Forall_cons in Hbytes as [Hcb Hbytes].
  destruct (unpack_cons (E := E) f c (a ++ b) Hl Hcb Hc) as (f1 & Hf1 & Hcase);
    [by destruct a|].
  destruct (decide (a = [])) as [->|Hane].
  { exists f1, []. split; [done|]. destruct Hcase as [[??]|(?&?&?)]; [left|right]; done. }
  destruct (unpack_cons (E := E) f c a Hl Hcb) as (f1' & Hf1' & Hcase');
    [by apply (clean_app _ (c :: a) b) | done |].
  assert (f1' = f1) as -> by congruence.
  destruct Hcase as [[Hdone Hw]|(Hlive & Hclean & Hw)];
    destruct Hcase' as [[Hdone' Hw']|(Hlive' & Hclean' & Hw')].
  - exists f1, a. split; [done|]. left. split; [done|]. by rewrite <- Hw.
  - destruct Hlive' as [? _]. congruence.
  - destruct Hlive as [? _]. congruence.
  - destruct (IH f1 b) as (f2 & r & Hf2 & Hcase2); try done.
    exists f2, r. rewrite Hw'. split; [done|]. simpl. by rewrite Hw.
Qed.

Lemma feed_unpack {E} chunks : forall f,
  chunks ≠ [] -> Forall (fun c => c ≠ []) chunks -> is_bytes (concat chunks) -> live f ->
  clean f (concat chunks) ->
  feed (E := E) f chunks = unpack f (concat chunks).
Proof.
  induction chunks as [|c chunks IH]; intros f Hne Hall Hbytes Hl Hc; [done|].
  apply Forall_cons in Hall as [Hcne Hall]. simpl in *.
  apply Forall_app in Hbytes as [Hcb Hbytes].
  destruct (decide (chunks = [])) as [->|Hchunks].
  { simpl in *. rewrite app_nil_r in *.
    destruct (unpack_app (E := E) c f [0] Hcne) as (f1 & r & -> & Hcase);
      [done..|by apply clean_app_zero|]. cbn [mbind outcome_bind].
    destruct Hcase as [[-> _]|(-> & [-> _] & _)]; simpl; [by rewrite app_nil_r|done]. }
  destruct (unpack_app (E := E) c f (concat chunks) Hcne) as (f1 & r & -> & Hcase); try done.
  { destruct chunks as [|d chunks]; [done|]. apply Forall_inv in Hall. by destruct d. }
  cbn [mbind outcome_bind]. destruct Hcase as [[-> ->]|(-> & Hlive & Hclean & ->)]; [done|].
  destruct Hlive as [Hi ?] eqn:?. rewrite Hi. apply IH; done.
Qed.

(** Reading a frame in pieces is reading it at once: however the bytes of
    the stream are cut into non-empty chunks, resuming [unpack] chunk by chunk
    gives the same frame and the same rest as one call on all of them, unless
    the header announces a 16-bit payload length of exactly 127. *)
Theorem unpack_chunks chunks :
  chunks ≠ [] -> Forall (fun c => c ≠ []) chunks -> is_bytes (concat chunks) ->
  medium127 (concat chunks) = false ->
  feed (E := unit) zeroFrame chunks = unpack zeroFrame (concat chunks).
Proof.
  intros. apply feed_unpack; try done.
  - split_and!; [done|constructor|]. by apply pend_first.
  - by intros _.
Qed.

Lemma unpack_chunks_witness :
  let chunks := [[129]; [133; 1; 2]; [3; 4; 105; 103; 111]; [104; 110; 129; 0]] in
  feed (E := unit) zeroFrame chunks = unpack zeroFrame (concat chunks)
  /\ unpack (E := unit) zeroFrame (concat chunks)
     = Ok (mkFrame 128 0 0 0 1 128 0 5 [1; 2; 3; 4] [104; 101; 108; 108; 111] [] true, [129; 0]).
Proof.
  split; [|vm_compute; reflexivity].
  apply unpack_chunks; [discriminate | repeat constructor; discriminate | | reflexivity].
  apply (bool_decide_unpack _). vm_compute. exact I.
Defined.

(** ** Packing, then unpacking *)

(** A packet with the given first bit, as [NewFrame] makes it, and the complete
    frame that it denotes. *)
Definition fragment (rnd fn op : Z) (isMasked : bool) (payload : list Z) : list Z :=
  (pack rnd (mkFrame fn 0 0 0 op (if isMasked then frameIsMasked else 0) 0 0 [] payload [] false)).2.
Definition sent_fragment (rnd fn op : Z) (isMasked : bool) (payload : list Z) : Frame :=
  mkFrame fn 0 0 0 op (if isMasked then frameIsMasked else 0)
    (if op =? OpcodeClose then close_code payload else 0)
    (Z.of_nat (length payload)) (if isMasked then le32 rnd else []) payload [] true.
Definition sent_frame (rnd : Z) (op : Z) (isMasked : bool) (payload : list Z) : Frame :=
  sent_fragment rnd frameIsFinished op isMasked payload.

Lemma unpack_payload_all f p rest :
  payload f = [] -> isComplete f = false -> len f = Z.of_nat (length p) -> len f < 2 ^ 64 ->
  (if masked f =? frameIsMasked then True else maskKey f = []) ->
  unpack_payload f ((if masked f =? frameIsMasked then xor_mask (maskKey f) 0 p else p) ++ rest)
  = (mkFrame (fin f) (rsv1 f) (rsv2 f) (rsv3 f) (opcode f) (masked f)
       (if opcode f =? OpcodeClose then close_code p else closeCode f) (len f) (maskKey f) p [] true, rest).
Proof.
  intros Hp Hi Hl Hmax Hk. set (q := if masked f =? frameIsMasked then _ else _).
  assert (Hq : length q = length p) by (unfold q; destruct (_ =? _); rewrite ?length_xor_mask; done).
  destruct (decide (p = [])) as [->|Hne].
  { rewrite unpack_payload_nil_len by done. unfold q. destruct f; simpl in *; subst.
    by destruct (_ =? _), (_ =? OpcodeClose). }
  assert (Hqne : q ++ rest ≠ []) by (destruct q, p; done).
  assert (0 < length p)%nat by (destruct p; simpl; [done|lia]).
  rewrite unpack_payload_eq; [|unfold payload_wanted; rewrite Hp; simpl; lia|done].
  rewrite Hp. simpl length. replace (Nat.min _ _) with (length q) by (rewrite length_app; lia).
  rewrite take_app_length, drop_app_length. simpl.
  assert (Hun : unmask f q = p).
  { unfold unmask, q. rewrite Hp. cbn [length].
    destruct (masked f =? frameIsMasked); [apply xor_mask_involutive | done]. }
  rewrite Hun. unfold finish. simpl.
  rewrite (proj2 (Z.eqb_eq _ _)) by done. by destruct (_ =? OpcodeClose).
Qed.

Lemma first_byte fn op : fn = 0 \/ fn = frameIsFinished -> 0 <= op < 16 ->
  let b := Z.lor fn op in
  Z.land b frameIsFinished = fn /\ Z.land b 64 = 0 /\ Z.land b 32 = 0 /\ Z.land b 16 = 0
  /\ Z.land b 15 = op.
Proof.
  intros Hfn Hop. cbv zeta. assert (Hb : is_byte op) by (unfold is_byte; lia).
  revert Hop. destruct Hfn as [-> | ->]; by_bytes op Hb.
Qed.

Lemma second_byte (m : bool) l : 0 <= l < 128 ->
  let b := Z.lor (if m then frameIsMasked else 0) (u8 l) in
  Z.land b frameIsMasked = (if m then frameIsMasked else 0) /\ Z.land b 127 = l.
Proof.
  intros Hl. cbv zeta. assert (Hb : is_byte l) by (unfold is_byte; lia).
  revert Hl. destruct m; by_bytes l Hb.
Qed.

Lemma pack_len_range n : 0 <= n -> 0 <= pack_len n < 128.
Proof.
  intros. unfold pack_len, frameLargePayload, frameMediumPayload, frameSmallPayload.
  destruct (Z.ltb_spec 65535 n), (Z.ltb_spec 125 n); lia.
Qed.

(** The header's length fields: whatever their form, the body continues with
    the payload length of the packed frame. *)
Lemma body1_pack_len f n p :
  len f = pack_len n -> 0 <= n < 2 ^ 64 -> length (chopped f) = 2%nat ->
  exists c, body1 f (pack_ext (pack_len n) n ++ p) = body2 (set_len (set_chopped f c) n) p.
Proof.
  intros Hl Hn Hc.
  assert (Hext : forall size ext,
    (len f = frameLargePayload /\ size = 10%nat) \/ (len f = frameMediumPayload /\ size = 4%nat) ->
    (2 < size)%nat -> length ext = (size - 2)%nat -> from_be ext = n ->
    body1 f (ext ++ p) = body2 (set_len (set_chopped f (chopped f ++ ext)) n) p).
  { intros size ext Hsz Hs Hlen Hval. rewrite (body1_ext f _ size) by (done || lia).
    rewrite Hc, <- Hlen, decide_False by (rewrite length_app; lia).
    rewrite take_app_length, drop_app_length.
    cbv zeta. rewrite (drop_app_length' (chopped f)) by done. rewrite take_ge by lia. by rewrite Hval. }
  unfold pack_ext, pack_len in *.
  destruct (Z.ltb_spec 65535 n); [|destruct (Z.ltb_spec frameSmallPayload n)]; simpl.
  - exists (chopped f ++ be64 n). apply (Hext 10%nat (be64 n)); [by left|lia|done|by apply from_be64].
  - exists (chopped f ++ be16 (u16 n)). unfold frameSmallPayload in *.
    apply (Hext 4%nat (be16 (u16 n))); [by right|lia|done|].
    rewrite from_be16 by apply u16_is_u16. apply u16_id. unfold is_u16. lia.
  - exists (chopped f). unfold frameSmallPayload, frameLargePayload, frameMediumPayload in *.
    rewrite !(proj2 (Z.eqb_neq n _)) by lia. simpl.
    rewrite body1_done; [|unfold ext_done, frameLargePayload, frameMediumPayload; lia].
    f_equal. destruct f; simpl in *. by subst.
Qed.

Lemma fragment_eq rnd fn op m p :
  fragment rnd fn op m p
  = Z.lor fn op
    :: Z.lor (if m then frameIsMasked else 0) (u8 (pack_len (Z.of_nat (length p))))
    :: pack_ext (pack_len (Z.of_nat (length p))) (Z.of_nat (length p))
    ++ (if m then le32 rnd ++ xor_mask (le32 rnd) 0 p else p).
Proof. unfold fragment, pack. by destruct m. Qed.

Lemma unpack_fragment {E} rnd fn op m p rest :
  fn = 0 \/ fn = frameIsFinished -> 0 <= op < 16 -> Z.of_nat (length p) < 2 ^ 64 ->
  unpack (E := E) zeroFrame (fragment rnd fn op m p ++ rest) = Ok (sent_fragment rnd fn op m p, rest).
Proof.
  intros Hfn Hop Hlen. rewrite fragment_eq.
  destruct (first_byte fn op Hfn Hop) as (B1 & B2 & B3 & B4 & B5).
  pose proof (pack_len_range (Z.of_nat (length p)) ltac:(lia)) as Hpl.
  destruct (second_byte m _ Hpl) as [C1 C2].
  revert B1 B2 B3 B4 B5 C1 C2. cbv zeta.
  set (b0 := Z.lor fn op). set (b1 := Z.lor (if m then _ else _) _). intros.
  rewrite <- !app_comm_cons, <- (assoc_L (++)).
  rewrite unpack_first, unpack_second by done. f_equal.
  set (f := mkFrame fn 0 0 0 op (if m then frameIsMasked else 0) 0
      (pack_len (Z.of_nat (length p))) [] [] [b0; b1] false).
  assert (set_second (set_first zeroFrame b0) b1 = f) as ->
    by (unfold set_first, set_second, f; simpl; by rewrite B1, B2, B3, B4, B5, C1, C2).
  destruct (body1_pack_len f (Z.of_nat (length p))
      ((if m then le32 rnd ++ xor_mask (le32 rnd) 0 p else p) ++ rest)) as [c ->]; try done; [lia|].
  unfold set_len, set_chopped. simpl. destruct m.
  - rewrite body2_masking by (simpl; done || lia). simpl maskKey.
    cbn [le32 fmap list_fmap app]. rewrite decide_False by (simpl; lia).
    cbn [length Nat.sub take drop]. unfold set_maskKey. simpl.
    apply (unpack_payload_all (mkFrame fn 0 0 0 op 128 0 (Z.of_nat (length p)) (le32 rnd) [] c false)); done.
  - rewrite body2_done by done.
    apply (unpack_payload_all (mkFrame fn 0 0 0 op 0 0 (Z.of_nat (length p)) [] [] c false)); done.
Qed.

Lemma unpack_NewFrame {E} rnd op m p rest :
  0 <= op < 16 -> Z.of_nat (length p) < 2 ^ 64 ->
  unpack (E := E) zeroFrame (NewFrame rnd op m p ++ rest) = Ok (sent_frame rnd op m p, rest).
Proof. intros Hop Hlen. apply (unpack_fragment rnd frameIsFinished); auto. Qed.

(** Unpacking the packet built by [NewFrame] gives the frame back, with any
    following bytes left over: for every opcode, masked or not, and for the
    7-bit, 16-bit and 64-bit length forms. *)
Theorem NewFrame_roundtrip rnd op isMasked payload rest :
  0 <= op < 16 /\ Z.of_nat (length payload) < 2 ^ 64 ->
  unpack (E := unit) zeroFrame (NewFrame rnd op isMasked payload ++ rest)
  = Ok (sent_frame rnd op isMasked payload, rest).
Proof. intros [? ?]. by apply unpack_NewFrame. Qed.

Lemma NewFrame_roundtrip_witness :
  unpack (E := unit) zeroFrame (NewFrame 305419896 OpcodeText true (replicate 300 97) ++ [129])
  = Ok (sent_frame 305419896 OpcodeText true (replicate 300 97), [129]).
Proof.
  apply (NewFrame_roundtrip 305419896 OpcodeText true (replicate 300 97) [129]).
  split; vm_compute; done.
Defined.

(** Whatever payload it is given, a control frame built by
    [newControlFrame] arrives as a valid frame of at most 125 bytes. *)
Theorem newControlFrame_valid rnd op isMasked payload rest :
  OpcodeClose <= op < 16 ->
  exists f, unpack (E := unit) zeroFrame (newControlFrame rnd op isMasked payload ++ rest) = Ok (f, rest)
    /\ isComplete f = true /\ isValid f isMasked false false false = true
    /\ WsFrame.payload f = take 125 payload.
Proof.
  unfold OpcodeClose, newControlFrame. intros Hop.
  replace (if frameSmallPayload <? Z.of_nat (length payload) then _ else _) with (take 125 payload).
  2:{ unfold frameSmallPayload. destruct (Z.ltb_spec 125 (Z.of_nat (length payload))); [done|].
    rewrite take_ge; [done|lia]. }
  assert (Hlen : (length (take 125 payload) <= 125)%nat) by (rewrite length_take; lia).
  eexists. rewrite unpack_NewFrame by lia. split_and!; [done|done| |done].
  unfold isValid, sent_frame, OpcodeClose, frameSmallPayload. simpl.
  rewrite (proj2 (Z.leb_le 8 op)) by lia. rewrite (proj2 (Z.ltb_ge 125 _)) by lia.
  by destruct isMasked.
Qed.

Lemma newControlFrame_valid_witness :
  exists f, unpack (E := unit) zeroFrame (newControlFrame 7 OpcodePing true (replicate 200 1) ++ []) = Ok (f, [])
    /\ isComplete f = true /\ isValid f true false false false = true
    /\ payload f = take 125 (replicate 200 1).
Proof. apply (newControlFrame_valid 7 OpcodePing true (replicate 200 1) []). vm_compute. split; [discriminate|reflexivity]. Defined.

(** ** Streams of frames *)

Lemma unpack_payload_rest f p : (length (unpack_payload f p).2 <= length p)%nat.
Proof.
  unfold unpack_payload. destruct (len f =? 0); [done|]. destruct p as [|b p]; [done|].
  destruct (Z.of_nat _ =? _); cbn [snd]; rewrite length_drop; lia.
Qed.

Lemma body2_rest f p : (length (body2 f p).2 <= length p)%nat.
Proof.
  unfold body2, unpack_mask. destruct (_ && _).
  - destruct p as [|b p]; [done|]. destruct (decide _); cbn [snd]; [simpl; lia|].
    etrans; [apply unpack_payload_rest|]. rewrite length_drop. lia.
  - apply unpack_payload_rest.
Qed.

Lemma body1_rest f p : (length (body1 f p).2 <= length p)%nat.
Proof.
  assert (Hext : forall size, (length (let '(g, q, go_) := unpack_extlen size f p in
    if go_ : bool then body2 g q else (g, q)).2 <= length p)%nat).
  { intros size. unfold unpack_extlen. destruct (decide _); [destruct (decide _)|].
    - simpl. lia.
    - etrans; [apply body2_rest|]. rewrite length_drop. lia.
    - apply body2_rest. }
  unfold body1, unpack_ext.
  destruct (len f =? frameLargePayload); [apply Hext|].
  destruct (len f =? frameMediumPayload); [apply Hext|]. apply body2_rest.
Qed.

Lemma unpack_zero_total {E} b p :
  exists f r, unpack (E := E) zeroFrame (b :: p) = Ok (f, r) /\ (length r <= length p)%nat.
Proof.
  destruct p as [|b1 p].
  - exists (set_first zeroFrame b), []. by rewrite unpack_first_only.
  - rewrite unpack_first, unpack_second by done.
    destruct (body1 _ p) as [f r] eqn:Hb. exists f, r. split; [done|].
    pose proof (body1_rest (set_second (set_first zeroFrame b) b1) p) as H.
    rewrite Hb in H. simpl in *. lia.
Qed.

Lemma Unpack_loop_total {E} fuel : forall frames p, (length p <= fuel)%nat ->
  exists r, Unpack_loop (E := E) fuel frames p = Ok r.
Proof.
  induction fuel as [|fuel IH]; intros frames p Hf; destruct p as [|b p]; simpl in *; eauto; [lia|].
  destruct (unpack_zero_total (E := E) b p) as (f & r & -> & Hr). cbn [mbind outcome_bind].
  apply IH. lia.
Qed.

(** [Unpack] is total: on every input it ends without a panic, and with at
    least one frame when the input is not empty. *)
Theorem Unpack_total inp :
  match Unpack (E := unit) inp with
  | Ok None => inp = []
  | Ok (Some frames) => inp ≠ []
  | _ => False
  end.
Proof.
  unfold Unpack. destruct inp as [|b p]; [done|].
  destruct (Unpack_loop_total (E := unit) (length (b :: p)) [] (b :: p)) as [r ->]; done.
Qed.

(** A frame to send: mask source, opcode, masked, payload. *)
Definition packet_of (d : Z * Z * bool * list Z) : list Z :=
  let '(rnd, op, m, p) := d in NewFrame rnd op m p.
Definition frame_of (d : Z * Z * bool * list Z) : Frame :=
  let '(rnd, op, m, p) := d in sent_frame rnd op m p.
Definition sendable (d : Z * Z * bool * list Z) : Prop :=
  let '(rnd, op, m, p) := d in 0 <= op < 16 /\ Z.of_nat (length p) < 2 ^ 64.

Lemma packet_of_nonempty d : packet_of d ≠ [].
Proof.
  destruct d as [[[rnd op] m] p]. cbn [packet_of].
  change (NewFrame rnd op m p) with (fragment rnd frameIsFinished op m p). by rewrite fragment_eq.
Qed.

Lemma Unpack_loop_packets {E} ds : forall fuel frames,
  Forall sendable ds -> (length (concat (packet_of <$> ds)) <= fuel)%nat ->
  Unpack_loop (E := E) fuel frames (concat (packet_of <$> ds)) = Ok (frames ++ (frame_of <$> ds)).
Proof.
  induction ds as [|d ds IH]; intros fuel frames Hall Hf; rewrite ?fmap_cons in *; cbn [concat] in *.
  { rewrite app_nil_r. by destruct fuel. }
  apply Forall_cons in Hall as [Hd Hall]. pose proof (packet_of_nonempty d) as Hne.
  destruct fuel as [|fuel].
  { rewrite length_app in Hf. destruct (packet_of d); [done|simpl in Hf; lia]. }
  assert (Hu : unpack (E := E) zeroFrame (packet_of d ++ concat (packet_of <$> ds))
               = Ok (frame_of d, concat (packet_of <$> ds)))
    by (destruct d as [[[rnd op] m] p]; destruct Hd; by apply unpack_NewFrame).
  rewrite length_app in Hf.
  assert (0 < length (packet_of d))%nat by (destruct (packet_of d); simpl; [done|lia]).
  destruct (packet_of d ++ _) as [|c q] eqn:Hq.
  { destruct (packet_of d); done. }
  cbn [Unpack_loop]. rewrite Hu. cbn [mbind outcome_bind]. rewrite IH by (done || lia).
  unfold Append. by rewrite <- (assoc_L (++)).
Qed.

(** Several frames received in one packet are all recovered, in order. *)
Theorem Unpack_packets ds :
  ds ≠ [] -> Forall sendable ds ->
  Unpack (E := unit) (concat (packet_of <$> ds)) = Ok (Some (frame_of <$> ds)).
Proof.
  intros Hne Hall. unfold Unpack.
  destruct (concat (packet_of <$> ds)) as [|c q] eqn:Hq.
  { destruct ds as [|d ds]; [done|]. simpl in Hq. apply app_nil in Hq as [Hq _].
    by destruct (packet_of_nonempty d). }
  rewrite <- Hq, Unpack_loop_packets by done. done.
Qed.

Lemma Unpack_packets_witness :
  Unpack (E := unit) (concat (packet_of <$> [(1, OpcodePing, true, [7]); (2, OpcodeText, false, replicate 126 97)]))
  = Ok (Some (frame_of <$> [(1, OpcodePing, true, [7]); (2, OpcodeText, false, replicate 126 97)])).
Proof.
  apply Unpack_packets; [discriminate|]. repeat constructor; vm_compute; done.
Defined.

(** The guard of the extended length is not a re-entrancy guard.  A 127
    byte payload has the 16-bit length 127, which a resumed [unpack] takes for
    the mark of a 64-bit length: when the packet is cut right after the length,
    the first six payload bytes are lost and the frame does not complete. *)
Theorem unpack_resume_127 rnd op p :
  0 <= op < 16 -> is_bytes p -> length p = 127%nat ->
  let packet := NewFrame rnd op false p in
  exists f, feed (E := unit) zeroFrame [take 4 packet; drop 4 packet] = Ok (f, [])
    /\ isComplete f = false /\ payload f = drop 6 p.
Proof.
  intros Hop Hp Hlen packet. unfold packet.
  change (NewFrame rnd op false p) with (fragment rnd frameIsFinished op false p). rewrite fragment_eq, Hlen.
  change (Z.of_nat 127) with 127. change (pack_len 127) with 126.
  change (pack_ext 126 127) with [0; 127].
  destruct (first_byte frameIsFinished op (or_intror eq_refl) Hop) as (B1 & B2 & B3 & B4 & B5).
  revert B1 B2 B3 B4 B5. cbv zeta. set (b0 := Z.lor frameIsFinished op). intros.
  cbn [app take drop feed]. change (Z.lor 0 (u8 126)) with 126. rewrite take_0, drop_0.
  set (f1 := mkFrame 128 0 0 0 op 0 0 127 [] [] [b0; 126; 0; 127] false).
  assert (unpack (E := unit) zeroFrame [b0; 126; 0; 127] = Ok (f1, [])) as ->.
  { rewrite unpack_first, unpack_second by done. f_equal.
    unfold set_first, set_second. simpl. by rewrite B1, B2, B3, B4, B5. }
  cbn [mbind outcome_bind isComplete f1]. rewrite unpack_body by (simpl; lia).
  rewrite (body1_ext f1 p 10) by (simpl; auto || lia). cbn [chopped f1 length Nat.sub].
  rewrite decide_False by lia. cbv zeta.
  set (L := from_be _). set (f2 := set_len _ L).
  assert (HL : 127 * 256 ^ 6 <= L < 256 ^ 8).
  { destruct p as [|p0 [|p1 [|p2 [|p3 [|p4 [|p5 q]]]]]]; try done. clear Hlen.
    do 6 (apply Forall_cons in Hp as [? Hp]).
    assert (L = from_be ((((((([0; 127] ++ [p0]) ++ [p1]) ++ [p2]) ++ [p3]) ++ [p4]) ++ [p5]))) as -> by done.
    rewrite !from_be_snoc by done. change (from_be [0; 127]) with 127.
    unfold is_byte in *. lia. }
  assert (Hw : payload_wanted f2) by (unfold payload_wanted; simpl; lia).
  rewrite body2_done by done.
  assert (Hd : length (drop 6 p) = 121%nat) by (rewrite length_drop; lia).
  rewrite unpack_payload_eq by (done || by destruct (drop 6 p)).
  replace (Nat.min _ _) with 121%nat
    by (rewrite Hd; change (len f2) with L; change (payload f2) with (@nil Z); cbn [length]; lia).
  rewrite take_ge, (drop_ge (drop 6 p)) by lia. unfold unmask. simpl masked. cbn [Z.eqb frameIsMasked].
  unfold finish. simpl payload. change (len (set_payload f2 _)) with L. rewrite (proj2 (Z.eqb_neq _ _)) by (rewrite Hd; lia).
  cbn [mbind outcome_bind]. eexists. split; [reflexivity|]. done.
Qed.

Lemma unpack_resume_127_witness :
  exists f, feed (E := unit) zeroFrame
      [take 4 (NewFrame 0 OpcodeText false (replicate 127 97));
       drop 4 (NewFrame 0 OpcodeText false (replicate 127 97))] = Ok (f, [])
    /\ isComplete f = false /\ payload f = drop 6 (replicate 127 97).
Proof.
  apply (unpack_resume_127 0 OpcodeText (replicate 127 97)); [vm_compute; split; discriminate || reflexivity | | reflexivity].
  apply (bool_decide_unpack _). vm_compute. exact I.
Defined.
