(* ===== verification/Utf8.v ===== *)
(** The parts of Go's [unicode/utf8], [unicode], [bytes] and [strings] that the
    modelled packages use on text: rune decoding and encoding, white space,
    trimming, splitting and case folding.  Above ASCII, the letter, digit and
    lower-case tables of [unicode] are the fields of the class [Unicode]. *)

From Stdlib Require Import ZArith Lia.
From S2P Require Import Prelude Ascii.

Local Open Scope Z_scope.

(** ** Runes *)

Definition RuneError : Z := 65533.

Definition in_range (b lo hi : Z) : bool := (lo <=? b) && (b <=? hi).

(** The second byte a leading byte accepts, and the number of bytes. *)
Definition lead (b : Z) : option (Z * Z * nat) :=
  if in_range b 194 223 then Some (128, 191, 2%nat)
  else if b =? 224 then Some (160, 191, 3%nat)
  else if b =? 237 then Some (128, 159, 3%nat)
  else if in_range b 225 239 then Some (128, 191, 3%nat)
  else if b =? 240 then Some (144, 191, 4%nat)
  else if in_range b 241 243 then Some (128, 191, 4%nat)
  else if b =? 244 then Some (128, 143, 4%nat)
  else None.

(** [utf8.DecodeRune] on a non-empty slice: the rune and its width. *)
Definition DecodeRune (s : list Z) : Z * nat :=
  match s with
  | [] => (RuneError, 0%nat)
  | b0 :: s1 =>
      if b0 <? 128 then (b0, 1%nat)
      else
        match lead b0, s1 with
        | Some (lo, hi, n), b1 :: s2 =>
            if negb (in_range b1 lo hi) then (RuneError, 1%nat)
            else if decide (n = 2%nat) then
              (Z.lor (Z.shiftl (Z.land b0 31) 6) (Z.land b1 63), 2%nat)
            else
              match s2 with
              | [] => (RuneError, 1%nat)
              | b2 :: s3 =>
                  if negb (in_range b2 128 191) then (RuneError, 1%nat)
                  else if decide (n = 3%nat) then
                    (Z.lor (Z.lor (Z.shiftl (Z.land b0 15) 12) (Z.shiftl (Z.land b1 63) 6))
                           (Z.land b2 63), 3%nat)
                  else
                    match s3 with
                    | [] => (RuneError, 1%nat)
                    | b3 :: _ =>
                        if negb (in_range b3 128 191) then (RuneError, 1%nat)
                        else
                          (Z.lor (Z.lor (Z.lor (Z.shiftl (Z.land b0 7) 18)
                                               (Z.shiftl (Z.land b1 63) 12))
                                        (Z.shiftl (Z.land b2 63) 6)) (Z.land b3 63), 4%nat)
                    end
              end
        | _, _ => (RuneError, 1%nat)
        end
  end.

(** [utf8.EncodeRune], as used by [WriteRune] and [string(r)]. *)
Definition EncodeRune (r : Z) : list Z :=
  if in_range r 0 127 then [r]
  else if in_range r 128 2047 then
    [Z.lor 192 (Z.shiftr r 6); Z.lor 128 (Z.land r 63)]
  else if (r <? 0) || (1114111 <? r) || in_range r 55296 57343 then [239; 191; 189]
  else if r <=? 65535 then
    [Z.lor 224 (Z.shiftr r 12); Z.lor 128 (Z.land (Z.shiftr r 6) 63); Z.lor 128 (Z.land r 63)]
  else
    [Z.lor 240 (Z.shiftr r 18); Z.lor 128 (Z.land (Z.shiftr r 12) 63);
     Z.lor 128 (Z.land (Z.shiftr r 6) 63); Z.lor 128 (Z.land r 63)].

(** [for x, r := range s]: every rune with its byte offset. *)
Fixpoint runes_from (fuel : nat) (x : nat) (s : list Z) : list (nat * Z) :=
  match fuel, s with
  | S fuel, _ :: _ =>
      let '(r, n) := DecodeRune s in
      (x, r) :: runes_from fuel (x + n) (drop n s)
  | _, _ => []
  end.

Definition range_runes (s : list Z) : list (nat * Z) := runes_from (length s) 0 s.

(** [utf8.Valid]. *)
Fixpoint valid_from (fuel : nat) (s : list Z) : bool :=
  match fuel, s with
  | S fuel, b :: _ =>
      let '(r, n) := DecodeRune s in
      if (r =? RuneError) && bool_decide (n = 1%nat) then false else valid_from fuel (drop n s)
  | _, _ => true
  end.

Definition Valid (s : list Z) : bool := valid_from (length s) s.

(** [utf8.DecodeLastRune] on a non-empty slice: scan back over at most three
    continuation bytes, then decode and check that the rune ends the slice. *)
Fixpoint scan_back (k : nat) (s : list Z) (start : nat) : nat :=
  match k, start with
  | S k, S start' =>
      match s !! start' with
      | Some b => if negb (in_range b 128 191) then start' else scan_back k s start'
      | None => start'
      end
  | _, _ => start
  end.

Definition DecodeLastRune (s : list Z) : Z * nat :=
  match last s with
  | None => (RuneError, 0%nat)
  | Some b =>
      if b <? 128 then (b, 1%nat)
      else
        let start := scan_back 3 s (length s - 1) in
        let '(r, size) := DecodeRune (drop start s) in
        if decide (start + size = length s)%nat then (r, size) else (RuneError, 1%nat)
  end.

(** ** Classes of runes *)

(** The tables of package [unicode] above U+00FF. *)
Class Unicode : Type := {
  table_IsLetter : Z -> bool;
  table_IsDigit : Z -> bool;
  table_ToLower : Z -> Z;
  table_ToUpper : Z -> Z
}.

Definition IsLetter `{Unicode} (r : Z) : bool :=
  if r <? 128 then IsAlpha r
  else if r <? 256 then
    (r =? 170) || (r =? 181) || (r =? 186) || in_range r 192 214 || in_range r 216 246
    || in_range r 248 255
  else table_IsLetter r.

Definition rune_IsDigit `{Unicode} (r : Z) : bool :=
  if r <? 256 then IsDigit r else table_IsDigit r.

Definition rune_IsSpace (r : Z) : bool :=
  IsSpace r || (r =? 133) || (r =? 160) || (r =? 5760) || in_range r 8192 8202
  || (r =? 8232) || (r =? 8233) || (r =? 8239) || (r =? 8287) || (r =? 12288).

Definition rune_ToLower `{Unicode} (r : Z) : Z :=
  if r <? 128 then lower_byte r
  else if r <? 256 then
    (if in_range r 192 214 || in_range r 216 222 then r + 32 else r)
  else table_ToLower r.

Definition rune_ToUpper `{Unicode} (r : Z) : Z :=
  if r <? 128 then upper_byte r
  else if r <? 256 then
    (if r =? 181 then 924
     else if in_range r 224 246 || in_range r 248 254 then r - 32
     else if r =? 255 then 376 else r)
  else table_ToUpper r.

(** ** Text *)

(** [bytes.ToLower] and [strings.ToLower]: bytewise on ASCII text, by runes
    otherwise. *)
Definition text_ToLower `{Unicode} (s : list Z) : list Z :=
  if forallb (fun b => b <? 128) s then ToLower s
  else concat ((fun xr : nat * Z => EncodeRune (rune_ToLower xr.2)) <$> range_runes s).

(** [strings.ToUpper]. *)
Definition text_ToUpper `{Unicode} (s : list Z) : list Z :=
  if forallb (fun b => b <? 128) s then ToUpper s
  else concat ((fun xr : nat * Z => EncodeRune (rune_ToUpper xr.2)) <$> range_runes s).

(** [bytes.TrimSpace]. *)
Fixpoint trim_left (fuel : nat) (s : list Z) : list Z :=
  match fuel, s with
  | S fuel, _ :: _ =>
      let '(r, n) := DecodeRune s in
      if rune_IsSpace r then trim_left fuel (drop n s) else s
  | _, _ => s
  end.

Fixpoint trim_right (fuel : nat) (s : list Z) : list Z :=
  match fuel, s with
  | S fuel, _ :: _ =>
      let '(r, n) := DecodeLastRune s in
      if rune_IsSpace r then trim_right fuel (take (length s - n) s) else s
  | _, _ => s
  end.

Definition TrimSpace (s : list Z) : list Z :=
  let s := trim_left (length s) s in trim_right (length s) s.

(** [bytes.TrimRight(s, " ")]. *)
Fixpoint TrimRight_spaces (s : list Z) : list Z :=
  match s with
  | [] => []
  | b :: s' =>
      match TrimRight_spaces s' with
      | [] => if b =? 32 then [] else [b]
      | t => b :: t
      end
  end.

(** [bytes.Split(s, []byte{sep})]: always at least one piece. *)
Fixpoint split_on (sep : Z) (s : list Z) : list Z * list (list Z) :=
  match s with
  | [] => ([], [])
  | b :: s' =>
      let '(p, ps) := split_on sep s' in
      if b =? sep then ([], p :: ps) else (b :: p, ps)
  end.

Definition Split (sep : Z) (s : list Z) : list (list Z) :=
  let '(p, ps) := split_on sep s in p :: ps.

(** [bytes.EqualFold] against a pattern of ASCII bytes that has no letter with
    a fold outside ASCII ([k] and [s]). *)
Definition EqualFold_ascii (t s : list Z) : bool := bool_decide (ToLower t = ToLower s).

(** ** Facts *)

Lemma DecodeRune_ascii b s : 0 <= b < 128 -> DecodeRune (b :: s) = (b, 1%nat).
Proof. intros Hb. simpl. by rewrite (proj2 (Z.ltb_lt b 128)) by lia. Qed.

Lemma rune_IsSpace_ascii b : 0 <= b < 128 -> rune_IsSpace b = IsSpace b.
Proof. intros Hb. assert (Hb' : is_byte b) by (unfold is_byte; lia). revert Hb. by_bytes b Hb'. Qed.

Lemma IsLetter_ascii `{Unicode} b : 0 <= b < 128 -> IsLetter b = IsAlpha b.
Proof. intros Hb. unfold IsLetter. by rewrite (proj2 (Z.ltb_lt b 128)) by lia. Qed.

Lemma rune_IsDigit_ascii `{Unicode} b : 0 <= b < 128 -> rune_IsDigit b = IsDigit b.
Proof. intros Hb. unfold rune_IsDigit. by rewrite (proj2 (Z.ltb_lt b 256)) by lia. Qed.

Lemma EncodeRune_ascii b : 0 <= b < 128 -> EncodeRune b = [b].
Proof. intros Hb. unfold EncodeRune, in_range. by rewrite !(proj2 (Z.leb_le _ _)) by lia. Qed.

(** ASCII text: one rune per byte. *)
Definition is_ascii (s : list Z) : Prop := Forall (fun b => 0 <= b < 128) s.

Lemma runes_from_ascii s : forall fuel x, is_ascii s -> (length s <= fuel)%nat ->
  runes_from fuel x s = imap (fun i b => (x + i, b)%nat) s.
Proof.
  induction s as [|b s IH]; intros fuel x Hs Hf; [by destruct fuel|].
  apply Forall_cons in Hs as [Hb Hs]. simpl in Hf. destruct fuel as [|fuel]; [lia|].
  cbn [runes_from]. rewrite DecodeRune_ascii by done. cbn [drop]. rewrite drop_0, IH by (done || lia).
  simpl. rewrite Nat.add_0_r. f_equal. apply imap_ext. intros i c _. simpl. f_equal. lia.
Qed.

Lemma text_ToLower_ascii `{Unicode} s : is_ascii s -> text_ToLower s = ToLower s.
Proof.
  intros Hs. unfold text_ToLower.
  assert (forallb (fun b => b <? 128) s = true) as ->; [|done].
  induction Hs as [|b s Hb _ IH]; simpl; [done|]. by rewrite (proj2 (Z.ltb_lt b 128)) by lia.
Qed.

Lemma Split_none sep w : sep ∉ w -> Split sep w = [w].
Proof.
  unfold Split. intros Hw. assert (Hs : split_on sep w = (w, [])).
  { induction w as [|c w IH]; [done|]. apply not_elem_of_cons in Hw as [Hc Hw].
    simpl. rewrite IH by done. by rewrite (proj2 (Z.eqb_neq c sep)) by done. }
  by rewrite Hs.
Qed.

Lemma Split_sep sep w rest : sep ∉ w -> Split sep (w ++ sep :: rest) = w :: Split sep rest.
Proof.
  unfold Split. intros Hw.
  assert (Hs : split_on sep (w ++ sep :: rest) = (w, let '(p, ps) := split_on sep rest in p :: ps)).
  { induction w as [|c w IH]; simpl.
    - rewrite Z.eqb_refl. by destruct (split_on sep rest).
    - apply not_elem_of_cons in Hw as [Hc Hw]. rewrite IH by done.
      by rewrite (proj2 (Z.eqb_neq c sep)) by done. }
  by rewrite Hs.
Qed.

(** Trimming ASCII text that has no space at either end. *)
Definition no_edge_space (s : list Z) : Prop :=
  (forall b, head s = Some b -> IsSpace b = false) /\ (forall b, last s = Some b -> IsSpace b = false).

Lemma trim_left_hd fuel b s : 0 <= b < 128 -> IsSpace b = false -> trim_left fuel (b :: s) = b :: s.
Proof.
  intros Hb Hs. destruct fuel as [|fuel]; [done|]. cbn [trim_left].
  rewrite DecodeRune_ascii by done. by rewrite rune_IsSpace_ascii, Hs.
Qed.

Lemma trim_right_snoc fuel s b : 0 <= b < 128 ->
  trim_right (S fuel) (s ++ [b]) = if IsSpace b then trim_right fuel s else s ++ [b].
Proof.
  intros Hb. assert (Hd : DecodeLastRune (s ++ [b]) = (b, 1%nat)).
  { unfold DecodeLastRune. rewrite last_snoc. by rewrite (proj2 (Z.ltb_lt b 128)) by lia. }
  cbn [trim_right]. destruct (s ++ [b]) as [|c l] eqn:Hl; [by destruct s|]. rewrite <- Hl, Hd in *.
  rewrite rune_IsSpace_ascii by done. destruct (IsSpace b); [|done]. f_equal.
  rewrite length_app. simpl. replace (length s + 1 - 1)%nat with (length s) by lia.
  by rewrite take_app_length.
Qed.

Lemma TrimSpace_CR s : is_ascii s -> no_edge_space s -> TrimSpace (s ++ [13]) = s.
Proof.
  intros Ha [Hh Hl]. destruct s as [|b s]; [reflexivity|].
  unfold TrimSpace. apply Forall_cons in Ha as Ha'. destruct Ha' as [Hb _].
  cbn [app length]. rewrite trim_left_hd by auto. cbn [length].
  rewrite app_comm_cons, trim_right_snoc by lia. cbn [IsSpace Z.eqb Pos.eqb orb].
  rewrite length_app. cbn [length]. rewrite Nat.add_1_r.
  destruct (b :: s) as [|c l _] using rev_ind; [done|].
  apply Forall_app in Ha as [_ Hc]. apply Forall_inv in Hc.
  rewrite trim_right_snoc by done. rewrite last_snoc in Hl. by rewrite (Hl c).
Qed.

Lemma trim_left_spaces sp w fuel : Forall (fun c => IsSpace c = true) sp -> no_edge_space w -> is_ascii w ->
  (length sp <= fuel)%nat -> trim_left fuel (sp ++ w) = w.
Proof.
  intros Hsp Hw Ha. revert fuel. induction Hsp as [|c sp Hc _ IH]; intros fuel Hf.
  - destruct w as [|b w]; [destruct fuel; reflexivity|]. apply Forall_inv in Ha. apply trim_left_hd; [done|]. by apply (proj1 Hw).
  - destruct fuel as [|fuel]; [cbn in Hf; lia|]. cbn [app trim_left].
    assert (Hb : 0 <= c < 128) by (unfold IsSpace in Hc; rewrite !orb_true_iff, !Z.eqb_eq in Hc; lia).
    rewrite DecodeRune_ascii by done. rewrite rune_IsSpace_ascii, Hc by done. cbn [drop]. apply IH. cbn in Hf. lia.
Qed.

Lemma trim_right_id w fuel : no_edge_space w -> is_ascii w -> trim_right fuel w = w.
Proof.
  intros [_ Hl] Ha. destruct fuel as [|fuel]; [done|]. destruct w as [|c w _] using rev_ind; [done|].
  apply Forall_app in Ha as [_ Ha]. apply Forall_inv in Ha. rewrite trim_right_snoc by done. rewrite last_snoc in Hl. by rewrite (Hl c).
Qed.

Lemma TrimSpace_spaces sp w : Forall (fun c => IsSpace c = true) sp -> no_edge_space w -> is_ascii w -> TrimSpace (sp ++ w) = w.
Proof.
  intros Hsp Hw Ha. unfold TrimSpace. rewrite trim_left_spaces by (try done; rewrite length_app; lia). by apply trim_right_id.
Qed.

Lemma TrimSpace_id w : no_edge_space w -> is_ascii w -> TrimSpace w = w.
Proof. by apply (TrimSpace_spaces []). Qed.

(** An instance of the tables, for concrete runs. *)
Definition ascii_tables : Unicode := {|
  table_IsLetter := fun _ => false;
  table_IsDigit := fun _ => false;
  table_ToLower := fun r => r;
  table_ToUpper := fun r => r
|}.

(** Trimming adds nothing. *)
Lemma trim_left_suffix fuel : forall s, trim_left fuel s `suffix_of` s.
Proof.
  induction fuel as [|fuel IH]; intros s; [done|]. cbn [trim_left]. destruct s as [|b s]; [done|]. destruct (DecodeRune (b :: s)) as [r n].
  destruct (rune_IsSpace r); [|done]. etrans; [apply IH|]. apply suffix_drop.
Qed.
Lemma trim_right_prefix fuel : forall s, trim_right fuel s `prefix_of` s.
Proof.
  induction fuel as [|fuel IH]; intros s; [done|]. cbn [trim_right]. destruct s as [|b s]; [done|]. destruct (DecodeLastRune (b :: s)) as [r n].
  destruct (rune_IsSpace r); [|done]. etrans; [apply IH|]. apply prefix_take.
Qed.
Lemma TrimSpace_sub s c : c ∈ TrimSpace s -> c ∈ s.
Proof.
  unfold TrimSpace. intros H. destruct (trim_left_suffix (length s) s) as [a Ha]. rewrite Ha. apply elem_of_app. right.
  destruct (trim_right_prefix (length (trim_left (length s) s)) (trim_left (length s) s)) as [b Hb]. rewrite Hb. apply elem_of_app. by left.
Qed.

Lemma Split_pieces sep s : Forall (fun p => sep ∉ p) (Split sep s).
Proof.
  unfold Split. induction s as [|b s IH]; cbn [split_on]; [constructor; [apply not_elem_of_nil|done]|].
  destruct (split_on sep s) as [p ps]. destruct (Z.eqb_spec b sep) as [->|Hb]; [constructor; [apply not_elem_of_nil|exact IH]|].
  apply Forall_cons in IH as [Hp Hps]. constructor; [|done]. by rewrite not_elem_of_cons.
Qed.
