(* ===== verification/TextDiff.v ===== *)
(** Packages [lib/text] and [lib/text/diff]: the differences of two texts, by lines and
    within lines.

    A file is its bytes.  [Files] sets the lines that it is done with to nil, which
    nothing reads, and which is left out; the lines that are still to be compared are the
    rest of a list, and an index is counted from the first of them. *)

From Stdlib Require Import ZArith Lia.
From S2P Require Import Prelude Ascii Utf8 Bytes.

Local Open Scope Z_scope.

(** ** Lines, chunks and changes *)

Record Line : Type := mkLine { N : Z; V : list Z }.
Record Chunk : Type := mkChunk { StartAt : Z; C_V : list Z }.
Record LineChange : Type := mkChange { Old : Line; New : Line; C_Adds : list Chunk; C_Dels : list Chunk }.
Definition NewLineChange (o n : Line) : LineChange := mkChange o n [] [].

(** [JoinChunks] and [Chunks.Join]. *)
Fixpoint JoinChunks (chunks : list Chunk) (sep : list Z) : list Z :=
  match chunks with
  | [] => []
  | [c] => C_V c
  | c :: chunks => C_V c ++ sep ++ JoinChunks chunks sep
  end.

Record Data : Type := mkData { Adds : list Line; Dels : list Line; Changes : list LineChange }.
Definition no_diffs : Data := mkData [] [] [].
Definition PushAdd (d : Data) (l : Line) : Data := mkData (Adds d ++ [l]) (Dels d) (Changes d).
Definition PushDel (d : Data) (l : Line) : Data := mkData (Adds d) (Dels d ++ [l]) (Changes d).
Definition PushChange (d : Data) (o n : Line) : Data := mkData (Adds d) (Dels d) (Changes d ++ [NewLineChange o n]).
Definition GetAllAdds (d : Data) : list Chunk := ((fun l => mkChunk 0 (V l)) <$> Adds d) ++ concat (C_Adds <$> Changes d).
Definition GetAllDels (d : Data) : list Chunk := ((fun l => mkChunk 0 (V l)) <$> Dels d) ++ concat (C_Dels <$> Changes d).

Definition DefMatchLen : Z := 5.
Definition DefDelimiter : Z := 10.
Inductive difflevel : Type := LevelLines | LevelWords.

(** [ReadLines]: the lines with their line feeds; what is behind the last one is not
    returned. *)
Fixpoint ReadLines_from (n : Z) (line : list Z) (text : list Z) : list Line :=
  match text with
  | [] => []
  | c :: text => if c =? DefDelimiter then mkLine n (line ++ [c]) :: ReadLines_from (n + 1) [] text else ReadLines_from n (line ++ [c]) text
  end.
Definition ReadLines (text : list Z) : list Line := ReadLines_from 1 [] text.

(** [Bytes]: equality. *)
Fixpoint Bytes_equal (o n : list Z) : bool :=
  match o, n with
  | [], [] => true
  | a :: o, b :: n => (a =? b) && Bytes_equal o n
  | _, _ => false
  end.

(** ** The ratio of matching bytes *)

(** How many bytes match at the beginning; at the end, it is that of the reversals. *)
Fixpoint matching (o n : list Z) : nat :=
  match o, n with
  | a :: o, b :: n => if a =? b then S (matching o n) else 0
  | _, _ => 0
  end.

(** The search for a chunk of the old text in the new one: where it was in the old text,
    and where in the new. *)
Fixpoint search_chunk (fuel : nat) (old new : list Z) (minlen x : nat) (y : Z) : nat * Z :=
  match fuel with
  | O => (x, y)
  | S fuel =>
      let y := TokenFind new (take minlen (drop x old)) 0 in
      if 0 <? y then (x, y) else search_chunk fuel old new minlen (S x) y
  end.

(** One round: the number of bytes that match, and what is left to compare. *)
Definition ratio_round (old new : list Z) (minTokenLen : nat) : outcome unit (nat * option (list Z * list Z)) :=
  let x := matching old new in
  if bool_decide (x = Nat.min (length old) (length new)) then Ok (x, None)
  else
    let s := matching (rev (drop x old)) (rev (drop x new)) in
    let xend := Z.of_nat (length old) - 1 - Z.of_nat s in
    let yend := Z.of_nat (length new) - 1 - Z.of_nat s in
    if (xend =? Z.of_nat x) || (yend =? Z.of_nat x) then Ok ((x + s)%nat, None)
    else
      old ← slice old x (Z.to_nat (xend + 1));
      new ← slice new x (Z.to_nat (yend + 1));
      let minlen := Nat.min minTokenLen (length old) in
      let '(x', y) := search_chunk (length old - minlen) old new minlen 0 (-1) in
      if y <? 0 then Ok ((x + s)%nat, None)
      else
        old ← slice old x' (length old);
        new ← slice new (Z.to_nat y) (length new);
        Ok ((x + s)%nat, Some (old, new)).
Fixpoint ratio_loop (fuel : nat) (old new : list Z) (minTokenLen m : nat) : outcome unit nat :=
  match fuel with
  | O => NoFuel
  | S fuel =>
      '(k, next) ← ratio_round old new minTokenLen;
      match next with
      | None => Ok (m + k)%nat
      | Some (old, new) => ratio_loop fuel old new minTokenLen (m + k)
      end
  end.
(** [BytesRatio]: the two numbers of the ratio. *)
Definition BytesRatio (old new : list Z) (minTokenLen : Z) : outcome unit (nat * nat) :=
  let minTokenLen := Z.to_nat (if minTokenLen <? 0 then DefMatchLen else minTokenLen) in
  m ← ratio_loop (S (length old + length new)) old new minTokenLen 0;
  Ok (m, Nat.max (length old) (length new)).

(** ** The differences within a line *)

Definition token_len (l : list Z) : nat := if Z.of_nat (length l) <? DefMatchLen then length l else Z.to_nat DefMatchLen.

(** [searchForward]: the additions and deletions, how far both texts are read, and what is
    left of them. *)
Record forward : Type := mkForward { f_adds : list Chunk; f_dels : list Chunk; f_x : nat; f_y : nat; f_old : list Z; f_new : list Z }.
Definition searchForward (atx aty : Z) (x y : nat) (oldleft newleft : list Z) : outcome unit forward :=
  let oldmin := token_len oldleft in
  let newmin := token_len newleft in
  let '(xx, xaty) := search_chunk (length oldleft - oldmin - 1) oldleft newleft oldmin 1 (-1) in
  let '(yy, yatx) := search_chunk (length newleft - newmin - 1) newleft oldleft newmin 1 (-1) in
  if (xaty <? 0) && (yatx <? 0) then
    Ok (mkForward [mkChunk (aty + Z.of_nat y) newleft] [mkChunk (atx + Z.of_nat x) oldleft] x y [] [])
  else
    v ← slice oldleft 0 xx;
    oldleft ← slice oldleft xx (length oldleft);
    w ← slice newleft 0 yy;
    newleft ← slice newleft yy (length newleft);
    Ok (mkForward [mkChunk (aty + Z.of_nat y) w] [mkChunk (atx + Z.of_nat x) v] (x + xx) (y + yy) oldleft newleft).

(** [Lines]: the additions and deletions. *)
Fixpoint Lines (fuel : nat) (old new : list Z) (atx aty : Z) : outcome unit (list Chunk * list Chunk) :=
  match fuel with
  | O => NoFuel
  | S fuel =>
      let x := matching old new in
      if bool_decide (x = Nat.min (length old) (length new)) then
        if decide (length old < length new)%nat then Ok ([mkChunk (atx + Z.of_nat x) (drop x new)], [])
        else Ok ([], [mkChunk (atx + Z.of_nat x) (drop x old)])
      else
        let s := matching (rev (drop x old)) (rev (drop x new)) in
        let xend := (length old - s)%nat in
        let yend := (length new - s)%nat in
        oldleft ← slice old x xend;
        newleft ← slice new x yend;
        if bool_decide (x = xend) then Ok ([mkChunk (aty + Z.of_nat x) newleft], [])
        else if bool_decide (x = yend) then Ok ([], [mkChunk (atx + Z.of_nat x) oldleft])
        else
          let xaty := TokenFind newleft (take (token_len oldleft) oldleft) 0 in
          let yatx := TokenFind oldleft (take (token_len newleft) newleft) 0 in
          if (xaty <? 0) && (yatx <? 0) then
            f ← searchForward atx aty x x oldleft newleft;
            if isnil (f_old f) then
              Ok (f_adds f ++ (if isnil (f_new f) then [] else [mkChunk (atx + Z.of_nat (f_x f)) (f_new f)]), f_dels f)
            else if isnil (f_new f) then Ok (f_adds f, f_dels f ++ [mkChunk (aty + Z.of_nat (f_y f)) (f_old f)])
            else
              '(adds, dels) ← Lines fuel (f_old f) (f_new f) (atx + Z.of_nat (f_x f)) (aty + Z.of_nat (f_y f));
              Ok (f_adds f ++ adds, f_dels f ++ dels)
          else if 0 <=? xaty then
            v ← slice new x (x + Z.to_nat xaty);
            newleft ← slice new (x + Z.to_nat xaty) yend;
            '(adds, dels) ← Lines fuel oldleft newleft (atx + Z.of_nat x) (aty + Z.of_nat x);
            Ok (mkChunk (aty + Z.of_nat x) v :: adds, dels)
          else
            v ← slice old x (x + Z.to_nat yatx);
            oldleft ← slice old (x + Z.to_nat yatx) xend;
            '(adds, dels) ← Lines fuel oldleft newleft (atx + Z.of_nat x) (aty + Z.of_nat x);
            Ok (adds, mkChunk (atx + Z.of_nat x) v :: dels)
  end.
Definition Lines_of (old new : list Z) : outcome unit (list Chunk * list Chunk) := Lines (S (length old + length new)) old new 0 0.

(** ** The differences of two files *)

(** [findLine]: where the line is. *)
Fixpoint findLine (v : list Z) (text : list Line) (n : nat) : option nat :=
  match text with
  | [] => None
  | l :: text => if Bytes_equal v (V l) then Some n else findLine v text (S n)
  end.

Section Files.
(** Whether a ratio of two numbers, in single precision, is above [DefMatchRatio]. *)
Context (above : nat -> nat -> bool).

(** What a round does with the lines that are first. *)
Definition del_lines (d : Data) (ls : list Line) : Data := fold_left PushDel ls d.
Definition add_lines (d : Data) (ls : list Line) : Data := fold_left PushAdd ls d.
Fixpoint change_lines (d : Data) (os ns : list Line) : Data :=
  match os, ns with o :: os, n :: ns => change_lines (PushChange d o n) os ns | _, _ => d end.

Definition compare_round (d : Data) (o : Line) (os : list Line) (n : Line) (ns : list Line) :
    outcome unit (Data * list Line * list Line) :=
  if Bytes_equal (V o) (V n) then Ok (d, os, ns)
  else
    let otrim := TrimSpace (V o) in
    let ntrim := TrimSpace (V n) in
    if isnil otrim && isnil ntrim then Ok (PushChange d o n, os, ns)
    else if isnil otrim then Ok (PushDel d o, os, n :: ns)
    else if isnil ntrim then Ok (PushAdd d n, o :: os, ns)
    else
      '(m, maxlen) ← BytesRatio (V o) (V n) DefMatchLen;
      if above m maxlen then Ok (PushChange d o n, os, ns)
      else
        match findLine (V o) ns 1, findLine (V n) os 1 with
        | None, None => Ok (PushChange d o n, os, ns)
        | None, Some k => Ok (del_lines d (take k (o :: os)), drop k (o :: os), n :: ns)
        | Some k, None => Ok (add_lines d (take k (n :: ns)), o :: os, drop k (n :: ns))
        | Some a, Some b =>
            if (a <? b)%nat then Ok (add_lines d (take a (n :: ns)), o :: os, drop a (n :: ns))
            else if (a =? b)%nat then
              Ok (change_lines d (take b (o :: os)) (take a (n :: ns)), drop b (o :: os), drop a (n :: ns))
            else Ok (del_lines d (take b (o :: os)), drop b (o :: os), n :: ns)
        end.
Fixpoint compare_loop (fuel : nat) (d : Data) (olds news : list Line) : outcome unit Data :=
  match olds, news with
  | [], _ => Ok (add_lines d news)
  | _, [] => Ok (del_lines d olds)
  | o :: os, n :: ns =>
      match fuel with
      | O => NoFuel
      | S fuel => '(d, olds, news) ← compare_round d o os n ns; compare_loop fuel d olds news
      end
  end.
Fixpoint change_words (cs : list LineChange) : outcome unit (list LineChange) :=
  match cs with
  | [] => Ok []
  | c :: cs =>
      '(adds, dels) ← Lines_of (V (Old c)) (V (New c));
      cs ← change_words cs;
      Ok (mkChange (Old c) (New c) adds dels :: cs)
  end.
Definition Files (oldf newf : list Z) (level : difflevel) : outcome unit Data :=
  let olds := ReadLines oldf in
  let news := ReadLines newf in
  d ← compare_loop (length olds + length news) no_diffs olds news;
  match level with
  | LevelLines => Ok d
  | LevelWords => cs ← change_words (Changes d); Ok (mkData (Adds d) (Dels d) cs)
  end.
End Files.

Definition above70 (m maxlen : nat) : bool := (7 * maxlen <? 10 * m)%nat.
Example files_words :
  match Files above70 (str "a line" ++ [10] ++ str "gone" ++ [10] ++ str "same" ++ [10]) (str "a lines" ++ [10] ++ str "same" ++ [10] ++ str "new" ++ [10]) LevelWords with
  | Ok d => (V <$> Adds d) = [str "new" ++ [10]] /\ (V <$> Dels d) = [str "gone" ++ [10]] /\ (C_V <$> GetAllAdds d) = [str "new" ++ [10]; str "s"]
  | _ => False
  end.
Proof. vm_compute. repeat split. Qed.
