(* ===== verification/TextDiffFacts.v ===== *)
(** Proofs on [TextDiff]: what the differences say is how one text becomes the other,
    and finding them ends. *)

From Stdlib Require Import ZArith Lia.
From S2P Require Import Prelude Ascii Utf8 Bytes TextDiff.

Local Open Scope Z_scope.

(** ** Matching ends *)

Lemma matching_le o : forall n, (matching o n <= length o)%nat /\ (matching o n <= length n)%nat.
Proof. induction o as [|a o IH]; intros [|b n]; cbn; try lia. destruct (a =? b); [specialize (IH n)|]; cbn; lia. Qed.

Lemma matching_take o : forall n, take (matching o n) o = take (matching o n) n.
Proof. induction o as [|a o IH]; intros [|b n]; cbn; try done. destruct (Z.eqb_spec a b) as [->|]; [|done]. cbn. by rewrite IH. Qed.

Lemma matching_differ o : forall n a b, o !! matching o n = Some a -> n !! matching o n = Some b -> a <> b.
Proof.
  induction o as [|c o IH]; intros [|d n] a b; cbn; try done. destruct (Z.eqb_spec c d) as [->|Hne]; cbn; [apply IH|]. by intros [= <-] [= <-].
Qed.

Lemma take_rev' (l : list Z) k : rev (take k (rev l)) = drop (length l - k) l.
Proof.
  assert (H : drop (length l - k) l = rev (take k (rev l))); [|done]. rewrite <- (rev_involutive l) at 2. rewrite <- (length_rev l).
  generalize (rev l) as r. intros r. destruct (decide (k <= length r)%nat).
  - rewrite <- (take_drop k r) at 2. rewrite rev_app_distr. rewrite drop_app_length'; [done|]. rewrite length_rev, length_drop. done.
  - rewrite take_ge by lia. by replace (length r - k)%nat with 0%nat by lia.
Qed.

(** What is between the ends that match. *)
Record split (old new oldleft newleft : list Z) (x : nat) : Prop := {
  sp_old : exists p q, length p = x /\ old = p ++ oldleft ++ q /\ new = p ++ newleft ++ q;
  sp_head : forall a b, head oldleft = Some a -> head newleft = Some b -> a <> b
}.

Lemma matching_split old new : let x := matching old new in
  x <> Nat.min (length old) (length new) ->
  let s := matching (rev (drop x old)) (rev (drop x new)) in
  let xend := (length old - s)%nat in
  let yend := (length new - s)%nat in
  (x <= xend <= length old)%nat /\ (x <= yend <= length new)%nat /\
  split old new (take (xend - x) (drop x old)) (take (yend - x) (drop x new)) x.
Proof.
  intros x Hx s xend yend. pose proof (matching_le old new) as [H1 H2]. fold x in H1, H2.
  pose proof (matching_le (rev (drop x old)) (rev (drop x new))) as [H3 H4]. fold s in H3, H4. rewrite length_rev, length_drop in H3, H4.
  assert (Hs : drop (xend - x) (drop x old) = drop (yend - x) (drop x new)).
  { pose proof (matching_take (rev (drop x old)) (rev (drop x new))) as Ht. fold s in Ht. apply (f_equal (@rev Z)) in Ht.
    rewrite !take_rev', !length_drop in Ht. unfold xend, yend. by replace (length old - s - x)%nat with (length old - x - s)%nat by lia; replace (length new - s - x)%nat with (length new - x - s)%nat by lia. }
  split; [lia|]. split; [lia|]. split.
  - exists (take x old), (drop (xend - x) (drop x old)). split; [rewrite length_take; lia|]. split.
    + rewrite take_drop. by rewrite take_drop.
    + rewrite Hs, take_drop. unfold x. rewrite matching_take, take_drop. done.
  - intros a b Ha Hb. apply (matching_differ old new); fold x.
    + apply head_Some in Ha as [l Hl]. destruct (drop x old) as [|c r] eqn:E; [by rewrite take_nil in Hl|]. destruct (xend - x)%nat; [done|]. injection Hl as ->.
      apply (f_equal (fun l => l !! 0%nat)) in E. by rewrite lookup_drop, Nat.add_0_r in E.
    + apply head_Some in Hb as [l Hl]. destruct (drop x new) as [|c r] eqn:E; [by rewrite take_nil in Hl|]. destruct (yend - x)%nat; [done|]. injection Hl as ->.
      apply (f_equal (fun l => l !! 0%nat)) in E. by rewrite lookup_drop, Nat.add_0_r in E.
Qed.

Lemma head_take k (l : list Z) u : head (take k l) = Some u -> head l = Some u.
Proof. by destruct k, l. Qed.

(** ** Finding chunks *)

Lemma TokenFind_le line token r : TokenFind line token 0 = r -> 0 <= r -> (Z.to_nat r <= length line)%nat.
Proof.
  intros Hr Hp. destruct (TokenFind_Some line token 0 r Hr Hp) as (m & -> & _ & Hne & Hpre). rewrite Nat2Z.id.
  destruct (decide (m <= length line)%nat); [done|]. rewrite drop_ge in Hpre by lia. by apply prefix_nil_inv in Hpre.
Qed.

(** Where the first bytes differ, a token is not found at the beginning. *)
Lemma TokenFind_head line token : (forall a b, head token = Some a -> head line = Some b -> a <> b) -> TokenFind line token 0 <> 0.
Proof.
  intros H Hr. destruct (TokenFind_Some line token 0 0 Hr ltac:(lia)) as (m & Hm & _ & Hne & Hpre). replace m with 0%nat in Hpre by lia.
  rewrite drop_0 in Hpre. destruct token as [|a t]; [done|]. destruct Hpre as [k ->]. by apply (H a a).
Qed.

Lemma search_chunk_spec old new minlen : forall fuel x y x' y', search_chunk fuel old new minlen x y = (x', y') ->
  (x <= x' <= x + fuel)%nat /\ (0 <= y' -> y' = y \/ (Z.to_nat y' <= length new)%nat) /\ (0 < y' \/ x' = (x + fuel)%nat).
Proof.
  induction fuel as [|fuel IH]; intros x y x' y' H; cbn [search_chunk] in H.
  - injection H as <- <-. split; [lia|]. split; [by left|]. right. lia.
  - destruct (0 <? TokenFind new (take minlen (drop x old)) 0) eqn:E.
    + injection H as <- <-. apply Z.ltb_lt in E. split; [lia|]. split; [|by left]. intros _. right. by eapply TokenFind_le; [|lia].
    + destruct (IH _ _ _ _ H) as (H1 & H2 & H3). split; [lia|]. split; [|destruct H3; [by left|right; lia]].
      intros Hy. destruct (H2 Hy) as [->|?]; right; [by eapply TokenFind_le|done].
Qed.

(** ** Scripts

    A text as what is kept, deleted and inserted. *)
Inductive piece : Type := Keep (v : list Z) | Del (v : list Z) | Ins (v : list Z).
Definition old_of (p : piece) : list Z := match p with Keep v | Del v => v | Ins _ => [] end.
Definition new_of (p : piece) : list Z := match p with Keep v | Ins v => v | Del _ => [] end.
Definition dels_of (p : piece) : list (list Z) := match p with Del v => [v] | _ => [] end.
Definition ins_of (p : piece) : list (list Z) := match p with Ins v => [v] | _ => [] end.

Definition explains (old new : list Z) (adds dels : list (list Z)) : Prop :=
  exists ps, concat (old_of <$> ps) = old /\ concat (new_of <$> ps) = new /\ concat (ins_of <$> ps) = adds /\ concat (dels_of <$> ps) = dels.

Lemma explains_app o1 n1 a1 d1 o2 n2 a2 d2 : explains o1 n1 a1 d1 -> explains o2 n2 a2 d2 -> explains (o1 ++ o2) (n1 ++ n2) (a1 ++ a2) (d1 ++ d2).
Proof.
  intros (p1 & <- & <- & <- & <-) (p2 & <- & <- & <- & <-). exists (p1 ++ p2). rewrite !fmap_app, !concat_app. done.
Qed.
Lemma explains_keep v : explains v v [] [].
Proof. exists [Keep v]. cbn. by rewrite !app_nil_r. Qed.
Lemma explains_ins v : explains [] v [v] [].
Proof. exists [Ins v]. cbn. by rewrite !app_nil_r. Qed.
Lemma explains_del v : explains v [] [] [v].
Proof. exists [Del v]. cbn. by rewrite !app_nil_r. Qed.
Lemma explains_nil : explains [] [] [] [].
Proof. by exists []. Qed.

(** What is between the ends tells the whole. *)
Lemma explains_split old new ol nl x a d : split old new ol nl x -> explains ol nl a d -> explains old new a d.
Proof.
  intros [(p & q & _ & -> & ->) _] H. pose proof (explains_app _ _ _ _ _ _ _ _ (explains_keep p) (explains_app _ _ _ _ _ _ _ _ H (explains_keep q))) as H'.
  cbn [app] in H'. by rewrite !app_nil_r in H'.
Qed.

Definition values (cs : list Chunk) : list (list Z) := C_V <$> cs.

(** ** Within a line *)

Lemma searchForward_spec atx aty x y oldleft newleft : oldleft <> [] -> newleft <> [] ->
  exists f a d, searchForward atx aty x y oldleft newleft = Ok f /\ (length (f_old f) < length oldleft)%nat /\ (length (f_new f) < length newleft)%nat /\
    f_adds f = [a] /\ f_dels f = [d] /\ oldleft = C_V d ++ f_old f /\ newleft = C_V a ++ f_new f.
Proof.
  intros Ho Hn. unfold searchForward.
  destruct (search_chunk _ oldleft _ _ _ _) as [xx xaty] eqn:E1. destruct (search_chunk _ newleft _ _ _ _) as [yy yatx] eqn:E2.
  apply search_chunk_spec in E1 as (X1 & _ & _), E2 as (Y1 & _ & _).
  assert (Hxx : (1 <= xx <= length oldleft)%nat) by (destruct oldleft; [done|cbn in *; lia]).
  assert (Hyy : (1 <= yy <= length newleft)%nat) by (destruct newleft; [done|cbn in *; lia]).
  destruct ((xaty <? 0) && (yatx <? 0)).
  - eexists _, _, _. split; [reflexivity|]. cbn [f_old f_new f_adds f_dels C_V length]. rewrite !app_nil_r. destruct oldleft, newleft; try done. cbn. split_and!; try done; lia.
  - repeat (rewrite slice_Ok by lia; cbn [mbind outcome_bind]).
    rewrite !Nat.sub_0_r, !drop_0, !(take_ge (drop _ _)) by (rewrite length_drop; lia).
    eexists _, _, _. split; [reflexivity|]. cbn [f_old f_new f_adds f_dels]. rewrite !length_drop.
    do 2 (split; [lia|]). do 2 (split; [done|]). cbn [C_V]. by rewrite !take_drop.
Qed.

Lemma cut_at (l : list Z) x k e : (x + k <= e <= length l)%nat ->
  take (e - x) (drop x l) = take (x + k - x) (drop x l) ++ take (e - (x + k)) (drop (x + k) l).
Proof.
  intros H. replace (x + k - x)%nat with k by lia. rewrite <- drop_drop. rewrite <- (take_drop k (take (e - x) (drop x l))) at 1.
  rewrite take_take, Nat.min_l by lia. f_equal.
  symmetry. rewrite take_drop_commute. by replace (k + (e - (x + k)))%nat with (e - x)%nat by lia.
Qed.

Lemma Lines_spec fuel : forall old new atx aty, (length old + length new < fuel)%nat ->
  exists adds dels, Lines fuel old new atx aty = Ok (adds, dels) /\ explains old new (values adds) (values dels).
Proof.
  induction fuel as [|fuel IH]; intros old new atx aty Hf; [lia|]. cbn [Lines].
  pose proof (matching_le old new) as [Hx1 Hx2]. pose proof (matching_take old new) as Ht. pose proof (matching_split old new) as Hsp.
  set (x := matching old new) in *. cbv zeta. case_bool_decide as Hmin.
  - clear Hsp. destruct (decide (length old < length new)%nat).
    + eexists _, _. split; [done|]. cbn [values fmap list_fmap C_V]. assert (Ho : old = take x new) by (rewrite <- Ht; by rewrite take_ge by lia).
      rewrite <- (take_drop x new) at 1. rewrite <- Ho. pose proof (explains_app _ _ _ _ _ _ _ _ (explains_keep old) (explains_ins (drop x new))) as H. by rewrite app_nil_r in H.
    + eexists _, _. split; [done|]. cbn [values fmap list_fmap C_V]. assert (Hn : new = take x old) by (rewrite Ht; by rewrite take_ge by lia).
      rewrite <- (take_drop x old) at 1. rewrite <- Hn. pose proof (explains_app _ _ _ _ _ _ _ _ (explains_keep new) (explains_del (drop x old))) as H. by rewrite app_nil_r in H.
  - destruct (Hsp Hmin) as (Hxe & Hye & Hs). clear Hsp.
    set (s := matching (rev (drop x old)) (rev (drop x new))) in *. set (xend := (length old - s)%nat) in *. set (yend := (length new - s)%nat) in *.
    do 2 (rewrite slice_Ok by lia; cbn [mbind outcome_bind]).
    set (ol := take (xend - x) (drop x old)) in *. set (nl := take (yend - x) (drop x new)) in *.
    assert (Hol : length ol = (xend - x)%nat) by (unfold ol; rewrite length_take, length_drop; lia).
    assert (Hnl : length nl = (yend - x)%nat) by (unfold nl; rewrite length_take, length_drop; lia).
    case_bool_decide as Hc2.
    { eexists _, _. split; [done|]. eapply explains_split; [exact Hs|]. replace ol with (@nil Z) by (symmetry; apply nil_length_inv; lia). apply explains_ins. }
    case_bool_decide as Hc3.
    { eexists _, _. split; [done|]. eapply explains_split; [exact Hs|]. replace nl with (@nil Z) by (symmetry; apply nil_length_inv; lia). apply explains_del. }
    assert (Hone : ol <> []) by (intros E; rewrite E in Hol; cbn in Hol; lia).
    assert (Hnne : nl <> []) by (intros E; rewrite E in Hnl; cbn in Hnl; lia).
    assert (Hbound : (length ol + length nl <= length old + length new)%nat) by lia.
    set (xaty := TokenFind nl _ 0). set (yatx := TokenFind ol _ 0). destruct ((xaty <? 0) && (yatx <? 0)) eqn:Eneg.
    + destruct (searchForward_spec atx aty x x ol nl Hone Hnne) as (f & a & d & -> & F1 & F2 & F3 & F4 & F5 & F6). cbn [mbind outcome_bind]. rewrite F3, F4.
      assert (Hfirst : explains (C_V d) (C_V a) [C_V a] [C_V d]) by (pose proof (explains_app _ _ _ _ _ _ _ _ (explains_del (C_V d)) (explains_ins (C_V a))) as H; by rewrite app_nil_r in H).
      assert (Hall : forall a' d', explains (f_old f) (f_new f) a' d' -> explains old new (C_V a :: a') (C_V d :: d')).
      { intros a' d' H. eapply explains_split; [exact Hs|]. rewrite F5, F6. exact (explains_app _ _ _ _ _ _ _ _ Hfirst H). }
      destruct (isnil (f_old f)) eqn:E1; [|destruct (isnil (f_new f)) eqn:E2].
      * eexists _, _. split; [done|]. apply Hall. destruct (f_old f); [|done]. destruct (f_new f) as [|c w]; [apply explains_nil|apply explains_ins].
      * eexists _, _. split; [done|]. apply (Hall [] [_]). destruct (f_new f); [|done]. apply explains_del.
      * destruct (IH (f_old f) (f_new f) (atx + Z.of_nat (f_x f)) (aty + Z.of_nat (f_y f)) ltac:(lia)) as (adds & dels & -> & H). eexists _, _. split; [done|]. by apply Hall.
    + destruct (0 <=? xaty) eqn:Ex.
      * apply Z.leb_le in Ex. pose proof (TokenFind_le _ _ xaty eq_refl Ex) as Hle.
        assert (Hne : xaty <> 0). { apply TokenFind_head. intros u v Hu. apply (sp_head _ _ _ _ _ Hs). by eapply head_take. }
        do 2 (rewrite slice_Ok by lia; cbn [mbind outcome_bind]).
        pose proof (cut_at new x (Z.to_nat xaty) yend ltac:(lia)) as Hcut. fold nl in Hcut. set (v := take (x + _ - x) _) in *. set (nl' := take (yend - (x + Z.to_nat xaty)) _) in *.
        assert (Hl' : (length nl' < length nl)%nat) by (unfold nl'; rewrite length_take, length_drop; lia).
        destruct (IH ol nl' (atx + Z.of_nat x) (aty + Z.of_nat x) ltac:(lia)) as (adds & dels & -> & H). eexists _, _. split; [done|].
        eapply explains_split; [exact Hs|]. rewrite Hcut. exact (explains_app _ _ _ _ _ _ _ _ (explains_ins v) H).
      * apply andb_false_iff in Eneg. assert (Ey : 0 <= yatx) by (apply Z.leb_gt in Ex; destruct Eneg as [E|E]; apply Z.ltb_ge in E; lia).
        pose proof (TokenFind_le _ _ yatx eq_refl Ey) as Hle.
        assert (Hne : yatx <> 0). { apply TokenFind_head. intros u v Hu Hv Heq. apply (sp_head _ _ _ _ _ Hs v u); [exact Hv|by eapply head_take|by symmetry]. }
        do 2 (rewrite slice_Ok by lia; cbn [mbind outcome_bind]).
        pose proof (cut_at old x (Z.to_nat yatx) xend ltac:(lia)) as Hcut. fold ol in Hcut. set (v := take (x + _ - x) _) in *. set (ol' := take (xend - (x + Z.to_nat yatx)) _) in *.
        assert (Hl' : (length ol' < length ol)%nat) by (unfold ol'; rewrite length_take, length_drop; lia).
        destruct (IH ol' nl (atx + Z.of_nat x) (aty + Z.of_nat x) ltac:(lia)) as (adds & dels & -> & H). eexists _, _. split; [done|].
        eapply explains_split; [exact Hs|]. rewrite Hcut. exact (explains_app _ _ _ _ _ _ _ _ (explains_del v) H).
Qed.

(** ** The ratio *)

Lemma matching_refl l : matching l l = length l.
Proof. induction l as [|c l IH]; cbn; [done|]. by rewrite Z.eqb_refl, IH. Qed.

Lemma matching_rest old new : let x := matching old new in x <> Nat.min (length old) (length new) ->
  let s := matching (rev (drop x old)) (rev (drop x new)) in
  (x + s <= length old)%nat /\ (x + s <= length new)%nat /\ (x + s < Nat.max (length old) (length new))%nat.
Proof.
  intros x Hx s. destruct (matching_split old new Hx) as (H1 & H2 & Hs). fold x s in H1, H2, Hs.
  pose proof (matching_le old new) as [Hx1 Hx2]. fold x in Hx1, Hx2.
  pose proof (matching_le (rev (drop x old)) (rev (drop x new))) as [H3 H4]. fold s in H3, H4. rewrite length_rev, length_drop in H3, H4.
  split; [lia|]. split; [lia|]. destruct (decide (x + s < Nat.max (length old) (length new))%nat) as [|Hge]; [done|]. exfalso.
  assert (He : (length old - s - x = 0)%nat /\ (length new - s - x = 0)%nat) by lia. destruct He as [He He'].
  destruct Hs as [(p & q & Hp & Ho & Hn) _]. rewrite He in Ho. rewrite He' in Hn. cbn [take app] in Ho, Hn.
  assert (Heq : old = new) by (rewrite Ho; symmetry; exact Hn). assert (Hm : x = length old); [|lia]. unfold x. rewrite <- Heq.
  apply matching_refl.
Qed.

Lemma ratio_round_spec old new mt : exists k next, ratio_round old new mt = Ok (k, next) /\
  match next with
  | None => (k <= Nat.min (length old) (length new))%nat /\ (k = Nat.max (length old) (length new) -> old = new)
  | Some (o, n) => (k + length o <= length old)%nat /\ (k + length n <= length new)%nat /\
      (length o + length n < length old + length new)%nat /\ (k + length o < length old \/ k + length n < length new)%nat
  end.
Proof.
  unfold ratio_round. pose proof (matching_le old new) as [Hx1 Hx2]. pose proof (matching_take old new) as Ht. pose proof (matching_rest old new) as Hr.
  set (x := matching old new) in *. cbv zeta. case_bool_decide as Hmin.
  - eexists _, _. split; [done|]. cbn. split; [lia|]. intros Hmax. rewrite !take_ge in Ht by lia. done.
  - destruct (Hr Hmin) as (R1 & R2 & R3). clear Hr. set (s := matching (rev (drop x old)) (rev (drop x new))) in *.
    destruct (_ || _); [eexists _, _; split; [done|]; cbn; lia|].
    replace (Z.to_nat (Z.of_nat (length old) - 1 - Z.of_nat s + 1)) with (length old - s)%nat by lia.
    replace (Z.to_nat (Z.of_nat (length new) - 1 - Z.of_nat s + 1)) with (length new - s)%nat by lia.
    do 2 (rewrite slice_Ok by lia; cbn [mbind outcome_bind]).
    set (ol := take _ (drop x old)). set (nl := take _ (drop x new)).
    assert (Hol : length ol = (length old - s - x)%nat) by (unfold ol; rewrite length_take, length_drop; lia).
    assert (Hnl : length nl = (length new - s - x)%nat) by (unfold nl; rewrite length_take, length_drop; lia).
    destruct (length ol - Nat.min mt (length ol))%nat as [|fuel] eqn:Efuel; [eexists _, _; split; [done|]; cbn; lia|].
    destruct (search_chunk _ _ _ _ _ _) as [x' y] eqn:E. apply search_chunk_spec in E as (E1 & E2 & E3).
    destruct (y <? 0) eqn:Ey; [eexists _, _; split; [done|]; cbn; lia|]. apply Z.ltb_ge in Ey. destruct (E2 Ey) as [->|E2']; [lia|].
    do 2 (rewrite slice_Ok by lia; cbn [mbind outcome_bind]). eexists _, _. split; [done|]. cbn. rewrite !length_take, !length_drop. lia.
Qed.

Lemma ratio_loop_spec mt fuel : forall old new m, (length old + length new < fuel)%nat ->
  exists k, ratio_loop fuel old new mt m = Ok (m + k)%nat /\ (k <= Nat.min (length old) (length new))%nat /\
    (k = Nat.max (length old) (length new) -> old = new).
Proof.
  induction fuel as [|fuel IH]; intros old new m Hf; [lia|]. cbn [ratio_loop].
  destruct (ratio_round_spec old new mt) as (k & next & -> & Hn). cbn [mbind outcome_bind]. destruct next as [[o n]|]; [|exists k; split; [done|exact Hn]].
  destruct Hn as (H1 & H2 & H3 & H4). destruct (IH o n (m + k)%nat ltac:(lia)) as (k' & -> & H5 & _). exists (k + k')%nat.
  split; [f_equal; lia|]. split; [lia|]. intros H. exfalso. lia.
Qed.

Lemma BytesRatio_spec old new mt : exists m, BytesRatio old new mt = Ok (m, Nat.max (length old) (length new)) /\
  (m <= Nat.min (length old) (length new))%nat /\ (m = Nat.max (length old) (length new) <-> old = new).
Proof.
  unfold BytesRatio. set (k := Z.to_nat _). destruct (ratio_loop_spec k (S (length old + length new)) old new 0 ltac:(lia)) as (m & Hm & H1 & H2).
  exists m. rewrite Hm. split; [done|]. split; [done|]. split; [done|]. intros <-. cbn [ratio_loop] in Hm. unfold ratio_round in Hm.
  rewrite matching_refl, bool_decide_true in Hm by lia. cbn in Hm. injection Hm as <-. lia.
Qed.

(** ** Between files *)

Inductive step : Type := Same (o n : Line) | Deleted (o : Line) | Added (n : Line) | Changed (o n : Line).
Definition step_ok (s : step) : Prop := match s with Same o n => V o = V n | _ => True end.
Definition old_line (s : step) : list Line := match s with Same o _ | Deleted o | Changed o _ => [o] | Added _ => [] end.
Definition new_line (s : step) : list Line := match s with Same _ n | Added n | Changed _ n => [n] | Deleted _ => [] end.
Definition added_line (s : step) : list Line := match s with Added n => [n] | _ => [] end.
Definition deleted_line (s : step) : list Line := match s with Deleted o => [o] | _ => [] end.
Definition changed_line (s : step) : list (Line * Line) := match s with Changed o n => [(o, n)] | _ => [] end.
Definition all {A} (f : step -> list A) (ss : list step) : list A := concat (f <$> ss).

(** The steps that lead from the one list of lines to the other, and what they add to the
    differences. *)
Definition steps (ss : list step) (olds news : list Line) (d d' : Data) : Prop :=
  Forall step_ok ss /\ all old_line ss = olds /\ all new_line ss = news /\ Adds d' = Adds d ++ all added_line ss /\
  Dels d' = Dels d ++ all deleted_line ss /\ ((fun c => (Old c, New c)) <$> Changes d') = ((fun c => (Old c, New c)) <$> Changes d) ++ all changed_line ss.

Lemma all_app {A} (f : step -> list A) s1 s2 : all f (s1 ++ s2) = all f s1 ++ all f s2.
Proof. unfold all. by rewrite fmap_app, concat_app. Qed.

Lemma steps_nil d : steps [] [] [] d d.
Proof. unfold steps, all. cbn. by rewrite !app_nil_r. Qed.

Lemma diff_steps_app s1 s2 o1 n1 o2 n2 d1 d2 d3 : steps s1 o1 n1 d1 d2 -> steps s2 o2 n2 d2 d3 -> steps (s1 ++ s2) (o1 ++ o2) (n1 ++ n2) d1 d3.
Proof.
  intros (A1 & A2 & A3 & A4 & A5 & A6) (B1 & B2 & B3 & B4 & B5 & B6). unfold steps. rewrite !all_app, B4, A4, B5, A5, B6, A6, A2, A3, B2, B3.
  rewrite <- !(assoc_L (++)). split_and!; try done. by apply Forall_app.
Qed.

Lemma steps_same o n d : V o = V n -> steps [Same o n] [o] [n] d d.
Proof. intros H. unfold steps, all. cbn. rewrite !app_nil_r. split_and!; try done. by constructor. Qed.
Lemma steps_del d o : steps [Deleted o] [o] [] d (PushDel d o).
Proof. unfold steps, all. cbn. rewrite !app_nil_r. split_and!; try done. by repeat constructor. Qed.
Lemma steps_add d n : steps [Added n] [] [n] d (PushAdd d n).
Proof. unfold steps, all. cbn. rewrite !app_nil_r. split_and!; try done. by repeat constructor. Qed.
Lemma steps_change d o n : steps [Changed o n] [o] [n] d (PushChange d o n).
Proof. unfold steps, all. cbn. rewrite !app_nil_r, fmap_app. split_and!; try done. by repeat constructor. Qed.

Lemma steps_dels ls : forall d, exists ss, steps ss ls [] d (del_lines d ls).
Proof. induction ls as [|l ls IH]; intros d; [exists []; apply steps_nil|]. destruct (IH (PushDel d l)) as [ss H]. eexists. exact (diff_steps_app _ _ _ _ _ _ _ _ _ (steps_del d l) H). Qed.
Lemma steps_adds ls : forall d, exists ss, steps ss [] ls d (add_lines d ls).
Proof. induction ls as [|l ls IH]; intros d; [exists []; apply steps_nil|]. destruct (IH (PushAdd d l)) as [ss H]. eexists. exact (diff_steps_app _ _ _ _ _ _ _ _ _ (steps_add d l) H). Qed.
Lemma steps_changes os : forall ns d, length os = length ns -> exists ss, steps ss os ns d (change_lines d os ns).
Proof.
  induction os as [|o os IH]; intros [|n ns] d Hl; try done; [exists []; apply steps_nil|]. injection Hl as Hl.
  destruct (IH ns (PushChange d o n) Hl) as [ss H]. eexists. exact (diff_steps_app _ _ _ _ _ _ _ _ _ (steps_change d o n) H).
Qed.

Lemma Bytes_equal_eq o : forall n, Bytes_equal o n = true <-> o = n.
Proof.
  induction o as [|a o IH]; intros [|b n]; cbn; try done. rewrite andb_true_iff, IH, Z.eqb_eq. split; [by intros [-> ->]|by intros [= -> ->]].
Qed.

Lemma findLine_le v text : forall n k, findLine v text n = Some k -> (n <= k < n + length text)%nat.
Proof.
  induction text as [|l text IH]; intros n k H; [done|]. cbn [findLine] in H. destruct (Bytes_equal v (V l)).
  - injection H as <-. cbn. lia.
  - apply IH in H. cbn. lia.
Qed.

Section Files.
Context (above : nat -> nat -> bool).

(** A round takes a part of the lines off. *)
Lemma compare_round_spec d o os n ns : exists d' os' ns' ss oh nh,
  compare_round above d o os n ns = Ok (d', os', ns') /\ o :: os = oh ++ os' /\ n :: ns = nh ++ ns' /\
  (0 < length oh + length nh)%nat /\ steps ss oh nh d d'.
Proof.
  unfold compare_round. destruct (Bytes_equal (V o) (V n)) eqn:E.
  { apply Bytes_equal_eq in E. exists d, os, ns, [Same o n], [o], [n]. split_and!; try done; [cbn; lia|by apply steps_same]. }
  assert (Hchange : exists d' os' ns' ss oh nh, Ok (PushChange d o n, os, ns) = (Ok (d', os', ns') : outcome unit _) /\ o :: os = oh ++ os' /\ n :: ns = nh ++ ns' /\
    (0 < length oh + length nh)%nat /\ steps ss oh nh d d').
  { eexists _, _, _, [Changed o n], [o], [n]. split_and!; [done|done|done|cbn; lia|apply steps_change]. }
  assert (Hdel : forall k, (0 < k)%nat -> exists d' os' ns' ss oh nh, Ok (del_lines d (take k (o :: os)), drop k (o :: os), n :: ns) = (Ok (d', os', ns') : outcome unit _) /\
    o :: os = oh ++ os' /\ n :: ns = nh ++ ns' /\ (0 < length oh + length nh)%nat /\ steps ss oh nh d d').
  { intros k Hk. destruct (steps_dels (take k (o :: os)) d) as [ss H]. eexists _, _, _, ss, (take k (o :: os)), []. split_and!; [done|by rewrite take_drop|done| |exact H]. destruct k; [lia|]. cbn. lia. }
  assert (Hadd : forall k, (0 < k)%nat -> exists d' os' ns' ss oh nh, Ok (add_lines d (take k (n :: ns)), o :: os, drop k (n :: ns)) = (Ok (d', os', ns') : outcome unit _) /\
    o :: os = oh ++ os' /\ n :: ns = nh ++ ns' /\ (0 < length oh + length nh)%nat /\ steps ss oh nh d d').
  { intros k Hk. destruct (steps_adds (take k (n :: ns)) d) as [ss H]. eexists _, _, _, ss, [], (take k (n :: ns)). split_and!; [done|done|by rewrite take_drop| |exact H]. destruct k; [lia|]. cbn. lia. }
  destruct (isnil _ && isnil _); [exact Hchange|]. destruct (isnil _); [exact (Hdel 1%nat ltac:(lia))|]. destruct (isnil _); [exact (Hadd 1%nat ltac:(lia))|].
  destruct (BytesRatio_spec (V o) (V n) DefMatchLen) as (m & -> & _). cbn [mbind outcome_bind]. destruct (above _ _); [exact Hchange|].
  destruct (findLine (V o) ns 1) as [a|] eqn:Ea, (findLine (V n) os 1) as [b|] eqn:Eb; [|apply findLine_le in Ea; apply Hadd; lia|apply findLine_le in Eb; apply Hdel; lia|exact Hchange].
  apply findLine_le in Ea, Eb. destruct (a <? b)%nat eqn:E1; [apply Hadd; lia|]. destruct (a =? b)%nat eqn:E2; [|apply Hdel; lia]. apply Nat.eqb_eq in E2 as ->.
  destruct (steps_changes (take b (o :: os)) (take b (n :: ns)) d) as [ss H]; [rewrite !length_take; cbn; lia|].
  eexists _, _, _, ss, (take b (o :: os)), (take b (n :: ns)). split_and!; [done|by rewrite take_drop|by rewrite take_drop| |exact H]. destruct b; [lia|]. cbn. lia.
Qed.

Lemma compare_loop_spec fuel : forall d olds news, (length olds + length news <= fuel)%nat ->
  exists d' ss, compare_loop above fuel d olds news = Ok d' /\ steps ss olds news d d'.
Proof.
  induction fuel as [|fuel IH]; intros d olds news Hf.
  - destruct olds, news; cbn in Hf; try lia. exists d, []. split; [done|apply steps_nil].
  - destruct olds as [|o os]; [destruct (steps_adds news d) as [ss H]; by eexists _, ss|].
    destruct news as [|n ns]; [destruct (steps_dels (o :: os) d) as [ss H]; by eexists _, ss|].
    cbn [compare_loop]. destruct (compare_round_spec d o os n ns) as (d1 & os' & ns' & ss & oh & nh & -> & Ho & Hn & Hpos & Hs). cbn [mbind outcome_bind].
    rewrite Ho, Hn, !length_app in Hf. destruct (IH d1 os' ns' ltac:(lia)) as (d' & ss' & -> & Hs'). exists d', (ss ++ ss'). split; [done|].
    rewrite Ho, Hn. by eapply diff_steps_app.
Qed.

Lemma change_words_spec cs : exists cs', change_words cs = Ok cs' /\ ((fun c => (Old c, New c)) <$> cs') = ((fun c => (Old c, New c)) <$> cs) /\
  Forall (fun c => explains (V (Old c)) (V (New c)) (values (C_Adds c)) (values (C_Dels c))) cs'.
Proof.
  induction cs as [|c cs (cs' & IH1 & IH2 & IH3)]; [by exists []|]. cbn [change_words]. unfold Lines_of.
  destruct (Lines_spec (S (length (V (Old c)) + length (V (New c)))) (V (Old c)) (V (New c)) 0 0 ltac:(lia)) as (adds & dels & -> & H).
  cbn [mbind outcome_bind]. rewrite IH1. eexists. split; [reflexivity|]. rewrite !fmap_cons, IH2. split; [done|]. by constructor.
Qed.
End Files.

(** C29: the differences of two texts say how the terminated lines of the one become
    those of the other; what follows the last line feed of a text is not read (see
    [last_line_lost]). Finding them ends without a panic for every two files and at both
    levels; there is a list of steps, each a line that stays as it is, a deletion, an
    addition or a change, that reads the old lines and the new lines in their orders,
    and the additions, deletions and changes that are returned are those of the steps.
    By words, the texts of the chunks of every change, in their order, tell in the same
    way how the old line becomes the new one; nothing is said of the positions of
    chunks, which can be wrong (see [chunk_places]). *)
Theorem Files_steps (above : nat -> nat -> bool) (oldf newf : list Z) (level : difflevel) :
  exists d ss, Files above oldf newf level = Ok d /\ steps ss (ReadLines oldf) (ReadLines newf) no_diffs d /\
    (level = LevelWords -> Forall (fun c => explains (V (Old c)) (V (New c)) (values (C_Adds c)) (values (C_Dels c))) (Changes d)).
Proof.
  unfold Files. destruct (compare_loop_spec above (length (ReadLines oldf) + length (ReadLines newf)) no_diffs (ReadLines oldf) (ReadLines newf) ltac:(lia)) as (d & ss & -> & H).
  cbn [mbind outcome_bind]. destruct level; [by exists d, ss|]. destruct (change_words_spec (Changes d)) as (cs & -> & He & Hc). cbn [mbind outcome_bind].
  eexists _, ss. split; [done|]. split; [|done]. destruct H as (S1 & S2 & S3 & S4 & S5 & S6). unfold steps. cbn [Adds Dels Changes]. split_and!; try done. by rewrite He.
Qed.

(** The two numbers of the ratio of two texts: comparing ends without a panic, and the
    bytes that match are no more than either text has; so the ratio is at most 1, and it is
    1 exactly for equal texts. *)
Theorem BytesRatio_bounds (old new : list Z) (mt : Z) : exists m maxlen, BytesRatio old new mt = Ok (m, maxlen) /\
  (m <= length old)%nat /\ (m <= length new)%nat /\ (m <= maxlen)%nat /\ (m = maxlen <-> old = new).
Proof. destruct (BytesRatio_spec old new mt) as (m & H & H1 & H2). eexists _, _. split; [exact H|]. split_and!; [lia..|exact H2]. Qed.

(** ** What differences leave out *)

(** A last line without a line feed is not read, so texts that differ there only have no
    differences. *)
Example last_line_lost : exists d, Files above70 (str "a" ++ [10] ++ str "b") (str "a" ++ [10] ++ str "c") LevelWords = Ok d /\ d = no_diffs.
Proof. eexists. split; [vm_compute; reflexivity|done]. Qed.

(** Where a chunk begins is counted from the wrong text, or from before an addition. *)
Example chunk_places : Lines 20 (str "ab") (str "abc") 0 7 = Ok ([mkChunk 2 (str "c")], []) /\
  Lines 20 (str "abcdefx1zz") (str "12345abcdefy1zz") 0 0 = Ok ([mkChunk 0 (str "12345"); mkChunk 6 (str "y")], [mkChunk 6 (str "x")]).
Proof. vm_compute. split; reflexivity. Qed.

(** Equal texts have an empty deletion. *)
Example equal_deletes : Lines_of (str "ab") (str "ab") = Ok ([], [mkChunk 2 []]).
Proof. vm_compute. reflexivity. Qed.
