(* ===== verification/GoPath.v ===== *)
(** The standard package [path], as the sources use it: [Clean], [Join] and [Ext],
    on the segments between slashes. *)

From Stdlib Require Import ZArith Lia.
From S2P Require Import Prelude Utf8.

Local Open Scope Z_scope.

Definition slash : Z := 47.
Definition dot : list Z := [46].
Definition dotdot : list Z := [46; 46].

(** The segments that are kept, the last one first. *)
Fixpoint clean_segs (rooted : bool) (kept : list (list Z)) (segs : list (list Z)) : list (list Z) :=
  match segs with
  | [] => kept
  | s :: segs =>
      if bool_decide (s = [] \/ s = dot) then clean_segs rooted kept segs
      else if bool_decide (s = dotdot) then
        match kept with
        | k :: kept' => if bool_decide (k = dotdot) then clean_segs rooted (s :: kept) segs else clean_segs rooted kept' segs
        | [] => clean_segs rooted (if rooted then [] else [s]) segs
        end
      else clean_segs rooted (s :: kept) segs
  end.
(** Each segment behind a slash. *)
Definition slashed (segs : list (list Z)) : list Z := concat ((fun s => slash :: s) <$> segs).
Definition Clean (p : list Z) : list Z :=
  match p with
  | [] => dot
  | c :: _ =>
      let rooted := c =? slash in
      match rev (clean_segs rooted [] (Split slash p)) with
      | [] => if rooted then [slash] else dot
      | s :: segs => if rooted then slashed (s :: segs) else s ++ slashed segs
      end
  end.
Definition Join (a b : list Z) : list Z :=
  match a, b with
  | [], [] => []
  | [], _ => Clean b
  | _, [] => Clean a
  | _, _ => Clean (a ++ slash :: b)
  end.
(** [Ext]: from the last dot of the last segment. *)
Fixpoint ext_of (back : list Z) (acc : list Z) : list Z :=
  match back with
  | [] => []
  | c :: back => if c =? slash then [] else if c =? 46 then c :: acc else ext_of back (c :: acc)
  end.
Definition Ext (p : list Z) : list Z := ext_of (rev p) [].

Example clean_texts : Clean (str "/a//b/./../c/") = str "/a/c" /\ Clean (str "../a/..") = str ".." /\ Clean (str "/..") = str "/"
  /\ Join (str "/") (str "a") = str "/a" /\ Join (str "a/b") (str "../c") = str "a/c" /\ Ext (str "x.tar.gz") = str ".gz".
Proof. vm_compute. repeat split. Qed.

(** ** Absolute paths *)

Definition simple (s : list Z) : Prop := s ≠ [] /\ (slash ∉ s) /\ s ≠ dot /\ s ≠ dotdot.
#[export] Instance simple_dec s : Decision (simple s).
Proof. unfold simple. apply _. Defined.

Definition abs (segs : list (list Z)) : list Z := match segs with [] => [slash] | _ => slashed segs end.

Lemma Split_app_slash a b : slash ∉ b -> Split slash (a ++ slash :: b) = Split slash a ++ [b].
Proof.
  intros Hb. assert (Hsplit : split_on slash b = (b, [])) by (apply Split_none in Hb; unfold Split in Hb; by destruct (split_on slash b) as [p ps]; injection Hb as -> ->).
  unfold Split. induction a as [|c a IH]; cbn [app split_on].
  - rewrite Hsplit. by rewrite Z.eqb_refl.
  - destruct (split_on slash (a ++ slash :: b)) as [p ps], (split_on slash a) as [q qs]. injection IH as -> ->. by destruct (c =? slash).
Qed.

Lemma Split_slashed segs : Forall (fun s => slash ∉ s) segs -> Split slash (slashed segs) = [] :: segs.
Proof.
  induction segs as [|s segs IH] using rev_ind; intros H; [done|]. apply Forall_app in H as [H1 H2]. apply Forall_inv in H2.
  unfold slashed. rewrite fmap_app, concat_app. cbn [fmap list_fmap concat]. rewrite app_nil_r.
  fold (slashed segs). rewrite Split_app_slash, IH by done. done.
Qed.

Lemma clean_simple rooted segs : forall kept, Forall simple segs -> clean_segs rooted kept segs = rev segs ++ kept.
Proof.
  induction segs as [|s segs IH]; intros kept H; [done|]. apply Forall_cons in H as [(H1 & _ & H2 & H3) H]. cbn [clean_segs].
  rewrite bool_decide_false by (by intros [?|?]). rewrite bool_decide_false by done. rewrite IH by done. cbn [rev]. by rewrite <- (assoc_L (++)).
Qed.

Lemma clean_nil rooted kept segs : clean_segs rooted kept ([] :: segs) = clean_segs rooted kept segs.
Proof. cbn [clean_segs]. by rewrite bool_decide_true by (by left). Qed.

Lemma Join_abs segs name : Forall simple segs -> simple name -> Join (abs segs) name = abs (segs ++ [name]).
Proof.
  intros Hs Hn. destruct Hn as (Hn1 & Hn2 & Hn3). unfold Join.
  assert (Ha : exists l, abs segs = slash :: l) by (destruct segs; by eexists). destruct Ha as [l Hl].
  destruct name as [|c name'] eqn:En; [done|]. rewrite <- En in *. clear c name' En. rewrite Hl. rewrite <- Hl at 1. unfold Clean.
  assert (Hsplit : Split slash (abs segs ++ slash :: name) = [] :: match segs with [] => [[]] | _ => segs end ++ [name]).
  { rewrite Split_app_slash by done. destruct segs as [|s segs]; [done|]. change (abs (s :: segs)) with (slashed (s :: segs)). rewrite Split_slashed; [done|].
    eapply Forall_impl; [exact Hs|]. by intros x (_ & ? & _). }
  rewrite Hl in *. cbn [app]. rewrite <- app_comm_cons in Hsplit. rewrite Hsplit, Z.eqb_refl, clean_nil.
  assert (Hall : Forall simple (segs ++ [name])) by (apply Forall_app; split; [done|]; by constructor).
  replace (clean_segs true [] (match segs with [] => [[]] | _ => segs end ++ [name])) with (rev (segs ++ [name])).
  2: { destruct segs as [|s segs]; [cbn [app]; rewrite clean_nil|]; by rewrite clean_simple, app_nil_r by done. }
  rewrite rev_involutive. destruct segs; done.
Qed.

Lemma abs_inj p q : Forall simple p -> Forall simple q -> abs p = abs q -> p = q.
Proof.
  intros Hp Hq H. assert (Hs : forall l, Forall simple l -> Split slash (abs l) = [] :: match l with [] => [[]] | _ => l end).
  { intros l Hl. destruct l as [|s l]; [done|]. apply (Split_slashed (s :: l)). eapply Forall_impl; [exact Hl|]. by intros x (_ & ? & _). }
  apply (f_equal (Split slash)) in H. rewrite !Hs in H by done. injection H as H.
  destruct p as [|a p], q as [|b q]; try done.
  - injection H as <- <-. by apply Forall_inv in Hq as [? _].
  - injection H as -> ->. by apply Forall_inv in Hp as [? _].
Qed.
