(* ===== verification/Strconv.v ===== *)
(** Standard library [strconv] and [fmt] on decimal numbers: the text of an
    integer and the value of a digit string. *)

From Stdlib Require Import ZArith Lia.
From stdpp Require Import pretty.
From S2P Require Import Prelude Ascii.

Local Open Scope Z_scope.

(** [strconv.FormatInt(z, 10)], the [%d] verb. *)
Definition dec (z : Z) : list Z := str (pretty z).

(** The value of a string of digits. *)
Definition digits_value (l : list Z) : Z := fold_left (fun n c => n * 10 + (c - 48)) l 0.

(** [ParseUint(s, 10, bits)] and [ParseInt(s, 10, 64)], which is [Atoi]. *)
Fixpoint digits_from (n : Z) (s : list Z) : option Z :=
  match s with
  | [] => Some n
  | c :: s => if IsDigit c then digits_from (n * 10 + (c - 48)) s else None
  end.
Definition unsigned (s : list Z) : option Z := match s with [] => None | _ => digits_from 0 s end.
Definition ParseUint32 (s : list Z) : option Z :=
  match unsigned s with Some n => if n <? 2 ^ 32 then Some n else None | None => None end.
Definition ParseInt64 (s : list Z) : option Z :=
  let '(sign, s) := match s with 45 :: s => (-1, s) | 43 :: s => (1, s) | _ => (1, s) end in
  match unsigned s with
  | Some n => if (- 2 ^ 63 <=? sign * n) && (sign * n <? 2 ^ 63) then Some (sign * n) else None
  | None => None
  end.
(** With 64 bits: the value that comes with an error is 0, or the greatest number
    when it is out of range. *)
Definition ParseUint64 (s : list Z) : Z * bool :=
  match unsigned s with
  | Some n => if n <? 2 ^ 64 then (n, true) else (2 ^ 64 - 1, false)
  | None => (0, false)
  end.

Lemma str_app s t : str (s +:+ t) = str s ++ str t.
Proof.
  unfold str. rewrite <- fmap_app. f_equal. induction s as [|a s IH]; simpl; [done|]. by f_equal.
Qed.

Lemma digit_char k : (k < 10)%N -> str (String (pretty_N_char k) "") = [48 + Z.of_N k].
Proof.
  intros Hk. assert (Hin : k ∈ [0;1;2;3;4;5;6;7;8;9]%N).
  { rewrite !elem_of_cons. lia. }
  revert Hin. apply (Forall_forall (fun k => str (String (pretty_N_char k) "") = [48 + Z.of_N k])).
  repeat constructor.
Qed.

(** The digits of a positive number, most significant first. *)
Lemma pretty_N_go_digits n : forall s,
  exists ds, str (pretty_N_go n s) = ds ++ str s /\ Forall (fun c => IsDigit c = true) ds /\
    digits_value ds = Z.of_N n /\ (ds = [] <-> n = 0%N).
Proof.
  induction n as [n IH] using (well_founded_ind N.lt_wf_0). intros s.
  destruct (decide (n = 0%N)) as [->|Hn].
  { exists []. rewrite pretty_N_go_0. by split_and!. }
  rewrite pretty_N_go_step by lia.
  destruct (IH (n `div` 10)%N ltac:(apply N.div_lt; lia) (String (pretty_N_char (n `mod` 10)) s))
    as (ds & Hs & Hd & Hv & Hnil).
  exists (ds ++ [48 + Z.of_N (n `mod` 10)]).
  assert (Hm : (n `mod` 10 < 10)%N) by (apply N.mod_lt; lia).
  split_and!.
  - rewrite Hs. change (String (pretty_N_char (n `mod` 10)) s)
      with ((String (pretty_N_char (n `mod` 10)) "") +:+ s).
    rewrite str_app, digit_char by done. by rewrite <- (assoc_L (++)).
  - apply Forall_app. split; [done|]. constructor; [|constructor]. unfold IsDigit. apply andb_true_iff.
    generalize dependent (n `mod` 10)%N. intros k _ Hk. split; apply Z.leb_le; lia.
  - unfold digits_value in *. rewrite fold_left_app, Hv. cbn [fold_left].
    pose proof (N.div_mod n 10 ltac:(done)) as Hdm. clear Hs.
    generalize dependent (n `mod` 10)%N. generalize dependent (n `div` 10)%N. intros. lia.
  - split; [by destruct ds|done].
Qed.

Lemma dec_digits z : 0 <= z -> Forall (fun c => IsDigit c = true) (dec z).
Proof.
  intros Hz. unfold dec, pretty, pretty_Z. destruct z as [|p|p]; try lia.
  { repeat constructor. }
  change (pretty p) with (pretty_N_go (N.pos p) "").
  destruct (pretty_N_go_digits (N.pos p) "") as (ds & -> & Hd & _). simpl. by rewrite app_nil_r.
Qed.

(** The text of a number reads back as the number. *)
Lemma digits_value_dec z : 0 <= z -> digits_value (dec z) = z.
Proof.
  intros Hz. unfold dec, pretty, pretty_Z. destruct z as [|p|p]; try lia.
  { reflexivity. }
  change (pretty p) with (pretty_N_go (N.pos p) "").
  destruct (pretty_N_go_digits (N.pos p) "") as (ds & -> & _ & Hv & _).
  change (str "") with (@nil Z). by rewrite app_nil_r, Hv.
Qed.

Lemma dec_neg z : z < 0 -> dec z = 45 :: dec (- z).
Proof.
  intros Hz. unfold dec, pretty at 1, pretty_Z at 1. destruct z as [|p|p]; try lia.
  rewrite str_app. done.
Qed.

Lemma digits_from_fold s : Forall (fun c => IsDigit c = true) s -> forall n,
  digits_from n s = Some (fold_left (fun n c => n * 10 + (c - 48)) s n).
Proof. induction 1 as [|c s Hc _ IH]; intros n; cbn; [done|]. by rewrite Hc, IH. Qed.

Lemma dec_ne n : 0 <= n -> dec n ≠ [].
Proof.
  intros Hn Hd. pose proof (digits_value_dec n Hn) as Hv. rewrite Hd in Hv. cbn in Hv. subst n. by vm_compute in Hd.
Qed.

Lemma unsigned_dec n : 0 <= n -> unsigned (dec n) = Some n.
Proof.
  intros Hn. unfold unsigned. pose proof (dec_ne n Hn). destruct (dec n) as [|c s] eqn:E; [done|]. rewrite <- E.
  rewrite digits_from_fold by (by apply dec_digits). f_equal. by apply digits_value_dec.
Qed.

Lemma digit_not c d : IsDigit c = true -> d < 48 -> c ≠ d.
Proof. unfold IsDigit. intros H%andb_true_iff Hd. rewrite !Z.leb_le in H. lia. Qed.

Lemma ParseInt64_dec n : - 2 ^ 63 <= n < 2 ^ 63 -> ParseInt64 (dec n) = Some n.
Proof.
  intros Hn. unfold ParseInt64. destruct (Z.lt_ge_cases n 0) as [Hneg|Hpos].
  - rewrite dec_neg by done. rewrite unsigned_dec by lia. replace (-1 * - n) with n by lia.
    rewrite (proj2 (Z.leb_le _ _)), (proj2 (Z.ltb_lt _ _)) by lia. done.
  - pose proof (dec_digits n Hpos) as Hd. pose proof (unsigned_dec n Hpos) as Hu. pose proof (dec_ne n Hpos).
    destruct (dec n) as [|c s]; [done|]. apply Forall_cons in Hd as [Hc _].
    assert (Hm : match c :: s with 45 :: s => (-1, s) | 43 :: s => (1, s) | _ => (1, c :: s) end = (1, c :: s)).
    { pose proof (digit_not c 45 Hc ltac:(lia)). pose proof (digit_not c 43 Hc ltac:(lia)). repeat (case_match; try done). }
    rewrite Hm, Hu. replace (1 * n) with n by lia. rewrite (proj2 (Z.leb_le _ _)), (proj2 (Z.ltb_lt _ _)) by lia. done.
Qed.

Lemma ParseUint64_dec n : 0 <= n < 2 ^ 64 -> ParseUint64 (dec n) = (n, true).
Proof. intros Hn. unfold ParseUint64. rewrite unsigned_dec by lia. by rewrite (proj2 (Z.ltb_lt _ _)) by lia. Qed.
