(* ===== verification/GoStrings.v ===== *)
(** Package [strings] of the standard library, as [lib/parser], [lib/hunspell] and
    [lib/spf] use it. *)

From Stdlib Require Import ZArith Lia.
From S2P Require Import Prelude Ascii Utf8.

Local Open Scope Z_scope.

(** The runes of a text, and [string(runes)]. *)
Definition runes_of (s : list Z) : list Z := (range_runes s).*2.
Definition text_of (rs : list Z) : list Z := concat (EncodeRune <$> rs).

(** [strings.Fields]: the words between runes of space. *)
Definition word_end (w : list Z) : list (list Z) := match w with [] => [] | _ => [w] end.
Fixpoint fields_from (fuel : nat) (s w : list Z) : list (list Z) :=
  match fuel, s with
  | S fuel, _ :: _ =>
      let '(r, n) := DecodeRune s in
      if rune_IsSpace r then word_end w ++ fields_from fuel (drop n s) [] else fields_from fuel (drop n s) (w ++ take n s)
  | _, _ => word_end w
  end.
Definition Fields (s : list Z) : list (list Z) := fields_from (length s) s [].

Fixpoint HasPrefix (s p : list Z) : bool :=
  match p, s with
  | [], _ => true
  | b :: p, a :: s => (a =? b) && HasPrefix s p
  | _, [] => false
  end.
Definition HasSuffix (s p : list Z) : bool := HasPrefix (rev s) (rev p).
Definition TrimPrefix (s p : list Z) : list Z := if HasPrefix s p then drop (length p) s else s.
Definition TrimSuffix (s p : list Z) : list Z := if HasSuffix s p then take (length s - length p) s else s.

(** [strings.Index] of one byte. *)
Fixpoint index_byte (c : Z) (s : list Z) : option nat :=
  match s with
  | [] => None
  | b :: s => if b =? c then Some 0%nat else S <$> index_byte c s
  end.
(** [strings.Join]. *)
Fixpoint join (sep : list Z) (l : list (list Z)) : list Z :=
  match l with [] => [] | [x] => x | x :: l => x ++ sep ++ join sep l end.
(** [strings.ReplaceAll] of one byte by another. *)
Definition replace_byte (a b : Z) (s : list Z) : list Z := (fun c => if c =? a then b else c) <$> s.

(** ** ASCII text *)

Lemma runes_from_snd s : forall fuel x, is_ascii s -> (length s <= fuel)%nat -> (runes_from fuel x s).*2 = s.
Proof.
  induction s as [|b s IH]; intros fuel x Ha Hf; [by destruct fuel|]. destruct fuel as [|fuel]; [cbn in Hf; lia|].
  apply Forall_cons in Ha as [Hb Ha]. cbn [runes_from]. rewrite DecodeRune_ascii by done. cbn [fmap list_fmap snd drop]. by rewrite IH by (done || (cbn in Hf; lia)).
Qed.

Lemma HasPrefix_iff p : forall s, HasPrefix s p = true <-> exists r, s = p ++ r.
Proof.
  induction p as [|b p IH]; intros [|a s]; cbn; try (split; [by eauto|done]).
  - split; [done|by intros [r [=]]].
  - rewrite andb_true_iff, IH, Z.eqb_eq. split; [intros [-> [r ->]]; by exists r|intros [r [= -> ->]]; eauto].
Qed.

Lemma index_byte_Some c s i : index_byte c s = Some i <-> exists a b, s = a ++ c :: b /\ length a = i /\ c ∉ a.
Proof.
  revert i. induction s as [|b s IH]; intros i; cbn.
  - split; [done|]. intros (a & r & H & _). by destruct a.
  - destruct (Z.eqb_spec b c) as [->|Hne].
    + split; [intros [= <-]; exists [], s; split_and!; [done|done|by apply not_elem_of_nil]|].
      intros ([|d a] & r & [= <-] & <- & Hn); [done|]. exfalso. apply Hn. by left.
    + split.
      * destruct (index_byte c s) as [j|]; [|done]. intros [= <-]. destruct (proj1 (IH j) eq_refl) as (a & r & -> & <- & Hn).
        exists (b :: a), r. split_and!; [done|done|]. apply not_elem_of_cons. by split.
      * intros ([|d a] & r & [= <- ->] & <- & Hn); [done|]. apply not_elem_of_cons in Hn as [_ Hn].
        by rewrite (proj2 (IH (length a)) (ex_intro _ a (ex_intro _ r (conj eq_refl (conj eq_refl Hn))))).
Qed.
