(* ===== verification/Parser.v ===== *)
(** Package [lib/parser]: tokens between delimiters, and lines.

    A text is its bytes, read by runes; the position is an index of a byte.  A parser is
    made by [New]; [Open] and the function [Lines], which read a file, are not here.  A
    negative count of [Skip] is outside the model. *)

From Stdlib Require Import ZArith Lia.
From S2P Require Import Prelude Ascii Utf8 GoStrings.

Local Open Scope Z_scope.

Record Parser : Type := mkParser { file : list Z; delims : list Z; x : nat; v : list Z; token : list Z; d : Z }.
Definition put_at (p : Parser) (nx : nat) (tok : list Z) (nd : Z) : Parser := mkParser (file p) (delims p) nx (v p) tok nd.
Definition put_delims (p : Parser) (ds : list Z) : Parser := mkParser (file p) ds (x p) (v p) (token p) (d p).

(** What is still to be read. *)
Definition rest (p : Parser) : list Z := drop (x p) (v p).

Definition Close (p : Parser) : Parser := mkParser [] [] 0 [] [] 0.
Definition Load (p : Parser) (content ds : list Z) : Parser :=
  let p := Close p in
  mkParser (file p) (match ds with [] => Spaces | _ => ds end) (x p) content (token p) (d p).
Definition New (content ds : list Z) : Parser := Load (mkParser [] [] 0 [] [] 0) content ds.

Definition has_rune (r : Z) (rs : list Z) : bool := existsb (fun o => o =? r) rs.
Fixpoint AddDelimiters_loop (rs ds : list Z) : list Z :=
  match rs with
  | [] => ds
  | r :: rs => AddDelimiters_loop rs (if has_rune r (runes_of ds) then ds else ds ++ EncodeRune r)
  end.
Definition AddDelimiters (p : Parser) (ds : list Z) : Parser := put_delims p (AddDelimiters_loop (runes_of ds) (delims p)).
Definition RemoveDelimiters (p : Parser) (dels : list Z) : Parser :=
  put_delims p (text_of (filter (fun o => has_rune o (runes_of dels) = false) (runes_of (delims p)))).

(** ** Lines *)

Definition is_hspace (c : Z) : bool := (c =? 32) || (c =? 9) || (c =? 13) || (c =? 12).
Fixpoint skip_h (s : list Z) : list Z :=
  match s with c :: t => if is_hspace c then skip_h t else s | [] => [] end.
(** The bytes before the line feed, and those behind it. *)
Fixpoint cut_line (s : list Z) : list Z * list Z :=
  match s with
  | [] => ([], [])
  | c :: s => if c =? 10 then ([], s) else let '(l, t) := cut_line s in (c :: l, t)
  end.
(** The first byte of a line is no space, so the loop that stops there may go on. *)
Definition trim_end (l : list Z) : list Z := rev (skip_h (rev l)).
Fixpoint lines_loop (fuel : nat) (s : list Z) : list (list Z) :=
  match fuel, s with
  | S fuel, _ :: _ =>
      let '(l, t) := cut_line (skip_h s) in
      let l := trim_end l in
      match l with [] => lines_loop fuel t | _ => l :: lines_loop fuel t end
  | _, _ => []
  end.
Definition Lines (p : Parser) : list (list Z) * Parser :=
  (lines_loop (length (v p)) (rest p), put_at p (length (v p)) (token p) (d p)).

(** ** Tokens *)

(** A delimiter ends a token; its position is one byte on, however long it is. *)
Fixpoint token_loop (rs : list (nat * Z)) (ds tok : list Z) : list Z * option (nat * Z) :=
  match rs with
  | [] => (tok, None)
  | (i, r) :: rs => if has_rune r ds then (tok, Some (i, r)) else token_loop rs ds (tok ++ [r])
  end.
Definition Token (p : Parser) : list Z * Z * Parser :=
  if (length (v p) <=? x p)%nat then ([], 0, put_at p (x p) [] 0)
  else
    match token_loop (range_runes (rest p)) (runes_of (delims p)) [] with
    | (tok, Some (i, r)) => (text_of tok, r, put_at p (x p + i + 1) tok r)
    | (tok, None) => (text_of tok, 0, put_at p (length (v p)) tok 0)
    end.

Fixpoint escaped_loop (rs : list (nat * Z)) (ds : list Z) (esc : Z) (isEscaped : bool) (tok : list Z) : list Z * option (nat * Z) :=
  match rs with
  | [] => (tok, None)
  | (i, r) :: rs =>
      if r =? esc then
        if isEscaped then escaped_loop rs ds esc false (tok ++ [r]) else escaped_loop rs ds esc true tok
      else if has_rune r ds then
        if isEscaped then escaped_loop rs ds esc false (tok ++ [r]) else (tok, Some (i, r))
      else escaped_loop rs ds esc isEscaped (tok ++ [r])
  end.
Definition TokenEscaped (p : Parser) (esc : Z) : list Z * Z * Parser :=
  if (length (v p) <=? x p)%nat then ([], 0, put_at p (x p) [] 0)
  else
    match escaped_loop (range_runes (rest p)) (runes_of (delims p)) esc false [] with
    | (tok, Some (i, r)) => (text_of tok, r, put_at p (x p + i + 1) tok r)
    | (tok, None) => (text_of tok, 0, put_at p (length (v p)) tok 0)
    end.

(** [ReadEnclosed]: it adds to the token of the call before, and where there is no closing
    rune it returns the whole content. *)
Fixpoint enclosed_loop (rs : list (nat * Z)) (open closed : Z) (tok : list Z) : list Z * option nat :=
  match rs with
  | [] => (tok, None)
  | (i, r) :: rs =>
      if bool_decide (i = 0%nat) && (r =? open) then enclosed_loop rs open closed tok
      else if r =? closed then (tok, Some i)
      else enclosed_loop rs open closed (tok ++ [r])
  end.
Definition ReadEnclosed (p : Parser) (open closed : Z) : list Z * Z * Parser :=
  match enclosed_loop (range_runes (rest p)) open closed (token p) with
  | (tok, Some i) => (text_of tok, closed, put_at p (x p + i + 1) tok closed)
  | (tok, None) => (v p, 0, put_at p (length (v p)) tok 0)
  end.

Definition Skip (p : Parser) (n : nat) : Parser :=
  if (length (v p) <=? x p + n)%nat then put_at p (length (v p)) (token p) 0 else put_at p (x p + n) (token p) (d p).

Fixpoint hspaces_loop (rs : list (nat * Z)) : option (nat * Z) :=
  match rs with
  | [] => None
  | (i, r) :: rs => if is_hspace r then hspaces_loop rs else Some (i, r)
  end.
Definition SkipHorizontalSpaces (p : Parser) : Z * Parser :=
  match hspaces_loop (range_runes (rest p)) with
  | Some (i, r) => (r, put_at p (x p + i) (token p) r)
  | None => (0, put_at p (length (v p)) (token p) 0)
  end.

Fixpoint line_loop (rs : list (nat * Z)) : option nat :=
  match rs with
  | [] => None
  | (i, r) :: rs => if r =? 10 then Some i else line_loop rs
  end.
Definition SkipLine (p : Parser) : Z * Parser :=
  match line_loop (range_runes (rest p)) with
  | Some i =>
      let nx := (x p + i + 1)%nat in
      let nd := if (length (v p) <=? nx)%nat then 0 else 10 in
      (nd, put_at p nx (token p) nd)
  | None => (0, put_at p (length (v p)) (token p) 0)
  end.

Example two_tokens :
  let '(a, da, p) := Token (New (str "one,two") (str ",;")) in
  let '(b, db, p) := Token p in (a, da, b, db, x p) = (str "one", 44, str "two", 0, 7%nat).
Proof. reflexivity. Qed.
(** A delimiter of two bytes leaves its second one in the text. *)
Example long_delimiter : rest (Token (New (97 :: EncodeRune 233 ++ [98]) (EncodeRune 233))).2 = [169; 98].
Proof. reflexivity. Qed.
(** An escape before another rune stays pending, and escapes a delimiter that is further on. *)
Example escape_pending : (TokenEscaped (New (str "a\bc d") (str " ")) 92).1 = (str "abc d", 0).
Proof. reflexivity. Qed.
(** The token of the call before is returned again, and so is all the content. *)
Example enclosed_keeps :
  let '(a, _, p) := Token (New (str "a,(b)") (str ",")) in (ReadEnclosed p 40 41).1 = (str "ab", 41) /\ (ReadEnclosed p 40 93).1 = (str "a,(b)", 0).
Proof. split; reflexivity. Qed.

(** ** Lines as a function of the text *)

(** The lines of a text: what is between line feeds, without the spaces at its ends, if
    anything is left. *)
Definition trim (l : list Z) : list Z := trim_end (skip_h l).
Definition lines_of (s : list Z) : list (list Z) := filter (.≠ []) (trim <$> Split 10 s).

Lemma cut_line_spec s : (10 ∉ s /\ cut_line s = (s, [])) \/ exists l t, 10 ∉ l /\ s = l ++ 10 :: t /\ cut_line s = (l, t).
Proof.
  induction s as [|c s IH]; cbn.
  - left. split; [apply not_elem_of_nil|done].
  - destruct (Z.eqb_spec c 10) as [->|Hc]; [right; exists [], s; split; [apply not_elem_of_nil|done]|].
    destruct IH as [[Hn ->]|(l & t & Hn & -> & ->)].
    + left. split; [|done]. apply not_elem_of_cons. by split.
    + right. exists (c :: l), t. split; [|done]. apply not_elem_of_cons. by split.
Qed.

Lemma skip_h_line l t : 10 ∉ l -> skip_h (l ++ 10 :: t) = skip_h l ++ 10 :: t.
Proof.
  intros Hl. induction l as [|c l IH]; [done|]. apply not_elem_of_cons in Hl as [_ Hl]. cbn. destruct (is_hspace c); [by apply IH|done].
Qed.
Lemma skip_h_sub l c : c ∈ skip_h l -> c ∈ l.
Proof. induction l as [|b l IH]; cbn; [done|]. destruct (is_hspace b); [intros H; right; by apply IH|done]. Qed.

Lemma filter_keep (w : list Z) ls : filter (.≠ []) (w :: ls) = match w with [] => filter (.≠ []) ls | _ => w :: filter (.≠ []) ls end.
Proof. rewrite filter_cons. by destruct w. Qed.

Lemma lines_loop_spec fuel : forall s, (length s <= fuel)%nat -> lines_loop fuel s = lines_of s.
Proof.
  induction fuel as [|fuel IH]; intros s Hf.
  - destruct s; [done|cbn in Hf; lia].
  - destruct s as [|c s]; [done|]. set (u := c :: s) in *. assert (Hne : lines_loop (S fuel) u = let '(l, t) := cut_line (skip_h u) in
      match trim_end l with [] => lines_loop fuel t | _ => trim_end l :: lines_loop fuel t end) by done.
    rewrite Hne. clear Hne. assert (Hu : (0 < length u)%nat) by (cbn; lia). clearbody u. clear c s.
    destruct (cut_line_spec u) as [[Hn _]|(l & t & Hn & -> & _)].
    + assert (Hs : 10 ∉ skip_h u) by (intros H; by apply Hn, skip_h_sub). destruct (cut_line_spec (skip_h u)) as [[_ ->]|(l & t & _ & He & _)].
      2:{ exfalso. apply Hs. rewrite He. apply elem_of_app. right. by left. }
      unfold lines_of. rewrite Split_none by done. cbn [fmap list_fmap]. rewrite filter_keep.
      rewrite IH by (cbn; lia). reflexivity.
    + rewrite length_app in Hf. cbn [length] in Hf. rewrite skip_h_line by done. assert (Hs : 10 ∉ skip_h l) by (intros H; by apply Hn, skip_h_sub).
      destruct (cut_line_spec (skip_h l ++ 10 :: t)) as [[H _]|(l' & t' & Hl' & He & ->)].
      { exfalso. apply H, elem_of_app. right. by left. }
      assert (Heq : skip_h l = l' /\ t = t').
      { clear -He Hs Hl'. revert l' He Hl'. induction (skip_h l) as [|a k IH]; intros [|b l'] He Hl'; cbn in He.
        - by injection He as ->.
        - injection He as <- _. exfalso. apply Hl'. by left.
        - injection He as -> _. exfalso. apply Hs. by left.
        - injection He as -> He. apply not_elem_of_cons in Hs as [_ Hs], Hl' as [_ Hl']. by destruct (IH Hs l' He Hl') as [-> ->]. }
      destruct Heq as [<- <-]. rewrite IH by lia. unfold lines_of. rewrite Split_sep by done. cbn [fmap list_fmap]. by rewrite filter_keep.
Qed.

(** The lines of a parser are the lines of what is left to read: each, in order, what is
    between two line feeds without the blanks around it, unless nothing is left; and
    everything is read then. *)
Theorem Lines_are p : Lines p = (lines_of (rest p), put_at p (length (v p)) (token p) (d p)).
Proof. unfold Lines. rewrite lines_loop_spec; [done|]. unfold rest. rewrite length_drop. lia. Qed.
