(* ===== verification/HunOptions.v ===== *)
(** Package [lib/hunspell], files [options.go], [affix.go], [affix_rule.go], [flags.go],
    [morphemes.go] and [replacement.go]: the options and the affixes of a spelling
    dictionary.

    The fields of [affixOptions] of one simple type are a function of the name of the
    field.  An affix is a pointer that is kept in one of two maps under its flag and never
    replaced, so where a rule holds affixes it holds their flags here.  A regular expression
    is what it matches; what is logged is left out. *)

From Stdlib Require Import ZArith Lia.
From S2P Require Import Prelude Ascii Utf8 Strconv GoStrings Parser.

Local Open Scope Z_scope.

(** [regexp.Compile], and [MatchString] of what it returns. *)
Class Regexp : Type := regexp_Compile : list Z -> option (list Z -> bool).

(** The errors, without their texts. *)
Inductive error : Type :=
| ErrArguments | ErrNumber | ErrRegexp | ErrBreak | ErrFlag | ErrUnknownFlag | ErrMorpheme | ErrEscape | ErrWord | ErrWords | ErrEmpty.
#[export] Instance error_eq_dec : EqDecision error.
Proof. solve_decision. Defined.

(** [strconv.Atoi]. *)
Definition Atoi (s : list Z) : outcome error Z := match ParseInt64 s with Some n => Ok n | None => Err ErrNumber end.

(** A slice that is made with a capacity, and one of capacity 0, which is like none; the
    largest block of memory is that of 64-bit systems. *)
Definition made (A : Type) : Type := option (list A).
Definition maxAlloc : Z := 2 ^ 48.
Definition make_slice {A} (size n : Z) : outcome error (made A) :=
  if (n <? 0) || (maxAlloc <? n * size) then Panic else Ok (if n =? 0 then None else Some []).
Definition push {A} (l : made A) (a : A) : made A := Some (default [] l ++ [a]).

(** ** Flags *)

Definition FlagASCII : list Z := str "ascii".
Definition FlagUTF8 : list Z := str "utf-8".
Definition FlagLong : list Z := str "long".
Definition FlagNum : list Z := str "num".

(** A byte becomes the text of its rune. *)
Definition unpackFlagASCII (f : list Z) : list (list Z) := EncodeRune <$> f.
Definition unpackFlagUTF8 (f : list Z) : list (list Z) := EncodeRune <$> runes_of f.
Fixpoint unpackFlagLong (f : list Z) : outcome error (list (list Z)) :=
  match f with
  | [] => Ok []
  | [_] => Err ErrFlag
  | a :: b :: f => fs ← unpackFlagLong f; Ok ([a; b] :: fs)
  end.
Fixpoint numbers_only (flags : list (list Z)) : outcome error (list (list Z)) :=
  match flags with
  | [] => Ok []
  | f :: flags =>
      let f := TrimSpace f in
      match Atoi f with
      | Ok _ => fs ← numbers_only flags; Ok (f :: fs)
      | _ => Err ErrFlag
      end
  end.
Definition unpackFlagNum (f : list Z) : outcome error (list (list Z)) := numbers_only (Split 44 f).
Definition unpackFlags (ftype rawflags : list Z) : outcome error (list (list Z)) :=
  if bool_decide (ftype = FlagASCII) then Ok (unpackFlagASCII rawflags)
  else if bool_decide (ftype = FlagUTF8) then Ok (unpackFlagUTF8 rawflags)
  else if bool_decide (ftype = FlagLong) then unpackFlagLong rawflags
  else if bool_decide (ftype = FlagNum) then unpackFlagNum rawflags
  else Ok [].

(** ** The data *)

Abbreviation Morphemes := (gmap (list Z) (list Z)).

Record affixRule : Type := mkRule {
  stripping : list Z; affix_text : list Z; rule_flags : list Z; affixes : list (list Z);
  condition : option (list Z -> bool); morphemes : Morphemes
}.
Record affix : Type := mkAffix { isPrefix : bool; isCrossProduct : bool; name : list Z; rules : list affixRule }.
Record replacement : Type := mkRep { rep_from : list Z -> bool; rep_to : list Z }.
Record breakopt : Type := mkBreak { delEnd : bool; delStart : bool; break_token : list Z }.
Record compoundPattern : Type := mkPattern { cp_end : list Z; endFlag : list Z; cp_begin : list Z; beginFlag : list Z; cp_rep : list Z }.
Record compoundSyllable : Type := mkSyllable { syl_max : Z; vowels : list Z }.
Record conversion : Type := mkConversion { pattern : list Z; pattern2 : list Z }.

Inductive text_option : Type :=
| encoding | flag | lang | ignore | opt_try | warn | compoundFlag | compoundBegin | compoundLast | compoundMiddle
| onlyInCompound | compoundPermitFlag | compoundForbidFlag | compoundRoot | forceUCase | syllableNum
| circumfix | forbiddenWord | keepCase | lemmaPresent | needAffix | pseudoRoot | substandard | wordchars.
Inductive switch_option : Type :=
| isComplexPrefixes | isOnlyMaxDiff | isNoSplitSugs | isSugsWithDots | isForbidWarn | isCompoundMoreSuffixes
| isCheckCompoundDup | isCheckCompoundRep | isCheckCompoundCase | isCheckCompoundTriple | isSimplifiedTriple
| isFullStrip | isCheckSharps.
Inductive number_option : Type := maxCompundSuggests | maxNGramSuggests | maxDiff | compoundMin | compoundWordMax.
#[export] Instance text_option_eq_dec : EqDecision text_option.
Proof. solve_decision. Defined.
#[export] Instance switch_option_eq_dec : EqDecision switch_option.
Proof. solve_decision. Defined.
#[export] Instance number_option_eq_dec : EqDecision number_option.
Proof. solve_decision. Defined.

Record affixOptions : Type := mkOptions {
  texts : text_option -> list Z;
  switches : switch_option -> bool;
  numbers : number_option -> Z;
  afAliases : made (list Z);
  amAliases : made (list Z);
  keys : list (list Z);
  noSuggest : list (list Z);
  reps : made replacement;
  charsMaps : made (list (list Z));
  breakOpts : made breakopt;
  compoundRules : made (list Z -> bool);
  compoundPatterns : made compoundPattern;
  compound_Syllable : option compoundSyllable;
  prefixes : gmap (list Z) affix;
  suffixes : gmap (list Z) affix;
  iconv : made conversion;
  oconv : made conversion
}.
Definition put_afAliases (o : affixOptions) v := mkOptions (texts o) (switches o) (numbers o) v (amAliases o) (keys o) (noSuggest o) (reps o) (charsMaps o) (breakOpts o) (compoundRules o) (compoundPatterns o) (compound_Syllable o) (prefixes o) (suffixes o) (iconv o) (oconv o).
Definition put_amAliases (o : affixOptions) v := mkOptions (texts o) (switches o) (numbers o) (afAliases o) v (keys o) (noSuggest o) (reps o) (charsMaps o) (breakOpts o) (compoundRules o) (compoundPatterns o) (compound_Syllable o) (prefixes o) (suffixes o) (iconv o) (oconv o).
Definition put_keys (o : affixOptions) v := mkOptions (texts o) (switches o) (numbers o) (afAliases o) (amAliases o) v (noSuggest o) (reps o) (charsMaps o) (breakOpts o) (compoundRules o) (compoundPatterns o) (compound_Syllable o) (prefixes o) (suffixes o) (iconv o) (oconv o).
Definition put_noSuggest (o : affixOptions) v := mkOptions (texts o) (switches o) (numbers o) (afAliases o) (amAliases o) (keys o) v (reps o) (charsMaps o) (breakOpts o) (compoundRules o) (compoundPatterns o) (compound_Syllable o) (prefixes o) (suffixes o) (iconv o) (oconv o).
Definition put_reps (o : affixOptions) v := mkOptions (texts o) (switches o) (numbers o) (afAliases o) (amAliases o) (keys o) (noSuggest o) v (charsMaps o) (breakOpts o) (compoundRules o) (compoundPatterns o) (compound_Syllable o) (prefixes o) (suffixes o) (iconv o) (oconv o).
Definition put_charsMaps (o : affixOptions) v := mkOptions (texts o) (switches o) (numbers o) (afAliases o) (amAliases o) (keys o) (noSuggest o) (reps o) v (breakOpts o) (compoundRules o) (compoundPatterns o) (compound_Syllable o) (prefixes o) (suffixes o) (iconv o) (oconv o).
Definition put_breakOpts (o : affixOptions) v := mkOptions (texts o) (switches o) (numbers o) (afAliases o) (amAliases o) (keys o) (noSuggest o) (reps o) (charsMaps o) v (compoundRules o) (compoundPatterns o) (compound_Syllable o) (prefixes o) (suffixes o) (iconv o) (oconv o).
Definition put_compoundRules (o : affixOptions) v := mkOptions (texts o) (switches o) (numbers o) (afAliases o) (amAliases o) (keys o) (noSuggest o) (reps o) (charsMaps o) (breakOpts o) v (compoundPatterns o) (compound_Syllable o) (prefixes o) (suffixes o) (iconv o) (oconv o).
Definition put_compoundPatterns (o : affixOptions) v := mkOptions (texts o) (switches o) (numbers o) (afAliases o) (amAliases o) (keys o) (noSuggest o) (reps o) (charsMaps o) (breakOpts o) (compoundRules o) v (compound_Syllable o) (prefixes o) (suffixes o) (iconv o) (oconv o).
Definition put_compound_Syllable (o : affixOptions) v := mkOptions (texts o) (switches o) (numbers o) (afAliases o) (amAliases o) (keys o) (noSuggest o) (reps o) (charsMaps o) (breakOpts o) (compoundRules o) (compoundPatterns o) v (prefixes o) (suffixes o) (iconv o) (oconv o).
Definition put_prefixes (o : affixOptions) v := mkOptions (texts o) (switches o) (numbers o) (afAliases o) (amAliases o) (keys o) (noSuggest o) (reps o) (charsMaps o) (breakOpts o) (compoundRules o) (compoundPatterns o) (compound_Syllable o) v (suffixes o) (iconv o) (oconv o).
Definition put_suffixes (o : affixOptions) v := mkOptions (texts o) (switches o) (numbers o) (afAliases o) (amAliases o) (keys o) (noSuggest o) (reps o) (charsMaps o) (breakOpts o) (compoundRules o) (compoundPatterns o) (compound_Syllable o) (prefixes o) v (iconv o) (oconv o).
Definition put_iconv (o : affixOptions) v := mkOptions (texts o) (switches o) (numbers o) (afAliases o) (amAliases o) (keys o) (noSuggest o) (reps o) (charsMaps o) (breakOpts o) (compoundRules o) (compoundPatterns o) (compound_Syllable o) (prefixes o) (suffixes o) v (oconv o).
Definition put_oconv (o : affixOptions) v := mkOptions (texts o) (switches o) (numbers o) (afAliases o) (amAliases o) (keys o) (noSuggest o) (reps o) (charsMaps o) (breakOpts o) (compoundRules o) (compoundPatterns o) (compound_Syllable o) (prefixes o) (suffixes o) (iconv o) v.
Definition put_text (o : affixOptions) (f : text_option) v := mkOptions (fun i => if decide (i = f) then v else texts o i) (switches o) (numbers o) (afAliases o) (amAliases o) (keys o) (noSuggest o) (reps o) (charsMaps o) (breakOpts o) (compoundRules o) (compoundPatterns o) (compound_Syllable o) (prefixes o) (suffixes o) (iconv o) (oconv o).
Definition put_switch (o : affixOptions) (f : switch_option) v := mkOptions (texts o) (fun i => if decide (i = f) then v else switches o i) (numbers o) (afAliases o) (amAliases o) (keys o) (noSuggest o) (reps o) (charsMaps o) (breakOpts o) (compoundRules o) (compoundPatterns o) (compound_Syllable o) (prefixes o) (suffixes o) (iconv o) (oconv o).
Definition put_number (o : affixOptions) (f : number_option) v := mkOptions (texts o) (switches o) (fun i => if decide (i = f) then v else numbers o i) (afAliases o) (amAliases o) (keys o) (noSuggest o) (reps o) (charsMaps o) (breakOpts o) (compoundRules o) (compoundPatterns o) (compound_Syllable o) (prefixes o) (suffixes o) (iconv o) (oconv o).


(** The options of [New]. *)
Definition default_options : affixOptions :=
  mkOptions (fun i => match i with encoding => str "UTF-8" | flag => FlagASCII | _ => [] end) (fun _ => false)
    (fun i => match i with compoundMin => 3 | _ => 0 end) None None [] [] None None None None None None ∅ ∅ None None.

(** An element of a slice that is made. *)
Definition alias_at (l : made (list Z)) (i : Z) : outcome error (list Z) :=
  if i <? 0 then Panic else get_at (default [] l) (Z.to_nat i).
Definition aliases (l : made (list Z)) : nat := length (default [] l).

(** ** Morphemes *)

Definition morphs_add (m : Morphemes) (raw : list Z) : Morphemes :=
  match index_byte 58 raw with
  | None => <[raw := []]> m
  | Some O => <[[] := drop 1 raw]> m
  | Some i => <[take i raw := drop (i + 1) raw]> m
  end.
Fixpoint raw_morphs (am : made (list Z)) (ms : list (list Z)) : outcome error (list (list Z)) :=
  match ms with
  | [] => Ok []
  | m :: ms =>
      match index_byte 58 m with
      | None =>
          if (aliases am =? 0)%nat then raw_morphs am ms
          else
            match Atoi m with
            | Ok amIdx =>
                m ← alias_at am amIdx;
                rs ← raw_morphs am ms;
                Ok (Fields m ++ rs)
            | _ => raw_morphs am ms
            end
      | Some O => raw_morphs am ms
      | Some _ => rs ← raw_morphs am ms; Ok (m :: rs)
      end
  end.
Definition newMorphemes (opts : affixOptions) (raws : list (list Z)) : outcome error Morphemes :=
  rawMorphs ← raw_morphs (amAliases opts) (concat (Fields <$> raws));
  Ok (fold_left morphs_add rawMorphs ∅).

(** ** Rules *)

(** The flags of a rule or of a stem: a number is an alias, once there are aliases. *)
Definition expand_alias (opts : affixOptions) (raw : list Z) : outcome error (list Z) :=
  if (1 <? aliases (afAliases opts))%nat then
    match Atoi raw with Ok afIdx => alias_at (afAliases opts) afIdx | _ => Ok raw end
  else Ok raw.
Fixpoint known_flags (afxs : gmap (list Z) affix) (flags : list (list Z)) : outcome error (list (list Z)) :=
  match flags with
  | [] => Ok []
  | s :: flags =>
      match afxs !! s with
      | None => Err ErrUnknownFlag
      | Some _ => fs ← known_flags afxs flags; Ok (s :: fs)
      end
  end.
Definition rule_unpackFlags (opts : affixOptions) (afxs : gmap (list Z) affix) (raw : list Z) : outcome error (list Z * list (list Z)) :=
  raw ← expand_alias opts raw;
  flags ← unpackFlags (texts opts flag) raw;
  fs ← known_flags afxs flags;
  Ok (raw, fs).

Section Rules.
Context `{Regexp}.

Definition rule_condition (isPrefix : bool) (condition : list Z) : outcome error (option (list Z -> bool)) :=
  if isnil condition || bool_decide (condition = str ".") then Ok None
  else
    match regexp_Compile (if isPrefix then 94 :: condition else condition ++ [36]) with
    | Some re => Ok (Some re)
    | None => Err ErrRegexp
    end.
Definition newAffixRule (opts : affixOptions) (isPrefix : bool) (strip afx condition : list Z) (morphs : list (list Z)) : outcome error affixRule :=
  let afxs := if isPrefix then prefixes opts else suffixes opts in
  ms ← newMorphemes opts morphs;
  let strip := if bool_decide (strip = str "0") then [] else strip in
  '(text, raw, fs) ←
    (if bool_decide (afx = str "0") then Ok ([], [], [])
     else
       match Split 47 afx with
       | text :: raw :: _ => r ← rule_unpackFlags opts afxs raw; Ok (text, r.1, r.2)
       | text :: _ => Ok (text, [], [])
       | [] => Ok ([], [], [])
       end);
  c ← rule_condition isPrefix condition;
  Ok (mkRule strip text raw fs c ms).
Definition newAffix (nm : list Z) (prefix cross : bool) (nrules : Z) : outcome error affix :=
  _ ← make_slice (A := affixRule) 8 nrules;
  Ok (mkAffix prefix cross nm []).
Definition addRule (opts : affixOptions) (afx : affix) (strip text condition : list Z) (morphs : list (list Z)) : outcome error affix :=
  r ← newAffixRule opts (isPrefix afx) strip text condition morphs;
  Ok (mkAffix (isPrefix afx) (isCrossProduct afx) (name afx) (rules afx ++ [r])).
End Rules.

(** ** The lines of an affix file *)

Section Load.
Context `{Unicode} `{Regexp}.

Definition encodings : list (list Z) :=
  str <$> ["UTF-8"; "ISO8859-1"; "ISO8859-2"; "ISO8859-3"; "ISO8859-4"; "ISO8859-5"; "ISO8859-6"; "ISO8859-7"; "ISO8859-8"; "ISO8859-9";
    "ISO8859-10"; "ISO8859-13"; "ISO8859-14"; "ISO8859-15"; "KOI8-R"; "KOI8-U"; "CP1251"; "ISCII-DEVANAGRI"]%string.
Definition parseSet (opts : affixOptions) (args : list (list Z)) : affixOptions :=
  match args with
  | [] => opts
  | a :: _ => let e := text_ToUpper a in if bool_decide (e ∈ encodings) then put_text opts encoding e else opts
  end.
Definition parseFlag (opts : affixOptions) (fl : list Z) : affixOptions :=
  let fl := text_ToLower fl in
  if bool_decide (fl ∈ [FlagASCII; FlagUTF8; FlagLong; FlagNum]) then put_text opts flag fl else opts.

Definition parseAF (opts : affixOptions) (arg : list Z) : outcome error affixOptions :=
  match afAliases opts with
  | None =>
      n ← Atoi arg;
      l ← make_slice 16 n;
      Ok (put_afAliases opts (push l []))
  | l => Ok (put_afAliases opts (push l arg))
  end.
Definition parseAM (opts : affixOptions) (args : list (list Z)) : outcome error affixOptions :=
  match amAliases opts with
  | None =>
      a ← get_at args 0;
      n ← Atoi a;
      l ← make_slice 16 (s64 (n + 1));
      Ok (put_amAliases opts (push l []))
  | l => Ok (put_amAliases opts (push l (join [32] args)))
  end.
Definition newReplacement (from to : list Z) : outcome error replacement :=
  match regexp_Compile from with Some re => Ok (mkRep re (replace_byte 95 32 to)) | None => Err ErrRegexp end.
Definition parseRep (opts : affixOptions) (args : list (list Z)) : outcome error affixOptions :=
  match reps opts with
  | None =>
      match args with
      | [a] => n ← Atoi a; l ← make_slice 24 n; Ok (put_reps opts l)
      | _ => Err ErrArguments
      end
  | l =>
      match args with
      | [a; b] => rep ← newReplacement a b; Ok (put_reps opts (push l rep))
      | _ => Err ErrArguments
      end
  end.
(** The groups of MAP: a group that is not closed is dropped. *)
Fixpoint charsmap (rs : list Z) (isGroup : bool) (s : list Z) : list (list Z) :=
  match rs with
  | [] => []
  | r :: rs =>
      if r =? 40 then charsmap rs true []
      else if isGroup then
        if r =? 41 then text_of s :: charsmap rs false s else charsmap rs true (s ++ [r])
      else EncodeRune r :: charsmap rs false s
  end.
Definition parseMap (opts : affixOptions) (arg : list Z) : outcome error affixOptions :=
  match charsMaps opts with
  | None => n ← Atoi arg; l ← make_slice 24 n; Ok (put_charsMaps opts l)
  | l => Ok (put_charsMaps opts (push l (charsmap (runes_of arg) false [])))
  end.
Definition parseBreak (opts : affixOptions) (arg : list Z) : outcome error affixOptions :=
  match breakOpts opts with
  | None => n ← Atoi arg; l ← make_slice 24 n; Ok (put_breakOpts opts l)
  | l =>
      c ← get_at arg 0;
      let '(de, arg) := if c =? 94 then (true, drop 1 arg) else (false, arg) in
      let '(ds, arg) := match last arg with Some 36 => (true, take (length arg - 1) arg) | _ => (false, arg) end in
      if isnil arg then Err ErrBreak else Ok (put_breakOpts opts (push l (mkBreak de ds arg)))
  end.
Definition parseCompoundRule (opts : affixOptions) (arg : list Z) : outcome error affixOptions :=
  match compoundRules opts with
  | None => n ← Atoi arg; l ← make_slice 8 n; Ok (put_compoundRules opts l)
  | l => match regexp_Compile arg with Some re => Ok (put_compoundRules opts (push l re)) | None => Err ErrRegexp end
  end.
(** The pattern that is parsed is kept nowhere. *)
Definition parseCheckCompoundPattern (opts : affixOptions) (args : list (list Z)) : outcome error affixOptions :=
  match compoundPatterns opts with
  | None => a ← get_at args 0; n ← Atoi a; l ← make_slice 80 n; Ok (put_compoundPatterns opts l)
  | l => if (length args <? 2)%nat then Err ErrArguments else Ok opts
  end.

(** [isValidFlag]. *)
Definition isValidFlag (opts : affixOptions) (fl : list Z) : outcome error unit :=
  let ty := texts opts flag in
  if bool_decide (ty = FlagASCII) then if (length fl =? 1)%nat then Ok tt else Err ErrFlag
  else if bool_decide (ty = FlagUTF8) then
    match runes_of fl with [r] => if r =? RuneError then Err ErrFlag else Ok tt | _ => Err ErrFlag end
  else if bool_decide (ty = FlagLong) then if (length fl =? 2)%nat then Ok tt else Err ErrFlag
  else if bool_decide (ty = FlagNum) then match Atoi fl with Ok _ => Ok tt | _ => Err ErrFlag end
  else Ok tt.

(** [parsePfx] and [parseSfx]: the first line of a flag is a header, the others are rules. *)
Definition parse_affix (opts : affixOptions) (prefix : bool) (afxs : gmap (list Z) affix) (args : list (list Z)) :
    outcome error (gmap (list Z) affix) :=
  fl ← get_at args 0;
  _ ← isValidFlag opts fl;
  match afxs !! fl with
  | None =>
      c ← get_at args 1;
      a ← get_at args 2;
      n ← Atoi a;
      afx ← newAffix fl prefix (bool_decide (text_ToLower c = str "y")) n;
      Ok (<[fl := afx]> afxs)
  | Some afx =>
      strip ← get_at args 1;
      text ← get_at args 2;
      afx ← addRule opts afx strip text (default [] (args !! 3%nat)) (drop 4 args);
      Ok (<[fl := afx]> afxs)
  end.
Definition parsePfx (opts : affixOptions) (args : list (list Z)) : outcome error affixOptions :=
  m ← parse_affix opts true (prefixes opts) args; Ok (put_prefixes opts m).
Definition parseSfx (opts : affixOptions) (args : list (list Z)) : outcome error affixOptions :=
  m ← parse_affix opts false (suffixes opts) args; Ok (put_suffixes opts m).

Definition parse_conversion (l : made conversion) (args : list (list Z)) : outcome error (made conversion) :=
  match l with
  | None => a ← get_at args 0; n ← Atoi a; make_slice 32 n
  | l => match args with [a; b] => Ok (push l (mkConversion a b)) | _ => Err ErrArguments end
  end.
Definition parseIconv (opts : affixOptions) (args : list (list Z)) : outcome error affixOptions :=
  l ← parse_conversion (iconv opts) args; Ok (put_iconv opts l).
Definition parseOconv (opts : affixOptions) (args : list (list Z)) : outcome error affixOptions :=
  l ← parse_conversion (oconv opts) args; Ok (put_oconv opts l).

(** The options that only set a field, by their names. *)
Definition switch_names : list (list Z * switch_option) :=
  [(str "COMPLEXPREFIXES", isComplexPrefixes); (str "ONLYMAXDIFF", isOnlyMaxDiff); (str "NOSPLITSUGS", isNoSplitSugs);
   (str "SUGSWITHDOTS", isSugsWithDots); (str "FORBIDWARN", isForbidWarn); (str "COMPOUNDMORESUFFIXES", isCompoundMoreSuffixes);
   (str "CHECKCOMPOUNDDUP", isCheckCompoundDup); (str "CHECKCOMPOUNDREP", isCheckCompoundRep); (str "CHECKCOMPOUNDCASE", isCheckCompoundCase);
   (str "CHECKCOMPOUNDTRIPLE", isCheckCompoundTriple); (str "SIMPLIFIEDTRIPLE", isSimplifiedTriple); (str "FULLSTRIP", isFullStrip);
   (str "CHECKSHARPS", isCheckSharps)].
(** With exactly one argument, or with one at least. *)
Definition compound_text_names : list (list Z * text_option) :=
  [(str "WARN", warn); (str "COMPOUNDFLAG", compoundFlag); (str "COMPOUNDBEGIN", compoundBegin); (str "COMPOUNDLAST", compoundLast);
   (str "COMPOUNDMIDDLE", compoundMiddle); (str "ONLYINCOMPOUND", onlyInCompound); (str "COMPOUNDPERMITFLAG", compoundPermitFlag);
   (str "COMPOUNDFORBIDFLAG", compoundForbidFlag); (str "COMPOUNDROOT", compoundRoot); (str "FORCEUCASE", forceUCase);
   (str "SYLLABLENUM", syllableNum)].
Definition other_text_names : list (list Z * text_option) :=
  [(str "CIRCUMFIX", circumfix); (str "FORBIDDENWORD", forbiddenWord); (str "KEEPCASE", keepCase);
   (str "LEMMA_PRESENT", lemmaPresent); (str "NEEDAFFIX", needAffix); (str "PSEUDOROOT", pseudoRoot); (str "SUBSTANDARD", substandard);
   (str "WORDCHARS", wordchars)].
Definition text_names : list (list Z * text_option) := compound_text_names ++ other_text_names.
Definition free_text_names : list (list Z * text_option) := [(str "LANG", lang); (str "IGNORE", ignore); (str "TRY", opt_try)].
Definition number_names : list (list Z * number_option) := [(str "COMPOUNDMIN", compoundMin); (str "COMPOUNDWORDMAX", compoundWordMax)].
Definition free_number_names : list (list Z * number_option) :=
  [(str "MAXCPDSUGS", maxCompundSuggests); (str "MAXNGRAMSUGS", maxNGramSuggests); (str "MAXDIFF", maxDiff)].
Fixpoint named {A} (l : list (list Z * A)) (opt : list Z) : option A :=
  match l with [] => None | (n, a) :: l => if bool_decide (n = opt) then Some a else named l opt end.

(** The argument of an option: exactly one, or the first. *)
Definition one_arg (args : list (list Z)) : outcome error (list Z) := match args with [a] => Ok a | _ => Err ErrArguments end.
Definition first_arg (args : list (list Z)) : outcome error (list Z) := match args with a :: _ => Ok a | [] => Err ErrArguments end.

(** The options whose arguments are parsed; [written] is the name as the line has it. *)
Definition parse_named (opts : affixOptions) (written opt : list Z) (args : list (list Z)) : outcome error affixOptions :=
  let is_opt (s : string) := bool_decide (opt = str s) in
  if is_opt "SET" then Ok (parseSet opts args)
  else if is_opt "FLAG" then a ← one_arg args; Ok (parseFlag opts a)
  else if is_opt "AF" then a ← first_arg args; parseAF opts a
  else if is_opt "AM" then _ ← first_arg args; parseAM opts args
  else if is_opt "KEY" then a ← first_arg args; Ok (put_keys opts (Split 124 a))
  else if is_opt "NOSUGGEST" then a ← first_arg args; Ok (put_noSuggest opts (noSuggest opts ++ [a]))
  else if is_opt "REP" then parseRep opts args
  else if is_opt "MAP" then a ← one_arg args; parseMap opts a
  else if is_opt "BREAK" then a ← one_arg args; parseBreak opts a
  else if is_opt "COMPOUNDRULE" then a ← one_arg args; parseCompoundRule opts a
  else if is_opt "CHECKCOMPOUNDPATTERN" then _ ← first_arg args; parseCheckCompoundPattern opts (written :: args)
  else if is_opt "COMPOUNDSYLLABLE" then
    match args with
    | [a; b] => n ← Atoi a; Ok (put_compound_Syllable opts (Some (mkSyllable n b)))
    | _ => Err ErrArguments
    end
  else if is_opt "PFX" then if (length args <? 2)%nat then Err ErrArguments else parsePfx opts args
  else if is_opt "SFX" then if (length args <? 2)%nat then Err ErrArguments else parseSfx opts args
  else if is_opt "ICONV" then _ ← first_arg args; parseIconv opts args
  else if is_opt "OCONV" then if (length args =? 2)%nat then parseOconv opts args else Err ErrArguments
  else Ok opts.
Definition parse_option (opts : affixOptions) (written opt : list Z) (args : list (list Z)) : outcome error affixOptions :=
  match named switch_names opt with
  | Some f => Ok (put_switch opts f true)
  | None =>
      match named text_names opt with
      | Some f => a ← one_arg args; Ok (put_text opts f a)
      | None =>
          match named free_text_names opt with
          | Some f => a ← first_arg args; Ok (put_text opts f (if bool_decide (f = lang) then text_ToLower a else a))
          | None =>
              match named number_names opt with
              | Some f => a ← one_arg args; n ← Atoi a; Ok (put_number opts f n)
              | None =>
                  match named free_number_names opt with
                  | Some f =>
                      a ← first_arg args; n ← Atoi a;
                      Ok (put_number opts f (if bool_decide (f = maxDiff) && ((n <? 1) || (10 <? n)) then 5 else n))
                  | None => parse_named opts written opt args
                  end
              end
          end
      end
  end.

(** [load]: a line that begins with a number sign is a comment. *)
Definition load_line (opts : affixOptions) (line : list Z) : outcome error affixOptions :=
  c ← get_at line 0;
  if c =? 35 then Ok opts
  else
    let tokens := Fields line in
    opt ← get_at tokens 0;
    parse_option opts opt (text_ToUpper opt) (drop 1 tokens).
Fixpoint load_lines (opts : affixOptions) (lines : list (list Z)) : outcome error affixOptions :=
  match lines with
  | [] => Ok opts
  | l :: lines => opts ← load_line opts l; load_lines opts lines
  end.
Definition load (opts : affixOptions) (content : list Z) : outcome error affixOptions :=
  load_lines opts (Lines (New content [])).1.
End Load.
