(* ===== verification/HunStem.v ===== *)
(** Package [lib/hunspell], files [stem.go], [affix.go], [dictionary.go], [spell.go] and
    [hunspell.go]: the
    words of a dictionary, what affixes make of them, and the lookups.

    A stem is not changed once others are derived from it, so its parent is a value.
    Applying an affix follows the affixes of its rules without a bound in the code, and
    takes fuel here. *)

From Stdlib Require Import ZArith Lia.
From stdpp Require Import sorting.
From S2P Require Import Prelude Ascii Utf8 Strconv GoStrings Parser HunOptions.

Local Open Scope Z_scope.

Inductive Stem : Type :=
| mkStem (word : list Z) (morphs : Morphemes) (parent : option Stem) (raw : list Z) (rawMorphs : list (list Z)) (forbidden : bool).
Definition Word (s : Stem) : list Z := let 'mkStem w _ _ _ _ _ := s in w.
Definition Stem_Morphemes (s : Stem) : Morphemes := let 'mkStem _ m _ _ _ _ := s in m.
Definition Parent (s : Stem) : option Stem := let 'mkStem _ _ p _ _ _ := s in p.
Definition rawFlags (s : Stem) : list Z := let 'mkStem _ _ _ r _ _ := s in r.
Definition rawMorphemes (s : Stem) : list (list Z) := let 'mkStem _ _ _ _ r _ := s in r.
Definition IsForbidden (s : Stem) : bool := let 'mkStem _ _ _ _ _ f := s in f.
Definition put_word (s : Stem) w := mkStem w (Stem_Morphemes s) (Parent s) (rawFlags s) (rawMorphemes s) (IsForbidden s).
Definition put_flags (s : Stem) r := mkStem (Word s) (Stem_Morphemes s) (Parent s) r (rawMorphemes s) (IsForbidden s).
Definition put_rawMorphs (s : Stem) r := mkStem (Word s) (Stem_Morphemes s) (Parent s) (rawFlags s) r (IsForbidden s).

(** [newStem]: the morphemes of the parent win. *)
Definition newStem (parent : Stem) (word : list Z) (morphs : Morphemes) : Stem :=
  mkStem word (Stem_Morphemes parent ∪ morphs) (Some parent) [] [] false.

(** ** A line of a dictionary *)

Definition isValidMorpheme (inp : list Z) : outcome error bool :=
  match index_byte 58 inp with
  | None => match Atoi inp with Ok _ => Ok true | _ => Ok false end
  | Some O => Err ErrMorpheme
  | Some _ => Ok true
  end.

(** [parseWordFlags]. *)
Fixpoint word_loop (rs : list (nat * Z)) (esc : bool) (v : list Z) : outcome error (list Z * option nat) :=
  match rs with
  | [] => if esc then Err ErrEscape else Ok (v, None)
  | (x, c) :: rs =>
      if esc then if c =? 47 then word_loop rs false (v ++ [c]) else Err ErrEscape
      else if c =? 92 then word_loop rs true v
      else if c =? 47 then Ok (v, Some x)
      else word_loop rs false (v ++ [c])
  end.
Definition parseWordFlags (inp : list Z) : outcome error (list Z * list Z) :=
  '(v, sep) ← word_loop (range_runes inp) false [];
  match sep with
  | None => Ok (text_of v, [])
  | Some O => Err ErrWord
  | Some e => Ok (text_of v, drop (e + 1) inp)
  end.

(** The words of a line: the stem, and where its morphemes are, if there can be any. *)
Fixpoint words_loop (fuel : nat) (p : Parser) (stem : Stem) (nwords : nat) : outcome error (Stem * option Parser) :=
  match fuel with
  | O => NoFuel
  | S fuel =>
      let '(token, sep, p) := Token p in
      if isnil token then Ok (stem, None)
      else
        ok ← isValidMorpheme token;
        if (ok : bool) then Ok (put_rawMorphs stem (rawMorphemes stem ++ Fields token), Some (SkipHorizontalSpaces p).2)
        else
          '(word, flags) ← parseWordFlags token;
          let stem := put_flags (put_word stem ((if isnil (Word stem) then [] else Word stem ++ [32]) ++ word)) flags in
          if (2 <? S nwords)%nat then Err ErrWords
          else
            let p := (SkipHorizontalSpaces p).2 in
            if negb (isnil flags) then Ok (stem, Some p)
            else if sep =? 0 then Ok (stem, None)
            else words_loop fuel p stem (S nwords)
  end.
Fixpoint morphs_loop (fuel : nat) (p : Parser) (stem : Stem) : outcome error Stem :=
  match fuel with
  | O => NoFuel
  | S fuel =>
      let '(token, _, p) := Token p in
      if isnil token then Ok stem
      else
        ok ← isValidMorpheme token;
        if (ok : bool) then morphs_loop fuel (SkipHorizontalSpaces p).2 (put_rawMorphs stem (rawMorphemes stem ++ [token]))
        else Err ErrMorpheme
  end.
Definition stem_parse (stem : Stem) (line : list Z) : outcome error Stem :=
  '(stem, rest) ← words_loop 3 (New line [32; 9]) stem 0;
  match rest with
  | None => Ok stem
  | Some p => morphs_loop (S (length line)) p stem
  end.
Definition parseStem (line : list Z) : outcome error (option Stem) :=
  match line with
  | [] => Ok None
  | _ => stem ← stem_parse (mkStem [] ∅ None [] [] false) line; Ok (Some stem)
  end.

(** ** Affixes *)

(** All the results of a call for each element of a list. *)
Fixpoint collect {A B} (f : A -> outcome error (list B)) (l : list A) : outcome error (list B) :=
  match l with
  | [] => Ok []
  | a :: l => bs ← f a; cs ← collect f l; Ok (bs ++ cs)
  end.

Definition matches (rule : affixRule) (word : list Z) : bool := match condition rule with None => true | Some re => re word end.
Definition affixed (prefix : bool) (rule : affixRule) (word : list Z) : list Z :=
  if prefix then affix_text rule ++ TrimPrefix word (stripping rule) else TrimSuffix word (stripping rule) ++ affix_text rule.

(** [affix.apply], with the affixes of its kind. *)
Fixpoint apply (fuel : nat) (afxs : gmap (list Z) affix) (afx : affix) (root : Stem) : outcome error (list Stem) :=
  match fuel with
  | O => NoFuel
  | S fuel =>
      collect (fun rule =>
        if matches rule (Word root) then
          let stem := newStem root (affixed (isPrefix afx) rule (Word root)) (morphemes rule) in
          subs ← collect (fun flag => match afxs !! flag with Some sub => apply fuel afxs sub stem | None => Panic end) (affixes rule);
          Ok (subs ++ [stem])
        else Ok []) (rules afx)
  end.

(** [applySuffixes]. *)
Definition applySuffixes (fuel : nat) (opts : affixOptions) (flags : list (list Z)) (stems : list Stem) : outcome error (list Stem) :=
  collect (fun substem =>
    collect (fun flag =>
      match suffixes opts !! flag with
      | None => Ok []
      | Some sfx => if isCrossProduct sfx then apply fuel (suffixes opts) sfx substem else Ok []
      end) flags) stems.

(** [unpackFlags]. *)
Definition flag_derivatives (fuel : nat) (opts : affixOptions) (flags : list (list Z)) (stem : Stem) (flag : list Z) : outcome error (list Stem) :=
  match prefixes opts !! flag with
  | Some pfx =>
      stems ← apply fuel (prefixes opts) pfx stem;
      if isCrossProduct pfx then cs ← applySuffixes fuel opts flags stems; Ok (stems ++ cs) else Ok stems
  | None =>
      match suffixes opts !! flag with
      | Some sfx => apply fuel (suffixes opts) sfx stem
      | None => Err ErrUnknownFlag
      end
  end.
Definition stem_unpackFlags (fuel : nat) (opts : affixOptions) (stem : Stem) : outcome error (Stem * list Stem) :=
  raw ← expand_alias opts (rawFlags stem);
  let stem := put_flags stem raw in
  flags ← unpackFlags (texts opts flag) raw;
  ds ← collect (flag_derivatives fuel opts flags stem) flags;
  Ok (stem, ds).

(** [unpack]: a word after a star is forbidden. *)
Definition stem_unpack (fuel : nat) (opts : affixOptions) (stem : Stem) : outcome error (Stem * list Stem) :=
  c ← get_at (Word stem) 0;
  let '(word, forbidden) := if c =? 42 then (drop 1 (Word stem), true) else (Word stem, IsForbidden stem) in
  ms ← newMorphemes opts (rawMorphemes stem);
  stem_unpackFlags fuel opts (mkStem word ms (Parent stem) (rawFlags stem) (rawMorphemes stem) forbidden).

(** ** The dictionary *)

Section Dictionary.
Context `{Unicode} `{Regexp}.

Abbreviation stems_map := (gmap (list Z) Stem).
Definition add_stem (m : stems_map) (s : Stem) : stems_map := <[text_ToUpper (Word s) := s]> (<[Word s := s]> m).
Definition dict_line (fuel : nat) (opts : affixOptions) (stems : stems_map) (line : list Z) : outcome error stems_map :=
  stem ← parseStem line;
  match stem with
  | None => Ok stems
  | Some stem =>
      '(stem, ds) ← stem_unpack fuel opts stem;
      Ok (fold_left add_stem (stem :: ds) stems)
  end.
Fixpoint dict_lines (fuel : nat) (opts : affixOptions) (stems : stems_map) (lines : list (list Z)) : outcome error stems_map :=
  match lines with
  | [] => Ok stems
  | l :: lines => stems ← dict_line fuel opts stems l; dict_lines fuel opts stems lines
  end.
Definition dict_load (fuel : nat) (opts : affixOptions) (stems : stems_map) (content : list Z) : outcome error stems_map :=
  match (Lines (New content [])).1 with
  | [] => Err ErrEmpty
  | count :: lines => _ ← Atoi count; dict_lines fuel opts stems lines
  end.

(** ** [Spell] *)

Record Spell : Type := mkSpell { opts_of : affixOptions; dict : stems_map }.
Definition New_spell : Spell := mkSpell default_options ∅.
(** [Open], of the contents of the files. *)
Definition Open (fuel : nat) (aff dic : option (list Z)) : outcome error Spell :=
  opts ← (match aff with Some a => load default_options a | None => Ok default_options end);
  stems ← (match dic with Some d => dict_load fuel opts ∅ d | None => Ok ∅ end);
  Ok (mkSpell opts stems).
Definition spell_Spell (sp : Spell) (word : list Z) : option Stem := dict sp !! word.

(** [Stem.Analyze]: the morphemes of the ancestors, the farthest of which wins. *)
Fixpoint ancestors (s : Stem) : list Stem :=
  let 'mkStem _ _ p _ _ _ := s in match p with None => [] | Some p => p :: ancestors p end.
Definition stem_Analyze (s : Stem) : Morphemes :=
  <[str "st" := Word (default s (last (ancestors s)))]> (fold_left (fun m p => Stem_Morphemes p ∪ m) (ancestors s) (Stem_Morphemes s)).
Definition spell_Analyze (sp : Spell) (word : list Z) : option Morphemes := stem_Analyze <$> dict sp !! word.

(** [Stem.Stem]: inflected forms are reduced, one after the other. *)
Fixpoint stem_Stem (s : Stem) : Stem :=
  let 'mkStem _ m p _ _ _ := s in
  match p with
  | None => s
  | Some p => match m !! str "is" with Some _ => stem_Stem p | None => s end
  end.
Definition spell_Stem (sp : Spell) (word : list Z) : option Stem := stem_Stem <$> dict sp !! word.
End Dictionary.

(** ** Merging dictionaries *)

(** The order of strings, and [sort.Strings]. *)
Fixpoint text_le (a b : list Z) : bool :=
  match a, b with
  | [], _ => true
  | _, [] => false
  | x :: a, y :: b => (x <? y) || ((x =? y) && text_le a b)
  end.
Definition sort_strings (l : list (list Z)) : list (list Z) := merge_sort (fun a b => Is_true (text_le a b)) l.

(** [MergeDictionaries], on the lines of each file: the attributes of a word are put
    together, and a first line that begins with a digit is the number of words. *)
Definition merge_word (words : gmap (list Z) (list Z)) (line : list Z) : gmap (list Z) (list Z) :=
  let ss := Split 47 line in
  let key := hd [] ss in
  <[key := default [] (words !! key) ++ concat (tl ss)]> words.
Definition merge_file (words : gmap (list Z) (list Z)) (lines : list (list Z)) : outcome error (gmap (list Z) (list Z)) :=
  l ← get_at lines 0;
  c ← get_at l 0;
  Ok (fold_left merge_word (if IsDigit c then drop 1 lines else lines) words).
Fixpoint merge_files (words : gmap (list Z) (list Z)) (files : list (list (list Z))) : outcome error (gmap (list Z) (list Z)) :=
  match files with
  | [] => Ok words
  | f :: files => words ← merge_file words f; merge_files words files
  end.
Definition merged_word (x : list Z * list Z) : list Z := if isnil x.2 then x.1 else x.1 ++ 47 :: x.2.
Definition MergeDictionaries (inFiles : list (list Z)) : outcome error (Z * option (list Z)) :=
  match inFiles with
  | [] => Ok (0, None)
  | [f] => Ok (0, Some f)
  | _ =>
      words ← merge_files ∅ ((fun f => (Lines (New f [])).1) <$> inFiles);
      let words := sort_strings (merged_word <$> map_to_list words) in
      Ok (Z.of_nat (length words), Some (dec (Z.of_nat (length words)) ++ 10 :: concat ((fun w => w ++ [10]) <$> words)))
  end.

(** A condition of letters in brackets, at an end of a word. *)
Fixpoint in_brackets (s : list Z) : option (list Z) :=
  match s with [93] => Some [] | c :: s => cons c <$> in_brackets s | [] => None end.
Definition simple_regexp : Regexp := fun re =>
  match re with
  | 94 :: 91 :: cs => (fun set w => match head w with Some c => bool_decide (c ∈ set) | None => false end) <$> in_brackets cs
  | 91 :: cs => (fun set w => match last w with Some c => bool_decide (c ∈ set) | None => false end) <$> (match last cs with Some 36 => in_brackets (removelast cs) | _ => None end)
  | _ => None
  end.
Definition nl : list Z := [10].
Definition demo_aff : list Z :=
  str "# affixes" ++ nl ++ str "PFX A Y 1" ++ nl ++ str "PFX A 0 re . " ++ nl ++ str "SFX B Y 2" ++ nl ++ str "SFX B 0 ed [kt] is:past" ++ nl ++ str "SFX B e ing [e]" ++ nl.
Definition demo_dic : list Z := str "3" ++ nl ++ str "work/AB po:verb" ++ nl ++ str "make/B" ++ nl ++ str "*bad" ++ nl.
Example demo_spell :
  match Open (H := ascii_tables) (H0 := simple_regexp) 5 (Some demo_aff) (Some demo_dic) with
  | Ok sp =>
      (forall w, w ∈ str <$> ["work"; "rework"; "worked"; "reworked"; "making"; "bad"; "WORK"]%string -> is_Some (spell_Spell sp w)) /\
      spell_Spell sp (str "maked") = None /\
      (Word <$> spell_Stem sp (str "worked")) = Some (str "work") /\
      (spell_Analyze sp (str "reworked") ≫= (.!! str "st")) = Some (str "work")
  | _ => False
  end.
Proof.
  vm_compute. split; [|repeat split]. intros w Hw. repeat (apply elem_of_cons in Hw as [->|Hw]; [eauto|]). by apply not_elem_of_nil in Hw.
Qed.
Example merge_two :
  MergeDictionaries [str "2" ++ nl ++ str "b/X" ++ nl ++ str "a" ++ nl; str "b/Y" ++ nl ++ str "c" ++ nl]
  = Ok (3, Some (str "3" ++ nl ++ str "a" ++ nl ++ str "b/XY" ++ nl ++ str "c" ++ nl)).
Proof. vm_compute. reflexivity. Qed.
(** Merging one dictionary is copying it, and the number of words is not given. *)
Example merge_one : MergeDictionaries [str "1" ++ nl ++ str "a" ++ nl] = Ok (0, Some (str "1" ++ nl ++ str "a" ++ nl)).
Proof. reflexivity. Qed.
