(* ===== verification/HunFacts.v ===== *)
(** Proofs on [HunOptions] and [HunStem]: the words that a dictionary knows are those that
    its lines and the affixes make, the affixes that rules refer to are there, and looking
    a word up leads back to a line. *)

From Stdlib Require Import ZArith Lia.
From S2P Require Import Prelude Ascii Utf8 Strconv GoStrings Parser HunOptions HunStem.

Local Open Scope Z_scope.

(** ** Collecting *)

Lemma collect_Ok {A B} (f : A -> outcome error (list B)) l : forall r, collect f l = Ok r ->
  (forall a, a ∈ l -> exists bs, f a = Ok bs) /\ forall b, b ∈ r <-> exists a bs, a ∈ l /\ f a = Ok bs /\ b ∈ bs.
Proof.
  induction l as [|a l IH]; intros r H; cbn in H.
  - injection H as <-. split; [intros a Ha; by apply not_elem_of_nil in Ha|]. intros b. split; [by intros ?%not_elem_of_nil|by intros (a & bs & ?%not_elem_of_nil & _)].
  - destruct (f a) as [bs| | |] eqn:Ef; try done. cbn in H. destruct (collect f l) as [cs| | |] eqn:Ec; try done. injection H as <-.
    destruct (IH cs eq_refl) as [H1 H2]. split; [intros a' [->|Ha]%elem_of_cons; eauto|]. intros b. rewrite elem_of_app, H2. split.
    + intros [Hb|(a' & bs' & ? & ? & ?)]; [exists a, bs; split; [by left|done]|exists a', bs'; split; [by right|done]].
    + intros (a' & bs' & [->|Ha]%elem_of_cons & Hf & Hb); [left; congruence|right; eauto].
Qed.
Lemma collect_total {A B} (f : A -> outcome error (list B)) l : (forall a, a ∈ l -> exists bs, f a = Ok bs) -> exists r, collect f l = Ok r.
Proof.
  induction l as [|a l IH]; intros H; [by exists []|]. destruct (H a) as [bs Hb]; [by left|]. destruct IH as [cs Hc]; [intros a' Ha; apply H; by right|].
  exists (bs ++ cs). cbn. by rewrite Hb, bind_Ok, Hc.
Qed.
Lemma collect_ends {A B} (f : A -> outcome error (list B)) l : (forall a, a ∈ l -> f a <> NoFuel) -> collect f l <> NoFuel.
Proof.
  induction l as [|a l IH]; intros H; [done|]. cbn. pose proof (H a ltac:(by left)) as Ha. destruct (f a); try done. cbn.
  specialize (IH (fun a' Ha' => H a' ltac:(by right))). by destruct (collect f l).
Qed.

(** ** What affixes make *)

(** The stems that an affix makes of a stem, as the rules say: a rule whose condition the
    word meets makes one, and the affixes of the rule go on from it. *)
Inductive applies (afxs : gmap (list Z) affix) : affix -> Stem -> Stem -> Prop :=
| applies_rule afx rule root : rule ∈ rules afx -> matches rule (Word root) = true ->
    applies afxs afx root (newStem root (affixed (isPrefix afx) rule (Word root)) (morphemes rule))
| applies_next afx rule root fl sub s : rule ∈ rules afx -> matches rule (Word root) = true ->
    fl ∈ affixes rule -> afxs !! fl = Some sub ->
    applies afxs sub (newStem root (affixed (isPrefix afx) rule (Word root)) (morphemes rule)) s ->
    applies afxs afx root s.

(** The affixes of rules are there, and going from affix to affix ends. *)
Fixpoint depth_below (afxs : gmap (list Z) affix) (n : nat) (afx : affix) : Prop :=
  match n with
  | O => False
  | S n => forall rule fl, rule ∈ rules afx -> fl ∈ affixes rule -> exists sub, afxs !! fl = Some sub /\ depth_below afxs n sub
  end.

Lemma apply_total afxs n : forall fuel afx root, depth_below afxs n afx -> (n <= fuel)%nat -> exists ss, apply fuel afxs afx root = Ok ss.
Proof.
  induction n as [|n IH]; intros fuel afx root Hd Hf; [done|]. destruct fuel as [|fuel]; [lia|]. cbn [apply].
  apply collect_total. intros rule Hr. destruct (matches rule (Word root)); [|eauto].
  destruct (collect_total (fun fl => match afxs !! fl with Some sub => apply fuel afxs sub (newStem root (affixed (isPrefix afx) rule (Word root)) (morphemes rule)) | None => Panic end) (affixes rule)) as [r Hc].
  - intros fl Hfl. destruct (Hd rule fl Hr Hfl) as (sub & -> & Hs). by apply IH; [|lia].
  - rewrite Hc. cbn. eauto.
Qed.

Lemma apply_iff afxs fuel : forall afx root ss, apply fuel afxs afx root = Ok ss -> forall s, s ∈ ss <-> applies afxs afx root s.
Proof.
  induction fuel as [|fuel IH]; intros afx root ss H s; [done|]. cbn [apply] in H. apply collect_Ok in H as [Hall H]. rewrite H. clear H. split.
  - intros (rule & bs & Hr & Hf & Hb). destruct (matches rule (Word root)) eqn:Em; [|by injection Hf as <-; apply not_elem_of_nil in Hb].
    destruct (collect _ (affixes rule)) as [subs| | |] eqn:Ec; try done. cbn in Hf. injection Hf as <-. apply elem_of_app in Hb as [Hb|Hb%list_elem_of_singleton].
    + apply collect_Ok in Ec as [_ Hs]. apply Hs in Hb as (fl & cs & Hfl & Hl & Hb). destruct (afxs !! fl) as [sub|] eqn:El; [|done].
      eapply applies_next; try done. by apply (IH _ _ _ Hl).
    + subst s. by apply applies_rule.
  - intros Ha. destruct Ha as [afx rule root Hr Hm|afx rule root fl sub s Hr Hm Hfl Hl Hs].
    + destruct (Hall rule Hr) as [bs Hbs]. exists rule, bs. split; [done|]. split; [done|]. rewrite Hm in Hbs.
      destruct (collect _ (affixes rule)) as [subs| | |]; try done. cbn in Hbs. injection Hbs as <-. apply elem_of_app. right. by left.
    + destruct (Hall rule Hr) as [bs Hbs]. exists rule, bs. split; [done|]. split; [done|]. rewrite Hm in Hbs.
      destruct (collect _ (affixes rule)) as [subs| | |] eqn:Ec; try done. cbn in Hbs. injection Hbs as <-. apply elem_of_app. left.
      apply collect_Ok in Ec as [Hall' Hs']. apply Hs'. destruct (Hall' fl Hfl) as [cs Hcs]. exists fl, cs. split; [done|]. split; [done|].
      rewrite Hl in Hcs. by apply (IH _ _ _ Hcs).
Qed.

(** The stems of a stem with flags: those of its prefixes, those that suffixes make of these
    where both can be combined, and those of its suffixes. *)
Inductive derives (opts : affixOptions) (flags : list (list Z)) (e : Stem) : Stem -> Prop :=
| derives_pfx fl pfx s : fl ∈ flags -> prefixes opts !! fl = Some pfx -> applies (prefixes opts) pfx e s -> derives opts flags e s
| derives_cross fl pfx s fl' sfx t : fl ∈ flags -> prefixes opts !! fl = Some pfx -> isCrossProduct pfx = true -> applies (prefixes opts) pfx e s ->
    fl' ∈ flags -> suffixes opts !! fl' = Some sfx -> isCrossProduct sfx = true -> applies (suffixes opts) sfx s t -> derives opts flags e t
| derives_sfx fl sfx s : fl ∈ flags -> prefixes opts !! fl = None -> suffixes opts !! fl = Some sfx -> applies (suffixes opts) sfx e s -> derives opts flags e s.

Lemma applySuffixes_iff fuel opts flags stems r : applySuffixes fuel opts flags stems = Ok r -> forall t, t ∈ r <->
  exists s fl sfx, s ∈ stems /\ fl ∈ flags /\ suffixes opts !! fl = Some sfx /\ isCrossProduct sfx = true /\ applies (suffixes opts) sfx s t.
Proof.
  intros H t. unfold applySuffixes in H. apply collect_Ok in H as [Hall H]. rewrite H. clear H. split.
  - intros (s & bs & Hs & Hc & Ht). apply collect_Ok in Hc as [_ Hc]. apply Hc in Ht as (fl & cs & Hfl & Hf & Ht).
    destruct (suffixes opts !! fl) as [sfx|] eqn:El; [|by injection Hf as <-; apply not_elem_of_nil in Ht].
    destruct (isCrossProduct sfx) eqn:Ex; [|by injection Hf as <-; apply not_elem_of_nil in Ht].
    exists s, fl, sfx. split_and!; try done. by apply (apply_iff _ _ _ _ _ Hf).
  - intros (s & fl & sfx & Hs & Hfl & Hl & Hx & Ha). destruct (Hall s Hs) as [bs Hbs]. exists s, bs. split; [done|]. split; [done|].
    apply collect_Ok in Hbs as [Hall' Hbs]. apply Hbs. destruct (Hall' fl Hfl) as [cs Hcs]. exists fl, cs. split; [done|]. split; [done|].
    rewrite Hl, Hx in Hcs. by apply (apply_iff _ _ _ _ _ Hcs).
Qed.

Lemma derivatives_iff fuel opts flags e ds : collect (flag_derivatives fuel opts flags e) flags = Ok ds -> forall s, s ∈ ds <-> derives opts flags e s.
Proof.
  intros H s. apply collect_Ok in H as [Hall H]. rewrite H. clear H. split.
  - intros (fl & bs & Hfl & Hf & Hb). unfold flag_derivatives in Hf. destruct (prefixes opts !! fl) as [pfx|] eqn:Ep.
    + destruct (apply fuel (prefixes opts) pfx e) as [ss| | |] eqn:Ea; try done. cbn in Hf. destruct (isCrossProduct pfx) eqn:Ex.
      * destruct (applySuffixes fuel opts flags ss) as [cs| | |] eqn:Es; try done. cbn in Hf. injection Hf as <-.
        apply elem_of_app in Hb as [Hb|Hb]; [apply (derives_pfx _ _ _ fl pfx s); try done; by apply (apply_iff _ _ _ _ _ Ea)|].
        apply (applySuffixes_iff _ _ _ _ _ Es) in Hb as (s' & fl' & sfx & Hs' & Hfl' & Hl & Hx & Ht). apply (derives_cross _ _ _ fl pfx s' fl' sfx s); try done. by apply (apply_iff _ _ _ _ _ Ea).
      * injection Hf as <-. apply (derives_pfx _ _ _ fl pfx s); try done. by apply (apply_iff _ _ _ _ _ Ea).
    + destruct (suffixes opts !! fl) as [sfx|] eqn:Es; [|done]. apply (derives_sfx _ _ _ fl sfx s); try done. by apply (apply_iff _ _ _ _ _ Hf).
  - assert (Hpfx : forall fl pfx s, fl ∈ flags -> prefixes opts !! fl = Some pfx -> exists bs ss, flag_derivatives fuel opts flags e fl = Ok bs /\
      apply fuel (prefixes opts) pfx e = Ok ss /\ (s ∈ ss -> s ∈ bs) /\ (isCrossProduct pfx = true -> exists cs, applySuffixes fuel opts flags ss = Ok cs /\ forall t, t ∈ cs -> t ∈ bs)).
    { intros fl pfx u Hfl Hp. destruct (Hall fl Hfl) as [bs Hbs]. pose proof Hbs as Hf. unfold flag_derivatives in Hf. rewrite Hp in Hf.
      destruct (apply fuel (prefixes opts) pfx e) as [ss| | |] eqn:Ea; try done. cbn in Hf. destruct (isCrossProduct pfx).
      - destruct (applySuffixes fuel opts flags ss) as [cs| | |] eqn:Es; try done. cbn in Hf. injection Hf as <-. exists (ss ++ cs), ss.
        split_and!; [done|done|intros Hu; apply elem_of_app; by left|]. intros _. exists cs. split; [done|]. intros t Ht. apply elem_of_app. by right.
      - injection Hf as <-. exists ss, ss. by split_and!. }
    intros [fl pfx u Hfl Hp Ha|fl pfx u fl' sfx t Hfl Hp Hx Ha Hfl' Hs Hx' Ht|fl sfx u Hfl Hp Hs Ha].
    + destruct (Hpfx fl pfx u Hfl Hp) as (bs & ss & Hb & Hss & Hin & _). exists fl, bs. split_and!; try done. by apply Hin, (apply_iff _ _ _ _ _ Hss).
    + destruct (Hpfx fl pfx u Hfl Hp) as (bs & ss & Hb & Hss & _ & Hc). destruct (Hc Hx) as (cs & Hcs & Hin). exists fl, bs. split_and!; try done.
      apply Hin, (applySuffixes_iff _ _ _ _ _ Hcs). exists u, fl', sfx. split_and!; try done. by apply (apply_iff _ _ _ _ _ Hss).
    + destruct (Hall fl Hfl) as [bs Hbs]. exists fl, bs. split_and!; try done. unfold flag_derivatives in Hbs. rewrite Hp, Hs in Hbs. by apply (apply_iff _ _ _ _ _ Hbs).
Qed.

(** ** Reading a line ends *)

Lemma Token_shorter p tok sep p' : Token p = (tok, sep, p') -> tok <> [] -> (length (rest p') < length (rest p))%nat.
Proof.
  unfold Token. destruct (Nat.leb_spec (length (v p)) (x p)) as [|Hx]; [by intros [= <-]|].
  destruct (token_loop _ _ _) as [t [[i r]|]] eqn:Et; intros [= <- <- <-] _; unfold rest; cbn [put_at v x]; rewrite !length_drop; lia.
Qed.
Lemma SkipH_shorter p : (length (rest (SkipHorizontalSpaces p).2) <= length (rest p))%nat.
Proof.
  unfold SkipHorizontalSpaces. destruct (hspaces_loop _) as [[i r]|]; unfold rest; cbn [snd put_at v x]; rewrite !length_drop; lia.
Qed.
Lemma word_loop_ends rs : forall esc w, word_loop rs esc w <> NoFuel.
Proof. induction rs as [|[i c] rs IH]; intros esc w; cbn; [by destruct esc|]. destruct esc; repeat case_match; try done; apply IH. Qed.
Lemma morphs_loop_ends fuel : forall p stem, (length (rest p) < fuel)%nat -> morphs_loop fuel p stem <> NoFuel.
Proof.
  induction fuel as [|fuel IH]; intros p stem Hf; [lia|]. cbn [morphs_loop]. destruct (Token p) as [[tok sep] p'] eqn:Et. destruct tok as [|c tok]; [done|]. cbn [isnil].
  unfold isValidMorpheme, Atoi. pose proof (Token_shorter _ _ _ _ Et ltac:(done)). pose proof (SkipH_shorter p').
  repeat (case_match; cbn [mbind outcome_bind]; try done); apply IH; lia.
Qed.
Lemma words_loop_ends n : forall p stem k, (n + k = 3)%nat -> (0 < n)%nat -> words_loop n p stem k <> NoFuel.
Proof.
  induction n as [|n IH]; intros p stem k Hk Hn; [lia|]. cbn [words_loop]. destruct (Token p) as [[tok sep] p'] eqn:Et. destruct (isnil tok); [done|].
  unfold isValidMorpheme, Atoi, parseWordFlags. pose proof (word_loop_ends (range_runes tok) false []) as Hw.
  assert (Hrest : ('(word, flags) ← ('(v, sep) ← word_loop (range_runes tok) false [];
      match sep with None => Ok (text_of v, []) | Some O => Err ErrWord | Some e => Ok (text_of v, drop (e + 1) tok) end);
      let stem := put_flags (put_word stem ((if isnil (Word stem) then [] else Word stem ++ [32]) ++ word)) flags in
      if (2 <? S k)%nat then Err ErrWords
      else
        let p := (SkipHorizontalSpaces p').2 in
        if negb (isnil flags) then Ok (stem, Some p)
        else if sep =? 0 then Ok (stem, None)
        else words_loop n p stem (S k)) <> (NoFuel : outcome error _)).
  { destruct (word_loop _ _ _) as [[w [[|e]|]]| | |]; try done; cbn [mbind outcome_bind]; destruct (Nat.ltb_spec 2 (S k)); try done; cbn zeta.
    - destruct (negb _); [done|]. destruct (sep =? 0); [done|]. apply IH; lia.
    - cbn [isnil negb]. destruct (sep =? 0); [done|]. apply IH; lia. }
  destruct (index_byte 58 tok) as [[|]|]; cbn [mbind outcome_bind]; try done. destruct (ParseInt64 tok); cbn [mbind outcome_bind]; [done|exact Hrest].
Qed.
Lemma words_loop_rest n : forall p stem k s p', words_loop n p stem k = Ok (s, Some p') -> (length (rest p') <= length (rest p))%nat.
Proof.
  induction n as [|n IH]; intros p stem k s p' H; [done|]. cbn [words_loop] in H. destruct (Token p) as [[tok sep] p1] eqn:Et. destruct (isnil tok) eqn:En; [done|].
  pose proof (Token_shorter _ _ _ _ Et ltac:(by destruct tok)) as Hs. pose proof (SkipH_shorter p1) as Hh.
  destruct (isValidMorpheme tok) as [[|]| | |]; try done; cbn [mbind outcome_bind] in H; [injection H as _ <-; lia|].
  destruct (parseWordFlags tok) as [[w fl]| | |]; try done. cbn [mbind outcome_bind] in H. destruct (2 <? S k)%nat; [done|]. cbn zeta in H.
  destruct (negb _); [injection H as _ <-; lia|]. destruct (sep =? 0); [done|]. apply IH in H. lia.
Qed.
Lemma parseStem_ends line : parseStem line <> NoFuel.
Proof.
  destruct line as [|c line]; [done|]. unfold parseStem, stem_parse. set (l := c :: line). pose proof (words_loop_ends 3 (New l [32; 9]) (mkStem [] ∅ None [] [] false) 0 eq_refl ltac:(lia)) as Hw.
  destruct (words_loop _ _ _ _) as [[s [p|]]| | |] eqn:Ew; try done. cbn [mbind outcome_bind]. pose proof (words_loop_rest _ _ _ _ _ _ Ew) as Hr.
  pose proof (morphs_loop_ends (S (length l)) p s) as Hm. unfold rest at 2 in Hr. rewrite length_drop in Hr. cbn [v x New Load] in Hr.
  specialize (Hm ltac:(lia)). by destruct (morphs_loop _ _ _).
Qed.

(** ** The entry of a line *)

(** The stem of a line and its flags, before affixes are applied. *)
Definition prepare (opts : affixOptions) (stem : Stem) : outcome error (Stem * list (list Z)) :=
  c ← get_at (Word stem) 0;
  let '(word, forbidden) := if c =? 42 then (drop 1 (Word stem), true) else (Word stem, IsForbidden stem) in
  ms ← newMorphemes opts (rawMorphemes stem);
  raw ← expand_alias opts (rawFlags stem);
  flags ← unpackFlags (texts opts flag) raw;
  Ok (mkStem word ms (Parent stem) raw (rawMorphemes stem) forbidden, flags).
Lemma stem_unpack_prepare fuel opts stem :
  stem_unpack fuel opts stem = ('(e, flags) ← prepare opts stem; ds ← collect (flag_derivatives fuel opts flags e) flags; Ok (e, ds)).
Proof.
  unfold stem_unpack, prepare, stem_unpackFlags. destruct (get_at (Word stem) 0) as [c| | |]; try done. cbn [mbind outcome_bind].
  destruct (c =? 42); destruct (newMorphemes opts (rawMorphemes stem)); try done; cbn [mbind outcome_bind rawFlags];
    (destruct (expand_alias opts (rawFlags stem)) as [raw| | |]; try done; cbn [mbind outcome_bind]; destruct (unpackFlags (texts opts flag) raw); done).
Qed.
Lemma raw_morphs_ends am ms : raw_morphs am ms <> NoFuel.
Proof.
  induction ms as [|m ms IH]; [done|]. cbn [raw_morphs]. destruct (index_byte 58 m) as [[|]|]; [done| |].
  - by destruct (raw_morphs am ms).
  - destruct (_ =? _)%nat; [done|]. unfold Atoi. destruct (ParseInt64 m) as [i|]; [|done]. unfold alias_at, get_at.
    destruct (i <? 0); [done|]. destruct (_ !! _); [|done]. cbn [mbind outcome_bind]. by destruct (raw_morphs am ms).
Qed.
Lemma numbers_only_ends l : numbers_only l <> NoFuel.
Proof. induction l as [|f l IH]; [done|]. cbn [numbers_only]. destruct (Atoi _); try done. by destruct (numbers_only l). Qed.
Lemma unpackFlagLong_ends n : forall f, (length f <= n)%nat -> unpackFlagLong f <> NoFuel.
Proof. induction n as [|n IH]; intros [|a [|b f]] Hl; try done; [cbn in Hl; lia|]. cbn in *. specialize (IH f ltac:(lia)). by destruct (unpackFlagLong f). Qed.
Lemma prepare_ends opts stem : prepare opts stem <> NoFuel.
Proof.
  unfold prepare, get_at. destruct (Word stem !! 0%nat) as [c|]; [|done]. cbn [mbind outcome_bind].
  assert (H : (ms ← newMorphemes opts (rawMorphemes stem); raw ← expand_alias opts (rawFlags stem); flags ← unpackFlags (texts opts flag) raw; Ok (ms, raw, flags)) <> (NoFuel : outcome error _)).
  { unfold newMorphemes. pose proof (raw_morphs_ends (amAliases opts) (concat (Fields <$> rawMorphemes stem))). destruct (raw_morphs _ _); try done. cbn [mbind outcome_bind].
    unfold expand_alias, Atoi, alias_at, get_at. assert (Hu : forall r, unpackFlags (texts opts flag) r <> NoFuel).
    { intros r. unfold unpackFlags. repeat case_match; try done; [by apply (unpackFlagLong_ends (length r))|apply numbers_only_ends]. }
    repeat (case_match; cbn [mbind outcome_bind]; try done); match goal with |- context [unpackFlags ?a ?r] => specialize (Hu r); destruct (unpackFlags a r); done end. }
  destruct (c =? 42); destruct (newMorphemes _ _); try done; cbn [mbind outcome_bind] in *; destruct (expand_alias _ _); try done; cbn [mbind outcome_bind] in *; by destruct (unpackFlags _ _).
Qed.

(** ** The words of a dictionary *)

Section Dictionary.
Context `{U : Unicode} `{R : Regexp}.

Definition entry (opts : affixOptions) (line : list Z) (e : Stem) (flags : list (list Z)) : Prop :=
  exists raw, parseStem line = Ok (Some raw) /\ prepare opts raw = Ok (e, flags).
(** A stem that a line of the dictionary stands for, and a word that finds it. *)
Definition known (opts : affixOptions) (line : list Z) (s : Stem) : Prop :=
  exists e flags, entry opts line e flags /\ (s = e \/ derives opts flags e s).
Definition finds (w : list Z) (s : Stem) : Prop := w = Word s \/ w = text_ToUpper (Word s).
(** Every affix can be applied within [n] steps from affix to affix. *)
Definition bounded (n : nat) (opts : affixOptions) : Prop :=
  (forall fl afx, prefixes opts !! fl = Some afx -> depth_below (prefixes opts) n afx) /\
  (forall fl afx, suffixes opts !! fl = Some afx -> depth_below (suffixes opts) n afx).

Lemma flag_derivatives_ends n fuel opts flags e fl : bounded n opts -> (n <= fuel)%nat -> flag_derivatives fuel opts flags e fl <> NoFuel.
Proof.
  intros [Hp Hs] Hf. unfold flag_derivatives. destruct (prefixes opts !! fl) as [pfx|] eqn:Ep.
  - destruct (apply_total _ n fuel pfx e (Hp _ _ Ep) Hf) as [ss ->]. cbn [mbind outcome_bind]. destruct (isCrossProduct pfx); [|done].
    assert (Hc : exists r, applySuffixes fuel opts flags ss = Ok r).
    { apply collect_total. intros s _. apply collect_total. intros fl' _. destruct (suffixes opts !! fl') as [sfx|] eqn:Es; [|eauto].
      destruct (isCrossProduct sfx); [|eauto]. by apply (apply_total _ n fuel sfx s (Hs _ _ Es) Hf). }
    by destruct Hc as [r ->].
  - destruct (suffixes opts !! fl) as [sfx|] eqn:Es; [|done]. by destruct (apply_total _ n fuel sfx e (Hs _ _ Es) Hf) as [ss ->].
Qed.

Lemma add_stem_lookup m s w t : add_stem m s !! w = Some t -> (finds w t /\ t = s) \/ m !! w = Some t.
Proof.
  unfold add_stem. intros H. apply lookup_insert_Some in H as [[<- <-]|[_ H]]; [left; split; [by right|done]|].
  apply lookup_insert_Some in H as [[<- <-]|[_ H]]; [left; split; [by left|done]|by right].
Qed.
Lemma add_stem_known m s w : is_Some (add_stem m s !! w) <-> finds w s \/ is_Some (m !! w).
Proof.
  unfold add_stem, finds. split.
  - intros [t Ht]. apply add_stem_lookup in Ht as [[Ht ->]|Ht]; [by left|right; eauto].
  - intros H. destruct (decide (w = text_ToUpper (Word s))) as [->|H1]; [rewrite lookup_insert_eq; eauto|]. rewrite lookup_insert_ne by done.
    destruct (decide (w = Word s)) as [->|H2]; [rewrite lookup_insert_eq; eauto|]. rewrite lookup_insert_ne by done. naive_solver.
Qed.
Lemma add_stems_lookup ss : forall m w t, fold_left add_stem ss m !! w = Some t -> (t ∈ ss /\ finds w t) \/ m !! w = Some t.
Proof.
  induction ss as [|s ss IH]; intros m w t H; [by right|]. cbn in H. apply IH in H as [[H1 H2]|H]; [left; split; [by right|done]|].
  apply add_stem_lookup in H as [[H ->]|H]; [left; split; [by left|done]|by right].
Qed.
Lemma add_stems_known ss : forall m w, is_Some (fold_left add_stem ss m !! w) <-> (exists s, s ∈ ss /\ finds w s) \/ is_Some (m !! w).
Proof.
  induction ss as [|s ss IH]; intros m w; cbn.
  - split; [by right|]. intros [(s & ?%not_elem_of_nil & _)|?]; done.
  - rewrite IH, add_stem_known. setoid_rewrite elem_of_cons. naive_solver.
Qed.

(** One line: what it adds. *)
Lemma dict_line_spec fuel opts m line m' : dict_line fuel opts m line = Ok m' -> line <> [] ->
  (forall w, is_Some (m' !! w) <-> (exists s, known opts line s /\ finds w s) \/ is_Some (m !! w)) /\
  (forall w s, m' !! w = Some s -> (known opts line s /\ finds w s) \/ m !! w = Some s).
Proof.
  unfold dict_line. intros H Hne. destruct (parseStem line) as [[raw|]| | |] eqn:Ep; try done; cbn [mbind outcome_bind] in H.
  2:{ destruct line as [|c line]; [done|]. unfold parseStem in Ep. by destruct (stem_parse _ _). }
  rewrite stem_unpack_prepare in H. destruct (prepare opts raw) as [[e flags]| | |] eqn:Er; try done; cbn [mbind outcome_bind] in H.
  destruct (collect _ flags) as [ds| | |] eqn:Ec; try done; cbn [mbind outcome_bind] in H. injection H as <-.
  assert (He : forall s, s ∈ e :: ds <-> known opts line s).
  { intros s. rewrite elem_of_cons, (derivatives_iff _ _ _ _ _ Ec). split.
    - intros Hs. exists e, flags. split; [by exists raw|done].
    - intros (e' & flags' & (raw' & H1 & H2) & Hs). rewrite Ep in H1. injection H1 as <-. rewrite Er in H2. by injection H2 as <- <-. }
  split.
  - intros w. change (fold_left add_stem ds (add_stem m e)) with (fold_left add_stem (e :: ds) m). rewrite add_stems_known. by setoid_rewrite He.
  - intros w s Hw. change (fold_left add_stem ds (add_stem m e)) with (fold_left add_stem (e :: ds) m) in Hw.
    apply add_stems_lookup in Hw as [[H1 H2]|Hw]; [left; split; [by apply He|done]|by right].
Qed.
Lemma dict_line_ends n fuel opts m line : bounded n opts -> (n <= fuel)%nat -> dict_line fuel opts m line <> NoFuel.
Proof.
  intros Hb Hf. unfold dict_line. pose proof (parseStem_ends line) as Hp. destruct (parseStem line) as [[raw|]| | |]; try done; cbn [mbind outcome_bind].
  rewrite stem_unpack_prepare. pose proof (prepare_ends opts raw) as Hr. destruct (prepare opts raw) as [[e flags]| | |]; try done; cbn [mbind outcome_bind].
  pose proof (collect_ends (flag_derivatives fuel opts flags e) flags (fun fl _ => flag_derivatives_ends n fuel opts flags e fl Hb Hf)) as Hc.
  by destruct (collect _ _).
Qed.

Lemma dict_lines_spec fuel opts lines : forall m m', dict_lines fuel opts m lines = Ok m' -> Forall (.≠ []) lines ->
  (forall w, is_Some (m' !! w) <-> (exists line s, line ∈ lines /\ known opts line s /\ finds w s) \/ is_Some (m !! w)) /\
  (forall w s, m' !! w = Some s -> (exists line, line ∈ lines /\ known opts line s /\ finds w s) \/ m !! w = Some s).
Proof.
  induction lines as [|l lines IH]; intros m m' H Hne; cbn in H.
  - injection H as <-. split; [|by right]. intros w. split; [by right|]. intros [(line & s & ?%not_elem_of_nil & _)|?]; done.
  - apply Forall_cons in Hne as [Hl Hne]. destruct (dict_line fuel opts m l) as [m1| | |] eqn:El; try done. cbn [mbind outcome_bind] in H.
    destruct (dict_line_spec _ _ _ _ _ El Hl) as [H1 H2]. destruct (IH _ _ H Hne) as [H3 H4]. split.
    + intros w. rewrite H3, H1. setoid_rewrite elem_of_cons. naive_solver.
    + intros w s Hw. apply H4 in Hw as [(line & ? & ? & ?)|Hw]; [left; exists line; split; [by right|done]|].
      apply H2 in Hw as [[? ?]|Hw]; [left; exists l; split; [by left|done]|by right].
Qed.
Lemma dict_lines_end n fuel opts lines : bounded n opts -> (n <= fuel)%nat -> forall m, dict_lines fuel opts m lines <> NoFuel.
Proof.
  intros Hb Hf. induction lines as [|l lines IH]; intros m; [done|]. cbn. pose proof (dict_line_ends n fuel opts m l Hb Hf) as Hl.
  destruct (dict_line fuel opts m l); try done. apply IH.
Qed.

(** The lines that hold words. *)
Definition word_lines (content : list Z) : list (list Z) := drop 1 (lines_of content).

Lemma dict_load_words n fuel opts content : bounded n opts -> (n <= fuel)%nat ->
  dict_load fuel opts ∅ content <> NoFuel /\
  forall m, dict_load fuel opts ∅ content = Ok m ->
    (forall w, is_Some (m !! w) <-> exists line s, line ∈ word_lines content /\ known opts line s /\ finds w s) /\
    (forall w s, m !! w = Some s -> exists line, line ∈ word_lines content /\ known opts line s /\ finds w s).
Proof.
  intros Hb Hf. unfold dict_load, word_lines. rewrite Lines_are. cbn [fst]. change (rest (New content [])) with content.
  assert (Hne : Forall (.≠ []) (lines_of content)) by (apply Forall_forall; intros l Hl; unfold lines_of in Hl; by apply list_elem_of_filter in Hl as [? _]).
  destruct (lines_of content) as [|count lines]; [split; [done|by intros]|]. unfold Atoi. destruct (ParseInt64 count); cbn [mbind outcome_bind]; [|split; [done|by intros]].
  split; [by apply (dict_lines_end n)|]. intros m Hm. apply Forall_cons in Hne as [_ Hne]. destruct (dict_lines_spec _ _ _ _ _ Hm Hne) as [H1 H2]. cbn [drop]. rewrite drop_0. split.
  - intros w. rewrite H1, lookup_empty. split; [intros [?|[? ?]]; done|by left].
  - intros w s Hw. apply H2 in Hw as [?|?]; done.
Qed.

(** C15: A dictionary knows exactly the words that its lines and the affixes make.  With
    affixes that can be applied in [n] steps, loading a text ends; and if it gives a
    dictionary, a word is found in it if and only if, as it is or in upper case, it is the
    word of a line behind the first one or of a stem that the prefixes and suffixes of the
    flags of such a line derive from it, a suffix also from a prefixed word where both can be
    combined; and what is found for a word is such a stem of it. *)
Theorem dict_words n fuel opts content : bounded n opts -> (n <= fuel)%nat ->
  dict_load fuel opts ∅ content <> NoFuel /\
  forall m, dict_load fuel opts ∅ content = Ok m ->
    (forall w, is_Some (m !! w) <-> exists line s, line ∈ word_lines content /\ known opts line s /\ finds w s) /\
    (forall w s, m !! w = Some s -> exists line, line ∈ word_lines content /\ known opts line s /\ finds w s).
Proof. by apply dict_load_words. Qed.

(** ** Back to the line *)

Definition root (s : Stem) : Stem := default s (last (ancestors s)).
Lemma root_new r w ms : root (newStem r w ms) = root r.
Proof. unfold root. change (ancestors (newStem r w ms)) with (r :: ancestors r). rewrite last_cons. by destruct (last (ancestors r)). Qed.
Lemma applies_root afxs afx r s : applies afxs afx r s -> root s = root r.
Proof. induction 1 as [afx rule r Hr Hm|afx rule r fl sub s Hr Hm Hfl Hl Ha IH]; [apply root_new|]. rewrite IH. apply root_new. Qed.
Lemma derives_root opts flags e s : derives opts flags e s -> root s = root e.
Proof. intros [fl pfx u _ _ Ha|fl pfx u fl' sfx t _ _ _ Ha _ _ _ Hb|fl sfx u _ _ _ Ha]; apply applies_root in Ha; [done| |done]. apply applies_root in Hb. congruence. Qed.

Lemma fold_ancestors ps k v : forall m, (forall e, last ps = Some e -> Stem_Morphemes e !! k = Some v) -> (ps = [] -> m !! k = Some v) ->
  fold_left (fun m p => Stem_Morphemes p ∪ m) ps m !! k = Some v.
Proof.
  induction ps as [|p ps IH]; intros m He Hm; [by apply Hm|]. cbn. apply IH.
  - intros e Hl. apply He. rewrite last_cons. by rewrite Hl.
  - intros ->. apply lookup_union_Some_l. by apply He.
Qed.
Lemma Analyze_root s : stem_Analyze s !! str "st" = Some (Word (root s)) /\
  forall k v, k <> str "st" -> Stem_Morphemes (root s) !! k = Some v -> stem_Analyze s !! k = Some v.
Proof.
  unfold stem_Analyze. split; [by rewrite lookup_insert_eq|]. intros k v Hk Hv. rewrite lookup_insert_ne by done. apply fold_ancestors.
  - intros e He. unfold root in Hv. by rewrite He in Hv.
  - intros Hn. unfold root in Hv. by rewrite Hn in Hv.
Qed.

Lemma prepare_parent opts raw e flags : prepare opts raw = Ok (e, flags) -> Parent e = Parent raw.
Proof.
  unfold prepare. destruct (get_at (Word raw) 0) as [c| | |]; try done. cbn [mbind outcome_bind].
  destruct (c =? 42); destruct (newMorphemes _ _); try done; cbn [mbind outcome_bind]; destruct (expand_alias _ _); try done; cbn [mbind outcome_bind];
    destruct (unpackFlags _ _); try done; cbn [mbind outcome_bind]; by intros [= <- <-].
Qed.
Lemma words_loop_parent n : forall p stem k s o, words_loop n p stem k = Ok (s, o) -> Parent s = Parent stem.
Proof.
  induction n as [|n IH]; intros p stem k s o H; [done|]. cbn [words_loop] in H. destruct (Token p) as [[tok sep] p1]. destruct (isnil tok); [by injection H as <- _|].
  destruct (isValidMorpheme tok) as [[|]| | |]; try done; cbn [mbind outcome_bind] in H; [by injection H as <- _|].
  destruct (parseWordFlags tok) as [[w fl]| | |]; try done. cbn [mbind outcome_bind] in H. destruct (2 <? S k)%nat; [done|]. cbn zeta in H.
  destruct (negb _); [by injection H as <- _|]. destruct (sep =? 0); [by injection H as <- _|]. by apply IH in H.
Qed.
Lemma morphs_loop_parent n : forall p stem s, morphs_loop n p stem = Ok s -> Parent s = Parent stem.
Proof.
  induction n as [|n IH]; intros p stem s H; [done|]. cbn [morphs_loop] in H. destruct (Token p) as [[tok sep] p1]. destruct (isnil tok); [by injection H as <-|].
  destruct (isValidMorpheme tok) as [[|]| | |]; try done. cbn [mbind outcome_bind] in H. by apply IH in H.
Qed.
Lemma parseStem_parent line raw : parseStem line = Ok (Some raw) -> Parent raw = None.
Proof.
  destruct line as [|c line]; [done|]. unfold parseStem, stem_parse. destruct (words_loop _ _ _ _) as [[s [p|]]| | |] eqn:Ew; try done; cbn [mbind outcome_bind].
  - destruct (morphs_loop _ _ _) as [s'| | |] eqn:Em; try done. cbn [mbind outcome_bind]. intros [= <-]. rewrite (morphs_loop_parent _ _ _ _ Em). by apply words_loop_parent in Ew.
  - intros [= <-]. by apply words_loop_parent in Ew.
Qed.
Lemma entry_root opts line e flags : entry opts line e flags -> root e = e.
Proof.
  intros (raw & Hp & Hr). apply parseStem_parent in Hp. apply prepare_parent in Hr. rewrite Hp in Hr. unfold root. destruct e as [w m p r rm f]. cbn in Hr. by subst p.
Qed.

(** Looking a word up leads back to a line of the dictionary.  For every word that is
    known, the analysis gives as its stem the word of the line that it comes from, and
    every morpheme of that line with the value that the line has. *)
Theorem analyze_leads_back n fuel opts content m w : bounded n opts -> (n <= fuel)%nat -> dict_load fuel opts ∅ content = Ok m ->
  is_Some (m !! w) -> exists line e flags a, line ∈ word_lines content /\ entry opts line e flags /\
    spell_Analyze (mkSpell opts m) w = Some a /\ a !! str "st" = Some (Word e) /\
    forall k v, k <> str "st" -> Stem_Morphemes e !! k = Some v -> a !! k = Some v.
Proof.
  intros Hb Hf Hm [s Hs]. destruct (proj2 (proj2 (dict_load_words n fuel opts content Hb Hf) m Hm) w s Hs) as (line & Hl & (e & flags & He & Hd) & _).
  exists line, e, flags, (stem_Analyze s). assert (Hr : root s = e).
  { destruct Hd as [->|Hd]; [by eapply entry_root|]. rewrite (derives_root _ _ _ _ Hd). by eapply entry_root. }
  unfold spell_Analyze. cbn [dict]. rewrite Hs. destruct (Analyze_root s) as [H1 H2]. rewrite Hr in *. by split_and!.
Qed.
End Dictionary.

(** ** The affixes of rules are there *)

Definition closed_map (prefix : bool) (afxs : gmap (list Z) affix) : Prop :=
  forall fl afx, afxs !! fl = Some afx -> isPrefix afx = prefix /\ forall rule sub, rule ∈ rules afx -> sub ∈ affixes rule -> is_Some (afxs !! sub).
Definition closed (opts : affixOptions) : Prop := closed_map true (prefixes opts) /\ closed_map false (suffixes opts).

(** Takes the making of options apart, to see that the affixes are the same. *)
Ltac same_by H := repeat first [bind_inv H | case_match; simplify_eq/=]; by (simplify_eq/=; split).

Section Closed.
Context `{U : Unicode} `{R : Regexp}.

Definition same_affixes (o o' : affixOptions) : Prop := prefixes o' = prefixes o /\ suffixes o' = suffixes o.

Lemma known_flags_in afxs flags fs : known_flags afxs flags = Ok fs -> forall fl, fl ∈ fs -> is_Some (afxs !! fl).
Proof.
  revert fs. induction flags as [|s flags IH]; intros fs H fl Hfl; cbn in H; [injection H as <-; by apply not_elem_of_nil in Hfl|].
  destruct (afxs !! s) eqn:Es; [|done]. destruct (known_flags afxs flags) as [gs| | |]; try done. cbn in H. injection H as <-.
  apply elem_of_cons in Hfl as [->|Hfl]; [by rewrite Es|by eapply IH].
Qed.
Lemma newAffixRule_in opts prefix strip text cond ms r : newAffixRule opts prefix strip text cond ms = Ok r ->
  forall fl, fl ∈ affixes r -> is_Some ((if prefix then prefixes opts else suffixes opts) !! fl).
Proof.
  intros H fl Hfl. unfold newAffixRule in H. destruct (newMorphemes opts ms) as [m| | |]; try done. cbn [mbind outcome_bind] in H.
  set (afxs := if prefix then prefixes opts else suffixes opts) in *.
  assert (Hin : forall t raw fs, (if bool_decide (text = str "0") then Ok ([], [], []) else match Split 47 text with
      | t :: raw :: _ => r ← rule_unpackFlags opts afxs raw; Ok (t, r.1, r.2) | t :: _ => Ok (t, [], []) | [] => Ok ([], [], []) end) = (Ok (t, raw, fs) : outcome error _) ->
    fl ∈ fs -> is_Some (afxs !! fl)).
  { clear H. intros t raw fs Ht Hf. destruct (bool_decide (text = str "0")); [by simplify_eq/=; apply not_elem_of_nil in Hf|].
    destruct (Split 47 text) as [|t' [|raw' l]]; [by simplify_eq/=; apply not_elem_of_nil in Hf|by simplify_eq/=; apply not_elem_of_nil in Hf|].
    unfold rule_unpackFlags in Ht. destruct (expand_alias opts raw') as [raw2| | |]; try done. cbn [mbind outcome_bind] in Ht.
    destruct (unpackFlags (texts opts flag) raw2) as [flags| | |]; try done. cbn [mbind outcome_bind] in Ht.
    destruct (known_flags afxs flags) as [gs| | |] eqn:Ek; try done. cbn [mbind outcome_bind fst snd] in Ht. injection Ht as <- <- <-. by eapply known_flags_in. }
  destruct (if bool_decide (text = str "0") then _ else _) as [[[t raw] fs]| | |]; try done. cbn [mbind outcome_bind] in H.
  destruct (rule_condition prefix cond); try done. cbn [mbind outcome_bind] in H. injection H as <-. by eapply Hin.
Qed.

Lemma parse_affix_closed opts prefix args m : closed_map prefix (if prefix then prefixes opts else suffixes opts) ->
  parse_affix opts prefix (if prefix then prefixes opts else suffixes opts) args = Ok m -> closed_map prefix m.
Proof.
  set (afxs := if prefix then prefixes opts else suffixes opts). intros Hc H. unfold parse_affix in H.
  destruct (get_at args 0) as [fl| | |]; try done. cbn [mbind outcome_bind] in H. destruct (isValidFlag opts fl); try done. cbn [mbind outcome_bind] in H.
  assert (Hkeep : forall afx, isPrefix afx = prefix -> (forall rule sub, rule ∈ rules afx -> sub ∈ affixes rule -> is_Some (afxs !! sub)) -> closed_map prefix (<[fl := afx]> afxs)).
  { intros nafx Hp Hs g gafx Hg. assert (Hsome : forall sub, is_Some (afxs !! sub) -> is_Some (<[fl := nafx]> afxs !! sub)).
    { intros sub Hsub. destruct (decide (sub = fl)) as [->|Hne]; [rewrite lookup_insert_eq; eauto|by rewrite lookup_insert_ne]. }
    apply lookup_insert_Some in Hg as [[<- <-]|[_ Hg]]; [split; [done|]; intros rule sub H1 H2; by eapply Hsome, Hs|].
    destruct (Hc g gafx Hg) as [H1 H2]. split; [done|]. intros rule sub H3 H4. by eapply Hsome, H2. }
  destruct (afxs !! fl) as [afx|] eqn:Ef.
  - destruct (get_at args 1) as [strip| | |]; try done. cbn [mbind outcome_bind] in H. destruct (get_at args 2) as [text| | |]; try done. cbn [mbind outcome_bind] in H.
    unfold addRule in H. destruct (newAffixRule opts (isPrefix afx) strip text (default [] (args !! 3%nat)) (drop 4 args)) as [r| | |] eqn:Er; try done. cbn [mbind outcome_bind] in H. injection H as <-.
    destruct (Hc fl afx Ef) as [Hp Hs]. apply Hkeep; cbn [isPrefix rules]; [done|]. intros rule sub [Hr|Hr%list_elem_of_singleton]%elem_of_app Hsub; [by eapply Hs|]. subst rule.
    rewrite Hp in Er. by eapply newAffixRule_in.
  - destruct (get_at args 1) as [c| | |]; try done. cbn [mbind outcome_bind] in H. destruct (get_at args 2) as [arg| | |]; try done. cbn [mbind outcome_bind] in H.
    destruct (Atoi arg) as [n| | |]; try done. cbn [mbind outcome_bind] in H. unfold newAffix in H. destruct (make_slice 8 n); try done. cbn [mbind outcome_bind] in H. injection H as <-.
    apply Hkeep; cbn [isPrefix rules]; [done|]. intros rule sub Hr%not_elem_of_nil. done.
Qed.

(** The other options leave the affixes as they are. *)
Lemma parseAF_same opts arg o : parseAF opts arg = Ok o -> same_affixes opts o.
Proof. unfold parseAF. intros H. same_by H. Qed.
Lemma parseAM_same opts args o : parseAM opts args = Ok o -> same_affixes opts o.
Proof. unfold parseAM. intros H. same_by H. Qed.
Lemma parseRep_same opts args o : parseRep opts args = Ok o -> same_affixes opts o.
Proof. unfold parseRep. intros H. same_by H. Qed.
Lemma parseMap_same opts arg o : parseMap opts arg = Ok o -> same_affixes opts o.
Proof. unfold parseMap. intros H. same_by H. Qed.
Lemma parseBreak_same opts arg o : parseBreak opts arg = Ok o -> same_affixes opts o.
Proof. unfold parseBreak. intros H. same_by H. Qed.
Lemma parseCompoundRule_same opts arg o : parseCompoundRule opts arg = Ok o -> same_affixes opts o.
Proof. unfold parseCompoundRule. intros H. same_by H. Qed.
Lemma parsePattern_same opts args o : parseCheckCompoundPattern opts args = Ok o -> same_affixes opts o.
Proof. unfold parseCheckCompoundPattern. intros H. same_by H. Qed.
Lemma parseIconv_same opts args o : parseIconv opts args = Ok o -> same_affixes opts o.
Proof. unfold parseIconv. intros H. bind_inv H. injection H as <-. by split. Qed.
Lemma parseOconv_same opts args o : parseOconv opts args = Ok o -> same_affixes opts o.
Proof. unfold parseOconv. intros H. bind_inv H. injection H as <-. by split. Qed.
Lemma parseSet_same opts args : same_affixes opts (parseSet opts args).
Proof. destruct args; [by split|]. cbn. by destruct (bool_decide _). Qed.
Lemma parseFlag_same opts fl : same_affixes opts (parseFlag opts fl).
Proof. unfold parseFlag. cbn. by destruct (bool_decide _). Qed.
Lemma same_closed o o' : closed o -> same_affixes o o' -> closed o'.
Proof. intros Hc [H1 H2]. unfold closed. by rewrite H1, H2. Qed.

Lemma parse_named_closed opts w opt args o : closed opts -> parse_named opts w opt args = Ok o -> closed o.
Proof.
  intros Hc H. unfold parse_named in H.
  repeat match type of H with context [if bool_decide ?P then _ else _] => destruct (bool_decide P) end.
  all: try (destruct (length args <? 2)%nat; [done|]); try (destruct (length args =? 2)%nat; [|done]).
  all: first [ solve [apply (same_closed opts); [done|]; repeat bind_inv H;
      first [eapply parseAF_same, H | eapply parseAM_same, H | eapply parseRep_same, H | eapply parseMap_same, H | eapply parseBreak_same, H
        | eapply parseCompoundRule_same, H | eapply parsePattern_same, H | eapply parseIconv_same, H | eapply parseOconv_same, H
        | injection H as <-; first [apply parseSet_same | apply parseFlag_same | by split] ]]
    | idtac ].
  - destruct args as [|a [|b [|]]]; try done. apply (same_closed opts); [done|]. bind_inv H. injection H as <-. by split.
  - destruct Hc as [H1 H2]. unfold parsePfx in H. bind_inv H. injection H as <-. split; [|exact H2]. by eapply (parse_affix_closed opts true).
  - destruct Hc as [H1 H2]. unfold parseSfx in H. bind_inv H. injection H as <-. split; [exact H1|]. by eapply (parse_affix_closed opts false).
Qed.
Lemma parse_option_closed opts w opt args o : closed opts -> parse_option opts w opt args = Ok o -> closed o.
Proof.
  intros Hc H. unfold parse_option in H.
  destruct (named switch_names opt); [injection H as <-; exact Hc|].
  destruct (named text_names opt); [bind_inv H; injection H as <-; exact Hc|].
  destruct (named free_text_names opt); [bind_inv H; injection H as <-; exact Hc|].
  destruct (named number_names opt); [repeat bind_inv H; injection H as <-; exact Hc|].
  destruct (named free_number_names opt); [repeat bind_inv H; injection H as <-; exact Hc|]. by eapply parse_named_closed.
Qed.
Lemma load_lines_closed lines : forall opts o, closed opts -> load_lines opts lines = Ok o -> closed o.
Proof.
  induction lines as [|l lines IH]; intros opts o Hc H; cbn in H; [by injection H as <-|]. bind_inv H. apply (IH _ _) in H; [done|].
  unfold load_line in Hx. bind_inv Hx. case_match; [by injection Hx as <-|]. bind_inv Hx. by eapply parse_option_closed.
Qed.

(** C20: Whatever an affix file holds, once it is loaded an affix is of the kind of its map,
    and every affix that a rule refers to is in the map of that kind; so no rule leads
    to an affix that is not there. *)
Theorem load_closed opts content o : closed opts -> load opts content = Ok o -> closed o.
Proof. intros Hc H. by eapply load_lines_closed. Qed.
End Closed.

(** ** How far rules lead *)

Fixpoint depth_belowb (afxs : gmap (list Z) affix) (n : nat) (afx : affix) : bool :=
  match n with
  | O => false
  | S n => forallb (fun rule => forallb (fun fl => match afxs !! fl with Some sub => depth_belowb afxs n sub | None => false end) (affixes rule)) (rules afx)
  end.
Lemma depth_belowb_ok afxs n : forall afx, depth_belowb afxs n afx = true -> depth_below afxs n afx.
Proof.
  induction n as [|n IH]; intros afx H; [done|]. intros rule fl Hr Hfl. cbn in H. rewrite forallb_forall in H.
  specialize (H rule (proj1 (list_elem_of_In _ _) Hr)). rewrite forallb_forall in H. specialize (H fl (proj1 (list_elem_of_In _ _) Hfl)).
  destruct (afxs !! fl) as [sub|]; [|done]. exists sub. split; [done|]. by apply IH.
Qed.
Definition boundedb (n : nat) (opts : affixOptions) : bool :=
  forallb (fun x => depth_belowb (prefixes opts) n x.2) (map_to_list (prefixes opts)) && forallb (fun x => depth_belowb (suffixes opts) n x.2) (map_to_list (suffixes opts)).
Lemma boundedb_ok n opts : boundedb n opts = true -> bounded n opts.
Proof.
  intros [Hp Hs]%andb_true_iff. rewrite forallb_forall in Hp, Hs. split; intros fl afx H; apply depth_belowb_ok.
  - apply (Hp (fl, afx)), list_elem_of_In, elem_of_map_to_list, H.
  - apply (Hs (fl, afx)), list_elem_of_In, elem_of_map_to_list, H.
Qed.

(** ** A concrete dictionary, and what goes wrong *)

Definition demo_options : affixOptions :=
  match load (H := ascii_tables) (H0 := simple_regexp) default_options demo_aff with Ok o => o | _ => default_options end.
Definition demo_dict : gmap (list Z) Stem :=
  match dict_load (H := ascii_tables) 2 demo_options ∅ demo_dic with Ok m => m | _ => ∅ end.
Lemma demo_bounded : bounded 1 demo_options.
Proof. apply boundedb_ok. vm_compute. reflexivity. Qed.
Lemma demo_loads : dict_load (H := ascii_tables) 2 demo_options ∅ demo_dic = Ok demo_dict.
Proof. vm_compute. reflexivity. Qed.

Lemma dict_words_witness : exists line s, line ∈ word_lines demo_dic /\ known demo_options line s /\ finds (U := ascii_tables) (str "REWORKED") s.
Proof.
  destruct (dict_words (U := ascii_tables) 1 2 demo_options demo_dic demo_bounded ltac:(lia)) as [_ H].
  apply (H demo_dict demo_loads). vm_compute. eauto.
Defined.
Lemma analyze_leads_back_witness : exists line e flags a, line ∈ word_lines demo_dic /\ entry demo_options line e flags /\
  spell_Analyze (mkSpell demo_options demo_dict) (str "reworked") = Some a /\ a !! str "st" = Some (Word e) /\
  forall k v, k <> str "st" -> Stem_Morphemes e !! k = Some v -> a !! k = Some v.
Proof. apply (analyze_leads_back (U := ascii_tables) 1 2 demo_options demo_dic demo_dict (str "reworked") demo_bounded ltac:(lia) demo_loads). vm_compute. eauto. Defined.
Lemma closed_default : closed default_options.
Proof. split; intros fl afx H; cbn [prefixes suffixes default_options] in H; by rewrite lookup_empty in H. Qed.
Lemma load_closed_witness : closed demo_options.
Proof.
  apply (load_closed (U := ascii_tables) (R := simple_regexp) default_options demo_aff demo_options closed_default). vm_compute. reflexivity.
Defined.

(** A file that is loaded with no options before it. *)
Definition loads (aff : list Z) : outcome error affixOptions := load (H := ascii_tables) (H0 := simple_regexp) default_options aff.
Definition loads_words (aff dic : list Z) : outcome error (gmap (list Z) Stem) :=
  opts ← loads aff; dict_load (H := ascii_tables) 5 opts ∅ dic.

Lemma apply_self afxs afx rule more fl others : rules afx = rule :: more -> condition rule = None -> affixes rule = fl :: others -> afxs !! fl = Some afx ->
  forall fuel root, apply fuel afxs afx root = NoFuel.
Proof.
  intros Hr Hc Ha Hl fuel. induction fuel as [|fuel IH]; intros root; [done|]. cbn [apply]. rewrite Hr. cbn [collect]. unfold matches. rewrite Hc, Ha.
  cbn [collect]. by rewrite Hl, IH.
Qed.
(** A rule may hold the affix that it is of; applying that never ends. *)
Example affix_of_itself : exists opts afx, loads (str "SFX A Y 1" ++ nl ++ str "SFX A 0 x/A" ++ nl) = Ok opts /\ suffixes opts !! str "A" = Some afx /\
  forall fuel root, apply fuel (suffixes opts) afx root = NoFuel.
Proof. eexists _, _. split; [vm_compute; reflexivity|]. split; [reflexivity|]. intros fuel root. by eapply apply_self. Qed.
(** A header or a rule with two arguments passes the check of their number, and panics. *)
Example two_arguments_panic : loads (str "PFX A Y" ++ nl) = Panic.
Proof. vm_compute. reflexivity. Qed.
(** An alias that is not there, a line without a word, and a line of a vertical tab panic. *)
Example alias_panics : loads_words (str "AF 1" ++ nl ++ str "AF B" ++ nl) (str "1" ++ nl ++ str "word/7" ++ nl) = Panic.
Proof. vm_compute. reflexivity. Qed.
Example no_word_panics : loads_words [] (str "1" ++ nl ++ str "po:noun" ++ nl) = Panic.
Proof. vm_compute. reflexivity. Qed.
Example blank_line_panics : loads ([11] ++ nl) = Panic.
Proof. vm_compute. reflexivity. Qed.
(** Files with these options are not loaded: the number of the patterns is looked for in the
    name of the option, and that of the conversions needs an argument more. *)
Example pattern_fails : loads (str "CHECKCOMPOUNDPATTERN 2" ++ nl) = Err ErrNumber.
Proof. vm_compute. reflexivity. Qed.
Example oconv_fails : loads (str "OCONV 2" ++ nl) = Err ErrArguments.
Proof. vm_compute. reflexivity. Qed.
(** With flags that are numbers, a word needs one. *)
Example plain_word_fails : loads_words (str "FLAG num" ++ nl) (str "1" ++ nl ++ str "word" ++ nl) = Err ErrFlag.
Proof. vm_compute. reflexivity. Qed.
