(* ===== verification/NetIP.v ===== *)
(** Standard library [net]: the text of IP addresses ([ParseIP], [IP.To4],
    [IP.String]), as of Go 1.13, the version of the module.  An address is the
    list of its bytes, 4 or 16 of them. *)

From Stdlib Require Import ZArith Lia.
From S2P Require Import Prelude Ascii Strconv.

Local Open Scope Z_scope.

(** Decimal digits at the start of [s]: the number and what follows; [None]
    when there is none or the number is too big. *)
Fixpoint dtoi_from (s : list Z) (n : Z) (k : nat) : option (Z * list Z) :=
  match s with
  | c :: s' =>
      if IsDigit c then
        let n := n * 10 + (c - 48) in
        if 16777215 <=? n then None else dtoi_from s' n (S k)
      else if decide (k = 0%nat) then None else Some (n, s)
  | [] => if decide (k = 0%nat) then None else Some (n, s)
  end.
Definition dtoi (s : list Z) : option (Z * list Z) := dtoi_from s 0 0.

Definition v4InV6Prefix : list Z := [0; 0; 0; 0; 0; 0; 0; 0; 0; 0; 255; 255].

(** The four numbers of an IPv4 address. *)
Fixpoint ipv4_parts (k : nat) (first : bool) (s : list Z) : option (list Z * list Z) :=
  match k with
  | O => Some ([], s)
  | S k =>
      s ← (if first then (match s with [] => None | _ => Some s end)
           else match s with c :: s => if c =? 46 then Some s else None | [] => None end);
      '(n, s) ← dtoi s;
      if 255 <? n then None
      else '(p, s) ← ipv4_parts k false s; Some (n :: p, s)
  end.

Definition parseIPv4 (s : list Z) : option (list Z) :=
  '(p, s) ← ipv4_parts 4 true s;
  match s with [] => Some (v4InV6Prefix ++ p) | _ => None end.

Definition hex_value (c : Z) : option Z :=
  if IsDigit c then Some (c - 48)
  else if (97 <=? c) && (c <=? 102) then Some (c - 87)
  else if (65 <=? c) && (c <=? 70) then Some (c - 55)
  else None.

Fixpoint xtoi_from (s : list Z) (n : Z) (k : nat) : option (Z * list Z) :=
  match s with
  | c :: s' =>
      match hex_value c with
      | Some v =>
          let n := n * 16 + v in
          if 16777215 <=? n then None else xtoi_from s' n (S k)
      | None => if decide (k = 0%nat) then None else Some (n, s)
      end
  | [] => if decide (k = 0%nat) then None else Some (n, s)
  end.

(** The groups of an IPv6 address: the bytes so far and the place of the
    ellipsis, which must be filled up to 16 bytes. *)
Fixpoint ipv6_groups (fuel : nat) (s : list Z) (ip : list Z) (ellipsis : option nat)
    : option (list Z * option nat * list Z) :=
  match fuel with
  | O => Some (ip, ellipsis, s)
  | S fuel =>
      if decide (16 <= length ip)%nat then Some (ip, ellipsis, s)
      else
        match xtoi_from s 0 0 with
        | None => None
        | Some (n, s') =>
            if 65535 <? n then None
            else
              match s' with
              | 46 :: _ =>
                  if bool_decide (ellipsis = None /\ length ip ≠ 12%nat) then None
                  else if decide (16 < length ip + 4)%nat then None
                  else
                    match parseIPv4 s with
                    | None => None
                    | Some ip4 => Some (ip ++ drop 12 ip4, ellipsis, [])
                    end
              | _ =>
                  let ip := ip ++ [Z.shiftr n 8; Z.land n 255] in
                  match s' with
                  | [] => Some (ip, ellipsis, [])
                  | c :: s' =>
                      if negb (c =? 58) || bool_decide (s' = []) then None
                      else
                        match s' with
                        | 58 :: s' =>
                            if bool_decide (ellipsis ≠ None) then None
                            else
                              match s' with
                              | [] => Some (ip, Some (length ip), [])
                              | _ => ipv6_groups fuel s' ip (Some (length ip))
                              end
                        | _ => ipv6_groups fuel s' ip ellipsis
                        end
                  end
              end
        end
  end.

Definition parseIPv6 (s : list Z) : option (list Z) :=
  let start :=
    match s with
    | 58 :: 58 :: s' => (s', Some 0%nat)
    | _ => (s, None)
    end in
  match start with
  | ([], Some _) => Some (replicate 16 0)
  | (s, ellipsis) =>
      match ipv6_groups 8 s [] ellipsis with
      | None => None
      | Some (ip, ellipsis, s) =>
          if bool_decide (s ≠ []) then None
          else if decide (length ip < 16)%nat then
            match ellipsis with
            | None => None
            | Some e => Some (take e ip ++ replicate (16 - length ip) 0 ++ drop e ip)
            end
          else if bool_decide (ellipsis ≠ None) then None else Some ip
      end
  end.

(** [net.ParseIP]: the first dot or colon decides. *)
Fixpoint ip_kind (s : list Z) : option bool :=
  match s with
  | [] => None
  | c :: s => if c =? 46 then Some true else if c =? 58 then Some false else ip_kind s
  end.

Definition ParseIP (s : list Z) : option (list Z) :=
  match ip_kind s with
  | Some true => parseIPv4 s
  | Some false => parseIPv6 s
  | None => None
  end.

(** [IP.To4]. *)
Definition To4 (ip : list Z) : option (list Z) :=
  if decide (length ip = 4%nat) then Some ip
  else if bool_decide (length ip = 16%nat /\ take 12 ip = v4InV6Prefix) then Some (drop 12 ip)
  else None.

Definition dotted (ip : list Z) : list Z :=
  match ip with
  | [a; b; c; d] => dec a ++ 46 :: dec b ++ 46 :: dec c ++ 46 :: dec d
  | _ => []
  end.

(** The 16-bit groups, the longest run of two zero groups or more, and the
    hexadecimal text. *)
Fixpoint groups (ip : list Z) : list Z :=
  match ip with
  | a :: b :: ip => (a * 256 + b) :: groups ip
  | _ => []
  end.

Fixpoint zeros_at (g : list Z) : nat :=
  match g with
  | 0 :: g => S (zeros_at g)
  | _ => 0
  end.

(** The first longest run: start and length. *)
Fixpoint longest_run (g : list Z) (i : nat) (best : nat * nat) : nat * nat :=
  match g with
  | [] => best
  | _ :: g' =>
      let k := zeros_at g in
      longest_run g' (S i) (if decide (best.2 < k)%nat then (i, k) else best)
  end.

Definition hex_digit (v : Z) : Z := if v <? 10 then 48 + v else 87 + v.
Definition hex_group (v : Z) : list Z :=
  if v <? 16 then [hex_digit v]
  else if v <? 256 then [hex_digit (v / 16); hex_digit (v mod 16)]
  else if v <? 4096 then [hex_digit (v / 256); hex_digit (v / 16 mod 16); hex_digit (v mod 16)]
  else [hex_digit (v / 4096); hex_digit (v / 256 mod 16); hex_digit (v / 16 mod 16); hex_digit (v mod 16)].

Fixpoint join_groups (g : list Z) : list Z :=
  match g with
  | [] => []
  | [v] => hex_group v
  | v :: g => hex_group v ++ 58 :: join_groups g
  end.

(** [IP.String] of an address of 4 or 16 bytes. *)
Definition IP_String (ip : list Z) : list Z :=
  match To4 ip with
  | Some p => dotted p
  | None =>
      let g := groups ip in
      let '(e, k) := longest_run g 0 (0, 0)%nat in
      if decide (k <= 1)%nat then join_groups g
      else join_groups (take e g) ++ [58; 58] ++ join_groups (drop (e + k) g)
  end.

Example ParseIP_v4 : ParseIP (str "127.0.0.1") = Some (v4InV6Prefix ++ [127; 0; 0; 1]).
Proof. reflexivity. Qed.
Example ParseIP_v6 : ParseIP (str "2001:db8::cb01") = Some [32; 1; 13; 184; 0; 0; 0; 0; 0; 0; 0; 0; 0; 0; 203; 1].
Proof. reflexivity. Qed.
Example ParseIP_v6_v4 : ParseIP (str "::ffff:1.2.3.4") = Some (v4InV6Prefix ++ [1; 2; 3; 4]).
Proof. reflexivity. Qed.
Example IP_String_v6 :
  IP_String [32; 1; 13; 184; 0; 0; 0; 0; 0; 0; 0; 0; 0; 0; 203; 1] = str "2001:db8::cb01".
Proof. vm_compute. reflexivity. Qed.
Example IP_String_loopback : IP_String (replicate 15 0 ++ [1]) = str "::1".
Proof. vm_compute. reflexivity. Qed.

(** ** IPv4 addresses read back *)

Lemma dtoi_from_digits ds rest : Forall (fun c => IsDigit c = true) ds ->
  match rest with c :: _ => IsDigit c = false | [] => True end ->
  forall n k, 0 <= n -> ds ≠ [] \/ k ≠ 0%nat ->
  fold_left (fun n c => n * 10 + (c - 48)) ds n < 16777215 ->
  dtoi_from (ds ++ rest) n k = Some (fold_left (fun n c => n * 10 + (c - 48)) ds n, rest).
Proof.
  intros Hds Hrest. induction Hds as [|c ds Hc Hds IH]; intros n k Hn Hk Hmax; simpl in Hmax |- *.
  - destruct Hk as [|Hk]; [done|]. destruct rest as [|c rest]; simpl.
    + by rewrite decide_False.
    + rewrite Hrest. by rewrite decide_False.
  - assert (Hc' : 48 <= c <= 57).
    { unfold IsDigit in Hc. apply andb_true_iff in Hc as [H1%Z.leb_le H2%Z.leb_le]. lia. }
    assert (Hmono : forall ds m, Forall (fun c => IsDigit c = true) ds -> 0 <= m ->
              m <= fold_left (fun n c => n * 10 + (c - 48)) ds m).
    { clear. intros ds. induction ds as [|d ds IH]; intros m Hd Hm; simpl; [lia|].
      apply Forall_cons in Hd as [Hd Hds]. unfold IsDigit in Hd.
      apply andb_true_iff in Hd as [H1%Z.leb_le H2%Z.leb_le].
      etransitivity; [|apply IH; [done|lia]]. lia. }
    rewrite Hc. pose proof (Hmono ds (n * 10 + (c - 48)) Hds ltac:(lia)).
    rewrite (proj2 (Z.leb_gt _ _)) by lia. apply IH; [lia|by right|done].
Qed.

Lemma dtoi_dec n rest : 0 <= n < 256 ->
  match rest with c :: _ => IsDigit c = false | [] => True end ->
  dtoi (dec n ++ rest) = Some (n, rest).
Proof.
  intros Hn Hrest. pose proof (digits_value_dec n ltac:(lia)) as Hv. unfold digits_value in Hv.
  unfold dtoi. rewrite dtoi_from_digits; rewrite ?Hv; try done; try lia.
  - apply dec_digits. lia.
  - left. intros Hd. rewrite Hd in Hv. simpl in Hv. subst n. by vm_compute in Hd.
Qed.

(** The dotted text of an IPv4 address is parsed to its mapped form. *)
Lemma ParseIP_dotted a b c d :
  Forall is_byte [a; b; c; d] ->
  ParseIP (dotted [a; b; c; d]) = Some (v4InV6Prefix ++ [a; b; c; d]).
Proof.
  rewrite !Forall_cons. intros (Ha & Hb & Hc & Hd & _). unfold is_byte in *.
  assert (Hk : ip_kind (dotted [a; b; c; d]) = Some true).
  { unfold dotted. pose proof (dec_digits a ltac:(lia)) as Hds. induction Hds as [|x ds Hx _ IH]; [done|].
    cbn [app ip_kind]. unfold IsDigit in Hx. apply andb_true_iff in Hx as [H1%Z.leb_le H2%Z.leb_le].
    rewrite (proj2 (Z.eqb_neq x 46)), (proj2 (Z.eqb_neq x 58)) by lia. exact IH. }
  unfold ParseIP. rewrite Hk. unfold parseIPv4, dotted. cbn [ipv4_parts].
  assert (Hne : dec a ++ 46 :: dec b ++ 46 :: dec c ++ 46 :: dec d ≠ []) by (by destruct (dec a)).
  set (l := dec a ++ _) in *. destruct l as [|x l'] eqn:Hl; [done|]. rewrite <- Hl. unfold l. clear l Hl Hne x l'.
  cbn [mbind option_bind]. rewrite dtoi_dec by done. cbn [mbind option_bind].
  rewrite (proj2 (Z.ltb_ge 255 a)) by lia. cbn [Z.eqb Pos.eqb mbind option_bind].
  rewrite dtoi_dec by done. cbn [mbind option_bind].
  rewrite (proj2 (Z.ltb_ge 255 b)) by lia. cbn [Z.eqb Pos.eqb mbind option_bind].
  rewrite dtoi_dec by done. cbn [mbind option_bind].
  rewrite (proj2 (Z.ltb_ge 255 c)) by lia. cbn [Z.eqb Pos.eqb mbind option_bind].
  rewrite <- (app_nil_r (dec d)), dtoi_dec by done. cbn [mbind option_bind].
  rewrite (proj2 (Z.ltb_ge 255 d)) by lia. reflexivity.
Qed.

Lemma IP_String_4 a b c d : IP_String [a; b; c; d] = dotted [a; b; c; d].
Proof. reflexivity. Qed.
