(* ===== verification/Base64.v ===== *)
(** Go's [encoding/base64], for signatures and keys: [StdEncoding], which pads,
    and [RawStdEncoding], which does not. *)

From Stdlib Require Import ZArith Lia.
From S2P Require Import Prelude.

Local Open Scope Z_scope.

Definition b64_char (i : Z) : Z :=
  if i <? 26 then 65 + i else if i <? 52 then 71 + i else if i <? 62 then i - 4 else if i =? 62 then 43 else 47.
Definition b64_index (c : Z) : option Z :=
  if (65 <=? c) && (c <=? 90) then Some (c - 65)
  else if (97 <=? c) && (c <=? 122) then Some (c - 71)
  else if (48 <=? c) && (c <=? 57) then Some (c + 4)
  else if c =? 43 then Some 62
  else if c =? 47 then Some 63
  else None.

(** [StdEncoding.Encode]. *)
Fixpoint b64_encode (s : list Z) : list Z :=
  match s with
  | [] => []
  | [a] => [b64_char (a / 4); b64_char (a mod 4 * 16); 61; 61]
  | [a; b] => [b64_char (a / 4); b64_char (a mod 4 * 16 + b / 16); b64_char (b mod 16 * 4); 61]
  | a :: b :: c :: s =>
      b64_char (a / 4) :: b64_char (a mod 4 * 16 + b / 16) :: b64_char (b mod 16 * 4 + c / 64) :: b64_char (c mod 64) :: b64_encode s
  end.

Fixpoint b64_quads (padded : bool) (s : list Z) : option (list Z) :=
  match s with
  | [] => Some []
  | c0 :: c1 :: c2 :: c3 :: s =>
      i0 ← b64_index c0; i1 ← b64_index c1;
      if padded && (c3 =? 61) then
        match s with
        | [] => if c2 =? 61 then Some [i0 * 4 + i1 / 16] else i2 ← b64_index c2; Some [i0 * 4 + i1 / 16; i1 mod 16 * 16 + i2 / 4]
        | _ => None
        end
      else
        i2 ← b64_index c2; i3 ← b64_index c3;
        rest ← b64_quads padded s;
        Some (i0 * 4 + i1 / 16 :: i1 mod 16 * 16 + i2 / 4 :: i2 mod 4 * 64 + i3 :: rest)
  | [c0; c1; c2] =>
      if padded then None
      else i0 ← b64_index c0; i1 ← b64_index c1; i2 ← b64_index c2; Some [i0 * 4 + i1 / 16; i1 mod 16 * 16 + i2 / 4]
  | [c0; c1] => if padded then None else i0 ← b64_index c0; i1 ← b64_index c1; Some [i0 * 4 + i1 / 16]
  | _ => None
  end.

(** [Decode]: line ends are passed over. *)
Definition b64_decode (padded : bool) (s : list Z) : option (list Z) :=
  b64_quads padded (filter (fun c => c ≠ 10 /\ c ≠ 13) s).

(** ** Facts *)

(** What encoded text is made of. *)
Definition is_b64 (c : Z) : bool := match b64_index c with Some _ => true | None => c =? 61 end.

Lemma b64_index_char i : 0 <= i < 64 -> b64_index (b64_char i) = Some i.
Proof.
  intros Hi. assert (Hin : i ∈ seqZ 0 64) by (apply elem_of_seqZ; lia).
  clear Hi. revert i Hin. apply (proj1 (Forall_forall (fun i => b64_index (b64_char i) = Some i) (seqZ 0 64))). by apply (bool_decide_unpack _).
Qed.

Lemma b64_char_ne i : 0 <= i < 64 -> (b64_char i =? 61) = false.
Proof.
  intros Hi. apply Z.eqb_neq. unfold b64_char. repeat case_match; lia.
Qed.

Lemma b64_text s : is_bytes s -> Forall (fun c => is_b64 c = true) (b64_encode s).
Proof.
  assert (Hc : forall i, 0 <= i < 64 -> is_b64 (b64_char i) = true) by (intros i Hi; unfold is_b64; by rewrite b64_index_char).
  revert s. fix IH 1. intros [|a [|b [|c s]]] Hs; cbn [b64_encode]; [done|..];
    repeat (apply Forall_cons in Hs as [? Hs]); unfold is_byte in *;
    repeat (apply Forall_cons; split); try done; try (apply Hc; Z.to_euclidean_division_equations; lia).
  by apply IH.
Qed.

Lemma b64_not_end c : is_b64 c = true -> c ≠ 10 /\ c ≠ 13.
Proof. intros Hc. split; intros ->; by vm_compute in Hc. Qed.

Lemma b64_quads_encode s : is_bytes s -> b64_quads true (b64_encode s) = Some s.
Proof.
  revert s. fix IH 1. intros [|a [|b [|c s]]] Hs; cbn [b64_encode b64_quads]; [done|..];
    repeat (apply Forall_cons in Hs as [? Hs]); unfold is_byte in *.
  - rewrite !b64_index_char by (Z.to_euclidean_division_equations; lia). cbn. do 2 f_equal. Z.to_euclidean_division_equations; lia.
  - rewrite !b64_index_char by (Z.to_euclidean_division_equations; lia). cbn. rewrite b64_char_ne by (Z.to_euclidean_division_equations; lia).
    repeat f_equal; Z.to_euclidean_division_equations; lia.
  - rewrite !b64_index_char by (Z.to_euclidean_division_equations; lia). cbn [mbind option_bind].
    rewrite b64_char_ne by (Z.to_euclidean_division_equations; lia). cbn [andb]. rewrite (IH s) by done. cbn.
    repeat f_equal; Z.to_euclidean_division_equations; lia.
Qed.

Lemma filter_all {A} (P : A -> Prop) `{forall x, Decision (P x)} (l : list A) : Forall P l -> filter P l = l.
Proof. induction 1 as [|x l Hx _ IH]; [done|]. by rewrite filter_cons_True, IH. Qed.

Lemma b64_roundtrip s : is_bytes s -> b64_decode true (b64_encode s) = Some s.
Proof.
  intros Hs. unfold b64_decode. rewrite filter_all; [by apply b64_quads_encode|].
  eapply Forall_impl; [by apply b64_text|]. intros c. apply b64_not_end.
Qed.
