(* ===== verification/IoReader.v ===== *)
(** Package [lib/io], file [reader.go]: a cursor over a byte slice.  A method
    that returns values is a function from a reader to its results and the
    reader after the call; the loops of the code, which move the index [X] byte
    by byte, are recursions on the bytes from [X] on. *)

From Stdlib Require Import ZArith Lia.
From S2P Require Import Prelude Ascii Strconv.

Local Open Scope Z_scope.

Record Reader := mkReader { X : nat; V : list Z }.

(** [Reader.Init]. *)
Definition Init (src : list Z) : Reader := mkReader 0 src.

Definition at_X (r : Reader) (x : nat) : Reader := mkReader x (V r).

(** The bytes that the loops [for r.X < len(r.V)] go through. *)
Definition unread (r : Reader) : list Z := drop (X r) (V r).

(** [Reader.Current]: 0 at the end, a panic past it. *)
Definition Current {E} (r : Reader) : outcome E Z :=
  if decide (X r = length (V r)) then Ok 0 else get_at (V r) (X r).

(** How many bytes come before the first one that satisfies [p]. *)
Fixpoint scan (p : Z -> bool) (s : list Z) : nat :=
  match s with
  | [] => 0
  | c :: s => if p c then 0 else S (scan p s)
  end.

(** [Reader.ReadLine]. *)
Definition ReadLine {E} (r : Reader) : outcome E (list Z * Reader) :=
  if decide (X r = length (V r)) then Ok ([], r)
  else
    let n := scan (fun c => c =? 10) (unread r) in
    match unread r !! n with
    | Some _ =>
        line ← slice (V r) (X r) (X r + n + 1);
        Ok (line, at_X r (X r + n + 1)%nat)
    | None =>
        line ← slice (V r) (X r) (length (V r));
        Ok (line, at_X r (X r + n)%nat)
    end.

Definition elem_byte (c : Z) (l : list Z) : bool := bool_decide (c ∈ l).

(** [Reader.ReadUntil]: token, isTerm, c.  A terminator is looked for before a
    separator. *)
Definition ReadUntil {E} (r : Reader) (seps terms : list Z)
    : outcome E (list Z * bool * Z * Reader) :=
  let n := scan (fun c => elem_byte c terms || elem_byte c seps) (unread r) in
  tok ← slice (V r) (X r) (X r + n);
  match unread r !! n with
  | Some c => Ok (tok, elem_byte c terms, c, at_X r (X r + n + 1)%nat)
  | None => Ok (tok, false, 0, at_X r (X r + n)%nat)
  end.

(** [Reader.Rest] and [Reader.String]. *)
Definition Rest {E} (r : Reader) : outcome E (list Z) := slice (V r) (X r) (length (V r)).
Definition Reader_String {E} (r : Reader) : outcome E (list Z) := Rest r.

(** The digit loop of [Reader.ScanInt64], in 64-bit arithmetic: the number and
    how many digits were read. *)
Fixpoint scan_digits (s : list Z) (n : Z) (k : nat) : Z * nat :=
  match s with
  | [] => (n, k)
  | c :: s =>
      if negb (IsDigit c) then (n, k)
      else scan_digits s (s64 (s64 (n * 10) + u8 (c - 48))) (S k)
  end.

(** [Reader.ScanInt64]. *)
Definition ScanInt64 (r : Reader) : Z * Z * Reader :=
  if decide (length (V r) = X r) then (0, 0, r)
  else
    let k := scan (fun c => negb (IsSpace c)) (unread r) in
    let c := default 0 (unread r !! (if decide (k = length (unread r)) then k - 1 else k)%nat) in
    let r := at_X r (X r + k)%nat in
    let '(min, r) :=
      if c =? 45 then (-1, at_X r (X r + 1)%nat)
      else if c =? 43 then (1, at_X r (X r + 1)%nat)
      else (1, r) in
    let '(n, k) := scan_digits (unread r) 0 0 in
    let c := default c (unread r !! k) in
    let r := at_X r (X r + k)%nat in
    let n := s64 (n * min) in
    if decide (X r = length (V r)) then (n, 0, r) else (n, c, r).

(** [Reader.SkipN], for a count that is not negative. *)
Definition SkipN (r : Reader) (n : nat) : bool * Reader :=
  let r := at_X r (X r + n)%nat in
  if decide (length (V r) <= X r)%nat then (true, at_X r (length (V r))) else (false, r).

(** [Reader.SkipSpaces]. *)
Definition SkipSpaces (r : Reader) : Z * Reader :=
  let n := scan (fun c => negb (IsSpace c)) (unread r) in
  (default 0 (unread r !! n), at_X r (X r + n)%nat).

(** [Reader.SkipHorizontalSpace]. *)
Definition SkipHorizontalSpace {E} (r : Reader) : outcome E (nat * Z * Reader) :=
  let n := scan (fun c => negb ((c =? 9) || (c =? 13) || (c =? 32))) (unread r) in
  let r := at_X r (X r + n)%nat in
  if decide (X r = length (V r)) then Ok (n, 0, r)
  else c ← get_at (V r) (X r); Ok (n, c, r).

(** [Reader.SkipUntil]. *)
Definition SkipUntil (r : Reader) (seps : list Z) : Z * Reader :=
  let n := scan (fun c => elem_byte c seps) (unread r) in
  match unread r !! n with
  | Some c => (c, at_X r (X r + n + 1)%nat)
  | None => (0, at_X r (X r + n)%nat)
  end.

(** [Reader.SkipLine]. *)
Definition SkipLine (r : Reader) : Reader :=
  let n := scan (fun c => c =? 10) (unread r) in
  match unread r !! n with
  | Some _ => at_X r (X r + n + 1)%nat
  | None => at_X r (X r + n)%nat
  end.

(** [Reader.UnreadN]. *)
Definition UnreadN {E} (r : Reader) (n : nat) : outcome E (Z * Reader) :=
  let r := if decide (X r < n)%nat then at_X r 0 else at_X r (X r - n)%nat in
  c ← get_at (V r) (X r); Ok (c, r).

(** ** Facts *)

(** The invariant that every operation keeps: the index is in the buffer. *)
Definition wf (r : Reader) : Prop := (X r <= length (V r))%nat.

Lemma Init_wf src : wf (Init src).
Proof. unfold wf. simpl. lia. Qed.

Lemma length_unread r : length (unread r) = (length (V r) - X r)%nat.
Proof. apply length_drop. Qed.

Lemma scan_le p s : (scan p s <= length s)%nat.
Proof. induction s as [|c s IH]; simpl; [lia|]. destruct (p c); lia. Qed.

(** What is before the found index, and at it. *)
Lemma scan_spec p s :
  Forall (fun c => p c = false) (take (scan p s) s) /\
  match s !! scan p s with Some c => p c = true | None => scan p s = length s end.
Proof.
  induction s as [|c s [IH1 IH2]]; simpl; [done|]. destruct (p c) eqn:Hp; simpl; [done|].
  split; [by constructor|]. destruct (s !! scan p s); [done|lia].
Qed.

Lemma scan_app p s c t : Forall (fun c => p c = false) s -> p c = true -> scan p (s ++ c :: t) = length s.
Proof.
  intros Hs Hc. induction Hs as [|b s Hb _ IH]; simpl; [by rewrite Hc|]. by rewrite Hb, IH.
Qed.

Lemma scan_all p s : Forall (fun c => p c = false) s -> scan p s = length s.
Proof. intros Hs. induction Hs as [|b s Hb _ IH]; simpl; [done|]. by rewrite Hb, IH. Qed.

(** A reader in the middle of a buffer. *)
Definition mid (pre s : list Z) : Reader := mkReader (length pre) (pre ++ s).

Lemma unread_mid pre s : unread (mid pre s) = s.
Proof. unfold unread. simpl. apply drop_app_length. Qed.

Lemma mid_wf r : wf r -> r = mid (take (X r) (V r)) (unread r).
Proof.
  intros Hr. destruct r as [x v]. unfold wf, mid, unread in *. simpl in *. f_equal.
  - rewrite length_take. lia.
  - by rewrite take_drop.
Qed.

Lemma slice_mid {E} pre tok rest :
  slice (E := E) (V (mid pre (tok ++ rest))) (length pre) (length pre + length tok) = Ok tok.
Proof. simpl. by apply slice_app. Qed.

Lemma ReadUntil_found {E} pre tok c rest seps terms :
  Forall (fun b => (b ∉ terms) /\ (b ∉ seps)) tok -> (c ∈ terms) \/ (c ∈ seps) ->
  ReadUntil (E := E) (mid pre (tok ++ c :: rest)) seps terms
  = Ok (tok, elem_byte c terms, c, mid (pre ++ tok ++ [c]) rest).
Proof.
  intros Htok Hc. unfold ReadUntil. rewrite unread_mid, scan_app.
  - rewrite slice_mid. cbn [mbind outcome_bind]. rewrite list_lookup_middle by done. do 2 f_equal.
    unfold at_X, mid. cbn [X V]. f_equal.
    + rewrite !length_app. simpl. lia.
    + by rewrite <- !(assoc_L (++)).
  - eapply Forall_impl; [exact Htok|]. intros b [Ht Hs]. unfold elem_byte.
    by rewrite !bool_decide_eq_false_2.
  - unfold elem_byte. apply orb_true_iff. rewrite !bool_decide_eq_true. done.
Qed.

Lemma ReadUntil_eof {E} pre tok seps terms :
  Forall (fun b => (b ∉ terms) /\ (b ∉ seps)) tok ->
  ReadUntil (E := E) (mid pre tok) seps terms = Ok (tok, false, 0, mid (pre ++ tok) []).
Proof.
  intros Htok. unfold ReadUntil. rewrite unread_mid, scan_all.
  - pose proof (slice_mid (E := E) pre tok []) as Hs. rewrite app_nil_r in Hs.
    change (X (mid pre tok)) with (length pre). rewrite Hs.
    cbn [mbind outcome_bind]. rewrite lookup_ge_None_2 by done. do 2 f_equal.
    unfold at_X, mid. cbn [X V]. rewrite length_app, app_nil_r. done.
  - eapply Forall_impl; [exact Htok|]. intros b [Ht Hs]. unfold elem_byte.
    by rewrite !bool_decide_eq_false_2.
Qed.

Lemma SkipSpaces_mid_end pre : SkipSpaces (mid pre []) = (0, mid pre []).
Proof. unfold SkipSpaces. rewrite unread_mid. simpl. unfold at_X, mid. simpl. by rewrite Nat.add_0_r. Qed.

Lemma SkipSpaces_mid_stop pre c rest : IsSpace c = false ->
  SkipSpaces (mid pre (c :: rest)) = (c, mid pre (c :: rest)).
Proof.
  intros Hc. unfold SkipSpaces. rewrite unread_mid. simpl. rewrite Hc. simpl.
  unfold at_X, mid. simpl. by rewrite Nat.add_0_r.
Qed.

Lemma SkipLine_mid pre t s : 10 ∉ t -> SkipLine (mid pre (t ++ 10 :: s)) = mid (pre ++ t ++ [10]) s.
Proof.
  intros Ht. unfold SkipLine. rewrite unread_mid. rewrite scan_app; [|by apply Forall_forall; intros b Hb; apply Z.eqb_neq; intros ->|done].
  rewrite list_lookup_middle by done. unfold at_X, mid. cbn [X V]. f_equal; [rewrite !length_app; cbn; lia|].
  by rewrite <- !(assoc_L (++)).
Qed.

Lemma ReadUntil_cases {E} r seps terms : wf r ->
  exists tok isTerm c r', ReadUntil (E := E) r seps terms = Ok (tok, isTerm, c, r') /\
    wf r' /\ V r' = V r /\
    Forall (fun b => (b ∉ terms) /\ (b ∉ seps)) tok /\
    ((unread r = tok ++ c :: unread r' /\ ((c ∈ terms) \/ (c ∈ seps)) /\ isTerm = elem_byte c terms)
     \/ (unread r = tok /\ unread r' = [] /\ isTerm = false /\ c = 0)).
Proof.
  intros Hr. set (pre := take (X r) (V r)).
  assert (Hgo : ReadUntil (E := E) r seps terms = ReadUntil (mid pre (unread r)) seps terms)
    by (unfold pre; by rewrite <- mid_wf).
  rewrite Hgo. clear Hgo.
  set (p := fun c => elem_byte c terms || elem_byte c seps).
  destruct (scan_spec p (unread r)) as [Hall Hat].
  assert (Htok : Forall (fun b => (b ∉ terms) /\ (b ∉ seps)) (take (scan p (unread r)) (unread r))).
  { eapply Forall_impl; [exact Hall|]. intros b Hb. unfold p, elem_byte in Hb.
    apply orb_false_iff in Hb as [H1 H2]. by apply bool_decide_eq_false in H1, H2. }
  assert (Hpre : pre ++ unread r = V r) by apply take_drop.
  destruct (unread r !! scan p (unread r)) as [c|] eqn:Hc.
  - set (tok := take (scan p (unread r)) (unread r)) in *. assert (Hsplit : unread r = tok ++ c :: drop (S (scan p (unread r))) (unread r))
      by (unfold tok; by rewrite take_drop_middle).
    set (rest := drop (S (scan p (unread r))) (unread r)) in *. 
    replace (mid pre (unread r)) with (mid pre (tok ++ c :: rest)) by (by rewrite <- Hsplit).
    assert (Hc' : (c ∈ terms) \/ (c ∈ seps)).
    { unfold p, elem_byte in Hat. apply orb_true_iff in Hat. by rewrite !bool_decide_eq_true in Hat. }
    rewrite ReadUntil_found by done. do 4 eexists. split; [done|].
    assert (HV : V (mid (pre ++ tok ++ [c]) rest) = V r).
    { simpl. rewrite <- Hpre, Hsplit, <- !(assoc_L (++)). done. }
    split_and!; [|done|done|].
    + unfold wf. rewrite HV. rewrite <- HV. simpl. rewrite !length_app. lia.
    + left. by rewrite unread_mid.
  - rewrite Hat, take_ge in Htok by done. rewrite ReadUntil_eof by done. do 4 eexists. split; [done|].
    split_and!; [|by rewrite <- Hpre; simpl; rewrite app_nil_r|done|].
    + unfold wf. simpl. rewrite !length_app. lia.
    + right. by rewrite unread_mid.
Qed.

(** A well-formed reader always returns from ReadUntil, with what is left to
    read split in the token, which has no separator and no terminator, the byte
    that stopped it, and the rest; at the end of the buffer the byte is 0. *)
Theorem ReadUntil_spec {E} r seps terms : wf r ->
  exists tok isTerm c r', ReadUntil (E := E) r seps terms = Ok (tok, isTerm, c, r') /\
    wf r' /\ V r' = V r /\
    Forall (fun b => (b ∉ terms) /\ (b ∉ seps)) tok /\
    ((unread r = tok ++ c :: unread r' /\ ((c ∈ terms) \/ (c ∈ seps)) /\ isTerm = elem_byte c terms)
     \/ (unread r = tok /\ unread r' = [] /\ isTerm = false /\ c = 0)).
Proof. apply ReadUntil_cases. Qed.

Lemma ReadUntil_spec_witness :
  exists tok isTerm c r', ReadUntil (E := unit) (mkReader 1 (str " key=value")) [61] [10] = Ok (tok, isTerm, c, r')
  /\ wf r' /\ tok = str "key".
Proof.
  destruct (ReadUntil_spec (E := unit) (mkReader 1 (str " key=value")) [61] [10]
    ltac:(unfold wf; simpl; lia)) as (tok & t & c & r' & Hr & Hw & _).
  exists tok, t, c, r'. split_and!; [done|done|]. vm_compute in Hr. by injection Hr as <- _ _ _.
Defined.

(** ** Lines *)

(** Reading lines until an empty one. *)
Fixpoint all_lines {E} (fuel : nat) (r : Reader) : outcome E (list (list Z)) :=
  match fuel with
  | O => NoFuel
  | S fuel =>
      lr ← ReadLine r;
      match lr.1 with
      | [] => Ok []
      | line => ls ← all_lines fuel lr.2; Ok (line :: ls)
      end
  end.

(** A line of the buffer: no line feed but as its last byte. *)
Definition is_line (l : list Z) : Prop := exists s, (10 ∉ s) /\ (l = s ++ [10] \/ l = s /\ s ≠ []).

Lemma ReadLine_mid {E} pre s :
  (s = [] /\ ReadLine (E := E) (mid pre s) = Ok ([], mid pre s)) \/
  (exists line rest, s = line ++ rest /\ line ≠ [] /\ is_line line /\
    ReadLine (E := E) (mid pre s) = Ok (line, mid (pre ++ line) rest)).
Proof.
  unfold ReadLine. destruct s as [|b s'] eqn:Hs.
  { left. split; [done|]. rewrite decide_True; [done|]. simpl. rewrite length_app. simpl. lia. }
  right. rewrite <- Hs. rewrite decide_False by (simpl; rewrite length_app, Hs; simpl; lia).
  rewrite unread_mid. set (p := fun c => c =? 10). destruct (scan_spec p s) as [Hall Hat].
  assert (Hno : 10 ∉ take (scan p s) s).
  { intros Hin. rewrite Forall_forall in Hall. by specialize (Hall _ Hin). }
  destruct (s !! scan p s) as [c|] eqn:Hc.
  - assert (c = 10) as -> by (unfold p in Hat; by apply Z.eqb_eq in Hat).
    set (tok := take (scan p s) s) in *. set (rest := drop (S (scan p s)) s).
    assert (Hsplit : s = (tok ++ [10]) ++ rest).
    { unfold tok, rest. rewrite <- (assoc_L (++)). simpl. by rewrite take_drop_middle. }
    assert (Hlen : length tok = scan p s).
    { unfold tok. rewrite length_take. apply lookup_lt_Some in Hc. by apply Nat.min_l, Nat.lt_le_incl. }
    exists (tok ++ [10]), rest. split_and!; [done|by destruct tok|exists tok; by split; [|left]|].
    rewrite <- Hlen. clearbody tok rest.
    assert (Hsl : slice (E := E) (V (mid pre s)) (X (mid pre s)) (X (mid pre s) + length tok + 1) = Ok (tok ++ [10])).
    { simpl. rewrite Hsplit. apply slice_app; [done|]. rewrite length_app. simpl. lia. }
    rewrite Hsl. cbn [mbind outcome_bind]. do 2 f_equal. unfold at_X, mid. cbn [X V]. f_equal.
    + rewrite !length_app. simpl. lia.
    + rewrite Hsplit. by rewrite (assoc_L (++)).
  - rewrite take_ge in Hno by lia. exists s, []. split_and!; [by rewrite app_nil_r|by rewrite Hs|exists s|].
    + split; [done|]. right. by rewrite Hs.
    + assert (Hsl : slice (E := E) (V (mid pre s)) (X (mid pre s)) (length (V (mid pre s))) = Ok s).
      { simpl. 
        pose proof (slice_app (E := E) pre s [] (length pre) (length (pre ++ s))) as Hp.
        rewrite app_nil_r in Hp. apply Hp; [done|]. by rewrite length_app. }
      rewrite Hsl. cbn [mbind outcome_bind]. do 2 f_equal. unfold at_X, mid. cbn [X V].
      rewrite length_app, app_nil_r. f_equal. lia.
Qed.

Lemma all_lines_mid {E} s : forall fuel pre, (length s < fuel)%nat ->
  exists ls, all_lines (E := E) fuel (mid pre s) = Ok ls /\ concat ls = s /\ Forall is_line ls.
Proof.
  induction s as [s IH] using (well_founded_induction (Wf_nat.well_founded_ltof _ (@length Z))).
  intros [|fuel] pre Hf; [lia|]. cbn [all_lines].
  destruct (ReadLine_mid (E := E) pre s) as [[-> ->]|(line & rest & -> & Hne & Hl & ->)].
  - by exists [].
  - cbn [mbind outcome_bind fst snd]. destruct line as [|b line]; [done|].
    destruct (IH rest) with (fuel := fuel) (pre := pre ++ b :: line) as (ls & -> & Hc & Hall).
    + unfold Wf_nat.ltof. rewrite length_app. simpl. lia.
    + rewrite length_app in Hf. simpl in Hf. lia.
    + exists ((b :: line) :: ls). split_and!; [done|by rewrite <- Hc|by constructor].
Qed.

(** Reading lines until one is empty ends and splits what is left of the
    buffer into its lines: put together they are the buffer, and each has a
    line feed at most as its last byte. *)
Theorem ReadLine_splits {E} r : wf r ->
  exists ls, all_lines (E := E) (S (length (unread r))) r = Ok ls /\
    concat ls = unread r /\ Forall is_line ls.
Proof.
  intros Hr.
  destruct (all_lines_mid (E := E) (unread r) (S (length (unread r))) (take (X r) (V r)) ltac:(lia))
    as (ls & Hls & Hc & Hl).
  rewrite <- (mid_wf r Hr) in Hls. by exists ls.
Qed.

Lemma ReadLine_splits_witness :
  exists ls, all_lines (E := unit) 7 (mkReader 2 (str "a b" ++ [10; 10] ++ str "cd" ++ [10])) = Ok ls
  /\ concat ls = str "b" ++ [10; 10] ++ str "cd" ++ [10].
Proof.
  destruct (ReadLine_splits (E := unit) (mkReader 2 (str "a b" ++ [10; 10] ++ str "cd" ++ [10])))
    as (ls & H1 & H2 & _); [unfold wf; simpl; lia|]. by exists ls.
Defined.

(** ** Numbers *)

Definition is_s64 (z : Z) : Prop := - 2 ^ 63 <= z < 2 ^ 63.

Lemma s64_id z : is_s64 z -> s64 z = z.
Proof. unfold is_s64, s64. intros Hz. rewrite Z.mod_small; lia. Qed.

Lemma s64_eq a b : (a mod 2 ^ 64 = b mod 2 ^ 64) -> s64 a = s64 b.
Proof.
  unfold s64. intros Hab. f_equal. rewrite <- (Z.add_mod_idemp_l a), <- (Z.add_mod_idemp_l b) by lia.
  by rewrite Hab.
Qed.

Lemma s64_mod a : s64 a mod 2 ^ 64 = a mod 2 ^ 64.
Proof.
  unfold s64. rewrite Zminus_mod_idemp_l. f_equal. lia.
Qed.

(** The accumulation of digits wraps once, at the end. *)
Lemma scan_digits_app ds rest n k :
  Forall (fun c => IsDigit c = true) ds ->
  match rest with [] => True | c :: _ => IsDigit c = false end ->
  scan_digits (ds ++ rest) (s64 n) k
  = (s64 (fold_left (fun n c => n * 10 + (c - 48)) ds n), (k + length ds)%nat).
Proof.
  intros Hds Hrest. revert n k. induction Hds as [|c ds Hc _ IH]; intros n k.
  - simpl. rewrite Nat.add_0_r. destruct rest as [|c rest]; [done|]. simpl. by rewrite Hrest.
  - cbn [app scan_digits]. rewrite Hc. cbn [negb].
    assert (Hb : u8 (c - 48) = c - 48).
    { apply u8_id. unfold IsDigit in Hc. apply andb_true_iff in Hc as [H1%Z.leb_le H2%Z.leb_le].
      unfold is_byte. lia. }
    rewrite Hb. replace (s64 (s64 (s64 n * 10) + (c - 48))) with (s64 (n * 10 + (c - 48))).
    + rewrite IH. simpl. do 2 f_equal. lia.
    + apply s64_eq. rewrite <- Zplus_mod_idemp_l, <- (Zplus_mod_idemp_l (s64 (s64 n * 10))).
      rewrite s64_mod. rewrite <- (Zmult_mod_idemp_l n), <- (Zmult_mod_idemp_l (s64 n)), s64_mod. done.
Qed.

Lemma dec_head n : exists c ds, dec n = c :: ds /\ IsSpace c = false /\
  (c = 45 /\ n < 0 /\ ds = dec (- n) \/ (IsDigit c = true /\ 0 <= n)).
Proof.
  destruct (Z.lt_ge_cases n 0) as [Hn|Hn].
  - rewrite dec_neg by done. exists 45, (dec (- n)). split_and!; try done. by left.
  - pose proof (dec_digits n Hn) as Hd. pose proof (digits_value_dec n Hn) as Hv.
    destruct (dec n) as [|c ds] eqn:Hdec.
    { unfold digits_value in Hv. simpl in Hv. subst n. by vm_compute in Hdec. }
    apply Forall_cons in Hd as [Hc _]. exists c, ds. split_and!; [done| |by right].
    unfold IsDigit in Hc. apply andb_true_iff in Hc as [H1%Z.leb_le H2%Z.leb_le].
    unfold IsSpace. rewrite !orb_false_iff, !Z.eqb_neq. lia.
Qed.

Lemma scan_digits_dec n rest : 0 <= n ->
  match rest with [] => True | c :: _ => IsDigit c = false end ->
  scan_digits (dec n ++ rest) 0 0 = (s64 n, length (dec n)).
Proof.
  intros Hn Hr. change 0 with (s64 0) at 1. rewrite scan_digits_app; [|by apply dec_digits|done].
  fold (digits_value (dec n)). by rewrite digits_value_dec.
Qed.

Lemma mid_move pre s t : at_X (mid pre (s ++ t)) (length pre + length s) = mid (pre ++ s) t.
Proof. unfold at_X, mid. simpl. by rewrite length_app, (assoc_L (++)). Qed.

(** Scanning a number reads back every 64-bit integer that was printed in
    decimal, the most negative one included, after any spaces; the byte that
    ended it, 0 at the end of the buffer, is returned and left to be read. *)
Theorem ScanInt64_dec pre sp n rest :
  Forall (fun c => IsSpace c = true) sp -> is_s64 n ->
  match rest with [] => True | c :: _ => IsDigit c = false end ->
  ScanInt64 (mid pre (sp ++ dec n ++ rest)) = (n, hd 0 rest, mid (pre ++ sp ++ dec n) rest).
Proof.
  intros Hsp Hn Hrest. destruct (dec_head n) as (c & ds & Hdec & Hc & Hcase).
  unfold ScanInt64. rewrite decide_False.
  2:{ simpl. rewrite !length_app, Hdec. simpl. lia. }
  rewrite unread_mid, Hdec. cbn [app]. rewrite scan_app; [|eapply Forall_impl; [exact Hsp|]; intros ? Hx; cbn; by rewrite Hx|by rewrite Hc].
  rewrite decide_False by (rewrite length_app; simpl; lia).
  rewrite list_lookup_middle by done. change (default 0 (Some c)) with c.
  change (X (mid pre (sp ++ c :: ds ++ rest))) with (length pre). rewrite mid_move.
  destruct Hcase as [(-> & Hneg & ->)|[Hd Hpos]].
  - cbn [Z.eqb Pos.eqb]. change (45 :: dec (- n) ++ rest) with ([45] ++ dec (- n) ++ rest).
    change (X (mid (pre ++ sp) ([45%Z] ++ dec (- n) ++ rest)) + 1)%nat with (length (pre ++ sp) + length [45%Z])%nat.
    rewrite mid_move, unread_mid, scan_digits_dec by (done || lia).
    rewrite lookup_app_r, Nat.sub_diag by lia.
    change (X (mid ((pre ++ sp) ++ [45]) (dec (- n) ++ rest))) with (length ((pre ++ sp) ++ [45])).
    rewrite mid_move.
    assert (Hs : s64 (s64 (- n) * -1) = n).
    { transitivity (s64 n); [|by apply s64_id]. apply s64_eq.
      rewrite <- Zmult_mod_idemp_l, s64_mod, Zmult_mod_idemp_l. f_equal. lia. }
    rewrite Hs.
    replace (((pre ++ sp) ++ [45]) ++ dec (- n)) with (pre ++ sp ++ 45 :: dec (- n))
      by (by rewrite <- !(assoc_L (++))).
    destruct rest as [|d rest]; cbn [hd].
    + rewrite decide_True by (simpl; by rewrite app_nil_r). done.
    + rewrite decide_False by (simpl; rewrite !length_app; simpl; lia). done.
  - assert (Hne : c ≠ 45 /\ c ≠ 43).
    { unfold IsDigit in Hd. apply andb_true_iff in Hd as [H1%Z.leb_le H2%Z.leb_le]. lia. }
    rewrite !(proj2 (Z.eqb_neq c _)) by apply Hne. rewrite unread_mid.
    replace (c :: ds ++ rest) with (dec n ++ rest) by (by rewrite Hdec).
    rewrite scan_digits_dec by (done || lia). rewrite lookup_app_r, Nat.sub_diag by lia.
    change (X (mid (pre ++ sp) (dec n ++ rest))) with (length (pre ++ sp)). rewrite mid_move, <- Hdec.
    rewrite Z.mul_1_r, !s64_id by (rewrite ?s64_id; done).
    rewrite <- (assoc_L (++)).
    destruct rest as [|d rest]; cbn [hd].
    + rewrite decide_True by (simpl; by rewrite app_nil_r). done.
    + rewrite decide_False by (simpl; rewrite !length_app; simpl; lia). done.
Qed.

Lemma ScanInt64_dec_witness :
  ScanInt64 (Init (str "  -9223372036854775808;x")) = (- 2 ^ 63, 59, mkReader 22 (str "  -9223372036854775808;x")).
Proof.
  etransitivity; [apply (ScanInt64_dec [] (str "  ") (- 2 ^ 63) (str ";x"));
    [repeat constructor|unfold is_s64; lia|reflexivity]|]. vm_compute. reflexivity.
Defined.
