(* ===== verification/LibNet.v ===== *)
(** Package [lib/net]: kinds of networks ([net.go]), IP addresses as text ([is.go],
    [net.go], [parser.go]) and the file [resolv.conf] ([resolvconf.go]).

    A text that is no number gives what [strconv.Atoi] gives with its error. The name of
    the host and the variable [LOCALDOMAIN] of the environment are arguments. *)

From Stdlib Require Import ZArith Lia.
From S2P Require Import Prelude Ascii Utf8 Strconv NetIP IoReader.

Local Open Scope Z_scope.

(** ** Kinds of networks *)

Definition TypeInvalid : Z := 0.
Definition TypeTCP : Z := 2.
Definition TypeTCP4 : Z := 4.
Definition TypeTCP6 : Z := 8.
Definition TypeUDP : Z := 16.
Definition TypeUDP4 : Z := 32.
Definition TypeUDP6 : Z := 64.
Definition TypeIP : Z := 128.
Definition TypeIP4 : Z := 256.
Definition TypeIP6 : Z := 512.
Definition TypeUnix : Z := 1024.
Definition TypeUnixGram : Z := 2048.
Definition TypeUnixPacket : Z := 4096.

Definition network_types : list (list Z * Z) :=
  [(str "tcp", TypeTCP); (str "tcp4", TypeTCP4); (str "tcp6", TypeTCP6); (str "udp", TypeUDP); (str "udp4", TypeUDP4); (str "udp6", TypeUDP6);
   (str "ip", TypeIP); (str "ip4", TypeIP4); (str "ip6", TypeIP6); (str "unix", TypeUnix); (str "unixgram", TypeUnixGram); (str "unixpacket", TypeUnixPacket)].
Fixpoint network_type (l : list (list Z * Z)) (network : list Z) : Z :=
  match l with [] => TypeInvalid | (n, t) :: l => if bool_decide (n = network) then t else network_type l network end.
Definition ConvertStandard `{Unicode} (network : list Z) : Z := network_type network_types (text_ToLower network).
Definition IsTypeTCP (t : Z) : bool := (t =? TypeTCP) || (t =? TypeTCP4) || (t =? TypeTCP6).
Definition IsTypeUDP (t : Z) : bool := (t =? TypeUDP) || (t =? TypeUDP4) || (t =? TypeUDP6).
Definition IsTypeTransport (t : Z) : bool := IsTypeTCP t || IsTypeUDP t.

(** ** Addresses

    [net.IP.String]: the empty address, which is nil too, has a text of its own, and an
    address of another length than 4 or 16 is written as it is. *)
Definition count_byte (c : Z) (s : list Z) : nat := length (filter (fun b => b = c) s).
Definition hex_text (ip : list Z) : list Z := 63 :: concat ((fun b => [hex_digit (b / 16); hex_digit (b mod 16)]) <$> ip).
Definition ip_text (ip : list Z) : list Z :=
  match ip with
  | [] => str "<nil>"
  | _ => if decide (length ip = 4%nat \/ length ip = 16%nat) then IP_String ip else hex_text ip
  end.
(** An address that is nil is none. *)
Definition IsIPv4 (ip : option (list Z)) : bool :=
  match ip with None => false | Some ip => (count_byte 46 (ip_text ip) =? 3)%nat end.
Definition IsIPv6 (ip : option (list Z)) : bool :=
  match ip with None => false | Some ip => (2 <=? count_byte 58 (ip_text ip))%nat end.

(** [ToDotIPv6]: the digits of the parts, and zeros for the parts that are left out. *)
Definition put_dot (out : list Z) (t : list Z) : list Z := match out with [] => t | _ => out ++ 46 :: t end.
Definition zero_part : list Z := str "0.0.0.0".
Definition put_part (out : list Z) (addr : list Z) : list Z :=
  fold_left (fun out c => put_dot out [c]) (replicate (4 - length addr) 48 ++ addr) out.
Fixpoint dot_parts (addrs : list (list Z)) (gap : nat) (out : list Z) : list Z :=
  match addrs with
  | [] => out
  | [] :: addrs => dot_parts addrs 0 (fold_left put_dot (replicate gap zero_part) out)
  | addr :: addrs => dot_parts addrs gap (put_part out addr)
  end.
Definition ToDotIPv6 (ip : list Z) : list Z :=
  let addrs := Split 58 (ip_text ip) in
  dot_parts addrs (8 - length (filter (fun a => a <> []) addrs)) [].

(** [net.SplitHostPort]: the host and the port; none is an error. *)
Fixpoint last_byte (c : Z) (s : list Z) (n : nat) (at_ : option nat) : option nat :=
  match s with [] => at_ | b :: s => last_byte c s (S n) (if b =? c then Some n else at_) end.
Definition has_byte (c : Z) (s : list Z) : bool := existsb (fun b => b =? c) s.
Definition SplitHostPort (s : list Z) : option (list Z * list Z) :=
  i ← last_byte 58 s 0 None;
  match s with
  | 91 :: _ =>
      e ← list_find (fun b => b = 93) s;
      let e := e.1 in
      if decide (S e = length s) then None
      else if negb (S e =? i)%nat then None
      else
        let host := take (e - 1) (drop 1 s) in
        if has_byte 91 (drop 1 s) || has_byte 93 (drop (S e) s) then None else Some (host, drop (S i) s)
  | _ =>
      let host := take i s in
      if has_byte 58 host then None
      else if has_byte 91 s || has_byte 93 s then None
      else Some (host, drop (S i) s)
  end.

Definition maxPort : Z := 65535.
(** [ParseIPPort]: the name of the host, the address and the port. *)
Definition ParseIPPort (address : list Z) (defPort : Z) : list Z * option (list Z) * Z :=
  let '(shost, sport) := match SplitHostPort address with Some r => r | None => (address, []) end in
  let ip := ParseIP shost in
  let hostname := match ip with None => shost | Some _ => [] end in
  let port := match sport with
              | [] => defPort
              | _ => match ParseInt64 sport with
                     | None => defPort
                     | Some n => if (n <? 0) || (maxPort <? n) then defPort else u16 n
                     end
              end in
  (hostname, ip, port).
(** [ParseUDPAddr] and [ParseTCPAddr]: the address and the port. *)
Definition ParseAddr (address : list Z) (defPort : Z) : option (list Z * Z) :=
  let '(_, ip, port) := ParseIPPort address defPort in (fun ip => (ip, port)) <$> ip.

Example parse_addresses : ParseIPPort (str "127.0.0.1:53") 25 = ([], Some (v4InV6Prefix ++ [127; 0; 0; 1]), 53) /\
  ParseIPPort (str "mail.example:99999") 25 = (str "mail.example", None, 25) /\ ParseIPPort (str "[::1]:465") 25 = ([], Some (replicate 15 0 ++ [1]), 465) /\
  ToDotIPv6 (replicate 15 0 ++ [1]) = str "0.0.0.0.0.0.0.0.0.0.0.0.0.0.0.0.0.0.0.0.0.0.0.0.0.0.0.0.0.0.0.1".
Proof. vm_compute. repeat split. Qed.

(** ** [resolv.conf] *)

Record ResolvConf : Type := mkResolv {
  Domain : list Z; Search : list (list Z); NameServers : list (list Z); NDots : Z; Timeout : Z; Attempts : Z; OptMisc : gset (list Z)
}.
Definition set_Domain rc v := mkResolv v (Search rc) (NameServers rc) (NDots rc) (Timeout rc) (Attempts rc) (OptMisc rc).
Definition set_Search rc v := mkResolv (Domain rc) v (NameServers rc) (NDots rc) (Timeout rc) (Attempts rc) (OptMisc rc).
Definition set_NameServers rc v := mkResolv (Domain rc) (Search rc) v (NDots rc) (Timeout rc) (Attempts rc) (OptMisc rc).
Definition set_NDots rc v := mkResolv (Domain rc) (Search rc) (NameServers rc) v (Timeout rc) (Attempts rc) (OptMisc rc).
Definition set_Timeout rc v := mkResolv (Domain rc) (Search rc) (NameServers rc) (NDots rc) v (Attempts rc) (OptMisc rc).
Definition set_Attempts rc v := mkResolv (Domain rc) (Search rc) (NameServers rc) (NDots rc) (Timeout rc) v (OptMisc rc).
Definition set_OptMisc rc v := mkResolv (Domain rc) (Search rc) (NameServers rc) (NDots rc) (Timeout rc) (Attempts rc) v.

Definition newLineTerms : list Z := [10].
(** [reset]: the numbers stay. *)
Definition rc_reset (rc : ResolvConf) : ResolvConf := mkResolv [] [] [] (NDots rc) (Timeout rc) (Attempts rc) ∅.

(** [strconv.Atoi]: with an error the number is 0, or the bound that is passed. *)
Definition Atoi (s : list Z) : Z :=
  match ParseInt64 s with
  | Some n => n
  | None =>
      let '(sign, d) := match s with 45 :: s => (-1, s) | 43 :: s => (1, s) | _ => (1, s) end in
      match unsigned d with None => 0 | Some _ => if sign <? 0 then - 2 ^ 63 else 2 ^ 63 - 1 end
  end.

(** [parseValue]: the value, if there is one. *)
Definition parseValue (r : Reader) : outcome unit (option (list Z) * Reader) :=
  '(_, c, r) ← SkipHorizontalSpace r;
  if (c =? 10) || (c =? 0) then Ok (None, r)
  else
    '(tok, isTerm, _, r) ← ReadUntil r Spaces newLineTerms;
    Ok (match tok with [] => None | _ => Some tok end, if isTerm : bool then r else (SkipUntil r newLineTerms).2).

(** [parseSearch]: the loop; every round reads a byte or more. *)
Fixpoint search_loop (fuel : nat) (r : Reader) (names : list (list Z)) (curLen : nat) : outcome unit (list (list Z) * Reader) :=
  match fuel with
  | O => NoFuel
  | S fuel =>
      '(_, c, r) ← SkipHorizontalSpace r;
      if (c =? 10) || (c =? 0) then Ok (names, r)
      else
        '(tok, isTerm, _, r) ← ReadUntil r Spaces newLineTerms;
        match tok with
        | [] => if isTerm : bool then Ok (names, r) else search_loop fuel r names curLen
        | _ =>
            if decide (255 < curLen + length tok)%nat then Ok (names, r)
            else
              let names := names ++ [tok] in
              if decide (length names = 6%nat) then Ok (names, r)
              else if isTerm : bool then Ok (names, r)
              else search_loop fuel r names (curLen + length tok)
        end
  end.
Definition parseSearch (rc : ResolvConf) (r : Reader) : outcome unit (ResolvConf * Reader) :=
  '(names, r) ← search_loop (S (length (V r))) r [] 0;
  Ok (set_Search rc names, (SkipUntil r newLineTerms).2).

(** [parseOptionsKV]: the first colon ends the name. *)
Fixpoint cut_colon (s : list Z) : option (list Z * list Z) :=
  match s with
  | [] => None
  | c :: s => if c =? 58 then Some ([], s) else '(k, v) ← cut_colon s; Some (c :: k, v)
  end.
Definition parseOptionsKV (rc : ResolvConf) (opt : list Z) : ResolvConf :=
  let '(k, v) := match cut_colon opt with Some r => r | None => ([], []) end in
  let k := match k with [] => opt | _ => k end in
  if bool_decide (k = str "ndots") then set_NDots rc (Atoi v)
  else if bool_decide (k = str "timeout") then set_Timeout rc (Atoi v)
  else if bool_decide (k = str "attempts") then set_Attempts rc (Atoi v)
  else match k with [] => rc | _ => set_OptMisc rc ({[ k ]} ∪ OptMisc rc) end.
Fixpoint options_loop (fuel : nat) (rc : ResolvConf) (r : Reader) : outcome unit (ResolvConf * Reader) :=
  match fuel with
  | O => NoFuel
  | S fuel =>
      '(_, c, r) ← SkipHorizontalSpace r;
      if (c =? 10) || (c =? 0) then Ok (rc, r)
      else
        '(tok, isTerm, _, r) ← ReadUntil r Spaces newLineTerms;
        let rc := match tok with [] => rc | _ => parseOptionsKV rc tok end in
        if isTerm : bool then Ok (rc, r) else options_loop fuel rc r
  end.
Definition parseOptions (rc : ResolvConf) (r : Reader) : outcome unit (ResolvConf * Reader) := options_loop (S (length (V r))) rc r.

(** [sanitize]. *)
Definition between (n low high : Z) : Z := if n =? 0 then low else if high <? n then high else n.
Fixpoint join_dots (l : list (list Z)) : list Z := match l with [] => [] | [x] => x | x :: l => x ++ 46 :: join_dots l end.
Definition sanitize (hostname localdomain : list Z) (rc : ResolvConf) : ResolvConf :=
  let d := match Domain rc with [] => hostname | d => d end in
  let d := match d with [] => [] | _ => match Split 46 d with _ :: ((_ :: _) as names) => join_dots names | _ => d end end in
  let s := match localdomain with [] => Search rc | _ => take 6 (Split 32 localdomain) end in
  mkResolv d s (NameServers rc) (between (NDots rc) 1 15) (between (Timeout rc) 5 30) (between (Attempts rc) 2 5) (OptMisc rc).

(** [parse]: a round for a line. *)
Definition rc_line (rc : ResolvConf) (v : list Z) (r : Reader) : outcome unit (ResolvConf * Reader) :=
  if bool_decide (v = str "domain") then
    '(d, r) ← parseValue r; Ok (match d with Some d => set_Domain rc d | None => rc end, r)
  else if bool_decide (v = str "search") then parseSearch rc r
  else if bool_decide (v = str "nameserver") then
    '(v, r) ← parseValue r;
    Ok (match v with
        | Some v => if decide (length (NameServers rc) < 3)%nat then set_NameServers rc (NameServers rc ++ [v]) else rc
        | None => rc
        end, r)
  else if bool_decide (v = str "options") then parseOptions rc r
  else Ok (rc, (SkipUntil r newLineTerms).2).
Fixpoint rc_loop (fuel : nat) (rc : ResolvConf) (r : Reader) : outcome unit ResolvConf :=
  match fuel with
  | O => NoFuel
  | S fuel =>
      let '(c, r) := SkipSpaces r in
      if c =? 0 then Ok rc
      else if (c =? 59) || (c =? 35) then rc_loop fuel rc (SkipUntil r newLineTerms).2
      else
        '(tok, isTerm, _, r) ← ReadUntil r Spaces newLineTerms;
        if isTerm : bool then rc_loop fuel rc r
        else '(rc, r) ← rc_line rc (ToLower tok) r; rc_loop fuel rc r
  end.
Definition rc_parse (hostname localdomain : list Z) (rc : ResolvConf) (r : Reader) : outcome unit ResolvConf :=
  rc ← rc_loop (S (length (V r))) rc r; Ok (sanitize hostname localdomain rc).
(** [Init]. *)
Definition rc_Init (hostname localdomain : list Z) (rc : ResolvConf) (src : list Z) : outcome unit ResolvConf :=
  rc_parse hostname localdomain (rc_reset rc) (Init src).

Definition new_rc : ResolvConf := mkResolv [] [] [] 0 0 0 ∅.
Example resolv_sample :
  match rc_Init (str "a.b.example") [] new_rc (str "# name servers" ++ [10] ++ str "nameserver 1.1.1.1" ++ [10] ++ str "options ndots:20 rotate" ++ [10] ++ str "search a.example  b.example" ++ [10]) with
  | Ok rc => NameServers rc = [str "1.1.1.1"] /\ Search rc = [str "a.example"; str "b.example"] /\ NDots rc = 15 /\ bool_decide (str "rotate" ∈ OptMisc rc) = true /\ Domain rc = str "b.example"
  | _ => False
  end.
Proof. vm_compute. repeat split. Qed.

(** ** Facts

    What [sanitize] makes of the numbers: at most the bound, and never 0. *)
Lemma between_spec n low high : 0 < low <= high -> between n low high <= high /\ between n low high <> 0 /\ (0 <= n -> 0 < between n low high).
Proof. intros H. unfold between. destruct (Z.eqb_spec n 0); [lia|]. destruct (Z.ltb_spec high n); lia. Qed.

(** The reader stays within its text, which stays. *)
Definition on (r r' : Reader) : Prop := V r' = V r /\ (X r <= X r' <= length (V r))%nat.

Lemma on_trans r1 r2 r3 : on r1 r2 -> on r2 r3 -> on r1 r3.
Proof. intros [H1 H2] [H3 H4]. split; [congruence|]. rewrite H1 in H4. lia. Qed.

Lemma SkipSpaces_on r c r' : (X r <= length (V r))%nat -> SkipSpaces r = (c, r') -> on r r'.
Proof.
  intros Hw [= _ <-]. split; [done|]. cbn. pose proof (scan_le (fun c => negb (IsSpace c)) (unread r)) as H. unfold unread in *. rewrite length_drop in H. lia.
Qed.

Lemma SkipUntil_on r seps : (X r <= length (V r))%nat -> on r (SkipUntil r seps).2.
Proof.
  intros Hw. unfold SkipUntil. pose proof (scan_le (fun c => elem_byte c seps) (unread r)) as H. unfold unread in H at 2. rewrite length_drop in H.
  destruct (unread r !! _) as [c|] eqn:E; cbn; (split; [done|]); cbn; [|lia]. apply lookup_lt_Some in E. unfold unread in E at 2. rewrite length_drop in E. lia.
Qed.

Lemma SkipUntil_lt r seps : (X r < length (V r))%nat -> (X r < X (SkipUntil r seps).2)%nat.
Proof.
  intros Hw. unfold SkipUntil. destruct (unread r !! _) as [c|] eqn:E; cbn; [lia|]. apply lookup_ge_None in E. unfold unread in E at 1. rewrite length_drop in E. lia.
Qed.

Lemma SkipHorizontalSpace_on r : (X r <= length (V r))%nat -> exists n c r', SkipHorizontalSpace (E := unit) r = Ok (n, c, r') /\ on r r' /\
  (c <> 0 -> (X r' < length (V r'))%nat).
Proof.
  intros Hw. unfold SkipHorizontalSpace. pose proof (scan_le (fun c => negb ((c =? 9) || (c =? 13) || (c =? 32))) (unread r)) as H. unfold unread in H at 2. rewrite length_drop in H.
  set (n := scan _ _) in *. cbn [X V at_X]. destruct (decide _) as [He|He].
  - eexists _, _, _. split; [done|]. split; [|done]. split; [done|cbn; lia].
  - unfold get_at. destruct (V r !! (X r + n)%nat) as [c|] eqn:E; [|apply lookup_ge_None in E; lia]. eexists _, _, _. split; [done|]. split; [split; [done|cbn; lia]|]. cbn. lia.
Qed.

Lemma ReadUntil_on r seps terms : (X r < length (V r))%nat -> exists tok t c r', ReadUntil (E := unit) r seps terms = Ok (tok, t, c, r') /\ on r r' /\ (X r < X r')%nat.
Proof.
  intros Hw. unfold ReadUntil. set (p := fun c => elem_byte c terms || elem_byte c seps). pose proof (scan_le p (unread r)) as H. unfold unread in H at 2. rewrite length_drop in H.
  rewrite slice_Ok by lia. cbn [mbind outcome_bind]. destruct (unread r !! scan p (unread r)) as [c|] eqn:E.
  - pose proof (lookup_lt_Some _ _ _ E) as Hl. unfold unread in Hl at 2. rewrite length_drop in Hl. eexists _, _, _, _. split; [done|]. split; [split; [done|cbn; lia]|]. cbn. lia.
  - apply lookup_ge_None in E. unfold unread in E at 1. rewrite length_drop in E. eexists _, _, _, _. split; [done|]. split; [split; [done|cbn; lia]|]. cbn. lia.
Qed.

(** A line: what is made of it, and that it ends within the text. *)
Definition rc_ok (rc : ResolvConf) : Prop := (length (Search rc) <= 6)%nat /\ (length (NameServers rc) <= 3)%nat.

Lemma parseValue_on r : (X r <= length (V r))%nat -> exists v r', parseValue r = Ok (v, r') /\ on r r'.
Proof.
  intros Hw. unfold parseValue. destruct (SkipHorizontalSpace_on r Hw) as (n & c & r1 & -> & H1 & Hc). cbn [mbind outcome_bind].
  destruct ((c =? 10) || (c =? 0)) eqn:E; [by eexists _, _|]. apply orb_false_iff in E as [_ E]. apply Z.eqb_neq in E.
  destruct (ReadUntil_on r1 Spaces newLineTerms (Hc E)) as (tok & t & c' & r2 & -> & H2 & _). cbn [mbind outcome_bind].
  eexists _, _. split; [done|]. assert (H12 : on r r2) by (by eapply on_trans). destruct t; [done|]. eapply on_trans; [exact H12|]. apply SkipUntil_on. destruct H12 as [-> ?]. lia.
Qed.

Lemma search_loop_on fuel : forall r names k, (X r <= length (V r))%nat -> (length (V r) - X r < fuel)%nat -> (length names < 6)%nat ->
  exists names' r', search_loop fuel r names k = Ok (names', r') /\ on r r' /\ (length names' <= 6)%nat.
Proof.
  induction fuel as [|fuel IH]; intros r names k Hw Hf Hn; [lia|]. cbn [search_loop].
  destruct (SkipHorizontalSpace_on r Hw) as (n & c & r1 & -> & H1 & Hc). cbn [mbind outcome_bind].
  destruct ((c =? 10) || (c =? 0)) eqn:E; [eexists _, _; split; [done|]; split; [done|lia]|]. apply orb_false_iff in E as [_ E]. apply Z.eqb_neq in E.
  destruct (ReadUntil_on r1 Spaces newLineTerms (Hc E)) as (tok & t & c' & r2 & -> & H2 & Hlt). cbn [mbind outcome_bind].
  assert (H12 : on r r2) by (by eapply on_trans).
  assert (Hend : forall ns : list (list Z), (length ns <= 6)%nat -> exists names' r', Ok (ns, r2) = (Ok (names', r') : outcome unit _) /\ on r r' /\ (length names' <= 6)%nat)
    by (intros ns Hns; by eexists _, _).
  assert (Hgo : forall ns k', (length ns < 6)%nat -> exists names' r', search_loop fuel r2 ns k' = Ok (names', r') /\ on r r' /\ (length names' <= 6)%nat).
  { intros ns k' Hns. destruct H12 as [Hv Hx]. destruct H1 as [Hv1 Hx1]. destruct (IH r2 ns k' ltac:(rewrite Hv; lia) ltac:(rewrite Hv; lia) Hns) as (ns' & r' & Hr & Hon & Hl).
    eexists _, _. split; [exact Hr|]. split; [|done]. eapply on_trans; [|exact Hon]. by split. }
  destruct tok as [|b tok]; [destruct t; [apply Hend; lia|by apply Hgo]|]. destruct (decide _); [apply Hend; lia|].
  assert (Hl : (length (names ++ [b :: tok]) = S (length names))%nat) by (rewrite length_app; cbn; lia).
  destruct (decide _); [apply Hend; lia|]. destruct t; [apply Hend; lia|]. apply Hgo. lia.
Qed.

Lemma options_loop_on fuel : forall rc r, (X r <= length (V r))%nat -> (length (V r) - X r < fuel)%nat ->
  exists rc' r', options_loop fuel rc r = Ok (rc', r') /\ on r r' /\ Search rc' = Search rc /\ NameServers rc' = NameServers rc.
Proof.
  induction fuel as [|fuel IH]; intros rc r Hw Hf; [lia|]. cbn [options_loop].
  destruct (SkipHorizontalSpace_on r Hw) as (n & c & r1 & -> & H1 & Hc). cbn [mbind outcome_bind].
  destruct ((c =? 10) || (c =? 0)) eqn:E; [by eexists _, _|]. apply orb_false_iff in E as [_ E]. apply Z.eqb_neq in E.
  destruct (ReadUntil_on r1 Spaces newLineTerms (Hc E)) as (tok & t & c' & r2 & -> & H2 & Hlt). cbn [mbind outcome_bind].
  assert (H12 : on r r2) by (by eapply on_trans).
  assert (Hkv : forall o, Search (parseOptionsKV rc o) = Search rc /\ NameServers (parseOptionsKV rc o) = NameServers rc).
  { intros o. unfold parseOptionsKV. destruct (match cut_colon o with Some r => r | None => ([], []) end) as [k v]. repeat case_match; done. }
  set (rc1 := match tok with [] => rc | _ => _ end). assert (Hrc : Search rc1 = Search rc /\ NameServers rc1 = NameServers rc) by (unfold rc1; destruct tok; [done|apply Hkv]).
  destruct t; [by eexists _, _|]. destruct H12 as [Hv Hx]. destruct H1 as [Hv1 Hx1].
  destruct (IH rc1 r2 ltac:(rewrite Hv; lia) ltac:(rewrite Hv; lia)) as (rc' & r' & Hr & Hon & Hs & Hn).
  eexists _, _. split; [exact Hr|]. split; [|split; [by rewrite Hs, (proj1 Hrc)|by rewrite Hn, (proj2 Hrc)]]. eapply on_trans; [|exact Hon]. by split.
Qed.

Lemma rc_line_on rc v r : (X r <= length (V r))%nat -> rc_ok rc -> exists rc' r', rc_line rc v r = Ok (rc', r') /\ on r r' /\ rc_ok rc'.
Proof.
  intros Hw [Hs Hn]. unfold rc_line, rc_ok.
  destruct (bool_decide _); [|destruct (bool_decide _); [|destruct (bool_decide _); [|destruct (bool_decide _)]]].
  - destruct (parseValue_on r Hw) as (d & r' & -> & Hon). cbn [mbind outcome_bind]. eexists _, _. split; [done|]. split; [done|]. by destruct d.
  - unfold parseSearch. destruct (search_loop_on (S (length (V r))) r [] 0 Hw ltac:(lia) ltac:(cbn; lia)) as (ns & r' & -> & Hon & Hl). cbn [mbind outcome_bind].
    eexists _, _. split; [done|]. split; [|done]. eapply on_trans; [exact Hon|]. apply SkipUntil_on. destruct Hon as [-> ?]. lia.
  - destruct (parseValue_on r Hw) as (d & r' & -> & Hon). cbn [mbind outcome_bind]. eexists _, _. split; [done|]. split; [done|]. destruct d; [|done].
    destruct (decide _); [|done]. cbn. rewrite length_app. cbn. lia.
  - unfold parseOptions. destruct (options_loop_on (S (length (V r))) rc r Hw ltac:(lia)) as (rc' & r' & -> & Hon & H1 & H2). eexists _, _. split; [done|]. split; [done|]. by rewrite H1, H2.
  - eexists _, _. split; [done|]. split; [by apply SkipUntil_on|done].
Qed.

Lemma rc_loop_on fuel : forall rc r, (X r <= length (V r))%nat -> (length (V r) - X r < fuel)%nat -> rc_ok rc ->
  exists rc', rc_loop fuel rc r = Ok rc' /\ rc_ok rc'.
Proof.
  induction fuel as [|fuel IH]; intros rc r Hw Hf Hok; [lia|]. cbn [rc_loop]. destruct (SkipSpaces r) as [c r1] eqn:Es.
  pose proof (SkipSpaces_on r c r1 Hw Es) as [Hv1 Hx1]. assert (Hc : c <> 0 -> (X r1 < length (V r1))%nat).
  { injection Es as Hc <-. cbn. intros Hne. destruct (unread r !! _) as [b|] eqn:E; [|cbn in Hc; congruence]. apply lookup_lt_Some in E. unfold unread in E at 2. rewrite length_drop in E. lia. }
  destruct (Z.eqb_spec c 0) as [->|Hne]; [by exists rc|]. specialize (Hc Hne).
  destruct (ReadUntil_on r1 Spaces newLineTerms Hc) as (tok & t & c' & r2 & Hr & [Hv2 Hx2] & Hlt).
  pose proof (f_equal length Hv1) as L1. pose proof (f_equal length Hv2) as L2.
  destruct ((c =? 59) || (c =? 35)) eqn:E.
  - pose proof (SkipUntil_on r1 newLineTerms ltac:(lia)) as [Hv3 Hx3]. pose proof (SkipUntil_lt r1 newLineTerms Hc) as Hlt3. pose proof (f_equal length Hv3) as L3.
    apply IH; [lia|lia|done].
  - rewrite Hr. cbn [mbind outcome_bind]. destruct t; [apply IH; [lia|lia|done]|].
    destruct (rc_line_on rc (ToLower tok) r2 ltac:(lia) Hok) as (rc' & r3 & -> & [Hv3 Hx3] & Hok'). cbn [mbind outcome_bind].
    pose proof (f_equal length Hv3) as L3. apply IH; [lia|lia|done].
Qed.

(** C30: every text of a [resolv.conf] is parsed, without a panic and in a bounded number of
    rounds; at most three name servers and at most six names to search are kept, and the
    three numbers are not 0 and not above their bounds. *)
Theorem resolv_bounds (hostname localdomain : list Z) (rc : ResolvConf) (src : list Z) :
  exists rc', rc_Init hostname localdomain rc src = Ok rc' /\ rc_ok rc' /\
    NDots rc' <= 15 /\ Timeout rc' <= 30 /\ Attempts rc' <= 5 /\ NDots rc' <> 0 /\ Timeout rc' <> 0 /\ Attempts rc' <> 0.
Proof.
  unfold rc_Init, rc_parse. destruct (rc_loop_on (S (length (V (Init src)))) (rc_reset rc) (Init src)) as (rc' & -> & Hs & Hn); [cbn; lia..|by split; cbn; lia|].
  cbn [mbind outcome_bind]. eexists. split; [done|]. unfold rc_ok, sanitize. cbn [Search NameServers NDots Timeout Attempts].
  pose proof (between_spec (NDots rc') 1 15). pose proof (between_spec (Timeout rc') 5 30). pose proof (between_spec (Attempts rc') 2 5).
  split; [|split_and!; lia]. split; [|done]. destruct localdomain; [done|]. rewrite length_take. lia.
Qed.

(** The line behind a list of names to search is lost, unless a blank ends the list. *)
Example search_takes_next_line :
  let read text := match rc_Init (str "h") [] new_rc text with Ok rc => NameServers rc | _ => [] end in
  read (str "search a b" ++ [10] ++ str "nameserver 1.1.1.1" ++ [10]) = [] /\
  read (str "search a b " ++ [10] ++ str "nameserver 1.1.1.1" ++ [10]) = [str "1.1.1.1"].
Proof. vm_compute. split; reflexivity. Qed.

(** A negative number is kept, and an [Init] keeps the numbers of the one before. *)
Example numbers_kept :
  match rc_Init (str "h") [] new_rc (str "options ndots:-3" ++ [10]) with
  | Ok rc => NDots rc = -3 /\ match rc_Init (str "h") [] rc [] with Ok rc => NDots rc = -3 | _ => False end
  | _ => False
  end.
Proof. vm_compute. split; reflexivity. Qed.
