(* ===== verification/SmtpCommand.v ===== *)
(** Package [lib/smtp], files [smtp.go] and [command.go]: parsing of mailbox
    paths and of SMTP command lines.  A nil slice and an empty one are the same
    list: the code returns nil exactly for an invalid mailbox, which has no
    valid empty form. *)

From Stdlib Require Import ZArith Lia.
From S2P Require Import Prelude Ascii Utf8.

Local Open Scope Z_scope.

(** ** Mailbox paths *)

Definition allowOnLocal : list Z := str "!#$%&'*+-/=?^_`{|}~".
Definition allowOnDomain : list Z := str "-_".

(** [skipComment]: the index of the next [')'] at or after [x], or the length. *)
Fixpoint skipComment_from (rest : list Z) (x : nat) : nat :=
  match rest with
  | [] => x
  | c :: rest => if c =? 41 then x else skipComment_from rest (S x)
  end.
Definition skipComment (data : list Z) (x : nat) : nat := skipComment_from (drop x data) x.

(** The loop of [parseLocalDomain]. *)
Fixpoint parseLocalDomain_loop (fuel : nat) (data allow : list Z) (x : nat) (out : list Z)
    (isDot : bool) : list Z :=
  match fuel with
  | O => out
  | S fuel =>
      match data !! x with
      | None => out
      | Some c =>
          if c =? 40 then
            let x := skipComment data x in
            if decide (x = length data) then []
            else parseLocalDomain_loop fuel data allow (S x) out isDot
          else if isDot && (c =? 46) then []
          else
            let out := if isDot then out ++ [46] else out in
            if IsAlnum c then parseLocalDomain_loop fuel data allow (S x) (out ++ [c]) false
            else if bool_decide (c ∈ allow)
            then parseLocalDomain_loop fuel data allow (S x) (out ++ [c]) false
            else if c =? 46 then parseLocalDomain_loop fuel data allow (S x) out true
            else []
      end
  end.

Definition parseLocalDomain {E} (data allow : list Z) : outcome E (list Z) :=
  first ← get_at data 0;
  if first =? 46 then Ok []
  else
    last_ ← get_at data (length data - 1);
    if last_ =? 46 then Ok []
    else Ok (parseLocalDomain_loop (length data) data allow 0 [] false).

Definition parseDomainAddress {E} (data : list Z) : outcome E (list Z) :=
  first ← get_at data 0;
  last_ ← get_at data (length data - 1);
  if (first =? 91) && (last_ =? 93) then Ok data
  else parseLocalDomain data allowOnDomain.

(** [parseQuotedMailbox]: the loop over the bytes between the quotes. *)
Fixpoint parseQuotedMailbox_loop (data : list Z) (out : list Z) : list Z :=
  match data with
  | [] => out ++ [34]
  | c :: data =>
      if (c <? 32) || (c =? 34) || (126 <? c) then []
      else if c =? 92 then
        match data with
        | [] => []
        | d :: data => if (d <? 32) || (126 <? d) then [] else parseQuotedMailbox_loop data (out ++ [d])
        end
      else parseQuotedMailbox_loop data (out ++ [c])
  end.

Definition parseQuotedMailbox (data : list Z) : list Z := parseQuotedMailbox_loop data [34].

(** Standard library [bytes.LastIndex] for one byte. *)
Fixpoint LastIndex (s : list Z) (sep : Z) : option nat :=
  match s with
  | [] => None
  | b :: s =>
      match LastIndex s sep with
      | Some i => Some (S i)
      | None => if b =? sep then Some 0%nat else None
      end
  end.

Definition ParseMailbox {E} (data : list Z) : outcome E (list Z) :=
  if decide (length data = 0%nat) then Ok []
  else
    match LastIndex data 64 with
    | None => parseLocalDomain data allowOnLocal
    | Some at_ =>
        let local := take at_ data in
        let domain := drop (at_ + 1) data in
        first ← get_at local 0;
        local ←
          (if first =? 34 then
             if decide (length local = 1%nat) then Ok []
             else
               last_ ← get_at local (length local - 1);
               if last_ =? 34 then
                 Ok (parseQuotedMailbox (take (length local - 2) (drop 1 local)))
               else Ok local
           else parseLocalDomain local allowOnLocal);
        if decide (local = []) then Ok []
        else
          domain ← parseDomainAddress domain;
          if decide (domain = []) then Ok [] else Ok (local ++ [64] ++ domain)
    end.

Inductive path_error : Type :=
| errEmptyPath | errMissingOpening | errMissingClosing | errInvalidMailbox.

(** The source route: [x] moves past the first [':'], or to the end. *)
Fixpoint skipSourceRoute (rest : list Z) (x : nat) : nat :=
  match rest with
  | [] => x
  | c :: rest => if c =? 58 then S x else skipSourceRoute rest (S x)
  end.

Definition ParsePath (path : list Z) : outcome path_error (list Z) :=
  if decide (length path = 0%nat) then Err errEmptyPath
  else
    first ← get_at path 0;
    if negb (first =? 60) then Err errMissingOpening
    else
      last_ ← get_at path (length path - 1);
      if negb (last_ =? 62) then Err errMissingClosing
      else if decide (length path = 2%nat) then Ok []
      else
        c ← get_at path 1;
        let x := if c =? 64 then skipSourceRoute (drop 1 path) 1 else 1%nat in
        data ← slice path x (length path - 1);
        mailbox ← ParseMailbox data;
        if decide (mailbox = []) then Err errInvalidMailbox else Ok mailbox.

(** ** Commands *)

Inductive CommandKind : Type :=
| CommandZERO | CommandHELO | CommandEHLO | CommandAUTH | CommandMAIL | CommandRCPT
| CommandDATA | CommandRSET | CommandVRFY | CommandEXPN | CommandHELP | CommandNOOP
| CommandQUIT.

#[export] Instance CommandKind_eq_dec : EqDecision CommandKind.
Proof. solve_decision. Defined.

Record Command := mkCommand {
  Kind : CommandKind;
  Arg : list Z;
  Param : list Z;
  Params : gmap (list Z) (list Z)
}.

(** [newCommand]. *)
Definition newCommand : Command := mkCommand CommandZERO [] [] ∅.

Definition set_Kind (cmd : Command) (k : CommandKind) := mkCommand k (Arg cmd) (Param cmd) (Params cmd).
Definition set_Arg (cmd : Command) (a : list Z) := mkCommand (Kind cmd) a (Param cmd) (Params cmd).
Definition set_Param (cmd : Command) (p : list Z) := mkCommand (Kind cmd) (Arg cmd) p (Params cmd).
Definition set_Params (cmd : Command) (p : gmap (list Z) (list Z)) :=
  mkCommand (Kind cmd) (Arg cmd) (Param cmd) p.

(** [Command.reset]. *)
Definition reset (cmd : Command) : Command := mkCommand (Kind cmd) [] (Param cmd) ∅.

(** The three inner loops of [parseParams], on the rest of the line. *)
Fixpoint skip_blanks (line : list Z) : list Z :=
  match line with
  | c :: line' => if negb (c =? 32) then line else skip_blanks line'
  | [] => []
  end.

(** Key: up to and past ['=']; the boolean says that the line did not end. *)
Fixpoint scan_key (line k : list Z) : list Z * list Z :=
  match line with
  | [] => (k, [])
  | c :: line' => if c =? 61 then (k, line') else scan_key line' (k ++ [c])
  end.

Fixpoint scan_value (line v : list Z) : list Z * list Z :=
  match line with
  | [] => (v, [])
  | c :: line' => if c =? 32 then (v, line) else scan_value line' (v ++ [c])
  end.

Fixpoint parseParams_loop (fuel : nat) (line : list Z) (params : gmap (list Z) (list Z))
    : gmap (list Z) (list Z) :=
  match fuel, line with
  | S fuel, _ :: _ =>
      let '(k, line) := scan_key (skip_blanks line) [] in
      match line with
      | [] => params
      | _ =>
          let '(v, line) := scan_value line [] in
          let params :=
            if decide (0 < length k /\ 0 < length v)%nat then <[k := v]> params else params in
          parseParams_loop fuel (drop 1 line) params
      end
  | _, _ => params
  end.

Definition parseParams (cmd : Command) (line : list Z) : Command :=
  set_Params cmd (parseParams_loop (length line) line (Params cmd)).

Inductive cmd_error : Type := errCmdSyntaxError | errCmdTooLong | errCmdUnknown.

(** [Command.parsePath]: [x] is the index of the last ['>'] above 0. *)
Definition parsePath (cmd : Command) (b : list Z) : outcome cmd_error Command :=
  match b with
  | [] => Err errCmdSyntaxError
  | b0 :: _ =>
      if negb (b0 =? 60) then Err errCmdSyntaxError
      else
        match LastIndex b 62 with
        | None | Some O => Err errCmdSyntaxError
        | Some x =>
            match ParsePath (take (x + 1) b) with
            | Ok mb => Ok (parseParams (set_Arg cmd mb) (drop (x + 1) b))
            | Err _ => Err errCmdSyntaxError
            | Panic => Panic
            | NoFuel => NoFuel
            end
        end
  end.

Section Unpack.
Context `{Unicode}.

(** The switch on [cmdName[0]]: [b] is the line without CRLF and trailing
    spaces, [cmds] its pieces. *)
Definition unpack_switch (cmd : Command) (b : list Z) (cmds : list (list Z))
    (cmdName arg : list Z) : outcome cmd_error Command :=
  let named (name : string) := bool_decide (str name = cmdName) in
  let with_arg (k : CommandKind) :=
    let cmd := set_Kind cmd k in
    Ok (if decide (0 < length arg)%nat then set_Arg cmd arg else cmd) in
  let need_arg (k : CommandKind) :=
    if decide (length arg = 0%nat) then Err errCmdSyntaxError
    else Ok (set_Kind (set_Arg cmd arg) k) in
  c0 ← get_at cmdName 0;
  if c0 =? 97 then
    if named "auth"%string then
      if decide (length cmds = 1%nat \/ 3 < length cmds)%nat then Err errCmdSyntaxError
      else
        let cmd := set_Arg cmd arg in
        match cmds with
        | [_; _; p] => Ok (set_Kind (set_Param cmd p) CommandAUTH)
        | _ => Ok (set_Kind cmd CommandAUTH)
        end
    else Err errCmdUnknown
  else if c0 =? 100 then
    if named "data"%string then Ok (set_Kind cmd CommandDATA) else Err errCmdUnknown
  else if c0 =? 101 then
    if named "ehlo"%string then with_arg CommandEHLO
    else if named "expn"%string then need_arg CommandEXPN
    else Err errCmdUnknown
  else if c0 =? 104 then
    if named "helo"%string then with_arg CommandHELO
    else if named "help"%string then with_arg CommandHELP
    else Err errCmdUnknown
  else if c0 =? 109 then
    if decide (10 <= length b)%nat then
      if EqualFold_ascii (str "mail from:") (take 10 b) then
        cmd ← parsePath cmd (drop 10 b); Ok (set_Kind cmd CommandMAIL)
      else Err errCmdUnknown
    else Err errCmdUnknown
  else if c0 =? 110 then
    if named "noop"%string then Ok (set_Kind cmd CommandNOOP) else Err errCmdUnknown
  else if c0 =? 113 then
    if named "quit"%string then Ok (set_Kind cmd CommandQUIT) else Err errCmdUnknown
  else if c0 =? 114 then
    if bool_decide (8 <= length b)%nat && EqualFold_ascii (str "rcpt to:") (take 8 b) then
      cmd ← parsePath cmd (drop 8 b); Ok (set_Kind cmd CommandRCPT)
    else if named "rset"%string then Ok (set_Kind cmd CommandRSET)
    else Err errCmdUnknown
  else if c0 =? 118 then
    if named "vrfy"%string then need_arg CommandVRFY else Err errCmdUnknown
  else Err errCmdUnknown.

(** [Command.unpack]. *)
Definition unpack (cmd : Command) (b : list Z) : outcome cmd_error Command :=
  if decide (length b < 6)%nat then Err errCmdUnknown
  else if decide (512 < length b)%nat then Err errCmdTooLong
  else if negb (bool_decide (drop (length b - 2) b = [13; 10])) then Err errCmdSyntaxError
  else
    let b := TrimRight_spaces (take (length b - 2) b) in
    let cmds := Split 32 b in
    let cmdName := text_ToLower (hd [] cmds) in
    let arg := match cmds with _ :: a :: _ => TrimSpace a | _ => [] end in
    unpack_switch cmd b cmds cmdName arg.
End Unpack.

(** ** Where parsing a mailbox panics *)

Lemma LastIndex_lt s sep i : LastIndex s sep = Some i -> (i < length s)%nat /\ s !! i = Some sep.
Proof.
  revert i. induction s as [|b s IH]; intros i; simpl; [done|].
  destruct (LastIndex s sep) as [j|].
  - intros [= <-]. destruct (IH j eq_refl). split; [lia|done].
  - destruct (Z.eqb_spec b sep) as [->|]; [|done]. intros [= <-]. split; [lia|done].
Qed.

Lemma get_at_last {E A} (l : list A) : l ≠ [] ->
  exists d, get_at (E := E) l (length l - 1) = Ok d /\ l !! (length l - 1)%nat = Some d.
Proof.
  intros Hl. destruct (lookup_lt_is_Some_2 l (length l - 1)) as [d Hd].
  { destruct l; simpl; [done|lia]. }
  exists d. split; [by apply get_at_Some | done].
Qed.

Lemma parseLocalDomain_nonempty {E} data allow : data ≠ [] ->
  exists out, parseLocalDomain (E := E) data allow = Ok out.
Proof.
  intros Hne. destruct (get_at_last (E := E) data Hne) as (d & Hd & _).
  unfold parseLocalDomain. rewrite Hd. destruct data as [|c data]; [done|].
  cbn [get_at lookup list_lookup mbind outcome_bind].
  unfold get_at. simpl. destruct (c =? 46), (d =? 46); eauto.
Qed.

Lemma parseDomainAddress_nonempty {E} data : data ≠ [] ->
  exists out, parseDomainAddress (E := E) data = Ok out.
Proof.
  intros Hne. destruct (get_at_last (E := E) data Hne) as (d & Hd & _).
  destruct (parseLocalDomain_nonempty (E := E) data allowOnDomain Hne) as [out Ho].
  unfold parseDomainAddress. rewrite Hd, Ho. destruct data as [|c data]; [done|].
  unfold get_at. simpl. destruct (_ && _); eauto.
Qed.

(** The local part [ParseMailbox] computes from the bytes before the last ['@']. *)
Definition local_part (local : list Z) : list Z :=
  match local with
  | [] => []
  | c :: _ =>
      if c =? 34 then
        if decide (length local = 1%nat) then []
        else if bool_decide (local !! (length local - 1)%nat = Some 34)
             then parseQuotedMailbox (take (length local - 2) (drop 1 local)) else local
      else match parseLocalDomain (E := unit) local allowOnLocal with Ok l => l | _ => [] end
  end.

Lemma local_part_eq {E} local : local ≠ [] ->
  (first ← get_at local 0;
   if first =? 34 then
     if decide (length local = 1%nat) then Ok []
     else
       last_ ← get_at local (length local - 1);
       if last_ =? 34 then Ok (parseQuotedMailbox (take (length local - 2) (drop 1 local)))
       else Ok local
   else parseLocalDomain local allowOnLocal) = Ok (E := E) (local_part local).
Proof.
  intros Hne. destruct (get_at_last (E := E) local Hne) as (d & Hd & Hd').
  assert (Hp : forall E', parseLocalDomain (E := E') local allowOnLocal
    = Ok (match parseLocalDomain (E := unit) local allowOnLocal with Ok l => l | _ => [] end)).
  { intros E'. unfold parseLocalDomain. destruct local as [|c l]; [done|]. unfold get_at; simpl.
    destruct (c =? 46); [done|]. simpl in Hd'. rewrite Hd'. simpl. by destruct (d =? 46). }
  rewrite Hp, Hd. unfold local_part. rewrite Hd'. destruct local as [|c l]; [done|].
  unfold get_at. cbn [lookup list_lookup mbind outcome_bind]. destruct (c =? 34); [|done].
  destruct (decide _); [done|]. destruct (Z.eqb_spec d 34) as [->|Hd34].
  - by rewrite bool_decide_eq_true_2.
  - by rewrite bool_decide_eq_false_2 by congruence.
Qed.

Lemma ParseMailbox_at {E} data at_ :
  LastIndex data 64 = Some at_ ->
  ParseMailbox (E := E) data =
    if decide (at_ = 0%nat) then Panic
    else if decide (local_part (take at_ data) = []) then Ok []
    else domain ← parseDomainAddress (drop (at_ + 1) data);
         if decide (domain = []) then Ok [] else Ok (local_part (take at_ data) ++ [64] ++ domain).
Proof.
  intros Hat. destruct (LastIndex_lt _ _ _ Hat) as [Hlt _]. unfold ParseMailbox.
  rewrite decide_False by lia. rewrite Hat. destruct at_ as [|n]; [done|].
  rewrite (decide_False (P := S n = 0%nat)) by lia.
  assert (Hne : take (S n) data ≠ []) by (by destruct data).
  pose proof (local_part_eq (E := E) _ Hne) as Hl. cbv zeta.
  revert Hl. destruct (get_at (take (S n) data) 0) as [c| | |]; try done.
  cbn [mbind outcome_bind]. intros ->. done.
Qed.

(** [ParseMailbox] indexes its parts without looking at their length: it
    panics exactly when the last ['@'] is the first byte, or is the last byte
    after a valid local part. *)
Theorem ParseMailbox_panics_iff data :
  ParseMailbox (E := unit) data = Panic <->
  exists at_, LastIndex data 64 = Some at_
    /\ (at_ = 0%nat \/ (S at_ = length data /\ local_part (take at_ data) ≠ [])).
Proof.
  destruct (LastIndex data 64) as [at_|] eqn:Hat.
  - destruct (LastIndex_lt _ _ _ Hat) as [Hlt _]. rewrite (ParseMailbox_at (E := unit) _ _ Hat).
    destruct (decide (at_ = 0%nat)) as [->|Hne]; [naive_solver|].
    destruct (decide (local_part (take at_ data) = [])) as [Hl|Hl].
    { split; [done|]. intros (? & [= <-] & [?|[??]]); done. }
    destruct (drop (at_ + 1) data) as [|d ds] eqn:Hd.
    + apply (f_equal length) in Hd. rewrite length_drop in Hd. simpl in Hd.
      split; [|done]. intros _. exists at_. split; [done|]. right. split; [lia|done].
    + destruct (parseDomainAddress_nonempty (E := unit) (d :: ds)) as [out ->]; [done|]. cbn [mbind outcome_bind].
      apply (f_equal length) in Hd. rewrite length_drop in Hd. simpl in Hd.
      split; [by destruct (decide (out = []))|]. intros (? & [= <-] & [?|[??]]); [done|lia].
  - split; [|intros (? & ? & _); done]. unfold ParseMailbox. rewrite Hat.
    destruct data as [|c data]; [done|]. rewrite decide_False by done.
    destruct (parseLocalDomain_nonempty (E := unit) (c :: data) allowOnLocal) as [out ->]; done.
Qed.

(** ** The text of a local part or domain *)

Definition local_char (allow : list Z) (c : Z) : Prop := IsAlnum c = true \/ c ∈ allow \/ c = 46.

(** No two dots in a row, and no dot at the end. *)
Fixpoint dots_ok (l : list Z) : Prop :=
  match l with
  | [] => True
  | c :: l' => (c = 46 -> exists d l'', l' = d :: l'' /\ d ≠ 46) /\ dots_ok l'
  end.

Lemma dots_ok_snoc l c : c ≠ 46 -> (dots_ok l \/ exists l', l = l' ++ [46] /\ dots_ok l') ->
  dots_ok (l ++ [c]).
Proof.
  intros Hc [Hl|(l' & -> & Hl)].
  - induction l as [|a l IH]; simpl in *; [naive_solver|]. destruct Hl as [Ha Hl].
    split; [|by apply IH]. intros Hdot. destruct (Ha Hdot) as (d & l'' & -> & Hd). simpl. eauto.
  - induction l' as [|a l IH]; simpl in *; [naive_solver|]. destruct Hl as [Ha Hl].
    split; [|by apply IH]. intros Hdot. destruct (Ha Hdot) as (d & l'' & -> & Hd). simpl. eauto.
Qed.

Lemma alnum_not_dot c : IsAlnum c = true -> c ≠ 46.
Proof. by intros H ->. Qed.

Lemma parseLocalDomain_loop_wf allow : 46 ∉ allow -> forall fuel data x out isDot,
  Forall (local_char allow) out -> dots_ok out ->
  let r := parseLocalDomain_loop fuel data allow x out isDot in
  Forall (local_char allow) r /\ dots_ok r.
Proof.
  intros Hdot. induction fuel as [|fuel IH]; intros data x out isDot Hall Hd; simpl; [done|].
  destruct (data !! x) as [c|]; [|done].
  destruct (c =? 40); [destruct (decide _); [split; constructor | by apply IH]|].
  destruct (isDot && (c =? 46)) eqn:Hdd; [split; constructor|].
  set (out' := if isDot then out ++ [46] else out).
  assert (Hout' : Forall (local_char allow) out') by
    (unfold out'; destruct isDot; [apply Forall_app; split; [done|apply Forall_singleton; by right; right]|done]).
  assert (Hdots : forall c, c ≠ 46 -> dots_ok (out' ++ [c])) by
    (intros; apply dots_ok_snoc; [done|]; unfold out'; destruct isDot; [right|left]; eauto).
  destruct (IsAlnum c) eqn:Hal.
  { apply IH; [apply Forall_app; split; [done|apply Forall_singleton; by left]|].
    by apply Hdots, alnum_not_dot. }
  case_bool_decide as Hin.
  { apply IH; [apply Forall_app; split; [done|apply Forall_singleton; by right; left]|].
    apply Hdots. by intros ->. }
  destruct (c =? 46); [|split; constructor]. rewrite andb_true_r in Hdd. subst isDot. by apply IH.
Qed.

(** Whatever bytes it is given, [parseLocalDomain] returns nothing, or a
    text of letters, digits, dots and the allowed characters in which no two
    dots are adjacent and the last character is no dot. *)
Theorem parseLocalDomain_wf data allow :
  46 ∉ allow ->
  match parseLocalDomain (E := unit) data allow with
  | Ok out => Forall (local_char allow) out /\ dots_ok out
  | Panic => data = []
  | _ => False
  end.
Proof.
  intros Hdot. destruct (decide (data = [])) as [->|Hne]; [done|].
  destruct (parseLocalDomain_nonempty (E := unit) data allow Hne) as [out Ho].
  rewrite Ho. unfold parseLocalDomain in Ho. apply bind_Ok_inv in Ho as (c & _ & Ho).
  destruct (c =? 46); [injection Ho as <-; by split; [constructor|]|].
  apply bind_Ok_inv in Ho as (d & _ & Ho).
  destruct (d =? 46); injection Ho as <-; [by split; [constructor|]|].
  by apply parseLocalDomain_loop_wf.
Qed.

Lemma parseLocalDomain_wf_witness :
  (46 ∉ allowOnLocal) /\
  match parseLocalDomain (E := unit) (str "a.(x)b+c") allowOnLocal with
  | Ok out => Forall (local_char allowOnLocal) out /\ dots_ok out
  | Panic => str "a.(x)b+c" = []
  | _ => False
  end.
Proof.
  assert (H : 46 ∉ allowOnLocal) by (apply (bool_decide_unpack _); vm_compute; exact I).
  split; [exact H | apply (parseLocalDomain_wf (str "a.(x)b+c") allowOnLocal H)].
Defined.

(** ** A well-formed MAIL or RCPT command is understood *)

Definition alnum (l : list Z) : Prop := l ≠ [] /\ Forall (fun c => IsAlnum c = true) l.

Lemma alnum_range c : IsAlnum c = true -> 48 <= c <= 122 /\ c ≠ 64 /\ c ≠ 58 /\ c ≠ 62.
Proof.
  unfold IsAlnum, IsAlpha, IsDigit. rewrite !orb_true_iff, !andb_true_iff, !Z.leb_le. lia.
Qed.

Lemma alnum_not_in l c : alnum l -> IsAlnum c = false -> c ∉ l.
Proof.
  intros [_ Hl] Hc Hin. rewrite Forall_forall in Hl. specialize (Hl c Hin). congruence.
Qed.

Lemma parseLocalDomain_loop_alnum data allow : Forall (fun c => IsAlnum c = true) data ->
  forall fuel x out, (length data - x <= fuel)%nat ->
  parseLocalDomain_loop fuel data allow x out false = out ++ drop x data.
Proof.
  intros Hall. induction fuel as [|fuel IH]; intros x out Hf; simpl.
  { rewrite drop_ge by lia. by rewrite app_nil_r. }
  destruct (data !! x) as [c|] eqn:Hc.
  2:{ apply lookup_ge_None in Hc. rewrite drop_ge by done. by rewrite app_nil_r. }
  assert (Hal : IsAlnum c = true) by exact (proj1 (Forall_lookup _ _) Hall x c Hc).
  pose proof (lookup_lt_Some _ _ _ Hc). pose proof (alnum_range c Hal) as [? _].
  rewrite (proj2 (Z.eqb_neq c 40)) by lia. cbn [andb]. rewrite Hal, IH by lia.
  rewrite (drop_S_lookup data x c Hc). by rewrite <- (assoc_L (++)).
Qed.

Lemma parseLocalDomain_alnum {E} data allow : alnum data ->
  parseLocalDomain (E := E) data allow = Ok data.
Proof.
  intros [Hne Hall]. unfold parseLocalDomain.
  destruct (get_at_last (E := E) data Hne) as (d & Hd & Hd'). rewrite Hd.
  destruct data as [|c data]; [done|]. unfold get_at at 1. cbn [lookup list_lookup mbind outcome_bind].
  assert (Hdot : forall a i, (c :: data) !! i = Some a -> (a =? 46) = false).
  { intros a i Ha. apply (proj1 (Forall_lookup _ _) Hall) in Ha.
    apply alnum_range in Ha as [? _]. apply Z.eqb_neq. lia. }
  rewrite (Hdot c 0%nat), (Hdot d (length (c :: data) - 1)%nat) by done.
  rewrite parseLocalDomain_loop_alnum by (done || lia). done.
Qed.

Lemma LastIndex_app s sep t : sep ∉ t -> LastIndex (s ++ sep :: t) sep = Some (length s).
Proof.
  intros Ht. induction s as [|b s IH]; simpl; [|by rewrite IH].
  assert (LastIndex t sep = None) as ->.
  { destruct (LastIndex t sep) as [i|] eqn:Hi; [|done].
    destruct Ht. apply LastIndex_lt in Hi as [_ Hi]. by eapply list_elem_of_lookup_2. }
  by rewrite Z.eqb_refl.
Qed.

Definition mailbox_text (local domain : list Z) : list Z := local ++ 64 :: domain.

Lemma ParseMailbox_alnum {E} local domain : alnum local -> alnum domain ->
  ParseMailbox (E := E) (mailbox_text local domain) = Ok (mailbox_text local domain).
Proof.
  intros Hl Hd. unfold mailbox_text.
  rewrite (ParseMailbox_at _ (length local)) by (apply LastIndex_app, (alnum_not_in _ _ Hd); done).
  assert (length local ≠ 0%nat) by (destruct Hl as [Hl _]; by destruct local).
  rewrite decide_False by done. rewrite take_app_length.
  assert (local_part local = local) as ->.
  { unfold local_part. rewrite (parseLocalDomain_alnum _ _ Hl). destruct Hl as [Hne Hall].
    destruct local as [|c l]; [done|]. apply Forall_inv in Hall. apply alnum_range in Hall as [? _].
    by rewrite (proj2 (Z.eqb_neq c 34)) by lia. }
  rewrite decide_False by apply Hl.
  replace (drop (length local + 1) _) with domain.
  2:{ rewrite cons_middle, (assoc_L (++)).
      rewrite (drop_app_length' (local ++ [64])); [done|]. rewrite length_app. done. }
  assert (parseDomainAddress (E := E) domain = Ok domain) as ->.
  { unfold parseDomainAddress. rewrite (parseLocalDomain_alnum _ _ Hd).
    destruct (get_at_last (E := E) domain) as (e & -> & _); [apply Hd|].
    destruct Hd as [Hne Hall]. destruct domain as [|c l]; [done|]. unfold get_at.
    cbn [lookup list_lookup mbind outcome_bind]. by destruct (_ && _). }
  cbn [mbind outcome_bind]. by rewrite decide_False by apply Hd.
Qed.

Lemma ParsePath_mailbox local domain : alnum local -> alnum domain ->
  ParsePath (60 :: mailbox_text local domain ++ [62]) = Ok (mailbox_text local domain).
Proof.
  intros Hl Hd. pose proof (ParseMailbox_alnum (E := path_error) local domain Hl Hd) as Hm.
  assert (Hne : mailbox_text local domain ≠ []) by (unfold mailbox_text; by destruct local).
  destruct (mailbox_text local domain) as [|c m] eqn:Hmt; [done|].
  assert (Hc : c ≠ 64).
  { destruct Hl as [Hne' Hall]. unfold mailbox_text in Hmt. destruct local as [|c' l]; [done|].
    injection Hmt as -> _. apply Forall_inv in Hall. by apply alnum_range in Hall as (_ & ? & _). }
  assert (Hlen : length (60 :: (c :: m) ++ [62]) = (2 + length (c :: m))%nat)
    by (simpl; rewrite length_app; simpl; lia).
  unfold ParsePath. rewrite Hlen. rewrite !decide_False by (simpl; lia).
  unfold get_at at 1. cbn [lookup list_lookup mbind outcome_bind]. cbn [Z.eqb Pos.eqb negb].
  rewrite app_comm_cons.
  rewrite (get_at_app_r (60 :: c :: m) [62] _ 0) by (simpl; lia).
  unfold get_at at 1. cbn [lookup list_lookup mbind outcome_bind]. cbn [Z.eqb Pos.eqb negb].
  unfold get_at at 1. cbn [app lookup list_lookup mbind outcome_bind].
  rewrite (proj2 (Z.eqb_neq c 64)) by done.
  rewrite (slice_app [60] (c :: m) [62]) by (simpl; lia). cbn [mbind outcome_bind].
  rewrite Hm. done.
Qed.

(** The parameters of a path, as the client writes them. *)
Definition param_text (kv : list Z * list Z) : list Z := 32 :: kv.1 ++ 61 :: kv.2.
Definition params_text (kvs : list (list Z * list Z)) : list Z := concat (param_text <$> kvs).

Definition param_ok (kv : list Z * list Z) : Prop :=
  kv.1 ≠ [] /\ kv.2 ≠ [] /\ Forall (fun c => c ≠ 32 /\ c ≠ 61 /\ c ≠ 62) kv.1
  /\ Forall (fun c => c ≠ 32 /\ c ≠ 62) kv.2.

Definition insert_params (m : gmap (list Z) (list Z)) (kvs : list (list Z * list Z)) :=
  fold_left (fun m (kv : list Z * list Z) => <[kv.1 := kv.2]> m) kvs m.

Lemma scan_key_app k rest acc : Forall (fun c => c ≠ 32 /\ c ≠ 61 /\ c ≠ 62) k ->
  scan_key (k ++ 61 :: rest) acc = (acc ++ k, rest).
Proof.
  intros Hk. revert acc. induction Hk as [|c k (_ & Hc & _) _ IH]; intros acc; simpl.
  - by rewrite app_nil_r.
  - rewrite (proj2 (Z.eqb_neq c 61)) by done. rewrite IH. by rewrite <- (assoc_L (++)).
Qed.

Lemma scan_value_app v rest acc : Forall (fun c => c ≠ 32 /\ c ≠ 62) v ->
  (rest = [] \/ exists r, rest = 32 :: r) -> scan_value (v ++ rest) acc = (acc ++ v, rest).
Proof.
  intros Hv Hrest. revert acc. induction Hv as [|c v [Hc _] _ IH]; intros acc; simpl.
  - rewrite app_nil_r. by destruct Hrest as [->|[r ->]].
  - rewrite (proj2 (Z.eqb_neq c 32)) by done. rewrite IH. by rewrite <- (assoc_L (++)).
Qed.

Lemma params_text_head kvs : params_text kvs = [] \/ exists r, params_text kvs = 32 :: r.
Proof. destruct kvs as [|kv kvs]; [by left|right]. unfold params_text. rewrite fmap_cons. simpl. eauto. Qed.

(** One iteration, on a line whose leading blank may have been dropped. *)
Lemma parseParams_loop_text kvs : forall fuel line m,
  Forall param_ok kvs -> (length (params_text kvs) <= fuel)%nat ->
  line = params_text kvs \/ line = drop 1 (params_text kvs) ->
  parseParams_loop fuel line m = insert_params m kvs.
Proof.
  induction kvs as [|[k v] kvs IH]; intros fuel line m Hall Hf Hline.
  { assert (line = []) as -> by (by destruct Hline as [-> | ->]). by destruct fuel. }
  apply Forall_cons in Hall as [(Hk & Hv & Hkall & Hvall) Hall]. simpl in Hk, Hv, Hkall, Hvall.
  assert (Htext : params_text ((k, v) :: kvs) = 32 :: k ++ 61 :: v ++ params_text kvs).
  { unfold params_text. rewrite fmap_cons. simpl. by rewrite <- (assoc_L (++)). }
  rewrite Htext in Hf, Hline. cbn [drop] in Hline. rewrite drop_0 in Hline.
  simpl in Hf. rewrite !length_app in Hf. simpl in Hf. rewrite length_app in Hf.
  destruct fuel as [|fuel]; [lia|].
  assert (Hskip : skip_blanks line = k ++ 61 :: v ++ params_text kvs).
  { destruct k as [|c k]; [done|]. apply Forall_inv in Hkall as (Hc & _).
    destruct Hline as [-> | ->]; cbn [skip_blanks app Z.eqb Pos.eqb negb];
      by rewrite (proj2 (Z.eqb_neq c 32)) by done. }
  assert (Hne : line ≠ []) by (destruct Hline as [-> | ->]; [done|by destruct k]).
  destruct line as [|c0 line0]; [done|]. cbn [parseParams_loop]. rewrite Hskip.
  rewrite scan_key_app by done. cbn [app].
  destruct (v ++ params_text kvs) as [|c1 w] eqn:Hvw; [by destruct v|]. rewrite <- Hvw.
  rewrite scan_value_app by (done || apply params_text_head). cbn [app].
  rewrite decide_True by (destruct k, v; simpl; try done; lia).
  rewrite IH; [done|done|lia|by right].
Qed.

Lemma parsePath_text cmd local domain kvs : alnum local -> alnum domain -> Forall param_ok kvs ->
  parsePath cmd (60 :: mailbox_text local domain ++ 62 :: params_text kvs)
  = Ok (set_Params (set_Arg cmd (mailbox_text local domain)) (insert_params (Params cmd) kvs)).
Proof.
  intros Hl Hd Hkvs. unfold parsePath. cbn [Z.eqb Pos.eqb negb].
  assert (Hgt : 62 ∉ params_text kvs).
  { intros Hin. unfold params_text in Hin. apply list_elem_of_In, in_concat in Hin as (t & Ht & Hin).
    apply list_elem_of_In, list_elem_of_fmap in Ht as (kv & -> & Hkv).
    rewrite Forall_forall in Hkvs. apply Hkvs in Hkv as (_ & _ & Hk & Hv).
    apply list_elem_of_In in Hin. unfold param_text in Hin.
    rewrite elem_of_cons, elem_of_app, elem_of_cons in Hin.
    rewrite Forall_forall in Hk, Hv.
    destruct Hin as [?|[Hin|[?|Hin]]]; [done| |done|]; [apply Hk in Hin|apply Hv in Hin]; naive_solver. }
  rewrite app_comm_cons, (LastIndex_app (60 :: mailbox_text local domain)) by done.
  cbn [length]. replace (S (length (mailbox_text local domain)) + 1)%nat
    with (length (60 :: mailbox_text local domain ++ [62])) by (simpl; rewrite length_app; simpl; lia).
  replace ((60 :: mailbox_text local domain) ++ 62 :: params_text kvs)
    with ((60 :: mailbox_text local domain ++ [62]) ++ params_text kvs)
    by (simpl; by rewrite <- (assoc_L (++))).
  rewrite take_app_length, drop_app_length, ParsePath_mailbox by done.
  unfold parseParams. by rewrite (parseParams_loop_text kvs) by (done || lia || by left).
Qed.

(** ** Command lines *)

Section UnpackFacts.
Context `{Unicode}.

Lemma TrimRight_spaces_cons_space s :
  TrimRight_spaces (32 :: s) = [] \/ exists t, TrimRight_spaces (32 :: s) = 32 :: t.
Proof. simpl. destruct (TrimRight_spaces s); [by left | right; eauto]. Qed.

(** A command line that begins with a space, of any legal length, makes
    [Command.unpack] index an empty command name: it panics instead of
    answering that the command is unknown. *)
Theorem unpack_leading_space_panics cmd s :
  (3 <= length s <= 509)%nat ->
  unpack cmd (32 :: s ++ [13; 10]) = Panic.
Proof.
  intros Hlen. unfold unpack.
  assert (Hl : length (32 :: s ++ [13; 10]) = (S (length s) + 2)%nat)
    by (simpl; rewrite length_app; simpl; lia).
  rewrite Hl, !decide_False by lia.
  replace (S (length s) + 2 - 2)%nat with (length (32 :: s)) by (simpl; lia).
  rewrite app_comm_cons, drop_app_length, take_app_length, bool_decide_eq_true_2 by done.
  cbn [negb].
  assert (Hhd : hd [] (Split 32 (TrimRight_spaces (32 :: s))) = []).
  { destruct (TrimRight_spaces_cons_space s) as [->|[t ->]]; [done|].
    unfold Split. cbn [split_on]. by destruct (split_on 32 t). }
  by rewrite Hhd.
Qed.

Lemma EncodeRune_nonempty r : EncodeRune r ≠ [].
Proof. unfold EncodeRune. repeat case_match; done. Qed.

Lemma text_ToLower_nonempty s : s ≠ [] -> text_ToLower s ≠ [].
Proof.
  destruct s as [|b s]; [done|]. intros _. unfold text_ToLower.
  destruct (forallb _ _); [done|]. unfold range_runes. cbn [length runes_from].
  destruct (DecodeRune (b :: s)) as [r n]. rewrite fmap_cons. cbn [concat].
  pose proof (EncodeRune_nonempty (rune_ToLower r)) as Hne. simpl.
  destruct (EncodeRune (rune_ToLower r)); done.
Qed.

Lemma split_hd_nonempty b s : b ≠ 32 -> exists t, hd [] (Split 32 (b :: s)) = b :: t.
Proof.
  intros Hb. unfold Split. cbn [split_on]. destruct (split_on 32 s) as [p ps].
  rewrite (proj2 (Z.eqb_neq _ _)) by done. simpl. eauto.
Qed.

Lemma TrimRight_spaces_hd b s : b ≠ 32 -> exists t, TrimRight_spaces (b :: s) = b :: t.
Proof.
  intros Hb. simpl. destruct (TrimRight_spaces s); [|eauto].
  rewrite (proj2 (Z.eqb_neq _ _)) by done. eauto.
Qed.

Lemma unpack_switch_panic cmd b cmds cmdName arg :
  cmdName ≠ [] -> unpack_switch cmd b cmds cmdName arg = Panic ->
  exists n, (n = 8%nat \/ n = 10%nat) /\ parsePath cmd (drop n b) = Panic.
Proof.
  intros Hne Hp. destruct cmdName as [|c0 cmdName]; [done|].
  unfold unpack_switch in Hp. unfold get_at at 1 in Hp. cbn [lookup list_lookup mbind outcome_bind] in Hp.
  repeat (case_match; try done).
  all: match type of Hp with context [parsePath ?a ?d] => destruct (parsePath a d) eqn:Hpp; try done end.
  all: eauto.
Qed.

(** Apart from a leading space, the only way [Command.unpack] can panic is
    through the path of a MAIL or RCPT command. *)
Theorem unpack_panics_in_path cmd c line :
  c ≠ 32 -> unpack cmd (c :: line) = Panic ->
  exists p, parsePath cmd p = Panic.
Proof.
  intros Hc Hp. unfold unpack in Hp.
  destruct (decide (length (c :: line) < 6)%nat) as [|H6]; [done|].
  destruct (decide (512 < length (c :: line))%nat); [done|].
  destruct (negb _); [done|].
  destruct (TrimRight_spaces_hd c (take (length line - 2) line) Hc) as [t Ht].
  replace (take (length (c :: line) - 2) (c :: line)) with (c :: take (length line - 2) line) in Hp.
  2:{ simpl in H6 |- *. replace (length line - 1)%nat with (S (length line - 2)) by lia. done. }
  rewrite Ht in Hp. destruct (split_hd_nonempty c t Hc) as [u Hu].
  apply unpack_switch_panic in Hp as (k & _ & Hp); [by exists (drop k (c :: t))|].
  apply text_ToLower_nonempty. by rewrite Hu.
Qed.
Lemma TrimRight_spaces_snoc l c : c ≠ 32 -> TrimRight_spaces (l ++ [c]) = l ++ [c].
Proof.
  intros Hc. induction l as [|b l IH]; simpl.
  - by rewrite (proj2 (Z.eqb_neq c 32)).
  - rewrite IH. by destruct l.
Qed.

Lemma params_text_last pre kvs : Forall param_ok kvs ->
  exists l c, pre ++ 62 :: params_text kvs = l ++ [c] /\ c ≠ 32.
Proof.
  intros Hall. destruct kvs as [|kv kvs _] using rev_ind.
  { by exists pre, 62. }
  apply Forall_app in Hall as [_ Hkv]. apply Forall_inv in Hkv as (_ & Hne & _ & Hv).
  destruct kv as [k v]. simpl in *. destruct v as [|c v _] using rev_ind; [done|].
  apply Forall_app in Hv as [_ Hc]. apply Forall_inv in Hc as [Hc _].
  exists (pre ++ 62 :: params_text kvs ++ 32 :: k ++ 61 :: v), c. split; [|done].
  unfold params_text. rewrite fmap_app, concat_app. simpl. unfold param_text. simpl.
  rewrite app_nil_r. rewrite <- !(assoc_L (++)). simpl. rewrite <- !(assoc_L (++)). simpl.
  by rewrite <- !(assoc_L (++)).
Qed.

Lemma lower_byte_inv c d : lower_byte c = d -> c = d \/ (65 <= c <= 90 /\ d = c + 32).
Proof.
  unfold lower_byte. destruct (Z.ltb_spec c 65), (Z.ltb_spec 90 c); simpl; intros <-; try by left.
  right. split; [lia|]. apply u8_id. unfold is_byte. lia.
Qed.

(** The line of a MAIL or RCPT command, up to its parsed path. *)
Lemma unpack_path_line kw body :
  (exists l c, kw ++ body = l ++ [c] /\ c ≠ 32) ->
  (6 <= length (kw ++ body ++ [13; 10]%Z) <= 512)%nat ->
  unpack newCommand (kw ++ body ++ [13; 10])
  = unpack_switch newCommand (kw ++ body) (Split 32 (kw ++ body))
      (text_ToLower (hd [] (Split 32 (kw ++ body))))
      (match Split 32 (kw ++ body) with _ :: a :: _ => TrimSpace a | _ => [] end).
Proof.
  intros (l & c & Hl & Hc) Hlen. unfold unpack. rewrite !decide_False by lia.
  rewrite (assoc_L (++)) in *.
  replace (length ((kw ++ body) ++ [13; 10]%Z) - 2)%nat with (length (kw ++ body))
    by (rewrite (length_app _ [13; 10]%Z); simpl; lia).
  rewrite drop_app_length, take_app_length, bool_decide_eq_true_2 by done. cbn [negb].
  by rewrite Hl, TrimRight_spaces_snoc.
Qed.

Lemma split_on_word w rest : 32 ∉ w -> hd [] (Split 32 (w ++ 32 :: rest)) = w.
Proof.
  intros Hw. assert (Hs : (split_on 32 (w ++ 32 :: rest)).1 = w).
  { induction w as [|c w IH]; simpl.
    - by destruct (split_on 32 rest).
    - rewrite not_elem_of_cons in Hw. destruct Hw as [Hc Hw]. specialize (IH Hw).
      destruct (split_on 32 (w ++ 32 :: rest)) as [p ps]. simpl in IH. subst.
      by rewrite (proj2 (Z.eqb_neq c 32)) by done. }
  unfold Split. by destruct (split_on 32 (w ++ 32 :: rest)).
Qed.

Lemma path_line_split kw name tail_ body :
  ToLower kw = name ++ 32 :: tail_ -> is_ascii name -> 32 ∉ name ->
  Forall (fun c => 97 <= c) name ->
  text_ToLower (hd [] (Split 32 (kw ++ body))) = name.
Proof.
  intros Hkw Hascii Hsp Hlow. rewrite ToLower_map in Hkw.
  apply fmap_app_inv in Hkw as (w & rest & Hw & Hrest & ->).
  destruct rest as [|c rest]; [done|]. rewrite fmap_cons in Hrest. injection Hrest as Hc _.
  symmetry in Hc. apply lower_byte_inv in Hc as [->|[? ?]]; [|lia].
  rewrite <- (assoc_L (++)). simpl app. rewrite split_on_word.
  - rewrite text_ToLower_ascii; [by rewrite ToLower_map|].
    subst name. clear -Hascii. induction w as [|c w IH]; [constructor|].
    rewrite fmap_cons in Hascii. apply Forall_cons in Hascii as [Hc Hw].
    constructor; [|by apply IH]. destruct (lower_byte_inv c _ eq_refl) as [->|[? ?]]; lia.
  - intros Hin. apply Hsp. rewrite Hw. apply list_elem_of_fmap. by exists 32.
Qed.

Lemma unpack_switch_mail cmd b cmds arg :
  (10 <= length b)%nat -> EqualFold_ascii (str "mail from:") (take 10 b) = true ->
  unpack_switch cmd b cmds (str "mail") arg
  = (cmd ← parsePath cmd (drop 10 b); Ok (set_Kind cmd CommandMAIL)).
Proof.
  intros Hb Hf. unfold unpack_switch. change (str "mail") with [109; 97; 105; 108].
  unfold get_at. cbn [lookup list_lookup mbind outcome_bind Z.eqb Pos.eqb].
  by rewrite decide_True, Hf by done.
Qed.

Lemma unpack_switch_rcpt cmd b cmds arg :
  (8 <= length b)%nat -> EqualFold_ascii (str "rcpt to:") (take 8 b) = true ->
  unpack_switch cmd b cmds (str "rcpt") arg
  = (cmd ← parsePath cmd (drop 8 b); Ok (set_Kind cmd CommandRCPT)).
Proof.
  intros Hb Hf. unfold unpack_switch. change (str "rcpt") with [114; 99; 112; 116].
  unfold get_at. cbn [lookup list_lookup mbind outcome_bind Z.eqb Pos.eqb].
  by rewrite bool_decide_eq_true_2, Hf by done.
Qed.

Lemma unpack_path kw local domain kvs :
  alnum local -> alnum domain -> Forall param_ok kvs ->
  (length (kw ++ (60%Z :: mailbox_text local domain ++ 62%Z :: params_text kvs) ++ [13; 10]%Z) <= 512)%nat ->
  (ToLower kw = str "mail from:" ->
   unpack newCommand (kw ++ (60 :: mailbox_text local domain ++ 62 :: params_text kvs) ++ [13; 10])
   = Ok (mkCommand CommandMAIL (mailbox_text local domain) [] (insert_params ∅ kvs)))
  /\
  (ToLower kw = str "rcpt to:" ->
   unpack newCommand (kw ++ (60 :: mailbox_text local domain ++ 62 :: params_text kvs) ++ [13; 10])
   = Ok (mkCommand CommandRCPT (mailbox_text local domain) [] (insert_params ∅ kvs))).
Proof.
  intros Hl Hd Hkvs Hlen. set (body := 60 :: _) in *.
  assert (Hlast : exists l c, kw ++ body = l ++ [c] /\ c ≠ 32).
  { destruct (params_text_last (kw ++ 60 :: mailbox_text local domain) kvs Hkvs) as (l & c & Heq & Hc).
    exists l, c. split; [|done]. rewrite <- Heq. unfold body. by rewrite <- (assoc_L (++)). }
  assert (Hbody : (2 <= length body)%nat) by (unfold body; simpl; rewrite length_app; simpl; lia).
  assert (Hsw : forall n, length kw = n ->
    drop n (kw ++ body) = body /\ take n (kw ++ body) = kw /\ (n <= length (kw ++ body))%nat).
  { intros n <-. rewrite drop_app_length, take_app_length, length_app. split_and!; done || lia. }
  split; intros Hkw; assert (Hn := f_equal length Hkw); rewrite length_ToLower in Hn;
    destruct (Hsw _ Hn) as (Hdrop & Htake & Hle);
    rewrite unpack_path_line by (done || (rewrite !length_app in *; simpl length in *; lia)).
  - rewrite (path_line_split kw (str "mail") (str "from:")) by
      (done || (apply (bool_decide_unpack _); vm_compute; exact I)).
    change (length (str "mail from:")) with 10%nat in *.
    rewrite unpack_switch_mail; [|done|].
    + rewrite Hdrop. unfold body. by rewrite parsePath_text.
    + rewrite Htake. unfold EqualFold_ascii. rewrite Hkw. by apply bool_decide_eq_true_2.
  - rewrite (path_line_split kw (str "rcpt") (str "to:")) by
      (done || (apply (bool_decide_unpack _); vm_compute; exact I)).
    change (length (str "rcpt to:")) with 8%nat in *.
    rewrite unpack_switch_rcpt; [|done|].
    + rewrite Hdrop. unfold body. by rewrite parsePath_text.
    + rewrite Htake. unfold EqualFold_ascii. rewrite Hkw. by apply bool_decide_eq_true_2.
Qed.

(** A MAIL or RCPT line, in any letter case, with a plain mailbox and any
    list of well-formed parameters, is parsed to its kind, to the mailbox and
    to the map of its parameters, the last value of a repeated key winning. *)
Theorem unpack_path_command kw local domain kvs :
  alnum local -> alnum domain -> Forall param_ok kvs ->
  (length (kw ++ (60%Z :: mailbox_text local domain ++ 62%Z :: params_text kvs) ++ [13; 10]%Z) <= 512)%nat ->
  (ToLower kw = str "mail from:" ->
   unpack newCommand (kw ++ (60 :: mailbox_text local domain ++ 62 :: params_text kvs) ++ [13; 10])
   = Ok (mkCommand CommandMAIL (mailbox_text local domain) [] (insert_params ∅ kvs)))
  /\
  (ToLower kw = str "rcpt to:" ->
   unpack newCommand (kw ++ (60 :: mailbox_text local domain ++ 62 :: params_text kvs) ++ [13; 10])
   = Ok (mkCommand CommandRCPT (mailbox_text local domain) [] (insert_params ∅ kvs))).
Proof. by apply unpack_path. Qed.

(** Parsing needs no step bound: [NoFuel] is never its result. *)
Lemma bind_fueled {E A B} (m : outcome E A) (f : A -> outcome E B) :
  m ≠ NoFuel -> (forall a, f a ≠ NoFuel) -> (m ≫= f) ≠ NoFuel.
Proof. by destruct m; cbn. Qed.

Lemma get_at_fueled {E A} (l : list A) i : get_at (E := E) l i ≠ NoFuel.
Proof. unfold get_at. by case_match. Qed.

Ltac fueled_tac :=
  repeat first [ done | apply get_at_fueled | apply bind_fueled; [|intros ?] | case_match ].

Lemma parseLocalDomain_fueled {E} data allow : parseLocalDomain (E := E) data allow ≠ NoFuel.
Proof. unfold parseLocalDomain. fueled_tac. Qed.

Lemma parseDomainAddress_fueled {E} data : parseDomainAddress (E := E) data ≠ NoFuel.
Proof. unfold parseDomainAddress. pose proof (@parseLocalDomain_fueled E). fueled_tac. Qed.

Lemma ParseMailbox_fueled {E} data : ParseMailbox (E := E) data ≠ NoFuel.
Proof.
  unfold ParseMailbox. pose proof (@parseLocalDomain_fueled E).
  pose proof (@parseDomainAddress_fueled E). fueled_tac.
Qed.

Lemma ParsePath_fueled path : ParsePath path ≠ NoFuel.
Proof.
  unfold ParsePath, slice. pose proof (@ParseMailbox_fueled path_error). fueled_tac.
Qed.

Lemma parsePath_fueled cmd b : parsePath cmd b ≠ NoFuel.
Proof.
  unfold parsePath. fueled_tac; try done.
  all: by match goal with Hp : ParsePath ?p = NoFuel |- _ => destruct (ParsePath_fueled p) end.
Qed.

Lemma unpack_fueled cmd b : unpack cmd b ≠ NoFuel.
Proof.
  unfold unpack, unpack_switch. pose proof parsePath_fueled. by fueled_tac.
Qed.

Definition kinded (m : outcome cmd_error Command) : Prop :=
  forall cmd, m = Ok cmd -> Kind cmd ≠ CommandZERO.

Lemma kinded_if (b : bool) m n : kinded m -> kinded n -> kinded (if b then m else n).
Proof. by destruct b. Qed.

Lemma kinded_decide (P : Prop) `{Decision P} m n :
  kinded m -> kinded n -> kinded (if decide P then m else n).
Proof. by destruct (decide P). Qed.

Lemma kinded_Err e : kinded (Err e).
Proof. by intros cmd. Qed.

Lemma kinded_Ok cmd : Kind cmd ≠ CommandZERO -> kinded (Ok cmd).
Proof. intros Hk c [= <-]. done. Qed.

Lemma kinded_bind {A} (m : outcome cmd_error A) f : (forall a, kinded (f a)) -> kinded (m ≫= f).
Proof. intros Hf cmd Hb. apply bind_Ok_inv in Hb as (a & _ & Hb). by apply (Hf a). Qed.

(** A command that is parsed has a kind. *)
Lemma unpack_Kind cmd b : kinded (unpack cmd b).
Proof.
  unfold unpack, unpack_switch.
  repeat first [ apply kinded_Err | apply kinded_if | apply kinded_decide | apply kinded_bind; intros ?
               | apply kinded_Ok; discriminate ].
  all: try (apply kinded_Ok; by case_decide).
  destruct (Split _ _) as [|? [|? [|? [|]]]]; by apply kinded_Ok.
Qed.
End UnpackFacts.

Lemma unpack_leading_space_panics_witness :
  unpack (H := ascii_tables) newCommand (32 :: str "NOOP" ++ [13; 10]) = Panic.
Proof. apply (unpack_leading_space_panics (H := ascii_tables)). vm_compute. lia. Defined.

Lemma unpack_panics_in_path_witness :
  exists p, parsePath newCommand p = Panic.
Proof.
  apply (unpack_panics_in_path (H := ascii_tables) newCommand 77
    (str "AIL FROM:<@a>" ++ [13; 10])); [discriminate|]. vm_compute. reflexivity.
Defined.

Lemma unpack_path_command_witness :
  unpack (H := ascii_tables) newCommand
    (str "Mail From:" ++ (60 :: mailbox_text (str "joe") (str "example1")
       ++ 62 :: params_text [(str "SIZE", str "12"); (str "SIZE", str "13")]) ++ [13; 10])
  = Ok (mkCommand CommandMAIL (str "joe@example1") [] (<[str "SIZE" := str "13"]> ∅)).
Proof.
  rewrite (proj1 (unpack_path_command (H := ascii_tables) (str "Mail From:") (str "joe") (str "example1")
    [(str "SIZE", str "12"); (str "SIZE", str "13")]
    ltac:(split; [discriminate | apply (bool_decide_unpack _); vm_compute; exact I])
    ltac:(split; [discriminate | apply (bool_decide_unpack _); vm_compute; exact I])
    ltac:(repeat constructor; (discriminate || (apply (bool_decide_unpack _); vm_compute; exact I)))
    ltac:(vm_compute; lia))).
  - vm_compute. reflexivity.
  - vm_compute. reflexivity.
Defined.
