(* ===== verification/SmtpServer.v ===== *)
(** Package [lib/smtp], files [server.go], [receiver.go], [mail.go],
    [handler.go], [extension.go], [error.go] and [localhandler.go]: the state
    machine of one server connection, from the bytes read to the replies
    written and to the mails put in the queue of the server. *)

From Stdlib Require Import ZArith Lia.
From S2P Require Import Prelude Ascii Utf8 Strconv SmtpCommand Base64.

Local Open Scope Z_scope.

(** ** Values *)

(** An error: [*errors.E] with its code and message, or any other one. *)
Inductive go_error : Type :=
| E (code : Z) (message : list Z)
| Other (text : list Z).

#[export] Instance go_error_eq_dec : EqDecision go_error.
Proof. solve_decision. Defined.

Definition ErrInvalidCredential := E 535 (str "5.7.8 Authentication credentials invalid").
Definition err_CmdSyntaxError := E 501 (str "Syntax error in parameter or arguments").
Definition err_CmdTooLong := E 500 (str "Line too long").
Definition err_CmdUnknown := E 500 (str "Syntax error, command unknown").
Definition errAuthMechanism := E 504 (str "5.5.4 Command parameter not implemented").
Definition errNotAuthenticated := E 530 (str "5.7.0 Authentication required").
Definition errBadSequence := E 503 (str "Bad sequence of commands").

(** The error values of [Command.unpack]. *)
Definition of_cmd_error (e : cmd_error) : go_error :=
  match e with
  | errCmdSyntaxError => err_CmdSyntaxError
  | errCmdTooLong => err_CmdTooLong
  | errCmdUnknown => err_CmdUnknown
  end.

(** [err.Error()]. *)
Definition error_text (e : go_error) : list Z :=
  match e with E _ m => m | Other t => t end.

Record Response := mkResponse { Code : Z; Message : list Z; Body : list (list Z) }.

(** A [time.Time]: the zero time, or a reading of the clock in nanoseconds. *)
Inductive go_time : Type := time_zero | time_unix (ns : Z).

Record MailTx := mkMail {
  ID : list Z;
  From : list Z;
  Recipients : list (list Z);
  Data : list Z;
  Postpone : go_time;
  Received : go_time;
  Retry : Z
}.

#[export] Instance go_time_eq_dec : EqDecision go_time.
Proof. solve_decision. Defined.
#[export] Instance MailTx_eq_dec : EqDecision MailTx.
Proof. solve_decision. Defined.

(** [&MailTx{}]. *)
Definition zeroMail : MailTx := mkMail [] [] [] [] time_zero time_zero 0.

Definition set_ID (m : MailTx) v := mkMail v (From m) (Recipients m) (Data m) (Postpone m) (Received m) (Retry m).
Definition set_From (m : MailTx) v := mkMail (ID m) v (Recipients m) (Data m) (Postpone m) (Received m) (Retry m).
Definition set_Recipients (m : MailTx) v := mkMail (ID m) (From m) v (Data m) (Postpone m) (Received m) (Retry m).
Definition set_Data (m : MailTx) v := mkMail (ID m) (From m) (Recipients m) v (Postpone m) (Received m) (Retry m).

(** [MailTx.Reset]. *)
Definition mail_Reset (m : MailTx) : MailTx :=
  set_Data (set_Recipients (set_From (set_ID m []) []) []) [].

Definition terminator : list Z := [13; 10; 46; 13; 10].

(** [MailTx.isTerminated]. *)
Definition isTerminated (m : MailTx) : bool :=
  let l := length (Data m) in
  if decide (l < 5)%nat then false
  else bool_decide (drop (l - 5) (Data m) = terminator).

Inductive receiverMode : Type := receiverModeServer | receiverModeClient.

#[export] Instance receiverMode_eq_dec : EqDecision receiverMode.
Proof. solve_decision. Defined.

(** What one [Read] of the connection gives: bytes, and possibly an error.
    The text of a failure is free of format verbs. *)
Inductive read_err : Type := EOF | ReadFailed (text : list Z).
Definition read_result : Type := list Z * option read_err.

Record receiver := mkReceiver {
  mode : receiverMode;
  clientDomain : list Z;
  clientAddress : list Z;
  localAddress : list Z;
  state : CommandKind;
  mail : MailTx;
  authenticated : bool
}.

(** [newReceiver]. *)
Definition newReceiver (m : receiverMode) (remote local : list Z) : receiver :=
  mkReceiver m [] remote local CommandZERO zeroMail false.

Definition set_clientDomain (r : receiver) v :=
  mkReceiver (mode r) v (clientAddress r) (localAddress r) (state r) (mail r) (authenticated r).
Definition set_state (r : receiver) v :=
  mkReceiver (mode r) (clientDomain r) (clientAddress r) (localAddress r) v (mail r) (authenticated r).
Definition set_mail (r : receiver) v :=
  mkReceiver (mode r) (clientDomain r) (clientAddress r) (localAddress r) (state r) v (authenticated r).
Definition set_authenticated (r : receiver) v :=
  mkReceiver (mode r) (clientDomain r) (clientAddress r) (localAddress r) (state r) (mail r) v.

(** [receiver.isAuthenticated]. *)
Definition isAuthenticated (r : receiver) : bool :=
  bool_decide (mode r = receiverModeClient) && authenticated r.

(** [receiver.reset]. *)
Definition recv_reset (r : receiver) : receiver :=
  set_mail (set_state r CommandZERO) (mail_Reset (mail r)).

(** ** The world of a connection

    [input] is what the reads to come give, end of file after the last one;
    [output] is what was written, one element per [Write]; after [wleft] more
    writes the connection is broken.  [queue] is what was sent on
    [mailTxQueue] and [room] how many sends the channel and its consumer still
    take before a send blocks; [ticks] counts the readings of the clock. *)

Record world := mkWorld {
  recv : receiver;
  input : list read_result;
  output : list (list Z);
  wleft : nat;
  queue : list MailTx;
  room : nat;
  ticks : nat;
  closed : bool
}.

Definition set_recv (w : world) v :=
  mkWorld v (input w) (output w) (wleft w) (queue w) (room w) (ticks w) (closed w).
Definition set_input (w : world) v :=
  mkWorld (recv w) v (output w) (wleft w) (queue w) (room w) (ticks w) (closed w).
Definition set_output (w : world) o l :=
  mkWorld (recv w) (input w) o l (queue w) (room w) (ticks w) (closed w).
Definition set_queue (w : world) q r :=
  mkWorld (recv w) (input w) (output w) (wleft w) q r (ticks w) (closed w).
Definition set_ticks (w : world) t :=
  mkWorld (recv w) (input w) (output w) (wleft w) (queue w) (room w) t (closed w).
Definition set_closed (w : world) :=
  mkWorld (recv w) (input w) (output w) (wleft w) (queue w) (room w) (ticks w) true.

Inductive res (A : Type) : Type :=
| Done (a : A)
| Error (e : go_error)
| Panicked
| Blocked
| OutOfFuel.
Arguments Done {A} a.
Arguments Error {A} e.
Arguments Panicked {A}.
Arguments Blocked {A}.
Arguments OutOfFuel {A}.

Definition M (A : Type) : Type := world -> res A * world.

#[export] Instance M_ret : MRet M := fun A a w => (Done a, w).
#[export] Instance M_bind : MBind M := fun A B f m w =>
  match m w with
  | (Done a, w') => f a w'
  | (Error e, w') => (Error e, w')
  | (Panicked, w') => (Panicked, w')
  | (Blocked, w') => (Blocked, w')
  | (OutOfFuel, w') => (OutOfFuel, w')
  end.

(** [return err]. *)
Definition fail {A} (e : go_error) : M A := fun w => (Error e, w).
Definition panic {A} : M A := fun w => (Panicked, w).
Definition modify (f : receiver -> receiver) : M unit := fun w => (Done tt, set_recv w (f (recv w))).
Definition get_recv : M receiver := fun w => (Done (recv w), w).

(** [x, err := m()], with [err] looked at by the caller. *)
Definition attempt {A} (m : M A) : M (A + go_error) := fun w =>
  match m w with
  | (Done a, w') => (Done (inl a), w')
  | (Error e, w') => (Done (inr e), w')
  | (Panicked, w') => (Panicked, w')
  | (Blocked, w') => (Blocked, w')
  | (OutOfFuel, w') => (OutOfFuel, w')
  end.

(** One [conn.Write]. *)
Definition conn_Write (data : list Z) : M unit := fun w =>
  match wleft w with
  | O => (Error (Other (str "write: broken pipe")), w)
  | S n => (Done tt, set_output w (output w ++ [data]) n)
  end.

(** ** Replies *)

Definition crlf : list Z := [13; 10].

(** ["%d %s\r\n"] and ["%d-%s\r\n"]. *)
Definition reply_line (code : Z) (sep : Z) (line : list Z) : list Z :=
  dec code ++ sep :: line ++ crlf.

Fixpoint reply_body (code : Z) (body : list (list Z)) : list Z :=
  match body with
  | [] => []
  | [line] => reply_line code 32 line
  | line :: body => reply_line code 45 line ++ reply_body code body
  end.

Definition reply_text (code : Z) (msg : list Z) (body : list (list Z)) : list Z :=
  match body with
  | [] => reply_line code 32 msg
  | _ => reply_line code 45 msg ++ reply_body code body
  end.

(** [receiver.sendReply]. *)
Definition sendReply (code : Z) (msg : list Z) (body : list (list Z)) : M unit :=
  conn_Write (reply_text code msg body).

(** [receiver.sendError]. *)
Definition sendError (errRes : go_error) : M unit :=
  let '(code, msg) :=
    match errRes with
    | E c m => (if c =? 0 then 451 else c, m)
    | Other t => (451, t)
    end in
  conn_Write (reply_line code 32 msg);;
  modify recv_reset.

(** ** Reading *)

(** The read loop of [readCommand] and [readAuthData]: a read that fills the
    buffer of 4096 bytes is followed by another one. *)
Fixpoint read_loop (inp : list read_result) (buff : list Z) : res (list Z) * list read_result :=
  match inp with
  | [] => (Done buff, [])
  | (data, err) :: inp =>
      let buff := buff ++ data in
      match err with
      | Some EOF => (Done buff, inp)
      | Some (ReadFailed t) => (Error (Other t), inp)
      | None => if decide (length data = 4096%nat) then read_loop inp buff else (Done buff, inp)
      end
  end.

Definition read_all : M (list Z) := fun w =>
  let '(r, inp) := read_loop (input w) [] in (r, set_input w inp).

(** The loop of [readDATA]. *)
Fixpoint readDATA_loop (inp : list read_result) (m : MailTx) : res unit * list read_result * MailTx :=
  match inp with
  | [] => (Error (Other (str "EOF")), [], m)
  | (_, Some EOF) :: inp => (Error (Other (str "EOF")), inp, m)
  | (_, Some (ReadFailed t)) :: inp => (Error (Other t), inp, m)
  | (data, None) :: inp =>
      let m := set_Data m (Data m ++ data) in
      if isTerminated m then (Done tt, inp, m) else readDATA_loop inp m
  end.

(** [base64.StdEncoding.DecodeString]. *)
Definition base64_DecodeString (s : list Z) : option (list Z) := b64_decode true s.

(** ** The server *)

Class Handler := {
  ServeAuth : list Z -> list Z -> option Response * option go_error;
  ServeBounce : MailTx -> option Response * option go_error;
  ServeExpand : list Z -> option Response * option go_error;
  ServeMailTx : MailTx -> option Response * option go_error;
  ServeVerify : list Z -> option Response * option go_error
}.

Record Extension := mkExtension {
  ext_Name : list Z;
  ext_Params : list Z;
  ext_ValidateCommand : Command -> option go_error
}.

(** [extDSN] and [defaultExts]. *)
Definition extDSN : Extension := mkExtension (str "DSN") [] (fun _ => None).
Definition defaultExts : list Extension := [extDSN].

(** The names of the primary and of the virtual domains, and the extensions
    after [Server.initialize]. *)
Record Server := mkServer {
  PrimaryDomain : list Z;
  VirtualDomains : list (list Z);
  Exts : list Extension
}.

(** The part of [Server.initialize] that sets the extensions. *)
Definition initialize_Exts (exts : list Extension) : list Extension := exts ++ defaultExts.

Definition zero_time_text : list Z := str "Mon, 01 Jan 0001 00:00:00 +0000".

Section Session.
Context `{Unicode} `{Handler}.
(** The clock, by the number of its reading, and the text of a time in the
    zone of the machine. *)
Variables (now : nat -> Z) (format_local : Z -> list Z).
Variable srv : Server.

(** [time.Time.Format(time.RFC1123Z)]. *)
Definition format_time (t : go_time) : list Z :=
  match t with time_zero => zero_time_text | time_unix ns => format_local ns end.

(** [MailTx.seal]. *)
Definition seal_line (m : MailTx) (clientDomain clientAddress localAddress : list Z) : list Z :=
  str "FROM " ++ clientDomain ++ str " (" ++ clientAddress ++ str ")" ++ crlf ++ [9]
  ++ str "BY " ++ localAddress ++ str " WITH SMTP ID " ++ ID m ++ str ";" ++ crlf ++ [9]
  ++ format_time (Received m).
Definition seal (m : MailTx) (clientDomain clientAddress localAddress : list Z) : MailTx :=
  set_Data m (seal_line m clientDomain clientAddress localAddress ++ Data m).

(** [NewMailTx]. *)
Definition NewMailTx (from : list Z) (to : list (list Z)) (data : list Z) : M MailTx := fun w =>
  let ns := now (ticks w) in
  (Done (mkMail (dec ns) from to data time_zero (time_unix ns) 0), set_ticks w (S (ticks w))).

(** [receiver.readCommand]; a failing read is wrapped too. *)
Definition readCommand : M Command := fun w =>
  let '(r, inp) := read_loop (input w) [] in
  let w := set_input w inp in
  match r with
  | Done buff =>
      match unpack newCommand buff with
      | Ok cmd => (Done cmd, w)
      | Err e => (Error (Other (str "smtp: cmd.unpack: " ++ error_text (of_cmd_error e))), w)
      | Panic => (Panicked, w)
      | NoFuel => (OutOfFuel, w)
      end
  | Error e => (Error (Other (str "smtp: recv: readCommand: " ++ error_text e)), w)
  | Panicked => (Panicked, w)
  | Blocked => (Blocked, w)
  | OutOfFuel => (OutOfFuel, w)
  end.

(** [receiver.readAuthData]: the new [cmd.Param]. *)
Definition readAuthData (cmd : Command) : M Command :=
  buff ← read_all; mret (set_Param cmd (TrimSpace buff)).

(** [receiver.readDATA]. *)
Definition readDATA : M unit := fun w =>
  let '(r, inp, m) := readDATA_loop (input w) (mail (recv w)) in
  let w := set_recv (set_input w inp) (set_mail (recv w) m) in
  match r with
  | Done _ =>
      let m := set_Data m (take (length (Data m) - 5) (Data m)) in
      let rc := recv w in
      (Done tt, set_recv w (set_mail rc (seal m (clientDomain rc) (clientAddress rc) (localAddress rc))))
  | r => (r, w)
  end.

(** A handler's response is dereferenced by the caller. *)
Definition deref (r : option Response) : M Response :=
  match r with Some r => mret r | None => panic end.

(** [if !recv.isAuthenticated() { err = recv.sendError(errNotAuthenticated) .. }],
    after which the handlers go on. *)
Definition check_authenticated : M unit :=
  rc ← get_recv;
  if isAuthenticated rc then mret tt else sendError errNotAuthenticated.

(** [Server.handleAUTH]. *)
Definition in_transaction (k : CommandKind) : bool :=
  match k with CommandMAIL | CommandRCPT | CommandDATA => true | _ => false end.

(** From the decoded credentials on. *)
Definition handleAUTH_serve (username password : list Z) : M unit :=
  match ServeAuth username password with
  | (_, Some err) => sendError err
  | (res, None) =>
      res ← deref res;
      sendReply (Code res) (Message res) (Body res);;
      modify (fun r => set_state (set_authenticated r true) CommandAUTH)
  end.

Definition handleAUTH_decode (cmd : Command) : M unit :=
  match base64_DecodeString (Param cmd) with
  | None =>
      _ ← attempt (sendError err_CmdSyntaxError);
      fail (Other (str "illegal base64 data"))
  | Some param =>
      match Split 0 param with
      | [_; username; password] => handleAUTH_serve username password
      | _ => sendError err_CmdSyntaxError
      end
  end.

Definition handleAUTH (cmd : Command) : M unit :=
  rc ← get_recv;
  if bool_decide (mode rc = receiverModeServer) then sendError err_CmdUnknown
  else if isAuthenticated rc then sendError errBadSequence
  else if in_transaction (state rc) then sendError errBadSequence
  else if bool_decide (Arg cmd = str "PLAIN") then
    if decide (Param cmd = []) then
      sendReply 334 [] [];;
      cmd ← readAuthData cmd;
      if bool_decide (Param cmd = str "*") then sendReply 501 (str "Authentication cancelled") []
      else handleAUTH_decode cmd
    else handleAUTH_decode cmd
  else sendError errAuthMechanism.

(** [Server.handleDATA]. *)
Definition handleDATA : M unit :=
  check_authenticated;;
  rc ← get_recv;
  if bool_decide (state rc ≠ CommandRCPT) then
    sendReply 503 (str "Bad sequences of commands") [];;
    modify recv_reset
  else
    sendReply 354 (str "Start mail input.") [];;
    readDATA;;
    modify (fun r => set_state r CommandDATA).

(** [Server.handleEHLO]. *)
Definition ehlo_body (auth : bool) : list (list Z) :=
  ((fun ext => ext_Name ext ++ str " " ++ ext_Params ext) <$> Exts srv)
  ++ (if auth then [] else [str "AUTH PLAIN"]).

Definition handleEHLO (cmd : Command) : M unit :=
  modify (fun r => set_clientDomain r (Arg cmd));;
  rc ← get_recv;
  sendReply 250 (PrimaryDomain srv) (ehlo_body (isAuthenticated rc));;
  modify (fun r => set_state r (Kind cmd)).

(** The common shape of [Server.handleEXPN] and [Server.handleVRFY]. *)
Definition handle_query (serve : list Z -> option Response * option go_error) (cmd : Command) : M unit :=
  rc ← get_recv;
  if bool_decide (mode rc = receiverModeServer) then sendError err_CmdUnknown
  else
    check_authenticated;;
    match serve (Arg cmd) with
    | (_, Some err) => fail err
    | (res, None) => res ← deref res; sendReply (Code res) (Message res) (Body res)
    end.

Definition handleEXPN (cmd : Command) : M unit := handle_query ServeExpand cmd.
Definition handleVRFY (cmd : Command) : M unit := handle_query ServeVerify cmd.

(** [Server.handleMAIL]. *)
Definition handleMAIL (cmd : Command) : M unit :=
  rc ← get_recv;
  if negb (isAuthenticated rc) then sendError errNotAuthenticated
  else
    modify (fun r => set_mail r (set_From (mail r) (Arg cmd)));;
    sendReply 250 (str "OK") [];;
    modify (fun r => set_state r CommandMAIL).

(** [Server.handleHELP]. *)
Definition handleHELP : M unit := sendReply 214 (str "Everything will be alright") [].

(** [Server.handleRCPT]. *)
Definition handleRCPT (cmd : Command) : M unit :=
  check_authenticated;;
  modify (fun r => set_mail r (set_Recipients (mail r) (Recipients (mail r) ++ [Arg cmd])));;
  rc ← get_recv;
  (if decide (100 < length (Recipients (mail rc)))%nat
   then sendReply 452 (str "Too many recipients") []
   else sendReply 250 (str "OK") []);;
  modify (fun r => set_state r CommandRCPT).

(** [Server.handleCommand]. *)
Definition handleCommand (cmd : Command) : M unit :=
  match Kind cmd with
  | CommandAUTH => handleAUTH cmd
  | CommandDATA => handleDATA
  | CommandEHLO => handleEHLO cmd
  | CommandHELO =>
      modify (fun r => set_clientDomain r (Arg cmd));;
      sendReply 250 (PrimaryDomain srv) [];;
      modify (fun r => set_state r (Kind cmd))
  | CommandMAIL => handleMAIL cmd
  | CommandRCPT => handleRCPT cmd
  | CommandRSET => modify recv_reset;; sendReply 250 (str "OK") []
  | CommandVRFY => handleVRFY cmd
  | CommandEXPN => handleEXPN cmd
  | CommandHELP => check_authenticated;; handleHELP
  | CommandNOOP => sendReply 250 (str "OK") []
  | CommandQUIT =>
      attempt (sendReply 221 (str "Service closing transmission channel") []);;
      modify (fun r => set_state r CommandQUIT)
  | CommandZERO => mret tt
  end.

(** [srv.mailTxQueue <- mail]. *)
Definition enqueue (m : MailTx) : M unit := fun w =>
  match room w with
  | O => (Blocked, w)
  | S n => (Done tt, set_queue w (queue w ++ [m]) n)
  end.

Fixpoint make_mails (from : list Z) (rcpts : list (list Z)) (data : list Z) : M (list MailTx) :=
  match rcpts with
  | [] => mret []
  | rcpt :: rcpts =>
      m ← NewMailTx from [rcpt] data;
      ms ← make_mails from rcpts data;
      mret (m :: ms)
  end.

Fixpoint enqueue_all (ms : list MailTx) : M unit :=
  match ms with
  | [] => mret tt
  | m :: ms => enqueue m;; enqueue_all ms
  end.

(** [Server.processMailTx]. *)
Definition processMailTx (m : MailTx) : M unit :=
  mails ← make_mails (From m) (Recipients m) (Data m);
  enqueue_all mails.

(** The first extension that refuses a command. *)
Fixpoint validate (exts : list Extension) (cmd : Command) : option go_error :=
  match exts with
  | [] => None
  | ext :: exts =>
      match ext_ValidateCommand ext cmd with Some err => Some err | None => validate exts cmd end
  end.

(** The loop body of [Server.handle] after the reading of a command; true when
    the loop goes on. *)
Definition round_body (cmd : Command) : M bool :=
  match validate (Exts srv) cmd with
  | Some err => attempt (sendError err);; mret true
  | None =>
      r ← attempt (handleCommand cmd);
      match r with
      | inr _ => mret false
      | inl _ =>
          rc ← get_recv;
          match state rc with
          | CommandDATA =>
              processMailTx (mail rc);;
              r ← attempt (sendReply 250 (str "OK") []);
              match r with
              | inr _ => mret false
              | inl _ => modify recv_reset;; mret true
              end
          | CommandQUIT => mret false
          | _ => mret true
          end
      end
  end.

Definition handle_round : M bool :=
  r ← attempt readCommand;
  match r with
  | inr err => attempt (sendError err);; mret false
  | inl cmd => round_body cmd
  end.

Fixpoint handle_loop (fuel : nat) : M unit :=
  match fuel with
  | O => fun w => (OutOfFuel, w)
  | S fuel => go_on ← handle_round; match go_on with true => handle_loop fuel | false => mret tt end
  end.

Definition recv_close : M unit := fun w => (Done tt, set_closed w).

(** [Server.handle], while the server runs.  Each round but the last takes at
    least one read. *)
Definition handle : M unit := fun w =>
  (r ← attempt (sendReply 220 (PrimaryDomain srv) []);
   match r with
   | inr _ => recv_close
   | inl _ => handle_loop (S (length (input w)));; recv_close
   end) w.
End Session.

(** ** Relations kept by the operations

    A preorder [R] on worlds is kept by an operation when it relates the world
    before to the world after, however the operation ends. *)

Definition keeps (R : world -> world -> Prop) {A} (m : M A) : Prop := forall w, R w (m w).2.

Create HintDb smtp.

Section Keeps.
Context (R : world -> world -> Prop) `{!PreOrder R}.

Lemma keeps_ret {A} (a : A) : keeps R (mret a).
Proof. intros w. cbn. reflexivity. Qed.

Lemma keeps_fail {A} e : keeps R (fail (A := A) e).
Proof. intros w. cbn. reflexivity. Qed.

Lemma keeps_panic {A} : keeps R (panic (A := A)).
Proof. intros w. cbn. reflexivity. Qed.

Lemma keeps_get : keeps R get_recv.
Proof. intros w. cbn. reflexivity. Qed.

Lemma keeps_deref r : keeps R (deref r).
Proof. destruct r; [apply keeps_ret | apply keeps_panic]. Qed.

Lemma keeps_bind {A B} (m : M A) (f : A -> M B) :
  keeps R m -> (forall a, keeps R (f a)) -> keeps R (m ≫= f).
Proof.
  intros Hm Hf w. unfold mbind, M_bind. specialize (Hm w).
  destruct (m w) as [[a|e| | |] w']; simpl in *; try done.
  etrans; [exact Hm | apply Hf].
Qed.

Lemma keeps_attempt {A} (m : M A) : keeps R m -> keeps R (attempt m).
Proof.
  intros Hm w. unfold attempt. specialize (Hm w).
  by destruct (m w) as [[a|e| | |] w'].
Qed.

Lemma keeps_if {A} (b : bool) (m n : M A) : keeps R m -> keeps R n -> keeps R (if b then m else n).
Proof. by destruct b. Qed.

Lemma keeps_decide {A} (P : Prop) `{Decision P} (m n : M A) :
  keeps R m -> keeps R n -> keeps R (if decide P then m else n).
Proof. by case_decide. Qed.
End Keeps.

#[export] Hint Resolve keeps_ret keeps_fail keeps_panic keeps_get keeps_deref keeps_bind
  keeps_attempt keeps_if keeps_decide : smtp.

(** What a client has said: the texts that [readCommand] and [readAuthData] can have read
    from [src], the reads of a connection. *)
Definition read_text (src : list read_result) (buff : list Z) : Prop :=
  exists inp inp', inp `suffix_of` src /\ read_loop inp [] = (Done buff, inp').
Definition said_command `{Unicode} (src : list read_result) (cmd : Command) : Prop :=
  exists buff, read_text src buff /\ unpack newCommand buff = Ok cmd.
(** A credential: the parameter of an AUTH command, or a line alone. *)
Definition said_credential `{Unicode} (src : list read_result) (cred : list Z) : Prop :=
  (exists cmd, said_command src cmd /\ Kind cmd = CommandAUTH /\ Param cmd = cred) \/ (exists buff, read_text src buff /\ cred = TrimSpace buff).
(** The client said a credential, a user and a password in base64, that the handler accepts. *)
Definition accepted_from `{Unicode} `{Handler} (src : list read_result) : Prop :=
  exists cred param authzid u p r, said_credential src cred /\ base64_DecodeString cred = Some param /\ Split 0 param = [authzid; u; p] /\
    ServeAuth u p = (Some r, None).

(** What the operations of a connection do to what is left to read, to the identity of the
    receiver, its authentication and the queue. *)
Record session_facts `{Unicode} `{Handler} (src : list read_result) (w w' : world) : Prop := {
  rel_input : input w' `suffix_of` src;
  rel_mode : mode (recv w') = mode (recv w);
  rel_auth : authenticated (recv w') = true -> authenticated (recv w) = true \/ accepted_from src;
  rel_keep : authenticated (recv w) = true -> authenticated (recv w') = true;
  rel_queue : queue w' = queue w
}.
Definition session_rel `{Unicode} `{Handler} (src : list read_result) (w w' : world) : Prop := input w `suffix_of` src -> session_facts src w w'.

#[export] Instance session_rel_preorder `{Unicode} `{Handler} src : PreOrder (session_rel src).
Proof.
  split.
  - intros w Hw. split; auto.
  - intros w1 w2 w3 H12 H23 Hw. destruct (H12 Hw) as [I1 ? A1 ? ?]. destruct (H23 I1) as [? ? A2 ? ?]. split; [done|congruence| |auto|congruence].
    intros H3. destruct (A2 H3); auto.
Qed.

(** The state stays out of [CommandDATA]. *)
Definition not_data (w w' : world) : Prop :=
  state (recv w') = CommandDATA -> state (recv w) = CommandDATA.

#[export] Instance not_data_preorder : PreOrder not_data.
Proof. split; unfold not_data; [intros w; auto | intros w1 w2 w3; auto]. Qed.

Section Facts.
Context `{Unicode} `{Handler}.
Variables (now : nat -> Z) (format_local : Z -> list Z) (srv : Server).
(** The reads of the connection. *)
Variable src : list read_result.
Abbreviation session_rel := (session_rel src).

(** Operations that leave the receiver and the queue as they are, and only read on. *)
Definition same_recv (w w' : world) : Prop := recv w' = recv w /\ queue w' = queue w /\ input w' `suffix_of` input w.

#[local] Instance same_recv_preorder : PreOrder same_recv.
Proof.
  split; unfold same_recv; [intros w; auto|]. intros w1 w2 w3 (? & ? & ?) (? & ? & ?). split; [congruence|]. split; [congruence|by etrans].
Qed.

Lemma same_recv_session w w' : same_recv w w' -> session_rel w w'.
Proof. intros (Hr & Hq & Hi) Hw. split; rewrite ?Hr; auto. by etrans. Qed.

Lemma same_recv_not_data w w' : same_recv w w' -> not_data w w'.
Proof. intros (Hr & _). unfold not_data. by rewrite Hr. Qed.

Lemma keeps_same {A} (m : M A) : keeps same_recv m -> keeps session_rel m /\ keeps not_data m.
Proof. intros Hm. split; intros w; [apply same_recv_session | apply same_recv_not_data]; apply Hm. Qed.

Lemma read_loop_suffix inp : forall buff, (read_loop inp buff).2 `suffix_of` inp.
Proof.
  induction inp as [|[d err] inp IH]; intros buff; cbn [read_loop]; [done|]. destruct err as [[|t]|]; cbn; [by apply suffix_cons_r..|].
  case_decide; [apply suffix_cons_r, IH|by apply suffix_cons_r].
Qed.
Lemma readDATA_loop_suffix inp : forall m, (readDATA_loop inp m).1.2 `suffix_of` inp.
Proof.
  induction inp as [|[d err] inp IH]; intros m; cbn [readDATA_loop]; [done|]. destruct err as [[|t]|]; cbn; [by apply suffix_cons_r..|].
  destruct (isTerminated _); [by apply suffix_cons_r|apply suffix_cons_r, IH].
Qed.

Lemma same_conn_Write d : keeps same_recv (conn_Write d).
Proof. intros w. unfold conn_Write. by destruct (wleft w); split_and!. Qed.

Lemma same_read_all : keeps same_recv read_all.
Proof. intros w. unfold read_all. pose proof (read_loop_suffix (input w) []) as Hs. by destruct (read_loop _ _). Qed.

Lemma same_readAuthData cmd : keeps same_recv (readAuthData cmd).
Proof. unfold readAuthData. auto using same_read_all, same_recv_preorder with smtp. Qed.

Lemma same_readCommand : keeps same_recv readCommand.
Proof.
  intros w. unfold readCommand. pose proof (read_loop_suffix (input w) []) as Hs. destruct (read_loop _ _) as [[]]; try done.
  by destruct (unpack _ _).
Qed.

(** What was read was said. *)
Lemma readCommand_said w cmd w' : input w `suffix_of` src -> readCommand w = (Done cmd, w') -> said_command src cmd.
Proof.
  intros Hw. unfold readCommand. destruct (read_loop (input w) []) as [[buff|e| | |] inp] eqn:Er; try done.
  destruct (unpack newCommand buff) as [c| | |] eqn:Eu; try done. intros [= <- _]. exists buff. split; [|done]. by exists (input w), inp.
Qed.
Lemma readAuthData_said cmd w cmd' w' : input w `suffix_of` src -> readAuthData cmd w = (Done cmd', w') -> said_credential src (Param cmd').
Proof.
  intros Hw. unfold readAuthData, read_all, mbind, M_bind. destruct (read_loop (input w) []) as [[buff|e| | |] inp] eqn:Er; try done.
  intros [= <- _]. right. exists buff. split; [|done]. by exists (input w), inp.
Qed.

Lemma session_modify f :
  (forall r, mode (f r) = mode r) -> (forall r, authenticated (f r) = authenticated r) ->
  keeps session_rel (modify f).
Proof. intros Hm Ha w Hw. split; simpl; rewrite ?Hm, ?Ha; auto. Qed.

Lemma not_data_modify f :
  (forall r, state (f r) = state r \/ state (f r) ≠ CommandDATA) -> keeps not_data (modify f).
Proof. intros Hf w. unfold not_data. simpl. destruct (Hf (recv w)); congruence. Qed.

(** Both relations at once, for the operations that every handler uses. *)
Definition steady {A} (m : M A) : Prop := keeps session_rel m /\ keeps not_data m.

Lemma steady_same {A} (m : M A) : keeps same_recv m -> steady m.
Proof. intros Hm. split; intros w; [apply same_recv_session | apply same_recv_not_data]; apply Hm. Qed.

Lemma steady_bind {A B} (m : M A) (f : A -> M B) :
  steady m -> (forall a, steady (f a)) -> steady (m ≫= f).
Proof. intros [? ?] Hf. split; apply keeps_bind; try apply _; try done; intros a; apply Hf. Qed.

Lemma steady_ret {A} (a : A) : steady (mret a).
Proof. split; auto with smtp typeclass_instances. Qed.

Lemma steady_attempt {A} (m : M A) : steady m -> steady (attempt m).
Proof. intros [? ?]. split; auto with smtp. Qed.

Lemma steady_modify f :
  (forall r, mode (f r) = mode r) -> (forall r, authenticated (f r) = authenticated r) ->
  (forall r, state (f r) = state r \/ state (f r) ≠ CommandDATA) -> steady (modify f).
Proof. split; [by apply session_modify | by apply not_data_modify]. Qed.

Lemma steady_reset : steady (modify recv_reset).
Proof. apply steady_modify; intros r; try done. by right. Qed.

Lemma steady_get : steady get_recv.
Proof. split; auto with smtp typeclass_instances. Qed.

Lemma steady_sendReply c m b : steady (sendReply c m b).
Proof. apply steady_same, same_conn_Write. Qed.

Lemma steady_sendError e : steady (sendError e).
Proof.
  unfold sendError. destruct (match e with E c m => _ | Other t => _ end) as [code msg].
  apply steady_bind; [apply steady_same, same_conn_Write | intros _; apply steady_reset].
Qed.

Lemma steady_check : steady check_authenticated.
Proof.
  unfold check_authenticated. apply steady_bind; [apply steady_get|]. intros rc.
  destruct (isAuthenticated rc); [apply steady_ret | apply steady_sendError].
Qed.

Lemma steady_fail {A} e : steady (fail (A := A) e).
Proof. split; auto with smtp typeclass_instances. Qed.

Lemma steady_deref r : steady (deref r).
Proof. split; auto with smtp typeclass_instances. Qed.

Lemma steady_readAuthData cmd : steady (readAuthData cmd).
Proof. apply steady_same, same_readAuthData. Qed.

#[local] Hint Resolve steady_ret steady_attempt steady_reset steady_get steady_sendReply
  steady_sendError steady_check steady_fail steady_deref steady_readAuthData : smtp.

Ltac steady_tac :=
  repeat first
    [ solve [auto with smtp]
    | apply steady_bind; [|intros ?]
    | apply steady_modify; intros ?; (reflexivity || (by left) || (by right))
    | case_match
    | case_decide ].

Lemma steady_handleAUTH_serve u p : (forall r, ServeAuth u p = (Some r, None) -> accepted_from src) -> steady (handleAUTH_serve u p).
Proof.
  intros Hacc. unfold handleAUTH_serve. destruct (ServeAuth u p) as [[r|] [e|]] eqn:Ha; auto with smtp.
  apply steady_bind; [auto with smtp|]. intros r'. apply steady_bind; [auto with smtp|]. intros _.
  split; intros w; [|by intros ?]. intros Hw. split; simpl; eauto.
Qed.

Lemma steady_handleAUTH_decode cmd : said_credential src (Param cmd) -> steady (handleAUTH_decode cmd).
Proof.
  intros Hc. unfold handleAUTH_decode. destruct (base64_DecodeString (Param cmd)) as [param|] eqn:Ed; [|steady_tac].
  destruct (Split 0 param) as [|a [|u [|p [|? ?]]]] eqn:Es; try solve [auto with smtp]. apply steady_handleAUTH_serve.
  intros r Hr. by exists (Param cmd), param, a, u, p, r.
Qed.

(** An operation is steady where what it goes on with was said. *)
Lemma steady_said {A B} (m : M A) (P : A -> Prop) (f : A -> M B) : keeps same_recv m ->
  (forall w a w', input w `suffix_of` src -> m w = (Done a, w') -> P a) -> (forall a, P a -> steady (f a)) -> (forall a, keeps not_data (f a)) -> steady (m ≫= f).
Proof.
  intros Hm HP Hf Hn. destruct (keeps_same m Hm) as [Hm1 Hm2]. split; [|apply keeps_bind; try apply _; done].
  intros w Hw. unfold mbind, M_bind. pose proof (Hm1 w Hw) as H1. specialize (HP w). destruct (m w) as [[a|e| | |] w1]; cbn in *; try done.
  pose proof (proj1 (Hf a (HP a w1 Hw eq_refl)) w1) as H2. refine ((_ : session_rel w (f a w1).2) Hw).
  transitivity w1; [by intros _|exact H2].
Qed.

Lemma not_data_handleAUTH_decode cmd : keeps not_data (handleAUTH_decode cmd).
Proof.
  unfold handleAUTH_decode. destruct (base64_DecodeString (Param cmd)) as [param|].
  - destruct (Split 0 param) as [|a [|u [|p [|? ?]]]]; try apply steady_sendError.
    unfold handleAUTH_serve. destruct (ServeAuth u p) as [r [e|]]; [apply steady_sendError|].
    apply keeps_bind; [apply _|apply steady_deref|]. intros r'. apply keeps_bind; [apply _|apply steady_sendReply|]. by intros _ w ?.
  - apply keeps_bind; [apply _|apply steady_attempt, steady_sendError|]. intros _. apply steady_fail.
Qed.

Lemma steady_handleAUTH cmd : said_command src cmd -> Kind cmd = CommandAUTH -> steady (handleAUTH cmd).
Proof.
  intros Hc Hk. assert (Hd : steady (handleAUTH_decode cmd)) by (apply steady_handleAUTH_decode; left; by exists cmd).
  unfold handleAUTH. apply steady_bind; [auto with smtp|]. intros rc. repeat (case_match; [solve [auto with smtp]|]). case_match; [|auto with smtp].
  destruct (decide (Param cmd = [])); [|done]. apply steady_bind; [auto with smtp|]. intros _.
  apply (steady_said _ (fun cmd' => said_credential src (Param cmd'))); [apply same_readAuthData|intros w a w'; apply readAuthData_said| |].
  - intros cmd' Hc'. case_match; [auto with smtp|by apply steady_handleAUTH_decode].
  - intros cmd'. case_match; [apply steady_sendReply|apply not_data_handleAUTH_decode].
Qed.

Lemma steady_query serve cmd : steady (handle_query serve cmd).
Proof. unfold handle_query. steady_tac. Qed.

Lemma steady_handleMAIL cmd : steady (handleMAIL cmd).
Proof. unfold handleMAIL. steady_tac. Qed.

Lemma steady_handleRCPT cmd : steady (handleRCPT cmd).
Proof. unfold handleRCPT. steady_tac. Qed.

Lemma steady_handleEHLO cmd : Kind cmd = CommandEHLO -> steady (handleEHLO srv cmd).
Proof.
  intros Hk. unfold handleEHLO. steady_tac. apply steady_modify; intros r; simpl; rewrite ?Hk; auto.
Qed.

(** Every command but DATA leaves the session steady. *)
Lemma steady_handleCommand cmd : said_command src cmd -> Kind cmd ≠ CommandDATA -> steady (handleCommand format_local srv cmd).
Proof.
  intros Hc Hk. unfold handleCommand. destruct (Kind cmd) eqn:Hkind; try done.
  all: eauto using steady_handleAUTH, steady_query, steady_handleMAIL, steady_handleRCPT, steady_handleEHLO with smtp.
  all: unfold handleHELP, handleVRFY, handleEXPN; eauto using steady_query; steady_tac.
Qed.

(** ** DATA and the queue *)

Lemma session_readDATA : keeps session_rel (readDATA format_local).
Proof.
  intros w Hw. unfold readDATA. pose proof (readDATA_loop_suffix (input w) (mail (recv w))) as Hs. destruct (readDATA_loop _ _) as [[r inp] m].
  cbn in Hs. by destruct r; split; simpl; auto; etrans.
Qed.

Lemma session_handleDATA : keeps session_rel (handleDATA format_local).
Proof.
  unfold handleDATA. apply keeps_bind; [apply _|apply steady_check|]. intros _.
  apply keeps_bind; [apply _|auto with smtp typeclass_instances|]. intros rc.
  case_match; apply keeps_bind; try apply _; try apply steady_sendReply; intros _.
  - apply steady_reset.
  - apply keeps_bind; [apply _|apply session_readDATA|]. intros _. by apply session_modify.
Qed.

Lemma bind_Done {A B} (m : M A) (f : A -> M B) w b w' :
  (m ≫= f) w = (Done b, w') -> exists a w1, m w = (Done a, w1) /\ f a w1 = (Done b, w').
Proof. unfold mbind, M_bind. destruct (m w) as [[a|e| | |] w1]; try done. eauto. Qed.

Lemma get_bind {B} (f : receiver -> M B) w : (get_recv ≫= f) w = f (recv w) w.
Proof. reflexivity. Qed.

Lemma check_unauthenticated w r w' : isAuthenticated (recv w) = false ->
  check_authenticated w = (r, w') -> r = Done tt -> state (recv w') = CommandZERO.
Proof.
  intros Hf. unfold check_authenticated. rewrite get_bind, Hf. unfold sendError, errNotAuthenticated.
  cbn -[str dec reply_line]. unfold mbind, M_bind, conn_Write.
  destruct (wleft w); intros Heq ->; inversion Heq; reflexivity.
Qed.

Lemma check_authenticated_ok w : isAuthenticated (recv w) = true -> check_authenticated w = (Done tt, w).
Proof. intros Hf. unfold check_authenticated. by rewrite get_bind, Hf. Qed.

(** DATA ends in the state [CommandDATA] only for an authenticated client that
    is past RCPT. *)
Lemma handleDATA_accepts w w' :
  handleDATA format_local w = (Done tt, w') -> state (recv w') = CommandDATA ->
  isAuthenticated (recv w) = true /\ state (recv w) = CommandRCPT.
Proof.
  unfold handleDATA. intros Hd Hs. apply bind_Done in Hd as (u & w1 & Hc & Hd).
  rewrite get_bind in Hd. destruct (isAuthenticated (recv w)) eqn:Ha.
  - rewrite check_authenticated_ok in Hc by done. injection Hc as <- <-. split; [done|].
    destruct (decide (state (recv w) = CommandRCPT)); [done|].
    rewrite bool_decide_eq_true_2 in Hd by done.
    apply bind_Done in Hd as (? & w2 & _ & Hd). injection Hd as <-. done.
  - destruct u. apply check_unauthenticated in Hc; try done.
    rewrite Hc in Hd. rewrite bool_decide_eq_true_2 in Hd by done.
    apply bind_Done in Hd as (? & w2 & _ & Hd). injection Hd as <-. done.
Qed.

Lemma handleCommand_session cmd : said_command src cmd -> keeps session_rel (handleCommand format_local srv cmd).
Proof.
  intros Hc. destruct (decide (Kind cmd = CommandDATA)) as [Hk|Hk]; [|by apply steady_handleCommand].
  unfold handleCommand. rewrite Hk. apply session_handleDATA.
Qed.

Lemma handleCommand_accepts cmd w w' : said_command src cmd ->
  state (recv w) ≠ CommandDATA ->
  handleCommand format_local srv cmd w = (Done tt, w') -> state (recv w') = CommandDATA ->
  Kind cmd = CommandDATA /\ isAuthenticated (recv w) = true /\ state (recv w) = CommandRCPT.
Proof.
  intros Hsaid Hs Hc Hd. destruct (decide (Kind cmd = CommandDATA)) as [Hk|Hk].
  - split; [done|]. apply (handleDATA_accepts w w'); [|done].
    unfold handleCommand in Hc. by rewrite Hk in Hc.
  - destruct (steady_handleCommand cmd Hsaid Hk) as [_ Hnd]. specialize (Hnd w). rewrite Hc in Hnd.
    exfalso. apply Hs, Hnd, Hd.
Qed.

Definition same_receiver (w w' : world) : Prop := recv w' = recv w /\ input w' = input w.

#[local] Instance same_receiver_preorder : PreOrder same_receiver.
Proof. split; unfold same_receiver; [intros w; auto | intros w1 w2 w3 [] []; split; congruence]. Qed.

Lemma make_mails_receiver from rcpts data : keeps same_receiver (make_mails now from rcpts data).
Proof.
  induction rcpts as [|rcpt rcpts IH]; simpl; [apply keeps_ret; apply _|].
  apply keeps_bind; [apply _|by intros w|]. intros m.
  apply keeps_bind; [apply _|done|]. intros ms. apply keeps_ret. apply _.
Qed.

Lemma enqueue_all_receiver ms : keeps same_receiver (enqueue_all ms).
Proof.
  induction ms as [|m ms IH]; simpl; [apply keeps_ret; apply _|].
  apply keeps_bind; [apply _| |done]. intros w. unfold enqueue. by destruct (room w).
Qed.

Lemma processMailTx_receiver m : keeps same_receiver (processMailTx now m).
Proof.
  unfold processMailTx. apply keeps_bind; [apply _|apply make_mails_receiver|].
  intros ms. apply enqueue_all_receiver.
Qed.

(** What a run of the connection may do: the queue changes only for a client that had said,
    or says, a credential that the handler accepts. *)
Record safe_facts (w w' : world) : Prop := {
  safe_input : input w' `suffix_of` src;
  safe_mode : mode (recv w') = mode (recv w);
  safe_auth : authenticated (recv w') = true -> authenticated (recv w) = true \/ accepted_from src;
  safe_queue : queue w' ≠ queue w -> mode (recv w) = receiverModeClient /\ (authenticated (recv w) = true \/ accepted_from src)
}.
Definition safe (w w' : world) : Prop := input w `suffix_of` src -> safe_facts w w'.

#[local] Instance safe_preorder : PreOrder safe.
Proof.
  split.
  - intros w Hw. split; intuition.
  - intros w1 w2 w3 H12 H23 Hw. destruct (H12 Hw) as [I1 M1 A1 Q1]. destruct (H23 I1) as [I2 M2 A2 Q2]. split; [done|congruence| |].
    + intros H3. destruct (A2 H3); auto.
    + intros H3. destruct (decide (queue w2 = queue w1)) as [He|He]; [|by apply Q1].
      rewrite <- He, M1 in *. destruct (Q2 H3) as [HM [HA|HA]]; auto.
Qed.

Lemma session_safe w w' : session_rel w w' -> safe w w'.
Proof. intros Hs Hw. destruct (Hs Hw) as [? ? ? ? ?]. split; try done. Qed.

(** One round keeps [safe], and leaves the state out of [CommandDATA]. *)
Lemma steady_safe {A} (m : M A) w : steady m -> state (recv w) ≠ CommandDATA ->
  safe w (m w).2 /\ state (recv (m w).2) ≠ CommandDATA.
Proof. intros [Hs Hn] Hd. split; [apply session_safe, Hs|]. intros Hd'. apply Hd, (Hn w), Hd'. Qed.

Lemma after_DATA_safe w : state (recv w) = CommandDATA ->
  isAuthenticated (recv w) = true ->
  let m := (processMailTx now (mail (recv w));;
            r ← attempt (sendReply 250 (str "OK") []);
            match r with
            | inr _ => mret false
            | inl _ => modify recv_reset;; mret true
            end) : M bool in
  safe w (m w).2 /\ ((m w).1 = Done true -> state (recv (m w).2) ≠ CommandDATA).
Proof.
  intros Hd Ha m.
  assert (Hm : keeps (fun w w' => mode (recv w') = mode (recv w) /\
                authenticated (recv w') = authenticated (recv w) /\ input w' = input w) m).
  { apply keeps_bind.
    - split; [intros ?; auto | intros ??? (? & ? & ?) (? & ? & ?); split_and!; congruence].
    - intros w1. destruct (processMailTx_receiver (mail (recv w)) w1) as [-> ->]. done.
    - intros _. apply keeps_bind; [split; [intros ?; auto | intros ??? (? & ? & ?) (? & ? & ?); split_and!; congruence]| |].
      + apply keeps_attempt. intros w1. unfold sendReply, conn_Write. by destruct (wleft w1).
      + intros [?|?] w1; done. }
  unfold isAuthenticated in Ha. apply andb_true_iff in Ha as [Hmode Hauth].
  apply bool_decide_eq_true in Hmode. destruct (Hm w) as (H1 & H2 & H3). split.
  - intros Hw. split; [by rewrite H3|done| |]; rewrite ?H2, ?Hauth; auto.
  - intros Hr. destruct (m w) as [r w'] eqn:Heq. simpl in Hr |- *. subst r. unfold m in Heq.
    apply bind_Done in Heq as (? & w1 & _ & Heq). apply bind_Done in Heq as ([?|?] & w2 & _ & Heq); [|done].
    apply bind_Done in Heq as (? & w3 & Hmod & [= <-]).
    unfold modify in Hmod. inversion Hmod. simpl. congruence.
Qed.

Definition round_ok (w : world) (out : res bool * world) : Prop :=
  safe w out.2 /\ (out.1 = Done true -> state (recv out.2) ≠ CommandDATA).

Lemma steady_round (m : M bool) w : steady m -> state (recv w) ≠ CommandDATA -> round_ok w (m w).
Proof. intros Hm Hd. destruct (steady_safe m w Hm Hd). by split. Qed.

Lemma round_ok_trans w w1 out : safe w w1 -> round_ok w1 out -> round_ok w out.
Proof. intros Hs [? ?]. split; [by etrans|done]. Qed.

Lemma handle_round_ok w : input w `suffix_of` src -> state (recv w) ≠ CommandDATA ->
  round_ok w (handle_round now format_local srv w).
Proof.
  intros Hw Hd. unfold handle_round, mbind at 1, M_bind at 1, attempt at 1.
  assert (Hst : steady readCommand) by (apply steady_same, same_readCommand).
  destruct (steady_safe _ w Hst Hd) as [Hs1 Hd1].
  pose proof (readCommand_said w) as Hsaid. destruct (readCommand w) as [r1 w1]. simpl in Hs1, Hd1.
  destruct r1 as [cmd|err| | |]; try by split.
  2:{ apply (round_ok_trans w w1); [done|]. apply steady_round; [|done].
      apply steady_bind; [auto with smtp|]. intros ?. auto with smtp. }
  apply (round_ok_trans w w1); [done|]. specialize (Hsaid cmd w1 Hw eq_refl). pose proof (safe_input _ _ (Hs1 Hw)) as Hw1. unfold round_body.
  destruct (validate (Exts srv) cmd).
  { apply steady_round; [|done]. apply steady_bind; [auto with smtp|]. intros ?. auto with smtp. }
  unfold mbind at 1, M_bind at 1, attempt at 1.
  pose proof (handleCommand_session cmd Hsaid w1) as Hs2.
  pose proof (fun w' => handleCommand_accepts cmd w1 w' Hsaid) as Hacc.
  destruct (handleCommand format_local srv cmd w1) as [r2 w2]. simpl in Hs2.
  destruct r2 as [[]|err| | |]; try by (split; [by apply session_safe|done]).
  apply (round_ok_trans w1 w2); [by apply session_safe|]. rewrite get_bind.
  destruct (state (recv w2)) eqn:Hst2; try by (split; [reflexivity|simpl; congruence]).
  apply after_DATA_safe; [done|]. destruct (Hacc w2) as (_ & Hauth & _); try done.
  unfold isAuthenticated in Hauth |- *. apply andb_true_iff in Hauth as [Hm Ha].
  rewrite (rel_mode _ _ _ (Hs2 Hw1)), Hm. by rewrite (rel_keep _ _ _ (Hs2 Hw1)).
Qed.

Lemma handle_loop_safe fuel w : input w `suffix_of` src -> state (recv w) ≠ CommandDATA ->
  safe w (handle_loop now format_local srv fuel w).2.
Proof.
  revert w. induction fuel as [|fuel IH]; intros w Hw Hd; [reflexivity|]. simpl.
  unfold mbind, M_bind. destruct (handle_round_ok w Hw Hd) as [Hs Hn].
  destruct (handle_round now format_local srv w) as [[[]|e| | |] w1]; simpl in *; try done.
  etrans; [exact Hs|]. apply IH; [exact (safe_input _ _ (Hs Hw))|by apply Hn].
Qed.

Lemma bind_safe {A B} (m : M A) (f : A -> M B) w :
  safe w (m w).2 -> (forall a w1, m w = (Done a, w1) -> safe w1 (f a w1).2) -> safe w ((m ≫= f) w).2.
Proof.
  intros Hm Hf. unfold mbind, M_bind. destruct (m w) as [[a|e| | |] w1]; try done.
  etrans; [exact Hm | by apply Hf].
Qed.

Lemma close_safe : keeps safe recv_close.
Proof. intros w. apply session_safe. intros Hw. split; simpl; auto. Qed.

Lemma handle_safe w : input w `suffix_of` src -> state (recv w) ≠ CommandDATA -> safe w (handle now format_local srv w).2.
Proof.
  intros Hw Hst. unfold handle. apply bind_safe.
  - apply steady_safe; [auto with smtp | done].
  - intros r w1 Hr. destruct r as [u|e]; [|apply close_safe].
    assert (Hd : state (recv w1) ≠ CommandDATA).
    { intros Hd. pose proof (proj2 (steady_attempt _ (steady_sendReply 220 (PrimaryDomain srv) [])) w) as Hn.
      rewrite Hr in Hn. by apply Hst, (Hn Hd). }
    assert (Hw1 : input w1 `suffix_of` src).
    { pose proof (proj1 (steady_attempt _ (steady_sendReply 220 (PrimaryDomain srv) [])) w Hw) as Hn. rewrite Hr in Hn. apply (rel_input _ _ _ Hn). }
    apply bind_safe; [by apply handle_loop_safe|]. intros ? ? _. apply close_safe.
Qed.

End Facts.

Section Connection.
Context `{Unicode} `{Handler}.
Variables (now : nat -> Z) (format_local : Z -> list Z) (srv : Server).

(** What a new connection may do to the queue. *)
Lemma handle_new_queue m remote local inp wl qu rm tk :
  let w := mkWorld (newReceiver m remote local) inp [] wl qu rm tk false in
  queue (handle now format_local srv w).2 = qu \/ (m = receiverModeClient /\ accepted_from inp).
Proof.
  intros w. destruct (decide (queue (handle now format_local srv w).2 = queue w)) as [|Hq]; [by left|right].
  assert (Hs : safe inp w (handle now format_local srv w).2) by (apply handle_safe; done).
  destruct (safe_queue _ _ _ (Hs ltac:(done)) Hq) as [Hm [Ha|Ha]]; [discriminate Ha|]. by split.
Qed.

(** C4: no mail reaches the queue of the server through a connection, whatever is sent on it
    and however it ends, unless it is a connection in client mode and the client has sent on
    it a credential that the handler accepts: among the texts that the server reads from
    the connection, a command AUTH with a parameter, or a line, is in base64 a user and a
    password between bytes 0, and the handler accepts them.  In server mode, the one of port
    25, the code accepts no credential and so receives no mail, although the comment of
    [receiverModeServer] says that mail is accepted there without authentication. *)
Theorem handle_queue_authenticated m remote local inp wl qu rm tk :
  let w := mkWorld (newReceiver m remote local) inp [] wl qu rm tk false in
  queue (handle now format_local srv w).2 = qu \/ (m = receiverModeClient /\ accepted_from inp).
Proof. apply handle_new_queue. Qed.

(** ** Every run ends *)

(** An operation that needs no step bound, blocks only on a full queue and
    never gives input back. *)
Definition bounded {A} (m : M A) : Prop := forall w,
  match (m w).1 with OutOfFuel => False | Blocked => room (m w).2 = 0%nat | _ => True end
  /\ (length (input (m w).2) <= length (input w))%nat.

Definition no_error {A} (m : M A) : Prop := forall w e, (m w).1 ≠ Error e.

Lemma bounded_simple {A} (m : M A) :
  (forall w, (m w).1 ≠ OutOfFuel /\ (m w).1 ≠ Blocked /\ input (m w).2 = input w) -> bounded m.
Proof. intros Hm w. destruct (Hm w) as (? & ? & ->). by destruct (m w).1. Qed.

Lemma bounded_bind {A B} (m : M A) (f : A -> M B) :
  bounded m -> (forall a, bounded (f a)) -> bounded (m ≫= f).
Proof.
  intros Hm Hf w. unfold mbind, M_bind. specialize (Hm w).
  destruct (m w) as [[a|e| | |] w1]; simpl in *; try done.
  destruct (Hf a w1) as [H1 H2]. split; [done | lia].
Qed.

Lemma bounded_attempt {A} (m : M A) : bounded m -> bounded (attempt m).
Proof. intros Hm w. specialize (Hm w). unfold attempt. by destruct (m w) as [[a|e| | |] w1]. Qed.

Lemma bounded_ret {A} (a : A) : bounded (mret a).
Proof. by apply bounded_simple. Qed.

Lemma bounded_fail {A} e : bounded (fail (A := A) e).
Proof. by apply bounded_simple. Qed.

Lemma bounded_modify f : bounded (modify f).
Proof. by apply bounded_simple. Qed.

Lemma bounded_get : bounded get_recv.
Proof. by apply bounded_simple. Qed.

Lemma bounded_deref r : bounded (deref r).
Proof. apply bounded_simple. by destruct r. Qed.

Lemma bounded_conn_Write d : bounded (conn_Write d).
Proof. apply bounded_simple. intros w. unfold conn_Write. by destruct (wleft w). Qed.

Lemma bounded_NewMailTx f t d : bounded (NewMailTx now f t d).
Proof. by apply bounded_simple. Qed.

Lemma bounded_sendReply c m b : bounded (sendReply c m b).
Proof. apply bounded_conn_Write. Qed.

Lemma bounded_sendError e : bounded (sendError e).
Proof.
  unfold sendError. destruct (match e with E c m => _ | Other t => _ end) as [code msg].
  apply bounded_bind; [apply bounded_conn_Write | intros; apply bounded_modify].
Qed.

Lemma read_loop_length inp buff :
  (length (read_loop inp buff).2 <= length inp)%nat /\
  ((length (read_loop inp buff).2 < length inp)%nat \/ inp = [] /\ (read_loop inp buff).1 = Done buff) /\
  match (read_loop inp buff).1 with Done _ | Error _ => True | _ => False end.
Proof.
  revert buff. induction inp as [|[d err] inp IH]; intros buff; simpl.
  { split_and!; try done. by right. }
  destruct err as [[|t]|]; simpl; try (split_and!; [lia|left; lia|done]).
  case_decide; simpl; [|split_and!; [lia|left; lia|done]].
  destruct (IH (buff ++ d)) as (? & ? & ?). split_and!; [lia|left; lia|done].
Qed.

Lemma bounded_readAuthData cmd : bounded (readAuthData cmd).
Proof.
  apply bounded_bind; [|intros; apply bounded_ret]. intros w. unfold read_all.
  destruct (read_loop_length (input w) []) as (? & _ & ?).
  destruct (read_loop (input w) []) as [[] inp]; simpl in *; try done.
Qed.

(** A command that is read, and not refused, takes at least one read. *)
Lemma readCommand_consumes w :
  (length (input (readCommand w).2) <= length (input w))%nat /\
  match (readCommand w).1 with
  | Done _ => (length (input (readCommand w).2) < length (input w))%nat
  | Error _ | Panicked => True
  | _ => False
  end.
Proof.
  unfold readCommand. destruct (read_loop_length (input w) []) as (Hle & Hlt & Hres).
  destruct (read_loop (input w) []) as [[buff|e| | |] inp]; simpl in *; try done.
  destruct (unpack newCommand buff) as [cmd|e| |] eqn:Hu; simpl; try done.
  - split; [done|]. destruct Hlt as [|[_ Hb]]; [done|]. injection Hb as ->. done.
  - by apply unpack_fueled in Hu.
Qed.

Lemma bounded_check : bounded check_authenticated.
Proof.
  unfold check_authenticated. apply bounded_bind; [apply bounded_get|]. intros rc.
  destruct (isAuthenticated rc); [apply bounded_ret | apply bounded_sendError].
Qed.

Lemma readDATA_loop_length inp m :
  (length (readDATA_loop inp m).1.2 <= length inp)%nat /\
  match (readDATA_loop inp m).1.1 with Done _ | Error _ => True | _ => False end.
Proof.
  revert m. induction inp as [|[d err] inp IH]; intros m; simpl; [done|].
  destruct err as [[|t]|]; simpl; try (split; [lia|done]).
  case_match; simpl; [split; [lia|done]|]. destruct (IH (set_Data m (Data m ++ d))). split; [lia|done].
Qed.

Lemma bounded_readDATA : bounded (readDATA format_local).
Proof.
  intros w. unfold readDATA. destruct (readDATA_loop_length (input w) (mail (recv w))) as [Hl Hr].
  destruct (readDATA_loop _ _) as [[[] inp] m]; simpl in *; done.
Qed.

#[local] Hint Resolve bounded_ret bounded_fail bounded_modify bounded_get bounded_deref
  bounded_sendReply bounded_sendError bounded_readAuthData bounded_check bounded_readDATA
  bounded_NewMailTx : smtp.

Ltac bounded_tac :=
  repeat first
    [ solve [auto with smtp]
    | apply bounded_attempt
    | apply bounded_bind; [|intros ?]
    | case_match
    | case_decide ].

Lemma bounded_handleAUTH cmd : bounded (handleAUTH cmd).
Proof. unfold handleAUTH, handleAUTH_decode, handleAUTH_serve. bounded_tac. Qed.

Lemma bounded_handleCommand cmd : bounded (handleCommand format_local srv cmd).
Proof.
  unfold handleCommand. pose proof (bounded_handleAUTH cmd).
  destruct (Kind cmd);
    unfold handleDATA, handleEHLO, handleMAIL, handleRCPT, handleVRFY, handleEXPN, handle_query, handleHELP;
    bounded_tac.
Qed.

Lemma bounded_make_mails from rcpts data : bounded (make_mails now from rcpts data).
Proof. induction rcpts; simpl; bounded_tac. Qed.

Lemma bounded_enqueue_all ms : bounded (enqueue_all ms).
Proof.
  induction ms as [|m ms IH]; simpl; [auto with smtp|]. apply bounded_bind; [|done].
  intros w. unfold enqueue. destruct (room w) eqn:Hr; simpl; auto.
Qed.

Lemma bounded_processMailTx m : bounded (processMailTx now m).
Proof.
  apply bounded_bind; [apply bounded_make_mails | intros; apply bounded_enqueue_all].
Qed.

Lemma no_error_attempt {A} (m : M A) : no_error (attempt m).
Proof. intros w e. unfold attempt. by destruct (m w) as [[] ?]. Qed.

Lemma no_error_bind {A B} (m : M A) (f : A -> M B) :
  no_error m -> (forall a, no_error (f a)) -> no_error (m ≫= f).
Proof.
  intros Hm Hf w e. unfold mbind, M_bind. specialize (Hm w).
  destruct (m w) as [[a|e'| | |] w1]; simpl in *; try done; [apply Hf|]. by destruct (Hm e').
Qed.

Lemma no_error_processMailTx m : no_error (processMailTx now m).
Proof.
  unfold processMailTx. apply no_error_bind.
  - induction (Recipients m) as [|r rs IH]; simpl; [by intros ?|].
    apply no_error_bind; [by intros ?|]. intros ?. by apply no_error_bind.
  - intros ms. induction ms as [|x ms IH]; simpl; [by intros ?|].
    apply no_error_bind; [|done]. intros w e. unfold enqueue. by destruct (room w).
Qed.

Lemma bounded_round_body cmd : bounded (round_body now format_local srv cmd).
Proof.
  unfold round_body. pose proof bounded_handleCommand. pose proof bounded_processMailTx. bounded_tac.
Qed.

Lemma no_error_round_body cmd : no_error (round_body now format_local srv cmd).
Proof.
  unfold round_body. pose proof no_error_processMailTx. pose proof @no_error_attempt.
  repeat first [ done | (intros ? ?; done) | apply no_error_bind; [auto|intros ?] | case_match ].
Qed.

(** A round that goes on has taken input. *)
Lemma handle_round_progress w :
  match handle_round now format_local srv w with
  | (Done true, w') => (length (input w') < length (input w))%nat
  | (Done false, _) | (Panicked, _) => True
  | (Blocked, w') => room w' = 0%nat
  | (Error _, _) | (OutOfFuel, _) => False
  end.
Proof.
  unfold handle_round, mbind at 1, M_bind at 1, attempt at 1.
  destruct (readCommand_consumes w) as [_ Hc].
  destruct (readCommand w) as [[cmd|err| | |] w1]; simpl in *; try done.
  - destruct (bounded_round_body cmd w1) as [Hb Hl]. pose proof (no_error_round_body cmd w1) as He.
    destruct (round_body now format_local srv cmd w1) as [[[]|e| | |] w2]; simpl in *; try done; [lia|]. by destruct (He e).
  - assert (Hb : bounded (attempt (sendError err);; mret false)) by bounded_tac.
    destruct (Hb w1) as [Hb1 _].
    assert (He : no_error (attempt (sendError err);; mret false)).
    { apply no_error_bind; [apply no_error_attempt|]. by intros ? ?. }
    specialize (He w1). unfold mbind, M_bind, attempt in *.
    by destruct (sendError err w1) as [[] ?].
Qed.

Lemma handle_loop_ends fuel w : (length (input w) < fuel)%nat ->
  match handle_loop now format_local srv fuel w with
  | (Done _, _) | (Panicked, _) => True
  | (Blocked, w') => room w' = 0%nat
  | (Error _, _) | (OutOfFuel, _) => False
  end.
Proof.
  revert w. induction fuel as [|fuel IH]; intros w Hf; [lia|]. simpl.
  unfold mbind, M_bind. pose proof (handle_round_progress w) as Hp.
  destruct (handle_round now format_local srv w) as [[[]|e| | |] w1]; try done. apply IH. lia.
Qed.

(** C36: serving a connection always ends, on any input: the connection is
    closed, or the goroutine stops in a panic, or it blocks on a full queue.
    The rounds that the input allows are enough. *)
Theorem handle_ends w :
  match handle now format_local srv w with
  | (Done _, w') => closed w' = true
  | (Panicked, _) => True
  | (Blocked, w') => room w' = 0%nat
  | (Error _, _) | (OutOfFuel, _) => False
  end.
Proof.
  unfold handle, mbind at 1, M_bind at 1, attempt, sendReply, conn_Write.
  destruct (wleft w) as [|n]; [done|].
  set (w1 := set_output w _ n).
  pose proof (handle_loop_ends (S (length (input w))) w1) as Hl.
  unfold mbind, M_bind, recv_close.
  destruct (handle_loop _ _ _ _ w1) as [[] w2]; try done; apply Hl; simpl; lia.
Qed.

(** ** What the operations do *)

Definition data_reads (chunks : list (list Z)) : list read_result := (fun d => (d, None)) <$> chunks.

Lemma isTerminated_iff m : isTerminated m = true <-> terminator `suffix_of` Data m.
Proof.
  unfold isTerminated. case_decide as Hl.
  - split; [done|]. intros [k Hk]. apply (f_equal length) in Hk. rewrite length_app in Hk.
    simpl in Hk. lia.
  - rewrite bool_decide_eq_true. split.
    + intros Ht. exists (take (length (Data m) - 5) (Data m)). by rewrite <- Ht, take_drop.
    + intros [k Hk]. rewrite Hk, length_app. simpl.
      replace (length k + 5 - 5)%nat with (length k) by lia. by rewrite drop_app_length.
Qed.

Lemma readDATA_loop_spec chunks rest m :
  chunks ≠ [] ->
  (forall i, (0 < i < length chunks)%nat ->
     ~ terminator `suffix_of` Data m ++ concat (take i chunks)) ->
  terminator `suffix_of` Data m ++ concat chunks ->
  readDATA_loop (data_reads chunks ++ rest) m = (Done tt, rest, set_Data m (Data m ++ concat chunks)).
Proof.
  revert m. induction chunks as [|d chunks IH]; intros m Hne Hno Hyes; [done|].
  unfold data_reads. rewrite fmap_cons. cbn [app readDATA_loop].
  destruct (isTerminated _) eqn:Ht.
  - apply isTerminated_iff in Ht. simpl in Ht. destruct chunks as [|d2 chunks].
    + simpl. by rewrite app_nil_r.
    + exfalso. apply (Hno 1%nat); [simpl; lia|]. simpl. by rewrite app_nil_r.
  - destruct chunks as [|d2 chunks].
    { exfalso. apply Bool.not_true_iff_false in Ht. apply Ht, isTerminated_iff. simpl in *.
      by rewrite app_nil_r in Hyes. }
    fold (data_reads (d2 :: chunks)). rewrite IH.
    + simpl. by rewrite <- (assoc_L (++)).
    + done.
    + intros i Hi. specialize (Hno (S i)). simpl in *. rewrite (assoc_L (++)) in Hno. apply Hno. lia.
    + simpl in *. by rewrite <- (assoc_L (++)).
Qed.

(** The mail input of DATA is everything up to the first read that ends
    with CRLF, dot, CRLF, over any number of reads: the terminator is taken
    off, the trace line is put in front, and what follows is left to be read. *)
Theorem readDATA_spec w chunks rest body :
  input w = data_reads chunks ++ rest ->
  Data (mail (recv w)) = [] ->
  concat chunks = body ++ terminator ->
  (forall i, (0 < i < length chunks)%nat -> ~ terminator `suffix_of` concat (take i chunks)) ->
  readDATA format_local w =
  (Done tt, set_recv (set_input w rest) (set_mail (recv w) (set_Data (mail (recv w))
     (seal_line format_local (mail (recv w)) (clientDomain (recv w)) (clientAddress (recv w))
        (localAddress (recv w)) ++ body)))).
Proof.
  intros Hin Hd Hc Hno. unfold readDATA. rewrite Hin, readDATA_loop_spec; rewrite ?Hd; simpl.
  - rewrite Hc, length_app. simpl. replace (length body + 5 - 5)%nat with (length body) by lia.
    by rewrite take_app_length.
  - intros ->. simpl in Hc. by destruct body.
  - apply Hno.
  - rewrite Hc. by exists body.
Qed.

(** ** A whole session *)

Definition OK_reply : list Z := reply_text 250 (str "OK") [].

(** A read that is one line, parsed as a command that the extensions accept. *)
Definition says (line : list Z) (cmd : Command) : Prop :=
  unpack newCommand line = Ok cmd /\ validate (Exts srv) cmd = None.

Lemma readCommand_line w line cmd rest :
  input w = (line, None) :: rest -> unpack newCommand line = Ok cmd ->
  readCommand w = (Done cmd, set_input w rest).
Proof.
  intros Hin Hu. unfold readCommand. rewrite Hin. simpl. rewrite decide_False; [by rewrite Hu|].
  intros Hl. unfold unpack in Hu. rewrite decide_False, decide_True in Hu by lia. done.
Qed.

Lemma handle_round_line w line cmd rest :
  input w = (line, None) :: rest -> unpack newCommand line = Ok cmd ->
  handle_round now format_local srv w = round_body now format_local srv cmd (set_input w rest).
Proof.
  intros Hin Hu. unfold handle_round, mbind at 1, M_bind at 1, attempt at 1.
  by rewrite (readCommand_line w line cmd rest).
Qed.

Lemma sendReply_ok c m b rc inp o n q rm tk cl :
  sendReply c m b (mkWorld rc inp o (S n) q rm tk cl)
  = (Done tt, mkWorld rc inp (o ++ [reply_text c m b]) n q rm tk cl).
Proof. reflexivity. Qed.

(** A round whose command is handled without an error and does not end a mail
    or the session. *)
Lemma round_plain w line cmd rest w' :
  input w = (line, None) :: rest -> says line cmd ->
  handleCommand format_local srv cmd (set_input w rest) = (Done tt, w') ->
  state (recv w') ≠ CommandDATA -> state (recv w') ≠ CommandQUIT ->
  handle_round now format_local srv w = (Done true, w').
Proof.
  intros Hin [Hu Hv] Hc Hd Hq. rewrite (handle_round_line _ _ _ _ Hin Hu). unfold round_body.
  rewrite Hv. unfold mbind at 1, M_bind at 1, attempt at 1. rewrite Hc, get_bind.
  by destruct (state (recv w')).
Qed.

Lemma handle_AUTH_ok cmd rc inp o n q rm tk cl x u p r :
  Kind cmd = CommandAUTH -> Arg cmd = str "PLAIN" -> Param cmd ≠ [] ->
  base64_DecodeString (Param cmd) = Some (x ++ 0 :: u ++ 0 :: p) ->
  0 ∉ x -> 0 ∉ u -> 0 ∉ p ->
  ServeAuth u p = (Some r, None) ->
  mode rc = receiverModeClient -> authenticated rc = false -> in_transaction (state rc) = false ->
  handleCommand format_local srv cmd (mkWorld rc inp o (S n) q rm tk cl) =
  (Done tt, mkWorld (set_state (set_authenticated rc true) CommandAUTH) inp
     (o ++ [reply_text (Code r) (Message r) (Body r)]) n q rm tk cl).
Proof.
  intros Hk Harg Hpar Hb Hx Hu Hp Hs Hm Ha Ht.
  unfold handleCommand, handleAUTH. rewrite Hk, get_bind. cbn [recv].
  rewrite Hm, bool_decide_eq_false_2 by done.
  unfold isAuthenticated. rewrite Ha, andb_false_r, Ht, bool_decide_eq_true_2 by done.
  rewrite decide_False by done. unfold handleAUTH_decode. rewrite Hb.
  rewrite !Split_sep, Split_none by done. unfold handleAUTH_serve. by rewrite Hs.
Qed.

Lemma handle_MAIL_ok cmd rc inp o n q rm tk cl :
  Kind cmd = CommandMAIL -> isAuthenticated rc = true ->
  handleCommand format_local srv cmd (mkWorld rc inp o (S n) q rm tk cl) =
  (Done tt, mkWorld (set_state (set_mail rc (set_From (mail rc) (Arg cmd))) CommandMAIL)
     inp (o ++ [OK_reply]) n q rm tk cl).
Proof.
  intros Hk Ha. unfold handleCommand, handleMAIL. rewrite Hk, get_bind. cbn [recv]. by rewrite Ha.
Qed.

Lemma handle_RCPT_ok cmd rc inp o n q rm tk cl :
  Kind cmd = CommandRCPT -> isAuthenticated rc = true ->
  (length (Recipients (mail rc)) < 100)%nat ->
  handleCommand format_local srv cmd (mkWorld rc inp o (S n) q rm tk cl) =
  (Done tt, mkWorld
     (set_state (set_mail rc (set_Recipients (mail rc) (Recipients (mail rc) ++ [Arg cmd]))) CommandRCPT)
     inp (o ++ [OK_reply]) n q rm tk cl).
Proof.
  intros Hk Ha Hl. unfold handleCommand, handleRCPT. rewrite Hk.
  unfold mbind at 1, M_bind at 1. rewrite check_authenticated_ok by done.
  unfold mbind at 1, M_bind at 1, modify at 1. rewrite get_bind. cbn [recv set_recv mail set_mail Recipients set_Recipients].
  case_decide as Hd; [rewrite length_app in Hd; simpl in Hd; lia | reflexivity].
Qed.

(** The mails that a transaction puts in the queue. *)
Definition mails_of (from : list Z) (data : list Z) (tk : nat) (rcpts : list (list Z)) : list MailTx :=
  imap (fun i rcpt => mkMail (dec (now (tk + i))) from [rcpt] data time_zero (time_unix (now (tk + i))) 0) rcpts.

Lemma make_mails_spec from rcpts data w :
  make_mails now from rcpts data w
  = (Done (mails_of from data (ticks w) rcpts), set_ticks w (ticks w + length rcpts)).
Proof.
  revert w. induction rcpts as [|rcpt rcpts IH]; intros w.
  { unfold mails_of. destruct w. simpl. by rewrite Nat.add_0_r. }
  cbn [make_mails]. unfold mbind, M_bind, NewMailTx. rewrite IH. unfold mails_of. simpl.
  rewrite Nat.add_0_r. unfold mret, M_ret. f_equal; [|unfold set_ticks; simpl; f_equal; lia].
  do 2 f_equal. apply imap_ext. intros i x _. simpl. by rewrite Nat.add_succ_r.
Qed.

Lemma enqueue_all_spec ms w : (length ms <= room w)%nat ->
  enqueue_all ms w = (Done tt, set_queue w (queue w ++ ms) (room w - length ms)).
Proof.
  revert w. induction ms as [|m ms IH]; intros w Hr.
  { destruct w. simpl. by rewrite app_nil_r, Nat.sub_0_r. }
  cbn [enqueue_all]. unfold mbind, M_bind, enqueue. simpl in Hr. destruct (room w) as [|n] eqn:Hw; [lia|].
  rewrite IH by (simpl; lia). simpl. by rewrite <- (assoc_L (++)).
Qed.

(** Ending a mail puts one mail per recipient in the queue, in the order
    of the recipients, each with its own recipient alone, the same sender and
    the same text; with no recipient the mail is dropped. *)
Theorem processMailTx_spec m w : (length (Recipients m) <= room w)%nat ->
  processMailTx now m w =
  (Done tt, set_queue (set_ticks w (ticks w + length (Recipients m)))
     (queue w ++ mails_of (From m) (Data m) (ticks w) (Recipients m))
     (room w - length (Recipients m))).
Proof.
  intros Hr. unfold processMailTx, mbind, M_bind. rewrite make_mails_spec.
  assert (Hl : length (mails_of (From m) (Data m) (ticks w) (Recipients m)) = length (Recipients m))
    by apply length_imap.
  rewrite enqueue_all_spec by (rewrite Hl; done). by rewrite Hl.
Qed.

Lemma handle_EHLO_ok cmd rc inp o n q rm tk cl :
  Kind cmd = CommandEHLO ->
  handleCommand format_local srv cmd (mkWorld rc inp o (S n) q rm tk cl) =
  (Done tt, mkWorld (set_state (set_clientDomain rc (Arg cmd)) CommandEHLO) inp
     (o ++ [reply_text 250 (PrimaryDomain srv) (ehlo_body srv (isAuthenticated rc))]) n q rm tk cl).
Proof. intros Hk. unfold handleCommand, handleEHLO. by rewrite Hk. Qed.

Definition DATA_reply : list Z := reply_text 354 (str "Start mail input.") [].
Definition QUIT_reply : list Z := reply_text 221 (str "Service closing transmission channel") [].

(** A round of DATA that ends a mail. *)
Lemma round_DATA line cmd chunks body rc rest o n q rm tk cl :
  says line cmd -> Kind cmd = CommandDATA ->
  isAuthenticated rc = true -> state rc = CommandRCPT -> Data (mail rc) = [] ->
  concat chunks = body ++ terminator ->
  (forall i, (0 < i < length chunks)%nat -> ~ terminator `suffix_of` concat (take i chunks)) ->
  (length (Recipients (mail rc)) <= rm)%nat ->
  handle_round now format_local srv
    (mkWorld rc ((line, None) :: data_reads chunks ++ rest) o (S (S n)) q rm tk cl)
  = (Done true, mkWorld (recv_reset rc) rest ((o ++ [DATA_reply]) ++ [OK_reply]) n
       (q ++ mails_of (From (mail rc))
          (seal_line format_local (mail rc) (clientDomain rc) (clientAddress rc) (localAddress rc) ++ body)
          tk (Recipients (mail rc)))
       (rm - length (Recipients (mail rc))) (tk + length (Recipients (mail rc))) cl).
Proof.
  intros [Hu Hv] Hk Ha Hs Hd Hc Hno Hrm.
  rewrite (handle_round_line _ line cmd (data_reads chunks ++ rest)) by done.
  unfold round_body. rewrite Hv.
  unfold mbind at 1, M_bind at 1, attempt at 1, handleCommand, handleDATA. rewrite Hk.
  unfold mbind at 1, M_bind at 1. rewrite check_authenticated_ok by done. rewrite get_bind.
  cbn [recv set_input]. rewrite Hs, bool_decide_eq_false_2 by (intros Hn; by apply Hn).
  unfold mbind at 1, M_bind at 1, set_input. cbn [recv output wleft queue room ticks closed].
  rewrite sendReply_ok. unfold mbind at 1, M_bind at 1.
  rewrite (readDATA_spec _ chunks rest body) by done.
  unfold modify at 1. rewrite get_bind. cbn [recv set_recv set_state state].
  unfold mbind at 1, M_bind at 1. rewrite processMailTx_spec by done.
  reflexivity.
Qed.

Lemma round_QUIT line cmd rc rest o n q rm tk cl :
  says line cmd -> Kind cmd = CommandQUIT ->
  handle_round now format_local srv (mkWorld rc ((line, None) :: rest) o (S n) q rm tk cl)
  = (Done false, mkWorld (set_state rc CommandQUIT) rest (o ++ [QUIT_reply]) n q rm tk cl).
Proof.
  intros [Hu Hv] Hk. rewrite (handle_round_line _ line cmd rest) by done.
  unfold round_body. rewrite Hv. unfold handleCommand. by rewrite Hk.
Qed.

Lemma loop_step fuel w w' : handle_round now format_local srv w = (Done true, w') ->
  handle_loop now format_local srv (S fuel) w = handle_loop now format_local srv fuel w'.
Proof. intros Hr. cbn [handle_loop]. unfold mbind, M_bind. by rewrite Hr. Qed.

Lemma loop_stop fuel w w' : handle_round now format_local srv w = (Done false, w') ->
  handle_loop now format_local srv (S fuel) w = (Done tt, w').
Proof. intros Hr. cbn [handle_loop]. unfold mbind, M_bind. by rewrite Hr. Qed.

Definition add_rcpt (rc : receiver) (rcpt : list Z) : receiver :=
  set_state (set_mail rc (set_Recipients (mail rc) (Recipients (mail rc) ++ [rcpt]))) CommandRCPT.

Definition rcpt_line (line rcpt : list Z) : Prop :=
  exists cmd, says line cmd /\ Kind cmd = CommandRCPT /\ Arg cmd = rcpt.

Lemma loop_rcpts lines rcpts fuel rc rest o n q rm tk cl :
  Forall2 rcpt_line lines rcpts -> isAuthenticated rc = true ->
  (length (Recipients (mail rc)) + length rcpts <= 100)%nat ->
  handle_loop now format_local srv (length rcpts + fuel)
    (mkWorld rc (data_reads lines ++ rest) o (length rcpts + n) q rm tk cl)
  = handle_loop now format_local srv fuel
      (mkWorld (foldl add_rcpt rc rcpts) rest (o ++ replicate (length rcpts) OK_reply) n q rm tk cl).
Proof.
  intros Hall. revert rc o. induction Hall as [|line rcpt lines rcpts (cmd & Hs & Hk & <-) _ IH];
    intros rc o Ha Hl.
  { simpl. by rewrite app_nil_r. }
  cbn [length Nat.add]. rewrite (loop_step _ _ (mkWorld (add_rcpt rc (Arg cmd)) (data_reads lines ++ rest)
    (o ++ [OK_reply]) (length rcpts + n) q rm tk cl)).
  - rewrite IH.
    + cbn [foldl replicate]. by rewrite <- (assoc_L (++)).
    + done.
    + simpl in *. rewrite length_app. simpl. lia.
  - eapply round_plain; [done|done| |done|done]. apply handle_RCPT_ok; [done|done|].
    rewrite length_cons in Hl. cbn [recv]. lia.
Qed.

Lemma foldl_add_rcpt rcpts rc :
  let rc' := foldl add_rcpt rc rcpts in
  mail rc' = set_Recipients (mail rc) (Recipients (mail rc) ++ rcpts) /\
  mode rc' = mode rc /\ authenticated rc' = authenticated rc /\
  clientDomain rc' = clientDomain rc /\ clientAddress rc' = clientAddress rc /\
  localAddress rc' = localAddress rc /\ (rcpts ≠ [] -> state rc' = CommandRCPT).
Proof.
  revert rc. induction rcpts as [|rcpt rcpts IH] using rev_ind; intros rc.
  { simpl. rewrite app_nil_r. by destruct (mail rc). }
  rewrite foldl_snoc. destruct (IH rc) as (Hm & ? & ? & ? & ? & ? & _). simpl.
  rewrite Hm. simpl. rewrite <- (assoc_L (++)). split_and!; done.
Qed.

Lemma session_mail remote local le la lm lrs ld lq ce ca cm cd cq rcpts chunks body x u p r rm tk q :
  says le ce -> Kind ce = CommandEHLO ->
  says la ca -> Kind ca = CommandAUTH -> Arg ca = str "PLAIN" -> Param ca ≠ [] ->
  base64_DecodeString (Param ca) = Some (x ++ 0 :: u ++ 0 :: p) -> 0 ∉ x -> 0 ∉ u -> 0 ∉ p ->
  ServeAuth u p = (Some r, None) ->
  says lm cm -> Kind cm = CommandMAIL ->
  Forall2 rcpt_line lrs rcpts -> rcpts ≠ [] -> (length rcpts <= 100)%nat ->
  says ld cd -> Kind cd = CommandDATA -> concat chunks = body ++ terminator ->
  (forall i, (0 < i < length chunks)%nat -> ~ terminator `suffix_of` concat (take i chunks)) ->
  says lq cq -> Kind cq = CommandQUIT -> (length rcpts <= rm)%nat ->
  let text := seal_line format_local zeroMail (Arg ce) remote local ++ body in
  let '(result, w') := handle now format_local srv
    (mkWorld (newReceiver receiverModeClient remote local)
       (data_reads [le; la; lm] ++ data_reads lrs ++ (ld, None) :: data_reads chunks ++ data_reads [lq])
       [] (S (S (S (S (length rcpts + 3))))) q rm tk false) in
  result = Done tt /\ closed w' = true /\
  queue w' = q ++ mails_of (Arg cm) text tk rcpts /\
  output w' = [reply_text 220 (PrimaryDomain srv) []; reply_text 250 (PrimaryDomain srv) (ehlo_body srv false);
               reply_text (Code r) (Message r) (Body r); OK_reply]
              ++ replicate (length rcpts) OK_reply ++ [DATA_reply; OK_reply; QUIT_reply].
Proof.
  intros He Hek Ha Hak Harg Hpar Hb Hx Hu Hp Hauth Hm Hmk Hr Hne Hlen Hd Hdk Hc Hno Hq Hqk Hrm text.
  unfold handle. cbn [input]. set (inp := data_reads [le; la; lm] ++ _).
  assert (Hfuel : exists f, length inp = S (S (length rcpts + S (S (S f))))).
  { exists (length chunks). unfold inp, data_reads. rewrite !length_app, length_cons, !length_app, !length_fmap.
    simpl. rewrite (Forall2_length _ _ _ Hr). lia. }
  destruct Hfuel as [f Hf]. rewrite Hf.
  unfold mbind at 1, M_bind at 1, attempt at 1. rewrite sendReply_ok.
  unfold mbind at 1, M_bind at 1. unfold inp, data_reads at 1. cbn [fmap list_fmap app].
  set (rest := data_reads lrs ++ _).
  erewrite loop_step by (eapply round_plain; [reflexivity|exact He|by apply handle_EHLO_ok|done|done]).
  erewrite loop_step by (eapply round_plain; [reflexivity|exact Ha|by eapply handle_AUTH_ok|done|done]).
  erewrite loop_step by (eapply round_plain; [reflexivity|exact Hm|by apply handle_MAIL_ok|done|done]).
  unfold rest. rewrite loop_rcpts by done.
  set (rc := set_state _ CommandMAIL).
  destruct (foldl_add_rcpt rcpts rc) as (Hmail & Hmode & Hau & Hcd & Hca & Hla & Hst).
  set (rc' := foldl add_rcpt rc rcpts) in *.
  erewrite loop_step.
  2:{ eapply (round_DATA ld cd chunks body rc' (data_reads [lq]) _ 1); try done.
      - unfold isAuthenticated. by rewrite Hmode, Hau.
      - by apply Hst.
      - by rewrite Hmail.
      - by rewrite Hmail. }
  erewrite loop_stop by (by apply (round_QUIT lq cq)).
  unfold recv_close. cbn [queue output closed set_closed]. split_and!; [done|done| |].
  - rewrite Hmail, Hcd, Hca, Hla. done.
  - rewrite <- !(assoc_L (++)). done.
Qed.

(** A mail client that greets, authenticates with a credential the handler
    accepts, names a sender and at most a hundred recipients, sends a mail over
    any number of reads and quits gets every reply of the protocol in order,
    and one mail per recipient is put in the queue, with the trace line and the
    text that was sent. *)
Theorem session_delivers remote local le la lm lrs ld lq ce ca cm cd cq rcpts chunks body x u p r rm tk q :
  says le ce -> Kind ce = CommandEHLO ->
  says la ca -> Kind ca = CommandAUTH -> Arg ca = str "PLAIN" -> Param ca ≠ [] ->
  base64_DecodeString (Param ca) = Some (x ++ 0 :: u ++ 0 :: p) -> 0 ∉ x -> 0 ∉ u -> 0 ∉ p ->
  ServeAuth u p = (Some r, None) ->
  says lm cm -> Kind cm = CommandMAIL ->
  Forall2 rcpt_line lrs rcpts -> rcpts ≠ [] -> (length rcpts <= 100)%nat ->
  says ld cd -> Kind cd = CommandDATA -> concat chunks = body ++ terminator ->
  (forall i, (0 < i < length chunks)%nat -> ~ terminator `suffix_of` concat (take i chunks)) ->
  says lq cq -> Kind cq = CommandQUIT -> (length rcpts <= rm)%nat ->
  let text := seal_line format_local zeroMail (Arg ce) remote local ++ body in
  let '(result, w') := handle now format_local srv
    (mkWorld (newReceiver receiverModeClient remote local)
       (data_reads [le; la; lm] ++ data_reads lrs ++ (ld, None) :: data_reads chunks ++ data_reads [lq])
       [] (S (S (S (S (length rcpts + 3))))) q rm tk false) in
  result = Done tt /\ closed w' = true /\
  queue w' = q ++ mails_of (Arg cm) text tk rcpts /\
  output w' = [reply_text 220 (PrimaryDomain srv) []; reply_text 250 (PrimaryDomain srv) (ehlo_body srv false);
               reply_text (Code r) (Message r) (Body r); OK_reply]
              ++ replicate (length rcpts) OK_reply ++ [DATA_reply; OK_reply; QUIT_reply].
Proof. by apply session_mail. Qed.

(** ** Replies are sent *)

Definition answered (w w' : world) : Prop := (length (output w) < length (output w'))%nat.
Definition grows (w w' : world) : Prop := (length (output w) <= length (output w'))%nat.

#[local] Instance grows_preorder : PreOrder grows.
Proof. split; unfold grows; [intros w; lia | intros w1 w2 w3; lia]. Qed.

(** A normal return of the operation comes after at least one reply. *)
Definition answers {A} (m : M A) : Prop := forall w a w', m w = (Done a, w') -> answered w w'.

Lemma answers_l {A B} (m : M A) (f : A -> M B) :
  answers m -> (forall a, keeps grows (f a)) -> answers (m ≫= f).
Proof.
  intros Hm Hf w b w' Hb. apply bind_Done in Hb as (a & w1 & H1 & H2).
  apply Hm in H1. specialize (Hf a w1). rewrite H2 in Hf. unfold answered, grows in *. simpl in Hf. lia.
Qed.

Lemma answers_r {A B} (m : M A) (f : A -> M B) :
  keeps grows m -> (forall a, answers (f a)) -> answers (m ≫= f).
Proof.
  intros Hm Hf w b w' Hb. apply bind_Done in Hb as (a & w1 & H1 & H2).
  apply Hf in H2. specialize (Hm w). rewrite H1 in Hm. unfold answered, grows in *. simpl in Hm. lia.
Qed.

Lemma answers_if {A} (b : bool) (m n : M A) : answers m -> answers n -> answers (if b then m else n).
Proof. by destruct b. Qed.

Lemma answers_decide {A} (P : Prop) `{Decision P} (m n : M A) :
  answers m -> answers n -> answers (if decide P then m else n).
Proof. by destruct (decide P). Qed.

Lemma answers_conn_Write d : answers (conn_Write d).
Proof.
  intros w a w'. unfold conn_Write. destruct (wleft w); [done|]. intros [= _ <-].
  unfold answered. simpl. rewrite length_app. simpl. lia.
Qed.

Lemma answers_sendReply c m b : answers (sendReply c m b).
Proof. apply answers_conn_Write. Qed.

Lemma answers_fail {A} e : answers (fail (A := A) e).
Proof. by intros w a w'. Qed.

Lemma grows_same {A} (m : M A) : (forall w, output (m w).2 = output w) -> keeps grows m.
Proof. intros Hm w. unfold grows. by rewrite Hm. Qed.

Lemma grows_conn_Write d : keeps grows (conn_Write d).
Proof.
  intros w. unfold conn_Write, grows. destruct (wleft w); simpl; [lia|]. rewrite length_app. lia.
Qed.

Lemma grows_modify f : keeps grows (modify f).
Proof. by apply grows_same. Qed.

Lemma grows_get : keeps grows get_recv.
Proof. by apply grows_same. Qed.

Lemma grows_deref r : keeps grows (deref r).
Proof. apply grows_same. by destruct r. Qed.

Lemma grows_ret {A} (a : A) : keeps grows (mret a).
Proof. by apply grows_same. Qed.

Lemma grows_sendError e : keeps grows (sendError e).
Proof.
  unfold sendError. destruct (match e with E c m => _ | Other t => _ end) as [code msg].
  apply keeps_bind; [apply _|apply grows_conn_Write|]. intros _. apply grows_modify.
Qed.

Lemma answers_sendError e : answers (sendError e).
Proof.
  unfold sendError. destruct (match e with E c m => _ | Other t => _ end) as [code msg].
  apply answers_l; [apply answers_conn_Write|]. intros _. apply grows_modify.
Qed.

Lemma grows_readAuthData cmd : keeps grows (readAuthData cmd).
Proof.
  apply keeps_bind; [apply _| |intros; apply grows_ret].
  apply grows_same. intros w. unfold read_all. by destruct (read_loop _ _).
Qed.

Lemma grows_readDATA : keeps grows (readDATA format_local).
Proof.
  apply grows_same. intros w. unfold readDATA. destruct (readDATA_loop _ _) as [[[] inp] m]; done.
Qed.

Lemma grows_check : keeps grows check_authenticated.
Proof.
  unfold check_authenticated. apply keeps_bind; [apply _|apply grows_get|]. intros rc.
  destruct (isAuthenticated rc); [apply grows_ret | apply grows_sendError].
Qed.

#[local] Hint Resolve answers_sendReply answers_sendError answers_fail grows_modify grows_get
  grows_deref grows_ret grows_sendError grows_readAuthData grows_readDATA grows_check : smtp.

Ltac answers_tac :=
  repeat first
    [ solve [auto with smtp]
    | apply answers_if
    | apply answers_decide
    | apply answers_r; [solve [auto with smtp]|intros ?]
    | apply answers_l; [|intros ?; solve [auto with smtp]]
    | case_match ].

Lemma answers_handleAUTH cmd : answers (handleAUTH cmd).
Proof.
  assert (Hd : forall c, answers (handleAUTH_decode c)).
  { intros c. unfold handleAUTH_decode, handleAUTH_serve. answers_tac. }
  unfold handleAUTH. answers_tac. apply answers_r; [|intros ?; answers_tac].
  apply grows_conn_Write.
Qed.

Lemma answers_handleDATA : answers (handleDATA format_local).
Proof.
  unfold handleDATA. apply answers_r; [auto with smtp|]. intros _. apply answers_r; [auto with smtp|].
  intros rc. apply answers_if; apply answers_l; auto with smtp.
  intros _. apply keeps_bind; [apply _|auto with smtp|]. intros _. auto with smtp.
Qed.

Lemma answers_handleCommand cmd : Kind cmd ≠ CommandZERO -> Kind cmd ≠ CommandQUIT ->
  answers (handleCommand format_local srv cmd).
Proof.
  intros Hz Hq. unfold handleCommand. pose proof (answers_handleAUTH cmd).
  pose proof answers_handleDATA.
  destruct (Kind cmd); try done;
    unfold handleEHLO, handleMAIL, handleRCPT, handleVRFY, handleEXPN, handle_query, handleHELP;
    answers_tac.
Qed.

Lemma sendError_failed e w x w' : sendError e w = (Error x, w') -> wleft w' = 0%nat.
Proof.
  unfold sendError. destruct (match e with E c m => _ | Other t => _ end) as [code msg].
  unfold mbind, M_bind, conn_Write. destruct (wleft w) eqn:Hw; [|done]. by intros [= _ <-].
Qed.

Lemma grows_after_DATA m : keeps grows
  (processMailTx now m;;
   r ← attempt (sendReply 250 (str "OK") []);
   match r with inr _ => mret false | inl _ => modify recv_reset;; mret true end).
Proof.
  apply keeps_bind; [apply _| |intros _].
  - unfold processMailTx. apply keeps_bind; [apply _| |].
    + intros w. rewrite make_mails_spec. unfold grows. simpl. lia.
    + intros ms. induction ms as [|x ms IH]; simpl; [apply grows_ret|].
      apply keeps_bind; [apply _| |done]. apply grows_same. intros w. unfold enqueue. by destruct (room w).
  - apply keeps_bind; [apply _|apply keeps_attempt, grows_conn_Write|].
    intros [?|?]; [|apply grows_ret]. by apply keeps_bind; [apply _|apply grows_modify|intros; apply grows_ret].
Qed.

Lemma round_body_answers cmd w w' : Kind cmd ≠ CommandZERO ->
  round_body now format_local srv cmd w = (Done true, w') -> answered w w' \/ wleft w' = 0%nat.
Proof.
  intros Hz. unfold round_body. destruct (validate (Exts srv) cmd) as [err|].
  { intros Hr. apply bind_Done in Hr as (r & w1 & H1 & [= <-]). unfold attempt in H1.
    destruct (sendError err w) as [[a|x| | |] w2] eqn:Hs; simplify_eq; [left|right].
    - by apply answers_sendError in Hs.
    - by apply sendError_failed in Hs. }
  intros Hr. left. apply bind_Done in Hr as (r & w1 & H1 & Hr). unfold attempt in H1.
  destruct (handleCommand format_local srv cmd w) as [[a|x| | |] w2] eqn:Hc; simplify_eq.
  rewrite get_bind in Hr.
  assert (Hq : Kind cmd ≠ CommandQUIT).
  { intros Hk. unfold handleCommand in Hc. rewrite Hk in Hc.
    apply bind_Done in Hc as (? & w3 & _ & Hc). unfold modify in Hc. by simplify_eq. }
  apply answers_handleCommand in Hc; [|done|done].
  assert (Hg : grows w1 w'); [|unfold grows, answered in *; lia].
  destruct (state (recv w1)); try done; try (injection Hr as <-; reflexivity).
  pose proof (grows_after_DATA (mail (recv w1)) w1) as Hg. by rewrite Hr in Hg.
Qed.

(** C34: no command goes unanswered: a round of the server that goes on to the
    next command has written at least one reply, unless the connection can no
    longer be written to. *)
Theorem handle_round_answers w w' :
  handle_round now format_local srv w = (Done true, w') ->
  (length (output w) < length (output w'))%nat \/ wleft w' = 0%nat.
Proof.
  intros Hr. apply bind_Done in Hr as ([cmd|e] & w1 & H1 & Hr); unfold attempt in H1.
  2:{ by apply bind_Done in Hr as (? & w2 & _ & Hr). }
  assert (output w1 = output w /\ Kind cmd ≠ CommandZERO) as [<- Hk].
  { unfold readCommand in H1. destruct (read_loop (input w) []) as [[b|x| | |] inp]; simplify_eq.
    destruct (unpack newCommand b) eqn:Hu; simplify_eq. split; [done|]. by apply unpack_Kind in Hu. }
  by apply round_body_answers in Hr.
Qed.

(** To a client that did not authenticate, VRFY and RCPT first answer that
    authentication is required and then go on all the same: VRFY gives its
    answer and RCPT keeps the recipient and says OK. *)
Theorem unauthenticated_goes_on cmd r rc inp o n q rm tk cl :
  mode rc = receiverModeClient -> authenticated rc = false ->
  ServeVerify (Arg cmd) = (Some r, None) ->
  let w := mkWorld rc inp o (S (S n)) q rm tk cl in
  let refused := reply_text 530 (str "5.7.0 Authentication required") [] in
  (Kind cmd = CommandVRFY ->
   output (handleCommand format_local srv cmd w).2 = o ++ [refused; reply_text (Code r) (Message r) (Body r)])
  /\
  (Kind cmd = CommandRCPT ->
   output (handleCommand format_local srv cmd w).2 = o ++ [refused; OK_reply] /\
   Recipients (mail (recv (handleCommand format_local srv cmd w).2)) = [Arg cmd] /\
   state (recv (handleCommand format_local srv cmd w).2) = CommandRCPT).
Proof.
  intros Hm Ha Hv w refused.
  assert (Hc : check_authenticated w = (Done tt, mkWorld (recv_reset rc) inp (o ++ [refused]) (S n) q rm tk cl)).
  { unfold check_authenticated. rewrite get_bind. unfold isAuthenticated. cbn [recv w]. by rewrite Ha, andb_false_r. }
  split; intros Hk; unfold handleCommand; rewrite Hk.
  - unfold handleVRFY, handle_query. rewrite get_bind. cbn [recv w]. rewrite Hm, bool_decide_eq_false_2 by done.
    unfold mbind at 1, M_bind at 1. rewrite Hc, Hv. unfold deref, sendReply. simpl. by rewrite <- (assoc_L (++)).
  - assert (He : exists w', handleRCPT cmd w = (Done tt, w') /\ output w' = (o ++ [refused]) ++ [OK_reply] /\
              Recipients (mail (recv w')) = [Arg cmd] /\ state (recv w') = CommandRCPT).
    { unfold handleRCPT, mbind at 1, M_bind at 1. rewrite Hc. by eexists. }
    destruct He as (w' & -> & Ho & Hr & Hs). simpl. by rewrite Ho, <- (assoc_L (++)).
Qed.
End Connection.

(** ** Concrete runs *)

(** A handler with one user. *)
Definition one_user : Handler := {|
  ServeAuth := fun u p =>
    if bool_decide (u = str "joe" /\ p = str "pw")
    then (Some (mkResponse 235 (str "2.7.0 Authentication successful") []), None)
    else (None, Some ErrInvalidCredential);
  ServeBounce := fun _ => (None, None);
  ServeExpand := fun _ => (Some (mkResponse 502 (str "Command not implemented") []), None);
  ServeMailTx := fun _ => (None, None);
  ServeVerify := fun _ => (Some (mkResponse 250 (str "joe@example") []), None)
|}.

Definition demo_server : Server := mkServer (str "mail.example") [] (initialize_Exts []).
Definition demo_line (s : string) : list Z := str s ++ crlf.
Definition demo_cmd (s : string) : Command :=
  match unpack (H := ascii_tables) newCommand (demo_line s) with Ok c => c | _ => newCommand end.

Lemma session_delivers_witness :
  let '(result, w') := handle (H := ascii_tables) (H0 := one_user) (fun n => Z.of_nat n) (fun _ => []) demo_server
    (mkWorld (newReceiver receiverModeClient (str "r") (str "l"))
       (data_reads [demo_line "EHLO home"; demo_line "AUTH PLAIN AGpvZQBwdw=="; demo_line "MAIL FROM:<joe@a>"]
        ++ data_reads [demo_line "RCPT TO:<ann@b>"; demo_line "RCPT TO:<bob@c>"]
        ++ (demo_line "DATA", None) :: data_reads [str "hello" ++ crlf; str "." ++ crlf]
        ++ data_reads [demo_line "QUIT"]) [] 9 [] 5 0 false) in
  result = Done tt /\ closed w' = true /\ Recipients <$> queue w' = [[str "ann@b"]; [str "bob@c"]].
Proof.
  pose proof (session_delivers (H := ascii_tables) (H0 := one_user) (fun n => Z.of_nat n) (fun _ => [])
    demo_server (str "r") (str "l")
    (demo_line "EHLO home") (demo_line "AUTH PLAIN AGpvZQBwdw==") (demo_line "MAIL FROM:<joe@a>")
    [demo_line "RCPT TO:<ann@b>"; demo_line "RCPT TO:<bob@c>"] (demo_line "DATA") (demo_line "QUIT")
    (demo_cmd "EHLO home") (demo_cmd "AUTH PLAIN AGpvZQBwdw==") (demo_cmd "MAIL FROM:<joe@a>")
    (demo_cmd "DATA") (demo_cmd "QUIT") [str "ann@b"; str "bob@c"]
    [str "hello" ++ crlf; str "." ++ crlf] (str "hello") [] (str "joe") (str "pw")
    (mkResponse 235 (str "2.7.0 Authentication successful") []) 5 0 []
    ltac:(split; vm_compute; reflexivity) ltac:(vm_compute; reflexivity)
    ltac:(split; vm_compute; reflexivity) ltac:(vm_compute; reflexivity) ltac:(vm_compute; reflexivity)
    ltac:(vm_compute; discriminate) ltac:(vm_compute; reflexivity)
    ltac:(apply (bool_decide_unpack _); vm_compute; exact I)
    ltac:(apply (bool_decide_unpack _); vm_compute; exact I)
    ltac:(apply (bool_decide_unpack _); vm_compute; exact I)
    ltac:(vm_compute; reflexivity)
    ltac:(split; vm_compute; reflexivity) ltac:(vm_compute; reflexivity)
    ltac:(constructor;
          [exists (demo_cmd "RCPT TO:<ann@b>"); repeat split; vm_compute; reflexivity|constructor;
          [exists (demo_cmd "RCPT TO:<bob@c>"); repeat split; vm_compute; reflexivity|constructor]])
    ltac:(discriminate) ltac:(simpl; lia)
    ltac:(split; vm_compute; reflexivity) ltac:(vm_compute; reflexivity) ltac:(vm_compute; reflexivity)
    ltac:(intros i Hi; simpl in Hi; replace i with 1%nat by lia; intros [k Hk];
          apply (f_equal reverse) in Hk; rewrite reverse_app in Hk; vm_compute in Hk; discriminate)
    ltac:(split; vm_compute; reflexivity) ltac:(vm_compute; reflexivity) ltac:(simpl; lia)) as Hd.
  simpl length in Hd.
  destruct (handle _ _ _ _) as [result w'].
  destruct Hd as (Hr & Hc & Hq & _). split_and!; [done|done|]. by rewrite Hq.
Defined.

Definition demo_world (inp : list read_result) : world :=
  mkWorld (set_state (newReceiver receiverModeClient (str "r") (str "l")) CommandRCPT) inp [] 9 [] 5 0 false.

Lemma readDATA_spec_witness :
  (readDATA (fun _ => []) (demo_world (data_reads [str "a" ++ crlf; str "." ++ crlf] ++ data_reads [demo_line "QUIT"]))).1
  = Done tt.
Proof.
  rewrite (readDATA_spec (fun _ => []) (demo_world _)
    [str "a" ++ crlf; str "." ++ crlf] (data_reads [demo_line "QUIT"]) (str "a")); try reflexivity.
  intros i Hi. simpl in Hi. replace i with 1%nat by lia. intros [k Hk].
  apply (f_equal reverse) in Hk. rewrite reverse_app in Hk. vm_compute in Hk. discriminate.
Defined.

Lemma processMailTx_spec_witness :
  queue (processMailTx (fun n => Z.of_nat n)
    (mkMail [] (str "joe@a") [str "ann@b"; str "bob@c"] (str "hi") time_zero time_zero 0) (demo_world [])).2
  = [mkMail (str "0") (str "joe@a") [str "ann@b"] (str "hi") time_zero (time_unix 0) 0;
     mkMail (str "1") (str "joe@a") [str "bob@c"] (str "hi") time_zero (time_unix 1) 0].
Proof. rewrite processMailTx_spec by (simpl; lia). vm_compute. reflexivity. Defined.

Lemma handle_round_answers_witness :
  exists w', handle_round (H := ascii_tables) (H0 := one_user) (fun n => Z.of_nat n) (fun _ => []) demo_server
    (demo_world (data_reads [demo_line "NOOP"])) = (Done true, w')
  /\ ((0 < length (output w'))%nat \/ wleft w' = 0%nat).
Proof.
  eexists. split; [vm_compute; reflexivity|].
  apply (handle_round_answers (H := ascii_tables) (H0 := one_user) (fun n => Z.of_nat n) (fun _ => []) demo_server
    (demo_world (data_reads [demo_line "NOOP"]))). vm_compute. reflexivity.
Defined.

Lemma unauthenticated_goes_on_witness :
  output (handleCommand (H0 := one_user) (fun _ => []) demo_server (demo_cmd "VRFY joe") (demo_world [])).2
  = [str "530 5.7.0 Authentication required" ++ crlf; str "250 joe@example" ++ crlf].
Proof.
  etransitivity; [exact (proj1 (unauthenticated_goes_on (H0 := one_user) (fun _ => []) demo_server
    (demo_cmd "VRFY joe") (mkResponse 250 (str "joe@example") []) (recv (demo_world [])) [] [] 7 [] 5 0 false
    eq_refl eq_refl eq_refl) ltac:(vm_compute; reflexivity))|]. vm_compute. reflexivity.
Defined.
