(* ===== verification/SmtpResponse.v ===== *)
(** Package [lib/smtp], file [response.go]: the client's parser of server
    replies, and its agreement with what the server writes. *)

From Stdlib Require Import ZArith Lia.
From S2P Require Import Prelude Ascii Utf8 Strconv IoReader SmtpCommand SmtpServer.

Local Open Scope Z_scope.

Definition errLength := str "invalid response length".
Definition errCode := str "invalid response code".
Definition errMessageCRLF := str "missing CRLF at message line".
Definition errMessageTrailing := str "trailing characters at message line".
Definition errSeparator := str "invalid separator after code".
Definition errInconsistent := str "inconsistent code".
Definition errCRLF := str "missing CRLF".
Definition errTrailing := str "trailing characters".

Definition result := outcome (list Z).

(** [Response.parseCode]: the code bytes, isMultiline and the number; three
    digits never overflow [strconv.Atoi]. *)
Definition parseCode (raw : list Z) : result (list Z * bool * Z) :=
  code ← slice raw 0 3;
  if negb (forallb IsDigit code) then Err errCode
  else
    sep ← get_at raw 3;
    Ok (code, sep =? 45, digits_value code).

(** [Response.parseMessage]: the message. *)
Definition parseMessage (r : Reader) (isMultiline : bool) (terms : list Z) : result (list Z * Reader) :=
  out ← ReadUntil r [] terms;
  let '(bb, _, c, r) := out in
  if c =? 0 then Err errMessageCRLF
  else
    let msg := TrimSpace bb in
    let '(c, r) := SkipSpaces r in
    if negb isMultiline && negb (c =? 0) then Err errMessageTrailing else Ok (msg, r).

(** [Response.parseBody]: each round takes at least the separator. *)
Fixpoint parseBody (fuel : nat) (r : Reader) (code seps terms : list Z) (body : list (list Z))
    : result (list (list Z)) :=
  match fuel with
  | O => NoFuel
  | S fuel =>
      out ← ReadUntil r seps terms;
      let '(bb, _, c, r) := out in
      if negb (c =? 45) && negb (c =? 32) then Err errSeparator
      else if bool_decide (bb ≠ code) then Err errInconsistent
      else
        let isLastLine := c =? 32 in
        out ← ReadUntil r [] terms;
        let '(bb, _, c, r) := out in
        if c =? 0 then Err errCRLF
        else
          let bb := TrimSpace bb in
          let body := if decide (0 < length bb)%nat then body ++ [bb] else body in
          if isLastLine then
            let '(c, r) := SkipSpaces r in
            if negb (c =? 0) then Err errTrailing else Ok body
          else parseBody fuel r code seps terms body
  end.

(** [NewResponse]. *)
Definition NewResponse (raw : list Z) : result (option Response) :=
  if decide (length raw = 0%nat) then Ok None
  else if decide (length raw < 5)%nat then Err errLength
  else
    cm ← parseCode raw;
    let '(code, isMultiline, n) := cm in
    let reader := Init (drop 4 raw) in
    mr ← parseMessage reader isMultiline [10];
    let '(msg, reader) := mr in
    if negb isMultiline then Ok (Some (mkResponse n msg []))
    else
      body ← parseBody (S (length (unread reader))) reader code [45; 32] [10] [];
      Ok (Some (mkResponse n msg body)).

(** ** No input makes the parser panic *)

Definition safe_result {A} (m : result A) : Prop := m ≠ Panic /\ m ≠ NoFuel.

Lemma SkipSpaces_wf r : wf r -> wf (SkipSpaces r).2 /\ (length (unread (SkipSpaces r).2) <= length (unread r))%nat.
Proof.
  intros Hr. unfold SkipSpaces. cbn [snd]. set (n := scan _ _).
  assert (Hn : (n <= length (unread r))%nat) by apply scan_le.
  rewrite length_unread in Hn |- *. unfold wf, at_X in *. rewrite length_unread. simpl. lia.
Qed.

Lemma ReadUntil_length (r r' : Reader) tok c :
  unread r = tok ++ c :: unread r' -> (length (unread r') < length (unread r))%nat.
Proof. intros ->. rewrite length_app. simpl. lia. Qed.

Lemma parseMessage_safe r multi terms : wf r ->
  safe_result (parseMessage r multi terms) /\
  forall msg r', parseMessage r multi terms = Ok (msg, r') -> wf r'.
Proof.
  intros Hr. unfold parseMessage.
  destruct (ReadUntil_cases (E := list Z) r [] terms Hr) as (tok & t & c & r1 & -> & Hw & _).
  cbn [mbind outcome_bind]. destruct (c =? 0); [done|].
  pose proof (proj1 (SkipSpaces_wf r1 Hw)) as Hw2. destruct (SkipSpaces r1) as [c2 r2].
  destruct (_ && _); [done|]. split; [done|]. by intros msg r' [= <- <-].
Qed.

Lemma parseBody_safe fuel r code seps terms body : wf r -> (length (unread r) < fuel)%nat ->
  0 ∉ seps -> 0 ∉ terms ->
  safe_result (parseBody fuel r code seps terms body).
Proof.
  intros Hr Hf Hs0 Ht0. revert r body Hr Hf. induction fuel as [|fuel IH]; intros r body Hr Hf; [lia|].
  cbn [parseBody].
  destruct (ReadUntil_cases (E := list Z) r seps terms Hr) as (tok & t & c & r1 & -> & Hw1 & _ & _ & Hc1).
  cbn [mbind outcome_bind]. destruct (negb _ && _) eqn:Hsep; [done|].
  destruct (bool_decide _); [done|].
  destruct (ReadUntil_cases (E := list Z) r1 [] terms Hw1) as (tok2 & t2 & c2 & r2 & -> & Hw2 & _ & _ & Hc2).
  cbn [mbind outcome_bind]. destruct (Z.eqb_spec c2 0) as [|Hn0]; [done|].
  destruct (c =? 32).
  { destruct (SkipSpaces r2) as [c3 r3]. by destruct (c3 =? 0). }
  apply IH; [done|].
  destruct Hc1 as [[Hu1 _]|(_ & _ & _ & ->)]; [|done].
  destruct Hc2 as [[Hu2 _]|(_ & _ & _ & ->)]; [|done].
  apply ReadUntil_length in Hu1, Hu2. lia.
Qed.

(** Whatever bytes a server sends, the parser of replies returns a response
    or an error: it never panics and never runs for ever. *)
Theorem NewResponse_total raw : NewResponse raw ≠ Panic /\ NewResponse raw ≠ NoFuel.
Proof.
  unfold NewResponse. case_decide; [done|]. case_decide as H5; [done|].
  unfold parseCode. rewrite slice_Ok by lia. cbn [mbind outcome_bind].
  destruct (negb (forallb _ _)); [done|].
  destruct (lookup_lt_is_Some_2 raw 3) as [sep Hsep]; [lia|].
  rewrite (get_at_Some _ _ _ Hsep). cbn [mbind outcome_bind].
  destruct (parseMessage_safe (Init (drop 4 raw)) (sep =? 45) [10] (Init_wf _)) as [Hm Hw].
  destruct (parseMessage _ _ _) as [[msg r]|e| |]; try done; [|by destruct Hm as [[] _]|by destruct Hm as [_ []]].
  cbn [mbind outcome_bind]. destruct (negb _); [done|].
  destruct (parseBody_safe (S (length (unread r))) r (take (3 - 0) (drop 0 raw)) [45; 32] [10] [])
    as [Hb1 Hb2]; [by eapply Hw|lia|by apply (bool_decide_unpack _)|by apply (bool_decide_unpack _)|].
  by destruct (parseBody _ _ _ _ _ _).
Qed.

(** ** Replies read back *)

(** A line of text that a reply can carry: ASCII, on one line and without a
    space at either end. *)
Definition line_text (s : list Z) : Prop := is_ascii s /\ no_edge_space s /\ 10 ∉ s.

Lemma ReadUntil_line pre s rest : 10 ∉ s ->
  ReadUntil (E := list Z) (mid pre (s ++ crlf ++ rest)) [] [10]
  = Ok (s ++ [13], true, 10, mid (pre ++ s ++ crlf) rest).
Proof.
  intros Hs. pose proof (ReadUntil_found (E := list Z) pre (s ++ [13]) 10 rest [] [10]) as Hr.
  rewrite <- !(assoc_L (++)) in Hr. apply Hr.
  - apply Forall_forall. intros b Hb. split; [|by apply not_elem_of_nil].
    rewrite list_elem_of_singleton. intros ->. apply elem_of_app in Hb as [Hb|Hb]; [done|].
    by apply list_elem_of_singleton in Hb.
  - left. by apply list_elem_of_singleton.
Qed.

(** A code of three digits. *)
Definition reply_code (n : Z) : Prop := 100 <= n <= 999.

Lemma dec_length3 n : reply_code n -> length (dec n) = 3%nat.
Proof.
  intros Hn. assert (Hin : n ∈ seqZ 100 900) by (apply elem_of_seqZ; unfold reply_code in Hn; lia).
  clear Hn. revert n Hin. apply Forall_forall. apply (bool_decide_unpack _). vm_compute. exact I.
Qed.

Lemma reply_code_digits n : reply_code n -> Forall (fun c => IsDigit c = true) (dec n).
Proof. intros Hn. apply dec_digits. unfold reply_code in Hn. lia. Qed.

Lemma ReadUntil_code pre n sep rest : reply_code n -> sep = 45 \/ sep = 32 ->
  ReadUntil (E := list Z) (mid pre (dec n ++ sep :: rest)) [45; 32] [10]
  = Ok (dec n, false, sep, mid (pre ++ dec n ++ [sep]) rest).
Proof.
  intros Hn Hsep. rewrite ReadUntil_found.
  - by destruct Hsep as [-> | ->].
  - eapply Forall_impl; [by apply reply_code_digits|]. intros b Hb. unfold IsDigit in Hb.
    apply andb_true_iff in Hb as [H1%Z.leb_le H2%Z.leb_le].
    rewrite !elem_of_cons, elem_of_nil. lia.
  - right. rewrite !elem_of_cons. destruct Hsep; auto.
Qed.

(** The lines that a client keeps. *)
Definition kept (body : list (list Z)) : list (list Z) := filter (.≠ []) body.

Lemma kept_cons l body acc :
  (if decide (0 < length l)%nat then acc ++ [l] else acc) ++ kept body = acc ++ kept (l :: body).
Proof.
  unfold kept. rewrite filter_cons. destruct l as [|c l]; simpl; [done|].
  by rewrite <- (assoc_L (++)).
Qed.

Lemma parseBody_reply n body : reply_code n -> Forall line_text body -> body ≠ [] ->
  forall fuel pre acc, (length (reply_body n body) < fuel)%nat ->
  parseBody fuel (mid pre (reply_body n body)) (dec n) [45; 32] [10] acc = Ok (acc ++ kept body).
Proof.
  intros Hn Hall. induction Hall as [|line body (Ha & He & Hl) Hall IH]; intros Hne; [done|].
  intros [|fuel] pre acc Hf; [lia|].
  destruct body as [|line2 body].
  - cbn [reply_body parseBody]. unfold reply_line.
    rewrite ReadUntil_code by auto. cbn [mbind outcome_bind Z.eqb Pos.eqb negb andb].
    rewrite bool_decide_eq_false_2 by (intros Hx; by apply Hx).
    pose proof (ReadUntil_line (pre ++ dec n ++ [32]) line [] Hl) as Hr. rewrite app_nil_r in Hr.
    rewrite Hr. cbn [mbind outcome_bind Z.eqb Pos.eqb]. rewrite TrimSpace_CR by done.
    rewrite SkipSpaces_mid_end. cbn [Z.eqb negb]. rewrite <- kept_cons. by rewrite app_nil_r.
  - change (reply_body n (line :: line2 :: body))
      with (reply_line n 45 line ++ reply_body n (line2 :: body)) in *.
    set (tail_ := reply_body n (line2 :: body)) in *. cbn [parseBody]. unfold reply_line in *.
    rewrite !length_app in Hf. cbn [length] in Hf.
    rewrite <- (assoc_L (++)). cbn [app]. rewrite <- (assoc_L (++)).
    rewrite ReadUntil_code by auto. cbn [mbind outcome_bind Z.eqb Pos.eqb negb andb].
    rewrite bool_decide_eq_false_2 by (intros Hx; by apply Hx).
    rewrite ReadUntil_line by done. cbn [mbind outcome_bind Z.eqb Pos.eqb].
    rewrite TrimSpace_CR by done. rewrite IH by (done || lia). by rewrite kept_cons.
Qed.

(** What the server writes as a reply, of one line or of several, the
    client's parser reads back: the code, the message and the lines of the
    body but the empty ones. *)
Theorem NewResponse_reply n msg body :
  reply_code n -> line_text msg -> Forall line_text body ->
  NewResponse (reply_text n msg body) = Ok (Some (mkResponse n msg (kept body))).
Proof.
  intros Hn (Ha & He & Hl) Hb.
  assert (Hsplit : exists sep rest, reply_text n msg body = dec n ++ sep :: msg ++ crlf ++ rest /\
    (sep = 32 /\ body = [] /\ rest = [] \/ sep = 45 /\ body ≠ [] /\ rest = reply_body n body)).
  { unfold reply_text, reply_line. destruct body as [|l body].
    - exists 32, []. split; [by rewrite app_nil_r|auto].
    - exists 45, (reply_body n (l :: body)). split; [|auto].
      rewrite <- (assoc_L (++)). cbn [app]. by rewrite <- (assoc_L (++)). }
  destruct Hsplit as (sep & rest & -> & Hsep).
  pose proof (dec_length3 n Hn) as H3. pose proof (reply_code_digits n Hn) as Hd.
  unfold NewResponse. rewrite !decide_False by (rewrite length_app, H3; simpl; rewrite length_app; simpl; lia).
  assert (Hdrop : drop 4 (dec n ++ sep :: msg ++ crlf ++ rest) = msg ++ crlf ++ rest).
  { change 4%nat with (3 + 1)%nat. rewrite <- H3, drop_app_add. done. }
  rewrite Hdrop. unfold parseCode.
  assert (Hs : slice (E := list Z) (dec n ++ sep :: msg ++ crlf ++ rest) 0 3 = Ok (dec n)).
  { rewrite slice_Ok by (rewrite length_app; lia). rewrite drop_0, <- H3, Nat.sub_0_r. by rewrite take_app_length. }
  rewrite Hs. cbn [mbind outcome_bind].
  replace (forallb IsDigit (dec n)) with true.
  2:{ symmetry. apply forallb_forall. intros c Hc. rewrite Forall_forall in Hd. apply Hd.
      by apply list_elem_of_In. }
  cbn [negb]. rewrite (get_at_Some _ 3 sep) by (rewrite <- H3; by rewrite list_lookup_middle).
  cbn [mbind outcome_bind]. rewrite digits_value_dec by (unfold reply_code in Hn; lia).
  unfold parseMessage. change (Init (msg ++ crlf ++ rest)) with (mid [] (msg ++ crlf ++ rest)).
  rewrite ReadUntil_line by done. cbn [mbind outcome_bind Z.eqb Pos.eqb].
  rewrite TrimSpace_CR by done.
  destruct Hsep as [(-> & -> & ->)|(-> & Hne & ->)].
  - rewrite SkipSpaces_mid_end. reflexivity.
  - assert (Hst : exists c t, reply_body n body = c :: t /\ IsSpace c = false).
    { assert (Hst : exists t, reply_body n body = dec n ++ t).
      { destruct body as [|l [|l2 body]]; [done| |]; cbn [reply_body]; unfold reply_line.
        - eauto.
        - rewrite <- (assoc_L (++)). eauto. }
      destruct Hst as [t ->]. destruct (dec_head n) as (c & ds & -> & Hc & _).
      exists c, (ds ++ t). done. }
    destruct Hst as (c & t & Hbody & Hc). rewrite Hbody, SkipSpaces_mid_stop by done.
    cbn [Z.eqb Pos.eqb negb andb mbind outcome_bind]. rewrite unread_mid, <- Hbody.
    rewrite parseBody_reply by (done || lia). done.
Qed.

Lemma NewResponse_reply_witness :
  NewResponse (reply_text 250 (str "mail.example") [str "DSN"; []; str "AUTH PLAIN"])
  = Ok (Some (mkResponse 250 (str "mail.example") [str "DSN"; str "AUTH PLAIN"])).
Proof.
  assert (Hl : forall s, bool_decide (is_ascii s) && bool_decide (10 ∉ s)
      && match head s with Some b => negb (IsSpace b) | None => true end
      && match last s with Some b => negb (IsSpace b) | None => true end = true -> line_text s).
  { intros s Hs. apply andb_true_iff in Hs as [[[H1 H2]%andb_true_iff H3]%andb_true_iff H4].
    apply bool_decide_eq_true in H1, H2. split_and!; [done| |done].
    split; intros b Hb; rewrite Hb in *; by apply negb_true_iff. }
  rewrite NewResponse_reply; [reflexivity|unfold reply_code; lia| |].
  - apply Hl. vm_compute. reflexivity.
  - rewrite !Forall_cons. split_and!; try apply Hl; try (vm_compute; reflexivity). constructor.
Defined.
