(* ===== verification/SmtpDelivery.v ===== *)
(** Package [lib/smtp]: the accounts ([account.go], [domain.go],
    [environment.go], [localhandler.go]), the consumer of the mail queue
    ([processMailTxQueue] of [server.go], [postpone] of [mail.go]) and the
    client's view of EHLO ([serverinfo.go]).  The hash of passwords is the
    third-party package [bcrypt], a parameter here. *)

From Stdlib Require Import ZArith Lia.
From S2P Require Import Prelude Ascii Utf8 SmtpCommand SmtpServer.

Local Open Scope Z_scope.

(** ** Accounts *)

Record Account := mkAccount {
  acc_Name : list Z;
  acc_Local : list Z;
  acc_Domain : list Z;
  HashPass : list Z
}.

(** [Account.Short] and [Account.String]. *)
Definition Short (acc : Account) : list Z := acc_Local acc ++ str "@" ++ acc_Domain acc.
Definition Account_String (acc : Account) : list Z :=
  (if decide (0 < length (acc_Name acc))%nat then acc_Name acc ++ str " <" else [])
  ++ acc_Local acc ++ str "@" ++ acc_Domain acc
  ++ (if decide (0 < length (acc_Name acc))%nat then str ">" else []).

Record Domain := mkDomain { dom_Name : list Z; Accounts : gmap (list Z) Account }.

(** [Environment]; the virtual domains in the order of the iteration over the
    map. *)
Record Environment := mkEnvironment { env_Primary : Domain; env_Virtual : list Domain }.

Class Bcrypt := {
  CompareHashAndPassword : list Z -> list Z -> bool;
  (** the k-th call for a password; [None] is an error *)
  GenerateFromPassword : nat -> list Z -> option (list Z)
}.

Section Local.
Context `{Unicode} `{Bcrypt}.

(** The three attempts of [NewAccount]. *)
Fixpoint hash_attempts (n k : nat) (pass : list Z) : option (list Z) :=
  match n with
  | O => None
  | S n =>
      match GenerateFromPassword k pass with
      | Some h => Some h
      | None => hash_attempts n (S k) pass
      end
  end.

Definition NewAccount (name local domain pass : list Z) : option Account :=
  let local := text_ToLower local in
  if decide (0 < length pass)%nat then
    match hash_attempts 3 0 pass with
    | Some h => Some (mkAccount name local domain h)
    | None => None
    end
  else Some (mkAccount name local domain []).

(** [NewDomain]. *)
Definition NewDomain (name : list Z) : Domain :=
  mkDomain name
    (match NewAccount (str "Postmaster") (str "postmaster") [] [] with
     | Some acc => {[ str "postmaster" := acc ]}
     | None => ∅
     end).

(** [Account.Authenticate]. *)
Definition Authenticate (acc : Account) (pass : list Z) : bool :=
  CompareHashAndPassword (HashPass acc) pass.

(** ** [LocalHandler] *)

Definition refused : option Response * option go_error := (None, Some ErrInvalidCredential).
Definition accepted : option Response * option go_error :=
  (Some (mkResponse 235 (str "2.7.0 Authentication successful") []), None).

(** The checks on the account of a domain. *)
Definition auth_in (dom : Domain) (local pass : list Z) : option Response * option go_error :=
  match Accounts dom !! local with
  | None => refused
  | Some acc =>
      if decide (length (HashPass acc) = 0%nat) then refused
      else if Authenticate acc pass then accepted else refused
  end.

Fixpoint auth_virtual (doms : list Domain) (name local pass : list Z) : option Response * option go_error :=
  match doms with
  | [] => refused
  | dom :: doms =>
      if bool_decide (name ≠ dom_Name dom) then auth_virtual doms name local pass
      else auth_in dom local pass
  end.

Definition local_ServeAuth (env : Environment) (username password : list Z)
    : option Response * option go_error :=
  match Split 64 (text_ToLower username) with
  | [local; name] =>
      if bool_decide (name = dom_Name (env_Primary env)) then auth_in (env_Primary env) local password
      else auth_virtual (env_Virtual env) name local password
  | _ => refused
  end.

(** The first account with that name in the virtual domains with that name. *)
Fixpoint verify_virtual (doms : list Domain) (name local : list Z) : option Account :=
  match doms with
  | [] => None
  | dom :: doms =>
      if bool_decide (name ≠ dom_Name dom) then verify_virtual doms name local
      else match Accounts dom !! local with
           | Some acc => Some acc
           | None => verify_virtual doms name local
           end
  end.

Definition local_ServeVerify (env : Environment) (username : list Z)
    : option Response * option go_error :=
  match Split 64 (text_ToLower username) with
  | [local; name] =>
      let found :=
        match (if bool_decide (name = dom_Name (env_Primary env))
               then Accounts (env_Primary env) !! local else None) with
        | Some acc => Some acc
        | None => verify_virtual (env_Virtual env) name local
        end in
      (Some (match found with
             | Some acc => mkResponse 250 (Account_String acc) []
             | None => mkResponse 550 (str "mailbox not found") []
             end), None)
  | _ => (None, Some err_CmdSyntaxError)
  end.

Definition local_ServeExpand (mailingList : list Z) : option Response * option go_error :=
  (Some (mkResponse 502 (str "Command not implemented") []), None).

Definition LocalHandler (env : Environment) : Handler := {|
  ServeAuth := local_ServeAuth env;
  ServeBounce := fun _ => (None, None);
  ServeExpand := local_ServeExpand;
  ServeMailTx := fun _ => (None, None);
  ServeVerify := local_ServeVerify env
|}.
End Local.

(** ** The consumer of the queue *)

Definition minutes (n : Z) : Z := n * 60000000000.

(** [time.Time.Add] and [After] on nanoseconds since 1970. *)
Definition unix_ns (t : go_time) : Z :=
  match t with time_zero => -62135596800000000000 | time_unix ns => ns end.

(** [MailTx.postpone] and [MailTx.isPostponed]. *)
Definition postpone (m : MailTx) : MailTx :=
  mkMail (ID m) (From m) (Recipients m) (Data m)
    (time_unix (unix_ns (Received m) + minutes ((Retry m + 1) * 30))) (Received m) (Retry m + 1).

Definition isPostponed (now : Z) (m : MailTx) : bool := now <? unix_ns (Postpone m).

Inductive action : Type := Serve (m : MailTx) | Relay (m : MailTx) | Bounce (m : MailTx).

Section Queue.
Context `{Handler}.
Variable srv : Server.

(** [Server.isOurDomain]. *)
Fixpoint in_domains (doms : list (list Z)) (d : list Z) : bool :=
  match doms with
  | [] => false
  | name :: doms => if bool_decide (d = name) then true else in_domains doms d
  end.

Definition isOurDomain (d : list Z) : bool :=
  if bool_decide (d = PrimaryDomain srv) then true else in_domains (VirtualDomains srv) d.

Definition localPostmaster : list Z := str "postmaster".

(** The switch of [processMailTxQueue] on the recipient. *)
Definition route (m : MailTx) (rcpt : list Z) : action :=
  match Split 64 rcpt with
  | [_; domain] => if isOurDomain domain then Serve m else Relay m
  | [local] => if bool_decide (local = localPostmaster) then Serve m else Bounce m
  | _ => Bounce m
  end.

Definition serve_error (a : action) : option go_error :=
  match a with Serve m => (ServeMailTx m).2 | _ => None end.

(** One round of the loop on the mail it holds: what is done with the mail, and
    the mail after the round. *)
Definition queue_round {E} (now : Z) (m : MailTx) : outcome E (list action * MailTx) :=
  if isPostponed now m then Ok ([], m)
  else
    rcpt ← get_at (Recipients m) 0;
    let a := route m rcpt in
    match serve_error a with
    | Some _ => if Retry m <? 5 then Ok ([a], postpone m) else Ok ([a; Bounce m], m)
    | None => Ok ([a], m)
    end.

(** [n] rounds of [processMailTxQueue]: its loop statement has no post
    statement, so every round is about the mail that was received first. *)
Fixpoint queue_rounds {E} (clock : list Z) (m : MailTx) : outcome E (list action * MailTx) :=
  match clock with
  | [] => Ok ([], m)
  | now :: clock =>
      r ← queue_round now m;
      r' ← queue_rounds clock r.2;
      Ok (r.1 ++ r'.1, r'.2)
  end.
End Queue.

(** ** [NewServerInfo] *)

Record ServerInfo := mkServerInfo {
  si_Domain : list Z;
  si_Info : list Z;
  si_Exts : gmap (list Z) (list (list Z))
}.

Section Info.
Context `{Unicode}.

Fixpoint info_exts (body : list (list Z)) (exts : gmap (list Z) (list (list Z)))
    : gmap (list Z) (list (list Z)) :=
  match body with
  | [] => exts
  | line :: body =>
      let extParams := Split 32 line in
      info_exts body (<[text_ToLower (hd [] extParams) := tl extParams]> exts)
  end.

Definition NewServerInfo (res : option Response) : option ServerInfo :=
  match res with
  | None => None
  | Some res =>
      Some (mkServerInfo (hd [] (Split 32 (Message res))) (Message res) (info_exts (Body res) ∅))
  end.
End Info.

(** ** Who may log in *)

Section LocalFacts.
Context `{Unicode} `{Bcrypt}.

(** The account that a credential opens in a domain. *)
Definition opens (dom : Domain) (local pass : list Z) : Prop :=
  exists acc, Accounts dom !! local = Some acc /\ HashPass acc ≠ [] /\
    CompareHashAndPassword (HashPass acc) pass = true.

Lemma auth_in_cases dom local pass :
  (opens dom local pass /\ auth_in dom local pass = accepted) \/
  (~ opens dom local pass /\ auth_in dom local pass = refused).
Proof.
  unfold auth_in, opens, Authenticate. destruct (Accounts dom !! local) as [acc|] eqn:Ha.
  2:{ right. split; [|done]. by intros (? & ? & _). }
  case_decide as Hh.
  { right. split; [|done]. intros (? & [= <-] & Hn & _). by apply Hn, nil_length_inv. }
  destruct (CompareHashAndPassword (HashPass acc) pass) eqn:Hc; [left|right]; split; try done.
  - exists acc. split_and!; [done| |done]. intros Hn. by rewrite Hn in Hh.
  - intros (? & [= <-] & _ & Hc'). congruence.
Qed.

(** The domain that answers for a name: the primary one, or the first virtual
    one of that name. *)
Definition domain_named (env : Environment) (name : list Z) : option Domain :=
  if bool_decide (name = dom_Name (env_Primary env)) then Some (env_Primary env)
  else head (filter (fun dom => name = dom_Name dom) (env_Virtual env)).

Lemma auth_virtual_first doms name local pass :
  auth_virtual doms name local pass =
  match head (filter (fun dom => name = dom_Name dom) doms) with
  | Some dom => auth_in dom local pass
  | None => refused
  end.
Proof.
  induction doms as [|dom doms IH]; [done|]. simpl. rewrite filter_cons.
  destruct (decide (name = dom_Name dom)) as [He|He].
  - by rewrite bool_decide_eq_false_2 by (intros Hn; by apply Hn).
  - by rewrite bool_decide_eq_true_2.
Qed.

(** The local handler accepts a user name and a password exactly when the
    lowered name is a local part and a domain joined by one at sign, the domain
    is the primary one or else the first virtual one of that name, it has an
    account of that local part with a non-empty hash, and the hash matches the
    password.  A system account, whose hash is empty, never logs in. *)
Theorem local_ServeAuth_iff env username password :
  local_ServeAuth env username password = accepted <->
  exists local name dom, Split 64 (text_ToLower username) = [local; name] /\
    domain_named env name = Some dom /\ opens dom local password.
Proof.
  unfold local_ServeAuth, domain_named.
  assert (Hin : forall dom local, auth_in dom local password = accepted <-> opens dom local password).
  { intros dom local. destruct (auth_in_cases dom local password) as [[Ho ->]|[Ho ->]]; split; done. }
  destruct (Split 64 (text_ToLower username)) as [|local [|name [|x l]]] eqn:Hs;
    try (split; [done | by intros (? & ? & ? & ? & _)]).
  transitivity (exists dom, (if bool_decide (name = dom_Name (env_Primary env)) then Some (env_Primary env)
    else head (filter (fun dom => name = dom_Name dom) (env_Virtual env))) = Some dom /\ opens dom local password).
  - destruct (bool_decide _).
    + rewrite Hin. split; [eauto|]. by intros (? & [= <-] & ?).
    + rewrite auth_virtual_first. destruct (head _) as [dom|].
      * rewrite Hin. split; [eauto|]. by intros (? & [= <-] & ?).
      * split; [done|]. by intros (? & ? & _).
  - split; [intros (dom & ? & ?); by exists local, name, dom|].
    intros (local' & name' & dom & [= <- <-] & Hd & Ho). eauto.
Qed.

Lemma local_ServeAuth_Some env u p r : local_ServeAuth env u p = (Some r, None) ->
  local_ServeAuth env u p = accepted.
Proof.
  unfold local_ServeAuth. assert (Hin : forall dom local, auth_in dom local p = (Some r, None) ->
    auth_in dom local p = accepted).
  { intros dom local. by destruct (auth_in_cases dom local p) as [[_ ->]|[_ ->]]. }
  destruct (Split _ _) as [|local [|name [|]]]; try done.
  destruct (bool_decide _); [apply Hin|]. rewrite auth_virtual_first. destruct (head _); [apply Hin|done].
Qed.

Lemma accepted_opens env u p : local_ServeAuth env u p = accepted ->
  exists dom local, (dom = env_Primary env \/ dom ∈ env_Virtual env) /\ opens dom local p.
Proof.
  unfold local_ServeAuth. destruct (Split _ _) as [|local [|name [|]]]; try done.
  destruct (bool_decide _).
  - intros Ha. exists (env_Primary env), local. split; [by left|].
    destruct (auth_in_cases (env_Primary env) local p) as [[Ho _]|[_ Hr]]; [done|by rewrite Hr in Ha].
  - rewrite auth_virtual_first. destruct (head _) as [dom|] eqn:Hh; [|done]. intros Ha.
    exists dom, local. split.
    + right. destruct (filter _ (env_Virtual env)) as [|d l] eqn:Hf; [done|]. injection Hh as ->.
      assert (Hin : dom ∈ filter (fun dom => name = dom_Name dom) (env_Virtual env))
        by (rewrite Hf; by left).
      by apply list_elem_of_filter in Hin as [_ Hin].
    + destruct (auth_in_cases dom local p) as [[Ho _]|[_ Hr]]; [done|by rewrite Hr in Ha].
Qed.

(** C5: with the local handler, a connection adds mail to the queue only in
    client mode and only when some account of the server has a hash that
    matches some password: a server whose accounts are all system accounts
    receives nothing. *)
Theorem local_queue_needs_password env now fmt srv m remote local inp wl qu rm tk :
  let w := mkWorld (newReceiver m remote local) inp [] wl qu rm tk false in
  queue (handle (H0 := LocalHandler env) now fmt srv w).2 = qu \/
  (m = receiverModeClient /\
   exists dom user pass, (dom = env_Primary env \/ dom ∈ env_Virtual env) /\ opens dom user pass).
Proof.
  intros w.
  destruct (handle_new_queue (H0 := LocalHandler env) now fmt srv m remote local inp wl qu rm tk)
    as [Hq|[Hm (_ & _ & _ & u & p & r & _ & _ & _ & Ha)]]; [by left|right].
  split; [done|]. apply local_ServeAuth_Some, accepted_opens in Ha as (dom & user & Hd & Ho).
  by exists dom, user, p.
Qed.
End LocalFacts.

(** ** Retries *)

Section QueueFacts.
Context `{Handler}.
Variable srv : Server.

(** A recipient that the server delivers itself. *)
Definition local_rcpt (rcpt : list Z) : bool :=
  match Split 64 rcpt with
  | [_; domain] => isOurDomain srv domain
  | [local] => bool_decide (local = localPostmaster)
  | _ => false
  end.

Lemma route_local m rcpt : local_rcpt rcpt = true -> route srv m rcpt = Serve m.
Proof.
  unfold local_rcpt, route. destruct (Split 64 rcpt) as [|a [|b [|c l]]]; try done.
  - by intros ->.
  - by intros ->.
Qed.

Lemma isOurDomain_iff d : isOurDomain srv d = true <-> d = PrimaryDomain srv \/ d ∈ VirtualDomains srv.
Proof.
  unfold isOurDomain. destruct (bool_decide_reflect (d = PrimaryDomain srv)) as [->|Hd].
  - split; auto.
  - assert (Hin : in_domains (VirtualDomains srv) d = true <-> d ∈ VirtualDomains srv).
    { induction (VirtualDomains srv) as [|n l IH]; simpl; [split; [done|by intros ?%not_elem_of_nil]|].
      rewrite elem_of_cons. destruct (bool_decide_reflect (d = n)); [split; auto|].
      rewrite IH. naive_solver. }
    rewrite Hin. naive_solver.
Qed.

Definition is_serve (a : action) : bool := match a with Serve _ => true | _ => false end.
Definition is_bounce (a : action) : bool := match a with Bounce _ => true | _ => false end.
Definition count (p : action -> bool) (acts : list action) : nat := length (filter (fun a => p a = true) acts).

Lemma count_app p l k : count p (l ++ k) = (count p l + count p k)%nat.
Proof. unfold count. by rewrite filter_app, length_app. Qed.

Lemma queue_round_local {E} now m rcpt rest : Recipients m = rcpt :: rest -> local_rcpt rcpt = true ->
  0 <= Retry m <= 5 ->
  exists acts m', queue_round (E := E) srv now m = Ok (acts, m') /\
    Recipients m' = Recipients m /\ 0 <= Retry m' <= 5 /\
    Retry m' - Retry m <= Z.of_nat (count is_serve acts) /\
    ((0 < count is_bounce acts)%nat -> Retry m = 5 /\ count is_serve acts = 1%nat).
Proof.
  intros Hr Hl Hk. unfold queue_round. destruct (isPostponed now m).
  { exists [], m. split_and!; try done; [lia|lia|unfold count; simpl; lia|unfold count; simpl; lia]. }
  rewrite Hr. unfold get_at. cbn [lookup list_lookup mbind outcome_bind]. rewrite route_local by done.
  destruct (serve_error (Serve m)) as [e|].
  - destruct (Z.ltb_spec (Retry m) 5).
    + exists [Serve m], (postpone m). split_and!; try done; simpl; try lia; unfold count; simpl; lia.
    + exists [Serve m; Bounce m], m. split_and!; try done; unfold count; simpl; lia.
  - exists [Serve m], m. split_and!; try done; unfold count; simpl; lia.
Qed.

(** A mail for an account of the server, taken from the queue before any
    attempt, is bounced for a failed delivery only after it was handed to the
    handler six times, and its retry count never goes past five. *)
Theorem bounce_after_six_tries {E} clock m rcpt rest :
  Recipients m = rcpt :: rest -> local_rcpt rcpt = true -> Retry m = 0 ->
  exists acts m', queue_rounds (E := E) srv clock m = Ok (acts, m') /\ Retry m' <= 5 /\
    (0 < count is_bounce acts -> 6 <= count is_serve acts)%nat.
Proof.
  intros Hr Hl Hz.
  enough (Hgen : forall m, Recipients m = rcpt :: rest -> 0 <= Retry m <= 5 ->
    exists acts m', queue_rounds (E := E) srv clock m = Ok (acts, m') /\ Retry m' <= 5 /\
      ((0 < count is_bounce acts)%nat -> 6 - Retry m <= Z.of_nat (count is_serve acts))).
  { destruct (Hgen m Hr) as (acts & m' & Hq & H5 & Hb); [lia|].
    exists acts, m'. split_and!; try done. intros Hc. specialize (Hb Hc). lia. }
  clear m Hr Hz. induction clock as [|now clock IH]; intros m Hr Hk.
  { exists [], m. split_and!; try done; [lia|unfold count; simpl; lia]. }
  destruct (queue_round_local (E := E) now m rcpt rest Hr Hl Hk) as (acts & m1 & Hq & Hr1 & Hk1 & Hs & Hb).
  destruct (IH m1) as (acts' & m' & Hq' & H5 & Hb'); [congruence|done|].
  exists (acts ++ acts'), m'. cbn [queue_rounds]. rewrite Hq, bind_Ok. cbn [snd fst]. rewrite Hq', bind_Ok.
  split_and!; [done|done|]. rewrite !count_app. intros Hc.
  destruct (decide (0 < count is_bounce acts)%nat) as [Hca|Hca].
  - destruct (Hb Hca). lia.
  - specialize (Hb' ltac:(lia)). lia.
Qed.
End QueueFacts.

(** ** Concrete runs *)

(** A hash that is the password itself. *)
Definition plain_hash : Bcrypt := {|
  CompareHashAndPassword := fun h p => bool_decide (h = p);
  GenerateFromPassword := fun _ p => Some p
|}.

Definition demo_env : Environment :=
  mkEnvironment (NewDomain (H := ascii_tables) (H0 := plain_hash) (str "example"))
    [mkDomain (str "v.example") {[ str "ann" := mkAccount [] (str "ann") (str "v.example") (str "pw") ]}].

Example local_ServeAuth_ann :
  local_ServeAuth (H := ascii_tables) (H0 := plain_hash) demo_env (str "Ann@v.example") (str "pw") = accepted.
Proof. vm_compute. reflexivity. Qed.

Example local_ServeAuth_postmaster :
  local_ServeAuth (H := ascii_tables) (H0 := plain_hash) demo_env (str "postmaster@example") [] = refused.
Proof. vm_compute. reflexivity. Qed.

(** A handler that never delivers. *)
Definition broken_handler : Handler := {|
  ServeAuth := fun _ _ => refused;
  ServeBounce := fun _ => (None, None);
  ServeExpand := fun _ => (None, None);
  ServeMailTx := fun _ => (None, Some (Other (str "disk full")));
  ServeVerify := fun _ => (None, None)
|}.

Lemma bounce_after_six_tries_witness :
  exists acts m', queue_rounds (E := unit) (H := broken_handler) demo_server
    (replicate 7 (minutes 1000))
    (mkMail [] [] [str "ann@mail.example"] [] time_zero (time_unix 0) 0) = Ok (acts, m')
  /\ count is_bounce acts = 2%nat /\ (6 <= count is_serve acts)%nat.
Proof.
  destruct (bounce_after_six_tries (H := broken_handler) demo_server (E := unit) (replicate 7 (minutes 1000))
    (mkMail [] [] [str "ann@mail.example"] [] time_zero (time_unix 0) 0) (str "ann@mail.example") []
    eq_refl ltac:(vm_compute; reflexivity) eq_refl) as (acts & m' & Hq & _ & Hb).
  exists acts, m'. assert (Hc : count is_bounce acts = 2%nat).
  { vm_compute in Hq. injection Hq as <- <-. vm_compute. reflexivity. }
  split_and!; [done|done|]. apply Hb. lia.
Defined.
