(* ===== verification/SmtpClient.v ===== *)
(** Package [lib/smtp], file [client.go]: the client.

    The connection is what is still to be read from it, the writes that were made, one
    element for each, and whether it is open; a write fails once the connection is shut or
    broken, and a read where nothing is left.  TLS changes nothing of it.  The texts of
    errors are left out, and so is a response that is returned with an error. *)

From Stdlib Require Import ZArith Lia.
From S2P Require Import Prelude Ascii Utf8 Strconv Base64 NetIP LibNet IoReader SmtpCommand SmtpServer SmtpResponse SmtpDelivery.

Local Open Scope Z_scope.

Record connection : Type := mkConn { reads : list read_result; writes : list (list Z); shut : bool; broken : bool }.

Record Client : Type := mkClient {
  ServerInfo_of : option ServerInfo; serverName : list Z; remote_ip : option (list Z); remote_port : Z; conn : connection;
  insecure : bool; isTLS : bool; isStartTLS : bool
}.
Definition put_info (c : Client) v := mkClient v (serverName c) (remote_ip c) (remote_port c) (conn c) (insecure c) (isTLS c) (isStartTLS c).
Definition put_conn (c : Client) v := mkClient (ServerInfo_of c) (serverName c) (remote_ip c) (remote_port c) v (insecure c) (isTLS c) (isStartTLS c).

Inductive client_error : Type :=
| ErrRead | ErrWrite | ErrResponse | ErrCode | ErrMechanism | ErrNoFrom | ErrNoRecipients | ErrHostname | ErrURL | ErrScheme | ErrLookup | ErrNoAddress.

(** What a call returns, and the client after it. *)
Definition C (A : Type) : Type := Client -> outcome client_error A * Client.
#[export] Instance C_ret : MRet C := fun A a c => (Ok a, c).
#[export] Instance C_bind : MBind C := fun A B f m c =>
  match m c with
  | (Ok a, c) => f a c
  | (Err e, c) => (Err e, c)
  | (Panic, c) => (Panic, c)
  | (NoFuel, c) => (NoFuel, c)
  end.
Definition throw {A} (e : client_error) : C A := fun c => (Err e, c).
Definition crash {A} : C A := fun c => (Panic, c).
(** The error of a call as a value. *)
Definition caught {A} (m : C A) : C (A + client_error) := fun c =>
  match m c with
  | (Ok a, c) => (Ok (inl a), c)
  | (Err e, c) => (Ok (inr e), c)
  | (Panic, c) => (Panic, c)
  | (NoFuel, c) => (NoFuel, c)
  end.

Definition StatusReady : Z := 220.
Definition StatusOK : Z := 250.
Definition StatusDataReady : Z := 354.

(** [recv]: a read that fills the buffer is followed by another. *)
Fixpoint recv_loop (inp : list read_result) (buf : list Z) : option (list Z) * list read_result :=
  match inp with
  | [] => (None, [])
  | (data, err) :: inp =>
      match err with
      | Some _ => (None, inp)
      | None => if decide (length data = 4096%nat) then recv_loop inp (buf ++ data) else (Some (buf ++ data), inp)
      end
  end.

Section Client.
Context `{Unicode}.

Definition cl_recv : C (option Response) := fun c =>
  let k := conn c in
  if shut k then (Err ErrRead, c)
  else
    let '(buf, inp) := recv_loop (reads k) [] in
    let c := put_conn c (mkConn inp (writes k) (shut k) (broken k)) in
    match buf with
    | None => (Err ErrRead, c)
    | Some buf =>
        match NewResponse buf with
        | Ok res => (Ok res, c)
        | Err _ => (Err ErrResponse, c)
        | Panic => (Panic, c)
        | NoFuel => (NoFuel, c)
        end
    end.
Definition cl_Write (data : list Z) : C unit := fun c =>
  let k := conn c in
  if shut k || broken k then (Err ErrWrite, c) else (Ok tt, put_conn c (mkConn (reads k) (writes k ++ [data]) (shut k) (broken k))).
Definition cl_Close : C unit := fun c => let k := conn c in (Ok tt, put_conn c (mkConn (reads k) (writes k) true (broken k))).

Definition SendCommand (cmd : list Z) : C (option Response) := cl_Write cmd;; cl_recv.
(** [res.Code] of a response that may be nil. *)
Definition code_of (res : option Response) : C Z := match res with Some res => mret (Code res) | None => crash end.

Definition Mechanism_PLAIN : Z := 1.
Definition cl_Authenticate (mech : Z) (username password : list Z) : C (option Response) :=
  if mech =? Mechanism_PLAIN then
    SendCommand (str "AUTH PLAIN " ++ b64_encode (0 :: username ++ 0 :: password) ++ [13; 10])
  else throw ErrMechanism.

(** [ehlo]: the name is that of the host, if it is empty, or an address in brackets. *)
Definition local_name (hostname : option (list Z)) (unicast localName : list Z) : option (list Z) :=
  match localName with
  | [] => match hostname with
          | Some h => Some h
          | None => match unicast with [] => None | a => Some (91 :: a ++ [93]) end
          end
  | n => Some n
  end.
Definition keep_info (res : option Response) : C (option Response) := fun c => (Ok res, put_info c (NewServerInfo res)).
Definition ehlo (hostname : option (list Z)) (unicast localName : list Z) : C (option Response) :=
  match local_name hostname unicast localName with
  | None => throw ErrHostname
  | Some localName =>
      res ← SendCommand (str "EHLO " ++ localName ++ [13; 10]);
      code ← code_of res;
      if code =? StatusOK then keep_info res else throw ErrCode
  end.

Definition StartTLS : C (option Response) :=
  res ← SendCommand (str "STARTTLS" ++ [13; 10]);
  code ← code_of res;
  if code =? StatusReady then mret res else throw ErrCode.

Definition wants_starttls : C bool := fun c => (Ok (isStartTLS c), c).

(** [connect], once the connection is dialled. *)
Definition cl_connect (hostname : option (list Z)) (unicast localName : list Z) : C (option Response) :=
  res ← cl_recv;
  code ← code_of res;
  if negb (code =? StatusReady) then throw ErrCode
  else
    res ← ehlo hostname unicast localName;
    starttls ← wants_starttls;
    if (starttls : bool) then StartTLS else mret res.

Definition cl_Expand (mlist : list Z) : C (option Response) :=
  match mlist with [] => mret None | _ => SendCommand (str "EXPN " ++ mlist ++ [13; 10]) end.
Definition cl_Help (cmdName : list Z) : C (option Response) := SendCommand (str "HELP " ++ cmdName ++ [13; 10]).
Definition cl_Verify (mailbox : list Z) : C (option Response) :=
  match mailbox with [] => mret None | _ => SendCommand (str "VRFY " ++ mailbox ++ [13; 10]) end.
Definition cl_Quit : C (option Response) :=
  r ← caught (cl_Write (str "QUIT" ++ [13; 10]);; cl_recv);
  cl_Close;;
  match r with inl res => mret res | inr e => throw e end.

(** [MailTx].  After a command that fails, its response, which is nil, is read for the text
    of the error. *)
Definition cl_command (cmd : list Z) (want : Z) : C (option Response) :=
  r ← caught (SendCommand cmd);
  match r with
  | inr _ => crash
  | inl res => code ← code_of res; if code =? want then mret res else throw ErrCode
  end.
Definition mail_line (from : list Z) : list Z := str "MAIL FROM:<" ++ from ++ str ">" ++ [13; 10].
Definition rcpt_to_line (to : list Z) : list Z := str "RCPT TO:<" ++ to ++ str ">" ++ [13; 10].
Fixpoint cl_rcpts (rcpts : list (list Z)) : C unit :=
  match rcpts with
  | [] => mret tt
  | to :: rcpts => _ ← cl_command (rcpt_to_line to) StatusOK; cl_rcpts rcpts
  end.
Definition cl_MailTx (mail : option MailTx) : C (option Response) :=
  match mail with
  | None => mret None
  | Some mail =>
      if isnil (From mail) then throw ErrNoFrom
      else if isnil (Recipients mail) then throw ErrNoRecipients
      else
        res ← SendCommand (mail_line (From mail));
        code ← code_of res;
        if negb (code =? StatusOK) then throw ErrCode
        else
          cl_rcpts (Recipients mail);;
          _ ← cl_command (str "DATA" ++ [13; 10]) StatusDataReady;
          cl_Write (Data mail ++ [13; 10; 46; 13; 10]);;
          r ← caught cl_recv;
          match r with
          | inr _ => crash
          | inl res => code ← code_of res; if code =? StatusOK then mret res else throw ErrCode
          end
  end.

(** ** Connecting

    [lookup]: the mail exchanges of a name and the addresses of a host are those that the
    system gives; none is an error. *)
Context (LookupMX : list Z -> option (list (list Z * Z))) (LookupIP : list Z -> option (list (list Z))).
Definition lookup_host (address : list Z) : list Z :=
  match LookupMX address with
  | Some ((_ :: _) as mxs) => fold_left (fun a mx => if mx.2 <? 65535 then mx.1 else a) mxs address
  | _ => address
  end.
Definition lookup (address : list Z) : option (option (list Z)) := (fun ips => head ips) <$> LookupIP (lookup_host address).

(** [NewClient], of the scheme and the host of a URL, up to the dialling: the client that
    connects. *)
Definition NewClient (scheme host : list Z) (dialled : connection) : outcome client_error Client :=
  let scheme := text_ToLower scheme in
  '(port, tls, starttls) ←
    (if bool_decide (scheme = str "smtp") then Ok (25, false, false)
     else if bool_decide (scheme = str "smtps") then Ok (465, true, false)
     else if bool_decide (scheme = str "smtp+starttls") then Ok (587, false, true)
     else Err ErrScheme);
  let '(name, ip, port) := ParseIPPort host port in
  ip ← (match ip with
        | Some ip => Ok ip
        | None => match lookup name with None => Err ErrLookup | Some None => Err ErrNoAddress | Some (Some ip) => Ok ip end
        end);
  Ok (mkClient None name (Some ip) port dialled (isnil name) tls starttls).
End Client.

(** The exchange that is listed last is taken, whatever its preference. *)
Example last_exchange : lookup_host (fun _ => Some [(str "first", 10); (str "backup", 90)]) (str "example") = str "backup".
Proof. reflexivity. Qed.
