(* ===== verification/SmtpClientFacts.v ===== *)
(** Proofs on [SmtpClient]: the client and the server of the package together.  What the
    client writes is what the server reads, what the server answers is what the client
    reads, and the mail ends in the queue of the server. *)

From Stdlib Require Import ZArith Lia.
From S2P Require Import Prelude Ascii Utf8 Strconv Base64 NetIP LibNet IoReader SmtpCommand SmtpServer SmtpResponse SmtpDelivery SmtpClient.

Local Open Scope Z_scope.

(** ** The commands of the client, as the server reads them *)

Section Lines.
Context `{U : Unicode}.

(** A text without blanks. *)
Definition word (s : list Z) : Prop := s <> [] /\ 32 ∉ s /\ is_ascii s /\ no_edge_space s.

Lemma word_last w : word w -> exists l c, w = l ++ [c] /\ c <> 32.
Proof.
  intros (Hne & H32 & _). destruct w as [|c l _] using rev_ind; [done|]. exists l, c. split; [done|]. intros ->. apply H32, elem_of_app. right. by left.
Qed.

Lemma unpack_switch_ehlo b cmds arg : (0 < length arg)%nat ->
  unpack_switch newCommand b cmds (str "ehlo") arg = Ok (mkCommand CommandEHLO arg [] ∅).
Proof. intros Hl. unfold unpack_switch. change (str "ehlo") with [101; 104; 108; 111]. rewrite (get_at_Some _ _ 101) by done. rewrite bind_Ok.
  cbn [Z.eqb Pos.eqb]. rewrite bool_decide_eq_true_2 by done. by rewrite decide_True. Qed.

Lemma unpack_ehlo name : word name -> (length name <= 505)%nat ->
  unpack newCommand (str "EHLO " ++ name ++ [13; 10]) = Ok (mkCommand CommandEHLO name [] ∅).
Proof.
  intros Hw Hl. destruct (word_last name Hw) as (l & c & Hlast & Hc). destruct Hw as (Hne & H32 & Ha & He).
  assert (Hlen : (1 <= length name)%nat) by (destruct name; [done|cbn; lia]).
  rewrite (unpack_path_line (str "EHLO ") name).
  - change (str "EHLO " ++ name) with (str "EHLO" ++ 32 :: name). rewrite Split_sep by (apply (bool_decide_unpack _); by vm_compute).
    rewrite Split_none by done. cbn [hd]. rewrite TrimSpace_id by done. rewrite text_ToLower_ascii by (apply (bool_decide_unpack _); by vm_compute).
    change (ToLower (str "EHLO")) with (str "ehlo"). by rewrite unpack_switch_ehlo.
  - exists (str "EHLO " ++ l), c. rewrite Hlast. by rewrite (assoc_L (++)).
  - rewrite !length_app. cbn. lia.
Qed.

Lemma unpack_auth v : word v -> (length v <= 499)%nat ->
  unpack newCommand (str "AUTH PLAIN " ++ v ++ [13; 10]) = Ok (mkCommand CommandAUTH (str "PLAIN") v ∅).
Proof.
  intros Hw Hl. destruct (word_last v Hw) as (l & c & Hlast & Hc). destruct Hw as (Hne & H32 & Ha & He).
  rewrite (unpack_path_line (str "AUTH PLAIN ") v).
  - change (str "AUTH PLAIN " ++ v) with (str "AUTH" ++ 32 :: str "PLAIN" ++ 32 :: v). rewrite !Split_sep by (apply (bool_decide_unpack _); by vm_compute).
    rewrite Split_none by done. cbn [hd]. rewrite text_ToLower_ascii by (apply (bool_decide_unpack _); by vm_compute).
    change (ToLower (str "AUTH")) with (str "auth"). rewrite TrimSpace_id; [|repeat split; intros b [= <-]; done|apply (bool_decide_unpack _); by vm_compute].
    reflexivity.
  - exists (str "AUTH PLAIN " ++ l), c. rewrite Hlast. by rewrite (assoc_L (++)).
  - rewrite !length_app. cbn. lia.
Qed.

Lemma unpack_data : unpack newCommand (str "DATA" ++ [13; 10]) = Ok (mkCommand CommandDATA [] [] ∅).
Proof. reflexivity. Qed.
Lemma unpack_quit : unpack newCommand (str "QUIT" ++ [13; 10]) = Ok (mkCommand CommandQUIT [] [] ∅).
Proof. reflexivity. Qed.

(** A mailbox that both ends take: letters and digits. *)
Definition plain_mailbox (m : list Z) : Prop := exists local domain, alnum local /\ alnum domain /\ m = mailbox_text local domain.

Lemma unpack_mail m : plain_mailbox m -> (length m <= 498)%nat -> unpack newCommand (mail_line m) = Ok (mkCommand CommandMAIL m [] ∅).
Proof.
  intros (local & domain & Hl & Hd & ->) Hlen.
  assert (Heq : mail_line (mailbox_text local domain) = str "MAIL FROM:" ++ (60 :: mailbox_text local domain ++ 62 :: params_text []) ++ [13; 10]).
  { unfold mail_line. cbn [params_text]. change (str "MAIL FROM:<") with (str "MAIL FROM:" ++ [60]). rewrite <- !(assoc_L (++)). cbn [app]. rewrite <- (assoc_L (++)). done. }
  rewrite Heq. apply unpack_path; try done. rewrite <- Heq. unfold mail_line. rewrite !length_app. cbn. lia.
Qed.
Lemma unpack_rcpt m : plain_mailbox m -> (length m <= 498)%nat -> unpack newCommand (rcpt_to_line m) = Ok (mkCommand CommandRCPT m [] ∅).
Proof.
  intros (local & domain & Hl & Hd & ->) Hlen.
  assert (Heq : rcpt_to_line (mailbox_text local domain) = str "RCPT TO:" ++ (60 :: mailbox_text local domain ++ 62 :: params_text []) ++ [13; 10]).
  { unfold rcpt_to_line. cbn [params_text]. change (str "RCPT TO:<") with (str "RCPT TO:" ++ [60]). rewrite <- !(assoc_L (++)). cbn [app]. rewrite <- (assoc_L (++)). done. }
  rewrite Heq. apply unpack_path; try done. rewrite <- Heq. unfold rcpt_to_line. rewrite !length_app. cbn. lia.
Qed.

(** The credentials of the client. *)
Definition credential (username password : list Z) : list Z := b64_encode (0 :: username ++ 0 :: password).
Lemma credential_word u p : is_bytes u -> is_bytes p -> word (credential u p).
Proof.
  intros Hu Hp. assert (Hb : is_bytes (0 :: u ++ 0 :: p)).
  { constructor; [unfold is_byte; lia|]. apply Forall_app. split; [done|]. constructor; [unfold is_byte; lia|done]. }
  pose proof (b64_text _ Hb) as Ht. assert (Hc : forall c, is_b64 c = true -> c <> 32 /\ 0 <= c < 128 /\ IsSpace c = false).
  { intros c Hc. unfold is_b64, b64_index in Hc. assert (Hr : 43 <= c <= 122).
    { destruct (Z.leb_spec 65 c), (Z.leb_spec c 90), (Z.leb_spec 97 c), (Z.leb_spec c 122), (Z.leb_spec 48 c), (Z.leb_spec c 57); cbn [andb] in Hc; try lia.
      all: destruct (Z.eqb_spec c 43), (Z.eqb_spec c 47), (Z.eqb_spec c 61); lia || done. }
    split; [lia|]. split; [lia|]. unfold IsSpace. assert (Hin : c ∈ seqZ 43 80) by (apply elem_of_seqZ; lia). clear Hc Hr. revert c Hin.
    apply Forall_forall. apply (bool_decide_unpack _). by vm_compute. }
  rewrite Forall_forall in Ht. unfold credential. split; [by destruct (u ++ 0 :: p) as [|? [|? ?]]|]. split; [intros H; by destruct (Hc 32 (Ht _ H))|].
  split; [apply Forall_forall; intros c H; by destruct (Hc c (Ht c H)) as (_ & ? & _)|].
  split; intros c H; apply Hc, Ht; [by destruct (b64_encode _); [done|injection H as ->; left]|by apply last_Some_elem_of].
Qed.
End Lines.

(** ** A session of the client *)

Section Session.
Context `{U : Unicode}.

(** A read that the client understands as a response. *)
Definition heard (raw : list Z) (r : Response) : Prop := length raw <> 4096%nat /\ NewResponse raw = Ok (Some r).
(** The client, with what is left to be read and what was written. *)
Definition at_ (c : Client) (inp out : list (list Z)) : Client := put_conn c (mkConn (data_reads inp) out false false).

Lemma cl_recv_at c raw r inp out : heard raw r -> cl_recv (at_ c (raw :: inp) out) = (Ok (Some r), at_ c inp out).
Proof.
  intros [Hl Hr]. unfold cl_recv, at_, data_reads. cbn [conn put_conn shut reads fmap list_fmap recv_loop]. rewrite decide_False by done.
  cbn [app]. by rewrite Hr.
Qed.
Lemma SendCommand_at c cmd raw r inp out : heard raw r ->
  SendCommand cmd (at_ c (raw :: inp) out) = (Ok (Some r), at_ c inp (out ++ [cmd])).
Proof. intros Hr. unfold SendCommand, mbind, C_bind. change (cl_Write cmd (at_ c (raw :: inp) out)) with (@Ok client_error _ tt, at_ c (raw :: inp) (out ++ [cmd])). by apply cl_recv_at. Qed.
Lemma cl_command_at c cmd want raw r inp out : heard raw r -> Code r = want ->
  cl_command cmd want (at_ c (raw :: inp) out) = (Ok (Some r), at_ c inp (out ++ [cmd])).
Proof.
  intros Hr <-. unfold cl_command, caught, mbind, C_bind. rewrite (SendCommand_at _ _ _ r) by done.
  unfold code_of, mret, C_ret. by rewrite Z.eqb_refl.
Qed.
Lemma cl_rcpts_at c rcpts raws inp out : length raws = length rcpts -> Forall (fun raw => exists r, heard raw r /\ Code r = StatusOK) raws ->
  cl_rcpts rcpts (at_ c (raws ++ inp) out) = (Ok tt, at_ c inp (out ++ (rcpt_to_line <$> rcpts))).
Proof.
  revert raws out. induction rcpts as [|to rcpts IH]; intros [|raw raws] out Hl Hr; try discriminate Hl; cbn [app fmap list_fmap]; [by rewrite app_nil_r|].
  apply Forall_cons in Hr as [(r & Hr & Hc) Hrs]. unfold cl_rcpts; fold cl_rcpts. unfold mbind, C_bind. rewrite (cl_command_at _ _ _ _ r) by done.
  cbn [app]. rewrite IH by (done || (injection Hl; done)). by rewrite <- (assoc_L (++)).
Qed.
Lemma cl_connect_at c hostname unicast name n g e rg re inp : local_name hostname unicast name = Some n -> isStartTLS c = false ->
  heard g rg -> Code rg = StatusReady -> heard e re -> Code re = StatusOK ->
  cl_connect hostname unicast name (at_ c (g :: e :: inp) [])
  = (Ok (Some re), at_ (put_info c (NewServerInfo (Some re))) inp [str "EHLO " ++ n ++ [13; 10]]).
Proof.
  intros Hn Ht Hg Hgc He Hec. unfold cl_connect, mbind, C_bind. rewrite (cl_recv_at _ _ rg) by done.
  unfold code_of at 1, mret, C_ret. rewrite Hgc. cbn [negb Z.eqb Pos.eqb StatusReady]. unfold ehlo. rewrite Hn. unfold mbind, C_bind.
  rewrite (SendCommand_at _ _ _ re) by done. unfold code_of, mret, C_ret. rewrite Hec. cbn. by rewrite Ht.
Qed.

Lemma cl_MailTx_at c mail m rs d f rm rd rf inp out : From mail <> [] -> Recipients mail <> [] ->
  heard m rm -> Code rm = StatusOK -> length rs = length (Recipients mail) -> Forall (fun raw => exists r, heard raw r /\ Code r = StatusOK) rs ->
  heard d rd -> Code rd = StatusDataReady -> heard f rf -> Code rf = StatusOK ->
  cl_MailTx (Some mail) (at_ c (m :: rs ++ d :: f :: inp) out)
  = (Ok (Some rf), at_ c inp (out ++ mail_line (From mail) :: (rcpt_to_line <$> Recipients mail) ++ [str "DATA" ++ [13; 10]; Data mail ++ terminator])).
Proof.
  intros Hfrom Hto Hm Hmc Hl Hrs Hd Hdc Hf Hfc. unfold cl_MailTx. destruct (From mail) eqn:Hfr; [done|]. destruct (Recipients mail) eqn:Hre; [done|]. cbn [isnil].
  rewrite <- Hfr, <- Hre in *. unfold mbind, C_bind. rewrite (SendCommand_at _ _ _ rm) by done. unfold code_of at 1, mret, C_ret. rewrite Hmc. cbn [negb Z.eqb Pos.eqb StatusOK].
  rewrite cl_rcpts_at by done. rewrite (cl_command_at _ _ _ _ rd) by done.
  match goal with |- context [cl_Write ?x ?y] => change (cl_Write x y) with (@Ok client_error _ tt, at_ c (f :: inp) ((((out ++ [mail_line (From mail)]) ++ (rcpt_to_line <$> Recipients mail)) ++ [str "DATA" ++ [13; 10]]) ++ [x])) end.
  unfold caught. rewrite (cl_recv_at _ _ rf) by done. unfold code_of, mret, C_ret. rewrite Hfc. cbn [Z.eqb Pos.eqb StatusOK].
  by rewrite <- !(assoc_L (++)).
Qed.

Lemma cl_Quit_at c raw r inp out : heard raw r ->
  cl_Quit (at_ c (raw :: inp) out) = (Ok (Some r), put_conn c (mkConn (data_reads inp) (out ++ [str "QUIT" ++ [13; 10]]) true false)).
Proof.
  intros Hr. unfold cl_Quit, caught. unfold mbind, C_bind. pose proof (SendCommand_at c (str "QUIT" ++ [13; 10]) raw r inp out Hr) as Hs.
  unfold SendCommand, mbind, C_bind in Hs. by rewrite Hs.
Qed.

(** What a caller does to send one mail: it connects, authenticates, sends and quits. *)
Definition submit (hostname : option (list Z)) (unicast name username password : list Z) (mail : MailTx) : C (option Response) :=
  cl_connect hostname unicast name;; cl_Authenticate Mechanism_PLAIN username password;; cl_MailTx (Some mail);; cl_Quit.
(** The lines of the client before the text of the mail, and the last one. *)
Definition sent (n username password : list Z) (mail : MailTx) : list (list Z) :=
  [str "EHLO " ++ n ++ [13; 10]; str "AUTH PLAIN " ++ credential username password ++ [13; 10]; mail_line (From mail)]
  ++ (rcpt_to_line <$> Recipients mail) ++ [str "DATA" ++ [13; 10]].
Definition farewell : list Z := str "QUIT" ++ [13; 10].

Lemma submit_at c hostname unicast name n u p mail g e a m rs d f q rg re ra rm rd rf rq :
  local_name hostname unicast name = Some n -> isStartTLS c = false -> From mail <> [] -> Recipients mail <> [] ->
  heard g rg -> Code rg = StatusReady -> heard e re -> Code re = StatusOK -> heard a ra ->
  heard m rm -> Code rm = StatusOK -> length rs = length (Recipients mail) -> Forall (fun raw => exists r, heard raw r /\ Code r = StatusOK) rs ->
  heard d rd -> Code rd = StatusDataReady -> heard f rf -> Code rf = StatusOK -> heard q rq ->
  submit hostname unicast name u p mail (at_ c ([g; e; a; m] ++ rs ++ [d; f; q]) [])
  = (Ok (Some rq), put_conn (put_info c (NewServerInfo (Some re))) (mkConn [] (sent n u p mail ++ [Data mail ++ terminator; farewell]) true false)).
Proof.
  intros. unfold submit. unfold mbind, C_bind. cbn [app]. erewrite cl_connect_at by done.
  unfold cl_Authenticate. cbn [Z.eqb Pos.eqb Mechanism_PLAIN]. rewrite (SendCommand_at _ _ _ ra) by done.
  erewrite cl_MailTx_at by done. rewrite (cl_Quit_at _ _ rq) by done. do 2 f_equal. unfold sent, credential, farewell, data_reads. cbn [fmap list_fmap app].
  f_equal. by rewrite <- !(assoc_L (++)).
Qed.
End Session.

(** ** The client and the server together *)

Section Together.
Context `{U : Unicode} `{Hh : Handler}.
Variables (now : nat -> Z) (format_local : Z -> list Z) (srv : Server).

Lemma OK_heard : heard OK_reply (mkResponse 250 (str "OK") []).
Proof. split; [done|]. apply NewResponse_reply; [unfold reply_code; lia| |done]. split; [by apply (bool_decide_unpack _)|]. split; [by split; intros b [= <-]|]. by apply (bool_decide_unpack _). Qed.
Lemma DATA_heard : heard DATA_reply (mkResponse 354 (str "Start mail input.") []).
Proof. split; [done|]. apply NewResponse_reply; [unfold reply_code; lia| |done]. split; [by apply (bool_decide_unpack _)|]. split; [by split; intros b [= <-]|]. by apply (bool_decide_unpack _). Qed.
Definition farewell_response : Response := mkResponse 221 (str "Service closing transmission channel") [].
Lemma QUIT_heard : heard QUIT_reply farewell_response.
Proof. split; [done|]. apply NewResponse_reply; [unfold reply_code; lia| |done]. split; [by apply (bool_decide_unpack _)|]. split; [by split; intros b [= <-]|]. by apply (bool_decide_unpack _). Qed.

(** What both ends agree on beforehand: a name and credentials that fit on a line,
    credentials that the handler of the server takes, mailboxes of letters and digits, and
    replies of the server that the client understands. *)
Record agreed (n u p : list Z) (mail : MailTx) (r re : Response) : Prop := {
  ag_name : word n /\ (length n <= 505)%nat;
  ag_cred : is_bytes u /\ is_bytes p /\ 0 ∉ u /\ 0 ∉ p /\ (length (credential u p) <= 499)%nat;
  ag_auth : ServeAuth u p = (Some r, None);
  ag_exts : forall cmd, validate (Exts srv) cmd = None;
  ag_from : plain_mailbox (From mail) /\ (length (From mail) <= 498)%nat;
  ag_to : Recipients mail <> [] /\ (length (Recipients mail) <= 100)%nat /\
    Forall (fun m => plain_mailbox m /\ (length m <= 498)%nat) (Recipients mail);
  ag_greeting : exists rg, heard (reply_text 220 (PrimaryDomain srv) []) rg /\ Code rg = StatusReady;
  ag_ehlo : heard (reply_text 250 (PrimaryDomain srv) (ehlo_body srv false)) re /\ Code re = StatusOK;
  ag_accept : exists ra, heard (reply_text (Code r) (Message r) (Body r)) ra
}.

(** The text of the mail, cut into reads: no cut follows an end of mail. *)
Definition cut (chunks : list (list Z)) (body : list Z) : Prop :=
  concat chunks = body ++ terminator /\
  forall i, (0 < i < length chunks)%nat -> ~ terminator `suffix_of` concat (take i chunks).

Lemma mailbox_ne m : plain_mailbox m -> m <> [].
Proof. intros (l & d & Hl & _ & ->) H. apply (f_equal length) in H. unfold mailbox_text in H. rewrite length_app in H. cbn in H. lia. Qed.

Lemma replies_heard n : Forall (fun raw => exists r, heard raw r /\ Code r = StatusOK) (replicate n OK_reply).
Proof. apply Forall_replicate. exists (mkResponse 250 (str "OK") []). split; [apply OK_heard|done]. Qed.

Lemma rcpts_said rcpts : (forall cmd, validate (Exts srv) cmd = None) -> Forall (fun m => plain_mailbox m /\ (length m <= 498)%nat) rcpts ->
  Forall2 (rcpt_line srv) (rcpt_to_line <$> rcpts) rcpts.
Proof.
  intros Hv. induction 1 as [|m rcpts [Hm Hl] _ IH]; constructor; [|done].
  eexists. split; [split; [by apply unpack_rcpt|by apply Hv]|done].
Qed.

Lemma mail_delivered c hostname unicast name n u p mail r re remote local chunks rm tk q :
  agreed n u p mail r re -> local_name hostname unicast name = Some n -> isStartTLS c = false -> cut chunks (Data mail) ->
  (length (Recipients mail) <= rm)%nat ->
  let '(served, w) := handle now format_local srv
    (mkWorld (newReceiver receiverModeClient remote local) (data_reads (sent n u p mail ++ chunks ++ [farewell]))
       [] (S (S (S (S (length (Recipients mail) + 3))))) q rm tk false) in
  let '(got, c') := submit hostname unicast name u p mail (at_ c (output w) []) in
  served = Done tt /\ got = Ok (Some farewell_response) /\
  writes (conn c') = sent n u p mail ++ [Data mail ++ terminator; farewell] /\ reads (conn c') = [] /\
  closed w = true /\ shut (conn c') = true /\ ServerInfo_of c' = NewServerInfo (Some re) /\
  queue w = q ++ mails_of now (From mail) (seal_line format_local zeroMail n remote local ++ Data mail) tk (Recipients mail).
Proof.
  intros Hag Hn Ht [Hc Hno] Hrm. destruct Hag as [[Hw Hwl] (Hu & Hp & H0u & H0p & Hcl) Hauth Hv [Hf Hfl] (Hne & Hlen & Hto) (rg & Hg & Hgc) [He Hec] (ra & Ha)].
  pose proof (session_mail now format_local srv remote local
    (str "EHLO " ++ n ++ [13; 10]) (str "AUTH PLAIN " ++ credential u p ++ [13; 10]) (mail_line (From mail)) (rcpt_to_line <$> Recipients mail)
    (str "DATA" ++ [13; 10]) farewell (mkCommand CommandEHLO n [] ∅) (mkCommand CommandAUTH (str "PLAIN") (credential u p) ∅)
    (mkCommand CommandMAIL (From mail) [] ∅) (mkCommand CommandDATA [] [] ∅) (mkCommand CommandQUIT [] [] ∅)
    (Recipients mail) chunks (Data mail) [] u p r rm tk q) as Hs.
  assert (Hcred : word (credential u p)) by by apply credential_word.
  assert (Hdec : base64_DecodeString (credential u p) = Some ([] ++ 0 :: u ++ 0 :: p)).
  { apply b64_roundtrip. constructor; [unfold is_byte; lia|]. apply Forall_app. split; [done|]. constructor; [unfold is_byte; lia|done]. }
  specialize (Hs ltac:(split; [by apply unpack_ehlo|done]) eq_refl ltac:(split; [by apply unpack_auth|done]) eq_refl eq_refl ltac:(apply Hcred) Hdec
    ltac:(by apply not_elem_of_nil) H0u H0p Hauth ltac:(split; [by apply unpack_mail|done]) eq_refl ltac:(by apply rcpts_said) Hne Hlen
    ltac:(split; [apply unpack_data|done]) eq_refl Hc Hno ltac:(split; [apply unpack_quit|done]) eq_refl Hrm). cbv zeta in Hs.
  replace (data_reads (sent n u p mail ++ chunks ++ [farewell])) with (data_reads [str "EHLO " ++ n ++ [13; 10]; str "AUTH PLAIN " ++ credential u p ++ [13; 10]; mail_line (From mail)]
    ++ data_reads (rcpt_to_line <$> Recipients mail) ++ (str "DATA" ++ [13; 10], None) :: data_reads chunks ++ data_reads [farewell]).
  2:{ unfold sent, data_reads. rewrite !fmap_app. by rewrite <- !(assoc_L (++)). }
  destruct (handle _ _ _ _) as [served w]. destruct Hs as (-> & Hcw & Hq & ->).
  erewrite (submit_at c hostname unicast name n u p mail _ _ _ _ (replicate (length (Recipients mail)) OK_reply) _ _ _ rg re ra); try done.
  all: try apply OK_heard; try apply DATA_heard; try apply QUIT_heard; try done.
  - by apply mailbox_ne.
  - by rewrite length_replicate.
  - apply replies_heard.
Qed.

(** C1: the client and the server of the package understand each other, under the
    conditions of [agreed]. These are: the name of the client is not empty, of ASCII
    without blanks, and of at most 505 bytes; the user and the password are bytes
    without 0, have a credential of at most 499 bytes, and are accepted by the handler;
    no extension of the server refuses a command; the sender and the 1 to 100 recipients
    are mailboxes of ASCII letters and digits around one at-sign, of at most 498 bytes;
    and the greeting, the answer to EHLO and that of the handler are replies that the
    client reads as such. There is no STARTTLS, the queue has room for the mail of every
    recipient, and the network delivers each command in a read of its own, and the text
    of the mail in any reads of which only the last one ends behind a CRLF, dot, CRLF.
    Then the server that reads what the client writes and the client that reads what the
    server writes both end well: the client has the closing reply, knows what the server
    offers and has nothing left to read, and the server has put one mail for each
    recipient in its queue, the trace line before the text that the client sent. A read
    that ends behind such a sequence within the text, which the client does not stuff,
    cuts the mail off there: see [not_stuffed]. *)
Theorem client_mail_delivered c hostname unicast name n u p mail r re remote local chunks rm tk q :
  agreed n u p mail r re -> local_name hostname unicast name = Some n -> isStartTLS c = false -> cut chunks (Data mail) ->
  (length (Recipients mail) <= rm)%nat ->
  let '(served, w) := handle now format_local srv
    (mkWorld (newReceiver receiverModeClient remote local) (data_reads (sent n u p mail ++ chunks ++ [farewell]))
       [] (S (S (S (S (length (Recipients mail) + 3))))) q rm tk false) in
  let '(got, c') := submit hostname unicast name u p mail (at_ c (output w) []) in
  served = Done tt /\ got = Ok (Some farewell_response) /\
  writes (conn c') = sent n u p mail ++ [Data mail ++ terminator; farewell] /\ reads (conn c') = [] /\
  closed w = true /\ shut (conn c') = true /\ ServerInfo_of c' = NewServerInfo (Some re) /\
  queue w = q ++ mails_of now (From mail) (seal_line format_local zeroMail n remote local ++ Data mail) tk (Recipients mail).
Proof. by apply mail_delivered. Qed.
End Together.

(** ** A concrete session *)

Definition demo_mail : MailTx := mkMail [] (str "joe@a") [str "ann@b"; str "bob@c"] (str "hello") time_zero time_zero 0.
Definition demo_client : Client := mkClient None (str "mail.example") None 25 (mkConn [] [] false false) false false false.
Definition demo_ehlo : Response := mkResponse 250 (str "mail.example") [str "DSN"; str "AUTH PLAIN"].
Definition demo_login : Response := mkResponse 235 (str "2.7.0 Authentication successful") [].

Lemma plain_mailbox_of l d : bool_decide (alnum l) && bool_decide (alnum d) = true -> plain_mailbox (mailbox_text l d).
Proof. intros [Hl Hd]%andb_true_iff. apply bool_decide_eq_true in Hl, Hd. by exists l, d. Qed.

Lemma demo_agreed : agreed (Hh := one_user) demo_server (str "home") (str "joe") (str "pw") demo_mail demo_login demo_ehlo.
Proof.
  assert (Hm : forall m l d, m = mailbox_text l d -> bool_decide (alnum l) && bool_decide (alnum d) = true -> plain_mailbox m).
  { intros m l d ->. apply plain_mailbox_of. }
  split.
  - split; [|cbn; lia]. split; [done|]. split; [by apply (bool_decide_unpack _)|]. split; [by apply (bool_decide_unpack _)|]. by split; intros b [= <-].
  - split; [by apply (bool_decide_unpack _)|]. split; [by apply (bool_decide_unpack _)|]. split; [by apply (bool_decide_unpack _)|].
    split; [by apply (bool_decide_unpack _)|]. vm_compute. lia.
  - reflexivity.
  - intros cmd. reflexivity.
  - split; [by apply (Hm _ (str "joe") (str "a"))|cbn; lia].
  - split; [done|]. split; [cbn; lia|]. repeat constructor; try (cbn; lia); [by apply (Hm _ (str "ann") (str "b"))|by apply (Hm _ (str "bob") (str "c"))].
  - eexists. split; [split; [by vm_compute|vm_compute; reflexivity]|reflexivity].
  - split; [split; [by vm_compute|vm_compute; reflexivity]|reflexivity].
  - eexists. split; [by vm_compute|vm_compute; reflexivity].
Qed.

Lemma client_mail_delivered_witness :
  let '(served, w) := handle (H := ascii_tables) (H0 := one_user) (fun n => Z.of_nat n) (fun _ => []) demo_server
    (mkWorld (newReceiver receiverModeClient (str "r") (str "l"))
      (data_reads (sent (str "home") (str "joe") (str "pw") demo_mail ++ [str "hel"; str "lo" ++ terminator] ++ [farewell])) [] 9 [] 5 0 false) in
  let '(got, c') := submit (U := ascii_tables) None [] (str "home") (str "joe") (str "pw") demo_mail (at_ demo_client (output w) []) in
  served = Done tt /\ got = Ok (Some farewell_response) /\ Recipients <$> queue w = [[str "ann@b"]; [str "bob@c"]].
Proof.
  pose proof (client_mail_delivered (U := ascii_tables) (Hh := one_user) (fun n => Z.of_nat n) (fun _ => []) demo_server demo_client None [] (str "home") (str "home")
    (str "joe") (str "pw") demo_mail demo_login demo_ehlo (str "r") (str "l") [str "hel"; str "lo" ++ terminator] 5 0 [] demo_agreed eq_refl eq_refl) as H.
  assert (Hc : cut [str "hel"; str "lo" ++ terminator] (Data demo_mail)).
  { split; [reflexivity|]. intros i Hi. cbn in Hi. replace i with 1%nat by lia. intros [k Hk]. apply (f_equal reverse) in Hk. rewrite reverse_app in Hk. vm_compute in Hk. discriminate. }
  specialize (H Hc ltac:(cbn; lia)).
  destruct (handle _ _ _ _) as [served w]. destruct (submit _ _ _ _ _ _ _) as [got c'].
  destruct H as (Hs & Hg & _ & _ & _ & _ & _ & Hq). split; [exact Hs|]. split; [exact Hg|]. rewrite Hq. vm_compute. reflexivity.
Defined.

(** A mail whose recipient's line gets no answer crashes the client: the response that is
    nil is read for the text of the error. *)
Example no_answer_crashes :
  (cl_MailTx (Some demo_mail) (at_ demo_client [OK_reply] [])).1 = Panic.
Proof. vm_compute. reflexivity. Qed.
(** A text that holds the end of mail is not guarded: the server takes what follows as a
    command. *)
Example not_stuffed :
  let chunks := [str "one" ++ terminator; str "QUIT" ++ terminator] in
  concat chunks = (str "one" ++ terminator ++ str "QUIT") ++ terminator /\
  readDATA_loop (data_reads chunks) zeroMail
  = (Done tt, data_reads [str "QUIT" ++ terminator], set_Data zeroMail (str "one" ++ terminator)).
Proof. split; reflexivity. Qed.
