(* ===== verification/Json.v ===== *)
(** Package [lib/json]: escaping and unescaping of the bytes of a JSON string.
    [ToMapStringFloat64], on floating-point numbers, is not modelled. *)

From Stdlib Require Import ZArith Lia.
From S2P Require Import Prelude Ascii Utf8.

Local Open Scope Z_scope.

Definition bDoubleQuote : Z := 34.
Definition bRevSolidus : Z := 92.
Definition bSolidus : Z := 47.
Definition bBackspace : Z := 8.
Definition bFormFeed : Z := 12.
Definition bLineFeed : Z := 10.
Definition bCarReturn : Z := 13.
Definition bTab : Z := 9.

(** [fmt.Sprintf("%04X", b)] of a byte. *)
Definition upper_hex (d : Z) : Z := if d <? 10 then 48 + d else 55 + d.
Definition Sprintf_04X (b : Z) : list Z := [48; 48; upper_hex (b / 16); upper_hex (b mod 16)].

(** The bytes written for one byte. *)
Definition escape_byte (c : Z) : list Z :=
  if (c =? bDoubleQuote) || (c =? bRevSolidus) || (c =? bSolidus) then [bRevSolidus; c]
  else if c =? bBackspace then [bRevSolidus; 98]
  else if c =? bFormFeed then [bRevSolidus; 102]
  else if c =? bLineFeed then [bRevSolidus; 110]
  else if c =? bCarReturn then [bRevSolidus; 114]
  else if c =? bTab then [bRevSolidus; 116]
  else if c <=? 31 then bRevSolidus :: 117 :: Sprintf_04X c
  else [c].

(** [Escape] and [EscapeString]. *)
Fixpoint Escape (inp : list Z) : list Z :=
  match inp with
  | [] => []
  | c :: inp => escape_byte c ++ Escape inp
  end.
Definition EscapeString (inp : list Z) : list Z :=
  match inp with [] => inp | _ => Escape inp end.

(** [strconv.ParseUint(s, 16, 32)] of at most four bytes, which cannot be out of
    range. *)
Definition hex_value (c : Z) : option Z :=
  if (48 <=? c) && (c <=? 57) then Some (c - 48)
  else if (97 <=? c) && (c <=? 102) then Some (c - 87)
  else if (65 <=? c) && (c <=? 70) then Some (c - 55)
  else None.
Fixpoint ParseHex_from (n : Z) (s : list Z) : option Z :=
  match s with
  | [] => Some n
  | c :: s => d ← hex_value c; ParseHex_from (n * 16 + d) s
  end.
Definition ParseHex (s : list Z) : option Z :=
  match s with [] => None | _ => ParseHex_from 0 s end.

(** The error of [ParseUint] on its text, or the invalid byte's index. *)
Inductive json_error : Type := ErrParseUint (s : list Z) | ErrInvalidSyntax (x : nat).

(** The byte that an escape other than [\u] stands for. *)
Definition control (c : Z) : option Z :=
  if c =? 116 then Some bTab
  else if c =? 114 then Some bCarReturn
  else if c =? 110 then Some bLineFeed
  else if c =? 102 then Some bFormFeed
  else if c =? 98 then Some bBackspace
  else if (c =? bDoubleQuote) || (c =? bRevSolidus) || (c =? bSolidus) then Some c
  else None.

Definition WriteCode (dec : Z) : list Z := if dec <=? 31 then [u8 dec] else EncodeRune dec.

(** The loop of [Unescape] at index [x]. *)
Fixpoint Unescape_loop (strict : bool) (inp : list Z) (x : nat) (esc : bool) (buf : list Z)
    : outcome json_error (list Z) :=
  match inp with
  | [] => Ok buf
  | c :: inp =>
      if esc then
        if c =? 117 then
          match inp with
          | a :: b :: d :: e :: rest =>
              match ParseHex [a; b; d; e] with
              | None => Err (ErrParseUint [a; b; d; e])
              | Some dec => Unescape_loop strict rest (x + 5) false (buf ++ WriteCode dec)
              end
          | short =>
              match ParseHex short with
              | None => Err (ErrParseUint short)
              | Some dec => Ok (buf ++ WriteCode dec)
              end
          end
        else
          match control c with
          | Some b => Unescape_loop strict inp (S x) false (buf ++ [b])
          | None =>
              if strict then Err (ErrInvalidSyntax x)
              else Unescape_loop strict inp (S x) false (buf ++ [c])
          end
      else if c =? bRevSolidus then Unescape_loop strict inp (S x) true buf
      else Unescape_loop strict inp (S x) false (buf ++ [c])
  end.

(** [Unescape] and [UnescapeString]. *)
Definition Unescape (inp : list Z) (strict : bool) : outcome json_error (list Z) :=
  Unescape_loop strict inp 0 false [].
Definition UnescapeString (inp : list Z) (strict : bool) : outcome json_error (list Z) :=
  match inp with [] => Ok inp | _ => Unescape inp strict end.

(** ** Facts *)

(** A fact about the members of a list, one goal per member. *)
Ltac forall_in := match goal with |- forall c, c ∈ ?l -> @?P c => apply (proj1 (Forall_forall P l)) end.

(** One escaped byte is read back, whatever follows. *)
Lemma Unescape_escape_byte strict c rest x buf : is_byte c ->
  exists y, Unescape_loop strict (escape_byte c ++ rest) x false buf = Unescape_loop strict rest y false (buf ++ [c]).
Proof.
  intros Hc. destruct (decide (c <= 31)) as [Hlo|Hhi].
  - assert (Hin : c ∈ seqZ 0 32) by (apply elem_of_seqZ; unfold is_byte in Hc; lia).
    clear Hc Hlo. revert x buf. revert c Hin. forall_in.
    repeat (constructor; [intros x buf; eexists; cbn; reflexivity|]). constructor.
  - unfold escape_byte. destruct (Z.eqb_spec c bDoubleQuote) as [->|H1]; [by eexists|].
    destruct (Z.eqb_spec c bRevSolidus) as [->|H2]; [by eexists|].
    destruct (Z.eqb_spec c bSolidus) as [->|H3]; [by eexists|]. cbn [orb].
    unfold bBackspace, bFormFeed, bLineFeed, bCarReturn, bTab.
    rewrite !(proj2 (Z.eqb_neq c _)) by lia. rewrite (proj2 (Z.leb_gt c 31)) by lia.
    exists (S x). cbn [app Unescape_loop]. by rewrite (proj2 (Z.eqb_neq c _)).
Qed.

Lemma Unescape_loop_Escape strict inp : is_bytes inp -> forall x buf,
  Unescape_loop strict (Escape inp) x false buf = Ok (buf ++ inp).
Proof.
  induction 1 as [|c inp Hc _ IH]; intros x buf; cbn [Escape]; [by rewrite app_nil_r|].
  destruct (Unescape_escape_byte strict c (Escape inp) x buf Hc) as [y ->].
  rewrite IH. by rewrite <- (assoc_L (++)).
Qed.

(** Unescaping reverses escaping on every sequence of bytes, in strict mode
    and not, for slices and for strings. *)
Theorem Unescape_Escape strict inp : is_bytes inp ->
  Unescape (Escape inp) strict = Ok inp /\ UnescapeString (EscapeString inp) strict = Ok inp.
Proof.
  intros Hb. assert (H : Unescape (Escape inp) strict = Ok inp) by (by apply Unescape_loop_Escape).
  split; [done|]. destruct inp as [|c inp]; [done|]. unfold EscapeString, UnescapeString.
  rewrite H. by destruct (Escape (c :: inp)) eqn:E.
Qed.

Lemma Unescape_Escape_witness :
  Unescape (Escape [34; 1; 200; 92; 9; 31; 47; 65]) true = Ok [34; 1; 200; 92; 9; 31; 47; 65].
Proof. apply (Unescape_Escape true). apply (bool_decide_unpack _). vm_compute. exact I. Defined.

(** ** The grammar of JSON strings (RFC 7159, section 7) *)

(** The contents of a JSON string: bytes from 0x20 up but the quotation mark and
    the reverse solidus, and escapes. *)
Inductive json_chars : list Z -> Prop :=
| jc_nil : json_chars []
| jc_char c l : 32 <= c -> c ≠ 34 -> c ≠ 92 -> json_chars l -> json_chars (c :: l)
| jc_escape c l : c ∈ [34; 92; 47; 98; 102; 110; 114; 116] -> json_chars l -> json_chars (92 :: c :: l)
| jc_unicode a b d e l : Forall (fun c => is_Some (hex_value c)) [a; b; d; e] -> json_chars l ->
    json_chars (92 :: 117 :: a :: b :: d :: e :: l).

Lemma json_escape_byte c l : is_byte c -> json_chars l -> json_chars (escape_byte c ++ l).
Proof.
  intros Hc Hl. destruct (decide (c <= 31)) as [Hlo|Hhi].
  - assert (Hin : c ∈ seqZ 0 32) by (apply elem_of_seqZ; unfold is_byte in Hc; lia).
    clear Hc Hlo. revert c Hin. forall_in.
    repeat (constructor; [cbn;
      first [apply jc_escape; [rewrite !elem_of_cons; tauto|done]
            |apply jc_unicode; [repeat constructor; eauto|done]]|]). constructor.
  - unfold escape_byte. destruct (Z.eqb_spec c bDoubleQuote) as [->|H1]; [apply jc_escape; [rewrite !elem_of_cons; tauto|done]|].
    destruct (Z.eqb_spec c bRevSolidus) as [->|H2]; [apply jc_escape; [rewrite !elem_of_cons; tauto|done]|].
    destruct (Z.eqb_spec c bSolidus) as [->|H3]; [apply jc_escape; [rewrite !elem_of_cons; tauto|done]|]. cbn [orb].
    unfold bBackspace, bFormFeed, bLineFeed, bCarReturn, bTab.
    rewrite !(proj2 (Z.eqb_neq c _)) by lia. rewrite (proj2 (Z.leb_gt c 31)) by lia.
    apply jc_char; [lia|done..].
Qed.

(** Reading what the grammar allows never fails, in strict mode too. *)
Lemma Unescape_json strict l : json_chars l -> forall x buf,
  exists out, Unescape_loop strict l x false buf = Ok (buf ++ out).
Proof.
  induction 1 as [|c l H32 H34 H92 _ IH|c l Hc _ IH|a b d e l Hh _ IH]; intros x buf.
  - exists []. by rewrite app_nil_r.
  - cbn [Unescape_loop]. rewrite (proj2 (Z.eqb_neq c bRevSolidus)) by done.
    destruct (IH (S x) (buf ++ [c])) as [out ->]. exists (c :: out). by rewrite <- (assoc_L (++)).
  - cbn [Unescape_loop Z.eqb bRevSolidus Pos.eqb].
    assert (Hc' : (c =? 117) = false /\ is_Some (control c)).
    { revert c Hc. apply Forall_forall. repeat constructor; by eexists. }
    destruct Hc' as [-> [b ->]]. destruct (IH (S (S x)) (buf ++ [b])) as [out ->].
    exists (b :: out). by rewrite <- (assoc_L (++)).
  - cbn [Unescape_loop Z.eqb bRevSolidus Pos.eqb].
    rewrite !Forall_cons in Hh. destruct Hh as ([v1 H1] & [v2 H2] & [v3 H3] & [v4 H4] & _).
    unfold ParseHex. cbn [ParseHex_from]. rewrite H1. cbn [mbind option_bind]. rewrite H2. cbn [mbind option_bind].
    rewrite H3. cbn [mbind option_bind]. rewrite H4. cbn [mbind option_bind].
    match goal with |- context [Unescape_loop strict l ?y false ?b'] => destruct (IH y b') as [out ->] end.
    eexists. by rewrite <- (assoc_L (++)).
Qed.

(** The escaped bytes are the contents of a JSON string as RFC 7159 has it:
    no control character, and a quotation mark or reverse solidus only as an
    escape; and every such contents is unescaped without error. *)
Theorem Escape_json inp : is_bytes inp ->
  json_chars (Escape inp) /\ forall l strict, json_chars l -> exists out, Unescape l strict = Ok out.
Proof.
  intros Hb. split.
  - induction Hb as [|c inp Hc _ IH]; cbn [Escape]; [constructor|]. by apply json_escape_byte.
  - intros l strict Hl. destruct (Unescape_json strict l Hl 0 []) as [out H]. by exists out.
Qed.

Lemma Escape_json_witness : json_chars (Escape [34; 7; 255]) /\ Escape [34; 7; 255] = [92; 34; 92; 117; 48; 48; 48; 55; 255].
Proof.
  split; [|reflexivity]. apply Escape_json. apply (bool_decide_unpack _). vm_compute. exact I.
Defined.
