(* ===== verification/Ints.v ===== *)
(** Package [lib/ints]: counting, searching and the in-place merge sort of a
    slice of integers with the indices of its elements.  [lib/ints64] has the
    same code for 64-bit integers; its definitions are at the end.

    Indices are naturals: the callers pass the bounds of slices.  [sort.Ints]
    of the standard library is [merge_sort]. *)

From Stdlib Require Import ZArith Lia.
From stdpp Require Import sorting.
From S2P Require Import Prelude.

Local Open Scope Z_scope.

Definition I := outcome unit.

(** ** Counting and searching *)

Fixpoint Count (d : list Z) (class : Z) : nat :=
  match d with
  | [] => 0
  | v :: d => if v =? class then S (Count d class) else Count d class
  end.

Definition Counts (d classes : list Z) : list Z := (fun c => Z.of_nat (Count d c)) <$> classes.

Fixpoint IsExist (d : list Z) (v : Z) : bool :=
  match d with
  | [] => false
  | w :: d => if w =? v then true else IsExist d v
  end.

(** The loops of [Max] and [Min] from index [x] on. *)
Fixpoint Max_loop (d : list Z) (x : nat) (v : Z) (i : nat) : Z * nat :=
  match d with
  | [] => (v, i)
  | w :: d => if v <? w then Max_loop d (S x) w x else Max_loop d (S x) v i
  end.
Definition Max (d : list Z) : Z * nat * bool :=
  match d with
  | [] => (0, O, false)
  | v :: d => (Max_loop d 1 v 0, true)
  end.

Fixpoint Min_loop (d : list Z) (x : nat) (v : Z) (i : nat) : Z * nat :=
  match d with
  | [] => (v, i)
  | w :: d => if w <? v then Min_loop d (S x) w x else Min_loop d (S x) v i
  end.
Definition Min (d : list Z) : Z * nat * bool :=
  match d with
  | [] => (0, O, false)
  | v :: d => (Min_loop d 1 v 0, true)
  end.

Definition MaxCountOf (d classes : list Z) : I (Z * bool) :=
  match classes with
  | [] => Ok (-1, false)
  | _ =>
      match d with
      | [] => Ok (-2, false)
      | _ => c ← get_at classes (Max (Counts d classes)).1.2; Ok (c, true)
      end
  end.

(** [MaxRange] and [MinRange]: the last extremum between [l] and [r]. *)
Fixpoint MaxRange_loop (k : nat) (d : list Z) (l : nat) (v : Z) (i : nat) : I (Z * nat) :=
  match k with
  | O => Ok (v, i)
  | S k => w ← get_at d l; if v <=? w then MaxRange_loop k d (S l) w l else MaxRange_loop k d (S l) v i
  end.
Definition MaxRange (d : list Z) (l r : nat) : I (Z * nat) :=
  v ← get_at d l; MaxRange_loop (r - S l) d (S l) v l.

Fixpoint MinRange_loop (k : nat) (d : list Z) (l : nat) (v : Z) (i : nat) : I (Z * nat) :=
  match k with
  | O => Ok (v, i)
  | S k => w ← get_at d l; if w <=? v then MinRange_loop k d (S l) w l else MinRange_loop k d (S l) v i
  end.
Definition MinRange (d : list Z) (l r : nat) : I (Z * nat) :=
  v ← get_at d l; MinRange_loop (r - S l) d (S l) v l.

(** [MergeByDistance]. *)
Fixpoint MergeByDistance_loop (ab : list Z) (last distance : Z) : list Z :=
  match ab with
  | [] => []
  | v :: ab => if s64 (last + distance) <? v then v :: MergeByDistance_loop ab v distance
               else MergeByDistance_loop ab last distance
  end.
Definition MergeByDistance (a b : list Z) (distance : Z) : list Z :=
  match merge_sort Z.le (a ++ b) with
  | [] => []
  | v :: ab => v :: MergeByDistance_loop ab v distance
  end.

(** [Remove]: the first element with that value. *)
Fixpoint Remove (d : list Z) (v : Z) : list Z * bool :=
  match d with
  | [] => ([], false)
  | w :: d => if w =? v then (d, true) else let '(d', found) := Remove d v in (w :: d', found)
  end.

Definition Sum (d : list Z) : Z := foldl (fun s v => s64 (s + v)) 0 d.

Definition To64 (ints : list Z) : list Z := (fun v => v) <$> ints.

(** [SortByIndex]: the new slice, of the length of the old one. *)
Fixpoint SortByIndex_loop (d newd : list Z) (x : nat) (sortedIds : list nat) : I (list Z) :=
  match sortedIds with
  | [] => Ok newd
  | i :: ids => v ← get_at d i; newd ← set_at newd x v; SortByIndex_loop d newd (S x) ids
  end.
Definition SortByIndex (d : list Z) (sortedIds : list nat) : I (list Z) :=
  SortByIndex_loop d (replicate (length d) 0) 0 sortedIds.

(** ** Sorting

    Both slices are returned: the values and their indices. *)

(** [Swap], for either slice. *)
Definition Swap {A} (d : list A) (x y : nat) : I (list A) :=
  if bool_decide (x = y \/ length d <= 1 \/ length d < x \/ length d < y)%nat then Ok d
  else
    tmp ← get_at d x;
    dy ← get_at d y;
    d ← set_at d x dy;
    set_at d y tmp.

Definition state : Type := list Z * list nat.

Definition swap_both (s : state) (x y : nat) : I state :=
  ids ← Swap s.2 x y; d ← Swap s.1 x y; Ok (d, ids).

(** [InplaceInsertionSort]: [k] is what is left of each range. *)
Fixpoint insertion_inner (k : nat) (asc : bool) (s : state) (x y : nat) : I state :=
  match k with
  | O => Ok s
  | S k =>
      dx ← get_at s.1 x;
      dy ← get_at s.1 y;
      s ← (if (if asc then dy <? dx else dx <? dy) then swap_both s x y else Ok s);
      insertion_inner k asc s x (S y)
  end.
Fixpoint insertion_outer (k : nat) (asc : bool) (s : state) (x r : nat) : I state :=
  match k with
  | O => Ok s
  | S k => s ← insertion_inner (r - S x) asc s x (S x); insertion_outer k asc s (S x) r
  end.
Definition InplaceInsertionSort (asc : bool) (s : state) (l r : nat) : I state :=
  insertion_outer (r - l) asc s l r.

(** [moveY]: the end of the run that starts at [yorg]. *)
Fixpoint moveY_loop (k : nat) (asc : bool) (d : list Z) (x yorg y : nat) : I nat :=
  match k with
  | O => Ok y
  | S k =>
      dy ← get_at d y;
      dx ← get_at d x;
      if (if asc then dx <=? dy else dy <=? dx) then Ok y
      else
        d0 ← get_at d yorg;
        if (if asc then dy <? d0 else d0 <? dy) then Ok y
        else moveY_loop k asc d x yorg (S y)
  end.
Definition moveY (asc : bool) (d : list Z) (x y r : nat) : I nat := moveY_loop (r - S y) asc d x y (S y).

(** [inplaceMultiswap], its result, which is not used, left out. *)
Fixpoint inplaceMultiswap (k : nat) (s : state) (x y : nat) : I state :=
  match k with
  | O => Ok s
  | S k =>
      s ← swap_both s x y;
      match k with
      | O => Ok s
      | _ =>
          dx ← get_at s.1 (S x);
          dy ← get_at s.1 (S y);
          if dx <=? dy then Ok s else inplaceMultiswap k s (S x) (S y)
      end
  end.

(** [minY]: [x] past the elements in place, [y] the extremum of the rest. *)
Fixpoint minY (k : nat) (asc : bool) (d : list Z) (x y r : nat) : I (nat * nat) :=
  match k with
  | O => Ok (x, y)
  | S k =>
      m ← (if asc then MinRange d x r else MaxRange d x r);
      if decide (m.2 = x) then minY k asc d (S x) m.2 r else Ok (x, m.2)
  end.

(** [inplaceMerge]. *)
Fixpoint inplaceMerge (fuel : nat) (asc : bool) (s : state) (x y r : nat) : I state :=
  match fuel with
  | O => NoFuel
  | S fuel =>
      if decide (x < r /\ y < r)%nat then
        dx ← get_at s.1 x;
        dy ← get_at s.1 y;
        if (if asc then dx <=? dy else dy <=? dx) then
          if decide (y <= S x)%nat then
            xy ← minY (r - S x) asc s.1 (S x) y r; inplaceMerge fuel asc s xy.1 xy.2 r
          else inplaceMerge fuel asc s (S x) y r
        else
          ylast ← moveY asc s.1 x y r;
          s ← inplaceMultiswap (ylast - y) s x y;
          xy ← minY (r - x) asc s.1 x y r;
          inplaceMerge fuel asc s xy.1 xy.2 r
      else Ok s
  end.

(** Two rounds for each element are enough for the merge. *)
Definition merge_fuel (l r : nat) : nat := 2 * (r - l) + 2.

(** [InplaceMergesort]; [IndirectSort] gives fuel for the depth of its halving. *)
Fixpoint InplaceMergesort (fuel : nat) (asc : bool) (s : state) (l r : nat) : I state :=
  match fuel with
  | O => NoFuel
  | S fuel =>
      if decide (r <= l + 7)%nat then InplaceInsertionSort asc s l r
      else
        let c := ((r + l) / 2 + (r + l) mod 2)%nat in
        s ← InplaceMergesort fuel asc s l c;
        s ← InplaceMergesort fuel asc s c r;
        a ← get_at s.1 (c - 1)%nat;
        b ← get_at s.1 c;
        if (if asc then a <=? b else b <=? a) then Ok s
        else inplaceMerge (merge_fuel l r) asc s l c r
  end.

(** [IndirectSort]. *)
Definition IndirectSort (d : list Z) (asc : bool) : I state :=
  InplaceMergesort (S (length d)) asc (d, seq 0 (length d)) 0 (length d).

Example IndirectSort_ex :
  IndirectSort [5; 3; 9; 1; 1; 8; 7; 2; 6; 0] true = Ok ([0; 1; 1; 2; 3; 5; 6; 7; 8; 9], [9; 4; 3; 7; 1; 0; 8; 6; 5; 2]%nat).
Proof. vm_compute. reflexivity. Qed.

(** ** Facts on swaps *)

Definition le (asc : bool) (a b : Z) : Prop := if asc then a <= b else b <= a.

Lemma le_refl asc a : le asc a a.
Proof. destruct asc; cbn; lia. Qed.
Lemma le_trans asc a b c : le asc a b -> le asc b c -> le asc a c.
Proof. destruct asc; cbn; lia. Qed.
Lemma le_test (asc : bool) a b : (if asc then a <=? b else b <=? a) = true <-> le asc a b.
Proof. destruct asc; apply Z.leb_le. Qed.
Lemma le_total (asc : bool) a b : (if asc then a <=? b else b <=? a) = false -> le asc b a.
Proof. destruct asc; cbn; rewrite Z.leb_gt; lia. Qed.

(** The two slices have one length. *)
Definition paired (s : state) : Prop := length s.2 = length s.1.

(** What sorting between [l] and [r] may do: the rest of the values stays, and
    the pairs of a value and an index are permuted. *)
Record seg (l r : nat) (s s' : state) : Prop := {
  sg_paired : paired s';
  sg_len : length s'.1 = length s.1;
  sg_out i : (i < l \/ r <= i)%nat -> s'.1 !! i = s.1 !! i;
  sg_perm : zip s'.1 s'.2 ≡ₚ zip s.1 s.2
}.

Lemma seg_refl l r s : paired s -> seg l r s s.
Proof. intros H. by split. Qed.
Lemma seg_trans l r s1 s2 s3 : seg l r s1 s2 -> seg l r s2 s3 -> seg l r s1 s3.
Proof.
  intros [P1 L1 O1 Z1] [P2 L2 O2 Z2]. split; [done|congruence| |by rewrite Z2].
  intros i Hi. by rewrite O2, O1.
Qed.
Lemma seg_weaken l r l' r' s s' : seg l r s s' -> (l' <= l)%nat -> (r <= r')%nat -> seg l' r' s s'.
Proof. intros [P L O Z] Hl Hr. split; try done. intros i Hi. apply O. lia. Qed.

(** The values between the bounds are those that were there. *)
Lemma seg_from l r s s' i v : paired s -> seg l r s s' -> (l <= i < r)%nat -> s'.1 !! i = Some v ->
  exists j, (l <= j < r)%nat /\ s.1 !! j = Some v.
Proof.
  intros Hp [Hp' Hlen Hout Hperm] Hi Hv.
  assert (Hd : s'.1 ≡ₚ s.1).
  { assert (Hf : (zip s'.1 s'.2).*1 ≡ₚ (zip s.1 s.2).*1) by (by rewrite Hperm).
    unfold paired in *. by rewrite !fst_zip in Hf by lia. }
  assert (Hsplit : forall d : list Z, d = take l d ++ take (r - l) (drop l d) ++ drop r d).
  { intros d. rewrite <- (take_drop l d) at 1. f_equal. rewrite <- (take_drop (r - l) (drop l d)) at 1.
    rewrite drop_drop. repeat f_equal. lia. }
  assert (Ht : take l s'.1 = take l s.1).
  { apply list_eq. intros k. destruct (decide (k < l)%nat); [|by rewrite !lookup_take_ge by lia].
    rewrite !lookup_take_lt by lia. apply Hout. lia. }
  assert (Hdr : drop r s'.1 = drop r s.1).
  { apply list_eq. intros k. rewrite !lookup_drop. apply Hout. lia. }
  rewrite (Hsplit s'.1), (Hsplit s.1), Ht, Hdr in Hd. apply Permutation_app_inv_l, Permutation_app_inv_r in Hd.
  assert (Hin : v ∈ take (r - l) (drop l s'.1)).
  { apply list_elem_of_lookup. exists (i - l)%nat. rewrite lookup_take_lt by lia. rewrite lookup_drop.
    by replace (l + (i - l))%nat with i by lia. }
  rewrite Hd in Hin. apply list_elem_of_lookup in Hin as [k Hk].
  apply lookup_take_Some in Hk as [Hk Hlt]. rewrite lookup_drop in Hk. exists (l + k)%nat. split; [lia|done].
Qed.

Lemma split_two {A} (d : list A) x y : (x < y < length d)%nat ->
  exists l1 a l2 b l3, d = l1 ++ a :: l2 ++ b :: l3 /\ x = length l1 /\ y = (length l1 + S (length l2))%nat.
Proof.
  intros Hxy. destruct (lookup_lt_is_Some_2 d x) as [a Ha]; [lia|].
  destruct (lookup_lt_is_Some_2 d y) as [b Hb]; [lia|].
  exists (take x d), a, (take (y - S x) (drop (S x) d)), b, (drop (S y) d).
  rewrite !length_take, length_drop. split; [|split; lia].
  rewrite <- (take_drop_middle d x a Ha) at 1. do 2 f_equal.
  assert (Hb' : drop (S x) d !! (y - S x)%nat = Some b)
    by (rewrite lookup_drop; by replace (S x + (y - S x))%nat with y by lia).
  rewrite <- (take_drop_middle (drop (S x) d) (y - S x) b Hb') at 1. rewrite drop_drop.
  by replace (S x + S (y - S x))%nat with (S y) by lia.
Qed.

Lemma lookup_second {A} (l1 l2 l3 : list A) c b : (l1 ++ c :: l2 ++ b :: l3) !! (length l1 + S (length l2))%nat = Some b.
Proof.
  rewrite lookup_app_r by lia. replace (length l1 + S (length l2) - length l1)%nat with (S (length l2)) by lia.
  cbn. by apply list_lookup_middle.
Qed.

Lemma Swap_split {A} (l1 l2 l3 : list A) a b x y : x = length l1 -> y = (length l1 + S (length l2))%nat ->
  Swap (l1 ++ a :: l2 ++ b :: l3) x y = Ok (l1 ++ b :: l2 ++ a :: l3).
Proof.
  intros -> ->. unfold Swap. rewrite bool_decide_false.
  2: { rewrite !length_app. cbn [length]. rewrite length_app. cbn [length]. lia. }
  assert (H1 : (l1 ++ a :: l2 ++ b :: l3) !! length l1 = Some a) by (by apply list_lookup_middle).
  rewrite (get_at_Some _ _ _ H1). cbn [mbind outcome_bind]. rewrite (get_at_Some _ _ _ (lookup_second _ _ _ _ _)). cbn [mbind outcome_bind].
  rewrite set_at_app by done. cbn [mbind outcome_bind]. rewrite (cons_middle b), !(assoc_L (++)).
  rewrite set_at_app by (rewrite !length_app; cbn [length]; lia). by rewrite <- !(assoc_L (++)).
Qed.

(** Swapping at two places between the bounds. *)
Lemma swap_both_spec s x y l r a b : paired s -> (l <= x)%nat -> (x < y < r)%nat -> (r <= length s.1)%nat ->
  s.1 !! x = Some a -> s.1 !! y = Some b ->
  exists s', swap_both s x y = Ok s' /\ seg l r s s' /\ s'.1 !! x = Some b /\ s'.1 !! y = Some a /\
    (forall i, i ≠ x -> i ≠ y -> s'.1 !! i = s.1 !! i).
Proof.
  intros Hp Hl Hxy Hr Ha Hb. destruct s as [d ids]. unfold paired in Hp. cbn [fst snd] in *.
  destruct (split_two d x y) as (l1 & a' & l2 & b' & l3 & -> & Hx & Hy); [lia|].
  destruct (split_two ids x y) as (k1 & i & k2 & j & k3 & -> & Hx' & Hy'); [lia|].
  assert (a' = a) as -> by (rewrite Hx, list_lookup_middle in Ha by done; congruence).
  assert (b' = b) as ->.
  { rewrite Hy, lookup_second in Hb. congruence. }
  unfold swap_both. cbn [fst snd]. rewrite (Swap_split k1 k2 k3 i j x y Hx' Hy'). cbn [mbind outcome_bind].
  rewrite (Swap_split l1 l2 l3 a b x y Hx Hy). cbn [mbind outcome_bind].
  assert (Hlen : length k3 = length l3).
  { rewrite !length_app in Hp. cbn [length] in Hp. rewrite !length_app in Hp. cbn [length] in Hp. lia. }
  assert (Hother : forall n, n ≠ x -> n ≠ y -> (l1 ++ b :: l2 ++ a :: l3) !! n = (l1 ++ a :: l2 ++ b :: l3) !! n).
  { intros n Hnx Hny. destruct (decide (n < length l1)%nat); [by rewrite !lookup_app_l by lia|].
    rewrite !lookup_app_r by lia. destruct (n - length l1)%nat as [|m] eqn:E; [lia|]. rewrite !lookup_cons.
    destruct (decide (m < length l2)%nat); [by rewrite !lookup_app_l by lia|].
    rewrite !lookup_app_r by lia. destruct (m - length l2)%nat as [|q] eqn:E2; [lia|]. done. }
  eexists. split; [done|]. cbn [fst snd]. split; [|split; [|split; [|done]]].
  - split; cbn [fst snd].
    + unfold paired. cbn [fst snd]. rewrite !length_app. cbn [length]. rewrite !length_app. cbn [length]. lia.
    + rewrite !length_app. cbn [length]. rewrite !length_app. done.
    + intros n Hn. apply Hother; lia.
    + rewrite !zip_with_app by lia. cbn [zip_with]. rewrite !zip_with_app by lia. cbn [zip_with].
      apply Permutation_app_head. solve_Permutation.
  - rewrite Hx. by apply list_lookup_middle.
  - rewrite Hy. apply lookup_second.
Qed.

(** ** Sorted ranges *)

(** The value at [i] comes before those from [i] to [r]. *)
Definition min_at (asc : bool) (d : list Z) (i r : nat) : Prop :=
  forall a j b, d !! i = Some a -> (i <= j < r)%nat -> d !! j = Some b -> le asc a b.
Definition sorted (asc : bool) (l r : nat) (d : list Z) : Prop :=
  forall i, (l <= i < r)%nat -> min_at asc d i r.
(** The values from [l] to [x] are in place in the range up to [r]. *)
Definition settled (asc : bool) (l x r : nat) (d : list Z) : Prop :=
  forall i, (l <= i < x)%nat -> min_at asc d i r.

Lemma sorted_weaken asc l r l' r' d : sorted asc l r d -> (l <= l')%nat -> (r' <= r)%nat -> sorted asc l' r' d.
Proof. intros H Hl Hr i Hi a j b Ha Hj Hb. apply (H i ltac:(lia) a j b Ha ltac:(lia) Hb). Qed.

(** Sorting after a place keeps what is settled before it. *)
Lemma min_at_seg asc i l r s s' : paired s -> seg l r s s' -> (i < l)%nat -> min_at asc s.1 i r -> min_at asc s'.1 i r.
Proof.
  intros Hp Hs Hi Hm a j b Ha Hj Hb. rewrite (sg_out _ _ _ _ Hs) in Ha by lia.
  destruct (decide (j < l)%nat) as [Hlt|Hge].
  - rewrite (sg_out _ _ _ _ Hs) in Hb by lia. by apply (Hm a j b).
  - destruct (seg_from l r s s' j b Hp Hs ltac:(lia) Hb) as (k & Hk & Hbk). apply (Hm a k b); [done|lia|done].
Qed.

Lemma settled_seg asc l x r s s' : paired s -> seg x r s s' -> settled asc l x r s.1 -> settled asc l x r s'.1.
Proof. intros Hp Hs H i Hi. eapply min_at_seg; [done|done|lia|]. by apply H. Qed.

(** ** Insertion sort *)

Lemma insertion_inner_spec k : forall asc s x y, paired s -> (x < y)%nat -> (y + k <= length s.1)%nat ->
  (forall j a b, (x < j < y)%nat -> s.1 !! x = Some a -> s.1 !! j = Some b -> le asc a b) ->
  exists s', insertion_inner k asc s x y = Ok s' /\ seg x (y + k) s s' /\ min_at asc s'.1 x (y + k).
Proof.
  induction k as [|k IH]; intros asc s x y Hp Hxy Hlen Hmin; cbn [insertion_inner].
  { rewrite Nat.add_0_r. exists s. split; [done|]. split; [by apply seg_refl|].
    intros a j b Ha Hj Hb. destruct (decide (j = x)) as [->|Hne]; [|apply (Hmin j); [lia|done|done]].
    assert (a = b) as -> by congruence. apply le_refl. }
  destruct (lookup_lt_is_Some_2 s.1 x) as [a Ha]; [lia|]. destruct (lookup_lt_is_Some_2 s.1 y) as [b Hb]; [lia|].
  rewrite (get_at_Some _ _ _ Ha), (get_at_Some _ _ _ Hb). cbn [mbind outcome_bind].
  assert (Hstep : exists s1, (if (if asc then b <? a else a <? b) then swap_both s x y else Ok s) = Ok s1 /\
    seg x (S y) s s1 /\ (forall j a b, (x < j < S y)%nat -> s1.1 !! x = Some a -> s1.1 !! j = Some b -> le asc a b)).
  { destruct (if asc then b <? a else a <? b) eqn:E.
    - destruct (swap_both_spec s x y x (S y) a b Hp) as (s1 & Hs1 & Hseg & Hx1 & Hy1 & Hoth); try done; [lia..|].
      exists s1. split; [done|]. split; [done|]. intros j a' b' Hj Ha' Hb'. assert (a' = b) as -> by congruence.
      assert (Hba : le asc b a) by (destruct asc; cbn in E |- *; rewrite Z.ltb_lt in E; lia).
      destruct (decide (j = y)) as [->|Hne]; [congruence|].
      rewrite Hoth in Hb' by lia. eapply le_trans; [exact Hba|]. apply (Hmin j); [lia|done|done].
    - exists s. split; [done|]. split; [by apply seg_refl|]. intros j a' b' Hj Ha' Hb'.
      assert (a' = a) as -> by congruence. destruct (decide (j = y)) as [->|Hne]; [|apply (Hmin j); [lia|done|done]].
      assert (b' = b) as -> by congruence. destruct asc; cbn in E |- *; rewrite Z.ltb_ge in E; lia. }
  destruct Hstep as (s1 & -> & Hseg & Hmin1). cbn [mbind outcome_bind].
  destruct (IH asc s1 x (S y)) as (s' & Hs' & Hseg' & Hm); [apply Hseg|lia|rewrite (sg_len _ _ _ _ Hseg); lia|done|].
  rewrite Nat.add_succ_comm in Hseg', Hm. exists s'. split; [done|]. split; [|done].
  eapply seg_trans; [|done]. eapply seg_weaken; [done|lia..].
Qed.

Lemma insertion_outer_spec k : forall asc s x r, paired s -> (x + k = r)%nat -> (r <= length s.1)%nat ->
  exists s', insertion_outer k asc s x r = Ok s' /\ seg x r s s' /\ sorted asc x r s'.1.
Proof.
  induction k as [|k IH]; intros asc s x r Hp Hk Hr; cbn [insertion_outer].
  { exists s. split; [done|]. split; [by apply seg_refl|]. intros i Hi. lia. }
  destruct (insertion_inner_spec (r - S x) asc s x (S x)) as (s1 & -> & Hseg & Hm); [done|lia|lia|intros; lia|].
  replace (S x + (r - S x))%nat with r in * by lia. cbn [mbind outcome_bind].
  destruct (IH asc s1 (S x) r) as (s' & -> & Hseg' & Hsort); [apply Hseg|lia|by rewrite (sg_len _ _ _ _ Hseg)|].
  exists s'. split; [done|]. split; [eapply seg_trans; [done|]; eapply seg_weaken; [done|lia..]|].
  intros i Hi. destruct (decide (i = x)) as [->|Hne]; [|apply Hsort; lia].
  eapply min_at_seg; [apply Hseg|done|lia|done].
Qed.

Lemma InplaceInsertionSort_spec asc s l r : paired s -> (l <= r <= length s.1)%nat ->
  exists s', InplaceInsertionSort asc s l r = Ok s' /\ seg l r s s' /\ sorted asc l r s'.1.
Proof. intros Hp Hr. apply insertion_outer_spec; [done|lia..]. Qed.

(** ** Merging *)

(** The value at [y] comes before those from [x] to [r]. *)
Definition best (asc : bool) (d : list Z) (y x r : nat) : Prop :=
  forall b j c, d !! y = Some b -> (x <= j < r)%nat -> d !! j = Some c -> le asc b c.

Definition ext (asc : bool) (d : list Z) (l r : nat) : I (Z * nat) := if asc then MinRange d l r else MaxRange d l r.

Lemma Range_loop_spec k : forall (asc : bool) d l v i n, (l + k <= length d)%nat -> (n <= i < l)%nat -> d !! i = Some v ->
  (forall j c, (n <= j < l)%nat -> d !! j = Some c -> le asc v c) ->
  exists v' i', (if asc then MinRange_loop k d l v i else MaxRange_loop k d l v i) = Ok (v', i') /\
    (n <= i' < l + k)%nat /\ best asc d i' n (l + k).
Proof.
  induction k as [|k IH]; intros asc d l v i n Hlen Hi Hv Hb.
  { exists v, i. rewrite Nat.add_0_r. split; [by destruct asc|]. split; [lia|].
    intros b j c Hib Hj Hc. assert (b = v) as -> by congruence. by apply (Hb j). }
  destruct (lookup_lt_is_Some_2 d l) as [w Hw]; [lia|].
  assert (Hstep : (if asc then MinRange_loop (S k) d l v i else MaxRange_loop (S k) d l v i)
    = (if (if asc then w <=? v else v <=? w)
       then (if asc then MinRange_loop k d (S l) w l else MaxRange_loop k d (S l) w l)
       else (if asc then MinRange_loop k d (S l) v i else MaxRange_loop k d (S l) v i))).
  { destruct asc; cbn [MinRange_loop MaxRange_loop]; rewrite (get_at_Some _ _ _ Hw); cbn [mbind outcome_bind];
      [by destruct (w <=? v)|by destruct (v <=? w)]. }
  rewrite Hstep, <- Nat.add_succ_comm. destruct (if asc then w <=? v else v <=? w) eqn:E.
  - apply le_test in E. apply IH; [lia|lia|done|]. intros j c Hj Hc. destruct (decide (j = l)) as [->|Hne].
    + assert (c = w) as -> by congruence. apply le_refl.
    + eapply le_trans; [exact E|]. apply (Hb j); [lia|done].
  - apply le_total in E. apply IH; [lia|lia|done|]. intros j c Hj Hc. destruct (decide (j = l)) as [->|Hne].
    + by assert (c = w) as -> by congruence.
    + apply (Hb j); [lia|done].
Qed.

Lemma ext_spec asc d l r : (l < r <= length d)%nat ->
  exists v i, ext asc d l r = Ok (v, i) /\ (l <= i < r)%nat /\ best asc d i l r.
Proof.
  intros Hr. destruct (lookup_lt_is_Some_2 d l) as [v Hv]; [lia|]. unfold ext, MinRange, MaxRange.
  rewrite (get_at_Some _ _ _ Hv). cbn [mbind outcome_bind].
  destruct (Range_loop_spec (r - S l) asc d (S l) v l l) as (v' & i & H & Hi & Hbest); [lia|lia|done| |].
  - intros j c Hj Hc. assert (j = l) as -> by lia. assert (c = v) as -> by congruence. apply le_refl.
  - replace (S l + (r - S l))%nat with r in * by lia. exists v', i. by destruct asc.
Qed.

(** [minY] moves [x] over the places that are settled and finds the next extremum. *)
Lemma minY_spec k : forall asc d x y r, (x + k = r)%nat -> (r <= length d)%nat ->
  exists x' y', minY k asc d x y r = Ok (x', y') /\ (x <= x' <= r)%nat /\ settled asc x x' r d /\
    (x' = r \/ (x' < y' < r)%nat /\ best asc d y' x' r).
Proof.
  induction k as [|k IH]; intros asc d x y r Hk Hr; cbn [minY].
  { exists x, y. split_and!; [done|lia|lia|intros i Hi; lia|left; lia]. }
  destruct (ext_spec asc d x r) as (v & i & Hext & Hi & Hbest); [lia|]. unfold ext in Hext. rewrite Hext.
  cbn [mbind outcome_bind snd]. destruct (decide (i = x)) as [->|Hne].
  - destruct (IH asc d (S x) x r) as (x' & y' & H & Hx' & Hset & Hor); [lia|done|].
    exists x', y'. split_and!; [done|lia|lia| |done]. intros j Hj. destruct (decide (j = x)) as [->|Hne].
    + intros a n b Ha Hn Hb. by apply (Hbest a n b).
    + apply Hset. lia.
  - exists x, i. split_and!; [done|lia|lia|intros j Hj; lia|]. right. split; [lia|done].
Qed.

Lemma moveY_spec asc d x y r : (x < length d)%nat -> (y < r <= length d)%nat ->
  exists e, moveY asc d x y r = Ok e /\ (y < e <= r)%nat.
Proof.
  intros Hx Hy. unfold moveY.
  assert (H : forall k e, (e + k = r)%nat -> exists e', moveY_loop k asc d x y e = Ok e' /\ (e <= e' <= r)%nat).
  { induction k as [|k IH]; intros e He; cbn [moveY_loop]; [exists e; split; [done|lia]|].
    destruct (lookup_lt_is_Some_2 d e) as [v Hv]; [lia|]. destruct (lookup_lt_is_Some_2 d x) as [w Hw]; [lia|].
    destruct (lookup_lt_is_Some_2 d y) as [u Hu]; [lia|].
    rewrite (get_at_Some _ _ _ Hv), (get_at_Some _ _ _ Hw), (get_at_Some _ _ _ Hu). cbn [mbind outcome_bind].
    destruct (if asc then w <=? v else v <=? w); [exists e; split; [done|lia]|].
    destruct (if asc then v <? u else u <? v); [exists e; split; [done|lia]|].
    destruct (IH (S e)) as (e' & -> & He'); [lia|]. exists e'. split; [done|lia]. }
  destruct (H (r - S y)%nat (S y)) as (e & -> & He); [lia|]. exists e. split; [done|lia].
Qed.

(** The exchange brings the value at [y] to [x]. *)
Lemma inplaceMultiswap_spec k : forall s x y r, paired s -> (x < y)%nat -> (y + k <= r)%nat -> (r <= length s.1)%nat ->
  exists s', inplaceMultiswap k s x y = Ok s' /\ seg x r s s' /\ ((0 < k)%nat -> s'.1 !! x = s.1 !! y).
Proof.
  induction k as [|k IH]; intros s x y r Hp Hxy Hk Hr; cbn [inplaceMultiswap].
  { exists s. split; [done|]. split; [by apply seg_refl|lia]. }
  destruct (lookup_lt_is_Some_2 s.1 x) as [a Ha]; [lia|]. destruct (lookup_lt_is_Some_2 s.1 y) as [b Hb]; [lia|].
  destruct (swap_both_spec s x y x r a b Hp) as (s1 & -> & Hseg & Hx1 & _ & _); try done; [lia..|]. cbn [mbind outcome_bind].
  pose proof (sg_len _ _ _ _ Hseg) as Hlen. destruct k as [|k].
  { exists s1. split; [done|]. split; [done|]. intros _. congruence. }
  destruct (lookup_lt_is_Some_2 s1.1 (S x)) as [a1 Ha1]; [lia|]. destruct (lookup_lt_is_Some_2 s1.1 (S y)) as [b1 Hb1]; [lia|].
  rewrite (get_at_Some _ _ _ Ha1), (get_at_Some _ _ _ Hb1). cbn [mbind outcome_bind].
  destruct (a1 <=? b1).
  { exists s1. split; [done|]. split; [done|]. intros _. congruence. }
  destruct (IH s1 (S x) (S y) r) as (s' & Hs' & Hseg' & _); [apply Hseg|lia..|]. exists s'. split; [done|].
  split; [eapply seg_trans; [done|]; eapply seg_weaken; [done|lia..]|]. intros _.
  rewrite (sg_out _ _ _ _ Hseg') by lia. congruence.
Qed.

(** Where the merge stands: [x] is at the end, or [y] after it holds the extremum
    of the rest, or both halves are as they were sorted, [y] at the second. *)
Definition merging (asc : bool) (c r : nat) (d : list Z) (x y : nat) : Prop :=
  x = r \/ (x < y < r)%nat /\ (best asc d y x r \/ (y = c /\ sorted asc x c d /\ sorted asc c r d)).

Lemma merging_best asc c r d x y a b : merging asc c r d x y -> x ≠ r -> d !! x = Some a -> d !! y = Some b ->
  (le asc a b -> min_at asc d x r) /\ (le asc b a -> best asc d y x r).
Proof.
  intros [->|[Hxy Hm]] Hne Ha Hb; [done|]. split; intros Hle.
  - intros a' j w Ha' Hj Hw. assert (a' = a) as -> by congruence. destruct Hm as [Hbest|(-> & S1 & S2)].
    + eapply le_trans; [exact Hle|]. by apply (Hbest b j).
    + destruct (decide (j < c)%nat); [apply (S1 x ltac:(lia) a j w Ha ltac:(lia) Hw)|].
      eapply le_trans; [exact Hle|]. apply (S2 c ltac:(lia) b j w Hb ltac:(lia) Hw).
  - destruct Hm as [Hbest|(-> & S1 & S2)]; [done|]. intros b' j w Hb' Hj Hw. assert (b' = b) as -> by congruence.
    destruct (decide (j < c)%nat); [|apply (S2 c ltac:(lia) b j w Hb ltac:(lia) Hw)].
    eapply le_trans; [exact Hle|]. apply (S1 x ltac:(lia) a j w Ha ltac:(lia) Hw).
Qed.

(** The rounds that are left. *)
Definition rounds (asc : bool) (d : list Z) (x y r : nat) : nat :=
  2 * (r - x) + match d !! x, d !! y with
                | Some a, Some b => if (if asc then a <=? b else b <=? a)%Z then 0 else 1
                | _, _ => 1
                end.

Lemma rounds_le asc d x y r : (rounds asc d x y r <= 2 * (r - x) + 1)%nat.
Proof. unfold rounds. repeat case_match; lia. Qed.

Lemma settled_app asc l x x' r d : settled asc l x r d -> settled asc x x' r d -> settled asc l x' r d.
Proof. intros H1 H2 i Hi. destruct (decide (i < x)%nat); [apply H1; lia|apply H2; lia]. Qed.

Lemma settled_S asc l x r d : settled asc l x r d -> min_at asc d x r -> settled asc l (S x) r d.
Proof. intros H Hm i Hi. destruct (decide (i = x)) as [->|Hne]; [done|]. apply H. lia. Qed.

Lemma inplaceMerge_spec fuel : forall asc s x y l c r, paired s -> (l <= x <= r)%nat -> (r <= length s.1)%nat ->
  settled asc l x r s.1 -> merging asc c r s.1 x y -> (rounds asc s.1 x y r < fuel)%nat ->
  exists s', inplaceMerge fuel asc s x y r = Ok s' /\ seg l r s s' /\ sorted asc l r s'.1.
Proof.
  induction fuel as [|fuel IH]; intros asc s x y l c r Hp Hx Hr Hset Hm Hf; [lia|]. cbn [inplaceMerge].
  case_decide as Hxy.
  2: { exists s. split; [done|]. split; [by apply seg_refl|]. assert (x = r) as -> by (destruct Hm; lia). exact Hset. }
  assert (Hyx : (x < y)%nat) by (destruct Hm; lia).
  destruct (lookup_lt_is_Some_2 s.1 x) as [a Ha]; [lia|]. destruct (lookup_lt_is_Some_2 s.1 y) as [b Hb]; [lia|].
  destruct (merging_best asc c r s.1 x y a b Hm ltac:(lia) Ha Hb) as [Hmin Hbest].
  assert (Hround : rounds asc s.1 x y r = (2 * (r - x) + if (if asc then a <=? b else b <=? a)%Z then 0 else 1)%nat)
    by (unfold rounds; by rewrite Ha, Hb).
  rewrite (get_at_Some _ _ _ Ha), (get_at_Some _ _ _ Hb). cbn [mbind outcome_bind].
  destruct (if asc then a <=? b else b <=? a) eqn:E; rewrite ?E in Hround.
  - apply le_test in E. specialize (Hmin E). pose proof (settled_S _ _ _ _ _ Hset Hmin) as Hset'. case_decide as Hys.
    + destruct (minY_spec (r - S x) asc s.1 (S x) y r) as (x' & y' & -> & Hx' & Hs' & Hor); [lia..|].
      cbn [mbind outcome_bind fst snd]. pose proof (rounds_le asc s.1 x' y' r).
      apply (IH asc s x' y' l c r); [done|lia|done|by eapply settled_app| |lia].
      destruct Hor as [->|[Hor1 Hor2]]; [by left|right; auto].
    + pose proof (rounds_le asc s.1 (S x) y r). apply (IH asc s (S x) y l c r); [done|lia|done|done| |lia].
      right. split; [lia|]. destruct Hm as [?|[_ [Hb'|(-> & S1 & S2)]]]; [lia|left|right].
      * intros b' j w Hb1 Hj Hw. apply (Hb' b' j w); [done|lia|done].
      * split; [done|]. split; [|done]. eapply sorted_weaken; [exact S1|lia..].
  - apply le_total in E as Hle. specialize (Hbest Hle).
    destruct (moveY_spec asc s.1 x y r) as (e & -> & He); [lia..|]. cbn [mbind outcome_bind].
    destruct (inplaceMultiswap_spec (e - y) s x y r) as (s1 & -> & Hseg & Hsw); [done|lia..|].
    specialize (Hsw ltac:(lia)). rewrite Hb in Hsw. cbn [mbind outcome_bind].
    pose proof (sg_len _ _ _ _ Hseg) as Hlen. pose proof (sg_paired _ _ _ _ Hseg) as Hp1.
    assert (Hall : forall j w, (x <= j < r)%nat -> s1.1 !! j = Some w -> le asc b w).
    { intros j w Hj Hw. destruct (seg_from x r s s1 j w Hp Hseg Hj Hw) as (i & Hi & Hwi). by apply (Hbest b i). }
    destruct (minY_spec (r - x) asc s1.1 x y r) as (x' & y' & -> & Hx' & Hs' & Hor); [lia..|].
    cbn [mbind outcome_bind fst snd].
    destruct (IH asc s1 x' y' l c r) as (s' & Hok & Hseg' & Hsort); try done.
    + lia.
    + lia.
    + eapply settled_app; [|exact Hs']. eapply settled_seg; [exact Hp|done|done].
    + destruct Hor as [->|[Hor1 Hor2]]; [by left|right; auto].
    + destruct (decide (x' = x)) as [->|Hne].
      * destruct Hor as [->|[Hor1 Hor2]]; [lia|]. destruct (lookup_lt_is_Some_2 s1.1 y') as [b' Hb']; [lia|].
        unfold rounds. rewrite Hsw, Hb'.
        assert (Ht : (if asc then b <=? b' else b' <=? b) = true) by (apply le_test, (Hall y'); [lia|done]).
        rewrite Ht. lia.
      * pose proof (rounds_le asc s1.1 x' y' r). lia.
    + exists s'. split; [done|]. split; [|done]. eapply seg_trans; [|done]. eapply seg_weaken; [done|lia..].
Qed.

(** ** Merge sort *)

Lemma InplaceMergesort_spec fuel : forall asc s l r, paired s -> (l <= r <= length s.1)%nat -> (r - l < fuel)%nat ->
  exists s', InplaceMergesort fuel asc s l r = Ok s' /\ seg l r s s' /\ sorted asc l r s'.1.
Proof.
  induction fuel as [|fuel IH]; intros asc s l r Hp Hr Hf; [lia|]. cbn [InplaceMergesort].
  case_decide as Hsmall; [by apply InplaceInsertionSort_spec|].
  set (c := ((r + l) / 2 + (r + l) mod 2)%nat). assert (Hc : (l < c < r)%nat).
  { unfold c. pose proof (Nat.div_mod (r + l) 2 ltac:(lia)). pose proof (Nat.mod_upper_bound (r + l) 2 ltac:(lia)). lia. }
  destruct (IH asc s l c Hp) as (s1 & -> & Hseg1 & Hsort1); [lia..|]. cbn [mbind outcome_bind].
  pose proof (sg_paired _ _ _ _ Hseg1) as Hp1. pose proof (sg_len _ _ _ _ Hseg1) as Hlen1.
  destruct (IH asc s1 c r Hp1) as (s2 & -> & Hseg2 & Hsort2); [lia..|]. cbn [mbind outcome_bind].
  pose proof (sg_paired _ _ _ _ Hseg2) as Hp2. pose proof (sg_len _ _ _ _ Hseg2) as Hlen2.
  assert (Hseg : seg l r s s2).
  { eapply seg_trans; [eapply seg_weaken; [exact Hseg1|lia..]|eapply seg_weaken; [exact Hseg2|lia..]]. }
  assert (Hleft : sorted asc l c s2.1).
  { intros i Hi a j b Ha Hj Hb. rewrite (sg_out _ _ _ _ Hseg2) in Ha by lia. rewrite (sg_out _ _ _ _ Hseg2) in Hb by lia.
    by apply (Hsort1 i Hi a j b). }
  destruct (lookup_lt_is_Some_2 s2.1 (c - 1)) as [a Ha]; [lia|]. destruct (lookup_lt_is_Some_2 s2.1 c) as [b Hb]; [lia|].
  rewrite (get_at_Some _ _ _ Ha), (get_at_Some _ _ _ Hb). cbn [mbind outcome_bind].
  destruct (if asc then a <=? b else b <=? a) eqn:E.
  - apply le_test in E. exists s2. split; [done|]. split; [done|]. intros i Hi v j w Hv Hj Hw.
    destruct (decide (c <= i)%nat); [by apply (Hsort2 i ltac:(lia) v j w)|].
    destruct (decide (j < c)%nat); [apply (Hleft i ltac:(lia) v j w Hv ltac:(lia) Hw)|].
    eapply le_trans; [apply (Hleft i ltac:(lia) v (c - 1)%nat a Hv ltac:(lia) Ha)|].
    eapply le_trans; [exact E|]. apply (Hsort2 c ltac:(lia) b j w Hb ltac:(lia) Hw).
  - destruct (inplaceMerge_spec (merge_fuel l r) asc s2 l c l c r) as (s' & -> & Hseg' & Hsort'); try done.
    + lia.
    + lia.
    + intros i Hi. lia.
    + right. split; [lia|]. right. done.
    + pose proof (rounds_le asc s2.1 l c r). unfold merge_fuel. lia.
    + exists s'. split; [done|]. split; [by eapply seg_trans|done].
Qed.

Lemma SortByIndex_loop_spec d ids : forall pre rest, Forall (fun i => (i < length d)%nat) ids -> length rest = length ids ->
  exists new, SortByIndex_loop d (pre ++ rest) (length pre) ids = Ok (pre ++ new) /\ length new = length ids /\
    forall x i, ids !! x = Some i -> new !! x = d !! i.
Proof.
  induction ids as [|i ids IH]; intros pre rest Hok Hlen; cbn [SortByIndex_loop].
  { destruct rest; [|done]. exists []. split; [done|]. split; [done|]. intros x i Hi. done. }
  apply Forall_cons in Hok as [Hi Hok]. destruct (lookup_lt_is_Some_2 d i Hi) as [v Hv].
  rewrite (get_at_Some _ _ _ Hv). cbn [mbind outcome_bind]. destruct rest as [|w rest]; [done|].
  rewrite set_at_app by done. cbn [mbind outcome_bind].
  destruct (IH (pre ++ [v]) rest Hok) as (new & Hnew & Hl & Hx); [cbn in Hlen; lia|].
  rewrite length_app, Nat.add_1_r, <- !(assoc_L (++)) in Hnew. exists (v :: new). cbn in Hnew |- *.
  split; [done|]. split; [cbn; lia|]. intros [|x] j Hj; cbn in Hj |- *; [congruence|by apply Hx].
Qed.

(** C37: sorting always ends without a panic.  The values come out in the order
    that was asked for, ascending or descending, the indices are a permutation
    of those of the slice, each value is the one that stood at its index in the
    unsorted slice, and arranging the unsorted slice by these indices gives the
    sorted one. *)
Theorem IndirectSort_spec d asc : exists d' ids,
  IndirectSort d asc = Ok (d', ids) /\ sorted asc 0 (length d) d' /\ d' ≡ₚ d /\
  ids ≡ₚ seq 0 (length d) /\ (forall x i, ids !! x = Some i -> d' !! x = d !! i) /\ SortByIndex d ids = Ok d'.
Proof.
  assert (Hp : paired (d, seq 0 (length d))) by (unfold paired; cbn; by rewrite length_seq).
  destruct (InplaceMergesort_spec (S (length d)) asc _ 0 (length d) Hp) as ([d' ids] & Hok & Hseg & Hsort); [cbn; lia..|].
  destruct Hseg as [Hp' Hlen _ Hperm]. unfold paired in Hp'. cbn [fst snd] in *.
  pose proof (length_seq (length d) 0) as Hls.
  assert (Hd : d' ≡ₚ d).
  { assert (Hf : (zip d' ids).*1 ≡ₚ (zip d (seq 0 (length d))).*1) by (by rewrite Hperm). by rewrite !fst_zip in Hf by lia. }
  assert (Hi : ids ≡ₚ seq 0 (length d)).
  { assert (Hf : (zip d' ids).*2 ≡ₚ (zip d (seq 0 (length d))).*2) by (by rewrite Hperm). by rewrite !snd_zip in Hf by lia. }
  assert (Hat : forall x i, ids !! x = Some i -> d' !! x = d !! i).
  { intros x i Hx. destruct (lookup_lt_is_Some_2 d' x) as [v Hv]; [apply lookup_lt_Some in Hx; lia|].
    assert (Hin : (v, i) ∈ zip d (seq 0 (length d))).
    { rewrite <- Hperm. apply list_elem_of_lookup. exists x. apply lookup_zip_with_Some. by exists v, i. }
    apply list_elem_of_lookup in Hin as [k Hk]. apply lookup_zip_with_Some in Hk as (v' & i' & [= <- <-] & Hk1 & Hk2).
    apply lookup_seq in Hk2 as [-> _]. cbn. congruence. }
  exists d', ids. split; [done|]. split; [done|]. split; [done|]. split; [done|]. split; [done|].
  destruct (SortByIndex_loop_spec d ids [] (replicate (length d) 0)) as (new & Hnew & Hl & Hx).
  - apply Forall_forall. intros i Hin. rewrite Hi in Hin. apply elem_of_seq in Hin. lia.
  - rewrite length_replicate. lia.
  - unfold SortByIndex. cbn in Hnew. rewrite Hnew. f_equal. apply list_eq. intros x.
    destruct (ids !! x) as [i|] eqn:E; [by rewrite (Hx x i E), (Hat x i E)|].
    apply lookup_ge_None in E. rewrite !lookup_ge_None_2 by lia. done.
Qed.

(** ** The copies for 64-bit integers

    Beside the names, [lib/ints64] differs from [lib/ints] in [IndirectSort],
    which returns before it makes the slice of indices when there is no data;
    a nil and an empty slice are one value here. *)

Definition ints64_Count : list Z -> Z -> nat := Count.
Definition ints64_Counts : list Z -> list Z -> list Z := Counts.
Definition ints64_IsExist : list Z -> Z -> bool := IsExist.
Definition ints64_Max : list Z -> Z * nat * bool := Max.
Definition ints64_Min : list Z -> Z * nat * bool := Min.
Definition ints64_MaxCountOf : list Z -> list Z -> I (Z * bool) := MaxCountOf.
Definition ints64_MaxRange : list Z -> nat -> nat -> I (Z * nat) := MaxRange.
Definition ints64_MinRange : list Z -> nat -> nat -> I (Z * nat) := MinRange.
Definition ints64_SortByIndex : list Z -> list nat -> I (list Z) := SortByIndex.
Definition ints64_Sum : list Z -> Z := Sum.
Definition ints64_Swap : list Z -> nat -> nat -> I (list Z) := Swap.
Definition InsertionSortWithIndices : bool -> state -> nat -> nat -> I state := InplaceInsertionSort.
Definition ints64_InplaceMergesort : nat -> bool -> state -> nat -> nat -> I state := InplaceMergesort.
Definition ints64_IndirectSort (d : list Z) (asc : bool) : I state :=
  match d with
  | [] => Ok ([], [])
  | _ => InplaceMergesort (S (length d)) asc (d, seq 0 (length d)) 0 (length d)
  end.
Definition ints64_inplaceMerge : nat -> bool -> state -> nat -> nat -> nat -> I state := inplaceMerge.
Definition multiswap : nat -> state -> nat -> nat -> I state := inplaceMultiswap.
Definition ints64_minY : nat -> bool -> list Z -> nat -> nat -> nat -> I (nat * nat) := minY.
Definition ints64_moveY : bool -> list Z -> nat -> nat -> nat -> I nat := moveY.
