(* ===== verification/MemFS.v ===== *)
(** Package [lib/memfs]: a directory of the file system as a tree of nodes in memory.

    Nodes are pointers that the map of paths and the lists of children share, so they
    live in a heap.  The file system is a tree of entries that can be read without an
    error; symbolic links are left out.  The time of a file, which nothing depends on,
    is left out too, and so are development mode and generated nodes. *)

From Stdlib Require Import ZArith Lia.
From stdpp Require Import sorting.
From S2P Require Import Prelude Utf8 Ints Bytes GoPath.

Local Open Scope Z_scope.

(** ** The file system *)

Inductive entry : Type :=
| FileEntry (name : list Z) (content : list Z)
| DirEntry (name : list Z) (entries : list entry).
Definition entry_name (e : entry) : list Z := match e with FileEntry n _ | DirEntry n _ => n end.
Definition entry_is_dir (e : entry) : bool := match e with FileEntry _ _ => false | DirEntry _ _ => true end.

(** ** Nodes *)

Record Node : Type := mkNode {
  SysPath : list Z; Path : list Z; name : list Z; ContentType : list Z; ContentEncoding : list Z;
  is_dir : bool; size : Z; V : list Z; Parent : option nat; Childs : list nat;
  plainv : list Z; lowerv : list Z; off : Z
}.
Definition set_Childs (n : Node) v := mkNode (SysPath n) (Path n) (name n) (ContentType n) (ContentEncoding n) (is_dir n) (size n) (V n) (Parent n) v (plainv n) (lowerv n) (off n).
Definition set_Parent (n : Node) v := mkNode (SysPath n) (Path n) (name n) (ContentType n) (ContentEncoding n) (is_dir n) (size n) (V n) v (Childs n) (plainv n) (lowerv n) (off n).
Definition set_off (n : Node) v := mkNode (SysPath n) (Path n) (name n) (ContentType n) (ContentEncoding n) (is_dir n) (size n) (V n) (Parent n) (Childs n) (plainv n) (lowerv n) v.
Definition set_texts (n : Node) p l := mkNode (SysPath n) (Path n) (name n) (ContentType n) (ContentEncoding n) (is_dir n) (size n) (V n) (Parent n) (Childs n) p l (off n).

(** [MaxFileSize]. *)
Definition MaxFileSize : Z := 1024 * 1024 * 5.

(** The configuration: the expressions, and whether contents are kept. *)
Record config : Type := mkConfig { incRE : list (list Z -> bool); excRE : list (list Z -> bool); withContent : bool }.

(** The heap, the map of paths, and the root. *)
Record MemFS : Type := mkFS { nodes : gmap nat Node; pn : gmap (list Z) nat; root : nat }.
Definition set_nodes (m : MemFS) v := mkFS v (pn m) (root m).
Definition set_pn (m : MemFS) v := mkFS (nodes m) v (root m).
Definition upd (m : MemFS) (a : nat) (f : Node -> Node) : MemFS := set_nodes m (alter f a (nodes m)).

Section MemFS.
(** The types of files that the system knows by their extension, and
    [http.DetectContentType]. *)
Context (TypeByExtension DetectContentType : list Z -> list Z).
Context (cfg : config).

(** [updateContent]: a file that is too big is not read. *)
Definition updateContent (content : list Z) : list Z :=
  if MaxFileSize <? Z.of_nat (length content) then [] else content.
(** [updateContentType]: none where the file cannot be read, which an empty one
    cannot. *)
Definition updateContentType (name v content : list Z) : option (list Z) :=
  match TypeByExtension (Ext name) with
  | [] =>
      match v with
      | [] =>
          match content with
          | [] => None
          | _ => Some (DetectContentType (take 512 (content ++ replicate 512 0)))
          end
      | _ => Some (DetectContentType v)
      end
  | t => Some t
  end.

(** [NewNode], of an entry in a directory. *)
Definition NewNode (parent : nat) (p : Node) (e : entry) : option Node :=
  let n := mkNode (Join (SysPath p) (entry_name e)) (Join (Path p) (entry_name e)) (entry_name e) [] []
             (entry_is_dir e) 0 [] (Some parent) [] [] [] 0 in
  match e with
  | DirEntry _ _ => Some n
  | FileEntry nm content =>
      if negb (withContent cfg) then Some n
      else
        let v := updateContent content in
        t ← updateContentType nm v content;
        Some (mkNode (SysPath n) (Path n) nm t [] false (Z.of_nat (length content)) v (Some parent) [] [] [] 0)
  end.

(** [isIncluded]. *)
Definition isIncluded (sysPath : list Z) (isDir : bool) : bool :=
  match incRE cfg, excRE cfg with
  | [], [] => true
  | _, _ =>
      if existsb (fun re => re sysPath) (excRE cfg) then false
      else
        match incRE cfg with
        | [] => true
        | _ => if existsb (fun re => re sysPath) (incRE cfg) then true else isDir
        end
  end.

(** [AddChild] and [addChild]: the new node, if there is one. *)
Definition AddChild (m : MemFS) (parent : nat) (e : entry) : MemFS * option nat :=
  match nodes m !! parent with
  | None => (m, None)
  | Some p =>
      if negb (isIncluded (Join (SysPath p) (entry_name e)) (entry_is_dir e)) then (m, None)
      else
        match NewNode parent p e with
        | None => (m, None)
        | Some n =>
            let a := base.fresh (dom (nodes m)) in
            let m := upd (set_nodes m (<[a := n]> (nodes m))) parent (fun p => set_Childs p (Childs p ++ [a])) in
            (set_pn m (<[Path n := a]> (pn m)), Some a)
        end
  end.

(** [scanDir], of an entry and what is under it. *)
Fixpoint scan (e : entry) (m : MemFS) (parent : nat) : MemFS :=
  match AddChild m parent e with
  | (m, None) => m
  | (m, Some a) =>
      match e with
      | FileEntry _ _ => m
      | DirEntry _ es => fold_left (fun m e => scan e m a) es m
      end
  end.
Definition scanDir (m : MemFS) (parent : nat) (es : list entry) : MemFS := fold_left (fun m e => scan e m parent) es m.

(** [removeChild]: whether the child was there. *)
Definition removeChild (m : MemFS) (parent child : nat) : MemFS * bool :=
  match nodes m !! parent with
  | None => (m, false)
  | Some p =>
      match list_find (fun c => c = child) (Childs p) with
      | None => (m, false)
      | Some (x, _) =>
          let m := upd m parent (fun p => set_Childs p (take x (Childs p) ++ drop (S x) (Childs p))) in
          (upd m child (fun c => set_Childs (set_Parent c None) []), true)
      end
  end.
Definition RemoveChild (m : MemFS) (parent child : nat) : MemFS * bool :=
  match removeChild m parent child with
  | (m', true) => (match nodes m !! child with Some c => set_pn m' (delete (Path c) (pn m')) | None => m' end, true)
  | r => r
  end.

(** [pruneEmptyDirs], with the order in which the map is walked. *)
Definition prune_one (m : MemFS) (k : list Z) : MemFS :=
  match pn m !! k with
  | None => m
  | Some a =>
      match nodes m !! a with
      | Some n =>
          if negb (is_dir n) then m
          else
            match Childs n, Parent n with
            | [], Some p => let m := (removeChild m p a).1 in set_pn m (delete k (pn m))
            | _, _ => m
            end
      | None => m
      end
  end.
Definition pruneEmptyDirs (m : MemFS) (order : list (list Z)) : MemFS := fold_left prune_one order m.

(** [createRoot] and [Mount], on a directory of some size; the order is that of the walk of the map. *)
Definition createRoot (dir : list Z) (dirSize : Z) : MemFS :=
  mkFS {[ 0%nat := mkNode dir [slash] [slash] [] [] true dirSize [] None [] [] [] 0 ]} {[ [slash] := 0%nat ]} 0.
Definition Mount (dir : list Z) (dirSize : Z) (es : list entry) (order : MemFS -> list (list Z)) : MemFS :=
  let m := scanDir (createRoot dir dirSize) 0 es in
  if withContent cfg then pruneEmptyDirs m (order m) else m.

End MemFS.

(** [Get]: none is [os.ErrNotExist]. *)
Definition Get (m : MemFS) (path : list Z) : option (nat * Node) := a ← pn m !! path; n ← nodes m !! a; Some (a, n).

(** ** A node as a file *)

Inductive whence : Type := SeekStart | SeekCurrent | SeekEnd | other_whence.
(** [Read] into a buffer of [k] bytes: what is read; none is [io.EOF]. *)
Definition Read (n : Node) (k : nat) : outcome unit (option (list Z) * Node) :=
  if decide (k = 0)%nat then Ok (Some [], n)
  else if size n <=? off n then Ok (None, n)
  else
    v ← slice (V n) (Z.to_nat (off n)) (length (V n));
    let got := take k v in Ok (Some got, set_off n (off n + Z.of_nat (length got))).
(** [Seek]: the offset, or an error. *)
Definition Seek (n : Node) (offset : Z) (w : whence) : option Z * Node :=
  match w with
  | other_whence => (None, n)
  | _ =>
      let offset := s64 (match w with SeekCurrent => offset + off n | SeekEnd => offset + size n | _ => offset end) in
      if offset <? 0 then (None, n) else (Some offset, set_off n offset)
  end.
Definition node_Close (n : Node) : Node := set_off n 0.
(** [Readdir]: the children. *)
Definition Readdir (n : Node) (count : Z) : list nat * Node :=
  let len := Z.of_nat (length (Childs n)) in
  if negb (is_dir n) then ([], n)
  else if (count <=? 0) || (len <=? count) then (Childs n, set_off n 0)
  else if len <=? off n then ([], n)
  else
    let upto := Z.min (count + off n) len in
    (take (Z.to_nat (upto - off n)) (drop (Z.to_nat (off n)) (Childs n)), set_off n upto).

(** ** [ContentEncode] and [Search] *)

Definition EncodingGzip : list Z := str "gzip".
Definition set_encoded (n : Node) (v : list Z) : Node :=
  mkNode (SysPath n) (Path n) (name n) (ContentType n) EncodingGzip (is_dir n) (Z.of_nat (length v)) v (Parent n) (Childs n) (plainv n) (lowerv n) (off n).

Section Texts.
Context `{Unicode}.
(** The packages [compress/gzip] and, with the tokenizer that it is built on,
    [sanitize]. *)
Context (gzip : list Z -> list Z) (gunzip : list Z -> option (list Z)) (sanitize_HTML : list Z -> list Z).

(** [ContentEncode], with the order of the walk of the map; none is an error. *)
Definition encode_one (m : MemFS) (k : list Z) : MemFS :=
  match pn m !! k with
  | Some a => upd m a (fun n => if is_dir n || isnil (V n) then n else set_encoded n (gzip (V n)))
  | None => m
  end.
Definition ContentEncode (m : MemFS) (encoding : list Z) (order : list (list Z)) : option MemFS :=
  if bool_decide (text_ToLower encoding = EncodingGzip) then Some (fold_left encode_one order m) else None.

(** [Decode]. *)
Definition Decode (n : Node) : option (list Z) :=
  match ContentEncoding n with
  | [] => Some (V n)
  | e => if bool_decide (e = EncodingGzip) then gunzip (V n) else Some []
  end.

Record SearchResult : Type := mkResult { r_path : list Z; r_snippets : list (list Z) }.
Definition has_prefix (p s : list Z) : bool := bool_decide (take (length p) s = p).
(** The texts of a node, which are kept once they are made. *)
Definition prepare (n : Node) : option Node :=
  match lowerv n with
  | [] =>
      plain ← Decode n;
      let plain := if has_prefix (str "text/html") (ContentType n) then sanitize_HTML plain else plain in
      Some (set_texts n plain (text_ToLower plain))
  | _ => Some n
  end.
(** One node: the node, and what is found in it. *)
Definition search_node (tokens : list (list Z)) (snippetLen : Z) (n : Node) : outcome unit (Node * option SearchResult) :=
  if is_dir n || negb (has_prefix (str "text/") (ContentType n)) then Ok (n, None)
  else
    match prepare n with
    | None => Ok (n, None)
    | Some n =>
        match concat ((fun t => Z.of_nat <$> WordIndexes (lowerv n) t) <$> tokens) with
        | [] => Ok (n, None)
        | found =>
            snippets ← SnippetByIndexes (lowerv n) (MergeByDistance found [] snippetLen) snippetLen;
            Ok (n, Some (mkResult (Path n) snippets))
        end
    end.
Fixpoint search_all (m : MemFS) (tokens : list (list Z)) (snippetLen : Z) (order : list (list Z)) : outcome unit (MemFS * list SearchResult) :=
  match order with
  | [] => Ok (m, [])
  | k :: order =>
      match pn m !! k ≫= (fun a => (fun n => (a, n)) <$> nodes m !! a) with
      | None => search_all m tokens snippetLen order
      | Some (a, n) =>
          '(n, r) ← search_node tokens snippetLen n;
          '(m, rs) ← search_all (set_nodes m (<[a := n]> (nodes m))) tokens snippetLen order;
          Ok (m, match r with Some r => r :: rs | None => rs end)
      end
  end.
Definition Search (m : MemFS) (words : list (list Z)) (snippetLen : Z) (order : list (list Z)) : outcome unit (MemFS * list SearchResult) :=
  match words with
  | [] => Ok (m, [])
  | _ => search_all m (text_ToLower <$> words) (if snippetLen <=? 0 then 60 else snippetLen) order
  end.
End Texts.

(** [ListNames]: the paths in the order of their bytes. *)
Fixpoint bytes_le (a b : list Z) : bool :=
  match a, b with
  | [], _ => true
  | _, [] => false
  | x :: a, y :: b => (x <? y) || ((x =? y) && bytes_le a b)
  end.
Definition bytes_leq (a b : list Z) : Prop := bytes_le a b = true.
#[export] Instance bytes_leq_dec : RelDecision bytes_leq.
Proof. intros a b. unfold bytes_leq. apply _. Defined.
Definition ListNames (m : MemFS) : list (list Z) := merge_sort bytes_leq (map_to_list (pn m)).*1.
