(* ===== verification/MemFSFacts.v ===== *)
(** Proofs on [MemFS]: after [Mount] every file that is included is found under its
    path, with its content, and nothing else is. *)

From Stdlib Require Import ZArith Lia.
From S2P Require Import Prelude Utf8 GoPath MemFS.

Local Open Scope Z_scope.

(** ** Trees of entries *)

Lemma entry_rect' (P : entry -> Prop) :
  (forall n c, P (FileEntry n c)) -> (forall n es, Forall P es -> P (DirEntry n es)) -> forall e, P e.
Proof.
  intros Hf Hd. fix IH 1. intros [n c|n es]; [apply Hf|]. apply Hd. induction es as [|e es IHes]; constructor; [apply IH|exact IHes].
Qed.

(** The names are simple, and no two entries of a directory have the same one. *)
Fixpoint proper (e : entry) : Prop :=
  simple (entry_name e) /\
  match e with
  | FileEntry _ _ => True
  | DirEntry _ es => NoDup (entry_name <$> es) /\ foldr (fun e P => proper e /\ P) True es
  end.

Lemma proper_dir n es : proper (DirEntry n es) <-> simple n /\ NoDup (entry_name <$> es) /\ Forall proper es.
Proof.
  cbn [proper entry_name]. assert (H : foldr (fun e P => proper e /\ P) True es <-> Forall proper es); [|by rewrite H].
  induction es as [|e es IH]; cbn; [done|]. by rewrite Forall_cons, IH.
Qed.

Section Mount.
Context (TypeByExtension DetectContentType : list Z -> list Z) (cfg : config).
Abbreviation AddChild := (AddChild TypeByExtension DetectContentType cfg).
Abbreviation scan := (scan TypeByExtension DetectContentType cfg).
Abbreviation scanDir := (scanDir TypeByExtension DetectContentType cfg).
Abbreviation NewNode := (NewNode TypeByExtension DetectContentType cfg).

(** ** The files that are to be found

    A file: the segments of its path, its type, its size and what is kept of it. *)
Definition file : Type := list (list Z) * list Z * Z * list Z.
Fixpoint listed (sys : list Z) (d : list (list Z)) (e : entry) : list file :=
  if negb (isIncluded cfg (Join sys (entry_name e)) (entry_is_dir e)) then []
  else
    match e with
    | FileEntry nm content =>
        if negb (withContent cfg) then [(d ++ [nm], [], 0, [])]
        else
          match updateContentType TypeByExtension DetectContentType nm (updateContent content) content with
          | Some t => [(d ++ [nm], t, Z.of_nat (length content), updateContent content)]
          | None => []
          end
    | DirEntry nm es => concat (listed (Join sys nm) (d ++ [nm]) <$> es)
    end.

Definition found (m : MemFS) (f : file) : Prop :=
  let '(segs, t, sz, v) := f in
  exists a n, pn m !! abs segs = Some a /\ nodes m !! a = Some n /\
    Path n = abs segs /\ is_dir n = false /\ ContentType n = t /\ size n = sz /\ V n = v /\ ContentEncoding n = [].

(** What no step changes of a node. *)
Definition facts (n : Node) := (SysPath n, Path n, is_dir n, ContentType n, size n, V n, ContentEncoding n).
Definition keeps (m m' : MemFS) : Prop :=
  forall a n, nodes m !! a = Some n -> exists n', nodes m' !! a = Some n' /\ facts n' = facts n.
(** The paths under an entry of a directory. *)
Definition under (d : list (list Z)) (nm : list Z) (k : list Z) : Prop :=
  exists rest, Forall simple rest /\ k = abs (d ++ nm :: rest).

Lemma keeps_refl m : keeps m m.
Proof. intros a n H. by exists n. Qed.
Lemma keeps_trans m1 m2 m3 : keeps m1 m2 -> keeps m2 m3 -> keeps m1 m3.
Proof.
  intros H1 H2 a n Ha. destruct (H1 a n Ha) as (n' & Ha' & Hf). destruct (H2 a n' Ha') as (n'' & Ha'' & Hf').
  exists n''. split; [done|congruence].
Qed.

Lemma found_keeps m m' f : keeps m m' -> pn m' !! abs f.1.1.1 = pn m !! abs f.1.1.1 -> found m f -> found m' f.
Proof.
  destruct f as [[[segs t] sz] v]. cbn. intros Hk Hp (a & n & Ha & Hn & H1 & H2 & H3 & H4 & H5 & H6).
  destruct (Hk a n Hn) as (n' & Hn' & [= _ F1 F2 F3 F4 F5 F6]). exists a, n'. rewrite Hp. split_and!; congruence.
Qed.

Lemma under_names d nm nm' k : Forall simple d -> simple nm -> simple nm' -> under d nm k -> under d nm' k -> nm = nm'.
Proof.
  intros Hd Hn Hn' (r & Hr & ->) (r' & Hr' & H). apply abs_inj in H; [|apply Forall_app; split; [done|by constructor]..].
  apply app_inv_head in H. by injection H.
Qed.

Lemma under_deeper d nm nm' k : simple nm' -> under (d ++ [nm]) nm' k -> under d nm k.
Proof. intros Hn (r & Hr & ->). exists (nm' :: r). rewrite <- (assoc_L (++)). split; [by constructor|done]. Qed.

(** ** One entry *)

Lemma upd_lookup m a f b : nodes (upd m a f) !! b = if decide (a = b) then f <$> nodes m !! a else nodes m !! b.
Proof. cbn. case_decide as H; [by subst; rewrite lookup_alter_eq|by rewrite lookup_alter_ne]. Qed.

Lemma AddChild_spec m parent p d e : nodes m !! parent = Some p -> Path p = abs d -> Forall simple d -> simple (entry_name e) ->
  match AddChild m parent e with
  | (m', None) => m' = m /\ listed (SysPath p) d e = []
  | (m', Some a) =>
      keeps m m' /\ nodes m !! a = None /\
      isIncluded cfg (Join (SysPath p) (entry_name e)) (entry_is_dir e) = true /\
      pn m' = <[abs (d ++ [entry_name e]) := a]> (pn m) /\
      exists n, nodes m' !! a = Some n /\ NewNode parent p e = Some n /\
        SysPath n = Join (SysPath p) (entry_name e) /\ Path n = abs (d ++ [entry_name e]) /\ is_dir n = entry_is_dir e
  end.
Proof.
  intros Hp Hpath Hd Hn. unfold MemFS.AddChild. rewrite Hp.
  destruct (isIncluded cfg _ _) eqn:Ei; cbn [negb]; [|split; [done|]; destruct e; cbn [listed entry_name entry_is_dir] in *; by rewrite Ei].
  destruct (NewNode parent p e) as [n|] eqn:En.
  - set (a := base.fresh (dom (nodes m))). assert (Ha : nodes m !! a = None) by (apply not_elem_of_dom, is_fresh).
    assert (Hpa : parent <> a) by (intros ->; congruence).
    assert (Hfields : SysPath n = Join (SysPath p) (entry_name e) /\ Path n = abs (d ++ [entry_name e]) /\ is_dir n = entry_is_dir e).
    { unfold MemFS.NewNode in En. destruct e as [nm c|nm es]; cbn [entry_name entry_is_dir] in *.
      - destruct (negb _); [injection En as <-|destruct (updateContentType _ _ _ _ _); [|done]; injection En as <-]; cbn; by rewrite Hpath, Join_abs.
      - injection En as <-. cbn. by rewrite Hpath, Join_abs. }
    destruct Hfields as (F1 & F2 & F3). split.
    { intros b nb Hb. cbn [set_pn nodes]. rewrite upd_lookup. cbn [nodes set_nodes].
      assert (b <> a) by (intros ->; congruence). case_decide as Hpb.
      - subst. rewrite lookup_insert_ne, Hb by done. cbn. by eexists.
      - rewrite lookup_insert_ne by done. by exists nb. }
    split; [done|]. split; [done|]. split; [cbn; by rewrite F2|]. exists n. split; [|done].
    cbn [set_pn nodes]. rewrite upd_lookup, decide_False by done. cbn. apply lookup_insert_eq.
  - split; [done|]. unfold MemFS.NewNode in En. destruct e as [nm c|nm es]; cbn [listed entry_name entry_is_dir] in *; [|done]. rewrite Ei. cbn [negb].
    destruct (negb (withContent cfg)); [done|]. by destruct (updateContentType _ _ _ _ _).
Qed.

(** ** The scan *)

(** No path leads nowhere. *)
Definition valid (m : MemFS) : Prop := forall k a, pn m !! k = Some a -> is_Some (nodes m !! a).

(** From [m] to [m'] the files [fs] were added, under the names [nms] of the directory. *)
Record added (m m' : MemFS) (d : list (list Z)) (nms : list (list Z)) (fs : list file) : Prop := {
  ad_keeps : keeps m m';
  ad_other k : (forall nm, nm ∈ nms -> ~ under d nm k) -> pn m' !! k = pn m !! k;
  ad_found : Forall (found m') fs;
  ad_only k a n : valid m -> pn m' !! k = Some a -> nodes m' !! a = Some n -> is_dir n = false ->
    pn m !! k = Some a \/ exists f, f ∈ fs /\ k = abs f.1.1.1;
  ad_valid : valid m -> valid m';
  ad_place : Forall (fun f => exists nm, nm ∈ nms /\ under d nm (abs f.1.1.1)) fs
}.

Lemma added_refl m d : added m m d [] [].
Proof.
  split; try done; [apply keeps_refl|]. intros k a n _ Hk Hn _. by left.
Qed.

Lemma added_trans m1 m2 m3 d nms nm fs1 fs2 : Forall simple d -> Forall simple nms -> simple nm -> nm ∉ nms ->
  added m1 m2 d [nm] fs1 -> added m2 m3 d nms fs2 -> added m1 m3 d (nm :: nms) (fs1 ++ fs2).
Proof.
  intros Hd Hnms Hnm Hnew [K1 O1 F1 Y1 W1 P1] [K2 O2 F2 Y2 W2 P2]. split.
  - by eapply keeps_trans.
  - intros k Hk. rewrite O2 by (intros x Hx; apply Hk; by right). apply O1. intros x Hx%list_elem_of_singleton. subst. apply Hk. by left.
  - apply Forall_app. split; [|done]. apply Forall_forall. intros f Hf. rewrite Forall_forall in F1, P1.
    apply (found_keeps m2); [done| |by apply F1]. apply O2. intros x Hx Hu.
    destruct (P1 f Hf) as (y & Hy%list_elem_of_singleton & Hu'). subst y. rewrite Forall_forall in Hnms.
    apply Hnew. by rewrite (under_names d nm x _ Hd Hnm (Hnms x Hx) Hu' Hu).
  - intros k a n Hv Hk Hn Hf. destruct (Y2 k a n (W1 Hv) Hk Hn Hf) as [Hk2|(f & Hin & ->)].
    + destruct (W1 Hv k a Hk2) as [n2 Hn2]. destruct (K2 a n2 Hn2) as (n' & Hn' & Heq). assert (n' = n) as -> by congruence. injection Heq as _ _ Heq _ _ _ _.
      destruct (Y1 k a n2 Hv Hk2 Hn2 ltac:(congruence)) as [?|(f & Hin & ->)]; [by left|]. right. exists f. split; [|done]. apply elem_of_app. by left.
    + right. exists f. split; [|done]. apply elem_of_app. by right.
  - auto.
  - apply Forall_app. split; (eapply Forall_impl; [eassumption|]).
    + intros f (x & Hx%list_elem_of_singleton & Hu). subst. exists nm. split; [by left|done].
    + intros f (x & Hx & Hu). exists x. split; [by right|done].
Qed.

Definition scan_good (e : entry) : Prop := forall m parent p d,
  nodes m !! parent = Some p -> Path p = abs d -> Forall simple d -> proper e ->
  added m (scan e m parent) d [entry_name e] (listed (SysPath p) d e).

Lemma scan_list es : Forall scan_good es -> forall m parent p d,
  nodes m !! parent = Some p -> Path p = abs d -> Forall simple d -> NoDup (entry_name <$> es) -> Forall proper es ->
  added m (scanDir m parent es) d (entry_name <$> es) (concat (listed (SysPath p) d <$> es)).
Proof.
  induction 1 as [|e es He _ IH]; intros m parent p d Hp Hpath Hd Hnd Hpr; [apply added_refl|].
  rewrite fmap_cons in Hnd. apply NoDup_cons in Hnd as [Hnew Hnd]. apply Forall_cons in Hpr as [Hpe Hpr].
  pose proof (He m parent p d Hp Hpath Hd Hpe) as H1. destruct (ad_keeps _ _ _ _ _ H1 parent p Hp) as (p' & Hp' & [= Hs Hpath' _ _ _ _ _]).
  rewrite !fmap_cons. cbn [concat]. unfold MemFS.scanDir. cbn [fold_left]. eapply added_trans; try done.
  - apply Forall_fmap. eapply Forall_impl; [exact Hpr|]. intros x. by destruct x as [? ?|? ?]; intros [? _].
  - by destruct e as [? ?|? ?]; destruct Hpe.
  - rewrite <- Hs. apply IH; try done. congruence.
Qed.

Lemma listed_simple e : forall sys d, Forall simple d -> proper e -> Forall (fun f => Forall simple f.1.1.1) (listed sys d e).
Proof.
  induction e as [nm c|nm es IH] using entry_rect'; intros sys d Hd Hp; cbn [listed]; destruct (negb (isIncluded _ _ _)); try by constructor.
  - assert (H : Forall simple (d ++ [nm])) by (apply Forall_app; split; [done|]; destruct Hp; by constructor).
    destruct (negb _); [by repeat constructor|]. destruct (updateContentType _ _ _ _ _); by repeat constructor.
  - apply proper_dir in Hp as (Hn & _ & Hp). apply Forall_concat, Forall_fmap. apply Forall_forall. intros e He.
    rewrite Forall_forall in IH, Hp. apply IH; [done| |by apply Hp]. apply Forall_app. split; [done|]. by constructor.
Qed.

(** ** A directory and all that is added under it *)

Definition placed (m m' : MemFS) (d : list (list Z)) (nm : list Z) (a : nat) (n : Node) : Prop :=
  keeps m m' /\ nodes m !! a = None /\ pn m' = <[abs (d ++ [nm]) := a]> (pn m) /\ nodes m' !! a = Some n.

Lemma placed_pn m m' d nm a n k : placed m m' d nm a n -> ~ under d nm k -> pn m' !! k = pn m !! k.
Proof. intros (_ & _ & -> & _) Hk. rewrite lookup_insert_ne; [done|]. intros <-. apply Hk. exists []. by split; [constructor|]. Qed.

Lemma placed_valid m m' d nm a n : placed m m' d nm a n -> valid m -> valid m'.
Proof.
  intros (Hk & _ & Hpn & Hn) Hv k b. rewrite Hpn. intros [[<- <-]|[_ Hb]]%lookup_insert_Some; [by eexists|].
  destruct (Hv k b Hb) as [nb Hnb]. destruct (Hk b nb Hnb) as (n' & Hn' & _). by eexists.
Qed.

Lemma added_none m d nm : added m m d [nm] [].
Proof. destruct (added_refl m d) as [? ? ? ? ? ?]. by split. Qed.

Lemma added_file m m' d nm a n t sz v : placed m m' d nm a n -> Path n = abs (d ++ [nm]) -> is_dir n = false ->
  ContentType n = t -> size n = sz -> V n = v -> ContentEncoding n = [] -> added m m' d [nm] [(d ++ [nm], t, sz, v)].
Proof.
  intros Hpl Hp Hd Ht Hs Hv He. pose proof Hpl as (Hk & _ & Hpn & Hn). split.
  - done.
  - intros k H. eapply placed_pn; [exact Hpl|]. apply H. by left.
  - constructor; [|done]. exists a, n. rewrite Hpn, lookup_insert_eq. by split_and!.
  - intros k b nb _. rewrite Hpn. intros [[<- <-]|[_ Hb]]%lookup_insert_Some _ _; [|by left]. right. eexists. split; [by left|done].
  - by eapply placed_valid.
  - constructor; [|done]. exists nm. split; [by left|]. exists []. by split; [constructor|].
Qed.

Lemma added_dir m m1 m2 d nm nms a n fs : placed m m1 d nm a n -> is_dir n = true -> Forall simple nms ->
  added m1 m2 (d ++ [nm]) nms fs -> added m m2 d [nm] fs.
Proof.
  intros Hpl Hdir Hnms [K O F Y W P]. pose proof Hpl as (Hk & _ & Hpn & Hn). rewrite Forall_forall in Hnms. split.
  - by eapply keeps_trans.
  - intros k H. assert (Hu : ~ under d nm k) by (apply H; by left). rewrite O; [by eapply placed_pn|].
    intros x Hx Hux. apply Hu. eapply under_deeper; [|exact Hux]. by apply Hnms.
  - done.
  - intros k b nb Hv Hkb Hnb Hf. destruct (Y k b nb (placed_valid _ _ _ _ _ _ Hpl Hv) Hkb Hnb Hf) as [Hb|?]; [|by right]. left.
    rewrite Hpn in Hb. apply lookup_insert_Some in Hb as [[<- <-]|[_ Hb]]; [|done].
    destruct (K a n Hn) as (n' & Hn' & [= _ _ Heq _ _ _ _]). congruence.
  - intros Hv. apply W. by eapply placed_valid.
  - eapply Forall_impl; [exact P|]. intros f (x & Hx & Hux). exists nm. split; [by left|]. eapply under_deeper; [|exact Hux]. by apply Hnms.
Qed.

Lemma names_simple es : Forall proper es -> Forall simple (entry_name <$> es).
Proof. intros H. apply Forall_fmap. eapply Forall_impl; [exact H|]. intros x. by destruct x as [? ?|? ?]; intros [? _]. Qed.

Lemma scan_entry e : scan_good e.
Proof.
  induction e as [nm c|nm es IH] using entry_rect'; intros m parent p d Hp Hpath Hd Hpr.
  all: assert (Hn : simple nm) by (by destruct Hpr).
  - pose proof (AddChild_spec m parent p d (FileEntry nm c) Hp Hpath Hd Hn) as HA. cbn [MemFS.scan].
    destruct (AddChild m parent _) as [m' [a|]]; [|destruct HA as [-> ->]; by apply added_none].
    destruct HA as (Hk & Ha & Hi & Hpn & n & Hna & Hnew & _ & Hpn' & Hdir). cbn [entry_name entry_is_dir] in *.
    assert (Hpl : placed m m' d nm a n) by done. cbn [listed entry_name entry_is_dir]. rewrite Hi. cbn [negb]. cbn [MemFS.NewNode] in Hnew.
    destruct (negb (withContent cfg)); [|destruct (updateContentType _ _ _ _ _) as [t|]; [|done]]; cbn in Hnew; injection Hnew as Hnew;
      (eapply added_file; [exact Hpl|done|done| | | |]; by rewrite <- Hnew).
  - pose proof (AddChild_spec m parent p d (DirEntry nm es) Hp Hpath Hd Hn) as HA. cbn [MemFS.scan].
    destruct (AddChild m parent _) as [m' [a|]]; [|destruct HA as [-> ->]; by apply added_none].
    destruct HA as (Hk & Ha & Hi & Hpn & n & Hna & Hnew & Hs & Hpn' & Hdir). cbn [entry_name entry_is_dir] in *.
    assert (Hpl : placed m m' d nm a n) by done. cbn [listed entry_name entry_is_dir]. rewrite Hi, <- Hs. cbn [negb].
    apply proper_dir in Hpr as (_ & Hnd & Hpr). eapply added_dir; [exact Hpl|done|by apply names_simple|].
    apply scan_list; try done. apply Forall_app. split; [done|]. by constructor.
Qed.

(** ** The pruning of directories *)

Definition same (m m' : MemFS) : Prop := forall a, facts <$> nodes m' !! a = facts <$> nodes m !! a.

Lemma same_upd m a f : (forall n, facts (f n) = facts n) -> same m (upd m a f).
Proof. intros Hf b. rewrite upd_lookup. case_decide as H; [|done]. subst. by destruct (nodes m !! b); cbn; [rewrite Hf|]. Qed.

Lemma removeChild_same m p c : same m (removeChild m p c).1 /\ pn (removeChild m p c).1 = pn m.
Proof.
  unfold removeChild. destruct (nodes m !! p) as [n|]; [|done]. destruct (list_find _ _) as [[x y]|]; [|done]. cbn [fst]. split; [|done].
  intros a. etransitivity; [by apply same_upd|]. by apply same_upd.
Qed.

Lemma prune_one_same m k : same m (prune_one m k).
Proof.
  unfold prune_one. destruct (pn m !! k) as [a|]; [|done]. destruct (nodes m !! a) as [n|]; [|done].
  destruct (negb (is_dir n)); [done|]. destruct (Childs n); [|done]. destruct (Parent n) as [p|]; [|done]. apply removeChild_same.
Qed.

(** Only the path of a directory goes. *)
Lemma prune_one_pn m k j : pn (prune_one m k) !! j = pn m !! j \/
  (pn (prune_one m k) !! j = None /\ exists a n, pn m !! j = Some a /\ nodes m !! a = Some n /\ is_dir n = true).
Proof.
  unfold prune_one. destruct (pn m !! k) as [a|] eqn:Ek; [|by left]. destruct (nodes m !! a) as [n|] eqn:Ea; [|by left].
  destruct (is_dir n) eqn:Ed; [|by left]. cbn [negb]. destruct (Childs n); [|by left]. destruct (Parent n) as [p|]; [|by left].
  cbn [set_pn pn]. rewrite (proj2 (removeChild_same m p a)). destruct (decide (k = j)) as [->|Hne].
  - right. rewrite lookup_delete_eq. split; [done|]. by exists a, n.
  - left. by rewrite lookup_delete_ne.
Qed.

(** A path that leads to a file: its type, size, content and encoding. *)
Definition leads (m : MemFS) (k t : list Z) (sz : Z) (v e : list Z) : Prop :=
  exists a n, Get m k = Some (a, n) /\ is_dir n = false /\ ContentType n = t /\ size n = sz /\ V n = v /\ ContentEncoding n = e.

Lemma leads_iff m k t sz v e : leads m k t sz v e <->
  exists a s p, pn m !! k = Some a /\ facts <$> nodes m !! a = Some (s, p, false, t, sz, v, e).
Proof.
  unfold leads, Get. split.
  - intros (a & n & H & H1 & H2 & H3 & H4 & H5). destruct (pn m !! k) as [b|]; [|done]. cbn in H. destruct (nodes m !! b) as [nb|] eqn:Eb; [|done].
    injection H as -> ->. exists a, (SysPath n), (Path n). rewrite Eb. cbn. unfold facts. by rewrite H1, H2, H3, H4, H5.
  - intros (a & s & p & -> & H). cbn. destruct (nodes m !! a) as [n|]; [|done]. injection H as H0 H1 H2 H3 H4 H5 H6. by exists a, n.
Qed.

Lemma prune_leads order k t sz v e : forall m, leads (pruneEmptyDirs m order) k t sz v e <-> leads m k t sz v e.
Proof.
  induction order as [|j order IH]; intros m; [done|]. unfold pruneEmptyDirs in *. cbn [fold_left]. rewrite IH, !leads_iff. clear IH.
  split; intros (a & s & p & Hk & Ha); exists a, s, p; destruct (prune_one_pn m j k) as [H|(H & b & n & Hb & Hn & Hd)].
  - rewrite <- H. split; [done|]. by rewrite <- (prune_one_same m j).
  - congruence.
  - rewrite H. split; [done|]. by rewrite (prune_one_same m j).
  - exfalso. assert (b = a) as -> by congruence. rewrite Hn in Ha. cbn in Ha. unfold facts in Ha. congruence.
Qed.

(** ** Mounting *)

Lemma mount_leads dir dirSize es order k t sz v e : Forall proper es -> NoDup (entry_name <$> es) ->
  leads (Mount TypeByExtension DetectContentType cfg dir dirSize es order) k t sz v e <->
  e = [] /\ exists segs, k = abs segs /\ (segs, t, sz, v) ∈ concat (listed dir [] <$> es).
Proof.
  intros Hp Hn. unfold Mount. set (m := scanDir (createRoot dir dirSize) 0 es).
  transitivity (leads m k t sz v e); [destruct (withContent cfg); [apply prune_leads|done]|].
  pose proof (scan_list es (proj2 (Forall_forall _ _) (fun e _ => scan_entry e)) (createRoot dir dirSize) 0%nat _ [] eq_refl eq_refl (Forall_nil_2 _) Hn Hp) as [_ _ F Y _ _].
  cbn [SysPath createRoot nodes] in *. fold m in F, Y. rewrite Forall_forall in F.
  assert (Hv : valid (createRoot dir dirSize)).
  { intros j a Hj. cbn in Hj. apply lookup_singleton_Some in Hj as [_ <-]. cbn. rewrite lookup_singleton_eq. by eexists. }
  assert (Hto : forall f, f ∈ concat (listed dir [] <$> es) -> leads m (abs f.1.1.1) f.1.1.2 f.1.2 f.2 []).
  { intros [[[segs t'] sz'] v'] Hf. destruct (F _ Hf) as (a & n & H1 & H2 & _ & H4 & H5 & H6 & H7 & H8). exists a, n. cbn [fst snd]. unfold Get. rewrite H1. cbn. by rewrite H2. }
  split; [|intros (-> & segs & -> & Hf); by apply (Hto _ Hf)].
  intros (a & n & Hg & Hd & Ht & Hs & HV & HE). unfold Get in Hg. destruct (pn m !! k) as [b|] eqn:Ek; [|done]. cbn in Hg.
  destruct (nodes m !! b) as [nb|] eqn:Eb; [|done]. injection Hg as -> ->.
  destruct (Y k a n Hv Ek Eb Hd) as [Hr|(f & Hf & ->)].
  - exfalso. cbn in Hr. apply lookup_singleton_Some in Hr as [_ <-].
    pose proof (scan_list es (proj2 (Forall_forall _ _) (fun e _ => scan_entry e)) (createRoot dir dirSize) 0%nat _ [] eq_refl eq_refl (Forall_nil_2 _) Hn Hp) as [K _ _ _ _ _].
    destruct (K 0%nat _ eq_refl) as (n' & Hn' & [= _ _ Hdir _ _ _ _]). fold m in Hn'. congruence.
  - destruct f as [[[segs t'] sz'] v']. destruct (Hto _ Hf) as (a' & n' & Hg & _ & Ht' & Hs' & HV' & HE'). cbn [fst snd] in *. unfold Get in Hg. rewrite Ek in Hg. cbn in Hg. rewrite Eb in Hg. injection Hg as <- <-.
    split; [congruence|]. exists segs. split; [done|]. by rewrite <- Ht, <- Hs, <- HV, Ht', Hs', HV'.
Qed.
End Mount.

(** C23: what mounting a directory gives: a path leads to a file of some type, size and
    content, not encoded, exactly if that file is [listed] for the directory under the
    path, whatever the order in which pruning walks the map, so that pruning empty
    directories loses none. Listed are the files that are included together with all
    directories above them. With contents, a file has its size, the type by its
    extension or else by its content, and its content unless that is larger than the
    limit, and an empty file whose extension has no type is not listed at all (see
    [empty_file_lost]); without contents, a file is listed without a type and content
    and with the size 0. *)
Theorem mount_finds (types detect : list Z -> list Z) (cfg : config) (dir : list Z) (dirSize : Z) (es : list entry)
    (order : MemFS -> list (list Z)) (k t v e : list Z) (sz : Z)
    (Hp : Forall proper es) (Hn : NoDup (entry_name <$> es)) :
  leads (Mount types detect cfg dir dirSize es order) k t sz v e <->
  e = [] /\ exists segs, k = abs segs /\ (segs, t, sz, v) ∈ concat (listed types detect cfg dir [] <$> es).
Proof. by apply mount_leads. Qed.

Definition sample_types (ext : list Z) : list Z := if bool_decide (ext = str ".css") then str "text/css" else [].
Definition sample_detect (v : list Z) : list Z := if has_prefix (str "<html") v then str "text/html" else str "text/plain".
Definition sample_dir : list entry :=
  [FileEntry (str "index.html") (str "<html>"); DirEntry (str "css") [FileEntry (str "a.css") []; DirEntry (str "old") [DirEntry (str "x") []]];
   FileEntry (str ".hidden") (str "secret"); FileEntry (str "empty") []].
Definition sample_cfg : config := mkConfig [] [fun p => bool_decide (Ext p = str ".hidden")] true.
Definition sample_fs (order : MemFS -> list (list Z)) : MemFS := Mount sample_types sample_detect sample_cfg (str "/www") 4096 sample_dir order.
Definition paths (m : MemFS) : list (list Z) := ListNames m.

Lemma sample_proper : Forall proper sample_dir.
Proof.
  repeat first [apply Forall_nil_2 | apply Forall_cons_2 | apply proper_dir; split_and! | split; [by apply (bool_decide_unpack (simple _)); vm_compute|done] | by apply (bool_decide_unpack (simple _)); vm_compute | by apply (bool_decide_unpack (NoDup _)); vm_compute].
Qed.
Lemma mount_finds_witness : leads (sample_fs paths) (str "/index.html") (str "text/html") 6 (str "<html>") [].
Proof.
  apply (mount_finds sample_types sample_detect sample_cfg (str "/www") 4096 sample_dir paths).
  - apply sample_proper.
  - by apply (bool_decide_unpack (NoDup _)); vm_compute.
  - split; [done|]. exists [str "index.html"]. split; [done|]. by left.
Defined.

(** ** What mounting leaves *)

(** A file that is empty, and whose extension is not known, is lost: its type is looked for
    in its content, which reads as the end of the file. *)
Example empty_file_lost : Get (sample_fs paths) (str "/empty") = None /\ is_Some (Get (sample_fs paths) (str "/css/a.css")).
Proof. vm_compute. split; [done|by eexists]. Qed.

(** Whether an empty directory goes depends on the order in which the map is walked: its own
    parent is visited before it or after it. *)
Example prune_depends :
  ListNames (sample_fs paths) = [str "/"; str "/css"; str "/css/a.css"; str "/css/old"; str "/index.html"] /\
  ListNames (sample_fs (fun m => rev (paths m))) = [str "/"; str "/css"; str "/css/a.css"; str "/index.html"].
Proof. vm_compute. split; reflexivity. Qed.

(** A directory that is removed leaves the paths under it. *)
Example removed_leaves :
  let m := sample_fs paths in
  match Get m (str "/css") with
  | Some (a, _) => is_Some (Get (RemoveChild m 0 a).1 (str "/css/a.css")) /\ Get (RemoveChild m 0 a).1 (str "/css") = None
  | None => False
  end.
Proof. vm_compute. split; [by eexists|done]. Qed.

(** ** Reading *)

(** The file that is read to its end, with a buffer of [k] bytes. *)
Fixpoint read_all (fuel : nat) (n : Node) (k : nat) : option (list Z * Node) :=
  match fuel with
  | O => None
  | S fuel =>
      match Read n k with
      | Ok (None, n) => Some ([], n)
      | Ok (Some got, n) => '(rest, n) ← read_all fuel n k; Some (got ++ rest, n)
      | _ => None
      end
  end.
Definition whole (n : Node) : Prop := size n = Z.of_nat (length (V n)).

Lemma read_rest k fuel : (0 < k)%nat -> forall n o, whole n -> off n = Z.of_nat o -> (o <= length (V n))%nat ->
  (length (V n) - o < fuel)%nat -> read_all fuel n k = Some (drop o (V n), set_off n (Z.of_nat (length (V n)))).
Proof.
  intros Hk. induction fuel as [|fuel IH]; intros n o Hw Ho Hle Hf; [lia|]. cbn [read_all]. unfold Read. rewrite decide_False by lia. rewrite Hw, Ho.
  destruct (Z.of_nat (length (V n)) <=? Z.of_nat o) eqn:E.
  - apply Z.leb_le in E. assert (o = length (V n)) as -> by lia. rewrite drop_all, <- Ho. by destruct n.
  - apply Z.leb_gt in E. rewrite Nat2Z.id. rewrite slice_Ok by lia. cbn [mbind outcome_bind].
    set (v := take _ (drop o (V n))). assert (Hv : v = drop o (V n)) by (apply take_ge; rewrite length_drop; lia).
    assert (Hl : length (take k v) = Nat.min k (length (V n) - o)) by (rewrite length_take, Hv, length_drop; done).
    rewrite (IH _ (o + length (take k v))%nat); [|done|cbn; lia|cbn; lia|cbn; lia]. cbn [V set_off]. cbn. f_equal. f_equal.
    rewrite <- drop_drop, <- Hv, length_take. transitivity (take k v ++ drop k v); [|apply take_drop]. f_equal.
    destruct (decide (k <= length v)%nat); [by rewrite Nat.min_l by lia|]. by rewrite !drop_ge by lia.
Qed.

(** A file that was too big to be read has a size without a content: reading it gives
    nothing and no end, and panics once the offset is moved into it. *)
Definition big : Node := mkNode [] [] [] [] [] false (MaxFileSize + 1) [] None [] [] [] 0.
Example big_never_ends : Read big 512 = Ok (Some [], big) /\ exists n, Seek big 1 SeekStart = (Some 1, n) /\ Read n 512 = Panic.
Proof. split; [done|]. eexists. by split. Qed.

(** A directory that is read with a count of its size, or more, never ends. *)
Example readdir_never_ends : let d := mkNode [] [] [] [] [] true 0 [] None [1%nat; 2%nat] [] [] 0 in
  Readdir d 2 = ([1%nat; 2%nat], d) /\ exists d', Readdir d 1 = ([1%nat], d') /\ Readdir d' 2 = ([1%nat; 2%nat], d).
Proof. split; [done|]. eexists. by split. Qed.

(** ** Encoding and decoding *)

Section Encode.
Context `{Unicode} (gzip : list Z -> list Z) (gunzip : list Z -> option (list Z)).

(** Every path has a node of its own. *)
Definition own (m : MemFS) : Prop := forall k j a, pn m !! k = Some a -> pn m !! j = Some a -> k = j.
Definition encoded (n : Node) : Node := if is_dir n || isnil (V n) then n else set_encoded n (gzip (V n)).

Lemma encode_one_Get m j k a n : own m -> Get m k = Some (a, n) ->
  Get (encode_one gzip m j) k = Some (a, if decide (j = k) then encoded n else n).
Proof.
  intros Ho Hg. unfold Get in *. destruct (pn m !! k) as [b|] eqn:Ek; [|done]. cbn in Hg. destruct (nodes m !! b) as [nb|] eqn:Eb; [|done]. injection Hg as -> ->.
  unfold encode_one. destruct (pn m !! j) as [c|] eqn:Ej.
  - replace (pn (upd m c _)) with (pn m) by done. rewrite Ek. cbn [mbind option_bind]. rewrite upd_lookup. destruct (decide (j = k)) as [->|Hne].
    + rewrite Ek in Ej. injection Ej as ->. by rewrite decide_True, Eb.
    + rewrite decide_False, Eb; [done|]. intros ->. apply Hne. by eapply Ho.
  - rewrite decide_False by congruence. by rewrite Ek; cbn; rewrite Eb.
Qed.

Lemma encode_one_own m j : own m -> own (encode_one gzip m j).
Proof. unfold own, encode_one. by destruct (pn m !! j). Qed.

Lemma encode_all order : forall m k a n, NoDup order -> own m -> Get m k = Some (a, n) ->
  Get (fold_left (encode_one gzip) order m) k = Some (a, if decide (k ∈ order) then encoded n else n).
Proof.
  induction order as [|j order IH]; intros m k a n Hnd Ho Hg; [done|]. apply NoDup_cons in Hnd as [Hj Hnd]. cbn [fold_left].
  rewrite (IH _ k a _ Hnd (encode_one_own m j Ho) (encode_one_Get m j k a n Ho Hg)). f_equal. f_equal.
  destruct (decide (j = k)) as [->|Hne].
  - rewrite (decide_False (P := k ∈ order)), decide_True by (done || by left). done.
  - destruct (decide (k ∈ order)); [rewrite decide_True; [done|by right]|]. rewrite decide_False; [done|]. by intros [?|?]%elem_of_cons.
Qed.

Lemma encode_decodes order m m' k a n : (forall v, gunzip (gzip v) = Some v) -> NoDup order -> own m -> ContentEncoding n = [] ->
  ContentEncode gzip m EncodingGzip order = Some m' -> Get m k = Some (a, n) ->
  exists n', Get m' k = Some (a, n') /\ Decode gunzip n' = Some (V n).
Proof.
  intros Hg Hnd Ho He Hm Hk. unfold ContentEncode in Hm. destruct (bool_decide _); [|done]. injection Hm as <-. eexists. split; [by apply encode_all|].
  destruct (decide _); [|unfold Decode; by rewrite He]. unfold encoded. destruct (is_dir n || isnil (V n)); unfold Decode; [by rewrite He|].
  cbn [ContentEncoding set_encoded V]. cbn. apply Hg.
Qed.

(** Encoding again encodes what is encoded, and decoding does not undo it twice. *)
Lemma encoded_twice n : (forall v, gunzip (gzip v) = Some v) -> is_dir n = false -> V n <> [] -> gzip (V n) <> [] ->
  Decode gunzip (encoded (encoded n)) = Some (gzip (V n)).
Proof.
  intros Hg Hd Hv Hz. unfold encoded at 2. rewrite Hd. destruct (V n) as [|c v] eqn:E; [done|]. cbn [orb isnil]. unfold encoded. cbn [is_dir set_encoded V].
  rewrite Hd. cbn [orb]. destruct (gzip (c :: v)) as [|x w] eqn:Ez; [done|]. cbn [isnil]. unfold Decode. cbn. rewrite <- Ez, Hg. done.
Qed.
End Encode.
