(* ===== verification/HttpRoute.v ===== *)
(** Package [lib/http], file [route.go]: the paths of endpoints, and what matches
    them. *)

From Stdlib Require Import ZArith Lia.
From S2P Require Import Prelude Ascii Utf8 GoPath.

Local Open Scope Z_scope.

Inductive route_error : Type := ErrEndpointAmbiguous | ErrEndpointKeyDuplicate | ErrEndpointKeyEmpty.

(** A sub-path: a name, or a key. *)
Record rnode : Type := RNode { n_name : list Z; n_key : list Z; n_isKey : bool }.

Record route (A : Type) : Type := mkRoute { r_path : list Z; r_nodes : list rnode; nkey : nat; r_endpoint : A }.
Arguments mkRoute {A} _ _ _ _.
Arguments r_path {A} _.
Arguments r_nodes {A} _.
Arguments nkey {A} _.
Arguments r_endpoint {A} _.

(** [strings.Trim(s, "/")]. *)
Fixpoint drop_slashes (s : list Z) : list Z :=
  match s with
  | c :: s' => if c =? slash then drop_slashes s' else s
  | [] => []
  end.
Definition Trim_slash (s : list Z) : list Z := rev (drop_slashes (rev (drop_slashes s))).
Definition segments `{Unicode} (p : list Z) : list (list Z) := Split slash (text_ToLower (Trim_slash p)).

(** [isKeyExist]. *)
Definition isKeyExist (ns : list rnode) (k : list Z) : bool := existsb (fun n => n_isKey n && bool_decide (n_key n = k)) ns.
(** [generatePath]. *)
Definition node_text (n : rnode) : list Z := if n_isKey n then 58 :: n_key n else n_name n.
Definition generatePath (ns : list rnode) : list Z := slashed (node_text <$> ns).

(** [newRoute]: the loop on the sub-paths, with the nodes and the number of keys. *)
Fixpoint newRoute_loop `{Unicode} (paths : list (list Z)) (ns : list rnode) (k : nat) : outcome route_error (list rnode * nat) :=
  match paths with
  | [] => Ok (ns, k)
  | p :: paths =>
      match TrimSpace p with
      | [] => newRoute_loop paths ns k
      | c :: rest =>
          if c =? 58 then
            let key := TrimSpace rest in
            if isnil key then Err ErrEndpointKeyEmpty
            else if isKeyExist ns key then Err ErrEndpointKeyDuplicate
            else newRoute_loop paths (ns ++ [RNode [] key true]) (S k)
          else newRoute_loop paths (ns ++ [RNode (c :: rest) [] false]) k
      end
  end.
Definition newRoute `{Unicode} {A} (path : list Z) (ep : A) : outcome route_error (route A) :=
  '(ns, k) ← newRoute_loop (segments path) [] 0;
  let ns := match ns with [] => [RNode [] [] false] | _ => ns end in
  Ok (mkRoute (generatePath ns) ns k ep).

(** [parse]: the values of the keys, if the path matches. *)
Fixpoint parse_loop (ns : list rnode) (paths : list (list Z)) (vals : gmap (list Z) (list Z)) : option (gmap (list Z) (list Z)) :=
  match ns, paths with
  | [], _ => Some vals
  | n :: ns, p :: paths =>
      if n_isKey n then parse_loop ns paths (<[n_key n := p]> vals)
      else if bool_decide (p = n_name n) then parse_loop ns paths vals
      else None
  | _ :: _, [] => None
  end.
Definition parse `{Unicode} {A} (r : route A) (path : list Z) : option (gmap (list Z) (list Z)) :=
  if (nkey r =? 0)%nat && bool_decide (path = r_path r) then Some ∅
  else
    let paths := segments path in
    if negb (length paths =? length (r_nodes r))%nat then None else parse_loop (r_nodes r) paths ∅.

(** ** What a path fits *)

Definition fits (n : rnode) (s : list Z) : Prop := n_isKey n = true \/ s = n_name n.
(** A value of a key. *)
Definition holds (ns : list rnode) (l : list (list Z)) (k v : list Z) : Prop :=
  exists x n, ns !! x = Some n /\ n_isKey n = true /\ n_key n = k /\ l !! x = Some v.
Definition keys (ns : list rnode) : list (list Z) := n_key <$> filter (fun n => n_isKey n = true) ns.

Lemma keys_snoc ns n : keys (ns ++ [n]) = keys ns ++ if n_isKey n then [n_key n] else [].
Proof. unfold keys. rewrite filter_app, fmap_app. destruct n as [nm k []]; done. Qed.

Lemma keys_elem ns n : n ∈ ns -> n_isKey n = true -> n_key n ∈ keys ns.
Proof. intros Hn Hk. apply list_elem_of_fmap. exists n. split; [done|]. by apply list_elem_of_filter. Qed.

Lemma isKeyExist_keys ns k : isKeyExist ns k = true <-> k ∈ keys ns.
Proof.
  unfold isKeyExist. rewrite existsb_exists. setoid_rewrite <- list_elem_of_In. split.
  - intros (n & Hn & [Hk He]%andb_true_iff). apply bool_decide_eq_true in He as <-. by apply keys_elem.
  - intros (n & -> & [Hk Hn]%list_elem_of_filter)%list_elem_of_fmap. exists n. split; [done|]. rewrite Hk. by rewrite bool_decide_true.
Qed.

(** What [newRoute] makes. *)
Record made (ns : list rnode) (k : nat) : Prop := {
  md_keys : NoDup (keys ns);
  md_count : k = length (keys ns);
  md_slash : Forall (fun n => n_isKey n = false -> slash ∉ n_name n) ns
}.

Fixpoint fill (ns : list rnode) (l : list (list Z)) (vals : gmap (list Z) (list Z)) : gmap (list Z) (list Z) :=
  match ns, l with
  | n :: ns, p :: l => fill ns l (if n_isKey n then <[n_key n := p]> vals else vals)
  | _, _ => vals
  end.

Lemma parse_loop_fill ns : forall l vals vals', length l = length ns ->
  parse_loop ns l vals = Some vals' <-> Forall2 fits ns l /\ vals' = fill ns l vals.
Proof.
  induction ns as [|n ns IH]; intros [|p l] vals vals' Hl; try done; cbn [parse_loop fill].
  - split; [by intros [= <-]|by intros [_ ->]].
  - cbn in Hl. injection Hl as Hl. rewrite Forall2_cons. unfold fits at 1. destruct (n_isKey n).
    + rewrite IH by done. naive_solver.
    + case_bool_decide; [rewrite IH by done|]; naive_solver.
Qed.

Lemma holds_cons n ns p l k v :
  holds (n :: ns) (p :: l) k v <-> (n_isKey n = true /\ n_key n = k /\ p = v) \/ holds ns l k v.
Proof.
  split.
  - intros ([|x] & m & Hx & Hk & He & Hv); cbn in Hx, Hv; [left|right; by exists x, m]. injection Hx as ->. by injection Hv as ->.
  - intros [(Hk & He & ->)|(x & m & Hx & Hm)]; [by exists 0%nat, n|by exists (S x), m].
Qed.
Lemma holds_key ns l k v : holds ns l k v -> k ∈ keys ns.
Proof. intros (x & m & Hx & Hk & <- & _). apply keys_elem; [|done]. by eapply list_elem_of_lookup_2. Qed.
Lemma keys_cons n ns : keys (n :: ns) = (if n_isKey n then [n_key n] else []) ++ keys ns.
Proof. unfold keys. rewrite filter_cons. destruct (n_isKey n); [by rewrite decide_True|by rewrite decide_False]. Qed.

Lemma fill_lookup ns : forall l vals k v, length l = length ns -> NoDup (keys ns) ->
  fill ns l vals !! k = Some v <-> holds ns l k v \/ (k ∉ keys ns /\ vals !! k = Some v).
Proof.
  induction ns as [|n ns IH]; intros [|p l] vals k v Hl Hnd; try done.
  - cbn [fill]. split; [right; split; [apply not_elem_of_nil|done]|]. intros [(x & m & Hx & _)|[_ ?]]; [by rewrite lookup_nil in Hx|done].
  - cbn in Hl. injection Hl as Hl. cbn [fill]. rewrite holds_cons, keys_cons in *. destruct (n_isKey n); cbn [app] in *.
    + apply NoDup_cons in Hnd as [Hn Hnd]. rewrite IH by done. rewrite lookup_insert_Some, not_elem_of_cons. pose proof (holds_key ns l k v). naive_solver.
    + rewrite IH by done. naive_solver.
Qed.

(** ** What a route matches *)

Section Match.
Context `{U : Unicode} {A : Type}.

Lemma newRoute_loop_made paths : forall ns k ns' k', Forall (fun p => slash ∉ p) paths -> made ns k ->
  newRoute_loop paths ns k = Ok (ns', k') -> made ns' k'.
Proof.
  induction paths as [|p paths IH]; intros ns k ns' k' Hp Hm Hr; cbn [newRoute_loop] in Hr; [by injection Hr as <- <-|].
  apply Forall_cons in Hp as [Hs Hp]. destruct (TrimSpace p) as [|c rest] eqn:Et; [by eapply IH|].
  destruct Hm as [M1 M2 M3]. destruct (c =? 58) eqn:Ec.
  - destruct (isnil _); [done|]. destruct (isKeyExist ns _) eqn:Ek; [done|]. eapply (IH _ _ _ _ Hp); [|exact Hr].
    split; [rewrite keys_snoc; cbn|rewrite keys_snoc, length_app, M2; cbn; lia|].
    + apply NoDup_app. split; [done|]. split; [|apply NoDup_singleton]. intros k0 Hk0 ->%list_elem_of_singleton.
      apply isKeyExist_keys in Hk0. congruence.
    + apply Forall_app. split; [done|]. by constructor.
  - eapply (IH _ _ _ _ Hp); [|exact Hr]. split; [by rewrite keys_snoc, app_nil_r|by rewrite keys_snoc, app_nil_r|].
    apply Forall_app. split; [done|]. constructor; [|done]. intros _. cbn. rewrite <- Et. intros Hin. apply Hs. by eapply TrimSpace_sub.
Qed.

Lemma segments_slash p : Forall (fun s => slash ∉ s) (segments p).
Proof. apply Split_pieces. Qed.

Lemma newRoute_made p (ep : A) r : newRoute p ep = Ok r ->
  made (r_nodes r) (nkey r) /\ r_nodes r <> [] /\ r_path r = generatePath (r_nodes r) /\ r_endpoint r = ep.
Proof.
  unfold newRoute. intros H. bind_inv H. destruct x as [ns k]. injection H as <-. cbn [r_nodes nkey r_path r_endpoint].
  apply newRoute_loop_made in Hx; [|apply segments_slash|split; [apply NoDup_nil_2|done|done]].
  destruct ns; [|done]. split; [|done]. destruct Hx as [H1 H2 _]. split; [done|done|]. constructor; [|done]. intros _. apply not_elem_of_nil.
Qed.

(** A sub-path of a request that is what it becomes. *)
Definition plain (s : list Z) : Prop := s <> [] /\ slash ∉ s /\ Forall (fun c => 0 <= c < 128 /\ lower_byte c = c) s.

Lemma drop_slashes_id s : head s <> Some slash -> drop_slashes s = s.
Proof. destruct s as [|c s]; [done|]. cbn. intros H. destruct (Z.eqb_spec c slash) as [->|]; done. Qed.

Lemma plain_last s l : plain s -> Forall plain l -> last (s ++ slashed l) <> Some slash.
Proof.
  intros Hs Hl. destruct l as [|x l _] using rev_ind.
  - cbn. rewrite app_nil_r. intros H. apply last_Some_elem_of in H. by destruct Hs as (_ & ? & _).
  - apply Forall_app in Hl as [_ Hx]. apply Forall_inv in Hx as (Hne & Hx & _). unfold slashed. rewrite fmap_app, concat_app. cbn. rewrite app_nil_r.
    rewrite (assoc_L (++)), last_app_cons, last_cons. destruct (last x) as [c|] eqn:Ec; [|by apply last_None in Ec]. intros [= ->].
    by apply last_Some_elem_of in Ec.
Qed.

Lemma segments_slashed l : l <> [] -> Forall plain l -> segments (slashed l) = l.
Proof.
  destruct l as [|s l]; [done|]. intros _ H. apply Forall_cons in H as [Hs Hl].
  assert (Ht : Trim_slash (slashed (s :: l)) = s ++ slashed l).
  { unfold Trim_slash. change (slashed (s :: l)) with (slash :: s ++ slashed l). cbn [drop_slashes]. rewrite Z.eqb_refl.
    assert (Hh : head (s ++ slashed l) <> Some slash) by (destruct Hs as (Hne & Hs & _); destruct s; [done|]; intros [= ->]; apply Hs; by left).
    rewrite (drop_slashes_id _ Hh), drop_slashes_id, rev_involutive; [done|]. rewrite rev_alt. fold (reverse (s ++ slashed l)). rewrite head_reverse. by apply plain_last. }
  assert (Hc : Forall (fun c => 0 <= c < 128 /\ lower_byte c = c) (s ++ slashed l)).
  { apply Forall_app. split; [by destruct Hs as (_ & _ & ?)|]. apply Forall_concat, Forall_fmap. eapply Forall_impl; [exact Hl|].
    intros x (_ & _ & Hx). constructor; [done|exact Hx]. }
  unfold segments. rewrite Ht, text_ToLower_ascii by (eapply Forall_impl; [exact Hc|]; naive_solver).
  replace (ToLower (s ++ slashed l)) with (s ++ slashed l).
  2: { clear - Hc. induction Hc as [|c t [_ Hc] _ IH]; [done|]. cbn [ToLower]. by f_equal. }
  assert (Hsp : Split slash (slashed (s :: l)) = [] :: s :: l).
  { apply Split_slashed. constructor; [by destruct Hs as (_ & ? & _)|]. eapply Forall_impl; [exact Hl|]. by intros x (_ & ? & _). }
  change (slashed (s :: l)) with ([] ++ slash :: s ++ slashed l) in Hsp. rewrite Split_sep in Hsp by apply not_elem_of_nil. by injection Hsp.
Qed.

(** A route without keys that has the path of the request has its sub-paths. *)
Lemma named_fits ns l : keys ns = [] -> Forall (fun n => n_isKey n = false -> slash ∉ n_name n) ns -> Forall plain l ->
  slashed l = generatePath ns -> Forall2 fits ns l.
Proof.
  intros Hk Hs Hl He. assert (Hn : Forall (fun n => n_isKey n = false) ns).
  { apply Forall_forall. intros n Hn. destruct (n_isKey n) eqn:E; [|done]. pose proof (keys_elem ns n Hn E) as Hin. rewrite Hk in Hin. by apply elem_of_nil in Hin. }
  assert (Hnames : node_text <$> ns = n_name <$> ns).
  { apply list_fmap_ext. intros x n Hx. unfold node_text. rewrite Forall_forall in Hn. by rewrite (Hn n) by (by eapply list_elem_of_lookup_2). }
  unfold generatePath in He. rewrite Hnames in He. apply (f_equal (Split slash)) in He. rewrite !Split_slashed in He.
  - injection He as ->. apply Forall2_fmap_r. apply Forall_Forall2_diag. apply Forall_true. intros n. by right.
  - apply Forall_fmap. rewrite Forall_forall in *. intros n Hin. by apply Hs, Hn.
  - eapply Forall_impl; [exact Hl|]. by intros x (_ & ? & _).
Qed.

Lemma no_keys ns l k v : keys ns = [] -> ~ holds ns l k v.
Proof. intros Hk Hh%holds_key. rewrite Hk in Hh. by apply elem_of_nil in Hh. Qed.

Lemma parse_spec p (ep : A) r l vals : newRoute p ep = Ok r -> l <> [] -> Forall plain l ->
  parse r (slashed l) = Some vals <-> Forall2 fits (r_nodes r) l /\ forall k v, vals !! k = Some v <-> holds (r_nodes r) l k v.
Proof.
  intros Hr Hne Hl. apply newRoute_made in Hr as ([M1 M2 M3] & _ & Hp & _). unfold parse.
  destruct ((nkey r =? 0)%nat && bool_decide (slashed l = r_path r)) eqn:E.
  - apply andb_true_iff in E as [Ek He]. apply Nat.eqb_eq in Ek. apply bool_decide_eq_true in He. rewrite M2 in Ek. apply nil_length_inv in Ek.
    rewrite Hp in He. split.
    + intros [= <-]. split; [by apply named_fits|]. intros k v. rewrite lookup_empty. split; [done|]. intros H. by apply no_keys in H.
    + intros [_ H]. f_equal. symmetry. apply map_empty. intros k. destruct (vals !! k) as [v|] eqn:Ev; [|done]. apply H in Ev. by apply no_keys in Ev.
  - rewrite segments_slashed by done. destruct (length l =? length (r_nodes r))%nat eqn:El; cbn [negb].
    + apply Nat.eqb_eq in El. rewrite parse_loop_fill by done. apply and_iff_compat_l.
      assert (Hf : forall k v, fill (r_nodes r) l ∅ !! k = Some v <-> holds (r_nodes r) l k v).
      { intros k v. rewrite fill_lookup by done. rewrite lookup_empty. naive_solver. }
      split; [by intros ->|]. intros H. apply map_eq. intros k. apply option_eq. intros v. by rewrite H, Hf.
    + split; [done|]. intros [H _]. apply Forall2_length in H. apply Nat.eqb_neq in El. lia.
Qed.
End Match.

(** C24: a route matches a request for a path of plain sub-paths (neither empty nor with a
    slash, in ASCII and in lower case) exactly if there are as many as in the route and
    every one is the name at its place, unless a key is there; and what is found for the
    keys are the sub-paths at their places, and nothing else. *)
Theorem route_matches `{Unicode} {A : Type} (p : list Z) (ep : A) (r : route A) (l : list (list Z)) (vals : gmap (list Z) (list Z))
    (Hr : newRoute p ep = Ok r) (Hne : l <> []) (Hl : Forall plain l) :
  parse r (slashed l) = Some vals <->
  Forall2 fits (r_nodes r) l /\ forall k v, vals !! k = Some v <-> holds (r_nodes r) l k v.
Proof. by eapply parse_spec. Qed.

#[local] Instance no_unicode : Unicode := Build_Unicode (fun _ => false) (fun _ => false) (fun c => c) (fun c => c).
Definition sample_route : route unit :=
  match newRoute (str "/repo/ :name /tree/") tt with Ok r => r | _ => mkRoute [] [] 0 tt end.
Lemma route_matches_witness : parse sample_route (str "/repo/share/tree") = Some {[ str "name" := str "share" ]}.
Proof.
  apply (route_matches (str "/repo/ :name /tree/") tt sample_route [str "repo"; str "share"; str "tree"]); [by vm_compute|done| |].
  - repeat constructor; try done; try (by apply (bool_decide_unpack (_ ∉ _)); vm_compute).
  - split; [repeat constructor; (by left) || (by right)|]. intros k v. split.
    + intros [<- <-]%lookup_singleton_Some. exists 1%nat, (RNode [] (str "name") true). by split_and!.
    + intros ([|[|[|x]]] & n & Hx & Hk & <- & Hv); [injection Hx as <-; done| |injection Hx as <-; done|done]. injection Hx as <-. injection Hv as <-. done.
Defined.
