(* ===== verification/HttpServer.v ===== *)
(** Package [lib/http], files [endpoint.go] and [server.go]: the registration of
    endpoints, their calls, and the files of [MemFS] that are served besides.

    A request is what [net/http] gives: the method, the path, the body (none where it
    cannot be read), the form, and a rest that only the programs of the user look at.
    Endpoints are behind pointers, since one of them may be registered for several
    methods, and its fields are then shared. A program that changes an endpoint after its
    registration is left out. Evaluators and callbacks are functions; what [net/http] adds to a response on its own
    is left out, and so are logs, and the connection that [NewServer] prepares. *)

From Stdlib Require Import ZArith Lia.
From stdpp Require Import sorting.
From S2P Require Import Prelude Ascii Utf8 Strconv GoPath MemFS HttpRoute.

Local Open Scope Z_scope.

(** ** Requests and responses *)

Inductive RequestMethod : Type :=
| RequestMethodGet | RequestMethodConnect | RequestMethodDelete | RequestMethodHead | RequestMethodOptions
| RequestMethodPatch | RequestMethodPost | RequestMethodPut | RequestMethodTrace.
Inductive RequestType : Type :=
| RequestTypeNone | RequestTypeQuery | RequestTypeForm | RequestTypeMultipartForm | RequestTypeJSON.
Inductive ResponseType : Type :=
| ResponseTypeNone | ResponseTypeBinary | ResponseTypeHTML | ResponseTypeJSON | ResponseTypePlain | ResponseTypeXML.

Definition form : Type := gmap (list Z) (list (list Z)).
Record request (X : Type) : Type := mkReq {
  Method : list Z; URL_Path : list Z; Body : option (list Z); Form : option form; rest : X
}.
Arguments mkReq {X} _ _ _ _ _.
Arguments Method {X} _.
Arguments URL_Path {X} _.
Arguments Body {X} _.
Arguments Form {X} _.
Arguments rest {X} _.
Definition set_Body {X} (r : request X) v := mkReq (Method r) (URL_Path r) v (Form r) (rest r).
Definition set_Form {X} (r : request X) v := mkReq (Method r) (URL_Path r) (Body r) v (rest r).

(** [http.ResponseWriter]: the header, the status and the header as they are sent with
    it, and the body. *)
Record response : Type := mkRes { r_header : gmap (list Z) (list Z); sent : option (Z * gmap (list Z) (list Z)); r_body : list Z }.
Definition fresh_response : response := mkRes ∅ None [].
Definition Header_Set (r : response) (k v : list Z) : response := mkRes (<[k := v]> (r_header r)) (sent r) (r_body r).
(** [WriteHeader]: the first one counts; a status that is no status panics. *)
Definition WriteHeader (r : response) (code : Z) : outcome unit response :=
  match sent r with
  | Some _ => Ok r
  | None => if (code <? 100) || (999 <? code) then Panic else Ok (mkRes (r_header r) (Some (code, r_header r)) (r_body r))
  end.
Definition bodyAllowed (code : Z) : bool := negb (in_range code 100 199 || (code =? 204) || (code =? 304)).
Definition Write (r : response) (data : list Z) : outcome unit response :=
  r ← WriteHeader r 200;
  match sent r with
  | Some (code, _) => if bodyAllowed code then Ok (mkRes (r_header r) (sent r) (r_body r ++ data)) else Ok r
  | None => Ok r
  end.

(** An error: one of package [lib/errors], or another. *)
Record E : Type := mkE { Code : Z; E_Message : list Z; E_Name : list Z }.
Inductive error : Type := isE (e : E) | other_error (text : list Z).
Definition Internal : E := mkE 500 (str "internal server error") (str "ERR_INTERNAL").

(** ** Endpoints *)

Definition ContentEncoding_key : list Z := str "Content-Encoding".
Definition ContentLength_key : list Z := str "Content-Length".
Definition ContentType_key : list Z := str "Content-Type".
Definition ContentTypeBinary : list Z := str "application/octet-stream".
Definition ContentTypeJSON : list Z := str "application/json".
Definition ContentTypePlain : list Z := str "text/plain; charset=utf-8".
Definition HeaderLocation : list Z := str "Location".

Section Server.
Context `{Unicode} {X : Type}.
(** [ParseForm] and [ParseMultipartForm] of [net/http]: a form, which is not nil, or an
    error; and [json.Marshal]. *)
Context (ParseForm ParseMultipartForm : request X -> option form) (Marshal : E -> list Z).
(** [ioutil.ReadFile]. *)
Context (ReadFile : list Z -> option (list Z)).

Definition Evaluator : Type := request X -> list Z -> request X * option error.
Definition Callback : Type := response -> request X -> list Z -> response * (list Z + error).
Record Endpoint : Type := mkEndpoint {
  ep_Method : RequestMethod; ep_Path : list Z; ep_RequestType : RequestType; ep_ResponseType : ResponseType;
  ep_Eval : option Evaluator; ep_Call : option Callback
}.
Definition HTTPMethod (ep : Endpoint) : list Z :=
  match ep_Method ep with
  | RequestMethodGet => str "GET"
  | RequestMethodConnect => str "CONNECT"
  | RequestMethodDelete => str "DELETE"
  | RequestMethodHead => str "HEAD"
  | RequestMethodOptions => str "OPTIONS"
  | RequestMethodPatch => str "PATCH"
  | RequestMethodPost => str "POST"
  | RequestMethodPut => str "PUT"
  | RequestMethodTrace => str "TRACE"
  end.

(** [error]. *)
Definition ep_error (res : response) (e : error) : outcome unit response :=
  let se := match e with
            | other_error _ => Internal
            | isE e => if Code e =? 0 then mkE 500 (E_Message e) (E_Name e) else e
            end in
  res ← WriteHeader res (Code se);
  Write (Header_Set res ContentType_key ContentTypeJSON) (Marshal se).

(** The values of the path in the form: a form that is nil panics. *)
Definition set_value (f : option form) (kv : list Z * list Z) : outcome unit (option form) :=
  if isnil kv.1 || isnil kv.2 then Ok f else match f with Some f => Ok (Some (<[kv.1 := [kv.2]]> f)) | None => Panic end.
Fixpoint set_values (f : option form) (vals : list (list Z * list Z)) : outcome unit (option form) :=
  match vals with [] => Ok f | kv :: vals => f ← set_value f kv; set_values f vals end.

(** The evaluators in turn, up to one that gives an error. *)
Fixpoint evaluate (es : list Evaluator) (req : request X) (body : list Z) : request X * option error :=
  match es with
  | [] => (req, None)
  | e :: es => match e req body with (req, None) => evaluate es req body | r => r end
  end.

Definition response_type (res : response) (t : ResponseType) : response :=
  match t with
  | ResponseTypeBinary => Header_Set res ContentType_key ContentTypeBinary
  | ResponseTypeJSON => Header_Set res ContentType_key ContentTypeJSON
  | ResponseTypePlain => Header_Set res ContentType_key ContentTypePlain
  | _ => res
  end.

(** [call]. *)
Definition parse_form (ep : Endpoint) (req : request X) : option (request X) :=
  match ep_RequestType ep with
  | RequestTypeForm | RequestTypeQuery | RequestTypeJSON => (fun f => set_Form req (Some f)) <$> ParseForm req
  | RequestTypeMultipartForm => (fun f => set_Form req (Some f)) <$> ParseMultipartForm req
  | RequestTypeNone => Some req
  end.
Definition run_call (ep : Endpoint) (res : response) (req : request X) (body : list Z) : outcome unit response :=
  match ep_Call ep with
  | None => Panic
  | Some f =>
      match f res req body with
      | (res, inr e) => ep_error res e
      | (res, inl rspb) =>
          match ep_ResponseType ep with
          | ResponseTypeNone => WriteHeader res 204
          | t => Write (response_type res t) rspb
          end
      end
  end.
Definition ep_call (ep : Endpoint) (res : response) (req : request X) (evals : list Evaluator)
    (vals : gmap (list Z) (list Z)) : outcome unit response :=
  match Body req with
  | None => WriteHeader res 400
  | Some body =>
      match parse_form ep req with
      | None => WriteHeader res 400
      | Some req =>
          f ← set_values (Form req) (map_to_list vals);
          match evaluate (evals ++ option_list (ep_Eval ep)) (set_Form req f) body with
          | (_, Some e) => ep_error res e
          | (req, None) => run_call ep res req body
          end
      end
  end.

(** ** The server *)

(** The endpoints of the program, by their addresses: the server keeps pointers to them,
    and the functions of registration change what they point to. *)
Record Server : Type := mkServer {
  endpoints : gmap nat Endpoint;
  Memfs : option MemFS; evals : list Evaluator;
  routeDeletes : list (route nat); routeGets : list (route nat); routePatches : list (route nat);
  routePosts : list (route nat); routePuts : list (route nat)
}.
Definition NewServer (fs : option MemFS) : Server := mkServer ∅ fs [] [] [] [] [] [].
Definition RegisterEvaluator (s : Server) (e : Evaluator) : Server :=
  mkServer (endpoints s) (Memfs s) (evals s ++ [e]) (routeDeletes s) (routeGets s) (routePatches s) (routePosts s) (routePuts s).
Definition set_endpoint (s : Server) (a : nat) (ep : Endpoint) : Server :=
  mkServer (<[a := ep]> (endpoints s)) (Memfs s) (evals s) (routeDeletes s) (routeGets s) (routePatches s) (routePosts s) (routePuts s).
Definition set_deletes (s : Server) rs : Server :=
  mkServer (endpoints s) (Memfs s) (evals s) rs (routeGets s) (routePatches s) (routePosts s) (routePuts s).
Definition set_gets (s : Server) rs : Server :=
  mkServer (endpoints s) (Memfs s) (evals s) (routeDeletes s) rs (routePatches s) (routePosts s) (routePuts s).
Definition set_patches (s : Server) rs : Server :=
  mkServer (endpoints s) (Memfs s) (evals s) (routeDeletes s) (routeGets s) rs (routePosts s) (routePuts s).
Definition set_posts (s : Server) rs : Server :=
  mkServer (endpoints s) (Memfs s) (evals s) (routeDeletes s) (routeGets s) (routePatches s) rs (routePuts s).
Definition set_puts (s : Server) rs : Server :=
  mkServer (endpoints s) (Memfs s) (evals s) (routeDeletes s) (routeGets s) (routePatches s) (routePosts s) rs.

(** What the [Register] functions share: nothing happens to an address that is nil or an
    endpoint without a call; the endpoint is changed, also where an error follows; and the
    routes get a new one, with the address. *)
Definition register (s : Server) (a : nat) (change : Endpoint -> Endpoint) (routes : Server -> list (route nat))
    (set_routes : Server -> list (route nat) -> Server) : outcome unit (Server * option route_error) :=
  match endpoints s !! a with
  | None => Ok (s, None)
  | Some ep =>
      match ep_Call ep with
      | None => Ok (s, None)
      | Some _ =>
          let ep := change ep in
          let s := set_endpoint s a ep in
          if existsb (fun r => bool_decide (is_Some (parse r (ep_Path ep)))) (routes s) then Ok (s, Some ErrEndpointAmbiguous)
          else match newRoute (ep_Path ep) a with
               | Ok r => Ok (set_routes s (routes s ++ [r]), None)
               | Err e => Ok (s, Some e)
               | Panic => Panic
               | NoFuel => NoFuel
               end
      end
  end.
Definition with_method (m : RequestMethod) (ep : Endpoint) : Endpoint :=
  mkEndpoint m (ep_Path ep) (ep_RequestType ep) (ep_ResponseType ep) (ep_Eval ep) (ep_Call ep).
Definition query_endpoint (m : RequestMethod) (ep : Endpoint) : Endpoint :=
  mkEndpoint m (ep_Path ep) RequestTypeQuery (ep_ResponseType ep) (ep_Eval ep) (ep_Call ep).
Definition put_endpoint (ep : Endpoint) : Endpoint :=
  mkEndpoint RequestMethodPut (ep_Path ep) (ep_RequestType ep) ResponseTypeNone (ep_Eval ep) (ep_Call ep).
Definition RegisterDelete (s : Server) (a : nat) : outcome unit (Server * option route_error) :=
  register s a (query_endpoint RequestMethodDelete) routeDeletes set_deletes.
Definition RegisterGet (s : Server) (a : nat) : outcome unit (Server * option route_error) :=
  register s a (query_endpoint RequestMethodGet) routeGets set_gets.
Definition RegisterPatch (s : Server) (a : nat) : outcome unit (Server * option route_error) :=
  register s a (with_method RequestMethodPatch) routePatches set_patches.
Definition RegisterPost (s : Server) (a : nat) : outcome unit (Server * option route_error) :=
  register s a (with_method RequestMethodPost) routePosts set_posts.
Definition RegisterPut (s : Server) (a : nat) : outcome unit (Server * option route_error) :=
  register s a put_endpoint routePuts set_puts.

(** The first route that the path matches, and the values of its keys. *)
Fixpoint find_route (routes : list (route nat)) (path : list Z) : option (nat * gmap (list Z) (list Z)) :=
  match routes with
  | [] => None
  | r :: routes => match parse r path with Some vals => Some (r_endpoint r, vals) | None => find_route routes path end
  end.
Definition handle_routes (s : Server) (routes : list (route nat)) (res : response) (req : request X)
    (otherwise : outcome unit response) : outcome unit response :=
  match find_route routes (URL_Path req) with
  | Some (a, vals) => match endpoints s !! a with Some ep => ep_call ep res req (evals s) vals | None => Panic end
  | None => otherwise
  end.
Definition handleDelete (s : Server) (res : response) (req : request X) : outcome unit response :=
  handle_routes s (routeDeletes s) res req (WriteHeader res 404).
Definition handlePatch (s : Server) (res : response) (req : request X) : outcome unit response :=
  handle_routes s (routePatches s) res req (WriteHeader res 404).
Definition handlePost (s : Server) (res : response) (req : request X) : outcome unit response :=
  handle_routes s (routePosts s) res req (WriteHeader res 404).
Definition handlePut (s : Server) (res : response) (req : request X) : outcome unit response :=
  handle_routes s (routePuts s) res req (WriteHeader res 404).

(** ** Files *)

Definition index_html : list Z := str "index.html".
Definition getFSNode (s : Server) (reqPath : list Z) : option Node :=
  fs ← Memfs s;
  let '(reqPath, found) := match Get fs reqPath with
                           | Some (_, n) => (reqPath, Some n)
                           | None => let p := Join reqPath index_html in (p, snd <$> Get fs p)
                           end in
  n ← found;
  if is_dir n then snd <$> Get fs (Join reqPath index_html) else Some n.

Definition handleFS (s : Server) (res : response) (req : request X) (head : bool) : outcome unit response :=
  match getFSNode s (URL_Path req) with
  | None => WriteHeader res 404
  | Some n =>
      let res := Header_Set res ContentType_key (ContentType n) in
      let res := if isnil (ContentEncoding n) then res else Header_Set res ContentEncoding_key (ContentEncoding n) in
      match (if isnil (V n) then (fun b => (b, Z.of_nat (length b))) <$> ReadFile (SysPath n) else Some (V n, size n)) with
      | None => WriteHeader res 500
      | Some (body, sz) =>
          res ← WriteHeader (Header_Set res ContentLength_key (dec sz)) 200;
          if head then Ok res else Write res body
      end
  end.

Definition handleGet (s : Server) (res : response) (req : request X) : outcome unit response :=
  handle_routes s (routeGets s) res req (handleFS s res req false).
Definition handleHead (s : Server) (res : response) (req : request X) : outcome unit response :=
  match find_route (routeGets s) (URL_Path req) with
  | None => handleFS s res req true
  | Some (a, _) =>
      match ep_ResponseType <$> endpoints s !! a with
      | None => Panic
      | Some ResponseTypeNone => WriteHeader res 204
      | Some t => WriteHeader (response_type res t) 200
      end
  end.

(** [handleOptions]: the methods in the order of their names. *)
Definition methods_of (s : Server) (path : list Z) : gset (list Z) :=
  let on (b : bool) (ms : list (list Z)) : gset (list Z) := if b then list_to_set ms else ∅ in
  let matched routes := bool_decide (is_Some (find_route routes path)) in
  on (bool_decide (is_Some (getFSNode s path))) [str "GET"; str "HEAD"] ∪ on (matched (routeDeletes s)) [str "DELETE"] ∪
  on (matched (routeGets s)) [str "GET"] ∪ on (matched (routePatches s)) [str "PATCH"] ∪
  on (matched (routePosts s)) [str "POST"] ∪ on (matched (routePuts s)) [str "PUT"].
Fixpoint comma (l : list (list Z)) : list Z :=
  match l with [] => [] | [x] => x | x :: l => x ++ str ", " ++ comma l end.
Definition handleOptions (s : Server) (res : response) (req : request X) : outcome unit response :=
  let methods := methods_of s (URL_Path req) in
  if decide (methods = ∅) then WriteHeader res 404
  else
    let allows := merge_sort bytes_leq (elements (methods ∪ {[ str "OPTIONS" ]})) in
    WriteHeader (Header_Set res (str "Allow") (comma allows)) 200.

Definition ServeHTTP (s : Server) (res : response) (req : request X) : outcome unit response :=
  if bool_decide (Method req = str "DELETE") then handleDelete s res req
  else if bool_decide (Method req = str "GET") then handleGet s res req
  else if bool_decide (Method req = str "HEAD") then handleHead s res req
  else if bool_decide (Method req = str "OPTIONS") then handleOptions s res req
  else if bool_decide (Method req = str "PATCH") then handlePatch s res req
  else if bool_decide (Method req = str "POST") then handlePost s res req
  else if bool_decide (Method req = str "PUT") then handlePut s res req
  else WriteHeader res 501.

Definition RedirectTemp (res : response) (url : list Z) : outcome unit response :=
  WriteHeader (Header_Set res HeaderLocation (if isnil url then [slash] else url)) 307.
End Server.
