(* ===== verification/HttpServerFacts.v ===== *)
(** Proofs on [HttpServer]: what is answered, and when a request panics; and that the
    files of a mounted directory are served.

    A registration changes an endpoint that other routes may point to, so the invariant of
    a server speaks of its routes and of the endpoints behind them ([good_server]). *)

From Stdlib Require Import ZArith Lia.
From S2P Require Import Prelude Ascii Utf8 Strconv GoPath MemFS MemFSFacts HttpRoute HttpServer.

Local Open Scope Z_scope.

Section Server.
Context `{U : Unicode} {X : Type}.
Context (ParseForm ParseMultipartForm : request X -> option form) (Marshal : E -> list Z) (ReadFile : list Z -> option (list Z)).
Abbreviation ServeHTTP := (ServeHTTP ParseForm ParseMultipartForm Marshal ReadFile).
Abbreviation ep_call := (ep_call ParseForm ParseMultipartForm Marshal).
Abbreviation Server := (Server (X := X)).
Abbreviation Endpoint := (Endpoint (X := X)).

(** ** Answers *)

(** The request was answered, with some status. *)
Definition answered (o : outcome unit response) : Prop := exists r, o = Ok r /\ is_Some (sent r).

Lemma WriteHeader_answered r code : 100 <= code <= 999 -> answered (WriteHeader r code).
Proof.
  intros H. unfold WriteHeader. destruct (sent r) eqn:E; [exists r; by rewrite E|].
  rewrite (proj2 (Z.ltb_ge _ _)), (proj2 (Z.ltb_ge _ _)) by lia. eexists. split; [done|]. by eexists.
Qed.

Lemma Write_answered r data : answered (Write r data).
Proof.
  unfold Write. destruct (WriteHeader_answered r 200) as (r' & -> & [[c h] Hs]); [lia|]. cbn [mbind outcome_bind]. rewrite Hs.
  destruct (bodyAllowed c); eexists; (split; [done|]); cbn; rewrite ?Hs; by eexists.
Qed.

Lemma answered_bind o f : answered o -> (forall r, answered (f r)) -> answered (o ≫= f).
Proof. intros (r & -> & _) Hf. apply Hf. Qed.

(** The errors that the programs of the user give have a status, or none. *)
Definition good_error (e : error) : Prop := match e with isE e => Code e = 0 \/ 100 <= Code e <= 999 | other_error _ => True end.
Definition good_eval (ev : Evaluator (X := X)) : Prop := forall req body req' e, ev req body = (req', Some e) -> good_error e.
Definition good_call (f : Callback (X := X)) : Prop := forall res req body res' e, f res req body = (res', inr e) -> good_error e.
Definition good_endpoint (ep : Endpoint) : Prop :=
  (exists f, ep_Call ep = Some f /\ good_call f) /\ (forall ev, ep_Eval ep = Some ev -> good_eval ev).

Lemma ep_error_answered res e : good_error e -> answered (ep_error Marshal res e).
Proof.
  intros He. unfold ep_error. apply answered_bind; [|intros r; apply Write_answered]. apply WriteHeader_answered.
  destruct e as [e|]; cbn; [|lia]. cbn in He. destruct (Z.eqb_spec (Code e) 0); cbn; lia.
Qed.

Lemma evaluate_good es : Forall good_eval es -> forall req body req' e, evaluate es req body = (req', Some e) -> good_error e.
Proof.
  induction 1 as [|ev es Hev _ IH]; intros req body req' e He; [done|]. cbn [evaluate] in He.
  destruct (ev req body) as [r [e'|]] eqn:E; [injection He as -> ->; by eapply Hev|by eapply IH].
Qed.

(** A form that is nil and a value for it. *)
Definition valued (vals : gmap (list Z) (list Z)) : Prop := exists k v, vals !! k = Some v /\ k <> [] /\ v <> [].

Lemma set_values_spec vals : forall f,
  match set_values f vals with
  | Ok f' => f <> None \/ Forall (fun kv => kv.1 = [] \/ kv.2 = []) vals
  | Panic => f = None /\ Exists (fun kv => kv.1 <> [] /\ kv.2 <> []) vals
  | _ => False
  end.
Proof.
  induction vals as [|[k v] vals IH]; intros f; cbn [set_values]; [by right|]. unfold set_value. cbn [fst snd].
  destruct (isnil k || isnil v) eqn:E; [|destruct f as [f|]]; cbn [mbind outcome_bind].
  - specialize (IH f). apply orb_true_iff in E. assert (k = [] \/ v = []) by (destruct E, k, v; naive_solver).
    destruct (set_values f vals); try done; [|naive_solver]. destruct IH; [by left|right; by constructor].
  - specialize (IH (Some (<[k:=[v]]> f))). destruct (set_values _ vals); try done; [by left|]. by destruct IH.
  - apply orb_false_iff in E. split; [done|]. left. cbn. by destruct k, v; naive_solver.
Qed.

Lemma valued_list vals : valued vals <-> Exists (fun kv => kv.1 <> [] /\ kv.2 <> []) (map_to_list vals).
Proof.
  rewrite Exists_exists. split.
  - intros (k & v & Hk & H1 & H2). exists (k, v). by rewrite elem_of_map_to_list.
  - intros ([k v] & Hk%elem_of_map_to_list & H1 & H2). by exists k, v.
Qed.

Lemma set_values_map f vals :
  (exists f', set_values f (map_to_list vals) = Ok f') \/ (set_values f (map_to_list vals) = Panic /\ f = None /\ valued vals).
Proof.
  pose proof (set_values_spec (map_to_list vals) f) as H. destruct (set_values f (map_to_list vals)) as [f'| | |]; try done; [left; by exists f'|].
  right. split; [done|]. by rewrite valued_list.
Qed.

Lemma set_values_panics vals : valued vals -> set_values None (map_to_list vals) = Panic.
Proof.
  rewrite valued_list. intros Hv. pose proof (set_values_spec (map_to_list vals) None) as H.
  destruct (set_values None (map_to_list vals)) as [f'| | |]; try done. destruct H as [H|H]; [done|].
  exfalso. apply Exists_exists in Hv as (kv & Hin & H1 & H2). rewrite Forall_forall in H. by destruct (H kv Hin).
Qed.

(** ** Calls *)

Lemma run_call_answered ep res req body : good_endpoint ep -> answered (run_call Marshal ep res req body).
Proof.
  intros [(f & Hf & Hg) _]. unfold run_call. rewrite Hf. destruct (f res req body) as [res' [rspb|e]] eqn:E; [|by eapply ep_error_answered, Hg].
  destruct (ep_ResponseType ep); first [apply WriteHeader_answered; lia|apply Write_answered].
Qed.

Definition nil_form (ep : Endpoint) (req : request X) (vals : gmap (list Z) (list Z)) : Prop :=
  ep_RequestType ep = RequestTypeNone /\ Form req = None /\ is_Some (Body req) /\ valued vals.

Lemma ep_call_spec ep res req es vals : good_endpoint ep -> Forall good_eval es ->
  (nil_form ep req vals /\ ep_call ep res req es vals = Panic) \/ (~ nil_form ep req vals /\ answered (ep_call ep res req es vals)).
Proof.
  intros Hep Hes. unfold HttpServer.ep_call, nil_form. destruct (Body req) as [body|] eqn:Eb; [|right; split; [by intros (_ & _ & [? ?] & _)|apply WriteHeader_answered; lia]].
  assert (Hrest : forall req' f, answered (match evaluate (es ++ option_list (ep_Eval ep)) (set_Form req' f) body with
          | (_, Some e) => ep_error Marshal res e | (req, None) => run_call Marshal ep res req body end)).
  { intros req' f. destruct (evaluate _ _ _) as [r [e|]] eqn:E; [|by apply run_call_answered]. apply ep_error_answered. eapply evaluate_good; [|exact E].
    apply Forall_app. split; [done|]. destruct Hep as [_ Hev]. destruct (ep_Eval ep) as [ev|] eqn:Ev; cbn; [|done]. constructor; [by apply Hev|done]. }
  assert (Hform : forall f, answered (match (fun f => set_Form req (Some f)) <$> f with
          | None => WriteHeader res 400
          | Some req => f ← set_values (Form req) (map_to_list vals);
              match evaluate (es ++ option_list (ep_Eval ep)) (set_Form req f) body with
              | (_, Some e) => ep_error Marshal res e | (req, None) => run_call Marshal ep res req body end end)).
  { intros [f|]; cbn [fmap option_fmap option_map]; [|apply WriteHeader_answered; lia].
    destruct (set_values_map (Some f) vals) as [[f' Hf]|(_ & ? & _)]; [|done]. cbn [Form set_Form]. rewrite Hf. apply Hrest. }
  unfold parse_form. destruct (ep_RequestType ep) eqn:Et; try (right; split; [by intros (? & _)|apply Hform]).
  destruct (Form req) as [f|] eqn:Ef.
  - right. split; [by intros (_ & ? & _)|]. destruct (set_values_map (Some f) vals) as [[f' ->]|(_ & ? & _)]; [|done]. apply Hrest.
  - destruct (set_values_map None vals) as [[f' Hf]|(Hp & _ & Hv)].
    + right. split; [intros (_ & _ & _ & Hv); by rewrite (set_values_panics vals Hv) in Hf|]. rewrite Hf. apply Hrest.
    + left. rewrite Hp. split; [|done]. repeat split; [by eexists|done].
Qed.

(** ** Servers

    What the functions of registration make, of programs that give good errors; the
    registrations that are refused are among them, and an endpoint may be registered more
    than once. *)
Inductive built : Server -> Prop :=
| built_new fs : built (NewServer fs)
| built_evaluator s ev : built s -> good_eval ev -> built (RegisterEvaluator s ev)
| built_endpoint s a ep : built s -> endpoints s !! a = None -> (ep_Call ep <> None -> good_endpoint ep) -> built (set_endpoint s a ep)
| built_delete s a s' e : built s -> RegisterDelete s a = Ok (s', e) -> built s'
| built_get s a s' e : built s -> RegisterGet s a = Ok (s', e) -> built s'
| built_patch s a s' e : built s -> RegisterPatch s a = Ok (s', e) -> built s'
| built_post s a s' e : built s -> RegisterPost s a = Ok (s', e) -> built s'
| built_put s a s' e : built s -> RegisterPut s a = Ok (s', e) -> built s'.

(** The endpoint of a route is there and good, and asks for the query if it is to. *)
Definition sound (es : gmap nat Endpoint) (q : bool) (r : route nat) : Prop :=
  exists ep, es !! r_endpoint r = Some ep /\ good_endpoint ep /\ (q = true -> ep_RequestType ep = RequestTypeQuery).
Record good_server (s : Server) : Prop := {
  gs_evals : Forall good_eval (evals s);
  gs_endpoints : map_Forall (fun _ ep => ep_Call ep <> None -> good_endpoint ep) (endpoints s);
  gs_deletes : Forall (sound (endpoints s) true) (routeDeletes s);
  gs_gets : Forall (sound (endpoints s) true) (routeGets s);
  gs_patches : Forall (sound (endpoints s) false) (routePatches s);
  gs_posts : Forall (sound (endpoints s) false) (routePosts s);
  gs_puts : Forall (sound (endpoints s) false) (routePuts s)
}.

(** What a registration leaves of an endpoint: its programs, and that it asks for the
    query. *)
Record keeps (change : Endpoint -> Endpoint) : Prop := {
  kp_call ep : ep_Call (change ep) = ep_Call ep;
  kp_eval ep : ep_Eval (change ep) = ep_Eval ep;
  kp_query ep : ep_RequestType ep = RequestTypeQuery -> ep_RequestType (change ep) = RequestTypeQuery
}.
Lemma keeps_good change ep : keeps change -> good_endpoint ep -> good_endpoint (change ep).
Proof. intros [Hc He _]. unfold good_endpoint. by rewrite Hc, He. Qed.

Lemma sound_insert es a ep ep' q r : sound es q r -> es !! a = None \/ (exists change, es !! a = Some ep /\ keeps change /\ ep' = change ep) ->
  sound (<[a := ep']> es) q r.
Proof.
  intros (ep0 & Hl & Hg & Hq) Ha. unfold sound. destruct (decide (a = r_endpoint r)) as [->|Hne].
  - destruct Ha as [Ha|(change & Ha & Hk & ->)]; [congruence|]. rewrite lookup_insert_eq. assert (ep0 = ep) as -> by congruence.
    exists (change ep). split; [done|]. split; [by apply keeps_good|]. intros H. apply (kp_query _ Hk). by apply Hq.
  - exists ep0. by rewrite lookup_insert_ne.
Qed.

Lemma good_insert s a ep ep' : good_server s -> (ep_Call ep' <> None -> good_endpoint ep') ->
  endpoints s !! a = None \/ (exists change, endpoints s !! a = Some ep /\ keeps change /\ ep' = change ep) -> good_server (set_endpoint s a ep').
Proof.
  intros [] Hg Ha. assert (Hr : forall q rs, Forall (sound (endpoints s) q) rs -> Forall (sound (<[a := ep']> (endpoints s)) q) rs).
  { intros q rs Hrs. eapply Forall_impl; [exact Hrs|]. intros r Hs. by apply (sound_insert _ _ ep). }
  split; cbn; auto. by apply map_Forall_insert_2.
Qed.

Lemma register_good s a change routes set_routes q s' e : good_server s -> keeps change ->
  (forall ep, q = true -> ep_RequestType (change ep) = RequestTypeQuery) ->
  (forall s, good_server s -> Forall (sound (endpoints s) q) (routes s)) ->
  (forall s rs, good_server s -> Forall (sound (endpoints s) q) rs -> good_server (set_routes s rs)) ->
  register s a change routes set_routes = Ok (s', e) -> good_server s'.
Proof.
  intros Hg Hk Hq Hr Hset. unfold register. destruct (endpoints s !! a) as [ep|] eqn:Ea; [|by intros [= <- _]].
  destruct (ep_Call ep) as [f|] eqn:Ec; [|by intros [= <- _]].
  assert (Hgood : good_endpoint (change ep)). { apply keeps_good; [done|]. apply (gs_endpoints _ Hg a ep Ea). by rewrite Ec. }
  assert (Hs : good_server (set_endpoint s a (change ep))). { apply (good_insert s a ep); [done|done|]. right. by exists change. }
  destruct (existsb _ _); [by intros [= <- _]|]. destruct (newRoute _ a) as [r|e'| |] eqn:En; try done; [|by intros [= <- _]].
  intros [= <- _]. apply Hset; [done|]. apply Forall_app. split; [by apply (Hr _ Hs)|]. constructor; [|done].
  apply newRoute_made in En as (_ & _ & _ & He). exists (change ep). rewrite He. cbn. rewrite lookup_insert_eq. split; [done|]. split; [done|apply Hq].
Qed.

(** One registration, for the query or not. *)
Ltac by_registration IH q H :=
  eapply (register_good _ _ _ _ _ q _ _ IH); [| | | |exact H]; [by split|done|by intros ? []|intros ? ? [] ?; by split].
Lemma built_good s : built s -> good_server s.
Proof.
  induction 1 as [fs|s ev _ IH Hev|s a ep _ IH Ha Hg|s a s' e _ IH H|s a s' e _ IH H|s a s' e _ IH H|s a s' e _ IH H|s a s' e _ IH H].
  - by split.
  - destruct IH. split; try done. apply Forall_app. by repeat constructor.
  - apply (good_insert s a ep); [done|done|by left].
  - by_registration IH true H.
  - by_registration IH true H.
  - by_registration IH false H.
  - by_registration IH false H.
  - by_registration IH false H.
Qed.

Lemma find_route_Forall (P : route nat -> Prop) rs path a vals : Forall P rs -> find_route rs path = Some (a, vals) ->
  exists r, P r /\ r_endpoint r = a.
Proof.
  induction 1 as [|r rs Hr _ IH]; [done|]. cbn [find_route]. destruct (parse r path) as [v|]; [|apply IH]. intros [= <- _]. by exists r.
Qed.

(** ** Requests *)

Lemma handleFS_answered (s : Server) res (req : request X) b : answered (handleFS ReadFile s res req b).
Proof.
  unfold handleFS. destruct (getFSNode s (URL_Path req)) as [n|]; [|apply WriteHeader_answered; lia].
  destruct (if isnil (V n) then _ else _) as [[body sz]|]; [|apply WriteHeader_answered; lia]. cbn zeta.
  match goal with |- context [WriteHeader ?r 200] => destruct (WriteHeader_answered r 200) as (r' & -> & Hs); [lia|] end. cbn [mbind outcome_bind].
  destruct b; [by exists r'|apply Write_answered].
Qed.

(** The routes of a method that has the form of the user. *)
Definition form_routes (s : Server) (m : list Z) : list (route nat) :=
  if bool_decide (m = str "PATCH") then routePatches s
  else if bool_decide (m = str "POST") then routePosts s
  else if bool_decide (m = str "PUT") then routePuts s else [].
Definition nil_request (s : Server) (req : request X) : Prop :=
  exists a ep vals, find_route (form_routes s (Method req)) (URL_Path req) = Some (a, vals) /\ endpoints s !! a = Some ep /\ nil_form ep req vals.

Lemma handle_routes_spec (s : Server) rs q res req o : Forall good_eval (evals s) -> Forall (sound (endpoints s) q) rs -> answered o ->
  let bad := exists a ep vals, find_route rs (URL_Path req) = Some (a, vals) /\ endpoints s !! a = Some ep /\ nil_form ep req vals in
  let a := handle_routes ParseForm ParseMultipartForm Marshal s rs res req o in
  (q = false /\ bad /\ a = Panic) \/ (~ bad /\ answered a).
Proof.
  intros He Hr Ho. unfold handle_routes. destruct (find_route rs (URL_Path req)) as [[a vals]|] eqn:Ef; [|right; split; [by intros (? & ? & ? & ? & _)|done]].
  destruct (find_route_Forall _ _ _ _ _ Hr Ef) as (r & (ep & Ha & Hg & Hq) & <-). rewrite Ha.
  destruct (ep_call_spec ep res req (evals s) vals Hg He) as [[Hn Hp]|[Hn Hans]].
  - left. split; [|by split; [exists (r_endpoint r), ep, vals|]]. destruct q; [|done]. destruct Hn as [Ht _]. by rewrite (Hq eq_refl) in Ht.
  - right. split; [|done]. intros (a' & ep' & vals' & [= <- <-] & ? & ?). by assert (ep' = ep) as -> by congruence.
Qed.

Lemma handle_query (s : Server) rs res req o : Forall good_eval (evals s) -> Forall (sound (endpoints s) true) rs -> answered o ->
  answered (handle_routes ParseForm ParseMultipartForm Marshal s rs res req o).
Proof. intros He Hr Ho. by destruct (handle_routes_spec s rs true res req o He Hr Ho) as [[? _]|[_ ?]]. Qed.

Lemma handle_form (s : Server) rs res req o : Forall good_eval (evals s) -> Forall (sound (endpoints s) false) rs -> answered o ->
  let bad := exists a ep vals, find_route rs (URL_Path req) = Some (a, vals) /\ endpoints s !! a = Some ep /\ nil_form ep req vals in
  let a := handle_routes ParseForm ParseMultipartForm Marshal s rs res req o in
  (bad /\ a = Panic) \/ (~ bad /\ answered a).
Proof. intros He Hr Ho. destruct (handle_routes_spec s rs false res req o He Hr Ho) as [[_ ?]|?]; [by left|by right]. Qed.

Lemma ServeHTTP_spec s res req : built s ->
  (nil_request s req /\ ServeHTTP s res req = Panic) \/ (~ nil_request s req /\ answered (ServeHTTP s res req)).
Proof.
  intros Hb%built_good. destruct Hb as [He _ Hd Hg Hpa Hpo Hpu]. unfold HttpServer.ServeHTTP.
  assert (H404 : answered (WriteHeader res 404)) by (apply WriteHeader_answered; lia).
  assert (Hno : form_routes s (Method req) = [] -> ~ nil_request s req) by (intros Hf (a & ep & vals & H & _); by rewrite Hf in H).
  unfold nil_request, form_routes in *.
  destruct (bool_decide (Method req = str "DELETE")) eqn:E1.
  { apply bool_decide_eq_true in E1. rewrite E1 in *. right. split; [by apply Hno|]. by apply handle_query. }
  destruct (bool_decide (Method req = str "GET")) eqn:E2.
  { apply bool_decide_eq_true in E2. rewrite E2 in *. right. split; [by apply Hno|]. apply handle_query; [done|done|apply handleFS_answered]. }
  destruct (bool_decide (Method req = str "HEAD")) eqn:E3.
  { apply bool_decide_eq_true in E3. rewrite E3 in *. right. split; [by apply Hno|]. unfold handleHead.
    destruct (find_route (routeGets s) _) as [[a vals]|] eqn:Ef; [|apply handleFS_answered].
    destruct (find_route_Forall _ _ _ _ _ Hg Ef) as (r & (ep & Ha & _) & <-). rewrite Ha. cbn. destruct (ep_ResponseType ep); apply WriteHeader_answered; lia. }
  destruct (bool_decide (Method req = str "OPTIONS")) eqn:E4.
  { apply bool_decide_eq_true in E4. rewrite E4 in *. right. split; [by apply Hno|]. unfold handleOptions. destruct (decide _); [done|].
    apply WriteHeader_answered; lia. }
  destruct (bool_decide (Method req = str "PATCH")); [by apply handle_form|].
  destruct (bool_decide (Method req = str "POST")); [by apply handle_form|].
  destruct (bool_decide (Method req = str "PUT")); [by apply handle_form|].
  right. split; [by apply Hno|]. apply WriteHeader_answered; lia.
Qed.
End Server.

(** ** Files *)

Section Files.
Context `{U : Unicode} {X : Type}.
Context (ParseForm ParseMultipartForm : request X -> option form) (Marshal : E -> list Z) (ReadFile : list Z -> option (list Z)).
Abbreviation Server := (Server (X := X)).

Definition file_header (t : list Z) (n : Z) : gmap (list Z) (list Z) := <[ContentLength_key := dec n]> {[ ContentType_key := t ]}.
Definition file_response (t : list Z) (n : Z) (body : list Z) : response :=
  mkRes (file_header t n) (Some (200, file_header t n)) body.

Lemma handleFS_node (s : Server) (req : request X) n : getFSNode s (URL_Path req) = Some n -> ContentEncoding n = [] -> V n <> [] ->
  handleFS ReadFile s fresh_response req false = Ok (file_response (ContentType n) (size n) (V n)).
Proof. intros Hn He Hv. unfold handleFS. rewrite Hn, He. by destruct (V n) as [|c v]. Qed.

Lemma leads_node (s : Server) m k t sz v e : Memfs s = Some m -> leads m k t sz v e ->
  exists n, getFSNode s k = Some n /\ ContentType n = t /\ size n = sz /\ V n = v /\ ContentEncoding n = e.
Proof.
  intros Hm (a & n & Hg & Hd & H1 & H2 & H3 & H4). exists n. unfold getFSNode. rewrite Hm. cbn [mbind option_bind]. rewrite Hg. cbn. by rewrite Hd.
Qed.

Lemma leads_index (s : Server) m segs t sz v e : Memfs s = Some m -> Forall simple segs ->
  (forall t sz v e, ~ leads m (abs segs) t sz v e) -> leads m (abs (segs ++ [index_html])) t sz v e ->
  exists n, getFSNode s (abs segs) = Some n /\ ContentType n = t /\ size n = sz /\ V n = v /\ ContentEncoding n = e.
Proof.
  intros Hm Hs Hno (a & n & Hg & Hd & H1 & H2 & H3 & H4). exists n. split; [|done].
  assert (Hj : Join (abs segs) index_html = abs (segs ++ [index_html])).
  { apply Join_abs; [done|]. by apply (bool_decide_unpack (simple index_html)); vm_compute. }
  unfold getFSNode. rewrite Hm. cbn [mbind option_bind]. destruct (Get m (abs segs)) as [[b nb]|] eqn:Eb; cbn [fst snd mbind option_bind].
  - destruct (is_dir nb) eqn:Ed; [rewrite Hj, Hg; done|]. exfalso. apply (Hno (ContentType nb) (size nb) (V nb) (ContentEncoding nb)). by exists b, nb.
  - rewrite Hj, Hg. cbn [fmap option_fmap option_map snd mbind option_bind]. by rewrite Hd.
Qed.

(** The files of a directory that is mounted: what a path of the directory gives is the
    file there, or the index of the directory there. *)
Lemma mounted_node (s : Server) types detect cfg dir dirSize es order segs t sz v : Forall proper es -> NoDup (entry_name <$> es) ->
  Memfs s = Some (Mount types detect cfg dir dirSize es order) -> Forall simple segs ->
  let files := concat (listed types detect cfg dir [] <$> es) in
  ((segs, t, sz, v) ∈ files \/ (forall t sz v, (segs, t, sz, v) ∉ files) /\ (segs ++ [index_html], t, sz, v) ∈ files) ->
  exists n, getFSNode s (abs segs) = Some n /\ ContentType n = t /\ size n = sz /\ V n = v /\ ContentEncoding n = [].
Proof.
  intros Hp Hn Hm Hs files Hf. pose proof (fun k t sz v e => mount_leads types detect cfg dir dirSize es order k t sz v e Hp Hn) as Hl. fold files in Hl.
  destruct Hf as [Hf|[Hno Hf]].
  - eapply leads_node; [done|]. apply Hl. split; [done|]. by exists segs.
  - eapply leads_index; [done|done| |]; [|apply Hl; split; [done|]; by exists (segs ++ [index_html])].
    intros t' sz' v' e' (_ & segs' & Hsegs & Hin)%Hl. apply abs_inj in Hsegs as <-; [by eapply Hno|done|].
    unfold files in Hin. apply list_elem_of_In, in_concat in Hin as (l & (e0 & -> & He)%list_elem_of_In%list_elem_of_fmap & Hin%list_elem_of_In).
    rewrite Forall_forall in Hp. pose proof (listed_simple types detect cfg e0 dir [] (Forall_nil_2 _) (Hp e0 He)) as Hall. rewrite Forall_forall in Hall. by apply (Hall _ Hin).
Qed.
End Files.

(** ** What holds of the server *)

(** C22: a server made by the functions of registration, of programs whose errors have a
    status or none, with registrations that are refused and endpoints that are registered
    more than once among them, answers every request with a status, for every method and path, with
    one exception: it panics exactly where a PATCH, POST or PUT endpoint that asks for no
    form gets a value from the path of a request whose body can be read. *)
Theorem ServeHTTP_panics_iff `{Unicode} {X : Type} (ParseForm ParseMultipartForm : request X -> option form)
    (Marshal : E -> list Z) (ReadFile : list Z -> option (list Z)) (s : Server) (res : response) (req : request X) (Hs : built s) :
  (ServeHTTP ParseForm ParseMultipartForm Marshal ReadFile s res req = Panic <-> nil_request s req) /\
  (~ nil_request s req -> answered (ServeHTTP ParseForm ParseMultipartForm Marshal ReadFile s res req)).
Proof.
  destruct (ServeHTTP_spec ParseForm ParseMultipartForm Marshal ReadFile s res req Hs) as [[Hn Hp]|[Hn (r & Hr & Ha)]]; [done|].
  rewrite Hr. split; [done|]. intros _. by exists r.
Qed.

(** C21: a server with a mounted directory answers a GET request, whose path no endpoint
    matches, with the file of the directory at the path, or else with the index of the
    directory there: status 200, the content type of the file, the length of its content
    and the content, which is not empty and not above the limit. *)
Theorem get_serves_files `{Unicode} {X : Type} (ParseForm ParseMultipartForm : request X -> option form)
    (Marshal : E -> list Z) (ReadFile : list Z -> option (list Z)) (s : Server) (req : request X)
    (types detect : list Z -> list Z) (cfg : config) (dir : list Z) (dirSize : Z) (es : list entry) (order : MemFS -> list (list Z))
    (segs : list (list Z)) (t v : list Z) (sz : Z)
    (Hp : Forall proper es) (Hn : NoDup (entry_name <$> es)) (Hm : Memfs s = Some (Mount types detect cfg dir dirSize es order))
    (Hs : Forall simple segs) (Hget : Method req = str "GET") (Hpath : URL_Path req = abs segs)
    (Hroute : find_route (routeGets s) (abs segs) = None) (Hv : v <> [])
    (Hf : (segs, t, sz, v) ∈ concat (listed types detect cfg dir [] <$> es) \/
      (forall t sz v, (segs, t, sz, v) ∉ concat (listed types detect cfg dir [] <$> es)) /\
      (segs ++ [index_html], t, sz, v) ∈ concat (listed types detect cfg dir [] <$> es)) :
  ServeHTTP ParseForm ParseMultipartForm Marshal ReadFile s fresh_response req = Ok (file_response t sz v).
Proof.
  destruct (mounted_node s types detect cfg dir dirSize es order segs t sz v Hp Hn Hm Hs Hf) as (n & Hg & <- & <- & <- & He).
  unfold ServeHTTP. rewrite Hget. cbn [bool_decide]. rewrite bool_decide_false, bool_decide_true by done. unfold handleGet, handle_routes.
  rewrite Hpath, Hroute. apply handleFS_node; [by rewrite Hpath|done|done].
Qed.

(** ** Examples *)

#[local] Instance ascii_unicode : Unicode := Build_Unicode (fun _ => false) (fun _ => false) (fun c => c) (fun c => c).
Definition sample_call : Callback (X := unit) := fun res _ body => (res, inl (str "ok: " ++ body)).
Definition sample_endpoint (path : list Z) : Endpoint (X := unit) :=
  mkEndpoint RequestMethodGet path RequestTypeNone ResponseTypePlain None (Some sample_call).
Definition empty_form : request unit -> option form := fun _ => Some ∅.
Definition serve (s : Server) (m p body : list Z) : outcome unit response :=
  ServeHTTP empty_form empty_form (fun e => E_Message e) (fun _ => None) s fresh_response (mkReq m p (Some body) None tt).

Definition registered {A} (o : outcome unit (Server (X := unit) * A)) : Server (X := unit) :=
  match o with Ok (s, _) => s | _ => NewServer None end.

Definition sample_server : Server (X := unit) :=
  registered (RegisterPost (set_endpoint (NewServer (Some (sample_fs paths))) 0 (sample_endpoint (str "/repo/:name"))) 0).

Lemma sample_built : built sample_server.
Proof.
  unfold sample_server. destruct (RegisterPost _ _) as [[s e]| | |] eqn:E; try constructor.
  eapply built_post; [|exact E]. apply built_endpoint; [apply built_new|done|]. intros _. split; [|done]. exists sample_call. split; [done|].
  by intros ? ? ? ? ? [=].
Qed.

(** The path has a value, the endpoint asks for no form: the server panics. *)
Lemma ServeHTTP_panics_iff_witness : serve sample_server (str "POST") (str "/repo/share") [] = Panic.
Proof.
  apply (ServeHTTP_panics_iff empty_form empty_form (fun e => E_Message e) (fun _ => None) sample_server fresh_response
    (mkReq (str "POST") (str "/repo/share") (Some []) None tt) sample_built).
  eexists _, _, _. split; [by vm_compute|]. split; [by vm_compute|]. split; [done|]. split; [done|]. split; [by eexists|]. exists (str "name"), (str "share"). by split_and!.
Defined.

Lemma get_serves_files_witness : serve sample_server (str "GET") (str "/") [] = Ok (file_response (str "text/html") 6 (str "<html>")).
Proof.
  apply (get_serves_files empty_form empty_form (fun e => E_Message e) (fun _ => None) sample_server (mkReq (str "GET") (str "/") (Some []) None tt)
    sample_types sample_detect sample_cfg (str "/www") 4096 sample_dir paths []); try done.
  - apply sample_proper.
  - by apply (bool_decide_unpack (NoDup _)); vm_compute.
  - right. split; [|by left]. intros t sz v Hin. vm_compute in Hin. repeat (apply elem_of_cons in Hin as [Hin|Hin]; [done|]). by apply elem_of_nil in Hin.
Defined.

Definition outcomes (paths : list (list Z)) : list bool :=
  (fix go (s : Server (X := unit)) (ps : list (list Z)) : list bool :=
     match ps with
     | [] => []
     | p :: ps => match RegisterGet (set_endpoint s (length ps) (sample_endpoint p)) (length ps) with
                  | Ok (s, None) => true :: go s ps | Ok (s, Some _) => false :: go s ps | _ => [] end
     end) (NewServer None) paths.

(** Whether two paths are taken for ambiguous depends on their order, and paths that
    match the same requests need not be. *)
Example ambiguity_ordered : outcomes [str "/:x"; str "/z"] = [true; false] /\ outcomes [str "/z"; str "/:x"] = [true; true] /\
  outcomes [str "/:x/b"; str "/a/:y"] = [true; true] /\ outcomes [str "/a//b"; str "/a//b"] = [true; true].
Proof. vm_compute. repeat split. Qed.

(** The value of a key is in lower case. *)
Definition echo_name : Callback (X := unit) := fun res req _ => (res, inl (concat (default [] (default ∅ (Form req) !! str "name")))).
Example values_lowered :
  let s := registered (RegisterGet (set_endpoint (NewServer None) 0 (mkEndpoint RequestMethodGet (str "/user/:name") RequestTypeQuery ResponseTypePlain None (Some echo_name))) 0) in
  match serve s (str "GET") (str "/user/BobSmith") [] with Ok r => r_body r = str "bobsmith" | _ => False end.
Proof. vm_compute. reflexivity. Qed.

(** An error is sent before its content type is set. *)
Definition failing : Callback (X := unit) := fun res _ _ => (res, inr (isE (mkE 0 (str "no") []))).
Example error_without_type :
  let s := registered (RegisterGet (set_endpoint (NewServer None) 0 (mkEndpoint RequestMethodGet (str "/") RequestTypeQuery ResponseTypeJSON None (Some failing))) 0) in
  match serve s (str "GET") (str "/") [] with Ok r => sent r = Some (500, ∅) /\ r_header r = {[ ContentType_key := ContentTypeJSON ]} | _ => False end.
Proof. vm_compute. split; reflexivity. Qed.

(** The methods of a file. *)
Example options_sorted : match serve sample_server (str "OPTIONS") (str "/css/a.css") [] with
  | Ok r => sent r = Some (200, {[ str "Allow" := str "GET, HEAD, OPTIONS" ]}) | _ => False end.
Proof. vm_compute. reflexivity. Qed.

(** An endpoint that is registered for several methods has one set of fields: after a
    registration for PUT, a GET answers without the content. *)
Example endpoint_shared :
  let s := registered (RegisterGet (set_endpoint (NewServer None) 0 (sample_endpoint (str "/a"))) 0) in
  let code s := match serve s (str "GET") (str "/a") [] with Ok r => (fst <$> sent r, r_body r) | _ => (None, []) end in
  code s = (Some 200, str "ok: ") /\ code (registered (RegisterPut s 0)) = (Some 204, []).
Proof. vm_compute. split; reflexivity. Qed.
