(* ===== verification/HttpHeader.v ===== *)
(** The standard [http.Header], as the sources use it: a map from the canonical
    form of a key to its values. *)

From Stdlib Require Import ZArith Lia.
From S2P Require Import Prelude Ascii Utf8.

Local Open Scope Z_scope.

(** A byte of a token of RFC 7230. *)
Definition validHeaderFieldByte (c : Z) : bool :=
  IsAlpha c || in_range c 48 57 || bool_decide (c ∈ str "!#$%&'*+-.^_`|~").
Fixpoint canonical (upper : bool) (s : list Z) : list Z :=
  match s with
  | [] => []
  | c :: s => (if upper then upper_byte c else lower_byte c) :: canonical (c =? 45) s
  end.
Definition CanonicalMIMEHeaderKey (s : list Z) : list Z :=
  if forallb validHeaderFieldByte s then canonical true s else s.
Definition header := gmap (list Z) (list (list Z)).
Definition Header_Add (h : header) (k v : list Z) : header :=
  let k := CanonicalMIMEHeaderKey k in <[k := default [] (h !! k) ++ [v]]> h.
(** [Get]: the first value, or the empty text. *)
Definition Header_Get (h : header) (k : list Z) : list Z :=
  match h !! CanonicalMIMEHeaderKey k with Some (v :: _) => v | _ => [] end.
