(* ===== verification/HttpResponse.v ===== *)
(** Package [lib/http], file [response.go]: the header of a response.  The texts
    of the errors are left out. *)

From Stdlib Require Import ZArith Lia.
From S2P Require Import Prelude Ascii Utf8 Strconv IoReader HttpHeader.

Local Open Scope Z_scope.

Inductive res_error : Type :=
| ErrLength | ErrProtocolName | ErrProtocolSep | ErrVersionSep | ErrStatusLine | ErrMajor | ErrMinor
| ErrStatusCode | ErrStatusRange | ErrEnd | ErrFieldSep | ErrFieldEnd | ErrFieldCR | ErrEmptyValue.

Record Response : Type := Res {
  Proto : list Z; ProtoMajor : Z; ProtoMinor : Z; Status : list Z; StatusCode : Z; Header : header
}.

Definition res_spaces : list Z := [13; 10; 11; 9; 32].
Definition res_delims : list Z := str "(),/:;<=>?@[\]{}" ++ [34].

(** [parseHeaders]: every round takes a line, so the length of the text is fuel
    enough.  The header and the rest. *)
Fixpoint parseHeaders_loop (fuel : nat) (r : Reader) (h : header) : outcome res_error (header * list Z) :=
  match unread r with
  | [] => Ok (h, [])
  | [_] => Err ErrEnd
  | c0 :: c1 :: rest =>
      if (c0 =? 13) && (c1 =? 10) then Ok (h, rest)
      else
        match fuel with
        | O => NoFuel
        | S fuel =>
            '(key, isTerm, c, r) ← ReadUntil r res_spaces res_delims;
            if negb isTerm || negb (c =? 58) then Err ErrFieldSep
            else
              '(tok, isTerm, _, r) ← ReadUntil r [] [10];
              if negb isTerm then Err ErrFieldEnd
              else
                b ← get_at (V r) (X r - 2);
                if negb (b =? 13) then Err ErrFieldCR
                else
                  match tok with
                  | [] => Panic
                  | _ =>
                      match TrimSpace (take (length tok - 1) tok) with
                      | [] => Err ErrEmptyValue
                      | v => parseHeaders_loop fuel r (Header_Add h key v)
                      end
                  end
        end
  end.
Definition parseHeaders (raw : list Z) : outcome res_error (header * list Z) :=
  parseHeaders_loop (length raw) (mkReader 0 raw) ∅.

(** The status line: what is after it. *)
Definition status_line (raw : list Z) (ilf : nat) : outcome res_error (Response * list Z) :=
  status ← slice raw 9 (ilf - 1);
  major ← get_at raw 5;
  minor ← get_at raw 7;
  let res := Res (take 8 raw) (u8 (major - 48)) (u8 (minor - 48)) status 0 ∅ in
  if (ProtoMajor res <=? 0) || (2 <? ProtoMajor res) then Err ErrMajor
  else if (ProtoMinor res <? 0) || (1 <? ProtoMinor res) then Err ErrMinor
  else
    code ← slice raw 9 12;
    match ParseInt64 code with
    | None => Err ErrStatusCode
    | Some n =>
        if (n <? 100) || (600 <=? n) then Err ErrStatusRange
        else Ok (Res (Proto res) (ProtoMajor res) (ProtoMinor res) status n ∅, drop (S ilf) raw)
    end.

(** [ParseResponseHeader]: the response is none where the text is empty. *)
Definition ParseResponseHeader (raw : list Z) : outcome res_error (option Response * list Z) :=
  match raw with
  | [] => Ok (None, [])
  | _ =>
      if decide (length raw < 16)%nat then Err ErrLength
      else if negb (bool_decide (take 4 raw = str "HTTP")) then Err ErrProtocolName
      else
        c4 ← get_at raw 4;
        if negb (c4 =? 47) then Err ErrProtocolSep
        else
          c6 ← get_at raw 6;
          if negb (c6 =? 46) then Err ErrVersionSep
          else
            match list_find (fun c => c = 10) raw with
            | None => Err ErrStatusLine
            | Some (ilf, _) =>
                b ← get_at raw (ilf - 1);
                if negb (b =? 13) then Err ErrStatusLine
                else
                  '(res, rest) ← status_line raw ilf;
                  '(h, rest) ← parseHeaders rest;
                  Ok (Some (Res (Proto res) (ProtoMajor res) (ProtoMinor res) (Status res) (StatusCode res) h), rest)
            end
  end.

Definition demo_reply : list Z :=
  str "HTTP/1.1 101 Switching Protocols" ++ [13; 10] ++ str "Upgrade: websocket" ++ [13; 10] ++ str "x-a:  b c " ++ [13; 10; 13; 10] ++ str "rest".
Example demo_reply_parsed : exists r, ParseResponseHeader demo_reply = Ok (Some r, str "rest") /\ StatusCode r = 101
  /\ Status r = str "101 Switching Protocols" /\ Header_Get (Header r) (str "X-A") = str "b c".
Proof. eexists. vm_compute. repeat split. Qed.

(** ** Replies as they are written *)

Definition CRLF : list Z := [13; 10].
Definition field (kv : list Z * list Z) : list Z := kv.1 ++ 58 :: (kv.2 ++ [13]) ++ [10].
Definition fields (hs : list (list Z * list Z)) : list Z := concat (field <$> hs).
Definition add_field (h : header) (kv : list Z * list Z) : header := Header_Add h kv.1 (TrimSpace kv.2).
Definition field_ok (kv : list Z * list Z) : Prop :=
  Forall (fun b => (b ∉ res_delims) /\ (b ∉ res_spaces)) kv.1 /\ (10 ∉ kv.2) /\ TrimSpace kv.2 ≠ [].

Lemma field_first kv rest : field_ok kv -> exists c0 c1 l, field kv ++ rest = c0 :: c1 :: l /\ c0 ≠ 13.
Proof.
  intros (Hk & _ & _). unfold field. destruct (kv.1) as [|c k].
  - destruct kv.2 as [|c1 v]; cbn; by eexists _, _, _.
  - apply Forall_cons in Hk as [[_ Hc] _]. assert (Hne : c ≠ 13) by (intros ->; apply Hc; by constructor).
    destruct k as [|c1 k]; cbn; by eexists _, _, _.
Qed.

Lemma line_bytes v : (10 ∉ v) -> Forall (fun b => (b ∉ [10]) /\ (b ∉ [])) (v ++ [13]).
Proof.
  intros Hv. apply Forall_forall. intros b Hb. apply elem_of_app in Hb as [Hb|Hb]; [|apply list_elem_of_singleton in Hb as ->]; split; try apply not_elem_of_nil;
    intros H10; apply list_elem_of_singleton in H10; [by subst|done].
Qed.

Lemma parseHeaders_fields hs rest : Forall field_ok hs -> forall fuel pre h, (length hs <= fuel)%nat ->
  parseHeaders_loop fuel (mid pre (fields hs ++ CRLF ++ rest)) h = Ok (fold_left add_field hs h, rest).
Proof.
  induction 1 as [|kv hs Hkv _ IH]; intros fuel pre h Hf.
  { destruct fuel; cbn [parseHeaders_loop]; by rewrite unread_mid. }
  destruct fuel as [|fuel]; [cbn in Hf; lia|]. cbn [parseHeaders_loop]. rewrite unread_mid.
  change (fields (kv :: hs)) with (field kv ++ fields hs). rewrite <- (assoc_L (++)).
  destruct (field_first kv (fields hs ++ CRLF ++ rest) Hkv) as (c0 & c1 & l & Hl & Hc0). rewrite Hl, (proj2 (Z.eqb_neq c0 13)) by done.
  cbn [andb]. rewrite <- Hl. destruct Hkv as (Hk & Hv & Ht). unfold field. rewrite <- (assoc_L (++)), <- app_comm_cons, <- !(assoc_L (++)).
  rewrite ReadUntil_found by (done || by left; apply (bool_decide_unpack _)). cbn [mbind outcome_bind]. cbn [elem_byte negb orb Z.eqb Pos.eqb].
  rewrite (assoc_L (++) kv.2). change ([10] ++ fields hs ++ CRLF ++ rest) with (10 :: fields hs ++ CRLF ++ rest).
  rewrite ReadUntil_found; [|by apply line_bytes|by left; constructor].
  cbn [mbind outcome_bind]. change (negb (elem_byte 10 [10])) with false. cbv iota. cbn [V X mid].
  set (pre' := pre ++ kv.1 ++ [58]). set (tl := fields hs ++ CRLF ++ rest).
  assert (Hx : (length (pre' ++ (kv.2 ++ [13%Z]) ++ [10%Z]) - 2 = length (pre' ++ kv.2))%nat) by (rewrite !length_app; cbn; lia).
  rewrite Hx. replace ((pre' ++ (kv.2 ++ [13]) ++ [10]) ++ tl) with ((pre' ++ kv.2) ++ 13 :: 10 :: tl) by (by rewrite <- !(assoc_L (++))).
  rewrite (get_at_Some _ _ 13) by (by apply list_lookup_middle). cbn [mbind outcome_bind negb Z.eqb Pos.eqb].
  rewrite length_app, Nat.add_sub, take_app_length. destruct (kv.2 ++ [13]) eqn:E; [by destruct kv.2|]. clear E.
  destruct (TrimSpace kv.2) as [|w ws] eqn:Ew; [done|]. rewrite <- Ew.
  replace ((pre' ++ kv.2) ++ 13 :: 10 :: tl) with ((pre' ++ (kv.2 ++ [13]) ++ [10]) ++ tl) by (by rewrite <- !(assoc_L (++))).
  change (mkReader _ (?a ++ tl)) with (mid a tl).
  rewrite (IH fuel _ _). 2: { cbn in Hf. lia. } done.
Qed.

Lemma parseHeaders_whole hs rest : Forall field_ok hs ->
  parseHeaders (fields hs ++ CRLF ++ rest) = Ok (fold_left add_field hs ∅, rest).
Proof.
  intros Hs. unfold parseHeaders. change (mkReader 0 ?l) with (mid [] l). apply parseHeaders_fields; [done|].
  rewrite length_app. unfold fields. clear. induction hs as [|kv hs IH]; [cbn; lia|]. cbn [fmap list_fmap concat length]. rewrite length_app.
  unfold field at 1. rewrite length_app. cbn [length]. lia.
Qed.

Definition reply (major minor code : Z) (tail : list Z) (hs : list (list Z * list Z)) (rest : list Z) : list Z :=
  ((str "HTTP/" ++ [48 + major; 46; 48 + minor; 32]) ++ (dec code ++ tail) ++ [13]) ++ 10 :: fields hs ++ CRLF ++ rest.

Lemma find_LF pre rest : (10 ∉ pre) -> list_find (fun c => c = 10) (pre ++ 10 :: rest) = Some (length pre, 10).
Proof.
  intros Hpre. apply list_find_Some. split; [by apply list_lookup_middle|]. split; [done|]. intros j y Hj Hlt ->.
  rewrite lookup_app_l in Hj by done. apply Hpre. by apply list_elem_of_lookup_2 in Hj.
Qed.

Lemma three_digits code : 100 <= code < 600 -> length (dec code) = 3%nat /\ (10 ∉ dec code).
Proof.
  intros Hc. split.
  - assert (H : forallb (fun c => Nat.eqb (length (dec c)) 3) (seqZ 100 500) = true) by (vm_compute; reflexivity).
    rewrite forallb_forall in H. apply Nat.eqb_eq, H, list_elem_of_In, elem_of_seqZ. lia.
  - intros Hin. pose proof (dec_digits code ltac:(lia)) as Hd. rewrite Forall_forall in Hd. by apply Hd in Hin.
Qed.

Lemma status_line_reply major minor code tail rest : 1 <= major <= 2 -> 0 <= minor <= 1 -> 100 <= code < 600 ->
  let head := (str "HTTP/" ++ [48 + major; 46; 48 + minor; 32]) ++ (dec code ++ tail) ++ [13] in
  status_line (head ++ 10 :: rest) (length head)
  = Ok (Res (take 8 (head ++ 10 :: rest)) major minor (dec code ++ tail) code ∅, rest).
Proof.
  intros Hma Hmi Hc head. destruct (three_digits code Hc) as [Hl _]. unfold status_line.
  set (p := str "HTTP/" ++ _) in *. set (raw := head ++ 10 :: rest).
  assert (H1 : raw = p ++ (dec code ++ tail) ++ [13] ++ 10 :: rest) by (unfold raw, head; by rewrite <- !(assoc_L (++))).
  assert (H2 : raw = p ++ dec code ++ tail ++ [13] ++ 10 :: rest) by (rewrite H1; by rewrite <- !(assoc_L (++))).
  assert (Hs1 : slice (E := res_error) raw 9 (length head - 1) = Ok (dec code ++ tail)).
  { rewrite H1. apply slice_app; [done|]. unfold head. rewrite !length_app. cbn. lia. }
  assert (Hs2 : slice (E := res_error) raw 9 12 = Ok (dec code)) by (rewrite H2; apply slice_app; [done|by rewrite Hl]).
  rewrite Hs1, Hs2.
  cbn [mbind outcome_bind]. rewrite (get_at_Some _ 5 (48 + major)) by done. rewrite (get_at_Some _ 7 (48 + minor)) by done.
  cbn [mbind outcome_bind ProtoMajor ProtoMinor Proto].
  replace (48 + major - 48) with major by lia. replace (48 + minor - 48) with minor by lia. rewrite !u8_id by (unfold is_byte; lia).
  replace ((major <=? 0) || (2 <? major)) with false by (symmetry; apply orb_false_iff; rewrite Z.leb_gt, Z.ltb_ge; lia).
  replace ((minor <? 0) || (1 <? minor)) with false by (symmetry; apply orb_false_iff; rewrite !Z.ltb_ge; lia).
  cbn [mbind outcome_bind]. rewrite ParseInt64_dec by lia.
  replace ((code <? 100) || (600 <=? code)) with false by (symmetry; apply orb_false_iff; rewrite Z.ltb_ge, Z.leb_gt; lia).
  do 2 f_equal. unfold raw. change (10 :: rest) with ([10] ++ rest). rewrite (assoc_L (++)).
  apply drop_app_length'. rewrite length_app. cbn. lia.
Qed.

Lemma parse_reply major minor code tail hs rest : 1 <= major <= 2 -> 0 <= minor <= 1 -> 100 <= code < 600 ->
  (10 ∉ tail) -> Forall field_ok hs ->
  ParseResponseHeader (reply major minor code tail hs rest)
  = Ok (Some (Res (str "HTTP/" ++ [48 + major; 46; 48 + minor]) major minor (dec code ++ tail) code (fold_left add_field hs ∅)), rest).
Proof.
  intros Hma Hmi Hc Ht Hs. destruct (three_digits code Hc) as [Hl Hn]. unfold reply.
  pose proof (status_line_reply major minor code tail (fields hs ++ CRLF ++ rest) Hma Hmi Hc) as Hst. cbv zeta in Hst.
  set (head := (str "HTTP/" ++ _) ++ _) in *. set (tl := fields hs ++ CRLF ++ rest) in *.
  assert (Hlen : (length head = 9 + (3 + length tail) + 1)%nat) by (unfold head; rewrite !length_app, Hl; done).
  unfold ParseResponseHeader. destruct (head ++ 10 :: tl) as [|x xs] eqn:E; [by destruct head|]. rewrite <- E in Hst |- *. clear x xs E.
  rewrite decide_False by (rewrite length_app, Hlen; unfold tl; cbn [length]; rewrite !length_app; cbn [length CRLF]; lia).
  cbn [negb bool_decide]. change (bool_decide (take 4 (head ++ 10 :: tl) = str "HTTP")) with true. cbn [negb].
  change (get_at (head ++ 10 :: tl) 4) with (Ok (E := res_error) 47). change (get_at (head ++ 10 :: tl) 6) with (Ok (E := res_error) 46).
  cbn [mbind outcome_bind negb Z.eqb Pos.eqb]. rewrite find_LF.
  2: { unfold head. rewrite !not_elem_of_app, !not_elem_of_cons. cbn. split_and!; try done; try lia; try apply not_elem_of_nil.
       apply (bool_decide_unpack _). vm_compute. done. }
  rewrite (get_at_Some _ _ 13).
  2: { rewrite lookup_app_l by lia. unfold head. rewrite (assoc_L (++)), lookup_app_r; rewrite <- (assoc_L (++)), !length_app in *; cbn [length] in *; [|lia].
       by replace (_ - _)%nat with 0%nat by lia. }
  cbn [mbind outcome_bind negb Z.eqb Pos.eqb]. rewrite Hst. cbn [mbind outcome_bind]. unfold tl. rewrite parseHeaders_whole by done. done.
Qed.

(** The header of a response is parsed back whole: version, status, code, the
    fields with the spaces around their values taken off, those of one name in
    their order, and what comes after is given back untouched. *)
Theorem ParseResponseHeader_reply major minor code tail hs rest : 1 <= major <= 2 -> 0 <= minor <= 1 -> 100 <= code < 600 ->
  (10 ∉ tail) -> Forall field_ok hs ->
  ParseResponseHeader (reply major minor code tail hs rest)
  = Ok (Some (Res (str "HTTP/" ++ [48 + major; 46; 48 + minor]) major minor (dec code ++ tail) code (fold_left add_field hs ∅)), rest).
Proof. apply parse_reply. Qed.

(** ** Every text *)

(** What a reader is past, and what is to come. *)
Lemma wf_split r : wf r -> V r = take (X r) (V r) ++ unread r /\ length (take (X r) (V r)) = X r.
Proof. intros Hr. unfold unread, wf in *. rewrite take_drop, length_take. split; [done|lia]. Qed.

Lemma parseHeaders_total fuel : forall r h, wf r -> (length (unread r) <= fuel)%nat ->
  match parseHeaders_loop fuel r h with Ok _ | Err _ => True | _ => False end.
Proof.
  induction fuel as [|fuel IH]; intros r h Hr Hf; cbn [parseHeaders_loop].
  { destruct (unread r) as [|c0 l]; [done|]. cbn in Hf. lia. }
  destruct (unread r) as [|c0 [|c1 l]] eqn:Hu; [done..|]. destruct (_ && _); [done|]. rewrite <- Hu in Hf. clear c0 c1 l Hu.
  destruct (ReadUntil_cases (E := res_error) r res_spaces res_delims Hr) as (key & isTerm & c & r1 & -> & Hr1 & Hv1 & _ & Hc1).
  cbn [mbind outcome_bind]. destruct (negb isTerm || negb (c =? 58)) eqn:E1; [done|].
  apply orb_false_iff in E1 as [E1 E2]. apply negb_false_iff in E1, E2. apply Z.eqb_eq in E2. subst isTerm c.
  destruct Hc1 as [(Hu & _ & _)|(_ & _ & ? & _)]; [|done].
  destruct (ReadUntil_cases (E := res_error) r1 [] [10] Hr1) as (tok & isTerm & c & r2 & -> & Hr2 & Hv2 & _ & Hc2).
  cbn [mbind outcome_bind]. destruct isTerm; [|done]. cbn [negb].
  destruct Hc2 as [(Hu1 & Hc & _)|(_ & _ & ? & _)]; [|done].
  destruct (wf_split r Hr) as [Hs Hl], (wf_split r2 Hr2) as [Hs2 Hl2].
  set (pre := take (X r) (V r)) in *. set (pre2 := take (X r2) (V r2)) in *.
  assert (Hpre : pre2 = (pre ++ key) ++ 58 :: tok ++ [c]).
  { apply (app_inv_tail (unread r2)). rewrite <- Hs2, Hv2, Hv1, Hs, Hu, Hu1. by rewrite <- !(assoc_L (++)), <- app_comm_cons, <- (assoc_L (++)). }
  assert (Hlen : (X r2 = length (pre ++ key) + 2 + length tok)%nat) by (rewrite <- Hl2, Hpre, !length_app; cbn [length]; rewrite length_app; cbn [length]; lia).
  assert (Hget : V r2 !! (X r2 - 2)%nat = (58 :: tok) !! length tok).
  { rewrite Hs2, Hpre. rewrite lookup_app_l by (rewrite <- Hpre, Hl2; lia). rewrite lookup_app_r by lia.
    replace (X r2 - 2 - length (pre ++ key))%nat with (length tok) by lia. rewrite app_comm_cons.
    rewrite lookup_app_l; [done|cbn; lia]. }
  unfold get_at. rewrite Hget. destruct ((58 :: tok) !! length tok) as [b|] eqn:Eb; [|apply lookup_ge_None in Eb; cbn in Eb; lia].
  cbn [mbind outcome_bind]. destruct (negb (b =? 13)) eqn:E13; [done|]. destruct tok as [|t tok]; [by injection Eb as <-|].
  destruct (TrimSpace _); [done|]. apply IH; [done|]. rewrite Hu, Hu1 in Hf.
  rewrite !length_app in Hf. cbn [length app] in Hf. rewrite ?length_app in Hf. cbn [length] in Hf. lia.
Qed.

Lemma parseHeaders_ends raw : match parseHeaders raw with Ok _ | Err _ => True | _ => False end.
Proof. apply parseHeaders_total; [unfold wf; cbn; lia|]. unfold unread. cbn [X V]. by rewrite drop_0. Qed.

Lemma status_line_total raw ilf : (9 <= ilf - 1 <= length raw)%nat -> (16 <= length raw)%nat ->
  match status_line raw ilf with Ok _ | Err _ => True | _ => False end.
Proof.
  intros Hin Hlen. unfold status_line. rewrite (slice_Ok raw 9 (ilf - 1)) by exact Hin.
  destruct (lookup_lt_is_Some_2 raw 5) as [c5 Hc5]; [lia|]. destruct (lookup_lt_is_Some_2 raw 7) as [c7 Hc7]; [lia|].
  rewrite (get_at_Some raw 5 c5 Hc5), (get_at_Some raw 7 c7 Hc7), (slice_Ok raw 9 12) by lia. cbn [mbind outcome_bind ProtoMajor ProtoMinor].
  repeat (destruct (_ || _); [done|]). destruct (ParseInt64 _) as [n|]; [|done]. by destruct (_ || _).
Qed.

(** C10: the parser of a response panics exactly on a text of sixteen bytes or more
    that begins with [HTTP/] and a version of the right form and whose first line
    ends within the version or right after it; it ends on every text. *)
Theorem ParseResponseHeader_panics_iff raw :
  (ParseResponseHeader raw = Panic <->
    (16 <= length raw)%nat /\ take 5 raw = str "HTTP/" /\ raw !! 6%nat = Some 46 /\
    exists ilf, list_find (fun c => c = 10) raw = Some (ilf, 10) /\ (ilf <= 9)%nat /\ raw !! (ilf - 1)%nat = Some 13) /\
  ParseResponseHeader raw <> NoFuel.
Proof.
  unfold ParseResponseHeader. destruct raw as [|b0 raw0] eqn:Eraw; [split; [split; [done|intros (H & _); cbn in H; lia]|done]|].
  rewrite <- Eraw. clear b0 raw0 Eraw. case_decide as Hlen; [split; [split; [done|intros (H & _); lia]|done]|].
  assert (H5 : take 5 raw = str "HTTP/" <-> take 4 raw = str "HTTP" /\ raw !! 4%nat = Some 47).
  { destruct raw as [|a [|b [|c [|d [|e raw]]]]]; cbn in Hlen; try lia. cbn. split; [by intros [= -> -> -> -> ->]|by intros [[= -> -> -> ->] [= ->]]]. }
  destruct (bool_decide (take 4 raw = str "HTTP")) eqn:E4; cbn [negb].
  2: { apply bool_decide_eq_false in E4. split; [|done]. split; [done|]. intros (_ & H & _). by apply H5 in H as [? _]. }
  apply bool_decide_eq_true in E4.
  destruct (lookup_lt_is_Some_2 raw 4) as [c4 H4]; [lia|]. destruct (lookup_lt_is_Some_2 raw 6) as [c6 H6]; [lia|].
  rewrite (get_at_Some raw 4 c4 H4), (get_at_Some raw 6 c6 H6). cbn [mbind outcome_bind].
  destruct (Z.eqb_spec c4 47) as [->|Hc4]; cbn [negb].
  2: { split; [|done]. split; [done|]. intros (_ & H & _). apply H5 in H as [_ H]. congruence. }
  destruct (Z.eqb_spec c6 46) as [->|Hc6]; cbn [negb]; [|split; [|done]; split; [done|]; intros (_ & _ & H & _); congruence].
  destruct (list_find (fun c => c = 10) raw) as [[ilf c]|] eqn:Ef; [|split; [|done]; split; [done|]; by intros (_ & _ & _ & ? & ? & _)].
  pose proof (proj1 (list_find_Some _ _ _ _) Ef) as (Hi & -> & _). assert (Hlt : (ilf < length raw)%nat) by (by eapply lookup_lt_Some).
  assert (Hge : ilf <> 0%nat) by (intros ->; destruct raw as [|a raw]; [done|]; injection Hi as ->; by destruct raw as [|? [|? [|? ?]]]).
  destruct (lookup_lt_is_Some_2 raw (ilf - 1)) as [b Hb]; [lia|]. rewrite (get_at_Some _ _ b Hb). cbn [mbind outcome_bind].
  destruct (Z.eqb_spec b 13) as [->|Hb13]; cbn [negb].
  2: { split; [|done]. split; [done|]. intros (_ & _ & _ & i & [= <-] & _ & H). congruence. }
  destruct (decide (9 <= ilf - 1 <= length raw)%nat) as [Hin|Hout].
  - assert (Hno : ~ exists i, Some (ilf, 10) = Some (i, 10) /\ (i <= 9)%nat /\ raw !! (i - 1)%nat = Some 13) by (intros (i & [= <-] & ? & _); lia).
    pose proof (status_line_total raw ilf Hin ltac:(lia)) as Hs. destruct (status_line raw ilf) as [[res rest]|e| |]; try done; cbn [mbind outcome_bind].
    + pose proof (parseHeaders_ends rest) as Hp. destruct (parseHeaders rest) as [[h rest']|e| |]; try done; cbn [mbind outcome_bind].
      all: split; [split; [done|by intros (_ & _ & _ & ?)]|done].
    + split; [split; [done|by intros (_ & _ & _ & ?)]|done].
  - assert (Hp : slice (E := res_error) raw 9 (ilf - 1) = Panic) by (unfold slice; by rewrite decide_False). unfold status_line. rewrite Hp. cbn [mbind outcome_bind].
    split; [|done]. split; [|done]. intros _. split; [lia|]. split; [by apply H5|]. split; [done|]. exists ilf. split; [done|]. split; [lia|done].
Qed.

Definition demo_fields : list (list Z * list Z) := [(str "Upgrade", str " websocket"); (str "x-a", str "  b c "); (str "X-A", str "d")].
Lemma ParseResponseHeader_reply_witness : exists h,
  ParseResponseHeader (reply 1 1 101 (str " Switching Protocols") demo_fields (str "frames"))
  = Ok (Some (Res (str "HTTP/1.1") 1 1 (str "101 Switching Protocols") 101 h), str "frames") /\
  h !! str "X-A" = Some [str "b c"; str "d"].
Proof.
  exists (fold_left add_field demo_fields ∅). split; [|vm_compute; reflexivity].
  apply (ParseResponseHeader_reply 1 1 101 (str " Switching Protocols") demo_fields (str "frames")).
  - lia.
  - lia.
  - lia.
  - apply (bool_decide_unpack _). vm_compute. exact I.
  - unfold field_ok. apply (bool_decide_unpack _). vm_compute. exact I.
Defined.
