(* ===== verification/WsServer.v ===== *)
(** Package [lib/websocket], files [clientmanager.go] and [server.go]:
    the registry of clients, and what the server does with the frames that a
    connection delivers.

    The state of the server is a [world]: the registry, the packets sent, and
    the calls it has made of the callbacks of the application and of the system.
    A callback is a recorded call; the handlers that the code starts as
    goroutines are recorded where they are started.  The lock of the registry
    makes each of its operations atomic. *)

From Stdlib Require Import ZArith Lia.
From S2P Require Import Prelude Utf8 Ints WsFrame.

Local Open Scope Z_scope.

Section WsServer.

(** The context that authentication gives to a connection, and the user ID in
    it, 0 when there is none. *)
Context {Ctx : Type} (uid_of : Ctx -> Z).

(** ** The registry of clients *)

Record ClientManager : Type := CM {
  all : list Z;
  conns : gmap Z (list Z);
  ctx : gmap Z Ctx;
  frame : gmap Z Frame;
  frames : gmap Z (list Frame)
}.

Definition newClientManager : ClientManager := CM [] ∅ ∅ ∅ ∅.

Definition All (cls : ClientManager) : list Z := all cls.
Definition Conns (cls : ClientManager) (uid : Z) : list Z := default [] (conns cls !! uid).
Definition Context_of (cls : ClientManager) (conn : Z) : option Ctx := ctx cls !! conn.
Definition getFrame (cls : ClientManager) (conn : Z) : option Frame := frame cls !! conn.
Definition getFrames (cls : ClientManager) (conn : Z) : option (list Frame) := frames cls !! conn.

(** [setFrame] and [setFrames]: nil deletes. *)
Definition setFrame (cls : ClientManager) (conn : Z) (f : option Frame) : ClientManager :=
  CM (all cls) (conns cls) (ctx cls) (partial_alter (fun _ => f) conn (frame cls)) (frames cls).
Definition setFrames (cls : ClientManager) (conn : Z) (fs : option (list Frame)) : ClientManager :=
  CM (all cls) (conns cls) (ctx cls) (frame cls) (partial_alter (fun _ => fs) conn (frames cls)).

Definition finFrames (cls : ClientManager) (conn : Z) (lastf : Frame) : outcome unit (ClientManager * Frame) :=
  match frames cls !! conn with
  | None => Ok (cls, lastf)
  | Some fs =>
      f ← frames_fin fs (Some lastf);
      Ok (CM (all cls) (conns cls) (ctx cls) (delete conn (frame cls)) (delete conn (frames cls)), f)
  end.

(** [remove]: what it does to the connections of the user. *)
Definition drop_conn (uid conn : Z) (cs : gmap Z (list Z)) : gmap Z (list Z) :=
  if 0 <? uid then
    match cs !! uid with
    | Some l => match (Remove l conn).1 with [] => delete uid cs | l' => <[uid := l']> cs end
    | None => cs
    end
  else cs.
Definition cm_remove (cls : ClientManager) (conn : Z) : ClientManager :=
  let all' := (Remove (all cls) conn).1 in
  match ctx cls !! conn with
  | Some c =>
      CM all' (drop_conn (uid_of c) conn (conns cls)) (delete conn (ctx cls)) (delete conn (frame cls)) (delete conn (frames cls))
  | None => CM all' (conns cls) (ctx cls) (delete conn (frame cls)) (delete conn (frames cls))
  end.

Definition add_conn (uid conn : Z) (cs : gmap Z (list Z)) : gmap Z (list Z) :=
  if 0 <? uid then <[uid := default [] (cs !! uid) ++ [conn]]> cs else cs.
Definition cm_add (cls : ClientManager) (c : Ctx) (conn : Z) : ClientManager :=
  let cls := cm_remove cls conn in
  CM (if IsExist (all cls) conn then all cls else all cls ++ [conn]) (add_conn (uid_of c) conn (conns cls))
     (<[conn := c]> (ctx cls)) (frame cls) (frames cls).

(** ** The server *)

Record Server : Type := {
  HandleClientAdd : bool;
  HandleClientRemove : bool;
  HandleRsvControl : bool;
  handlePong : bool;
  allowRsv1 : bool;
  allowRsv2 : bool;
  allowRsv3 : bool
}.

(** The calls: of a callback, or of the system. *)
Inductive call : Type :=
| HandleText (conn : Z) (payload : list Z)
| HandleBin (conn : Z) (payload : list Z)
| CallPong (conn : Z) (f : Frame)
| CallRsvControl (conn : Z) (f : Frame)
| CallClientAdd (c : Ctx) (conn : Z)
| CallClientRemove (c : Ctx) (conn : Z)
| RegisterRead (conn : Z)
| ReregisterRead (conn : Z)
| UnregisterRead (conn : Z)
| Close (conn : Z)
| Discard (conn : Z)
| Sent (conn : Z) (packet : list Z).

Record world : Type := World { Clients : ClientManager; calls : list call }.

Context (serv : Server).
(** The connections on which writing fails. *)
Context (broken : Z -> bool).

Definition do_call (w : world) (c : call) : world := World (Clients w) (calls w ++ [c]).
Definition with_clients (w : world) (cls : ClientManager) : world := World cls (calls w).

(** [Send]: true when there is no error. *)
Definition Send (w : world) (conn : Z) (packet : list Z) : world * bool :=
  if broken conn then (w, false) else (do_call w (Sent conn packet), true).

Definition ClientRemove (w : world) (conn : Z) : world :=
  let w := match Context_of (Clients w) conn with
           | Some c => if HandleClientRemove serv then do_call w (CallClientRemove c conn) else w
           | None => w
           end in
  let w := with_clients w (cm_remove (Clients w) conn) in
  do_call (do_call w (UnregisterRead conn)) (Close conn).

(** [clientAdd], on a connection that is registered without an error. *)
Definition clientAdd (w : world) (c : option Ctx) (conn : Z) : world :=
  let w := do_call w (RegisterRead conn) in
  match c with
  | None => w
  | Some c =>
      let w := with_clients w (cm_add (Clients w) c conn) in
      if HandleClientAdd serv then do_call w (CallClientAdd c conn) else w
  end.

(** [handleBadRequest] and [handleInvalidData]: what is received is thrown away. *)
Definition refuse (w : world) (conn code : Z) : world :=
  let '(w, _) := Send w conn (NewFrameClose 0 false code []) in
  ClientRemove (do_call w (Discard conn)) conn.
Definition handleBadRequest (w : world) (conn : Z) : world := refuse w conn StatusBadRequest.
Definition handleInvalidData (w : world) (conn : Z) : world := refuse w conn StatusInvalidData.

(** [handleClose]. *)
Definition reply_code (code : Z) : Z :=
  if code =? 0 then StatusBadRequest
  else if code <? StatusNormal then StatusBadRequest
  else if code =? 1004 then StatusBadRequest
  else if code =? 1005 then StatusBadRequest
  else if code =? 1006 then StatusBadRequest
  else if (1015 <=? code) && (code <=? 2999) then StatusBadRequest
  else code.
Definition handleClose (w : world) (conn : Z) (req : Frame) : world :=
  let code := reply_code (closeCode req) in
  let '(code, payload) :=
    match payload req with
    | _ :: _ :: rest => (if Valid rest then code else StatusBadRequest, rest)
    | short => (code, short)
    end in
  let '(w, _) := Send w conn (NewFrameClose 0 false code payload) in
  ClientRemove w conn.

(** [handlePing]. *)
Definition set_pong (f : Frame) : Frame :=
  mkFrame (fin f) (rsv1 f) (rsv2 f) (rsv3 f) OpcodePong 0 (closeCode f) (len f) (maskKey f) (payload f) (chopped f) (isComplete f).
Definition handlePing (w : world) (conn : Z) (req : Frame) : world :=
  match Send w conn (pack 0 (set_pong req)).2 with
  | (w, true) => w
  | (w, false) => ClientRemove w conn
  end.

(** [handleFragment]: true when the frame is invalid. *)
Definition deliver (w : world) (conn : Z) (f : Frame) : world * bool :=
  if opcode f =? OpcodeText then
    if Valid (payload f) then (do_call w (HandleText conn (payload f)), false) else (handleInvalidData w conn, true)
  else (do_call w (HandleBin conn (payload f)), false).

Definition unfinished (req : Frame) : bool := Z.of_nat (length (payload req)) <? len req.

Definition handleFragment (w : world) (conn : Z) (req : Frame) : outcome unit (world * bool) :=
  let fs := getFrames (Clients w) conn in
  if (match fs with None => opcode req =? OpcodeCont | Some _ => negb (opcode req =? OpcodeCont) end) then
    Ok (handleBadRequest w conn, true)
  else if fin req =? 0 then
    if unfinished req then Ok (with_clients w (setFrame (Clients w) conn (Some req)), false)
    else
      let cls := setFrame (Clients w) conn None in
      Ok (with_clients w (setFrames cls conn (Some (Append (default [] fs) (Some req)))), false)
  else if negb (bool_decide (is_Some fs)) && unfinished req then
    Ok (with_clients w (setFrame (Clients w) conn (Some req)), false)
  else
    '(cls, f) ← finFrames (Clients w) conn req;
    Ok (deliver (with_clients w cls) conn f).

(** [handleFrame]: true when the connection is closing. *)
Definition handleFrame (w : world) (conn : Z) (f : Frame) : outcome unit (world * bool) :=
  if negb (isValid f true (allowRsv1 serv) (allowRsv2 serv) (allowRsv3 serv)) then Ok (handleBadRequest w conn, true)
  else
    let op := opcode f in
    if (op =? OpcodeCont) || (op =? OpcodeText) || (op =? OpcodeBin) then handleFragment w conn f
    else if (3 <=? op) && (op <=? 7) then Ok (handleBadRequest w conn, true)
    else if op =? OpcodeClose then Ok (handleClose w conn f, true)
    else if op =? OpcodePing then Ok (handlePing w conn f, false)
    else if op =? OpcodePong then Ok (if handlePong serv then do_call w (CallPong conn f) else w, false)
    else if HandleRsvControl serv then Ok (do_call w (CallRsvControl conn f), false)
    else Ok (handleClose w conn f, true).

(** ** [Server.reader]

    The loop over the frames of a packet, and what the reader does with a
    packet; true when the connection is closed. *)
Fixpoint handle_frames (w : world) (conn : Z) (fs : list Frame) : outcome unit (world * bool) :=
  match fs with
  | [] => Ok (w, false)
  | f :: fs =>
      if negb (isComplete f) then handle_frames (with_clients w (setFrame (Clients w) conn (Some f))) conn fs
      else
        '(w, isClosing) ← handleFrame w conn f;
        if (isClosing : bool) then Ok (w, true) else handle_frames w conn fs
  end.

Definition read_frames (w : world) (conn : Z) (packet : list Z) : outcome unit (world * bool) :=
  fs ← Unpack packet;
  match fs with
  | None => Ok (ClientRemove w conn, true)
  | Some fs =>
      '(w, isClosing) ← handle_frames w conn fs;
      if (isClosing : bool) then Ok (w, true) else Ok (do_call w (ReregisterRead conn), false)
  end.

Definition read_packet (w : world) (conn : Z) (packet : list Z) : outcome unit (world * bool) :=
  match packet with
  | [] => Ok (ClientRemove w conn, true)
  | _ =>
      match getFrame (Clients w) conn with
      | None => read_frames w conn packet
      | Some f =>
          '(f, packet) ← unpack f packet;
          let w := with_clients w (setFrame (Clients w) conn (Some f)) in
          '(w, isClosing) ←
            (if isComplete f then handleFrame (with_clients w (setFrame (Clients w) conn None)) conn f else Ok (w, false));
          if (isClosing : bool) then Ok (w, true)
          else
            match packet with
            | [] => Ok (do_call w (ReregisterRead conn), false)
            | _ => read_frames w conn packet
            end
      end
  end.

(** The packets of one connection, until it is closed. *)
Fixpoint read_packets (w : world) (conn : Z) (packets : list (list Z)) : outcome unit (world * bool) :=
  match packets with
  | [] => Ok (w, false)
  | packet :: packets =>
      '(w, isClosing) ← read_packet w conn packet;
      if (isClosing : bool) then Ok (w, true) else read_packets w conn packets
  end.

(** [pinger]: one tick. *)
Fixpoint ping_all (w : world) (conns : list Z) : world :=
  match conns with
  | [] => w
  | conn :: conns =>
      match Send w conn (NewFramePing 0 false []) with
      | (w, true) => ping_all w conns
      | (w, false) => ping_all (ClientRemove w conn) conns
      end
  end.
Definition pinger_tick (w : world) : world := ping_all w (All (Clients w)).

End WsServer.
