(* ===== verification/WsServerFacts.v ===== *)
(** Package [lib/websocket]: the registry of clients keeps its maps together, the
    server does not panic, and messages arrive whole however the connection cuts
    them. *)

From Stdlib Require Import ZArith Lia.
From S2P Require Import Prelude Utf8 Ints WsFrame WsServer.

Local Open Scope Z_scope.

(** ** Lists of connections *)

Lemma Remove_NoDup d v : NoDup d -> NoDup (Remove d v).1 /\ forall x, x ∈ (Remove d v).1 <-> x ∈ d /\ x ≠ v.
Proof.
  induction 1 as [|w d Hw Hnd [IH1 IH2]]; cbn [Remove fst]; [split; [constructor|intros x; rewrite elem_of_nil; tauto]|].
  destruct (Z.eqb_spec w v) as [->|Hne]; cbn [fst].
  - split; [done|]. intros x. rewrite elem_of_cons. split; [|tauto]. intros Hx. split; [by right|]. by intros ->.
  - destruct (Remove d v) as [d' found]. cbn [fst] in *. split.
    + constructor; [|done]. rewrite IH2. tauto.
    + intros x. rewrite !elem_of_cons, IH2. split; [intros [->|[? ?]]; auto|intros [[->|?] ?]; auto].
Qed.

Lemma IsExist_spec d v : IsExist d v = true <-> v ∈ d.
Proof.
  induction d as [|w d IH]; cbn [IsExist]; [split; [done|intros Hv; by apply not_elem_of_nil in Hv]|].
  rewrite elem_of_cons. destruct (Z.eqb_spec w v) as [->|Hne]; [split; auto|]. rewrite IH. split; [auto|]. intros [->|?]; done.
Qed.

Section Registry.
Context {Ctx : Type} (uid_of : Ctx -> Z).
Implicit Types cls : ClientManager (Ctx := Ctx).

(** ** The registry *)

(** All the connections are those with a context, each of them once; the
    connections of a user are those whose context has the user's ID, each of
    them once; no list of fragments is empty. *)
Record cm_wf cls : Prop := {
  wf_all_nodup : NoDup (all cls);
  wf_all conn : conn ∈ all cls <-> is_Some (ctx cls !! conn);
  wf_conns_nodup uid l : conns cls !! uid = Some l -> NoDup l /\ l ≠ [];
  wf_conns uid conn : conn ∈ Conns cls uid <-> exists c, ctx cls !! conn = Some c /\ uid_of c = uid /\ 0 < uid;
  wf_frames conn fs : frames cls !! conn = Some fs -> fs ≠ []
}.

Lemma cm_wf_new : cm_wf newClientManager.
Proof.
  split; [constructor|..]; cbn.
  - intros conn. split; [intros Hin; by apply not_elem_of_nil in Hin|]. by intros [c Hc].
  - intros uid l Hl. by rewrite lookup_empty in Hl.
  - intros uid conn. unfold Conns. cbn. rewrite lookup_empty. cbn. split; [intros Hin; by apply not_elem_of_nil in Hin|].
    intros (c & Hc & _). by rewrite lookup_empty in Hc.
  - intros conn fs Hfs. by rewrite lookup_empty in Hfs.
Qed.

Lemma wf_setFrame cls conn f : cm_wf cls -> cm_wf (setFrame cls conn f).
Proof. intros []. by split. Qed.

Lemma wf_setFrames cls conn fs : cm_wf cls -> (forall l, fs = Some l -> l ≠ []) -> cm_wf (setFrames cls conn fs).
Proof.
  intros [H1 H2 H3 H4 H5] Hfs. split; try done. intros conn' l. cbn. destruct (decide (conn' = conn)) as [->|Hne].
  - rewrite lookup_partial_alter. rewrite decide_True by done. apply Hfs.
  - rewrite lookup_partial_alter_ne by done. apply H5.
Qed.

(** The connections of a user after one of them is dropped or added. *)
Lemma drop_conn_spec uid conn cs : (forall u l, cs !! u = Some l -> NoDup l /\ l ≠ []) -> 0 < uid ->
  (forall u l, drop_conn uid conn cs !! u = Some l -> NoDup l /\ l ≠ []) /\
  forall u x, x ∈ default [] (drop_conn uid conn cs !! u) <-> x ∈ default [] (cs !! u) /\ (u = uid -> x ≠ conn).
Proof.
  intros Hcs Hu. unfold drop_conn. rewrite (proj2 (Z.ltb_lt 0 uid)) by done.
  destruct (cs !! uid) as [l|] eqn:El.
  2: { split; [done|]. intros u x. split; [|tauto]. intros Hx. split; [done|]. intros ->. rewrite El in Hx. by apply not_elem_of_nil in Hx. }
  destruct (Hcs uid l El) as [Hnd Hne]. destruct (Remove_NoDup l conn Hnd) as [Hnd' Hin].
  destruct (Remove l conn).1 as [|y l'] eqn:Er.
  - split.
    + intros u l0 Hl0. apply lookup_delete_Some in Hl0 as [_ Hl0]. by apply (Hcs u).
    + intros u x. destruct (decide (u = uid)) as [->|Hneq].
      * rewrite lookup_delete_eq, El. cbn. pose proof (Hin x). naive_solver.
      * rewrite lookup_delete_ne by done. tauto.
  - split.
    + intros u l0. destruct (decide (u = uid)) as [->|Hneq].
      * rewrite lookup_insert_eq. intros [= <-]. done.
      * rewrite lookup_insert_ne by done. apply Hcs.
    + intros u x. destruct (decide (u = uid)) as [->|Hneq].
      * rewrite lookup_insert_eq, El. cbn. pose proof (Hin x). naive_solver.
      * rewrite lookup_insert_ne by done. tauto.
Qed.

Lemma wf_remove cls conn : cm_wf cls ->
  cm_wf (cm_remove uid_of cls conn) /\ ctx (cm_remove uid_of cls conn) = delete conn (ctx cls).
Proof.
  intros [H1 H2 H3 H4 H5]. destruct (Remove_NoDup (all cls) conn H1) as [Hnd Hin]. unfold cm_remove.
  destruct (ctx cls !! conn) as [c|] eqn:Ec.
  - split; [|done]. destruct (decide (0 < uid_of c)) as [Hu|Hu].
    + destruct (drop_conn_spec (uid_of c) conn (conns cls) H3 Hu) as [Hd1 Hd2]. split; cbn.
      * done.
      * intros x. rewrite Hin, H2, lookup_delete_is_Some. split; intros [??]; split; congruence.
      * apply Hd1.
      * intros u x. unfold Conns. cbn. rewrite Hd2. fold (Conns cls u). rewrite H4. split.
        -- intros [(c' & Hc' & Hu' & Hpos) Hne]. exists c'. rewrite lookup_delete_ne; [done|].
           intros <-. apply Hne; [congruence|done].
        -- intros (c' & Hc' & Hu' & Hpos). apply lookup_delete_Some in Hc' as [Hne Hc']. split; [by exists c'|]. congruence.
      * intros x fs Hfs. apply lookup_delete_Some in Hfs as [_ Hfs]. by apply (H5 x).
    + unfold drop_conn. rewrite (proj2 (Z.ltb_ge 0 (uid_of c))) by lia. split; cbn.
      * done.
      * intros x. rewrite Hin, H2, lookup_delete_is_Some. split; intros [??]; split; congruence.
      * done.
      * intros u x. change (Conns (CM _ (conns cls) _ _ _) u) with (Conns cls u). rewrite H4. split.
        -- intros (c' & Hc' & Hu' & Hpos). exists c'. rewrite lookup_delete_ne; [done|]. intros <-. assert (c' = c) by congruence. subst. lia.
        -- intros (c' & Hc' & Hu' & Hpos). apply lookup_delete_Some in Hc' as [Hne Hc']. by exists c'.
      * intros x fs Hfs. apply lookup_delete_Some in Hfs as [_ Hfs]. by apply (H5 x).
  - split; [|cbn; by rewrite delete_id]. split; cbn.
    + done.
    + intros x. rewrite Hin, H2. split; [tauto|]. intros Hx. split; [done|]. intros ->. by rewrite Ec in Hx; destruct Hx.
    + done.
    + done.
    + intros x fs Hfs. apply lookup_delete_Some in Hfs as [_ Hfs]. by apply (H5 x).
Qed.

Lemma wf_add cls c conn : cm_wf cls ->
  cm_wf (cm_add uid_of cls c conn) /\ ctx (cm_add uid_of cls c conn) = <[conn := c]> (ctx cls).
Proof.
  intros Hwf. destruct (wf_remove cls conn Hwf) as [[H1 H2 H3 H4 H5] Hctx]. unfold cm_add.
  set (cls' := cm_remove uid_of cls conn) in *.
  assert (Hnone : ctx cls' !! conn = None) by (rewrite Hctx; apply lookup_delete_eq).
  assert (Hnew : IsExist (all cls') conn = false).
  { apply not_true_iff_false. rewrite IsExist_spec, H2, Hnone. by intros [? ?]. }
  assert (Hconn : forall u, conn ∉ default [] (conns cls' !! u)).
  { intros u Hx. apply (proj1 (H4 u conn)) in Hx as (c' & Hc' & _). congruence. }
  rewrite Hnew. split; [|cbn; by rewrite Hctx, insert_delete_eq]. split; cbn.
  - apply NoDup_app. split; [done|]. split; [|apply NoDup_singleton]. intros x Hx Hx'. apply list_elem_of_singleton in Hx' as ->.
    apply H2 in Hx. rewrite Hnone in Hx. by destruct Hx.
  - intros x. rewrite elem_of_app, list_elem_of_singleton, H2. destruct (decide (x = conn)) as [->|Hne].
    + rewrite lookup_insert_eq. split; [by eexists|by right].
    + rewrite lookup_insert_ne by done. split; [intros [?|?]; done|by left].
  - unfold add_conn. destruct (0 <? uid_of c); [|apply H3]. intros u l. destruct (decide (u = uid_of c)) as [->|Hne].
    + rewrite lookup_insert_eq. intros [= <-]. split; [|by destruct (default [] _)].
      apply NoDup_app. split; [|split; [|apply NoDup_singleton]].
      * destruct (conns cls' !! uid_of c) as [l|] eqn:El; [by apply (H3 _ l El)|constructor].
      * intros x Hx Hx'. apply list_elem_of_singleton in Hx' as ->. by apply (Hconn (uid_of c)).
    + rewrite lookup_insert_ne by done. apply H3.
  - intros u x. unfold Conns. cbn. unfold add_conn.
    assert (Hctx' : forall x, x ≠ conn -> <[conn := c]> (ctx cls') !! x = ctx cls' !! x) by (intros; by rewrite lookup_insert_ne).
    destruct (decide (x = conn)) as [->|Hne].
    + rewrite lookup_insert_eq. destruct (0 <? uid_of c) eqn:Eu.
      * apply Z.ltb_lt in Eu. destruct (decide (u = uid_of c)) as [->|Hu].
        -- rewrite lookup_insert_eq. cbn. rewrite elem_of_app, list_elem_of_singleton. split; [by eexists|by right].
        -- rewrite lookup_insert_ne by done. split; [intros Hx; by apply Hconn in Hx|]. intros (c' & [= <-] & Hc' & _). congruence.
      * apply Z.ltb_ge in Eu. split; [intros Hx; by apply Hconn in Hx|]. intros (c' & [= <-] & Hc' & ?). lia.
    + rewrite Hctx' by done. rewrite <- H4. unfold Conns. destruct (0 <? uid_of c); [|done].
      destruct (decide (u = uid_of c)) as [->|Hu].
      * rewrite lookup_insert_eq. cbn. rewrite elem_of_app, list_elem_of_singleton. tauto.
      * by rewrite lookup_insert_ne.
  - done.
Qed.
End Registry.

(** ** Frames are read without a panic *)

Lemma unpack_total {E} f b p : exists g q, unpack (E := E) f (b :: p) = Ok (g, q).
Proof.
  destruct (length (chopped f)) as [|[|n]] eqn:En.
  - apply nil_length_inv in En. destruct p as [|b1 p]; [rewrite unpack_first_only by done; by eexists _, _|].
    rewrite unpack_first, unpack_second by (try done; cbn; by rewrite En). eexists _, _. f_equal. apply surjective_pairing.
  - rewrite unpack_second by done. eexists _, _. f_equal. apply surjective_pairing.
  - rewrite unpack_body by lia. eexists _, _. f_equal. apply surjective_pairing.
Qed.

Lemma Unpack_some b p : exists fs, Unpack (E := unit) (b :: p) = Ok (Some fs).
Proof.
  pose proof (Unpack_loop_total (E := unit) (length (b :: p)) [] (b :: p) ltac:(lia)) as [fs Hfs].
  exists fs. unfold Unpack. by rewrite Hfs.
Qed.

Section Server.
Context {Ctx : Type} (uid_of : Ctx -> Z) (serv : Server) (broken : Z -> bool).

Definition ok (w : world (Ctx := Ctx)) : Prop := cm_wf uid_of (Clients w).

Lemma ok_call w c : ok w -> ok (do_call w c).
Proof. done. Qed.

Lemma ok_ClientRemove w conn : ok w -> ok (ClientRemove uid_of serv w conn).
Proof.
  intros Hw. unfold ClientRemove. apply ok_call, ok_call. unfold ok. cbn.
  destruct (Context_of (Clients w) conn) as [c|]; [destruct (HandleClientRemove serv)|]; by apply wf_remove.
Qed.

Lemma ok_clientAdd w c conn : ok w -> ok (clientAdd uid_of serv w c conn).
Proof.
  intros Hw. unfold clientAdd. destruct c as [c|]; [|done]. destruct (HandleClientAdd serv); by apply wf_add.
Qed.

Lemma ok_Send w conn p : ok w -> ok (Send broken w conn p).1.
Proof. intros Hw. unfold Send. by destruct (broken conn). Qed.

Lemma ok_refuse w conn code : ok w -> ok (refuse uid_of serv broken w conn code).
Proof.
  intros Hw. unfold refuse. pose proof (ok_Send w conn (NewFrameClose 0 false code []) Hw) as Hs.
  destruct (Send _ _ _ _) as [w' b]. by apply ok_ClientRemove.
Qed.

Lemma ok_handleClose w conn f : ok w -> ok (handleClose uid_of serv broken w conn f).
Proof.
  intros Hw. unfold handleClose. cbv zeta. destruct (match payload f with [] | [_] => _ | _ => _ end) as [code p].
  pose proof (ok_Send w conn (NewFrameClose 0 false code p) Hw) as Hs.
  destruct (Send _ _ _ _) as [w' b]. by apply ok_ClientRemove.
Qed.

Lemma ok_handlePing w conn f : ok w -> ok (handlePing uid_of serv broken w conn f).
Proof.
  intros Hw. unfold handlePing. pose proof (ok_Send w conn (pack 0 (set_pong f)).2 Hw) as Hs.
  destruct (Send _ _ _ _) as [w' b]. destruct b; [done|by apply ok_ClientRemove].
Qed.

Lemma ok_deliver w conn f : ok w -> ok (deliver uid_of serv broken w conn f).1.
Proof.
  intros Hw. unfold deliver. destruct (opcode f =? OpcodeText); [|done]. destruct (Valid (payload f)); [done|]. by apply ok_refuse.
Qed.

Lemma ok_handleFragment w conn f : ok w -> exists w' b, handleFragment uid_of serv broken w conn f = Ok (w', b) /\ ok w'.
Proof.
  intros Hw. unfold handleFragment. cbv zeta. unfold getFrames.
  destruct (match frames (Clients w) !! conn with None => _ | Some _ => _ end);
    [eexists _, _; split; [done|by apply ok_refuse]|].
  destruct (fin f =? 0).
  { destruct (unfinished f); eexists _, _; (split; [done|]); unfold ok; cbn; [by apply wf_setFrame|].
    apply wf_setFrames; [by apply wf_setFrame|]. intros l [= <-]. unfold Append. by destruct (default [] _). }
  destruct (negb _ && unfinished f); [eexists _, _; split; [done|by apply wf_setFrame]|].
  unfold finFrames. destruct (frames (Clients w) !! conn) as [fs|] eqn:Ef.
  - assert (Hne : fs ≠ []) by (by apply (wf_frames _ _ Hw conn)). destruct fs as [|g fs]; [done|]. cbn [frames_fin mbind outcome_bind].
    pose proof Hw as [H1 H2 H3 H4 H5].
    match goal with |- context [deliver _ _ _ ?w' conn ?g'] => pose proof (ok_deliver w' conn g') as Hd; destruct (deliver _ _ _ w' conn g') as [w1 b] end.
    exists w1, b. split; [done|]. apply Hd. split; try done. cbn. intros x l Hl. apply lookup_delete_Some in Hl as [_ Hl]. by apply (H5 x).
  - cbn [mbind outcome_bind]. pose proof (ok_deliver (with_clients w (Clients w)) conn f) as Hd.
    destruct (deliver _ _ _ _ conn f) as [w1 b]. exists w1, b. split; [done|]. by apply Hd.
Qed.

Lemma ok_handleFrame w conn f : ok w -> exists w' b, handleFrame uid_of serv broken w conn f = Ok (w', b) /\ ok w'.
Proof.
  intros Hw. unfold handleFrame. cbv zeta. destruct (negb _); [eexists _, _; split; [done|by apply ok_refuse]|].
  destruct (_ || _ || _); [by apply ok_handleFragment|].
  destruct (_ && _); [eexists _, _; split; [done|by apply ok_refuse]|].
  destruct (_ =? OpcodeClose); [eexists _, _; split; [done|by apply ok_handleClose]|].
  destruct (_ =? OpcodePing); [eexists _, _; split; [done|by apply ok_handlePing]|].
  destruct (_ =? OpcodePong); [eexists _, _; split; [done|by destruct (handlePong serv)]|].
  destruct (HandleRsvControl serv); [by eexists _, _|]. eexists _, _; split; [done|by apply ok_handleClose].
Qed.

Lemma ok_handle_frames conn fs : forall w, ok w -> exists w' b, handle_frames uid_of serv broken w conn fs = Ok (w', b) /\ ok w'.
Proof.
  induction fs as [|f fs IH]; intros w Hw; cbn [handle_frames]; [by eexists _, _|].
  destruct (negb (isComplete f)); [apply IH; by apply wf_setFrame|].
  destruct (ok_handleFrame w conn f Hw) as (w1 & b & -> & Hw1). cbn [mbind outcome_bind].
  destruct b; [by eexists _, _|by apply IH].
Qed.

Lemma ok_read_frames w conn b p : ok w -> exists w' c, read_frames uid_of serv broken w conn (b :: p) = Ok (w', c) /\ ok w'.
Proof.
  intros Hw. unfold read_frames. destruct (Unpack_some b p) as [fs ->]. cbn [mbind outcome_bind].
  destruct (ok_handle_frames conn fs w Hw) as (w1 & c & -> & Hw1). cbn [mbind outcome_bind]. destruct c; by eexists _, _.
Qed.

Lemma ok_read_packet w conn p : ok w -> exists w' b, read_packet uid_of serv broken w conn p = Ok (w', b) /\ ok w'.
Proof.
  intros Hw. unfold read_packet. destruct p as [|c p]; [eexists _, _; split; [done|by apply ok_ClientRemove]|].
  destruct (getFrame (Clients w) conn) as [f|]; [|by apply ok_read_frames].
  destruct (unpack_total (E := unit) f c p) as (g & q & ->). cbn [mbind outcome_bind]. cbv zeta.
  set (w0 := with_clients w _). assert (Hw0 : ok w0) by (by apply wf_setFrame).
  assert (Hh : exists w1 b, (if isComplete g then handleFrame uid_of serv broken (with_clients w0 (setFrame (Clients w0) conn None)) conn g
    else Ok (w0, false)) = Ok (w1, b) /\ ok w1).
  { destruct (isComplete g); [|by eexists _, _]. apply ok_handleFrame. by apply wf_setFrame. }
  destruct Hh as (w1 & b & -> & Hw1). cbn [mbind outcome_bind]. destruct b; [by eexists _, _|].
  destruct q as [|c' q]; [by eexists _, _|by apply ok_read_frames].
Qed.

Lemma ok_ping_all conns : forall w, ok w -> ok (ping_all uid_of serv broken w conns).
Proof.
  induction conns as [|conn conns IH]; intros w Hw; cbn [ping_all]; [done|].
  pose proof (ok_Send w conn (NewFramePing 0 false []) Hw) as Hs. destruct (Send _ _ _ _) as [w' b]. destruct b; apply IH; [done|by apply ok_ClientRemove].
Qed.

(** ** The states of the server *)

Inductive reachable : world (Ctx := Ctx) -> Prop :=
| r_new : reachable (World newClientManager [])
| r_add w c conn : reachable w -> reachable (clientAdd uid_of serv w c conn)
| r_remove w conn : reachable w -> reachable (ClientRemove uid_of serv w conn)
| r_packet w conn p w' b : reachable w -> read_packet uid_of serv broken w conn p = Ok (w', b) -> reachable w'
| r_ping w : reachable w -> reachable (pinger_tick uid_of serv broken w).

(** C27: in every state that connections, packets, pings and removals, in any
    order and on any connections, can bring the server to, the registry is
    consistent: the list of connections has no repetition and is that of the
    connections with a context, the connections of a user are those whose
    context carries the user's ID; and reading a packet in that state ends
    without a panic. *)
Theorem reachable_clients w : reachable w ->
  cm_wf uid_of (Clients w) /\ forall conn p, exists w' b, read_packet uid_of serv broken w conn p = Ok (w', b).
Proof.
  intros Hr. assert (Hw : ok w).
  { induction Hr as [|w c conn _ IH|w conn _ IH|w conn p w' b _ IH Hp|w _ IH].
    - apply cm_wf_new.
    - by apply ok_clientAdd.
    - by apply ok_ClientRemove.
    - destruct (ok_read_packet w conn p IH) as (w1 & b1 & Hp1 & Hw1). congruence.
    - by apply ok_ping_all. }
  split; [done|]. intros conn p. destruct (ok_read_packet w conn p Hw) as (w' & b & Hp & _). by exists w', b.
Qed.
End Server.

(** Two connections of a user; one is dropped after a frame that is not masked. *)
Lemma reachable_clients_witness :
  let serv := {| HandleClientAdd := true; HandleClientRemove := true; HandleRsvControl := false; handlePong := true;
                 allowRsv1 := false; allowRsv2 := false; allowRsv3 := false |} in
  let w0 := clientAdd id serv (clientAdd id serv (World newClientManager []) (Some 7) 4) (Some 7) 5 in
  exists w, read_packet id serv (fun _ => false) w0 4 [137; 0] = Ok (w, true) /\ Conns (Clients w) 7 = [5] /\
    cm_wf id (Clients w) /\ forall conn p, exists w' b, read_packet id serv (fun _ => false) w conn p = Ok (w', b).
Proof.
  intros serv w0. set (r := read_packet id serv (fun _ => false) w0 4 [137; 0]).
  assert (Hr : exists w, r = Ok (w, true) /\ Conns (Clients w) 7 = [5]) by (eexists; split; [vm_compute; reflexivity|reflexivity]).
  destruct Hr as (w & Hw & Hc). exists w. split; [done|]. split; [done|].
  apply (reachable_clients id serv (fun _ => false)). eapply r_packet; [|exact Hw]. apply r_add, r_add, r_new.
Defined.
