(* ===== verification/WsStream.v ===== *)
(** Package [lib/websocket]: the frames that a peer sends as a stream of bytes,
    and what [Frame.unpack] makes of the stream when it comes cut into packets.
    The server ([WsMessages]) and the client ([WsClientFacts]) share it. *)

From Stdlib Require Import ZArith Lia.
From S2P Require Import Prelude WsFrame.

Local Open Scope Z_scope.

(** ** Frames of a peer *)

(** A frame as a peer sends it: whether it is masked, and the source of its mask. *)
Record piece : Type := Piece { p_masked : bool; p_rnd : Z; p_fin : bool; p_op : Z; p_data : list Z }.

Definition fin_bit (d : piece) : Z := if p_fin d then frameIsFinished else 0.
Definition wire (d : piece) : list Z := fragment (p_rnd d) (fin_bit d) (p_op d) (p_masked d) (p_data d).
Definition seen (d : piece) : Frame := sent_fragment (p_rnd d) (fin_bit d) (p_op d) (p_masked d) (p_data d).
Definition stream (ds : list piece) : list Z := concat (wire <$> ds).

(** An opcode of four bits and a length that fits, not 127: see [unpack_resume_127]. *)
Definition regular (d : piece) : Prop :=
  0 <= p_op d < 16 /\ Z.of_nat (length (p_data d)) < 2 ^ 64 /\ length (p_data d) ≠ 127%nat.

Lemma fin_bit_cases d : fin_bit d = 0 \/ fin_bit d = frameIsFinished.
Proof. unfold fin_bit. destruct (p_fin d); auto. Qed.

Lemma unpack_wire {E} d s : regular d -> unpack (E := E) zeroFrame (wire d ++ s) = Ok (seen d, s).
Proof. intros (Hop & Hl & _). apply unpack_fragment; [apply fin_bit_cases|done..]. Qed.

Lemma wire_cons d : exists b0 b1 l, wire d = b0 :: b1 :: l.
Proof. unfold wire. rewrite fragment_eq. by eexists _, _, _. Qed.

Lemma stream_cons d ds : stream (d :: ds) = wire d ++ stream ds.
Proof. done. Qed.

Lemma wire_clean d s : regular d -> medium127 (wire d ++ s) = false.
Proof.
  intros (Hop & Hl & Hne). unfold wire. rewrite fragment_eq.
  pose proof (pack_len_range (Z.of_nat (length (p_data d))) ltac:(lia)) as Hpl.
  destruct (second_byte (p_masked d) _ Hpl) as [_ C2]. cbv zeta in C2. cbv iota in C2.
  revert C2. set (b1 := Z.lor _ (u8 _)). intros C2.
  rewrite <- !app_comm_cons. unfold medium127.
  destruct ((pack_ext _ _ ++ _) ++ s) as [|h2 [|h3 q]] eqn:Eq; [done..|].
  rewrite C2. unfold pack_len, pack_ext in *.
  destruct (Z.ltb_spec 65535 (Z.of_nat (length (p_data d)))); [done|].
  destruct (Z.ltb_spec frameSmallPayload (Z.of_nat (length (p_data d)))) as [Hs|Hs].
  2: { rewrite (proj2 (Z.eqb_neq _ frameMediumPayload)); [done|]. unfold frameSmallPayload, frameMediumPayload in *. lia. }
  cbn in Eq. injection Eq as <- <- _. cbn [andb Z.eqb frameMediumPayload Pos.eqb].
  destruct (Z.eqb_spec (u8 (Z.shiftr (u16 (Z.of_nat (length (p_data d)))) 8)) 0) as [H1|]; [|done].
  destruct (Z.eqb_spec (u8 (u16 (Z.of_nat (length (p_data d))))) 127) as [H2|]; [|done].
  exfalso. apply Hne. pose proof (from_be16 (u16 (Z.of_nat (length (p_data d)))) (u16_is_u16 _)) as Hb.
  unfold be16 in Hb. rewrite H1, H2 in Hb. change (from_be [0; 127]) with 127 in Hb.
  rewrite u16_id in Hb by (unfold is_u16; lia). lia.
Qed.

(** ** A frame of which a part has come

    [r] is what is still to come of [d]; [zeroFrame] is before its first byte. *)
Record midway (d : piece) (f : Frame) (r : list Z) : Prop := {
  mid_live : live f;
  mid_clean s : clean f (r ++ s);
  mid_ne : r ≠ [];
  mid_unpack : unpack (E := unit) f r = Ok (seen d, [])
}.

Lemma midway_zero d : regular d -> midway d zeroFrame (wire d).
Proof.
  intros Hd. split.
  - split_and!; [done|constructor|by apply pend_first].
  - intros s _. by apply wire_clean.
  - destruct (wire_cons d) as (b0 & b1 & l & ->). done.
  - rewrite <- (app_nil_r (wire d)) at 1. by apply unpack_wire.
Qed.

Lemma midway_more d f p r : midway d f (p ++ r) -> p ≠ [] -> r ≠ [] -> is_bytes p ->
  exists g, unpack (E := unit) f p = Ok (g, []) /\ midway d g r /\ isComplete g = false.
Proof.
  intros [Hl Hc _ Hu] Hp Hr Hb.
  destruct (unpack_app (E := unit) p f r Hp Hr Hl Hb) as (g & q & Hg & [[Hi Hw]|(-> & Hlg & Hcg & Hw)]).
  { specialize (Hc []). by rewrite app_nil_r in Hc. }
  { rewrite Hw in Hu. injection Hu as _ Hq. apply app_nil in Hq as [_ ->]. done. }
  exists g. split; [done|]. split; [|by destruct Hlg]. split; [done| |done|by rewrite <- Hw].
  intros s. destruct (unpack_app (E := unit) p f (r ++ s) Hp) as (g' & q' & Hg' & [[Hi' _]|(_ & _ & Hcg' & _)]).
  - by destruct r.
  - done.
  - done.
  - rewrite (assoc_L (++)). apply Hc.
  - assert (g' = g) as -> by congruence. destruct Hlg. congruence.
  - assert (g' = g) as -> by congruence. done.
Qed.

Lemma midway_done d f r s : midway d f r -> is_bytes r -> unpack (E := unit) f (r ++ s) = Ok (seen d, s).
Proof.
  intros [Hl Hc Hr Hu] Hb. destruct (decide (s = [])) as [->|Hs]; [by rewrite app_nil_r|].
  destruct (unpack_app (E := unit) r f s Hr Hs Hl Hb) as (g & q & Hg & [[Hi Hw]|(-> & Hlg & _ & Hw)]).
  { apply Hc. }
  - rewrite Hu in Hg. injection Hg as <- <-. by rewrite Hw.
  - rewrite Hu in Hg. injection Hg as <-. by destruct Hlg.
Qed.

(** Where a cut of the stream falls: in [r], or after it. *)
Lemma cut_in (r l p q : list Z) : r ++ l = p ++ q -> p ≠ [] ->
  (exists r', r = p ++ r' /\ r' ≠ [] /\ q = r' ++ l) \/ (exists p', p = r ++ p' /\ p' ++ q = l).
Proof.
  intros Heq Hp. apply app_eq_inv in Heq as [(k & Hr & Hl)|(k & Hpk & Hl)].
  - destruct (decide (k = [])) as [->|Hk]; [right|left; by exists k].
    exists []. rewrite app_nil_r in Hr. by rewrite Hr, app_nil_r.
  - right. by exists k.
Qed.

(** A packet that comes when part of [d] has come, and [ds] are to come after it: the
    frame is still not whole, or it is and the rest of the packet is of [ds]. *)
Lemma resume_packet d f r ds p q : midway d f r -> p ++ q = r ++ stream ds -> is_bytes p -> p ≠ [] ->
  exists g p', unpack (E := unit) f p = Ok (g, p') /\
    ((exists r', p' = [] /\ midway d g r' /\ isComplete g = false /\ q = r' ++ stream ds) \/
     (g = seen d /\ p' ++ q = stream ds /\ is_bytes p')).
Proof.
  intros Hm Hq Hb Hne. destruct (cut_in r (stream ds) p q (eq_sym Hq) Hne) as [(r' & -> & Hr' & ->)|(p' & -> & Hp')].
  - destruct (midway_more d f p r' Hm Hne Hr' Hb) as (g & Hg & Hmg & Hi). exists g, []. split; [done|]. left. by exists r'.
  - apply Forall_app in Hb as [Hbr Hb']. exists (seen d), p'. split; [by apply midway_done|]. by right.
Qed.

(** One packet, from where a frame starts: the frames that it ends, and, when it
    ends within a frame, that frame as it stands. *)
Inductive cut (ds : list piece) (q : list Z) : list Frame -> Prop :=
| cut_clean : q = stream ds -> cut ds q []
| cut_mid d f r ds' : ds = d :: ds' -> midway d f r -> isComplete f = false -> q = r ++ stream ds' -> cut ds q [f].

Lemma Unpack_loop_stream ds : forall fuel p q frames, Forall regular ds ->
  p ++ q = stream ds -> is_bytes p -> (length p <= fuel)%nat ->
  exists ds1 ds2 tl, ds = ds1 ++ ds2 /\ cut ds2 q tl /\
    Unpack_loop (E := unit) fuel frames p = Ok (frames ++ (seen <$> ds1) ++ tl).
Proof.
  induction ds as [|d ds IH]; intros fuel p q frames Hall Hp Hb Hf.
  { apply app_nil in Hp as [-> ->]. exists [], [], []. split; [done|]. split; [by constructor|].
    destruct fuel; cbn; by rewrite app_nil_r. }
  destruct p as [|b p].
  { exists [], (d :: ds), []. split; [done|]. split; [by constructor|]. destruct fuel; cbn; by rewrite app_nil_r. }
  apply Forall_cons in Hall as [Hd Hall]. destruct fuel as [|fuel]; [cbn in Hf; lia|]. cbn [Unpack_loop].
  pose proof (midway_zero d Hd) as Hz. rewrite stream_cons in Hp.
  destruct (cut_in (wire d) (stream ds) (b :: p) q (eq_sym Hp)) as [(r & Hr & Hne & Hq)|(p' & Hp' & Hq)]; [done|..].
  - rewrite Hr in Hz. destruct (midway_more d zeroFrame (b :: p) r Hz) as (g & Hg & Hm & Hi); [done..|].
    rewrite Hg. cbn [mbind outcome_bind]. exists [], (d :: ds), [g]. split; [done|]. split; [by eapply cut_mid|].
    by destruct fuel.
  - rewrite Hp'. rewrite unpack_wire by done. cbn [mbind outcome_bind].
    destruct (wire_cons d) as (b0 & b1 & l & Hw).
    destruct (IH fuel p' q (Append frames (Some (seen d))) Hall Hq) as (ds1 & ds2 & tl & -> & Hcut & ->).
    + rewrite Hp' in Hb. by apply Forall_app in Hb as [_ Hb].
    + rewrite Hp', length_app, Hw in Hf. cbn in Hf. lia.
    + exists (d :: ds1), ds2, tl. split; [done|]. split; [done|]. unfold Append. by rewrite fmap_cons, <- (assoc_L (++)).
Qed.

(** ** Messages in fragments *)

(** The message begun: its opcode and what came of it. *)
Definition message := option (Z * list Z).
Definition join (pend : message) (d : piece) : Z * list Z :=
  match pend with Some (op, p) => (op, p ++ p_data d) | None => (p_op d, p_data d) end.

(** Fragments kept are the message begun. *)
Definition holds (fs : option (list Frame)) (pend : message) : Prop :=
  match fs, pend with
  | None, None => True
  | Some (g :: gs), Some (op, p) =>
      opcode g = op /\ Forall (fun f => opcode f = OpcodeCont) gs /\ p = payload g ++ concat (payload <$> gs)
  | _, _ => False
  end.

Lemma fin_loop_cont gs acc : Forall (fun f => opcode f = OpcodeCont) gs ->
  fin_loop acc gs = acc ++ concat (payload <$> gs).
Proof.
  intros Hgs. revert acc. induction Hgs as [|g gs Hg _ IH]; intros acc; cbn; [by rewrite app_nil_r|].
  rewrite Hg. cbn. by rewrite IH, <- (assoc_L (++)).
Qed.

Lemma holds_join fs pend d g : holds fs pend -> fs ≠ None -> p_op d = OpcodeCont ->
  frames_fin (E := unit) (default [] fs) (Some (seen d)) = Ok g ->
  (opcode g, payload g) = join pend d.
Proof.
  intros Hh Hne Hop. destruct fs as [[|f gs]|]; [done| |done]. destruct pend as [[op p]|]; [|done].
  destruct Hh as (Ho & Hgs & ->). cbn. rewrite fin_loop_cont by done. intros [= <-]. cbn. by rewrite Ho.
Qed.

Lemma holds_snoc fs pend d : holds fs pend -> (fs ≠ None -> p_op d = OpcodeCont) ->
  holds (Some (default [] fs ++ [seen d])) (Some (join pend d)).
Proof.
  intros Hh Hop. destruct fs as [[|f gs]|], pend as [[op p]|]; try done.
  - destruct Hh as (Ho & Hgs & ->). cbn. split; [done|]. split.
    + apply Forall_app. split; [done|]. constructor; [|done]. by apply Hop.
    + rewrite fmap_app, concat_app. cbn. by rewrite app_nil_r, <- (assoc_L (++)).
  - cbn. by rewrite app_nil_r.
Qed.
