(* ===== verification/WsMessages.v ===== *)
(** Package [lib/websocket]: what a client sends arrives whole.  A reference
    conversation, on the frames that the client sends, says which calls the server
    makes; the server makes them however the stream of the client is cut into
    packets. *)

From Stdlib Require Import ZArith Lia.
From S2P Require Import Prelude Utf8 Ints WsFrame WsStream WsServer.

Local Open Scope Z_scope.

Section Conversation.
Context {Ctx : Type} (uid_of : Ctx -> Z) (serv : Server) (broken : Z -> bool).
(** The connection, and its context. *)
Context (conn : Z) (c : option Ctx).

Abbreviation call := (call (Ctx := Ctx)).
Abbreviation world := (world (Ctx := Ctx)).

(** ** The reference conversation

    [pend] is the message begun: its opcode and what came of it.  The calls that
    the frames cause, and the message begun then, [None] when the connection is
    closed. *)
Definition gone : list call :=
  (if HandleClientRemove serv then match c with Some c => [CallClientRemove c conn] | None => [] end else [])
  ++ [UnregisterRead conn; Close conn].
Definition refused (code : Z) : list call :=
  [Sent conn (NewFrameClose 0 false code []); Discard conn] ++ gone.
Definition farewell (d : piece) : list call :=
  let code := reply_code (if p_op d =? OpcodeClose then close_code (p_data d) else 0) in
  match p_data d with
  | _ :: _ :: rest => Sent conn (NewFrameClose 0 false (if Valid rest then code else StatusBadRequest) rest)
  | short => Sent conn (NewFrameClose 0 false code short)
  end :: gone.

Definition talk1 (pend : message) (d : piece) : list call * option message :=
  let op := p_op d in
  if negb (p_masked d) || (OpcodeClose <=? op) && (negb (p_fin d) || (125 <? Z.of_nat (length (p_data d)))) then (refused StatusBadRequest, None)
  else if op <=? OpcodeBin then
    if bool_decide (is_Some pend) && negb (op =? OpcodeCont) || negb (bool_decide (is_Some pend)) && (op =? OpcodeCont)
    then (refused StatusBadRequest, None)
    else if negb (p_fin d) then ([], Some (Some (join pend d)))
    else
      let '(op, p) := join pend d in
      if op =? OpcodeText then
        if Valid p then ([HandleText conn p], Some None) else (refused StatusInvalidData, None)
      else ([HandleBin conn p], Some None)
  else if op <? OpcodeClose then (refused StatusBadRequest, None)
  else if op =? OpcodeClose then (farewell d, None)
  else if op =? OpcodePing then ([Sent conn (NewFramePong 0 false (p_data d))], Some pend)
  else if op =? OpcodePong then (if handlePong serv then [CallPong conn (seen d)] else [], Some pend)
  else if HandleRsvControl serv then ([CallRsvControl conn (seen d)], Some pend)
  else (farewell d, None).

Fixpoint talk (pend : message) (ds : list piece) : list call * option message :=
  match ds with
  | [] => ([], Some pend)
  | d :: ds =>
      match talk1 pend d with
      | (cs, None) => (cs, None)
      | (cs, Some pend) => let '(cs', r) := talk pend ds in (cs ++ cs', r)
      end
  end.

Lemma talk_app ds1 ds2 : forall pend,
  talk pend (ds1 ++ ds2) =
    match talk pend ds1 with
    | (cs, None) => (cs, None)
    | (cs, Some pend) => let '(cs', r) := talk pend ds2 in (cs ++ cs', r)
    end.
Proof.
  induction ds1 as [|d ds1 IH]; intros pend; cbn [talk app]; [by destruct (talk pend ds2)|].
  destruct (talk1 pend d) as [cs [pend'|]]; [|done]. rewrite IH.
  destruct (talk pend' ds1) as [cs1 [pend1|]]; [|done]. destruct (talk pend1 ds2). by rewrite (assoc_L (++)).
Qed.

(** ** The server has the conversation *)

Definition at_rest (w : world) (pend : message) : Prop :=
  ctx (Clients w) !! conn = c /\ holds (frames (Clients w) !! conn) pend.

Context (Hopen : broken conn = false).

Lemma calls_ClientRemove w : ctx (Clients w) !! conn = c ->
  calls (ClientRemove uid_of serv w conn) = calls w ++ gone.
Proof.
  intros Hc. unfold ClientRemove, gone, Context_of. rewrite Hc.
  destruct c as [c0|], (HandleClientRemove serv); cbn; by rewrite <- !(assoc_L (++)).
Qed.

Lemma calls_refuse w code : ctx (Clients w) !! conn = c ->
  calls (refuse uid_of serv broken w conn code) = calls w ++ refused code.
Proof.
  intros Hc. unfold refuse, Send. rewrite Hopen. rewrite calls_ClientRemove by done.
  unfold refused. cbn. by rewrite <- !(assoc_L (++)).
Qed.

Lemma calls_handleClose w d : ctx (Clients w) !! conn = c ->
  calls (handleClose uid_of serv broken w conn (seen d)) = calls w ++ farewell d.
Proof.
  intros Hc. unfold handleClose, Send, farewell. cbv zeta. cbn [payload closeCode seen sent_fragment].
  destruct (p_data d) as [|b0 [|b1 rest]]; rewrite Hopen, calls_ClientRemove by done; cbn; by rewrite <- !(assoc_L (++)).
Qed.

Lemma unfinished_seen d : unfinished (seen d) = false.
Proof. unfold unfinished. cbn. apply Z.ltb_irrefl. Qed.

Lemma isValid_seen d :
  isValid (seen d) true (allowRsv1 serv) (allowRsv2 serv) (allowRsv3 serv)
  = negb (negb (p_masked d) || (OpcodeClose <=? p_op d) && (negb (p_fin d) || (125 <? Z.of_nat (length (p_data d))))).
Proof.
  unfold isValid. cbn [masked rsv1 rsv2 rsv3 opcode fin len seen sent_fragment]. destruct (p_masked d); [|done]. cbn [negb andb Z.ltb Z.compare frameIsMasked Z.eqb Pos.eqb].
  destruct (OpcodeClose <=? p_op d); [|done]. unfold fin_bit, frameSmallPayload. destruct (p_fin d); cbn; [|done]. by destruct (_ <? _).
Qed.

(** From [w] the server makes these calls, and is closed or at rest. *)
Definition follows (w : world) (r : list call * option message) (o : outcome unit (world * bool)) : Prop :=
  exists w', o = Ok (w', bool_decide (r.2 = None)) /\ calls w' = calls w ++ r.1 /\
    forall pend, r.2 = Some pend -> at_rest w' pend /\ frame (Clients w') !! conn = None.

Lemma follows_closed w cs o w' : o = Ok (w', true) -> calls w' = calls w ++ cs -> follows w (cs, None) o.
Proof. intros -> Hc. by exists w'. Qed.
Lemma follows_open w cs pend o w' : o = Ok (w', false) -> calls w' = calls w ++ cs -> at_rest w' pend ->
  frame (Clients w') !! conn = None -> follows w (cs, Some pend) o.
Proof. intros -> Hc Hr Hf. exists w'. split; [done|]. split; [done|]. by intros pend' [= <-]. Qed.

Lemma deliver_follows w f op p : ctx (Clients w) !! conn = c -> frames (Clients w) !! conn = None ->
  frame (Clients w) !! conn = None -> (opcode f, payload f) = (op, p) ->
  follows w (if op =? OpcodeText then
      if Valid p then ([HandleText conn p], Some None) else (refused StatusInvalidData, None)
    else ([HandleBin conn p], Some None)) (Ok (deliver uid_of serv broken w conn f)).
Proof.
  intros Hc Hfs Hf [= <- <-]. unfold deliver.
  assert (Hrest : forall k, at_rest (do_call w k) None) by (intros k; split; [done|]; cbn; by rewrite Hfs).
  destruct (opcode f =? OpcodeText); [destruct (Valid (payload f))|].
  - by eapply follows_open.
  - eapply follows_closed; [done|]. by apply calls_refuse.
  - by eapply follows_open.
Qed.

Lemma handleFragment_follows w pend d : at_rest w pend -> frame (Clients w) !! conn = None ->
  follows w
    (if bool_decide (is_Some pend) && negb (p_op d =? OpcodeCont) || negb (bool_decide (is_Some pend)) && (p_op d =? OpcodeCont)
     then (refused StatusBadRequest, None)
     else if negb (p_fin d) then ([], Some (Some (join pend d)))
     else let '(op, p) := join pend d in
      if op =? OpcodeText then
        if Valid p then ([HandleText conn p], Some None) else (refused StatusInvalidData, None)
      else ([HandleBin conn p], Some None))
    (handleFragment uid_of serv broken w conn (seen d)).
Proof.
  intros [Hc Hh] Hf. unfold handleFragment. cbv zeta. unfold getFrames.
  rewrite unfinished_seen, andb_false_r. cbn [opcode fin seen sent_fragment].
  assert (Hp : bool_decide (is_Some pend) = bool_decide (is_Some (frames (Clients w) !! conn))).
  { apply bool_decide_ext. destruct (frames (Clients w) !! conn) as [[|]|], pend as [[]|]; try done; split; intros; by eexists. }
  rewrite Hp. set (fs := frames (Clients w) !! conn) in *.
  replace (match fs with None => _ | Some _ => _ end) with
    (bool_decide (is_Some fs) && negb (p_op d =? OpcodeCont) || negb (bool_decide (is_Some fs)) && (p_op d =? OpcodeCont))
    by (destruct fs; cbn; [by rewrite orb_false_r|done]).
  destruct (_ || _) eqn:Ebad; [eapply follows_closed; [done|by apply calls_refuse]|].
  assert (Hop : fs ≠ None -> p_op d = OpcodeCont).
  { intros Hne. destruct fs; [|done]. rewrite bool_decide_true in Ebad by (by eexists). cbn in Ebad.
    rewrite orb_false_r in Ebad. apply negb_false_iff in Ebad. by apply Z.eqb_eq. }
  assert (Hfin : (fin_bit d =? 0) = negb (p_fin d)) by (unfold fin_bit; by destruct (p_fin d)). rewrite Hfin.
  destruct (negb (p_fin d)).
  - eapply follows_open; [done|by rewrite app_nil_r| |].
    + split; [done|]. cbn. rewrite lookup_partial_alter, decide_True by done. by apply holds_snoc.
    + cbn. by rewrite lookup_partial_alter, decide_True.
  - rewrite (surjective_pairing (join pend d)). unfold finFrames. fold fs. destruct fs as [l|] eqn:Efs.
    + destruct (frames_fin (E := unit) l (Some (seen d))) as [g| | |] eqn:Eg; [|by destruct l..].
      cbn [mbind outcome_bind]. apply (deliver_follows (with_clients w _)); try done; cbn.
      * apply lookup_delete_eq.
      * apply lookup_delete_eq.
      * rewrite <- surjective_pairing. by apply (holds_join (Some l) pend d g Hh ltac:(done) (Hop ltac:(done))).
    + cbn [mbind outcome_bind]. apply (deliver_follows (with_clients w _)); try done. cbn.
      destruct pend as [[]|]; done.
Qed.

Lemma handleFrame_follows w pend d : at_rest w pend -> frame (Clients w) !! conn = None -> 0 <= p_op d < 16 ->
  follows w (talk1 pend d) (handleFrame uid_of serv broken w conn (seen d)).
Proof.
  intros Hr Hf Hop. unfold handleFrame, talk1. rewrite isValid_seen, negb_involutive. cbv zeta.
  pose proof (proj1 Hr) as Hc. cbn [opcode seen sent_fragment].
  destruct (_ || _) eqn:Ev; [eapply follows_closed; [done|by apply calls_refuse]|].
  destruct (Z.leb_spec (p_op d) OpcodeBin) as [Hd|Hd]; unfold OpcodeBin, OpcodeText, OpcodeCont, OpcodeClose in *.
  { replace ((p_op d =? 0) || (p_op d =? 1) || (p_op d =? 2)) with true by (symmetry; rewrite !orb_true_iff, !Z.eqb_eq; lia).
    by apply handleFragment_follows. }
  replace ((p_op d =? 0) || (p_op d =? 1) || (p_op d =? 2)) with false by (symmetry; rewrite !orb_false_iff, !Z.eqb_neq; lia).
  replace ((3 <=? p_op d) && (p_op d <=? 7)) with (p_op d <? 8) by (apply eq_bool_prop_intro; rewrite andb_True, !Is_true_true, Z.ltb_lt, !Z.leb_le; lia).
  destruct (Z.ltb_spec (p_op d) 8); [eapply follows_closed; [done|by apply calls_refuse]|].
  destruct (p_op d =? 8) eqn:E8; [eapply follows_closed; [done|by apply calls_handleClose]|].
  destruct (p_op d =? OpcodePing) eqn:E9.
  { unfold handlePing, Send. rewrite Hopen. eapply follows_open; [done| |done..]. cbn [calls do_call]. do 3 f_equal.
    apply orb_false_iff in Ev as [_ Ev]. rewrite andb_false_iff, Z.leb_gt, orb_false_iff, negb_false_iff, Z.ltb_ge in Ev. destruct Ev as [?|[Efin Hlen]]; [lia|].
    unfold NewFramePong, newControlFrame, frameSmallPayload. rewrite (proj2 (Z.ltb_ge _ _)) by lia.
    unfold NewFrame, set_pong, seen, sent_fragment, fin_bit. rewrite Efin. reflexivity. }
  destruct (p_op d =? OpcodePong).
  { destruct (handlePong serv); eapply follows_open; try done. by rewrite app_nil_r. }
  destruct (HandleRsvControl serv); [by eapply follows_open|]. eapply follows_closed; [done|by apply calls_handleClose].
Qed.

Lemma handle_frames_follows ds : forall w pend, at_rest w pend -> frame (Clients w) !! conn = None -> Forall regular ds ->
  follows w (talk pend ds) (handle_frames uid_of serv broken w conn (seen <$> ds)).
Proof.
  induction ds as [|d ds IH]; intros w pend Hr Hf Hall; [by eapply follows_open; [|by rewrite app_nil_r|..]|].
  apply Forall_cons in Hall as [[Hop Hlen] Hall]. rewrite fmap_cons. cbn [handle_frames talk isComplete seen sent_fragment negb].
  destruct (handleFrame_follows w pend d Hr Hf Hop) as (w1 & -> & Hc1 & Hr1). cbn [mbind outcome_bind].
  destruct (talk1 pend d) as [cs [pend1|]]; cbn [bool_decide decide_rel snd fst] in *; [|by eapply follows_closed].
  destruct (Hr1 pend1 eq_refl) as [Hrest Hfr]. rewrite bool_decide_false by done.
  destruct (IH w1 pend1 Hrest Hfr Hall) as (w2 & -> & Hc2 & Hr2).
  destruct (talk pend1 ds) as [cs2 r]. exists w2. split; [done|]. split; [|done]. by rewrite Hc2, Hc1, <- (assoc_L (++)).
Qed.

Lemma handle_frames_app fs1 fs2 : forall w,
  handle_frames uid_of serv broken w conn (fs1 ++ fs2)
  = ('(w, isClosing) ← handle_frames uid_of serv broken w conn fs1;
     if (isClosing : bool) then Ok (w, true) else handle_frames uid_of serv broken w conn fs2).
Proof.
  induction fs1 as [|f fs1 IH]; intros w; cbn [handle_frames app]; [done|].
  destruct (negb (isComplete f)); [apply IH|].
  destruct (handleFrame _ _ _ w conn f) as [[w' b]| | |]; try done. cbn [mbind outcome_bind]. destruct b; [done|apply IH].
Qed.

(** ** Packets *)

(** What is still to come, [q], goes on with the frame that the server keeps, if
    any, and with [ds]. *)
Inductive resumes (w : world) (q : list Z) : list piece -> Prop :=
| resumes_none ds : frame (Clients w) !! conn = None -> q = stream ds -> resumes w q ds
| resumes_mid d f r ds : frame (Clients w) !! conn = Some f -> midway d f r -> q = r ++ stream ds -> resumes w q (d :: ds).

(** The calls without the registrations for reading. *)
Definition heard : list call -> list call :=
  List.filter (fun k => match k with ReregisterRead _ => false | _ => true end).

Lemma heard_app l1 l2 : heard (l1 ++ l2) = heard l1 ++ heard l2.
Proof. apply List.filter_app. Qed.

(** A packet of which [ds] are the frames to come, and [q] the bytes after it. *)
Definition reads (w : world) (pend : message) (ds : list piece) (q : list Z) (o : outcome unit (world * bool)) : Prop :=
  exists ds1 ds2 w', ds = ds1 ++ ds2 /\ o = Ok (w', bool_decide ((talk pend ds1).2 = None)) /\
    heard (calls w') = heard (calls w ++ (talk pend ds1).1) /\
    forall pend', (talk pend ds1).2 = Some pend' -> at_rest w' pend' /\ resumes w' q ds2.

Lemma read_frames_reads w pend ds p q : at_rest w pend -> frame (Clients w) !! conn = None -> Forall regular ds ->
  p ++ q = stream ds -> is_bytes p -> p ≠ [] ->
  reads w pend ds q (read_frames uid_of serv broken w conn p).
Proof.
  intros Hr Hf Hall Hp Hb Hne. unfold read_frames, Unpack. destruct p as [|b p]; [done|].
  destruct (Unpack_loop_stream ds (length (b :: p)) (b :: p) q [] Hall Hp Hb (le_n _)) as (ds1 & ds2 & tl & -> & Hcut & ->).
  apply Forall_app in Hall as [Hall1 _]. cbn [mbind outcome_bind app]. rewrite handle_frames_app.
  destruct (handle_frames_follows ds1 w pend Hr Hf Hall1) as (w1 & -> & Hc1 & Hr1). cbn [mbind outcome_bind].
  destruct (talk pend ds1).2 as [pend'|] eqn:Et.
  2: { exists ds1, ds2, w1. rewrite Et. cbn. split; [done|]. split; [done|]. by rewrite Hc1. }
  rewrite bool_decide_false by done. destruct (Hr1 pend' eq_refl) as [Hrest Hfr].
  assert (Hcalls : heard (calls (do_call w1 (ReregisterRead conn))) = heard (calls w ++ (talk pend ds1).1))
    by (cbn; by rewrite heard_app, app_nil_r, Hc1).
  destruct Hcut as [Hq|d f r ds' -> Hm Hi Hq].
  - cbn. exists ds1, ds2, (do_call w1 (ReregisterRead conn)). rewrite Et, bool_decide_false by done. split; [done|].
    split; [done|]. split; [done|]. intros p0 [= <-]. split; [done|]. by apply resumes_none.
  - cbn [handle_frames]. rewrite Hi. cbn [negb mbind outcome_bind].
    eexists ds1, (d :: ds'), _. rewrite Et, bool_decide_false by done. split; [done|]. split; [done|].
    split; [done|]. intros p0 [= <-]. split; [done|]. apply (resumes_mid _ _ d f r); try done.
    cbn. by rewrite lookup_partial_alter, decide_True.
Qed.

Lemma reads_more w pend d ds q w1 o cs pend1 :
  talk1 pend d = (cs, Some pend1) -> calls w1 = calls w ++ cs ->
  reads w1 pend1 ds q o -> reads w pend (d :: ds) q o.
Proof.
  intros Ht Hc (ds1 & ds2 & w' & -> & -> & Hh & Hr). exists (d :: ds1), ds2, w'. cbn [talk]. rewrite Ht.
  destruct (talk pend1 ds1) as [cs1 r]. cbn [fst snd] in *. split; [done|]. split; [done|]. split; [|done].
  by rewrite Hh, Hc, <- (assoc_L (++)).
Qed.

Lemma read_packet_reads w pend ds p q : at_rest w pend -> Forall regular ds -> resumes w (p ++ q) ds ->
  is_bytes p -> p ≠ [] ->
  reads w pend ds q (read_packet uid_of serv broken w conn p).
Proof.
  intros Hr Hall Hres Hb Hne. unfold read_packet, getFrame.
  destruct Hres as [ds Hf Hq|d f r ds Hf Hm Hq]; rewrite Hf.
  { destruct p as [|b p]; [done|]. by apply read_frames_reads. }
  apply Forall_cons in Hall as [[Hop Hlen] Hall].
  pose proof (resume_packet d f r ds p q Hm Hq Hb Hne) as Hcase.
  destruct p as [|b p]; [done|]. destruct Hcase as (g & p' & -> & Hcase). cbn [mbind outcome_bind]. cbv zeta.
  destruct Hcase as [(r' & -> & Hmg & Hi & ->)|(-> & Hp' & Hb')].
  - rewrite Hi. cbn [mbind outcome_bind]. eexists [], (d :: ds), _. split; [done|]. split; [done|]. split.
    + cbn. by rewrite heard_app, !app_nil_r.
    + intros p0 [= <-]. split; [done|]. apply (resumes_mid _ _ d g r'); try done. cbn. by rewrite lookup_partial_alter, decide_True.
  - cbn [isComplete seen sent_fragment].
    set (w0 := with_clients _ (setFrame _ conn None)).
    assert (Hf0 : frame (Clients w0) !! conn = None) by (cbn; by rewrite lookup_partial_alter, decide_True).
    destruct (handleFrame_follows w0 pend d Hr Hf0 Hop) as (w1 & -> & Hc1 & Hr1). cbn [mbind outcome_bind].
    destruct (talk1 pend d) as [cs [pend1|]] eqn:Et; cbn [fst snd] in *.
    2: { exists [d], ds, w1. cbn [talk]. rewrite Et. cbn. split; [done|]. split; [done|]. by rewrite Hc1. }
    rewrite bool_decide_false by done. destruct (Hr1 pend1 eq_refl) as [Hrest Hfr].
    destruct p' as [|b' p'].
    + eapply reads_more; [done|exact Hc1|]. eexists [], ds, _. split; [done|]. split; [done|].
      split; [cbn; by rewrite heard_app, !app_nil_r|]. intros p0 [= <-]. split; [done|]. by apply resumes_none.
    + eapply reads_more; [done|exact Hc1|]. by apply read_frames_reads.
Qed.

Lemma read_packets_reads chunks : forall w pend ds, at_rest w pend -> Forall regular ds ->
  resumes w (concat chunks) ds -> is_bytes (concat chunks) -> Forall (fun p => p ≠ []) chunks ->
  exists w', read_packets uid_of serv broken w conn chunks = Ok (w', bool_decide ((talk pend ds).2 = None)) /\
    heard (calls w') = heard (calls w ++ (talk pend ds).1).
Proof.
  induction chunks as [|p chunks IH]; intros w pend ds Hr Hall Hres Hb Hne; cbn [read_packets concat] in *.
  { assert (ds = []) as ->.
    { destruct Hres as [ds _ Hq|d f r ds _ Hm Hq].
      - destruct ds as [|d ds]; [done|]. rewrite stream_cons in Hq. by destruct (wire_cons d) as (? & ? & ? & Hw); rewrite Hw in Hq.
      - symmetry in Hq. apply app_nil in Hq as [-> _]. by destruct Hm. }
    exists w. cbn. by rewrite app_nil_r. }
  apply Forall_cons in Hne as [Hp Hne]. apply Forall_app in Hb as [Hbp Hb].
  destruct (read_packet_reads w pend ds p (concat chunks) Hr Hall Hres Hbp Hp) as (ds1 & ds2 & w1 & -> & -> & Hh & Hrest).
  cbn [mbind outcome_bind]. rewrite talk_app. apply Forall_app in Hall as [_ Hall].
  destruct (talk pend ds1) as [cs [pend1|]]; cbn [fst snd] in *; [|by exists w1].
  rewrite bool_decide_false by done. destruct (Hrest pend1 eq_refl) as [Hr1 Hres1].
  destruct (IH w1 pend1 ds2 Hr1 Hall Hres1 Hb Hne) as (w2 & -> & Hh2).
  exists w2. destruct (talk pend1 ds2) as [cs2 o]. cbn [fst snd] in *. split; [done|].
  by rewrite Hh2, !heard_app, Hh, heard_app, (assoc_L (++)).
Qed.

End Conversation.

Lemma talk1_heard {Ctx} serv conn (c : option Ctx) pend d :
  heard (talk1 serv conn c pend d).1 = (talk1 serv conn c pend d).1.
Proof.
  assert (Hgone : heard (gone serv conn c) = gone serv conn c) by (unfold gone; by destruct (HandleClientRemove serv), c).
  assert (Href : forall code, heard (refused serv conn c code) = refused serv conn c code)
    by (intros code; unfold refused; by rewrite heard_app, Hgone).
  assert (Hfar : heard (farewell serv conn c d) = farewell serv conn c d)
    by (unfold farewell; cbv zeta; destruct (p_data d) as [|? [|??]]; cbn; by rewrite Hgone).
  unfold talk1. destruct (join pend d) as [op p].
  repeat match goal with |- context [if ?b then _ else _] => destruct b end; cbn [fst]; auto.
Qed.

Lemma talk_heard {Ctx} serv conn (c : option Ctx) ds : forall pend,
  heard (talk serv conn c pend ds).1 = (talk serv conn c pend ds).1.
Proof.
  induction ds as [|d ds IH]; intros pend; cbn [talk]; [done|].
  pose proof (talk1_heard serv conn c pend d) as H1.
  destruct (talk1 serv conn c pend d) as [cs [pend'|]]; cbn [fst] in *; [|done].
  specialize (IH pend'). destruct (talk serv conn c pend' ds) as [cs' r]. cbn [fst] in *. by rewrite heard_app, H1, IH.
Qed.

(** C2: what a client sends arrives whole.  However the bytes of its frames
    are cut into packets, the calls that the server makes, for messages in one
    frame or in several, with control frames between them, and for the first
    frame that it does not accept, are those of the reference conversation; the
    connection is closed exactly when the conversation closes it.  No payload
    has 127 bytes. *)
Theorem messages_whole {Ctx} (uid_of : Ctx -> Z) serv broken conn w ds chunks :
  broken conn = false -> getFrame (Clients w) conn = None -> getFrames (Clients w) conn = None ->
  Forall regular ds -> Forall (fun p => p ≠ []) chunks -> is_bytes (concat chunks) -> concat chunks = stream ds ->
  let r := talk serv conn (Context_of (Clients w) conn) None ds in
  exists w', read_packets uid_of serv broken w conn chunks = Ok (w', bool_decide (r.2 = None)) /\
    heard (calls w') = heard (calls w) ++ r.1.
Proof.
  intros Hb Hf Hfs Hall Hne Hbytes Hs r. unfold getFrame, getFrames in *.
  destruct (read_packets_reads uid_of serv broken conn (Context_of (Clients w) conn) Hb chunks w None ds)
    as (w' & Hw & Hh); try done.
  - split; [done|]. by rewrite Hfs.
  - by apply resumes_none.
  - exists w'. split; [done|]. by rewrite Hh, heard_app, talk_heard.
Qed.

(** A text in two frames, with a ping between them, cut in five, then a close. *)
Definition demo_serv : Server := {|
  HandleClientAdd := true; HandleClientRemove := true; HandleRsvControl := false; handlePong := true;
  allowRsv1 := false; allowRsv2 := false; allowRsv3 := false
|}.
Definition demo_world : world (Ctx := Z) := clientAdd id demo_serv (World newClientManager []) (Some 7) 4.
Definition demo_pieces : list piece :=
  [Piece true 16909060 false OpcodeText [104; 101]; Piece true 5 true OpcodePing [1]; Piece true 9 true OpcodeCont [108; 108; 111];
   Piece true 0 true OpcodeClose [3; 232; 98]].
Definition demo_chunks : list (list Z) :=
  let s := stream demo_pieces in [take 1 s; take 6 (drop 1 s); take 4 (drop 7 s); take 9 (drop 11 s); drop 20 s].

Lemma messages_whole_witness :
  let r := talk demo_serv 4 (Some 7) None demo_pieces in
  (exists w', read_packets id demo_serv (fun _ => false) demo_world 4 demo_chunks = Ok (w', bool_decide (r.2 = None)) /\
    heard (calls w') = heard (calls demo_world) ++ r.1)
  /\ r = ([Sent 4 [138; 1; 1]; HandleText 4 [104; 101; 108; 108; 111]; Sent 4 [136; 3; 3; 232; 98]; CallClientRemove 7 4; UnregisterRead 4; Close 4], None).
Proof.
  split; [|vm_compute; reflexivity].
  apply (messages_whole id demo_serv (fun _ => false) 4 demo_world demo_pieces demo_chunks).
  - reflexivity.
  - reflexivity.
  - reflexivity.
  - repeat constructor; vm_compute; done.
  - repeat constructor; vm_compute; discriminate.
  - apply (bool_decide_unpack _). vm_compute. exact Logic.I.
  - vm_compute. reflexivity.
Defined.
