(* ===== verification/WsRoutes.v ===== *)
(** Package [lib/websocket], files [rootroute.go], [route.go] and [request.go]:
    the routes of text requests.

    The routes of a method are a tree in which every route is owned by one
    parent, so the pointer [parent] of the loops is a route in the middle of the
    tree: the route and the way up.  Following the pointer to a child and
    changing what it points to are operations on that pair; at the end of [add]
    the tree is put together again.  A handler is a value of the type [H]; nil
    is [None]. *)

From Stdlib Require Import ZArith Lia.
From S2P Require Import Prelude Ascii Utf8.

Local Open Scope Z_scope.

Definition pathSep : Z := 47.
Definition pathParamPrefix : Z := 58.
Definition pathQuerySep : Z := 63.

Inductive route_error : Type := ErrRouteInvMethod | ErrRouteInvTarget | ErrRouteDupParam.

#[export] Instance route_error_eq_dec : EqDecision route_error.
Proof. solve_decision. Defined.

Section Routes.
Context {U : Unicode} {H : Type}.

(** ** route.go *)

Inductive route : Type := Route (name : list Z) (childs : list route) (handler : option H) (isParam : bool).

Definition r_name (r : route) : list Z := let 'Route n _ _ _ := r in n.
Definition r_childs (r : route) : list route := let 'Route _ cs _ _ := r in cs.
Definition r_handler (r : route) : option H := let 'Route _ _ h _ := r in h.
Definition r_isParam (r : route) : bool := let 'Route _ _ _ p := r in p.

(** The pointer to a route: the route, and its ancestors, the parent first, each
    with the children before and after the one on the way. *)
Record frame : Type := Frame {
  f_name : list Z; f_left : list route; f_right : list route; f_handler : option H; f_isParam : bool
}.
Record pointer : Type := Ptr { above : list frame; here : route }.

Definition plug (f : frame) (r : route) : route :=
  Route (f_name f) (f_left f ++ r :: f_right f) (f_handler f) (f_isParam f).
Fixpoint unroot (fs : list frame) (r : route) : route :=
  match fs with [] => r | f :: fs => unroot fs (plug f r) end.

(** The first child that passes a test. *)
Fixpoint find_child (test : route -> bool) (cs : list route) : option (list route * route * list route) :=
  match cs with
  | [] => None
  | c :: cs =>
      if test c then Some ([], c, cs)
      else match find_child test cs with Some (l, d, r) => Some (c :: l, d, r) | None => None end
  end.

Definition down (p : pointer) (found : option (list route * route * list route)) : option pointer :=
  match found with
  | Some (l, c, r) => Some (Ptr (Frame (r_name (here p)) l r (r_handler (here p)) (r_isParam (here p)) :: above p) c)
  | None => None
  end.

Definition getChild (p : pointer) (isParam : bool) (name : list Z) : option pointer :=
  down p (find_child (fun c => Bool.eqb isParam (r_isParam c) && bool_decide (name = r_name c)) (r_childs (here p))).
Definition getChildAsParam (p : pointer) : option pointer :=
  down p (find_child r_isParam (r_childs (here p))).

Definition append_child (p : pointer) (c : route) : pointer :=
  Ptr (Frame (r_name (here p)) (r_childs (here p)) [] (r_handler (here p)) (r_isParam (here p)) :: above p) c.

(** The child; on an error, none, and the route is left as it is. *)
Definition addChild (p : pointer) (isParam : bool) (name : list Z) : pointer + route_error :=
  match getChild p isParam name with
  | Some c => inl c
  | None =>
      match (if isParam then getChildAsParam p else None) with
      | Some _ => inr ErrRouteDupParam
      | None => inl (append_child p (Route name [] None isParam))
      end
  end.

Definition set_handler (p : pointer) (h : option H) : pointer :=
  Ptr (above p) (Route (r_name (here p)) (r_childs (here p)) h (r_isParam (here p))).

Definition top (p : pointer) : route := unroot (above p) (here p).

(** ** rootroute.go *)

Record rootRoute : Type := RootRoute {
  methodDelete : route; methodGet : route; methodPatch : route; methodPost : route; methodPut : route
}.

Definition slash : route := Route [pathSep] [] None false.
Definition newRootRoute : rootRoute := RootRoute slash slash slash slash slash.

(** [getParent] gives a field of the root: the route, and the root with the
    field changed. *)
Definition getParent (root : rootRoute) (method : list Z) : option (route * (route -> rootRoute)) :=
  let '(RootRoute d g pa po pu) := root in
  if bool_decide (method = str "DELETE") then Some (d, fun d => RootRoute d g pa po pu)
  else if bool_decide (method = str "GET") then Some (g, fun g => RootRoute d g pa po pu)
  else if bool_decide (method = str "PATCH") then Some (pa, fun pa => RootRoute d g pa po pu)
  else if bool_decide (method = str "POST") then Some (po, fun po => RootRoute d g pa po pu)
  else if bool_decide (method = str "PUT") then Some (pu, fun pu => RootRoute d g pa po pu)
  else None.

(** The loop of [add] on [target[1:]], and what follows it: the pointer where it
    ends, and the error. *)
Fixpoint add_loop (parent : pointer) (bb : list Z) (started isParam : bool) (target : list Z) (h : option H)
    : pointer * option route_error :=
  match target with
  | [] =>
      match bb with
      | [] => (set_handler parent h, None)
      | _ =>
          match addChild parent isParam bb with
          | inl c => (set_handler c h, None)
          | inr e => (parent, Some e)
          end
      end
  | b :: target =>
      if started && (b =? pathParamPrefix) then add_loop parent bb false true target h
      else if negb (b =? pathSep) then add_loop parent (bb ++ [b]) started isParam target h
      else
        match bb with
        | [] => add_loop parent [] true false target h
        | _ =>
            match addChild parent isParam bb with
            | inl c => add_loop c [] true false target h
            | inr e => (parent, Some e)
            end
        end
  end.

(** [add]: the root and the error; an empty target panics. *)
Definition add (root : rootRoute) (method target : list Z) (h : option H) : outcome unit (rootRoute * option route_error) :=
  match target with
  | [] => Panic
  | b :: target =>
      if negb (b =? pathSep) then Ok (root, Some ErrRouteInvTarget)
      else
        match getParent root (text_ToUpper method) with
        | None => Ok (root, Some ErrRouteInvMethod)
        | Some (r, put) =>
            let '(p, err) := add_loop (Ptr [] r) [] true false target h in
            Ok (put (top p), err)
        end
  end.

(** The step of [get] from a route to the child for [s]. *)
Definition targetParam := gmap (list Z) (list Z).
Definition get_child (parent : pointer) (s : list Z) (params : targetParam) : option (pointer * targetParam) :=
  match getChild parent false s with
  | Some c => Some (c, params)
  | None =>
      match getChildAsParam parent with
      | Some c => Some (c, <[r_name (here c) := s]> params)
      | None => None
      end
  end.

Fixpoint get_loop (parent : pointer) (bb : list Z) (target : list Z) (params : targetParam) : option targetParam * option H :=
  match target with
  | [] =>
      match bb with
      | [] => (Some params, r_handler (here parent))
      | _ =>
          match get_child parent bb params with
          | Some (c, params) => (Some params, r_handler (here c))
          | None => (None, None)
          end
      end
  | b :: target =>
      if negb (b =? pathSep) then get_loop parent (bb ++ [b]) target params
      else
        match get_child parent bb params with
        | Some (c, params) => get_loop c [] target params
        | None => (None, None)
        end
  end.

Definition get (root : rootRoute) (method target : list Z) : option targetParam * option H :=
  match method, target with
  | [], _ | _, [] => (None, None)
  | _, b :: target =>
      if negb (b =? pathSep) then (None, None)
      else
        match getParent root (text_ToUpper method) with
        | None => (None, None)
        | Some (r, _) => get_loop (Ptr [] r) [] target ∅
        end
  end.

(** ** request.go *)

(** [url.ParseQuery]: keys and values between separators, unescaped; what cannot
    be unescaped is an error, which the caller gives back. *)
Definition hex_digit (c : Z) : option Z :=
  if in_range c 48 57 then Some (c - 48)
  else if in_range c 97 102 then Some (c - 87)
  else if in_range c 65 70 then Some (c - 55)
  else None.
Fixpoint QueryUnescape (s : list Z) : option (list Z) :=
  match s with
  | [] => Some []
  | 37 :: t =>
      match t with
      | a :: b :: s =>
          match hex_digit a, hex_digit b with
          | Some x, Some y => (fun u => x * 16 + y :: u) <$> QueryUnescape s
          | _, _ => None
          end
      | _ => None
      end
  | 43 :: s => cons 32 <$> QueryUnescape s
  | c :: s => cons c <$> QueryUnescape s
  end.

Fixpoint cut_at (test : Z -> bool) (s : list Z) : list Z * option (list Z) :=
  match s with
  | [] => ([], None)
  | c :: s => if test c then ([], Some s) else let '(a, r) := cut_at test s in (c :: a, r)
  end.

Definition Values := gmap (list Z) (list (list Z)).
Definition query_add (m : Values) (part : list Z) : option Values :=
  let '(key, value) := cut_at (fun c => c =? 61) part in
  match QueryUnescape key, QueryUnescape (default [] value) with
  | Some key, Some value => Some (<[key := default [] (m !! key) ++ [value]]> m)
  | _, _ => None
  end.
Fixpoint ParseQuery_loop (fuel : nat) (m : Values) (ok : bool) (query : list Z) : Values * bool :=
  match fuel, query with
  | S fuel, _ :: _ =>
      let '(part, rest) := cut_at (fun c => (c =? 38) || (c =? 59)) query in
      match part with
      | [] => ParseQuery_loop fuel m ok (default [] rest)
      | _ =>
          match query_add m part with
          | Some m => ParseQuery_loop fuel m ok (default [] rest)
          | None => ParseQuery_loop fuel m false (default [] rest)
          end
      end
  | _, _ => (m, ok)
  end.
Definition ParseQuery (query : list Z) : Values * bool := ParseQuery_loop (length query) ∅ true query.

Record Request : Type := {
  ID : Z; Method : list Z; Target : list Z; Body : list Z; Path : list Z;
  Params : option targetParam; Query : Values; Conn : Z
}.

Definition request_reset (req : Request) : Request := {|
  ID := 0; Method := []; Target := []; Body := []; Path := []; Params := Some ∅; Query := ∅; Conn := Conn req
|}.

(** [unpack]: the request, the handler, and whether the query is an error. *)
Definition request_unpack (routes : rootRoute) (req : Request) : Request * option H * bool :=
  match Target req with
  | [] => (req, None, false)
  | _ =>
      let '(path, query) := cut_at (fun c => c =? pathQuerySep) (Target req) in
      let '(params, handler) := get routes (Method req) path in
      let req := {| ID := ID req; Method := Method req; Target := Target req; Body := Body req; Path := path;
                    Params := params; Query := Query req; Conn := Conn req |} in
      match handler with
      | None => (req, None, false)
      | Some h =>
          match query with
          | None => (req, Some h, false)
          | Some q =>
              let '(values, ok) := ParseQuery q in
              let req := {| ID := ID req; Method := Method req; Target := Target req; Body := Body req; Path := path;
                            Params := params; Query := values; Conn := Conn req |} in
              if ok then (req, Some h, false) else (req, None, true)
          end
      end
  end.

End Routes.
