(* ===== verification/WsRoutesFacts.v ===== *)
(** Package [lib/websocket]: the tree of routes implements a map from patterns to
    handlers.  A pattern is the list of the segments of a target, each with
    the mark of a parameter. *)

From Stdlib Require Import ZArith Lia.
From S2P Require Import Prelude Ascii Utf8 WsRoutes.

Local Open Scope Z_scope.

Section Facts.
Context {U : Unicode} {H : Type}.
Implicit Types (r c : route (H := H)) (cs : list (route (H := H))) (p : pointer (H := H)) (root : rootRoute (H := H)).

Definition key : Type := bool * list Z.
Definition key_of r : key := (r_isParam r, r_name r).

(** ** Children *)

Lemma find_child_Some test cs l c rr : find_child test cs = Some (l, c, rr) -> cs = l ++ c :: rr.
Proof.
  revert l. induction cs as [|d cs IH]; intros l; cbn; [done|].
  destruct (test d); [by intros [= <- -> ->]|].
  destruct (find_child test cs) as [[[l' d'] rr']|]; [|done]. intros [= <- <- <-]. cbn. by rewrite (IH l').
Qed.

(** The child with a key. *)
Definition child (k : key) cs : option (route (H := H)) :=
  (fun found => found.1.2) <$> find_child (fun c => Bool.eqb k.1 (r_isParam c) && bool_decide (k.2 = r_name c)) cs.

Lemma child_cons k c cs : child k (c :: cs) = if decide (k = key_of c) then Some c else child k cs.
Proof.
  unfold child. cbn. destruct k as [b n]. cbn.
  destruct (Bool.eqb b (r_isParam c) && bool_decide (n = r_name c)) eqn:E.
  - apply andb_true_iff in E as [->%eqb_prop ->%bool_decide_eq_true]. by rewrite decide_True.
  - rewrite decide_False; [by destruct (find_child _ cs) as [[[]]|]|]. unfold key_of. intros [= -> ->].
    by rewrite eqb_reflx, bool_decide_true in E.
Qed.

Lemma child_app k cs cs' : child k (cs ++ cs') = match child k cs with Some c => Some c | None => child k cs' end.
Proof. induction cs as [|c cs IH]; [done|]. cbn [app]. rewrite !child_cons, IH. by destruct (decide _). Qed.

Lemma child_Some k cs c : child k cs = Some c -> c ∈ cs /\ k = key_of c.
Proof.
  induction cs as [|d cs IH]; [done|]. rewrite child_cons, elem_of_cons.
  destruct (decide (k = key_of d)) as [Hk|]; [intros [= <-]; auto|]. intros Hc. apply IH in Hc as [? ?]. auto.
Qed.

Lemma child_None k cs c : child k cs = None -> c ∈ cs -> k ≠ key_of c.
Proof.
  induction cs as [|d cs IH]; [intros _ Hc; by apply not_elem_of_nil in Hc|]. rewrite child_cons, elem_of_cons.
  destruct (decide (k = key_of d)); [done|]. intros Hn [->|Hc]; auto.
Qed.

(** A child is replaced by one with its key. *)
Lemma child_replace l c c' rr k k' : child k (l ++ c :: rr) = Some c -> child k l = None -> key_of c' = key_of c ->
  child k' (l ++ c' :: rr) = if decide (k' = k) then Some c' else child k' (l ++ c :: rr).
Proof.
  intros Hc Hl Hk. apply child_Some in Hc as [_ ->]. rewrite !child_app, !child_cons, Hk.
  destruct (decide (k' = key_of c)) as [->|]; [|done]. by rewrite Hl.
Qed.

Lemma find_child_child k cs l c rr :
  find_child (fun c => Bool.eqb k.1 (r_isParam c) && bool_decide (k.2 = r_name c)) cs = Some (l, c, rr) ->
  cs = l ++ c :: rr /\ child k cs = Some c /\ child k l = None.
Proof.
  intros Hf. pose proof (find_child_Some _ _ _ _ _ Hf) as ->. split; [done|].
  assert (Hc : child k (l ++ c :: rr) = Some c) by (unfold child; by rewrite Hf). split; [done|].
  revert Hf. clear Hc. induction l as [|d l IH]; [done|]. cbn [app find_child]. rewrite child_cons.
  destruct (_ && _) eqn:E; [done|].
  destruct (find_child _ (l ++ c :: rr)) as [[[l' d'] rr']|]; [|done]. intros [= -> -> ->].
  rewrite IH by done. rewrite decide_False; [done|]. intros ->. cbn in E. by rewrite eqb_reflx, bool_decide_true in E.
Qed.

(** ** The tree from above *)

Definition with_childs r cs : route (H := H) := Route (r_name r) cs (r_handler r) (r_isParam r).
Definition has_param cs : bool := existsb r_isParam cs.

Fixpoint grow r (ks : list key) (h : option H) : route (H := H) * option route_error :=
  match ks with
  | [] => (Route (r_name r) (r_childs r) h (r_isParam r), None)
  | k :: ks =>
      match find_child (fun c => Bool.eqb k.1 (r_isParam c) && bool_decide (k.2 = r_name c)) (r_childs r) with
      | Some (l, c, rr) => let '(c, e) := grow c ks h in (with_childs r (l ++ c :: rr), e)
      | None =>
          if k.1 && has_param (r_childs r) then (r, Some ErrRouteDupParam)
          else let '(c, e) := grow (Route k.2 [] None k.1) ks h in (with_childs r (r_childs r ++ [c]), e)
      end
  end.

Fixpoint adds p (ks : list key) (h : option H) : pointer (H := H) * option route_error :=
  match ks with
  | [] => (set_handler p h, None)
  | k :: ks => match addChild p k.1 k.2 with inl c => adds c ks h | inr e => (p, Some e) end
  end.

Lemma has_param_find cs : has_param cs = bool_decide (is_Some (find_child r_isParam cs)).
Proof.
  induction cs as [|c cs IH]; [done|]. cbn [find_child]. change (has_param (c :: cs)) with (r_isParam c || has_param cs).
  rewrite IH. destruct (r_isParam c); [done|].
  by destruct (find_child r_isParam cs) as [[[l d] rr]|].
Qed.

Lemma adds_grow ks h : forall p, top (adds p ks h).1 = unroot (above p) (grow (here p) ks h).1
  /\ (adds p ks h).2 = (grow (here p) ks h).2.
Proof.
  induction ks as [|[b n] ks IH]; intros p; cbn [adds grow]; [done|]. unfold addChild, getChild, getChildAsParam, top in *.
  set (found := find_child _ (r_childs (here p))).
  change (find_child (fun c0 => Bool.eqb b (r_isParam c0) && bool_decide (n = r_name c0)) (r_childs (here p))) with found.
  destruct found as [[[l c] rr]|].
  - cbn [down]. destruct (IH (Ptr (Frame (r_name (here p)) l rr (r_handler (here p)) (r_isParam (here p)) :: above p) c)) as [-> ->].
    cbn [above here unroot fst]. by destruct (grow c ks h).
  - cbn [down fst snd]. rewrite has_param_find.
    destruct b; cbn [andb]; [destruct (find_child r_isParam (r_childs (here p))) as [[[l d] rr]|] eqn:Ef|]; cbn [down].
    + by rewrite bool_decide_true by (by eexists).
    + rewrite bool_decide_false by (by intros [? ?]). unfold append_child.
      match goal with |- context [adds ?q ks h] => destruct (IH q) as [-> ->] end. cbn [above here unroot fst]. by destruct (grow _ ks h).
    + unfold append_child.
      match goal with |- context [adds ?q ks h] => destruct (IH q) as [-> ->] end. cbn [above here unroot fst]. by destruct (grow _ ks h).
Qed.

Lemma key_of_grow ks h : forall r, key_of (grow r ks h).1 = key_of r.
Proof.
  induction ks as [|k ks IH]; intros r; cbn [grow]; [done|].
  destruct (find_child _ _) as [[[l c] rr]|]; [by destruct (grow c ks h)|].
  destruct (_ && _); [done|]. by destruct (grow _ ks h).
Qed.

(** At most one name of a parameter at a place. *)
Inductive wf : route (H := H) -> Prop :=
| wf_route n cs h b : (forall c, c ∈ cs -> wf c) ->
    (forall c d, c ∈ cs -> d ∈ cs -> r_isParam c = true -> r_isParam d = true -> r_name c = r_name d) ->
    wf (Route n cs h b).

Lemma wf_childs r : wf r -> (forall c, c ∈ r_childs r -> wf c) /\
  (forall c d, c ∈ r_childs r -> d ∈ r_childs r -> r_isParam c = true -> r_isParam d = true -> r_name c = r_name d).
Proof. by destruct 1. Qed.

Lemma wf_grow ks h : forall r, wf r -> wf (grow r ks h).1.
Proof.
  induction ks as [|k ks IH]; intros r Hr; pose proof (wf_childs r Hr) as [Hc Hp]; cbn [grow]; [by constructor|].
  destruct (find_child _ _) as [[[l c] rr]|] eqn:Ef.
  - apply find_child_child in Ef as (Hcs & Hk & _). pose proof (key_of_grow ks h c) as Hkey.
    assert (Hin : c ∈ r_childs r) by (rewrite Hcs; set_solver). specialize (IH c (Hc c Hin)).
    destruct (grow c ks h) as [c' e]. cbn [fst] in *. injection Hkey as Hpar Hname. constructor.
    + intros d. rewrite elem_of_app, elem_of_cons. intros Hd. destruct Hd as [Hd|[->|Hd]]; [apply Hc| |apply Hc]; [|done|]; rewrite Hcs; set_solver.
    + assert (Hsame : forall d, d ∈ l ++ c' :: rr -> exists d', d' ∈ r_childs r /\ key_of d' = key_of d).
      { intros d. rewrite elem_of_app, elem_of_cons. intros [Hd|[->|Hd]].
        - exists d. split; [rewrite Hcs; set_solver|done].
        - exists c. split; [done|]. unfold key_of. by rewrite Hpar, Hname.
        - exists d. split; [rewrite Hcs; set_solver|done]. }
      intros d1 d2 H1 H2 P1 P2. apply Hsame in H1 as (e1 & H1 & [= E1 <-]), H2 as (e2 & H2 & [= E2 <-]).
      apply Hp; congruence.
  - destruct (k.1 && has_param (r_childs r)) eqn:Ed; [done|].
    assert (H0 : wf (Route k.2 [] None k.1)) by (constructor; set_solver).
    specialize (IH _ H0). pose proof (key_of_grow ks h (Route k.2 [] None k.1)) as Hkey.
    destruct (grow _ ks h) as [c' e]. cbn [fst] in *. injection Hkey as Hpar Hname. constructor.
    + intros d. rewrite elem_of_app, list_elem_of_singleton. intros [Hd| ->]; [by apply Hc|done].
    + assert (Hnone : r_isParam c' = true -> forall d, d ∈ r_childs r -> r_isParam d = false).
      { intros Hpc d Hd. rewrite Hpar in Hpc. rewrite Hpc in Ed. cbn in Ed. apply not_true_iff_false. intros Hdp.
        apply not_true_iff_false in Ed. apply Ed. unfold has_param. apply existsb_exists. exists d. split; [by apply list_elem_of_In|done]. }
      intros d1 d2. rewrite !elem_of_app, !list_elem_of_singleton. intros [H1| ->] [H2| ->] P1 P2; [by apply Hp| | |done].
      * rewrite (Hnone P2 d1 H1) in P1. done.
      * rewrite (Hnone P1 d2 H2) in P2. done.
Qed.

(** ** The map of patterns *)

(** The route at a pattern. *)
Fixpoint at_keys r (ks : list key) : option (route (H := H)) :=
  match ks with
  | [] => Some r
  | k :: ks => match child k (r_childs r) with Some c => at_keys c ks | None => None end
  end.

(** The patterns that are known, and their handlers. *)
Definition table : Type := list key -> option (option H).
Definition handlers r : table := fun ks => r_handler <$> at_keys r ks.

Lemma at_keys_app ks ks' : forall r, at_keys r (ks ++ ks') = (at_keys r ks ≫= fun c => at_keys c ks').
Proof. induction ks as [|k ks IH]; intros r; cbn; [done|]. destruct (child k (r_childs r)); [apply IH|done]. Qed.

(** The patterns on the way to [ks] are known, with the handlers that they have. *)
Definition open (a : table) (ks : list key) : table := fun ks' =>
  if decide (ks' `prefix_of` ks) then Some (default None (a ks')) else a ks'.

(** Adding a handler for a pattern: the pattern gets the handler, and nothing else
    changes; but when a place on the way has a parameter of another name, the
    patterns up to there become known. *)
Inductive added (a : table) (ks : list key) (h : option H) (a' : table) : option route_error -> Prop :=
| added_ok :
    (forall ks', a' ks' = if decide (ks' = ks) then Some h else open a ks ks') ->
    (forall pre n n' rest, ks = pre ++ (true, n) :: rest -> is_Some (a (pre ++ [(true, n')])) -> n' = n) ->
    added a ks h a' None
| added_dup pre n n' rest :
    ks = pre ++ (true, n) :: rest -> is_Some (a (pre ++ [(true, n')])) -> n' ≠ n ->
    (forall ks', a' ks' = open a pre ks') ->
    added a ks h a' (Some ErrRouteDupParam).

(** An operation on the child [k] is one on the route. *)
Lemma added_child a a' k ks h e c c' :
  (forall x, a (k :: x) = handlers c x) \/ (forall x, a (k :: x) = None /\ handlers c x = if decide (x = []) then Some None else None) ->
  (forall x, a' (k :: x) = handlers c' x) ->
  (forall ks', head ks' ≠ Some k -> a' ks' = a ks') ->
  is_Some (a []) ->
  (forall n n', k = (true, n) -> is_Some (a [(true, n')]) -> n' = n) ->
  added (handlers c) ks h (handlers c') e -> added a (k :: ks) h a' e.
Proof.
  intros Hboth Hk Ho Hroot Hpar Hadd.
  assert (Hd : forall x, default None (a (k :: x)) = default None (handlers c x)).
  { intros x. destruct Hboth as [-> |Hnew]; [done|]. destruct (Hnew x) as [-> ->]. by destruct (decide _). }
  assert (Hs : forall x, is_Some (a (k :: x)) -> is_Some (handlers c x)).
  { intros x. destruct Hboth as [-> |Hnew]; [done|]. destruct (Hnew x) as [-> _]. by intros [? ?]. }
  assert (Hs' : forall x, x ≠ [] -> is_Some (handlers c x) -> a (k :: x) = handlers c x).
  { intros x Hx. destruct Hboth as [-> |Hnew]; [done|]. destruct (Hnew x) as [_ ->]. rewrite decide_False by done. by intros [? ?]. }
  assert (Hopen : forall pre x, x ≠ [] -> open a (k :: pre) x = match x with k' :: x => if decide (k' = k) then open (handlers c) pre x else a (k' :: x) | [] => None end).
  { intros pre [|k' x] Hx; [done|]. unfold open. destruct (decide (k' = k)) as [->|Hne].
    - destruct (decide (x `prefix_of` pre)) as [Hp|Hp].
      + rewrite decide_True by (by apply prefix_cons). by rewrite Hd.
      + rewrite decide_False by (by intros ?%prefix_cons_inv_2).
        assert (x ≠ []) by (intros ->; apply Hp, prefix_nil).
        destruct (a (k :: x)) eqn:E; [|destruct (handlers c x) eqn:E'; [|done]].
        -- rewrite <- E. apply Hs'; [done|]. apply Hs. by eexists.
        -- rewrite <- E, <- E'. apply Hs'; [done|]. by eexists.
    - rewrite decide_False; [done|]. intros Hp. by apply prefix_cons_inv_1 in Hp. }
  assert (Hnil : forall pre, open a (k :: pre) [] = a []).
  { intros pre. unfold open. rewrite decide_True by apply prefix_nil. by destruct Hroot as [? ->]. }
  destruct Hadd as [Hall Hone|pre n n' rest -> Hsome Hne Hall].
  - apply added_ok.
    + intros [|k' x]; [rewrite decide_False, Hnil by done; by apply Ho|].
      rewrite Hopen by done. destruct (decide (k' = k)) as [->|Hne'].
      * rewrite Hk, Hall. destruct (decide (x = ks)) as [->|]; [by rewrite decide_True|]. by rewrite decide_False by congruence.
      * rewrite decide_False by congruence. apply Ho. cbn. congruence.
    + intros [|k' pre] n n' rest; cbn; intros [= -> Hks] Hs1; [by eapply Hpar|].
      eapply Hone; [exact Hks|]. apply Hs, Hs1.
  - apply (added_dup _ _ _ _ (k :: pre) n n' rest); [done| |done|].
    + cbn. rewrite Hs'; [done|by destruct pre|done].
    + intros [|k' x]; [rewrite Hnil; by apply Ho|]. rewrite Hopen by done. destruct (decide (k' = k)) as [->|Hne'].
      * by rewrite Hk, Hall.
      * apply Ho. cbn. congruence.
Qed.

Lemma open_nil r ks : open (handlers r) [] ks = handlers r ks.
Proof. unfold open. destruct (decide _) as [Hp|]; [|done]. by apply prefix_nil_inv in Hp as ->. Qed.

Lemma handlers_cons r k x : handlers r (k :: x) = match child k (r_childs r) with Some c => handlers c x | None => None end.
Proof. unfold handlers. cbn. by destruct (child k (r_childs r)). Qed.

Lemma has_param_true cs : has_param cs = true -> exists c, c ∈ cs /\ r_isParam c = true.
Proof. unfold has_param. intros (c & Hc & Hp)%existsb_exists. exists c. split; [by apply list_elem_of_In|done]. Qed.

Lemma child_known k r : is_Some (handlers r [k]) -> exists c, c ∈ r_childs r /\ key_of c = k.
Proof.
  rewrite handlers_cons. destruct (child k (r_childs r)) as [c|] eqn:E; [|by intros [? ?]].
  apply child_Some in E as [Hc ->]. by exists c.
Qed.

Lemma child_in cs c : c ∈ cs -> is_Some (child (key_of c) cs).
Proof. intros Hc. destruct (child (key_of c) cs) eqn:E; [by eexists|]. by destruct (child_None _ _ _ E Hc). Qed.

Lemma grow_added ks h : forall r, wf r -> added (handlers r) ks h (handlers (grow r ks h).1) (grow r ks h).2.
Proof.
  induction ks as [|k ks IH]; intros r Hr; cbn [grow].
  { apply added_ok; [|by intros [|? ?]]. intros [|k' x]; [done|]. rewrite decide_False by done. by rewrite open_nil. }
  destruct (wf_childs r Hr) as [Hc Hp].
  destruct (find_child _ _) as [[[l c] rr]|] eqn:Ef.
  - apply find_child_child in Ef as (Hcs & Hk & Hl). assert (Hin : c ∈ r_childs r) by (rewrite Hcs; set_solver).
    specialize (IH c (Hc c Hin)). pose proof (key_of_grow ks h c) as Hkey. destruct (grow c ks h) as [c' e]. cbn [fst snd] in *.
    rewrite Hcs in Hk. pose proof (child_replace l c c' rr k) as Hrep. apply child_Some in Hk as Hk'. destruct Hk' as [_ Hck].
    eapply added_child; [| | | | |exact IH].
    + left. intros x. by rewrite handlers_cons, Hcs, Hk.
    + intros x. rewrite handlers_cons. cbn [with_childs r_childs]. rewrite Hrep by done. by rewrite decide_True.
    + intros [|k' x] Hne; [done|]. rewrite !handlers_cons. cbn [with_childs r_childs]. rewrite Hrep by done.
      rewrite decide_False; [by rewrite Hcs|]. intros ->. by apply Hne.
    + by eexists.
    + intros n n' -> (d & Hd & Hkd)%child_known. unfold key_of in *. injection Hck as Hcp Hcn. injection Hkd as Hdp Hdn.
      rewrite Hcn, <- Hdn. by apply Hp.
  - assert (Hk : child k (r_childs r) = None) by (unfold child; by rewrite Ef).
    destruct (k.1 && has_param (r_childs r)) eqn:Ed.
    + apply andb_true_iff in Ed as [Eb (c & Hin & Hpc)%has_param_true]. destruct k as [b n]. cbn in Eb. subst b.
      apply (added_dup _ _ _ _ [] n (r_name c) ks); [done| | |intros; by rewrite open_nil].
      * cbn [app]. rewrite handlers_cons, <- Hpc. change (r_isParam c, r_name c) with (key_of c).
        destruct (child_in _ _ Hin) as [d ->]. by eexists.
      * intros Hn. apply (child_None _ _ _ Hk Hin). unfold key_of. by rewrite Hpc, Hn.
    + assert (H0 : wf (Route k.2 [] None k.1)) by (constructor; set_solver).
      specialize (IH _ H0). pose proof (key_of_grow ks h (Route k.2 [] None k.1)) as Hkey.
      destruct (grow _ ks h) as [c' e]. cbn [fst snd] in *.
      assert (Hkc : key_of c' = k) by (rewrite Hkey; by destruct k).
      eapply added_child; [| | | | |exact IH].
      * right. intros x. rewrite handlers_cons, Hk. split; [done|]. by destruct x.
      * intros x. rewrite handlers_cons. cbn [with_childs r_childs]. rewrite child_app, Hk, child_cons. by rewrite decide_True.
      * intros [|k' x] Hne; [done|]. rewrite !handlers_cons. cbn [with_childs r_childs]. rewrite child_app, child_cons.
        rewrite (decide_False (P := k' = key_of c')); [by destruct (child k' (r_childs r))|]. rewrite Hkc. intros ->. by apply Hne.
      * by eexists.
      * intros n n' -> (d & Hd & Hkd)%child_known. cbn in Ed. injection Hkd as Hdp Hdn.
        apply not_true_iff_false in Ed. exfalso. apply Ed. unfold has_param. apply existsb_exists. exists d. split; [by apply list_elem_of_In|done].
Qed.

(** ** Looking up *)

Fixpoint walk r (ss : list (list Z)) (params : targetParam) : option targetParam * option H :=
  match ss with
  | [] => (Some params, r_handler r)
  | s :: ss =>
      match child (false, s) (r_childs r) with
      | Some c => walk c ss params
      | None =>
          match find_child r_isParam (r_childs r) with
          | Some (_, c, _) => walk c ss (<[r_name c := s]> params)
          | None => (None, None)
          end
      end
  end.

(** What a path leads to: at each place the segment itself when it is known, else
    the parameter there, which takes the segment as its value; never back. *)
Inductive resolves (a : table) (pre : list key) : list (list Z) -> targetParam -> option targetParam * option H -> Prop :=
| resolves_end params h : a pre = Some h -> resolves a pre [] params (Some params, h)
| resolves_name s ss params o :
    is_Some (a (pre ++ [(false, s)])) -> resolves a (pre ++ [(false, s)]) ss params o -> resolves a pre (s :: ss) params o
| resolves_param s ss n params o :
    a (pre ++ [(false, s)]) = None -> is_Some (a (pre ++ [(true, n)])) ->
    resolves a (pre ++ [(true, n)]) ss (<[n := s]> params) o -> resolves a pre (s :: ss) params o
| resolves_none s ss params :
    a (pre ++ [(false, s)]) = None -> (forall n, a (pre ++ [(true, n)]) = None) -> resolves a pre (s :: ss) params (None, None).

Lemma handlers_at top_route pre r k : at_keys top_route pre = Some r -> handlers top_route (pre ++ [k]) = handlers r [k].
Proof. intros Hr. unfold handlers. by rewrite at_keys_app, Hr. Qed.

Lemma find_param_child cs l c rr : find_child r_isParam cs = Some (l, c, rr) -> child (true, r_name c) cs = Some c.
Proof.
  revert l. induction cs as [|d cs IH]; intros l; [done|]. cbn [find_child]. rewrite child_cons.
  destruct (r_isParam d) eqn:Ed.
  - intros [= <- <- <-]. rewrite decide_True; [done|]. unfold key_of. by rewrite Ed.
  - destruct (find_child r_isParam cs) as [[[l' c'] rr']|] eqn:Ef; [|done]. intros [= <- <- <-].
    rewrite decide_False by (unfold key_of; rewrite Ed; congruence). by apply (IH l').
Qed.

Lemma walk_resolves top_route ss : forall pre r params, at_keys top_route pre = Some r ->
  resolves (handlers top_route) pre ss params (walk r ss params).
Proof.
  induction ss as [|s ss IH]; intros pre r params Hr; cbn [walk].
  { apply resolves_end. unfold handlers. by rewrite Hr. }
  assert (Hnext : forall k c, child k (r_childs r) = Some c ->
    at_keys top_route (pre ++ [k]) = Some c /\ is_Some (handlers top_route (pre ++ [k]))).
  { intros k c Hk. assert (Hc : at_keys top_route (pre ++ [k]) = Some c) by (rewrite at_keys_app, Hr; cbn; by rewrite Hk).
    split; [done|]. unfold handlers. rewrite Hc. by eexists. }
  assert (Hnone : forall k, child k (r_childs r) = None -> handlers top_route (pre ++ [k]) = None).
  { intros k Hk. by rewrite (handlers_at _ _ r), handlers_cons, Hk. }
  destruct (child (false, s) (r_childs r)) as [c|] eqn:Ec.
  - destruct (Hnext _ _ Ec) as [Hat Hs]. apply resolves_name; [done|]. by apply IH.
  - destruct (find_child r_isParam (r_childs r)) as [[[l c] rr]|] eqn:Ef.
    + apply find_param_child in Ef. destruct (Hnext _ _ Ef) as [Hat Hs].
      apply (resolves_param _ _ _ _ (r_name c)); [by apply Hnone|done|]. by apply IH.
    + apply resolves_none; [by apply Hnone|]. intros n. apply Hnone.
      destruct (child (true, n) (r_childs r)) as [c|] eqn:Ec'; [|done]. apply child_Some in Ec' as [Hin Hk].
      injection Hk as Hp _. exfalso. revert Ef. pose proof (has_param_find (r_childs r)) as Hhp.
      assert (Ht : has_param (r_childs r) = true) by (unfold has_param; apply existsb_exists; exists c; split; [by apply list_elem_of_In|done]).
      rewrite Ht in Hhp. symmetry in Hhp. apply bool_decide_eq_true in Hhp as [? ->]. done.
Qed.

(** One name of a parameter at a place makes the result the only one. *)
Definition one_param (a : table) : Prop :=
  forall pre n n', is_Some (a (pre ++ [(true, n)])) -> is_Some (a (pre ++ [(true, n')])) -> n = n'.

Lemma resolves_det a pre ss params o o' : one_param a ->
  resolves a pre ss params o -> resolves a pre ss params o' -> o = o'.
Proof.
  intros Hone Ho. revert o'. induction Ho as [pre params h Hh|pre s ss params o Hs Hr IH|pre s ss n params o Hn Hs Hr IH|pre s ss params Hn Hall];
    intros o' Ho'; inversion Ho' as [? ? Hh'|? ? ? ? Hs' Hr'|? ? n' ? ? Hn' Hs' Hr'|? ? ? Hn' Hall']; subst; try congruence; auto.
  - rewrite Hn' in Hs. by destruct Hs.
  - rewrite Hn' in Hs. by destruct Hs.
  - rewrite Hn in Hs'. by destruct Hs'.
  - assert (n' = n) as -> by (by apply (Hone pre)). auto.
  - rewrite Hall' in Hs. by destruct Hs.
  - rewrite Hn in Hs'. by destruct Hs'.
  - rewrite Hall in Hs'. by destruct Hs'.
Qed.

Lemma wf_at ks : forall r c, wf r -> at_keys r ks = Some c -> wf c.
Proof.
  induction ks as [|k ks IH]; intros r c Hr; cbn; [by intros [= <-]|].
  destruct (child k (r_childs r)) as [d|] eqn:E; [|done]. apply IH. apply child_Some in E as [Hd _]. by apply (wf_childs r Hr).
Qed.

Lemma wf_one_param r : wf r -> one_param (handlers r).
Proof.
  intros Hr pre n n' H1 H2. destruct (at_keys r pre) as [c|] eqn:Ec.
  2: { unfold handlers in H1. rewrite at_keys_app, Ec in H1. by destruct H1. }
  rewrite (handlers_at _ _ c) in H1, H2 by done. destruct (wf_childs c (wf_at _ _ _ Hr Ec)) as [_ Hp].
  apply child_known in H1 as (d1 & Hd1 & [= P1 <-]), H2 as (d2 & Hd2 & [= P2 <-]). by apply Hp.
Qed.

(** ** Targets

    The segment of a pattern is a parameter when it has a colon, anywhere: the
    first colon is left out.  Empty segments, and a colon alone, are skipped. *)
Definition parse_segment (s : list Z) : key :=
  match cut_at (fun b => b =? pathParamPrefix) s with
  | (l, Some rr) => (true, l ++ rr)
  | (l, None) => (false, l)
  end.
Definition pattern (target : list Z) : list key :=
  List.filter (fun k => negb (bool_decide (k.2 = []))) (parse_segment <$> Split pathSep target).

(** The segments of a path: only a last empty one is left out. *)
Fixpoint drop_last_empty (l : list (list Z)) : list (list Z) :=
  match l with
  | [] => []
  | [s] => match s with [] => [] | _ => [s] end
  | s :: l => s :: drop_last_empty l
  end.
Definition segments (path : list Z) : list (list Z) := drop_last_empty (Split pathSep path).

Lemma parse_segment_snoc s b :
  parse_segment (s ++ [b]) =
    let '(isParam, n) := parse_segment s in
    if negb isParam && (b =? pathParamPrefix) then (true, n) else (isParam, n ++ [b]).
Proof.
  unfold parse_segment. induction s as [|c s IH]; cbn [app cut_at].
  - by destruct (b =? pathParamPrefix).
  - destruct (c =? pathParamPrefix); [done|].
    destruct (cut_at _ (s ++ [b])) as [l [rr|]], (cut_at _ s) as [l' [rr'|]]; cbn in *.
    + injection IH as IH. by rewrite IH.
    + destruct (b =? pathParamPrefix); [|done]. injection IH as IH. by rewrite <- IH.
    + done.
    + destruct (b =? pathParamPrefix); [done|]. injection IH as ->. done.
Qed.

Lemma add_loop_adds h target : forall p w started isParam bb, pathSep ∉ w -> parse_segment w = (isParam, bb) ->
  started = negb isParam ->
  add_loop p bb started isParam target h = adds p (pattern (w ++ target)) h.
Proof.
  induction target as [|b target IH]; intros p w started isParam bb Hw Hseg ->; cbn [add_loop].
  - unfold pattern. rewrite app_nil_r, Split_none by done. cbn. rewrite Hseg. cbn.
    destruct bb as [|b bb]; cbn; [done|]. by destruct (addChild p isParam (b :: bb)).
  - pose proof (parse_segment_snoc w b) as Hsnoc. rewrite Hseg in Hsnoc.
    destruct (negb isParam && (b =? pathParamPrefix)) eqn:Ec.
    { apply andb_true_iff in Ec as [Hp Hb]. apply negb_true_iff in Hp. apply Z.eqb_eq in Hb. subst.
      assert (bb = w) as ->.
      { unfold parse_segment in Hseg. clear -Hseg. revert bb Hseg. induction w as [|c w IH]; intros bb; cbn; [by intros [= <-]|].
        destruct (c =? pathParamPrefix); [done|]. destruct (cut_at _ w) as [l [rr|]]; [done|]. intros [= <-]. by rewrite (IH l). }
      rewrite (IH p (w ++ [pathParamPrefix]) false true w); [by rewrite <- (assoc_L (++))| |done|done].
      rewrite elem_of_app, list_elem_of_singleton. intros [?|?]; done. }
    destruct (Z.eqb_spec b pathSep) as [->|Hb]; cbn [negb].
    + unfold pattern at 1. rewrite Split_sep by done. rewrite fmap_cons, Hseg. cbn [List.filter snd].
      assert (Hnext : forall q, add_loop q [] true false target h = adds q (pattern target) h)
        by (intros q; apply (IH q []); [apply not_elem_of_nil|done|done]).
      destruct bb as [|c bb]; [by rewrite Hnext|]. rewrite bool_decide_false by done. cbn [negb adds fst snd].
      destruct (addChild p isParam (c :: bb)); [by rewrite Hnext|done].
    + rewrite (IH p (w ++ [b]) (negb isParam) isParam (bb ++ [b])); [by rewrite <- (assoc_L (++))| |done|done].
      rewrite elem_of_app, list_elem_of_singleton. intros [?|?]; congruence.
Qed.

Lemma get_child_walk p s params ss :
  match get_child p s params with Some (c, params) => walk (here c) ss params | None => (None, None) end = walk (here p) (s :: ss) params.
Proof.
  unfold get_child, getChild, getChildAsParam. cbn [walk]. unfold child. cbn [fst snd].
  destruct (find_child (fun c => Bool.eqb false _ && _) (r_childs (here p))) as [[[l c] rr]|]; [done|]. cbn [down fmap option_fmap option_map].
  by destruct (find_child r_isParam (r_childs (here p))) as [[[l c] rr]|].
Qed.

Lemma get_loop_walk target : forall p bb params, pathSep ∉ bb ->
  get_loop p bb target params = walk (here p) (segments (bb ++ target)) params.
Proof.
  induction target as [|b target IH]; intros p bb params Hbb; cbn [get_loop].
  - unfold segments. rewrite app_nil_r, Split_none by done. destruct bb as [|b bb]; [done|]. cbn [drop_last_empty].
    rewrite <- get_child_walk. by destruct (get_child p (b :: bb) params) as [[c params']|].
  - destruct (Z.eqb_spec b pathSep) as [->|Hb]; cbn [negb].
    + unfold segments. rewrite Split_sep by done.
      assert (Hdrop : drop_last_empty (bb :: Split pathSep target) = bb :: drop_last_empty (Split pathSep target)).
      { cbn. destruct (Split pathSep target) eqn:E; [|done]. unfold Split in E. by destruct (split_on pathSep target). }
      rewrite Hdrop, <- get_child_walk.
      destruct (get_child p bb params) as [[c params']|]; [|done]. apply (IH c []). apply not_elem_of_nil.
    + rewrite IH; [by rewrite <- (assoc_L (++))|]. rewrite elem_of_app, list_elem_of_singleton. intros [?|?]; congruence.
Qed.

(** ** The routes of the server *)

(** What [add] can make of the routes of a new server. *)
Inductive built : rootRoute (H := H) -> Prop :=
| built_new : built newRootRoute
| built_add root method target h root' e : built root -> add root method target h = Ok (root', e) -> built root'.

Definition methods : list (list Z) := [str "DELETE"; str "GET"; str "PATCH"; str "POST"; str "PUT"].

(** The table of a method. *)
Definition routes_of (root : rootRoute) (method : list Z) : table :=
  match getParent root method with Some (r, _) => handlers r | None => fun _ => None end.

Lemma getParent_None root method : getParent root method = None <-> method ∉ methods.
Proof.
  unfold methods. rewrite !not_elem_of_cons. destruct root. unfold getParent.
  repeat (case_bool_decide; [split; [done|]; intros; exfalso; intuition congruence|]).
  split; [|done]. intros _. repeat split; try done. apply not_elem_of_nil.
Qed.

Lemma getParent_put root method r put r' method' : getParent root method = Some (r, put) ->
  (exists put', getParent (put r') method = Some (r', put')) /\
  (method' ≠ method -> fst <$> getParent (put r') method' = fst <$> getParent root method').
Proof.
  destruct root. unfold getParent.
  repeat (case_bool_decide; [intros [= <- <-]; split; [by eexists|]; intros; repeat (case_bool_decide; [done || congruence|]); done|]).
  done.
Qed.

Lemma wf_slash : wf slash.
Proof. constructor; set_solver. Qed.

Definition wf_root (root : rootRoute) : Prop := forall method r put, getParent root method = Some (r, put) -> wf r.

Lemma add_wf root method target h root' e : wf_root root -> add root method target h = Ok (root', e) -> wf_root root'.
Proof.
  intros Hroot. unfold add. destruct target as [|b target]; [done|]. destruct (negb (b =? pathSep)); [by intros [= <- <-]|].
  destruct (getParent root _) as [[r put]|] eqn:Ep; [|by intros [= <- <-]].
  rewrite (add_loop_adds h target (Ptr [] r) [] true false []) by (done || apply not_elem_of_nil). cbn [app].
  destruct (adds_grow (pattern target) h (Ptr [] r)) as [Htop _]. destruct (adds _ _ _) as [p e']. cbn in Htop.
  intros [= <- <-]. rewrite Htop. intros m r' put' Hm. pose proof (wf_grow (pattern target) h r (Hroot _ _ _ Ep)) as Hw.
  destruct (getParent_put _ _ _ _ (grow r (pattern target) h).1 m Ep) as [[put1 Hsame] Hother].
  destruct (decide (m = text_ToUpper method)) as [->|Hne].
  - rewrite Hsame in Hm. by injection Hm as <- _.
  - specialize (Hother Hne). rewrite Hm in Hother. destruct (getParent root m) as [[r2 put2]|] eqn:E; [|done].
    cbn in Hother. injection Hother as ->. by eapply Hroot.
Qed.

Lemma built_wf root : built root -> wf_root root.
Proof.
  induction 1 as [|root method target h root' e _ IH Hadd]; [|by eapply add_wf].
  intros method r put. unfold newRootRoute, getParent.
  repeat (destruct (bool_decide _); [intros [= <- _]; apply wf_slash|]). done.
Qed.

(** C28: the routes of a server refine a table, for each method, of patterns and
    handlers. A pattern is a list of names and parameters: the segments between slashes,
    without empty ones, where a colon anywhere in a segment makes it a parameter (see
    [colon_inside]). Adding a route to a target that starts with a slash puts the
    handler at its pattern, in place of the one there, opens the beginnings of the
    pattern as places without a handler, and changes nothing else in the table and in
    those of the other methods; it fails on a method that is not one of the five, and,
    with only the places before it opened, exactly when a parameter of another name is
    at a place of one of the pattern. A target that does not start with a slash is an
    error that changes nothing, and an empty one a panic. Looking up a path that starts
    with a slash, for one of the methods, gives the only result of resolving it in the
    table, from segment to segment, a name before a parameter and without going back; so
    a place that was opened can hide a parameter from other paths. Other paths find
    nothing. *)
Theorem routes_refine root : built root ->
  (forall method target h, head target ≠ Some pathSep ->
     add root method target h = (if isnil target then Panic else Ok (root, Some ErrRouteInvTarget)) /\ get root method target = (None, None)) /\
  (forall method target h, exists root' e, add root method (pathSep :: target) h = Ok (root', e) /\
    (text_ToUpper method ∈ methods ->
       added (routes_of root (text_ToUpper method)) (pattern target) h (routes_of root' (text_ToUpper method)) e) /\
    (text_ToUpper method ∉ methods -> e = Some ErrRouteInvMethod) /\
    (forall method' ks, method' ≠ text_ToUpper method -> routes_of root' method' ks = routes_of root method' ks)) /\
  (forall method path o, method ≠ [] -> text_ToUpper method ∈ methods ->
     (get root method (pathSep :: path) = o <-> resolves (routes_of root (text_ToUpper method)) [] (segments path) ∅ o)).
Proof.
  intros Hb%built_wf. split_and!.
  - intros method [|b target] h Hne; [by destruct method|]. cbn in Hne.
    assert (Hb0 : (b =? pathSep) = false) by (apply Z.eqb_neq; congruence).
    split; [cbn [add isnil]|destruct method; [done|]; cbn [get]]; by rewrite Hb0.
  - intros method target h. unfold add. rewrite Z.eqb_refl. cbn [negb]. unfold routes_of.
    destruct (getParent root (text_ToUpper method)) as [[r put]|] eqn:Ep.
    2: { exists root, (Some ErrRouteInvMethod). split; [done|]. apply getParent_None in Ep. split; [done|]. done. }
    rewrite (add_loop_adds h target (Ptr [] r) [] true false []) by (done || apply not_elem_of_nil). cbn [app].
    destruct (adds_grow (pattern target) h (Ptr [] r)) as [Htop Herr]. destruct (adds _ _ _) as [p e]. cbn in Htop, Herr.
    exists (put (top p)), e. split; [done|].
    pose proof (fun m => getParent_put _ _ _ _ (top p) m Ep) as Hput. split; [|split].
    + intros _. destruct (Hput []) as [[put' ->] _]. rewrite Htop, Herr. apply grow_added. by eapply Hb.
    + intros Hm. apply getParent_None with (root := root) in Hm. congruence.
    + intros m ks Hne. destruct (Hput m) as [_ Ho]. specialize (Ho Hne).
      destruct (getParent (put (top p)) m) as [[r1 ?]|], (getParent root m) as [[r2 ?]|]; cbn in Ho; congruence.
  - intros method path o Hne Hm. unfold get. destruct method as [|m0 method]; [done|]. rewrite Z.eqb_refl. cbn [negb].
    unfold routes_of. destruct (getParent root (text_ToUpper (m0 :: method))) as [[r put]|] eqn:Ep.
    2: { by apply getParent_None in Ep. }
    rewrite get_loop_walk by apply not_elem_of_nil. cbn [app here].
    pose proof (walk_resolves r (segments path) [] r ∅ eq_refl) as Hw. split; [by intros <-|].
    intros Ho. eapply resolves_det; [|exact Hw|exact Ho]. apply wf_one_param. by eapply Hb.
Qed.

End Facts.

(** The book with an identifier, and a route for another method. *)
Lemma routes_refine_witness :
  let U := ascii_tables in
  let h1 := add (H := Z) newRootRoute (str "get") (str "/book/:id") (Some 1) in
  exists root, h1 = Ok (root, None) /\
    (get root (str "GET") (str "/book/12") = (Some {[str "id" := str "12"]}, Some 1) <->
     resolves (routes_of root (str "GET")) [] [str "book"; str "12"] ∅ (Some {[str "id" := str "12"]}, Some 1)) /\
    get root (str "GET") (str "/book/12") = (Some {[str "id" := str "12"]}, Some 1).
Proof.
  intros U h1. assert (Hh : exists root, h1 = Ok (root, None)) by (eexists; vm_compute; reflexivity).
  destruct Hh as (root & Hroot). exists root. split; [done|].
  assert (Hb : built root) by (eapply built_add; [apply built_new|exact Hroot]).
  split.
  - apply (proj2 (proj2 (routes_refine root Hb)) (str "GET") (str "book/12")); [done|]. apply (bool_decide_unpack _). vm_compute. exact Logic.I.
  - vm_compute in Hroot. injection Hroot as <-. vm_compute. reflexivity.
Defined.

(** A colon in the middle of a segment makes it a parameter. *)
Lemma colon_inside : pattern (str "a:b") = [(true, str "ab")].
Proof. reflexivity. Qed.
