(* ===== verification/WsHandshake.v ===== *)
(** Package [lib/websocket], file [handshake.go]: the request that opens a
    connection.

    The slices [k] and [v] and the fields are parts of [raw] that nothing
    changes once they are cut: lower case is written ahead of the cut only, or
    in a value that is not kept.  They are copies here. *)

From Stdlib Require Import ZArith Lia.
From S2P Require Import Prelude Ascii Utf8 HttpHeader.

Local Open Scope Z_scope.

Definition hdrFlagHost : Z := 1.
Definition hdrFlagConn : Z := 2.
Definition hdrFlagUpgrade : Z := 4.
Definition hdrFlagWSKey : Z := 8.
Definition hdrFlagWSVersion : Z := 16.
Definition hdrFlagWSExtensions : Z := 32.
Definition hdrFlagWSProtocol : Z := 64.

Inductive hs_error : Type :=
| ErrBadRequest | ErrRequestLength | ErrRequestHeaderLength | ErrInvalidHTTPMethod | ErrInvalidHTTPVersion
| ErrInvalidHeaderUpgrade | ErrInvalidHeaderFormat | ErrInvalidHeaderHost | ErrInvalidHeaderWSKey
| ErrInvalidHeaderWSVersion | ErrInvalidHeaderWSExtensions | ErrInvalidHeaderWSProtocol | ErrInvalidHeaderConn
| ErrMissingRequiredHeader | ErrUnsupportedWSVersion.

#[export] Instance hs_error_eq_dec : EqDecision hs_error.
Proof. solve_decision. Defined.

Definition hdrKeyConnection : list Z := str "connection".
Definition hdrKeyHost : list Z := str "host".
Definition hdrKeyUpgrade : list Z := str "upgrade".
Definition hdrKeyWSExtensions : list Z := str "sec-websocket-extensions".
Definition hdrKeyWSKey : list Z := str "sec-websocket-key".
Definition hdrKeyWSProtocol : list Z := str "sec-websocket-protocol".
Definition hdrKeyWSVersion : list Z := str "sec-websocket-version".
Definition hdrValUpgradeWS : list Z := str "websocket".
Definition hdrValConnectionUpgrade : list Z := str "upgrade".
Definition hdrValWSVersion : list Z := str "13".

(** ** The request *)

Record Handshake : Type := HS {
  start : nat; headerFlags : Z; raw : list Z;
  URI : list Z; Host : list Z; Key : list Z; Extensions : list Z; Protocol : list Z; Header : header
}.

(** [reset]: the host and the key stay. *)
Definition hs_reset (h : Handshake) (req : list Z) : Handshake := HS 0 0 req [] (Host h) (Key h) [] [] ∅.

Definition set_start (h : Handshake) (n : nat) : Handshake :=
  HS n (headerFlags h) (raw h) (URI h) (Host h) (Key h) (Extensions h) (Protocol h) (Header h).
Definition set_URI (h : Handshake) (u : list Z) : Handshake :=
  HS (start h) (headerFlags h) (raw h) u (Host h) (Key h) (Extensions h) (Protocol h) (Header h).
Definition set_flag (h : Handshake) (f : Z) : Handshake :=
  HS (start h) (Z.lor (headerFlags h) f) (raw h) (URI h) (Host h) (Key h) (Extensions h) (Protocol h) (Header h).
Definition set_Host (h : Handshake) (v : list Z) : Handshake :=
  HS (start h) (headerFlags h) (raw h) (URI h) v (Key h) (Extensions h) (Protocol h) (Header h).
Definition set_Key (h : Handshake) (v : list Z) : Handshake :=
  HS (start h) (headerFlags h) (raw h) (URI h) (Host h) v (Extensions h) (Protocol h) (Header h).
Definition set_Extensions (h : Handshake) (v : list Z) : Handshake :=
  HS (start h) (headerFlags h) (raw h) (URI h) (Host h) (Key h) v (Protocol h) (Header h).
Definition set_Protocol (h : Handshake) (v : list Z) : Handshake :=
  HS (start h) (headerFlags h) (raw h) (URI h) (Host h) (Key h) (Extensions h) v (Header h).
Definition set_Header (h : Handshake) (v : header) : Handshake :=
  HS (start h) (headerFlags h) (raw h) (URI h) (Host h) (Key h) (Extensions h) (Protocol h) v.

Section Parse.
(** The capacity of the request after its length. *)
Context (spare : nat).

(** The loop of [getBytesChunk]: the bytes before the separator, as they are left
    in [raw], and whether a carriage return is one of them. *)
Fixpoint chunk_loop (sep : Z) (tolower : bool) (s : list Z) : list Z * bool :=
  match s with
  | [] => ([], false)
  | c :: s =>
      if c =? sep then ([], false)
      else
        let '(pre, cr) := chunk_loop sep tolower s in
        if c =? 13 then (c :: pre, true)
        else if tolower && in_range c 65 90 then (c + 32 :: pre, cr)
        else (c :: pre, cr)
  end.

Definition getBytesChunk (h : Handshake) (sep : Z) (tolower : bool) : outcome hs_error (Handshake * list Z) :=
  let s := drop (start h) (raw h) in
  if (match s with c :: _ => negb (c =? sep) && (c =? 13) | [] => false end) then Ok (h, [])
  else
    let '(pre, cr) := chunk_loop sep tolower s in
    let end_ := (start h + length pre)%nat in
    let h := HS (S end_) (headerFlags h) (take (start h) (raw h) ++ pre ++ drop end_ (raw h))
                (URI h) (Host h) (Key h) (Extensions h) (Protocol h) (Header h) in
    if decide (end_ <= length (raw h) + spare)%nat
    then Ok (h, if cr then take (length pre - 1) pre else pre)
    else Panic.

Definition parseHTTPLine (h : Handshake) : outcome hs_error Handshake :=
  '(h, chunk) ← getBytesChunk h 32 false;
  if negb (bool_decide (chunk = str "GET")) then Err ErrInvalidHTTPMethod
  else
    '(h, chunk) ← getBytesChunk h 32 false;
    if bool_decide (chunk = []) then Err ErrBadRequest
    else
      let h := set_URI h chunk in
      '(h, chunk) ← getBytesChunk h 47 false;
      if negb (bool_decide (chunk = str "HTTP")) then Err ErrBadRequest
      else
        '(h, chunk) ← getBytesChunk h 10 false;
        if negb (bool_decide (chunk = str "1.1")) then Err ErrInvalidHTTPVersion
        else Ok h.

Definition parseHeader (h : Handshake) : outcome hs_error (Handshake * list Z * list Z) :=
  '(h, k) ← getBytesChunk h 58 true;
  match k with
  | [] => Ok (h, [], [])
  | _ =>
      c ← get_at (raw h) (start h);
      if negb (c =? 32) then Err ErrInvalidHeaderFormat
      else
        let h := set_start h (S (start h)) in
        '(h, v) ← getBytesChunk h 10 false;
        match v with
        | [] => Err ErrInvalidHeaderFormat
        | _ => Ok (h, k, v)
        end
  end.

(** [headerValueContains]: [seen] is what comes before [x], in lower case; [start]
    never passes [x], since every byte moves it by one at most. *)
Fixpoint contains_loop (seen : list Z) (start : nat) (hv sub : list Z) : bool :=
  match hv with
  | [] => bool_decide (drop start seen = sub)
  | c :: hv =>
      if negb (c =? 44) then
        if c =? 32 then contains_loop (seen ++ [c]) (S start) hv sub
        else contains_loop (seen ++ [lower_byte c]) start hv sub
      else if bool_decide (drop start seen = sub) then true
      else contains_loop (seen ++ [c]) (S (length seen)) hv sub
  end.
Definition headerValueContains (hv sub : list Z) : bool := contains_loop [] 0 hv sub.

Definition has_flag (h : Handshake) (f : Z) : bool := Z.land (headerFlags h) f =? f.

(** The switch of [parse] on the key. *)
Definition parse_switch (h : Handshake) (k v : list Z) : outcome hs_error Handshake :=
  if bool_decide (k = hdrKeyHost) then
    if has_flag h hdrFlagHost then Err ErrInvalidHeaderHost
    else if bool_decide (v = []) then Err ErrInvalidHeaderHost
    else Ok (set_flag (set_Host h v) hdrFlagHost)
  else if bool_decide (k = hdrKeyConnection) then
    if has_flag h hdrFlagConn then Err ErrInvalidHeaderConn
    else if negb (headerValueContains v hdrValConnectionUpgrade) then Err ErrInvalidHeaderConn
    else Ok (set_flag h hdrFlagConn)
  else if bool_decide (k = hdrKeyUpgrade) then
    if has_flag h hdrFlagUpgrade then Err ErrInvalidHeaderUpgrade
    else if negb (headerValueContains v hdrValUpgradeWS) then Err ErrInvalidHeaderUpgrade
    else Ok (set_flag h hdrFlagUpgrade)
  else if bool_decide (k = hdrKeyWSKey) then
    if has_flag h hdrFlagWSKey then Err ErrInvalidHeaderWSKey
    else if bool_decide (v = []) then Err ErrInvalidHeaderWSKey
    else if negb (bool_decide (length v = 24%nat)) then Err ErrInvalidHeaderWSKey
    else Ok (set_flag (set_Key h v) hdrFlagWSKey)
  else if bool_decide (k = hdrKeyWSVersion) then
    if has_flag h hdrFlagWSVersion then Err ErrInvalidHeaderWSVersion
    else if bool_decide (v = []) then Err ErrInvalidHeaderWSVersion
    else if negb (bool_decide (v = hdrValWSVersion)) then Err ErrUnsupportedWSVersion
    else Ok (set_flag h hdrFlagWSVersion)
  else if bool_decide (k = hdrKeyWSExtensions) then
    if has_flag h hdrFlagWSExtensions then Err ErrInvalidHeaderWSExtensions
    else Ok (set_flag (set_Extensions h v) hdrFlagWSExtensions)
  else if bool_decide (k = hdrKeyWSProtocol) then
    if has_flag h hdrFlagWSProtocol then Err ErrInvalidHeaderWSProtocol
    else Ok (set_flag (set_Protocol h v) hdrFlagWSProtocol)
  else Ok (set_Header h (Header_Add (Header h) k v)).

(** The loop of [parse]: every round but the last moves [start]. *)
Fixpoint parse_headers (fuel : nat) (h : Handshake) : outcome hs_error Handshake :=
  match fuel with
  | O => NoFuel
  | S fuel =>
      if decide (start h < length (raw h))%nat then
        '(h, k, v) ← parseHeader h;
        match k with
        | [] => Ok h
        | _ => h ← parse_switch h k v; parse_headers fuel h
        end
      else Ok h
  end.

Definition requiredFlags : Z :=
  Z.lor (Z.lor (Z.lor (Z.lor hdrFlagHost hdrFlagConn) hdrFlagUpgrade) hdrFlagWSKey) hdrFlagWSVersion.

Definition parse (h : Handshake) (req : list Z) : outcome hs_error Handshake :=
  if decide (length req < 144)%nat then Err ErrRequestLength
  else
    h ← parseHTTPLine (hs_reset h req);
    if Z.of_nat (length (raw h)) - Z.of_nat (start h) <? 128 then Err ErrRequestHeaderLength
    else
      h ← parse_headers (S (length req)) h;
      if negb (has_flag h requiredFlags) then Err ErrMissingRequiredHeader else Ok h.

End Parse.
