(* ===== verification/WsHandshakeFacts.v ===== *)
(** Package [lib/websocket]: the server accepts a request with headers on lines
    of their own exactly when the headers are those of RFC 6455, section 4.1. *)

From Stdlib Require Import ZArith Lia.
From S2P Require Import Prelude Ascii Utf8 HttpHeader WsHandshake.

Local Open Scope Z_scope.

Section Facts.
Context (spare : nat).

(** ** Lines *)

Definition CRLF : list Z := [13; 10].
Definition line_of (kv : list Z * list Z) : list Z := kv.1 ++ [58; 32] ++ kv.2 ++ CRLF.
Definition lines_of (hs : list (list Z * list Z)) : list Z := concat (line_of <$> hs).

(** A name without a colon or a carriage return, a value on one line. *)
Definition name_ok (k : list Z) : Prop := k ≠ [] /\ (58 ∉ k) /\ (13 ∉ k).
Definition value_ok (v : list Z) : Prop := v ≠ [] /\ (10 ∉ v) /\ (13 ∉ v).
Definition headers_ok (hs : list (list Z * list Z)) : Prop := Forall (fun kv => name_ok kv.1 /\ value_ok kv.2) hs.

Lemma lower_range c : (if in_range c 65 90 then c + 32 else c) = lower_byte c.
Proof.
  unfold lower_byte, in_range. destruct (Z.leb_spec 65 c), (Z.leb_spec c 90), (Z.ltb_spec c 65), (Z.ltb_spec 90 c); try lia; cbn; try done.
  symmetry. apply u8_id. unfold is_byte. lia.
Qed.

Lemma chunk_loop_app sep (tolower : bool) p rest : sep ∉ p -> 13 ∉ p ->
  chunk_loop sep tolower (p ++ sep :: rest) = (if tolower then ToLower p else p, false).
Proof.
  intros Hs Hc. induction p as [|c p IH]; cbn [app chunk_loop]; [rewrite Z.eqb_refl; by destruct tolower|].
  apply not_elem_of_cons in Hs as [Hs1 Hs2], Hc as [Hc1 Hc2].
  rewrite (proj2 (Z.eqb_neq c sep)) by done. rewrite IH by done. rewrite (proj2 (Z.eqb_neq c 13)) by done.
  destruct tolower; cbn [andb]; [|done]. change (ToLower (c :: p)) with (lower_byte c :: ToLower p).
  rewrite <- lower_range. by destruct (in_range c 65 90).
Qed.

Lemma chunk_loop_line p rest : 10 ∉ p -> 13 ∉ p -> chunk_loop 10 false (p ++ CRLF ++ rest) = (p ++ [13], true).
Proof.
  intros Hs Hc. induction p as [|c p IH]; [done|].
  apply not_elem_of_cons in Hs as [Hs1 Hs2], Hc as [Hc1 Hc2]. cbn [app chunk_loop].
  rewrite (proj2 (Z.eqb_neq c 10)) by done. rewrite IH by done. by rewrite (proj2 (Z.eqb_neq c 13)) by done.
Qed.

(** [h] reads on at [rest]. *)
Definition at_rest (h : Handshake) (rest : list Z) : Prop :=
  drop (start h) (raw h) = rest /\ (start h <= length (raw h))%nat.

Definition moved (h h' : Handshake) : Prop :=
  headerFlags h' = headerFlags h /\ URI h' = URI h /\ Host h' = Host h /\ Key h' = Key h /\ Extensions h' = Extensions h
  /\ Protocol h' = Protocol h /\ Header h' = Header h /\ length (raw h') = length (raw h).

Lemma moved_trans h1 h2 h3 : moved h1 h2 -> moved h2 h3 -> moved h1 h3.
Proof. unfold moved. intuition congruence. Qed.

Lemma get_chunk h sep tolower p pre cr rest : at_rest h (p ++ sep :: rest) -> length pre = length p ->
  head p ≠ Some 13 -> (sep = 13 -> p ≠ []) -> sep ∉ p ->
  chunk_loop sep tolower (p ++ sep :: rest) = (pre, cr) ->
  exists h', getBytesChunk spare h sep tolower = Ok (h', if cr then take (length pre - 1) pre else pre) /\ at_rest h' rest /\ moved h h'
    /\ start h' = (start h + length p + 1)%nat.
Proof.
  intros [Hd Hle] Hlen Hhd Hsep Hnot Hl. unfold getBytesChunk. rewrite Hd, Hl.
  assert (Hearly : match p ++ sep :: rest with c :: _ => negb (c =? sep) && (c =? 13) | [] => false end = false).
  { destruct p as [|c p]; cbn; [by rewrite Z.eqb_refl|]. rewrite (proj2 (Z.eqb_neq c 13)); [apply andb_false_r|]. intros ->. by apply Hhd. }
  rewrite Hearly. rewrite Hlen.
  assert (Hraw : length (raw h) = (start h + length p + 1 + length rest)%nat).
  { pose proof (f_equal length Hd) as Hdl. rewrite length_drop, length_app in Hdl. cbn in Hdl. lia. }
  assert (Hrest : drop (start h + length p) (raw h) = sep :: rest) by (by rewrite <- drop_drop, Hd, drop_app_length).
  rewrite decide_True.
  2: { cbn [raw]. rewrite !length_app, length_take, length_drop. lia. }
  eexists. split; [reflexivity|]. split; [|split].
  - split; cbn [start raw].
    + rewrite Hrest, (assoc_L (++)).
      rewrite drop_app_ge by (rewrite length_app, length_take, Hlen; lia).
      rewrite length_app, length_take, Hlen.
      replace (S (start h + length p) - _)%nat with 1%nat by lia. done.
    + rewrite !length_app, length_take, length_drop. lia.
  - repeat split; try done. cbn [raw]. rewrite !length_app, length_take, length_drop. lia.
  - cbn [start]. lia.
Qed.

Lemma parseHeader_line h k v rest : name_ok k -> value_ok v -> at_rest h (line_of (k, v) ++ rest) ->
  exists h', parseHeader spare h = Ok (h', ToLower k, v) /\ at_rest h' rest /\ moved h h' /\ (start h < start h')%nat.
Proof.
  intros (Hk & Hk1 & Hk2) (Hv & Hv1 & Hv2) Hat. unfold parseHeader.
  assert (Hat' : at_rest h (k ++ 58 :: ([32] ++ v ++ CRLF ++ rest))) by (revert Hat; unfold line_of; cbn [fst snd]; by rewrite <- !(assoc_L (++))).
  destruct (get_chunk h 58 true k (ToLower k) false _ Hat') as (h1 & -> & Hat1 & Hm1 & Hs1); try done.
  { apply length_ToLower. }
  { destruct k as [|c k]; [done|]. cbn. intros [= ->]. apply Hk2. by left. }
  { by apply chunk_loop_app. }
  cbn [mbind outcome_bind]. assert (Hlow : ToLower k ≠ []) by (by destruct k).
  destruct (ToLower k) as [|k0 kl] eqn:Ek; [done|]. destruct Hat1 as [Hd1 Hle1].
  assert (Hget : get_at (E := hs_error) (raw h1) (start h1) = Ok 32).
  { apply get_at_Some. rewrite <- (Nat.add_0_r (start h1)), <- lookup_drop, Hd1. done. }
  rewrite Hget. cbn [mbind outcome_bind]. rewrite Z.eqb_refl. cbn [negb].
  assert (Hat2 : at_rest (set_start h1 (S (start h1))) ((v ++ [13]) ++ 10 :: rest)).
  { split; cbn [start raw set_start].
    - replace (S (start h1)) with (start h1 + 1)%nat by lia. rewrite <- drop_drop, Hd1. cbn. by rewrite <- (assoc_L (++)).
    - pose proof (f_equal length Hd1) as Hdl. rewrite length_drop, !length_app in Hdl. cbn in Hdl. lia. }
  destruct (get_chunk _ 10 false (v ++ [13]) (v ++ [13]) true _ Hat2) as (h2 & -> & Hat3 & Hm3 & Hs3); try done.
  { destruct v as [|c v]; [done|]. cbn. intros [= ->]. apply Hv2. by left. }
  { rewrite elem_of_app, list_elem_of_singleton. intros [?|?]; done. }
  { rewrite <- (assoc_L (++)). by apply chunk_loop_line. }
  cbn [mbind outcome_bind]. rewrite length_app. cbn [length]. rewrite Nat.add_sub, take_app_length.
  destruct v as [|v0 v]; [done|]. exists h2. split; [done|]. split; [done|]. split; [by eapply moved_trans|].
  cbn [start set_start] in Hs3. lia.
Qed.

Lemma parseHeader_end h rest : at_rest h (CRLF ++ rest) -> exists h', parseHeader spare h = Ok (h', [], []) /\ moved h h'.
Proof.
  intros [Hd Hle]. unfold parseHeader, getBytesChunk. rewrite Hd. cbn. exists h. split; [done|]. repeat split.
Qed.

(** ** The headers *)

Fixpoint fold_headers (h : Handshake) (hs : list (list Z * list Z)) : outcome hs_error Handshake :=
  match hs with
  | [] => Ok h
  | (k, v) :: hs => h ← parse_switch h (ToLower k) v; fold_headers h hs
  end.

(** Two states that agree on all but where they are. *)
Definition agree (h h' : Handshake) : Prop :=
  headerFlags h' = headerFlags h /\ URI h' = URI h /\ Host h' = Host h /\ Key h' = Key h /\ Extensions h' = Extensions h
  /\ Protocol h' = Protocol h /\ Header h' = Header h.

Lemma moved_agree h h' : moved h h' -> agree h h'.
Proof. unfold moved, agree. tauto. Qed.

Lemma agree_refl h : agree h h.
Proof. by repeat split. Qed.

Lemma agree_trans h1 h2 h3 : agree h1 h2 -> agree h2 h3 -> agree h1 h3.
Proof. unfold agree. intuition congruence. Qed.

Definition stays (h h' : Handshake) : Prop := start h' = start h /\ raw h' = raw h.

(** A header is judged the same wherever the request is read. *)
Lemma switch_agree h h' k v : agree h h' ->
  match parse_switch h k v, parse_switch h' k v with
  | Ok a, Ok b => agree a b /\ stays h' b
  | Err e, Err e' => e = e'
  | _, _ => False
  end.
Proof.
  intros (Hf & Hu & Hh & Hk & He & Hp & Hhd). unfold parse_switch, has_flag. rewrite Hf.
  repeat (first [done | match goal with |- context [if ?b then _ else _] => destruct b end]);
    unfold agree, stays; cbn; rewrite ?Hf, ?Hu, ?Hh, ?Hk, ?He, ?Hp, ?Hhd; repeat split.
Qed.

Lemma parse_headers_lines body hs : forall fuel h g, headers_ok hs -> agree h g -> at_rest g (lines_of hs ++ CRLF ++ body) ->
  (length hs < fuel)%nat ->
  match fold_headers h hs with
  | Ok h' => exists g', parse_headers spare fuel g = Ok g' /\ agree h' g'
  | Err e => parse_headers spare fuel g = Err e
  | _ => False
  end.
Proof.
  induction hs as [|[k v] hs IH]; intros fuel h g Hok Hag Hat Hfuel; cbn [length] in Hfuel; (destruct fuel as [|fuel]; [lia|]);
    cbn [fold_headers parse_headers].
  - destruct (parseHeader_end g body Hat) as (g' & -> & Hm). destruct Hat as [Hd Hle].
    assert (Hlt : (start g < length (raw g))%nat).
    { pose proof (f_equal length Hd) as Hdl. rewrite length_drop in Hdl. cbn in Hdl. lia. }
    rewrite decide_True by done. cbn [mbind outcome_bind]. exists g'. split; [done|].
    eapply agree_trans; [done|]. by apply moved_agree.
  - apply Forall_cons in Hok as [[Hk Hv] Hok]. cbn [fst snd] in *.
    change (lines_of ((k, v) :: hs)) with (line_of (k, v) ++ lines_of hs) in Hat. rewrite <- (assoc_L (++)) in Hat.
    destruct (parseHeader_line g k v _ Hk Hv Hat) as (g1 & -> & Hat1 & Hm & Hs).
    assert (Hlt : (start g < length (raw g))%nat).
    { destruct Hat1 as [_ Hle]. destruct Hm as (_ & _ & _ & _ & _ & _ & _ & Hl). lia. }
    rewrite decide_True by done. cbn [mbind outcome_bind].
    destruct Hk as [Hk _]. destruct (ToLower k) as [|k0 kl] eqn:Ek; [by destruct k|]. rewrite <- Ek in *. clear Ek.
    assert (Hag1 : agree h g1) by (eapply agree_trans; [done|]; by apply moved_agree).
    pose proof (switch_agree h g1 (ToLower k) v Hag1) as Hsw.
    destruct (parse_switch h (ToLower k) v) as [h'|e| |], (parse_switch g1 (ToLower k) v) as [g2|e'| |]; try done; cbn [mbind outcome_bind].
    + destruct Hsw as [Hag2 [Hst Hraw]]. apply (IH fuel h' g2 Hok Hag2); [|lia].
      destruct Hat1 as [Hd1 Hle1]. split; rewrite Hst, Hraw; done.
    + by subst.
Qed.

(** ** What an acceptable request has *)

Definition values (name : list Z) (hs : list (list Z * list Z)) : list (list Z) :=
  snd <$> List.filter (fun kv => bool_decide (ToLower kv.1 = name)) hs.

(** The headers that are looked at: the name, the bit of the flag, the check. *)
Definition specials : list (list Z * Z * (list Z -> bool)) :=
  [(hdrKeyHost, 0, fun v => negb (bool_decide (v = [])));
   (hdrKeyConnection, 1, fun v => headerValueContains v hdrValConnectionUpgrade);
   (hdrKeyUpgrade, 2, fun v => headerValueContains v hdrValUpgradeWS);
   (hdrKeyWSKey, 3, fun v => bool_decide (length v = 24%nat));
   (hdrKeyWSVersion, 4, fun v => bool_decide (v = hdrValWSVersion));
   (hdrKeyWSExtensions, 5, fun _ => true);
   (hdrKeyWSProtocol, 6, fun _ => true)].

Lemma has_flag_bit h i : 0 <= i -> has_flag h (2 ^ i) = Z.testbit (headerFlags h) i.
Proof.
  intros Hi. unfold has_flag. apply eq_true_iff_eq. rewrite Z.eqb_eq. split.
  - intros H. apply (f_equal (fun z => Z.testbit z i)) in H. rewrite Z.land_spec, Z.pow2_bits_true in H by done.
    by apply andb_true_iff in H as [H _].
  - intros H. apply Z.bits_inj'. intros j Hj. rewrite Z.land_spec. destruct (decide (j = i)) as [->|Hne].
    + by rewrite H.
    + rewrite Z.pow2_bits_false by congruence. apply andb_false_r.
Qed.

Lemma has_flag_required h : has_flag h requiredFlags =
  Z.testbit (headerFlags h) 0 && Z.testbit (headerFlags h) 1 && Z.testbit (headerFlags h) 2
  && Z.testbit (headerFlags h) 3 && Z.testbit (headerFlags h) 4.
Proof.
  change requiredFlags with 31. unfold has_flag. set (F := headerFlags h). apply eq_true_iff_eq. rewrite !andb_true_iff, Z.eqb_eq. split.
  - intros H. assert (Hb : forall j, Z.testbit 31 j = true -> Z.testbit F j = true).
    { intros j Hj. apply (f_equal (fun z => Z.testbit z j)) in H. rewrite Z.land_spec, Hj in H. by apply andb_true_iff in H as [H _]. }
    repeat split; by apply Hb.
  - intros ((((H0 & H1) & H2) & H3) & H4). apply Z.bits_inj'. intros j Hj. rewrite Z.land_spec.
    destruct (Z.lt_ge_cases j 5) as [Hl|Hl].
    + assert (Hc : j = 0 \/ j = 1 \/ j = 2 \/ j = 3 \/ j = 4) by lia.
      destruct Hc as [->|[->|[->|[->| ->]]]]; rewrite ?H0, ?H1, ?H2, ?H3, ?H4; done.
    + rewrite (Z.bits_above_log2 31 j); [apply andb_false_r|lia|]. change (Z.log2 31) with 4. lia.
Qed.

(** What a header does to the flags. *)
Definition judged (h : Handshake) (k v : list Z) (o : outcome hs_error Handshake) : Prop :=
  (exists i chk, (k, i, chk) ∈ specials /\
     if negb (Z.testbit (headerFlags h) i) && chk v
     then exists h', o = Ok h' /\ headerFlags h' = Z.lor (headerFlags h) (2 ^ i)
     else exists e, o = Err e)
  \/ ((forall i chk, (k, i, chk) ∉ specials) /\ exists h', o = Ok h' /\ headerFlags h' = headerFlags h).

Lemma switch_judged h k v : v ≠ [] -> judged h k v (parse_switch h k v).
Proof.
  intros Hv. unfold parse_switch, judged.
  change hdrFlagHost with (2 ^ 0). change hdrFlagConn with (2 ^ 1). change hdrFlagUpgrade with (2 ^ 2).
  change hdrFlagWSKey with (2 ^ 3). change hdrFlagWSVersion with (2 ^ 4). change hdrFlagWSExtensions with (2 ^ 5).
  change hdrFlagWSProtocol with (2 ^ 6). rewrite !has_flag_bit by done. rewrite (bool_decide_false (v = [])) by done.
  repeat (case_bool_decide;
    [left; eexists _, _; split; [subst k; unfold specials; repeat (first [apply list_elem_of_here | apply list_elem_of_further])|];
     cbn beta; rewrite ?(bool_decide_false (v = [])) by done;
     destruct (Z.testbit _ _); cbn [negb andb]; [by eexists|];
     first [ by eexists | destruct (_ : bool); cbn [negb]; by eexists ]|]).
  right. split; [|by eexists]. intros i chk. unfold specials. rewrite !not_elem_of_cons. repeat split; try congruence. apply not_elem_of_nil.
Qed.

(** From the flags of [h], the headers can be read on. *)
Definition fits (h : Handshake) (hs : list (list Z * list Z)) : Prop :=
  forall name i chk, (name, i, chk) ∈ specials ->
    Forall (fun v => chk v = true) (values name hs)
    /\ (length (values name hs) + (if Z.testbit (headerFlags h) i then 1 else 0) <= 1)%nat.

Lemma values_cons name k v hs :
  values name ((k, v) :: hs) = if bool_decide (ToLower k = name) then v :: values name hs else values name hs.
Proof. unfold values. cbn. by destruct (bool_decide _). Qed.

(** The bit of a header is its place in the list. *)
Lemma specials_at name i chk : (name, i, chk) ∈ specials -> specials !! Z.to_nat i = Some (name, i, chk) /\ 0 <= i < 7.
Proof.
  unfold specials at 1. rewrite !elem_of_cons, elem_of_nil. intros H.
  repeat (destruct H as [H|H]; [injection H as -> -> ->; split; [done|lia]|]). done.
Qed.

Lemma specials_bit name name' i chk chk' : (name, i, chk) ∈ specials -> (name', i, chk') ∈ specials -> name = name'.
Proof. intros [H _]%specials_at [H' _]%specials_at. congruence. Qed.

Lemma specials_name name i i' chk chk' : (name, i, chk) ∈ specials -> (name, i', chk') ∈ specials -> i = i' /\ chk = chk'.
Proof.
  unfold specials. rewrite !elem_of_cons, !elem_of_nil. intros H H'.
  destruct H as [[= -> -> ->]|[[= -> -> ->]|[[= -> -> ->]|[[= -> -> ->]|[[= -> -> ->]|[[= -> -> ->]|[[= -> -> ->]|[]]]]]]]];
    repeat (destruct H' as [H'|H']; [injection H' as ? ?; by subst|]); done.
Qed.

Lemma specials_pos name i chk : (name, i, chk) ∈ specials -> 0 <= i.
Proof. intros [_ H]%specials_at. lia. Qed.

Lemma testbit_lor_pow F i j : 0 <= i -> 0 <= j -> Z.testbit (Z.lor F (2 ^ i)) j = Z.testbit F j || bool_decide (i = j).
Proof.
  intros Hi Hj. rewrite Z.lor_spec. destruct (decide (i = j)) as [->|Hne].
  - by rewrite Z.pow2_bits_true, bool_decide_true.
  - by rewrite Z.pow2_bits_false, bool_decide_false.
Qed.

(** The headers are read without an error exactly when they fit; a flag is set
    then when it was, or when its header is there. *)
Lemma fold_fits hs : headers_ok hs -> forall h,
  (fits h hs /\ exists h', fold_headers h hs = Ok h' /\
     forall name i chk, (name, i, chk) ∈ specials ->
       Z.testbit (headerFlags h') i = Z.testbit (headerFlags h) i || negb (bool_decide (values name hs = [])))
  \/ (~ fits h hs /\ exists e, fold_headers h hs = Err e).
Proof.
  induction 1 as [|[k v] hs [Hk Hv] _ IH]; intros h.
  { left. split.
    - intros name i chk _. split; [constructor|]. cbn. destruct (Z.testbit _ _); lia.
    - exists h. split; [done|]. intros. by rewrite orb_false_r. }
  cbn [fst snd fold_headers] in *. destruct (switch_judged h (ToLower k) v (proj1 Hv)) as [(i & chk & Hin & Hj)|(Hno & h1 & -> & Hfl)].
  - destruct (negb (Z.testbit (headerFlags h) i) && chk v) eqn:Ej.
    + apply andb_true_iff in Ej as [Ef%negb_true_iff Ec]. destruct Hj as (h1 & -> & Hfl). cbn [mbind outcome_bind].
      assert (Hbit : forall name j c, (name, j, c) ∈ specials -> Z.testbit (headerFlags h1) j = Z.testbit (headerFlags h) j || bool_decide (ToLower k = name)).
      { intros name j c Hs. rewrite Hfl, testbit_lor_pow by (by eapply specials_pos). f_equal. apply bool_decide_ext. split.
        - intros ->. by eapply specials_bit.
        - intros <-. by destruct (specials_name _ _ _ _ _ Hin Hs). }
      assert (Hfits : fits h ((k, v) :: hs) <-> fits h1 hs).
      { unfold fits. split; intros Hft name j c Hs; specialize (Hft name j c Hs); revert Hft; rewrite values_cons, (Hbit _ _ _ Hs); case_bool_decide as Hn.
        - subst name. destruct (specials_name _ _ _ _ _ Hin Hs) as [<- <-]. rewrite Ef, orb_true_r. intros [Ha Hl]. apply Forall_cons in Ha as [_ Ha].
          split; [done|]. cbn in *. lia.
        - by rewrite orb_false_r.
        - subst name. destruct (specials_name _ _ _ _ _ Hin Hs) as [<- <-]. rewrite Ef, orb_true_r. intros [Ha Hl].
          split; [by constructor|]. cbn in *. lia.
        - by rewrite orb_false_r. }
      rewrite Hfits. destruct (IH h1) as [[Hft (h' & -> & Hb)]|[Hft He]]; [left|by right]. split; [done|].
      exists h'. split; [done|]. intros name j c Hs. rewrite (Hb _ _ _ Hs), (Hbit _ _ _ Hs), values_cons.
      case_bool_decide; cbn; [|by rewrite orb_false_r]. by rewrite orb_true_r.
    + right. destruct Hj as [e ->]. split; [|by exists e]. intros Hft. destruct (Hft _ _ _ Hin) as [Ha Hl].
      rewrite values_cons, bool_decide_true in Ha, Hl by done. apply Forall_cons in Ha as [Hc _]. rewrite Hc, andb_true_r in Ej.
      apply negb_false_iff in Ej. rewrite Ej in Hl. cbn in Hl. lia.
  - cbn [mbind outcome_bind].
    assert (Hval : forall name j c, (name, j, c) ∈ specials -> values name ((k, v) :: hs) = values name hs).
    { intros name j c Hs. rewrite values_cons, bool_decide_false; [done|]. intros <-. by apply (Hno j c). }
    assert (Hfits : fits h ((k, v) :: hs) <-> fits h1 hs).
    { unfold fits. split; intros Hft name j c Hs; specialize (Hft name j c Hs); by rewrite (Hval _ _ _ Hs), Hfl in *. }
    rewrite Hfits. destruct (IH h1) as [[Hft (h' & -> & Hb)]|[Hft He]]; [left|by right]. split; [done|].
    exists h'. split; [done|]. intros name j c Hs. by rewrite (Hb _ _ _ Hs), (Hval _ _ _ Hs), Hfl.
Qed.

(** What the fields are. *)
Lemma switch_fields h k v h' : parse_switch h k v = Ok h' ->
  URI h' = URI h
  /\ Host h' = (if bool_decide (k = hdrKeyHost) then v else Host h)
  /\ Key h' = (if bool_decide (k = hdrKeyWSKey) then v else Key h)
  /\ Extensions h' = (if bool_decide (k = hdrKeyWSExtensions) then v else Extensions h)
  /\ Protocol h' = (if bool_decide (k = hdrKeyWSProtocol) then v else Protocol h).
Proof.
  unfold parse_switch.
  repeat (case_bool_decide;
    [subst k; repeat (match goal with |- (if ?b then _ else _) = _ -> _ => destruct b; [done|] end); intros [= <-]; by repeat split|]).
  intros [= <-]. by repeat split.
Qed.

Lemma fold_fields hs : forall h h', fold_headers h hs = Ok h' ->
  URI h' = URI h
  /\ Host h' = default (Host h) (last (values hdrKeyHost hs))
  /\ Key h' = default (Key h) (last (values hdrKeyWSKey hs))
  /\ Extensions h' = default (Extensions h) (last (values hdrKeyWSExtensions hs))
  /\ Protocol h' = default (Protocol h) (last (values hdrKeyWSProtocol hs)).
Proof.
  assert (Hlast : forall (d v : list Z) l, default d (last (v :: l)) = default v (last l)) by (by intros d v l; rewrite last_cons; destruct (last l)).
  induction hs as [|[k v] hs IH]; intros h h'; cbn [fold_headers]; [by intros [= <-]|].
  destruct (parse_switch h (ToLower k) v) as [h1| | |] eqn:E; cbn [mbind outcome_bind]; try done.
  intros H1. apply IH in H1 as (-> & -> & -> & -> & ->). apply switch_fields in E as (-> & -> & -> & -> & ->).
  rewrite !values_cons. by repeat (case_bool_decide; rewrite ?Hlast).
Qed.

(** ** The request *)

(** RFC 6455, section 4.1: what the server asks of the headers. *)
Record acceptable (hs : list (list Z * list Z)) : Prop := {
  acc_host : exists v, values hdrKeyHost hs = [v];
  acc_connection : exists v, values hdrKeyConnection hs = [v] /\ headerValueContains v hdrValConnectionUpgrade = true;
  acc_upgrade : exists v, values hdrKeyUpgrade hs = [v] /\ headerValueContains v hdrValUpgradeWS = true;
  acc_key : exists v, values hdrKeyWSKey hs = [v] /\ length v = 24%nat;
  acc_version : values hdrKeyWSVersion hs = [hdrValWSVersion];
  acc_extensions : (length (values hdrKeyWSExtensions hs) <= 1)%nat;
  acc_protocol : (length (values hdrKeyWSProtocol hs) <= 1)%nat
}.

Lemma acceptable_fits h hs : headers_ok hs -> headerFlags h = 0 ->
  acceptable hs <-> fits h hs /\ forall name i chk, (name, i, chk) ∈ specials -> i < 5 -> values name hs ≠ [].
Proof.
  intros Hok Hf. unfold fits. rewrite Hf.
  assert (Hvals : forall name v, v ∈ values name hs -> v ≠ []).
  { intros name v. unfold values. intros ([k w] & -> & Hin)%list_elem_of_fmap. apply list_elem_of_In, filter_In in Hin as [Hin _].
    apply list_elem_of_In in Hin. unfold headers_ok in Hok. rewrite Forall_forall in Hok. apply Hok in Hin as [_ [Hne _]]. done. }
  assert (Hone : forall l : list (list Z), l ≠ [] -> (length l + 0 <= 1)%nat -> exists v, l = [v]).
  { intros [|v [|]] Hne Hl; [done|by exists v|cbn in Hl; lia]. }
  split.
  - intros [[v1 H1] (v2 & H2 & C2) (v3 & H3 & C3) (v4 & H4 & C4) H5 H6 H7]. split.
    + intros name i chk Hin. rewrite Z.bits_0. unfold specials in Hin. rewrite !elem_of_cons, elem_of_nil in Hin.
      destruct Hin as [[= -> -> ->]|[[= -> -> ->]|[[= -> -> ->]|[[= -> -> ->]|[[= -> -> ->]|[[= -> -> ->]|[[= -> -> ->]|[]]]]]]]].
      * rewrite H1. split; [|cbn; lia]. constructor; [|done]. rewrite bool_decide_false; [done|]. apply (Hvals hdrKeyHost). rewrite H1. by left.
      * rewrite H2. split; [by constructor|cbn; lia].
      * rewrite H3. split; [by constructor|cbn; lia].
      * rewrite H4. split; [constructor; [by apply bool_decide_eq_true|done]|cbn; lia].
      * rewrite H5. split; [by repeat constructor|cbn; lia].
      * split; [by apply Forall_true|lia].
      * split; [by apply Forall_true|lia].
    + intros name i chk Hin Hi. unfold specials in Hin. rewrite !elem_of_cons, elem_of_nil in Hin.
      destruct Hin as [[= -> -> ->]|[[= -> -> ->]|[[= -> -> ->]|[[= -> -> ->]|[[= -> -> ->]|[[= -> -> ->]|[[= -> -> ->]|[]]]]]]]]; congruence || lia.
  - intros [Hft Hne].
    assert (Hs : forall n name i chk, specials !! n = Some (name, i, chk) ->
      Forall (fun v => chk v = true) (values name hs) /\ (length (values name hs) + 0 <= 1)%nat /\ (i < 5 -> exists v, values name hs = [v] /\ chk v = true)).
    { intros n name i chk Hn. apply list_elem_of_lookup_2 in Hn. destruct (Hft _ _ _ Hn) as [Ha Hl]. rewrite Z.bits_0 in Hl.
      split; [done|]. split; [done|]. intros Hi. destruct (Hone _ (Hne _ _ _ Hn Hi) Hl) as [v Hv]. exists v. split; [done|].
      rewrite Hv in Ha. by apply Forall_inv in Ha. }
    destruct (Hs 0%nat _ _ _ eq_refl) as (_ & _ & (v0 & V0 & _)); [done|].
    destruct (Hs 1%nat _ _ _ eq_refl) as (_ & _ & (v1 & V1 & C1)); [done|].
    destruct (Hs 2%nat _ _ _ eq_refl) as (_ & _ & (v2 & V2 & C2)); [done|].
    destruct (Hs 3%nat _ _ _ eq_refl) as (_ & _ & (v3 & V3 & C3)); [done|].
    destruct (Hs 4%nat _ _ _ eq_refl) as (_ & _ & (v4 & V4 & C4)); [done|].
    destruct (Hs 5%nat _ _ _ eq_refl) as (_ & L5 & _). destruct (Hs 6%nat _ _ _ eq_refl) as (_ & L6 & _).
    apply bool_decide_eq_true in C3, C4. subst v4. split; try by eexists. all: try done; lia.
Qed.

Definition http_line (path : list Z) : list Z := str "GET " ++ path ++ str " HTTP/1.1" ++ CRLF.
Definition request (path : list Z) (hs : list (list Z * list Z)) (body : list Z) : list Z :=
  http_line path ++ lines_of hs ++ CRLF ++ body.
Definition path_ok (path : list Z) : Prop := path ≠ [] /\ (32 ∉ path) /\ (13 ∉ path).

Lemma parseHTTPLine_line h path rest : path_ok path -> at_rest h (http_line path ++ rest) ->
  exists h', parseHTTPLine spare h = Ok h' /\ at_rest h' rest /\ moved (set_URI h path) h'
    /\ start h' = (start h + length (http_line path))%nat.
Proof.
  intros (Hp & Hp1 & Hp2) Hat. unfold parseHTTPLine.
  assert (Hline : http_line path ++ rest = str "GET" ++ 32 :: path ++ 32 :: str "HTTP" ++ 47 :: (str "1.1" ++ [13]) ++ 10 :: rest)
    by (unfold http_line; rewrite <- !(assoc_L (++)); done).
  rewrite Hline in Hat.
  destruct (get_chunk h 32 false (str "GET") (str "GET") false _ Hat) as (h1 & -> & Hat1 & Hm1 & Hs1);
    [done|done|done|by apply (bool_decide_unpack _)|by apply chunk_loop_app; apply (bool_decide_unpack _)|].
  cbn [mbind outcome_bind]. rewrite bool_decide_true by done. cbn [negb].
  destruct (get_chunk h1 32 false path path false _ Hat1) as (h2 & -> & Hat2 & Hm2 & Hs2); [done| |done|done|by apply chunk_loop_app|].
  { destruct path as [|c path]; [done|]. cbn. intros [= ->]. apply Hp2. by left. }
  cbn [mbind outcome_bind]. rewrite bool_decide_false by done.
  assert (Hat2' : at_rest (set_URI h2 path) (str "HTTP" ++ 47 :: (str "1.1" ++ [13]) ++ 10 :: rest)) by exact Hat2.
  destruct (get_chunk _ 47 false (str "HTTP") (str "HTTP") false _ Hat2') as (h3 & -> & Hat3 & Hm3 & Hs3);
    [done|done|done|by apply (bool_decide_unpack _)|by apply chunk_loop_app; apply (bool_decide_unpack _)|].
  cbn [mbind outcome_bind]. rewrite bool_decide_true by done. cbn [negb].
  destruct (get_chunk h3 10 false (str "1.1" ++ [13]) (str "1.1" ++ [13]) true _ Hat3) as (h4 & -> & Hat4 & Hm4 & Hs4);
    [done|done|done|by apply (bool_decide_unpack _)| |].
  { rewrite <- (assoc_L (++)). by apply (chunk_loop_line (str "1.1") rest); apply (bool_decide_unpack _). }
  cbn [mbind outcome_bind]. rewrite bool_decide_true by done. cbn [negb]. exists h4. split; [done|]. split; [done|]. split.
  - unfold moved in *. cbn in *. intuition congruence.
  - unfold http_line. rewrite !length_app. cbn [start set_URI] in Hs3. rewrite Hs4, Hs3, Hs2, Hs1. cbn. lia.
Qed.

(** The flags that are required are those of headers that are there. *)
Lemma required_values h hs :
  (forall name i chk, (name, i, chk) ∈ specials -> Z.testbit (headerFlags h) i = negb (bool_decide (values name hs = []))) ->
  has_flag h requiredFlags = true <-> forall name i chk, (name, i, chk) ∈ specials -> i < 5 -> values name hs ≠ [].
Proof.
  intros Hbits. rewrite has_flag_required, !andb_true_iff. split.
  - intros ((((B0 & B1) & B2) & B3) & B4) name i chk Hin Hi Hv. pose proof (Hbits _ _ _ Hin) as Hb. rewrite Hv in Hb. cbn in Hb.
    destruct (specials_at _ _ _ Hin) as [_ Hr]. assert (Hc : i = 0 \/ i = 1 \/ i = 2 \/ i = 3 \/ i = 4) by lia.
    destruct Hc as [->|[->|[->|[->| ->]]]]; congruence.
  - intros Hne.
    assert (Hb : forall n name i chk, specials !! n = Some (name, i, chk) -> i < 5 -> Z.testbit (headerFlags h) i = true).
    { intros n name i chk Hn Hi. apply list_elem_of_lookup_2 in Hn. rewrite (Hbits _ _ _ Hn).
      rewrite bool_decide_false by (by eapply Hne). done. }
    repeat split; [eapply (Hb 0%nat)|eapply (Hb 1%nat)|eapply (Hb 2%nat)|eapply (Hb 3%nat)|eapply (Hb 4%nat)]; done.
Qed.

Lemma parse_accepts h0 path hs body : path_ok path -> headers_ok hs -> (126 <= length (lines_of hs))%nat ->
  match parse spare h0 (request path hs body) with
  | Ok h => acceptable hs /\ URI h = path /\ values hdrKeyHost hs = [Host h] /\ values hdrKeyWSKey hs = [Key h]
      /\ Extensions h = default [] (last (values hdrKeyWSExtensions hs)) /\ Protocol h = default [] (last (values hdrKeyWSProtocol hs))
  | Err _ => ~ acceptable hs
  | _ => False
  end.
Proof.
  intros Hpath Hok Hlen. unfold parse.
  assert (Hreq : length (request path hs body) = (15 + length path + length (lines_of hs) + 2 + length body)%nat).
  { unfold request, http_line, CRLF. rewrite !length_app. cbn. lia. }
  assert (Hp0 : (0 < length path)%nat) by (destruct Hpath as [Hne _]; destruct path; [done|cbn; lia]).
  rewrite decide_False by lia.
  destruct (parseHTTPLine_line (hs_reset h0 (request path hs body)) path (lines_of hs ++ CRLF ++ body) Hpath) as (h1 & -> & Hat & Hm & Hs).
  { split; [done|]. cbn. lia. }
  cbn [mbind outcome_bind]. destruct Hm as (Hm1 & Hm2 & Hm3 & Hm4 & Hm5 & Hm6 & Hm7 & Hm8). cbn [raw set_URI hs_reset] in Hm8.
  rewrite (proj2 (Z.ltb_ge _ _)).
  2: { rewrite Hm8, Hreq, Hs. unfold http_line, CRLF. rewrite !length_app. cbn. lia. }
  assert (Hfuel : (length hs < S (length (request path hs body)))%nat).
  { assert (Hll : (length hs <= length (lines_of hs))%nat).
    { clear. induction hs as [|kv hs IH]; [done|]. change (lines_of (kv :: hs)) with (line_of kv ++ lines_of hs).
      rewrite length_app. unfold line_of. rewrite !length_app. cbn. lia. }
    lia. }
  pose proof (parse_headers_lines body hs _ h1 h1 Hok (agree_refl h1) Hat Hfuel) as Hloop.
  assert (Hf : headerFlags h1 = 0) by (by rewrite Hm1).
  pose proof (acceptable_fits h1 hs Hok Hf) as Hacc.
  destruct (fold_fits hs Hok h1) as [[Hft (h2 & Hfold & Hbits)]|[Hft (e & Hfold)]]; rewrite Hfold in Hloop.
  2: { rewrite Hloop. cbn. rewrite Hacc. tauto. }
  destruct Hloop as (h3 & -> & (Ha1 & Ha2 & Ha3 & Ha4 & Ha5 & Ha6 & Ha7)). cbn [mbind outcome_bind].
  assert (Hall : has_flag h3 requiredFlags = true <-> forall name i chk, (name, i, chk) ∈ specials -> i < 5 -> values name hs ≠ []).
  { apply required_values. intros name i chk Hin. by rewrite Ha1, (Hbits _ _ _ Hin), Hf, Z.bits_0. }
  destruct (has_flag h3 requiredFlags) eqn:Eall; cbn [negb].
  2: { rewrite Hacc, <- Hall. intros [_ ?]. done. }
  assert (Hyes : acceptable hs) by (rewrite Hacc, <- Hall; done). split; [done|].
  destruct (fold_fields hs h1 h2 Hfold) as (F1 & F2 & F3 & F4 & F5).
  destruct Hyes as [[v1 H1] _ _ (v4 & H4 & _) _ _ _]. rewrite H1 in F2. rewrite H4 in F3. cbn in F2, F3.
  rewrite Ha2, F1, Hm2, Ha3, F2, Ha4, F3, Ha5, F4, Hm5, Ha6, F5, Hm6. by repeat split.
Qed.

(** C33: a request of a first line with a non-empty path, and of headers on lines of
    their own, with names without colons and non-empty values, whose header lines take
    at least 126 bytes: the server accepts it exactly when there is one Host, one
    Connection that has [upgrade] in it, one Upgrade that has [websocket] in it, one key
    of 24 bytes, one version, 13, and at most one header for the extensions and one for
    the protocols, whatever the case of their names; it has the path and the values
    then, and any other such request is an error, not a panic. A shorter request can be
    refused although it has all of them: see [short_host_refused]. *)
Theorem handshake_accepts h0 path hs body : path_ok path -> headers_ok hs -> (126 <= length (lines_of hs))%nat ->
  match parse spare h0 (request path hs body) with
  | Ok h => acceptable hs /\ URI h = path /\ values hdrKeyHost hs = [Host h] /\ values hdrKeyWSKey hs = [Key h]
      /\ Extensions h = default [] (last (values hdrKeyWSExtensions hs)) /\ Protocol h = default [] (last (values hdrKeyWSProtocol hs))
  | Err _ => ~ acceptable hs
  | _ => False
  end.
Proof. apply parse_accepts. Qed.

(** A request without a colon after its first line, of 128 bytes or more that
    do not start a blank line, makes the server panic. *)
Theorem handshake_panics h0 path body : path_ok path -> (128 <= length body)%nat -> 58 ∉ body -> head body ≠ Some 13 ->
  parse spare h0 (http_line path ++ body) = Panic.
Proof.
  intros Hpath Hlen Hcolon Hhd. unfold parse.
  assert (Hp0 : (0 < length path)%nat) by (destruct Hpath as [Hne _]; destruct path; [done|cbn; lia]).
  assert (Hreq : length (http_line path ++ body) = (15 + length path + length body)%nat).
  { unfold http_line, CRLF. rewrite !length_app. cbn. lia. }
  rewrite decide_False by lia.
  destruct (parseHTTPLine_line (hs_reset h0 (http_line path ++ body)) path body Hpath) as (h1 & -> & [Hd Hle] & Hm & Hs).
  { split; [done|]. cbn. lia. }
  cbn [mbind outcome_bind]. assert (Hraw : length (raw h1) = (start h1 + length body)%nat).
  { pose proof (f_equal length Hd) as Hl. rewrite length_drop in Hl. lia. }
  rewrite (proj2 (Z.ltb_ge _ _)) by lia. cbn [parse_headers]. rewrite decide_True by lia.
  unfold parseHeader, getBytesChunk. rewrite Hd.
  assert (Hearly : match body with c :: _ => negb (c =? 58) && (c =? 13) | [] => false end = false).
  { destruct body as [|c body]; [done|]. rewrite (proj2 (Z.eqb_neq c 13)); [apply andb_false_r|]. intros ->. by apply Hhd. }
  rewrite Hearly.
  assert (Hpre : exists pre cr, chunk_loop 58 true body = (pre, cr) /\ length pre = length body).
  { clear -Hcolon. induction body as [|c body IH]; [by eexists _, _|]. apply not_elem_of_cons in Hcolon as [Hc Hb].
    destruct (IH Hb) as (pre & cr & Hl & Hn). cbn [chunk_loop]. rewrite (proj2 (Z.eqb_neq c 58)) by done. rewrite Hl.
    destruct (c =? 13); [|destruct (true && in_range c 65 90)]; eexists _, _; (split; [reflexivity|cbn; by rewrite Hn]). }
  destruct Hpre as (pre & cr & -> & Hpre). cbn [raw]. rewrite !length_app, length_take, length_drop.
  rewrite decide_True by lia. cbn [mbind outcome_bind].
  destruct (if cr then take (length pre - 1) pre else pre) as [|k0 k] eqn:Ek.
  { exfalso. apply (f_equal length) in Ek. destruct cr; rewrite ?length_take in Ek; cbn in Ek; lia. }
  unfold get_at. cbn [start raw]. rewrite lookup_ge_None_2; [done|]. rewrite !length_app, length_take, length_drop. lia.
Qed.

End Facts.

(** What the client of this package sends. *)
Lemma handshake_accepts_witness :
  let hs := [(str "Host", str "127.0.0.1:9001"); (str "Upgrade", str "websocket"); (str "Connection", str "Upgrade");
             (str "Sec-Websocket-Key", str "AQIDBAUGBwgJCgsMDQ4PEC=="); (str "Sec-Websocket-Version", str "13")] in
  let h0 := HS 0 0 [] [] [] [] [] [] ∅ in
  acceptable hs /\
  match parse 0 h0 (request (str "/chat") hs []) with
  | Ok h => acceptable hs /\ URI h = str "/chat" /\ values hdrKeyHost hs = [Host h] /\ values hdrKeyWSKey hs = [Key h]
      /\ Extensions h = default [] (last (values hdrKeyWSExtensions hs)) /\ Protocol h = default [] (last (values hdrKeyWSProtocol hs))
  | Err _ => ~ acceptable hs
  | _ => False
  end.
Proof.
  intros hs h0. split.
  - split.
    + eexists. vm_compute. reflexivity.
    + eexists. split; vm_compute; reflexivity.
    + eexists. split; vm_compute; reflexivity.
    + eexists. split; vm_compute; reflexivity.
    + vm_compute. reflexivity.
    + vm_compute. lia.
    + vm_compute. lia.
  - apply (handshake_accepts 0 h0 (str "/chat") hs []).
    + split; [done|]. split; by apply (bool_decide_unpack _).
    + repeat (constructor; [split; (split; [done|]); split; by apply (bool_decide_unpack _)|]). constructor.
    + vm_compute. lia.
Defined.

Lemma handshake_panics_witness :
  parse 100 (HS 0 0 [] [] [] [] [] [] ∅) (http_line (str "/") ++ replicate 128 97) = Panic.
Proof.
  apply (handshake_panics 100).
  - split; [done|]. split; by apply (bool_decide_unpack _).
  - rewrite length_replicate. lia.
  - by apply (bool_decide_unpack _).
  - done.
Defined.
