(* ===== verification/Sha1.v ===== *)
(** The standard package [crypto/sha1], as the handshake of WebSocket uses it. *)

From Stdlib Require Import ZArith Lia.
From S2P Require Import Prelude.

Local Open Scope Z_scope.

Definition rotl (x : Z) (n : Z) : Z := Z.lor (u32 (Z.shiftl x n)) (Z.shiftr x (32 - n)).
Definition be32 (v : Z) : list Z := (fun i => u8 (Z.shiftr v i)) <$> [24; 16; 8; 0].
Definition from_be32 (l : list Z) : Z := fold_left (fun a b => a * 256 + b) l 0.

(** The text with its padding: a multiple of 64 bytes. *)
Definition pad (m : list Z) : list Z :=
  let n := Z.of_nat (length m) in
  m ++ 128 :: replicate (Z.to_nat ((55 - n) mod 64)) 0 ++ be32 (u32 (Z.shiftr (8 * n) 32)) ++ be32 (u32 (8 * n)).

Fixpoint words (k : nat) (l : list Z) : list Z :=
  match k with O => [] | S k => from_be32 (take 4 l) :: words k (drop 4 l) end.

(** The 80 words of a block, from the last one backwards. *)
Fixpoint schedule (k : nat) (back : list Z) : list Z :=
  match k with
  | O => rev back
  | S k =>
      let w i := nth i back 0 in
      schedule k (rotl (Z.lxor (Z.lxor (w 2%nat) (w 7%nat)) (Z.lxor (w 13%nat) (w 15%nat))) 1 :: back)
  end.

Record state : Type := St { sa : Z; sb : Z; sc : Z; sd : Z; se : Z }.
Definition mix (t : nat) (s : state) : Z * Z :=
  let '(St _ b c d _) := s in
  if decide (t < 20)%nat then (Z.lor (Z.land b c) (Z.land (Z.lxor b 4294967295) d), 1518500249)
  else if decide (t < 40)%nat then (Z.lxor (Z.lxor b c) d, 1859775393)
  else if decide (t < 60)%nat then (Z.lor (Z.lor (Z.land b c) (Z.land b d)) (Z.land c d), 2400959708)
  else (Z.lxor (Z.lxor b c) d, 3395469782).
Fixpoint rounds (t : nat) (ws : list Z) (s : state) : state :=
  match ws with
  | [] => s
  | w :: ws =>
      let '(f, k) := mix t s in
      rounds (S t) ws (St (u32 (rotl (sa s) 5 + f + se s + w + k)) (sa s) (rotl (sb s) 30) (sc s) (sd s))
  end.
Definition block (s : state) (l : list Z) : state :=
  let r := rounds 0 (schedule 64 (rev (words 16 l))) s in
  St (u32 (sa s + sa r)) (u32 (sb s + sb r)) (u32 (sc s + sc r)) (u32 (sd s + sd r)) (u32 (se s + se r)).
Fixpoint blocks (n : nat) (s : state) (l : list Z) : state :=
  match n with O => s | S n => blocks n (block s (take 64 l)) (drop 64 l) end.
Definition initial : state := St 1732584193 4023233417 2562383102 271733878 3285377520.

(** [sha1.Sum]. *)
Definition sha1 (m : list Z) : list Z :=
  let p := pad m in
  let s := blocks (length p / 64) initial p in
  be32 (sa s) ++ be32 (sb s) ++ be32 (sc s) ++ be32 (sd s) ++ be32 (se s).

Example sha1_abc : sha1 (str "abc") = be32 2845392438 ++ be32 1191608682 ++ be32 3124634993 ++ be32 2018558572 ++ be32 2630932637.
Proof. vm_compute. reflexivity. Qed.

Lemma sha1_bytes m : is_bytes (sha1 m) /\ length (sha1 m) = 20%nat.
Proof.
  split; [|done]. assert (H : forall v, is_bytes (be32 v)) by (intros v; unfold be32; cbn; repeat constructor; apply u8_is_byte).
  unfold sha1. repeat (apply Forall_app; split; [apply H|]). apply H.
Qed.
