(* ===== verification/WsConnect.v ===== *)
(** Package [lib/websocket]: how a connection is opened.  The request of the client
    and what it makes of the reply ([client.go]), and what the server does with
    the request ([server.go], [upgrader]). *)

From Stdlib Require Import ZArith Lia.
From S2P Require Import Prelude Ascii Utf8 Strconv Base64 IoReader HttpHeader WsFrame WsHandshake WsHandshakeFacts HttpResponse Sha1.

Local Open Scope Z_scope.

Definition hdrKeyWSAccept : list Z := str "sec-websocket-accept".
Definition StatusSwitchingProtocols : Z := 101.

(** [generateHandshakeAccept], and [generateHandshakeKey] from the two numbers drawn. *)
Definition generateHandshakeAccept (key : list Z) : list Z :=
  b64_encode (sha1 (key ++ str "258EAFA5-E914-47DA-95CA-C5AB0DC85B11")).
Definition le64 (v : Z) : list Z := (fun i => u8 (Z.shiftr v i)) <$> [0; 8; 16; 24; 32; 40; 48; 56].
Definition generateHandshakeKey (r0 r1 : Z) : list Z := b64_encode (le64 r0 ++ le64 r1).

(** The example of RFC 6455. *)
Example accept_of_rfc : generateHandshakeAccept (str "dGhlIHNhbXBsZSBub25jZQ==") = str "s3pPLMBiTxaQ9kYGzzhZRbK+xOo=".
Proof. vm_compute. reflexivity. Qed.

(** ** The client *)

(** [_handshakeReqFormat]. *)
Definition handshakeReq (path host key : list Z) : list Z :=
  str "GET " ++ path ++ str " HTTP/1.1" ++ CRLF ++
  str "Host: " ++ host ++ CRLF ++
  str "Upgrade: websocket" ++ CRLF ++
  str "Connection: Upgrade" ++ CRLF ++
  str "Sec-Websocket-Key: " ++ key ++ CRLF ++
  str "Sec-Websocket-Version: 13" ++ CRLF.
(** [handshake]: the parts of the URL, the key, and the headers as they are written. *)
Definition handshake_path (path rawQuery : list Z) : list Z :=
  let path := match path with [] => str "/" | _ => path end in
  match rawQuery with [] => path | _ => path ++ str "?" ++ rawQuery end.
Definition handshake_request (path rawQuery host key headers : list Z) : list Z :=
  handshakeReq (handshake_path path rawQuery) host key ++ headers ++ CRLF.

Inductive connect_error : Type := ErrResponse (e : res_error) | ErrStatus (status : list Z) | ErrAcceptKey.

(** [handleHandshake]: the bytes after the reply. *)
Definition handleHandshake (keyAccept resp : list Z) : outcome connect_error (list Z) :=
  match ParseResponseHeader resp with
  | Ok (None, _) => Panic
  | Ok (Some res, rest) =>
      if negb (StatusCode res =? StatusSwitchingProtocols) then Err (ErrStatus (Status res))
      else if negb (bool_decide (keyAccept = Header_Get (HttpResponse.Header res) hdrKeyWSAccept)) then Err ErrAcceptKey
      else Ok rest
  | Err e => Err (ErrResponse e)
  | Panic => Panic
  | NoFuel => NoFuel
  end.

(** ** The server *)

Definition resUpgradeOK : list Z :=
  str "HTTP/1.1 101 Switching Protocols" ++ CRLF ++ str "Upgrade: websocket" ++ CRLF ++
  str "Connection: Upgrade" ++ CRLF ++ str "Sec-Websocket-Accept: ".
Definition upgrade_reply (key : list Z) : list Z := resUpgradeOK ++ generateHandshakeAccept key ++ CRLF ++ CRLF.
(** [handleError]. *)
Definition error_reply (code : Z) (msg : list Z) : list Z := str "HTTP/1.1 " ++ dec code ++ str " " ++ msg ++ CRLF ++ CRLF.

Definition hs_text (e : hs_error) : list Z :=
  match e with
  | ErrBadRequest => str "bad request"
  | ErrRequestLength => str "bad request: length is less than minimum"
  | ErrRequestHeaderLength => str "bad request: header length is less than minimum"
  | ErrInvalidHTTPMethod => str "invalid HTTP method"
  | ErrInvalidHTTPVersion => str "invalid HTTP version"
  | ErrInvalidHeaderUpgrade => str "invalid Upgrade header"
  | ErrInvalidHeaderFormat => str "invalid Header format"
  | ErrInvalidHeaderHost => str "invalid Host header"
  | ErrInvalidHeaderWSKey => str "invalid Sec-Websocket-Key header"
  | ErrInvalidHeaderWSVersion => str "invalid Sec-Websocket-Version header"
  | ErrInvalidHeaderWSExtensions => str "invalid Sec-Websocket-Extensions header"
  | ErrInvalidHeaderWSProtocol => str "invalid Sec-Websocket-Protocol header"
  | ErrInvalidHeaderConn => str "invalid Connection header"
  | ErrMissingRequiredHeader => str "missing required headers"
  | ErrUnsupportedWSVersion => str "unsupported Sec-WebSocket-Version"
  end.

(** [handleUpgrade] and one round of [upgrader]: what is sent to the connection,
    and the context of a client that is added ([Background] where the application
    gives none); nothing is sent to a connection that sends nothing.  [h0] is the
    handshake of the pool, [HandleAuth] the callback of the application. *)
Section Upgrade.
Context {Ctx : Type} (Background : Ctx) (HandleAuth : option (Handshake -> option Ctx + list Z)) (spare : nat).

Definition handleUpgrade (h0 : Handshake) (req : list Z) : outcome (list Z) (option Ctx * list Z) :=
  match parse spare h0 req with
  | Ok h =>
      match HandleAuth with
      | None => Ok (None, Key h)
      | Some auth => match auth h with inl c => Ok (c, Key h) | inr msg => Err msg end
      end
  | Err e => Err (hs_text e)
  | Panic => Panic
  | NoFuel => NoFuel
  end.

Inductive upgraded : Type := Dropped | Refused (sent : list Z) | Added (sent : list Z) (c : Ctx).
Definition upgrader (h0 : Handshake) (packet : list Z) : outcome unit upgraded :=
  match packet with
  | [] => Ok Dropped
  | _ =>
      match handleUpgrade h0 packet with
      | Ok (c, key) => Ok (Added (upgrade_reply key) (default Background c))
      | Err msg => Ok (Refused (error_reply 400 msg))
      | Panic => Panic
      | NoFuel => NoFuel
      end
  end.
End Upgrade.

(** ** The client and the server connect *)

Definition client_headers (host key : list Z) : list (list Z * list Z) :=
  [(str "Host", host); (str "Upgrade", str "websocket"); (str "Connection", str "Upgrade");
   (str "Sec-Websocket-Key", key); (str "Sec-Websocket-Version", str "13")].

Lemma client_request path rawQuery host key :
  handshake_request path rawQuery host key [] = request (handshake_path path rawQuery) (client_headers host key) [].
Proof.
  unfold handshake_request, handshakeReq, request, http_line, lines_of, client_headers. cbn [fmap list_fmap concat]. unfold line_of.
  rewrite <- !(assoc_L (++)). done.
Qed.

Lemma key_text r0 r1 : let key := generateHandshakeKey r0 r1 in
  length key = 24%nat /\ Forall (fun c => is_b64 c = true) key.
Proof.
  split; [done|]. apply b64_text. apply Forall_app. split; unfold le64; cbn; repeat constructor; apply u8_is_byte.
Qed.

Lemma accept_text key : let v := generateHandshakeAccept key in length v = 28%nat /\ Forall (fun c => is_b64 c = true) v.
Proof.
  destruct (sha1_bytes (key ++ str "258EAFA5-E914-47DA-95CA-C5AB0DC85B11")) as [Hb Hl]. split; [|by apply b64_text].
  unfold generateHandshakeAccept. revert Hl. generalize (sha1 (key ++ str "258EAFA5-E914-47DA-95CA-C5AB0DC85B11")). intros l Hl.
  do 21 (destruct l as [|? l]; [done|]). done.
Qed.

Definition reply_fields (v : list Z) : list (list Z * list Z) :=
  [(str "Upgrade", str " websocket"); (str "Connection", str " Upgrade"); (str "Sec-Websocket-Accept", 32 :: v)].

Lemma server_reply key rest :
  upgrade_reply key ++ rest = reply 1 1 101 (str " Switching Protocols") (reply_fields (generateHandshakeAccept key)) rest.
Proof.
  unfold upgrade_reply, resUpgradeOK, reply, reply_fields, fields. cbn [fmap list_fmap concat]. unfold field. cbn [fst snd].
  change (dec 101) with (str "101"). generalize (generateHandshakeAccept key). intros v.
  rewrite <- !(assoc_L (++)). rewrite <- !app_comm_cons, <- !(assoc_L (++)). reflexivity.
Qed.

Lemma b64_field v : v ≠ [] -> Forall (fun c => is_b64 c = true) v ->
  Forall (fun c => 33 <= c < 128) v /\ (10 ∉ v) /\ (13 ∉ v) /\ TrimSpace (32 :: v) = v.
Proof.
  intros Hne Hv. assert (Hr : Forall (fun c => 33 <= c < 128) v).
  { eapply Forall_impl; [exact Hv|]. intros c Hc. cbn in Hc. destruct (decide (33 <= c < 128)) as [|Hout]; [done|]. exfalso.
    unfold is_b64, b64_index in Hc.
    replace ((65 <=? c) && (c <=? 90)) with false in Hc by (symmetry; apply andb_false_iff; rewrite !Z.leb_gt; lia).
    replace ((97 <=? c) && (c <=? 122)) with false in Hc by (symmetry; apply andb_false_iff; rewrite !Z.leb_gt; lia).
    replace ((48 <=? c) && (c <=? 57)) with false in Hc by (symmetry; apply andb_false_iff; rewrite !Z.leb_gt; lia).
    rewrite !(proj2 (Z.eqb_neq c _)) in Hc by lia. done. }
  split; [done|]. assert (Hout : forall b, b < 33 -> b ∉ v) by (intros b Hb Hin; rewrite Forall_forall in Hr; apply Hr in Hin; lia).
  split; [by apply Hout|]. split; [by apply Hout|].
  apply (TrimSpace_spaces [32]); [by repeat constructor| |].
  - assert (Hs : forall b, b ∈ v -> IsSpace b = false).
    { intros b Hb. rewrite Forall_forall in Hr. apply Hr in Hb. unfold IsSpace. rewrite !orb_false_iff, !Z.eqb_neq. lia. }
    split; intros b Hb; apply Hs; [by apply head_Some_elem_of in Hb|by apply last_Some_elem_of in Hb].
  - eapply Forall_impl; [exact Hr|]. cbn. lia.
Qed.

(** The client takes the reply of the server exactly when the key in it is the one
    that it waits for. *)
Lemma reply_taken a key rest : handleHandshake a (upgrade_reply key ++ rest)
  = if decide (a = generateHandshakeAccept key) then Ok rest else Err ErrAcceptKey.
Proof.
  destruct (accept_text key) as [Hlen Hv]. unfold handleHandshake. rewrite server_reply. set (v := generateHandshakeAccept key) in *.
  destruct (b64_field v) as (_ & H10 & _ & Ht); [by destruct v|done|].
  rewrite parse_reply.
  2: { done. }
  2: { done. }
  2: { done. }
  2: { apply (bool_decide_unpack _). vm_compute. done. }
  2: { unfold reply_fields. repeat (apply Forall_cons; split); [| | |by apply Forall_nil]; unfold field_ok; cbn [fst snd].
       - apply (bool_decide_unpack _). vm_compute. done.
       - apply (bool_decide_unpack _). vm_compute. done.
       - split; [apply (bool_decide_unpack _); vm_compute; done|]. split; [by apply not_elem_of_cons|]. rewrite Ht. by destruct v. }
  cbn [StatusCode Z.eqb Pos.eqb negb HttpResponse.Header]. unfold StatusSwitchingProtocols. cbn [Z.eqb Pos.eqb negb].
  assert (Hg : Header_Get (fold_left add_field (reply_fields v) ∅) hdrKeyWSAccept = v).
  { unfold reply_fields. cbn [fold_left]. unfold add_field. cbn [fst snd]. rewrite Ht. unfold Header_Add, Header_Get, header.
    change (CanonicalMIMEHeaderKey hdrKeyWSAccept) with (CanonicalMIMEHeaderKey (str "Sec-Websocket-Accept")).
    cbv zeta. rewrite lookup_insert_eq, !lookup_insert_ne by (vm_compute; discriminate). by rewrite lookup_empty. }
  rewrite Hg. case_decide as Ha; [rewrite bool_decide_true by done|rewrite bool_decide_false by done]; done.
Qed.

Definition host_ok (host : list Z) : Prop := value_ok host /\ (5 <= length host)%nat.

Lemma request_parsed spare h0 path rawQuery host r0 r1 : path_ok (handshake_path path rawQuery) -> host_ok host ->
  let key := generateHandshakeKey r0 r1 in
  exists h, parse spare h0 (handshake_request path rawQuery host key []) = Ok h /\ URI h = handshake_path path rawQuery /\
    Host h = host /\ Key h = key.
Proof.
  intros Hpath [Hhost Hlen] key. destruct (key_text r0 r1) as [Hkl Hk]. fold key in Hkl, Hk.
  destruct (b64_field key) as (_ & H10 & H13 & _); [by destruct key|done|]. rewrite client_request.
  set (hs := client_headers host key).
  assert (Hok : headers_ok hs).
  { assert (Hn : forall k, bool_decide (k ≠ [] /\ (58 ∉ k) /\ (13 ∉ k)) = true -> name_ok k) by (intros k E; by apply bool_decide_eq_true in E).
    assert (Hw : forall v, bool_decide (v ≠ [] /\ (10 ∉ v) /\ (13 ∉ v)) = true -> value_ok v) by (intros v E; by apply bool_decide_eq_true in E).
    unfold headers_ok, hs, client_headers. constructor; [split; [by apply Hn|exact Hhost]|].
    do 2 (constructor; [split; [by apply Hn|by apply Hw]|]).
    constructor; [split; [by apply Hn|split; [by destruct key|done]]|]. constructor; [split; [by apply Hn|by apply Hw]|done]. }
  assert (Hl : (126 <= length (lines_of hs))%nat).
  { unfold lines_of, hs, client_headers. cbn [fmap list_fmap concat]. unfold line_of. rewrite !length_app. cbn [fst snd]. rewrite Hkl. cbn [length]. cbn. lia. }
  pose proof (parse_accepts spare h0 _ hs [] Hpath Hok Hl) as Hp.
  assert (Hval : values hdrKeyHost hs = [host] /\ values hdrKeyConnection hs = [str "Upgrade"] /\ values hdrKeyUpgrade hs = [str "websocket"] /\
    values hdrKeyWSKey hs = [key] /\ values hdrKeyWSVersion hs = [str "13"] /\ values hdrKeyWSExtensions hs = [] /\ values hdrKeyWSProtocol hs = []).
  { unfold values, hs, client_headers. cbn [List.filter fst snd]. repeat split; reflexivity. }
  destruct Hval as (V1 & V2 & V3 & V4 & V5 & V6 & V7).
  destruct (parse spare h0 _) as [h|e| |] eqn:E; try done.
  - destruct Hp as (_ & Hu & Hh & Hk' & _). rewrite V1 in Hh. rewrite V4 in Hk'. injection Hh as Hh. injection Hk' as Hk'. by exists h.
  - destruct Hp. split; [by exists host|exists (str "Upgrade"); done|exists (str "websocket"); done|by exists key|done|by rewrite V6; cbn; lia|by rewrite V7; cbn; lia].
Qed.

(** C8: the client and the server connect, whatever the two numbers that make the key:
    the server takes the request of the client and adds it, and the client takes the
    reply of the server, and keeps what came after it. The host has five bytes or more. *)
Theorem connects {Ctx} (Background : Ctx) spare h0 path rawQuery host r0 r1 rest :
  path_ok (handshake_path path rawQuery) -> host_ok host ->
  let key := generateHandshakeKey r0 r1 in
  exists sent, upgrader Background None spare h0 (handshake_request path rawQuery host key []) = Ok (Added sent Background) /\
    handleHandshake (generateHandshakeAccept key) (sent ++ rest) = Ok rest.
Proof.
  intros Hpath Hhost key. destruct (request_parsed spare h0 path rawQuery host r0 r1 Hpath Hhost) as (h & Hp & _ & _ & Hk).
  exists (upgrade_reply key). split; [|by rewrite reply_taken, decide_True]. unfold upgrader.
  assert (Hne : handshake_request path rawQuery host key [] ≠ []) by done.
  destruct (handshake_request path rawQuery host key []) eqn:E; [done|]. rewrite <- E. clear Hne.
  unfold handleUpgrade. fold key in Hp, Hk. rewrite Hp. by rewrite Hk.
Qed.

(** The request of a client to a host of one letter is refused for its length. *)
Example short_host_refused : upgrader tt None 0 (HS 0 0 [] [] [] [] [] [] ∅) (handshake_request [] [] (str "h") (generateHandshakeKey 1 2) [])
  = Ok (Refused (error_reply 400 (hs_text ErrRequestLength))).
Proof. vm_compute. reflexivity. Qed.
(** A connection that is closed before the reply makes the client panic. *)
Example no_reply_panics : handleHandshake (generateHandshakeAccept (generateHandshakeKey 1 2)) [] = Panic.
Proof. vm_compute. reflexivity. Qed.

Lemma connects_witness : exists sent,
  upgrader 7 None 0 (HS 0 0 [] [] [] [] [] [] ∅) (handshake_request (str "/chat") (str "a=b") (str "localhost:80") (generateHandshakeKey 1 2) []) = Ok (Added sent 7) /\
  handleHandshake (generateHandshakeAccept (generateHandshakeKey 1 2)) (sent ++ [129; 0]) = Ok [129; 0].
Proof.
  apply (connects 7 0 (HS 0 0 [] [] [] [] [] [] ∅) (str "/chat") (str "a=b") (str "localhost:80") 1 2 [129; 0]).
  - unfold path_ok. apply (bool_decide_unpack _). vm_compute. exact I.
  - unfold host_ok, value_ok. apply (bool_decide_unpack _). vm_compute. exact I.
Defined.
