(* ===== verification/WsClient.v ===== *)
(** Package [lib/websocket], file [client.go]: what the client does with the bytes
    that it receives once it is connected, and what it sends.

    The handlers of the application are recorded where they are called, like those
    of the server; that [HandleText] or [HandleBin] gives an error is a parameter.
    A mask is drawn for every frame that is built, also where it is not sent. *)

From Stdlib Require Import ZArith Lia.
From S2P Require Import Prelude Utf8 WsFrame.

Local Open Scope Z_scope.

(** What the application set before [Connect], and whether its handlers of messages
    give an error. *)
Record config : Type := {
  handlePong : bool;
  HandleQuit : bool;
  HandleRsvControl : bool;
  allowRsv1 : bool;
  allowRsv2 : bool;
  allowRsv3 : bool;
  text_fails : list Z -> bool;
  bin_fails : list Z -> bool
}.

Inductive event : Type :=
| Sent (packet : list Z)
| HandleText (payload : list Z)
| HandleBin (payload : list Z)
| CallPong (f : Frame)
| CallRsvControl (f : Frame)
| Closed
| CallQuit.

Record Client : Type := Cl {
  conn : bool;                       (** [cl.conn] is not nil *)
  cl_frame : option Frame;
  cl_frames : option (list Frame);
  drawn : nat;                       (** the masks drawn *)
  events : list event
}.
Definition set_conn (c : Client) v := Cl v (cl_frame c) (cl_frames c) (drawn c) (events c).
Definition set_frame (c : Client) v := Cl (conn c) v (cl_frames c) (drawn c) (events c).
Definition set_frames (c : Client) v := Cl (conn c) (cl_frame c) v (drawn c) (events c).
Definition log (c : Client) (e : event) := Cl (conn c) (cl_frame c) (cl_frames c) (drawn c) (events c ++ [e]).
Definition draw (c : Client) := Cl (conn c) (cl_frame c) (cl_frames c) (S (drawn c)) (events c).

Section WsClient.
Context (cfg : config).
(** The numbers that are drawn, and whether writing fails. *)
Context (rnd : nat -> Z) (broken : bool).

(** [send]: true when there is no error. *)
Definition send (c : Client) (packet : list Z) : Client * bool :=
  if negb (conn c) then (c, false) else if broken then (c, false) else (log c (Sent packet), true).

Definition SendBin (c : Client) (payload : list Z) := send (draw c) (NewFrameBin (rnd (drawn c)) true payload).
Definition SendText (c : Client) (payload : list Z) := send (draw c) (NewFrameText (rnd (drawn c)) true payload).
Definition SendPing (c : Client) (payload : list Z) := send (draw c) (NewFramePing (rnd (drawn c)) true payload).
Definition SendPong (c : Client) (payload : list Z) := send (draw c) (NewFramePong (rnd (drawn c)) true payload).
Definition SendClose (c : Client) (status : Z) (payload : list Z) := send (draw c) (NewFrameClose (rnd (drawn c)) true status payload).

(** [Quit]: closing does not fail. *)
Definition Quit (c : Client) : Client :=
  if negb (conn c) then c
  else
    let c := set_conn (log c Closed) false in
    if HandleQuit cfg then log c CallQuit else c.

(** [handleBadRequest] and [handleInvalidData]. *)
Definition handleBadRequest (c : Client) : Client := (SendClose c StatusBadRequest []).1.
Definition handleInvalidData (c : Client) : Client := (SendClose c StatusInvalidData []).1.

(** [clientOnClose]. *)
Definition close_reply (code : Z) : Z :=
  if code =? 0 then StatusBadRequest
  else if code <? StatusNormal then StatusBadRequest
  else if code =? 1004 then StatusBadRequest
  else if code =? 1005 then StatusBadRequest
  else if code =? 1006 then StatusBadRequest
  else if (1015 <=? code) && (code <=? 2999) then StatusBadRequest
  else code.
Definition clientOnClose (c : Client) (f : Frame) : Client :=
  let code := close_reply (closeCode f) in
  let '(code, payload) :=
    match payload f with
    | _ :: _ :: rest => (if Valid rest then code else StatusBadRequest, rest)
    | short => (code, short)
    end in
  Quit (SendClose c code payload).1.
(** [clientOnPing]. *)
Definition clientOnPing (c : Client) (f : Frame) : Client := (SendPong c (payload f)).1.

(** The handlers of messages; true when the frame is invalid. *)
Definition deliver (c : Client) (f : Frame) : Client * bool :=
  if opcode f =? OpcodeText then
    if negb (Valid (payload f)) then (handleInvalidData c, true)
    else
      let c := log c (HandleText (payload f)) in
      if text_fails cfg (payload f) then (handleBadRequest c, true) else (c, false)
  else
    let c := log c (HandleBin (payload f)) in
    if bin_fails cfg (payload f) then (handleBadRequest c, true) else (c, false).

Definition unfinished (f : Frame) : bool := Z.of_nat (length (payload f)) <? len f.

(** [handleFragment]. *)
Definition handleFragment (c : Client) (f : Frame) : outcome unit (Client * bool) :=
  let fs := cl_frames c in
  if (match fs with None => opcode f =? OpcodeCont | Some _ => negb (opcode f =? OpcodeCont) end) then
    Ok (handleBadRequest c, true)
  else if fin f =? 0 then
    if unfinished f then Ok (set_frame c (Some f), false)
    else Ok (set_frame (set_frames c (Some (Append (default [] fs) (Some f)))) None, false)
  else if bool_decide (cl_frame c = None) && unfinished f then Ok (set_frame c (Some f), false)
  else
    f ← match fs with Some l => frames_fin l (Some f) | None => Ok f end;
    Ok (deliver (set_frames (set_frame c None) None) f).

(** [handleFrame]: true when the client is closing. *)
Definition handleFrame (c : Client) (f : Frame) : outcome unit (Client * bool) :=
  if negb (isValid f false (allowRsv1 cfg) (allowRsv2 cfg) (allowRsv3 cfg)) then Ok (handleBadRequest c, true)
  else
    let op := opcode f in
    if (op =? OpcodeCont) || (op =? OpcodeText) || (op =? OpcodeBin) then handleFragment c f
    else if (3 <=? op) && (op <=? 7) then Ok (handleBadRequest c, true)
    else if op =? OpcodeClose then Ok (clientOnClose c f, true)
    else if op =? OpcodePing then Ok (clientOnPing c f, false)
    else if op =? OpcodePong then Ok (if handlePong cfg then log c (CallPong f) else c, false)
    else if HandleRsvControl cfg then Ok (log c (CallRsvControl f), false)
    else Ok (clientOnClose c f, true).

(** [handleRaw] *)
Fixpoint handle_frames (c : Client) (fs : list Frame) : outcome unit (Client * bool) :=
  match fs with
  | [] => Ok (c, false)
  | f :: fs =>
      if negb (isComplete f) then handle_frames (set_frame c (Some f)) fs
      else
        '(c, isClosing) ← handleFrame c f;
        if (isClosing : bool) then Ok (c, true) else handle_frames c fs
  end.
Definition handleRaw (c : Client) (packet : list Z) : outcome unit (Client * bool) :=
  fs ← Unpack packet;
  match fs with
  | None => Ok (c, false)
  | Some fs => handle_frames c fs
  end.

(** [serve]: one round, on what [recv] gives: nothing where the connection was closed
    or could not be read.  True when the loop ends. *)
Definition serve_packet (c : Client) (packet : list Z) : outcome unit (Client * bool) :=
  match packet with
  | [] => Ok (Quit c, true)
  | _ =>
      match cl_frame c with
      | None => handleRaw c packet
      | Some f =>
          '(f, packet) ← unpack f packet;
          '(c, isClosing) ←
            (if isComplete f then handleFrame (set_frame c None) f else Ok (set_frame c (Some f), false));
          if (isClosing : bool) then Ok (c, true)
          else match packet with [] => Ok (c, false) | _ => handleRaw c packet end
      end
  end.
Fixpoint serve (c : Client) (packets : list (list Z)) : outcome unit (Client * bool) :=
  match packets with
  | [] => Ok (c, false)
  | packet :: packets =>
      '(c, isClosing) ← serve_packet c packet;
      if (isClosing : bool) then Ok (c, true) else serve c packets
  end.

(** [Connect] after the handshake, with what came after the reply: true when nothing
    serves the connection. *)
Definition connected (c : Client) (rest : list Z) : outcome unit (Client * bool) :=
  match rest with [] => Ok (c, false) | _ => handleRaw c rest end.

End WsClient.

(** A client that has just connected. *)
Definition newClient : Client := Cl true None None 0 [].
