(* ===== verification/WsClientFacts.v ===== *)
(** Package [lib/websocket]: what a server sends arrives whole at the client.  A
    reference conversation says what the client does with the frames of the server;
    it does so however the stream is cut into packets. *)

From Stdlib Require Import ZArith Lia.
From S2P Require Import Prelude Utf8 WsFrame WsStream WsClient.

Local Open Scope Z_scope.

Section Conversation.
Context (cfg : config) (rnd : nat -> Z).

(** ** The reference conversation

    After a frame the client goes on with the message begun, or stops reading, with
    the connection open or closed. *)
Inductive after : Type := Goes (pend : message) | Stops (open : bool).
Definition stops (a : after) : bool := match a with Goes _ => false | Stops _ => true end.
Definition turn : Type := list event * nat * after.

Definition refused (n : nat) (es : list event) (code : Z) : turn :=
  (es ++ [Sent (NewFrameClose (rnd n) true code [])], S n, Stops true).
Definition farewell (n : nat) (d : piece) : turn :=
  let code := close_reply (if p_op d =? OpcodeClose then close_code (p_data d) else 0) in
  (match p_data d with
   | _ :: _ :: rest => Sent (NewFrameClose (rnd n) true (if Valid rest then code else StatusBadRequest) rest)
   | short => Sent (NewFrameClose (rnd n) true code short)
   end :: Closed :: (if HandleQuit cfg then [CallQuit] else []), S n, Stops false).

Definition whole (n : nat) (op : Z) (p : list Z) : turn :=
  if op =? OpcodeText then
    if negb (Valid p) then refused n [] StatusInvalidData
    else if text_fails cfg p then refused n [HandleText p] StatusBadRequest else ([HandleText p], n, Goes None)
  else if bin_fails cfg p then refused n [HandleBin p] StatusBadRequest else ([HandleBin p], n, Goes None).
Definition fragmented (n : nat) (pend : message) (d : piece) : turn :=
  if bool_decide (is_Some pend) && negb (p_op d =? OpcodeCont) || negb (bool_decide (is_Some pend)) && (p_op d =? OpcodeCont)
  then refused n [] StatusBadRequest
  else if negb (p_fin d) then ([], n, Goes (Some (join pend d)))
  else whole n (join pend d).1 (join pend d).2.
Definition talk1 (n : nat) (pend : message) (d : piece) : turn :=
  let op := p_op d in
  if p_masked d || (OpcodeClose <=? op) && (negb (p_fin d) || (125 <? Z.of_nat (length (p_data d)))) then refused n [] StatusBadRequest
  else if op <=? OpcodeBin then fragmented n pend d
  else if op <? OpcodeClose then refused n [] StatusBadRequest
  else if op =? OpcodeClose then farewell n d
  else if op =? OpcodePing then ([Sent (NewFramePong (rnd n) true (p_data d))], S n, Goes pend)
  else if op =? OpcodePong then (if handlePong cfg then [CallPong (seen d)] else [], n, Goes pend)
  else if HandleRsvControl cfg then ([CallRsvControl (seen d)], n, Goes pend)
  else farewell n d.
Fixpoint talk (n : nat) (pend : message) (ds : list piece) : turn :=
  match ds with
  | [] => ([], n, Goes pend)
  | d :: ds =>
      match talk1 n pend d with
      | (es, n, Goes pend) => let '(es', n, a) := talk n pend ds in (es ++ es', n, a)
      | t => t
      end
  end.

Lemma client_talk_app ds1 ds2 : forall n pend,
  talk n pend (ds1 ++ ds2) =
    match talk n pend ds1 with
    | (es, n, Goes pend) => let '(es', n, a) := talk n pend ds2 in (es ++ es', n, a)
    | t => t
    end.
Proof.
  induction ds1 as [|d ds1 IH]; intros n pend; cbn [talk app]; [by destruct (talk n pend ds2) as [[]]|].
  destruct (talk1 n pend d) as [[es n1] [pend1|]]; [|done]. rewrite IH.
  destruct (talk n1 pend1 ds1) as [[es1 n2] [pend2|]]; [|done]. destruct (talk n2 pend2 ds2) as [[]]. by rewrite (assoc_L (++)).
Qed.

(** ** The client has the conversation *)

Definition at_rest (c : Client) (pend : message) : Prop := conn c = true /\ holds (cl_frames c) pend.

Definition follows (c : Client) (t : turn) (o : outcome unit (Client * bool)) : Prop :=
  let '(es, n, a) := t in
  exists c', o = Ok (c', stops a) /\ events c' = events c ++ es /\ drawn c' = n /\
    match a with Goes pend => at_rest c' pend /\ cl_frame c' = None | Stops b => conn c' = b end.

Lemma send_open c p : conn c = true -> send false c p = (log c (Sent p), true).
Proof. intros Hc. unfold send. by rewrite Hc. Qed.

Lemma refused_follows c0 c n es code : conn c = true -> drawn c = n -> events c = events c0 ++ es ->
  follows c0 (refused n es code) (Ok ((SendClose rnd false c code []).1, true)).
Proof.
  intros Hc <- He. eexists. split; [reflexivity|]. unfold SendClose. rewrite send_open by done. cbn. split; [by rewrite He, <- (assoc_L (++))|].
  by split.
Qed.

Lemma farewell_follows c d : conn c = true -> follows c (farewell (drawn c) d) (Ok (clientOnClose cfg rnd false c (seen d), true)).
Proof.
  intros Hc. unfold clientOnClose, farewell. cbv zeta. cbn [payload closeCode seen sent_fragment].
  destruct (p_data d) as [|b0 [|b1 rest]]; eexists; (split; [reflexivity|]); unfold SendClose, Quit; rewrite send_open by done; cbn; rewrite Hc; cbn;
    destruct (HandleQuit cfg); cbn; rewrite <- ?(assoc_L (++)); done.
Qed.

Lemma client_deliver_follows c0 c f : conn c = true -> cl_frames c = None -> cl_frame c = None -> events c = events c0 ->
  follows c0 (whole (drawn c) (opcode f) (payload f)) (Ok (deliver cfg rnd false c f)).
Proof.
  intros Hc Hfs Hf He. unfold deliver, whole, handleInvalidData, handleBadRequest.
  assert (Hgo : forall e, follows c0 ([e], drawn c, Goes None) (Ok (log c e, false))).
  { intros e. eexists. split; [reflexivity|]. cbn. rewrite He. do 2 (split; [done|]). split; [|done]. split; [done|]. cbn. by rewrite Hfs. }
  destruct (opcode f =? OpcodeText).
  - destruct (negb _); [apply refused_follows; [done..|by rewrite He, app_nil_r]|].
    destruct (text_fails cfg (payload f)); [|apply Hgo]. apply refused_follows; try done. cbn. by rewrite He.
  - destruct (bin_fails cfg (payload f)); [|apply Hgo]. apply refused_follows; try done. cbn. by rewrite He.
Qed.

Lemma client_isValid_seen d : isValid (seen d) false (allowRsv1 cfg) (allowRsv2 cfg) (allowRsv3 cfg)
  = negb (p_masked d || (OpcodeClose <=? p_op d) && (negb (p_fin d) || (125 <? Z.of_nat (length (p_data d))))).
Proof.
  unfold isValid. cbn [masked rsv1 rsv2 rsv3 opcode fin len seen sent_fragment]. destruct (p_masked d); [done|].
  cbn [negb andb orb Z.ltb Z.compare frameIsMasked Z.eqb Pos.eqb].
  destruct (OpcodeClose <=? p_op d); [|done]. unfold fin_bit, frameSmallPayload. destruct (p_fin d); cbn; [|done]. by destruct (_ <? _).
Qed.

Lemma client_handleFragment_follows c pend d : at_rest c pend -> cl_frame c = None ->
  follows c (fragmented (drawn c) pend d) (handleFragment cfg rnd false c (seen d)).
Proof.
  intros [Hc Hh] Hf. unfold handleFragment, fragmented. cbv zeta.
  assert (Hu : unfinished (seen d) = false) by (unfold unfinished; cbn; apply Z.ltb_irrefl). rewrite Hu, andb_false_r.
  cbn [opcode fin seen sent_fragment].
  assert (Hp : bool_decide (is_Some pend) = bool_decide (is_Some (cl_frames c))).
  { apply bool_decide_ext. destruct (cl_frames c) as [[|]|], pend as [[]|]; try done; split; intros; by eexists. }
  rewrite Hp. set (fs := cl_frames c) in *.
  replace (match fs with None => _ | Some _ => _ end) with
    (bool_decide (is_Some fs) && negb (p_op d =? OpcodeCont) || negb (bool_decide (is_Some fs)) && (p_op d =? OpcodeCont))
    by (destruct fs; cbn; [by rewrite orb_false_r|done]).
  destruct (_ || _) eqn:Ebad; [apply refused_follows; [done..|by rewrite app_nil_r]|].
  assert (Hop : fs ≠ None -> p_op d = OpcodeCont).
  { intros Hne. destruct fs; [|done]. rewrite bool_decide_true in Ebad by (by eexists). cbn in Ebad.
    rewrite orb_false_r in Ebad. apply negb_false_iff in Ebad. by apply Z.eqb_eq. }
  assert (Hfin : (fin_bit d =? 0) = negb (p_fin d)) by (unfold fin_bit; by destruct (p_fin d)). rewrite Hfin.
  destruct (negb (p_fin d)).
  - eexists. split; [reflexivity|]. cbn. split; [by rewrite app_nil_r|]. split; [done|]. split; [|done]. split; [done|]. by apply holds_snoc.
  - destruct fs as [l|] eqn:Efs.
    + destruct (frames_fin (E := unit) l (Some (seen d))) as [g| | |] eqn:Eg; [|by destruct l..]. cbn [mbind outcome_bind].
      pose proof (holds_join (Some l) pend d g Hh ltac:(done) (Hop ltac:(done)) Eg) as Hj. rewrite <- Hj. by apply (client_deliver_follows c (set_frames (set_frame c None) None)).
    + cbn [mbind outcome_bind]. destruct pend as [[]|]; [done|]. by apply (client_deliver_follows c (set_frames (set_frame c None) None) (seen d)).
Qed.

Lemma client_handleFrame_follows c pend d : at_rest c pend -> cl_frame c = None -> 0 <= p_op d < 16 ->
  follows c (talk1 (drawn c) pend d) (handleFrame cfg rnd false c (seen d)).
Proof.
  intros Hr Hf Hop. unfold handleFrame, talk1. rewrite client_isValid_seen, negb_involutive. cbv zeta.
  pose proof (proj1 Hr) as Hc. cbn [opcode seen sent_fragment].
  assert (Hbad : follows c (refused (drawn c) [] StatusBadRequest) (Ok (handleBadRequest rnd false c, true)))
    by (apply refused_follows; [done..|by rewrite app_nil_r]).
  destruct (_ || _) eqn:Ev; [exact Hbad|].
  destruct (Z.leb_spec (p_op d) OpcodeBin) as [Hd|Hd]; unfold OpcodeBin, OpcodeText, OpcodeCont, OpcodeClose in *.
  { replace ((p_op d =? 0) || (p_op d =? 1) || (p_op d =? 2)) with true by (symmetry; rewrite !orb_true_iff, !Z.eqb_eq; lia).
    by apply client_handleFragment_follows. }
  replace ((p_op d =? 0) || (p_op d =? 1) || (p_op d =? 2)) with false by (symmetry; rewrite !orb_false_iff, !Z.eqb_neq; lia).
  replace ((3 <=? p_op d) && (p_op d <=? 7)) with (p_op d <? 8) by (apply eq_bool_prop_intro; rewrite andb_True, !Is_true_true, Z.ltb_lt, !Z.leb_le; lia).
  destruct (Z.ltb_spec (p_op d) 8); [exact Hbad|]. destruct (p_op d =? 8); [by apply farewell_follows|].
  assert (Hgo : forall es c', events c' = events c ++ es -> at_rest c' pend -> cl_frame c' = None -> follows c (es, drawn c', Goes pend) (Ok (c', false))) by (intros; by eexists).
  destruct (p_op d =? OpcodePing).
  { unfold clientOnPing, SendPong. rewrite send_open by done. by apply (Hgo _ (log (draw c) (Sent _))). }
  destruct (p_op d =? OpcodePong).
  { destruct (handlePong cfg); [by apply (Hgo _ (log c _))|]. apply (Hgo _ c); try done. by rewrite app_nil_r. }
  destruct (HandleRsvControl cfg); [by apply (Hgo _ (log c _))|by apply farewell_follows].
Qed.

Lemma client_handle_frames_follows ds : forall c pend, at_rest c pend -> cl_frame c = None -> Forall regular ds ->
  follows c (talk (drawn c) pend ds) (handle_frames cfg rnd false c (seen <$> ds)).
Proof.
  induction ds as [|d ds IH]; intros c pend Hr Hf Hall; [exists c; cbn; by rewrite app_nil_r|].
  apply Forall_cons in Hall as [[Hop Hlen] Hall]. rewrite fmap_cons. cbn [handle_frames talk isComplete seen sent_fragment negb].
  pose proof (client_handleFrame_follows c pend d Hr Hf Hop) as H1. destruct (talk1 (drawn c) pend d) as [[es n] a].
  destruct H1 as (c1 & -> & He & <- & Ha). cbn [mbind outcome_bind]. destruct a as [pend1|b]; cbn [stops]; [|by exists c1].
  destruct Ha as [Hr1 Hf1]. specialize (IH c1 pend1 Hr1 Hf1 Hall). destruct (talk (drawn c1) pend1 ds) as [[es2 n2] a2].
  destruct IH as (c2 & -> & He2 & Hn2 & Ha2). exists c2. by rewrite He2, He, <- (assoc_L (++)).
Qed.

Lemma client_handle_frames_app fs1 fs2 : forall c,
  handle_frames cfg rnd false c (fs1 ++ fs2)
  = ('(c, isClosing) ← handle_frames cfg rnd false c fs1;
     if (isClosing : bool) then Ok (c, true) else handle_frames cfg rnd false c fs2).
Proof.
  induction fs1 as [|f fs1 IH]; intros c; cbn [handle_frames app]; [done|].
  destruct (negb (isComplete f)); [apply IH|].
  destruct (handleFrame _ _ _ c f) as [[c' b]| | |]; try done. cbn [mbind outcome_bind]. destruct b; [done|apply IH].
Qed.

(** ** Packets *)

Inductive resumes (c : Client) (q : list Z) : list piece -> Prop :=
| resumes_none ds : cl_frame c = None -> q = stream ds -> resumes c q ds
| resumes_mid d f r ds : cl_frame c = Some f -> midway d f r -> q = r ++ stream ds -> resumes c q (d :: ds).

(** A packet of which [ds] are the frames to come, and [q] the bytes after it. *)
Definition reads (c : Client) (pend : message) (ds : list piece) (q : list Z) (o : outcome unit (Client * bool)) : Prop :=
  exists ds1 ds2 c', ds = ds1 ++ ds2 /\
    let '(es, n, a) := talk (drawn c) pend ds1 in
    o = Ok (c', stops a) /\ events c' = events c ++ es /\ drawn c' = n /\
    match a with Goes pend' => at_rest c' pend' /\ resumes c' q ds2 | Stops b => conn c' = b end.

Lemma handleRaw_reads c pend ds p q : at_rest c pend -> cl_frame c = None -> Forall regular ds ->
  p ++ q = stream ds -> is_bytes p -> p ≠ [] -> reads c pend ds q (handleRaw cfg rnd false c p).
Proof.
  intros Hr Hf Hall Hp Hb Hne. unfold handleRaw, Unpack. destruct p as [|b p]; [done|].
  destruct (Unpack_loop_stream ds (length (b :: p)) (b :: p) q [] Hall Hp Hb (le_n _)) as (ds1 & ds2 & tl & -> & Hcut & ->).
  apply Forall_app in Hall as [Hall1 _]. cbn [mbind outcome_bind app]. rewrite client_handle_frames_app.
  pose proof (client_handle_frames_follows ds1 c pend Hr Hf Hall1) as H1. exists ds1, ds2.
  destruct (talk (drawn c) pend ds1) as [[es n] a]. destruct H1 as (c1 & -> & He & Hn & Ha). cbn [mbind outcome_bind].
  destruct a as [pend1|b1]; cbn [stops]; [|by exists c1]. destruct Ha as [Hr1 Hf1].
  destruct Hcut as [Hq|d f r ds' -> Hm Hi Hq].
  - exists c1. cbn. do 4 (split; [done|]). split; [done|]. by apply resumes_none.
  - cbn [handle_frames]. rewrite Hi. cbn [negb]. exists (set_frame c1 (Some f)). do 4 (split; [done|]). split; [done|]. by apply (resumes_mid _ _ d f r).
Qed.

Lemma client_reads_more c pend d ds q c1 o es pend1 :
  talk1 (drawn c) pend d = (es, drawn c1, Goes pend1) -> events c1 = events c ++ es ->
  reads c1 pend1 ds q o -> reads c pend (d :: ds) q o.
Proof.
  intros Ht He (ds1 & ds2 & c' & -> & H). exists (d :: ds1), ds2, c'. split; [done|]. cbn [talk]. rewrite Ht.
  destruct (talk (drawn c1) pend1 ds1) as [[es1 n1] a]. destruct H as (Ho & He' & Hn & Ha). split; [done|]. split; [|done].
  by rewrite He', He, <- (assoc_L (++)).
Qed.

Lemma serve_packet_reads c pend ds p q : at_rest c pend -> Forall regular ds -> resumes c (p ++ q) ds ->
  is_bytes p -> p ≠ [] -> reads c pend ds q (serve_packet cfg rnd false c p).
Proof.
  intros Hr Hall Hres Hb Hne. unfold serve_packet.
  destruct Hres as [ds Hf Hq|d f r ds Hf Hm Hq]; rewrite Hf.
  { destruct p as [|b p]; [done|]. by apply handleRaw_reads. }
  apply Forall_cons in Hall as [[Hop Hlen] Hall].
  destruct (resume_packet d f r ds p q Hm Hq Hb Hne) as (g & p' & Hg & Hcase).
  destruct p as [|b p]; [done|]. rewrite Hg. cbn [mbind outcome_bind].
  destruct Hcase as [(r' & -> & Hmg & Hi & ->)|(-> & Hp' & Hb')].
  - rewrite Hi. cbn [mbind outcome_bind]. exists [], (d :: ds), (set_frame c (Some g)). cbn. split; [done|]. split; [done|].
    split; [by rewrite app_nil_r|]. split; [done|]. split; [done|]. by apply (resumes_mid _ _ d g r').
  - cbn [isComplete seen sent_fragment].
    pose proof (client_handleFrame_follows (set_frame c None) pend d Hr eq_refl Hop) as H1. cbn [drawn set_frame] in H1.
    destruct (talk1 (drawn c) pend d) as [[es n] a] eqn:Et. destruct H1 as (c1 & -> & He & <- & Ha). cbn [mbind outcome_bind].
    destruct a as [pend1|b1]; cbn [stops].
    2: { exists [d], ds, c1. cbn [talk]. rewrite Et. by split. }
    destruct Ha as [Hr1 Hf1]. destruct p' as [|b' p'].
    + eapply client_reads_more; [done|exact He|]. exists [], ds, c1. cbn. split; [done|]. split; [done|].
      split; [by rewrite app_nil_r|]. split; [done|]. split; [done|]. by apply resumes_none.
    + eapply client_reads_more; [done|exact He|]. by apply handleRaw_reads.
Qed.

Lemma serve_reads chunks : forall c pend ds, at_rest c pend -> Forall regular ds ->
  resumes c (concat chunks) ds -> is_bytes (concat chunks) -> Forall (fun p => p ≠ []) chunks ->
  let '(es, n, a) := talk (drawn c) pend ds in
  exists c', serve cfg rnd false c chunks = Ok (c', stops a) /\ events c' = events c ++ es /\
    conn c' = match a with Goes _ => true | Stops b => b end.
Proof.
  induction chunks as [|p chunks IH]; intros c pend ds Hr Hall Hres Hb Hne; cbn [serve concat] in *.
  { assert (ds = []) as ->.
    { destruct Hres as [ds _ Hq|d f r ds _ Hm Hq].
      - destruct ds as [|d ds]; [done|]. rewrite stream_cons in Hq. by destruct (wire_cons d) as (? & ? & ? & Hw); rewrite Hw in Hq.
      - symmetry in Hq. apply app_nil in Hq as [-> _]. by destruct Hm. }
    cbn. exists c. rewrite app_nil_r. split; [done|]. split; [done|apply Hr]. }
  apply Forall_cons in Hne as [Hp Hne]. apply Forall_app in Hb as [Hbp Hb].
  destruct (serve_packet_reads c pend ds p (concat chunks) Hr Hall Hres Hbp Hp) as (ds1 & ds2 & c1 & -> & H1).
  rewrite client_talk_app. apply Forall_app in Hall as [_ Hall]. destruct (talk (drawn c) pend ds1) as [[es n] a].
  destruct H1 as (-> & He & <- & Ha). cbn [mbind outcome_bind]. destruct a as [pend1|b1]; cbn [stops]; [|by exists c1].
  destruct Ha as [Hr1 Hres1]. specialize (IH c1 pend1 ds2 Hr1 Hall Hres1 Hb Hne). destruct (talk (drawn c1) pend1 ds2) as [[es2 n2] a2].
  destruct IH as (c2 & -> & He2 & Hc2). exists c2. by rewrite He2, He, <- (assoc_L (++)).
Qed.

End Conversation.

(** C9: what a server sends arrives whole at the client.  However the bytes of its
    frames are cut into packets, the client calls its handlers, answers pings and
    closes, and refuses the first frame that it does not accept (a masked one too),
    as in the reference conversation; after a refusal it stops reading and leaves the
    connection open.  No payload has 127 bytes. *)
Theorem client_messages_whole cfg rnd c ds chunks : conn c = true -> cl_frame c = None -> cl_frames c = None ->
  Forall regular ds -> Forall (fun p => p ≠ []) chunks -> is_bytes (concat chunks) -> concat chunks = stream ds ->
  let '(es, _, a) := talk cfg rnd (drawn c) None ds in
  exists c', serve cfg rnd false c chunks = Ok (c', stops a) /\ events c' = events c ++ es /\
    conn c' = match a with Goes _ => true | Stops b => b end.
Proof.
  intros Hc Hf Hfs Hall Hne Hb Hs. apply serve_reads; try done; [|by apply resumes_none]. split; [done|]. by rewrite Hfs.
Qed.

(** A text in two frames with a ping between them, cut in four, then a frame that is
    masked: the client refuses it, and stays connected without reading. *)
Definition demo_cfg : config := {|
  handlePong := false; HandleQuit := true; HandleRsvControl := false; allowRsv1 := false; allowRsv2 := false; allowRsv3 := false;
  text_fails := fun _ => false; bin_fails := fun _ => false
|}.
Definition demo_pieces : list piece :=
  [Piece false 0 false OpcodeText [104; 101]; Piece false 0 true OpcodePing [1]; Piece false 0 true OpcodeCont [108; 108; 111];
   Piece true 7 true OpcodeText [33]].
Definition demo_chunks : list (list Z) := let s := stream demo_pieces in [take 1 s; take 4 (drop 1 s); take 5 (drop 5 s); drop 10 s].

Lemma client_messages_whole_witness :
  exists c', serve demo_cfg (fun _ => 0) false newClient demo_chunks = Ok (c', true) /\
    events c' = [Sent (NewFramePong 0 true [1]); HandleText [104; 101; 108; 108; 111]; Sent (NewFrameClose 0 true StatusBadRequest [])] /\
    conn c' = true.
Proof.
  apply (client_messages_whole demo_cfg (fun _ => 0) newClient demo_pieces demo_chunks).
  - reflexivity.
  - reflexivity.
  - reflexivity.
  - repeat constructor; vm_compute; done.
  - repeat constructor; vm_compute; discriminate.
  - apply (bool_decide_unpack _). vm_compute. exact Logic.I.
  - vm_compute. reflexivity.
Defined.
