(* ===== verification/Strings.v ===== *)
(** Package [lib/strings], files [strings.go] and part of [string.go]: lists of
    strings and the spaces of a text.  Strings are byte lists; the frequencies,
    which are floating-point numbers, are not modelled. *)

From Stdlib Require Import ZArith Lia.
From S2P Require Import Prelude Ascii Utf8 Ints.

Local Open Scope Z_scope.

Abbreviation text := (list Z).

Section Strings.
Context `{Unicode}.

(** ** Lists of strings *)

Fixpoint IsContain (ss : list text) (el : text) : bool :=
  match ss with
  | [] => false
  | s :: ss => if bool_decide (s = el) then true else IsContain ss el
  end.

(** [AppendUniq]: its inner loop is [IsContain]. *)
Fixpoint AppendUniq (inp vals : list text) : list text :=
  match vals with
  | [] => inp
  | v :: vals => if IsContain inp v then AppendUniq inp vals else AppendUniq (inp ++ [v]) vals
  end.

Fixpoint CountToken_loop (words : list text) (token : text) (sensitive : bool) (cnt : nat) : nat :=
  match words with
  | [] => cnt
  | v :: words =>
      let v := if sensitive then v else text_ToLower v in
      CountToken_loop words token sensitive (if bool_decide (v = token) then S cnt else cnt)
  end.
Definition CountToken (words : list text) (token : text) (sensitive : bool) : nat :=
  CountToken_loop words (if sensitive then token else text_ToLower token) sensitive 0.

Definition CountTokens (words tokens : list text) (sensitive : bool) : list nat :=
  (fun t => CountToken words t sensitive) <$> tokens.

(** [IsEqual]: every element of [a] is one of [b]. *)
Definition IsEqual (a b : list text) : bool :=
  if decide (length a = length b) then forallb (fun ls => IsContain b ls) a else false.

Fixpoint Longest_loop (words : list text) (x : nat) (out : text) (idx : Z) : text * Z :=
  match words with
  | [] => (out, idx)
  | w :: words =>
      if decide (length out < length w)%nat then Longest_loop words (S x) w (Z.of_nat x) else Longest_loop words (S x) out idx
  end.
Definition Longest (words : list text) : text * Z :=
  match words with
  | [] => ([], -1)
  | _ => Longest_loop words 0 [] 0
  end.

Definition MostFrequentTokens (words tokens : list text) (sensitive : bool) : outcome unit text :=
  match words, tokens with
  | [], _ | _, [] => Ok []
  | _, _ => get_at tokens (Max (Z.of_nat <$> CountTokens words tokens sensitive)).1.2
  end.

(** [Uniq] clears the repetitions in the slice it is given, so the slice is a
    result too. *)
Definition fold_case (sensitive : bool) (w : text) : text := if sensitive then w else text_ToLower w.

Definition clear_same (sensitive : bool) (xcmp w : text) : text :=
  if bool_decide (w = []) then w else if bool_decide (xcmp = fold_case sensitive w) then [] else w.

Fixpoint Uniq_loop (n : nat) (words : list text) (sensitive : bool) : list text * list text :=
  match n, words with
  | S n, w :: words =>
      if bool_decide (w = []) then
        let '(uniques, words) := Uniq_loop n words sensitive in (uniques, w :: words)
      else
        let '(uniques, words) := Uniq_loop n (clear_same sensitive (fold_case sensitive w) <$> words) sensitive in
        (w :: uniques, w :: words)
  | _, _ => ([], [])
  end.
Definition Uniq (words : list text) (sensitive : bool) : list text * list text :=
  Uniq_loop (length words) words sensitive.

(** ** Texts *)

(** [string(r)] for a slice of runes. *)
Definition string_of_runes (rs : list Z) : text := concat (EncodeRune <$> rs).
Definition runes_of (s : text) : list Z := snd <$> range_runes s.

Fixpoint MergeSpaces_loop (rs : list Z) (withline isspace isnewline : bool) : list Z :=
  match rs with
  | [] => []
  | v :: rs =>
      let blank := (v =? 32) || (v =? 9) || (v =? 11) || (v =? 12) || (v =? 13) in
      if blank && isspace then MergeSpaces_loop rs withline isspace isnewline
      else if withline && (v =? 10) && isnewline then MergeSpaces_loop rs withline blank isnewline
      else v :: MergeSpaces_loop rs withline blank (if withline then v =? 10 else isnewline)
  end.
Definition MergeSpaces (s : text) (withline : bool) : text :=
  string_of_runes (MergeSpaces_loop (runes_of s) withline false false).

Fixpoint SingleSpace_loop (rs : list Z) (isspace : bool) : list Z :=
  match rs with
  | [] => if isspace then [32] else []
  | r :: rs =>
      if rune_IsSpace r then SingleSpace_loop rs true
      else if isspace then 32 :: r :: SingleSpace_loop rs false
      else r :: SingleSpace_loop rs false
  end.
Definition SingleSpace (s : text) : text := string_of_runes (SingleSpace_loop (runes_of s) false).

(** [Reverse] exchanges the runes from both ends to the middle. *)
Fixpoint Reverse_loop (k : nat) (r : list Z) (x y : nat) : outcome unit (list Z) :=
  match k with
  | O => Ok r
  | S k =>
      rx ← get_at r x;
      ry ← get_at r y;
      r ← set_at r x ry;
      r ← set_at r y rx;
      Reverse_loop k r (S x) (y - 1)
  end.
Definition Reverse (s : text) : outcome unit text :=
  let r := runes_of s in
  r ← Reverse_loop (length r / 2) r 0 (length r - 1); Ok (string_of_runes r).

Fixpoint drop_non_alnum (rs : list Z) : list Z :=
  match rs with
  | [] => []
  | r :: rs' => if IsLetter r || rune_IsDigit r then rs else drop_non_alnum rs'
  end.
Definition TrimNonAlnum (s : text) : text :=
  match drop_non_alnum (runes_of s) with
  | [] => []
  | rs => string_of_runes (rev (drop_non_alnum (rev rs)))
  end.

(** ** Facts on [Uniq] *)

Lemma IsContain_spec ss el : IsContain ss el = true <-> el ∈ ss.
Proof.
  induction ss as [|s ss IH]; cbn [IsContain]; [split; [done|intros Hin; by apply not_elem_of_nil in Hin]|].
  rewrite elem_of_cons. case_bool_decide as Hs; [subst; tauto|]. rewrite IH. split; [tauto|].
  intros [->|?]; [done|done].
Qed.

Lemma fold_case_clear sensitive xcmp w : clear_same sensitive xcmp w ≠ [] ->
  clear_same sensitive xcmp w = w /\ w ≠ [] /\ fold_case sensitive w ≠ xcmp.
Proof. unfold clear_same. repeat case_bool_decide; naive_solver. Qed.

Lemma clear_in sensitive xcmp w (words : list text) : w ≠ [] ->
  w ∈ (clear_same sensitive xcmp <$> words) <-> w ∈ words /\ fold_case sensitive w ≠ xcmp.
Proof.
  intros Hw. rewrite list_elem_of_fmap. split.
  - intros (v & Hv & Hin). assert (Hc : clear_same sensitive xcmp v ≠ []) by congruence.
    apply fold_case_clear in Hc as (Hc & _ & Hf). rewrite Hv, Hc. done.
  - intros [Hin Hf]. exists w. split; [|done]. unfold clear_same.
    rewrite bool_decide_false by done. rewrite bool_decide_false by congruence. done.
Qed.

Lemma clear_sublist sensitive xcmp (words : list text) : forall u : list text, Forall (fun w => w ≠ []) u ->
  u `sublist_of` (clear_same sensitive xcmp <$> words) -> u `sublist_of` words.
Proof.
  induction words as [|v words IH]; intros u Hne Hs; [done|]. rewrite fmap_cons in Hs.
  apply sublist_cons_r in Hs as [Hs|(u' & -> & Hs)]; [by apply sublist_cons, IH|].
  apply Forall_cons in Hne as [Hv Hne]. destruct (fold_case_clear sensitive xcmp v Hv) as (-> & _ & _).
  by apply sublist_skip, IH.
Qed.

Lemma Uniq_loop_spec sensitive n : forall words, (length words <= n)%nat ->
  ((Uniq_loop n words sensitive).1 `sublist_of` words /\ Forall (fun w => w ≠ []) (Uniq_loop n words sensitive).1) /\
  NoDup (fold_case sensitive <$> (Uniq_loop n words sensitive).1) /\
  (forall w, w ∈ words -> w ≠ [] -> fold_case sensitive w ∈ fold_case sensitive <$> (Uniq_loop n words sensitive).1).
Proof.
  induction n as [|n IH]; intros words Hn.
  { destruct words; [|cbn in Hn; lia]. split; [done|]. split; [constructor|intros w Hw; by apply not_elem_of_nil in Hw]. }
  destruct words as [|w words].
  { split; [done|]. split; [constructor|intros w Hw; by apply not_elem_of_nil in Hw]. }
  cbn [Uniq_loop]. cbn in Hn. case_bool_decide as Hw.
  - destruct (IH words ltac:(lia)) as ([H1 H1'] & H2 & H3). destruct (Uniq_loop n words sensitive) as [u ws]. cbn [fst] in *.
    split; [split; [by apply sublist_cons|done]|]. split; [done|].
    intros v Hv Hne. apply elem_of_cons in Hv as [->|Hv]; [done|by apply H3].
  - set (words' := clear_same sensitive (fold_case sensitive w) <$> words).
    destruct (IH words') as ([H1 H1'] & H2 & H3); [unfold words'; rewrite length_fmap; lia|].
    destruct (Uniq_loop n words' sensitive) as [u ws]. cbn [fst] in *.
    assert (Hin : forall v, v ∈ u -> fold_case sensitive v ≠ fold_case sensitive w).
    { intros v Hv. assert (Hne : v ≠ []) by (by eapply Forall_forall in H1'). eapply elem_of_sublist in Hv; [|exact H1].
      apply clear_in in Hv as [? ?]; done. }
    split; [|split].
    + split; [by apply sublist_skip, (clear_sublist sensitive (fold_case sensitive w))|by constructor].
    + rewrite fmap_cons. constructor; [|done]. intros Hbad. apply list_elem_of_fmap in Hbad as (v & Hv & Hvu).
      by destruct (Hin v Hvu).
    + intros v Hv Hne. rewrite fmap_cons. apply elem_of_cons in Hv as [->|Hv]; [by left|].
      destruct (decide (fold_case sensitive v = fold_case sensitive w)) as [->|Hf]; [by left|right].
      apply H3; [|done]. by apply clear_in.
Qed.

(** [Uniq] keeps, in their order, one spelling of each word and leaves the
    empty one out; whatever word is in the list has its equal, up to case when that
    is asked for, in the result. *)
Theorem Uniq_spec words sensitive :
  let '(uniques, _) := Uniq words sensitive in
  NoDup (fold_case sensitive <$> uniques) /\
  uniques `sublist_of` words /\ ([] ∉ uniques) /\
  (forall w, w ∈ words -> w ≠ [] -> fold_case sensitive w ∈ fold_case sensitive <$> uniques).
Proof.
  unfold Uniq. destruct (Uniq_loop_spec sensitive (length words) words) as ([H1 H1'] & H2 & H3); [lia|].
  destruct (Uniq_loop (length words) words sensitive) as [u ws]. cbn [fst] in *. split; [done|].
  split; [done|]. split; [|done]. intros Hbad. by eapply Forall_forall in H1'.
Qed.
End Strings.
