(* ===== verification/Runes.v ===== *)
(** Package [lib/runes]: the search of runes, the removal of what tokens enclose, and the
    difference of two slices.  Runes are numbers. *)

From Stdlib Require Import ZArith Lia.
From S2P Require Import Prelude Ascii Bytes Utf8.

Local Open Scope Z_scope.

(** [Contain]. *)
Fixpoint Contain_loop (s : list Z) (c : Z) (x : Z) : bool * Z :=
  match s with
  | [] => (false, -1)
  | v :: s => if v =? c then (true, x) else Contain_loop s c (x + 1)
  end.
Definition Contain (s : list Z) (c : Z) : bool * Z := Contain_loop s c 0.

(** [Diff]: the runes of one side only, then the last of each. *)
Fixpoint one_side (l r : list Z) : list Z :=
  match l with
  | [] => []
  | v :: l => if (Contain r v).1 then one_side l r else v :: one_side l r
  end.
Fixpoint last_of_each (l : list Z) : list Z :=
  match l with
  | [] => []
  | v :: l => if existsb (fun w => v =? w) l then last_of_each l else v :: last_of_each l
  end.
Definition Diff (l r : list Z) : list Z := last_of_each (one_side l r ++ one_side r l).

(** [FindSpace]. *)
Fixpoint FindSpace_loop (line : list Z) (idx : Z) : Z :=
  match line with
  | [] => -1
  | r :: line => if rune_IsSpace r then idx else FindSpace_loop line (idx + 1)
  end.
Definition FindSpace (line : list Z) (startAt : Z) : Z :=
  let startAt := if startAt <? 0 then 0 else startAt in
  FindSpace_loop (drop (Z.to_nat startAt) line) startAt.

(** [TokenFind]: the loop is the one of [lib/bytes], with no guard before it.  An index below zero
    and an empty token are read as soon as the loop runs. *)
Definition TokenFind (line token : list Z) (startAt : Z) : outcome unit Z :=
  if Z.of_nat (length line) <=? startAt then Ok (-1)
  else if startAt <? 0 then Panic
  else if decide (token = []) then Panic
  else Ok (TokenFind_loop token (drop (Z.to_nat startAt) line) startAt 0 (-1)).

(** [EncloseRemove]. *)
Fixpoint EncloseRemove_rec (fuel : nat) (line leftcap rightcap : list Z) : outcome unit (list Z * bool) :=
  match fuel with
  | O => NoFuel
  | S fuel =>
      lidx ← TokenFind line leftcap 0;
      ridx ← TokenFind line rightcap (lidx + 1);
      if (lidx <? 0) || (ridx <? 0) || (ridx <=? lidx) then Ok (line, false)
      else
        let newline := take (Z.to_nat lidx) line ++ drop (Z.to_nat ridx + length rightcap) line in
        '(newline, _) ← EncloseRemove_rec fuel newline leftcap rightcap;
        Ok (newline, true)
  end.
Definition EncloseRemove (line leftcap rightcap : list Z) : outcome unit (list Z * bool) :=
  EncloseRemove_rec (S (length line)) line leftcap rightcap.

(** ** The difference *)

Lemma Contain_loop_spec s c : forall x, 0 <= x ->
  if (Contain_loop s c x).1 then x <= (Contain_loop s c x).2 /\ s !! Z.to_nat ((Contain_loop s c x).2 - x) = Some c
  else (Contain_loop s c x).2 = -1 /\ ~ c ∈ s.
Proof.
  induction s as [|v s IH]; intros x Hx; cbn [Contain_loop]; [split; [done|]; apply not_elem_of_nil|].
  destruct (Z.eqb_spec v c) as [->|Hne]; cbn [fst snd].
  - split; [lia|]. by rewrite Z.sub_diag.
  - specialize (IH (x + 1) ltac:(lia)). destruct (Contain_loop s c (x + 1)) as [[] i]; cbn [fst snd] in *.
    + destruct IH as [Hi Hl]. split; [lia|]. replace (Z.to_nat (i - x)) with (S (Z.to_nat (i - (x + 1)))) by lia. exact Hl.
    + destruct IH as [-> Hn]. split; [done|]. rewrite elem_of_cons. naive_solver.
Qed.
Lemma Contain_true s c : (Contain s c).1 = true <-> c ∈ s.
Proof.
  pose proof (Contain_loop_spec s c 0 ltac:(lia)) as H. unfold Contain. destruct (Contain_loop s c 0) as [[] i]; cbn [fst snd] in *.
  - split; [|done]. intros _. destruct H as [_ H]. by eapply list_elem_of_lookup_2.
  - split; [done|]. intros Hc. by destruct H.
Qed.
Lemma one_side_elem l r v : v ∈ one_side l r <-> v ∈ l /\ ~ v ∈ r.
Proof.
  induction l as [|w l IH]; cbn [one_side]; [rewrite !elem_of_nil; naive_solver|]. pose proof (Contain_true r w) as Hc.
  destruct (Contain r w).1; rewrite ?elem_of_cons, IH; naive_solver.
Qed.
Lemma existsb_eqb v l : existsb (fun w => v =? w) l = true <-> v ∈ l.
Proof.
  rewrite existsb_exists. setoid_rewrite <- list_elem_of_In. split; [intros (w & Hw & Heq); by apply Z.eqb_eq in Heq as <-|].
  intros Hv. exists v. split; [done|]. apply Z.eqb_refl.
Qed.
Lemma last_of_each_spec l : NoDup (last_of_each l) /\ (forall v, v ∈ last_of_each l <-> v ∈ l).
Proof.
  induction l as [|v l [Hn He]]; cbn [last_of_each]; [split; [constructor|done]|]. pose proof (existsb_eqb v l) as Hv.
  destruct (existsb _ l).
  - split; [done|]. intros w. rewrite elem_of_cons, He. naive_solver.
  - split; [constructor; [rewrite He; naive_solver|done]|]. intros w. by rewrite !elem_of_cons, He.
Qed.

(** [Diff] is the symmetric difference of its arguments, each rune once. *)
Theorem Diff_spec l r : NoDup (Diff l r) /\ (forall v, v ∈ Diff l r <-> (v ∈ l /\ ~ v ∈ r) \/ (v ∈ r /\ ~ v ∈ l)).
Proof.
  destruct (last_of_each_spec (one_side l r ++ one_side r l)) as [Hn He]. split; [exact Hn|]. intros v. unfold Diff.
  by rewrite He, elem_of_app, !one_side_elem.
Qed.

(** ** Tokens *)

(** With a token and an index that is none below zero, it is the search of bytes. *)
Lemma TokenFind_bytes line token startAt : token ≠ [] -> 0 <= startAt ->
  TokenFind line token startAt = Ok (Bytes.TokenFind line token startAt).
Proof.
  intros Ht Hs. unfold TokenFind, Bytes.TokenFind. destruct token as [|t0 token]; [done|]. rewrite (decide_False (P := length _ = 0%nat)) by done.
  rewrite (proj2 (Z.ltb_ge startAt 0)) by done. destruct (Z.leb_spec (Z.of_nat (length line)) startAt) as [Hl|Hl].
  - rewrite drop_ge by lia. cbn [TokenFind_loop]. rewrite decide_True; [done|]. cbn. lia.
  - by rewrite decide_False by done.
Qed.
Lemma TokenFind_loop_ge token rest : forall x y at_, -1 <= x -> -1 <= at_ -> -1 <= TokenFind_loop token rest x y at_.
Proof.
  induction rest as [|c rest IH]; intros x y at_ Hx Ha; cbn [TokenFind_loop]; [case_decide; lia|].
  assert (-1 <= (if decide (y = 0%nat) then x else at_)) by (case_decide; lia).
  case_bool_decide; [destruct (decide (S y = length token)); [done|apply IH; lia]|]. destruct (negb _); apply IH; lia.
Qed.
Lemma EncloseRemove_rec_bytes lc rc : lc ≠ [] -> rc ≠ [] -> forall fuel line, (length line < fuel)%nat ->
  EncloseRemove_rec fuel line lc rc = Ok (Bytes.EncloseRemove_rec fuel line lc rc).
Proof.
  intros Hl Hr. induction fuel as [|fuel IH]; intros line Hf; [lia|]. cbn [EncloseRemove_rec Bytes.EncloseRemove_rec].
  rewrite TokenFind_bytes by (done || lia). cbn [mbind outcome_bind].
  assert (Hge : -1 <= Bytes.TokenFind line lc 0) by (unfold Bytes.TokenFind; case_decide; [done|]; by apply TokenFind_loop_ge).
  rewrite TokenFind_bytes by (done || lia). cbn [mbind outcome_bind].
  destruct (_ || _) eqn:Hcond; [done|]. edestruct EncloseRemove_shrinks as [_ Hlt]; [reflexivity|reflexivity|exact Hcond|].
  rewrite IH by (cbn in Hlt; lia). cbn [mbind outcome_bind]. by destruct (Bytes.EncloseRemove_rec fuel _ lc rc).
Qed.

(** [EncloseRemove], of tokens that are not empty, returns; what is left keeps the order of the line and
    has nothing more to remove. *)
Theorem EncloseRemove_ends line lc rc : lc ≠ [] -> rc ≠ [] ->
  exists r b, EncloseRemove line lc rc = Ok (r, b) /\ r `sublist_of` line /\ EncloseRemove r lc rc = Ok (r, false).
Proof.
  intros Hl Hr. unfold EncloseRemove. rewrite EncloseRemove_rec_bytes by (done || lia).
  destruct (EncloseRemove_rec_done lc rc (S (length line)) line ltac:(lia)) as [Hs Hf].
  destruct (Bytes.EncloseRemove_rec (S (length line)) line lc rc) as [r b]. exists r, b. cbn [fst] in *. split; [done|]. split; [done|].
  rewrite EncloseRemove_rec_bytes by (done || lia). by rewrite Hf.
Qed.
Example EncloseRemove_twice :
  EncloseRemove (str "// Copyright 2016-2018 <a> \u2019s <b>") (str "<") (str ">") = Ok (str "// Copyright 2016-2018  \u2019s ", true).
Proof. vm_compute. reflexivity. Qed.
(** An empty token is indexed before its length is looked at; an index below zero too. *)
Lemma EncloseRemove_empty line rc : line ≠ [] -> EncloseRemove line [] rc = Panic.
Proof. destruct line; [done|]. intros _. done. Qed.
(** As in [lib/bytes], a token that begins inside a failed match is missed. *)
Example TokenFind_misses_rune : TokenFind (str "aab") (str "ab") 0 = Ok (-1) /\ TokenFind (str "aab") (str "ab") 1 = Ok 1.
Proof. split; vm_compute; reflexivity. Qed.
