(* ===== verification/StringTable.v ===== *)
(** Package [lib/strings], files [row.go] and [table.go]: the partitions of a list.

    The lists of a row share their arrays: adding to a list writes behind it where its
    array has room, which another row that holds the same list may do too.  So arrays are
    on a heap, and a list is a slice of one.  What debugging prints is left out. *)

From Stdlib Require Import ZArith Lia.
From S2P Require Import Prelude Ascii Utf8 Ints Strings.

Local Open Scope nat_scope.

Record slice : Type := mkSlice { s_arr : nat; s_len : nat; s_cap : nat }.
Abbreviation heap := (list (list text)).
Abbreviation Row := (list slice).
Abbreviation Table := (list (list slice)).

Definition values (h : heap) (s : slice) : list text := take (s_len s) (default [] (h !! s_arr s)).
Definition alloc (h : heap) (vs : list text) : heap * slice := (h ++ [vs], mkSlice (length h) (length vs) (length vs)).

(** [Row.IsEqual] and [Row.Join], [Table.IsEqual], of what the lists hold. *)
Definition row_IsEqual (a b : list (list text)) : bool :=
  if decide (length a = length b) then forallb (fun r => existsb (fun r' => IsEqual r r') b) a else false.
Fixpoint join_texts (sep : text) (l : list text) : text := match l with [] => [] | [x] => x | x :: l => x ++ sep ++ join_texts sep l end.
Definition row_Join (row : list (list text)) (lsep ssep : text) : text := join_texts lsep (join_texts ssep <$> row).
Definition table_IsEqual (a b : list (list (list text))) : bool :=
  if decide (length a = length b) then forallb (fun r => existsb (fun r' => row_IsEqual r r') b) a else false.

Section Partition.
(** The capacity that [append] gives a slice whose array is full. *)
Context (grow : nat -> nat).

Definition append_slice (h : heap) (s : slice) (v : text) : heap * slice :=
  if decide (s_len s < s_cap s) then (alter (<[s_len s := v]>) (s_arr s) h, mkSlice (s_arr s) (S (s_len s)) (s_cap s))
  else (h ++ [values h s ++ v :: replicate (grow (s_cap s) - S (s_len s)) []], mkSlice (length h) (S (s_len s)) (grow (s_cap s))).

(** [SinglePartition]. *)
Fixpoint singles (h : heap) (ss : list text) : heap * Row :=
  match ss with
  | [] => (h, [])
  | x :: ss => let '(h, s) := alloc h [x] in let '(h, row) := singles h ss in (h, s :: row)
  end.
Definition SinglePartition (h : heap) (ss : list text) : heap * Table := let '(h, row) := singles h ss in (h, [row]).

(** [JoinCombination]: the element is added to every list of every row. *)
Fixpoint join_row (h : heap) (row : Row) (s : text) (ys : list nat) : heap * Table :=
  match ys with
  | [] => (h, [])
  | y :: ys =>
      match row !! y with
      | None => (h, [])
      | Some l =>
          let '(h, l) := append_slice h l s in
          let '(h, rows) := join_row h row s ys in
          (h, <[y := l]> row :: rows)
      end
  end.
Fixpoint JoinCombination (h : heap) (table : Table) (s : text) : heap * Table :=
  match table with
  | [] => (h, [])
  | row :: table =>
      let '(h, rows) := join_row h row s (seq 0 (length row)) in
      let '(h, tout) := JoinCombination h table s in
      (h, rows ++ tout)
  end.

(** [Partition]: the element is added as a list of its own. *)
Fixpoint add_list (h : heap) (table : Table) (el : text) : heap * Table :=
  match table with
  | [] => (h, [])
  | row :: table => let '(h, s) := alloc h [el] in let '(h, t) := add_list h table el in (h, (row ++ [s]) :: t)
  end.
Fixpoint Partition (ss : list text) (k : Z) (h : heap) : outcome unit (heap * Table) :=
  if (k =? 1)%Z then let '(h, s) := alloc h ss in Ok (h, [[s]])
  else if (Z.of_nat (length ss) =? k)%Z then Ok (SinglePartition h ss)
  else
    match ss with
    | [] => Panic
    | el :: seed =>
        '(h, gen) ← Partition seed k h;
        let '(h, table) := JoinCombination h gen el in
        '(h, gen) ← Partition seed (k - 1) h;
        let '(h, t) := add_list h gen el in
        Ok (h, table ++ t)
    end.
(** What a caller sees: the lists of the rows, once all is done. *)
Definition contents (h : heap) (t : Table) : list (list (list text)) := map (map (values h)) t.
Definition Partition_of (ss : list text) (k : Z) : outcome unit (list (list (list text))) :=
  '(h, t) ← Partition ss k []; Ok (contents h t).

(** ** How many rows, and of what *)

(** The number of ways to put [n] things in [k] boxes. *)
Fixpoint stirling (n k : nat) : nat :=
  match n, k with
  | O, O => 1
  | O, _ | _, O => 0
  | S n, S k' => k * stirling n k + stirling n k'
  end.
Lemma stirling_one n : stirling (S n) 1 = 1.
Proof. induction n as [|n IH]; [done|]. change (stirling (S (S n)) 1) with (1 * stirling (S n) 1 + 0). lia. Qed.
Lemma stirling_above n : forall k, n < k -> stirling n k = 0.
Proof. induction n as [|n IH]; intros [|k] Hk; try lia; [done|]. cbn [stirling]. rewrite !IH by lia. lia. Qed.
Lemma stirling_diag n : stirling n n = 1.
Proof. induction n as [|n IH]; [done|]. cbn [stirling]. rewrite (stirling_above n (S n)) by lia. lia. Qed.

(** A row of [k] lists, none empty, of [n] elements in all. *)
Definition row_shape (n k : nat) (row : Row) : Prop :=
  length row = k /\ Forall (fun l => 0 < l) (map s_len row) /\ list_sum (map s_len row) = n.

Lemma singles_shape ss : forall h, row_shape (length ss) (length ss) (singles h ss).2.
Proof.
  induction ss as [|x ss IH]; intros h; [by repeat constructor|]. cbn. specialize (IH (h ++ [[x]])). destruct (singles _ _) as [h' row].
  destruct IH as (Hl & Hf & Hs). split; [|split]; cbn in *; [lia|constructor; [lia|done]|lia].
Qed.
Lemma append_slice_len h l s : s_len (append_slice h l s).2 = S (s_len l).
Proof. unfold append_slice. by case_decide. Qed.
Lemma row_shape_insert n k row y l l' : row_shape n k row -> row !! y = Some l -> s_len l' = S (s_len l) ->
  row_shape (S n) k (<[y := l']> row).
Proof.
  intros (Hl & Hf & Hs) Hy Hl'. pose proof (lookup_lt_Some _ _ _ Hy) as Hlt. split; [by rewrite length_insert|].
  rewrite insert_take_drop by done. rewrite <- (take_drop_middle row y l Hy) in Hf, Hs.
  rewrite map_app in Hf, Hs. rewrite map_app. apply Forall_app in Hf as [Hf1 Hf2]. rewrite list_sum_app in *. cbn in *. split; [|lia].
  apply Forall_app. apply Forall_cons in Hf2 as [Hf2 Hf3]. split; [done|]. constructor; [lia|done].
Qed.
Lemma join_row_shape n k row s ys : row_shape n k row -> forall h, Forall (fun y => y < length row) ys ->
  length (join_row h row s ys).2 = length ys /\ Forall (row_shape (S n) k) (join_row h row s ys).2.
Proof.
  intros Hr. induction ys as [|y ys IH]; intros h Hy; [done|]. apply Forall_cons in Hy as [Hy Hys]. cbn.
  destruct (lookup_lt_is_Some_2 row y Hy) as [l Hl]. rewrite Hl. pose proof (append_slice_len h l s) as Hl1.
  destruct (append_slice h l s) as [h1 l1]. specialize (IH h1 Hys). destruct (join_row h1 row s ys) as [h2 rows]. cbn in *. destruct IH as [H1 H2].
  split; [lia|]. constructor; [by apply row_shape_insert with l|done].
Qed.
Lemma seq_below n : Forall (fun y => y < n) (seq 0 n).
Proof. apply Forall_forall. intros y Hy. apply elem_of_seq in Hy. lia. Qed.
Lemma JoinCombination_shape n k s table : forall h, Forall (row_shape n k) table ->
  length (JoinCombination h table s).2 = k * length table /\ Forall (row_shape (S n) k) (JoinCombination h table s).2.
Proof.
  induction table as [|row table IH]; intros h Ht; [cbn; split; [lia|done]|]. apply Forall_cons in Ht as [Hr Ht]. cbn [JoinCombination].
  destruct (join_row_shape n k row s (seq 0 (length row)) Hr h (seq_below _)) as [H1 H2]. destruct (join_row h row s _) as [h1 rows]. cbn [snd] in *.
  specialize (IH h1 Ht). destruct (JoinCombination h1 table s) as [h2 t]. cbn [snd] in *. destruct IH as [H3 H4]. rewrite length_seq in H1.
  destruct Hr as [Hr _]. split; [rewrite length_app; cbn [length]; lia|]. by apply Forall_app.
Qed.
Lemma add_list_shape n k el table : forall h, Forall (row_shape n k) table ->
  length (add_list h table el).2 = length table /\ Forall (row_shape (S n) (S k)) (add_list h table el).2.
Proof.
  induction table as [|row table IH]; intros h Ht; [done|]. apply Forall_cons in Ht as [Hr Ht]. cbn. specialize (IH (h ++ [[el]]) Ht).
  destruct (add_list _ table el) as [h2 t]. cbn in *. destruct IH as [H1 H2]. split; [lia|]. constructor; [|done].
  destruct Hr as (Hl & Hf & Hs). split; [rewrite length_app; cbn; lia|]. rewrite map_app, list_sum_app. cbn. split; [|lia].
  apply Forall_app. split; [done|]. constructor; [lia|done].
Qed.

Lemma Partition_shape ss : forall k h, 1 <= k <= length ss -> exists h' t, Partition ss (Z.of_nat k) h = Ok (h', t) /\
  length t = stirling (length ss) k /\ Forall (row_shape (length ss) k) t.
Proof.
  induction ss as [|el seed IH]; intros k h Hk; [cbn in Hk; lia|]. cbn [Partition].
  destruct (Z.eqb_spec (Z.of_nat k) 1) as [H1|H1].
  { replace k with 1 by lia. cbn [alloc]. eexists _, _. split; [done|]. cbn [length]. rewrite stirling_one. split; [done|].
    constructor; [|done]. split; [done|]. cbn. split; [constructor; [lia|done]|lia]. }
  destruct (Z.eqb_spec (Z.of_nat (length (el :: seed))) (Z.of_nat k)) as [H2|H2].
  { unfold SinglePartition. pose proof (singles_shape (el :: seed) h) as Hl. destruct (singles h (el :: seed)) as [h1 row]. eexists _, _. split; [done|].
    replace k with (length (el :: seed)) by lia. rewrite stirling_diag. split; [done|]. by constructor. }
  cbn [length] in *. destruct (IH k h ltac:(lia)) as (h1 & g & -> & Hg & Hgk). cbn [mbind outcome_bind].
  destruct (JoinCombination_shape _ k el g h1 Hgk) as [Hj1 Hj2]. destruct (JoinCombination h1 g el) as [h2 table]. cbn [snd] in *.
  replace (Z.of_nat k - 1)%Z with (Z.of_nat (k - 1)) by lia. destruct (IH (k - 1) h2 ltac:(lia)) as (h3 & g' & -> & Hg' & Hgk'). cbn [mbind outcome_bind].
  destruct (add_list_shape _ (k - 1) el g' h3 Hgk') as [Ha1 Ha2]. destruct (add_list h3 g' el) as [h4 t]. cbn [snd] in *.
  eexists _, _. split; [done|]. split.
  - rewrite length_app, Hj1, Ha1, Hg, Hg'. destruct k as [|[|k]]; [lia|lia|]. cbn [stirling]. by replace (S (S k) - 1) with (S k) by lia.
  - apply Forall_app. split; [done|]. by replace (S (k - 1)) with k in Ha2 by lia.
Qed.

(** ** Where [append] leaves no room *)

Definition slice_ok (h : heap) (s : slice) : Prop :=
  s_len s = s_cap s /\ exists a, h !! s_arr s = Some a /\ s_len s <= length a.
(** A row, and a table, that hold these lists. *)
Definition row_is (h : heap) (row : Row) (vals : list (list text)) : Prop := Forall (slice_ok h) row /\ map (values h) row = vals.
Definition table_is (h : heap) (t : Table) (vals : list (list (list text))) : Prop := Forall2 (row_is h) t vals.

Lemma slice_ok_mono h h' s : h `prefix_of` h' -> slice_ok h s -> slice_ok h' s /\ values h' s = values h s.
Proof.
  intros [h'' ->] (Hf & a & Ha & Hl). assert (Ha' : (h ++ h'') !! s_arr s = Some a) by by apply lookup_app_l_Some.
  split; [split; [done|by exists a]|]. unfold values. by rewrite Ha, Ha'.
Qed.
Lemma row_is_mono h h' row vals : h `prefix_of` h' -> row_is h row vals -> row_is h' row vals.
Proof.
  intros Hp [Hf <-]. split; [eapply Forall_impl; [exact Hf|]; intros s Hs; by apply (slice_ok_mono h)|].
  apply map_ext_in. intros s Hs. rewrite Forall_forall in Hf. apply (slice_ok_mono h h' s Hp). apply Hf. by apply list_elem_of_In.
Qed.
Lemma table_is_mono h h' t vals : h `prefix_of` h' -> table_is h t vals -> table_is h' t vals.
Proof. intros Hp Ht. eapply Forall2_impl; [exact Ht|]. intros row vs. by apply row_is_mono. Qed.
Lemma contents_is h t vals : table_is h t vals -> contents h t = vals.
Proof. induction 1 as [|row vs t vals [_ <-] _ IH]; [done|]. cbn. by rewrite <- IH. Qed.

Lemma alloc_ok h vs : let '(h', s) := alloc h vs in h `prefix_of` h' /\ slice_ok h' s /\ values h' s = vs.
Proof.
  cbn. assert (Hh : (h ++ [vs]) !! length h = Some vs) by by rewrite lookup_app_r, Nat.sub_diag by lia.
  split; [by eexists|]. split; [split; [done|by exists vs]|]. unfold values. cbn. rewrite Hh. cbn. by rewrite firstn_all.
Qed.
Lemma singles_is ss : forall h, let '(h', row) := singles h ss in h `prefix_of` h' /\ row_is h' row (map (fun x => [x]) ss).
Proof.
  induction ss as [|x ss IH]; intros h; [by cbn|]. cbn [singles]. pose proof (alloc_ok h [x]) as Ha. destruct (alloc h [x]) as [h1 s].
  destruct Ha as (Hp & Hs & Hv). specialize (IH h1). destruct (singles h1 ss) as [h2 row]. destruct IH as (Hp2 & Hf & Hc).
  destruct (slice_ok_mono h1 h2 s Hp2 Hs) as [Hs2 Hv2]. split; [by etrans|]. split; [by constructor|]. cbn [map]. by rewrite Hv2, Hv, Hc.
Qed.
Lemma add_list_is el table vals : forall h, table_is h table vals ->
  let '(h', t) := add_list h table el in h `prefix_of` h' /\ table_is h' t (map (fun r => r ++ [[el]]) vals).
Proof.
  revert vals. induction table as [|row table IH]; intros vals h Ht; inversion Ht as [|? vs ? vals' Hr Ht']; subst; [by cbn|]. cbn [add_list].
  pose proof (alloc_ok h [el]) as Ha. destruct (alloc h [el]) as [h1 s]. destruct Ha as (Hp & Hs & Hv).
  specialize (IH vals' h1 (table_is_mono h h1 _ _ Hp Ht')). destruct (add_list h1 table el) as [h2 t]. destruct IH as [Hp2 Ht2].
  split; [by etrans|]. cbn [map]. constructor; [|done]. destruct (slice_ok_mono h1 h2 s Hp2 Hs) as [Hs2 Hv2].
  destruct (row_is_mono h h2 row vs ltac:(by etrans) Hr) as [Hf <-]. split; [apply Forall_app; split; [done|by constructor]|].
  rewrite map_app. cbn [map]. by rewrite Hv2, Hv.
Qed.

(** The partitions as lists: one list, or a list for each element, or else the first
    element added to each list of a partition of the others, or as a list of its own. *)
Definition add_at (el : text) (y : nat) (row : list (list text)) : list (list text) := alter (fun l => l ++ [el]) y row.
Definition joined (el : text) (row : list (list text)) : list (list (list text)) := map (fun y => add_at el y row) (seq 0 (length row)).
Fixpoint partitions (ss : list text) (k : nat) : list (list (list text)) :=
  if decide (k = 1) then [[ss]]
  else if decide (length ss = k) then [map (fun x => [x]) ss]
  else
    match ss with
    | [] => []
    | el :: seed => concat (map (joined el) (partitions seed k)) ++ map (fun r => r ++ [[el]]) (partitions seed (k - 1))
    end.

Section NoRoom.
Context (grow_next : forall c, grow c = S c).

Lemma append_slice_ok h s v : slice_ok h s ->
  let '(h', s') := append_slice h s v in h `prefix_of` h' /\ slice_ok h' s' /\ values h' s' = values h s ++ [v].
Proof.
  intros (Hf & a & Ha & Hl). unfold append_slice. rewrite decide_False by lia. rewrite grow_next, Hf, Nat.sub_diag. cbn [replicate].
  assert (Hv : length (values h s) = s_cap s) by (unfold values; rewrite Ha; cbn; rewrite length_take; lia).
  assert (Hh : (h ++ [values h s ++ [v]]) !! length h = Some (values h s ++ [v])) by by rewrite lookup_app_r, Nat.sub_diag by lia.
  split; [by eexists|]. split.
  - split; [done|]. exists (values h s ++ [v]). split; [done|]. rewrite length_app. cbn. lia.
  - unfold values at 1. cbn [s_arr s_len]. rewrite Hh. cbn [default]. apply firstn_all2. rewrite length_app. cbn. lia.
Qed.
Lemma row_is_insert h row vals y l l' v : row_is h row vals -> row !! y = Some l -> slice_ok h l' -> values h l' = values h l ++ [v] ->
  row_is h (<[y := l']> row) (add_at v y vals).
Proof.
  intros [Hf <-] Hy Hl Hv. split; [by apply Forall_insert|]. apply list_eq. intros i. unfold add_at.
  change (map (values h)) with (fmap (M := list) (values h)). rewrite list_lookup_fmap. destruct (decide (i = y)) as [->|Hne].
  - rewrite list_lookup_alter, list_lookup_fmap, Hy, list_lookup_insert_eq by (apply (lookup_lt_Some _ _ _ Hy)). rewrite decide_True by done. exact (f_equal Some Hv).
  - by rewrite list_lookup_alter_ne, list_lookup_fmap, list_lookup_insert_ne by done.
Qed.
Lemma join_row_is row vals s ys : forall h, row_is h row vals -> Forall (fun y => y < length row) ys ->
  let '(h', rows) := join_row h row s ys in h `prefix_of` h' /\ table_is h' rows (map (fun y => add_at s y vals) ys).
Proof.
  induction ys as [|y ys IH]; intros h Hr Hy; [cbn; by split; [|constructor]|]. apply Forall_cons in Hy as [Hy Hys]. cbn [join_row].
  destruct (lookup_lt_is_Some_2 row y Hy) as [l Hly]. rewrite Hly.
  assert (Hl : slice_ok h l) by (destruct Hr as [Hf _]; by apply (Forall_lookup_1 _ _ _ _ Hf Hly)).
  pose proof (append_slice_ok h l s Hl) as Ha. destruct (append_slice h l s) as [h1 l']. destruct Ha as (Hp & Hl' & Hv).
  specialize (IH h1 (row_is_mono h h1 row vals Hp Hr) Hys). destruct (join_row h1 row s ys) as [h2 rows]. destruct IH as [Hp2 Hrows].
  split; [by etrans|]. cbn [map]. constructor; [|done]. apply (row_is_mono h1); [done|]. apply row_is_insert with l; try done.
  - by apply (row_is_mono h).
  - rewrite Hv. f_equal. symmetry. by apply slice_ok_mono.
Qed.
Lemma JoinCombination_is s table : forall vals h, table_is h table vals ->
  let '(h', t) := JoinCombination h table s in h `prefix_of` h' /\ table_is h' t (concat (map (joined s) vals)).
Proof.
  induction table as [|row table IH]; intros vals h Ht; inversion Ht as [|? vs ? vals' Hr Ht']; subst; [by cbn; split; [|constructor]|]. cbn [JoinCombination].
  pose proof (join_row_is row vs s (seq 0 (length row)) h Hr (seq_below _)) as Hj. destruct (join_row h row s _) as [h1 rows]. destruct Hj as [Hp Hrows].
  specialize (IH vals' h1 (table_is_mono h h1 _ _ Hp Ht')). destruct (JoinCombination h1 table s) as [h2 t]. destruct IH as [Hp2 Ht2].
  split; [by etrans|]. cbn [map concat]. apply Forall2_app; [|done]. unfold joined. destruct Hr as [_ <-]. rewrite length_map.
  by apply (table_is_mono h1).
Qed.

Lemma Partition_is ss : forall k h h' t, 1 <= k <= length ss -> Partition ss (Z.of_nat k) h = Ok (h', t) -> h `prefix_of` h' /\ table_is h' t (partitions ss k).
Proof.
  induction ss as [|el seed IH]; intros k h h' t Hk HP; [cbn in Hk; lia|]. cbn [Partition partitions] in *.
  destruct (Z.eqb_spec (Z.of_nat k) 1) as [H1|H1].
  { rewrite decide_True by lia. pose proof (alloc_ok h (el :: seed)) as Ha. destruct (alloc h (el :: seed)) as [h1 s]. injection HP as <- <-.
    destruct Ha as (Hp & Hs & Hv). split; [done|]. constructor; [|constructor]. split; [by constructor|]. cbn. by rewrite Hv. }
  rewrite decide_False by lia. destruct (Z.eqb_spec (Z.of_nat (length (el :: seed))) (Z.of_nat k)) as [H2|H2].
  { rewrite decide_True by lia. unfold SinglePartition in HP. pose proof (singles_is (el :: seed) h) as Hs. destruct (singles h (el :: seed)) as [h1 row].
    injection HP as <- <-. destruct Hs as [Hp Hr]. split; [done|]. by constructor. }
  rewrite decide_False by lia. cbn [length] in *. replace (Z.of_nat k - 1)%Z with (Z.of_nat (k - 1)) in HP by lia.
  destruct (Partition seed (Z.of_nat k) h) as [[h1 g]| | |] eqn:HP1; try done. cbn [mbind outcome_bind] in HP. apply IH in HP1 as [Hp1 Hg]; [|lia].
  pose proof (JoinCombination_is el g _ h1 Hg) as Hj. destruct (JoinCombination h1 g el) as [h2 table]. destruct Hj as [Hp2 Hj].
  destruct (Partition seed (Z.of_nat (k - 1)) h2) as [[h3 g']| | |] eqn:HP2; try done. cbn [mbind outcome_bind] in HP. apply IH in HP2 as [Hp3 Hg']; [|lia].
  pose proof (add_list_is el g' _ h3 Hg') as Ha. destruct (add_list h3 g' el) as [h4 t']. destruct Ha as [Hp4 Ha]. injection HP as <- <-.
  split; [by repeat (etrans; [done|])|]. apply Forall2_app; [|done]. apply (table_is_mono h2); [by etrans|done].
Qed.
End NoRoom.
End Partition.

(** ** What a partition is *)

(** [k] lists, none empty, of the elements. *)
Definition is_partition (ss : list text) (k : nat) (row : list (list text)) : Prop :=
  length row = k /\ Forall (.≠ []) row /\ concat row ≡ₚ ss.
(** Two elements are in one list; two rows are the same partition where they put the same
    elements together, in whatever order. *)
Definition together (row : list (list text)) (x z : text) : Prop := exists i l, row !! i = Some l /\ x ∈ l /\ z ∈ l.
Definition same_partition (r r' : list (list text)) : Prop := forall x z, together r x z <-> together r' x z.

Lemma elem_concat (row : list (list text)) i l x : row !! i = Some l -> x ∈ l -> x ∈ concat row.
Proof.
  revert i. induction row as [|a row IH]; intros [|i]; [done..| |]; cbn; intros Hl Hx; apply elem_of_app; [injection Hl as ->; by left|].
  right. by eapply IH.
Qed.
Lemma concat_elem (row : list (list text)) x : x ∈ concat row -> exists i l, row !! i = Some l /\ x ∈ l.
Proof.
  induction row as [|a row IH]; cbn; [by intros ?%elem_of_nil|]. intros [Hx|Hx]%elem_of_app; [by exists 0, a|].
  destruct (IH Hx) as (i & l & H). by exists (S i), l.
Qed.
Lemma concat_unique (row : list (list text)) i j l l' x : NoDup (concat row) -> row !! i = Some l -> row !! j = Some l' -> x ∈ l -> x ∈ l' -> i = j.
Proof.
  revert i j. induction row as [|a row IH]; intros i j; [done|]. cbn [concat]. intros (_ & Hd & Hn)%NoDup_app.
  destruct i as [|i], j as [|j]; cbn; [done|intros [= ->]|intros ? [= ->]|]; intros; [..|f_equal; by eapply IH].
  - exfalso. eapply Hd; [done|]. by eapply elem_concat.
  - exfalso. eapply Hd; [done|]. by eapply elem_concat.
Qed.
Lemma together_in row x z : together row x z -> x ∈ concat row /\ z ∈ concat row.
Proof. intros (i & l & Hl & Hx & Hz). split; by eapply elem_concat. Qed.
Lemma together_of row i l x z : NoDup (concat row) -> row !! i = Some l -> x ∈ l -> together row x z <-> z ∈ l.
Proof.
  intros Hn Hl Hx. split; [|intros Hz; by exists i, l]. intros (j & l' & Hl' & Hx' & Hz).
  assert (j = i) as -> by by apply (concat_unique row j i l' l x). congruence.
Qed.

(** Which elements are together once one is added. *)
Lemma together_add_at el y row l x z : row !! y = Some l ->
  together (add_at el y row) x z <-> together row x z \/ (x = el /\ (z = el \/ z ∈ l)) \/ (z = el /\ x ∈ l).
Proof.
  intros Hy. unfold together, add_at. split.
  - intros (i & l' & Hl & Hx & Hz). destruct (decide (i = y)) as [->|Hne].
    + rewrite list_lookup_alter_eq, Hy in Hl. injection Hl as <-. rewrite !elem_of_app, !list_elem_of_singleton in *.
      destruct Hx as [Hx| ->], Hz as [Hz| ->]; [left; by exists y, l|tauto..].
    + rewrite list_lookup_alter_ne in Hl by done. left. by exists i, l'.
  - assert (Hl : alter (fun l => l ++ [el]) y row !! y = Some (l ++ [el])) by (by rewrite list_lookup_alter_eq, Hy).
    intros [(i & l' & Hl' & Hx & Hz)|[[-> Hz]|[-> Hx]]].
    + destruct (decide (i = y)) as [->|Hne].
      * assert (l' = l) as -> by congruence. exists y, (l ++ [el]). rewrite !elem_of_app. tauto.
      * exists i, l'. by rewrite list_lookup_alter_ne by done.
    + exists y, (l ++ [el]). rewrite !elem_of_app, !list_elem_of_singleton. tauto.
    + exists y, (l ++ [el]). rewrite !elem_of_app, !list_elem_of_singleton. tauto.
Qed.
Lemma together_added el row x z : together (row ++ [[el]]) x z <-> together row x z \/ x = el /\ z = el.
Proof.
  unfold together. split.
  - intros (i & l & Hl & Hx & Hz). apply lookup_app_Some in Hl as [Hl|[_ Hl]]; [left; by exists i, l|].
    destruct (i - length row) as [|n]; [|by rewrite lookup_nil in Hl || (destruct n; done)]. injection Hl as <-.
    apply list_elem_of_singleton in Hx, Hz. by right.
  - intros [(i & l & Hl & Hx & Hz)|[-> ->]].
    + exists i, l. split; [by apply lookup_app_l_Some|done].
    + exists (length row), [el]. rewrite lookup_app_r, Nat.sub_diag by lia. by rewrite !list_elem_of_singleton.
Qed.

Lemma concat_add_at el y row l : row !! y = Some l -> concat (add_at el y row) ≡ₚ el :: concat row.
Proof.
  intros Hy. pose proof (lookup_lt_Some _ _ _ Hy) as Hlt.
  assert (add_at el y row = <[y := l ++ [el]]> row) as ->.
  { unfold add_at. apply list_eq. intros i. destruct (decide (i = y)) as [->|Hne].
    - by rewrite list_lookup_alter_eq, Hy, list_lookup_insert_eq by done.
    - by rewrite list_lookup_alter_ne, list_lookup_insert_ne by done. }
  rewrite insert_take_drop by done. rewrite <- (take_drop_middle row y l Hy) at 3. rewrite !concat_app. cbn [concat]. solve_Permutation.
Qed.
Lemma is_partition_add_at el ss k y row : is_partition ss k row -> y < length row -> is_partition (el :: ss) k (add_at el y row).
Proof.
  intros (Hl & Hf & Hc) Hy. destruct (lookup_lt_is_Some_2 row y Hy) as [l Hly]. split; [by unfold add_at; rewrite length_alter|].
  split; [|by rewrite (concat_add_at el y row l Hly), Hc]. unfold add_at. apply Forall_alter; [done|]. intros l' _ _. by destruct l'.
Qed.
Lemma is_partition_added el ss k row : is_partition ss k row -> is_partition (el :: ss) (S k) (row ++ [[el]]).
Proof.
  intros (Hl & Hf & Hc). split; [rewrite length_app; cbn; lia|]. split; [apply Forall_app; split; [done|by constructor]|].
  rewrite concat_app, Hc. cbn. symmetry. apply Permutation_cons_append.
Qed.
Lemma elem_map {A B} (f : A -> B) l x : x ∈ map f l <-> exists a, x = f a /\ a ∈ l.
Proof. apply list_elem_of_fmap. Qed.
Lemma elem_concat_map {A B} (f : A -> list B) l x : x ∈ concat (map f l) <-> exists a, a ∈ l /\ x ∈ f a.
Proof.
  induction l as [|b l IH]; cbn; [split; [by intros ?%elem_of_nil|by intros (a & ?%elem_of_nil & _)]|].
  rewrite elem_of_app, IH. setoid_rewrite elem_of_cons. naive_solver.
Qed.
Lemma joined_in el row r : r ∈ joined el row <-> exists y, y < length row /\ r = add_at el y row.
Proof.
  unfold joined. rewrite elem_map. split.
  - intros (y & -> & Hy%elem_of_seq). exists y. split; [lia|done].
  - intros (y & Hy & ->). exists y. split; [done|]. apply elem_of_seq. lia.
Qed.

Lemma partitions_one ss : ss <> [] -> is_partition ss 1 [ss].
Proof. intros Hss. split; [done|]. split; [by constructor|]. cbn. by rewrite app_nil_r. Qed.
Lemma partitions_singles ss : is_partition ss (length ss) (map (fun x => [x]) ss).
Proof.
  split; [by rewrite length_map|]. split; [apply Forall_map, Forall_true; done|]. induction ss as [|x ss IH]; [done|]. cbn. by rewrite IH.
Qed.
Lemma partitions_step el seed k r : k <> 1 -> k <> S (length seed) -> r ∈ partitions (el :: seed) k <->
  (exists g y, g ∈ partitions seed k /\ y < length g /\ r = add_at el y g) \/ (exists g, g ∈ partitions seed (k - 1) /\ r = g ++ [[el]]).
Proof.
  intros H1 H2. cbn [partitions length]. rewrite !decide_False by lia. rewrite elem_of_app, elem_map, elem_concat_map.
  setoid_rewrite joined_in. naive_solver.
Qed.
Lemma partitions_ok ss : forall k, 1 <= k <= length ss -> Forall (is_partition ss k) (partitions ss k).
Proof.
  induction ss as [|el seed IH]; intros k Hk; [cbn in Hk; lia|]. apply Forall_forall. intros r Hr.
  destruct (decide (k = 1)) as [->|H1]; [cbn in Hr; apply list_elem_of_singleton in Hr as ->; by apply partitions_one|].
  destruct (decide (k = S (length seed))) as [->|H2].
  { cbn [partitions length] in Hr. rewrite decide_False, decide_True in Hr by lia. apply list_elem_of_singleton in Hr as ->. apply (partitions_singles (el :: seed)). }
  cbn [length] in Hk. apply partitions_step in Hr as [(g & y & Hg & Hy & ->)|(g & Hg & ->)]; [|..|done|done].
  - apply is_partition_add_at; [|done]. pose proof (IH k ltac:(lia)) as H. rewrite Forall_forall in H. by apply H.
  - replace k with (S (k - 1)) at 1 by lia. apply is_partition_added. pose proof (IH (k - 1) ltac:(lia)) as H. rewrite Forall_forall in H. by apply H.
Qed.

(** *** No two rows are the same partition *)

Lemma pairs_app {A} (R : A -> A -> Prop) l1 l2 : ForallOrdPairs R l1 -> ForallOrdPairs R l2 ->
  (forall a b, a ∈ l1 -> b ∈ l2 -> R a b) -> ForallOrdPairs R (l1 ++ l2).
Proof.
  induction 1 as [|a l1 Ha _ IH]; intros H2 Hc; [done|]. cbn. constructor.
  - apply List.Forall_app. split; [done|]. apply Forall_forall. intros b Hb. apply Hc; [by left|done].
  - apply IH; [done|]. intros b c Hb. apply Hc. by right.
Qed.
Lemma pairs_map {A B} (R : A -> A -> Prop) (R' : B -> B -> Prop) (f : A -> B) l : ForallOrdPairs R l ->
  (forall a b, a ∈ l -> b ∈ l -> R a b -> R' (f a) (f b)) -> ForallOrdPairs R' (map f l).
Proof.
  induction 1 as [|a l Ha _ IH]; intros Hc; cbn; constructor.
  - apply Forall_forall. intros b (c & -> & Hc')%elem_map. rewrite Forall_forall in Ha.
    apply Hc; [by left|by right|by apply Ha].
  - apply IH. intros b c Hb Hc'. apply Hc; by right.
Qed.
Lemma pairs_concat {A B} (R : A -> A -> Prop) (R' : B -> B -> Prop) (f : A -> list B) l : ForallOrdPairs R l ->
  (forall a, a ∈ l -> ForallOrdPairs R' (f a)) -> (forall a b x y, a ∈ l -> b ∈ l -> R a b -> x ∈ f a -> y ∈ f b -> R' x y) ->
  ForallOrdPairs R' (concat (map f l)).
Proof.
  induction 1 as [|a l Ha _ IH]; intros H1 H2; cbn; [constructor|]. apply pairs_app; [apply H1; by left| |].
  - apply IH; [intros b Hb; apply H1; by right|]. intros b c x y Hb Hc. apply H2; by right.
  - intros x y Hx (b & Hb & Hy)%elem_concat_map. rewrite Forall_forall in Ha.
    apply (H2 a b); [by left|by right|by apply Ha|done|done].
Qed.
Lemma pairs_nodup {A} (l : list A) : NoDup l -> ForallOrdPairs (fun a b => a ≠ b) l.
Proof. induction 1 as [|a l Ha _ IH]; constructor; [|done]. apply Forall_forall. intros b Hb ->. done. Qed.

Definition differ (r r' : list (list text)) : Prop := ~ same_partition r r'.

Lemma add_at_same el y y' g g' : el ∉ concat g -> el ∉ concat g' -> y < length g -> y' < length g' ->
  same_partition (add_at el y g) (add_at el y' g') -> forall x z, together g x z -> together g' x z.
Proof.
  intros Hg Hg' [l Hl]%lookup_lt_is_Some_2 [l' Hl']%lookup_lt_is_Some_2 Hs x z Ht. pose proof (together_in g x z Ht) as [Hx Hz].
  assert (H : together (add_at el y' g') x z) by (apply Hs, (together_add_at _ _ _ _ _ _ Hl); by left).
  apply (together_add_at _ _ _ _ _ _ Hl') in H as [H|[[-> _]|[-> _]]]; done.
Qed.
Lemma add_at_differ el y y' g g' : el ∉ concat g -> el ∉ concat g' -> y < length g -> y' < length g' ->
  differ g g' -> differ (add_at el y g) (add_at el y' g').
Proof.
  intros Hg Hg' Hy Hy' Hd Hs. apply Hd. intros x z. split; [by apply (add_at_same el y y')|]. apply (add_at_same el y' y); try done.
  intros a b. symmetry. apply Hs.
Qed.
Lemma add_at_places el y y' ss k g : is_partition ss k g -> NoDup (el :: ss) -> y < length g -> y' < length g -> y ≠ y' ->
  differ (add_at el y g) (add_at el y' g).
Proof.
  intros (_ & Hf & Hc) (Hel & Hnd)%NoDup_cons [l Hl]%lookup_lt_is_Some_2 [l' Hl']%lookup_lt_is_Some_2 Hne Hs.
  rewrite <- Hc in Hel, Hnd. pose proof (Forall_lookup_1 _ _ _ _ Hf Hl) as Hl0. destruct l as [|a l]; [done|].
  assert (H : together (add_at el y' g) el a).
  { apply Hs, (together_add_at _ _ _ _ _ _ Hl). right. left. split; [done|]. right. by left. }
  assert (Ha : a ∈ concat g) by (eapply elem_concat; [exact Hl|by left]).
  apply (together_add_at _ _ _ _ _ _ Hl') in H as [[H _]%together_in|[[_ [->|H]]|[-> _]]]; try done.
  apply Hne. apply (concat_unique g y y' (a :: l) l' a); try done. by left.
Qed.
Lemma added_differ el g g' : el ∉ concat g -> el ∉ concat g' -> differ g g' -> differ (g ++ [[el]]) (g' ++ [[el]]).
Proof.
  intros Hg Hg' Hd Hs. apply Hd. intros x z. split; intros Ht; pose proof (together_in _ _ _ Ht) as [Hx _].
  - assert (H : together (g' ++ [[el]]) x z) by (apply Hs, together_added; by left). apply together_added in H as [H|[-> _]]; done.
  - assert (H : together (g ++ [[el]]) x z) by (apply Hs, together_added; by left). apply together_added in H as [H|[-> _]]; done.
Qed.
Lemma add_at_added el y ss k g g' : is_partition ss k g -> el ∉ concat g -> el ∉ concat g' -> y < length g -> differ (add_at el y g) (g' ++ [[el]]).
Proof.
  intros (_ & Hf & _) Hg Hg' [l Hl]%lookup_lt_is_Some_2 Hs. pose proof (Forall_lookup_1 _ _ _ _ Hf Hl) as Hl0. destruct l as [|a l]; [done|].
  assert (Ha : a ∈ concat g) by (eapply elem_concat; [exact Hl|by left]).
  assert (H : together (g' ++ [[el]]) el a).
  { apply Hs, (together_add_at _ _ _ _ _ _ Hl). right. left. split; [done|]. right. by left. }
  apply together_added in H as [[H _]%together_in|[_ ->]]; done.
Qed.

Lemma partitions_differ ss : forall k, 1 <= k <= length ss -> NoDup ss -> ForallOrdPairs differ (partitions ss k).
Proof.
  induction ss as [|el seed IH]; intros k Hk Hnd; [cbn in Hk; lia|]. cbn [partitions length] in *.
  case_decide as H1; [repeat constructor|]. case_decide as H2; [repeat constructor|]. pose proof Hnd as (Hel & Hnd')%NoDup_cons.
  pose proof (partitions_ok seed k ltac:(lia)) as Hg. pose proof (partitions_ok seed (k - 1) ltac:(lia)) as Hg'. rewrite Forall_forall in Hg, Hg'.
  assert (Hnot : forall g, g ∈ partitions seed k -> el ∉ concat g) by (intros g (_ & _ & ->)%Hg; done).
  assert (Hnot' : forall g, g ∈ partitions seed (k - 1) -> el ∉ concat g) by (intros g (_ & _ & ->)%Hg'; done).
  apply pairs_app.
  - apply (pairs_concat differ); [apply IH; [lia|done]| |].
    + intros g Hin. apply (pairs_map (fun a b => a ≠ b)); [apply pairs_nodup, NoDup_seq|]. intros y y' Hy%elem_of_seq Hy'%elem_of_seq Hne.
      apply (add_at_places el y y' seed k); [by apply Hg|done|lia|lia|done].
    + intros g g' x x' Hin Hin' Hd (y & Hy & ->)%joined_in (y' & Hy' & ->)%joined_in. apply add_at_differ; auto.
  - apply (pairs_map differ); [apply IH; [lia|done]|]. intros g g' Hin Hin'. apply added_differ; auto.
  - intros r r' (g & Hin & Hr)%elem_concat_map (g' & -> & Hin')%elem_map.
    apply joined_in in Hr as (y & Hy & ->). apply (add_at_added el y seed k); auto.
Qed.

(** *** Every partition is a row *)

Lemma same_one ss row : is_partition ss 1 row -> same_partition [ss] row.
Proof.
  intros (Hl & _ & Hc). destruct row as [|l [|? ?]]; try done. cbn in Hc. rewrite app_nil_r in Hc.
  intros x z. split; intros (i & l' & Hi & Hx & Hz); (destruct i as [|i]; [|by rewrite lookup_cons in Hi]); injection Hi as <-.
  - exists 0, l. split; [done|]. by rewrite !Hc.
  - exists 0, ss. split; [done|]. by rewrite <- !Hc.
Qed.
(** As many lists as elements: each has one. *)
Lemma one_each (row : list (list text)) : Forall (.≠ []) row -> length (concat row) = length row -> Forall (fun l => exists x, l = [x]) row.
Proof.
  assert (Hle : forall row : list (list text), Forall (.≠ []) row -> length row <= length (concat row)).
  { clear. induction 1 as [|l row Hl _ IH]; [done|]. cbn. rewrite length_app. destruct l; [done|]. cbn. lia. }
  induction 1 as [|l row Hl Hf IH]; [constructor|]. cbn. rewrite length_app. intros Hlen. pose proof (Hle row Hf) as H.
  destruct l as [|x [|? ?]]; cbn in *; [done| |lia]. constructor; [by exists x|]. apply IH. lia.
Qed.
Lemma same_singles ss row : NoDup ss -> is_partition ss (length ss) row -> same_partition (map (fun x => [x]) ss) row.
Proof.
  assert (Hs : forall vs k r, NoDup vs -> is_partition vs k r -> Forall (fun l => exists x : text, l = [x]) r -> forall x z, together r x z <-> x = z /\ x ∈ vs).
  { clear. intros vs k r Hn (_ & _ & Hc) H1 x z. split.
    - intros (i & l & Hl & Hx & Hz). split; [|rewrite <- Hc; by eapply elem_concat]. apply (Forall_lookup_1 _ _ _ _ H1) in Hl as [y ->].
      apply list_elem_of_singleton in Hx, Hz. congruence.
    - intros [<- Hx]. rewrite <- Hc in Hx. apply concat_elem in Hx as (i & l & Hl & Hx). by exists i, l. }
  intros Hn Hr x z. rewrite (Hs ss _ _ Hn (partitions_singles ss)) by (apply Forall_map, Forall_true; intros y; by exists y).
  rewrite (Hs ss _ _ Hn Hr); [done|]. destruct Hr as (Hl & Hf & Hc). apply one_each; [done|]. by rewrite Hc.
Qed.

(** What is left of a partition without its first element. *)
Lemma without el seed k row : 1 < k -> NoDup (el :: seed) -> is_partition (el :: seed) k row -> exists r1 a b r2, row = r1 ++ (a ++ el :: b) :: r2 /\
  concat (r1 ++ (a ++ b) :: r2) ≡ₚ seed /\ (a ++ b = [] -> is_partition seed (k - 1) (r1 ++ r2)) /\ (a ++ b ≠ [] -> is_partition seed k (r1 ++ (a ++ b) :: r2)).
Proof.
  intros Hk Hnd (Hl & Hf & Hc). assert (Hel : el ∈ concat row) by (rewrite Hc; by left). apply concat_elem in Hel as (i & l & Hi & Hel).
  apply list_elem_of_split in Hel as (a & b & ->). apply list_elem_of_split_length in Hi as (r1 & r2 & -> & _). exists r1, a, b, r2. split; [done|].
  assert (Hseed : concat (r1 ++ (a ++ b) :: r2) ≡ₚ seed).
  { apply (Permutation_cons_inv (a := el)). rewrite <- Hc, !concat_app. cbn [concat]. solve_Permutation. }
  apply Forall_app in Hf as [Hf1 [_ Hf2]%Forall_cons]. rewrite length_app in Hl. cbn in Hl. split; [done|]. split.
  - intros He. rewrite He in Hseed. split; [rewrite length_app; lia|]. split; [by apply Forall_app|]. rewrite <- Hseed, !concat_app. done.
  - intros He. split; [rewrite length_app; cbn; lia|]. split; [|done]. apply Forall_app. split; [done|]. by constructor.
Qed.
Lemma lookup_other {A} (l1 l2 : list A) a b i : i ≠ length l1 -> (l1 ++ a :: l2) !! i = (l1 ++ b :: l2) !! i.
Proof.
  intros Hi. destruct (decide (i < length l1)); [by rewrite !lookup_app_l by done|]. rewrite !lookup_app_r by lia.
  destruct (i - length l1) eqn:E; [lia|done].
Qed.
Lemma together_perm (r r' : list (list text)) x z : r ≡ₚ r' -> together r x z <-> together r' x z.
Proof.
  intros Hp. assert (Ht : forall r : list (list text), together r x z <-> exists l, l ∈ r /\ x ∈ l /\ z ∈ l).
  { intros q. unfold together. setoid_rewrite list_elem_of_lookup. naive_solver. }
  rewrite !Ht. by setoid_rewrite Hp.
Qed.
(** Adding the element back where its companions are. *)
Lemma add_back el a b r1 r2 g y l : el ∉ concat (r1 ++ (a ++ b) :: r2) -> NoDup (concat (r1 ++ (a ++ b) :: r2)) ->
  same_partition g (r1 ++ (a ++ b) :: r2) -> g !! y = Some l -> (forall x, x ∈ l <-> x ∈ a ++ b) ->
  same_partition (add_at el y g) (r1 ++ (a ++ el :: b) :: r2).
Proof.
  intros Hel Hnd Hs Hy Hlx.
  assert (Hrow : forall x z, together (r1 ++ (a ++ el :: b) :: r2) x z <-> together (add_at el (length r1) (r1 ++ (a ++ b) :: r2)) x z).
  { intros x z. unfold together. split; intros (i & l' & Hi & Hx & Hz); exists i; destruct (decide (i = length r1)) as [->|Hne].
    - rewrite list_lookup_middle in Hi by done. injection Hi as <-. exists ((a ++ b) ++ [el]). unfold add_at.
      rewrite list_lookup_alter_eq, list_lookup_middle by done. split; [done|]. set_solver.
    - exists l'. unfold add_at. rewrite list_lookup_alter_ne by done. split; [|done]. rewrite <- Hi. apply lookup_other. done.
    - unfold add_at in Hi. rewrite list_lookup_alter_eq, list_lookup_middle in Hi by done. injection Hi as <-. exists (a ++ el :: b).
      rewrite list_lookup_middle by done. split; [done|]. set_solver.
    - exists l'. unfold add_at in Hi. rewrite list_lookup_alter_ne in Hi by done. split; [|done]. rewrite <- Hi. apply lookup_other. done. }
  intros x z. rewrite Hrow, (together_add_at el y g l x z Hy).
  rewrite (together_add_at el (length r1) (r1 ++ (a ++ b) :: r2) (a ++ b) x z) by (by apply list_lookup_middle).
  rewrite (Hs x z), !Hlx. done.
Qed.

Lemma partitions_complete ss : forall k row, 1 <= k <= length ss -> NoDup ss -> is_partition ss k row ->
  exists r, r ∈ partitions ss k /\ same_partition r row.
Proof.
  induction ss as [|el seed IH]; intros k row Hk Hnd Hr; [cbn in Hk; lia|].
  destruct (decide (k = 1)) as [->|H1]; [exists [el :: seed]; split; [by left|by apply same_one]|].
  destruct (decide (k = S (length seed))) as [->|H2].
  { exists (map (fun x => [x]) (el :: seed)). split; [|by apply same_singles]. cbn [partitions length]. rewrite decide_False, decide_True by lia. by left. }
  cbn [length] in Hk. setoid_rewrite (partitions_step el seed k _ H1 H2). pose proof Hnd as (Hel & Hnd')%NoDup_cons.
  destruct (without el seed k row ltac:(lia) Hnd Hr) as (r1 & a & b & r2 & -> & Hc & H0 & Hn0).
  assert (Hel' : el ∉ concat (r1 ++ (a ++ b) :: r2)) by (by rewrite Hc).
  assert (Hnd2 : NoDup (concat (r1 ++ (a ++ b) :: r2))) by (by rewrite Hc).
  destruct (a ++ b) as [|c0 l0] eqn:Eab.
  - apply app_nil in Eab as [-> ->]. destruct (IH (k - 1) (r1 ++ r2) ltac:(lia) Hnd' (H0 eq_refl)) as (g & Hg & Hs).
    exists (g ++ [[el]]). split; [right; by exists g|]. intros x z. rewrite together_added, (Hs x z). cbn [app].
    rewrite (together_perm (r1 ++ [el] :: r2) ((r1 ++ r2) ++ [[el]])) by solve_Permutation. by rewrite together_added.
  - destruct (IH k (r1 ++ (c0 :: l0) :: r2) ltac:(lia) Hnd' (Hn0 ltac:(done))) as (g & Hg & Hs).
    pose proof (partitions_ok seed k ltac:(lia)) as Hgp. rewrite Forall_forall in Hgp. pose proof (Hgp g Hg) as (Hgl & _ & Hgc).
    assert (Hmid : (r1 ++ (c0 :: l0) :: r2) !! length r1 = Some (c0 :: l0)) by (by apply list_lookup_middle).
    assert (Hc0 : c0 ∈ concat g) by (rewrite Hgc, <- Hc; apply (elem_concat _ _ _ _ Hmid); by left).
    apply concat_elem in Hc0 as (y & l & Hy & Hcl). assert (Hng : NoDup (concat g)) by (by rewrite Hgc).
    exists (add_at el y g). split; [left; exists g, y; split; [done|]; split; [by eapply lookup_lt_Some|done]|].
    rewrite <- Eab in *. apply (add_back el a b r1 r2 g y l); try done. intros x.
    rewrite <- (together_of g y l c0 x Hng Hy Hcl), (Hs c0 x). apply (together_of _ (length r1)); [done|done|]. rewrite Eab. by left.
Qed.

(** The arrays of [append]: each element in a new one, or each array twice as large
    as the one before. *)
Definition double (c : nat) : nat := Nat.max 1 (2 * c).
Lemma Partition_double ss k h t : 1 <= k <= length ss -> length ss <= 5 -> Partition double ss (Z.of_nat k) [] = Ok (h, t) -> contents h t = partitions ss k.
Proof.
  intros Hk Hl HP. assert (H : ('(h, t) ← Partition double ss (Z.of_nat k) []; Ok (contents h t)) = Ok (E := unit) (partitions ss k)); [|rewrite HP in H; by injection H].
  clear h t HP. do 6 (destruct ss as [|? ss]; [do 6 (destruct k as [|k]; [first [vm_compute; reflexivity|cbn in Hk; lia]|]); cbn in Hk; lia|]). cbn in Hl. lia.
Qed.

(** * The properties *)

(** C40: [Partition] of [n] elements in [k] parts, 1 <= k <= n, returns, however [append]
    lets arrays grow, as many rows as its comment says, the Stirling number of the second
    kind, and each row is of [k] lists, none empty, of [n] elements in all.  Where no list
    has room behind it, or where arrays double, as they do in Go, and there are at most five
    elements, the rows are the partitions: each row has every element in one of its lists, as often as
    it was given; and if the elements differ, no two rows are the same partition, and
    every partition in [k] parts is one of the rows, in some order of its lists and their elements.  From six
    elements on rows can overwrite each other: see [Partition_shared]. *)
Theorem Partition_partitions grow ss k : 1 <= k <= length ss ->
  exists h t, Partition grow ss (Z.of_nat k) [] = Ok (h, t) /\
    length t = stirling (length ss) k /\ Forall (row_shape (length ss) k) t /\
    ((forall c, grow c = S c) \/ grow = double /\ length ss <= 5 ->
     Forall (is_partition ss k) (contents h t) /\
     (NoDup ss -> ForallOrdPairs differ (contents h t) /\
       forall row, is_partition ss k row -> exists r, r ∈ contents h t /\ same_partition r row)).
Proof.
  intros Hk. destruct (Partition_shape grow ss k [] Hk) as (h & t & HP & Hn & Hs). exists h, t. split; [done|]. split; [done|]. split; [done|].
  intros Hg. assert (contents h t = partitions ss k) as ->.
  { destruct Hg as [Hg|[-> Hg]]; [|by apply Partition_double]. apply Partition_is in HP as [_ Ht]; [|done..]. by apply contents_is. }
  split; [by apply partitions_ok|]. intros Hnd. split; [by apply partitions_differ|]. intros row. by apply partitions_complete.
Qed.
Lemma Partition_partitions_witness : exists h t, Partition double [[1%Z]; [2%Z]; [3%Z]] 2 [] = Ok (h, t) /\ length t = 3 /\
  Forall (is_partition [[1%Z]; [2%Z]; [3%Z]] 2) (contents h t) /\ ForallOrdPairs differ (contents h t).
Proof.
  destruct (Partition_partitions double [[1%Z]; [2%Z]; [3%Z]] 2 ltac:(cbn; lia)) as (h & t & HP & Hn & _ & Hr).
  destruct (Hr ltac:(right; split; [reflexivity|cbn; lia])) as [Hp Hd]. exists h, t. split; [exact HP|]. split; [exact Hn|]. split; [exact Hp|].
  apply Hd. apply (bool_decide_unpack _). vm_compute. exact Logic.I.
Defined.

(** The example of the tests, with arrays that grow to twice their size. *)
Example Partition_abc : Partition_of double [[97%Z]; [98%Z]; [99%Z]] 2 =
  Ok [[[[98%Z]; [97%Z]]; [[99%Z]]]; [[[98%Z]]; [[99%Z]; [97%Z]]]; [[[98%Z]; [99%Z]]; [[97%Z]]]].
Proof. vm_compute. reflexivity. Qed.
(** Of six elements, some rows lose one and hold another twice: two rows have added to the list they share. *)
Definition numbered (n : nat) : list text := map (fun i => [Z.of_nat i]) (seq 1 n).
Definition row_partitions (n : nat) (row : list (list text)) : bool :=
  bool_decide (length (concat row) = n) && forallb (fun x => existsb (fun y => bool_decide (x = y)) (concat row)) (numbered n).
Example Partition_shared : exists t, Partition_of double (numbered 6) 2 = Ok t /\ length t = 31 /\
  length (List.filter (fun row => negb (row_partitions 6 row)) t) = 4.
Proof. eexists. split; [vm_compute; reflexivity|]. split; vm_compute; reflexivity. Qed.
Example Partition_five : exists t, Partition_of double (numbered 5) 2 = Ok t /\ forallb (row_partitions 5) t = true.
Proof. eexists. split; vm_compute; reflexivity. Qed.
