(* ===== verification/TabRecord.v ===== *)
(** Package [lib/tabula], files [record.go], [records.go], [column.go], [columns.go],
    [row.go], [rows.go] and [maprows.go]: the cells of a table.

    Records and rows are shared between the rows, the columns and the datasets that hold
    them, so both are on a heap and held by their addresses; a slice of them is a list.
    Floating-point numbers are a parameter, as what they are for is arithmetic. *)

From Stdlib Require Import ZArith Lia.
From S2P Require Import Prelude Ascii Bytes Strconv.

Local Open Scope Z_scope.

Abbreviation text := (list Z).
(** A [*Record], which may be nil. *)
Abbreviation ptr := (option nat).

(** What the code uses of [float64] and of its texts. *)
Class Floats : Type := {
  float : Type;
  float_eqb : float -> float -> bool;
  float_ltb : float -> float -> bool;
  float_zero : float;
  float_minus_inf : float;
  is_minus_inf : float -> bool;
  float_of_int : Z -> float;
  int_of_float : float -> Z;
  ParseFloat : text -> option float;
  FormatFloat : float -> text
}.

Definition TUndefined : Z := -1.
Definition TString : Z := 0.
Definition TInteger : Z := 1.
Definition TReal : Z := 2.

Section Cells.
Context `{Floats}.

(** ** Record *)

(** The value of a record, an [interface{}]. *)
Inductive value : Type :=
| VNil
| VString (s : text)
| VInt (i : Z)
| VReal (f : float).

(** [SetValue]: the value, or the error of the conversion, which leaves it.  A type that is none of
    the three leaves it too. *)
Definition SetValue (old : value) (v : text) (t : Z) : option value :=
  if t =? TString then Some (VString v)
  else if t =? TInteger then VInt <$> ParseInt64 v
  else if t =? TReal then VReal <$> ParseFloat v
  else Some old.
Definition NewRecordBy (v : text) (t : Z) : option value := SetValue VNil v t.
Definition value_Type (v : value) : Z := match v with VInt _ => TInteger | VReal _ => TReal | _ => TString end.
Definition value_String (v : value) : text :=
  match v with VNil => [] | VString s => s | VInt i => dec i | VReal f => FormatFloat f end.
Definition MinInt64 : Z := - 2 ^ 63.
Definition IsMissingValue (v : value) : bool :=
  match v with
  | VNil => false
  | VString s => bool_decide (s = [63])
  | VInt i => i =? MinInt64
  | VReal f => is_minus_inf f
  end.
Definition value_Float (v : value) : float :=
  match v with
  | VNil => float_zero
  | VString s => match ParseFloat s with Some f => f | None => float_minus_inf end
  | VInt i => float_of_int i
  | VReal f => f
  end.
Definition value_Integer (v : value) : Z :=
  match v with
  | VNil => 0
  | VString s => match ParseInt64 s with Some i => i | None => MinInt64 end
  | VInt i => i
  | VReal f => int_of_float f
  end.
(** [reflect.DeepEqual] of two values. *)
Definition value_IsEqual (a b : value) : bool :=
  match a, b with
  | VNil, VNil => true
  | VString s, VString t => bool_decide (s = t)
  | VInt i, VInt j => i =? j
  | VReal f, VReal g => float_eqb f g
  | _, _ => false
  end.
Definition value_IsEqualToString (v : value) (s : text) : bool := bool_decide (value_String v = s).
Definition value_Reset (v : value) : value :=
  match v with VNil => VNil | VString _ => VString [] | VInt _ => VInt 0 | VReal _ => VReal float_zero end.

(** ** The heap *)

Record heap : Type := mkHeap { h_recs : list value; h_rows : list (list ptr) }.
Definition M (A : Type) : Type := heap -> outcome unit (A * heap).

#[export] Instance M_ret : MRet M := fun A a h => Ok (a, h).
#[export] Instance M_bind : MBind M := fun A B f m h => '(a, h) ← m h; f a h.

Definition panic {A} : M A := fun _ => Panic.
Definition at_ {A} (l : list A) (i : Z) : M A := match l !! Z.to_nat i with Some a => if i <? 0 then panic else mret a | None => panic end.
Definition new_record (v : value) : M ptr := fun h => Ok (Some (length (h_recs h)), mkHeap (h_recs h ++ [v]) (h_rows h)).
Definition get_record (p : ptr) : M value := fun h =>
  match p with Some a => match h_recs h !! a with Some v => Ok (v, h) | None => Panic end | None => Panic end.
Definition set_record (p : ptr) (v : value) : M unit := fun h =>
  match p with
  | Some a => if decide (a < length (h_recs h))%nat then Ok (tt, mkHeap (<[a := v]> (h_recs h)) (h_rows h)) else Panic
  | None => Panic
  end.
Definition new_row (cells : list ptr) : M nat := fun h => Ok (length (h_rows h), mkHeap (h_recs h) (h_rows h ++ [cells])).
Definition get_row (r : nat) : M (list ptr) := fun h => match h_rows h !! r with Some cells => Ok (cells, h) | None => Panic end.
Definition set_row (r : nat) (cells : list ptr) : M unit := fun h =>
  if decide (r < length (h_rows h))%nat then Ok (tt, mkHeap (h_recs h) (<[r := cells]> (h_rows h))) else Panic.
Fixpoint map_M {A B} (f : A -> M B) (l : list A) : M (list B) :=
  match l with [] => mret [] | a :: l => b ← f a; bs ← map_M f l; mret (b :: bs) end.
Fixpoint fold_M {A S} (f : S -> A -> M S) (s : S) (l : list A) : M S :=
  match l with [] => mret s | a :: l => s ← f s a; fold_M f s l end.

(** ** Column *)

Record Column : Type := mkColumn { c_name : text; c_type : Z; c_flag : Z; c_vs : list text; c_recs : list ptr }.
Definition zero_column : Column := mkColumn [] 0 0 [] [].
Definition with_recs (c : Column) (recs : list ptr) : Column := mkColumn (c_name c) (c_type c) (c_flag c) (c_vs c) recs.
Definition Column_Reset (c : Column) : Column := mkColumn (c_name c) (c_type c) 0 (c_vs c) [].
Definition Column_PushBack (c : Column) (p : ptr) : Column := with_recs c (c_recs c ++ [p]).
Definition PushRecords (c : Column) (ps : list ptr) : Column := with_recs c (c_recs c ++ ps).

Definition NewColumn (t : Z) (name : text) : Column := mkColumn name t 0 [] [].
Definition NewColumnOf (vs : list value) (t : Z) (name : text) : M Column :=
  ps ← map_M new_record vs; mret (with_recs (NewColumn t name) ps).
Definition NewColumnString (data : list text) (t : Z) (name : text) : M Column := NewColumnOf (map VString data) t name.
Definition NewColumnInt (data : list Z) (name : text) : M Column := NewColumnOf (map VInt data) TInteger name.
Definition NewColumnReal (data : list float) (name : text) : M Column := NewColumnOf (map VReal data) TReal name.

Definition records_of {A} (f : value -> A) (ps : list ptr) : M (list A) := map_M (fun p => v ← get_record p; mret (f v)) ps.
Definition ToIntegers (c : Column) : M (list Z) := records_of value_Integer (c_recs c).
Definition ToFloatSlice (c : Column) : M (list float) := records_of value_Float (c_recs c).
Definition ToStringSlice (c : Column) : M (list text) := records_of value_String (c_recs c).
Definition ClearValues (c : Column) : M unit := fold_M (fun _ p => v ← get_record p; set_record p (value_Reset v)) tt (c_recs c).
(** [Record.SetValue] through a pointer: the error is dropped by every caller. *)
Definition ptr_SetValue (p : ptr) (v : text) (t : Z) : M unit :=
  old ← get_record p; match SetValue old v t with Some new => set_record p new | None => mret tt end.
Definition Column_SetValueAt (c : Column) (idx : Z) (v : text) : M unit :=
  if idx <? 0 then mret tt
  else if Z.of_nat (length (c_recs c)) <=? idx then mret tt
  else p ← at_ (c_recs c) idx; ptr_SetValue p v (c_type c).
Definition SetValueByNumericAt (c : Column) (idx : Z) (v : float) : M unit :=
  if idx <? 0 then mret tt
  else if Z.of_nat (length (c_recs c)) <=? idx then mret tt
  else if c_type c =? TString then p ← at_ (c_recs c) idx; set_record p (VString (FormatFloat v))
  else if c_type c =? TInteger then p ← at_ (c_recs c) idx; set_record p (VInt (int_of_float v))
  else if c_type c =? TReal then p ← at_ (c_recs c) idx; set_record p (VReal v)
  else mret tt.
(** [SetValues]: the records of an empty column are made, but as nil pointers. *)
Definition SetValues (c : Column) (values : list text) : M Column :=
  let recs := if isnil (c_recs c) then replicate (length values) None else c_recs c in
  _ ← map_M (fun '(p, v) => ptr_SetValue p v (c_type c)) (zip recs values);
  mret (with_recs c recs).
Definition DeleteRecordAt (c : Column) (i : Z) : Column * ptr :=
  if i <? 0 then (c, None)
  else match c_recs c !! Z.to_nat i with
  | None => (c, None)
  | Some p => (with_recs c (delete (Z.to_nat i) (c_recs c)), p)
  end.

(** ** Records *)

Fixpoint put_all {A} (out : list A) (x : nat) (l : list A) : M (list A) :=
  match l with
  | [] => mret out
  | a :: l => if decide (x < length out)%nat then put_all (<[x := a]> out) (S x) l else panic
  end.
Definition SortByIndex (recs : list ptr) (idx : list Z) : M (list ptr) :=
  sorted ← map_M (at_ recs) idx; put_all (replicate (length recs) None) 0 sorted.
Definition CountWhere (recs : list ptr) (v : value) : M nat :=
  fold_M (fun c p => w ← get_record p; mret (if value_IsEqual w v then S c else c)) 0%nat recs.
Definition CountsWhere (recs : list ptr) (vs : list value) : M (list nat) := map_M (CountWhere recs) vs.

(** ** Columns *)

Definition Columns_Reset (cols : list Column) : list Column := map Column_Reset cols.
Fixpoint SetTypes (cols : list Column) (types : list Z) : list Column :=
  match cols, types with
  | c :: cols, t :: types => mkColumn (c_name c) t (c_flag c) (c_vs c) (c_recs c) :: SetTypes cols types
  | _, _ => cols
  end.
(** [GetMinMaxLength]; both begin at zero. *)
Fixpoint GetMinMaxLength_loop (cols : list Column) (mn mx : nat) : nat * nat :=
  match cols with
  | [] => (mn, mx)
  | c :: cols =>
      let n := length (c_recs c) in
      if decide (n < mn)%nat then GetMinMaxLength_loop cols n mx
      else if decide (mx < n)%nat then GetMinMaxLength_loop cols mn n
      else GetMinMaxLength_loop cols mn mx
  end.
Definition GetMinMaxLength (cols : list Column) : nat * nat := GetMinMaxLength_loop cols 0 0.
Definition escaped_cell (v : value) (sep esc : text) : text :=
  if value_Type v =? TString then (EncloseToken (value_String v) sep esc []).1 else value_String v.
Fixpoint join_cells (vs : list value) (sep esc : text) : text :=
  match vs with
  | [] => []
  | [v] => escaped_cell v sep esc
  | v :: vs => escaped_cell v sep esc ++ sep ++ join_cells vs sep esc
  end.
Definition Columns_Join (cols : list Column) (row : Z) (sep esc : text) : M text :=
  vs ← map_M (fun c => p ← at_ (c_recs c) row; get_record p) cols; mret (join_cells vs sep esc).

(** ** Row *)

Definition row_Types (r : nat) : M (list Z) := cells ← get_row r; records_of value_Type cells.
Definition row_PushBack (r : nat) (p : ptr) : M unit := cells ← get_row r; set_row r (cells ++ [p]).
Definition row_Clone (r : nat) : M nat := cells ← get_row r; vs ← map_M get_record cells; ps ← map_M new_record vs; new_row ps.
Definition IsNilAt (r : nat) (idx : Z) : M bool :=
  cells ← get_row r;
  if idx <? 0 then mret true
  else match cells !! Z.to_nat idx with
  | None | Some None => mret true
  | Some p => v ← get_record p; mret (match v with VNil => true | _ => false end)
  end.
Definition row_SetValueAt (r : nat) (idx : Z) (p : ptr) : M unit :=
  cells ← get_row r;
  if (idx <? 0) || (Z.of_nat (length cells) <=? idx) then panic else set_row r (<[Z.to_nat idx := p]> cells).
Definition GetRecord (r : nat) (i : Z) : M ptr :=
  cells ← get_row r; mret (if i <? 0 then None else default None (cells !! Z.to_nat i)).
Definition GetValueAt (r : nat) (idx : Z) : M (value * bool) :=
  cells ← get_row r;
  if Z.of_nat (length cells) <=? idx then mret (VNil, false) else p ← at_ cells idx; v ← get_record p; mret (v, true).
Definition GetIntAt (r : nat) (idx : Z) : M (Z * bool) :=
  cells ← get_row r;
  if Z.of_nat (length cells) <=? idx then mret (0, false) else p ← at_ cells idx; v ← get_record p; mret (value_Integer v, true).
Fixpoint cells_equal (a b : list ptr) : M bool :=
  match a, b with
  | p :: a, q :: b => v ← get_record p; w ← get_record q; if value_IsEqual v w then cells_equal a b else mret false
  | _, _ => mret true
  end.
Definition row_IsEqual (r s : nat) : M bool :=
  a ← get_row r; b ← get_row s;
  if decide (length a = length b) then cells_equal a b else mret false.

(** ** Rows *)

Definition PopFront (rows : list nat) : option nat * list nat := match rows with [] => (None, []) | r :: rows => (Some r, rows) end.
Definition rows_Del (rows : list nat) (i : Z) : list nat * option nat :=
  if i <? 0 then (rows, None)
  else match rows !! Z.to_nat i with None => (rows, None) | Some r => (delete (Z.to_nat i) rows, Some r) end.
Fixpoint Contain_loop (rows : list nat) (xrow : nat) (x : Z) : M (bool * Z) :=
  match rows with
  | [] => mret (false, -1)
  | r :: rows => e ← row_IsEqual xrow r; if e : bool then mret (true, x) else Contain_loop rows xrow (x + 1)
  end.
Definition rows_Contain (rows : list nat) (xrow : nat) : M (bool * Z) := Contain_loop rows xrow 0.
Definition rows_Contains (rows xrows : list nat) : M (bool * list Z) :=
  if isnil xrows then mret (false, [])
  else
    found ← map_M (rows_Contain rows) xrows;
    let indices := map snd (filter (fun f => f.1 = true) found) in
    mret (if decide (length indices = length xrows) then (true, indices) else (false, [])).
Fixpoint SelectWhere (rows : list nat) (colidx : Z) (colval : text) : M (list nat) :=
  match rows with
  | [] => mret []
  | r :: rows =>
      cells ← get_row r; p ← at_ cells colidx; v ← get_record p;
      sel ← SelectWhere rows colidx colval;
      mret (if value_IsEqualToString v colval then r :: sel else sel)
  end.

(** [MapRows], and [GroupByValue], which empties the rows. *)
Fixpoint AddRow (m : list (text * list nat)) (k : text) (r : nat) : list (text * list nat) :=
  match m with
  | [] => [(k, [r])]
  | (k', rs) :: m => if decide (k' = k) then (k', rs ++ [r]) :: m else (k', rs) :: AddRow m k r
  end.
Definition GroupByValue (rows : list nat) (groupIdx : Z) : M (list (text * list nat)) :=
  fold_M (fun m r =>
    cells ← get_row r; p ← at_ cells groupIdx;
    key ← match p with Some _ => v ← get_record p; mret (value_String v) | None => mret (str "<nil>") end;
    mret (AddRow m key r)) [] rows.
Fixpoint GetMinority_loop (m : list (text * list nat)) (mn : Z) (out : text * list nat) : text * list nat :=
  match m with
  | [] => out
  | (k, rs) :: m => if Z.of_nat (length rs) <? mn then GetMinority_loop m (Z.of_nat (length rs)) (k, rs) else GetMinority_loop m mn out
  end.
Definition GetMinority (m : list (text * list nat)) : text * list nat := GetMinority_loop m (2 ^ 31 - 1) ([], []).

(** [RandomPick]: the indices that [rand.Intn] gives are a list; an index that was picked before
    is drawn again.  On no rows the code has nothing to draw from. *)
Fixpoint draw (draws : list nat) (picked : list nat) : option (nat * list nat) :=
  match draws with
  | [] => None
  | i :: draws => if decide (i ∈ picked) then draw draws picked else Some (i, draws)
  end.
Fixpoint pick_rows (n : nat) (rows : list nat) (duplicate : bool) (draws : list nat) (pickedIdx : list nat) : outcome unit (list nat) :=
  match n with
  | O => Ok pickedIdx
  | S n =>
      if isnil rows then Panic
      else match (if duplicate then (match draws with [] => None | i :: draws => Some (i, draws) end) else draw draws pickedIdx) with
      | None => NoFuel
      | Some (i, draws) => pick_rows n rows duplicate draws (pickedIdx ++ [i])
      end
  end.
Definition rows_at (rows idx : list nat) : list nat := omap (fun i => rows !! i) idx.
Definition RandomPick (rows : list nat) (n : Z) (duplicate : bool) (draws : list nat) :
    outcome unit (list nat * list nat * list nat * list nat) :=
  let n := if (Z.of_nat (length rows) <? n) && negb duplicate then length rows else Z.to_nat n in
  pickedIdx ← pick_rows n rows duplicate draws [];
  let unpickedIdx := filter (fun i => ~ i ∈ pickedIdx) (seq 0 (length rows)) in
  Ok (rows_at rows pickedIdx, rows_at rows unpickedIdx, pickedIdx, unpickedIdx).
End Cells.
