(* ===== verification/Tabula.v ===== *)
(** Package [lib/tabula], files [dataset.go], [datasetinterface.go] and [claset.go]: a table
    that is kept as rows, as columns or as both.

    The slice behind the records of a column, or behind the rows of a dataset, is a list, so
    two datasets that hold one column do not see what the other appends; the records and
    the rows themselves are shared.  What debugging prints and JSON are left out. *)

From Stdlib Require Import ZArith Lia.
From S2P Require Import Prelude Ascii Utf8 Bytes Ints Strings TabRecord.

Local Open Scope Z_scope.

Definition DatasetNoMode : Z := 0.
Definition DatasetModeRows : Z := 1.
Definition DatasetModeColumns : Z := 2.
Definition DatasetModeMatrix : Z := 4.

Section Dataset.
Context `{Floats}.

Record Dataset : Type := mkDataset { d_mode : Z; d_cols : list Column; d_rows : list nat }.
Definition with_cols (d : Dataset) (cols : list Column) : Dataset := mkDataset (d_mode d) cols (d_rows d).
Definition with_rows (d : Dataset) (rows : list nat) : Dataset := mkDataset (d_mode d) (d_cols d) rows.
Inductive dataset_error : Type := ErrColIdxOutOfRange | ErrInvalidColType.

(** ** Sizes, modes and columns *)

Definition is_matrix (mode : Z) : bool := (mode =? DatasetModeMatrix) || (mode =? DatasetNoMode).

Definition SetMode (d : Dataset) (mode : Z) : Dataset :=
  if mode =? DatasetModeRows then mkDataset DatasetModeRows (d_cols d) []
  else if mode =? DatasetModeColumns then mkDataset DatasetModeColumns (Columns_Reset (d_cols d)) (d_rows d)
  else mkDataset DatasetModeMatrix (Columns_Reset (d_cols d)) [].
Definition Reset (d : Dataset) : Dataset := mkDataset (d_mode d) (Columns_Reset (d_cols d)) [].

Definition GetNColumn (d : Dataset) : M nat :=
  if isnil (d_cols d) then
    if d_mode d =? DatasetModeRows then
      match d_rows d with [] => mret 0%nat | r :: _ => cells ← get_row r; mret (length cells) end
    else mret 0%nat
  else mret (length (d_cols d)).
Definition GetNRow (d : Dataset) : nat :=
  if d_mode d =? DatasetModeRows then length (d_rows d)
  else if d_mode d =? DatasetModeColumns then match d_cols d with [] => 0%nat | c :: _ => length (c_recs c) end
  else if is_matrix (d_mode d) then length (d_rows d)
  else 0%nat.

Definition GetColumnsType (d : Dataset) : list Z := map c_type (d_cols d).
Definition SetColumnsType (d : Dataset) (types : list Z) : Dataset := with_cols d (SetTypes (replicate (length types) zero_column) types).
Definition GetColumnTypeAt (d : Dataset) (idx : Z) : M (Z * option dataset_error) :=
  ncol ← GetNColumn d;
  if Z.of_nat ncol <=? idx then mret (TUndefined, Some ErrColIdxOutOfRange) else c ← at_ (d_cols d) idx; mret (c_type c, None).
Definition SetColumnTypeAt (d : Dataset) (idx tipe : Z) : M (Dataset * option dataset_error) :=
  ncol ← GetNColumn d;
  if Z.of_nat ncol <=? idx then mret (d, Some ErrColIdxOutOfRange)
  else
    c ← at_ (d_cols d) idx;
    mret (with_cols d (<[Z.to_nat idx := mkColumn (c_name c) tipe (c_flag c) (c_vs c) (c_recs c)]> (d_cols d)), None).
Definition GetColumnsName (d : Dataset) : list text := map c_name (d_cols d).
Fixpoint set_names (n : nat) (cols : list Column) (names : list text) : M (list Column) :=
  match n with
  | O => mret cols
  | S n =>
      match cols, names with
      | c :: cols, name :: names =>
          cols ← set_names n cols names; mret (mkColumn name (c_type c) (c_flag c) (c_vs c) (c_recs c) :: cols)
      | _, _ => panic
      end
  end.
Definition SetColumnsName (d : Dataset) (names : list text) : M Dataset :=
  if isnil names then mret d
  else
    collen ← GetNColumn d;
    let cols := if decide (collen = 0%nat) then replicate (length names) zero_column else d_cols d in
    let collen := if decide (collen = 0%nat) then length names else collen in
    cols ← set_names (Nat.min collen (length names)) cols names;
    mret (with_cols d cols).

(** [Init], [NewDataset]: no types is none. *)
Definition Init (d : Dataset) (mode : Z) (types : list Z) (names : list text) : M Dataset :=
  let d := with_cols d (SetTypes (replicate (length types) zero_column) types) in
  d ← SetColumnsName d names; mret (SetMode d mode).
Definition NewDataset (mode : Z) (types : list Z) (names : list text) : M Dataset := Init (mkDataset 0 [] []) mode types names.

Definition GetRow (d : Dataset) (idx : Z) : option nat := if idx <? 0 then None else d_rows d !! Z.to_nat idx.

(** ** Rows *)

(** The cell [y] of a row is pushed to [Columns[y]] for each [y] below [n]. *)
Fixpoint push_first (n : nat) (cols : list Column) (cells : list ptr) : M (list Column) :=
  match n with
  | O => mret cols
  | S n =>
      match cols, cells with
      | c :: cols, p :: cells => cols ← push_first n cols cells; mret (Column_PushBack c p :: cols)
      | _, _ => panic
      end
  end.
Definition PushRowToColumns (d : Dataset) (row : nat) : M Dataset :=
  cells ← get_row row;
  if isnil cells then mret d
  else
    let cols := if isnil (d_cols d) then replicate (length cells) zero_column else d_cols d in
    cols ← push_first (Nat.min (length cells) (length cols)) cols cells;
    mret (with_cols d cols).
Definition PushRow (d : Dataset) (row : nat) : M Dataset :=
  if d_mode d =? DatasetModeRows then mret (with_rows d (d_rows d ++ [row]))
  else if d_mode d =? DatasetModeColumns then PushRowToColumns d row
  else if is_matrix (d_mode d) then PushRowToColumns (with_rows d (d_rows d ++ [row])) row
  else mret d.

Definition TransposeToColumns (d : Dataset) : M Dataset :=
  if decide (GetNRow d = 0%nat) then mret d
  else
    ncol ← GetNColumn d;
    d ← (if decide (ncol = 0%nat) then
           match GetRow d 0 with None => panic | Some r => types ← row_Types r; mret (SetColumnsType d types) end
         else mret d);
    let ncol := if decide (ncol = 0%nat) then length (d_cols d) else ncol in
    let orgmode := d_mode d in
    done ← (if orgmode =? DatasetModeRows then mret false
            else c ← at_ (d_cols d) 0; mret (negb (isnil (c_recs c))));
    if done : bool then mret d
    else
      match GetRow d 0 with
      | None => panic
      | Some r =>
          cells ← get_row r;
          let minlen := Nat.min (length cells) ncol in
          let d := if (orgmode =? DatasetModeRows) || (orgmode =? DatasetNoMode) then SetMode d DatasetModeColumns else d in
          cols ← fold_M (fun cols r => cells ← get_row r; push_first minlen cols cells) (d_cols d) (d_rows d);
          let d := with_cols d cols in
          mret (if orgmode =? DatasetModeRows then with_rows d [] else d)
      end.

(** The cells of a row that is made of columns; a column that ends before it gives a new record. *)
Fixpoint cells_at (cols : list Column) (r : nat) : M (list ptr) :=
  match cols with
  | [] => mret []
  | c :: cols =>
      p ← match c_recs c !! r with Some p => mret p | None => new_record VNil end;
      ps ← cells_at cols r; mret (p :: ps)
  end.
Definition max_length (cols : list Column) : nat := foldr (fun c n => Nat.max (length (c_recs c)) n) 0%nat cols.
Definition TransposeToRows (d : Dataset) : M Dataset :=
  let orgmode := d_mode d in
  if orgmode =? DatasetModeRows then mret d
  else
    let d := if orgmode =? DatasetModeColumns then SetMode d DatasetModeRows else d in
    rows ← map_M (fun r => cells ← cells_at (d_cols d) r; new_row cells) (seq 0 (max_length (d_cols d)));
    let d := with_rows d rows in
    mret (if orgmode =? DatasetModeColumns then with_cols d (Columns_Reset (d_cols d)) else d).

Definition GetDataAsRows (d : Dataset) : M (Dataset * list nat) :=
  d ← (if d_mode d =? DatasetModeColumns then TransposeToRows d else mret d); mret (d, d_rows d).
Definition GetDataAsColumns (d : Dataset) : M (Dataset * list Column) :=
  d ← (if d_mode d =? DatasetModeRows then TransposeToColumns d else mret d); mret (d, d_cols d).
(** [GetColumn]; the index that is the number of columns passes the guard. *)
Definition GetColumn (d : Dataset) (idx : Z) : M (Dataset * option Column) :=
  ncol ← GetNColumn d;
  if Z.of_nat ncol <? idx then mret (d, None)
  else
    d ← (if d_mode d =? DatasetModeRows then TransposeToColumns d else mret d);
    c ← at_ (d_cols d) idx; mret (d, Some c).
Definition find_column (cols : list Column) (name : text) : option (nat * Column) := list_find (fun c => c_name c = name) cols.
Definition GetColumnByName (d : Dataset) (name : text) : M (Dataset * option Column) :=
  d ← (if d_mode d =? DatasetModeRows then TransposeToColumns d else mret d); mret (d, snd <$> find_column (d_cols d) name).

(** ** Columns *)

(** The first row with nothing at the index. *)
Fixpoint empty_at (rows : list nat) (colIdx : Z) (x : nat) : M nat :=
  match rows with
  | [] => mret x
  | r :: rows => nil ← IsNilAt r colIdx; if nil : bool then mret x else empty_at rows colIdx (S x)
  end.
(** Step 2: the rows from there on take the records; step 3: rows of one record take the rest. *)
Fixpoint fill_rows (rows : list nat) (colIdx : Z) (recs : list ptr) : M (list ptr) :=
  match rows with
  | [] => mret recs
  | r :: rows => match recs with [] => panic | p :: recs => _ ← row_SetValueAt r colIdx p; fill_rows rows colIdx recs end
  end.
Definition dummy_row (ncol : nat) (colIdx : Z) (p : ptr) : M nat :=
  cells ← map_M (fun z => if Z.of_nat z =? colIdx then mret p else new_record VNil) (seq 0 ncol); new_row cells.
Definition FillRowsWithColumn (d : Dataset) (colIdx : Z) (col : Column) : M Dataset :=
  if negb (d_mode d =? DatasetModeRows) then mret d
  else
    emptyAt ← empty_at (d_rows d) colIdx 0;
    recs ← fill_rows (drop emptyAt (d_rows d)) colIdx (c_recs col);
    ncol ← GetNColumn d;
    fold_M (fun d p => r ← dummy_row ncol colIdx p; PushRow d r) d recs.

Fixpoint push_cells (rows : list nat) (recs : list ptr) : M unit :=
  match rows, recs with
  | r :: rows, p :: recs => _ ← row_PushBack r p; push_cells rows recs
  | _, _ => mret tt
  end.
Definition PushColumnToRows (d : Dataset) (col : Column) : M Dataset :=
  if isnil (c_recs col) then mret d
  else
    d ← (if decide (GetNRow d = 0%nat) then
           rows ← map_M (fun _ : ptr => new_row []) (c_recs col); mret (with_rows d rows)
         else mret d);
    _ ← push_cells (d_rows d) (c_recs col);
    mret d.
Definition PushColumn (d : Dataset) (col : Column) : M Dataset :=
  let exist := find_column (d_cols d) (c_name col) in
  let pushed := match exist with Some (i, c) => with_cols d (<[i := PushRecords c (c_recs col)]> (d_cols d)) | None => with_cols d (d_cols d ++ [col]) end in
  if d_mode d =? DatasetModeRows then
    match exist with
    | Some (i, _) => FillRowsWithColumn d (Z.of_nat i) col
    | None => d' ← PushColumnToRows pushed col; mret (with_cols d' (d_cols d ++ [Column_Reset col]))
    end
  else if d_mode d =? DatasetModeColumns then mret pushed
  else if is_matrix (d_mode d) then match exist with Some _ => mret pushed | None => PushColumnToRows pushed col end
  else mret d.
Definition AddColumn (d : Dataset) (tipe : Z) (name : text) (vs : list text) : M Dataset := PushColumn d (mkColumn name tipe 0 vs []).

(** [Clone]: the columns of the clone are pushed by their names. *)
Definition Clone (d : Dataset) : M Dataset :=
  clone ← NewDataset (d_mode d) [] [];
  fold_M (fun clone col => PushColumn clone (mkColumn (c_name col) (c_type col) 0 (c_vs col) [])) clone (d_cols d).

(** ** Two datasets, and one row less *)

Definition MergeColumns (d other : Dataset) : M (Dataset * Dataset) :=
  let othermode := d_mode other in
  other ← (if othermode =? DatasetModeRows then TransposeToColumns other else mret other);
  '(other, cols) ← GetDataAsColumns other;
  d ← fold_M PushColumn d cols;
  other ← (if othermode =? DatasetModeRows then TransposeToRows other else mret other);
  mret (d, other).
Definition MergeRows (d other : Dataset) : M (Dataset * Dataset) :=
  '(other, rows) ← GetDataAsRows other;
  d ← fold_M PushRow d rows;
  mret (d, other).
Definition DeleteRow (d : Dataset) (i : Z) : M (Dataset * option nat) :=
  if i <? 0 then mret (d, None)
  else if Z.of_nat (length (d_rows d)) <=? i then mret (d, None)
  else
    let orgmode := d_mode d in
    d ← (if orgmode =? DatasetModeColumns then TransposeToRows d else mret d);
    let '(rows, row) := rows_Del (d_rows d) i in
    let d := with_rows d rows in
    d ← (if orgmode =? DatasetModeColumns then TransposeToColumns d else mret d);
    let d := if orgmode =? DatasetModeRows then d else with_cols d (map (fun c => (DeleteRecordAt c i).1) (d_cols d)) in
    mret (d, row).

(** ** [datasetinterface.go] *)

Definition to_rows (orgmode : Z) (d : Dataset) : M Dataset := if orgmode =? DatasetModeColumns then TransposeToRows d else mret d.
Definition to_columns_of_rows (orgmode : Z) (d : Dataset) : M Dataset := if orgmode =? DatasetModeRows then TransposeToColumns d else mret d.
(** The datasets made of rows are brought to the mode of the original. *)
Definition back (orgmode : Z) (d : Dataset) : M Dataset :=
  if (orgmode =? DatasetModeColumns) || is_matrix orgmode then TransposeToColumns d else mret d.

Definition SortColumnsByIndex (d : Dataset) (sortedIdx : list Z) : M Dataset :=
  d ← to_columns_of_rows (d_mode d) d;
  cols ← map_M (fun c => recs ← SortByIndex (c_recs c) sortedIdx; mret (with_recs c recs)) (d_cols d);
  mret (with_cols d cols).

(** The rows that satisfy a test and the rows that do not. *)
Definition split_rows (test : value -> bool) (colidx : Z) (rows : list nat) (l r : Dataset) : M (Dataset * Dataset) :=
  fold_M (fun '(l, r) row =>
    cells ← get_row row; p ← at_ cells colidx; v ← get_record p;
    if test v then l ← PushRow l row; mret (l, r) else r ← PushRow r row; mret (l, r)) (l, r) rows.
Definition SplitRowsByNumeric (d : Dataset) (colidx : Z) (splitVal : float) : M (Dataset * (Dataset * Dataset + dataset_error)) :=
  '(coltype, e) ← GetColumnTypeAt d colidx;
  match e with
  | Some e => mret (d, inr e)
  | None =>
      if negb ((coltype =? TInteger) || (coltype =? TReal)) then mret (d, inr ErrInvalidColType)
      else
        let orgmode := d_mode d in
        d ← to_rows orgmode d;
        l ← Clone d; r ← Clone d;
        '(l, r) ← split_rows (fun v => float_ltb (value_Float v) splitVal) colidx (d_rows d) l r;
        if orgmode =? DatasetModeColumns then
          d ← TransposeToColumns d; l ← TransposeToColumns l; r ← TransposeToColumns r; mret (d, inl (l, r))
        else mret (d, inl (l, r))
  end.
Definition SplitRowsByCategorical (d : Dataset) (colidx : Z) (splitVal : list text) : M (Dataset * (Dataset * Dataset + dataset_error)) :=
  '(coltype, e) ← GetColumnTypeAt d colidx;
  match e with
  | Some e => mret (d, inr e)
  | None =>
      if negb (coltype =? TString) then mret (d, inr ErrInvalidColType)
      else
        let orgmode := d_mode d in
        d ← to_rows orgmode d;
        l ← Clone d; r ← Clone d;
        '(l, r) ← split_rows (fun v => existsb (fun s => value_IsEqualToString v s) splitVal) colidx (d_rows d) l r;
        d ← (if orgmode =? DatasetModeColumns then TransposeToColumns d else mret d);
        l ← back orgmode l; r ← back orgmode r;
        mret (d, inl (l, r))
  end.
Definition SelectRowsWhere (d : Dataset) (colidx : Z) (colval : text) : M (Dataset * Dataset) :=
  let orgmode := d_mode d in
  d ← to_rows orgmode d;
  selected ← NewDataset (d_mode d) [] [];
  rows ← SelectWhere (d_rows d) colidx colval;
  let selected := with_rows selected rows in
  d ← (if orgmode =? DatasetModeColumns then TransposeToColumns d else mret d);
  selected ← back orgmode selected;
  mret (d, selected).
Definition RandomPickRows (d : Dataset) (n : Z) (duplicate : bool) (draws : list nat) :
    M (Dataset * (Dataset * Dataset) * (list nat * list nat)) :=
  let orgmode := d_mode d in
  d ← to_rows orgmode d;
  picked ← Clone d; unpicked ← Clone d;
  '(pr, ur, pi, ui) ← (fun h => '(x) ← RandomPick (d_rows d) n duplicate draws; Ok (x, h));
  d ← (if orgmode =? DatasetModeColumns then TransposeToColumns d else mret d);
  picked ← back orgmode (with_rows picked pr);
  unpicked ← back orgmode (with_rows unpicked ur);
  mret (d, (picked, unpicked), (pi, ui)).
Definition SelectColumnsByIdx (d : Dataset) (colsIdx : list Z) : M (Dataset * Dataset) :=
  let orgmode := d_mode d in
  d ← to_columns_of_rows orgmode d;
  newset ← Clone d;
  '(d, newset) ← fold_M (fun '(d, newset) idx =>
    '(d, col) ← GetColumn d idx;
    match col with None => mret (d, newset) | Some col => newset ← PushColumn newset col; mret (d, newset) end) (d, newset) colsIdx;
  if orgmode =? DatasetModeRows then d ← TransposeToRows d; newset ← TransposeToRows newset; mret (d, newset)
  else mret (d, newset).

(** ** [claset.go]: a dataset one of whose columns is the class

    A value space that is nil and one that is empty are one value. *)

Context `{Unicode}.
Record Claset : Type := mkClaset { cs_data : Dataset; cs_index : Z; cs_vs : list text; cs_counts : list Z; cs_major : text; cs_minor : text }.
Definition with_data (c : Claset) (d : Dataset) : Claset := mkClaset d (cs_index c) (cs_vs c) (cs_counts c) (cs_major c) (cs_minor c).

Definition NewClaset (mode : Z) (types : list Z) (names : list text) : M Claset :=
  d ← NewDataset mode types names; mret (mkClaset d (-1) [] [] [] []).
Definition Claset_Clone (c : Claset) : M Claset :=
  d ← Clone (cs_data c); mret (mkClaset d (cs_index c) [] [] (cs_major c) (cs_minor c)).
Definition GetClassType (c : Claset) : M Z :=
  if isnil (d_cols (cs_data c)) then mret TString else col ← at_ (d_cols (cs_data c)) (cs_index c); mret (c_type col).
Definition GetClassValueSpace (c : Claset) : M (list text) :=
  if isnil (d_cols (cs_data c)) then mret [] else col ← at_ (d_cols (cs_data c)) (cs_index c); mret (c_vs col).
(** [GetClassRecords], and with it [GetClassColumn]: the column is transposed first. *)
Definition GetClassRecords (c : Claset) : M (Claset * list ptr) :=
  d ← to_columns_of_rows (d_mode (cs_data c)) (cs_data c);
  if isnil (d_cols d) then mret (with_data c d, []) else col ← at_ (d_cols d) (cs_index c); mret (with_data c d, c_recs col).
Definition GetClassAsStrings (c : Claset) : M (Claset * list text) :=
  '(c, recs) ← GetClassRecords c; l ← records_of value_String recs; mret (c, l).
Definition GetClassAsReals (c : Claset) : M (Claset * list float) :=
  '(c, recs) ← GetClassRecords c; l ← records_of value_Float recs; mret (c, l).
Definition GetClassAsInteger (c : Claset) : M (Claset * list Z) :=
  '(c, recs) ← GetClassRecords c; l ← records_of value_Integer recs; mret (c, l).
Definition CountValueSpaces (c : Claset) : M Claset :=
  '(c, classv) ← GetClassAsStrings c;
  vs ← GetClassValueSpace c;
  mret (mkClaset (cs_data c) (cs_index c) vs (map Z.of_nat (CountTokens classv vs false)) (cs_major c) (cs_minor c)).
Definition claset_Counts (c : Claset) : M (Claset * list Z) :=
  c ← (if isnil (cs_counts c) then CountValueSpaces c else mret c); mret (c, cs_counts c).
Definition RecountMajorMinor (c : Claset) : M Claset :=
  c ← CountValueSpaces c;
  let '(_, maxIdx, maxok) := Max (cs_counts c) in
  let '(_, minIdx, minok) := Min (cs_counts c) in
  major ← (if maxok : bool then at_ (cs_vs c) (Z.of_nat maxIdx) else mret (cs_major c));
  minor ← (if minok : bool then at_ (cs_vs c) (Z.of_nat minIdx) else mret (cs_minor c));
  mret (mkClaset (cs_data c) (cs_index c) (cs_vs c) (cs_counts c) major minor).
Definition IsInSingleClass (c : Claset) : M (Claset * (bool * text)) :=
  '(c, classv) ← GetClassAsStrings c;
  mret (c, match classv with
           | [] => (false, [])
           | t :: l => if forallb (fun s => bool_decide (s = t)) l then (true, t) else (false, [])
           end).
Definition GetMinorityRows (c : Claset) : M (Claset * list nat) :=
  if decide (GetNRow (cs_data c) = 0%nat) then mret (c, [])
  else
    c ← (if isnil (cs_vs c) then RecountMajorMinor c else mret c);
    rows ← SelectWhere (d_rows (cs_data c)) (cs_index c) (cs_minor c);
    mret (c, rows).
End Dataset.
