(* ===== verification/TabulaFacts.v ===== *)
(** The dataset of [lib/tabula] against its contract: whatever its mode, it is a table, and
    what is read of it as rows or as columns is that table, for rows of its width and
    without deletions in columns mode; and examples of what happens else. *)

From Stdlib Require Import ZArith Lia String.
From S2P Require Import Prelude Ascii Utf8 Bytes TabRecord Tabula.

Local Open Scope nat_scope.

Section Facts.
Context `{Floats}.

Lemma M_bind_Ok {A B} (m : M A) (f : A -> M B) h a h1 : m h = Ok (a, h1) -> (m ≫= f) h = f a h1.
Proof. intros Hm. unfold mbind, M_bind. by rewrite Hm. Qed.

(** ** What a dataset holds *)

Abbreviation table := (list (list ptr)).
Definition column (t : table) (j : nat) : list ptr := map (fun cells => default None (cells !! j)) t.
Definition columns_of (w : nat) (t : table) : list (list ptr) := map (column t) (seq 0 w).
Definition rows_hold (h : heap) (rows : list nat) (t : table) : Prop := Forall2 (fun r cells => h_rows h !! r = Some cells) rows t.
Definition cols_hold (cols : list Column) (t : table) : Prop := map c_recs cols = columns_of (length cols) t.

(** A dataset of [w] columns, of the mode [m], that holds the table [t]. *)
Definition holds (w : nat) (h : heap) (d : Dataset) (m : Z) (t : table) : Prop :=
  0 < w /\ length (d_cols d) = w /\ d_mode d = m /\ Forall (fun cells => length cells = w) t /\
  (m = DatasetModeRows /\ rows_hold h (d_rows d) t /\ cols_hold (d_cols d) [] \/
   m = DatasetModeColumns /\ d_rows d = [] /\ cols_hold (d_cols d) t \/
   m = DatasetModeMatrix /\ rows_hold h (d_rows d) t /\ cols_hold (d_cols d) t).

Definition snoc_each (cols : list (list ptr)) (cells : list ptr) : list (list ptr) := zip_with (fun rs p => rs ++ [p]) cols cells.

Lemma columns_of_lookup w t j : columns_of w t !! j = if decide (j < w) then Some (column t j) else None.
Proof.
  unfold columns_of. rewrite list_lookup_fmap. case_decide.
  - by rewrite lookup_seq_lt by done.
  - by rewrite lookup_seq_ge by lia.
Qed.
Lemma columns_of_snoc w t cells : length cells = w -> columns_of w (t ++ [cells]) = snoc_each (columns_of w t) cells.
Proof.
  intros Hl. apply list_eq. intros j. unfold snoc_each. rewrite lookup_zip_with, !columns_of_lookup. case_decide as Hj; [|done].
  destruct (lookup_lt_is_Some_2 cells j ltac:(lia)) as [p Hp]. rewrite Hp. unfold column. rewrite map_app.
  cbn [map]. by rewrite Hp.
Qed.
Lemma cols_hold_Reset cols : cols_hold (Columns_Reset cols) [].
Proof.
  unfold cols_hold, columns_of, Columns_Reset. rewrite !map_map, length_map.
  apply list_eq. intros j. rewrite !list_lookup_fmap. destruct (decide (j < length cols)) as [Hj|Hj].
  - rewrite lookup_seq_lt by done. by destruct (lookup_lt_is_Some_2 cols j Hj) as [c ->].
  - rewrite lookup_seq_ge by lia. by rewrite lookup_ge_None_2 by lia.
Qed.
Lemma cols_hold_at cols t c : cols_hold cols t -> c ∈ cols -> length (c_recs c) = length t.
Proof.
  intros Hc Hin. apply list_elem_of_lookup_1 in Hin as [j Hj]. pose proof (lookup_lt_Some _ _ _ Hj) as Hlt.
  assert (Hl : map c_recs cols !! j = Some (c_recs c)) by (rewrite list_lookup_fmap; by rewrite Hj).
  rewrite Hc, columns_of_lookup, decide_True in Hl by done. injection Hl as <-. unfold column. by rewrite length_map.
Qed.

(** ** Pushing *)

Lemma push_first_ok n : forall cols cells h, length cols = n -> length cells = n ->
  push_first n cols cells h = Ok (zip_with Column_PushBack cols cells, h).
Proof.
  induction n as [|n IH]; intros [|c cols] [|p cells] h Hc Hl; try done. cbn [push_first]. unfold mbind, M_bind.
  rewrite IH by (cbn in Hc, Hl; lia). done.
Qed.
Lemma push_first_recs cols : forall cells, length cells = length cols ->
  map c_recs (zip_with Column_PushBack cols cells) = snoc_each (map c_recs cols) cells /\
  length (zip_with Column_PushBack cols cells) = length cols.
Proof.
  induction cols as [|c cols IH]; intros [|p cells] Hl; try done. destruct (IH cells ltac:(cbn in Hl; lia)) as [H1 H2].
  cbn. rewrite H1, H2. done.
Qed.
Lemma cols_hold_push cols t cells : cols_hold cols t -> length cells = length cols -> cols_hold (zip_with Column_PushBack cols cells) (t ++ [cells]).
Proof.
  intros Hc Hl. destruct (push_first_recs cols cells Hl) as [H1 H2]. unfold cols_hold. rewrite H1, H2, Hc. by rewrite columns_of_snoc.
Qed.
Lemma fold_push_ok w h rows t2 : rows_hold h rows t2 -> Forall (fun cells => length cells = w) t2 -> forall cols t1,
  length cols = w -> cols_hold cols t1 ->
  exists cols', fold_M (fun cols r => cells ← get_row r; push_first w cols cells) cols rows h = Ok (cols', h) /\
    length cols' = w /\ cols_hold cols' (t1 ++ t2).
Proof.
  intros Hr. induction Hr as [|r cells rows t2 Hr _ IH]; intros Hw cols t1 Hl Hc.
  - exists cols. by rewrite app_nil_r.
  - apply Forall_cons in Hw as [Hw Hws]. cbn [fold_M]. unfold mbind, M_bind, get_row. rewrite Hr. cbn [mbind outcome_bind].
    rewrite push_first_ok by congruence. cbn [mbind outcome_bind].
    destruct (push_first_recs cols cells ltac:(congruence)) as [_ Hl2].
    destruct (IH Hws (zip_with Column_PushBack cols cells) (t1 ++ [cells])) as (cols' & HE & Hl' & Hc'); [congruence|by apply cols_hold_push; congruence|].
    exists cols'. split; [exact HE|]. split; [done|]. by rewrite <- app_assoc in Hc'.
Qed.

(** ** From columns to rows *)

Lemma cells_at_ok (cols : list Column) t r cells h : cols_hold cols t -> t !! r = Some cells -> length cells = length cols ->
  cells_at cols r h = Ok (cells, h).
Proof.
  intros Hc Hr Hl.
  assert (Hi : forall j c, cols !! j = Some c -> exists p, c_recs c !! r = Some p /\ cells !! j = Some p).
  { intros j c Hj. pose proof (lookup_lt_Some _ _ _ Hj) as Hlt. destruct (lookup_lt_is_Some_2 cells j ltac:(lia)) as [p Hp]. exists p. split; [|done].
    assert (Hcj : map c_recs cols !! j = Some (c_recs c)) by (rewrite list_lookup_fmap; by rewrite Hj).
    rewrite Hc, columns_of_lookup, decide_True in Hcj by done. injection Hcj as <-. unfold column. rewrite list_lookup_fmap, Hr. cbn. by rewrite Hp. }
  clear Hc Hr. revert cells Hl Hi. induction cols as [|c cols IH]; intros [|p cells] Hl Hi; try done.
  destruct (Hi 0 c eq_refl) as (q & Hq & Hp). cbn in Hp. injection Hp as <-. cbn [cells_at]. rewrite Hq. unfold mbind, M_bind, mret, M_ret. cbn [mbind outcome_bind].
  rewrite (IH cells); [done|cbn in Hl; lia|]. intros j c' Hj. exact (Hi (S j) c' Hj).
Qed.
Lemma max_length_ok cols t : cols_hold cols t -> 0 < length cols -> max_length cols = length t.
Proof.
  intros Hc Hl. assert (Hall : Forall (fun c => length (c_recs c) = length t) cols).
  { apply Forall_forall. intros c Hin. by eapply cols_hold_at. }
  clear Hc. destruct cols as [|c cols]; [cbn in Hl; lia|]. clear Hl. revert c Hall. induction cols as [|c' cols IH]; intros c Hall.
  - apply Forall_cons in Hall as [Hc _]. cbn. lia.
  - apply Forall_cons in Hall as [Hc Hall]. specialize (IH c' Hall). change (Nat.max (length (c_recs c)) (max_length (c' :: cols)) = length t). lia.
Qed.
Lemma rows_hold_grow h rows t more : rows_hold h rows t -> rows_hold (mkHeap (h_recs h) (h_rows h ++ more)) rows t.
Proof. intros Hr. eapply Forall2_impl; [exact Hr|]. intros r cells Hl. cbn. by apply lookup_app_l_Some. Qed.
Lemma make_rows_ok cols t : forall t2 t1 h, cols_hold cols t -> t = t1 ++ t2 -> Forall (fun cells => length cells = length cols) t ->
  exists rows, map_M (fun r => cells ← cells_at cols r; new_row cells) (seq (length t1) (length t2)) h =
      Ok (rows, mkHeap (h_recs h) (h_rows h ++ t2)) /\ rows_hold (mkHeap (h_recs h) (h_rows h ++ t2)) rows t2.
Proof.
  induction t2 as [|cells t2 IH]; intros t1 h Hc Ht Hw.
  - exists []. rewrite app_nil_r. destruct h. split; [done|constructor].
  - cbn [length seq map_M]. unfold mbind, M_bind. cbn [mbind outcome_bind].
    assert (Hr : t !! length t1 = Some cells) by (rewrite Ht, lookup_app_r, Nat.sub_diag by lia; done).
    rewrite (cells_at_ok cols t _ cells) by (done || (rewrite Forall_forall in Hw; apply Hw; by eapply list_elem_of_lookup_2)).
    cbn [mbind outcome_bind new_row].
    destruct (IH (t1 ++ [cells]) (mkHeap (h_recs h) (h_rows h ++ [cells])) Hc) as (rows & HE & Hh); [by rewrite <- app_assoc|done|].
    rewrite length_app in HE. cbn [length] in HE. rewrite Nat.add_1_r in HE. unfold mbind, M_bind in HE. rewrite HE. cbn [mbind outcome_bind h_recs h_rows] in *.
    rewrite <- app_assoc in *. cbn [app] in *. eexists. split; [done|]. constructor; [|done]. cbn. by rewrite lookup_app_r, Nat.sub_diag by lia.
Qed.

(** ** The contract *)

(** What may be asked of a dataset: a row of the given cells is pushed, the mode is changed,
    a row is deleted, all is forgotten. *)
Inductive op : Type := OPush (cells : list ptr) | OToColumns | OToRows | ODelete (i : Z) | OReset.
Definition perform (d : Dataset) (o : op) : M Dataset :=
  match o with
  | OPush cells => r ← new_row cells; PushRow d r
  | OToColumns => TransposeToColumns d
  | OToRows => TransposeToRows d
  | ODelete i => '(d, _) ← DeleteRow d i; mret d
  | OReset => mret (Reset d)
  end.
(** The mode and the table after that. *)
Definition promised (s : Z * table) (o : op) : Z * table :=
  let '(m, t) := s in
  match o with
  | OPush cells => (m, t ++ [cells])
  | OToColumns => (if (m =? DatasetModeRows)%Z && negb (isnil t) then DatasetModeColumns else m, t)
  | OToRows => (if (m =? DatasetModeColumns)%Z then DatasetModeRows else m, t)
  | ODelete i => (m, if (i <? 0)%Z then t else delete (Z.to_nat i) t)
  | OReset => (m, [])
  end.
(** What the operations ask for: a row that is pushed has as many cells as there are columns,
    and rows are deleted in the two modes that have them. *)
Definition op_suits (w : nat) (s : Z * table) (o : op) : Prop :=
  match o with OPush cells => length cells = w | ODelete _ => s.1 ≠ DatasetModeColumns | _ => True end.
Fixpoint ops_suit (w : nat) (s : Z * table) (ops : list op) : Prop :=
  match ops with [] => True | o :: ops => op_suits w s o /\ ops_suit w (promised s o) ops end.

Lemma rows_hold_push h rows t cells : rows_hold h rows t ->
  rows_hold (mkHeap (h_recs h) (h_rows h ++ [cells])) (rows ++ [length (h_rows h)]) (t ++ [cells]).
Proof.
  intros Hr. apply Forall2_app; [by apply rows_hold_grow|]. constructor; [|done]. cbn. by rewrite lookup_app_r, Nat.sub_diag by lia.
Qed.
Lemma PushRowToColumns_ok h d r cells t : h_rows h !! r = Some cells -> length cells = length (d_cols d) -> 0 < length cells ->
  cols_hold (d_cols d) t -> exists cols, PushRowToColumns d r h = Ok (with_cols d cols, h) /\ length cols = length (d_cols d) /\ cols_hold cols (t ++ [cells]).
Proof.
  intros Hr Hl Hpos Hc. unfold PushRowToColumns, mbind, M_bind, get_row. rewrite Hr. cbn [mbind outcome_bind].
  destruct cells as [|p cells]; [cbn in Hpos; lia|]. cbn [isnil]. destruct (d_cols d) as [|c cols] eqn:Hcols; [done|]. cbn [isnil].
  rewrite push_first_ok by (rewrite ?Hl, Nat.min_id; done). cbn [mbind outcome_bind]. eexists. split; [done|].
  split; [by apply push_first_recs|by apply cols_hold_push].
Qed.
Lemma get_row_ok h r cells : h_rows h !! r = Some cells -> get_row r h = Ok (cells, h).
Proof. intros Hr. unfold get_row. by rewrite Hr. Qed.
Lemma GetNRow_holds w h d m t : holds w h d m t -> GetNRow d = length t.
Proof.
  intros (Hw & Hl & Hm & Ht & [(-> & Hr & _)|[(-> & _ & Hc)|(-> & Hr & _)]]); unfold GetNRow; rewrite Hm; cbn.
  - by eapply Forall2_length.
  - destruct (d_cols d) as [|c cols] eqn:Hcols; [cbn in Hl; lia|]. eapply cols_hold_at; [exact Hc|]. by left.
  - by eapply Forall2_length.
Qed.
Lemma GetNColumn_holds w h d m t : holds w h d m t -> GetNColumn d h = Ok (w, h).
Proof. intros (Hw & Hl & _). unfold GetNColumn. destruct (d_cols d); [cbn in Hl; lia|]. cbn [isnil]. by rewrite <- Hl. Qed.

Lemma push_holds w h d m t cells : holds w h d m t -> length cells = w ->
  let h' := mkHeap (h_recs h) (h_rows h ++ [cells]) in exists d', perform d (OPush cells) h = Ok (d', h') /\ holds w h' d' m (t ++ [cells]).
Proof.
  intros (Hw & Hl & Hm & Ht & Hcase) Hcells. cbn zeta. cbn [perform]. unfold mbind at 1, M_bind at 1. cbn [new_row mbind outcome_bind].
  set (h1 := mkHeap _ _). assert (Hr1 : h_rows h1 !! length (h_rows h) = Some cells) by (cbn; by rewrite lookup_app_r, Nat.sub_diag by lia).
  assert (Ht' : Forall (fun cells => length cells = w) (t ++ [cells])) by (apply Forall_app; by repeat constructor).
  unfold PushRow. rewrite Hm. destruct Hcase as [(-> & Hr & Hc)|[(-> & Hr & Hc)|(-> & Hr & Hc)]]; cbn -[PushRowToColumns h1].
  - eexists. split; [done|]. repeat split; try done. left. split; [done|]. split; [by apply rows_hold_push|done].
  - destruct (PushRowToColumns_ok h1 d _ cells t Hr1) as (cols & -> & Hl' & Hc'); [congruence|lia|done|].
    eexists. split; [done|]. repeat split; try done; [cbn; congruence|]. right; left. done.
  - destruct (PushRowToColumns_ok h1 (with_rows d (d_rows d ++ [length (h_rows h)])) _ cells t Hr1) as (cols & -> & Hl' & Hc');
      [cbn; congruence|lia|done|].
    eexists. split; [done|]. repeat split; try done; [cbn in *; congruence|]. right; right. split; [done|]. split; [by apply rows_hold_push|done].
Qed.

Lemma to_columns_holds w h d m t : holds w h d m t ->
  exists d' h', TransposeToColumns d h = Ok (d', h') /\ holds w h' d' (if (m =? DatasetModeRows)%Z && negb (isnil t) then DatasetModeColumns else m) t.
Proof.
  intros Hh. unfold TransposeToColumns. rewrite (GetNRow_holds _ _ _ _ _ Hh). destruct t as [|cells t].
  { rewrite decide_True by done. rewrite andb_false_r. by eexists _, _. }
  rewrite decide_False by done. unfold mbind at 1, M_bind at 1. rewrite (GetNColumn_holds _ _ _ _ _ Hh). cbn [mbind outcome_bind].
  destruct Hh as (Hw & Hl & Hm & Ht & Hcase). rewrite !(decide_False (P := w = 0)) by lia. unfold mbind at 1, M_bind at 1. cbn [mret M_ret mbind outcome_bind].
  rewrite Hm. destruct Hcase as [(-> & Hr & Hc)|Hcase].
  - unfold mbind at 1, M_bind at 1. cbn [Z.eqb Pos.eqb DatasetModeRows mret M_ret mbind outcome_bind orb andb negb isnil].
    destruct (d_rows d) as [|r rows] eqn:Hrows; [inversion Hr|]. assert (HG : GetRow d 0 = Some r) by (unfold GetRow; by rewrite Hrows). rewrite HG.
    pose proof Hr as Hr0. apply Forall2_cons in Hr0 as [Hr0 _]. unfold mbind at 1, M_bind at 1. rewrite (get_row_ok h r cells Hr0). cbn [mbind outcome_bind].
    rewrite (decide_False (P := w = 0)) by lia. pose proof Ht as Ht0. apply Forall_cons in Ht0 as [Ht0 _]. rewrite Ht0, Nat.min_id.
    destruct (fold_push_ok w h (r :: rows) (cells :: t) Hr Ht (Columns_Reset (d_cols d)) []) as (cols & HE & Hl' & Hc');
      [unfold Columns_Reset; by rewrite length_map|apply cols_hold_Reset|].
    change (d_cols (SetMode d DatasetModeColumns)) with (Columns_Reset (d_cols d)). change (d_rows (SetMode d DatasetModeColumns)) with (d_rows d).
    rewrite Hrows. unfold mbind at 1, M_bind at 1. rewrite HE. cbn [mbind outcome_bind]. eexists _, _. split; [done|].
    repeat split; try done. right; left. done.
  - assert (Hcs : exists c cols, d_cols d = c :: cols /\ c_recs c ≠ []).
    { destruct (d_cols d) as [|c cols] eqn:Hcols; [cbn in Hl; lia|]. exists c, cols. split; [done|]. intros Hnil.
      assert (Hc : cols_hold (c :: cols) (cells :: t)) by (destruct Hcase as [(_ & _ & Hc)|(_ & _ & Hc)]; exact Hc).
      pose proof (cols_hold_at _ _ c Hc ltac:(by left)) as Hlen. by rewrite Hnil in Hlen. }
    destruct Hcs as (c & cols & Hcols & Hne). assert (Hm' : (m =? DatasetModeRows)%Z = false) by (by destruct Hcase as [(-> & _)|(-> & _)]).
    rewrite Hm', Hcols. cbn [andb]. rewrite (M_bind_Ok _ _ h true h) by (rewrite (M_bind_Ok _ _ h c h) by done; by destruct (c_recs c)).
    eexists _, _. split; [done|].
    repeat split; try done. by right.
Qed.

Lemma to_rows_holds w h d m t : holds w h d m t ->
  exists d' h', TransposeToRows d h = Ok (d', h') /\ holds w h' d' (if (m =? DatasetModeColumns)%Z then DatasetModeRows else m) t.
Proof.
  intros (Hw & Hl & Hm & Ht & Hcase). unfold TransposeToRows. rewrite Hm. destruct Hcase as [(-> & Hr & Hc)|Hcase].
  { eexists _, _. split; [done|]. repeat split; try done. by left. }
  assert (Hc : cols_hold (d_cols d) t) by (destruct Hcase as [(_ & _ & Hc)|(_ & _ & Hc)]; exact Hc).
  assert (Hm' : (m =? DatasetModeRows)%Z = false) by (by destruct Hcase as [(-> & _)|(-> & _)]). rewrite Hm'.
  destruct (make_rows_ok (d_cols d) t t [] h Hc eq_refl) as (rows & HE & Hh); [by rewrite Hl|].
  rewrite <- (max_length_ok _ _ Hc) in HE by lia.
  destruct Hcase as [(-> & _)|(-> & _)].
  - rewrite (M_bind_Ok _ _ h rows (mkHeap (h_recs h) (h_rows h ++ t))) by exact HE. eexists _, _. split; [done|].
    repeat split; try done; [cbn; by unfold Columns_Reset; rewrite length_map|]. left. split; [done|]. split; [done|]. apply cols_hold_Reset.
  - rewrite (M_bind_Ok _ _ h rows (mkHeap (h_recs h) (h_rows h ++ t))) by exact HE. eexists _, _. split; [done|].
    repeat split; try done. right; right. done.
Qed.

Lemma DeleteRecordAt_recs c i : (0 <= i)%Z -> c_recs (DeleteRecordAt c i).1 = delete (Z.to_nat i) (c_recs c).
Proof.
  intros Hi. unfold DeleteRecordAt. rewrite (proj2 (Z.ltb_ge i 0)) by done. destruct (c_recs c !! Z.to_nat i) eqn:Hp; [done|]. cbn.
  apply lookup_ge_None_1 in Hp. rewrite delete_take_drop, take_ge, drop_ge by lia. by rewrite app_nil_r.
Qed.
Lemma cols_hold_delete cols t i : (0 <= i)%Z -> cols_hold cols t ->
  cols_hold (map (fun c => (DeleteRecordAt c i).1) cols) (delete (Z.to_nat i) t).
Proof.
  intros Hi Hc. unfold cols_hold in *. rewrite length_map, map_map.
  rewrite (map_ext _ (fun c => delete (Z.to_nat i) (c_recs c))) by (intros c; by apply DeleteRecordAt_recs).
  rewrite <- (map_map c_recs (delete (Z.to_nat i))), Hc. unfold columns_of. rewrite map_map. apply map_ext. intros j. unfold column.
  symmetry. apply (list_fmap_delete (fun cells : list ptr => default None (cells !! j))).
Qed.
Lemma DeleteRow_ok d i h r : (0 <= i)%Z -> d_rows d !! Z.to_nat i = Some r -> d_mode d = DatasetModeRows \/ d_mode d = DatasetModeMatrix ->
  let d' := with_rows d (delete (Z.to_nat i) (d_rows d)) in
  DeleteRow d i h = Ok ((if (d_mode d =? DatasetModeRows)%Z then d' else with_cols d' (map (fun c => (DeleteRecordAt c i).1) (d_cols d)), Some r), h).
Proof.
  intros Hi Hri Hm. pose proof (lookup_lt_Some _ _ _ Hri) as Hlt. unfold DeleteRow.
  rewrite (proj2 (Z.ltb_ge i 0)), (proj2 (Z.leb_gt _ _)) by lia.
  assert (Hne : (d_mode d =? DatasetModeColumns)%Z = false) by (by destruct Hm as [-> | ->]). rewrite Hne.
  rewrite (M_bind_Ok _ _ h d h eq_refl). unfold rows_Del. rewrite (proj2 (Z.ltb_ge i 0)), Hri by done.
  by rewrite (M_bind_Ok _ _ h _ h eq_refl).
Qed.
Lemma delete_holds w h d m t i : holds w h d m t ->
  exists d' h', perform d (ODelete i) h = Ok (d', h') /\ holds w h' d' m (if (m =? DatasetModeColumns)%Z || (i <? 0)%Z then t else delete (Z.to_nat i) t).
Proof.
  intros Hh. pose proof Hh as (Hw & Hl & Hm & Ht & Hcase). cbn [perform].
  assert (Hstop : forall t', t' = t -> DeleteRow d i = mret (d, None) -> exists d' h',
    ('(d, _) ← DeleteRow d i; mret d) h = Ok (d', h') /\ holds w h' d' m t').
  { intros t' -> HE. rewrite HE. by eexists _, _. }
  destruct (Z.ltb_spec i 0) as [Hi|Hi].
  { rewrite orb_true_r. apply Hstop; [done|]. unfold DeleteRow. by rewrite (proj2 (Z.ltb_lt i 0)). }
  assert (Hout : (Z.of_nat (length (d_rows d)) <= i)%Z -> DeleteRow d i = mret (d, None)).
  { intros Hlen. unfold DeleteRow. by rewrite (proj2 (Z.ltb_ge i 0)), (proj2 (Z.leb_le _ _)) by lia. }
  rewrite orb_false_r. destruct Hcase as [(-> & Hr & Hc)|[(-> & Hr & Hc)|(-> & Hr & Hc)]]; cbn [Z.eqb Pos.eqb DatasetModeRows DatasetModeColumns DatasetModeMatrix].
  2: { rewrite Hr in Hout. apply Hstop; [done|]. by apply Hout. }
  all: destruct (Z.leb_spec (Z.of_nat (length (d_rows d))) i) as [Hlen|Hlen].
  1, 3: apply Hstop; [|by apply Hout]; apply Forall2_length in Hr; rewrite delete_take_drop, take_ge, drop_ge by lia; by rewrite app_nil_r.
  all: clear Hstop; destruct (lookup_lt_is_Some_2 (d_rows d) (Z.to_nat i) ltac:(lia)) as [r Hri];
    rewrite (M_bind_Ok _ _ h _ h (DeleteRow_ok d i h r Hi Hri ltac:(rewrite Hm; tauto))), Hm.
  all: eexists _, _; split; [done|]; repeat split; try done.
  all: try by apply Forall_delete.
  - left. split; [done|]. split; [by apply Forall2_delete|done].
  - cbn. by rewrite length_map.
  - right; right. split; [done|]. split; [by apply Forall2_delete|by apply cols_hold_delete].
Qed.

Lemma perform_promised w h d m t o : holds w h d m t -> op_suits w (m, t) o ->
  exists d' h', perform d o h = Ok (d', h') /\ holds w h' d' (promised (m, t) o).1 (promised (m, t) o).2.
Proof.
  intros Hh Ho. destruct o as [cells| | |i|]; cbn [promised fst snd].
  - destruct (push_holds w h d m t cells Hh Ho) as (d' & HE & Hh'). by eexists _, _.
  - by apply to_columns_holds.
  - by apply to_rows_holds.
  - cbn in Ho. pose proof (delete_holds w h d m t i Hh) as Hd. by rewrite (proj2 (Z.eqb_neq _ _) Ho) in Hd.
  - destruct Hh as (Hw & Hl & Hm & Ht & Hcase). eexists _, _. split; [done|]. repeat split; try done.
    + cbn. unfold Columns_Reset. by rewrite length_map.
    + destruct Hcase as [(-> & _)|[(-> & _)|(-> & _)]]; [left|right; left|right; right]; repeat split; try done; apply cols_hold_Reset || by constructor.
Qed.

(** A new dataset, and any sequence of operations on it. *)
Definition new_then (mode : Z) (types : list Z) (names : list text) (ops : list op) : M Dataset :=
  d ← NewDataset mode types names; fold_M perform d ops.

Lemma set_names_ok n : forall cols names h, n <= length cols -> n <= length names ->
  exists cols', set_names n cols names h = Ok (cols', h) /\ map c_recs cols' = map c_recs cols /\ length cols' = length cols.
Proof.
  induction n as [|n IH]; intros cols names h Hc Hn; [by eexists|]. destruct cols as [|c cols]; [cbn in Hc; lia|]. destruct names as [|name names]; [cbn in Hn; lia|].
  destruct (IH cols names h ltac:(cbn in Hc; lia) ltac:(cbn in Hn; lia)) as (cols' & HE & Hr & Hl). cbn [set_names]. rewrite (M_bind_Ok _ _ h cols' h HE).
  eexists. split; [done|]. cbn. by rewrite Hr, Hl.
Qed.
Definition mode_of (mode : Z) : Z :=
  if (mode =? DatasetModeRows)%Z then DatasetModeRows else if (mode =? DatasetModeColumns)%Z then DatasetModeColumns else DatasetModeMatrix.
Lemma SetTypes_length cols : forall types, length (SetTypes cols types) = length cols.
Proof. induction cols as [|c cols IH]; intros [|t types]; [done..|]. cbn. by rewrite IH. Qed.
Lemma SetTypes_recs cols : forall types, map c_recs (SetTypes cols types) = map c_recs cols.
Proof. induction cols as [|c cols IH]; intros [|t types]; [done..|]. cbn. by rewrite IH. Qed.
Lemma new_holds h mode types names : 0 < length types ->
  exists d, NewDataset mode types names h = Ok (d, h) /\ holds (length types) h d (mode_of mode) [].
Proof.
  intros Hw. unfold NewDataset, Init. set (cols := SetTypes (replicate (length types) zero_column) types).
  assert (Hl : length cols = length types) by (unfold cols; by rewrite SetTypes_length, length_replicate).
  assert (Hr : cols_hold cols []).
  { unfold cols_hold. unfold cols at 1. rewrite SetTypes_recs, Hl. clear. apply list_eq. intros j. rewrite columns_of_lookup, list_lookup_fmap. case_decide.
    - by rewrite lookup_replicate_2 by done.
    - by rewrite lookup_ge_None_2 by (rewrite length_replicate; lia). }
  clearbody cols. unfold with_cols at 1. cbn [d_mode d_rows].
  assert (HN : exists cols', SetColumnsName (mkDataset 0 cols []) names h = Ok (mkDataset 0 cols' [], h) /\ map c_recs cols' = map c_recs cols /\ length cols' = length cols).
  { unfold SetColumnsName. destruct names as [|name names]; [by exists cols|]. cbn [isnil].
    assert (Hn : GetNColumn (mkDataset 0 cols []) h = Ok (length cols, h)) by (unfold GetNColumn; destruct cols; [cbn in Hl; lia|done]).
    rewrite (M_bind_Ok _ _ h _ h Hn). rewrite !(decide_False (P := length cols = 0)) by lia. cbn [d_cols].
    destruct (set_names_ok (Nat.min (length cols) (length (name :: names))) cols (name :: names) h) as (cols' & HE & H1 & H2); [lia..|].
    exists cols'. by rewrite (M_bind_Ok _ _ h cols' h HE). }
  destruct HN as (cols' & HE & H1 & H2). rewrite (M_bind_Ok _ _ h _ h HE). eexists. split; [done|]. unfold SetMode, mode_of.
  assert (Hr' : cols_hold cols' []) by (unfold cols_hold; by rewrite H1, H2).
  destruct (mode =? DatasetModeRows)%Z; [|destruct (mode =? DatasetModeColumns)%Z]; repeat split; cbn; rewrite ?length_map; try done; try congruence.
  - left. repeat split; [constructor|done].
  - right; left. repeat split. apply cols_hold_Reset.
  - right; right. repeat split; [constructor|]. apply cols_hold_Reset.
Qed.

Lemma run_promised ops : forall w h d m t, holds w h d m t -> ops_suit w (m, t) ops ->
  exists d' h', fold_M perform d ops h = Ok (d', h') /\
    holds w h' d' (fold_left promised ops (m, t)).1 (fold_left promised ops (m, t)).2.
Proof.
  induction ops as [|o ops IH]; intros w h d m t Hh Ho; [by eexists _, _|]. destruct Ho as [Ho Hos]. cbn [fold_M fold_left].
  destruct (perform_promised w h d m t o Hh Ho) as (d1 & h1 & HE & H1). rewrite (M_bind_Ok _ _ h d1 h1 HE).
  destruct (promised (m, t) o) as [m1 t1]. by apply IH.
Qed.
Lemma holds_as_rows w h d m t : holds w h d m t -> exists d' rows h', GetDataAsRows d h = Ok (d', rows, h') /\ rows_hold h' rows t.
Proof.
  intros Hh. unfold GetDataAsRows. destruct Hh as (Hw & Hl & Hm & Ht & [(-> & Hr & Hc)|[(-> & Hr & Hc)|(-> & Hr & Hc)]]) eqn:E; rewrite Hm; cbn [Z.eqb Pos.eqb DatasetModeRows DatasetModeColumns DatasetModeMatrix].
  1, 3: by eexists _, _, _.
  destruct (to_rows_holds w h d _ t Hh) as (d' & h' & HE & Hh'). rewrite (M_bind_Ok _ _ h d' h' HE). eexists _, _, _. split; [done|].
  by destruct Hh' as (_ & _ & _ & _ & [(_ & Hr' & _)|[(? & _)|(? & _)]]).
Qed.
Lemma holds_as_columns w h d m t : holds w h d m t -> exists d' cols h', GetDataAsColumns d h = Ok (d', cols, h') /\ map c_recs cols = columns_of w t.
Proof.
  intros Hh. pose proof Hh as (Hw & Hl & Hm & Ht & Hcase). unfold GetDataAsColumns. rewrite Hm. destruct Hcase as [(-> & Hr & Hc)|Hcase].
  - destruct (to_columns_holds w h d _ t Hh) as (d' & h' & HE & Hh'). rewrite (M_bind_Ok _ _ h d' h' HE). eexists _, _, _. split; [done|].
    destruct Hh' as (_ & Hl' & _ & _ & Hcase'). rewrite <- Hl'. destruct t as [|cells t]; cbn in Hcase'.
    + destruct Hcase' as [(_ & _ & Hc')|[(? & _)|(? & _)]]; done.
    + destruct Hcase' as [(? & _)|[(_ & _ & Hc')|(? & _)]]; done.
  - rewrite <- Hl. destruct Hcase as [(-> & _ & Hc)|(-> & _ & Hc)]; by eexists _, _, _.
Qed.

(** ** The property *)

(** C19: a dataset made with the types of one or more columns, in any mode, is a table.
    Rows with as many cells as there are columns are pushed, the mode is changed, rows
    are deleted by index while the dataset is not in columns mode, and all is forgotten,
    in any order. Then nothing panics, and the number of its rows, its data read as rows
    and its data read as columns are those of one table, which is the one the operations
    say: the rows pushed, in order, less the ones deleted since all was last forgotten,
    where an index that no row has deletes none. Outside of these conditions the code
    does not keep the contract: a row that is too narrow can panic later
    ([narrow_row_panics]), and in columns mode a deletion does nothing
    ([DeleteRow_columns]). *)
Theorem dataset_refines h mode types names ops : types ≠ [] -> ops_suit (length types) (mode_of mode, []) ops ->
  let t := (fold_left promised ops (mode_of mode, [])).2 in
  exists d h', new_then mode types names ops h = Ok (d, h') /\ GetNRow d = length t /\
    (exists d' rows h'', GetDataAsRows d h' = Ok (d', rows, h'') /\ rows_hold h'' rows t) /\
    (exists d' cols h'', GetDataAsColumns d h' = Ok (d', cols, h'') /\ map c_recs cols = columns_of (length types) t).
Proof.
  intros Hw Ho t. destruct (new_holds h mode types names) as (d0 & HN & H0); [by destruct types; [|cbn; lia]|].
  unfold new_then. rewrite (M_bind_Ok _ _ h d0 h HN). destruct (run_promised ops _ _ _ _ _ H0 Ho) as (d & h' & HE & Hh). fold t in Hh.
  exists d, h'. split; [exact HE|]. split; [by eapply GetNRow_holds|]. split; [by eapply holds_as_rows|by eapply holds_as_columns].
Qed.
End Facts.

(** ** Instances *)

(** Whole numbers that have no text, in the place of floating-point numbers. *)
Definition whole_floats : Floats := {|
  float := Z; float_eqb := Z.eqb; float_ltb := Z.ltb; float_zero := 0%Z; float_minus_inf := MinInt64;
  is_minus_inf := fun z => (z =? MinInt64)%Z; float_of_int := fun z => z; int_of_float := fun z => z;
  ParseFloat := fun _ => None; FormatFloat := fun _ => [] |}.

Lemma dataset_refines_witness : exists d h',
  new_then (H := whole_floats) DatasetModeRows [TString; TString] [] [OPush [Some 0; Some 1]; OToColumns; OPush [Some 2; None]; OToRows; ODelete 0] (mkHeap [] []) = Ok (d, h') /\
  GetNRow d = 1 /\ (exists d' rows h'', GetDataAsRows d h' = Ok (d', rows, h'') /\ rows_hold h'' rows [[Some 2; None]]).
Proof.
  destruct (dataset_refines (H := whole_floats) (mkHeap [] []) DatasetModeRows [TString; TString] []
    [OPush [Some 0; Some 1]; OToColumns; OPush [Some 2; None]; OToRows; ODelete 0] ltac:(discriminate) ltac:(by cbn)) as (d & h' & HE & Hn & Hr & _).
  exists d, h'. split; [exact HE|]. split; [exact Hn|exact Hr].
Defined.

Section Quirks.
Local Existing Instance whole_floats.
Definition empty_heap : heap := mkHeap [] [].

(** A dataset in columns mode keeps the row it is told to delete. *)
Example DeleteRow_columns :
  (d ← NewDataset DatasetModeColumns [TString] []; d ← perform d (OPush [None]); '(d, row) ← DeleteRow d 0; mret (row, GetNRow d)) empty_heap =
  Ok (None, 1, mkHeap [] [[None]]).
Proof. vm_compute. reflexivity. Qed.
(** A row that is narrower than those before it makes bringing the rows to columns panic. *)
Example narrow_row_panics :
  new_then DatasetModeRows [TString; TString] [] [OPush [None; None]; OPush [None]; OToColumns] empty_heap = Panic.
Proof. vm_compute. reflexivity. Qed.
(** [GetColumn] of the number of the columns passes its guard and panics. *)
Example GetColumn_past : (d ← NewDataset DatasetModeMatrix [TString] []; GetColumn d 1) empty_heap = Panic.
Proof. reflexivity. Qed.
(** [SetValues] of an empty column writes through nil pointers. *)
Example SetValues_empty : SetValues (NewColumn TString []) [str "a"] empty_heap = Panic.
Proof. reflexivity. Qed.
#[local] Existing Instance Utf8.ascii_tables.
(** Of a dataset in rows mode, the minority has no rows: counting it has brought the rows to columns. *)
Definition letters_of (l : list string) : M Claset :=
  d ← NewDataset DatasetModeRows [] []; d ← AddColumn d TString (str "class") [str "a"; str "b"];
  d ← fold_M (fun d s => p ← new_record (VString (str s)); r ← new_row [p]; PushRow d r) d l;
  mret (mkClaset d 0 [] [] [] []).
Example GetMinorityRows_rows :
  ('(c, rows) ← (c ← letters_of ["a"; "b"; "a"]%string; GetMinorityRows c); mret (cs_minor c, cs_counts c, rows)) empty_heap =
  Ok (str "b", [2; 1]%Z, [], mkHeap [VString (str "a"); VString (str "b"); VString (str "a")] [[Some 0]; [Some 1]; [Some 2]]).
Proof. vm_compute. reflexivity. Qed.
(** The clone of a dataset with two columns of no name has one column. *)
Example Clone_unnamed :
  (d ← NewDataset DatasetModeMatrix [TString; TString] []; c ← Clone d; mret (length (d_cols d), length (d_cols c))) empty_heap = Ok (2, 1, empty_heap).
Proof. vm_compute. reflexivity. Qed.
End Quirks.

(** The least length of some columns is always zero. *)
Lemma GetMinMaxLength_min `{Floats} cols : (GetMinMaxLength cols).1 = 0.
Proof.
  unfold GetMinMaxLength. generalize 0 at 2 as mx. induction cols as [|c cols IH]; intros mx; [done|]. cbn [GetMinMaxLength_loop].
  rewrite decide_False by lia. case_decide; apply IH.
Qed.

(** ** Rows picked at random *)

Lemma draw_spec draws picked : forall i rest, draw draws picked = Some (i, rest) -> ~ i ∈ picked /\ i ∈ draws /\ (forall j, j ∈ rest -> j ∈ draws).
Proof.
  induction draws as [|k draws IH]; intros i rest HD; [done|]. cbn in HD. case_decide as Hk.
  - destruct (IH _ _ HD) as (H1 & H2 & H3). split; [done|]. split; [by right|]. intros j Hj. right. by apply H3.
  - injection HD as <- <-. split; [done|]. split; [by left|]. intros j Hj. by right.
Qed.
Lemma pick_rows_spec rows n : forall draws picked r, NoDup picked -> (forall i, i ∈ picked -> i < length rows) -> (forall i, i ∈ draws -> i < length rows) ->
  pick_rows n rows false draws picked = Ok r -> NoDup r /\ (forall i, i ∈ r -> i < length rows) /\ length r = length picked + n.
Proof.
  induction n as [|n IH]; intros draws picked r Hn Hp Hd HP; cbn in HP; [injection HP as <-; by rewrite Nat.add_0_r|].
  destruct (isnil rows); [done|]. destruct (draw draws picked) as [[i rest]|] eqn:HD; [|done]. destruct (draw_spec _ _ _ _ HD) as (H1 & H2 & H3).
  apply IH in HP as (G1 & G2 & G3).
  - split; [done|]. split; [done|]. rewrite G3, length_app. cbn. lia.
  - apply NoDup_app. split; [done|]. split; [|by constructor; [apply not_elem_of_nil|constructor]]. intros j Hj Hij. apply list_elem_of_singleton in Hij as ->. done.
  - intros j. rewrite elem_of_app, list_elem_of_singleton. intros [Hj| ->]; [by apply Hp|by apply Hd].
  - intros j Hj. apply Hd. by apply H3.
Qed.
Lemma rows_at_seq (rows : list nat) : rows_at rows (seq 0 (length rows)) = rows.
Proof.
  induction rows as [|r rows IH] using rev_ind; [done|]. unfold rows_at in *. rewrite length_app, Nat.add_1_r, seq_S, omap_app. cbn.
  rewrite (lookup_app_r rows), Nat.sub_diag by lia. f_equal. etrans; [|exact IH]. apply list_omap_ext. apply Forall2_same_length_lookup. split; [done|].
  intros i x y Hx Hy. assert (x = y) as -> by congruence. apply list_elem_of_lookup_2, elem_of_seq in Hy. apply lookup_app_l. lia.
Qed.
Lemma rows_at_length rows idx : (forall i, i ∈ idx -> i < length rows) -> length (rows_at rows idx) = length idx.
Proof.
  induction idx as [|i idx IH]; intros Hi; [done|]. cbn. destruct (lookup_lt_is_Some_2 rows i (Hi i ltac:(by left))) as [r ->]. cbn. f_equal. apply IH.
  intros j Hj. apply Hi. by right.
Qed.
(** Without duplicates, [RandomPick] parts the rows in as many as were asked for, or all, and the others; no row is
    picked twice. *)
Theorem RandomPick_parts rows n draws p u pi ui : (forall i, i ∈ draws -> i < length rows) ->
  RandomPick rows n false draws = Ok (p, u, pi, ui) ->
  p ++ u ≡ₚ rows /\ NoDup pi /\ length p = Nat.min (Z.to_nat n) (length rows).
Proof.
  intros Hd. unfold RandomPick. set (k := if _ : bool then _ else _). intros HP.
  assert (Hk : k = Nat.min (Z.to_nat n) (length rows)) by (unfold k; rewrite andb_true_r; destruct (Z.ltb_spec (Z.of_nat (length rows)) n); lia).
  destruct (pick_rows k rows false draws []) as [idx| | |] eqn:HI; try done. cbn in HP. injection HP as <- <- <- <-.
  destruct (pick_rows_spec rows k draws [] idx ltac:(constructor) ltac:(intros i Hi; by apply not_elem_of_nil in Hi) Hd HI) as (H1 & H2 & H3).
  split; [|split; [done|rewrite rows_at_length, H3 by done; cbn; lia]].
  transitivity (rows_at rows (seq 0 (length rows))); [|by rewrite rows_at_seq]. unfold rows_at. rewrite <- omap_app. apply omap_Permutation.
  apply NoDup_Permutation.
  - apply NoDup_app. split; [done|]. split; [intros i Hi; rewrite list_elem_of_filter; naive_solver|apply NoDup_filter, NoDup_seq].
  - apply NoDup_seq.
  - intros i. rewrite elem_of_app, list_elem_of_filter, elem_of_seq. split; [intros [Hi|Hi]; [pose proof (H2 i Hi); lia|lia]|].
    intros Hi. destruct (decide (i ∈ idx)); [by left|right; split; [done|lia]].
Qed.
