(* ===== verification/Dsv.v ===== *)
(** Package [lib/dsv]: tables in files of delimited values.

    A reader is what is left of its input, its rejected lines and its dataset; a writer is the
    bytes it wrote.  Reading and writing of files themselves, the JSON of configurations and the
    text of errors are left out: an error of reading is its type, the number the code gives it. *)

From Stdlib Require Import ZArith Lia.
From S2P Require Import Prelude Ascii Utf8 GoStrings GoPath Bytes TabRecord Tabula.

Local Open Scope Z_scope.

(** ** [metadata.go] *)

Record Metadata : Type := mkMetadata {
  md_Name : text; md_Type : text; md_T : Z; md_Separator : text; md_LeftQuote : text; md_RightQuote : text;
  md_Skip : bool; md_ValueSpace : list text
}.

Section Metadata.
Context `{Unicode}.
Definition md_Init (md : Metadata) : Metadata :=
  let with_type tipe t := mkMetadata (md_Name md) tipe t (md_Separator md) (md_LeftQuote md) (md_RightQuote md) (md_Skip md) (md_ValueSpace md) in
  let up := text_ToUpper (md_Type md) in
  if bool_decide (up = str "INTEGER" \/ up = str "INT") then with_type (md_Type md) TInteger
  else if bool_decide (up = str "REAL") then with_type (md_Type md) TReal
  else with_type (str "string") TString.
Definition NewMetadata (name tipe sep leftq rightq : text) (vs : list text) : Metadata :=
  md_Init (mkMetadata name tipe 0 sep leftq rightq false vs).
End Metadata.
Definition md_IsEqual (a b : Metadata) : bool :=
  bool_decide (md_Name a = md_Name b) && bool_decide (md_Separator a = md_Separator b) &&
  bool_decide (md_LeftQuote a = md_LeftQuote b) && bool_decide (md_RightQuote a = md_RightQuote b).
(** [FindMetadata]: the index counts the columns that are not skipped. *)
Fixpoint FindMetadata_loop (name : text) (mds : list Metadata) (idx : nat) : nat * option Metadata :=
  match mds with
  | [] => (idx, None)
  | md :: mds =>
      if decide (md_Name md = name) then (idx, Some md)
      else FindMetadata_loop name mds (if md_Skip md then idx else S idx)
  end.
Definition FindMetadata (mdin : Metadata) (mds : list Metadata) : nat * option Metadata := FindMetadata_loop (md_Name mdin) mds 0.

(** ** [readererror.go] *)

Definition EReadMissLeftQuote : Z := 1.
Definition EReadMissRightQuote : Z := 2.
Definition EReadMissSeparator : Z := 3.
Definition EReadLine : Z := 4.
Definition EReadEOF : Z := 5.
Definition ETypeConversion : Z := 6.

Definition DefEOL : Z := 10.

Section Reader.
Context `{Floats}.

(** The settings of a reader, and its state. *)
Record Settings : Type := mkSettings {
  st_ConfigPath : text; st_Input : text; st_Rejected : text; st_Skip : nat; st_TrimSpace : bool; st_MaxRows : Z; st_DatasetMode : text
}.
Record Reader : Type := mkReader { rd_set : Settings; rd_md : list Metadata; rd_input : text; rd_rejected : text; rd_dataset : Dataset }.
Definition with_input (rd : Reader) (inp : text) : Reader := mkReader (rd_set rd) (rd_md rd) inp (rd_rejected rd) (rd_dataset rd).
Definition with_dataset (rd : Reader) (d : Dataset) : Reader := mkReader (rd_set rd) (rd_md rd) (rd_input rd) (rd_rejected rd) d.
Definition with_md (rd : Reader) (mds : list Metadata) : Reader := mkReader (rd_set rd) mds (rd_input rd) (rd_rejected rd) (rd_dataset rd).
Definition with_set (rd : Reader) (st : Settings) : Reader := mkReader st (rd_md rd) (rd_input rd) (rd_rejected rd) (rd_dataset rd).
Definition Reject (rd : Reader) (line : text) : Reader := mkReader (rd_set rd) (rd_md rd) (rd_input rd) (rd_rejected rd ++ line) (rd_dataset rd).

(** [bufio.Reader.ReadBytes], and [ReadLine]: the end of the input is an error, with what was left. *)
Fixpoint split_line (inp : text) : option (text * text) :=
  match inp with
  | [] => None
  | c :: inp => if c =? DefEOL then Some ([], inp) else match split_line inp with Some (l, rest) => Some (c :: l, rest) | None => None end
  end.
Definition ReadLine (inp : text) : text * bool * text :=
  match split_line inp with Some (line, rest) => (line, false, rest) | None => (inp, true, []) end.
Definition FetchNextLine (lastline inp : text) : text * bool * text :=
  let '(line, eof, inp) := ReadLine inp in (lastline ++ [DefEOL] ++ line, eof, inp).
Fixpoint SkipLines (n : nat) (inp : text) : text * bool :=
  match n with
  | O => (inp, false)
  | S n => let '(_, eof, inp) := ReadLine inp in if eof : bool then (inp, true) else SkipLines n inp
  end.

(** ** [readerinterface.go]: a line *)

Definition parsingLeftQuote (lq line : text) (startAt : Z) : outcome unit (Z * option Z) :=
  '(p, found) ← SkipAfterToken line lq startAt false;
  Ok (Z.of_nat p, if found : bool then None else Some EReadMissLeftQuote).
Definition parsingSeparator (sep line : text) (startAt : Z) : text * Z * option Z :=
  let '(v, p, found) := CutUntilToken line sep startAt false in (v, p, if found : bool then None else Some 0).
(** [parsingRightQuote]: every turn but the last one takes a line of the input.  The type of the error
    is cleared by the [&=] that means to add the end of the input to it. *)
Fixpoint parsingRightQuote (fuel : nat) (rq line : text) (p : Z) (inp v : text) : outcome unit (text * text * Z * text * option Z) :=
  match fuel with
  | O => NoFuel
  | S fuel =>
      let '(content, p, found) := CutUntilToken line rq p true in
      let v := v ++ content in
      if found : bool then Ok (v, line, p, inp, None)
      else
        let '(line, eof, inp) := FetchNextLine line inp in
        if eof : bool then Ok (v, line, p, inp, Some (Z.land EReadMissRightQuote EReadEOF)) else parsingRightQuote fuel rq line p inp v
  end.
Definition parsingSkipSeparator (sep line : text) (startAt : Z) : outcome unit (Z * option Z) :=
  '(p, found) ← SkipAfterToken line sep startAt false;
  Ok (Z.of_nat p, if found : bool then None else Some EReadMissSeparator).
Definition is_blank (c : Z) : bool := (c =? 32) || (c =? 9) || (c =? 10) || (c =? 13).
Fixpoint count_blank (line : text) : nat := match line with c :: line => if is_blank c then S (count_blank line) else 0%nat | [] => 0%nat end.
Definition parsingSkipSpace (line : text) (startAt : Z) : Z := startAt + Z.of_nat (count_blank (drop (Z.to_nat startAt) line)).
Definition skip_if_space (sep line : text) (p : Z) : Z := if bool_decide (sep = [32]) then parsingSkipSpace line p else p.

(** The text of a column, from step (2.0) on: its value and the rest, whether the separator was the next token,
    or an error. *)
Definition parse_column (md : Metadata) (line : text) (p : Z) (inp : text) :
    outcome unit ((text * text * Z * text * bool) + (Z * text)) :=
  let lq := md_LeftQuote md in
  let rq := md_RightQuote md in
  let sep := md_Separator md in
  if negb (isnil sep) && negb (bool_decide (sep = lq)) && IsTokenAt line sep p then
    Ok (inl ([], line, p + Z.of_nat (length sep), inp, true))
  else
    '(p, e) ← (if isnil lq then Ok (p, None) else parsingLeftQuote lq line p);
    match e with
    | Some t => Ok (inr (t, inp))
    | None =>
        if negb (isnil rq) then
          '(v, line, p, inp, e) ← parsingRightQuote (S (length inp)) rq line p inp [];
          match e with
          | Some t => Ok (inr (t, inp))
          | None =>
              if isnil sep then Ok (inl (v, line, p, inp, false))
              else
                '(p, e) ← parsingSkipSeparator sep line p;
                match e with
                | Some t => Ok (inr (t, inp))
                | None => Ok (inl (v, line, skip_if_space sep line p, inp, false))
                end
          end
        else if negb (isnil sep) then
          let p := skip_if_space sep line p in
          let '(v, p, e) := parsingSeparator sep line p in
          match e with
          | Some t => Ok (inr (t, inp))
          | None => Ok (inl (v, line, skip_if_space sep line p, inp, false))
          end
        else if Z.of_nat (length line) <? p then Panic
        else Ok (inl (drop (Z.to_nat p) line, line, p + Z.of_nat (length line), inp, false))
    end.
(** [ParseLine]: the values of the row, or the type of the error, with the input that is left.  A column that
    is empty is not skipped. *)
Fixpoint ParseLine (mds : list Metadata) (line : text) (p : Z) (inp : text) (row : list value) : outcome unit ((list value + Z) * text) :=
  match mds with
  | [] => Ok (inl row, inp)
  | md :: mds =>
      c ← parse_column md line p inp;
      match c with
      | inr (t, inp) => Ok (inr t, inp)
      | inl (v, line, p, inp, empty) =>
          if negb empty && md_Skip md then ParseLine mds line p inp row
          else match NewRecordBy v (md_T md) with
          | None => Ok (inr ETypeConversion, inp)
          | Some r => ParseLine mds line p inp (row ++ [r])
          end
      end
  end.

(** ** Rows *)

(** The next line that is not blank, or what was read at the end of the input; the lines are counted. *)
Fixpoint next_line (fuel : nat) (inp : text) (n : Z) : outcome unit (text * bool * text * Z) :=
  match fuel with
  | O => NoFuel
  | S fuel =>
      let '(line, eof, inp) := ReadLine inp in
      if eof : bool then Ok (line, true, inp, n + 1)
      else if isnil (TrimSpace line) then next_line fuel inp (n + 1)
      else Ok (line, false, inp, n + 1)
  end.
Definition ReadRow (rd : Reader) (linenum : Z) : outcome unit ((list value + Z) * text * Z * Reader) :=
  '(line, eof, inp, n) ← next_line (S (length (rd_input rd))) (rd_input rd) linenum;
  if eof : bool then Ok (inr EReadEOF, line, n, with_input rd inp)
  else
    let line := if st_TrimSpace (rd_set rd) then TrimSpace line else line in
    '(row, inp) ← ParseLine (rd_md rd) line 0 inp [];
    Ok (row, line, n, with_input rd inp).

(** The row on the heap. *)
Definition make_row (vs : list value) : M nat := ps ← map_M new_record vs; new_row ps.

(** [Read]: the number of rows, and whether the end of the input was met. *)
Fixpoint Read_loop (fuel : nat) (rd : Reader) (linenum n : Z) : M (Reader * Z * bool) :=
  match fuel with
  | O => fun _ => NoFuel
  | S fuel =>
      '(row, line, linenum, rd) ← (fun h => r ← ReadRow rd linenum; Ok (r, h));
      match row with
      | inl vs =>
          r ← make_row vs;
          d ← PushRow (rd_dataset rd) r;
          let rd := with_dataset rd d in
          let n := n + 1 in
          if (0 <? st_MaxRows (rd_set rd)) && (st_MaxRows (rd_set rd) <=? n) then mret (rd, n, false) else Read_loop fuel rd linenum n
      | inr t =>
          if Z.land t EReadEOF =? EReadEOF then mret (rd, n, true)
          else Read_loop fuel (Reject rd (line ++ [DefEOL])) linenum n
      end
  end.
Definition Read (rd : Reader) : M (Reader * Z * bool) :=
  Read_loop (S (length (rd_input rd))) (with_dataset rd (Tabula.Reset (rd_dataset rd))) 0 0.

(** ** [reader.go]: the configuration *)

Definition DefaultRejected : text := str "rejected.dat".
Definition DefaultMaxRows : Z := 256.
Definition DatasetModeROWS : text := str "ROWS".
Definition DatasetModeCOLUMNS : text := str "COLUMNS".
Definition DatasetModeMATRIX : text := str "MATRIX".

Section Init.
Context `{Unicode}.
Definition SetDefault (st : Settings) : Settings :=
  mkSettings (st_ConfigPath st) (st_Input st)
    (if isnil (TrimSpace (st_Rejected st)) then DefaultRejected else st_Rejected st) (st_Skip st) (st_TrimSpace st)
    (if st_MaxRows st =? 0 then DefaultMaxRows else st_MaxRows st)
    (if isnil (TrimSpace (st_DatasetMode st)) then DatasetModeROWS else st_DatasetMode st).
Definition with_mode (st : Settings) (mode : text) : Settings :=
  mkSettings (st_ConfigPath st) (st_Input st) (st_Rejected st) (st_Skip st) (st_TrimSpace st) (st_MaxRows st) mode.
Definition SetDatasetMode (rd : Reader) (mode : text) : Reader :=
  let set m mode := with_set (with_dataset rd (SetMode (rd_dataset rd) m)) (with_mode (rd_set rd) mode) in
  let up := text_ToUpper mode in
  if bool_decide (up = DatasetModeROWS) then set DatasetModeRows mode
  else if bool_decide (up = DatasetModeCOLUMNS) then set DatasetModeColumns mode
  else set DatasetModeMatrix DatasetModeMATRIX.
(** [path.Dir], and [ConfigCheckPath]. *)
Fixpoint upto_slash (back : text) : text := match back with [] => [] | c :: rest => if c =? slash then rev back else upto_slash rest end.
Definition path_Dir (p : text) : text := Clean (upto_slash (rev p)).
Definition ConfigCheckPath (cfgPath file : text) : text :=
  if bool_decide (path_Dir file = dot) && negb (bool_decide (cfgPath = [] \/ cfgPath = dot)) then cfgPath ++ [slash] ++ file else file.
(** [OpenInput]: the file, less the lines that are skipped; a file that is too short is an error too. *)
Definition OpenInput (files : text -> option text) (rd : Reader) : Reader * bool :=
  match files (st_Input (rd_set rd)) with
  | None => (rd, false)
  | Some inp => let '(inp, eof) := SkipLines (st_Skip (rd_set rd)) inp in (with_input rd inp, negb eof)
  end.
(** [Init], once the configuration was read: a column of the dataset for each that is not skipped. *)
Definition push_md_columns (d : Dataset) (mds : list Metadata) : M Dataset :=
  fold_M (fun d md => if md_Skip md then mret d else PushColumn d (mkColumn (md_Name md) (md_T md) 0 (md_ValueSpace md) [])) d mds.
Definition reader_Init (files : text -> option text) (rd : Reader) : M (Reader * bool) :=
  let rd := with_set rd (SetDefault (rd_set rd)) in
  let rd := SetDatasetMode rd (st_DatasetMode (rd_set rd)) in
  let rd := with_md rd (map md_Init (rd_md rd)) in
  d ← push_md_columns (rd_dataset rd) (rd_md rd);
  let st := rd_set rd in
  let rd := mkReader (mkSettings (st_ConfigPath st) (ConfigCheckPath (st_ConfigPath st) (st_Input st)) (ConfigCheckPath (st_ConfigPath st) (st_Rejected st))
      (st_Skip st) (st_TrimSpace st) (st_MaxRows st) (st_DatasetMode st)) (rd_md rd) (rd_input rd) [] d in
  mret (OpenInput files rd).
End Init.

(** [AddInputMetadata], [AppendMetadata], [CopyConfig], [IsEqual]. *)
Definition AddInputMetadata (rd : Reader) (md : Metadata) : M Reader :=
  d ← AddColumn (rd_dataset rd) (md_T md) (md_Name md) (md_ValueSpace md);
  mret (with_dataset (with_md rd (rd_md rd ++ [md])) d).
Definition AppendMetadata (rd : Reader) (md : Metadata) : Reader := with_md rd (rd_md rd ++ [md]).
Definition CopyConfig (rd src : Reader) : Reader := with_set rd (rd_set src).
Fixpoint md_lists_equal (a b : list Metadata) : bool :=
  match a, b with m :: a, n :: b => md_IsEqual m n && md_lists_equal a b | _, _ => true end.
Definition reader_IsEqual (rd other : Reader) : bool :=
  if negb (bool_decide (st_Input (rd_set rd) = st_Input (rd_set other))) then false
  else if negb (bool_decide (length (rd_md rd) = length (rd_md other))) then false
  else md_lists_equal (rd_md rd) (rd_md other).
(** [MergeColumns]: the metadata of names that are new, and the columns; [MergeRows]. *)
Fixpoint merge_md (mds others : list Metadata) : list Metadata :=
  match others with
  | [] => mds
  | md :: others =>
      if md_Skip md then merge_md mds others
      else if existsb (fun l => bool_decide (md_Name l = md_Name md)) mds then merge_md mds others
      else merge_md (mds ++ [md]) others
  end.
Definition reader_MergeColumns (rd other : Reader) : M (Reader * Reader) :=
  '(d, o) ← MergeColumns (rd_dataset rd) (rd_dataset other);
  mret (with_dataset (with_md rd (merge_md (rd_md rd) (rd_md other))) d, with_dataset other o).
Definition reader_MergeRows (rd other : Reader) : M (Reader * Reader) :=
  '(d, o) ← MergeRows (rd_dataset rd) (rd_dataset other); mret (with_dataset rd d, with_dataset other o).

(** ** [writer.go]

    What is written is text that is appended; writing does not fail. *)

Definition DefEscape : text := [92].
Definition DefSeparator : text := str ",".

(** One column of [WriteRow]: its quotes, its separator, and the value with what must be escaped. *)
Definition write_value (md : Metadata) (v : value) : text :=
  let recV := value_String v in
  let rq := md_RightQuote md in
  let sep := md_Separator md in
  let recV := if md_T md =? TString then (EncloseToken recV DefEscape DefEscape []).1 else recV in
  let recV :=
    if negb (isnil rq) && (md_T md =? TString) then (EncloseToken recV rq DefEscape []).1
    else if negb (isnil sep) && (md_T md =? TString) then (EncloseToken recV sep DefEscape []).1
    else recV in
  md_LeftQuote md ++ recV ++ rq ++ sep.
Fixpoint write_columns (outMd : list Metadata) (cells : list ptr) (recordMd : list Metadata) : M text :=
  match outMd with
  | [] => mret []
  | md :: outMd =>
      let '(rIdx, mdMatch) := FindMetadata md recordMd in
      match cells !! rIdx with
      | None => write_columns outMd cells recordMd
      | Some p =>
          if match mdMatch with Some m => md_Skip m | None => false end then write_columns outMd cells recordMd
          else v ← get_record p; rest ← write_columns outMd cells recordMd; mret (write_value md v ++ rest)
      end
  end.
Definition WriteRow (outMd : list Metadata) (cells : list ptr) (recordMd : list Metadata) : M text :=
  v ← write_columns outMd cells recordMd; mret (v ++ [DefEOL]).
(** [WriteRows]: the number it returns is the last index. *)
Definition WriteRows (outMd : list Metadata) (rows : list nat) (recordMd : list Metadata) : M (text * nat) :=
  out ← map_M (fun r => cells ← get_row r; WriteRow outMd cells recordMd) rows; mret (concat out, (length rows - 1)%nat).
(** [WriteColumns]: a column that is shorter than another gives an empty text. *)
Definition md_of_column (c : Column) : Metadata := mkMetadata (c_name c) [] (c_type c) [] [] [] false [].
Definition WriteColumns (outMd : list Metadata) (cols : list Column) (colMd : option (list Metadata)) : M (text * nat) :=
  if isnil cols then mret ([], 0%nat)
  else
    emptyRec ← new_record (VString []);
    let '(minlen, maxlen) := GetMinMaxLength cols in
    let colMd := match colMd with Some mds => mds | None => map md_of_column cols end in
    low ← map_M (fun n => cells ← map_M (fun c => at_ (c_recs c) (Z.of_nat n)) cols; WriteRow outMd cells colMd) (seq 0 minlen);
    high ← map_M (fun n => WriteRow outMd (map (fun c => default emptyRec (c_recs c !! n)) cols) colMd) (seq minlen (maxlen - minlen));
    mret (concat low ++ concat high, maxlen).
(** [WriteRawRow], [WriteRawRows] and [WriteRawColumns]: no separator is the default one. *)
Definition WriteRawRow (r : nat) (sep esc : option text) : M text :=
  cells ← get_row r; vs ← map_M get_record cells;
  mret (join_cells vs (default DefSeparator sep) (default DefEscape esc) ++ [DefEOL]).
Definition WriteRawRows (rows : list nat) (sep : option text) : M (text * nat) :=
  out ← map_M (fun r => WriteRawRow r (Some (default DefSeparator sep)) (Some DefEscape)) rows; mret (concat out, length rows).
Definition WriteRawColumns (cols : list Column) (sep : option text) : M (text * nat) :=
  if isnil cols then mret ([], 0%nat)
  else
    let '(minlen, maxlen) := GetMinMaxLength cols in
    out ← map_M (fun x => v ← Columns_Join cols (Z.of_nat x) (default DefSeparator sep) DefEscape; mret (v ++ [DefEOL])) (seq 0 (Nat.max minlen maxlen));
    mret (concat out, Nat.max minlen maxlen).
Definition WriteRawDataset (d : Dataset) (sep : option text) : M (Dataset * (text * nat)) :=
  if d_mode d =? DatasetModeColumns then
    '(d, cols) ← GetDataAsColumns d; out ← WriteRawColumns cols sep; mret (d, out)
  else '(d, rows) ← GetDataAsRows d; out ← WriteRawRows rows sep; mret (d, out).
(** [Write]: the dataset of a reader, with the reader's metadata. *)
Definition Write (outMd : list Metadata) (rd : Reader) : M (Reader * (text * nat)) :=
  let d := rd_dataset rd in
  if d_mode d =? DatasetModeColumns then
    '(d, cols) ← GetDataAsColumns d; out ← WriteColumns outMd cols (Some (rd_md rd)); mret (with_dataset rd d, out)
  else '(d, rows) ← GetDataAsRows d; out ← WriteRows outMd rows (rd_md rd); mret (with_dataset rd d, out).
End Reader.
