(* ===== verification/DsvFacts.v ===== *)
(** What [lib/dsv] writes with quotes it reads back: the escapes of the writer are the ones the
    reader takes away, and a value may hold quotes, escapes, separators and line ends. *)

From Stdlib Require Import ZArith Lia.
From S2P Require Import Prelude Ascii Utf8 GoStrings Bytes TabRecord Tabula TabulaFacts Dsv.

Local Open Scope Z_scope.

(** ** Escapes *)

(** A byte as it is written between quotes that end with [q]. *)
Definition esc_byte (q c : Z) : text := if c =? 92 then [92; 92] else if c =? q then [92; q] else [c].
Definition enc (q : Z) (s : text) : text := concat (map (esc_byte q) s).

Lemma TokenFind_loop_single t rest : forall x, 0 <= x ->
  TokenFind_loop [t] rest x 0 (-1) = match list_find (fun c => c = t) rest with Some (i, _) => x + Z.of_nat i | None => -1 end.
Proof.
  induction rest as [|c rest IH]; intros x Hx; [done|]. cbn [TokenFind_loop list_find]. destruct (decide (c = t)) as [->|Hne].
  - rewrite bool_decide_true by done. cbn [length]. rewrite !decide_True by done. lia.
  - rewrite bool_decide_false by (intros [=]; by subst). cbn [negb Z.eqb]. rewrite IH by lia.
    destruct (list_find _ rest) as [[i c']|]; [|done]. change (x + 1 + Z.of_nat i = x + Z.of_nat (S i)). lia.
Qed.
Lemma TokenFind_single t pre rest :
  TokenFind (pre ++ rest) [t] (Z.of_nat (length pre)) =
  match list_find (fun c => c = t) rest with Some (i, _) => Z.of_nat (length pre) + Z.of_nat i | None => -1 end.
Proof.
  unfold TokenFind. rewrite decide_False by done. rewrite (proj2 (Z.ltb_ge _ _)) by lia. rewrite Nat2Z.id, drop_app_length.
  apply TokenFind_loop_single. lia.
Qed.
Definition enclose_byte (t : Z) (lc : text) (c : Z) : text := if c =? t then lc ++ [t] else [c].
Lemma enclose_none t lc rest : list_find (fun c => c = t) rest = None -> concat (map (enclose_byte t lc) rest) = rest.
Proof.
  intros Hn. apply list_find_None in Hn. induction rest as [|c rest IH]; [done|]. apply Forall_cons in Hn as [Hc Hn]. cbn. rewrite IH by done.
  unfold enclose_byte. by rewrite (proj2 (Z.eqb_neq c t)).
Qed.
Lemma EncloseToken_loop_single t lc : forall fuel pre rest out, (length rest < fuel)%nat ->
  (EncloseToken_loop fuel (pre ++ rest) [t] lc [] out (Z.of_nat (length pre))).1 = out ++ concat (map (enclose_byte t lc) rest).
Proof.
  induction fuel as [|fuel IH]; intros pre rest out Hf; [lia|]. cbn [EncloseToken_loop]. rewrite TokenFind_single.
  destruct (list_find (fun c => c = t) rest) as [[i c]|] eqn:Hfind.
  - apply list_find_Some in Hfind as (Hi & -> & Hbefore). rewrite (proj2 (Z.ltb_ge _ _)) by lia.
    rewrite <- Nat2Z.inj_add, !Nat2Z.id, drop_app_length. replace (length pre + i - length pre)%nat with i by lia.
    rewrite <- (take_drop_middle rest i t Hi) at 1 3. rewrite app_assoc. pose proof (lookup_lt_Some _ _ _ Hi) as Hlt.
    change (t :: drop (S i) rest) with ([t] ++ drop (S i) rest). rewrite app_assoc.
    replace (Z.of_nat (length pre + i) + Z.of_nat (length [t])) with (Z.of_nat (length ((pre ++ take i rest) ++ [t])))
      by (rewrite !length_app, length_take; cbn; lia).
    rewrite IH by (rewrite length_drop; lia). rewrite !map_app, !concat_app.
    rewrite (enclose_none t lc (take i rest)).
    + cbn. unfold enclose_byte at 2. rewrite Z.eqb_refl. by rewrite !app_nil_r, <- !app_assoc.
    + apply list_find_None. apply Forall_forall. intros c Hc ->. apply list_elem_of_lookup_1 in Hc as [j Hj].
      apply lookup_take_Some in Hj as [Hj Hlt']. by apply (Hbefore j t Hj).
  - cbn [Z.ltb Z.compare]. cbn. rewrite Nat2Z.id, drop_app_length. by rewrite (enclose_none t lc rest).
Qed.
Lemma EncloseToken_single s t lc : (EncloseToken s [t] lc []).1 = concat (map (enclose_byte t lc) s).
Proof.
  unfold EncloseToken. pose proof (EncloseToken_loop_single t lc (S (length s)) [] s [] ltac:(lia)) as HE.
  change (Z.of_nat (length (@nil Z))) with 0 in HE. destruct (EncloseToken_loop _ _ _ _ _ _ _) as [out p]. exact HE.
Qed.
Lemma enc_enclose q s : q <> 92 ->
  (EncloseToken (EncloseToken s [92] [92] []).1 [q] [92] []).1 = enc q s.
Proof.
  intros Hq. rewrite !EncloseToken_single. unfold enc. induction s as [|c s IH]; [done|]. cbn [map concat]. rewrite map_app, concat_app, IH. f_equal.
  unfold enclose_byte, esc_byte. destruct (Z.eqb_spec c 92) as [->|Hc].
  - cbn [app map concat]. by rewrite (proj2 (Z.eqb_neq 92 q)) by congruence.
  - cbn [app map concat]. rewrite app_nil_r. by destruct (Z.eqb_spec c q) as [->|Hcq].
Qed.
Lemma enc_app q s1 s2 : enc q (s1 ++ s2) = enc q s1 ++ enc q s2.
Proof. unfold enc. by rewrite map_app, concat_app. Qed.
Lemma enc_no_nl q s : q <> 10 -> ~ 10 ∈ s -> ~ 10 ∈ enc q s.
Proof.
  intros Hq Hs Hin. unfold enc in Hin. rewrite <- flat_map_concat_map in Hin. apply list_elem_of_In, in_flat_map in Hin as (c & Hc & H10).
  apply list_elem_of_In in Hc, H10. unfold esc_byte in H10. destruct (Z.eqb_spec c 92); [|destruct (Z.eqb_spec c q)]; set_solver.
Qed.

(** ** Cutting until the quote *)

Section Quote.
Context (q : Z) (q_esc : q <> 92).

Lemma quote_at line p rest : drop p line = q :: rest -> IsTokenAt line [q] (Z.of_nat p) = true.
Proof. intros Hd. apply IsTokenAt_spec. split; [done|]. rewrite Hd. apply prefix_cons, prefix_nil. Qed.
Lemma drop_head {A} (l : list A) p a rest : drop p l = a :: rest -> l !! p = Some a /\ drop (S p) l = rest.
Proof.
  intros Hd. split; [by rewrite <- (Nat.add_0_r p), <- lookup_drop, Hd|]. replace (S p) with (p + 1)%nat by lia. by rewrite <- drop_drop, Hd.
Qed.
Lemma cut_step_plain fuel line v p c rest : drop p line = c :: rest -> c <> 92 -> c <> q ->
  CutUntilToken_loop (S fuel) line [q] q true v p false = CutUntilToken_loop fuel line [q] q true (v ++ [c]) (S p) false.
Proof.
  intros Hd Hc Hq. apply drop_head in Hd as [Hd _]. cbn [CutUntilToken_loop]. rewrite Hd.
  by rewrite (proj2 (Z.eqb_neq c 92)), (proj2 (Z.eqb_neq c q)) by done.
Qed.
Lemma cut_step_esc fuel line v p c rest : drop p line = 92 :: c :: rest -> c = 92 \/ c = q ->
  CutUntilToken_loop (S (S fuel)) line [q] q true v p false = CutUntilToken_loop fuel line [q] q true (v ++ [c]) (S (S p)) false.
Proof.
  intros Hd Hc. apply drop_head in Hd as [Hp Hd]. pose proof Hd as Hd2. apply drop_head in Hd as [Hp2 _]. cbn [CutUntilToken_loop]. rewrite Hp. cbn [andb Z.eqb Pos.eqb].
  rewrite Hp2. destruct Hc as [-> | ->]; [done|]. rewrite (proj2 (Z.eqb_neq q 92)), Z.eqb_refl by done. cbn [andb negb].
  rewrite (quote_at line (S p) rest Hd2). cbn [negb length]. by replace (S p + 1)%nat with (S (S p)) by lia.
Qed.
Lemma cut_enc s : forall fuel line v p rest, drop p line = enc q s ++ rest ->
  CutUntilToken_loop (length (enc q s) + fuel) line [q] q true v p false =
  CutUntilToken_loop fuel line [q] q true (v ++ s) (p + length (enc q s)) false.
Proof.
  induction s as [|c s IH]; intros fuel line v p rest Hd; [by rewrite Nat.add_0_r, app_nil_r|].
  change (enc q (c :: s)) with (esc_byte q c ++ enc q s) in Hd |- *. rewrite length_app.
  assert (HE : forall k, drop (p + length (esc_byte q c)) line = enc q s ++ rest ->
    CutUntilToken_loop (length (esc_byte q c) + k) line [q] q true v p false = CutUntilToken_loop k line [q] q true (v ++ [c]) (p + length (esc_byte q c)) false).
  { intros k _. rewrite <- app_assoc in Hd. unfold esc_byte in *. destruct (Z.eqb_spec c 92) as [->|Hc].
    - cbn [length Nat.add app] in *. rewrite (cut_step_esc k _ _ _ 92 _ Hd) by tauto. by replace (p + 2)%nat with (S (S p)) by lia.
    - destruct (Z.eqb_spec c q) as [->|Hq].
      + cbn [length Nat.add app] in *. rewrite (cut_step_esc k _ _ _ q _ Hd) by tauto. by replace (p + 2)%nat with (S (S p)) by lia.
      + cbn [length Nat.add app] in *. rewrite (cut_step_plain k _ _ _ _ _ Hd) by done. by replace (p + 1)%nat with (S p) by lia. }
  assert (Hd' : drop (p + length (esc_byte q c)) line = enc q s ++ rest) by (rewrite <- drop_drop, Hd, <- app_assoc; apply drop_app_length).
  rewrite <- Nat.add_assoc, HE by done. rewrite (IH fuel line _ _ rest Hd'). rewrite <- app_assoc. by rewrite Nat.add_assoc.
Qed.
(** The cut ends at the quote, or at the end of the line. *)
Lemma cut_found line p s rest : drop p line = enc q s ++ q :: rest ->
  CutUntilToken line [q] (Z.of_nat p) true = (s, Z.of_nat (p + length (enc q s) + 1), true).
Proof.
  intros Hd. unfold CutUntilToken. rewrite (proj2 (Z.ltb_ge _ _)), Nat2Z.id by lia.
  assert (Hlen : (length (enc q s) + S (length rest) <= length line)%nat).
  { rewrite <- (take_drop p line), Hd, !length_app. cbn. lia. }
  replace (S (length line)) with (length (enc q s) + S (length line - length (enc q s)))%nat by lia. rewrite (cut_enc s _ _ _ _ _ Hd).
  assert (Hd' : drop (p + length (enc q s)) line = q :: rest) by (rewrite <- drop_drop, Hd; apply drop_app_length).
  pose proof (quote_at _ _ _ Hd') as Hat. apply drop_head in Hd' as [Hp _]. cbn [CutUntilToken_loop]. rewrite Hp.
  rewrite (proj2 (Z.eqb_neq q 92)), Z.eqb_refl by done. cbn [andb negb]. by rewrite Hat.
Qed.
Lemma cut_not_found line p s : (p <= length line)%nat -> drop p line = enc q s ->
  CutUntilToken line [q] (Z.of_nat p) true = (s, Z.of_nat (length line), false).
Proof.
  intros Hp Hd. unfold CutUntilToken. rewrite (proj2 (Z.ltb_ge _ _)), Nat2Z.id by lia.
  assert (Hlen : (p + length (enc q s))%nat = length line) by (rewrite <- Hd, length_drop; lia).
  replace (S (length line)) with (length (enc q s) + S p)%nat by lia. rewrite (cut_enc s _ _ _ _ []) by (by rewrite app_nil_r).
  rewrite Hlen. cbn [CutUntilToken_loop]. by rewrite lookup_ge_None_2 by lia.
Qed.
End Quote.

(** ** Lines *)

Lemma nl_split (A B X Y : text) : A ++ 10 :: B = X ++ Y -> ~ 10 ∈ A -> ~ 10 ∈ X -> exists R, A = X ++ R /\ Y = R ++ 10 :: B.
Proof.
  intros He HA HX. apply app_eq_inv in He as [(k & -> & ->)|(k & -> & Hk)]; [by exists k|].
  destruct k as [|c k]; [exists []; by rewrite !app_nil_r|]. injection Hk as <- _. set_solver.
Qed.
Lemma split_line_nl inp : 10 ∈ inp -> exists l rest, split_line inp = Some (l, rest) /\ inp = l ++ 10 :: rest /\ ~ 10 ∈ l.
Proof.
  induction inp as [|c inp IH]; intros Hin; [by apply not_elem_of_nil in Hin|]. cbn [split_line]. unfold DefEOL. destruct (Z.eqb_spec c 10) as [->|Hc].
  - exists [], inp. split; [done|]. split; [done|]. apply not_elem_of_nil.
  - apply elem_of_cons in Hin as [Hin|Hin]; [done|]. destruct (IH Hin) as (l & rest & -> & -> & Hl). exists (c :: l), rest. split; [done|]. split; [done|]. set_solver.
Qed.
Lemma ReadLine_nl l rest : ~ 10 ∈ l -> ReadLine (l ++ 10 :: rest) = (l, false, rest).
Proof.
  intros Hl. destruct (split_line_nl (l ++ 10 :: rest) ltac:(set_solver)) as (l' & rest' & Hs & He & Hl'). unfold ReadLine. rewrite Hs.
  apply nl_split in He as (R & -> & He); [|done|done]. destruct R as [|c R]; [|injection He as <- _; set_solver]. injection He as ->. by rewrite app_nil_r.
Qed.
(** What is left of a line, and of the input behind it: the text that is to be read up to the end of a row. *)
Definition ahead (line : text) (p : nat) (inp A : text) (whole : text) : Prop :=
  (p <= length line)%nat /\ drop p line = A /\ ~ 10 ∈ A /\ A ++ 10 :: inp = whole.

Lemma parsingRightQuote_ok q : q <> 92 -> q <> 10 -> forall fuel line p inp v pre A s tail inp',
  (length inp < fuel)%nat -> (p <= length line)%nat -> drop p line = pre ++ A -> pre = [] \/ pre = [10] -> ~ 10 ∈ A ->
  A ++ 10 :: inp = enc q s ++ q :: tail ++ 10 :: inp' ->
  exists line2 p2 inp2 A2, parsingRightQuote fuel [q] line (Z.of_nat p) inp v = Ok (v ++ pre ++ s, line2, Z.of_nat p2, inp2, None) /\
    ahead line2 p2 inp2 A2 (tail ++ 10 :: inp').
Proof.
  intros Hq Hq10. induction fuel as [|fuel IH]; intros line p inp v pre A s tail inp' Hf Hp Hd Hpre HA He; [lia|].
  assert (Hpre' : enc q pre = pre).
  { destruct Hpre as [-> | ->]; [done|]. unfold enc. cbn [map concat app]. unfold esc_byte. rewrite (proj2 (Z.eqb_neq 10 92)), (proj2 (Z.eqb_neq 10 q)) by congruence. done. }
  cbn [parsingRightQuote]. destruct (decide (10 ∈ s)) as [Hin|Hnin].
  - apply list_elem_of_split_l in Hin as (s1 & s2 & -> & Hs1). rewrite enc_app in He.
    change (enc q (10 :: s2)) with (esc_byte q 10 ++ enc q s2) in He. unfold esc_byte in He.
    rewrite (proj2 (Z.eqb_neq 10 92)), (proj2 (Z.eqb_neq 10 q)) in He by congruence. rewrite <- app_assoc in He. cbn [app] in He.
    apply nl_split in He as (R & -> & He); [|done|by apply enc_no_nl]. destruct R as [|c R]; [|injection He as <- _; set_solver].
    injection He as <-. rewrite app_nil_r in *. rewrite (cut_not_found q Hq line p (pre ++ s1)) by (rewrite ?enc_app, ?Hpre'; done).
    unfold FetchNextLine. destruct (split_line_nl (enc q s2 ++ q :: tail ++ 10 :: inp')) as (l2 & inp2 & _ & He2 & Hl2); [set_solver|].
    rewrite He2. rewrite ReadLine_nl by done. unfold DefEOL.
    destruct (IH (line ++ [10] ++ l2) (length line) inp2 (v ++ pre ++ s1) [10] l2 s2 tail inp') as (line3 & p3 & inp3 & A3 & HE & HA3);
      try done; [rewrite He2, length_app in Hf; cbn in Hf; lia|rewrite length_app; lia|by rewrite drop_app_length|by right|].
    exists line3, p3, inp3, A3. split; [|done]. rewrite HE. by rewrite <- !app_assoc.
  - change (enc q s ++ q :: tail ++ 10 :: inp') with (enc q s ++ [q] ++ (tail ++ 10 :: inp')) in He. rewrite app_assoc in He.
    apply nl_split in He as (R & -> & He); [|done|]. 2: { pose proof (enc_no_nl q s Hq10 Hnin). set_solver. }
    assert (Hd' : drop p line = enc q (pre ++ s) ++ q :: R) by (rewrite Hd, enc_app, Hpre', <- !app_assoc; done).
    rewrite (cut_found q Hq line p (pre ++ s) R Hd'). eexists _, _, _, R. split; [done|].
    assert (Hlen : (p + length (enc q (pre ++ s)) + 1 <= length line)%nat) by (rewrite <- (take_drop p line), Hd', !length_app, length_take; cbn; lia).
    split; [exact Hlen|]. split; [|split; [set_solver|by symmetry]].
    rewrite <- !drop_drop, Hd', drop_app_length. done.
Qed.

Lemma SkipAfterToken_here line tok p rest : tok ≠ [] -> drop p line = tok ++ rest ->
  SkipAfterToken (E := unit) line tok (Z.of_nat p) false = Ok ((p + length tok)%nat, true).
Proof.
  intros Ht Hd. unfold SkipAfterToken. rewrite (proj2 (Z.ltb_ge _ _)), Nat2Z.id by lia. cbn [SkipAfterToken_loop].
  assert (Hat : IsTokenAt line tok (Z.of_nat p) = true) by (apply IsTokenAt_spec; split; [done|]; rewrite Hd; by apply prefix_app_r).
  destruct tok as [|c tk]; [done|]. apply drop_head in Hd as [Hp _]. rewrite Hp. cbn [andb get_at mbind outcome_bind].
  change (get_at (c :: tk) 0) with (Ok (E := unit) c). cbn [mbind outcome_bind]. rewrite Z.eqb_refl. cbn [negb]. by rewrite Hat.
Qed.

(** ** Columns *)

(** A column whose values are between quotes, and whose quotes and separator are told apart. *)
Definition quote_of (md : Metadata) : Z := default 0 (head (md_RightQuote md)).
Record quoted (md : Metadata) : Prop := {
  quoted_rq : md_RightQuote md = [quote_of md];
  quoted_esc : quote_of md <> 92;
  quoted_nl : quote_of md <> 10;
  quoted_lq : exists c lq, md_LeftQuote md = c :: lq /\ 0 <= c < 128 /\ IsSpace c = false /\
    (md_Separator md = [] \/ md_Separator md = md_LeftQuote md \/ head (md_Separator md) <> Some c);
  quoted_lq_nl : ~ 10 ∈ md_LeftQuote md;
  quoted_sep_nl : ~ 10 ∈ md_Separator md;
  quoted_type : md_T md = TString;
  quoted_skip : md_Skip md = false
}.
Definition field (md : Metadata) (s : text) : text := md_LeftQuote md ++ enc (quote_of md) s ++ [quote_of md] ++ md_Separator md.
Definition line_text (mds : list Metadata) (row : list text) : text := concat (zip_with field mds row).

Lemma write_value_field `{Floats} md s : quoted md -> write_value md (VString s) = field md s.
Proof.
  intros Hq. unfold write_value, field. rewrite (quoted_type md Hq), (quoted_rq md Hq). cbn [Z.eqb TString isnil negb andb value_String].
  unfold DefEscape. by rewrite enc_enclose by apply (quoted_esc md Hq).
Qed.
Definition starts_solid (tail : text) : Prop := forall c, head tail = Some c -> is_blank c = false.
Lemma solid_blank c : 0 <= c < 128 -> IsSpace c = false -> is_blank c = false.
Proof. unfold IsSpace, is_blank. intros _. rewrite !orb_false_iff, !Z.eqb_neq. tauto. Qed.
Lemma line_text_solid mds row : Forall quoted mds -> starts_solid (line_text mds row).
Proof.
  intros Hq c Hc. destruct mds as [|md mds]; [done|]. destruct row as [|s row]; [done|]. apply Forall_cons in Hq as [Hq _].
  destruct (quoted_lq md Hq) as (c' & lq & Hlq & Hr & Hs & _). cbn in Hc. unfold field in Hc. rewrite Hlq in Hc. cbn in Hc. injection Hc as <-. by apply solid_blank.
Qed.

Lemma parse_column_ok md s tail inp' line p inp A : quoted md -> starts_solid tail -> 
  ahead line p inp A (field md s ++ tail ++ 10 :: inp') ->
  exists line2 p2 inp2 A2, parse_column md line (Z.of_nat p) inp = Ok (inl (s, line2, Z.of_nat p2, inp2, false)) /\
    ahead line2 p2 inp2 A2 (tail ++ 10 :: inp').
Proof.
  intros Hq Htail (Hp & Hd & HA & He). destruct (quoted_lq md Hq) as (c & lq & Hlq & Hr & Hs & Hsep). unfold field in He. rewrite <- !app_assoc in He.
  apply nl_split in He as (A1 & -> & He1); [|done|apply (quoted_lq_nl md Hq)]. unfold parse_column.
  assert (Hne : negb (isnil (md_Separator md)) && negb (bool_decide (md_Separator md = md_LeftQuote md)) && IsTokenAt line (md_Separator md) (Z.of_nat p) = false).
  { destruct Hsep as [-> |[-> |Hsep]]; [done|by rewrite bool_decide_true, andb_false_r|]. destruct (md_Separator md) as [|c' sep] eqn:Hse; [done|].
    rewrite (proj2 (IsTokenAt_false line (c' :: sep) p ltac:(done))); [by rewrite andb_false_r|].
    rewrite Hd, Hlq. intros Hpre. apply prefix_cons_inv_1 in Hpre. by subst. }
  rewrite Hne. assert (Hlq' : isnil (md_LeftQuote md) = false) by by rewrite Hlq. rewrite Hlq'. unfold parsingLeftQuote.
  rewrite (SkipAfterToken_here line (md_LeftQuote md) p A1 ltac:(by rewrite Hlq) Hd). cbn [mbind outcome_bind]. rewrite (quoted_rq md Hq). cbn [isnil negb].
  assert (Hd1 : drop (p + length (md_LeftQuote md)) line = A1) by (rewrite <- drop_drop, Hd; apply drop_app_length).
  assert (HA1 : ~ 10 ∈ A1) by set_solver.
  assert (Hp1 : (p + length (md_LeftQuote md) <= length line)%nat) by (rewrite <- (take_drop p line), Hd, !length_app, length_take; lia).
  destruct (parsingRightQuote_ok (quote_of md) (quoted_esc md Hq) (quoted_nl md Hq) (S (length inp)) line (p + length (md_LeftQuote md)) inp [] [] A1 s (md_Separator md ++ tail) inp')
    as (line2 & p2 & inp2 & A2 & HE & Hp2 & Hd2 & HA2 & He2); try done; [lia|by left|by rewrite <- !app_assoc|].
  rewrite HE. cbn [mbind outcome_bind app]. rewrite <- app_assoc in He2.
  destruct (md_Separator md) as [|c' sep] eqn:Hse; [by exists line2, p2, inp2, A2|]. cbn [isnil]. unfold parsingSkipSeparator.
  apply nl_split in He2 as (A3 & -> & He3); [|done|rewrite <- Hse; apply (quoted_sep_nl md Hq)].
  rewrite (SkipAfterToken_here line2 (c' :: sep) p2 A3) by done. cbn [mbind outcome_bind].
  set (p3 := (p2 + length (c' :: sep))%nat). assert (Hd3 : drop p3 line2 = A3) by (unfold p3; rewrite <- drop_drop, Hd2; apply drop_app_length).
  assert (Hskip : skip_if_space (c' :: sep) line2 (Z.of_nat p3) = Z.of_nat p3).
  { unfold skip_if_space, parsingSkipSpace. destruct (bool_decide (c' :: sep = [32])); [|reflexivity]. rewrite Nat2Z.id, Hd3. destruct A3 as [|a A3]; [cbn; lia|]. cbn [count_blank].
    destruct tail as [|b tail]; [injection He3 as <- _; set_solver|]. injection He3 as <- _. rewrite (Htail b) by done. lia. }
  rewrite Hskip. exists line2, p3, inp2, A3. split; [done|].
  split; [unfold p3; rewrite <- (take_drop p2 line2), Hd2, !length_app, length_take; lia|]. split; [done|]. split; [set_solver|by symmetry].
Qed.

(** ** Rows *)

Section Rows.
Context `{Floats}.

Lemma ParseLine_ok mds : Forall quoted mds -> forall vs line p inp A row inp', length vs = length mds ->
  ahead line p inp A (line_text mds vs ++ 10 :: inp') ->
  ParseLine mds line (Z.of_nat p) inp row = Ok (inl (row ++ map VString vs), inp').
Proof.
  induction mds as [|md mds IH]; intros Hq vs line p inp A row inp' Hl Ha.
  - destruct vs as [|]; [|done]. destruct Ha as (_ & _ & HA & He). change (A ++ 10 :: inp = [] ++ 10 :: inp') in He.
    apply nl_split in He as (R & -> & He); [|done|apply not_elem_of_nil]. destruct R as [|c R]; [|injection He as <- _; set_solver].
    injection He as ->. cbn. by rewrite app_nil_r.
  - destruct vs as [|s vs]; [done|]. apply Forall_cons in Hq as [Hq Hqs]. change (line_text (md :: mds) (s :: vs)) with (field md s ++ line_text mds vs) in Ha.
    rewrite <- app_assoc in Ha. destruct (parse_column_ok md s (line_text mds vs) inp' line p inp A Hq (line_text_solid mds vs Hqs) Ha)
      as (line2 & p2 & inp2 & A2 & HE & Ha2).
    cbn [ParseLine]. rewrite HE. cbn [mbind outcome_bind negb]. rewrite (quoted_skip md Hq), (quoted_type md Hq). cbn [andb].
    change (NewRecordBy s TString) with (Some (VString s)). cbn iota beta. rewrite (IH Hqs vs line2 p2 inp2 A2 _ inp' ltac:(by injection Hl) Ha2).
    by rewrite <- app_assoc.
Qed.

(** A reader that does not trim. *)
Definition plain_reader (mds : list Metadata) (rd : Reader) : Prop := rd_md rd = mds /\ st_TrimSpace (rd_set rd) = false.

Lemma last_rune_keeps c l r n : 0 <= c < 128 -> DecodeLastRune (c :: l) = (r, n) -> l = [] /\ r = c \/ (l ≠ [] /\ (n <= length l)%nat).
Proof.
  intros Hc. unfold DecodeLastRune. destruct l as [|b l]; [cbn [last]; rewrite (proj2 (Z.ltb_lt c 128)) by lia; intros [= <- <-]; by left|].
  destruct (last (c :: b :: l)) as [e|] eqn:Hl; [|by apply last_None in Hl]. destruct (e <? 128) eqn:He; [intros [= <- <-]; right; split; [done|cbn; lia]|].
  destruct (scan_back _ _ _) as [|start].
  - rewrite drop_0, DecodeRune_ascii by done. destruct (decide _) as [H1|]; [cbn in H1; lia|]. intros [= <- <-]. right. split; [done|cbn; lia].
  - destruct (DecodeRune _) as [r' size]. destruct (decide _) as [H1|]; intros [= <- <-]; right; (split; [done|cbn in *; lia]).
Qed.
Lemma trim_right_keeps c : 0 <= c < 128 -> IsSpace c = false -> forall fuel l, trim_right fuel (c :: l) ≠ [].
Proof.
  intros Hc Hs. induction fuel as [|fuel IH]; intros l; [done|]. cbn [trim_right]. destruct (DecodeLastRune (c :: l)) as [r n] eqn:HD.
  destruct (last_rune_keeps c l r n Hc HD) as [[-> ->]|[Hl Hn]]; [by rewrite rune_IsSpace_ascii, Hs|]. destruct (rune_IsSpace r); [|done].
  replace (length (c :: l) - n)%nat with (S (length l - n)) by (cbn; lia). cbn [take]. apply IH.
Qed.
Lemma trim_solid c l : 0 <= c < 128 -> IsSpace c = false -> TrimSpace (c :: l) ≠ [].
Proof.
  intros Hc Hs. unfold TrimSpace. rewrite trim_left_hd by done. by apply trim_right_keeps.
Qed.
Lemma ReadRow_ok mds rd vs rest n : mds ≠ [] -> Forall quoted mds -> plain_reader mds rd -> length vs = length mds ->
  rd_input rd = line_text mds vs ++ 10 :: rest ->
  exists line, ReadRow rd n = Ok (inl (map VString vs), line, n + 1, with_input rd rest).
Proof.
  intros Hne Hq [Hmd Htrim] Hl Hinp.
  destruct (split_line_nl (rd_input rd)) as (l & inp2 & _ & He & Hnl); [rewrite Hinp; set_solver|]. exists l.
  unfold ReadRow. cbn [next_line]. rewrite He, ReadLine_nl by done.
  assert (Hsolid : isnil (TrimSpace l) = false).
  { destruct mds as [|md mds]; [done|]. destruct vs as [|s vs]; [done|]. apply Forall_cons in Hq as [Hq1 _].
    destruct (quoted_lq md Hq1) as (c & lq & Hlq & Hc & Hs & _).
    change (line_text (md :: mds) (s :: vs)) with (field md s ++ line_text mds vs) in Hinp. unfold field in Hinp. rewrite Hlq in Hinp. rewrite Hinp in He. cbn [app] in He.
    destruct l as [|c' l]; [injection He as -> _; done|]. injection He as <- _. destruct (TrimSpace (c :: l)) eqn:HT; [|done]. by apply trim_solid in HT. }
  rewrite Hsolid. cbn [mbind outcome_bind]. rewrite Htrim, Hmd.
  assert (Ha : ahead l 0 inp2 l (line_text mds vs ++ 10 :: rest)) by (split; [lia|]; split; [done|]; split; [done|]; congruence).
  pose proof (ParseLine_ok mds Hq vs l 0 inp2 l [] rest Hl Ha) as HP. change (Z.of_nat 0) with 0 in HP. by rewrite HP.
Qed.

(** ** What a table is read as *)

Definition cell_values (h : heap) (cells : list ptr) (row : list text) : Prop :=
  Forall2 (fun p s => exists a, p = Some a /\ h_recs h !! a = Some (VString s)) cells row.
Definition table_values (h : heap) (t : list (list ptr)) (rows : list (list text)) : Prop := Forall2 (cell_values h) t rows.
Lemma cell_values_mono h h' cells row : h_recs h `prefix_of` h_recs h' -> cell_values h cells row -> cell_values h' cells row.
Proof.
  intros [more Hm] Hc. eapply Forall2_impl; [exact Hc|]. intros p s (a & -> & Ha). exists a. split; [done|]. rewrite Hm. by apply lookup_app_l_Some.
Qed.
Lemma table_values_mono h h' t rows : h_recs h `prefix_of` h_recs h' -> table_values h t rows -> table_values h' t rows.
Proof. intros Hp Ht. eapply Forall2_impl; [exact Ht|]. intros cells row. by apply cell_values_mono. Qed.

Lemma make_row_ok row : forall h, exists cells h', make_row (map VString row) h = Ok (length (h_rows h), mkHeap (h_recs h') (h_rows h ++ [cells])) /\
  h_recs h `prefix_of` h_recs h' /\ length cells = length row /\ cell_values h' cells row.
Proof.
  assert (Hm : forall h, exists cells h', map_M new_record (map VString row) h = Ok (cells, h') /\ h_rows h' = h_rows h /\
    h_recs h `prefix_of` h_recs h' /\ length cells = length row /\ cell_values h' cells row).
  { induction row as [|s row IH]; intros h; [exists [], h; split; [done|]; split; [done|]; split; [done|]; split; [done|constructor]|]. destruct (IH (mkHeap (h_recs h ++ [VString s]) (h_rows h))) as (cells & h' & HE & Hr & Hp & Hl & Hc).
    exists (Some (length (h_recs h)) :: cells), h'. cbn [map map_M]. rewrite (M_bind_Ok _ _ h _ _ eq_refl), (M_bind_Ok _ _ _ _ _ HE). split; [done|]. split; [done|].
    split; [etrans; [|exact Hp]; by eexists|]. split; [cbn; by rewrite Hl|]. constructor; [|done]. eexists. split; [done|]. destruct Hp as [more ->]. cbn.
    rewrite <- app_assoc. cbn. by rewrite lookup_app_r, Nat.sub_diag by lia. }
  intros h. destruct (Hm h) as (cells & h' & HE & Hr & Hp & Hl & Hc). exists cells, h'. unfold make_row. rewrite (M_bind_Ok _ _ h _ _ HE). unfold new_row. by rewrite Hr.
Qed.
Lemma PushRow_holds w recs rows d m t cells : (exists recs0, recs0 `prefix_of` recs /\ holds w (mkHeap recs0 rows) d m t) -> length cells = w ->
  exists d', PushRow d (length rows) (mkHeap recs (rows ++ [cells])) = Ok (d', mkHeap recs (rows ++ [cells])) /\
    holds w (mkHeap recs (rows ++ [cells])) d' m (t ++ [cells]).
Proof. intros (recs0 & _ & Hh) Hl. exact (push_holds w (mkHeap recs rows) d m t cells Hh Hl). Qed.

(** ** Reading the rows of a text *)

Definition rows_text (mds : list Metadata) (rows : list (list text)) : text := concat (map (fun row => line_text mds row ++ [10]) rows).

Section Read.
Context (mds : list Metadata) (mds_ne : mds ≠ []) (mds_quoted : Forall quoted mds).

Lemma Read_loop_ok rows : forall fuel rd linenum n h t m, Forall (fun row => length row = length mds) rows ->
  plain_reader mds rd -> st_MaxRows (rd_set rd) <= 0 -> rd_input rd = rows_text mds rows -> (length rows < fuel)%nat ->
  holds (length mds) h (rd_dataset rd) m t ->
  exists rd' h' t', Read_loop fuel rd linenum n h = Ok (rd', n + Z.of_nat (length rows), true, h') /\ rd_rejected rd' = rd_rejected rd /\
    h_recs h `prefix_of` h_recs h' /\ holds (length mds) h' (rd_dataset rd') m (t ++ t') /\ table_values h' t' rows.
Proof.
  induction rows as [|row rows IH]; intros fuel rd linenum n h t m Hw Hrd Hmax Hinp Hf Hh; (destruct fuel as [|fuel]; [lia|]); cbn [Read_loop].
  - assert (HE : ReadRow rd linenum = Ok (inr EReadEOF, [], linenum + 1, with_input rd [])) by (unfold ReadRow; rewrite Hinp; done).
    rewrite (M_bind_Ok _ _ h (inr EReadEOF, [], linenum + 1, with_input rd []) h) by (by rewrite HE). cbn [Z.land].
    exists (with_input rd []), h, []. rewrite app_nil_r, Z.add_0_r. split; [done|]. split; [done|]. split; [done|]. split; [exact Hh|constructor].
  - apply Forall_cons in Hw as [Hw Hws]. unfold rows_text in Hinp. cbn [map concat] in Hinp. rewrite <- app_assoc in Hinp.
    destruct (ReadRow_ok mds rd row (rows_text mds rows) linenum mds_ne mds_quoted Hrd Hw Hinp) as (line & HE).
    rewrite (M_bind_Ok _ _ h (inl (map VString row), line, linenum + 1, with_input rd (rows_text mds rows)) h) by (by rewrite HE).
    destruct (make_row_ok row h) as (cells & h1 & HM & Hp1 & Hl1 & Hc1). rewrite (M_bind_Ok _ _ _ _ _ HM).
    destruct (PushRow_holds (length mds) (h_recs h1) (h_rows h) (rd_dataset rd) m t cells) as (d' & HP & Hh'); [exists (h_recs h); by destruct h|congruence|].
    cbn [with_input rd_dataset]. rewrite (M_bind_Ok _ _ _ _ _ HP). cbn [with_dataset rd_set]. rewrite (proj2 (Z.ltb_ge 0 _)) by done. cbn [andb].
    destruct (IH fuel (with_dataset (with_input rd (rows_text mds rows)) d') (linenum + 1) (n + 1) (mkHeap (h_recs h1) (h_rows h ++ [cells])) (t ++ [cells]) m Hws) as (rd' & h' & t' & HE' & Hrej & Hp' & Hh2 & Ht');
      try done; [cbn in Hf; lia|].
    exists rd', h', (cells :: t'). split; [cbn [length]; rewrite Nat2Z.inj_succ; replace (n + Z.succ (Z.of_nat (length rows))) with (n + 1 + Z.of_nat (length rows)) by lia; exact HE'|].
    split; [done|]. split; [by etrans|]. split; [by rewrite <- app_assoc in Hh2|]. constructor; [|done]. apply (cell_values_mono (mkHeap (h_recs h1) [])); [done|exact Hc1].
Qed.
Lemma rows_text_length rows : (length rows <= length (rows_text mds rows))%nat.
Proof. induction rows as [|row rows IH]; [done|]. unfold rows_text in *. cbn [map concat]. rewrite !length_app. cbn. lia. Qed.
Lemma Read_ok rows rd h m t : Forall (fun row => length row = length mds) rows ->
  plain_reader mds rd -> st_MaxRows (rd_set rd) <= 0 -> rd_input rd = rows_text mds rows ->
  holds (length mds) h (rd_dataset rd) m t ->
  exists rd' h' t', Read rd h = Ok (rd', Z.of_nat (length rows), true, h') /\ rd_rejected rd' = rd_rejected rd /\
    holds (length mds) h' (rd_dataset rd') m t' /\ table_values h' t' rows.
Proof.
  intros Hw Hrd Hmax Hinp Hh. unfold Read.
  assert (H0 : holds (length mds) h (Tabula.Reset (rd_dataset rd)) m []).
  { destruct (perform_promised _ _ _ _ _ OReset Hh I) as (d' & h' & HE & Hh'). injection HE as <- <-. exact Hh'. }
  pose proof (rows_text_length rows) as Hlen.
  destruct (Read_loop_ok rows (S (length (rd_input rd))) (with_dataset rd (Tabula.Reset (rd_dataset rd))) 0 0 h [] m) as (rd' & h' & t' & HE & Hrej & _ & Hh' & Ht);
    try done; [rewrite Hinp; lia|]. by exists rd', h', t'.
Qed.
End Read.

(** ** Writing them *)

Section Write.
Context (mds : list Metadata) (mds_quoted : Forall quoted mds) (names_differ : NoDup (map md_Name mds)).

Lemma FindMetadata_loop_at name pre md suf : forall idx, Forall quoted pre -> ~ name ∈ map md_Name pre -> md_Name md = name ->
  FindMetadata_loop name (pre ++ md :: suf) idx = ((idx + length pre)%nat, Some md).
Proof.
  induction pre as [|m pre IH]; intros idx Hq Hn Hmd; cbn [app FindMetadata_loop].
  - rewrite decide_True by done. by rewrite Nat.add_0_r.
  - apply Forall_cons in Hq as [Hm Hq]. cbn [map] in Hn. rewrite elem_of_cons in Hn. rewrite decide_False by (intros He; apply Hn; by left).
    rewrite (quoted_skip m Hm). rewrite IH by (try done; intros Hin; apply Hn; by right). f_equal. cbn. lia.
Qed.
Lemma write_columns_ok suf : forall pre cells row h, mds = pre ++ suf -> length cells = length mds -> cell_values h cells row ->
  write_columns suf cells mds h = Ok (concat (zip_with field suf (drop (length pre) row)), h).
Proof.
  induction suf as [|md suf IH]; intros pre cells row h Hm Hl Hc; [done|]. cbn [write_columns].
  assert (HF : FindMetadata md mds = (length pre, Some md)).
  { unfold FindMetadata. rewrite Hm. apply (FindMetadata_loop_at (md_Name md) pre md suf 0); [| |done].
    - rewrite Hm in mds_quoted. by apply Forall_app in mds_quoted as [Hq _].
    - pose proof names_differ as Hn. rewrite Hm, map_app in Hn. apply NoDup_app in Hn as (_ & Hn & _). intros Hin. by apply (Hn _ Hin); left. }
  rewrite HF. destruct (lookup_lt_is_Some_2 cells (length pre)) as [p Hp]; [rewrite Hl, Hm, length_app; cbn; lia|]. rewrite Hp.
  assert (Hq : quoted md) by (rewrite Hm in mds_quoted; apply Forall_app in mds_quoted as [_ Hq]; by apply Forall_cons in Hq as [Hq _]).
  rewrite (quoted_skip md Hq). destruct (Forall2_lookup_l _ _ _ _ _ Hc Hp) as (s & Hs & a & -> & Ha).
  assert (HG : get_record (Some a) h = Ok (VString s, h)) by (unfold get_record; by rewrite Ha). rewrite (M_bind_Ok _ _ _ _ _ HG).
  rewrite (M_bind_Ok _ _ h _ _ (IH (pre ++ [md]) cells row h ltac:(by rewrite <- app_assoc) Hl Hc)). rewrite write_value_field by done.
  rewrite (drop_S_lookup row (length pre) s Hs). cbn [zip_with concat]. rewrite length_app. cbn [length]. by rewrite Nat.add_1_r.
Qed.
Lemma WriteRow_ok cells row h : length cells = length mds -> cell_values h cells row -> WriteRow mds cells mds h = Ok (line_text mds row ++ [10], h).
Proof. intros Hl Hc. unfold WriteRow. by rewrite (M_bind_Ok _ _ _ _ _ (write_columns_ok mds [] cells row h eq_refl Hl Hc)). Qed.

(** A step that writes the rows of a table, one after the other. *)
Lemma write_each {A} (f : A -> M text) h (l : list A) (t : list (list ptr)) rows :
  Forall2 (fun a cells => forall row, cell_values h cells row -> f a h = Ok (line_text mds row ++ [10], h)) l t -> table_values h t rows ->
  exists out, map_M f l h = Ok (out, h) /\ concat out = rows_text mds rows.
Proof.
  intros Hl Ht. revert l Hl. induction Ht as [|cells row t rows Hc Ht IH]; intros l Hl; inversion Hl as [|a cells' l' t' Ha Hl']; subst; [by exists []|].
  destruct (IH l' Hl') as (out & HE & Ho). exists ((line_text mds row ++ [10]) :: out). cbn [map_M].
  rewrite (M_bind_Ok _ _ _ _ _ (Ha row Hc)), (M_bind_Ok _ _ _ _ _ HE). split; [done|]. cbn. by rewrite Ho.
Qed.
Lemma WriteRows_ok h rs t rows : Forall (fun cells => length cells = length mds) t -> rows_hold h rs t -> table_values h t rows ->
  exists n, WriteRows mds rs mds h = Ok (rows_text mds rows, n, h).
Proof.
  intros Hw Hr Ht. eexists. unfold WriteRows.
  destruct (write_each (fun r => cells ← get_row r; WriteRow mds cells mds) h rs t rows) as (out & HE & <-); [|done|].
  - clear Ht. induction Hr as [|r cells rs t Hr _ IH]; constructor; apply Forall_cons in Hw as [Hw Hws]; [|by apply IH].
    intros row Hc. rewrite (M_bind_Ok _ _ _ _ _ (get_row_ok h r cells Hr)). by apply WriteRow_ok.
  - by rewrite (M_bind_Ok _ _ _ _ _ HE).
Qed.

Lemma GetMinMaxLength_same cols L : cols ≠ [] -> Forall (fun c => length (c_recs c) = L) cols -> GetMinMaxLength cols = (0%nat, L).
Proof.
  intros Hne Hall. unfold GetMinMaxLength.
  assert (Hrest : forall cs, Forall (fun c => length (c_recs c) = L) cs -> GetMinMaxLength_loop cs 0 L = (0%nat, L)).
  { induction cs as [|c cs IH]; intros Hcs; [done|]. apply Forall_cons in Hcs as [Hc Hcs]. cbn [GetMinMaxLength_loop]. rewrite Hc.
    rewrite !decide_False by lia. by apply IH. }
  destruct cols as [|c cols]; [done|]. apply Forall_cons in Hall as [Hc Hall]. cbn [GetMinMaxLength_loop]. rewrite Hc. rewrite decide_False by lia.
  case_decide; [by apply Hrest|]. assert (L = 0%nat) as -> by lia. by apply Hrest.
Qed.
Lemma row_of_columns cols t n cells e : cols_hold cols t -> t !! n = Some cells -> length cells = length cols ->
  map (fun c => default e (c_recs c !! n)) cols = cells.
Proof.
  intros Hc Hn Hl. apply list_eq. intros j. rewrite list_lookup_fmap. destruct (decide (j < length cols)%nat) as [Hj|Hj].
  - destruct (lookup_lt_is_Some_2 cols j Hj) as [c Hcj]. rewrite Hcj. cbn.
    assert (Hr : map c_recs cols !! j = Some (c_recs c)) by (rewrite list_lookup_fmap; by rewrite Hcj).
    rewrite Hc, columns_of_lookup, decide_True in Hr by done. injection Hr as <-. unfold column. rewrite list_lookup_fmap, Hn. cbn.
    destruct (lookup_lt_is_Some_2 cells j ltac:(lia)) as [p ->]. done.
  - by rewrite !lookup_ge_None_2 by lia.
Qed.
Lemma WriteColumns_ok h cols t rows : length cols = length mds -> mds ≠ [] -> Forall (fun cells => length cells = length mds) t ->
  cols_hold cols t -> table_values h t rows ->
  exists n h', WriteColumns mds cols (Some mds) h = Ok (rows_text mds rows, n, h') /\ h_recs h `prefix_of` h_recs h' /\ h_rows h' = h_rows h.
Proof.
  intros Hl Hne Hw Hc Ht. unfold WriteColumns. destruct cols as [|c0 cols'] eqn:Hcols; [by destruct mds|]. cbn [isnil]. rewrite <- Hcols in *. clear Hcols.
  set (h' := mkHeap (h_recs h ++ [VString []]) (h_rows h)). rewrite (M_bind_Ok _ _ h (Some (length (h_recs h))) h' eq_refl).
  rewrite (GetMinMaxLength_same cols (length t)); [|intros ->; by destruct mds|apply Forall_forall; intros c Hin; by eapply cols_hold_at].
  cbn [seq map_M]. rewrite (M_bind_Ok _ _ h' [] h' eq_refl). rewrite Nat.sub_0_r. assert (Hp : h_recs h `prefix_of` h_recs h') by by eexists.
  eexists _, h'. split; [|done]. set (f := fun n => WriteRow _ _ _).
  destruct (write_each f h' (seq 0 (length t)) t rows) as (out & HE & <-); [|by apply (table_values_mono h)|].
  - apply Forall2_same_length_lookup. split; [by rewrite length_seq|]. intros i n cells Hi Hcells row Hrow. apply lookup_seq in Hi as [-> Hi]. cbn.
    assert (Hlen : length cells = length mds) by (rewrite Forall_forall in Hw; apply Hw; by eapply list_elem_of_lookup_2).
    unfold f. rewrite (row_of_columns cols t i cells) by (done || congruence). by apply WriteRow_ok.
  - by rewrite (M_bind_Ok _ _ _ _ _ HE).
Qed.
Lemma Write_ok h src m t rows : mds ≠ [] -> rd_md src = mds -> holds (length mds) h (rd_dataset src) m t -> table_values h t rows ->
  exists src' n h', Write mds src h = Ok (src', (rows_text mds rows, n), h') /\ h_recs h `prefix_of` h_recs h' /\ h_rows h' = h_rows h.
Proof.
  intros Hne Hmd (Hw & Hl & Hm & Ht & Hcase) Hv. unfold Write. rewrite Hm, Hmd.
  destruct Hcase as [(-> & Hr & Hc)|[(-> & Hr & Hc)|(-> & Hr & Hc)]]; cbn [Z.eqb Pos.eqb DatasetModeRows DatasetModeColumns DatasetModeMatrix].
  2: { assert (HG : GetDataAsColumns (rd_dataset src) h = Ok (rd_dataset src, d_cols (rd_dataset src), h)) by (unfold GetDataAsColumns; by rewrite Hm).
    rewrite (M_bind_Ok _ _ _ _ _ HG). destruct (WriteColumns_ok h _ t rows Hl Hne Ht Hc Hv) as (n & h' & HE & Hp & Hrows).
    rewrite (M_bind_Ok _ _ _ _ _ HE). by eexists _, _, _. }
  all: assert (HG : GetDataAsRows (rd_dataset src) h = Ok (rd_dataset src, d_rows (rd_dataset src), h)) by (unfold GetDataAsRows; by rewrite Hm).
  all: rewrite (M_bind_Ok _ _ _ _ _ HG); destruct (WriteRows_ok h _ t rows Ht Hr Hv) as (n & HE); rewrite (M_bind_Ok _ _ _ _ _ HE); by eexists _, _, _.
Qed.
End Write.

(** ** The property *)

Lemma holds_recs w h h' d m t : h_rows h' = h_rows h -> holds w h d m t -> holds w h' d m t.
Proof.
  intros Hr (Hw & Hl & Hm & Ht & Hcase). repeat split; try done. unfold rows_hold in *. by rewrite Hr.
Qed.
Lemma table_values_shape w h t rows : Forall (fun cells : list ptr => length cells = w) t -> table_values h t rows -> Forall (fun row => length row = w) rows.
Proof.
  intros Hw Ht. induction Ht as [|cells row t rows Hc Ht IH]; [done|]. apply Forall_cons in Hw as [Hw Hws]. constructor; [|by apply IH].
  rewrite <- Hw. symmetry. by eapply Forall2_length.
Qed.

(** C18: what the writer writes of a dataset in any mode, the reader reads back, into a dataset of any mode: the table of
    the strings is the same, whatever bytes they hold, as many rows are counted, the end of the input is reported and
    nothing is rejected.  Each column is a string between a left quote that starts with a character that is no blank
    and a right quote of one byte; the separators, if any, are told from the left quotes; the columns have names
    that differ; the reader does not trim lines and has no limit of rows. *)
Theorem Write_Read mds src rd h m t rows m2 t2 : mds ≠ [] -> Forall quoted mds -> NoDup (map md_Name mds) ->
  rd_md src = mds -> holds (length mds) h (rd_dataset src) m t -> table_values h t rows ->
  plain_reader mds rd -> st_MaxRows (rd_set rd) <= 0 -> holds (length mds) h (rd_dataset rd) m2 t2 ->
  exists src' out n h1, Write mds src h = Ok (src', (out, n), h1) /\
  exists rd' h2 t', Read (with_input rd out) h1 = Ok (rd', Z.of_nat (length rows), true, h2) /\
    rd_rejected rd' = rd_rejected rd /\ holds (length mds) h2 (rd_dataset rd') m2 t' /\ table_values h2 t' rows.
Proof.
  intros Hne Hq Hn Hmd Hh Hv Hrd Hmax Hh2. destruct (Write_ok mds Hq Hn h src m t rows Hne Hmd Hh Hv) as (src' & n & h1 & HE & _ & Hrows).
  exists src', (rows_text mds rows), n, h1. split; [exact HE|].
  destruct (Read_ok mds Hne Hq rows (with_input rd (rows_text mds rows)) h1 m2 t2) as (rd' & h2 & t' & HE' & Hrej & Hh' & Ht'); try done.
  - destruct Hh as (_ & _ & _ & Hw & _). by eapply table_values_shape.
  - by apply (holds_recs _ h).
  - by exists rd', h2, t'.
Qed.
End Rows.

(** ** Instances *)

Section Instances.
Local Existing Instance whole_floats.

Definition column_of (name sep lq rq : text) (t : Z) (skip : bool) : Metadata := mkMetadata name [] t sep lq rq skip [].
Definition two_columns : list Metadata := [column_of (str "a") (str ",") [34] [34] TString false; column_of (str "b") [] [34] [34] TString false].
Definition settings : Settings := mkSettings [] [] [] 0 false (-1) DatasetModeROWS.
Definition reader_of (mds : list Metadata) (d : Dataset) (inp : text) : Reader := mkReader settings mds inp [] d.

Lemma two_columns_quoted : Forall quoted two_columns.
Proof.
  repeat constructor; try done; cbn; try (intros Hin; repeat (apply elem_of_cons in Hin as [Hin|Hin]; [done|]); by apply not_elem_of_nil in Hin).
  all: exists 34, []; split; [done|]; split; [lia|]; split; [done|]; tauto || (right; right; done).
Qed.
(** A row of a separator, a quote, an escape and a line end, and of nothing. *)
Definition odd_row : list text := [[44; 34; 92; 10]; []].
Definition odd_heap : heap := mkHeap [VString [44; 34; 92; 10]; VString []] [[Some 0%nat; Some 1%nat]].
Definition odd_source : Reader := reader_of two_columns (mkDataset DatasetModeRows [zero_column; zero_column] [0%nat]) [].
Definition empty_target : Reader := reader_of two_columns (mkDataset DatasetModeColumns [zero_column; zero_column] []) [].

Lemma Write_Read_witness : exists src' out n h1, Write two_columns odd_source odd_heap = Ok (src', (out, n), h1) /\
  exists rd' h2 t', Read (with_input empty_target out) h1 = Ok (rd', 1, true, h2) /\ table_values h2 t' [odd_row].
Proof.
  assert (Hs : holds 2 odd_heap (rd_dataset odd_source) DatasetModeRows [[Some 0%nat; Some 1%nat]]).
  { split; [lia|]. split; [done|]. split; [done|]. split; [by repeat constructor|]. left. split; [done|]. split; [by repeat constructor|done]. }
  assert (Hd : holds 2 odd_heap (rd_dataset empty_target) DatasetModeColumns []).
  { split; [lia|]. split; [done|]. split; [done|]. split; [constructor|]. right; left. done. }
  assert (Hv : table_values odd_heap [[Some 0%nat; Some 1%nat]] [odd_row]).
  { repeat constructor; eexists; (split; [reflexivity|reflexivity]). }
  assert (Hn : NoDup (map md_Name two_columns)).
  { constructor; [intros Hin; apply list_elem_of_singleton in Hin; discriminate|]. constructor; [apply not_elem_of_nil|constructor]. }
  destruct (Write_Read two_columns odd_source empty_target odd_heap DatasetModeRows [[Some 0%nat; Some 1%nat]] [odd_row] DatasetModeColumns []
    ltac:(discriminate) two_columns_quoted Hn eq_refl Hs Hv (conj eq_refl eq_refl) ltac:(cbn; lia) Hd) as (src' & out & n & h1 & HW & rd' & h2 & t' & HR & _ & _ & Ht).
  exists src', out, n, h1. split; [exact HW|]. exists rd', h2, t'. split; [exact HR|exact Ht].
Defined.

(** Without quotes, the escape that is put before a separator is not taken away. *)
Definition bare (sep : text) : Metadata := column_of (str "a") sep [] [] TString false.
Example separator_kept : write_value (bare (str ",")) (VString (str "a,b")) = str "a\,b," /\
  ParseLine [bare (str ",")] (str "a\,b,") 0 [] [] = Ok (inl [VString (str "a\")], []).
Proof. split; vm_compute; reflexivity. Qed.
(** A column that is skipped is not, where it is empty. *)
Example skipped_empty :
  ParseLine [column_of (str "a") (str ",") [] [] TString true; bare []] (str ",b") 0 [] [] = Ok (inl [VString []; VString (str "b")], []) /\
  ParseLine [column_of (str "a") (str ",") [] [] TString true; bare []] (str "x,b") 0 [] [] = Ok (inl [VString (str "b")], []).
Proof. split; vm_compute; reflexivity. Qed.
(** The third of the columns without separators is read from behind the line. *)
Example columns_bare : ParseLine [bare []; bare []; bare []] (str "a") 0 [] [] = Panic.
Proof. reflexivity. Qed.
(** A last line without its end is not read. *)
Example unended_line_lost :
  ('(rd, n, eof) ← Read (reader_of [bare []] (mkDataset DatasetModeRows [zero_column] []) (str "a" ++ [10] ++ str "b")); mret (n, eof)) (mkHeap [] []) =
  Ok (1, true, mkHeap [VString (str "a")] [[Some 0%nat]]).
Proof. vm_compute. reflexivity. Qed.
(** Of the lines that were joined in search of a quote, only the first is rejected. *)
Example joined_lines_lost :
  ('(rd, n, eof) ← Read (reader_of [column_of [] [] [34] [34] TString false] (mkDataset DatasetModeRows [zero_column] []) ([34] ++ str "a" ++ [10] ++ str "b" ++ [10]));
   mret (n, rd_rejected rd)) (mkHeap [] []) = Ok (0, [34] ++ str "a" ++ [10], mkHeap [] []).
Proof. vm_compute. reflexivity. Qed.
(** [WriteRows] says one row less than it wrote. *)
Example WriteRows_number : WriteRows [bare []] [0%nat] [bare []] (mkHeap [VString (str "x")] [[Some 0%nat]]) =
  Ok (str "x" ++ [10], 0%nat, mkHeap [VString (str "x")] [[Some 0%nat]]).
Proof. vm_compute. reflexivity. Qed.
(** [WriteRawColumns] reads behind the end of the shorter column. *)
Example WriteRawColumns_short : WriteRawColumns [with_recs zero_column [Some 0%nat]; zero_column] None (mkHeap [VString (str "x")] []) = Panic.
Proof. vm_compute. reflexivity. Qed.
End Instances.
