(* ===== verification/Ini.v ===== *)
(** Package [lib/ini], files [linemode.go], [variable.go], [section.go],
    [common.go] and [ini.go]: the variables and sections of an INI file, their
    lookup, changes, merging and printing.

    Sections are pointers that lists of sections share (the result of [Subs] and
    a rebased [Ini] hold the sections of another one), so they live in a store;
    an address is the place of its section in the store.  A variable is held by
    value: the pointers to one are shared only with the result of
    [Ini.Section], which is a copy here.  [Marshal] and [Unmarshal], which walk
    Go values by reflection, are not modelled. *)

From Stdlib Require Import ZArith Lia.
From S2P Require Import Prelude Ascii Utf8 Strings.

Local Open Scope Z_scope.

(** ** Line modes *)

Definition lineModeEmpty : Z := 0.
Definition lineModeComment : Z := 1.
Definition lineModeSection : Z := 2.
Definition lineModeSubsection : Z := 4.
Definition lineModeSingle : Z := 8.
Definition lineModeValue : Z := 16.
Definition lineModeMulti : Z := 32.

Definition isLineModeVar (mode : Z) : bool :=
  if 0 <? Z.land mode lineModeSingle then true
  else if 0 <? Z.land mode lineModeValue then true
  else if 0 <? Z.land mode lineModeMulti then true
  else false.

(** ** Variables *)

Definition varValueTrue : text := str "true".

Record variable : Type := Var {
  v_mode : Z;
  v_lineNum : Z;
  v_format : text;
  v_secName : text;
  v_subName : text;
  key : text;
  keyLower : text;
  value : text;
  v_others : text;
  isQuoted : bool
}.

#[export] Instance variable_eq_dec : EqDecision variable.
Proof. solve_decision. Defined.

Definition set_value (v : variable) (value : text) : variable :=
  Var (v_mode v) (v_lineNum v) (v_format v) (v_secName v) (v_subName v) (key v) (keyLower v) value (v_others v) (isQuoted v).
Definition set_keyLower (v : variable) (keyLower : text) : variable :=
  Var (v_mode v) (v_lineNum v) (v_format v) (v_secName v) (v_subName v) (key v) keyLower (value v) (v_others v) (isQuoted v).

(** A format is a line with [%s] for its holes: [fmt.Fprintf] with the strings
    [args].  Missing and extra arguments are reported in the output. *)
Fixpoint Fprintf (format : text) (args : list text) : text :=
  match format with
  | 37 :: 115 :: format =>
      match args with
      | [] => str "%!s(MISSING)" ++ Fprintf format []
      | a :: args => a ++ Fprintf format args
      end
  | c :: format => c :: Fprintf format args
  | [] =>
      match args with
      | [] => []
      | a :: args => str "%!(EXTRA string=" ++ a ++ concat ((fun a => str ", string=" ++ a) <$> args) ++ str ")"
      end
  end.

Definition escape_rune (c : Z) : text :=
  if c =? 8 then [92; 98]
  else if c =? 10 then [92; 110]
  else if c =? 9 then [92; 116]
  else if c =? 92 then [92; 92]
  else if c =? 34 then [92; 34]
  else EncodeRune c.
Definition escape (value : text) : text := 34 :: concat (escape_rune <$> runes_of value) ++ [34].

Definition or_format (format : text) (default : string) : text :=
  match format with
  | [] => str default ++ [10]
  | _ => format
  end.

(** [variable.String]. *)
Definition variable_String (v : variable) : text :=
  let val := if isQuoted v then escape (value v) else value v in
  let mode := v_mode v in
  if mode =? lineModeEmpty then v_format v
  else if mode =? lineModeComment then Fprintf (or_format (v_format v) "%s") [v_others v]
  else if mode =? lineModeSingle then Fprintf (or_format (v_format v) "%s = true") [key v]
  else if mode =? Z.lor lineModeSingle lineModeComment then Fprintf (or_format (v_format v) "%s = true %s") [key v; v_others v]
  else if mode =? lineModeValue then Fprintf (or_format (v_format v) "%s = %s") [key v; val]
  else if mode =? Z.lor lineModeValue lineModeComment then Fprintf (or_format (v_format v) "%s = %s %s") [key v; val; v_others v]
  else if mode =? lineModeMulti then Fprintf (or_format (v_format v) "%s = %s") [key v; val]
  else if mode =? Z.lor lineModeMulti lineModeComment then Fprintf (or_format (v_format v) "%s = %s %s") [key v; val; v_others v]
  else [].

(** ** Sections *)

Record section : Type := Sec {
  mode : Z;
  lineNum : Z;
  name : text;
  sub : text;
  format : text;
  nameLower : text;
  others : text;
  vars : list variable
}.

#[export] Instance section_eq_dec : EqDecision section.
Proof. solve_decision. Defined.
#[export] Instance section_inhabited : Inhabited section := populate (Sec 0 0 [] [] [] [] [] []).

Definition set_vars (sec : section) (vars : list variable) : section :=
  Sec (mode sec) (lineNum sec) (name sec) (sub sec) (format sec) (nameLower sec) (others sec) vars.

(** Addresses of sections and what they stand for. *)
Abbreviation store := (list section).
Abbreviation addr := nat.

Section Ini.
Context `{Unicode}.

(** [newSection]: nil without a name. *)
Definition newSection (name subName : text) : option section :=
  match name with
  | [] => None
  | _ =>
      let nameLower := text_ToLower name in
      match subName with
      | [] => Some (Sec lineModeSection 0 name [] [] nameLower [] [])
      | _ => Some (Sec (Z.lor lineModeSection lineModeSubsection) 0 name subName [] nameLower [] [])
      end
  end.

Definition section_String (sec : section) : text :=
  if mode sec =? lineModeSection then Fprintf (or_format (format sec) "[%s]") [name sec]
  else if mode sec =? Z.lor lineModeSection lineModeComment then
    Fprintf (or_format (format sec) "[%s] %s") [name sec; others sec]
  else if mode sec =? Z.lor lineModeSection lineModeSubsection then
    (match format sec with
     | [] => 91 :: name sec ++ 32 :: 34 :: sub sec ++ [34; 93; 10]
     | _ => Fprintf (format sec) [name sec; sub sec]
     end)
  else if mode sec =? Z.lor lineModeSection (Z.lor lineModeSubsection lineModeComment) then
    (match format sec with
     | [] => 91 :: name sec ++ 32 :: 34 :: sub sec ++ 34 :: 93 :: 32 :: others sec ++ [10]
     | _ => Fprintf (format sec) [name sec; sub sec; others sec]
     end)
  else [].

(** The variable that [add], [addUniqValue], [set], [Add] and [Set] make. *)
Definition newVariable (key value : text) : variable :=
  Var lineModeValue 0 [] [] [] key (text_ToLower key) value [] false.

Definition or_true (value : text) : text := match value with [] => varValueTrue | _ => value end.

(** [Section.add]. *)
Definition add_dup (keyLow val : text) (v : variable) : bool :=
  if negb (isLineModeVar (v_mode v)) then false
  else if negb (bool_decide (keyLower v = keyLow)) then false
  else bool_decide (value v = val).
Definition section_add (sec : section) (key value : text) : section * bool :=
  match key with
  | [] => (sec, false)
  | _ =>
      let value := or_true value in
      if existsb (add_dup (text_ToLower key) value) (vars sec) then (sec, false)
      else (set_vars sec (vars sec ++ [newVariable key value]), true)
  end.

(** [Section.addUniqValue] on the variables: [None] when there is none to move. *)
Fixpoint move_last (keyLow val : text) (vs : list variable) : option (list variable * variable) :=
  match vs with
  | [] => None
  | v :: vs =>
      if bool_decide (keyLower v = keyLow) && bool_decide (value v = val) then Some (vs, v)
      else match move_last keyLow val vs with
           | Some (vs, w) => Some (v :: vs, w)
           | None => None
           end
  end.
Definition addUniqValue (sec : section) (key value : text) : section :=
  match move_last (text_ToLower key) value (vars sec) with
  | Some (vs, w) => set_vars sec (vs ++ [w])
  | None => set_vars sec (vars sec ++ [newVariable key value])
  end.

(** [Section.addVariable]. *)
Definition addVariable (sec : section) (v : variable) : section :=
  let v := if isLineModeVar (v_mode v) then set_keyLower (set_value v (or_true (value v))) (text_ToLower (key v)) else v in
  set_vars sec (vars sec ++ [v]).

(** [Section.get]: from the last variable down, whatever its mode. *)
Fixpoint get_down (rvars : list variable) (key : text) : option text :=
  match rvars with
  | [] => None
  | v :: rvars => if bool_decide (keyLower v = key) then Some (value v) else get_down rvars key
  end.
Definition section_get (sec : section) (key def : text) : text * bool :=
  match vars sec, key with
  | [], _ | _, [] => (def, false)
  | _, _ =>
      match get_down (rev (vars sec)) (text_ToLower key) with
      | Some val => (val, true)
      | None => (def, false)
      end
  end.

(** [Section.getVariable]: the index of the last variable with the key. *)
Fixpoint getVariable_down (n : nat) (vs : list variable) (key : text) : option nat :=
  match n with
  | O => None
  | S n =>
      match vs !! n with
      | Some v => if isLineModeVar (v_mode v) && bool_decide (keyLower v = key) then Some n else getVariable_down n vs key
      | None => getVariable_down n vs key
      end
  end.
Definition getVariable (sec : section) (key : text) : option nat := getVariable_down (length (vars sec)) (vars sec) key.

(** [Section.gets]. *)
Definition section_gets (sec : section) (key : text) (defs : list text) : list text * bool :=
  match vars sec, key with
  | [], _ | _, [] => (defs, false)
  | _, _ =>
      match value <$> filter (fun v => keyLower v = text_ToLower key) (vars sec) with
      | [] => (defs, false)
      | vals => (vals, true)
      end
  end.

Definition Val (sec : section) (key : text) : text := (section_get sec key []).1.
Definition Vals (sec : section) (key : text) : list text := (section_gets sec key []).1.

(** [Section.merge]. *)
Definition merge (sec other : section) : section :=
  set_vars sec (vars sec ++ filter (fun v => isLineModeVar (v_mode v)) (vars other)).

(** [Section.unsetAll] and [Section.replaceAll]. *)
Definition unsetAll (sec : section) (key : text) : section :=
  match key with
  | [] => sec
  | _ => set_vars sec (filter (fun v => keyLower v ≠ text_ToLower key) (vars sec))
  end.
Definition replaceAll (sec : section) (key value : text) : section := (section_add (unsetAll sec key) key value).1.

(** [Section.set]. *)
Definition section_set (sec : section) (key value : text) : section * bool :=
  match key with
  | [] => (sec, false)
  | _ =>
      let value := or_true value in
      match getVariable sec (text_ToLower key) with
      | None => (set_vars sec (vars sec ++ [newVariable key value]), true)
      | Some idx => (set_vars sec (alter (fun v => set_value v value) idx (vars sec)), true)
      end
  end.

(** [Section.unset]. *)
Definition section_unset (sec : section) (key : text) : section * bool :=
  match key with
  | [] => (sec, false)
  | _ =>
      match getVariable sec (text_ToLower key) with
      | None => (sec, false)
      | Some idx => (set_vars sec (delete idx (vars sec)), true)
      end
  end.

(** [IsValueBoolTrue]. *)
Definition IsValueBoolTrue (v : text) : bool :=
  match v with
  | [] => false
  | _ => let v := text_ToLower v in bool_decide (v ∈ [str "true"; str "t"; str "ya"; str "yes"; str "1"])
  end.

(** ** Lists of sections

    [in.secs] is a list of addresses; an address always comes from an
    allocation, so [h !!! a] is the section it stands for. *)


Definition named (sec : section) (nameLow subName : text) : bool :=
  bool_decide (nameLower sec = nameLow) && bool_decide (sub sec = subName).
Definition no_header (sec : section) : bool := (mode sec =? lineModeEmpty) || (mode sec =? lineModeComment).

(** [Ini.getSection]: the last one. *)
Fixpoint getSection_down (h : store) (rsecs : list addr) (secName subName : text) : option addr :=
  match rsecs with
  | [] => None
  | a :: rsecs =>
      if negb (no_header (h !!! a)) && named (h !!! a) secName subName then Some a
      else getSection_down h rsecs secName subName
  end.
Definition getSection (h : store) (secs : list addr) (secName subName : text) : option addr :=
  getSection_down h (rev secs) secName subName.

(** A new section with one variable, as [Add] and [Set] append it. *)
Definition append_section (h : store) (secs : list addr) (secName subName key value : text) : store * list addr * bool :=
  match newSection secName subName with
  | Some sec => (h ++ [set_vars sec [newVariable key value]], secs ++ [length h], true)
  | None => (h, secs, true)
  end.

Definition Ini_Add (h : store) (secs : list addr) (secName subName key value : text) : store * list addr * bool :=
  match secName, key with
  | [], _ | _, [] => (h, secs, false)
  | _, _ =>
      let secName := text_ToLower secName in
      match getSection h secs secName subName with
      | Some a => let '(sec, ok) := section_add (h !!! a) key value in (<[a := sec]> h, secs, ok)
      | None => append_section h secs secName subName key (or_true value)
      end
  end.

Definition Ini_Set (h : store) (secs : list addr) (secName subName key value : text) : store * list addr * bool :=
  match secName, key with
  | [], _ | _, [] => (h, secs, false)
  | _, _ =>
      let secName := text_ToLower secName in
      match getSection h secs secName subName with
      | None => append_section h secs secName subName key value
      | Some a => let '(sec, ok) := section_set (h !!! a) (text_ToLower key) value in (<[a := sec]> h, secs, ok)
      end
  end.

Definition Ini_Unset (h : store) (secs : list addr) (secName subName key : text) : store * bool :=
  match secName, key with
  | [], _ | _, [] => (h, false)
  | _, _ =>
      match getSection h secs (text_ToLower secName) subName with
      | None => (h, false)
      | Some a => (<[a := (section_unset (h !!! a) key).1]> h, true)
      end
  end.

(** [Ini.Section]: a new section with the variables of all those of that name. *)
Definition Ini_Section (h : store) (secs : list addr) (secName subName : text) : option section :=
  match secName with
  | [] => None
  | _ =>
      let nameLow := text_ToLower secName in
      Some (foldl (fun sec a => if named (h !!! a) nameLow subName then merge sec (h !!! a) else sec)
                  (Sec 0 0 secName subName [] [] [] []) secs)
  end.

(** [Ini.addSection] on a section that is not nil. *)
Definition addSection (h : store) (secs : list addr) (sec : section) : store * list addr :=
  if negb (mode sec =? lineModeEmpty) && bool_decide (name sec = []) then (h, secs)
  else
    let sec := Sec (mode sec) (lineNum sec) (name sec) (sub sec) (format sec) (text_ToLower (name sec)) (others sec) (vars sec) in
    (h ++ [sec], secs ++ [length h]).

(** [Ini.Get]: from the last section down. *)
Fixpoint Get_down (h : store) (rsecs : list addr) (nameLow subName key def : text) : text * bool :=
  match rsecs with
  | [] => (def, false)
  | a :: rsecs =>
      if named (h !!! a) nameLow subName then
        match section_get (h !!! a) key def with
        | (val, true) => (val, true)
        | _ => Get_down h rsecs nameLow subName key def
        end
      else Get_down h rsecs nameLow subName key def
  end.
Definition Ini_Get (h : store) (secs : list addr) (secName subName key def : text) : text * bool :=
  match secs, secName, key with
  | [], _, _ | _, [], _ | _, _, [] => (def, false)
  | _, _, _ => Get_down h (rev secs) (text_ToLower secName) subName key def
  end.

Definition GetBool (h : store) (secs : list addr) (secName subName key : text) (def : bool) : bool :=
  match Ini_Get h secs secName subName key (str "false") with
  | (out, true) => IsValueBoolTrue out
  | _ => def
  end.

Fixpoint Gets_loop (h : store) (secs : list addr) (nameLow subName key : text) : list text :=
  match secs with
  | [] => []
  | a :: secs =>
      if Z.land (mode (h !!! a)) lineModeSection =? 0 then Gets_loop h secs nameLow subName key
      else if negb (named (h !!! a) nameLow subName) then Gets_loop h secs nameLow subName key
      else match section_gets (h !!! a) key [] with
           | (vals, true) => vals ++ Gets_loop h secs nameLow subName key
           | _ => Gets_loop h secs nameLow subName key
           end
  end.
Definition Gets (h : store) (secs : list addr) (secName subName key : text) : list text :=
  Gets_loop h secs (text_ToLower secName) subName key.
Definition GetsUniq (h : store) (secs : list addr) (secName subName key : text) (caseSensitive : bool) : list text :=
  (Uniq (Gets h secs secName subName key) caseSensitive).1.

(** [Ini.AsMap]. *)
Definition AsMap_key (sectionName subName : text) (sec : section) (v : variable) : text :=
  match sectionName, subName with
  | _ :: _, _ :: _ => key v
  | _, _ => nameLower sec ++ 58 :: sub sec ++ 58 :: key v
  end.
Definition AsMap_var (sectionName subName : text) (sec : section) (out : gmap text (list text)) (v : variable) :
    gmap text (list text) :=
  if v_mode v =? lineModeEmpty then out
  else if (0 <? Z.land (v_mode v) lineModeSection) || (0 <? Z.land (v_mode v) lineModeSubsection) then out
  else
    let k := AsMap_key sectionName subName sec v in
    match out !! k with
    | None => <[k := [value v]]> out
    | Some vals => <[k := AppendUniq vals [value v]]> out
    end.
Definition AsMap_section (sectionName subName : text) (out : gmap text (list text)) (sec : section) :
    gmap text (list text) :=
  match sectionName with
  | _ :: _ => if named sec sectionName subName then foldl (AsMap_var sectionName subName sec) out (vars sec) else out
  | [] => foldl (AsMap_var sectionName subName sec) out (vars sec)
  end.
Definition AsMap (h : store) (secs : list addr) (sectionName subName : text) : gmap text (list text) :=
  foldl (fun out a => AsMap_section sectionName subName out (h !!! a)) ∅ secs.

(** [mergeSection].  The variables of [newSec] are read one index at a time: it
    may be the very section they are merged into, whose variables move in the
    slice while the loop runs over it. *)
Definition skipped (v : variable) : bool := (v_mode v =? lineModeEmpty) || (v_mode v =? lineModeComment).

Fixpoint merge_vars (k i : nat) (h : store) (dst src : addr) : store :=
  match k with
  | O => h
  | S k =>
      match vars (h !!! src) !! i with
      | None => h
      | Some v =>
          if skipped v then merge_vars k (S i) h dst src
          else merge_vars k (S i) (<[dst := addUniqValue (h !!! dst) (keyLower v) (value v)]> h) dst src
      end
  end.
Fixpoint find_same (h : store) (secs : list addr) (newSec : section) : option addr :=
  match secs with
  | [] => None
  | a :: secs => if named (h !!! a) (nameLower newSec) (sub newSec) then Some a else find_same h secs newSec
  end.
Definition mergeSection (h : store) (secs : list addr) (newSec : addr) : store * list addr :=
  match find_same h secs (h !!! newSec) with
  | Some a => (merge_vars (length (vars (h !!! newSec))) 0 h a newSec, secs)
  | None => (h, secs ++ [newSec])
  end.

(** [Ini.Prune]. *)
Definition prune_section (sec : section) : section :=
  let newSec := match sub sec with
                | [] => Sec lineModeSection 0 (name sec) [] [] (nameLower sec) [] []
                | _ => Sec (Z.lor lineModeSection lineModeSubsection) 0 (name sec) (sub sec) [] (nameLower sec) [] []
                end in
  foldl (fun newSec v => if skipped v then newSec else addUniqValue newSec (key v) (or_true (value v))) newSec (vars sec).
Fixpoint Prune_loop (h : store) (secs newSecs : list addr) : store * list addr :=
  match secs with
  | [] => (h, newSecs)
  | a :: secs =>
      if mode (h !!! a) =? lineModeEmpty then Prune_loop h secs newSecs
      else
        let '(h', newSecs) := mergeSection (h ++ [prune_section (h !!! a)]) newSecs (length h) in
        Prune_loop h' secs newSecs
  end.
Definition Prune (h : store) (secs : list addr) : store * list addr := Prune_loop h secs [].

Fixpoint Rebase (h : store) (secs otherSecs : list addr) : store * list addr :=
  match otherSecs with
  | [] => (h, secs)
  | a :: otherSecs => let '(h, secs) := mergeSection h secs a in Rebase h secs otherSecs
  end.

(** [Ini.Subs]. *)
Fixpoint Subs_loop (h : store) (secs : list addr) (nameLow : text) (subs : list addr) : store * list addr :=
  match secs with
  | [] => (h, subs)
  | a :: secs =>
      let sec := h !!! a in
      if no_header sec || bool_decide (sub sec = []) || negb (bool_decide (nameLower sec = nameLow)) then
        Subs_loop h secs nameLow subs
      else let '(h, subs) := mergeSection h subs a in Subs_loop h secs nameLow subs
  end.
Definition Subs (h : store) (secs : list addr) (secName : text) : store * list addr :=
  match secName with
  | [] => (h, [])
  | _ => Subs_loop h secs (text_ToLower secName) []
  end.

(** Lookup by a path [section:sub:key]. *)
Definition Ini_Val (h : store) (secs : list addr) (keyPath : text) : text :=
  match Split 58 keyPath with
  | [k0; k1; k2] => (Ini_Get h secs k0 k1 k2 []).1
  | _ => []
  end.
Definition Ini_Vals (h : store) (secs : list addr) (keyPath : text) : list text :=
  match Split 58 keyPath with
  | [k0; k1; k2] => Gets h secs k0 k1 k2
  | _ => []
  end.
Definition ValsUniq (h : store) (secs : list addr) (keyPath : text) (caseSensitive : bool) : list text :=
  (Uniq (Ini_Vals h secs keyPath) caseSensitive).1.
Definition Vars (h : store) (secs : list addr) (sectionPath : text) : gmap text text :=
  match Split 58 sectionPath with
  | [] => ∅
  | [n0] => omap last (AsMap h secs n0 [])
  | n0 :: n1 :: _ => omap last (AsMap h secs n0 n1)
  end.

(** [Ini.Write]: an empty line is written before a section when the last
    variable seen, [v], is not one. *)
Fixpoint Write_loop (h : store) (secs : list addr) (endWithVar : bool) (v : option variable) : text :=
  match secs with
  | [] => []
  | a :: secs =>
      let sec := h !!! a in
      let v := match last (vars sec) with Some w => Some w | None => v end in
      (if endWithVar then [10] else []) ++ section_String sec ++ concat (variable_String <$> vars sec)
        ++ Write_loop h secs (match v with Some w => isLineModeVar (v_mode w) | None => false end) v
  end.
Definition Write (h : store) (secs : list addr) : text := Write_loop h secs false None.

(** ** What a lookup sees

    The variables of all the sections of a name and subsection, in order: a
    variable is found by the last entry with its key. *)

Definition kv (v : variable) : text * text := (keyLower v, value v).
Definition entries (h : store) (secs : list addr) (nameLow subName : text) : list (text * text) :=
  concat ((fun a => if named (h !!! a) nameLow subName then kv <$> vars (h !!! a) else []) <$> secs).
Definition last_val (k : text) (es : list (text * text)) : option text := snd <$> last (filter (fun e => e.1 = k) es).

Lemma last_val_app k es1 es2 :
  last_val k (es1 ++ es2) = match last_val k es2 with Some v => Some v | None => last_val k es1 end.
Proof. unfold last_val. rewrite filter_app, last_app. by destruct (last (filter _ es2)). Qed.

Lemma last_val_nil k : last_val k [] = None.
Proof. done. Qed.

Lemma last_val_one k e : last_val k [e] = if decide (e.1 = k) then Some e.2 else None.
Proof. unfold last_val. rewrite filter_cons, filter_nil. by case_decide. Qed.

Lemma get_down_last vs k : get_down (rev vs) k = last_val k (kv <$> vs).
Proof.
  induction vs as [|v vs IH] using rev_ind; [done|].
  rewrite rev_app_distr, fmap_app, last_val_app. cbn [rev app fmap list_fmap get_down]. rewrite last_val_one. cbn [fst snd kv].
  case_bool_decide as Hk; case_decide as Hk'; try done; by rewrite IH.
Qed.

Lemma section_get_last sec key def : key ≠ [] ->
  section_get sec key def = match last_val (text_ToLower key) (kv <$> vars sec) with Some v => (v, true) | None => (def, false) end.
Proof.
  intros Hk. unfold section_get. destruct key as [|k key]; [done|]. destruct (vars sec) as [|v vs] eqn:E; [done|].
  rewrite <- E, get_down_last. by destruct (last_val _ _).
Qed.

Lemma entries_app h secs1 secs2 s b : entries h (secs1 ++ secs2) s b = entries h secs1 s b ++ entries h secs2 s b.
Proof. unfold entries. by rewrite fmap_app, concat_app. Qed.

Lemma entries_cons h a secs s b :
  entries h (a :: secs) s b = (if named (h !!! a) s b then kv <$> vars (h !!! a) else []) ++ entries h secs s b.
Proof. done. Qed.

Lemma Get_down_last h secs s b key def : key ≠ [] ->
  Get_down h (rev secs) s b key def
  = match last_val (text_ToLower key) (entries h secs s b) with Some v => (v, true) | None => (def, false) end.
Proof.
  intros Hk. induction secs as [|a secs IH] using rev_ind; [done|].
  rewrite rev_app_distr, entries_app, last_val_app, entries_cons. cbn [rev app Get_down]. unfold entries at 1. cbn [fmap list_fmap concat].
  rewrite app_nil_r. destruct (named (h !!! a) s b).
  - rewrite section_get_last by done. rewrite IH. by destruct (last_val _ (kv <$> _)).
  - by rewrite last_val_nil.
Qed.

Lemma Ini_Get_last h secs s b key def : s ≠ [] -> key ≠ [] ->
  Ini_Get h secs s b key def
  = match last_val (text_ToLower key) (entries h secs (text_ToLower s) b) with Some v => (v, true) | None => (def, false) end.
Proof.
  intros Hs Hk. unfold Ini_Get. destruct s as [|c s]; [done|]. destruct key as [|k key]; [done|].
  rewrite <- Get_down_last by done. by destruct secs.
Qed.

(** ** Well-formed lists of sections

    What the operations keep: the lowered key on a variable and none on another
    line, a name only on a section with a header, addresses without repetition. *)

Definition wf_var (v : variable) : Prop :=
  if isLineModeVar (v_mode v) then keyLower v = text_ToLower (key v) /\ text_ToLower (keyLower v) = keyLower v
  else key v = [] /\ keyLower v = [].
Record wf_sec (sec : section) : Prop := {
  wf_header : nameLower sec ≠ [] -> no_header sec = false;
  wf_vars : Forall wf_var (vars sec)
}.
Record wf (h : store) (secs : list addr) : Prop := {
  wf_nodup : NoDup secs;
  wf_live : Forall (fun a => (a < length h)%nat) secs;
  wf_secs : Forall (fun a => wf_sec (h !!! a)) secs
}.

Lemma text_ToLower_is_ascii (s : text) : is_ascii s -> is_ascii (text_ToLower s).
Proof.
  intros Hs. rewrite text_ToLower_ascii, ToLower_map by done. apply Forall_fmap. eapply Forall_impl; [exact Hs|].
  intros b Hb. cbn in Hb |- *. unfold lower_byte. destruct (_ || _) eqn:E; [lia|]. unfold u8. apply orb_false_iff in E as [E1 E2].
  rewrite Z.ltb_ge in E1, E2. rewrite Z.mod_small; lia.
Qed.

Lemma text_ToLower_lower (s : text) : is_ascii s -> text_ToLower (text_ToLower s) = text_ToLower s.
Proof.
  intros Hs. rewrite (text_ToLower_ascii (text_ToLower s)) by (by apply text_ToLower_is_ascii).
  rewrite text_ToLower_ascii by done. apply ToLower_idem. eapply Forall_impl; [exact Hs|]. unfold is_byte. cbn. lia.
Qed.

Lemma lower_nonempty (s : text) : is_ascii s -> s ≠ [] -> text_ToLower s ≠ [].
Proof. intros Hs Hne. rewrite text_ToLower_ascii by done. by destruct s. Qed.

Lemma last_val_None k es : Forall (fun e => e.1 ≠ k) es -> last_val k es = None.
Proof.
  induction 1 as [|e es He _ IH]; [done|]. change (e :: es) with ([e] ++ es).
  by rewrite last_val_app, IH, last_val_one, decide_False.
Qed.

Lemma wf_var_mode v : wf_var v -> keyLower v ≠ [] -> isLineModeVar (v_mode v) = true.
Proof. unfold wf_var. destruct (isLineModeVar (v_mode v)); [done|]. by intros [_ ->]. Qed.

Lemma wf_newVariable k v : is_ascii k -> wf_var (newVariable k v).
Proof. intros Hk. split; [done|]. by apply text_ToLower_lower. Qed.

(** The last variable with a key. *)
Lemma getVariable_down_spec n : forall vs k, (n <= length vs)%nat ->
  match getVariable_down n vs k with
  | Some i => exists v, (i < n)%nat /\ vs !! i = Some v /\ isLineModeVar (v_mode v) = true /\ keyLower v = k /\
      forall j w, (i < j < n)%nat -> vs !! j = Some w -> isLineModeVar (v_mode w) = true -> keyLower w ≠ k
  | None => forall j w, (j < n)%nat -> vs !! j = Some w -> isLineModeVar (v_mode w) = true -> keyLower w ≠ k
  end.
Proof.
  induction n as [|n IH]; intros vs k Hn; cbn [getVariable_down]; [intros; lia|].
  destruct (lookup_lt_is_Some_2 vs n) as [v Hv]; [lia|]. rewrite Hv.
  destruct (isLineModeVar (v_mode v) && bool_decide (keyLower v = k)) eqn:E.
  - apply andb_true_iff in E as [E1 E2]. apply bool_decide_eq_true in E2. exists v.
    split; [lia|]. split; [done|]. split; [done|]. split; [done|]. intros; lia.
  - assert (Hne : forall w, vs !! n = Some w -> isLineModeVar (v_mode w) = true -> keyLower w ≠ k).
    { intros w Hw Hm Hk. assert (w = v) as -> by congruence. rewrite Hm, bool_decide_true in E by done. done. }
    specialize (IH vs k ltac:(lia)). destruct (getVariable_down n vs k) as [i|].
    + destruct IH as (w & Hi & Hw & Hm & Hk & Hrest). exists w. split; [lia|]. split; [done|]. split; [done|]. split; [done|].
      intros j u Hj. destruct (decide (j = n)) as [->|]; [apply Hne|apply Hrest; lia].
    + intros j u Hj. destruct (decide (j = n)) as [->|]; [apply Hne|apply IH; lia].
Qed.

Lemma getVariable_split sec k : Forall wf_var (vars sec) -> k ≠ [] ->
  match getVariable sec k with
  | Some i => exists vs1 v vs2, vars sec = vs1 ++ v :: vs2 /\ i = length vs1 /\ keyLower v = k /\
      isLineModeVar (v_mode v) = true /\ last_val k (kv <$> vs2) = None
  | None => last_val k (kv <$> vars sec) = None
  end.
Proof.
  intros Hwf Hk. unfold getVariable. pose proof (getVariable_down_spec (length (vars sec)) (vars sec) k ltac:(lia)) as Hs.
  destruct (getVariable_down _ _ _) as [i|].
  - destruct Hs as (v & Hi & Hv & Hm & Hkv & Hrest). exists (take i (vars sec)), v, (drop (S i) (vars sec)).
    split; [by rewrite take_drop_middle|]. split; [rewrite length_take; lia|]. split; [done|]. split; [done|].
    apply last_val_None, Forall_fmap, Forall_lookup. intros j w Hw. rewrite lookup_drop in Hw. cbn. intros Hwk.
    apply (Hrest (S i + j)%nat w); [apply lookup_lt_Some in Hw; lia|done| |done].
    assert (Hwv : wf_var w) by (by eapply Forall_lookup_1). eapply wf_var_mode; [done|congruence].
  - apply last_val_None, Forall_fmap, Forall_lookup. intros j w Hw. cbn. intros Hwk.
    apply (Hs j w); [by apply lookup_lt_Some in Hw|done| |done].
    assert (Hwv : wf_var w) by (by eapply Forall_lookup_1). eapply wf_var_mode; [done|congruence].
Qed.

(** *** [Section.set] *)

Lemma section_set_last sec k value : Forall wf_var (vars sec) -> is_ascii k -> k ≠ [] -> text_ToLower k ≠ [] ->
  exists vs, section_set sec k value = (set_vars sec vs, true) /\ Forall wf_var vs /\
  forall k', last_val k' (kv <$> vs)
             = if decide (k' = text_ToLower k) then Some (or_true value) else last_val k' (kv <$> vars sec).
Proof.
  intros Hwf Hka Hk Hkl. unfold section_set. destruct k as [|c k]; [done|].
  pose proof (getVariable_split sec (text_ToLower (c :: k)) Hwf Hkl) as Hs.
  destruct (getVariable sec _) as [i|].
  - destruct Hs as (vs1 & v & vs2 & Hvs & -> & Hv & Hm & Hrest). rewrite Hvs in Hwf |- *. eexists. split; [done|].
    rewrite alter_app_r_alt, Nat.sub_diag by lia. cbn [alter list_alter].
    apply Forall_app in Hwf as [Hw1 Hw2]. apply Forall_cons in Hw2 as [Hwv Hw2].
    split; [apply Forall_app; split; [done|by constructor]|]. intros k'. rewrite !fmap_app, !fmap_cons, !last_val_app.
    change (kv (set_value v (or_true value)) :: (kv <$> vs2)) with ([kv (set_value v (or_true value))] ++ (kv <$> vs2)).
    change (kv v :: (kv <$> vs2)) with ([kv v] ++ (kv <$> vs2)). rewrite !last_val_app, !last_val_one. cbn [fst snd kv keyLower set_value].
    rewrite Hv. case_decide as Hk'; [subst k'; by rewrite Hrest, decide_True|]. by rewrite decide_False.
  - eexists. split; [done|]. split; [apply Forall_app; split; [done|by constructor; [apply wf_newVariable|]]|]. intros k'.
    rewrite fmap_app, last_val_app. cbn [fmap list_fmap]. rewrite last_val_one. cbn [fst snd kv keyLower newVariable].
    case_decide as Hk'; [by rewrite decide_True|]. rewrite decide_False by congruence. done.
Qed.

Lemma entries_other h secs a sec s b : a ∉ secs -> entries (<[a := sec]> h) secs s b = entries h secs s b.
Proof.
  induction secs as [|a' secs IH]; intros Ha; [done|]. apply not_elem_of_cons in Ha as [Hne Ha].
  rewrite !entries_cons, IH by done. by rewrite list_lookup_total_insert_ne.
Qed.

Lemma entries_insert h l1 a l2 sec s b : NoDup (l1 ++ a :: l2) -> (a < length h)%nat ->
  entries (<[a := sec]> h) (l1 ++ a :: l2) s b
  = entries h l1 s b ++ (if named sec s b then kv <$> vars sec else []) ++ entries h l2 s b.
Proof.
  intros Hnd Ha. apply NoDup_app in Hnd as (_ & Hl1 & Hnd). apply NoDup_cons in Hnd as [Hl2 _].
  rewrite entries_app, entries_cons, list_lookup_total_insert_eq by done.
  rewrite !entries_other; [done|done|]. intros Hin. apply (Hl1 a Hin). by left.
Qed.

Lemma entries_alloc h h' secs s b : Forall (fun a => (a < length h)%nat) secs -> entries (h ++ h') secs s b = entries h secs s b.
Proof.
  induction 1 as [|a secs Ha _ IH]; [done|]. by rewrite !entries_cons, IH, lookup_total_app_l.
Qed.

(** The last section of a name; there is none after it. *)
Lemma getSection_spec h secs s b : Forall (fun a => wf_sec (h !!! a)) secs -> s ≠ [] ->
  match getSection h secs s b with
  | Some a => exists l1 l2, secs = l1 ++ a :: l2 /\ named (h !!! a) s b = true /\ entries h l2 s b = []
  | None => entries h secs s b = []
  end.
Proof.
  intros Hwf Hs. unfold getSection. induction secs as [|a secs IH] using rev_ind; [done|].
  apply Forall_app in Hwf as [Hwf Ha]. apply Forall_cons in Ha as [Ha _]. specialize (IH Hwf).
  rewrite rev_app_distr. cbn [rev app getSection_down]. destruct (named (h !!! a) s b) eqn:E.
  - assert (Hh : no_header (h !!! a) = false).
    { apply Ha. unfold named in E. apply andb_true_iff in E as [E _]. apply bool_decide_eq_true in E. congruence. }
    rewrite Hh. cbn. by exists secs, [].
  - rewrite andb_false_r. destruct (getSection_down h (rev secs) s b) as [a'|].
    + destruct IH as (l1 & l2 & -> & Hn & He). exists l1, (l2 ++ [a]). rewrite <- (assoc_L (++)).
      split; [done|]. split; [done|]. rewrite entries_app, He, entries_cons, E. done.
    + rewrite entries_app, IH, entries_cons, E. done.
Qed.

(** *** [Ini.Set] *)

Lemma named_eq sec s b : named sec s b = true <-> nameLower sec = s /\ sub sec = b.
Proof. unfold named. by rewrite andb_true_iff, !bool_decide_eq_true. Qed.

Lemma named_set_vars sec vs : named (set_vars sec vs) = named sec.
Proof. done. Qed.

Lemma newSection_Some s b : s ≠ [] -> exists sec, newSection s b = Some sec /\ nameLower sec = text_ToLower s /\
  sub sec = b /\ vars sec = [] /\ no_header sec = false.
Proof. intros Hs. destruct s as [|c s]; [done|]. unfold newSection. destruct b; by eexists. Qed.

(** The list of sections with one of them changed, or one more. *)
Lemma wf_insert h secs a sec : wf h secs -> wf_sec sec -> wf (<[a := sec]> h) secs.
Proof.
  intros [Hnd Hl Hs] Hsec. split; [done|by rewrite length_insert|].
  rewrite Forall_forall in Hs, Hl |- *. intros a' Ha'. destruct (decide (a' = a)) as [->|Hne].
  - rewrite list_lookup_total_insert_eq; [done|by apply Hl].
  - rewrite list_lookup_total_insert_ne by done. by apply Hs.
Qed.

Lemma wf_append h secs sec : wf h secs -> wf_sec sec -> wf (h ++ [sec]) (secs ++ [length h]).
Proof.
  intros [Hnd Hl Hs] Hsec. rewrite Forall_forall in Hs, Hl. split.
  - apply NoDup_app. split; [done|]. split; [|apply NoDup_singleton]. intros a Ha Hin.
    apply list_elem_of_singleton in Hin as ->. specialize (Hl _ Ha). cbn in Hl. lia.
  - apply Forall_app. split; [|constructor; [rewrite length_app; cbn; lia|constructor]].
    apply Forall_forall. intros a Ha. specialize (Hl _ Ha). cbn in Hl. rewrite length_app. cbn. lia.
  - apply Forall_app. split; [|constructor; [|constructor]].
    + apply Forall_forall. intros a Ha. rewrite lookup_total_app_l by (by apply Hl). by apply Hs.
    + by rewrite list_lookup_total_middle.
Qed.

Lemma Set_entries h secs s b k v : wf h secs -> is_ascii s -> s ≠ [] -> is_ascii k -> k ≠ [] ->
  exists h' secs' val, Ini_Set h secs s b k v = (h', secs', true) /\ wf h' secs' /\ (v ≠ [] -> val = v) /\
  forall s' b' k', last_val k' (entries h' secs' s' b')
    = if decide (s' = text_ToLower s /\ b' = b /\ k' = text_ToLower k) then Some val
      else last_val k' (entries h secs s' b').
Proof.
  intros Hwf Hsa Hs Hka Hk. pose proof (lower_nonempty s Hsa Hs) as Hsl. pose proof (lower_nonempty k Hka Hk) as Hkl.
  unfold Ini_Set. destruct s as [|cs s0]; [done|]. destruct k as [|ck k0]; [done|].
  set (s := cs :: s0) in *. set (k := ck :: k0) in *.
  pose proof (getSection_spec h secs (text_ToLower s) b (wf_secs _ _ Hwf) Hsl) as Hg.
  destruct (getSection h secs (text_ToLower s) b) as [a|].
  - destruct Hg as (l1 & l2 & Hl & Hn & He).
    assert (Ha : (a < length h)%nat /\ wf_sec (h !!! a)).
    { destruct Hwf as [_ Hlv Hss]. rewrite Forall_forall in Hlv, Hss.
      split; [apply Hlv|apply Hss]; rewrite Hl; set_solver. }
    destruct Ha as [Ha Hsec].
    destruct (section_set_last (h !!! a) (text_ToLower k) v) as (vs & -> & Hvs & Hlast);
      [apply Hsec|by apply text_ToLower_is_ascii|done|by rewrite text_ToLower_lower|]. rewrite text_ToLower_lower in Hlast by done.
    exists (<[a := set_vars (h !!! a) vs]> h), secs, (or_true v). split; [done|].
    split; [apply wf_insert; [done|split; [apply Hsec|done]]|]. split; [by destruct v|]. intros s' b' k'.
    pose proof (wf_nodup _ _ Hwf) as Hnd. rewrite Hl in Hnd |- *. rewrite entries_insert by done.
    rewrite entries_app, entries_cons, named_set_vars, !last_val_app. cbn [vars set_vars].
    destruct (named (h !!! a) s' b') eqn:E.
    + assert (s' = text_ToLower s /\ b' = b) as [-> ->].
      { apply named_eq in E as [<- <-]. apply named_eq in Hn as [<- <-]. done. }
      rewrite He, Hlast, last_val_nil. case_decide as Hk'; [by rewrite decide_True|].
      rewrite decide_False by tauto. done.
    + rewrite decide_False; [done|]. intros (-> & -> & _). congruence.
  - unfold append_section. destruct (newSection_Some (text_ToLower s) b Hsl) as (sec & -> & Hn & Hb & Hv & Hh).
    rewrite text_ToLower_lower in Hn by done.
    exists (h ++ [set_vars sec [newVariable k v]]), (secs ++ [length h]), v. split; [done|].
    split; [apply wf_append; [done|split; [done|by constructor; [apply wf_newVariable|]]]|]. split; [done|]. intros s' b' k'.
    rewrite entries_app, entries_alloc by apply Hwf. rewrite entries_cons, list_lookup_total_middle by done.
    rewrite app_nil_r, last_val_app, named_set_vars. unfold named. rewrite Hn, Hb.
    destruct (decide (s' = text_ToLower s /\ b' = b)) as [[-> ->]|Hne].
    + rewrite !bool_decide_true by done. cbn [andb vars set_vars fmap list_fmap]. rewrite Hg, last_val_nil, last_val_one.
      cbn [fst snd kv keyLower newVariable]. case_decide as Hk'; [by rewrite decide_True|]. rewrite decide_False; [done|].
      intros (_ & _ & ->). done.
    + rewrite (decide_False (P := _ /\ _ /\ _)) by tauto.
      destruct (bool_decide (text_ToLower s = s') && bool_decide (b = b')) eqn:E; [|done].
      apply andb_true_iff in E as [E1 E2]. apply bool_decide_eq_true in E1, E2. naive_solver.
Qed.

(** Setting a variable is an update of the map from section, subsection and
    key, all but the subsection up to case, to values: the variable has the value
    that was set, every other one the value it had, and the list of sections
    stays well formed.  An empty value becomes [true] when the section was there
    and stays empty when it is created. *)
Theorem Set_spec h secs s b k v : wf h secs -> is_ascii s -> s ≠ [] -> is_ascii k -> k ≠ [] ->
  exists h' secs' val, Ini_Set h secs s b k v = (h', secs', true) /\ wf h' secs' /\ (v ≠ [] -> val = v) /\
  forall s' b' k' def, s' ≠ [] -> k' ≠ [] -> Ini_Get h' secs' s' b' k' def
    = if decide (text_ToLower s' = text_ToLower s /\ b' = b /\ text_ToLower k' = text_ToLower k) then (val, true)
      else Ini_Get h secs s' b' k' def.
Proof.
  intros Hwf Hsa Hs Hka Hk. destruct (Set_entries h secs s b k v) as (h' & secs' & val & Hset & Hwf' & Hval & He); try done.
  exists h', secs', val. split; [done|]. split; [done|]. split; [done|]. intros s' b' k' def Hs' Hk'.
  rewrite !Ini_Get_last, He by done. by case_decide.
Qed.

End Ini.

(** Two sections of one name, the second with a key of the first. *)
Definition demo_secs : store :=
  let var k v := newVariable (H := ascii_tables) (str k) (str v) in
  let sec vs := Sec lineModeSection 1 (str "A") [] [] (str "a") [] vs in
  [sec [var "k" "1"; var "j" "2"]; sec [var "K" "3"]]%string.

Lemma demo_secs_wf : wf (H := ascii_tables) demo_secs [0; 1]%nat.
Proof.
  split; [by vm_compute; repeat constructor; set_solver| |].
  - repeat constructor.
  - repeat constructor.
Qed.

Lemma Set_spec_witness : exists h' secs' val,
  Ini_Set (H := ascii_tables) demo_secs [0; 1]%nat (str "A") [] (str "J") (str "v") = (h', secs', true) /\ val = str "v" /\
  Ini_Get (H := ascii_tables) h' secs' (str "a") [] (str "j") [] = (val, true).
Proof.
  destruct (Set_spec (H := ascii_tables) demo_secs [0; 1]%nat (str "A") [] (str "J") (str "v")) as (h' & secs' & val & Hs & _ & Hv & Hget);
    [apply demo_secs_wf|by repeat constructor|done|by repeat constructor|done|].
  exists h', secs', val. split; [done|]. split; [by apply Hv|]. by rewrite Hget by done.
Defined.
