(* ===== verification/IniPrune.v ===== *)
(** Package [lib/ini]: what [Prune] and the merging of sections keep. *)

From Stdlib Require Import ZArith Lia.
From S2P Require Import Prelude Ascii Utf8 Strings Ini.

Local Open Scope Z_scope.

Section IniPrune.
Context `{Unicode}.

(** ** Adding without repetition *)

Lemma move_last_spec k v vs :
  match move_last k v vs with
  | Some (vs', w) => exists vs1 vs2, vs = vs1 ++ w :: vs2 /\ vs' = vs1 ++ vs2 /\ kv w = (k, v)
  | None => (k, v) ∉ kv <$> vs
  end.
Proof.
  induction vs as [|w vs IH]; cbn [move_last fmap list_fmap]; [apply not_elem_of_nil|].
  destruct (bool_decide (keyLower w = k) && bool_decide (value w = v)) eqn:E.
  - apply andb_true_iff in E as [E1 E2]. apply bool_decide_eq_true in E1, E2. exists [], vs.
    split; [done|]. split; [done|]. unfold kv. congruence.
  - destruct (move_last k v vs) as [[vs' u]|].
    + destruct IH as (vs1 & vs2 & -> & -> & Hu). by exists (w :: vs1), vs2.
    + apply not_elem_of_cons. split; [|done]. intros Hw. injection Hw as -> ->. by rewrite !bool_decide_true in E.
Qed.

Lemma last_val_cons k e es : last_val k (e :: es) = match last_val k es with Some v => Some v | None => last_val k [e] end.
Proof. change (e :: es) with ([e] ++ es). apply last_val_app. Qed.

Lemma addUniqValue_spec sec k v : exists vs, addUniqValue sec k v = set_vars sec vs /\
  (forall k', last_val k' (kv <$> vs) = if decide (k' = text_ToLower k) then Some v else last_val k' (kv <$> vars sec)) /\
  (NoDup (kv <$> vars sec) -> NoDup (kv <$> vs)) /\
  (forall P : variable -> Prop, Forall P (vars sec) -> P (newVariable k v) -> Forall P vs).
Proof.
  unfold addUniqValue. pose proof (move_last_spec (text_ToLower k) v (vars sec)) as Hm.
  destruct (move_last _ _ _) as [[vs' w]|]; eexists; (split; [done|]).
  - destruct Hm as (vs1 & vs2 & -> & -> & Hw).
    assert (Hp : (vs1 ++ vs2) ++ [w] ≡ₚ vs1 ++ w :: vs2) by solve_Permutation.
    split; [|split].
    + intros k'. rewrite !fmap_app, fmap_cons. cbn [fmap list_fmap].
      rewrite Hw, !last_val_app, (last_val_cons k' _ (kv <$> vs2)), last_val_one. cbn [fst snd].
      case_decide as Hk; [by rewrite decide_True|]. rewrite decide_False by congruence. by destruct (last_val k' (kv <$> vs2)).
    + intros Hnd. eapply NoDup_Permutation_proper; [|exact Hnd]. by rewrite Hp.
    + intros P Hwf _. by rewrite Hp.
  - split; [|split].
    + intros k'. rewrite fmap_app, last_val_app. cbn [fmap list_fmap]. rewrite last_val_one. cbn [fst snd kv keyLower newVariable].
      case_decide as Hk; [by rewrite decide_True|]. by rewrite decide_False by congruence.
    + intros Hnd. rewrite fmap_app. apply NoDup_app. split; [done|]. split; [|apply NoDup_singleton].
      intros x Hx Hin. apply list_elem_of_singleton in Hin as ->. done.
    + intros P Hwf Hn. apply Forall_app. split; [done|by constructor].
Qed.

(** The loops of [Prune] and [mergeSection] over variables. *)
Definition add_step (f g : variable -> text) (sec : section) (v : variable) : section :=
  if skipped v then sec else addUniqValue sec (f v) (g v).

Definition addable (f : variable -> text) (v : variable) : Prop :=
  if skipped v then keyLower v = [] else text_ToLower (f v) = keyLower v /\ text_ToLower (keyLower v) = keyLower v.

(** A line that is a variable: neither empty nor a comment. *)
Definition tidy (v : variable) : Prop := isLineModeVar (v_mode v) = true.
Definition tidy_sec (sec : section) : Prop := NoDup (kv <$> vars sec) /\ Forall tidy (vars sec).

Lemma wf_skipped v : skipped v = true -> isLineModeVar (v_mode v) = false.
Proof. unfold skipped. rewrite orb_true_iff, !Z.eqb_eq. by intros [-> | ->]. Qed.

Lemma add_steps_spec f g vs : forall sec, Forall (addable f) vs -> exists vs', foldl (add_step f g) sec vs = set_vars sec vs' /\
  (forall k, k ≠ [] -> last_val k (kv <$> vs')
     = match last_val k ((fun v => (keyLower v, g v)) <$> vs) with Some v => Some v | None => last_val k (kv <$> vars sec) end) /\
  (tidy_sec sec -> tidy_sec (set_vars sec vs')) /\ (Forall wf_var (vars sec) -> Forall wf_var vs').
Proof.
  induction vs as [|v vs IH]; intros sec Hvs; cbn [foldl].
  { exists (vars sec). split; [by destruct sec|]. by destruct sec. }
  apply Forall_cons in Hvs as [Hv Hvs]. unfold addable in Hv. unfold add_step at 2. destruct (skipped v) eqn:Es.
  - destruct (IH sec Hvs) as (vs' & -> & Hlast & Hnd & Hwf). exists vs'. split; [done|]. split; [|done].
    intros k Hk. rewrite Hlast by done. rewrite fmap_cons, last_val_cons, last_val_one. cbn [fst snd].
    rewrite decide_False by congruence. by destruct (last_val _ _).
  - destruct (addUniqValue_spec sec (f v) (g v)) as (vs1 & -> & Hlast1 & Hnd1 & Hwf1). destruct Hv as [Hf Hl].
    destruct (IH (set_vars sec vs1) Hvs) as (vs' & -> & Hlast & Hnd & Hwf). exists vs'. split; [done|].
    cbn [vars set_vars] in *. split; [|split].
    + intros k Hk. rewrite Hlast by done. rewrite fmap_cons, last_val_cons, last_val_one, Hlast1, Hf. cbn [fst snd].
      destruct (last_val _ _); [done|]. case_decide; case_decide; congruence.
    + intros [Hn Ht]. apply Hnd. split; [by apply Hnd1|]. by apply (Hwf1 tidy).
    + intros Hw. apply Hwf, Hwf1; [done|]. split; [done|]. cbn. congruence.
Qed.

(** ** Pruning one section *)

Lemma wf_var_addable v : wf_var v -> addable key v.
Proof.
  unfold wf_var, addable. intros Hv. destruct (skipped v) eqn:Es; [rewrite wf_skipped in Hv by done; apply Hv|].
  destruct (isLineModeVar (v_mode v)); destruct Hv as [Hk Hl]; [by rewrite <- Hk|]. by rewrite Hk, Hl.
Qed.

Lemma wf_addable_low v : wf_var v -> addable keyLower v.
Proof.
  unfold wf_var, addable. intros Hv. destruct (skipped v) eqn:Es; [rewrite wf_skipped in Hv by done; apply Hv|].
  destruct (isLineModeVar (v_mode v)); destruct Hv as [Hk Hl]; [done|]. by rewrite Hl.
Qed.

Lemma last_val_map (g : text -> text) k vs :
  last_val k ((fun v => (keyLower v, g (value v))) <$> vs) = g <$> last_val k (kv <$> vs).
Proof.
  induction vs as [|v vs IH]; [done|]. rewrite !fmap_cons, (last_val_cons k _ ((fun v => (keyLower v, g (value v))) <$> vs)),
    (last_val_cons k _ (kv <$> vs)), IH, !last_val_one. cbn [fst snd kv].
  destruct (last_val k (kv <$> vs)); [done|]. cbn. by case_decide.
Qed.

Lemma prune_section_spec sec : Forall wf_var (vars sec) -> mode sec ≠ lineModeEmpty ->
  let new := prune_section sec in
  nameLower new = nameLower sec /\ sub new = sub sec /\ wf_sec new /\ tidy_sec new /\
  forall k, k ≠ [] -> last_val k (kv <$> vars new) = or_true <$> last_val k (kv <$> vars sec).
Proof.
  intros Hwf _. unfold prune_section.
  set (base := match sub sec with [] => _ | _ => _ end).
  assert (Hb : nameLower base = nameLower sec /\ sub base = sub sec /\ no_header base = false /\ vars base = [])
    by (unfold base; by destruct (sub sec)).
  destruct Hb as (Hn & Hs & Hh & Hv).
  destruct (add_steps_spec key (fun v => or_true (value v)) (vars sec) base) as (vs & Hfold & Hlast & Hnd & Hw);
    [eapply Forall_impl; [exact Hwf|apply wf_var_addable]|].
  change (foldl _ base (vars sec)) with (foldl (add_step key (fun v => or_true (value v))) base (vars sec)).
  rewrite Hfold. rewrite Hv in *. split; [done|]. split; [done|]. split; [split; [done|by apply Hw]|].
  split; [apply Hnd; split; rewrite Hv; constructor|]. intros k Hk. cbn [vars set_vars]. rewrite Hlast by done.
  rewrite (last_val_map or_true). by destruct (last_val k _).
Qed.

(** ** Merging sections *)

Lemma merge_vars_spec dst src vs k : forall h i, dst ≠ src -> (dst < length h)%nat -> vars (h !!! src) = vs ->
  (i + k = length vs)%nat ->
  merge_vars k i h dst src = <[dst := foldl (add_step keyLower value) (h !!! dst) (drop i vs)]> h.
Proof.
  induction k as [|k IH]; intros h i Hne Hd Hvs Hk; cbn [merge_vars].
  { rewrite drop_ge by lia. cbn [foldl]. symmetry. apply list_insert_id. by apply list_lookup_lookup_total_lt. }
  destruct (lookup_lt_is_Some_2 vs i) as [v Hv]; [lia|]. rewrite Hvs, Hv, (drop_S _ v) by done. cbn [foldl].
  unfold add_step at 2. destruct (skipped v).
  - apply IH; [done|done|done|lia].
  - rewrite IH; [|done|by rewrite length_insert|by rewrite list_lookup_total_insert_ne|lia].
    rewrite list_lookup_total_insert_eq by done. by rewrite list_insert_insert_eq.
Qed.

Definition section_name (h : store) (a : addr) : text * text := (nameLower (h !!! a), sub (h !!! a)).

Lemma entries_none h secs s b : (s, b) ∉ section_name h <$> secs -> entries h secs s b = [].
Proof.
  induction secs as [|a secs IH]; [done|]. rewrite fmap_cons, not_elem_of_cons. intros [Hne Hnin].
  rewrite entries_cons, IH by done. destruct (named (h !!! a) s b) eqn:E; [|done].
  apply named_eq in E as [E1 E2]. unfold section_name in Hne. congruence.
Qed.

Lemma find_same_spec h secs sec :
  match find_same h secs sec with
  | Some a => a ∈ secs /\ section_name h a = (nameLower sec, sub sec)
  | None => (nameLower sec, sub sec) ∉ section_name h <$> secs
  end.
Proof.
  induction secs as [|a secs IH]; cbn [find_same fmap list_fmap]; [apply not_elem_of_nil|].
  destruct (named (h !!! a) (nameLower sec) (sub sec)) eqn:E.
  - apply named_eq in E as [E1 E2]. split; [by left|]. unfold section_name. congruence.
  - destruct (find_same h secs sec) as [a'|]; [destruct IH; split; [by right|done]|].
    apply not_elem_of_cons. split; [|done]. intros Heq. injection Heq as E1 E2.
    assert (named (h !!! a) (nameLower sec) (sub sec) = true) by (apply named_eq; by split). congruence.
Qed.

(** The sections a pruning has made so far, all of them at addresses from [n] on. *)
Record pruned (n : nat) (h : store) (secs : list addr) : Prop := {
  pr_fresh : Forall (fun a => (n <= a)%nat) secs;
  pr_wf : wf h secs;
  pr_tidy : Forall (fun a => tidy_sec (h !!! a)) secs;
  pr_names : NoDup (section_name h <$> secs)
}.

Lemma section_name_alloc h h' secs : Forall (fun a => (a < length h)%nat) secs ->
  section_name (h ++ h') <$> secs = section_name h <$> secs.
Proof.
  intros Hl. apply list_fmap_ext. intros i a Ha. eapply Forall_lookup_1 in Hl; [|exact Ha]. cbn in Hl.
  unfold section_name. by rewrite lookup_total_app_l.
Qed.

(** What merging the new section [new] gives. *)
Definition merged (n : nat) (h : store) (secs : list addr) (new : section) (h' : store) (secs' : list addr) : Prop :=
  pruned n h' secs' /\ (n <= length h')%nat /\ (forall a, (a < n)%nat -> h' !!! a = h !!! a) /\
  forall s b k, k ≠ [] -> last_val k (entries h' secs' s b)
    = match (if named new s b then last_val k (kv <$> vars new) else None) with
      | Some v => Some v
      | None => last_val k (entries h secs s b)
      end.

Lemma merge_into n h secs new a : pruned n h secs -> (n <= length h)%nat -> wf_sec new -> tidy_sec new ->
  a ∈ secs -> section_name h a = (nameLower new, sub new) ->
  merged n h secs new (merge_vars (length (vars new)) 0 (h ++ [new]) a (length h)) secs.
Proof.
  intros Hpr Hn Hnew Hnd Hin Hname. pose proof (pr_wf _ _ _ Hpr) as Hwf. pose proof (wf_live _ _ Hwf) as Hlive.
  assert (Ha : (a < length h)%nat) by (by eapply Forall_forall in Hlive).
  rewrite (merge_vars_spec a (length h) (vars new)) by
    (rewrite ?length_app, ?list_lookup_total_middle by done; cbn; lia || done).
  rewrite lookup_total_app_l, drop_0 by done.
  destruct (add_steps_spec keyLower value (vars new) (h !!! a)) as (vs & -> & Hlast & Hnd' & Hw');
    [eapply Forall_impl; [apply Hnew|apply wf_addable_low]|].
  set (sec := set_vars (h !!! a) vs). 
  assert (Hsec : wf_sec (h !!! a) /\ tidy_sec (h !!! a)).
  { destruct Hpr as [_ [_ _ Hss] Hvv _]. rewrite Forall_forall in Hss, Hvv. auto. }
  assert (Hat : forall a', a' ∈ secs -> <[a := sec]> (h ++ [new]) !!! a' = if decide (a' = a) then sec else h !!! a').
  { intros a' Ha'. assert (Hl' : (a' < length h)%nat) by (by eapply Forall_forall in Hlive). case_decide as Hd.
    - subst. apply list_lookup_total_insert_eq. rewrite length_app. lia.
    - rewrite list_lookup_total_insert_ne by done. by apply lookup_total_app_l. }
  split; [|split; [rewrite length_insert, length_app; lia|split]].
  - split; [apply Hpr| | |].
    + apply wf_insert; [|split; [apply Hsec|by apply Hw', Hsec]]. destruct Hwf as [W1 W2 W3].
      split; [done|eapply Forall_impl; [exact W2|]; cbn; intros; rewrite length_app; lia|].
      apply Forall_forall. intros a' Ha'. rewrite lookup_total_app_l by (by eapply Forall_forall in W2). by eapply Forall_forall in W3.
    + apply Forall_forall. intros a' Ha'. rewrite Hat by done. case_decide; [by apply Hnd', Hsec|].
      by pose proof (proj1 (Forall_forall _ _) (pr_tidy _ _ _ Hpr) a' Ha').
    + replace (section_name (<[a := sec]> (h ++ [new])) <$> secs) with (section_name h <$> secs); [apply Hpr|].
      apply list_fmap_ext. intros i a' Ha'. unfold section_name. rewrite Hat by (by eapply list_elem_of_lookup_2).
      by case_decide as Hd; [subst|].
  - intros a' Ha'. pose proof (proj1 (Forall_forall _ _) (pr_fresh _ _ _ Hpr) a Hin) as Hfr. cbn in Hfr.
    rewrite list_lookup_total_insert_ne by lia. apply lookup_total_app_l. lia.
  - intros s b k Hk. apply list_elem_of_split in Hin as (l1 & l2 & ->).
    pose proof (wf_nodup _ _ Hwf) as Hnds. rewrite entries_insert by (rewrite ?length_app; done || lia).
    apply Forall_app in Hlive as [Hl1 Hl2]. apply Forall_cons in Hl2 as [_ Hl2].
    rewrite !entries_alloc, entries_app, entries_cons, !last_val_app by done.
    assert (Hsame : named sec s b = named new s b /\ named (h !!! a) s b = named new s b).
    { unfold section_name in Hname. injection Hname as E1 E2. unfold named. cbn. by rewrite E1, E2. }
    destruct Hsame as [-> ->]. destruct (named new s b) eqn:En; [|done].
    rewrite (entries_none h l2).
    2: { pose proof (pr_names _ _ _ Hpr) as Hnn. rewrite fmap_app, fmap_cons in Hnn.
         apply NoDup_app in Hnn as (_ & _ & Hnn). apply NoDup_cons in Hnn as [Hnn _].
         apply named_eq in En as [<- <-]. by rewrite <- Hname. }
    rewrite last_val_nil. unfold sec at 1. cbn [vars set_vars]. rewrite Hlast by done.
    change ((fun v => (keyLower v, value v)) <$> vars new) with (kv <$> vars new). by destruct (last_val k (kv <$> vars new)).
Qed.

Lemma merge_append n h secs new : pruned n h secs -> (n <= length h)%nat -> wf_sec new -> tidy_sec new ->
  (nameLower new, sub new) ∉ section_name h <$> secs -> merged n h secs new (h ++ [new]) (secs ++ [length h]).
Proof.
  intros Hpr Hn Hnew Hnd Hf. pose proof (pr_wf _ _ _ Hpr) as Hwf. pose proof (wf_live _ _ Hwf) as Hlive.
   split; [|split; [rewrite length_app; lia|split]].
  - split.
    + apply Forall_app. split; [apply Hpr|by constructor].
    + by apply wf_append.
    + apply Forall_app. split; [|constructor; [by rewrite list_lookup_total_middle|constructor]].
      apply Forall_forall. intros a' Ha'. rewrite lookup_total_app_l by (by eapply Forall_forall in Hlive).
      by pose proof (proj1 (Forall_forall _ _) (pr_tidy _ _ _ Hpr) a' Ha').
    + rewrite fmap_app, section_name_alloc by done. apply NoDup_app. split; [apply Hpr|]. split; [|apply NoDup_singleton].
      intros x Hx Hin. apply list_elem_of_singleton in Hin as ->. unfold section_name at 1 in Hx.
      by rewrite list_lookup_total_middle in Hx.
  - intros a' Ha'. apply lookup_total_app_l. lia.
  - intros s b k Hk. rewrite entries_app, entries_alloc, entries_cons, list_lookup_total_middle, app_nil_r, last_val_app by done.
    by destruct (named new s b).
Qed.

Lemma merge_new n h secs new : pruned n h secs -> (n <= length h)%nat -> wf_sec new -> tidy_sec new ->
  exists h' secs', mergeSection (h ++ [new]) secs (length h) = (h', secs') /\ merged n h secs new h' secs'.
Proof.
  intros Hpr Hn Hnew Hnd. pose proof (wf_live _ _ (pr_wf _ _ _ Hpr)) as Hlive.
  unfold mergeSection. rewrite list_lookup_total_middle by done.
  pose proof (find_same_spec (h ++ [new]) secs new) as Hf. rewrite section_name_alloc in Hf by done.
  destruct (find_same _ _ _) as [a|]; [|eexists _, _; split; [done|by apply merge_append]].
  destruct Hf as [Hin Hname]. unfold section_name in Hname.
  rewrite lookup_total_app_l in Hname by (by eapply Forall_forall in Hlive).
  eexists _, _. split; [done|by apply merge_into].
Qed.

(** ** [Prune] *)

Lemma entries_ext h h' secs s b : (forall a, a ∈ secs -> h' !!! a = h !!! a) -> entries h' secs s b = entries h secs s b.
Proof.
  induction secs as [|a secs IH]; intros Heq; [done|]. rewrite !entries_cons, IH; [|set_solver].
  by rewrite Heq by set_solver.
Qed.

Lemma Prune_loop_spec n secs : forall h newSecs, pruned n h newSecs -> (n <= length h)%nat ->
  Forall (fun a => (a < n)%nat) secs -> Forall (fun a => wf_sec (h !!! a)) secs ->
  exists h' secs', Prune_loop h secs newSecs = (h', secs') /\ pruned n h' secs' /\
    forall s b k, s ≠ [] -> k ≠ [] -> last_val k (entries h' secs' s b)
      = match or_true <$> last_val k (entries h secs s b) with
        | Some v => Some v
        | None => last_val k (entries h newSecs s b)
        end.
Proof.
  induction secs as [|a secs IH]; intros h newSecs Hpr Hn Hlt Hwf; cbn [Prune_loop]; [by eexists _, _|].
  apply Forall_cons in Hlt as [Ha Hlt]. apply Forall_cons in Hwf as [Hsec Hwf].
  destruct (mode (h !!! a) =? lineModeEmpty) eqn:Em.
  - destruct (IH h newSecs) as (h' & secs' & -> & Hpr' & He); try done. exists h', secs'. split; [done|]. split; [done|].
    intros s b k Hs Hk. rewrite He, entries_cons by done. destruct (named (h !!! a) s b) eqn:En; [|done].
    apply named_eq in En as [<- _]. apply Hsec in Hs. unfold no_header in Hs. by rewrite Em in Hs.
  - destruct (prune_section_spec (h !!! a)) as (Hname & Hsub & Hnew & Htidy & Hlast); [apply Hsec|by apply Z.eqb_neq|].
    destruct (merge_new n h newSecs (prune_section (h !!! a))) as (h1 & secs1 & -> & Hpr1 & Hn1 & Hkeep & He1); try done.
    destruct (IH h1 secs1) as (h' & secs' & -> & Hpr' & He); try done.
    { rewrite Forall_forall in Hwf, Hlt |- *. intros a' Ha'. rewrite Hkeep by (by apply Hlt). by apply Hwf. }
    exists h', secs'. split; [done|]. split; [done|]. intros s b k Hs Hk.
    rewrite He, He1, (entries_ext h h1), entries_cons, last_val_app by
      (try done; intros a' Ha'; apply Hkeep; by eapply Forall_forall in Hlt).
    destruct (last_val k (entries h secs s b)); [done|]. cbn [fmap option_fmap option_map].
    assert (named (prune_section (h !!! a)) s b = named (h !!! a) s b) as -> by (unfold named; by rewrite Hname, Hsub).
    destruct (named (h !!! a) s b); [by rewrite Hlast|done].
Qed.

(** C39: pruning gives a well-formed list in which no section and subsection is
    there twice, every line of a section is a variable, and no variable has the
    same key and value twice; and every lookup finds what it found before, an
    empty value having become [true]. *)
Theorem Prune_spec h secs : wf h secs -> exists h' secs', Prune h secs = (h', secs') /\ wf h' secs' /\
  NoDup (section_name h' <$> secs') /\ Forall (fun a => tidy_sec (h' !!! a)) secs' /\
  forall s b k def, s ≠ [] -> k ≠ [] -> is_ascii s -> is_ascii k ->
    Ini_Get h' secs' s b k def = (let '(v, ok) := Ini_Get h secs s b k def in if ok then (or_true v, true) else (v, false)).
Proof.
  intros Hwf. unfold Prune. destruct (Prune_loop_spec (length h) secs h []) as (h' & secs' & Hp & Hpr & He);
    [by repeat constructor|done|apply Hwf|apply Hwf|].
  exists h', secs'. split; [done|]. split; [apply Hpr|]. split; [apply Hpr|]. split; [apply Hpr|].
  intros s b k def Hs Hk Hsa Hka. rewrite !Ini_Get_last, He by auto using lower_nonempty. cbn [entries].
  by destruct (last_val _ _).
Qed.
End IniPrune.

Lemma Prune_spec_witness : exists h' secs', Prune (H := ascii_tables) demo_secs [0; 1]%nat = (h', secs') /\
  length secs' = 1%nat /\ Ini_Get (H := ascii_tables) h' secs' (str "a") [] (str "k") [] = (str "3", true).
Proof.
  destruct (Prune_spec (H := ascii_tables) demo_secs [0; 1]%nat demo_secs_wf) as (h' & secs' & Hp & _ & _ & _ & Hget).
  exists h', secs'. split; [done|]. split.
  { assert (Hl : length (Prune (H := ascii_tables) demo_secs [0; 1]%nat).2 = 1%nat) by reflexivity. by rewrite Hp in Hl. }
  rewrite Hget; [by vm_compute|done|done|by repeat constructor|by repeat constructor].
Defined.
