(* ===== verification/IniReader.v ===== *)
(** Package [lib/ini], file [reader.go]: the parser of INI files.

    The state of the reader is split in two: the bytes that [br] has left and the
    record [reader] of the rest; the fields [b] and [r], the byte and the rune
    just read, are variables of the loops.  A parsing function returns both and
    its error, [None] for nil.  Unreading gives the input before the read back.
    Loops by runes take the number of bytes as fuel. *)

From Stdlib Require Import ZArith Lia.
From S2P Require Import Prelude Ascii Utf8 Strings Ini.

Local Open Scope Z_scope.

Definition tokBackslash : Z := 92.
Definition tokBackspace : Z := 8.
Definition tokDot : Z := 46.
Definition tokDoubleQuote : Z := 34.
Definition tokEqual : Z := 61.
Definition tokHash : Z := 35.
Definition tokHyphen : Z := 45.
Definition tokNewLine : Z := 10.
Definition tokSecEnd : Z := 93.
Definition tokSecStart : Z := 91.
Definition tokSemiColon : Z := 59.
Definition tokSpace : Z := 32.
Definition tokTab : Z := 9.
Definition tokUnderscore : Z := 95.

Inductive ini_error : Type := EOF | errBadConfig | errVarNoSection | errVarNameInvalid | errValueInvalid.

#[export] Instance ini_error_eq_dec : EqDecision ini_error.
Proof. solve_decision. Defined.

Record reader : Type := Rd {
  r_lineNum : Z;
  r_var : variable;
  r_sec : section;
  buf : text;
  bufComment : text;
  bufFormat : text;
  bufSpaces : text
}.

Definition empty_var : variable := Var lineModeEmpty 0 [] [] [] [] [] [] [] false.
Definition empty_sec : section := Sec lineModeEmpty 0 [] [] [] [] [] [].

(** [reader.reset]. *)
Definition reset : reader := Rd 0 empty_var empty_sec [] [] [] [].

Definition set_line (rd : reader) (n : Z) : reader :=
  Rd n (r_var rd) (r_sec rd) (buf rd) (bufComment rd) (bufFormat rd) (bufSpaces rd).
Definition set_var (rd : reader) (v : variable) : reader :=
  Rd (r_lineNum rd) v (r_sec rd) (buf rd) (bufComment rd) (bufFormat rd) (bufSpaces rd).
Definition set_sec (rd : reader) (s : section) : reader :=
  Rd (r_lineNum rd) (r_var rd) s (buf rd) (bufComment rd) (bufFormat rd) (bufSpaces rd).
Definition set_buf (rd : reader) (b : text) : reader :=
  Rd (r_lineNum rd) (r_var rd) (r_sec rd) b (bufComment rd) (bufFormat rd) (bufSpaces rd).
Definition set_comment (rd : reader) (b : text) : reader :=
  Rd (r_lineNum rd) (r_var rd) (r_sec rd) (buf rd) b (bufFormat rd) (bufSpaces rd).
Definition set_format (rd : reader) (b : text) : reader :=
  Rd (r_lineNum rd) (r_var rd) (r_sec rd) (buf rd) (bufComment rd) b (bufSpaces rd).
Definition set_spaces (rd : reader) (b : text) : reader :=
  Rd (r_lineNum rd) (r_var rd) (r_sec rd) (buf rd) (bufComment rd) (bufFormat rd) b.

Definition var_mode (rd : reader) (m : Z) : reader :=
  let v := r_var rd in
  set_var rd (Var m (v_lineNum v) (v_format v) (v_secName v) (v_subName v) (key v) (keyLower v) (value v) (v_others v) (isQuoted v)).
Definition var_line (rd : reader) (n : Z) : reader :=
  let v := r_var rd in
  set_var rd (Var (v_mode v) n (v_format v) (v_secName v) (v_subName v) (key v) (keyLower v) (value v) (v_others v) (isQuoted v)).
Definition var_format (rd : reader) (f : text) : reader :=
  let v := r_var rd in
  set_var rd (Var (v_mode v) (v_lineNum v) f (v_secName v) (v_subName v) (key v) (keyLower v) (value v) (v_others v) (isQuoted v)).
Definition var_secName (rd : reader) (n : text) : reader :=
  let v := r_var rd in
  set_var rd (Var (v_mode v) (v_lineNum v) (v_format v) n (v_subName v) (key v) (keyLower v) (value v) (v_others v) (isQuoted v)).
Definition var_subName (rd : reader) (n : text) : reader :=
  let v := r_var rd in
  set_var rd (Var (v_mode v) (v_lineNum v) (v_format v) (v_secName v) n (key v) (keyLower v) (value v) (v_others v) (isQuoted v)).
Definition var_key (rd : reader) (k : text) : reader :=
  let v := r_var rd in
  set_var rd (Var (v_mode v) (v_lineNum v) (v_format v) (v_secName v) (v_subName v) k (keyLower v) (value v) (v_others v) (isQuoted v)).
Definition var_value (rd : reader) (x : text) : reader := set_var rd (set_value (r_var rd) x).
Definition var_others (rd : reader) (o : text) : reader :=
  let v := r_var rd in
  set_var rd (Var (v_mode v) (v_lineNum v) (v_format v) (v_secName v) (v_subName v) (key v) (keyLower v) (value v) o (isQuoted v)).
Definition var_quoted (rd : reader) : reader :=
  let v := r_var rd in
  set_var rd (Var (v_mode v) (v_lineNum v) (v_format v) (v_secName v) (v_subName v) (key v) (keyLower v) (value v) (v_others v) true).

(** [bufFormat.WriteByte], [buf.WriteByte], [bufSpaces.WriteByte]. *)
Definition put_format (rd : reader) (bs : text) : reader := set_format rd (bufFormat rd ++ bs).
Definition put_buf (rd : reader) (bs : text) : reader := set_buf rd (buf rd ++ bs).
Definition put_spaces (rd : reader) (bs : text) : reader := set_spaces rd (bufSpaces rd ++ bs).

Definition hole : text := [37; 115].

Definition result : Type := text * reader * option ini_error.

(** [valueCommit] and [valueWriteByte]. *)
Definition valueCommit (rd : reader) (withSpaces : bool) : reader :=
  let val := if withSpaces then buf rd ++ bufSpaces rd else buf rd in
  set_spaces (set_buf (var_value rd (value (r_var rd) ++ val)) []) [].
Definition valueWriteByte (rd : reader) (b : Z) : reader := put_buf (set_spaces (put_buf rd (bufSpaces rd)) []) [b].

(** [parseComment]. *)
Fixpoint comment_loop (inp : text) (rd : reader) : result :=
  match inp with
  | [] => ([], rd, Some EOF)
  | b :: rest =>
      if b =? tokNewLine then (rest, put_format rd [b], None)
      else comment_loop rest (set_comment rd (bufComment rd ++ [b]))
  end.
Definition parseComment (inp : text) (rd : reader) : result :=
  let rd := set_comment rd [] in
  let rd := var_mode rd (Z.lor (v_mode (r_var rd)) lineModeComment) in
  let rd := put_format rd hole in
  let '(rest, rd, err) := comment_loop inp rd in
  (rest, var_others (var_format rd (bufFormat rd)) (bufComment rd), err).

(** [parsePossibleComment]. *)
Fixpoint parsePossibleComment (inp : text) (rd : reader) : result :=
  match inp with
  | [] => ([], var_format rd (bufFormat rd), Some EOF)
  | b :: rest =>
      if b =? tokNewLine then let rd := put_format rd [b] in (rest, var_format rd (bufFormat rd), None)
      else if (b =? tokSpace) || (b =? tokTab) then parsePossibleComment rest (put_format rd [b])
      else if (b =? tokHash) || (b =? tokSemiColon) then parseComment inp rd
      else (rest, rd, Some errBadConfig)
  end.

(** [parseSubsection]: its second loop, then the first. *)
Fixpoint subsection_loop (inp : text) (rd : reader) (esc endq : bool) : result :=
  match inp with
  | [] => ([], rd, Some errBadConfig)
  | b :: rest =>
      if endq then
        (if b =? tokSecEnd then
           let rd := put_format rd [b] in
           let rd := var_subName rd (buf rd) in
           parsePossibleComment rest rd
         else (rest, rd, Some errBadConfig))
      else if esc then subsection_loop rest (put_buf rd [b]) false endq
      else if b =? tokBackslash then subsection_loop rest rd true endq
      else if b =? tokDoubleQuote then subsection_loop rest (put_format rd [b]) esc true
      else subsection_loop rest (put_buf rd [b]) esc endq
  end.
Fixpoint subsection_spaces (inp : text) (rd : reader) : result :=
  match inp with
  | [] => ([], rd, Some errBadConfig)
  | b :: rest =>
      if (b =? tokSpace) || (b =? tokTab) then subsection_spaces rest (put_format rd [b])
      else if negb (b =? tokDoubleQuote) then (rest, rd, Some errBadConfig)
      else subsection_loop rest (put_format (put_format rd [b]) hole) false false
  end.
Definition parseSubsection (inp : text) (rd : reader) : result :=
  let rd := set_buf rd [] in
  let rd := var_mode rd (Z.lor (v_mode (r_var rd)) lineModeSubsection) in
  subsection_spaces inp rd.

(** [parseVarValue]: its main loop, then the spaces before the value. *)
Definition value_done (inp : text) (rd : reader) (quoted : bool) : result :=
  if quoted then (inp, rd, Some errValueInvalid)
  else
    let rd := valueCommit rd false in
    (inp, var_format rd (bufFormat rd), None).
Fixpoint value_loop (inp : text) (rd : reader) (quoted esc : bool) : result :=
  match inp with
  | [] => value_done [] rd quoted
  | b :: rest =>
      if esc then
        if b =? tokNewLine then
          let rd := valueCommit (var_mode rd lineModeMulti) true in
          value_loop rest (set_line rd (r_lineNum rd + 1)) quoted false
        else if (b =? tokBackslash) || (b =? tokDoubleQuote) then value_loop rest (valueWriteByte rd b) quoted false
        else if b =? 98 then value_loop rest (put_buf rd [tokBackspace]) quoted false
        else if b =? 110 then value_loop rest (put_buf rd [tokNewLine]) quoted false
        else if b =? 116 then value_loop rest (put_buf rd [tokTab]) quoted false
        else (rest, rd, Some errValueInvalid)
      else if (b =? tokSpace) || (b =? tokTab) then
        (if quoted then value_loop rest (valueWriteByte rd b) quoted esc
         else value_loop rest (put_spaces rd [b]) quoted esc)
      else if b =? tokBackslash then value_loop rest rd quoted true
      else if b =? tokDoubleQuote then
        (if quoted then value_loop rest rd false esc else value_loop rest (var_quoted rd) true esc)
      else if b =? tokNewLine then value_done rest (put_format rd [b]) quoted
      else if (b =? tokHash) || (b =? tokSemiColon) then
        (if quoted then value_loop rest (valueWriteByte rd b) quoted esc
         else parseComment inp (valueCommit (put_format rd (bufSpaces rd)) false))
      else value_loop rest (valueWriteByte rd b) quoted esc
  end.
Fixpoint value_spaces (inp : text) (rd : reader) : result :=
  match inp with
  | [] => ([], var_value (var_format rd (bufFormat rd)) [], Some EOF)
  | b :: rest =>
      if (b =? tokSpace) || (b =? tokTab) then value_spaces rest (put_format rd [b])
      else if (b =? tokHash) || (b =? tokSemiColon) then parseComment inp (var_value rd [])
      else if b =? tokNewLine then
        let rd := put_format rd [b] in (rest, var_value (var_format rd (bufFormat rd)) [], None)
      else value_loop inp (var_mode (put_format rd hole) lineModeValue) false false
  end.
Definition parseVarValue (inp : text) (rd : reader) : result := value_spaces inp (set_spaces (set_buf rd []) []).

(** [parsePossibleValue]. *)
Definition single_done (inp : text) (rd : reader) : result :=
  (inp, var_value (var_format (var_mode rd lineModeSingle) (bufFormat rd)) varValueTrue, None).
Fixpoint parsePossibleValue (inp : text) (rd : reader) : result :=
  match inp with
  | [] => single_done [] rd
  | b :: rest =>
      if b =? tokNewLine then single_done rest (put_format rd [b])
      else if (b =? tokSpace) || (b =? tokTab) then parsePossibleValue rest (put_format rd [b])
      else if (b =? tokHash) || (b =? tokSemiColon) then parseComment inp (var_value rd varValueTrue)
      else if b =? tokEqual then parseVarValue rest (put_format rd [b])
      else (rest, rd, Some errVarNameInvalid)
  end.

Section Parser.
Context `{Unicode}.

(** [parseSectionHeader]. *)
Fixpoint header_loop (fuel : nat) (inp : text) (rd : reader) : result :=
  match fuel, inp with
  | S fuel, _ :: _ =>
      let '(r, n) := DecodeRune inp in
      let rest := drop n inp in
      if (r =? tokSpace) || (r =? tokTab) then
        let rd := put_format rd (EncodeRune r) in
        parseSubsection rest (var_secName rd (buf rd))
      else if r =? tokSecEnd then
        let rd := put_format rd (EncodeRune r) in
        parsePossibleComment rest (var_secName rd (buf rd))
      else if IsLetter r || rune_IsDigit r || (r =? tokHyphen) || (r =? tokDot) then
        header_loop fuel rest (put_buf rd (EncodeRune r))
      else (rest, rd, Some errBadConfig)
  | _, _ => (inp, rd, Some errBadConfig)
  end.
Definition parseSectionHeader (inp : text) (rd : reader) : result :=
  let rd := set_buf rd [] in
  match inp with
  | [] => ([], rd, Some errBadConfig)
  | b :: inp =>
      if negb (b =? tokSecStart) then (inp, rd, Some errBadConfig)
      else
        let rd := var_mode (put_format rd [tokSecStart]) lineModeSection in
        match inp with
        | [] => ([], rd, Some errBadConfig)
        | _ =>
            let '(r, n) := DecodeRune inp in
            if negb (IsLetter r) then (drop n inp, rd, Some errBadConfig)
            else header_loop (length inp) (drop n inp) (put_buf (put_format rd hole) (EncodeRune r))
        end
  end.

(** [parseVariable]. *)
Definition variable_done (inp : text) (rd : reader) : result :=
  (inp, var_value (var_key (var_format (var_mode rd lineModeSingle) (bufFormat rd)) (buf rd)) varValueTrue, None).
Fixpoint variable_loop (fuel : nat) (inp : text) (rd : reader) : result :=
  match fuel, inp with
  | S fuel, _ :: _ =>
      let '(r, n) := DecodeRune inp in
      let rest := drop n inp in
      if r =? tokEqual then
        let rd := put_format rd (EncodeRune r) in
        parseVarValue rest (var_key (var_mode rd lineModeSingle) (buf rd))
      else if r =? tokNewLine then variable_done rest (put_format rd (EncodeRune r))
      else if IsLetter r || rune_IsDigit r || (r =? tokHyphen) || (r =? tokDot) || (r =? tokUnderscore) then
        variable_loop fuel rest (put_buf rd (EncodeRune r))
      else if (r =? tokHash) || (r =? tokSemiColon) then
        parseComment inp (var_value (var_key (var_mode rd lineModeSingle) (buf rd)) varValueTrue)
      else if rune_IsSpace r then
        let rd := put_format rd (EncodeRune r) in
        parsePossibleValue rest (var_key (var_mode rd lineModeSingle) (buf rd))
      else (rest, rd, Some errVarNameInvalid)
  | _, _ => variable_done inp rd
  end.
Definition parseVariable (inp : text) (rd : reader) : result :=
  let rd := set_buf rd [] in
  match inp with
  | [] => ([], rd, Some errVarNameInvalid)
  | _ =>
      let '(r, n) := DecodeRune inp in
      if negb (IsLetter r) then (drop n inp, rd, Some errVarNameInvalid)
      else variable_loop (length inp) (drop n inp) (put_buf (put_format rd hole) (EncodeRune r))
  end.

(** [parse]: one line. *)
Fixpoint parse_loop (inp : text) (rd : reader) : result :=
  match inp with
  | [] => ([], rd, Some EOF)
  | b :: rest =>
      if b =? tokNewLine then let rd := put_format rd [b] in (rest, var_format rd (bufFormat rd), None)
      else if (b =? tokSpace) || (b =? tokTab) then parse_loop rest (put_format rd [b])
      else if (b =? tokHash) || (b =? tokSemiColon) then parseComment inp rd
      else if b =? tokSecStart then parseSectionHeader inp rd
      else parseVariable inp rd
  end.
Definition parse (inp : text) (rd : reader) : result := parse_loop inp (set_format rd []).

(** [Parse], its loop and what follows it.  An error is returned with the line
    it is reported at. *)
Definition ini : Type := store * list addr.
Definition add_section (i : ini) (sec : section) : ini := addSection i.1 i.2 sec.

Definition var_section (v : variable) : section :=
  Sec (v_mode v) (v_lineNum v) (v_secName v) (v_subName v) (v_format v) [] (v_others v) [].

Fixpoint Parse_loop (fuel : nat) (inp : text) (rd : reader) (i : ini) : outcome (ini_error * Z) ini :=
  match fuel with
  | O => NoFuel
  | S fuel =>
      let rd := set_line rd (r_lineNum rd + 1) in
      match parse inp rd with
      | (_, rd, Some EOF) =>
          let sec := if v_mode (r_var rd) =? lineModeEmpty then r_sec rd else addVariable (r_sec rd) (r_var rd) in
          Ok (add_section i sec)
      | (_, rd, Some err) => Err (err, r_lineNum rd)
      | (rest, rd, None) =>
          let rd := var_line rd (r_lineNum rd) in
          let v := r_var rd in
          if isLineModeVar (v_mode v) && (mode (r_sec rd) =? lineModeEmpty) then Err (errVarNoSection, r_lineNum rd)
          else if (Z.land (v_mode v) lineModeSection =? lineModeSection)
                  || (Z.land (v_mode v) lineModeSubsection =? lineModeSubsection) then
            Parse_loop fuel rest (set_var (set_sec rd (var_section v)) empty_var) (add_section i (r_sec rd))
          else Parse_loop fuel rest (set_var (set_sec rd (addVariable (r_sec rd) v)) empty_var) i
      end
  end.
Definition Parse (src : text) : outcome (ini_error * Z) ini := Parse_loop (S (length src)) src reset ([], []).
End Parser.
