(* ===== verification/IniRoundtrip.v ===== *)
(** Package [lib/ini]: parsing always ends, what is written is read back, and
    the lines that are lost when a file is read, changed and written. *)

From Stdlib Require Import ZArith Lia.
From S2P Require Import Prelude Ascii Utf8 Strings Ini IniReader.

Local Open Scope Z_scope.

(** ** Every line takes input *)

Definition left (res : result) : nat := length res.1.1.

Create HintDb ini.

Lemma left_comment_loop inp : forall rd, (left (comment_loop inp rd) <= length inp - 1)%nat.
Proof.
  induction inp as [|b inp IH]; intros rd; cbn [comment_loop]; [done|].
  destruct (b =? tokNewLine); [unfold left; cbn; lia|]. etrans; [apply IH|]. cbn. lia.
Qed.

Lemma left_parseComment inp rd : (left (parseComment inp rd) <= length inp - 1)%nat.
Proof.
  unfold parseComment. match goal with |- context [comment_loop inp ?r] => pose proof (left_comment_loop inp r) as Hc end.
  by destruct (comment_loop inp _) as [[rest ?] ?].
Qed.

Lemma left_comment inp rd : (left (parseComment inp rd) <= length inp)%nat.
Proof. etrans; [apply left_parseComment|lia]. Qed.
#[local] Hint Resolve left_comment : ini.

(** The branches of a loop whose body is in the goal. *)
Ltac left_cases :=
  cbv zeta; repeat case_match; subst; cbn [length];
  solve [ eauto with ini | unfold left; cbn; lia | etrans; [eauto with ini|unfold left; cbn; lia] ].

Lemma left_possibleComment inp : forall rd, (left (parsePossibleComment inp rd) <= length inp)%nat.
Proof. induction inp as [|b inp IH]; intros rd; cbn [parsePossibleComment]; left_cases. Qed.
#[local] Hint Resolve left_possibleComment : ini.

Lemma left_subsection_loop inp : forall rd esc endq, (left (subsection_loop inp rd esc endq) <= length inp)%nat.
Proof. induction inp as [|b inp IH]; intros rd esc endq; cbn [subsection_loop]; left_cases. Qed.
#[local] Hint Resolve left_subsection_loop : ini.

Lemma left_subsection_spaces inp : forall rd, (left (subsection_spaces inp rd) <= length inp)%nat.
Proof. induction inp as [|b inp IH]; intros rd; cbn [subsection_spaces]; left_cases. Qed.
#[local] Hint Resolve left_subsection_spaces : ini.

Lemma left_value_done inp rd quoted : (left (value_done inp rd quoted) <= length inp)%nat.
Proof. unfold value_done, left. destruct quoted; simpl; apply Nat.le_refl. Qed.
#[local] Hint Resolve left_value_done : ini.

Lemma left_value_loop inp : forall rd quoted esc, (left (value_loop inp rd quoted esc) <= length inp)%nat.
Proof.
  induction inp as [|b inp IH]; intros rd quoted esc; cbn [value_loop]; [apply left_value_done|]; left_cases.
Qed.
#[local] Hint Resolve left_value_loop : ini.

Lemma left_value_spaces inp : forall rd, (left (value_spaces inp rd) <= length inp)%nat.
Proof. induction inp as [|b inp IH]; intros rd; cbn [value_spaces]; left_cases. Qed.
#[local] Hint Resolve left_value_spaces : ini.

Lemma left_possibleValue inp : forall rd, (left (parsePossibleValue inp rd) <= length inp)%nat.
Proof. induction inp as [|b inp IH]; intros rd; cbn [parsePossibleValue]; left_cases. Qed.
#[local] Hint Resolve left_possibleValue : ini.

Section Parser.
Context `{Unicode}.

Lemma left_drop n (inp : text) m : (m <= length (drop n inp))%nat -> (m <= length inp)%nat.
Proof. rewrite length_drop. lia. Qed.

Lemma left_header_loop fuel : forall inp rd, (left (header_loop fuel inp rd) <= length inp)%nat.
Proof.
  induction fuel as [|fuel IH]; intros inp rd; cbn [header_loop]; [unfold left; cbn; lia|]. destruct inp as [|b inp]; [unfold left; cbn; lia|].
  destruct (DecodeRune (b :: inp)) as [r n]. cbv zeta. repeat case_match; apply (left_drop n);
    [apply left_subsection_spaces|apply left_possibleComment|apply IH|reflexivity].
Qed.

Lemma left_variable_loop fuel : forall inp rd, (left (variable_loop fuel inp rd) <= length inp)%nat.
Proof.
  induction fuel as [|fuel IH]; intros inp rd; cbn [variable_loop]; [unfold left; cbn; lia|]. destruct inp as [|b inp]; [unfold left; cbn; lia|].
  destruct (DecodeRune (b :: inp)) as [r n]. cbv zeta. repeat case_match; try apply left_comment; apply (left_drop n);
    try reflexivity; [apply left_value_spaces|apply IH|apply left_possibleValue].
Qed.

Lemma DecodeRune_width b (inp : text) : (1 <= (DecodeRune (b :: inp)).2)%nat.
Proof. unfold DecodeRune. repeat case_match; cbn; lia. Qed.

Lemma left_parseVariable b inp rd : (left (parseVariable (b :: inp) rd) <= length inp)%nat.
Proof.
  unfold parseVariable. pose proof (DecodeRune_width b inp) as Hw. destruct (DecodeRune (b :: inp)) as [r n].
  assert (Hd : (length (drop n (b :: inp)) <= length inp)%nat) by (rewrite length_drop; cbn in *; lia).
  cbv zeta. destruct (negb (IsLetter r)); [exact Hd|]. etrans; [apply left_variable_loop|exact Hd].
Qed.

Lemma left_parseSectionHeader b inp rd : (left (parseSectionHeader (b :: inp) rd) <= length inp)%nat.
Proof.
  unfold parseSectionHeader. cbv zeta. destruct (negb (b =? tokSecStart)); [reflexivity|].
  destruct inp as [|c inp]; [reflexivity|]. destruct (DecodeRune (c :: inp)) as [r n].
  destruct (negb (IsLetter r)); [unfold left; cbn [fst snd]; rewrite length_drop; lia|].
  etrans; [apply left_header_loop|]. rewrite length_drop. lia.
Qed.

(** A line that is parsed without error is not empty. *)
Lemma parse_loop_left inp : forall rd, (parse_loop inp rd).2 = None -> (left (parse_loop inp rd) < length inp)%nat.
Proof.
  induction inp as [|b inp IH]; intros rd; cbn [parse_loop]; [done|]. cbv zeta.
  destruct (b =? tokNewLine); [intros _; cbn; unfold left; cbn; lia|].
  destruct ((b =? tokSpace) || (b =? tokTab)); [intros He; specialize (IH _ He); cbn; lia|].
  intros _. destruct ((b =? tokHash) || (b =? tokSemiColon)); [|destruct (b =? tokSecStart)].
  - pose proof (left_parseComment (b :: inp) rd). cbn [length] in *. lia.
  - pose proof (left_parseSectionHeader b inp rd). cbn [length] in *. lia.
  - pose proof (left_parseVariable b inp rd). cbn [length] in *. lia.
Qed.

Lemma Parse_loop_total fuel : forall inp rd i, (length inp < fuel)%nat ->
  (exists i', Parse_loop fuel inp rd i = Ok i') \/ (exists e n, Parse_loop fuel inp rd i = Err (e, n) /\ e ≠ EOF).
Proof.
  induction fuel as [|fuel IH]; intros inp rd i Hf; [lia|]. cbn [Parse_loop]. cbv zeta. unfold parse.
  set (rd0 := set_format _ _). pose proof (parse_loop_left inp rd0) as Hleft. unfold left in Hleft.
  destruct (parse_loop inp rd0) as [[rest rd'] [err|]]; cbn [fst snd] in *.
  - destruct err; [left; eauto|right; eexists _, _; split; [done|discriminate]..].
  - specialize (Hleft eq_refl). destruct (_ && _); [right; eexists _, _; split; [done|discriminate]|].
    destruct (_ || _); apply IH; lia.
Qed.

(** Parsing ends on every input, with the sections of the file or with an
    error of the parser and the line it is at; it neither panics nor reports the
    end of the input as an error. *)
Theorem Parse_total src :
  (exists h secs, Parse src = Ok (h, secs)) \/ (exists e n, Parse src = Err (e, n) /\ e ≠ EOF).
Proof.
  destruct (Parse_loop_total (S (length src)) src reset ([], []) ltac:(lia)) as [[[h secs] Hp]|Hp]; [left; eauto|by right].
Qed.

(** ** Reading what is written *)

Definition name_byte (c : Z) : Prop := IsAlpha c = true \/ IsDigit c = true \/ c = tokHyphen \/ c = tokDot.
Definition key_byte (c : Z) : Prop := name_byte c \/ c = tokUnderscore.
Definition blank (c : Z) : bool := (c =? tokSpace) || (c =? tokTab).
Definition plain_byte (c : Z) : Prop :=
  c ≠ tokBackslash /\ c ≠ tokDoubleQuote /\ c ≠ tokHash /\ c ≠ tokSemiColon /\ c ≠ tokNewLine.

(** A value that is printed as it is, and one that is printed in quotes. *)
Definition plain_value (v : text) : Prop :=
  Forall plain_byte v /\ (exists b, head v = Some b /\ blank b = false) /\ (exists b, last v = Some b /\ blank b = false).
Definition key_ok (k : text) : Prop := exists c k', k = c :: k' /\ IsAlpha c = true /\ Forall key_byte k'.

Definition writable_var (v : variable) : Prop :=
  v_mode v = lineModeValue /\ v_format v = [] /\ key_ok (key v) /\ keyLower v = text_ToLower (key v) /\
  (if isQuoted v then is_ascii (value v) /\ value v ≠ [] else plain_value (value v)).

Definition fmt_var (v : variable) (f : text) : variable :=
  Var (v_mode v) (v_lineNum v) f (v_secName v) (v_subName v) (key v) (keyLower v) (value v) (v_others v) (isQuoted v).

Ltac ne_tok c := rewrite ?(proj2 (Z.eqb_neq c _)) by done.

Lemma value_loop_plain rest val : forall rd, Forall plain_byte val ->
  match last val with Some b => blank b = false | None => bufSpaces rd = [] end ->
  exists rd' f, value_loop (val ++ 10 :: rest) rd false false = (rest, rd', None) /\ r_sec rd' = r_sec rd /\
    r_lineNum rd' = r_lineNum rd /\
    r_var rd' = fmt_var (set_value (r_var rd) (value (r_var rd) ++ buf rd ++ bufSpaces rd ++ val)) f.
Proof.
  induction val as [|b val IH]; intros rd Hp Hl.
  { cbn [app value_loop]. unfold value_done. cbv zeta. eexists _, _. split; [reflexivity|].
    cbn in Hl |- *. rewrite Hl, !app_nil_r. done. }
  apply Forall_cons in Hp as [(H1 & H2 & H3 & H4 & H5) Hp]. cbn [app value_loop].
  assert (Hstep : forall rd', buf rd' ++ bufSpaces rd' = buf rd ++ bufSpaces rd ++ [b] -> r_var rd' = r_var rd ->
    r_sec rd' = r_sec rd -> r_lineNum rd' = r_lineNum rd ->
    match last val with Some b => blank b = false | None => bufSpaces rd' = [] end ->
    exists rd'' f, value_loop (val ++ 10 :: rest) rd' false false = (rest, rd'', None) /\ r_sec rd'' = r_sec rd /\
      r_lineNum rd'' = r_lineNum rd /\
      r_var rd'' = fmt_var (set_value (r_var rd) (value (r_var rd) ++ buf rd ++ bufSpaces rd ++ b :: val)) f).
  { intros rd' Hb Hv Hs Hn Hl'. destruct (IH rd' Hp Hl') as (rd'' & f & -> & Hs'' & Hn'' & Hv''). exists rd'', f.
    split; [done|]. split; [congruence|]. split; [congruence|]. rewrite Hv'', Hv. do 2 f_equal.
    rewrite (assoc_L (++) (buf rd')), Hb. by rewrite <- !(assoc_L (++)). }
  fold (blank b). destruct (blank b) eqn:Eb.
  - apply Hstep; [by cbn|done..|]. destruct val as [|z val]; [cbn in Hl; congruence|]. rewrite last_cons_cons in Hl.
    by destruct (last (z :: val)) eqn:E; [|apply last_None in E].
  - unfold tokBackslash, tokDoubleQuote, tokHash, tokSemiColon, tokNewLine in *. rewrite !(proj2 (Z.eqb_neq b _)) by done. cbn [orb].
    apply Hstep; [cbn; by rewrite app_nil_r, <- (assoc_L (++))|done..|].
    destruct val as [|z val]; [done|]. rewrite last_cons_cons in Hl. by destruct (last (z :: val)) eqn:E; [|apply last_None in E].
Qed.

Lemma runes_of_ascii v : is_ascii v -> runes_of v = v.
Proof.
  intros Hv. unfold runes_of, range_runes. rewrite runes_from_ascii by done. clear Hv.
  apply list_eq. intros i. rewrite list_lookup_fmap, list_lookup_imap. by destruct (v !! i).
Qed.

(** One escaped character between the quotes. *)
Lemma value_loop_escaped c more rd : 0 <= c < 128 -> bufSpaces rd = [] ->
  exists rd', value_loop (escape_rune c ++ more) rd true false = value_loop more rd' true false /\
    bufSpaces rd' = [] /\ buf rd' = buf rd ++ [c] /\ r_var rd' = r_var rd /\ r_sec rd' = r_sec rd /\ r_lineNum rd' = r_lineNum rd.
Proof.
  intros Hc Hs. unfold escape_rune.
  repeat (case_match; [eexists; split; [reflexivity|]; rewrite ?Z.eqb_eq in *; subst; cbn; by rewrite ?Hs, ?app_nil_r|]).
  rewrite EncodeRune_ascii by done. rewrite ?Z.eqb_neq in *. cbn [app value_loop].
  exists (valueWriteByte rd c). split; [|cbn; by rewrite Hs, app_nil_r].
  destruct ((c =? tokSpace) || (c =? tokTab)); [done|]. unfold tokBackslash, tokDoubleQuote, tokNewLine.
  rewrite !(proj2 (Z.eqb_neq c _)) by done. by destruct (_ || _).
Qed.

Lemma value_loop_quoted rest s : forall rd, is_ascii s -> bufSpaces rd = [] ->
  exists rd' f, value_loop (concat (escape_rune <$> s) ++ 34 :: 10 :: rest) rd true false = (rest, rd', None) /\
    r_sec rd' = r_sec rd /\ r_lineNum rd' = r_lineNum rd /\
    r_var rd' = fmt_var (set_value (r_var rd) (value (r_var rd) ++ buf rd ++ s)) f.
Proof.
  induction s as [|c s IH]; intros rd Hs Hsp.
  { eexists _, _. split; [reflexivity|]. by rewrite app_nil_r. }
  apply Forall_cons in Hs as [Hc Hs]. rewrite fmap_cons. cbn [concat]. rewrite <- (assoc_L (++)).
  destruct (value_loop_escaped c (concat (escape_rune <$> s) ++ 34 :: 10 :: rest) rd Hc Hsp) as (rd1 & -> & Hsp1 & Hb1 & Hv1 & Hs1 & Hn1).
  destruct (IH rd1 Hs Hsp1) as (rd' & f & -> & Hs' & Hn' & Hv'). exists rd', f. split; [done|]. split; [congruence|].
  split; [congruence|]. rewrite Hv', Hv1, Hb1. by rewrite <- (assoc_L (++)).
Qed.

(** *** A variable *)

Lemma IsAlpha_range c : IsAlpha c = true -> 65 <= c <= 122.
Proof. unfold IsAlpha. rewrite orb_true_iff, !andb_true_iff, !Z.leb_le. lia. Qed.

Lemma IsDigit_range c : IsDigit c = true -> 48 <= c <= 57.
Proof. unfold IsDigit. rewrite andb_true_iff, !Z.leb_le. lia. Qed.

Lemma name_byte_range c : name_byte c -> 45 <= c <= 122 /\ c ≠ tokEqual /\ c ≠ tokSecEnd.
Proof.
  unfold name_byte, tokHyphen, tokDot, tokEqual, tokSecEnd. intros [Hc|[Hc|Hc]]; [|apply IsDigit_range in Hc; lia|lia].
  pose proof (IsAlpha_range c Hc). unfold IsAlpha in Hc. rewrite orb_true_iff, !andb_true_iff, !Z.leb_le in Hc. lia.
Qed.

Lemma name_byte_test c : name_byte c -> IsLetter c || rune_IsDigit c || (c =? tokHyphen) || (c =? tokDot) = true.
Proof.
  intros Hc. pose proof (name_byte_range c Hc) as [Hr _]. rewrite IsLetter_ascii, rune_IsDigit_ascii by lia.
  destruct Hc as [->|[->|[->| ->]]]; by rewrite ?orb_true_r.
Qed.

Lemma key_byte_range c : key_byte c -> 45 <= c <= 122 /\ c ≠ tokEqual.
Proof. intros [Hc| ->]; [destruct (name_byte_range c Hc); split; [lia|tauto]|done]. Qed.

Lemma key_byte_test c : key_byte c ->
  IsLetter c || rune_IsDigit c || (c =? tokHyphen) || (c =? tokDot) || (c =? tokUnderscore) = true.
Proof. intros [Hc| ->]; [by rewrite name_byte_test|]. by rewrite orb_true_r. Qed.

Lemma put_buf_put_buf rd a b : put_buf (put_buf rd a) b = put_buf rd (a ++ b).
Proof. unfold put_buf, set_buf. cbn. by rewrite (assoc_L (++)). Qed.

Lemma variable_loop_key rest k : forall fuel rd, Forall key_byte k -> (length k < fuel)%nat ->
  variable_loop fuel (k ++ 32 :: rest) rd
  = parsePossibleValue rest (var_key (var_mode (put_format (put_buf rd k) [32]) lineModeSingle) (buf (put_buf rd k))).
Proof.
  induction k as [|c k IH]; intros fuel rd Hk Hf; (destruct fuel as [|fuel]; [cbn in Hf; lia|]).
  - cbn [app variable_loop]. rewrite DecodeRune_ascii by lia. cbn [drop]. rewrite drop_0.
    assert (put_buf rd [] = rd) as -> by (destruct rd; unfold put_buf, set_buf; cbn; by rewrite app_nil_r).
    rewrite IsLetter_ascii, rune_IsDigit_ascii by lia. reflexivity.
  - apply Forall_cons in Hk as [Hc Hk]. pose proof (key_byte_range c Hc) as [Hr He]. cbn [app variable_loop].
    rewrite DecodeRune_ascii by lia. cbn [drop]. rewrite drop_0, key_byte_test by done.
    rewrite (proj2 (Z.eqb_neq c tokEqual)), (proj2 (Z.eqb_neq c tokNewLine)) by (unfold tokNewLine in *; lia || done).
    rewrite EncodeRune_ascii, IH, put_buf_put_buf by (done || lia || (cbn in Hf; lia)). done.
Qed.

(** The text of the value, and its first byte. *)
Definition value_text (v : variable) : text := if isQuoted v then escape (value v) else value v.

Lemma variable_String_writable v : v_mode v = lineModeValue -> v_format v = [] ->
  variable_String v = key v ++ 32 :: 61 :: 32 :: value_text v ++ [10].
Proof. unfold variable_String. by intros -> ->. Qed.

Lemma value_spaces_text v rest rd : writable_var v -> value (r_var rd) = [] -> buf rd = [] -> bufSpaces rd = [] ->
  isQuoted (r_var rd) = false ->
  exists rd' f, value_spaces (value_text v ++ 10 :: rest) rd = (rest, rd', None) /\ r_sec rd' = r_sec rd /\
    r_lineNum rd' = r_lineNum rd /\
    r_var rd' = Var lineModeValue (v_lineNum (r_var rd)) f (v_secName (r_var rd)) (v_subName (r_var rd)) (key (r_var rd))
                  (keyLower (r_var rd)) (value v) (v_others (r_var rd)) (isQuoted v).
Proof.
  intros (_ & _ & _ & _ & Hv) Hval Hb Hsp Hq. unfold value_text. destruct (isQuoted v) eqn:Eq.
  - destruct Hv as [Ha _]. unfold escape. rewrite runes_of_ascii by done. cbn [app]. rewrite <- (assoc_L (++)). cbn [app].
    cbn [value_spaces]. change ((34 =? tokSpace) || (34 =? tokTab)) with false. cbn [orb]. 
    destruct (value_loop_quoted rest (value v) (var_quoted (var_mode (put_format rd hole) lineModeValue)) Ha Hsp)
      as (rd' & f & He & Hs & Hn & Hvv).
    exists rd', f. split; [exact He|]. split; [done|]. split; [done|]. rewrite Hvv. cbn. by rewrite Hval, Hb.
  - destruct Hv as (Hp & (b & Hh & Hbb) & (l & Hl & Hlb)). destruct (value v) as [|c val] eqn:Ev; [done|].
    injection Hh as ->. apply Forall_cons in Hp as Hp'. destruct Hp' as [(H1 & H2 & H3 & H4 & H5) _].
    cbn [app value_spaces]. fold (blank b). rewrite Hbb. 
    rewrite (proj2 (Z.eqb_neq b tokHash)), (proj2 (Z.eqb_neq b tokSemiColon)), (proj2 (Z.eqb_neq b tokNewLine)) by done.
    destruct (value_loop_plain rest (b :: val) (var_mode (put_format rd hole) lineModeValue) Hp) as (rd' & f & He & Hs & Hn & Hvv);
      [by rewrite Hl|].
    exists rd', f. split; [exact He|]. split; [done|]. split; [done|]. rewrite Hvv. cbn. by rewrite Hval, Hb, Hsp, Hq.
Qed.

Lemma parse_var v rest rd : writable_var v -> r_var rd = empty_var ->
  exists rd' f, parse (variable_String v ++ rest) rd = (rest, rd', None) /\ r_sec rd' = r_sec rd /\
    r_lineNum rd' = r_lineNum rd /\
    r_var rd' = Var lineModeValue 0 f [] [] (key v) [] (value v) [] (isQuoted v).
Proof.
  intros Hw Hrd. pose proof Hw as (Hm & Hf & (c & k & Hk & Hc & Hkb) & _ & _).
  rewrite variable_String_writable, Hk by done. rewrite <- (assoc_L (++)). cbn [app].
  pose proof (IsAlpha_range c Hc) as Hr. unfold parse. cbn [parse_loop].
  assert (Hne : c ≠ tokNewLine /\ c ≠ tokSpace /\ c ≠ tokTab /\ c ≠ tokHash /\ c ≠ tokSemiColon /\ c ≠ tokSecStart).
  { unfold tokNewLine, tokSpace, tokTab, tokHash, tokSemiColon, tokSecStart. split_and!; try lia.
    intros ->. by unfold IsAlpha in Hc. }
  destruct Hne as (N1 & N2 & N3 & N4 & N5 & N6). rewrite !(proj2 (Z.eqb_neq c _)) by done. cbn [orb].
  unfold parseVariable. rewrite DecodeRune_ascii by lia. cbn [drop]. rewrite drop_0, IsLetter_ascii, Hc by lia. cbn [negb].
  rewrite EncodeRune_ascii by lia. cbv zeta. rewrite <- (assoc_L (++)). cbn [app].
  rewrite variable_loop_key by (done || (cbn [length]; rewrite length_app; lia)).
  set (rd1 := var_key _ _). cbn [parsePossibleValue].
  change (61 =? tokNewLine) with false. change ((61 =? tokSpace) || (61 =? tokTab)) with false.
  change ((61 =? tokHash) || (61 =? tokSemiColon)) with false. change (61 =? tokEqual) with true. cbv iota.
  unfold parseVarValue. cbn [value_spaces]. change ((32 =? tokSpace) || (32 =? tokTab)) with true. cbv iota.
  match goal with |- context [value_spaces _ ?r] => destruct (value_spaces_text v rest r Hw) as (rd' & f & He & Hs & Hn & Hv) end;
    [by subst rd1; cbn; rewrite Hrd|done|done|by subst rd1; cbn; rewrite Hrd|].
  exists rd', f. rewrite He. split; [done|]. split; [by rewrite Hs|]. split; [by rewrite Hn|]. rewrite Hv. subst rd1. cbn. by rewrite Hrd.
Qed.

(** *** A section header *)

Definition name_ok (n : text) : Prop := exists c n', n = c :: n' /\ IsAlpha c = true /\ Forall name_byte n'.
Definition sub_byte (c : Z) : Prop := c ≠ tokDoubleQuote /\ c ≠ tokBackslash.
Definition writable_header (sec : section) : Prop :=
  format sec = [] /\ name_ok (name sec) /\ nameLower sec = text_ToLower (name sec) /\
  (mode sec = lineModeSection /\ sub sec = [] \/
   mode sec = Z.lor lineModeSection lineModeSubsection /\ sub sec ≠ [] /\ Forall sub_byte (sub sec)).

Lemma header_loop_name t rest n : forall fuel rd, Forall name_byte n -> (length n < fuel)%nat ->
  header_loop fuel (n ++ t :: rest) rd = header_loop (fuel - length n) (t :: rest) (put_buf rd n).
Proof.
  induction n as [|c n IH]; intros fuel rd Hn Hf.
  - assert (put_buf rd [] = rd) as -> by (destruct rd; unfold put_buf, set_buf; cbn; by rewrite app_nil_r).
    by rewrite Nat.sub_0_r.
  - destruct fuel as [|fuel]; [cbn in Hf; lia|]. apply Forall_cons in Hn as [Hc Hn].
    pose proof (name_byte_range c Hc) as (Hr & He & Hse). cbn [app length Nat.sub header_loop].
    rewrite DecodeRune_ascii by lia. cbn [drop]. rewrite drop_0, name_byte_test by done.
    rewrite (proj2 (Z.eqb_neq c tokSpace)), (proj2 (Z.eqb_neq c tokTab)), (proj2 (Z.eqb_neq c tokSecEnd)) by
      (unfold tokSpace, tokTab in *; lia || done). cbn [orb].
    rewrite EncodeRune_ascii, IH, put_buf_put_buf by (done || lia || (cbn in Hf; lia)). done.
Qed.

Lemma subsection_loop_text rest sb : forall rd, Forall sub_byte sb ->
  subsection_loop (sb ++ 34 :: 93 :: rest) rd false false
  = parsePossibleComment rest
      (var_subName (put_format (put_format (put_buf rd sb) [34]) [93]) (buf (put_buf rd sb))).
Proof.
  induction sb as [|c sb IH]; intros rd Hs.
  - assert (put_buf rd [] = rd) as -> by (destruct rd; unfold put_buf, set_buf; cbn; by rewrite app_nil_r). reflexivity.
  - apply Forall_cons in Hs as [[H1 H2] Hs]. cbn [app subsection_loop].
    rewrite (proj2 (Z.eqb_neq c tokBackslash)), (proj2 (Z.eqb_neq c tokDoubleQuote)) by done.
    by rewrite IH, put_buf_put_buf.
Qed.

Lemma parse_bracket c n t rest rd : IsAlpha c = true -> Forall name_byte n ->
  exists fuel, parse (91 :: c :: n ++ t :: rest) rd
    = header_loop (S fuel) (t :: rest)
        (put_buf (put_format (var_mode (put_format (set_buf (set_format rd []) []) [91]) lineModeSection) hole) (c :: n)).
Proof.
  intros Hc Hn. pose proof (IsAlpha_range c Hc) as Hr. exists (length (n ++ t :: rest) - length n)%nat.
  unfold parse. cbn [parse_loop]. change (91 =? tokNewLine) with false. change ((91 =? tokSpace) || (91 =? tokTab)) with false.
  change ((91 =? tokHash) || (91 =? tokSemiColon)) with false. change (91 =? tokSecStart) with true. cbv iota.
  unfold parseSectionHeader. change (negb (91 =? tokSecStart)) with false. cbv iota zeta.
  rewrite DecodeRune_ascii by lia. cbn [drop]. rewrite drop_0, IsLetter_ascii, Hc by lia. cbn [negb].
  rewrite EncodeRune_ascii, header_loop_name, put_buf_put_buf by (done || lia || (cbn [length]; rewrite length_app; lia)).
  cbn [length app]. rewrite Nat.sub_succ_l by (rewrite length_app; lia). done.
Qed.

Lemma section_String_writable sec : writable_header sec ->
  (mode sec = lineModeSection /\ sub sec = []) /\ section_String sec = 91 :: name sec ++ [93; 10] \/
  (mode sec = Z.lor lineModeSection lineModeSubsection /\ sub sec ≠ [] /\ Forall sub_byte (sub sec)) /\
    section_String sec = 91 :: name sec ++ 32 :: 34 :: sub sec ++ [34; 93; 10].
Proof.
  intros (Hf & _ & _ & [[Hm Hsub]|(Hm & Hne & Hsub)]); [left|right]; (split; [done|]); unfold section_String; rewrite Hm, Hf.
  - rewrite Z.eqb_refl. generalize (name sec). intros n. vm_compute (or_format [] "[%s]"). reflexivity.
  - change (Z.lor lineModeSection lineModeSubsection) with 6. change (6 =? lineModeSection) with false.
    change (6 =? Z.lor lineModeSection lineModeComment) with false. by rewrite Z.eqb_refl.
Qed.

Lemma parse_header sec rest rd : writable_header sec -> r_var rd = empty_var ->
  exists rd' f, parse (section_String sec ++ rest) rd = (rest, rd', None) /\ r_sec rd' = r_sec rd /\
    r_lineNum rd' = r_lineNum rd /\
    r_var rd' = Var (mode sec) 0 f (name sec) (sub sec) [] [] [] [] false.
Proof.
  intros Hsec Hrd. pose proof Hsec as (_ & (c & n & Hname & Hc & Hn) & _).
  destruct (section_String_writable sec Hsec) as [[[Hm Hsub] ->]|[(Hm & Hne & Hsub) ->]]; rewrite Hm, Hname; cbn [app];
    rewrite <- (assoc_L (++)); cbn [app].
  - destruct (parse_bracket c n 93 (10 :: rest) rd Hc Hn) as [fuel ->]. cbn [header_loop].
    rewrite DecodeRune_ascii by lia. cbn [drop]. change ((93 =? tokSpace) || (93 =? tokTab)) with false.
    change (93 =? tokSecEnd) with true. cbv iota zeta. cbn [parsePossibleComment]. change (10 =? tokNewLine) with true. cbv iota zeta.
    eexists _, _. split; [reflexivity|]. split; [done|]. split; [done|]. cbn. by rewrite Hrd, Hsub.
  - rewrite <- (assoc_L (++)). cbn [app].
    destruct (parse_bracket c n 32 (34 :: sub sec ++ 34 :: 93 :: 10 :: rest) rd Hc Hn) as [fuel ->]. cbn [header_loop].
    rewrite DecodeRune_ascii by lia. cbn [drop].
    change ((32 =? tokSpace) || (32 =? tokTab)) with true. cbv iota zeta. unfold parseSubsection. cbn [subsection_spaces].
    change ((34 =? tokSpace) || (34 =? tokTab)) with false. change (negb (34 =? tokDoubleQuote)) with false. cbv iota.
    rewrite subsection_loop_text by done. cbn [parsePossibleComment]. change (10 =? tokNewLine) with true. cbv iota zeta.
    eexists _, _. split; [reflexivity|]. split; [done|]. split; [done|]. cbn. by rewrite Hrd.
Qed.

(** *** An empty line *)

Lemma parse_blank rest rd : r_var rd = empty_var ->
  exists rd' f, parse (10 :: rest) rd = (rest, rd', None) /\ r_sec rd' = r_sec rd /\ r_lineNum rd' = r_lineNum rd /\
    r_var rd' = fmt_var empty_var f.
Proof. intros Hrd. eexists _, _. split; [reflexivity|]. split; [done|]. split; [done|]. cbn. by rewrite Hrd. Qed.

(** ** The whole file *)

(** The reader before a line. *)
Definition next_line (rd : reader) : reader := set_line rd (r_lineNum rd + 1).
(** The reader after a line that is a variable, a comment or empty. *)
Definition line_done (rd : reader) : reader :=
  let rd := var_line rd (r_lineNum rd) in set_var (set_sec rd (addVariable (r_sec rd) (r_var rd))) empty_var.

Definition variable_of (v : variable) (n : Z) (f : text) : variable :=
  Var lineModeValue n f [] [] (key v) (text_ToLower (key v)) (value v) [] (isQuoted v).

Lemma key_ok_ascii k : key_ok k -> is_ascii k.
Proof.
  intros (c & k' & -> & Hc & Hk). constructor; [apply IsAlpha_range in Hc; lia|].
  eapply Forall_impl; [exact Hk|]. intros b Hb. apply key_byte_range in Hb. lia.
Qed.

Lemma writable_value v : writable_var v -> value v ≠ [].
Proof.
  intros (_ & _ & _ & _ & Hv). destruct (isQuoted v); [tauto|]. destruct Hv as (_ & (b & Hb & _) & _). by destruct (value v).
Qed.

Lemma addVariable_value sec v n f : value v ≠ [] ->
  addVariable sec (Var lineModeValue n f [] [] (key v) [] (value v) [] (isQuoted v)) = set_vars sec (vars sec ++ [variable_of v n f]).
Proof.
  intros Hv. unfold addVariable. change (isLineModeVar _) with true. cbv iota. unfold set_value, set_keyLower, or_true, variable_of. cbn.
  by destruct (value v) eqn:E.
Qed.

Lemma Parse_variable v rest fuel rd i : writable_var v -> r_var rd = empty_var -> mode (r_sec rd) ≠ lineModeEmpty ->
  exists rd' n f, Parse_loop (S fuel) (variable_String v ++ rest) rd i = Parse_loop fuel rest rd' i /\ r_var rd' = empty_var /\
    r_sec rd' = set_vars (r_sec rd) (vars (r_sec rd) ++ [variable_of v n f]).
Proof.
  intros Hv Hrd Hsec. cbn [Parse_loop]. cbv zeta.
  destruct (parse_var v rest (set_line rd (r_lineNum rd + 1)) Hv Hrd) as (rd' & f & -> & Hs & Hn & Hvar).
  assert (Hm : v_mode (r_var (var_line rd' (r_lineNum rd'))) = lineModeValue) by (cbn; by rewrite Hvar).
  rewrite Hm. assert (He : (mode (r_sec (var_line rd' (r_lineNum rd'))) =? lineModeEmpty) = false).
  { apply Z.eqb_neq. cbn. by rewrite Hs. }
  rewrite He, andb_false_r. change (Z.land lineModeValue lineModeSection =? lineModeSection) with false.
  change (Z.land lineModeValue lineModeSubsection =? lineModeSubsection) with false. cbn [orb].
  eexists _, (r_lineNum rd'), f. split; [reflexivity|]. split; [done|]. cbn [r_sec set_var set_sec].
  rewrite <- addVariable_value by (by apply writable_value). cbn. by rewrite Hs, Hvar.
Qed.

Lemma variable_String_length v : v_mode v = lineModeValue -> v_format v = [] -> (0 < length (variable_String v))%nat.
Proof. intros Hm Hf. rewrite variable_String_writable by done. rewrite length_app. cbn. lia. Qed.

(** A variable that was read, and a line that is not one. *)
Definition read_as (v' v : variable) : Prop := isLineModeVar (v_mode v') = true /\ wf_var v' /\ kv v' = kv v.
Definition no_var (v : variable) : Prop := isLineModeVar (v_mode v) = false /\ wf_var v.

Lemma read_as_variable_of v n f : writable_var v -> read_as (variable_of v n f) v.
Proof.
  intros (_ & _ & Hk & Hl & _). split; [done|]. split; [|unfold kv; cbn; by rewrite Hl].
  split; [done|]. cbn. by apply text_ToLower_lower, key_ok_ascii.
Qed.

Lemma Parse_variables rest vs : forall fuel rd i, Forall writable_var vs -> r_var rd = empty_var ->
  mode (r_sec rd) ≠ lineModeEmpty -> (length (concat (variable_String <$> vs) ++ rest) < fuel)%nat ->
  exists fuel' rd' vs', Parse_loop fuel (concat (variable_String <$> vs) ++ rest) rd i = Parse_loop fuel' rest rd' i /\
    (length rest < fuel')%nat /\ r_var rd' = empty_var /\
    r_sec rd' = set_vars (r_sec rd) (vars (r_sec rd) ++ vs') /\ Forall2 read_as vs' vs.
Proof.
  induction vs as [|v vs IH]; intros fuel rd i Hvs Hrd Hsec Hf.
  { exists fuel, rd, []. split; [done|]. split; [done|]. split; [done|]. split; [|constructor]. rewrite app_nil_r. by destruct (r_sec rd). }
  apply Forall_cons in Hvs as [Hv Hvs]. rewrite fmap_cons in Hf |- *. cbn [concat] in Hf |- *. rewrite <- (assoc_L (++)) in Hf |- *.
  destruct fuel as [|fuel]; [lia|].
  destruct (Parse_variable v (concat (variable_String <$> vs) ++ rest) fuel rd i Hv Hrd Hsec) as (rd1 & n & f & -> & Hrd1 & Hs1).
  pose proof (variable_String_length v ltac:(apply Hv) ltac:(apply Hv)) as Hlen. rewrite length_app in Hf.
  destruct (IH fuel rd1 i Hvs Hrd1) as (fuel' & rd' & vs' & -> & Hf' & Hrd' & Hs' & Hall); [by rewrite Hs1|lia|].
  exists fuel', rd', (variable_of v n f :: vs'). split; [done|]. split; [done|]. split; [done|].
  split; [by rewrite Hs', Hs1; cbn; rewrite <- (assoc_L (++))|]. constructor; [by apply read_as_variable_of|done].
Qed.

Lemma Parse_blank rest fuel rd i : r_var rd = empty_var ->
  exists rd' w, Parse_loop (S fuel) (10 :: rest) rd i = Parse_loop fuel rest rd' i /\ r_var rd' = empty_var /\
    r_sec rd' = set_vars (r_sec rd) (vars (r_sec rd) ++ [w]) /\ no_var w.
Proof.
  intros Hrd. cbn [Parse_loop]. cbv zeta.
  destruct (parse_blank rest (set_line rd (r_lineNum rd + 1)) Hrd) as (rd' & f & -> & Hs & Hn & Hvar).
  assert (Hm : v_mode (r_var (var_line rd' (r_lineNum rd'))) = lineModeEmpty) by (cbn; by rewrite Hvar).
  rewrite Hm. change (isLineModeVar lineModeEmpty) with false. cbn [andb].
  change (Z.land lineModeEmpty lineModeSection =? lineModeSection) with false.
  change (Z.land lineModeEmpty lineModeSubsection =? lineModeSubsection) with false. cbn [orb].
  eexists _, (Var lineModeEmpty (r_lineNum rd') f [] [] [] [] [] [] false). split; [reflexivity|]. split; [done|].
  split; [cbn; by rewrite Hs, Hvar|done].
Qed.

(** The section that is kept when the next one starts. *)
Definition closed (sec : section) : section :=
  Sec (mode sec) (lineNum sec) (name sec) (sub sec) (format sec) (text_ToLower (name sec)) (others sec) (vars sec).
Definition closable (sec : section) : Prop := mode sec = lineModeEmpty \/ name sec ≠ [].

Lemma add_section_closed hs sec : closable sec ->
  add_section (hs, seq 0 (length hs)) sec = (hs ++ [closed sec], seq 0 (length (hs ++ [closed sec]))).
Proof.
  intros Hc. unfold add_section, addSection. cbn [fst snd]. rewrite length_app, Nat.add_1_r, seq_S.
  assert (negb (mode sec =? lineModeEmpty) && bool_decide (name sec = []) = false) as ->; [|done].
  destruct Hc as [Hm|Hn]; [by rewrite Hm|]. by rewrite bool_decide_false, andb_false_r.
Qed.

Lemma Parse_header sec rest fuel rd hs : writable_header sec -> r_var rd = empty_var -> closable (r_sec rd) ->
  exists rd', Parse_loop (S fuel) (section_String sec ++ rest) rd (hs, seq 0 (length hs))
      = Parse_loop fuel rest rd' (hs ++ [closed (r_sec rd)], seq 0 (length (hs ++ [closed (r_sec rd)]))) /\
    r_var rd' = empty_var /\ mode (r_sec rd') = mode sec /\ name (r_sec rd') = name sec /\ sub (r_sec rd') = sub sec /\
    vars (r_sec rd') = [].
Proof.
  intros Hsec Hrd Hc. cbn [Parse_loop]. cbv zeta.
  destruct (parse_header sec rest (set_line rd (r_lineNum rd + 1)) Hsec Hrd) as (rd' & f & -> & Hs & Hn & Hvar).
  assert (Hm : v_mode (r_var (var_line rd' (r_lineNum rd'))) = mode sec) by (cbn; by rewrite Hvar). rewrite Hm.
  assert (Hbits : isLineModeVar (mode sec) = false /\ (Z.land (mode sec) lineModeSection =? lineModeSection) = true).
  { destruct Hsec as (_ & _ & _ & [[-> _]|[-> _]]); by vm_compute. }
  destruct Hbits as [-> ->]. cbn [andb orb]. cbn [r_sec var_line set_var]. rewrite Hs. cbn [r_sec set_line].
  rewrite add_section_closed by done. eexists. split; [reflexivity|]. split; [done|]. cbn. by rewrite Hvar.
Qed.

(** A section that was read for one that was written: the same variables and, at
    the end, lines that are none. *)
Definition read_vars (vs' vs : list variable) : Prop :=
  exists vs1 bl, vs' = vs1 ++ bl /\ Forall2 read_as vs1 vs /\ Forall no_var bl.
Definition read_section (sec' sec : section) : Prop :=
  mode sec' = mode sec /\ nameLower sec' = nameLower sec /\ sub sec' = sub sec /\ read_vars (vars sec') (vars sec).

Definition writable (sec : section) : Prop := writable_header sec /\ Forall writable_var (vars sec).

Definition write_section (ew : bool) (sec : section) : text :=
  (if ew then [10] else []) ++ section_String sec ++ concat (variable_String <$> vars sec).

Lemma section_String_length sec : writable_header sec -> (0 < length (section_String sec))%nat.
Proof. intros Hsec. destruct (section_String_writable sec Hsec) as [[_ ->]|[_ ->]]; cbn; lia. Qed.

Lemma Parse_section sec ew rest fuel rd hs : writable sec -> r_var rd = empty_var -> closable (r_sec rd) ->
  (length (write_section ew sec ++ rest) < fuel)%nat ->
  exists fuel' rd' bl, Parse_loop fuel (write_section ew sec ++ rest) rd (hs, seq 0 (length hs))
      = Parse_loop fuel' rest rd' (let hs' := hs ++ [closed (set_vars (r_sec rd) (vars (r_sec rd) ++ bl))] in (hs', seq 0 (length hs'))) /\
    Forall no_var bl /\ (length rest < fuel')%nat /\ r_var rd' = empty_var /\ name (r_sec rd') = name sec /\
    mode (r_sec rd') = mode sec /\ sub (r_sec rd') = sub sec /\ Forall2 read_as (vars (r_sec rd')) (vars sec).
Proof.
  intros [Hh Hvs] Hrd Hc Hf. unfold write_section in *. pose proof (section_String_length sec Hh) as Hlen.
  assert (Hblank : exists fuel1 rd1 bl,
    Parse_loop fuel (((if ew then [10] else []) ++ section_String sec ++ concat (variable_String <$> vars sec)) ++ rest) rd (hs, seq 0 (length hs))
    = Parse_loop fuel1 (section_String sec ++ concat (variable_String <$> vars sec) ++ rest) rd1 (hs, seq 0 (length hs)) /\
    (length (section_String sec ++ concat (variable_String <$> vars sec) ++ rest) < fuel1)%nat /\ r_var rd1 = empty_var /\
    r_sec rd1 = set_vars (r_sec rd) (vars (r_sec rd) ++ bl) /\ Forall no_var bl).
  { rewrite <- !(assoc_L (++)) in Hf |- *. destruct ew; cbn [app] in Hf |- *.
    - destruct fuel as [|fuel]; [cbn in Hf; lia|]. 
      destruct (Parse_blank (section_String sec ++ concat (variable_String <$> vars sec) ++ rest) fuel rd (hs, seq 0 (length hs)) Hrd)
        as (rd1 & w & -> & Hrd1 & Hs1 & Hw).
      exists fuel, rd1, [w]. split; [done|]. split; [cbn [length] in Hf; lia|]. split; [done|]. split; [done|]. constructor; [done|constructor].
    - exists fuel, rd, []. split; [done|]. split; [done|]. split; [done|]. split; [|constructor]. rewrite app_nil_r. by destruct (r_sec rd). }
  destruct Hblank as (fuel1 & rd1 & bl & -> & Hf1 & Hrd1 & Hs1 & Hbl).
  destruct fuel1 as [|fuel1]; [lia|].
  destruct (Parse_header sec (concat (variable_String <$> vars sec) ++ rest) fuel1 rd1 hs Hh Hrd1) as (rd2 & -> & Hrd2 & Hm2 & Hn2 & Hsub2 & Hv2);
    [rewrite Hs1; exact Hc|]. rewrite Hs1.
  assert (Hne : mode sec ≠ lineModeEmpty) by (destruct Hh as (_ & _ & _ & [[-> _]|[-> _]]); done).
  match goal with |- context [Parse_loop fuel1 _ rd2 ?j] =>
    destruct (Parse_variables rest (vars sec) fuel1 rd2 j Hvs Hrd2) as (fuel' & rd' & vs' & -> & Hf' & Hrd' & Hs' & Hall) end;
    [by rewrite Hm2|rewrite length_app in Hf1; lia|].
  exists fuel', rd', bl. rewrite Hs', Hv2. by split_and!.
Qed.

Lemma Parse_loop_end fuel rd hs : (0 < fuel)%nat -> r_var rd = empty_var -> closable (r_sec rd) ->
  Parse_loop fuel [] rd (hs, seq 0 (length hs)) = Ok (hs ++ [closed (r_sec rd)], seq 0 (length (hs ++ [closed (r_sec rd)]))).
Proof.
  intros Hf Hrd Hc. destruct fuel as [|fuel]; [lia|]. cbn [Parse_loop parse parse_loop]. cbv zeta.
  cbn [r_var set_format set_line r_sec]. rewrite Hrd. change (v_mode empty_var =? lineModeEmpty) with true. cbv iota.
  by rewrite add_section_closed.
Qed.

Lemma Parse_sections h secs : forall ew v fuel rd hs, Forall (fun a => writable (h !!! a)) secs -> r_var rd = empty_var ->
  closable (r_sec rd) -> (length (Write_loop h secs ew v) < fuel)%nat ->
  exists bl hs', Parse_loop fuel (Write_loop h secs ew v) rd (hs, seq 0 (length hs))
      = Ok (let i := hs ++ closed (set_vars (r_sec rd) (vars (r_sec rd) ++ bl)) :: hs' in (i, seq 0 (length i))) /\
    Forall no_var bl /\ Forall2 read_section hs' ((fun a => h !!! a) <$> secs).
Proof.
  induction secs as [|a secs IH]; intros ew v fuel rd hs Hw Hrd Hc Hf.
  { exists [], []. split; [|split; constructor]. cbn [Write_loop] in *. rewrite Parse_loop_end by done.
    rewrite app_nil_r. by destruct (r_sec rd). }
  apply Forall_cons in Hw as [Ha Hw]. cbn [Write_loop] in *. set (w := match last _ with Some _ => _ | None => v end) in *.
  set (ew' := match w with Some _ => _ | None => false end) in *.
  rewrite (assoc_L (++) (section_String _)), (assoc_L (++) (if ew then _ else _)) in Hf |- *.
  fold (write_section ew (h !!! a)) in Hf |- *.
  destruct (Parse_section (h !!! a) ew (Write_loop h secs ew' w) fuel rd hs Ha Hrd Hc Hf)
    as (fuel' & rd' & bl & -> & Hbl & Hf' & Hrd' & Hn' & Hm' & Hsub' & Hv').
  cbv zeta. set (hs1 := hs ++ [closed (set_vars (r_sec rd) (vars (r_sec rd) ++ bl))]). destruct (IH ew' w fuel' rd' hs1 Hw Hrd') as (bl' & hs' & -> & Hbl' & Hall); [|done|].
  { right. rewrite Hn'. destruct Ha as [(_ & (c & n & -> & _) & _) _]. done. }
  exists bl, (closed (set_vars (r_sec rd') (vars (r_sec rd') ++ bl')) :: hs'). split; [|split; [done|]].
  - unfold hs1. by rewrite <- (assoc_L (++)).
  - constructor; [|done]. split; [done|]. split; [|split; [done|]].
    + cbn. rewrite Hn'. symmetry. apply Ha.
    + exists (vars (r_sec rd')), bl'. done.
Qed.

(** *** Lookups in what was read *)

Definition with_key (k : text) (es : list (text * text)) : list (text * text) := filter (fun e => e.1 = k) es.

Lemma read_vars_key vs' vs k : read_vars vs' vs -> k ≠ [] -> with_key k (kv <$> vs') = with_key k (kv <$> vs).
Proof.
  intros (vs1 & bl & -> & Hall & Hbl) Hk. unfold with_key. rewrite fmap_app, filter_app.
  assert (kv <$> vs1 = kv <$> vs) as ->.
  { induction Hall as [|v' v vs1 vs (_ & _ & Hv) _ IH]; [done|]. rewrite !fmap_cons. congruence. }
  assert (filter (fun e : text * text => e.1 = k) (kv <$> bl) = []) as ->; [|by rewrite app_nil_r].
  induction Hbl as [|v bl [Hm Hv] _ IH]; [done|]. rewrite fmap_cons, filter_cons_False; [done|].
  unfold wf_var in Hv. rewrite Hm in Hv. destruct Hv as [_ Hv]. cbn. congruence.
Qed.

Definition sec_entries (s b : text) (sec : section) : list (text * text) := if named sec s b then kv <$> vars sec else [].

Lemma entries_all hs (h : store) s b : entries (hs ++ h) (seq (length hs) (length h)) s b = concat (sec_entries s b <$> h).
Proof.
  revert hs. induction h as [|sec h IH]; intros hs; [done|]. cbn [length seq]. rewrite entries_cons, list_lookup_total_middle by done.
  rewrite fmap_cons. cbn [concat]. f_equal. specialize (IH (hs ++ [sec])). rewrite length_app, Nat.add_1_r, <- (assoc_L (++)) in IH.
  apply IH.
Qed.

Lemma read_sections_key s b k secs' secs : Forall2 read_section secs' secs -> k ≠ [] ->
  with_key k (concat (sec_entries s b <$> secs')) = with_key k (concat (sec_entries s b <$> secs)).
Proof.
  intros Hall Hk. induction Hall as [|sec' sec secs' secs (_ & Hn & Hs & Hv) _ IH]; [done|].
  rewrite !fmap_cons. cbn [concat]. unfold with_key in *. rewrite !filter_app, IH. f_equal. unfold sec_entries.
  assert (named sec' s b = named sec s b) as -> by (unfold named; by rewrite Hn, Hs).
  destruct (named sec s b); [|done]. by apply read_vars_key.
Qed.

Lemma section_gets_key sec key : key ≠ [] ->
  (section_gets sec key []).1 = snd <$> with_key (text_ToLower key) (kv <$> vars sec).
Proof.
  intros Hk. unfold section_gets. destruct key as [|c key]; [done|]. generalize (text_ToLower (c :: key)) as k. intros k.
  assert (Hf : value <$> filter (fun v => keyLower v = k) (vars sec) = snd <$> with_key k (kv <$> vars sec)).
  { unfold with_key. induction (vars sec) as [|v vs IH]; [done|]. rewrite fmap_cons, !filter_cons. cbn [fst kv].
    case_decide; [|done]. rewrite !fmap_cons, IH. done. }
  destruct (vars sec) as [|v vs] eqn:E; [done|]. rewrite <- Hf. by destruct (value <$> _).
Qed.

Lemma section_gets_ok sec key : (section_gets sec key []).2 = false -> (section_gets sec key []).1 = [].
Proof. unfold section_gets. by repeat case_match. Qed.

Lemma Gets_key h secs s b key : Forall (fun a => nameLower (h !!! a) ≠ [] -> Z.land (mode (h !!! a)) lineModeSection ≠ 0) secs ->
  text_ToLower s ≠ [] -> key ≠ [] ->
  Gets h secs s b key = snd <$> with_key (text_ToLower key) (entries h secs (text_ToLower s) b).
Proof.
  intros Hm Hs Hk. unfold Gets. induction Hm as [|a secs Ha _ IH]; [done|]. cbn [Gets_loop]. rewrite entries_cons.
  unfold with_key in *. rewrite filter_app, fmap_app, <- IH. destruct (named (h !!! a) (text_ToLower s) b) eqn:En.
  - apply named_eq in En as [En _]. rewrite (proj2 (Z.eqb_neq _ _)) by (apply Ha; congruence). cbn [negb].
    fold (with_key (text_ToLower key) (kv <$> vars (h !!! a))). rewrite <- section_gets_key by done.
    destruct (section_gets (h !!! a) key []) as [vals ok] eqn:Eg. destruct ok; [done|].
    pose proof (section_gets_ok (h !!! a) key) as Ho. rewrite Eg in Ho. cbn in Ho |- *. by rewrite Ho.
  - cbn [negb]. by destruct (_ =? 0).
Qed.

Lemma writable_mode sec : writable_header sec -> Z.land (mode sec) lineModeSection ≠ 0.
Proof. by intros (_ & _ & _ & [[-> _]|[-> _]]). Qed.

(** C38: the text of sections that are [writable] is parsed without error, and every
    variable has in what was read the value, and the values, that it has in what was
    written, where section and key are looked up under non-empty ASCII names. The
    sections and their variables have no format of their own; the name of a section
    starts with a letter and goes on with letters, digits, hyphens and dots; a
    subsection has no quotation mark and no reverse solidus; a key starts with a letter
    and goes on with those characters and underscores; a value in quotes is of ASCII and
    not empty; and one without quotes is not empty, has no blank at its ends, and no
    reverse solidus, quotation mark, number sign, semicolon and line feed. [Add] and
    [Set] do not check the names: what they write with other ones can be refused, see
    [names_not_checked]. *)
Theorem Parse_Write h secs : Forall (fun a => writable (h !!! a)) secs ->
  exists h' secs', Parse (Write h secs) = Ok (h', secs') /\
    forall s b k def, is_ascii s -> s ≠ [] -> is_ascii k -> k ≠ [] ->
      Ini_Get h' secs' s b k def = Ini_Get h secs s b k def /\ Gets h' secs' s b k = Gets h secs s b k.
Proof.
  intros Hw. unfold Write, Parse.
  destruct (Parse_sections h secs false None (S (length (Write_loop h secs false None))) reset [] Hw) as (bl & hs' & Hp & Hbl & Hall);
    [done|by left|lia|].
  cbn [app] in Hp. set (first := closed _) in Hp. exists (first :: hs'), (seq 0 (length (first :: hs'))). split; [exact Hp|].
  intros s b k def Hsa Hs Hka Hk. pose proof (lower_nonempty s Hsa Hs) as Hsl. pose proof (lower_nonempty k Hka Hk) as Hkl.
  assert (Hkey : with_key (text_ToLower k) (entries (first :: hs') (seq 0 (length (first :: hs'))) (text_ToLower s) b)
    = with_key (text_ToLower k) (entries h secs (text_ToLower s) b)).
  { rewrite (entries_all [] (first :: hs')), fmap_cons. cbn [concat].
    assert (sec_entries (text_ToLower s) b first = []) as ->.
    { unfold sec_entries. destruct (named first _ b) eqn:En; [|done]. apply named_eq in En as [En _]. done. }
    cbn [app]. rewrite (read_sections_key _ _ _ _ _ Hall Hkl). unfold entries. by rewrite <- list_fmap_compose. }
  split.
  - rewrite !Ini_Get_last by done. unfold last_val. unfold with_key in Hkey. by rewrite Hkey.
  - rewrite !Gets_key; [by rewrite Hkey|eapply Forall_impl; [exact Hw|]; intros a [Ha _] _; by apply writable_mode|done|done| |done|done].
    apply Forall_forall. intros a Ha. apply elem_of_seq in Ha. destruct a as [|a]; [done|]. intros _.
    change ((first :: hs') !!! S a) with (hs' !!! a). cbn [length] in Ha.
    destruct (lookup_lt_is_Some_2 hs' a) as [sec' Hsec']; [lia|]. rewrite (list_lookup_total_correct _ _ _ Hsec').
    destruct (Forall2_lookup_l _ _ _ _ _ Hall Hsec') as (sec & Hsec & (-> & _)).
    apply list_lookup_fmap_Some in Hsec as (a' & -> & Ha'). apply writable_mode. by eapply Forall_lookup_1 in Hw as [? _].
Qed.
End Parser.

(** A section with a subsection and a value in quotes, and one with a plain value. *)
Definition demo_written : store :=
  let var k v q := Var lineModeValue 0 [] [] [] (str k) (text_ToLower (H := ascii_tables) (str k)) (str v) [] q in
  [Sec 6 0 (str "Core") (str "My Sub") [] (str "core") [] [var "Path" "a # b" true];
   Sec 2 0 (str "user") [] [] (str "user") [] [var "name" "a b" false]]%string.

Ltac text_ok := repeat (apply Forall_cons; split; [repeat first [done | split | left; reflexivity | left]|]); apply Forall_nil; exact I.

Lemma demo_written_ok : Forall (fun a => writable (H := ascii_tables) (demo_written !!! a)) [0; 1]%nat.
Proof.
  repeat (apply Forall_cons; split); [split|split|by apply Forall_nil].
  - split; [done|]. split; [exists 67, (str "ore"); split; [done|]; split; [done|text_ok]|]. split; [done|].
    right. split; [done|]. split; [done|text_ok].
  - apply Forall_cons; split; [|by apply Forall_nil]. split; [done|]. split; [done|].
    split; [exists 80, (str "ath"); split; [done|]; split; [done|text_ok]|]. split; [done|].
    cbv iota. split; [|done]. text_ok.
  - split; [done|]. split; [exists 117, (str "ser"); split; [done|]; split; [done|text_ok]|]. split; [done|]. by left.
  - apply Forall_cons; split; [|by apply Forall_nil]. split; [done|]. split; [done|].
    split; [exists 110, (str "ame"); split; [done|]; split; [done|text_ok]|]. split; [done|].
    split; [text_ok|]. split; by eexists.
Qed.

Lemma Parse_Write_witness : exists h' secs', Parse (H := ascii_tables) (Write demo_written [0; 1]%nat) = Ok (h', secs') /\
  Ini_Get (H := ascii_tables) h' secs' (str "CORE") (str "My Sub") (str "path") [] = (str "a # b", true).
Proof.
  destruct (Parse_Write (H := ascii_tables) demo_written [0; 1]%nat demo_written_ok) as (h' & secs' & Hp & Hget).
  exists h', secs'. split; [done|].
  rewrite (proj1 (Hget (str "CORE") (str "My Sub") (str "path") [] ltac:(by repeat constructor) ltac:(done) ltac:(by repeat constructor) ltac:(done))).
  by vm_compute.
Defined.

(** ** What is lost *)

Section Lost.
Context `{Unicode}.

(** A section header that ends the file without a newline is kept as a line of
    the section before it, and is not written back. *)
Theorem trailing_header_lost n : name_ok n -> exists h secs, Parse (91 :: n ++ [93]) = Ok (h, secs) /\ Write h secs = [] /\
  forall s b, s ≠ [] -> getSection h secs s b = None.
Proof.
  intros (c & n' & -> & Hc & Hn). unfold Parse. cbn [Parse_loop app]. cbv zeta.
  destruct (parse_bracket c n' 93 [] (set_line reset (r_lineNum reset + 1)) Hc Hn) as [fuel ->]. cbn [header_loop].
  rewrite DecodeRune_ascii by lia. cbn [drop]. change ((93 =? tokSpace) || (93 =? tokTab)) with false.
  change (93 =? tokSecEnd) with true. cbv iota zeta. cbn [parsePossibleComment]. eexists _, _. split; [reflexivity|].
  split; [reflexivity|]. intros s b Hs. done.
Qed.

(** A key with a blank, a key that starts with a digit and such a name of a section can be
    added, and what is written then is not parsed. *)
Example names_not_checked : Forall (fun '(sec, key) => exists h secs e,
    Ini_Add [] [] sec [] key (str "v") = (h, secs, true) /\ Ini_Get h secs sec [] key [] = (str "v", true) /\ Parse (Write h secs) = Err e)
  [(str "a", str "a b"); (str "a", str "1k"); (str "1x", str "k")].
Proof. repeat constructor; eexists _, _, _; (split; [vm_compute; reflexivity|]); split; by vm_compute. Qed.

(** A new value for a key that has none in the file is not written. *)
Theorem bare_key_set_lost v : exists h secs h' secs', let file := str "[a]" ++ 10 :: str "k" ++ [10] in
  Parse file = Ok (h, secs) /\ Ini_Set h secs (str "a") [] (str "k") v = (h', secs', true) /\
  Ini_Get h' secs' (str "a") [] (str "k") [] = (or_true v, true) /\ Write h' secs' = file.
Proof. eexists _, _, _, _. cbv zeta. split; [vm_compute; reflexivity|]. split; [vm_compute; reflexivity|]. by vm_compute. Qed.

(** [Subs] merges the sections of one name into the first of them, which is one
    of the sections of the [Ini]: a value is there twice afterwards. *)
Theorem Subs_changes_sections : exists h secs,
  let header := str "[a " ++ 34 :: str "b" ++ [34; 93; 10] in
  let file := header ++ str "k=1" ++ 10 :: header ++ str "k=2" ++ [10] in
  Parse file = Ok (h, secs) /\ Gets h secs (str "a") (str "b") (str "k") = [str "1"; str "2"] /\
  Gets (Subs h secs (str "a")).1 secs (str "a") (str "b") (str "k") = [str "1"; str "2"; str "2"].
Proof. eexists _, _. cbv zeta. split; [vm_compute; reflexivity|]. by vm_compute. Qed.

(** The value that [Vars] gives is the last one that was not there before. *)
Theorem Vars_not_last : exists h secs,
  let file := str "[a]" ++ 10 :: str "k=1" ++ 10 :: str "k=2" ++ 10 :: str "k=1" ++ [10] in
  Parse file = Ok (h, secs) /\ Ini_Get h secs (str "a") [] (str "k") [] = (str "1", true) /\
  Vars h secs (str "a") !! str "a::k" = Some (str "2").
Proof. eexists _, _. cbv zeta. split; [vm_compute; reflexivity|]. by vm_compute. Qed.
End Lost.
