(* ===== verification/DnsHeader.v ===== *)
(** Package [lib/dns], files [sectionheader.go], [sectionquestion.go] and the
    setters of [message.go] that rewrite a packed header in place. *)

From Stdlib Require Import ZArith Lia.
From S2P Require Import Prelude Ascii Bytes.

Local Open Scope Z_scope.

Definition headerIsQuery : Z := 0.
Definition headerIsResponse : Z := 128.
Definition headerIsAA : Z := 4.
Definition headerIsTC : Z := 2.
Definition headerIsRD : Z := 1.
Definition headerIsRA : Z := 128.

Definition OpCodeQuery : Z := 0.
Definition OpCodeIQuery : Z := 1.
Definition OpCodeStatus : Z := 2.

Definition RCodeOK : Z := 0.

Definition sectionHeaderSize : nat := 12.

(** [Op] and [RCode] are bytes. *)
Record SectionHeader := mkHeader {
  hID : Z;
  IsQuery : bool;
  Op : Z;
  IsAA : bool;
  IsTC : bool;
  IsRD : bool;
  IsRA : bool;
  RCode : Z;
  QDCount : Z;
  ANCount : Z;
  NSCount : Z;
  ARCount : Z
}.

#[export] Instance SectionHeader_eq_dec : EqDecision SectionHeader.
Proof. solve_decision. Defined.

(** [SectionHeader.Reset]. *)
Definition header_Reset : SectionHeader :=
  mkHeader 0 true OpCodeQuery false false true false RCodeOK 0 0 0 0.

Definition bit_if (b : bool) (v : Z) : Z := if b then v else 0.

(** The third and the fourth byte of [SectionHeader.pack]. *)
Definition pack_b0 (hdr : SectionHeader) : Z :=
  let b0 := if IsQuery hdr then headerIsQuery else headerIsResponse in
  let b0 := Z.lor b0 (Z.land 120 (u8 (Z.shiftl (Op hdr) 2))) in
  let b0 := if IsRD hdr then Z.lor b0 headerIsRD else b0 in
  if IsQuery hdr then b0
  else
    let b0 := if IsAA hdr then Z.lor b0 headerIsAA else b0 in
    if IsTC hdr then Z.lor b0 headerIsTC else b0.

Definition pack_b1 (hdr : SectionHeader) : Z :=
  if IsQuery hdr then 0
  else Z.lor (if IsRA hdr then headerIsRA else 0) (Z.land 15 (RCode hdr)).

(** [SectionHeader.pack]. *)
Definition header_pack (hdr : SectionHeader) : list Z :=
  let packet := [u8 (Z.shiftr (hID hdr) 8); u8 (hID hdr); pack_b0 hdr; pack_b1 hdr] in
  AppendUint16 (AppendUint16 (AppendUint16 (AppendUint16 packet
    (QDCount hdr)) (ANCount hdr)) (NSCount hdr)) (ARCount hdr).

(** [SectionHeader.unpack], into a header that may hold other values. *)
Definition header_unpack {E} (hdr : SectionHeader) (packet : list Z) : outcome E SectionHeader :=
  id ← ReadUint16 packet 0;
  b2 ← get_at packet 2;
  b3 ← get_at packet 3;
  qd ← ReadUint16 packet 4;
  an ← ReadUint16 packet 6;
  ns ← ReadUint16 packet 8;
  ar ← ReadUint16 packet 10;
  Ok (mkHeader id
    (if Z.land b2 headerIsResponse =? headerIsResponse then false else IsQuery hdr)
    (Z.shiftr (Z.land b2 120) 2)
    (if Z.land b2 headerIsAA =? headerIsAA then true else IsAA hdr)
    (if Z.land b2 headerIsTC =? headerIsTC then true else IsTC hdr)
    (Z.land b2 headerIsRD =? headerIsRD)
    (if Z.land b3 headerIsRA =? headerIsRA then true else IsRA hdr)
    (Z.land 15 b3) qd an ns ar).

(** ** Question *)

Record SectionQuestion := mkQuestion { qName : list Z; qType : Z; qClass : Z }.

#[export] Instance SectionQuestion_eq_dec : EqDecision SectionQuestion.
Proof. solve_decision. Defined.

Definition QueryTypeA : Z := 1.
Definition QueryClassIN : Z := 1.

(** [SectionQuestion.Reset] and [SectionQuestion.size]. *)
Definition question_Reset : SectionQuestion := mkQuestion [] QueryTypeA QueryClassIN.
Definition question_size (q : SectionQuestion) : nat := length (qName q) + 6.

(** The error of an invalid question: the question and the packet are left as
    far as they were filled and lowered. *)
Definition q_error : Type := list Z * list Z.

(** [if packet[x] >= 'A' && packet[x] <= 'Z' { packet[x] += 32 }], and the byte
    appended to the name. *)
Definition lower_at {E} (packet : list Z) (x : nat) : outcome E (Z * list Z) :=
  b ← get_at packet x;
  if (65 <=? b) && (b <=? 90) then Ok (b + 32, <[x := b + 32]> packet) else Ok (b, packet).

(** The bytes of one label. *)
Fixpoint question_label (count : nat) (name packet : list Z) (x : nat)
    : outcome q_error (list Z * list Z * nat) :=
  match count with
  | O => Ok (name, packet, x)
  | S count =>
      bp ← lower_at packet x;
      let '(b, packet) := bp in
      let name := name ++ [b] in
      let x := S x in
      if decide (length packet <= x)%nat then Err (name, packet)
      else question_label count name packet x
  end.

(** The labels, the first length byte being [count]: the name and the index
    past it. *)
Fixpoint question_labels (fuel : nat) (count : Z) (name packet : list Z) (x : nat)
    : outcome q_error (list Z * list Z * nat) :=
  match fuel with
  | O => NoFuel
  | S fuel =>
      if count =? 0 then
        let name := name ++ [46] in
        count ← get_at packet x;
        let x := S x in
        if decide (length packet <= x)%nat then Err (name, packet)
        else question_labels fuel count name packet x
      else
        lab ← question_label (Z.to_nat count) name packet x;
        let '(name, packet, x) := lab in
        count ← get_at packet x;
        let x := S x in
        if count =? 0 then Ok (name, packet, x)
        else if decide (length packet <= x)%nat then Err (name, packet)
        else question_labels fuel count (name ++ [46]) packet x
  end.

(** [SectionQuestion.unpack]: the question and the lowered packet. *)
Definition question_unpack (q : SectionQuestion) (packet : list Z)
    : outcome q_error (SectionQuestion * list Z) :=
  match packet with
  | [] => Ok (q, packet)
  | count :: _ =>
      nx ← question_labels (length packet) count (qName q) packet 1;
      let '(name, packet, x) := nx in
      if decide (length packet < x + 4)%nat then Err (name, packet)
      else
        t ← ReadUint16 packet x;
        c ← ReadUint16 packet (x + 2)%nat;
        Ok (mkQuestion name t c, packet)
  end.

(** ** The setters on a packed header

    [msg.SetX(v)] on the pair of the header and the packet of a message. *)

Definition set_bits (packet : list Z) (i : nat) (f : Z -> Z) : list Z :=
  match packet !! i with Some b => <[i := f b]> packet | None => packet end.

Definition upd_ID (h : SectionHeader) v := mkHeader v (IsQuery h) (Op h) (IsAA h) (IsTC h) (IsRD h) (IsRA h) (RCode h) (QDCount h) (ANCount h) (NSCount h) (ARCount h).
Definition upd_IsQuery (h : SectionHeader) v := mkHeader (hID h) v (Op h) (IsAA h) (IsTC h) (IsRD h) (IsRA h) (RCode h) (QDCount h) (ANCount h) (NSCount h) (ARCount h).
Definition upd_IsAA (h : SectionHeader) v := mkHeader (hID h) (IsQuery h) (Op h) v (IsTC h) (IsRD h) (IsRA h) (RCode h) (QDCount h) (ANCount h) (NSCount h) (ARCount h).
Definition upd_IsRD (h : SectionHeader) v := mkHeader (hID h) (IsQuery h) (Op h) (IsAA h) (IsTC h) v (IsRA h) (RCode h) (QDCount h) (ANCount h) (NSCount h) (ARCount h).
Definition upd_RCode (h : SectionHeader) v := mkHeader (hID h) (IsQuery h) (Op h) (IsAA h) (IsTC h) (IsRD h) (IsRA h) v (QDCount h) (ANCount h) (NSCount h) (ARCount h).

Definition hdr_packet : Type := SectionHeader * list Z.

(** [Message.SetID]. *)
Definition SetID (m : hdr_packet) (id : Z) : hdr_packet :=
  (upd_ID m.1 id,
   if decide (2 < length m.2)%nat
   then <[1%nat := u8 id]> (<[0%nat := u8 (Z.shiftr id 8)]> m.2) else m.2).

(** [Message.SetAuthorativeAnswer]. *)
Definition SetAuthorativeAnswer (m : hdr_packet) (isAA : bool) : hdr_packet :=
  (upd_IsAA m.1 isAA,
   if decide (2 < length m.2)%nat
   then set_bits m.2 2 (fun b => if isAA then Z.lor b headerIsAA else Z.land b 251) else m.2).

(** [Message.SetQuery]. *)
Definition SetQuery (m : hdr_packet) (isQuery : bool) : hdr_packet :=
  (upd_IsQuery m.1 isQuery,
   if decide (3 < length m.2)%nat
   then
     if isQuery then set_bits (set_bits m.2 2 (fun b => Z.land b 113)) 3 (fun b => Z.land b 127)
     else set_bits m.2 2 (fun b => Z.lor b headerIsResponse)
   else m.2).

(** [Message.SetRecursionDesired]. *)
Definition SetRecursionDesired (m : hdr_packet) (isRD : bool) : hdr_packet :=
  (upd_IsRD m.1 isRD,
   if decide (2 < length m.2)%nat
   then set_bits m.2 2 (fun b => if isRD then Z.lor b headerIsRD else Z.land b 254) else m.2).

(** [Message.SetResponseCode]. *)
Definition SetResponseCode (m : hdr_packet) (code : Z) : hdr_packet :=
  (upd_RCode m.1 code,
   if decide (3 < length m.2)%nat
   then set_bits m.2 3 (fun b => if code =? RCodeOK then Z.land b 240 else Z.lor b (Z.land 15 code))
   else m.2).

(** ** Facts on the header *)

(** What the wire format can hold of a header: the opcode is packed one bit too
    low, so that only even values are kept, and a query has no response flags. *)
Record packable (hdr : SectionHeader) : Prop := {
  pk_ID : is_u16 (hID hdr);
  pk_Op : Op hdr ∈ [0; 2; 4; 6; 8; 10; 12; 14; 16; 18; 20; 22; 24; 26; 28; 30];
  pk_RCode : 0 <= RCode hdr <= 15;
  pk_QD : is_u16 (QDCount hdr);
  pk_AN : is_u16 (ANCount hdr);
  pk_NS : is_u16 (NSCount hdr);
  pk_AR : is_u16 (ARCount hdr);
  pk_query : IsQuery hdr = true ->
    IsAA hdr = false /\ IsTC hdr = false /\ IsRA hdr = false /\ RCode hdr = 0
}.

(** A header that a message starts from. *)
Definition fresh (hdr : SectionHeader) : Prop :=
  IsQuery hdr = true /\ IsAA hdr = false /\ IsTC hdr = false /\ IsRA hdr = false.

Lemma header_pack_bytes hdr : header_pack hdr =
  [u8 (Z.shiftr (hID hdr) 8); u8 (hID hdr); pack_b0 hdr; pack_b1 hdr;
   u8 (Z.shiftr (QDCount hdr) 8); u8 (QDCount hdr); u8 (Z.shiftr (ANCount hdr) 8); u8 (ANCount hdr);
   u8 (Z.shiftr (NSCount hdr) 8); u8 (NSCount hdr); u8 (Z.shiftr (ARCount hdr) 8); u8 (ARCount hdr)].
Proof. reflexivity. Qed.

Lemma length_header_pack hdr : length (header_pack hdr) = sectionHeaderSize.
Proof. reflexivity. Qed.

Lemma ReadUint16_pair {E} pre v rest x : is_u16 v -> x = length pre ->
  ReadUint16 (E := E) (pre ++ u8 (Z.shiftr v 8) :: u8 v :: rest) x = Ok v.
Proof.
  intros Hv ->. rewrite <- (ReadUint16_Append (E := E) pre v rest Hv). f_equal.
  unfold AppendUint16. by rewrite <- !(assoc_L (++)).
Qed.

(** The flags of the two middle bytes, read back. *)
Lemma flags_back hdr : packable hdr ->
  (Z.land (pack_b0 hdr) headerIsResponse =? headerIsResponse) = negb (IsQuery hdr) /\
  Z.shiftr (Z.land (pack_b0 hdr) 120) 2 = Op hdr /\
  (Z.land (pack_b0 hdr) headerIsAA =? headerIsAA) = IsAA hdr /\
  (Z.land (pack_b0 hdr) headerIsTC =? headerIsTC) = IsTC hdr /\
  (Z.land (pack_b0 hdr) headerIsRD =? headerIsRD) = IsRD hdr /\
  (Z.land (pack_b1 hdr) headerIsRA =? headerIsRA) = IsRA hdr /\
  Z.land 15 (pack_b1 hdr) = RCode hdr.
Proof.
  intros [_ Hop Hrc _ _ _ _ Hq]. destruct hdr as [id q op aa tc rd ra rc qd an ns ar].
  unfold pack_b0, pack_b1. cbn [IsQuery Op IsAA IsTC IsRD IsRA RCode hID] in *.
  assert (Hrc' : rc ∈ [0;1;2;3;4;5;6;7;8;9;10;11;12;13;14;15]) by (rewrite !elem_of_cons; lia).
  clear Hrc. destruct q.
  - destruct (Hq eq_refl) as (-> & -> & -> & ->). clear Hq Hrc'.
    revert op Hop. apply Forall_forall. destruct rd; repeat constructor.
  - clear Hq. revert rc Hrc'. apply Forall_forall. revert op Hop. apply Forall_forall.
    destruct aa, tc, rd, ra; repeat constructor.
Qed.

Lemma header_unpack_packed {E} hdr0 hdr rest : packable hdr -> fresh hdr0 ->
  header_unpack (E := E) hdr0 (header_pack hdr ++ rest) = Ok hdr.
Proof.
  intros Hp (Hq & Ha & Ht & Hr). destruct (flags_back hdr Hp) as (F1 & F2 & F3 & F4 & F5 & F6 & F7).
  destruct Hp as [Hid _ _ Hqd Han Hns Har _]. unfold header_unpack. rewrite header_pack_bytes.
  cbn [app]. set (P := u8 _ :: _).
  assert (R0 : ReadUint16 (E := E) P 0 = Ok (hID hdr)) by exact (ReadUint16_pair [] _ _ 0 Hid eq_refl).
  assert (R4 : ReadUint16 (E := E) P 4 = Ok (QDCount hdr)) by exact (ReadUint16_pair [_; _; _; _] _ _ 4 Hqd eq_refl).
  assert (R6 : ReadUint16 (E := E) P 6 = Ok (ANCount hdr))
    by exact (ReadUint16_pair [_; _; _; _; _; _] _ _ 6 Han eq_refl).
  assert (R8 : ReadUint16 (E := E) P 8 = Ok (NSCount hdr))
    by exact (ReadUint16_pair [_; _; _; _; _; _; _; _] _ _ 8 Hns eq_refl).
  assert (R10 : ReadUint16 (E := E) P 10 = Ok (ARCount hdr))
    by exact (ReadUint16_pair [_; _; _; _; _; _; _; _; _; _] _ _ 10 Har eq_refl).
  assert (R2 : get_at (E := E) P 2 = Ok (pack_b0 hdr)) by reflexivity.
  assert (R3 : get_at (E := E) P 3 = Ok (pack_b1 hdr)) by reflexivity.
  rewrite R0, R2, R3, R4, R6, R8, R10. cbn [mbind outcome_bind].
  rewrite F1, F2, F3, F4, F5, F6, F7, Hq, Ha, Ht, Hr.
  destruct hdr as [id q op aa tc rd ra rc qd an ns ar]. cbn. by destruct q, aa, tc, ra.
Qed.

(** A header that the wire format can hold is unpacked, into a fresh
    header, to what was packed, whatever follows it. *)
Theorem header_roundtrip {E} hdr0 hdr rest : packable hdr -> fresh hdr0 ->
  header_unpack (E := E) hdr0 (header_pack hdr ++ rest) = Ok hdr.
Proof. apply header_unpack_packed. Qed.

Definition demo_header : SectionHeader :=
  mkHeader 513 false 2 true false true true 3 1 2 0 65535.

Lemma demo_packable : packable demo_header.
Proof. split; first [discriminate | apply (bool_decide_unpack _); vm_compute; exact I]. Qed.

Lemma header_roundtrip_witness :
  header_unpack (E := unit) header_Reset (header_pack demo_header ++ [7]) = Ok demo_header.
Proof. apply header_roundtrip; [apply demo_packable | repeat split]. Defined.

(** The four opcode bits of the wire format hold half of the opcode: an
    inverse query is sent as a standard query and a status request as an
    inverse query. *)
Theorem pack_opcode_halved hdr : is_byte (Op hdr) ->
  Z.land (Z.shiftr (pack_b0 hdr) 3) 15 = Z.land (Op hdr / 2) 15.
Proof.
  destruct hdr as [id q op aa tc rd ra rc qd an ns ar]. unfold pack_b0.
  cbn [IsQuery Op IsAA IsTC IsRD IsRA RCode]. intros Hop.
  destruct q, aa, tc, rd; by_bytes op Hop.
Qed.

Lemma pack_opcode_halved_witness :
  Z.land (Z.shiftr (pack_b0 (upd_IsQuery header_Reset true)) 3) 15 = 0 /\
  Z.land (Z.shiftr (pack_b0 (mkHeader 0 true OpCodeStatus false false true false 0 0 0 0 0)) 3) 15 = OpCodeIQuery.
Proof.
  split; rewrite pack_opcode_halved by (apply (bool_decide_unpack _); vm_compute; exact I); reflexivity.
Defined.

(** ** Facts on the setters *)

Lemma set_bits_pack hdr rest f g i :
  (header_pack hdr ++ rest) !! i = Some g ->
  set_bits (header_pack hdr ++ rest) i f = <[i := f g]> (header_pack hdr ++ rest).
Proof. unfold set_bits. by intros ->. Qed.

Lemma packed_lt hdr rest : (3 < length (header_pack hdr ++ rest))%nat.
Proof. rewrite length_app, length_header_pack. unfold sectionHeaderSize. lia. Qed.

(** Rewriting a field of a packed message in place gives what packing the
    changed header gives: for the identifier and recursion-desired always, for
    marking a query as a response, and, on a response, for the authoritative
    flag and for a response code that replaces OK or is OK. *)
Theorem setters_agree hdr rest v b : packable hdr ->
  let m := (hdr, header_pack hdr ++ rest) in
  let agree (m' : hdr_packet) := m'.2 = header_pack m'.1 ++ rest in
  agree (SetID m v) /\ agree (SetRecursionDesired m b) /\ agree (SetQuery m false) /\
  (IsQuery hdr = false ->
    agree (SetAuthorativeAnswer m b) /\
    (0 <= v <= 15 -> RCode hdr = 0 \/ v = 0 -> agree (SetResponseCode m v))).
Proof.
  intros Hp m agree. pose proof (packed_lt hdr rest) as Hlt.
  assert (Hlt2 : (2 < length (header_pack hdr ++ rest))%nat) by lia.
  unfold agree, SetID, SetRecursionDesired, SetQuery, SetAuthorativeAnswer, SetResponseCode.
  subst m. cbn [fst snd]. rewrite !decide_True by done.
  rewrite !(set_bits_pack hdr rest _ (pack_b0 hdr) 2) by done.
  rewrite !(set_bits_pack hdr rest _ (pack_b1 hdr) 3) by done.
  rewrite !header_pack_bytes. cbn [app insert list_insert].
  clear Hlt Hlt2.
  destruct Hp as [_ Hop Hrc _ _ _ _ Hq]. destruct hdr as [id q op aa tc rd ra rc qd an ns ar].
  unfold pack_b0, pack_b1. cbn [upd_ID upd_IsQuery upd_IsAA upd_IsRD upd_RCode
    hID IsQuery Op IsAA IsTC IsRD IsRA RCode QDCount ANCount NSCount ARCount] in *.
  split_and!.
  - done.
  - repeat f_equal. revert op Hop. apply Forall_forall. destruct q, aa, tc, rd, b; repeat constructor.
  - repeat f_equal; destruct q.
    + destruct (Hq eq_refl) as (-> & -> & -> & ->). revert op Hop. apply Forall_forall.
      destruct rd; repeat constructor.
    + revert op Hop. apply Forall_forall. destruct aa, tc, rd; repeat constructor.
    + by destruct (Hq eq_refl) as (-> & -> & -> & ->).
    + done.
  - intros ->. clear Hq. split.
    + repeat f_equal. revert op Hop. apply Forall_forall. destruct aa, tc, rd, b; repeat constructor.
    + intros Hv Hz. repeat f_equal.
      assert (Hrc' : forall z, 0 <= z <= 15 -> z ∈ [0;1;2;3;4;5;6;7;8;9;10;11;12;13;14;15])
        by (intros z Hz'; rewrite !elem_of_cons; lia).
      destruct Hz as [-> | ->].
      * apply Hrc' in Hv. revert v Hv. apply Forall_forall. destruct ra; repeat constructor.
      * apply Hrc' in Hrc. revert rc Hrc. apply Forall_forall. destruct ra; repeat constructor.
Qed.

Lemma setters_agree_witness :
  (SetAuthorativeAnswer (demo_header, header_pack demo_header ++ [9]) false).2
  = header_pack (upd_IsAA demo_header false) ++ [9].
Proof. apply (proj1 (proj2 (proj2 (proj2 (setters_agree demo_header [9] 0 false demo_packable))) eq_refl)). Defined.

(** Two setters lose what they do not name.  Marking a packed response as a
    query clears the lowest opcode bit that packing uses, and a response code
    set over another one is read back as the bitwise or of both. *)
Theorem setters_diverge {E} hdr rest code : packable hdr -> IsQuery hdr = false -> 0 < code <= 15 ->
  (h ← header_unpack (E := E) header_Reset (SetQuery (hdr, header_pack hdr ++ rest) true).2; Ok (Op h))
    = Ok (Z.land (Op hdr) 28) /\
  (h ← header_unpack (E := E) header_Reset (SetResponseCode (hdr, header_pack hdr ++ rest) code).2; Ok (RCode h))
    = Ok (Z.lor (RCode hdr) code).
Proof.
  intros Hp Hr Hc. pose proof (packed_lt hdr rest) as Hlt.
  unfold SetQuery, SetResponseCode. cbn [fst snd]. rewrite !decide_True by done.
  rewrite !(set_bits_pack hdr rest _ (pack_b0 hdr) 2) by done.
  rewrite !(set_bits_pack hdr rest _ (pack_b1 hdr) 3) by done.
  rewrite !header_pack_bytes. cbn [app insert list_insert set_bits lookup list_lookup].
  clear Hlt. destruct Hp as [_ Hop Hrc _ _ _ _ _]. destruct hdr as [id q op aa tc rd ra rc qd an ns ar].
  cbn [IsQuery RCode Op] in *. subst q. split.
  - unfold header_unpack, ReadUint16, get_at. cbn [lookup list_lookup Nat.add mbind outcome_bind Op].
    f_equal. unfold pack_b0. cbn [IsQuery Op IsAA IsTC IsRD].
    revert op Hop. apply Forall_forall. destruct aa, tc, rd; repeat constructor.
  - unfold header_unpack, ReadUint16, get_at. cbn [lookup list_lookup Nat.add mbind outcome_bind RCode].
    f_equal. unfold pack_b1. cbn [IsQuery IsRA RCode]. rewrite (proj2 (Z.eqb_neq code RCodeOK)) by (unfold RCodeOK; lia).
    assert (Hin : forall z, 0 <= z <= 15 -> z ∈ [0;1;2;3;4;5;6;7;8;9;10;11;12;13;14;15])
      by (intros z Hz'; rewrite !elem_of_cons; lia).
    assert (Hc' : code ∈ [0;1;2;3;4;5;6;7;8;9;10;11;12;13;14;15]) by (apply Hin; lia).
    apply Hin in Hrc. clear Hc Hin. revert rc Hrc. apply Forall_forall. revert code Hc'. apply Forall_forall.
    destruct ra; repeat constructor.
Qed.

Lemma setters_diverge_witness :
  (h ← header_unpack (E := unit) header_Reset (SetQuery (demo_header, header_pack demo_header ++ []) true).2; Ok (Op h))
    = Ok OpCodeQuery.
Proof.
  exact (proj1 (setters_diverge (E := unit) demo_header [] 1 demo_packable eq_refl ltac:(lia))).
Defined.

(** ** Facts on questions *)

Lemma lower_at_Ok {E} packet x : (x < length packet)%nat ->
  exists b p, lower_at (E := E) packet x = Ok (b, p) /\ length p = length packet.
Proof.
  intros Hx. destruct (lookup_lt_is_Some_2 packet x Hx) as [b Hb]. unfold lower_at.
  rewrite (get_at_Some _ _ _ Hb). cbn [mbind outcome_bind]. destruct (_ && _); [|eauto].
  eexists _, _. split; [done|]. apply length_insert.
Qed.

(** The loop over a label ends in an error or with the index in the packet. *)
Lemma question_label_ok count : forall name packet x, (x < length packet)%nat ->
  match question_label count name packet x with
  | Ok (_, p, x') => length p = length packet /\ (x <= x' < length packet)%nat
  | Err _ => True
  | Panic | NoFuel => False
  end.
Proof.
  induction count as [|count IH]; intros name packet x Hx; cbn [question_label]; [lia|].
  destruct (lower_at_Ok (E := list Z * list Z) packet x Hx) as (b & p & -> & Hp). cbn [mbind outcome_bind].
  case_decide as Hle; [done|].
  specialize (IH (name ++ [b]) p (S x) ltac:(lia)).
  destruct (question_label count _ p (S x)) as [[[n p'] x']|e| |]; try done. lia.
Qed.

Lemma question_labels_ok fuel : forall count name packet x,
  (x < length packet)%nat -> (length packet <= fuel + x)%nat ->
  match question_labels fuel count name packet x with
  | Ok (_, p, x') => length p = length packet /\ (x' <= length packet)%nat
  | Err _ => True
  | Panic | NoFuel => False
  end.
Proof.
  induction fuel as [|fuel IH]; intros count name packet x Hx Hf; [lia|]. cbn [question_labels].
  destruct (count =? 0).
  { destruct (lookup_lt_is_Some_2 packet x Hx) as [b Hb]. rewrite (get_at_Some _ _ _ Hb).
    cbn [mbind outcome_bind]. case_decide; [done|]. apply IH; lia. }
  pose proof (question_label_ok (Z.to_nat count) name packet x Hx) as Hlab.
  destruct (question_label _ _ _ _) as [[[n p] x1]|e| |]; try done. cbn [mbind outcome_bind].
  destruct Hlab as [Hp Hx1]. destruct (lookup_lt_is_Some_2 p x1) as [b Hb]; [lia|].
  rewrite (get_at_Some _ _ _ Hb). cbn [mbind outcome_bind].
  destruct (b =? 0); [lia|]. case_decide; [done|].
  specialize (IH b (n ++ [46]) p (S x1) ltac:(lia) ltac:(lia)).
  by destruct (question_labels fuel b _ p (S x1)) as [[[n' p'] x']|e| |]; [rewrite <- Hp|..].
Qed.

(** Unpacking a question from the bytes after the header panics exactly
    when there is a single byte, so that any message of thirteen bytes does;
    its loops always end. *)
Theorem question_unpack_panics_iff q packet :
  (question_unpack q packet = Panic <-> length packet = 1%nat) /\ question_unpack q packet ≠ NoFuel.
Proof.
  destruct packet as [|count [|b packet]]; [done| |].
  - assert (Hp : question_unpack q [count] = Panic); [|by rewrite Hp].
    unfold question_unpack. cbn [length question_labels]. destruct (count =? 0); [done|].
    by destruct (Z.to_nat count).
  - unfold question_unpack. set (p := count :: b :: packet).
    pose proof (question_labels_ok (length p) count (qName q) p 1 ltac:(simpl; lia) ltac:(lia)) as Hl.
    destruct (question_labels _ _ _ _ _) as [[[n p'] x]|e| |]; try done. cbn [mbind outcome_bind].
    destruct Hl as [Hp Hx]. case_decide as H4; [done|].
    assert (Hread : forall y, (y + 2 <= length p')%nat -> exists v, ReadUint16 (E := list Z * list Z) p' y = Ok v).
    { intros y Hy. unfold ReadUint16.
      destruct (lookup_lt_is_Some_2 p' y) as [c0 H0]; [lia|].
      destruct (lookup_lt_is_Some_2 p' (y + 1)) as [c1 H1]; [lia|].
      rewrite (get_at_Some _ _ _ H0). cbn [mbind outcome_bind]. rewrite (get_at_Some _ _ _ H1). eauto. }
    destruct (Hread x) as [t ->]; [lia|]. cbn [mbind outcome_bind].
    destruct (Hread (x + 2)%nat) as [c ->]; [lia|]. done.
Qed.
