(* ===== verification/DnsMessage.v ===== *)
(** Package [lib/dns], file [message.go] (packing) with the records of
    [resourcerecord.go] and [rdata*.go].

    Packing appends to [Packet] and keeps in [off], a 16-bit counter, the place
    where the next length byte is to be written; the two are separate in the
    code and here. *)

From Stdlib Require Import ZArith Lia.
From S2P Require Import Prelude Ascii Bytes NetIP DnsHeader.

Local Open Scope Z_scope.

Definition maskPointer : Z := 192.
Definition maskOffset : Z := 63.
Definition maskOPTDO : Z := 32768.
Definition maxLabelSize : Z := 63.
Definition maxUDPPacketSize : nat := 4096.
Definition rdataIPv4Size : nat := 4.
Definition rdataIPv6Size : nat := 16.

(** Query types. *)
Definition QueryTypeNS : Z := 2.
Definition QueryTypeMD : Z := 3.
Definition QueryTypeMF : Z := 4.
Definition QueryTypeCNAME : Z := 5.
Definition QueryTypeSOA : Z := 6.
Definition QueryTypeMB : Z := 7.
Definition QueryTypeMG : Z := 8.
Definition QueryTypeMR : Z := 9.
Definition QueryTypeNULL : Z := 10.
Definition QueryTypeWKS : Z := 11.
Definition QueryTypePTR : Z := 12.
Definition QueryTypeHINFO : Z := 13.
Definition QueryTypeMINFO : Z := 14.
Definition QueryTypeMX : Z := 15.
Definition QueryTypeTXT : Z := 16.
Definition QueryTypeAAAA : Z := 28.
Definition QueryTypeSRV : Z := 33.
Definition QueryTypeOPT : Z := 41.

(** ** Resource records *)

Record RDataSOA := mkSOA {
  MName : list Z; RName : list Z; Serial : Z; Refresh : Z; SOARetry : Z; Expire : Z; Minimum : Z
}.
Record RDataWKS := mkWKS { Address : list Z; Protocol : Z; BitMap : list Z }.
Record RDataHINFO := mkHINFO { CPU : list Z; OS : list Z }.
Record RDataMINFO := mkMINFO { RMailBox : list Z; EmailBox : list Z }.
Record RDataMX := mkMX { Preference : Z; Exchange : list Z }.
Record RDataOPT := mkOPT {
  ExtRCode : Z; Version : Z; DO : bool; OptCode : Z; OptLength : Z; OptData : list Z
}.
Record RDataSRV := mkSRV {
  Service : list Z; Proto : list Z; SrvName : list Z; Priority : Z; Weight : Z; Port : Z; Target : list Z
}.

(** The pointers to the typed data are options: dereferencing [None] panics. *)
Record ResourceRecord := mkRR {
  rrName : list Z;
  rrType : Z;
  rrClass : Z;
  TTL : Z;
  rdlen : Z;
  rdata : list Z;
  Text : option (list Z);
  SOA : option RDataSOA;
  WKS : option RDataWKS;
  HInfo : option RDataHINFO;
  MInfo : option RDataMINFO;
  MX : option RDataMX;
  OPT : option RDataOPT;
  SRV : option RDataSRV;
  rrOff : nat;
  offTTL : nat
}.

#[export] Instance RDataSOA_eq_dec : EqDecision RDataSOA. Proof. solve_decision. Defined.
#[export] Instance RDataWKS_eq_dec : EqDecision RDataWKS. Proof. solve_decision. Defined.
#[export] Instance RDataHINFO_eq_dec : EqDecision RDataHINFO. Proof. solve_decision. Defined.
#[export] Instance RDataMINFO_eq_dec : EqDecision RDataMINFO. Proof. solve_decision. Defined.
#[export] Instance RDataMX_eq_dec : EqDecision RDataMX. Proof. solve_decision. Defined.
#[export] Instance RDataOPT_eq_dec : EqDecision RDataOPT. Proof. solve_decision. Defined.
#[export] Instance RDataSRV_eq_dec : EqDecision RDataSRV. Proof. solve_decision. Defined.
#[export] Instance ResourceRecord_eq_dec : EqDecision ResourceRecord. Proof. solve_decision. Defined.

(** [ResourceRecord] as made by [NewResourceRecord]. *)
Definition NewResourceRecord : ResourceRecord :=
  mkRR [] 0 0 0 0 [] (Some []) None None None None None None None 0 0.

Definition rr_Name (r : ResourceRecord) v := mkRR v (rrType r) (rrClass r) (TTL r) (rdlen r) (rdata r) (Text r) (SOA r) (WKS r) (HInfo r) (MInfo r) (MX r) (OPT r) (SRV r) (rrOff r) (offTTL r).
Definition rr_TTL (r : ResourceRecord) v := mkRR (rrName r) (rrType r) (rrClass r) v (rdlen r) (rdata r) (Text r) (SOA r) (WKS r) (HInfo r) (MInfo r) (MX r) (OPT r) (SRV r) (rrOff r) (offTTL r).
Definition rr_Text (r : ResourceRecord) v := mkRR (rrName r) (rrType r) (rrClass r) (TTL r) (rdlen r) (rdata r) v (SOA r) (WKS r) (HInfo r) (MInfo r) (MX r) (OPT r) (SRV r) (rrOff r) (offTTL r).
Definition rr_SOA (r : ResourceRecord) v := mkRR (rrName r) (rrType r) (rrClass r) (TTL r) (rdlen r) (rdata r) (Text r) v (WKS r) (HInfo r) (MInfo r) (MX r) (OPT r) (SRV r) (rrOff r) (offTTL r).
Definition rr_WKS (r : ResourceRecord) v := mkRR (rrName r) (rrType r) (rrClass r) (TTL r) (rdlen r) (rdata r) (Text r) (SOA r) v (HInfo r) (MInfo r) (MX r) (OPT r) (SRV r) (rrOff r) (offTTL r).
Definition rr_HInfo (r : ResourceRecord) v := mkRR (rrName r) (rrType r) (rrClass r) (TTL r) (rdlen r) (rdata r) (Text r) (SOA r) (WKS r) v (MInfo r) (MX r) (OPT r) (SRV r) (rrOff r) (offTTL r).
Definition rr_MInfo (r : ResourceRecord) v := mkRR (rrName r) (rrType r) (rrClass r) (TTL r) (rdlen r) (rdata r) (Text r) (SOA r) (WKS r) (HInfo r) v (MX r) (OPT r) (SRV r) (rrOff r) (offTTL r).
Definition rr_MX (r : ResourceRecord) v := mkRR (rrName r) (rrType r) (rrClass r) (TTL r) (rdlen r) (rdata r) (Text r) (SOA r) (WKS r) (HInfo r) (MInfo r) v (OPT r) (SRV r) (rrOff r) (offTTL r).
Definition rr_OPT (r : ResourceRecord) v := mkRR (rrName r) (rrType r) (rrClass r) (TTL r) (rdlen r) (rdata r) (Text r) (SOA r) (WKS r) (HInfo r) (MInfo r) (MX r) v (SRV r) (rrOff r) (offTTL r).
Definition rr_SRV (r : ResourceRecord) v := mkRR (rrName r) (rrType r) (rrClass r) (TTL r) (rdlen r) (rdata r) (Text r) (SOA r) (WKS r) (HInfo r) (MInfo r) (MX r) (OPT r) v (rrOff r) (offTTL r).
Definition rr_off (r : ResourceRecord) v := mkRR (rrName r) (rrType r) (rrClass r) (TTL r) (rdlen r) (rdata r) (Text r) (SOA r) (WKS r) (HInfo r) (MInfo r) (MX r) (OPT r) (SRV r) v (offTTL r).
Definition rr_offTTL (r : ResourceRecord) v := mkRR (rrName r) (rrType r) (rrClass r) (TTL r) (rdlen r) (rdata r) (Text r) (SOA r) (WKS r) (HInfo r) (MInfo r) (MX r) (OPT r) (SRV r) (rrOff r) v.

(** [ResourceRecord.RData]. *)
Inductive rdata_value : Type :=
| RText (v : option (list Z)) | RSOA (v : option RDataSOA) | RWKS (v : option RDataWKS)
| RHINFO (v : option RDataHINFO) | RMINFO (v : option RDataMINFO) | RMX (v : option RDataMX)
| RSRV (v : option RDataSRV) | ROPT (v : option RDataOPT) | RNil.

Definition RData (rr : ResourceRecord) : rdata_value :=
  let t := rrType rr in
  if t =? QueryTypeA then RText (Text rr)
  else if t =? QueryTypeNS then RText (Text rr)
  else if t =? QueryTypeMD then RNil
  else if t =? QueryTypeMF then RNil
  else if t =? QueryTypeCNAME then RText (Text rr)
  else if t =? QueryTypeSOA then RSOA (SOA rr)
  else if t =? QueryTypeMB then RText (Text rr)
  else if t =? QueryTypeMG then RText (Text rr)
  else if t =? QueryTypeMR then RText (Text rr)
  else if t =? QueryTypeNULL then RText (Text rr)
  else if t =? QueryTypeWKS then RWKS (WKS rr)
  else if t =? QueryTypePTR then RText (Text rr)
  else if t =? QueryTypeHINFO then RHINFO (HInfo rr)
  else if t =? QueryTypeMINFO then RMINFO (MInfo rr)
  else if t =? QueryTypeMX then RMX (MX rr)
  else if t =? QueryTypeTXT then RText (Text rr)
  else if t =? QueryTypeAAAA then RText (Text rr)
  else if t =? QueryTypeSRV then RSRV (SRV rr)
  else if t =? QueryTypeOPT then ROPT (OPT rr)
  else RNil.

(** ** Messages *)

(** A nil [dnameOff] is the empty map: packing allocates a new one first. *)
Record Message := mkMessage {
  Header : SectionHeader;
  Question : SectionQuestion;
  Answer : list ResourceRecord;
  Authority : list ResourceRecord;
  Additional : list ResourceRecord;
  Packet : list Z
}.

(** [NewMessage]. *)
Definition NewMessage : Message :=
  mkMessage (mkHeader 0 true 0 false false true false 0 1 0 0 0) (mkQuestion [] QueryTypeA QueryClassIN)
    [] [] [] [].

Definition set_Packet (m : Message) v := mkMessage (Header m) (Question m) (Answer m) (Authority m) (Additional m) v.
Definition set_sections (m : Message) a b c := mkMessage (Header m) (Question m) a b c (Packet m).

(** [Message.Reset] and [Message.ResetRR]. *)
Definition ResetRR (m : Message) : Message := set_sections m [] [] [].
Definition message_Reset (m : Message) : Message :=
  mkMessage header_Reset question_Reset [] [] [] (replicate maxUDPPacketSize 0).

(** [Message.FilterAnswers]. *)
Fixpoint FilterAnswers_loop (t : Z) (rrs : list ResourceRecord) : list ResourceRecord :=
  match rrs with
  | [] => []
  | rr :: rrs => if rrType rr =? t then rr :: FilterAnswers_loop t rrs else FilterAnswers_loop t rrs
  end.
Definition FilterAnswers (m : Message) (t : Z) : list ResourceRecord := FilterAnswers_loop t (Answer m).

(** [Message.IsExpired]. *)
Fixpoint any_expired (rrs : list ResourceRecord) : bool :=
  match rrs with
  | [] => false
  | rr :: rrs => if TTL rr =? 0 then true else any_expired rrs
  end.
Definition IsExpired (m : Message) : bool :=
  if any_expired (Answer m) then true
  else if decide (0 < length (Answer m))%nat then false
  else any_expired (Authority m).

(** [Message.SubTTL]: one section; records of type OPT are left alone in the
    additional section only. *)
Fixpoint subTTL_section {E} (n : Z) (skipOPT : bool) (rrs : list ResourceRecord) (packet : list Z)
    : outcome E (list ResourceRecord * list Z) :=
  match rrs with
  | [] => Ok ([], packet)
  | rr :: rrs =>
      if skipOPT && (rrType rr =? QueryTypeOPT) then
        rest ← subTTL_section n skipOPT rrs packet; Ok (rr :: rest.1, rest.2)
      else
        let rr := rr_TTL rr (if TTL rr <? n then 0 else u32 (TTL rr - n)) in
        packet ← WriteUint32 packet (offTTL rr) (TTL rr);
        rest ← subTTL_section n skipOPT rrs packet; Ok (rr :: rest.1, rest.2)
  end.

Definition SubTTL {E} (m : Message) (n : Z) : outcome E Message :=
  a ← subTTL_section n false (Answer m) (Packet m);
  b ← subTTL_section n false (Authority m) a.2;
  c ← subTTL_section n true (Additional m) b.2;
  Ok (set_Packet (set_sections m a.1 b.1 c.1) c.2).

(** ** Packing *)

Record pstate := mkP {
  pkt : list Z;
  moff : Z;
  dnameOff : gmap (list Z) Z;
  dname : list Z
}.

Definition P (A : Type) : Type := pstate -> outcome unit (A * pstate).

#[export] Instance P_ret : MRet P := fun A a s => Ok (a, s).
#[export] Instance P_bind : MBind P := fun A B f m s =>
  match m s with Ok (a, s') => f a s' | Err e => Err e | Panic => Panic | NoFuel => NoFuel end.

(** [msg.Packet = append(msg.Packet, l...)] *)
Definition emit (l : list Z) : P unit := fun s => Ok (tt, mkP (pkt s ++ l) (moff s) (dnameOff s) (dname s)).
Definition emit16 (v : Z) : P unit := fun s => Ok (tt, mkP (AppendUint16 (pkt s) v) (moff s) (dnameOff s) (dname s)).
Definition emit32 (v : Z) : P unit := fun s => Ok (tt, mkP (AppendUint32 (pkt s) v) (moff s) (dnameOff s) (dname s)).
(** [msg.off += n] *)
Definition advance (n : Z) : P unit := fun s => Ok (tt, mkP (pkt s) (u16 (moff s + n)) (dnameOff s) (dname s)).
Definition get_off : P nat := fun s => Ok (Z.to_nat (moff s), s).
(** [msg.Packet[msg.off] = count] *)
Definition write_count (count : Z) : P unit := fun s =>
  match set_at (E := unit) (pkt s) (Z.to_nat (moff s)) count with
  | Ok p => Ok (tt, mkP p (moff s) (dnameOff s) (dname s))
  | _ => Panic
  end.
(** [libbytes.WriteUint16(&msg.Packet, off, v)] *)
Definition write16 (off : nat) (v : Z) : P unit := fun s =>
  match WriteUint16 (E := unit) (pkt s) off v with
  | Ok p => Ok (tt, mkP p (moff s) (dnameOff s) (dname s))
  | _ => Panic
  end.
Definition set_dname (d : list Z) : P unit := fun s => Ok (tt, mkP (pkt s) (moff s) (dnameOff s) d).
(** [msg.dnameOff[msg.dname] = msg.off] *)
Definition note_dname : P unit := fun s =>
  Ok (tt, mkP (pkt s) (moff s) (<[dname s := moff s]> (dnameOff s)) (dname s)).
Definition p_panic {A} : P A := fun _ => Panic.

(** [Message.compress]. *)
Definition compress : P bool := fun s =>
  match dnameOff s !! dname s with
  | Some off =>
      (emit [Z.lor maskPointer (u8 (Z.shiftr off 8))];; emit [u8 off];; advance 2;; mret true) s
  | None => Ok (false, s)
  end.

(** [strconv.Atoi] of three bytes, of which the first is a digit; 0 on error. *)
Definition Atoi3 (a b c : Z) : Z :=
  if IsDigit b && IsDigit c then (a - 48) * 100 + (b - 48) * 10 + (c - 48) else 0.

(** The loop of [packDomainName] over the rest of the name: [inl n] is an early
    return, [inr (count, n)] the end of the loop. *)
Fixpoint packName_loop (doCompress : bool) (rest : list Z) (count n : Z) : P (Z + Z * Z) :=
  match rest with
  | [] => mret (inr (count, n))
  | c :: rest =>
      if c =? 92 then
        match rest with
        | [] => mret (inl n)
        | c :: rest =>
            if IsDigit c then
              match rest with
              | c2 :: c3 :: rest =>
                  let b := u8 (Atoi3 c c2 c3) in
                  let b := if (65 <=? b) && (b <=? 90) then b + 32 else b in
                  emit [b];; packName_loop doCompress rest (u8 (count + 1)) n
              | _ => mret (inl n)
              end
            else emit [c];; packName_loop doCompress rest (u8 (count + 1)) n
        end
      else if c =? 46 then
        if count =? 0 then packName_loop doCompress rest count n
        else
          write_count count;;
          set_dname rest;;
          advance (u8 (count + 1));;
          let n := n + u8 (count + 1) in
          ok ← (if doCompress then compress else mret false);
          match ok with
          | true => mret (inl (n + 2))
          | false =>
              emit [0];;
              note_dname;;
              match rest with
              | [] => mret (inl n)
              | _ => packName_loop doCompress rest 0 n
              end
          end
      else emit [c];; packName_loop doCompress rest (u8 (count + 1)) n
  end.

(** [Message.packDomainName]: the caller's slice is lowered in place, so the
    lowered name is returned with the size. *)
Definition packDomainName (name : list Z) (doCompress : bool) : P (Z * list Z) :=
  let name := ToLower name in
  set_dname name;;
  ok ← (if doCompress then compress else mret false);
  match ok with
  | true => mret (2, name)
  | false =>
      emit [0];;
      note_dname;;
      r ← packName_loop doCompress name 0 0;
      match r with
      | inl n => mret (n, name)
      | inr (count, n) =>
          n ← (if 0 <? count then
                 write_count count;; advance (u8 (count + 1));; mret (n + u8 (count + 1))
               else mret n);
          if decide (0 < length name)%nat then
            emit [0];; advance 1;; mret (n + 1, name)
          else mret (n, name)
      end
  end.

(** [Message.packQuestion]. *)
Definition packQuestion (q : SectionQuestion) : P SectionQuestion :=
  r ← packDomainName (qName q) false;
  emit16 (qType q);; emit16 (qClass q);; advance 4;;
  mret (mkQuestion r.2 (qType q) (qClass q)).

Definition deref_opt {A} (o : option A) : P A :=
  match o with Some a => mret a | None => p_panic end.

(** [b[:n]] on a slice whose capacity is its length. *)
Definition take_exact (n : nat) (l : list Z) : P (list Z) :=
  if decide (n <= length l)%nat then mret (take n l) else p_panic.

Definition packA (rr : ResourceRecord) : P ResourceRecord :=
  emit16 (Z.of_nat rdataIPv4Size);; advance 2;;
  text ← deref_opt (Text rr);
  (match ParseIP text with
   | None => b ← take_exact rdataIPv4Size text; emit b
   | Some ip =>
       match To4 ip with
       | None => b ← take_exact rdataIPv4Size ip; emit b
       | Some ipv4 => emit ipv4
       end
   end);;
  advance (Z.of_nat rdataIPv4Size);; mret rr.

Definition packTextAsDomain (rr : ResourceRecord) : P ResourceRecord :=
  emit16 0;; off ← get_off; advance 2;;
  text ← deref_opt (Text rr);
  r ← packDomainName text true;
  write16 off (u16 r.1);; mret (rr_Text rr (Some r.2)).

Definition packSOA (rr : ResourceRecord) : P ResourceRecord :=
  emit16 0;; off ← get_off; advance 2;;
  soa ← deref_opt (SOA rr);
  r1 ← packDomainName (MName soa) true;
  r2 ← packDomainName (RName soa) true;
  let n := r1.1 + r2.1 in
  emit32 (Serial soa);; emit32 (Refresh soa);; emit32 (SOARetry soa);;
  emit32 (Expire soa);; emit32 (Minimum soa);;
  write16 off (u16 (n + 20));; advance (u16 (n + 20));;
  mret (rr_SOA rr (Some (mkSOA r1.2 r2.2 (Serial soa) (Refresh soa) (SOARetry soa) (Expire soa) (Minimum soa)))).

Definition packWKS (rr : ResourceRecord) : P ResourceRecord :=
  wks ← deref_opt (WKS rr);
  let n := u16 (5 + Z.of_nat (length (BitMap wks))) in
  emit16 n;; advance 2;;
  a ← take_exact 4 (Address wks);
  emit a;; emit [Protocol wks];; emit (BitMap wks);; advance n;; mret rr.

Definition packHINFO (rr : ResourceRecord) : P ResourceRecord :=
  h ← deref_opt (HInfo rr);
  let n := Z.of_nat (length (CPU h)) + Z.of_nat (length (OS h)) in
  emit16 (u16 n);; advance 2;; emit (CPU h);; emit (OS h);; advance (u16 n);; mret rr.

Definition packMINFO (rr : ResourceRecord) : P ResourceRecord :=
  off ← get_off; emit16 0;; advance 2;;
  m ← deref_opt (MInfo rr);
  r1 ← packDomainName (RMailBox m) true;
  r2 ← packDomainName (EmailBox m) true;
  write16 off (u16 (r1.1 + r2.1));; mret (rr_MInfo rr (Some (mkMINFO r1.2 r2.2))).

Definition packMX (rr : ResourceRecord) : P ResourceRecord :=
  off ← get_off; emit16 0;; advance 2;;
  mx ← deref_opt (MX rr);
  emit16 (Preference mx);; advance 2;;
  r ← packDomainName (Exchange mx) true;
  write16 off (u16 (r.1 + 2));; mret (rr_MX rr (Some (mkMX (Preference mx) r.2))).

Definition packTXT (rr : ResourceRecord) : P ResourceRecord :=
  text ← deref_opt (Text rr);
  let n := u16 (Z.of_nat (length text)) in
  emit16 (u16 (n + 1));; advance 2;; emit [u8 n];; emit text;; advance n;; mret rr.

Definition packSRV (rr : ResourceRecord) : P ResourceRecord :=
  off ← get_off; emit16 0;; advance 2;;
  srv ← deref_opt (SRV rr);
  emit16 (Priority srv);; advance 2;; emit16 (Weight srv);; advance 2;; emit16 (Port srv);; advance 2;;
  r ← packDomainName (Target srv) false;
  write16 off (u16 (r.1 + 6));;
  mret (rr_SRV rr (Some (mkSRV (Service srv) (Proto srv) (SrvName srv) (Priority srv) (Weight srv) (Port srv) r.2))).

Definition packAAAA (rr : ResourceRecord) : P ResourceRecord :=
  emit16 (Z.of_nat rdataIPv6Size);; advance 2;;
  text ← deref_opt (Text rr);
  (match ParseIP text with
   | None => b ← take_exact rdataIPv6Size text; emit b
   | Some ip => emit ip
   end);;
  advance (Z.of_nat rdataIPv6Size);; advance (Z.of_nat rdataIPv6Size);; mret rr.

Definition packOPT (rr : ResourceRecord) : P ResourceRecord :=
  off ← get_off; emit16 0;; advance 2;;
  opt ← deref_opt (OPT rr);
  if OptLength opt =? 0 then mret rr
  else
    emit16 (OptCode opt);;
    emit16 (if OptLength opt <? 512 then 512 else OptLength opt);;
    d ← take_exact (Z.to_nat (OptLength opt)) (OptData opt);
    emit d;;
    let n := u16 (4 + OptLength opt) in
    write16 off n;; advance n;; mret rr.

(** [Message.packRData]. *)
Definition packRData (rr : ResourceRecord) : P ResourceRecord :=
  let t := rrType rr in
  if t =? QueryTypeA then packA rr
  else if t =? QueryTypeNS then packTextAsDomain rr
  else if t =? QueryTypeMD then mret rr
  else if t =? QueryTypeMF then mret rr
  else if t =? QueryTypeCNAME then packTextAsDomain rr
  else if t =? QueryTypeSOA then packSOA rr
  else if t =? QueryTypeMB then packTextAsDomain rr
  else if t =? QueryTypeMG then packTextAsDomain rr
  else if t =? QueryTypeMR then packTextAsDomain rr
  else if t =? QueryTypeNULL then packTextAsDomain rr
  else if t =? QueryTypeWKS then packWKS rr
  else if t =? QueryTypePTR then packTextAsDomain rr
  else if t =? QueryTypeHINFO then packHINFO rr
  else if t =? QueryTypeMINFO then packMINFO rr
  else if t =? QueryTypeMX then packMX rr
  else if t =? QueryTypeTXT then packTXT rr
  else if t =? QueryTypeSRV then packSRV rr
  else if t =? QueryTypeAAAA then packAAAA rr
  else if t =? QueryTypeOPT then packOPT rr
  else mret rr.

(** The TTL of an OPT record. *)
Definition opt_TTL (opt : RDataOPT) : Z :=
  let t := Z.lor (Z.shiftl (ExtRCode opt) 24) (Z.shiftl (Version opt) 16) in
  if DO opt then Z.lor t maskOPTDO else t.

(** [Message.packRR]. *)
Definition packRR (rr : ResourceRecord) : P ResourceRecord :=
  rr ← (if rrType rr =? QueryTypeOPT then emit [0];; mret rr
        else r ← packDomainName (rrName rr) true; mret (rr_Name rr r.2));
  emit16 (rrType rr);; emit16 (rrClass rr);; advance 4;;
  rr ← (if rrType rr =? QueryTypeOPT then opt ← deref_opt (OPT rr); mret (rr_TTL rr (opt_TTL opt))
        else mret rr);
  off ← get_off;
  emit32 (TTL rr);; advance 4;;
  packRData (rr_offTTL rr off).

Fixpoint packRRs (rrs : list ResourceRecord) : P (list ResourceRecord) :=
  match rrs with
  | [] => mret []
  | rr :: rrs => rr ← packRR rr; rest ← packRRs rrs; mret (rr :: rest)
  end.

Definition len16 {A} (l : list A) : Z := u16 (Z.of_nat (length l)).

(** The header with the counts of the sections. *)
Definition counted (m : Message) : SectionHeader :=
  let h := Header m in
  mkHeader (hID h) (IsQuery h) (Op h) (IsAA h) (IsTC h) (IsRD h) (IsRA h) (RCode h) (QDCount h)
    (len16 (Answer m)) (len16 (Authority m)) (len16 (Additional m)).

(** [Message.Pack]: the packed message; its [Packet] is the result. *)
Definition pack_body (m : Message) : P Message :=
  q ← packQuestion (Question m);
  if IsQuery (Header m) then mret (mkMessage (counted m) q (Answer m) (Authority m) (Additional m) [])
  else
    a ← packRRs (Answer m); b ← packRRs (Authority m); c ← packRRs (Additional m);
    mret (mkMessage (counted m) q a b c []).

Definition Pack (m : Message) : outcome unit Message :=
  match pack_body m (mkP (header_pack (counted m)) (Z.of_nat sectionHeaderSize) ∅ []) with
  | Ok (m', s) => Ok (set_Packet m' (pkt s))
  | Err e => Err e
  | Panic => Panic
  | NoFuel => NoFuel
  end.
