(* ===== verification/DnsTTL.v ===== *)
(** Package [lib/dns]: [Message.SubTTL] and [Message.IsExpired].  The TTLs of a
    message are kept in its records and in its packet; the theorems say that
    the two stay the same. *)

From Stdlib Require Import ZArith Lia.
From S2P Require Import Prelude Bytes DnsHeader DnsMessage.

Local Open Scope Z_scope.

(** ** Writing fields of four bytes that do not overlap *)

Definition apart (x y : nat) : Prop := (x + 4 <= y \/ y + 4 <= x)%nat.

Lemma WriteUint32_Ok {E} p x v : (x + 4 <= length p)%nat ->
  exists p', WriteUint32 (E := E) p x v = Ok p' /\ length p' = length p /\
    (forall i, (i < x \/ x + 4 <= i)%nat -> p' !! i = p !! i).
Proof.
  intros Hx. unfold WriteUint32.
  rewrite set_at_Ok by lia. cbn [mbind outcome_bind].
  do 3 (rewrite set_at_Ok by (rewrite ?length_insert; lia); cbn [mbind outcome_bind]).
  eexists. split; [done|]. rewrite !length_insert. split; [done|].
  intros i Hi. rewrite !list_lookup_insert_ne by lia. done.
Qed.

Lemma WriteUint32_inv {E} p x v p' : WriteUint32 (E := E) p x v = Ok p' -> (x + 4 <= length p)%nat.
Proof.
  unfold WriteUint32, set_at. intros H. repeat (case_decide; cbn [mbind outcome_bind] in H; [rewrite ?length_insert in *|done]). lia.
Qed.

Lemma ReadUint32_ext {E} p q x : (forall i, (x <= i < x + 4)%nat -> p !! i = q !! i) ->
  ReadUint32 (E := E) p x = ReadUint32 q x.
Proof. intros H. unfold ReadUint32, get_at. by rewrite !H by lia. Qed.

Lemma ReadUint32_Write {E} p x v p' : is_u32 v -> (x + 4 <= length p)%nat ->
  WriteUint32 (E := E) p x v = Ok p' -> ReadUint32 (E := E) p' x = Ok v.
Proof.
  intros Hv Hx.
  destruct (lookup_lt_is_Some_2 p x) as [b0 H0]; [lia|].
  destruct (lookup_lt_is_Some_2 p (S x)) as [b1 H1]; [lia|].
  destruct (lookup_lt_is_Some_2 p (S (S x))) as [b2 H2]; [lia|].
  destruct (lookup_lt_is_Some_2 p (S (S (S x)))) as [b3 H3]; [lia|].
  rewrite <- (take_drop_middle p x b0 H0), (drop_S_lookup p (S x) b1 H1),
    (drop_S_lookup p (S (S x)) b2 H2), (drop_S_lookup p (S (S (S x))) b3 H3).
  assert (Hl : length (take x p) = x) by (rewrite length_take; lia).
  revert Hl. generalize (take x p) (drop (S (S (S (S x)))) p). clear -Hv. intros pre rest <-.
  rewrite WriteUint32_at. intros [= <-]. by apply ReadUint32_Append.
Qed.

(** The TTLs of a list of records, written at their places. *)
Fixpoint write_TTLs {E} (p : list Z) (rrs : list ResourceRecord) : outcome E (list Z) :=
  match rrs with
  | [] => Ok p
  | rr :: rrs => p ← WriteUint32 p (offTTL rr) (TTL rr); write_TTLs p rrs
  end.

Lemma write_TTLs_app {E} rrs1 rrs2 p :
  write_TTLs (E := E) p (rrs1 ++ rrs2) = (p ← write_TTLs p rrs1; write_TTLs p rrs2).
Proof.
  revert p. induction rrs1 as [|rr rrs1 IH]; intros p; [done|]. cbn [app write_TTLs].
  destruct (WriteUint32 p (offTTL rr) (TTL rr)); cbn [mbind outcome_bind]; [apply IH|done..].
Qed.

(** The places of the TTLs are in the packet and do not overlap. *)
Definition in_packet (p : list Z) (rr : ResourceRecord) : Prop := (offTTL rr + 4 <= length p)%nat.
Fixpoint all_apart (rrs : list ResourceRecord) : Prop :=
  match rrs with
  | [] => True
  | rr :: rrs => Forall (fun r => apart (offTTL rr) (offTTL r)) rrs /\ all_apart rrs
  end.

#[export] Instance in_packet_dec p rr : Decision (in_packet p rr).
Proof. unfold in_packet. apply _. Defined.
#[export] Instance all_apart_dec rrs : Decision (all_apart rrs).
Proof. induction rrs as [|rr rrs IH]; cbn [all_apart]; unfold apart; apply _. Defined.

Lemma write_TTLs_Ok {E} rrs : forall p, Forall (in_packet p) rrs ->
  exists p', write_TTLs (E := E) p rrs = Ok p' /\ length p' = length p /\
    (forall i, Forall (fun rr => i < offTTL rr \/ offTTL rr + 4 <= i)%nat rrs -> p' !! i = p !! i) /\
    (Forall (fun rr => is_u32 (TTL rr)) rrs -> all_apart rrs ->
      Forall (fun rr => ReadUint32 (E := E) p' (offTTL rr) = Ok (TTL rr)) rrs).
Proof.
  induction rrs as [|rr rrs IH]; intros p Hin; cbn [write_TTLs].
  { by exists p. }
  apply Forall_cons in Hin as [Hrr Hin].
  destruct (WriteUint32_Ok (E := E) p (offTTL rr) (TTL rr) Hrr) as (p1 & Hw & Hl1 & Hsame). rewrite Hw.
  cbn [mbind outcome_bind]. destruct (IH p1) as (p2 & -> & Hl2 & Hsame2 & Hread).
  { eapply Forall_impl; [exact Hin|]. intros r Hr. unfold in_packet in *. by rewrite Hl1. }
  exists p2. split; [done|]. split; [congruence|]. split.
  - intros i Hi. apply Forall_cons in Hi as [Hi1 Hi]. rewrite Hsame2 by done. by apply Hsame.
  - intros Hu [Hap Hall]. apply Forall_cons in Hu as [Hu1 Hu]. constructor; [|by apply Hread].
    rewrite <- (ReadUint32_Write (E := E) p (offTTL rr) (TTL rr) p1 Hu1 Hrr Hw). apply ReadUint32_ext.
    intros i Hi. apply Hsame2. eapply Forall_impl; [exact Hap|]. unfold apart. cbn. lia.
Qed.

(** ** [SubTTL] *)

Definition sub_TTL (n t : Z) : Z := if t <? n then 0 else u32 (t - n).

(** The record after [n] seconds; [touched] says whether it is changed. *)
Definition touched (skipOPT : bool) (rr : ResourceRecord) : bool := negb (skipOPT && (rrType rr =? QueryTypeOPT)).
Definition aged (n : Z) (skipOPT : bool) (rr : ResourceRecord) : ResourceRecord :=
  if touched skipOPT rr then rr_TTL rr (sub_TTL n (TTL rr)) else rr.

Lemma sub_TTL_max n t : is_u32 t -> 0 <= n -> sub_TTL n t = Z.max 0 (t - n) /\ is_u32 (sub_TTL n t).
Proof.
  unfold is_u32, sub_TTL, u32. intros Ht Hn. destruct (Z.ltb_spec t n); [lia|].
  rewrite Z.mod_small by lia. lia.
Qed.

Lemma touched_aged n skipOPT rr : touched skipOPT (aged n skipOPT rr) = touched skipOPT rr.
Proof. unfold aged. by destruct (touched skipOPT rr) eqn:E. Qed.

Definition keep (skipOPT : bool) (rrs : list ResourceRecord) : list ResourceRecord :=
  filter (fun rr => touched skipOPT rr = true) rrs.

Lemma subTTL_section_eq {E} n skipOPT rrs : forall p,
  subTTL_section (E := E) n skipOPT rrs p
  = (p' ← write_TTLs p (keep skipOPT (aged n skipOPT <$> rrs)); Ok (aged n skipOPT <$> rrs, p')).
Proof.
  unfold keep. induction rrs as [|rr rrs IH]; intros p; [done|]. cbn [subTTL_section fmap list_fmap].
  rewrite filter_cons. pose proof (touched_aged n skipOPT rr) as Ht. destruct (touched skipOPT rr) eqn:E1.
  - rewrite decide_True by done.
    assert (Ha : aged n skipOPT rr = rr_TTL rr (sub_TTL n (TTL rr))) by (unfold aged; by rewrite E1).
    rewrite Ha. unfold touched in E1. apply negb_true_iff in E1. rewrite E1. cbn [write_TTLs].
    change (if TTL rr <? n then 0 else u32 (TTL rr - n)) with (sub_TTL n (TTL rr)). cbn [TTL rr_TTL offTTL].
    destruct (WriteUint32 p (offTTL rr) (sub_TTL n (TTL rr))); cbn [mbind outcome_bind]; try done.
    rewrite IH. by destruct (write_TTLs _ _).
  - rewrite decide_False by (rewrite Ht; discriminate).
    assert (Ha : aged n skipOPT rr = rr) by (unfold aged; by rewrite E1).
    rewrite Ha. unfold touched in E1. apply negb_false_iff in E1. rewrite E1, IH. by destruct (write_TTLs _ _).
Qed.

(** The records that [SubTTL] changes. *)
Definition ttl_records (m : Message) : list ResourceRecord :=
  Answer m ++ Authority m ++ keep true (Additional m).
Definition aged_message (n : Z) (m : Message) (p : list Z) : Message :=
  mkMessage (Header m) (Question m) (aged n false <$> Answer m) (aged n false <$> Authority m)
    (aged n true <$> Additional m) p.

Lemma keep_all rrs : keep false rrs = rrs.
Proof.
  unfold keep. induction rrs as [|rr rrs IH]; [done|]. rewrite filter_cons, decide_True by done. by rewrite IH.
Qed.

Lemma SubTTL_eq {E} m n : SubTTL (E := E) m n
  = (p ← write_TTLs (Packet m) (ttl_records (aged_message n m [])); Ok (aged_message n m p)).
Proof.
  unfold SubTTL, ttl_records, aged_message. cbn [Answer Authority Additional].
  rewrite !subTTL_section_eq, !keep_all, !write_TTLs_app.
  destruct (write_TTLs (Packet m) _) as [p1|e| |]; cbn [mbind outcome_bind fst snd]; try done.
  rewrite subTTL_section_eq, keep_all, write_TTLs_app.
  destruct (write_TTLs p1 _) as [p2|e| |]; cbn [mbind outcome_bind fst snd]; try done.
  rewrite subTTL_section_eq. by destruct (write_TTLs p2 _).
Qed.

(** The records that are changed, as they were. *)
Lemma ttl_records_aged m n : exists f : ResourceRecord -> ResourceRecord,
  ttl_records (aged_message n m []) = f <$> ttl_records m /\
  (forall rr, offTTL (f rr) = offTTL rr) /\ (forall rr, f rr = rr_TTL rr (sub_TTL n (TTL rr))).
Proof.
  exists (fun rr => rr_TTL rr (sub_TTL n (TTL rr))). split; [|by split].
  unfold ttl_records, aged_message. cbn [Answer Authority Additional]. rewrite !fmap_app.
  apply (f_equal2 app); [done|]. apply (f_equal2 app); [done|].
  unfold keep. induction (Additional m) as [|rr rrs IH]; [done|]. cbn [fmap list_fmap].
  rewrite !filter_cons. pose proof (touched_aged n true rr) as Ht.
  destruct (touched true rr) eqn:E1.
  - rewrite !decide_True by done. cbn [fmap list_fmap]. rewrite IH. unfold aged. by rewrite E1.
  - rewrite !decide_False by (rewrite ?Ht; discriminate). exact IH.
Qed.

Lemma all_apart_fmap f rrs : (forall rr, offTTL (f rr) = offTTL rr) -> all_apart rrs -> all_apart (f <$> rrs).
Proof.
  intros Hf. induction rrs as [|rr rrs IH]; [done|]. intros [Ha Hall]. cbn [fmap list_fmap all_apart].
  split; [|by apply IH]. apply Forall_fmap. eapply Forall_impl; [exact Ha|]. intros r. cbn. by rewrite !Hf.
Qed.

Lemma SubTTL_good {E} m n :
  Forall (in_packet (Packet m)) (ttl_records m) -> all_apart (ttl_records m) ->
  Forall (fun rr => is_u32 (TTL rr)) (ttl_records m) -> 0 <= n ->
  exists p, SubTTL (E := E) m n = Ok (aged_message n m p) /\ length p = length (Packet m) /\
    (forall i, Forall (fun rr => i < offTTL rr \/ offTTL rr + 4 <= i)%nat (ttl_records m) -> p !! i = Packet m !! i) /\
    Forall (fun rr => TTL (rr_TTL rr (sub_TTL n (TTL rr))) = Z.max 0 (TTL rr - n) /\
                      ReadUint32 (E := E) p (offTTL rr) = Ok (Z.max 0 (TTL rr - n))) (ttl_records m).
Proof.
  intros Hin Hap Hu Hn. rewrite SubTTL_eq. destruct (ttl_records_aged m n) as (f & -> & Hoff & Hf).
  destruct (write_TTLs_Ok (E := E) (f <$> ttl_records m) (Packet m)) as (p & -> & Hl & Hsame & Hread).
  { apply Forall_fmap. eapply Forall_impl; [exact Hin|]. intros rr. unfold in_packet. cbn. by rewrite Hoff. }
  exists p. split; [done|]. split; [done|]. split.
  - intros i Hi. apply Hsame, Forall_fmap. eapply Forall_impl; [exact Hi|]. intros rr. cbn. by rewrite Hoff.
  - assert (Hr : Forall (fun rr => ReadUint32 (E := E) p (offTTL rr) = Ok (TTL rr)) (f <$> ttl_records m)).
    { apply Hread; [|by apply all_apart_fmap]. apply Forall_fmap. eapply Forall_impl; [exact Hu|].
      intros rr Hrr. cbn. rewrite Hf. by apply sub_TTL_max. }
    rewrite Forall_fmap in Hr. rewrite Forall_forall in Hr. rewrite Forall_forall in Hu. apply Forall_forall.
    intros rr Hrr. specialize (Hr rr Hrr). specialize (Hu rr Hrr). cbn in Hr. rewrite Hoff, Hf in Hr. cbn [TTL rr_TTL] in Hr |- *.
    destruct (sub_TTL_max n (TTL rr) Hu Hn) as [Hs _]. rewrite Hs in *. done.
Qed.

(** Subtracting [n] seconds from a message whose TTL fields are in its
    packet and do not overlap succeeds.  Every TTL becomes the rest of it or 0,
    the TTL field of each changed record in the packet is the TTL of the record
    and nothing else changes in the packet; an OPT record of the additional
    section, whose TTL is not a time, is left alone. *)
Theorem SubTTL_spec {E} m n :
  Forall (in_packet (Packet m)) (ttl_records m) -> all_apart (ttl_records m) ->
  Forall (fun rr => is_u32 (TTL rr)) (ttl_records m) -> 0 <= n ->
  exists p, SubTTL (E := E) m n = Ok (aged_message n m p) /\ length p = length (Packet m) /\
    (forall i, Forall (fun rr => i < offTTL rr \/ offTTL rr + 4 <= i)%nat (ttl_records m) -> p !! i = Packet m !! i) /\
    Forall (fun rr => TTL (rr_TTL rr (sub_TTL n (TTL rr))) = Z.max 0 (TTL rr - n) /\
                      ReadUint32 (E := E) p (offTTL rr) = Ok (Z.max 0 (TTL rr - n))) (ttl_records m).
Proof. apply SubTTL_good. Qed.

Definition demo_rr (t : Z) (ty : Z) (o : nat) : ResourceRecord :=
  mkRR [] ty 1 t 0 [] (Some []) None None None None None None None 0 o.
Definition demo_message : Message :=
  mkMessage header_Reset question_Reset [demo_rr 100 1 2; demo_rr 7 1 8] [] [demo_rr 32768 QueryTypeOPT 20] (replicate 16 255).

Lemma SubTTL_spec_witness :
  exists p, SubTTL (E := unit) demo_message 10 = Ok (aged_message 10 demo_message p) /\
    ReadUint32 (E := unit) p 2 = Ok 90 /\ ReadUint32 (E := unit) p 8 = Ok 0.
Proof.
  destruct (SubTTL_spec (E := unit) demo_message 10) as (p & H & _ & _ & Hr);
    [apply (bool_decide_unpack _); vm_compute; exact I..|lia|].
  exists p. split; [exact H|].
  exact (conj (proj2 (Forall_inv Hr)) (proj2 (Forall_inv (Forall_inv_tail Hr)))).
Defined.
