(* ===== verification/DnsCaches.v ===== *)
(** Package [lib/dns], files [answer.go], [answers.go] and [caches.go]: the
    cache of answers and its list of least recently used ones.

    Answers are pointers that the map of the caches, the elements of the list
    and the callers share, so they live in a heap here; an element of the list
    is an identifier with the address of its answer.  The message of an answer
    moves from the new answer to the cached one ([update] clears it in the new
    one), and is held as a value.  The clock is an argument; times are seconds.
    The lock makes every operation of [caches] atomic, so an operation is a
    function; [answer_get] runs without the lock. *)

From Stdlib Require Import ZArith Lia.
From S2P Require Import Prelude Bytes DnsHeader DnsMessage DnsTTL.

Local Open Scope Z_scope.

Record answer := mkAnswer {
  receivedAt : Z;
  accessedAt : Z;
  qname : list Z;
  qtype : Z;
  qclass : Z;
  msg : option Message;
  el : option nat
}.

Abbreviation addr := nat.
Abbreviation heap := (gmap nat answer).
Definition C := outcome unit.

(** Dereferencing a pointer. *)
Definition deref (h : heap) (a : addr) : C answer :=
  match h !! a with Some an => Ok an | None => Panic end.

Definition set_times (an : answer) (r a : Z) : answer :=
  mkAnswer r a (qname an) (qtype an) (qclass an) (msg an) (el an).
Definition set_accessed (an : answer) (a : Z) : answer := set_times an (receivedAt an) a.
Definition set_msg (an : answer) (m : option Message) : answer :=
  mkAnswer (receivedAt an) (accessedAt an) (qname an) (qtype an) (qclass an) m (el an).
Definition set_el (an : answer) (e : option nat) : answer :=
  mkAnswer (receivedAt an) (accessedAt an) (qname an) (qtype an) (qclass an) (msg an) e.

(** ** [answer.go] *)

Definition newAnswer (m : Message) (isLocal : bool) (now : Z) : answer :=
  let q := Question m in
  if isLocal then mkAnswer 0 0 (qName q) (qType q) (qClass q) (Some m) None
  else mkAnswer now now (qName q) (qType q) (qClass q) (Some m) None.

Definition clear (an : answer) : answer := set_el (set_msg an None) None.

(** [answer.updateTTL]. *)
Definition updateTTL (h : heap) (a : addr) (now : Z) : C heap :=
  an ← deref h a;
  if receivedAt an =? 0 then Ok h
  else
    let an := set_accessed an now in
    let ttl := u32 (now - receivedAt an) in
    match msg an with
    | None => Panic
    | Some m => m' ← SubTTL m ttl; Ok (<[a := set_msg an (Some m')]> h)
    end.

(** [answer.get]: the copied packet. *)
Definition answer_get (h : heap) (a : addr) (now : Z) : C (list Z * heap) :=
  h ← updateTTL h a now;
  an ← deref h a;
  match msg an with
  | None => Panic
  | Some m => Ok (Packet m, h)
  end.

(** [answer.update]: [a] and [nu] may be the same pointer. *)
Definition answer_update (h : heap) (a nu : addr) : C heap :=
  n ← deref h nu;
  match msg n with
  | None => Ok h
  | Some _ =>
      an ← deref h a;
      let h := if 0 <? receivedAt an then <[a := set_times an (receivedAt n) (accessedAt n)]> h else h in
      n ← deref h nu;
      an ← deref h a;
      let h := <[a := set_msg an (msg n)]> h in
      n ← deref h nu;
      Ok (<[nu := set_msg n None]> h)
  end.

(** ** [answers.go] *)

Definition newAnswers (h : heap) (a : addr) : C (list addr) :=
  an ← deref h a;
  match msg an with Some _ => Ok [a] | None => Ok [] end.

(** [answers.get]: the answer and its index. *)
Fixpoint answers_get (h : heap) (v : list addr) (t c : Z) : C (option addr * nat) :=
  match v with
  | [] => Ok (None, O)
  | a :: v =>
      an ← deref h a;
      if negb (qtype an =? t) || negb (qclass an =? c) then
        r ← answers_get h v t c; Ok (r.1, S r.2)
      else Ok (Some a, O)
  end.

(** [answers.remove]: the last answer takes the place of the removed one. *)
Definition answers_remove (h : heap) (v : list addr) (t c : Z) : C (list addr) :=
  r ← answers_get h v t c;
  match r.1 with
  | None => Ok v
  | Some _ =>
      last ← get_at v (length v - 1)%nat;
      v ← set_at v r.2 last;
      Ok (take (length v - 1) v)
  end.

Definition answers_upsert (h : heap) (v : list addr) (nu : addr) : C (option addr * list addr * heap) :=
  n ← deref h nu;
  match msg n with
  | None => Ok (None, v, h)
  | Some _ =>
      r ← answers_get h v (qtype n) (qclass n);
      match r.1 with
      | Some a => h ← answer_update h a nu; Ok (Some a, v, h)
      | None => Ok (None, v ++ [nu], h)
      end
  end.

(** ** [caches.go] *)

Record caches := mkCaches {
  hp : heap;
  v : gmap (list Z) (list addr);
  lru : list (nat * addr);
  next : nat;              (* the identifier of the next list element *)
  pruneThreshold : Z
}.

Definition set_hp (c : caches) h := mkCaches h (v c) (lru c) (next c) (pruneThreshold c).
Definition set_v (c : caches) vv := mkCaches (hp c) vv (lru c) (next c) (pruneThreshold c).
Definition set_lru (c : caches) l := mkCaches (hp c) (v c) l (next c) (pruneThreshold c).

(** [newCaches], the threshold in seconds. *)
Definition newCaches (threshold : Z) : caches :=
  mkCaches ∅ ∅ [] 0 (if -60 <? threshold then -3600 else threshold).

(** [list.MoveToBack] and [list.PushBack]. *)
Definition MoveToBack (l : list (nat * addr)) (e : nat) : list (nat * addr) :=
  match filter (fun x => x.1 = e) l with
  | x :: _ => filter (fun x => x.1 ≠ e) l ++ [x]
  | [] => l
  end.
Definition PushBack (c : caches) (a : addr) : C caches :=
  an ← deref (hp c) a;
  Ok (mkCaches (<[a := set_el an (Some (next c))]> (hp c)) (v c) (lru c ++ [(next c, a)]) (S (next c)) (pruneThreshold c)).

(** [caches.get]: whether the name is known, the answer, the caches. *)
Definition caches_get (c : caches) (name : list Z) (t cl : Z) (now : Z) : C (bool * option addr * caches) :=
  match v c !! name with
  | None => Ok (false, None, c)
  | Some ans =>
      r ← answers_get (hp c) ans t cl;
      match r.1 with
      | None => Ok (true, None, c)
      | Some a =>
          an ← deref (hp c) a;
          if 0 <? receivedAt an then
            match el an with
            | None => Panic
            | Some e =>
                Ok (true, Some a, set_hp (set_lru c (MoveToBack (lru c) e)) (<[a := set_accessed an now]> (hp c)))
            end
          else Ok (true, Some a, c)
      end
  end.

(** [caches.list]. *)
Definition caches_list (c : caches) : list addr := (lru c).*2.

(** [caches.remove]. *)
Definition caches_remove (c : caches) (a : addr) : C caches :=
  an ← deref (hp c) a;
  c ← match v c !! qname an with
      | None => Ok c
      | Some ans => ans ← answers_remove (hp c) ans (qtype an) (qclass an); Ok (set_v c (<[qname an := ans]> (v c)))
      end;
  an ← deref (hp c) a;
  Ok (set_hp c (<[a := clear an]> (hp c))).

(** [caches.prune]: the loop starts at the front and removes the element it is
    at, so that the rest of the list is what is left. *)
Fixpoint prune_loop (l : list (nat * addr)) (c : caches) (exp : Z) (n : nat) : C (nat * caches) :=
  match l with
  | [] => Ok (n, c)
  | (_, a) :: l =>
      an ← deref (hp c) a;
      if exp <? accessedAt an then Ok (n, c)
      else
        c ← caches_remove (set_lru c l) a;
        prune_loop l c exp (S n)
  end.
Definition prune (c : caches) (now : Z) : C (nat * caches) :=
  prune_loop (lru c) c (now + pruneThreshold c) 0.

(** [caches.upsert]. *)
Definition caches_upsert (c : caches) (nu : addr) : C (bool * caches) :=
  n ← deref (hp c) nu;
  match msg n with
  | None => Ok (false, c)
  | Some _ =>
      match v c !! qname n with
      | None =>
          ans ← newAnswers (hp c) nu;
          let c := set_v c (<[qname n := ans]> (v c)) in
          if 0 <? receivedAt n then c ← PushBack c nu; Ok (true, c) else Ok (true, c)
      | Some ans =>
          r ← answers_upsert (hp c) ans nu;
          let '(old, ans, h) := r in
          let c := set_hp (set_v c (<[qname n := ans]> (v c))) h in
          match old with
          | Some _ => Ok (false, c)
          | None =>
              n ← deref (hp c) nu;
              if 0 <? receivedAt n then c ← PushBack c nu; Ok (true, c) else Ok (true, c)
          end
      end
  end.

(** ** The cache as a map

    A cached answer is found through its name; [cached] is the map from a
    question to the message that the caches hold for it. *)

Definition question : Type := list Z * Z * Z.
Definition key (an : answer) : question := (qname an, qtype an, qclass an).

(** The answer at [a] is in the caches. *)
Definition live (c : caches) (a : addr) (an : answer) : Prop :=
  exists ans, v c !! qname an = Some ans /\ a ∈ ans /\ hp c !! a = Some an.

Definition hit (h : heap) (t cl : Z) (a : addr) : bool :=
  match h !! a with Some an => (qtype an =? t) && (qclass an =? cl) | None => false end.

Definition cached (c : caches) (k : question) : option Message :=
  ans ← v c !! k.1.1;
  p ← list_find (fun a => hit (hp c) k.1.2 k.2 a = true) ans;
  an ← hp c !! p.2;
  msg an.

Record wf (c : caches) : Prop := {
  wf_in name ans a : v c !! name = Some ans -> a ∈ ans ->
    exists an, hp c !! a = Some an /\ qname an = name /\ is_Some (msg an);
  wf_nodup name ans : v c !! name = Some ans -> NoDup ans;
  wf_key a an b bn : live c a an -> live c b bn -> key an = key bn -> a = b;
  wf_ids : NoDup (lru c).*1;
  wf_lru e a : (e, a) ∈ lru c -> (e < next c)%nat /\ exists an, live c a an /\ el an = Some e;
  wf_el a an e : live c a an -> el an = Some e -> (e, a) ∈ lru c;
  wf_received a an : live c a an -> 0 < receivedAt an -> is_Some (el an)
}.

Lemma live_fun c a an bn : live c a an -> live c a bn -> an = bn.
Proof. intros (? & _ & _ & H1) (? & _ & _ & H2). congruence. Qed.

Lemma hit_key h t cl a : hit h t cl a = true <-> exists an, h !! a = Some an /\ qtype an = t /\ qclass an = cl.
Proof.
  unfold hit. destruct (h !! a) as [an|]; [|split; [done|by intros (? & [=] & _)]].
  rewrite andb_true_iff, !Z.eqb_eq. split; [intros []; eauto|]. by intros (? & [= ->] & []).
Qed.

Lemma answers_get_find h ans t cl : Forall (fun a => is_Some (h !! a)) ans ->
  answers_get h ans t cl = Ok (match list_find (fun a => hit h t cl a = true) ans with
                               | Some (i, a) => (Some a, i) | None => (None, length ans) end).
Proof.
  induction 1 as [|a ans [an Ha] _ IH]; [done|]. cbn [answers_get list_find length].
  unfold deref. rewrite Ha. cbn [mbind outcome_bind].
  assert (Hh : hit h t cl a = negb (negb (qtype an =? t) || negb (qclass an =? cl)))
    by (unfold hit; rewrite Ha; by destruct (qtype an =? t), (qclass an =? cl)).
  destruct (negb (qtype an =? t) || negb (qclass an =? cl)); cbn [negb] in Hh.
  - rewrite decide_False by (by rewrite Hh). rewrite IH. cbn [mbind outcome_bind fst snd].
    by destruct (list_find _ ans) as [[i b]|].
  - by rewrite decide_True by done.
Qed.

Lemma wf_valid c name ans : wf c -> v c !! name = Some ans -> Forall (fun a => is_Some (hp c !! a)) ans.
Proof. intros Hc Hn. apply Forall_forall. intros a Ha. destruct (wf_in c Hc name ans a Hn Ha) as (an & -> & _). eauto. Qed.

(** Looking for an answer finds the one with that question, if any. *)
Lemma find_live c name t cl ans : wf c -> v c !! name = Some ans ->
  match list_find (fun a => hit (hp c) t cl a = true) ans with
  | Some (i, a) => ans !! i = Some a /\ exists an, live c a an /\ key an = (name, t, cl)
  | None => forall a an, live c a an -> key an ≠ (name, t, cl)
  end.
Proof.
  intros Hc Hn. destruct (list_find _ ans) as [[i a]|] eqn:E.
  - apply list_find_Some in E as (Hi & Hh & _). split; [done|].
    apply list_elem_of_lookup_2 in Hi. apply hit_key in Hh as (an & Ha & <- & <-).
    destruct (wf_in c Hc name ans a Hn Hi) as (an' & Ha' & <- & _). assert (an' = an) as -> by congruence.
    exists an. split; [|done]. by exists ans.
  - apply list_find_None in E. rewrite Forall_forall in E.
    intros a an (ans' & Hv & Ha & Hh) [= Hq <- <-]. assert (ans' = ans) as -> by congruence.
    apply (E a Ha), hit_key. eauto.
Qed.

Lemma cached_live c k m : wf c -> cached c k = Some m <-> exists a an, live c a an /\ key an = k /\ msg an = Some m.
Proof.
  intros Hc. destruct k as [[name t] cl]. unfold cached. cbn [fst snd].
  split.
  - destruct (v c !! name) as [ans|] eqn:Hn; [|done]. cbn [mbind option_bind].
    pose proof (find_live c name t cl ans Hc Hn) as Hf. destruct (list_find _ ans) as [[i a]|]; [|done].
    destruct Hf as (_ & an & Hl & Hk). cbn [mbind option_bind snd]. pose proof Hl as (? & _ & _ & ->). cbn. eauto.
  - intros (a & an & Hl & Hk & Hm). pose proof Hl as (ans & Hn & Ha & Hh).
    assert (qname an = name) as Hq by (unfold key in Hk; congruence). rewrite Hq in Hn. rewrite Hn. cbn [mbind option_bind].
    pose proof (find_live c name t cl ans Hc Hn) as Hf. destruct (list_find _ ans) as [[i b]|].
    + destruct Hf as (_ & bn & Hb & Hkb). assert (b = a) as -> by (eapply wf_key; eauto; congruence).
      cbn [mbind option_bind snd]. rewrite Hh. done.
    + by destruct (Hf a an Hl).
Qed.

Lemma cached_None c k : wf c -> cached c k = None <-> forall a an, live c a an -> key an ≠ k.
Proof.
  intros Hc. split.
  - intros Hn a an Hl Hk. pose proof Hl as (ans & Hv & Ha & Hh).
    destruct (wf_in c Hc _ _ _ Hv Ha) as (an' & Ha' & _ & [m Hm]). assert (an' = an) as -> by congruence.
    assert (cached c k = Some m) by (apply cached_live; eauto). congruence.
  - intros Hno. destruct (cached c k) as [m|] eqn:E; [|done]. apply cached_live in E as (a & an & Hl & Hk & _); [|done].
    by destruct (Hno a an Hl).
Qed.

(** Two states with the same live answers, as far as the message goes. *)
Lemma cached_ext c c' : wf c -> wf c' ->
  (forall k m, (exists a an, live c' a an /\ key an = k /\ msg an = Some m) <->
               (exists a an, live c a an /\ key an = k /\ msg an = Some m)) ->
  forall k, cached c' k = cached c k.
Proof.
  intros Hc Hc' H k. apply option_eq. intros m. rewrite !cached_live by done. apply H.
Qed.

(** ** [upsert] *)

(** A new answer, as [newAnswer] makes it, which the caches do not hold. *)
Record fresh (c : caches) (nu : addr) (n : answer) (m : Message) : Prop := {
  fr_heap : hp c !! nu = Some n;
  fr_msg : msg n = Some m;
  fr_el : el n = None;
  fr_new name ans : v c !! name = Some ans -> nu ∉ ans
}.

(** The caches with [nu] added. *)
Definition added (c : caches) (nu : addr) (n : answer) : caches :=
  let vv := <[qname n := default [] (v c !! qname n) ++ [nu]]> (v c) in
  if 0 <? receivedAt n then
    mkCaches (<[nu := set_el n (Some (next c))]> (hp c)) vv (lru c ++ [(next c, nu)]) (S (next c)) (pruneThreshold c)
  else mkCaches (hp c) vv (lru c) (next c) (pruneThreshold c).

Lemma added_v c nu n : v (added c nu n) = <[qname n := default [] (v c !! qname n) ++ [nu]]> (v c).
Proof. unfold added. by destruct (0 <? receivedAt n). Qed.

Lemma added_hp c nu n m b : fresh c nu n m -> b ≠ nu -> hp (added c nu n) !! b = hp c !! b.
Proof. intros _ Hb. unfold added. destruct (0 <? receivedAt n); [|done]. cbn [hp]. by apply lookup_insert_ne. Qed.

Definition added_answer (c : caches) (n : answer) : answer :=
  if 0 <? receivedAt n then set_el n (Some (next c)) else n.

Lemma added_nu c nu n m : fresh c nu n m -> hp (added c nu n) !! nu = Some (added_answer c n).
Proof.
  intros Hf. unfold added, added_answer. destruct (0 <? receivedAt n); cbn [hp]; [apply lookup_insert_eq|apply Hf].
Qed.

Lemma added_key c n : key (added_answer c n) = key n /\ qname (added_answer c n) = qname n /\
  msg (added_answer c n) = msg n /\ receivedAt (added_answer c n) = receivedAt n.
Proof. unfold added_answer. by destruct (0 <? receivedAt n). Qed.

Lemma added_live c nu n m b bn : fresh c nu n m ->
  live (added c nu n) b bn <-> (b = nu /\ bn = added_answer c n) \/ live c b bn.
Proof.
  intros Hf. pose proof (added_key c n) as (_ & Hq & _ & _). split.
  - intros (ans & Hv & Hb & Hh). rewrite added_v in Hv. destruct (decide (b = nu)) as [->|Hne].
    + left. rewrite (added_nu c nu n m Hf) in Hh. by injection Hh as <-.
    + right. rewrite (added_hp c nu n m b Hf Hne) in Hh. destruct (decide (qname n = qname bn)) as [Hqn|Hqn].
      * rewrite Hqn, lookup_insert_eq in Hv. injection Hv as <-. apply elem_of_app in Hb as [Hb|Hb].
        -- destruct (v c !! qname bn) as [ans|] eqn:Hv; [by exists ans|by apply not_elem_of_nil in Hb].
        -- apply list_elem_of_singleton in Hb. done.
      * rewrite lookup_insert_ne in Hv by done. by exists ans.
  - intros [[-> ->]|(ans & Hv & Hb & Hh)].
    + exists (default [] (v c !! qname n) ++ [nu]). rewrite Hq, added_v, lookup_insert_eq. split; [done|].
      split; [apply elem_of_app; right; by apply list_elem_of_singleton|]. by apply (added_nu c nu n m).
    + assert (Hne : b ≠ nu) by (intros ->; by apply (fr_new _ _ _ _ Hf _ _ Hv)).
      destruct (decide (qname n = qname bn)) as [Hqn|Hqn].
      * exists (ans ++ [nu]). rewrite added_v, Hqn, lookup_insert_eq, Hv. split; [done|].
        split; [apply elem_of_app; by left|]. by rewrite (added_hp c nu n m).
      * exists ans. rewrite added_v, lookup_insert_ne by done. split; [done|]. split; [done|]. by rewrite (added_hp c nu n m).
Qed.

Lemma live_not_nu c nu n m a an : fresh c nu n m -> live c a an -> a ≠ nu.
Proof. intros Hf (ans & Hv & Ha & _) ->. by apply (fr_new _ _ _ _ Hf _ _ Hv). Qed.

Lemma added_wf c nu n m : wf c -> fresh c nu n m -> (forall a an, live c a an -> key an ≠ key n) ->
  wf (added c nu n).
Proof.
  intros Hc Hf Hnew. pose proof (added_key c n) as (Hk & Hq & Hm & Hr).
  assert (Hnolru : forall e, (e, nu) ∉ lru c).
  { intros e He. destruct (wf_lru c Hc _ _ He) as (_ & an & Hl & _). by eapply live_not_nu. }
  assert (Hall : forall name ans a, v (added c nu n) !! name = Some ans -> a ∈ ans ->
    (a = nu /\ name = qname n) \/ exists ans', v c !! name = Some ans' /\ a ∈ ans').
  { intros name ans a Hv Ha. rewrite added_v in Hv. destruct (decide (qname n = name)) as [<-|Hne].
    - rewrite lookup_insert_eq in Hv. injection Hv as <-. apply elem_of_app in Ha as [Ha|Ha].
      + right. destruct (v c !! qname n) as [ans|]; [by exists ans|by apply not_elem_of_nil in Ha].
      + left. by apply list_elem_of_singleton in Ha.
    - rewrite lookup_insert_ne in Hv by done. right. by exists ans. }
  split.
  - intros name ans a Hv Ha. destruct (Hall _ _ _ Hv Ha) as [[-> ->]|(ans' & Hv' & Ha')].
    + exists (added_answer c n). rewrite (added_nu c nu n m), Hm, (fr_msg _ _ _ _ Hf); eauto.
    + destruct (wf_in c Hc _ _ _ Hv' Ha') as (an & Hh & H1 & H2). exists an. rewrite (added_hp c nu n m); eauto.
      intros ->. by apply (fr_new _ _ _ _ Hf _ _ Hv').
  - intros name ans Hv. rewrite added_v in Hv. destruct (decide (qname n = name)) as [<-|Hne].
    + rewrite lookup_insert_eq in Hv. injection Hv as <-.
      destruct (v c !! qname n) as [ans|] eqn:Hv; cbn [default]; [|apply NoDup_singleton].
      apply NoDup_app. split; [by eapply wf_nodup|]. split; [|apply NoDup_singleton].
      intros x Hx Hx'. apply list_elem_of_singleton in Hx' as ->. by apply (fr_new _ _ _ _ Hf _ _ Hv).
    + rewrite lookup_insert_ne in Hv by done. by eapply wf_nodup.
  - intros a an b bn Ha Hb Hkey. apply (added_live c nu n m) in Ha; [|done]. apply (added_live c nu n m) in Hb; [|done].
    destruct Ha as [[-> ->]|Ha], Hb as [[-> ->]|Hb]; [done|..|by eapply wf_key; eauto].
    + destruct (Hnew b bn Hb). congruence.
    + destruct (Hnew a an Ha). congruence.
  - pose proof (wf_ids c Hc) as Hnd. unfold added. destruct (0 <? receivedAt n); cbn [lru]; [|done].
    rewrite fmap_app. cbn. apply NoDup_app. split; [done|]. split; [|apply NoDup_singleton].
    intros x Hx Hx'. apply list_elem_of_singleton in Hx' as ->. apply list_elem_of_fmap in Hx as ([e a] & [= He] & Hx).
    apply (wf_lru c Hc) in Hx as (Hlt & _). cbn in He. lia.
  - intros e a He. assert (Hcase : (e, a) ∈ lru c \/ (a = nu /\ e = next c /\ 0 < receivedAt n)).
    { unfold added in He. destruct (Z.ltb_spec 0 (receivedAt n)); cbn [lru] in He; [|by left].
      apply elem_of_app in He as [He|He]; [by left|]. apply list_elem_of_singleton in He. right. by simplify_eq. }
    assert (Hnext : (next c <= next (added c nu n))%nat) by (unfold added; destruct (0 <? receivedAt n); cbn; lia).
    destruct Hcase as [He'|(-> & -> & Hpos)].
    + destruct (wf_lru c Hc _ _ He') as (Hlt & an & Hl & Hel). split; [lia|]. exists an. split; [|done].
      apply (added_live c nu n m); auto.
    + split.
      * unfold added. rewrite (proj2 (Z.ltb_lt _ _)) by done. cbn. lia.
      * exists (added_answer c n). split; [apply (added_live c nu n m); auto|].
        unfold added_answer. by rewrite (proj2 (Z.ltb_lt _ _)) by done.
  - intros a an e Ha Hel. apply (added_live c nu n m) in Ha; [|done]. destruct Ha as [[-> ->]|Ha].
    + unfold added, added_answer in *. destruct (0 <? receivedAt n); cbn in Hel.
      * injection Hel as <-. cbn [lru]. apply elem_of_app. right. by apply list_elem_of_singleton.
      * by rewrite (fr_el _ _ _ _ Hf) in Hel.
    + apply (wf_el c Hc _ _ _ Ha) in Hel. unfold added. destruct (0 <? receivedAt n); cbn [lru]; [|done].
      apply elem_of_app. by left.
  - intros a an Ha Hpos. apply (added_live c nu n m) in Ha; [|done]. destruct Ha as [[-> ->]|Ha].
    + rewrite Hr in Hpos. unfold added_answer. rewrite (proj2 (Z.ltb_lt _ _)) by done. cbn. eauto.
    + by eapply wf_received.
Qed.

(** ** Changes of the answers in place *)

(** A heap in which each live answer [an] has become [f a an]: the question and
    the list element stay, and a message is still there. *)
Record retouched (c : caches) (h' : heap) (f : addr -> answer -> answer) : Prop := {
  rt_heap a an : live c a an -> h' !! a = Some (f a an);
  rt_key a an : live c a an -> key (f a an) = key an;
  rt_el a an : live c a an -> el (f a an) = el an;
  rt_msg a an : live c a an -> is_Some (msg (f a an));
  rt_received a an : live c a an -> 0 < receivedAt (f a an) -> is_Some (el an)
}.

Lemma retouched_live c h' f b bn : wf c -> retouched c h' f ->
  live (set_hp c h') b bn <-> exists an, live c b an /\ bn = f b an.
Proof.
  intros Hc Hr. split.
  - intros (ans & Hv & Hb & Hh). cbn [v hp set_hp] in *.
    destruct (wf_in c Hc _ _ _ Hv Hb) as (an & Han & Hq & _). exists an.
    assert (Hl : live c b an) by (exists ans; by rewrite Hq). split; [done|].
    rewrite (rt_heap _ _ _ Hr _ _ Hl) in Hh. congruence.
  - intros (an & Hl & ->). pose proof Hl as (ans & Hv & Hb & _). exists ans.
    pose proof (rt_key _ _ _ Hr _ _ Hl) as Hk. unfold key in Hk. injection Hk as -> _ _.
    split; [done|]. split; [done|]. by apply (rt_heap _ _ _ Hr).
Qed.

Lemma retouched_wf c h' f : wf c -> retouched c h' f -> wf (set_hp c h').
Proof.
  intros Hc Hr. pose proof (fun b bn => retouched_live c h' f b bn Hc Hr) as HL. split.
  - intros name ans a Hv Ha. cbn [v hp set_hp] in *. destruct (wf_in c Hc _ _ _ Hv Ha) as (an & Han & Hq & _).
    assert (Hl : live c a an) by (exists ans; by rewrite Hq). exists (f a an).
    split; [by apply (rt_heap _ _ _ Hr)|]. split; [|by apply (rt_msg _ _ _ Hr)].
    pose proof (rt_key _ _ _ Hr _ _ Hl) as Hk. unfold key in Hk. congruence.
  - apply (wf_nodup c Hc).
  - intros a an b bn Ha Hb Hk. apply HL in Ha as (a0 & Ha & ->). apply HL in Hb as (b0 & Hb & ->).
    rewrite (rt_key _ _ _ Hr a a0 Ha), (rt_key _ _ _ Hr b b0 Hb) in Hk. by eapply wf_key.
  - apply (wf_ids c Hc).
  - intros e a He. destruct (wf_lru c Hc e a He) as (Hlt & an & Hl & Hel). split; [done|]. exists (f a an).
    split; [apply HL; eauto|]. by rewrite (rt_el _ _ _ Hr).
  - intros a an e Ha Hel. apply HL in Ha as (a0 & Ha & ->). rewrite (rt_el _ _ _ Hr a a0 Ha) in Hel. exact (wf_el c Hc _ _ _ Ha Hel).
  - intros a an Ha Hpos. apply HL in Ha as (a0 & Ha & ->). rewrite (rt_el _ _ _ Hr a a0 Ha).
    by eapply (rt_received _ _ _ Hr).
Qed.

(** The cached answer after [update]: its times only when it is not local. *)
Definition merged (an n : answer) : answer :=
  set_msg (if 0 <? receivedAt an then set_times an (receivedAt n) (accessedAt n) else an) (msg n).

Lemma answer_update_eq h a nu an n m : h !! a = Some an -> h !! nu = Some n -> msg n = Some m -> a ≠ nu ->
  answer_update h a nu = Ok (<[nu := set_msg n None]> (<[a := merged an n]> h)).
Proof.
  intros Ha Hn Hm Hne. unfold answer_update, deref, merged. rewrite Hn. cbn [mbind outcome_bind]. rewrite Hm, Ha.
  cbn [mbind outcome_bind]. cbv zeta. destruct (0 <? receivedAt an).
  - rewrite (lookup_insert_ne h a nu) by done. rewrite Hn. cbn [mbind outcome_bind].
    rewrite lookup_insert_eq. cbn [mbind outcome_bind].
    rewrite insert_insert_eq, lookup_insert_ne by done. rewrite Hn. cbn [mbind outcome_bind]. by rewrite Hm.
  - rewrite Hn. cbn [mbind outcome_bind]. rewrite Ha. cbn [mbind outcome_bind].
    rewrite lookup_insert_ne by done. rewrite Hn. cbn [mbind outcome_bind]. by rewrite Hm.
Qed.

Lemma update_retouched c a an nu n m : wf c -> live c a an -> fresh c nu n m -> key an = key n ->
  retouched c (<[nu := set_msg n None]> (<[a := merged an n]> (hp c)))
    (fun b bn => if decide (b = a) then merged an n else bn).
Proof.
  intros Hc Ha Hf Hk. split; intros b bn Hb;
    (destruct (decide (b = a)) as [->|Hne]; [assert (bn = an) as -> by (by eapply live_fun)|]).
  - rewrite lookup_insert_ne by (by apply not_eq_sym, (live_not_nu c nu n m a an)). by rewrite lookup_insert_eq.
  - rewrite lookup_insert_ne by (by apply not_eq_sym, (live_not_nu c nu n m b bn)).
    rewrite lookup_insert_ne by done. by destruct Hb as (? & _ & _ & ->).
  - unfold merged. by destruct (0 <? receivedAt an).
  - done.
  - unfold merged. by destruct (0 <? receivedAt an).
  - done.
  - exists m. exact (fr_msg _ _ _ _ Hf).
  - destruct Hb as (ans & Hv & Hb & Hh). destruct (wf_in c Hc _ _ _ Hv Hb) as (bn' & Hh' & _ & Hs). by simplify_eq.
  - intros Hpos. unfold merged in Hpos. destruct (Z.ltb_spec 0 (receivedAt an)); cbn in Hpos; by eapply wf_received.
  - by eapply wf_received.
Qed.

Lemma caches_set_v_id c name ans : v c !! name = Some ans -> set_v c (<[name := ans]> (v c)) = c.
Proof. intros H. unfold set_v. rewrite insert_id by done. by destruct c. Qed.

(** The two cases of [upsert]. *)
Lemma caches_upsert_eq c nu n m : wf c -> fresh c nu n m ->
  (exists a an, live c a an /\ key an = key n /\
     caches_upsert c nu = Ok (false, set_hp c (<[nu := set_msg n None]> (<[a := merged an n]> (hp c))))) \/
  ((forall a an, live c a an -> key an ≠ key n) /\ caches_upsert c nu = Ok (true, added c nu n)).
Proof.
  intros Hc Hf. pose proof Hf as [Hn Hm _ Hnew]. unfold caches_upsert, deref. rewrite Hn. cbn [mbind outcome_bind].
  rewrite Hm. unfold added. destruct (v c !! qname n) as [ans|] eqn:Hv.
  - unfold answers_upsert, deref. rewrite Hn. cbn [mbind outcome_bind]. rewrite Hm.
    rewrite (answers_get_find _ _ _ _ (wf_valid c _ _ Hc Hv)). cbn [mbind outcome_bind].
    pose proof (find_live c (qname n) (qtype n) (qclass n) ans Hc Hv) as Hfind.
    destruct (list_find _ ans) as [[i a]|]; cbn [fst].
    + destruct Hfind as (_ & an & Hl & Hk). left. exists a, an. split; [done|]. split; [done|].
      pose proof Hl as (_ & _ & _ & Ha).
      rewrite (answer_update_eq _ _ _ _ _ _ Ha Hn Hm) by (by eapply live_not_nu). cbn [mbind outcome_bind].
      by rewrite caches_set_v_id.
    + right. split; [exact Hfind|]. cbn [mbind outcome_bind hp set_hp set_v default]. rewrite Hn. cbn [mbind outcome_bind].
      destruct (0 <? receivedAt n); [|done]. unfold PushBack, deref. cbn [hp set_hp set_v]. by rewrite Hn.
  - right. split.
    + intros a an (ans & Hva & _) Hk. unfold key in Hk. injection Hk as Hq _ _. congruence.
    + unfold newAnswers, deref. rewrite Hn. cbn [mbind outcome_bind]. rewrite Hm. cbn [mbind outcome_bind default app].
      destruct (0 <? receivedAt n); [|done]. unfold PushBack, deref. cbn [hp set_hp set_v]. by rewrite Hn.
Qed.

Lemma upsert_good c nu n m : wf c -> fresh c nu n m ->
  exists b c', caches_upsert c nu = Ok (b, c') /\ wf c' /\
    (b = true <-> cached c (key n) = None) /\
    (forall k, cached c' k = if decide (k = key n) then Some m else cached c k).
Proof.
  intros Hc Hf. pose proof (fr_msg _ _ _ _ Hf) as Hm.
  destruct (caches_upsert_eq c nu n m Hc Hf) as [(a & an & Hl & Hk & ->)|[Hno ->]].
  - set (h' := <[nu := _]> _). pose proof (update_retouched c a an nu n m Hc Hl Hf Hk) as Hr. fold h' in Hr.
    pose proof (retouched_wf c h' _ Hc Hr) as Hc'. exists false, (set_hp c h'). split; [done|]. split; [done|].
    split; [split; [done|intros Hnone; by destruct (proj1 (cached_None c (key n) Hc) Hnone a an Hl)]|].
    intros k. apply option_eq. intros m'. rewrite cached_live by done.
    setoid_rewrite (fun b bn => retouched_live c h' _ b bn Hc Hr). case_decide as Hd.
    + split.
      * intros (b & bn & (b0 & Hb & ->) & Hkb & Hmb). case_decide as Hba.
        -- cbn [merged msg set_msg] in Hmb. congruence.
        -- destruct Hba. apply (wf_key c Hc b b0 a an Hb Hl). congruence.
      * intros [= <-]. exists a, (merged an n). split_and!; [|rewrite Hd|by unfold merged].
        -- exists an. by rewrite decide_True.
        -- pose proof (rt_key _ _ _ Hr a an Hl) as Hka. cbv beta in Hka. rewrite decide_True in Hka by done. congruence.
    + rewrite cached_live by done. split.
      * intros (b & bn & (b0 & Hb & ->) & Hkb & Hmb). case_decide as Hba; [|by exists b, b0].
        subst b. pose proof (rt_key _ _ _ Hr a an Hl) as Hka. cbv beta in Hka. rewrite decide_True in Hka by done. congruence.
      * intros (b & bn & Hb & Hkb & Hmb). exists b, bn. split; [|done]. exists bn. split; [done|].
        rewrite decide_False; [done|]. intros ->. assert (bn = an) as -> by (by eapply live_fun). congruence.
  - pose proof (added_wf c nu n m Hc Hf Hno) as Hc'. exists true, (added c nu n). split; [done|]. split; [done|].
    split; [split; [|done]; intros _; by apply cached_None|].
    intros k. apply option_eq. intros m'. rewrite cached_live by done.
    setoid_rewrite (fun b bn => added_live c nu n m b bn Hf). pose proof (added_key c n) as (Hk & _ & Hma & _).
    case_decide as Hd.
    + split.
      * intros (b & bn & [[-> ->]|Hb] & Hkb & Hmb); [congruence|]. by destruct (Hno b bn Hb); congruence.
      * intros [= <-]. exists nu, (added_answer c n). split_and!; [by left|congruence..].
    + rewrite cached_live by done. split.
      * intros (b & bn & [[-> ->]|Hb] & Hkb & Hmb); [congruence|]. eauto.
      * intros (b & bn & Hb & Hkb & Hmb). eauto 10.
Qed.

(** ** [get] *)

Lemma filter_id_nil (l : list (nat * addr)) e : e ∉ l.*1 -> filter (fun x => x.1 = e) l = [].
Proof.
  induction l as [|[e' b] l IH]; [done|]. cbn [fmap list_fmap fst]. rewrite not_elem_of_cons. intros [Hne Hni].
  rewrite filter_cons, decide_False by (cbn; congruence). by apply IH.
Qed.

Lemma MoveToBack_eq l e a : NoDup l.*1 -> (e, a) ∈ l ->
  MoveToBack l e = filter (fun x => x.1 ≠ e) l ++ [(e, a)] /\ MoveToBack l e ≡ₚ l.
Proof.
  intros Hnd Hin. assert (Hf : filter (fun x => x.1 = e) l = [(e, a)]).
  { induction l as [|[e' b] l IH]; [by apply not_elem_of_nil in Hin|].
    cbn [fmap list_fmap fst] in Hnd. apply NoDup_cons in Hnd as [Hni Hnd].
    apply elem_of_cons in Hin as [Heq|Hin].
    - simplify_eq. rewrite filter_cons, decide_True by done. by rewrite filter_id_nil.
    - rewrite filter_cons, decide_False; [by apply IH|]. cbn. intros ->. apply Hni.
      apply list_elem_of_fmap. by exists (e, a). }
  unfold MoveToBack. rewrite Hf. split; [done|]. rewrite (comm (++)), <- Hf.
  apply (filter_app_complement (fun x => x.1 = e)).
Qed.

Lemma set_lru_wf c l : wf c -> l ≡ₚ lru c -> wf (set_lru c l).
Proof.
  intros [H1 H2 H3 H4 H5 H6 H7] Hp. split; try done.
  - cbn [lru set_lru]. by rewrite Hp.
  - intros e a He. cbn [lru set_lru] in He. rewrite Hp in He. by apply H5.
  - intros a an e Ha He. cbn [lru set_lru]. rewrite Hp. by eapply H6.
Qed.

Lemma accessed_retouched c a an now : wf c -> live c a an ->
  retouched c (<[a := set_accessed an now]> (hp c)) (fun b bn => if decide (b = a) then set_accessed bn now else bn).
Proof.
  intros Hc Ha. pose proof Ha as (ans & Hv & Hin & Hh).
  split; intros b bn Hb; (destruct (decide (b = a)) as [->|Hne]; [assert (bn = an) as -> by (by eapply live_fun)|]).
  - by rewrite lookup_insert_eq.
  - rewrite lookup_insert_ne by done. by destruct Hb as (? & _ & _ & ->).
  - done.
  - done.
  - done.
  - done.
  - destruct (wf_in c Hc _ _ _ Hv Hin) as (an' & Hh' & _ & Hs). by simplify_eq.
  - destruct Hb as (ans' & Hv' & Hin' & Hh''). destruct (wf_in c Hc _ _ _ Hv' Hin') as (bn' & Hh' & _ & Hs). by simplify_eq.
  - cbn. by eapply wf_received.
  - by eapply wf_received.
Qed.

Lemma retouched_cached c h' f : wf c -> retouched c h' f -> (forall a an, live c a an -> msg (f a an) = msg an) ->
  forall k, cached (set_hp c h') k = cached c k.
Proof.
  intros Hc Hr Hm. apply cached_ext; [done|by eapply retouched_wf|]. intros k m.
  setoid_rewrite (fun b bn => retouched_live c h' f b bn Hc Hr). split.
  - intros (a & an & (a0 & Ha & ->) & Hk & Hma). exists a, a0.
    rewrite (rt_key _ _ _ Hr a a0 Ha) in Hk. rewrite (Hm a a0 Ha) in Hma. done.
  - intros (a & an & Ha & Hk & Hma). exists a, (f a an). split; [eauto|].
    by rewrite (rt_key _ _ _ Hr a an Ha), (Hm a an Ha).
Qed.

(** What [get] gives: the cached answer or none, the map as it was, and the
    answer of the network at the back of the list with a new access time. *)
Lemma get_good c name t cl now : wf c ->
  exists b r c', caches_get c name t cl now = Ok (b, r, c') /\ wf c' /\
    b = bool_decide (is_Some (v c !! name)) /\
    (forall k, cached c' k = cached c k) /\
    match r with
    | None => cached c (name, t, cl) = None /\ c' = c
    | Some a => exists an, live c' a an /\ key an = (name, t, cl) /\ msg an = cached c (name, t, cl) /\
        (0 < receivedAt an -> accessedAt an = now /\ exists e, last (lru c') = Some (e, a) /\ lru c' ≡ₚ lru c)
    end.
Proof.
  intros Hc. unfold caches_get. destruct (v c !! name) as [ans|] eqn:Hv.
  2: { exists false, None, c. split_and!; try done. apply cached_None; [done|].
       intros a an (ans & Hva & _) Hk. unfold key in Hk. injection Hk as Hq _ _. congruence. }
  rewrite (answers_get_find _ _ _ _ (wf_valid c _ _ Hc Hv)). cbn [mbind outcome_bind].
  pose proof (find_live c name t cl ans Hc Hv) as Hfind. destruct (list_find _ ans) as [[i a]|]; cbn [fst].
  2: { exists true, None, c. split_and!; try done. by apply cached_None. }
  destruct Hfind as (_ & an & Hl & Hk). pose proof Hl as (ans' & Hva & Hin & Hh). unfold deref. rewrite Hh. cbn [mbind outcome_bind].
  assert (Hm : msg an = cached c (name, t, cl)).
  { destruct (wf_in c Hc _ _ _ Hva Hin) as (an' & Hh' & _ & [m Hm]). assert (an' = an) as -> by congruence.
    rewrite Hm. symmetry. apply cached_live; [done|]. eauto. }
  destruct (Z.ltb_spec 0 (receivedAt an)) as [Hpos|Hloc].
  - destruct (wf_received c Hc a an Hl Hpos) as [e He]. rewrite He.
    pose proof (wf_el c Hc a an e Hl He) as Hlru. destruct (MoveToBack_eq (lru c) e a (wf_ids c Hc) Hlru) as [Heq Hp].
    set (c1 := set_lru c (MoveToBack (lru c) e)).
    assert (Hc1 : wf c1) by (by apply set_lru_wf). assert (Hl1 : live c1 a an) by exact Hl.
    pose proof (accessed_retouched c1 a an now Hc1 Hl1) as Hr. cbn [hp set_lru c1] in Hr. fold c1 in Hr.
    exists true, (Some a), (set_hp c1 (<[a:=set_accessed an now]> (hp c))). split_and!; try done.
    + by eapply retouched_wf.
    + intros k. rewrite (retouched_cached c1 _ _ Hc1 Hr); [done|]. intros b bn _. by case_decide.
    + exists (set_accessed an now). split_and!; try done.
      * apply (retouched_live c1 _ _ a _ Hc1 Hr). exists an. by rewrite decide_True.
      * intros _. split; [done|]. exists e. cbn [lru set_hp set_lru c1]. split; [|done].
        rewrite Heq. apply last_snoc.
  - exists true, (Some a), c. split_and!; try done. exists an. split_and!; try done. lia.
Qed.

(** ** [prune] *)

(** The last element takes the place of the removed one. *)
Lemma swap_remove (ans : list addr) i a : ans !! i = Some a ->
  exists last ans', get_at (E := unit) ans (length ans - 1) = Ok last /\
    set_at (E := unit) ans i last = Ok (<[i := last]> ans) /\
    take (length ans - 1) (<[i := last]> ans) = ans' /\ a :: ans' ≡ₚ ans.
Proof.
  intros Hi. destruct ans as [|last pre _] using rev_ind; [done|].
  exists last, (take (length pre) (<[i := last]> (pre ++ [last]))).
  assert (Hl : (length (pre ++ [last]) - 1)%nat = length pre) by (rewrite length_app; cbn; lia).
  pose proof (lookup_lt_Some _ _ _ Hi) as Hlt. rewrite Hl. split_and!.
  - apply get_at_Some. by apply list_lookup_middle.
  - by apply set_at_Ok.
  - done.
  - rewrite length_app in Hlt. cbn in Hlt. destruct (decide (i = length pre)) as [->|Hne].
    + rewrite list_lookup_middle in Hi by done. injection Hi as ->.
      rewrite list_insert_id by (by apply list_lookup_middle). rewrite take_app_length.
      apply Permutation_cons_append.
    + rewrite lookup_app_l in Hi by lia. rewrite insert_app_l by lia.
      rewrite take_app_length' by (by rewrite length_insert).
      rewrite <- (take_drop_middle pre i a Hi) at 2. rewrite insert_take_drop by lia.
      rewrite <- (assoc_L (++)). cbn [app]. solve_Permutation.
Qed.

Lemma remove_good c e a l : wf c -> lru c = (e, a) :: l ->
  exists c', caches_remove (set_lru c l) a = Ok c' /\ wf c' /\ lru c' = l /\ pruneThreshold c' = pruneThreshold c /\
    (forall b bn, live c' b bn <-> live c b bn /\ b ≠ a).
Proof.
  intros Hc Hlru. destruct (wf_lru c Hc e a) as (_ & an & Hl & Hel); [rewrite Hlru; apply elem_of_cons; by left|].
  pose proof Hl as (ans & Hv & Hin & Hh). unfold caches_remove, deref. cbn [hp v set_lru]. rewrite Hh.
  cbn [mbind outcome_bind]. rewrite Hv. unfold answers_remove.
  rewrite (answers_get_find _ _ _ _ (wf_valid c _ _ Hc Hv)). cbn [mbind outcome_bind].
  pose proof (find_live c (qname an) (qtype an) (qclass an) ans Hc Hv) as Hfind.
  destruct (list_find _ ans) as [[i b]|]; [|by destruct (Hfind a an Hl)].
  destruct Hfind as (Hi & bn & Hb & Hkb). assert (b = a) as -> by (by apply (wf_key c Hc b bn a an Hb Hl)).
  clear bn Hb Hkb. cbn [fst snd]. destruct (swap_remove ans i a Hi) as (last & ans' & Hg & Hs & Ht & Hperm).
  rewrite Hg. cbn [mbind outcome_bind]. rewrite Hs. cbn [mbind outcome_bind]. rewrite length_insert, Ht.
  cbn [hp set_v set_lru]. rewrite Hh. cbn [mbind outcome_bind].
  set (c' := set_hp _ _). exists c'. split; [done|].
  assert (Hnd : (a ∉ ans') /\ NoDup ans') by (apply NoDup_cons; rewrite Hperm; by eapply wf_nodup).
  destruct Hnd as [Hni Hnd].
  assert (Hin' : forall b, (b ∈ ans') <-> ((b ∈ ans) /\ b ≠ a)).
  { intros b. rewrite <- Hperm, elem_of_cons. split; [|naive_solver]. intros Hb. split; [by right|]. by intros ->. }
  assert (HL : forall b bn, live c' b bn <-> live c b bn /\ b ≠ a).
  { intros b bn. unfold live, c'. cbn [v hp set_hp set_v set_lru]. split.
    - intros (x & Hx & Hbx & Hhx). destruct (decide (qname an = qname bn)) as [Hq|Hq].
      + rewrite Hq, lookup_insert_eq in Hx. injection Hx as <-. apply Hin' in Hbx as [Hbx Hne].
        rewrite lookup_insert_ne in Hhx by done. split; [|done]. exists ans. by rewrite <- Hq.
      + rewrite lookup_insert_ne in Hx by done. assert (Hne : b ≠ a).
        { intros ->. destruct (wf_in c Hc _ _ _ Hx Hbx) as (an' & Hh' & Hq' & _). congruence. }
        rewrite lookup_insert_ne in Hhx by done. split; [|done]. by exists x.
    - intros [(x & Hx & Hbx & Hhx) Hne]. destruct (decide (qname an = qname bn)) as [Hq|Hq].
      + exists ans'. rewrite Hq, lookup_insert_eq. split; [done|]. split; [|by rewrite lookup_insert_ne].
        apply Hin'. split; [|done]. congruence.
      + exists x. rewrite !lookup_insert_ne by done. done. }
  split; [|by split_and!]. split.
  - intros name x b Hx Hb. unfold c' in *. cbn [v hp set_hp set_v set_lru] in *. destruct (decide (qname an = name)) as [<-|Hq].
    + rewrite lookup_insert_eq in Hx. injection Hx as <-. apply Hin' in Hb as [Hb Hne].
      rewrite lookup_insert_ne by done. by eapply wf_in.
    + rewrite lookup_insert_ne in Hx by done. destruct (wf_in c Hc _ _ _ Hx Hb) as (bn & Hh' & Hq' & Hs').
      rewrite lookup_insert_ne by (intros <-; congruence). eauto.
  - intros name x Hx. unfold c' in *. cbn [v set_hp set_v set_lru] in *. destruct (decide (qname an = name)) as [<-|Hq].
    + rewrite lookup_insert_eq in Hx. by injection Hx as <-.
    + rewrite lookup_insert_ne in Hx by done. by eapply wf_nodup.
  - intros b bn d dn Hb Hd. apply HL in Hb as [Hb _]. apply HL in Hd as [Hd _]. by eapply wf_key.
  - pose proof (wf_ids c Hc) as Hids. rewrite Hlru in Hids. by apply NoDup_cons in Hids as [_ Hids].
  - intros e' b Hb. cbn [lru set_hp set_v set_lru c'] in Hb.
    destruct (wf_lru c Hc e' b) as (Hlt & bn & Hlb & Heb); [rewrite Hlru; apply elem_of_cons; by right|].
    split; [done|]. exists bn. split; [|done]. apply HL. split; [done|]. intros ->.
    assert (bn = an) as -> by (by eapply live_fun). assert (e' = e) as -> by congruence.
    pose proof (wf_ids c Hc) as Hids. rewrite Hlru in Hids. apply NoDup_cons in Hids as [Hnie _].
    apply Hnie. cbn. apply list_elem_of_fmap. by exists (e, a).
  - intros b bn e' Hb Hel'. apply HL in Hb as [Hb Hne]. apply (wf_el c Hc _ _ _ Hb) in Hel'. rewrite Hlru in Hel'.
    apply elem_of_cons in Hel' as [Heq|Hel']; [|done]. by simplify_eq.
  - intros b bn Hb Hpos. apply HL in Hb as [Hb _]. by eapply wf_received.
Qed.

(** The answer at [a] was last accessed at [exp] or before. *)
Definition old (c : caches) (exp : Z) (a : addr) : Prop := exists an, live c a an /\ accessedAt an <= exp.

Lemma prune_loop_good l : forall c exp n, wf c -> lru c = l ->
  exists k c', prune_loop l c exp n = Ok ((n + k)%nat, c') /\ wf c' /\ lru c' = drop k l /\ (k <= length l)%nat /\
    Forall (old c exp) (take k l).*2 /\
    match drop k l with (_, a) :: _ => exists an, live c a an /\ exp < accessedAt an | [] => True end /\
    (forall b bn, live c' b bn <-> live c b bn /\ (b ∉ (take k l).*2)).
Proof.
  induction l as [|[e a] l IH]; intros c exp n Hc Hlru; cbn [prune_loop].
  { exists 0%nat, c. rewrite Nat.add_0_r. split_and!; try done. intros b bn. cbn. split; [|by intros []].
    intros H. split; [done|]. apply not_elem_of_nil. }
  destruct (wf_lru c Hc e a) as (_ & an & Hl & Hel); [rewrite Hlru; apply elem_of_cons; by left|].
  unfold deref. pose proof Hl as (_ & _ & _ & Hh). rewrite Hh. cbn [mbind outcome_bind].
  destruct (Z.ltb_spec exp (accessedAt an)) as [Hlt|Hge].
  { exists 0%nat, c. rewrite Nat.add_0_r. split_and!; try done; [cbn; lia|cbn; eauto|]. intros b bn. cbn.
    split; [|by intros []]. intros H. split; [done|]. apply not_elem_of_nil. }
  destruct (remove_good c e a l Hc Hlru) as (c1 & -> & Hc1 & Hlru1 & _ & HL). cbn [mbind outcome_bind].
  destruct (IH c1 exp (S n) Hc1 Hlru1) as (k & c' & -> & Hc' & Hlru' & Hk & Hold & Hhead & HL').
  exists (S k), c'. cbn [take drop length fmap list_fmap snd]. split_and!; try done.
  - f_equal. f_equal. lia.
  - lia.
  - constructor; [by exists an|]. eapply Forall_impl; [exact Hold|].
    intros b (bn & Hb & Hacc). apply HL in Hb as [Hb _]. by exists bn.
  - destruct (drop k l) as [|[e' b] ?]; [done|]. destruct Hhead as (bn & Hb & Hacc). apply HL in Hb as [Hb _]. by exists bn.
  - intros b bn. rewrite HL', HL, not_elem_of_cons. tauto.
Qed.

Lemma prune_good c now : wf c ->
  exists k c', prune c now = Ok (k, c') /\ wf c' /\ lru c' = drop k (lru c) /\ (k <= length (lru c))%nat /\
    Forall (old c (now + pruneThreshold c)) (take k (lru c)).*2 /\
    match drop k (lru c) with
    | (_, a) :: _ => exists an, live c a an /\ now + pruneThreshold c < accessedAt an | [] => True end /\
    (forall b bn, live c' b bn <-> live c b bn /\ (b ∉ (take k (lru c)).*2)).
Proof. intros Hc. exact (prune_loop_good (lru c) c (now + pruneThreshold c) 0 Hc eq_refl). Qed.

(** ** The caches as a map of messages *)

(** The caches [c] stand for the map [f] from questions to messages. *)
Definition represents (c : caches) (f : question -> option Message) : Prop :=
  wf c /\ forall k, cached c k = f k.

(** C25: the caches implement a map from a question (name, type and class) to
    the message of its answer.  [upsert] of a new answer is the insertion of
    its message, reports whether the question was absent, and changes nothing
    else of the map, whichever of its branches it takes (a new name, a new type
    of a known name, an update of the answer that is there). *)
Theorem upsert_refines c f nu n m : represents c f -> fresh c nu n m ->
  exists c', caches_upsert c nu = Ok (bool_decide (f (key n) = None), c') /\
    represents c' (fun k => if decide (k = key n) then Some m else f k).
Proof.
  intros [Hc Hrep] Hf. destruct (upsert_good c nu n m Hc Hf) as (b & c' & Hup & Hc' & Hb & Hcached). exists c'. split.
  - rewrite Hup. do 2 f_equal. rewrite Hrep in Hb. case_bool_decide; destruct b; naive_solver.
  - split; [done|]. intros k. rewrite Hcached. by rewrite Hrep.
Qed.

(** [get] is the lookup of that map: it returns the answer whose message
    the map holds, or none, and leaves the map as it is.  An answer that came
    from the network gets the current time and the back of the list. *)
Theorem get_refines c f name t cl now : represents c f ->
  exists b r c', caches_get c name t cl now = Ok (b, r, c') /\ represents c' f /\
    match r with
    | None => f (name, t, cl) = None
    | Some a => exists an, live c' a an /\ key an = (name, t, cl) /\ msg an = f (name, t, cl) /\
        (0 < receivedAt an -> accessedAt an = now /\ exists e, last (lru c') = Some (e, a) /\ lru c' ≡ₚ lru c)
    end.
Proof.
  intros [Hc Hrep]. destruct (get_good c name t cl now Hc) as (b & r & c' & Hget & Hc' & _ & Hcached & Hr).
  exists b, r, c'. split; [done|]. split; [split; [done|]; intros k; by rewrite Hcached|].
  rewrite <- Hrep. destruct r as [a|]; [exact Hr|]. by destruct Hr.
Qed.

(** The list is in the order of the access times. *)
Fixpoint in_order (c : caches) (l : list (nat * addr)) : Prop :=
  match l with
  | [] => True
  | (_, a) :: l =>
      (forall an e b bn, live c a an -> ((e, b) ∈ l) -> live c b bn -> accessedAt an <= accessedAt bn) /\ in_order c l
  end.

Lemma in_order_tail c k l : in_order c l ->
  match drop k l with
  | (_, a) :: rest => forall an e b bn, live c a an -> (e, b) ∈ rest -> live c b bn -> accessedAt an <= accessedAt bn
  | [] => True end.
Proof.
  revert l. induction k as [|k IH]; intros l Ho.
  - destruct l as [|[e a] l]; [done|]. by destruct Ho.
  - destruct l as [|[e a] l]; [done|]. destruct Ho as [_ Ho]. by apply IH.
Qed.

(** When the list of network answers is in the order of their access times,
    pruning removes from the map exactly the network answers that were not
    accessed after the threshold, keeps the local ones, and reports how many
    were removed. *)
Theorem prune_removes_old c f now : represents c f -> in_order c (lru c) ->
  let exp := now + pruneThreshold c in
  exists n c', prune c now = Ok (n, c') /\ wf c' /\ (n + length (lru c'))%nat = length (lru c) /\
    forall k m, cached c' k = Some m <->
      f k = Some m /\ exists a an, live c a an /\ key an = k /\ (el an = None \/ exp < accessedAt an).
Proof.
  intros [Hc Hrep] Hord exp.
  destruct (prune_good c now Hc) as (k & c' & Hprune & Hc' & Hlru & Hk & Hold & Hhead & HL).
  exists k, c'. split; [done|]. split; [done|]. split; [rewrite Hlru, length_drop; lia|].
  pose proof (in_order_tail c k (lru c) Hord) as Htail.
  assert (Hlive : forall a an, live c a an -> (a ∉ (take k (lru c)).*2) <-> (el an = None \/ exp < accessedAt an)).
  { intros a an Ha. split.
    - intros Hni. destruct (el an) as [e|] eqn:He; [|by left]. right.
      pose proof (wf_el c Hc a an e Ha He) as Hin. rewrite <- (take_drop k (lru c)) in Hin.
      apply elem_of_app in Hin as [Hin|Hin].
      + destruct Hni. apply list_elem_of_fmap. by exists (e, a).
      + destruct (drop k (lru c)) as [|[e1 a1] rest]; [by apply not_elem_of_nil in Hin|].
        destruct Hhead as (an1 & Hl1 & Hlt). apply elem_of_cons in Hin as [Heq|Hin].
        * simplify_eq. assert (an = an1) as -> by (by eapply live_fun). done.
        * pose proof (Htail an1 e a an Hl1 Hin Ha). lia.
    - intros Hcase Hin. rewrite Forall_forall in Hold. pose proof (Hold a Hin) as (bn & Hb & Hacc).
      assert (bn = an) as -> by (by eapply live_fun). destruct Hcase as [He|Hlt]; [|unfold exp in Hlt; lia].
      apply list_elem_of_fmap in Hin as ([e a'] & [= ->] & Hin).
      assert (Hi : (e, a') ∈ lru c) by (rewrite <- (take_drop k (lru c)); apply elem_of_app; by left).
      destruct (wf_lru c Hc e a' Hi) as (_ & bn & Hb' & He').
      assert (bn = an) as -> by (by eapply live_fun). congruence. }
  intros q m. rewrite cached_live by done. rewrite <- Hrep. split.
  - intros (a & an & Ha & Hkey & Hm). apply HL in Ha as [Ha Hni]. split.
    + apply cached_live; [done|]. eauto.
    + exists a, an. split; [done|]. split; [done|]. by apply (Hlive a an Ha).
  - intros [Hf (a & an & Ha & Hkey & Hcase)]. exists a, an. split; [apply HL; split; [done|by apply (Hlive a an Ha)]|].
    split; [done|]. apply cached_live in Hf as (b & bn & Hb & Hkb & Hm); [|done].
    assert (a = b) as -> by (by eapply (wf_key c Hc); eauto; congruence).
    assert (an = bn) as -> by (by eapply live_fun). done.
Qed.

(** ** Every reachable cache is well formed *)

(** The operations of the server on its caches.  An answer that [get] returned
    is read, without the lock, while it is in the caches. *)
Inductive step (c : caches) : caches -> Prop :=
| step_upsert nu m isLocal now b c' :
    hp c !! nu = None -> caches_upsert (set_hp c (<[nu := newAnswer m isLocal now]> (hp c))) nu = Ok (b, c') -> step c c'
| step_get name t cl now b r c' : caches_get c name t cl now = Ok (b, r, c') -> step c c'
| step_read a an now p h : live c a an -> answer_get (hp c) a now = Ok (p, h) -> step c (set_hp c h)
| step_prune now n c' : prune c now = Ok (n, c') -> step c c'.

Lemma newCaches_wf thr : wf (newCaches thr).
Proof.
  unfold newCaches. split; cbn [v hp lru next].
  - intros name ans a H. by rewrite lookup_empty in H.
  - intros name ans H. by rewrite lookup_empty in H.
  - intros a an b bn (ans & H & _). cbn in H. by rewrite lookup_empty in H.
  - apply NoDup_nil_2.
  - intros e a H. by apply not_elem_of_nil in H.
  - intros a an e (ans & H & _). cbn in H. by rewrite lookup_empty in H.
  - intros a an (ans & H & _). cbn in H. by rewrite lookup_empty in H.
Qed.

Lemma newCaches_cached thr k : cached (newCaches thr) k = None.
Proof. unfold cached, newCaches. cbn [v]. by rewrite lookup_empty. Qed.

(** A new object on the heap is not in the caches. *)
Lemma alloc_good c nu m isLocal now : wf c -> hp c !! nu = None ->
  let c1 := set_hp c (<[nu := newAnswer m isLocal now]> (hp c)) in
  wf c1 /\ (forall k, cached c1 k = cached c k) /\ fresh c1 nu (newAnswer m isLocal now) m.
Proof.
  intros Hc Hnone c1.
  assert (Hne : forall a an, live c a an -> a ≠ nu) by (intros a an (? & _ & _ & H) ->; congruence).
  assert (Hr : retouched c (<[nu := newAnswer m isLocal now]> (hp c)) (fun _ an => an)).
  { split; intros a an Ha; try done.
    - rewrite lookup_insert_ne by (apply not_eq_sym; by eapply Hne). by destruct Ha as (? & _ & _ & ->).
    - destruct Ha as (ans & Hv & Hin & Hh). destruct (wf_in c Hc _ _ _ Hv Hin) as (an' & Hh' & _ & Hs). by simplify_eq.
    - by eapply wf_received. }
  split; [by eapply retouched_wf|]. split; [by eapply retouched_cached|]. split.
  - apply lookup_insert_eq.
  - by destruct isLocal.
  - by destruct isLocal.
  - intros name ans Hv Hin. cbn in Hv. destruct (wf_in c Hc _ _ _ Hv Hin) as (an & Hh & _). congruence.
Qed.

(** Reading an answer changes its message and access time only. *)
Lemma answer_get_inv h a now p h' : answer_get h a now = Ok (p, h') ->
  exists an an', h !! a = Some an /\ h' = <[a := an']> h /\ key an' = key an /\ el an' = el an /\
    receivedAt an' = receivedAt an /\ exists m', msg an' = Some m' /\ p = Packet m'.
Proof.
  unfold answer_get, updateTTL, deref. destruct (h !! a) as [an|] eqn:Ha; [|done]. cbn [mbind outcome_bind].
  destruct (receivedAt an =? 0).
  - cbn [mbind outcome_bind]. rewrite Ha. cbn [mbind outcome_bind]. destruct (msg an) as [m|] eqn:Hm; [|done].
    intros [= <- <-]. exists an, an. rewrite insert_id by done. eauto 10.
  - cbn [msg set_accessed set_times]. destruct (msg an) as [m|]; [|done].
    destruct (SubTTL m _) as [m'|e| |]; try done. cbn [mbind outcome_bind].
    rewrite lookup_insert_eq. cbn [mbind outcome_bind msg set_msg]. intros [= <- <-].
    exists an. eexists. split; [done|]. split; [done|]. repeat (split; [done|]). eauto.
Qed.

(** A cached answer that gets another message. *)
Lemma retouch_one c a an an' m' : wf c -> live c a an -> key an' = key an -> el an' = el an ->
  receivedAt an' = receivedAt an -> msg an' = Some m' ->
  let c' := set_hp c (<[a := an']> (hp c)) in
  wf c' /\ forall k, cached c' k = if decide (k = key an) then Some m' else cached c k.
Proof.
  intros Hc Ha Hk Hel Hrec Hm c'.
  assert (Hr : retouched c (<[a := an']> (hp c)) (fun b bn => if decide (b = a) then an' else bn)).
  { split; intros b bn Hb; (destruct (decide (b = a)) as [->|Hne]; [assert (bn = an) as -> by (by eapply live_fun)|]); try done.
    - by rewrite lookup_insert_eq.
    - rewrite lookup_insert_ne by done. by destruct Hb as (? & _ & _ & ->).
    - destruct Hb as (ans & Hv & Hin & Hh). destruct (wf_in c Hc _ _ _ Hv Hin) as (bn' & Hb' & _ & Hs). by simplify_eq.
    - rewrite Hrec. by eapply wf_received.
    - by eapply wf_received. }
  pose proof (retouched_wf c _ _ Hc Hr) as Hc'. split; [done|]. intros k. apply option_eq. intros m.
  rewrite cached_live by done. unfold c'. setoid_rewrite (fun b bn => retouched_live c _ _ b bn Hc Hr). case_decide as Hd.
  - split.
    + intros (b & bn & (b0 & Hb & ->) & Hkb & Hmb). case_decide as Hba; [congruence|]. destruct Hba. apply (wf_key c Hc b b0 a an Hb Ha). congruence.
    + intros [= <-]. exists a, an'. split; [exists an; by rewrite decide_True|]. by rewrite Hk.
  - rewrite cached_live by done. split.
    + intros (b & bn & (b0 & Hb & ->) & Hkb & Hmb). case_decide as Hba; [by rewrite Hk in Hkb|]. eauto.
    + intros (b & bn & Hb & Hkb & Hmb). exists b, bn. split; [|done]. exists bn. split; [done|]. rewrite decide_False; [done|].
      intros ->. assert (bn = an) as -> by (by eapply live_fun). congruence.
Qed.

Lemma step_wf c c' : wf c -> step c c' -> wf c'.
Proof.
  intros Hc. destruct 1 as [nu m isLocal now b c' Hn Hup|name t cl now b r c' Hget|a an now p h Ha Hread|now n c' Hprune].
  - destruct (alloc_good c nu m isLocal now Hc Hn) as (Hc1 & _ & Hf).
    destruct (upsert_good _ _ _ _ Hc1 Hf) as (b' & c1 & Hup' & Hc1' & _). congruence.
  - destruct (get_good c name t cl now Hc) as (b' & r' & c1 & Hget' & Hc1 & _). congruence.
  - apply answer_get_inv in Hread as (an0 & an' & Hh & -> & Hk & Hel & Hrec & m' & Hm & _).
    pose proof Ha as (_ & _ & _ & Hh'). assert (an0 = an) as -> by congruence.
    apply (retouch_one c a an an' m'); done.
  - destruct (prune_good c now Hc) as (k & c1 & Hprune' & Hc1 & _). congruence.
Qed.

(** C26: in every state that the caches reach from empty ones, by inserting or
    updating new answers, looking up, reading and pruning in any order, the map
    and the list of recently used answers agree: each name has its own answers,
    at most one per type and class and each with a message, every answer of the
    network is in the list exactly once, and every element of the list is an
    answer that the map holds. *)
Theorem reachable_wf thr c : rtc step (newCaches thr) c -> wf c.
Proof.
  intros Hr. pose proof (newCaches_wf thr) as Hwf. induction Hr as [|c1 c2 c3 Hs _ IH]; [done|].
  apply IH. by eapply step_wf.
Qed.

(** ** Where the list is not in order *)

(** An update of a cached answer takes the access time of the new answer
    but leaves the answer where it is in the list.  When that is the front,
    pruning then removes nothing, however old the other answers are, as long as
    the updated one is not old. *)
Theorem prune_blocked_by_update c e a an l nu n m now : wf c -> lru c = (e, a) :: l -> live c a an ->
  0 < receivedAt an -> fresh c nu n m -> key an = key n -> now + pruneThreshold c < accessedAt n ->
  exists c', caches_upsert c nu = Ok (false, c') /\ prune c' now = Ok (0%nat, c').
Proof.
  intros Hc Hlru Hl Hpos Hf Hk Hnow.
  destruct (caches_upsert_eq c nu n m Hc Hf) as [(a' & an' & Hl' & Hk' & Hup)|[Hno _]]; [|by destruct (Hno a an Hl)].
  assert (a' = a) as -> by (apply (wf_key c Hc a' an' a an Hl' Hl); congruence).
  assert (an' = an) as -> by (by eapply live_fun). eexists. split; [exact Hup|].
  unfold prune. cbn [lru set_hp hp pruneThreshold]. rewrite Hlru. cbn [prune_loop hp set_hp]. unfold deref.
  rewrite lookup_insert_ne by (by apply not_eq_sym, (live_not_nu c nu n m a an)). rewrite lookup_insert_eq.
  cbn [mbind outcome_bind]. unfold merged. rewrite (proj2 (Z.ltb_lt 0 (receivedAt an))) by done. cbn [accessedAt set_msg set_times].
  by rewrite (proj2 (Z.ltb_lt _ (accessedAt n))) by done.
Qed.

(** A local answer (of the hosts file or a master file) that updates an
    answer of the network is pruned at the next round when it is at the front
    of the list, although local answers are never to be pruned. *)
Theorem local_update_is_pruned c e a an l nu m now : wf c -> lru c = (e, a) :: l -> live c a an ->
  0 < receivedAt an -> fresh c nu (newAnswer m true now) m -> key an = key (newAnswer m true now) ->
  0 <= now + pruneThreshold c ->
  exists c' n c'', caches_upsert c nu = Ok (false, c') /\ cached c' (key an) = Some m /\
    prune c' now = Ok (n, c'') /\ cached c'' (key an) = None.
Proof.
  intros Hc Hlru Hl Hpos Hf Hk Hnow. set (n := newAnswer m true now) in *.
  destruct (upsert_good c nu n m Hc Hf) as (b & c' & Hup & Hc' & _ & Hcached).
  destruct (caches_upsert_eq c nu n m Hc Hf) as [(a' & an' & Hl' & Hk' & Hup')|[Hno _]]; [|by destruct (Hno a an Hl)].
  assert (a' = a) as -> by (apply (wf_key c Hc a' an' a an Hl' Hl); congruence).
  assert (an' = an) as -> by (by eapply live_fun). rewrite Hup in Hup'. injection Hup' as -> Hc1.
  destruct (prune_good c' now Hc') as (k & c'' & Hprune & Hc'' & _ & _ & _ & Hhead & HL).
  exists c', k, c''. split; [done|]. split; [rewrite Hcached, Hk; by rewrite decide_True|]. split; [done|].
  assert (Hlive : live c' a (merged an n)).
  { rewrite Hc1. apply (retouched_live c _ _ a _ Hc (update_retouched c a an nu n m Hc Hl Hf Hk)).
    exists an. by rewrite decide_True. }
  assert (Hm : accessedAt (merged an n) = 0) by (unfold merged; by rewrite (proj2 (Z.ltb_lt _ _)) by done).
  assert (Hlru' : lru c' = (e, a) :: l) by (by rewrite Hc1).
  assert (Hthr : pruneThreshold c' = pruneThreshold c) by (by rewrite Hc1).
  rewrite Hlru', Hthr in *. destruct k as [|k].
  { cbn [drop] in Hhead. destruct Hhead as (bn & Hb & Hacc).
    assert (bn = merged an n) as -> by (by eapply live_fun). lia. }
  apply cached_None; [done|]. intros b bn Hb Hkb. apply HL in Hb as [Hb Hni].
  apply Hni. cbn [take fmap list_fmap snd]. apply elem_of_cons. left.
  apply (wf_key c' Hc' b bn a (merged an n) Hb Hlive). rewrite Hkb.
  unfold merged. by destruct (0 <? receivedAt an).
Qed.

(** Reading an answer of the network a second time subtracts the whole age
    again from TTLs that the first read had already lowered: after reads at
    [t1] and [t2] each TTL has lost the sum of both ages, not the age at [t2]. *)
Theorem answer_get_compounds h a an m t1 t2 : h !! a = Some an -> 0 < receivedAt an -> msg an = Some m ->
  Forall (in_packet (Packet m)) (ttl_records m) -> all_apart (ttl_records m) ->
  Forall (fun rr => is_u32 (TTL rr)) (ttl_records m) ->
  0 <= t1 - receivedAt an < 2 ^ 32 -> 0 <= t2 - receivedAt an < 2 ^ 32 ->
  exists p1 h1 p2 h2, answer_get h a t1 = Ok (p1, h1) /\ answer_get h1 a t2 = Ok (p2, h2) /\
    Forall (fun rr => ReadUint32 (E := unit) p2 (offTTL rr)
      = Ok (Z.max 0 (TTL rr - ((t1 - receivedAt an) + (t2 - receivedAt an))))) (ttl_records m).
Proof.
  intros Ha Hpos Hm Hin Hap Hu H1 H2. set (n1 := t1 - receivedAt an) in *. set (n2 := t2 - receivedAt an) in *.
  assert (Hread : forall h an m n t p, h !! a = Some an -> receivedAt an ≠ 0 -> msg an = Some m ->
    u32 (t - receivedAt an) = n -> SubTTL (E := unit) m n = Ok (aged_message n m p) ->
    answer_get h a t = Ok (p, <[a := set_msg (set_accessed an t) (Some (aged_message n m p))]> h)).
  { clear. intros h an m n t p Ha Hr Hm Hn Hs. unfold answer_get, updateTTL, deref. rewrite Ha. cbn [mbind outcome_bind].
    rewrite (proj2 (Z.eqb_neq _ _)) by done. cbn [msg receivedAt set_accessed set_times]. rewrite Hm, Hn, Hs. cbn [mbind outcome_bind].
    rewrite lookup_insert_eq. done. }
  destruct (SubTTL_good (E := unit) m n1 Hin Hap Hu) as (p1 & Hs1 & Hl1 & _ & _); [lia|].
  destruct (ttl_records_aged m n1) as (f & Hrecs & Hoff & Hf). set (m1 := aged_message n1 m p1).
  assert (Hrecs1 : ttl_records m1 = f <$> ttl_records m) by (by rewrite <- Hrecs).
  destruct (SubTTL_good (E := unit) m1 n2) as (p2 & Hs2 & _ & _ & Hr2); [rewrite Hrecs1..|lia|].
  - apply Forall_fmap. eapply Forall_impl; [exact Hin|]. intros rr. unfold in_packet. cbn. by rewrite Hoff, Hl1.
  - by apply all_apart_fmap.
  - apply Forall_fmap. eapply Forall_impl; [exact Hu|]. intros rr Hrr. cbn. rewrite Hf. apply sub_TTL_max; [done|lia].
  - eexists p1, _, p2, _. split; [|split].
    + apply (Hread h an m n1); [done|lia|done| |done]. unfold u32. apply Z.mod_small. lia.
    + eapply (Hread _ _ m1 n2); [apply lookup_insert_eq|cbn; lia|done| |done].
      cbn. fold n2. unfold u32. apply Z.mod_small. lia.
    + rewrite Hrecs1, Forall_fmap, Forall_forall in Hr2. rewrite Forall_forall in Hu. apply Forall_forall.
      intros rr Hrr. destruct (Hr2 rr Hrr) as [_ Hrd]. rewrite Hoff, Hf in Hrd. cbn [TTL rr_TTL] in Hrd.
      destruct (sub_TTL_max n1 (TTL rr) (Hu rr Hrr)) as [Hsub _]; [lia|]. rewrite Hsub in Hrd. rewrite Hrd. f_equal. lia.
Qed.

(** ** Concrete caches *)

Definition demo_cached : Message :=
  mkMessage header_Reset (mkQuestion (str "kilabit.info") 1 1) [demo_rr 100 1 2] [] [] (replicate 8 255).
Definition demo_empty : caches := newCaches (-3600).
Definition demo_alloc : caches := set_hp demo_empty (<[0%nat := newAnswer demo_cached false 5000]> (hp demo_empty)).
Definition demo_one : caches := added demo_alloc 0 (newAnswer demo_cached false 5000).
Definition demo_two (l : bool) (now : Z) : caches := set_hp demo_one (<[1%nat := newAnswer demo_cached l now]> (hp demo_one)).

Lemma demo_alloc_good : represents demo_alloc (fun _ => None) /\
  fresh demo_alloc 0 (newAnswer demo_cached false 5000) demo_cached.
Proof.
  destruct (alloc_good demo_empty 0 demo_cached false 5000 (newCaches_wf _) eq_refl) as (H1 & H2 & H3).
  split; [|done]. split; [done|]. intros k. rewrite H2. apply newCaches_cached.
Qed.

Lemma demo_one_wf : wf demo_one.
Proof.
  destruct demo_alloc_good as [[Hc Hn] Hf]. apply (added_wf _ _ _ demo_cached Hc Hf).
  by apply cached_None.
Qed.

Lemma demo_two_good l now : wf (demo_two l now) /\ fresh (demo_two l now) 1 (newAnswer demo_cached l now) demo_cached.
Proof. destruct (alloc_good demo_one 1 demo_cached l now demo_one_wf eq_refl) as (H1 & _ & H3). by split. Qed.

Lemma demo_two_live l now : live (demo_two l now) 0 (set_el (newAnswer demo_cached false 5000) (Some 0%nat)).
Proof. exists [0%nat]. repeat split; try reflexivity. by apply list_elem_of_singleton. Qed.

Lemma upsert_refines_witness : exists c', caches_upsert demo_alloc 0 = Ok (true, c') /\
  represents c' (fun k => if decide (k = (str "kilabit.info", 1, 1)) then Some demo_cached else None).
Proof.
  destruct demo_alloc_good as [Hr Hf]. destruct (upsert_refines _ _ _ _ _ Hr Hf) as (c' & H1 & H2).
  exists c'. split; [exact H1|exact H2].
Defined.

Lemma get_refines_witness : exists b c', caches_get demo_empty (str "kilabit.info") 1 1 7 = Ok (b, None, c') /\ represents c' (fun _ => None).
Proof.
  destruct (get_refines demo_empty (fun _ => None) (str "kilabit.info") 1 1 7) as (b & r & c' & H1 & H2 & H3);
    [split; [apply newCaches_wf|apply newCaches_cached]|].
  destruct r as [a|]; [discriminate H1|]. exists b, c'. split; [exact H1|exact H2].
Defined.

Lemma prune_removes_old_witness : exists n c', prune demo_one 8600 = Ok (n, c') /\ cached c' (str "kilabit.info", 1, 1) = None.
Proof.
  destruct (prune_removes_old demo_one (cached demo_one) 8600) as (n & c' & H1 & H2 & _ & H4).
  - split; [apply demo_one_wf|reflexivity].
  - split; [|exact I]. intros an e b bn _ H. by apply not_elem_of_nil in H.
  - exists n, c'. split; [exact H1|]. destruct (cached c' _) as [m|] eqn:E; [|reflexivity].
    apply H4 in E as [_ (a & an & (ans & Hv & Hin & Hh) & Hk & Hcase)]. unfold key in Hk. injection Hk as Hq _ _.
    rewrite Hq in Hv. vm_compute in Hv. injection Hv as <-. apply list_elem_of_singleton in Hin as ->.
    vm_compute in Hh. injection Hh as <-. cbn in Hcase. destruct Hcase as [H|H]; [discriminate H|].
    unfold pruneThreshold in H. cbn in H. lia.
Defined.

Lemma reachable_wf_witness : rtc step demo_empty demo_one /\ wf demo_one.
Proof.
  assert (H : rtc step demo_empty demo_one).
  { apply rtc_once. eapply (step_upsert demo_empty 0 demo_cached false 5000); reflexivity. }
  split; [exact H|exact (reachable_wf (-3600) demo_one H)].
Defined.

Lemma prune_blocked_by_update_witness :
  exists c', caches_upsert (demo_two false 9000) 1 = Ok (false, c') /\ prune c' 9000 = Ok (0%nat, c').
Proof.
  destruct (demo_two_good false 9000) as [Hc Hf].
  apply (prune_blocked_by_update _ 0 0 _ [] 1 (newAnswer demo_cached false 9000) demo_cached 9000 Hc eq_refl (demo_two_live false 9000));
    [cbn; lia|exact Hf|reflexivity|cbn; lia].
Defined.

Lemma local_update_is_pruned_witness :
  exists c' n c'', caches_upsert (demo_two true 9000) 1 = Ok (false, c') /\ cached c' (str "kilabit.info", 1, 1) = Some demo_cached /\
    prune c' 9000 = Ok (n, c'') /\ cached c'' (str "kilabit.info", 1, 1) = None.
Proof.
  destruct (demo_two_good true 9000) as [Hc Hf].
  apply (local_update_is_pruned _ 0 0 _ [] 1 demo_cached 9000 Hc eq_refl (demo_two_live true 9000));
    [cbn; lia|exact Hf|reflexivity|cbn; lia].
Defined.

Lemma answer_get_compounds_witness : exists p1 h1 p2 h2,
  answer_get (hp demo_one) 0 5010 = Ok (p1, h1) /\ answer_get h1 0 5020 = Ok (p2, h2) /\ ReadUint32 (E := unit) p2 2 = Ok 70.
Proof.
  destruct (answer_get_compounds (hp demo_one) 0 (set_el (newAnswer demo_cached false 5000) (Some 0%nat)) demo_cached 5010 5020)
    as (p1 & h1 & p2 & h2 & H1 & H2 & H3);
    [reflexivity|cbn; lia|reflexivity|apply (bool_decide_unpack _); vm_compute; exact I..|cbn; lia|cbn; lia|].
  exists p1, h1, p2, h2. split; [exact H1|split; [exact H2|exact (Forall_inv H3)]].
Defined.
