(* ===== verification/DnsUnpack.v ===== *)
(** Package [lib/dns], files [resourcerecord.go], [rdata*.go] and the unpacking
    half of [message.go].  The bytes of names are lowered in the packet as they
    are read, so unpacking returns the packet too.  A slice expression past the
    length of the packet is taken as a panic: the capacity is the length. *)

From Stdlib Require Import ZArith Lia.
From S2P Require Import Prelude Ascii Bytes NetIP DnsHeader DnsMessage.

Local Open Scope Z_scope.

Inductive dns_error : Type :=
| ErrLabelSizeLimit | ErrIPv4Length | ErrIPv6Length | ErrOptLength | ErrQuestion | ErrNoQuestion.

Definition D := outcome dns_error.

(** The bytes of one label, lowered in the packet. *)
Fixpoint unpack_label (count : nat) (out packet : list Z) (x : nat) : D (list Z * list Z) :=
  match count with
  | O => Ok (out, packet)
  | S count =>
      bp ← lower_at packet x;
      unpack_label count (out ++ [bp.1]) bp.2 (S x)
  end.

(** [ResourceRecord.unpackDomainName]: the name, the packet and [rr.off], the
    index of the second byte of the first pointer.  The code's recursion has no
    bound; [fuel] counts the calls. *)
Fixpoint unpackDomainName (fuel : nat) (out packet : list Z) (off x : nat) : D (list Z * list Z * nat) :=
  match fuel with
  | O => NoFuel
  | S fuel =>
      if decide (length packet <= x)%nat then Err ErrLabelSizeLimit
      else
        count ← get_at packet x;
        if count =? 0 then Ok (out, packet, off)
        else if Z.land count maskPointer =? maskPointer then
          b ← get_at packet (x + 1)%nat;
          let offset := Z.lor (Z.shiftl (Z.land count maskOffset) 8) b in
          let off := if decide (off = 0%nat) then (x + 1)%nat else off in
          unpackDomainName fuel out packet off (Z.to_nat offset)
        else if maxLabelSize <? count then Err ErrLabelSizeLimit
        else
          let out := if decide (0 < length out)%nat then out ++ [46] else out in
          op ← unpack_label (Z.to_nat count) out packet (S x);
          unpackDomainName fuel op.1 op.2 off (S x + Z.to_nat count)
  end.

(** A name of a packet, from the start.  Between two calls that lower a byte of
    the packet no index is visited twice, or the recursion would never return:
    this many calls are enough ([unpackName_fuel]). *)
Definition name_fuel (packet : list Z) : nat := S (length packet * S (length packet)).
Definition unpackName (packet : list Z) (off x : nat) : D (list Z * list Z * nat) :=
  unpackDomainName (name_fuel packet) [] packet off x.

(** The index past a name that started at [x]. *)
Definition after_name (off x : nat) (name : list Z) : nat :=
  if decide (0 < off)%nat then (off + 1)%nat else (x + length name + 2)%nat.

(** The unpackers of rdata get the record with [rdlen] and [rdata] set, and
    return it with the packet. *)
Definition R : Type := D (ResourceRecord * list Z).

Definition unpackA (rr : ResourceRecord) (packet : list Z) : R :=
  if bool_decide (rdlen rr ≠ Z.of_nat rdataIPv4Size \/ length (rdata rr) ≠ rdataIPv4Size)
  then Err ErrIPv4Length
  else Ok (rr_Text rr (Some (IP_String (rdata rr))), packet).

Definition unpackAAAA (rr : ResourceRecord) (packet : list Z) : R :=
  if bool_decide (rdlen rr ≠ Z.of_nat rdataIPv6Size \/ length (rdata rr) ≠ rdataIPv6Size)
  then Err ErrIPv6Length
  else Ok (rr_Text rr (Some (IP_String (rdata rr))), packet).

Definition unpackTextName (rr : ResourceRecord) (packet : list Z) (x : nat) : R :=
  r ← unpackName packet (rrOff rr) x;
  let '(name, packet, off) := r in
  Ok (rr_off (rr_Text rr (Some name)) off, packet).

Definition unpackMInfo (rr : ResourceRecord) (packet : list Z) (x : nat) : R :=
  r ← unpackName packet 0 x;
  let '(rmail, packet, off) := r in
  let x := after_name off x rmail in
  r ← unpackName packet 0 x;
  let '(email, packet, off) := r in
  Ok (rr_off (rr_MInfo rr (Some (mkMINFO rmail email))) off, packet).

Definition unpackMX (rr : ResourceRecord) (packet : list Z) (x : nat) : R :=
  pref ← ReadInt16 packet x;
  r ← unpackName packet 0 (x + 2);
  let '(name, packet, off) := r in
  Ok (rr_off (rr_MX rr (Some (mkMX pref name))) off, packet).

(** Service, proto and name are the pieces of the owner name. *)
Fixpoint until_dot (s : list Z) : list Z * list Z :=
  match s with
  | [] => ([], [])
  | c :: s => if c =? 46 then ([], s) else let '(a, b) := until_dot s in (c :: a, b)
  end.

Definition unpackSRV (rr : ResourceRecord) (packet : list Z) (x : nat) : R :=
  let '(service, rest) := until_dot (rrName rr) in
  let '(proto, name) := until_dot rest in
  p ← ReadUint16 packet x;
  w ← ReadUint16 packet (x + 2);
  port ← ReadUint16 packet (x + 4);
  r ← unpackName packet (rrOff rr) (x + 6);
  let '(target, packet, off) := r in
  Ok (rr_off (rr_SRV rr (Some (mkSRV service proto name p w port target))) off, packet).

Definition unpackOPT (rr : ResourceRecord) (packet : list Z) (x : nat) : R :=
  let ext := u8 (Z.shiftr (TTL rr) 24) in
  let ver := u8 (Z.shiftr (TTL rr) 16) in
  let dok := Z.land (TTL rr) maskOPTDO =? maskOPTDO in
  if rdlen rr =? 0 then Ok (rr_OPT rr (Some (mkOPT ext ver dok 0 0 [])), packet)
  else
    code ← ReadUint16 packet x;
    len ← ReadUint16 packet (x + 2);
    let x := (x + 4)%nat in
    let endIdx := (x + Z.to_nat (rdlen rr))%nat in
    if decide (length packet <= endIdx)%nat then Err ErrOptLength
    else
      d ← slice packet x endIdx;
      Ok (rr_OPT rr (Some (mkOPT ext ver dok code len d)), packet).

Definition unpackSOA (rr : ResourceRecord) (packet : list Z) (x : nat) : R :=
  r ← unpackName packet 0 x;
  let '(mname, packet, off) := r in
  let x := after_name off x mname in
  r ← unpackName packet 0 x;
  let '(rname, packet, off) := r in
  let x := after_name off x rname in
  serial ← ReadUint32 packet x;
  refresh ← ReadInt32 packet (x + 4);
  retry ← ReadInt32 packet (x + 8);
  expire ← ReadInt32 packet (x + 12);
  minimum ← ReadUint32 packet (x + 16);
  Ok (rr_off (rr_SOA rr (Some (mkSOA mname rname serial refresh retry expire minimum))) 0, packet).

(** [RDataWKS.unpack] and [RDataHINFO.unpack]. *)
Definition wks_unpack (data : list Z) : D RDataWKS :=
  a ← slice data 0 4;
  p ← get_at data 4;
  b ← slice data 5 (length data);
  Ok (mkWKS a p b).

Fixpoint zero_index (s : list Z) : nat :=
  match s with [] => 0 | c :: s => if c =? 0 then 0 else S (zero_index s) end.

Definition hinfo_unpack (data : list Z) : D RDataHINFO :=
  let x := zero_index data in
  cpu ← slice data 0 x;
  os ← slice data (x + 1) (length data);
  Ok (mkHINFO cpu os).

(** [ResourceRecord.unpackRData]. *)
Definition unpackRData (rr : ResourceRecord) (packet : list Z) (x : nat) : R :=
  let t := rrType rr in
  let endIdx := (x + Z.to_nat (rdlen rr))%nat in
  if t =? QueryTypeA then unpackA rr packet
  else if t =? QueryTypeNS then unpackTextName rr packet x
  else if t =? QueryTypeMD then Ok (rr, packet)
  else if t =? QueryTypeMF then Ok (rr, packet)
  else if t =? QueryTypeCNAME then unpackTextName rr packet x
  else if t =? QueryTypeSOA then unpackSOA rr packet x
  else if t =? QueryTypeMB then unpackTextName rr packet x
  else if t =? QueryTypeMG then unpackTextName rr packet x
  else if t =? QueryTypeMR then unpackTextName rr packet x
  else if t =? QueryTypeNULL then
    d ← slice packet x (x + endIdx);
    Ok (rr_Text rr (Some d), packet)
  else if t =? QueryTypeWKS then
    d ← slice packet x endIdx; w ← wks_unpack d; Ok (rr_WKS rr (Some w), packet)
  else if t =? QueryTypePTR then unpackTextName rr packet x
  else if t =? QueryTypeHINFO then
    d ← slice packet x endIdx; h ← hinfo_unpack d; Ok (rr_HInfo rr (Some h), packet)
  else if t =? QueryTypeMINFO then unpackMInfo rr packet x
  else if t =? QueryTypeMX then unpackMX rr packet x
  else if t =? QueryTypeTXT then
    d ← slice packet (x + 1) endIdx; Ok (rr_Text rr (Some d), packet)
  else if t =? QueryTypeAAAA then unpackAAAA rr packet
  else if t =? QueryTypeSRV then unpackSRV rr packet x
  else if t =? QueryTypeOPT then unpackOPT rr packet x
  else Ok (rr, packet).

(** [ResourceRecord.unpack] of a new record: the record, the packet and the
    index past it. *)
Definition rr_unpack (packet : list Z) (startIdx : nat) : D (ResourceRecord * list Z * nat) :=
  r ← unpackName packet 0 startIdx;
  let '(name, packet, off) := r in
  let x := if decide (0 < off)%nat then (off + 1)%nat
           else if decide (length name = 0%nat) then (startIdx + 1)%nat
           else (startIdx + length name + 2)%nat in
  t ← ReadUint16 packet x;
  c ← ReadUint16 packet (x + 2);
  ttl ← ReadUint32 packet (x + 4);
  len ← ReadUint16 packet (x + 8);
  let x' := (x + 10)%nat in
  data ← slice packet x' (x' + Z.to_nat len);
  let rr := mkRR name t c ttl len data (Some []) None None None None None None None off (x + 4) in
  r ← unpackRData rr packet x';
  Ok (r.1, r.2, (x' + Z.to_nat len)%nat).

Fixpoint unpackRRs (n : nat) (packet : list Z) (startIdx : nat) : D (list ResourceRecord * list Z * nat) :=
  match n with
  | O => Ok ([], packet, startIdx)
  | S n =>
      r ← rr_unpack packet startIdx;
      let '(rr, packet, startIdx) := r in
      r ← unpackRRs n packet startIdx;
      let '(rrs, packet, startIdx) := r in
      Ok (rr :: rrs, packet, startIdx)
  end.

(** [Message.UnpackHeaderQuestion]: the question is read from the packet past
    the header, and lowered there. *)
Definition UnpackHeaderQuestion (m : Message) : D Message :=
  h ← header_unpack (Header m) (Packet m);
  if decide (length (Packet m) <= sectionHeaderSize)%nat then Err ErrNoQuestion
  else
    match question_unpack (Question m) (drop sectionHeaderSize (Packet m)) with
    | Ok (q, p) =>
        Ok (mkMessage h q (Answer m) (Authority m) (Additional m) (take sectionHeaderSize (Packet m) ++ p))
    | Err _ => Err ErrQuestion
    | Panic => Panic
    | NoFuel => NoFuel
    end.

(** [Message.Unpack]: the records are appended to the sections. *)
Definition Unpack (m : Message) : D Message :=
  m ← UnpackHeaderQuestion m;
  let startIdx := (sectionHeaderSize + question_size (Question m))%nat in
  r ← unpackRRs (Z.to_nat (ANCount (Header m))) (Packet m) startIdx;
  let '(a, p, startIdx) := r in
  r ← unpackRRs (Z.to_nat (NSCount (Header m))) p startIdx;
  let '(b, p, startIdx) := r in
  r ← unpackRRs (Z.to_nat (ARCount (Header m))) p startIdx;
  let '(c, p, _) := r in
  Ok (mkMessage (Header m) (Question m) (Answer m ++ a) (Authority m ++ b) (Additional m ++ c) p).

(** ** The bound on the recursion is enough *)

(** One call of [unpackDomainName]: what it does before its recursive call, or
    its result. *)
Definition call : Type := list Z * list Z * nat * nat.
Definition name_step (c : call) : call + D (list Z * list Z * nat) :=
  let '(out, packet, off, x) := c in
  if decide (length packet <= x)%nat then inr (Err ErrLabelSizeLimit)
  else
    match get_at (E := dns_error) packet x with
    | Ok count =>
        if count =? 0 then inr (Ok (out, packet, off))
        else if Z.land count maskPointer =? maskPointer then
          match get_at (E := dns_error) packet (x + 1)%nat with
          | Ok b =>
              inl (out, packet, if decide (off = 0%nat) then (x + 1)%nat else off,
                   Z.to_nat (Z.lor (Z.shiftl (Z.land count maskOffset) 8) b))
          | _ => inr Panic
          end
        else if maxLabelSize <? count then inr (Err ErrLabelSizeLimit)
        else
          match unpack_label (Z.to_nat count) (if decide (0 < length out)%nat then out ++ [46] else out)
                  packet (S x) with
          | Ok op => inl (op.1, op.2, off, (S x + Z.to_nat count)%nat)
          | Err e => inr (Err e)
          | Panic => inr Panic
          | NoFuel => inr NoFuel
          end
    | _ => inr Panic
    end.

Lemma unpackDomainName_step fuel out packet off x :
  unpackDomainName (S fuel) out packet off x =
  match name_step (out, packet, off, x) with
  | inl (out, packet, off, x) => unpackDomainName fuel out packet off x
  | inr r => r
  end.
Proof.
  cbn [unpackDomainName name_step]. case_decide; [done|].
  destruct (get_at packet x) as [count|e| |] eqn:Hx; try done; [|unfold get_at in Hx; by case_match..].
  cbn [mbind outcome_bind]. destruct (count =? 0); [done|]. destruct (_ =? maskPointer).
  - destruct (get_at packet (x + 1)) as [b|e| |] eqn:Hb; try done; unfold get_at in Hb; by case_match.
  - destruct (maxLabelSize <? count); [done|].
    by destruct (unpack_label _ _ _ _) as [[o p]|e| |].
Qed.

(** How many bytes of the packet are still in upper case. *)
Definition is_upper (b : Z) : bool := (65 <=? b) && (b <=? 90).
Fixpoint uppers (p : list Z) : nat :=
  match p with [] => 0 | b :: p => (if is_upper b then 1 else 0) + uppers p end.

Lemma uppers_le p : (uppers p <= length p)%nat.
Proof. induction p as [|b p IH]; simpl; [lia|]. destruct (is_upper b); lia. Qed.

(** Lowering keeps the packet or takes an upper-case byte from it. *)
Definition lowers (p p' : list Z) : Prop :=
  length p' = length p /\ (p' = p \/ uppers p' < uppers p)%nat.

#[local] Instance lowers_preorder : PreOrder lowers.
Proof.
  split; [intros p; split; auto|].
  intros p1 p2 p3 [L1 H1] [L2 H2]. split; [congruence|].
  destruct H1 as [-> |H1], H2 as [-> |H2]; auto; right; lia.
Qed.

Lemma uppers_insert p x b : p !! x = Some b -> is_upper b = true ->
  (uppers (<[x := (b + 32)%Z]> p) < uppers p)%nat.
Proof.
  revert x. induction p as [|c p IH]; intros x; [done|].
  destruct x as [|x]; simpl; intros Hx Hb.
  - injection Hx as ->. rewrite Hb. unfold is_upper in *.
    apply andb_true_iff in Hb as [H1%Z.leb_le H2%Z.leb_le].
    rewrite (proj2 (Z.leb_gt (b + 32) 90)) by lia. rewrite andb_false_r. lia.
  - specialize (IH x Hx Hb). lia.
Qed.

Lemma lower_at_lowers {E} p x b p' : lower_at (E := E) p x = Ok (b, p') -> lowers p p'.
Proof.
  unfold lower_at, get_at. destruct (p !! x) as [c|] eqn:Hx; [|done]. cbn [mbind outcome_bind].
  destruct ((65 <=? c) && (c <=? 90)) eqn:Hu; intros [= <- <-]; [|reflexivity].
  split; [apply length_insert|]. right. by apply uppers_insert.
Qed.

Lemma unpack_label_lowers count : forall out p x op,
  unpack_label count out p x = Ok op -> lowers p op.2.
Proof.
  induction count as [|count IH]; intros out p x op; cbn [unpack_label].
  - intros [= <-]. reflexivity.
  - intros Hb. apply bind_Ok_inv in Hb as ([b p1] & H1 & Hb). apply lower_at_lowers in H1.
    etrans; [exact H1|]. by apply (IH _ _ _ _ Hb).
Qed.

Lemma name_step_lowers out p off x out' p' off' x' :
  name_step (out, p, off, x) = inl (out', p', off', x') -> lowers p p' /\ (x < length p)%nat.
Proof.
  unfold name_step. case_decide as Hx; [done|]. intros Hs. split; [|lia]. revert Hs.
  destruct (get_at p x) as [count|e| |]; try done.
  destruct (count =? 0); [done|]. destruct (_ =? maskPointer).
  - destruct (get_at p (x + 1)); try done. intros [= _ <- _ _]. reflexivity.
  - destruct (maxLabelSize <? count); [done|].
    destruct (unpack_label _ _ _ _) as [op|e| |] eqn:Hl; try done.
    intros [= _ <- _ _]. by apply unpack_label_lowers in Hl.
Qed.

(** The packet and the index decide where the recursion goes. *)
Definition place (c : call) : list Z * nat := let '(_, p, _, x) := c in (p, x).

Lemma unpack_label_packet count : forall out out2 p x op, unpack_label count out p x = Ok op ->
  exists op2, unpack_label count out2 p x = Ok op2 /\ op2.2 = op.2.
Proof.
  induction count as [|count IH]; intros out out2 p x op; cbn [unpack_label].
  - intros [= <-]. eauto.
  - intros Hb. apply bind_Ok_inv in Hb as ([b p1] & -> & Hb). cbn [mbind outcome_bind fst snd] in *. eauto.
Qed.

Lemma name_step_place c d c' : name_step c = inl c' -> place c = place d ->
  exists d', name_step d = inl d' /\ place c' = place d'.
Proof.
  destruct c as [[[o p] f] x], d as [[[o2 p2] f2] x2]. cbn [place]. intros Hs [= <- <-]. revert Hs.
  unfold name_step. case_decide; [done|]. destruct (get_at p x) as [count|e| |]; try done.
  destruct (count =? 0); [done|]. destruct (_ =? maskPointer).
  - destruct (get_at p (x + 1)) as [b|e| |]; try done. intros [= <-]. eauto.
  - destruct (maxLabelSize <? count); [done|].
    destruct (unpack_label (Z.to_nat count) _ p (S x)) as [op|e| |] eqn:Hl; try done. intros [= <-].
    destruct (unpack_label_packet _ _ (if decide (0 < length o2)%nat then o2 ++ [46] else o2) _ _ _ Hl)
      as (op2 & -> & Hop). eexists. split; [done|]. cbn [place]. by rewrite Hop.
Qed.

(** [finishes n c]: the recursion from the call [c] returns after [n] more
    calls. *)
Fixpoint finishes (n : nat) (c : call) : Prop :=
  match name_step c, n with
  | inr _, O => True
  | inl c', S n => finishes n c'
  | _, _ => False
  end.

Lemma finishes_unique n m c : finishes n c -> finishes m c -> n = m.
Proof.
  revert m c. induction n as [|n IH]; intros [|m] c; cbn [finishes]; destruct (name_step c); try done.
  intros H1 H2. f_equal. by apply (IH m c0).
Qed.

Lemma finishes_place n c d : place c = place d -> finishes n c -> finishes n d.
Proof.
  revert c d. induction n as [|n IH]; intros c d Hp Hf; cbn [finishes] in *.
  - destruct (name_step c) as [c'|r] eqn:Hc; [done|]. destruct (name_step d) as [d'|r'] eqn:Hd; [|done].
    destruct (name_step_place d c d' Hd (eq_sym Hp)) as (c' & Hc' & _). by rewrite Hc in Hc'.
  - destruct (name_step c) as [c'|r] eqn:Hc; [|done].
    destruct (name_step_place c d c' Hc Hp) as (d' & -> & Hp'). by apply (IH c').
Qed.

Definition packet_of (c : call) : list Z := (place c).1.
Definition index_of (c : call) : nat := (place c).2.

Lemma name_step_progress c c' : name_step c = inl c' ->
  lowers (packet_of c) (packet_of c') /\ (index_of c < length (packet_of c))%nat.
Proof.
  destruct c as [[[o p] f] x], c' as [[[o2 p2] f2] x2]. intros Hs.
  by apply name_step_lowers in Hs.
Qed.

(** The calls before the last one. *)
Fixpoint calls (n : nat) (c : call) : list call :=
  match n with
  | O => []
  | S n => c :: match name_step c with inl c' => calls n c' | inr _ => [] end
  end.

Lemma calls_spec n c d : finishes n c -> d ∈ calls n c ->
  exists m, (m <= n)%nat /\ finishes m d /\ lowers (packet_of c) (packet_of d) /\
    (index_of d < length (packet_of d))%nat.
Proof.
  revert c. induction n as [|n IH]; intros c Hf Hd; cbn [calls] in Hd; [by apply not_elem_of_nil in Hd|].
  pose proof Hf as Hf0. cbn [finishes] in Hf. destruct (name_step c) as [c'|] eqn:Hs; [|done].
  destruct (name_step_progress _ _ Hs) as [Hl Hx].
  apply elem_of_cons in Hd as [-> |Hd].
  - exists (S n). split_and!; [lia|done|reflexivity|done].
  - destruct (IH c' Hf Hd) as (m & Hm & Hfm & Hlm & Hxm). exists m. split_and!; [lia|done| |done].
    by etrans.
Qed.

Lemma length_calls n c : finishes n c -> length (calls n c) = n.
Proof.
  revert c. induction n as [|n IH]; intros c Hf; [done|]. cbn [finishes calls length] in *.
  destruct (name_step c); [|done]. f_equal. by apply IH.
Qed.

Definition code (c : call) : nat * nat := (uppers (packet_of c), index_of c).

Lemma calls_NoDup n c : finishes n c -> NoDup (code <$> calls n c).
Proof.
  revert c. induction n as [|n IH]; intros c Hf; [constructor|].
  pose proof Hf as Hf0. cbn [finishes] in Hf. cbn [calls].
  destruct (name_step c) as [c'|] eqn:Hs; [|done]. rewrite fmap_cons. constructor; [|by apply IH].
  intros Hin. apply list_elem_of_fmap in Hin as (d & Hcode & Hd).
  destruct (calls_spec n c' d Hf Hd) as (m & Hm & Hfm & Hlm & _).
  destruct (name_step_progress _ _ Hs) as [Hl _].
  assert (Hld : lowers (packet_of c) (packet_of d)) by (by etrans).
  injection Hcode as Hu Hi. destruct Hld as [_ [He|Hlt]]; [|lia].
  assert (Hp : place d = place c).
  { unfold packet_of, index_of in *. destruct (place c), (place d). simpl in *. by subst. }
  pose proof (finishes_place m d c Hp Hfm) as Hc. pose proof (finishes_unique _ _ _ Hf0 Hc). lia.
Qed.

Lemma finishes_bound n c : finishes n c ->
  (n <= length (packet_of c) * S (length (packet_of c)))%nat.
Proof.
  intros Hf. set (L := length (packet_of c)).
  assert (Hincl : forall k, k ∈ code <$> calls n c -> k ∈ list_prod (seq 0 (S L)) (seq 0 L)).
  { intros k Hk. apply list_elem_of_fmap in Hk as (d & -> & Hd).
    destruct (calls_spec n c d Hf Hd) as (m & _ & _ & [Hlen _] & Hx).
    apply list_elem_of_In, in_prod_iff. rewrite <- !list_elem_of_In, !elem_of_seq.
    pose proof (uppers_le (packet_of d)). unfold L. lia. }
  pose proof (submseteq_length _ _ (NoDup_submseteq _ _ (calls_NoDup n c Hf) Hincl)) as Hlen.
  rewrite length_fmap, length_calls, length_prod, !length_seq in Hlen by done. lia.
Qed.

Lemma unpack_label_fueled count : forall out p x, unpack_label count out p x ≠ NoFuel.
Proof.
  induction count as [|count IH]; intros out p x; cbn [unpack_label]; [done|].
  unfold lower_at, get_at. destruct (p !! x) as [b|]; [|done]. cbn [mbind outcome_bind].
  destruct (_ && _); cbn [mbind outcome_bind]; apply IH.
Qed.

Lemma returns_finishes fuel : forall out p off x, unpackDomainName fuel out p off x ≠ NoFuel ->
  exists n, (n < fuel)%nat /\ finishes n (out, p, off, x).
Proof.
  induction fuel as [|fuel IH]; intros out p off x Hr; [done|].
  rewrite unpackDomainName_step in Hr.
  destruct (name_step (out, p, off, x)) as [[[[out' p'] off'] x']|r] eqn:Hs.
  - destruct (IH _ _ _ _ Hr) as (n & Hn & Hf). exists (S n). split; [lia|]. cbn [finishes]. by rewrite Hs.
  - exists 0%nat. split; [lia|]. cbn [finishes]. by rewrite Hs.
Qed.

Lemma finishes_result n : forall out p off x fuel, finishes n (out, p, off, x) -> (n < fuel)%nat ->
  unpackDomainName fuel out p off x = unpackDomainName (S n) out p off x.
Proof.
  induction n as [|n IH]; intros out p off x [|fuel] Hf Hn; try lia; rewrite !unpackDomainName_step;
    cbn [finishes] in Hf; destruct (name_step (out, p, off, x)) as [[[[out' p'] off'] x']|r]; try done.
  apply IH; [done|lia].
Qed.

Lemma unpackName_enough fuel packet off x :
  unpackDomainName fuel [] packet off x ≠ NoFuel ->
  unpackName packet off x = unpackDomainName fuel [] packet off x.
Proof.
  intros Hr. destruct (returns_finishes _ _ _ _ _ Hr) as (n & Hn & Hf).
  pose proof (finishes_bound _ _ Hf) as Hb. unfold packet_of, place in Hb. cbn [fst] in Hb.
  unfold unpackName, name_fuel.
  rewrite (finishes_result n _ _ _ _ fuel Hf Hn). apply finishes_result; [done|lia].
Qed.

(** The bound that the model puts on the recursion through compressed names
    is not a limit of the model: if the recursion of the code returns at all,
    after any number of calls, it returns the same within the bound, so that
    running out of it means that the code recurses for ever. *)
Theorem unpackName_fuel fuel packet off x :
  unpackDomainName fuel [] packet off x ≠ NoFuel ->
  unpackName packet off x = unpackDomainName fuel [] packet off x.
Proof. apply unpackName_enough. Qed.

(** A name that is a pointer to itself makes the recursion endless: no
    number of calls returns. *)
Theorem unpackDomainName_self_pointer fuel out packet off x hi lo :
  packet !! x = Some hi -> packet !! S x = Some lo -> is_byte lo ->
  hi = 192 + Z.of_nat x / 256 -> lo = Z.of_nat x mod 256 -> Z.of_nat x < 16384 ->
  unpackDomainName fuel out packet off x = NoFuel.
Proof.
  intros Hhi Hlo Hb Eh El Hx. revert off. induction fuel as [|fuel IH]; intros off; [done|].
  cbn [unpackDomainName]. apply lookup_lt_Some in Hhi as Hlt. rewrite decide_False by lia.
  rewrite (get_at_Some _ _ _ Hhi). cbn [mbind outcome_bind].
  assert (Hd : 0 <= Z.of_nat x / 256 < 64)
    by (split; [apply Z.div_pos; lia | apply Z.div_lt_upper_bound; lia]).
  assert (Hin : Z.of_nat x / 256 ∈ seqZ 0 64) by (apply elem_of_seqZ; lia).
  assert (Hbits : (hi =? 0) = false /\ (Z.land hi maskPointer =? maskPointer) = true /\
    Z.land hi maskOffset = Z.of_nat x / 256).
  { rewrite Eh. revert Hin. generalize (Z.of_nat x / 256). intros k Hk. revert k Hk.
    apply Forall_forall. apply (bool_decide_unpack _). vm_compute. exact I. }
  destruct Hbits as (-> & -> & ->). rewrite Nat.add_1_r, (get_at_Some _ _ _ Hlo).
  cbn [mbind outcome_bind].
  assert (Ho : Z.lor (Z.shiftl (Z.of_nat x / 256) 8) lo = Z.of_nat x).
  { rewrite lor_shiftl_add by (unfold is_byte in Hb; lia).
    pose proof (Z.div_mod (Z.of_nat x) 256 ltac:(lia)). lia. }
  rewrite Ho, Nat2Z.id. apply IH.
Qed.

Lemma unpackName_fuel_witness :
  unpackName ([1; 65; 0] ++ [1; 66; 192; 0]) 0 3 = Ok (str "b.a", [1; 97; 0; 1; 98; 192; 0], 6%nat).
Proof. rewrite (unpackName_fuel 4); [reflexivity | vm_compute; discriminate]. Defined.

Lemma unpackDomainName_self_pointer_witness :
  unpackName (replicate 12 0 ++ [192; 12]) 0 12 = NoFuel.
Proof.
  apply (unpackDomainName_self_pointer _ _ _ _ 12 192 12); try reflexivity.
  - unfold is_byte. lia.
Defined.
