(* ===== verification/DnsNames.v ===== *)
(** Package [lib/dns]: a domain name that is packed, with compression, is read
    back from the packet.  [at_name] says what name a packet holds at an index,
    [enc] what bytes packing appends; [packDomainName_enc] and [enc_names] tie
    the code's packing to them, [unpackName_at] its unpacking. *)

From Stdlib Require Import ZArith Lia.
From S2P Require Import Prelude Ascii Bytes NetIP DnsHeader DnsMessage DnsUnpack.

Local Open Scope Z_scope.

(** ** Names *)

(** A byte of a label that packing takes as it is. *)
Definition name_byte (c : Z) : Prop :=
  is_byte c /\ c ≠ 46 /\ c ≠ 92 /\ ~ (65 <= c <= 90).

Definition label_ok (l : list Z) : Prop := l ≠ [] /\ (length l <= 63)%nat /\ Forall name_byte l.

(** The text of a name: its labels joined by dots. *)
Fixpoint join (ls : list (list Z)) : list Z :=
  match ls with
  | [] => []
  | [l] => l
  | l :: ls => l ++ 46 :: join ls
  end.

Definition name_ok (ls : list (list Z)) : Prop := ls ≠ [] /\ Forall label_ok ls.

#[export] Instance name_byte_dec c : Decision (name_byte c).
Proof. unfold name_byte. apply _. Defined.
#[export] Instance label_ok_dec l : Decision (label_ok l).
Proof. unfold label_ok. apply _. Defined.
#[export] Instance name_ok_dec ls : Decision (name_ok ls).
Proof. unfold name_ok. apply _. Defined.

Lemma join_cons l ls : ls ≠ [] -> join (l :: ls) = l ++ 46 :: join ls.
Proof. intros Hne. destruct ls; [by destruct Hne | reflexivity]. Qed.

Lemma join_ne l ls : label_ok l -> join (l :: ls) ≠ [].
Proof. intros (Hl & _). destruct ls; [exact Hl|]. rewrite join_cons by done. by destruct l. Qed.

Lemma length_join_lt l ls : label_ok l -> (length (join ls) < length (join (l :: ls)))%nat.
Proof.
  intros (Hl & _). destruct ls as [|l2 ls].
  - simpl. destruct l; simpl; [congruence | lia].
  - rewrite (join_cons l (l2 :: ls)) by done. rewrite length_app. simpl. lia.
Qed.

(** What is at an index of a packet: the labels of the name, the index past
    its bytes, and the index of the second byte of its pointer, or 0. *)
Inductive at_name (p : list Z) : nat -> list (list Z) -> nat -> nat -> Prop :=
| an_end x : p !! x = Some 0 -> at_name p x [] (S x) 0
| an_label x l ls e o :
    label_ok l -> p !! x = Some (Z.of_nat (length l)) ->
    (forall i c, l !! i = Some c -> p !! (S x + i)%nat = Some c) ->
    at_name p (S x + length l) ls e o ->
    at_name p x (l :: ls) e o
| an_ptr x hi lo y ls e o :
    p !! x = Some hi -> p !! S x = Some lo -> hi = 192 + y / 256 -> lo = y mod 256 ->
    0 <= y < 16384 -> at_name p (Z.to_nat y) ls e o ->
    at_name p x ls (x + 2) (x + 1).

Lemma at_name_app p q x ls e o : at_name p x ls e o -> at_name (p ++ q) x ls e o.
Proof.
  assert (Hl : forall i c, p !! i = Some c -> (p ++ q) !! i = Some c) by (intros; by apply lookup_app_l_Some).
  induction 1.
  - apply an_end; auto.
  - apply an_label; auto.
  - eapply an_ptr; eauto.
Qed.

Lemma at_name_labels p x ls e o : at_name p x ls e o -> Forall label_ok ls.
Proof. induction 1; [constructor|by constructor|done]. Qed.

(** Where the name ends. *)
Lemma at_name_end p x ls e o : at_name p x ls e o ->
  (o = 0%nat -> e = (x + match ls with [] => 1 | _ => length (join ls) + 2 end)%nat) /\
  ((0 < o)%nat -> e = (o + 1)%nat).
Proof.
  induction 1 as [x Hx|x l ls e o Hl Hc Hb Hn [IH1 IH2]|x hi lo y ls e o]; [split; lia| |split; lia].
  split; [|done]. intros Ho. specialize (IH1 Ho). destruct ls as [|l2 ls]; [simpl; lia|].
  rewrite (join_cons l (l2 :: ls)) by done. rewrite length_app, length_cons. lia.
Qed.

(** The unpacker's accumulation of labels. *)
Definition join_onto (out : list Z) (ls : list (list Z)) : list Z :=
  foldl (fun out l => (if decide (0 < length out)%nat then out ++ [46] else out) ++ l) out ls.

Lemma join_onto_ne out ls : out ≠ [] -> Forall label_ok ls -> ls ≠ [] ->
  join_onto out ls = out ++ 46 :: join ls.
Proof.
  revert out. induction ls as [|l ls IH]; intros out Ho Hok Hne; [done|].
  apply Forall_cons in Hok as [Hl Hok]. unfold join_onto. cbn [foldl].
  rewrite decide_True by (destruct out; [done|simpl; lia]). rewrite <- (assoc_L (++)).
  destruct ls as [|l2 ls]; [done|]. fold (join_onto (out ++ [46] ++ l) (l2 :: ls)).
  rewrite IH; [|by destruct out|done|done]. rewrite (join_cons l (l2 :: ls)) by done.
  by rewrite <- !(assoc_L (++)).
Qed.

Lemma join_onto_nil ls : Forall label_ok ls -> join_onto [] ls = join ls.
Proof.
  intros Hok. destruct ls as [|l ls]; [done|]. apply Forall_cons in Hok as [Hl Hok].
  unfold join_onto. cbn [foldl length]. rewrite decide_False by lia. cbn [app].
  destruct ls as [|l2 ls]; [done|]. fold (join_onto l (l2 :: ls)).
  rewrite join_onto_ne; [|apply Hl|done|done]. by rewrite (join_cons l (l2 :: ls)).
Qed.

Lemma lower_at_same {E} p x c : p !! x = Some c -> ~ (65 <= c <= 90) -> lower_at (E := E) p x = Ok (c, p).
Proof.
  intros Hx Hc. unfold lower_at. rewrite (get_at_Some _ _ _ Hx). cbn [mbind outcome_bind].
  destruct (Z.leb_spec 65 c), (Z.leb_spec c 90); simpl; try done. lia.
Qed.

Lemma unpack_label_at l : forall out p x,
  Forall name_byte l -> (forall i c, l !! i = Some c -> p !! (x + i)%nat = Some c) ->
  unpack_label (length l) out p x = Ok (out ++ l, p).
Proof.
  induction l as [|c l IH]; intros out p x Hok Hp; cbn [length unpack_label].
  - by rewrite app_nil_r.
  - apply Forall_cons in Hok as [(_ & _ & _ & Hc) Hok].
    rewrite (lower_at_same p x c); [|by rewrite <- (Hp 0%nat c); [rewrite Nat.add_0_r|]|done].
    cbn [mbind outcome_bind fst snd]. rewrite IH; [by rewrite <- (assoc_L (++))|done|].
    intros i d Hi. rewrite <- (Hp (S i) d Hi). f_equal. lia.
Qed.

Lemma label_count_bits k : (k <= 63)%nat ->
  (Z.land (Z.of_nat k) maskPointer =? maskPointer) = false /\ (maxLabelSize <? Z.of_nat k) = false.
Proof.
  intros Hk. assert (Hin : Z.of_nat k ∈ seqZ 0 64) by (apply elem_of_seqZ; lia).
  revert Hin. generalize (Z.of_nat k). apply Forall_forall. apply (bool_decide_unpack _).
  vm_compute. exact I.
Qed.

Lemma pointer_bits y : 0 <= y < 16384 ->
  let hi := 192 + y / 256 in let lo := y mod 256 in
  (hi =? 0) = false /\ (Z.land hi maskPointer =? maskPointer) = true /\
  Z.lor (Z.shiftl (Z.land hi maskOffset) 8) lo = y.
Proof.
  intros Hy hi lo. assert (Hin : y / 256 ∈ seqZ 0 64).
  { apply elem_of_seqZ. split; [apply Z.div_pos; lia|]. apply Z.div_lt_upper_bound; lia. }
  assert (Hb : (hi =? 0) = false /\ (Z.land hi maskPointer =? maskPointer) = true /\
    Z.land hi maskOffset = y / 256).
  { unfold hi. revert Hin. generalize (y / 256). apply Forall_forall. apply (bool_decide_unpack _).
    vm_compute. exact I. }
  destruct Hb as (H1 & H2 & ->). split_and!; [done|done|]. unfold lo.
  rewrite lor_shiftl_add by (try apply Z.mod_pos_bound; lia).
  pose proof (Z.div_mod y 256 ltac:(lia)). lia.
Qed.

(** Reading a name that is in the packet. *)
Lemma at_name_unpack p x ls e o : at_name p x ls e o ->
  exists fuel, forall out off,
    unpackDomainName fuel out p off x
    = Ok (join_onto out ls, p, if decide (off = 0%nat) then o else off).
Proof.
  induction 1 as [x Hx|x l ls e o Hl Hc Hb Hn [fuel IH]|x hi lo y ls e o Hhi Hlo -> -> Hy Hn [fuel IH]];
    [exists 1%nat|exists (S fuel)..]; intros out off; cbn [unpackDomainName].
  - rewrite decide_False by (apply lookup_lt_Some in Hx; lia).
    rewrite (get_at_Some _ _ _ Hx). cbn [mbind outcome_bind Z.eqb]. case_decide; [by subst|done].
  - rewrite decide_False by (apply lookup_lt_Some in Hc; lia).
    rewrite (get_at_Some _ _ _ Hc). cbn [mbind outcome_bind]. destruct Hl as (Hl & H63 & Hok).
    destruct (label_count_bits (length l) H63) as [-> ->].
    rewrite (proj2 (Z.eqb_neq _ 0)) by (destruct l; [done|simpl; lia]).
    rewrite Nat2Z.id, unpack_label_at by done. cbn [mbind outcome_bind fst snd]. by rewrite IH.
  - rewrite decide_False by (apply lookup_lt_Some in Hhi; lia).
    rewrite (get_at_Some _ _ _ Hhi). cbn [mbind outcome_bind].
    destruct (pointer_bits y Hy) as (H1 & H2 & H3). rewrite H1, H2, Nat.add_1_r, (get_at_Some _ _ _ Hlo).
    cbn [mbind outcome_bind]. rewrite H3, IH. do 2 f_equal.
    destruct (decide (off = 0%nat)) as [->|Hoff]; case_decide; (lia || done).
Qed.

Lemma unpackName_at p x ls e o : at_name p x ls e o -> unpackName p 0 x = Ok (join ls, p, o).
Proof.
  intros Hn. destruct (at_name_unpack _ _ _ _ _ Hn) as [fuel Hf].
  rewrite (unpackName_enough fuel); rewrite Hf; [|done].
  by rewrite join_onto_nil by (by eapply at_name_labels).
Qed.

(** ** Packing names *)

(** The bytes of a name packed at [off] with the known names [m], and the names
    known after. *)
Fixpoint enc (dc : bool) (m : gmap (list Z) Z) (off : Z) (ls : list (list Z))
    : list Z * gmap (list Z) Z :=
  match ls with
  | [] => ([0], m)
  | l :: ls =>
      match (if dc then m !! join (l :: ls) else None) with
      | Some o => ([Z.lor maskPointer (u8 (Z.shiftr o 8)); u8 o], m)
      | None =>
          let '(bs, m') := enc dc (<[join (l :: ls) := off]> m) (off + 1 + Z.of_nat (length l)) ls in
          (Z.of_nat (length l) :: l ++ bs, m')
      end
  end.

Lemma length_enc dc ls : forall m off, ls ≠ [] -> Forall label_ok ls ->
  (length (enc dc m off ls).1 <= length (join ls) + 2)%nat.
Proof.
  induction ls as [|l ls IH]; intros m off Hne Hok; [done|]. cbn [enc].
  destruct (if dc then _ else _) as [o|]; [simpl; lia|]. apply Forall_cons in Hok as [Hl Hok].
  destruct ls as [|l2 ls].
  - cbn [enc fst]. simpl. rewrite length_app. simpl. lia.
  - specialize (IH (<[join (l :: l2 :: ls) := off]> m) (off + 1 + Z.of_nat (length l)) ltac:(done) Hok).
    destruct (enc dc _ _ (l2 :: ls)) as [bs m']. cbn [fst] in *.
    rewrite (join_cons l (l2 :: ls)) by done. cbn [length]. rewrite !length_app. cbn [length]. lia.
Qed.

Lemma ToLower_name l : Forall name_byte l -> ToLower l = l.
Proof.
  induction 1 as [|c l (_ & _ & _ & Hc) _ IH]; [done|]. cbn [ToLower]. rewrite IH. f_equal.
  unfold lower_byte. destruct (Z.ltb_spec c 65), (Z.ltb_spec 90 c); simpl; try done. lia.
Qed.

Lemma ToLower_join ls : Forall label_ok ls -> ToLower (join ls) = join ls.
Proof.
  induction 1 as [|l ls (_ & _ & Hl) _ IH]; [done|]. destruct ls as [|l2 ls]; [by apply ToLower_name|].
  rewrite (join_cons l (l2 :: ls)) by done. rewrite ToLower_app. cbn [ToLower].
  by rewrite IH, ToLower_name.
Qed.

(** The bytes of one label go to the packet as they are. *)
Lemma pack_label dc l : forall rest count n p off m d,
  Forall name_byte l -> 0 <= count -> count + Z.of_nat (length l) <= 63 ->
  packName_loop dc (l ++ rest) count n (mkP p off m d)
  = packName_loop dc rest (count + Z.of_nat (length l)) n (mkP (p ++ l) off m d).
Proof.
  induction l as [|c l IH]; intros rest count n p off m d Hok Hc Hlen.
  { simpl. by rewrite app_nil_r, Z.add_0_r. }
  apply Forall_cons in Hok as [(_ & H46 & H92 & _) Hok]. cbn [app packName_loop].
  rewrite (proj2 (Z.eqb_neq c 92)), (proj2 (Z.eqb_neq c 46)) by done.
  unfold mbind at 1, P_bind at 1, emit at 1. cbn [pkt moff dnameOff dname].
  cbn [length] in Hlen. rewrite (u8_id (count + 1)) by (unfold is_byte; lia).
  rewrite IH by (done || lia). rewrite <- (assoc_L (++)). cbn [app length]. f_equal. lia.
Qed.

(** What follows the loop of [packDomainName]. *)
Definition pack_tail (name : list Z) (r : Z + Z * Z) : P (Z * list Z) :=
  match r with
  | inl n => mret (n, name)
  | inr (count, n) =>
      n ← (if 0 <? count then
             write_count count;; advance (u8 (count + 1));; mret (n + u8 (count + 1))
           else mret n);
      if decide (0 < length name)%nat then
        emit [0];; advance 1;; mret (n + 1, name)
      else mret (n, name)
  end.

Lemma write_count_at count p b l m d :
  write_count count (mkP (p ++ b :: l) (Z.of_nat (length p)) m d)
  = Ok (tt, mkP (p ++ count :: l) (Z.of_nat (length p)) m d).
Proof.
  unfold write_count, set_at. cbn [pkt moff dnameOff dname]. rewrite Nat2Z.id.
  rewrite decide_True by (rewrite length_app; simpl; lia).
  replace (length p) with (length p + 0)%nat at 1 by lia. by rewrite insert_app_r.
Qed.

Lemma compress_some p off m d o : m !! d = Some o ->
  compress (mkP p off m d)
  = Ok (true, mkP (p ++ [Z.lor maskPointer (u8 (Z.shiftr o 8)); u8 o]) (u16 (off + 2)) m d).
Proof.
  intros Hm. unfold compress. cbn [dnameOff dname]. rewrite Hm. unfold mbind, P_bind, emit, advance, mret, P_ret.
  cbn [pkt moff dnameOff dname]. by rewrite <- (assoc_L (++)).
Qed.

Lemma compress_none p off m d : m !! d = None -> compress (mkP p off m d) = Ok (false, mkP p off m d).
Proof. intros Hm. unfold compress. cbn [dnameOff dname]. by rewrite Hm. Qed.

Lemma maybe_compress (dc : bool) p off m d :
  (if dc then compress else mret false) (mkP p off m d) =
  match (if dc then m !! d else None) with
  | Some o => Ok (true, mkP (p ++ [Z.lor maskPointer (u8 (Z.shiftr o 8)); u8 o]) (u16 (off + 2)) m d)
  | None => Ok (false, mkP p off m d)
  end.
Proof.
  destruct dc; [|done]. destruct (m !! d) as [o|] eqn:Hm; [by apply compress_some|by apply compress_none].
Qed.

Lemma app_snoc_cons {A} (p : list A) a l : (p ++ [a]) ++ l = p ++ a :: l.
Proof. by rewrite <- (assoc_L (++)). Qed.

(** The loop over the labels, the length byte of the first one being reserved. *)
Lemma pack_loop_enc dc name ls : name ≠ [] -> forall l p m d n,
  label_ok l -> Forall label_ok ls -> 0 <= n ->
  Z.of_nat (length p) + Z.of_nat (length (join (l :: ls))) + 2 < 65536 ->
  let '(bs1, m') := enc dc m (Z.of_nat (length p) + 1 + Z.of_nat (length l)) ls in
  let bs := Z.of_nat (length l) :: l ++ bs1 in
  exists d', (packName_loop dc (join (l :: ls)) 0 n ≫= pack_tail name)
               (mkP (p ++ [0]) (Z.of_nat (length p)) m d)
    = Ok ((n + Z.of_nat (length bs), name),
          mkP (p ++ bs) (Z.of_nat (length p) + Z.of_nat (length bs)) m' d').
Proof.
  intros Hname. induction ls as [|l2 ls IH]; intros l p m d n Hl Hok Hn Hlen.
  - cbn [enc]. exists d. cbn [join] in *.
    pose proof (pack_label dc l [] 0 n (p ++ [0]) (Z.of_nat (length p)) m d) as Hp.
    destruct Hl as (Hne & H63 & Hb). rewrite app_nil_r in Hp.
    unfold mbind at 1, P_bind at 1. rewrite Hp by (done || lia). cbn [packName_loop mret P_ret].
    unfold mret, P_ret, pack_tail. rewrite Z.add_0_l.
    assert (Hlen0 : 0 < Z.of_nat (length l)) by (destruct l; [done|simpl; lia]).
    rewrite (proj2 (Z.ltb_lt 0 _)) by done.
    rewrite (u8_id (Z.of_nat (length l) + 1)) by (unfold is_byte; lia).
    rewrite app_snoc_cons. unfold mbind, P_bind. rewrite write_count_at.
    unfold advance at 1. cbn [pkt moff dnameOff dname].
    unfold mret at 1, P_ret at 1. cbv beta iota.
    rewrite decide_True by (destruct name; [done|simpl; lia]).
    unfold emit, advance. cbn [pkt moff dnameOff dname].
    rewrite (u16_id (Z.of_nat (length p) + _)) by (unfold is_u16; lia).
    rewrite u16_id by (unfold is_u16; lia). unfold mret, P_ret.
    cbn [length]. rewrite length_app. cbn [length].
    apply f_equal, f_equal2; [f_equal; lia|]. f_equal; [|lia]. rewrite <- (assoc_L (++)). done.
  - apply Forall_cons in Hok as [Hl2 Hok]. rewrite (join_cons l (l2 :: ls)) in Hlen |- * by done.
    rewrite length_app in Hlen. cbn [length] in Hlen.
    pose proof Hl as (Hne & H63 & Hb).
    assert (Hlen0 : 0 < Z.of_nat (length l)) by (destruct l; [done|simpl; lia]).
    unfold mbind at 1, P_bind at 1.
    rewrite pack_label by (done || lia). cbn [packName_loop]. rewrite Z.add_0_l.
    cbn [Z.eqb Pos.eqb]. rewrite (proj2 (Z.eqb_neq (Z.of_nat (length l)) 0)) by lia.
    rewrite app_snoc_cons. unfold mbind at 1, P_bind at 1. rewrite write_count_at.
    unfold mbind at 1, P_bind at 1, set_dname at 1. cbn [pkt moff dnameOff dname].
    unfold mbind at 1, P_bind at 1, advance at 1. cbn [pkt moff dnameOff dname].
    rewrite (u8_id (Z.of_nat (length l) + 1)) by (unfold is_byte; lia).
    rewrite (u16_id (Z.of_nat (length p) + _)) by (unfold is_u16; lia).
    unfold mbind at 1, P_bind at 1. rewrite maybe_compress. cbn [enc].
    destruct (if dc then m !! join (l2 :: ls) else None) as [o|].
    + exists (join (l2 :: ls)). unfold mret, P_ret, pack_tail.
      cbn [length]. rewrite length_app. cbn [length]. rewrite u16_id by (unfold is_u16; lia).
      unfold mret, P_ret.
      apply f_equal, f_equal2; [f_equal; lia|]. f_equal; [|lia]. by rewrite <- (assoc_L (++)).
    + unfold mbind at 1, P_bind at 1, emit at 1. cbn [pkt moff dnameOff dname].
      unfold mbind at 1, P_bind at 1, note_dname at 1. cbn [pkt moff dnameOff dname].
      set (q := p ++ Z.of_nat (length l) :: l).
      assert (Hq : Z.of_nat (length p) + (Z.of_nat (length l) + 1) = Z.of_nat (length q))
        by (unfold q; rewrite length_app; simpl; lia).
      rewrite Hq. replace (Z.of_nat (length p) + 1 + Z.of_nat (length l)) with (Z.of_nat (length q)) by lia.
      specialize (IH l2 q (<[join (l2 :: ls) := Z.of_nat (length q)]> m) (join (l2 :: ls))
        (n + (Z.of_nat (length l) + 1)) Hl2 Hok ltac:(lia) ltac:(lia)).
      destruct (enc dc _ _ ls) as [bs1 m'].
      destruct IH as (d' & IH). exists d'.
      destruct (join (l2 :: ls)) as [|c0 r0] eqn:Hj; [by apply join_ne in Hj|].
      unfold mbind at 1, P_bind at 1 in IH. rewrite IH.
      unfold q. cbn [length]. rewrite !length_app. cbn [length]. rewrite !length_app.
      apply f_equal, f_equal2; [f_equal; lia|]. f_equal; [|lia]. by rewrite <- !(assoc_L (++)).
Qed.

(** Packing a name appends [enc], moves [off] past it and adds to the table of
    names. *)
Lemma packDomainName_enc dc ls p m d : name_ok ls ->
  Z.of_nat (length p) + Z.of_nat (length (join ls)) + 2 < 65536 ->
  let '(bs, m') := enc dc m (Z.of_nat (length p)) ls in
  exists d', packDomainName (join ls) dc (mkP p (Z.of_nat (length p)) m d)
    = Ok ((Z.of_nat (length bs), join ls), mkP (p ++ bs) (Z.of_nat (length p) + Z.of_nat (length bs)) m' d').
Proof.
  intros [Hne Hok] Hlen. unfold packDomainName. rewrite ToLower_join by done.
  destruct ls as [|l ls]; [done|]. apply Forall_cons in Hok as [Hl Hok].
  unfold mbind at 1, P_bind at 1, set_dname at 1. cbn [pkt moff dnameOff dname].
  unfold mbind at 1, P_bind at 1. rewrite maybe_compress. cbn [enc].
  destruct (if dc then m !! join (l :: ls) else None) as [o|].
  - eexists. unfold mret, P_ret. cbn [length]. rewrite u16_id by (unfold is_u16; lia). done.
  - unfold mbind at 1, P_bind at 1, emit at 1. cbn [pkt moff dnameOff dname].
    unfold mbind at 1, P_bind at 1, note_dname at 1. cbn [pkt moff dnameOff dname].
    pose proof (pack_loop_enc dc (join (l :: ls)) ls (join_ne l ls Hl) l p
      (<[join (l :: ls) := Z.of_nat (length p)]> m) (join (l :: ls)) 0 Hl Hok ltac:(lia) Hlen) as Hloop.
    destruct (enc dc _ _ ls) as [bs1 m'].
    destruct Hloop as (d' & Hloop). exists d'.
    unfold mbind at 1, P_bind at 1 in Hloop. unfold mbind at 1, P_bind at 1.
    unfold pack_tail in Hloop. rewrite Z.add_0_l in Hloop. exact Hloop.
Qed.

(** ** The table of names *)

(** The pieces of a text between its dots. *)
Fixpoint labels (s : list Z) : list (list Z) :=
  match s with
  | [] => [[]]
  | c :: s =>
      if c =? 46 then [] :: labels s
      else match labels s with l :: ls => (c :: l) :: ls | [] => [[c]] end
  end.

Lemma labels_ne s : labels s ≠ [].
Proof. destruct s as [|c s]; [done|]. cbn [labels]. destruct (c =? 46); [done|]. by destruct (labels s). Qed.

Lemma join_labels s : join (labels s) = s.
Proof.
  induction s as [|c s IH]; [done|]. cbn [labels].
  pose proof (labels_ne s) as Hne. destruct (Z.eqb_spec c 46) as [->|Hc].
  - rewrite (join_cons [] (labels s)) by done. by rewrite IH.
  - destruct (labels s) as [|l ls]; [done|]. rewrite <- IH. by destruct ls.
Qed.

Lemma labels_app l s : Forall name_byte l ->
  labels (l ++ s) = match labels s with k :: ls => (l ++ k) :: ls | [] => [] end.
Proof.
  induction 1 as [|c l (_ & H46 & _) _ IH]; [by destruct (labels s) eqn:E; [by destruct (labels_ne s)|]|].
  cbn [app labels]. rewrite (proj2 (Z.eqb_neq c 46)), IH by done.
  destruct (labels s) as [|k ls] eqn:E; [by destruct (labels_ne s)|done].
Qed.

Lemma labels_join ls : name_ok ls -> labels (join ls) = ls.
Proof.
  intros [Hne Hok]. induction Hok as [|l ls Hl Hok IH]; [done|]. pose proof Hl as (_ & _ & Hb).
  destruct ls as [|l2 ls].
  - cbn [join]. rewrite <- (app_nil_r l) at 1. rewrite labels_app by done. cbn [labels]. by rewrite app_nil_r.
  - rewrite (join_cons l (l2 :: ls)) by done. rewrite labels_app by done. cbn [labels Z.eqb Pos.eqb].
    rewrite IH by done. by rewrite app_nil_r.
Qed.

Lemma join_inj ls ks : name_ok ls -> name_ok ks -> join ls = join ks -> ls = ks.
Proof. intros Hl Hk He. by rewrite <- (labels_join ls), <- (labels_join ks), He. Qed.

(** A text that is a name. *)
Definition name_text (s : list Z) : Prop := name_ok (labels s).
#[export] Instance name_text_dec s : Decision (name_text s).
Proof. unfold name_text. apply _. Defined.

(** The packet holds the name [k] at [o], where a pointer can reach it. *)
Definition names (p k : list Z) (o : Z) : Prop :=
  0 <= o < 16384 /\ exists ls e f, name_ok ls /\ k = join ls /\ at_name p (Z.to_nat o) ls e f.

(** Every known name is in the packet. *)
Definition valid (m : gmap (list Z) Z) (p : list Z) : Prop := forall k o, m !! k = Some o -> names p k o.

Lemma names_app p q k o : names p k o -> names (p ++ q) k o.
Proof. intros (Ho & ls & e & f & Hok & Hk & Hn). split; [done|]. exists ls, e, f. eauto using at_name_app. Qed.

Lemma valid_app m p q : valid m p -> valid m (p ++ q).
Proof. intros Hv k o Hk. by apply names_app, Hv. Qed.

Lemma valid_empty p : valid ∅ p.
Proof. intros k o. by rewrite lookup_empty. Qed.

Lemma pointer_bytes o : 0 <= o < 16384 ->
  Z.lor maskPointer (u8 (Z.shiftr o 8)) = 192 + o / 256 /\ u8 o = o mod 256.
Proof.
  intros Ho. split; [|done]. rewrite Z.shiftr_div_pow2 by lia. change (2 ^ 8) with 256.
  assert (Hin : o / 256 ∈ seqZ 0 64).
  { apply elem_of_seqZ. split; [apply Z.div_pos; lia|]. apply Z.div_lt_upper_bound; lia. }
  revert Hin. generalize (o / 256). apply Forall_forall. apply (bool_decide_unpack _). vm_compute. exact I.
Qed.

(** What [enc] appends is the name, and the names it adds to the table are in
    the packet. *)
Lemma enc_names dc ls : Forall label_ok ls -> forall m p,
  (forall k o, m !! k = Some o -> (length k <= length (join ls))%nat -> names p k o) ->
  let '(bs, m') := enc dc m (Z.of_nat (length p)) ls in
  Z.of_nat (length p + length bs) <= 16384 ->
  (exists f, at_name (p ++ bs) (length p) ls (length p + length bs) f) /\
  (forall k o, m' !! k = Some o -> m !! k = Some o \/ names (p ++ bs) k o).
Proof.
  induction 1 as [|l ls Hl Hok IH]; intros m p Hm; cbn [enc].
  { intros Hlen. split; [|auto]. exists 0%nat. cbn [length]. rewrite Nat.add_1_r.
    apply an_end. by apply list_lookup_middle. }
  destruct (if dc then m !! join (l :: ls) else None) as [o|] eqn:Hc.
  - intros Hlen. split; [|auto]. exists (length p + 1)%nat.
    assert (Ho : names p (join (l :: ls)) o) by (apply Hm; [by destruct dc|done]).
    destruct Ho as (Ho & ks & e & f & Hks & Hj & Hn).
    apply join_inj in Hj; [subst ks|split; [done|by constructor]|done].
    destruct (pointer_bytes o Ho) as [-> ->].
    apply (an_ptr _ (length p) (192 + o / 256) (o mod 256) o _ e f); [..|by apply at_name_app]; try done.
    + by apply list_lookup_middle.
    + rewrite lookup_app_r by lia. by replace (S (length p) - length p)%nat with 1%nat by lia.
  - set (off := Z.of_nat (length p)). set (q := p ++ Z.of_nat (length l) :: l).
    assert (Hq : length q = (S (length p) + length l)%nat) by (unfold q; rewrite length_app; simpl; lia).
    assert (Hq2 : off + 1 + Z.of_nat (length l) = Z.of_nat (length q)) by lia.
    rewrite Hq2. specialize (IH (<[join (l :: ls) := off]> m) q).
    destruct (enc dc _ _ ls) as [bs m']. intros Hlen. cbn [length] in Hlen. rewrite length_app in Hlen.
    pose proof (length_join_lt l ls Hl) as Hlt.
    destruct IH as ((f & Hn) & Hm').
    { intros k o Hk Hkl. rewrite lookup_insert_ne in Hk by (intros <-; lia).
      unfold q. apply names_app, Hm; [done|lia]. }
    { lia. }
    assert (Happ : p ++ Z.of_nat (length l) :: l ++ bs = q ++ bs)
      by (unfold q; by rewrite <- (assoc_L (++))).
    rewrite Happ.
    assert (Hhere : at_name (q ++ bs) (length p) (l :: ls) (length q + length bs) f).
    { apply an_label; [done|..].
      - unfold q. rewrite <- (assoc_L (++)). by apply list_lookup_middle.
      - intros i c Hi. unfold q. rewrite <- (assoc_L (++)), lookup_app_r by lia.
        replace (S (length p) + i - length p)%nat with (S i) by lia. cbn [app lookup list_lookup].
        by apply lookup_app_l_Some.
      - by rewrite <- Hq. }
    split.
    { exists f. cbn [length]. rewrite length_app.
      by replace (length p + S (length l + length bs))%nat with (length q + length bs)%nat by lia. }
    intros k o Hk. apply Hm' in Hk as [Hk|Hk]; [|by right].
    destruct (decide (k = join (l :: ls))) as [->|Hne].
    + rewrite lookup_insert_eq in Hk. injection Hk as <-. right. split; [lia|].
      exists (l :: ls), (length q + length bs)%nat, f. split; [split; [done|by constructor]|]. split; [done|]. unfold off. by rewrite Nat2Z.id.
    + left. by rewrite lookup_insert_ne in Hk.
Qed.

Lemma enc_valid dc ls m p : name_ok ls -> valid m p ->
  let '(bs, m') := enc dc m (Z.of_nat (length p)) ls in
  Z.of_nat (length p + length bs) <= 16384 ->
  valid m' (p ++ bs) /\ (exists f, at_name (p ++ bs) (length p) ls (length p + length bs) f).
Proof.
  intros [_ Hok] Hv. pose proof (enc_names dc ls Hok m p (fun k o Hk _ => Hv k o Hk)) as He.
  destruct (enc dc m _ ls) as [bs m']. intros Hlen. destruct (He Hlen) as [Hn Hm]. split; [|done].
  intros k o Hk. destruct (Hm k o Hk) as [Hk'|Hk']; [by apply names_app, Hv|done].
Qed.

(** A packing state whose [off] is the end of the packet. *)
Definition at_end (p : list Z) (m : gmap (list Z) Z) (d : list Z) : pstate := mkP p (Z.of_nat (length p)) m d.

(** A name packed at the end of a packet: the bytes stay the name in any packet
    of the same length that holds the known names. *)
Lemma packDomainName_good dc name p m d : name_text name ->
  Z.of_nat (length p) + Z.of_nat (length name) + 2 <= 16384 ->
  exists bs m' d',
    packDomainName name dc (at_end p m d)
      = Ok ((Z.of_nat (length bs), name), at_end (p ++ bs) m' d') /\
    (length bs <= length name + 2)%nat /\
    (forall p', length p' = length p -> valid m p' ->
      valid m' (p' ++ bs) /\
      exists f, at_name (p' ++ bs) (length p) (labels name) (length (p ++ bs)) f).
Proof.
  intros Hok Hlen. pose proof (packDomainName_enc dc (labels name) p m d Hok) as Hp.
  pose proof (length_enc dc (labels name) m (Z.of_nat (length p)) (labels_ne name) (proj2 Hok)) as Hl.
  rewrite join_labels in Hp, Hl. pose proof (fun p' => enc_valid dc (labels name) m p' Hok) as Hv.
  specialize (Hp ltac:(lia)). destruct (enc dc m _ _) as [bs m'] eqn:He. cbn [fst] in Hl.
  destruct Hp as [d' Hp]. exists bs, m', d'. split_and!; [|done|].
  - unfold at_end. rewrite Hp, length_app. do 3 f_equal. lia.
  - intros p' Hlp Hvp. specialize (Hv p' Hvp). rewrite Hlp, He in Hv. destruct Hv as [Hv [f Hn]]; [lia|].
    split; [done|]. exists f. by rewrite length_app.
Qed.
