(* ===== verification/DnsRoundtrip.v ===== *)
(** Package [lib/dns]: records and messages that are packed unpack to what they
    were.  [rdata_ok] lists the kinds of records whose packing keeps [off] at
    the end of the packet; the others are the subject of the last section. *)

From Stdlib Require Import ZArith Lia.
From S2P Require Import Prelude Ascii Bytes NetIP DnsHeader DnsMessage DnsUnpack DnsNames.

Local Open Scope Z_scope.

Definition be16 (v : Z) : list Z := [u8 (Z.shiftr v 8); u8 v].
Definition be32 (v : Z) : list Z := [u8 (Z.shiftr v 24); u8 (Z.shiftr v 16); u8 (Z.shiftr v 8); u8 v].

Lemma ReadUint16_be {E} p v q x : is_u16 v -> x = length p ->
  ReadUint16 (E := E) (p ++ be16 v ++ q) x = Ok v.
Proof. intros Hv ->. pose proof (ReadUint16_Append (E := E) p v q Hv) as H. unfold AppendUint16 in H. by rewrite <- (assoc_L (++)) in H. Qed.

Lemma ReadInt16_be {E} p v q x : -2 ^ 15 <= v < 2 ^ 15 -> x = length p ->
  ReadInt16 (E := E) (p ++ be16 v ++ q) x = Ok v.
Proof. intros Hv ->. pose proof (ReadInt16_Append (E := E) p v q Hv) as H. unfold AppendInt16 in H. by rewrite <- (assoc_L (++)) in H. Qed.

Lemma ReadUint32_be {E} p v q x : is_u32 v -> x = length p ->
  ReadUint32 (E := E) (p ++ be32 v ++ q) x = Ok v.
Proof. intros Hv ->. pose proof (ReadUint32_Append (E := E) p v q Hv) as H. unfold AppendUint32 in H. by rewrite <- (assoc_L (++)) in H. Qed.

(** ** Steps that keep [off] at the end of the packet *)

Lemma advance_end (p l : list Z) m d k : k = Z.of_nat (length l) -> Z.of_nat (length p) + k < 65536 ->
  advance k (mkP (p ++ l) (Z.of_nat (length p)) m d) = Ok (tt, at_end (p ++ l) m d).
Proof.
  intros -> Hk. unfold advance, at_end. cbn [pkt moff dnameOff dname].
  rewrite u16_id by (unfold is_u16; lia). do 3 f_equal. rewrite length_app. lia.
Qed.

(** [append], then [off += 2]. *)
Lemma emit16_end {B} v p m d (k : P B) : Z.of_nat (length p) + 2 < 65536 ->
  (emit16 v;; advance 2;; k) (at_end p m d) = k (at_end (p ++ be16 v) m d).
Proof.
  intros Hl. unfold mbind at 1, P_bind at 1, emit16, at_end. cbn [pkt moff dnameOff dname].
  unfold mbind at 1, P_bind at 1. change (AppendUint16 p v) with (p ++ be16 v).
  by rewrite advance_end by (done || lia).
Qed.

Lemma emit16_off_end {B} v p m d (k : nat -> P B) : Z.of_nat (length p) + 2 < 65536 ->
  (emit16 v;; off ← get_off; advance 2;; k off) (at_end p m d) = k (length p) (at_end (p ++ be16 v) m d).
Proof.
  intros Hl. unfold mbind at 1, P_bind at 1, emit16, at_end. cbn [pkt moff dnameOff dname].
  unfold mbind at 1, P_bind at 1, get_off. cbn [moff]. rewrite Nat2Z.id.
  unfold mbind at 1, P_bind at 1. change (AppendUint16 p v) with (p ++ be16 v).
  by rewrite advance_end by (done || lia).
Qed.

Lemma off_emit16_end {B} v p m d (k : nat -> P B) : Z.of_nat (length p) + 2 < 65536 ->
  (off ← get_off; emit16 v;; advance 2;; k off) (at_end p m d) = k (length p) (at_end (p ++ be16 v) m d).
Proof.
  intros Hl. unfold mbind at 1, P_bind at 1, get_off, at_end. cbn [moff]. rewrite Nat2Z.id.
  fold (at_end p m d). by rewrite emit16_end.
Qed.

Lemma emit_end {B} l p m d k (K : P B) : k = Z.of_nat (length l) -> Z.of_nat (length p) + k < 65536 ->
  (emit l;; advance k;; K) (at_end p m d) = K (at_end (p ++ l) m d).
Proof.
  intros Hk Hl. unfold mbind at 1, P_bind at 1, emit, at_end. cbn [pkt moff dnameOff dname].
  unfold mbind at 1, P_bind at 1. by rewrite advance_end.
Qed.

Lemma write16_end (p l : list Z) o v m d :
  write16 (length p) v (at_end (p ++ be16 o ++ l) m d) = Ok (tt, at_end (p ++ be16 v ++ l) m d).
Proof.
  unfold write16, at_end. cbn [pkt moff dnameOff dname]. unfold be16 at 1. cbn [app].
  rewrite WriteUint16_at. unfold AppendUint16. rewrite <- (assoc_L (++)). do 3 f_equal.
  by rewrite !length_app.
Qed.

Lemma bind_at {A B} (f : P A) (k : A -> P B) s a s' : f s = Ok (a, s') -> (f ≫= k) s = k a s'.
Proof. intros H. unfold mbind, P_bind. by rewrite H. Qed.

(** ** Data of records *)

(** The types whose data is one name. *)
Definition name_types : list Z :=
  [QueryTypeNS; QueryTypeCNAME; QueryTypeMB; QueryTypeMG; QueryTypeMR; QueryTypePTR].

Inductive rdata_ok (rr : ResourceRecord) : Prop :=
| ok_A a b c d : rrType rr = QueryTypeA -> Forall is_byte [a; b; c; d] ->
    Text rr = Some (dotted [a; b; c; d]) -> rdata_ok rr
| ok_name t : rrType rr ∈ name_types -> Text rr = Some t -> name_text t -> rdata_ok rr
| ok_MX mx : rrType rr = QueryTypeMX -> MX rr = Some mx ->
    -2 ^ 15 <= Preference mx < 2 ^ 15 -> name_text (Exchange mx) -> rdata_ok rr
| ok_MINFO mi : rrType rr = QueryTypeMINFO -> MInfo rr = Some mi ->
    name_text (RMailBox mi) -> name_text (EmailBox mi) -> rdata_ok rr
| ok_SRV srv : rrType rr = QueryTypeSRV -> SRV rr = Some srv ->
    is_u16 (Priority srv) -> is_u16 (Weight srv) -> is_u16 (Port srv) -> name_text (Target srv) ->
    until_dot (rrName rr) = (Service srv, (until_dot (rrName rr)).2) ->
    until_dot (until_dot (rrName rr)).2 = (Proto srv, SrvName srv) -> rdata_ok rr
| ok_WKS w : rrType rr = QueryTypeWKS -> WKS rr = Some w -> length (Address w) = 4%nat -> rdata_ok rr.

Definition text_room (t : option (list Z)) : nat := match t with Some t => length t + 2 | None => 2 end.

(** A bound on the size of the data, without compression. *)
Definition rd_room (rr : ResourceRecord) : nat :=
  text_room (Text rr) + text_room (Exchange <$> MX rr) + 4 + text_room (RMailBox <$> MInfo rr)
  + text_room (EmailBox <$> MInfo rr) + text_room (Target <$> SRV rr) + 6
  + match WKS rr with Some w => 5 + length (BitMap w) | None => 0 end.

Definition head_of (r : ResourceRecord) := (rrName r, rrType r, rrClass r, TTL r, offTTL r).

(** Packing the data of a record appends its length and its bytes, and
    unpacking them gives the data back. *)
Definition rd_good (rr : ResourceRecord) : Prop := forall p m d,
  valid m p -> Z.of_nat (length p) + 2 + Z.of_nat (rd_room rr) <= 16384 ->
  exists rd m' d',
    packRData rr (at_end p m d) = Ok (rr, at_end (p ++ be16 (Z.of_nat (length rd)) ++ rd) m' d') /\
    (length rd <= rd_room rr)%nat /\
    valid m' (p ++ be16 (Z.of_nat (length rd)) ++ rd) /\
    forall rr0 q, rrType rr0 = rrType rr -> rrName rr0 = rrName rr ->
      rdlen rr0 = Z.of_nat (length rd) -> rdata rr0 = rd ->
      let packet := p ++ be16 (Z.of_nat (length rd)) ++ rd ++ q in
      exists r, unpackRData rr0 packet (length p + 2) = Ok (r, packet) /\
        head_of r = head_of rr0 /\ RData r = RData rr.

(** What packing, unpacking and [RData] do with a record of each type. *)
Lemma cases_A rr : rrType rr = QueryTypeA ->
  packRData rr = packA rr /\ RData rr = RText (Text rr) /\ forall p x, unpackRData rr p x = unpackA rr p.
Proof. intros H. unfold packRData, RData, unpackRData. by rewrite H. Qed.
Lemma cases_AAAA rr : rrType rr = QueryTypeAAAA ->
  packRData rr = packAAAA rr /\ RData rr = RText (Text rr) /\ forall p x, unpackRData rr p x = unpackAAAA rr p.
Proof. intros H. unfold packRData, RData, unpackRData. by rewrite H. Qed.
Lemma cases_MX rr : rrType rr = QueryTypeMX ->
  packRData rr = packMX rr /\ RData rr = RMX (MX rr) /\ forall p x, unpackRData rr p x = unpackMX rr p x.
Proof. intros H. unfold packRData, RData, unpackRData. by rewrite H. Qed.
Lemma cases_MINFO rr : rrType rr = QueryTypeMINFO ->
  packRData rr = packMINFO rr /\ RData rr = RMINFO (MInfo rr) /\ forall p x, unpackRData rr p x = unpackMInfo rr p x.
Proof. intros H. unfold packRData, RData, unpackRData. by rewrite H. Qed.
Lemma cases_SRV rr : rrType rr = QueryTypeSRV ->
  packRData rr = packSRV rr /\ RData rr = RSRV (SRV rr) /\ forall p x, unpackRData rr p x = unpackSRV rr p x.
Proof. intros H. unfold packRData, RData, unpackRData. by rewrite H. Qed.
Lemma cases_WKS rr : rrType rr = QueryTypeWKS ->
  packRData rr = packWKS rr /\ RData rr = RWKS (WKS rr) /\ forall p x, unpackRData rr p x = (d ← slice p x (x + Z.to_nat (rdlen rr)); w ← wks_unpack d; Ok (rr_WKS rr (Some w), p)).
Proof. intros H. unfold packRData, RData, unpackRData. by rewrite H. Qed.

Lemma dotted_ParseIP a b c d : Forall is_byte [a; b; c; d] ->
  (ip ← ParseIP (dotted [a; b; c; d]); To4 ip) = Some [a; b; c; d].
Proof. intros Hb. by rewrite ParseIP_dotted. Qed.

Lemma rd_good_A rr a b c d : rrType rr = QueryTypeA -> Forall is_byte [a; b; c; d] ->
  Text rr = Some (dotted [a; b; c; d]) -> rd_good rr.
Proof.
  intros Ht Hb Htext p m dn Hv Hlen.
  exists [a; b; c; d], m, dn. split_and!.
  - rewrite (proj1 (cases_A rr Ht)). unfold packA.
    rewrite emit16_end by lia. rewrite Htext. cbn [deref_opt]. unfold mbind at 1, P_bind at 1, mret at 1, P_ret at 1.
    pose proof (dotted_ParseIP a b c d Hb) as Hip.
    destruct (ParseIP _) as [ip|]; [|done]. cbn [mbind option_bind] in Hip. rewrite Hip.
    change (Z.of_nat rdataIPv4Size) with 4.
    rewrite emit_end by (done || (rewrite length_app; cbn [length be16]; lia)).
    by rewrite <- (assoc_L (++)).
  - unfold rd_room. cbn [length]. lia.
  - by apply valid_app.
  - intros rr0 q Ht0 Hn0 Hl0 Hd0. cbn zeta. rewrite <- Ht0 in Ht.
    destruct (cases_A rr0 Ht) as (_ & _ & ->). unfold unpackA. rewrite bool_decide_false by (rewrite Hl0, Hd0; intros [H|H]; done).
    eexists. split; [done|]. rewrite Hd0. split; [done|].
    match goal with |- RData ?r = _ => destruct (cases_A r Ht) as (_ & -> & _) end.
    rewrite Ht0 in Ht. destruct (cases_A rr Ht) as (_ & -> & _). by rewrite Htext.
Qed.

Lemma unpackName_off p x ls e o off : at_name p x ls e o ->
  unpackName p off x = Ok (join ls, p, if decide (off = 0%nat) then o else off).
Proof.
  intros Hn. destruct (at_name_unpack _ _ _ _ _ Hn) as [fuel Hf].
  rewrite (unpackName_enough fuel); rewrite Hf; [|done].
  by rewrite join_onto_nil by (by eapply at_name_labels).
Qed.

Lemma length_be16 v : length (be16 v) = 2%nat. Proof. done. Qed.
Lemma length_be32 v : length (be32 v) = 4%nat. Proof. done. Qed.

Lemma mret_bind {A B} (a : A) (k : A -> P B) : (mret a ≫= k) = k a.
Proof. reflexivity. Qed.

(** The length field is written once the name after it has been packed. *)
Lemma write16_back {B} p l o v m d (K : P B) :
  (write16 (length p) v;; K) (at_end (p ++ be16 o ++ l) m d) = K (at_end (p ++ be16 v ++ l) m d).
Proof. exact (bind_at _ (fun _ => K) _ tt _ (write16_end p l o v m d)). Qed.

Lemma rd_good_name rr t : rrType rr ∈ name_types -> Text rr = Some t -> name_text t -> rd_good rr.
Proof.
  intros Ht Htext Hok p m dn Hv Hlen.
  assert (Hp : packRData rr = packTextAsDomain rr /\ RData rr = RText (Text rr) /\
    forall rr0 q x, rrType rr0 = rrType rr -> RData rr0 = RText (Text rr0) /\
      unpackRData rr0 q x = unpackTextName rr0 q x).
  { unfold packRData, RData, unpackRData. unfold name_types in Ht. rewrite !elem_of_cons in Ht.
    destruct Ht as [H|[H|[H|[H|[H|[H|H]]]]]]; [..|by apply not_elem_of_nil in H];
      rewrite H; split_and!; try done; intros rr0 q x Hr0; by rewrite Hr0. }
  destruct Hp as (-> & -> & Hun).
  assert (Hroom : Z.of_nat (rd_room rr) >= Z.of_nat (length t) + 2).
  { unfold rd_room. rewrite Htext. cbn [text_room]. lia. }
  destruct (packDomainName_good true t (p ++ be16 0) m dn Hok) as (bs & m' & d' & Hpk & Hbs & Hgood).
  { rewrite length_app. cbn [length be16]. lia. }
  assert (Hlp : forall o, length (p ++ be16 o) = (length p + 2)%nat) by (intros; by rewrite length_app).
  exists bs, m', d'. split_and!.
  - unfold packTextAsDomain. rewrite emit16_off_end by lia. rewrite Htext. cbn [deref_opt].
    unfold mbind at 1, P_bind at 1, mret at 1, P_ret at 1. rewrite (bind_at _ _ _ _ _ Hpk). cbn [fst snd].
    rewrite u16_id by (unfold is_u16; lia).
    rewrite <- (assoc_L (++)), write16_back. unfold mret, P_ret. destruct rr; cbn in *. by subst.
  - lia.
  - rewrite (assoc_L (++)). apply Hgood; [by rewrite !Hlp|by apply valid_app].
  - intros rr0 q Ht0 Hn0 Hl0 Hd0. cbn zeta.
    destruct (Hun rr0 (p ++ be16 (Z.of_nat (length bs)) ++ bs ++ q) (length p + 2)%nat Ht0) as [_ ->].
    destruct (Hgood (p ++ be16 (Z.of_nat (length bs)))) as [_ [f Hn]]; [by rewrite !Hlp|by apply valid_app|].
    unfold unpackTextName. rewrite Hlp, <- (assoc_L (++)) in Hn.
    apply (at_name_app _ q) in Hn. rewrite <- !(assoc_L (++)) in Hn.
    rewrite (unpackName_off _ _ _ _ _ _ Hn). cbn [mbind outcome_bind]. rewrite join_labels.
    eexists. split; [done|]. split; [done|].
    match goal with |- RData ?r = _ => destruct (Hun r [] 0%nat Ht0) as [-> _] end. by rewrite Htext.
Qed.

Ltac room rr := unfold rd_room; repeat match goal with H : _ rr = Some _ |- _ => rewrite H end; cbn [text_room fmap option_fmap option_map]; lia.

Lemma rd_good_MX rr mx : rrType rr = QueryTypeMX -> MX rr = Some mx ->
  -2 ^ 15 <= Preference mx < 2 ^ 15 -> name_text (Exchange mx) -> rd_good rr.
Proof.
  intros Ht Hmx Hpref Hok p m dn Hv Hlen.
  assert (Hroom : Z.of_nat (rd_room rr) >= Z.of_nat (length (Exchange mx)) + 4) by room rr.
  set (pf := be16 (Preference mx)).
  destruct (packDomainName_good true (Exchange mx) (p ++ be16 0 ++ pf) m dn Hok) as (bs & m' & d' & Hpk & Hbs & Hgood).
  { rewrite !length_app. cbn [length be16 pf]. lia. }
  exists (pf ++ bs), m', d'.
  assert (Hrd : Z.of_nat (length (pf ++ bs)) = Z.of_nat (length bs) + 2) by (rewrite length_app; cbn [length be16 pf]; lia).
  rewrite Hrd. split_and!.
  - rewrite (proj1 (cases_MX rr Ht)). unfold packMX.
    rewrite off_emit16_end by lia. rewrite Hmx. cbn [deref_opt]. rewrite mret_bind.
    rewrite emit16_end by (rewrite length_app; cbn [length be16]; lia).
    rewrite <- (assoc_L (++)). fold pf. rewrite (bind_at _ _ _ _ _ Hpk). cbn [fst snd].
    rewrite u16_id by (unfold is_u16; lia).
    rewrite <- !(assoc_L (++)), (write16_back p (pf ++ bs)).
    unfold mret, P_ret. destruct rr, mx; cbn in *. by subst.
  - lia.
  - rewrite !(assoc_L (++)), <- (assoc_L (++) p).
    apply Hgood; [by rewrite !length_app, !length_be16|by apply valid_app].
  - intros rr0 q Ht0 Hn0 Hl0 Hd0. cbn zeta. rewrite <- Ht0 in Ht.
    destruct (cases_MX rr0 Ht) as (_ & _ & ->). unfold unpackMX.
    set (o := be16 (Z.of_nat (length bs) + 2)).
    destruct (Hgood (p ++ o ++ pf)) as [_ [f Hn]]; [by rewrite !length_app|by apply valid_app|].
    rewrite <- (assoc_L (++) pf).
    assert (Hr : ReadInt16 (E := dns_error) (p ++ o ++ pf ++ bs ++ q) (length p + 2) = Ok (Preference mx)).
    { rewrite (assoc_L (++) p). by apply ReadInt16_be; [|rewrite length_app]. }
    rewrite Hr. cbn [mbind outcome_bind].
    apply (at_name_app _ q) in Hn. rewrite <- !(assoc_L (++)) in Hn.
    replace (length p + 2 + 2)%nat with (length (p ++ be16 0 ++ pf)) by (rewrite !length_app; cbn [length be16 pf]; lia).
    rewrite (unpackName_at _ _ _ _ _ Hn). cbn [mbind outcome_bind]. rewrite join_labels.
    eexists. split; [done|]. split; [done|].
    match goal with |- RData ?r = _ => destruct (cases_MX r Ht) as (_ & -> & _) end.
    rewrite Ht0 in Ht. destruct (cases_MX rr Ht) as (_ & -> & _). rewrite Hmx. by destruct mx.
Qed.

Lemma rd_good_SRV rr srv : rrType rr = QueryTypeSRV -> SRV rr = Some srv ->
  is_u16 (Priority srv) -> is_u16 (Weight srv) -> is_u16 (Port srv) -> name_text (Target srv) ->
  until_dot (rrName rr) = (Service srv, (until_dot (rrName rr)).2) ->
  until_dot (until_dot (rrName rr)).2 = (Proto srv, SrvName srv) -> rd_good rr.
Proof.
  intros Ht Hsrv Hpr Hw Hpo Hok Hs1 Hs2 p m dn Hv Hlen.
  assert (Hroom : Z.of_nat (rd_room rr) >= Z.of_nat (length (Target srv)) + 8) by room rr.
  set (pf := be16 (Priority srv)). set (wf := be16 (Weight srv)). set (pof := be16 (Port srv)).
  assert (Hpre : forall o, length (p ++ be16 o ++ pf ++ wf ++ pof) = (length p + 8)%nat)
    by (intros; rewrite !length_app; cbn [length be16 pf wf pof]; lia).
  destruct (packDomainName_good false (Target srv) (p ++ be16 0 ++ pf ++ wf ++ pof) m dn Hok)
    as (bs & m' & d' & Hpk & Hbs & Hgood); [rewrite Hpre; lia|].
  exists (pf ++ wf ++ pof ++ bs), m', d'.
  assert (Hrd : Z.of_nat (length (pf ++ wf ++ pof ++ bs)) = Z.of_nat (length bs) + 6)
    by (rewrite !length_app; cbn [length be16 pf wf pof]; lia).
  rewrite Hrd. split_and!.
  - rewrite (proj1 (cases_SRV rr Ht)). unfold packSRV.
    rewrite off_emit16_end by lia. rewrite Hsrv. cbn [deref_opt]. rewrite mret_bind.
    do 3 rewrite emit16_end by (rewrite !length_app; cbn [length be16]; lia).
    rewrite <- !(assoc_L (++)). fold pf wf pof. rewrite (bind_at _ _ _ _ _ Hpk). cbn [fst snd].
    rewrite u16_id by (unfold is_u16; lia).
    rewrite <- !(assoc_L (++)), (write16_back p (pf ++ wf ++ pof ++ bs)).
    unfold mret, P_ret. destruct rr, srv; cbn in *. by subst.
  - lia.
  - set (o := be16 (Z.of_nat (length bs) + 6)).
    replace (p ++ o ++ pf ++ wf ++ pof ++ bs) with ((p ++ o ++ pf ++ wf ++ pof) ++ bs) by (by rewrite <- !(assoc_L (++))).
    apply Hgood; [unfold o; by rewrite !Hpre|by apply valid_app].
  - intros rr0 q Ht0 Hn0 Hl0 Hd0. cbn zeta. rewrite <- Ht0 in Ht.
    destruct (cases_SRV rr0 Ht) as (_ & _ & ->). unfold unpackSRV.
    set (v := Z.of_nat (length bs) + 6). rewrite Hn0, Hs1, Hs2.
    destruct (Hgood (p ++ be16 v ++ pf ++ wf ++ pof)) as [_ [f Hn]]; [by rewrite !Hpre|by apply valid_app|].
    apply (at_name_app _ q) in Hn. rewrite Hpre in Hn. rewrite <- !(assoc_L (++)) in Hn. rewrite <- !(assoc_L (++)).
    set (packet := p ++ be16 v ++ pf ++ wf ++ pof ++ bs ++ q) in *.
    assert (R1 : ReadUint16 (E := dns_error) packet (length p + 2) = Ok (Priority srv)).
    { unfold packet. rewrite (assoc_L (++) p). by apply ReadUint16_be; [|rewrite length_app]. }
    assert (R2 : ReadUint16 (E := dns_error) packet (length p + 2 + 2) = Ok (Weight srv)).
    { unfold packet. rewrite (assoc_L (++) p), (assoc_L (++) _ pf).
      apply ReadUint16_be; [done|]. rewrite !length_app. cbn [length be16 pf]. lia. }
    assert (R3 : ReadUint16 (E := dns_error) packet (length p + 2 + 4) = Ok (Port srv)).
    { unfold packet. rewrite (assoc_L (++) p), (assoc_L (++) _ pf), (assoc_L (++) _ wf).
      apply ReadUint16_be; [done|]. rewrite !length_app. cbn [length be16 pf wf]. lia. }
    rewrite R1, R2, R3. cbn [mbind outcome_bind].
    replace (length p + 2 + 6)%nat with (length p + 8)%nat by lia.
    rewrite (unpackName_off _ _ _ _ _ _ Hn). cbn [mbind outcome_bind]. rewrite join_labels.
    eexists. split; [done|]. split; [done|].
    match goal with |- RData ?r = _ => destruct (cases_SRV r Ht) as (_ & -> & _) end.
    rewrite Ht0 in Ht. destruct (cases_SRV rr Ht) as (_ & -> & _). rewrite Hsrv. by destruct srv.
Qed.

Lemma rd_good_MINFO rr mi : rrType rr = QueryTypeMINFO -> MInfo rr = Some mi ->
  name_text (RMailBox mi) -> name_text (EmailBox mi) -> rd_good rr.
Proof.
  intros Ht Hmi Hok1 Hok2 p m dn Hv Hlen.
  assert (Hroom : Z.of_nat (rd_room rr) >= Z.of_nat (length (RMailBox mi)) + Z.of_nat (length (EmailBox mi)) + 4) by room rr.
  assert (Hlp : forall o, length (p ++ be16 o) = (length p + 2)%nat) by (intros; by rewrite length_app).
  destruct (packDomainName_good true (RMailBox mi) (p ++ be16 0) m dn Hok1) as (b1 & m1 & d1 & Hpk1 & Hb1 & Hgood1);
    [rewrite Hlp; lia|].
  destruct (packDomainName_good true (EmailBox mi) ((p ++ be16 0) ++ b1) m1 d1 Hok2) as (b2 & m2 & d2 & Hpk2 & Hb2 & Hgood2);
    [rewrite length_app, Hlp; lia|].
  exists (b1 ++ b2), m2, d2. rewrite length_app, Nat2Z.inj_add.
  set (v := Z.of_nat (length b1) + Z.of_nat (length b2)).
  destruct (Hgood1 (p ++ be16 v)) as [Hv1 [f1 Hn1]]; [by rewrite !Hlp|by apply valid_app|].
  destruct (Hgood2 ((p ++ be16 v) ++ b1)) as [Hv2 [f2 Hn2]]; [by rewrite !(length_app _ b1), !Hlp|done|].
  split_and!.
  - rewrite (proj1 (cases_MINFO rr Ht)). unfold packMINFO.
    rewrite off_emit16_end by lia. rewrite Hmi. cbn [deref_opt]. rewrite mret_bind.
    rewrite (bind_at _ _ _ _ _ Hpk1), (bind_at _ _ _ _ _ Hpk2). cbn [fst snd]. fold v.
    rewrite u16_id by (unfold is_u16; lia).
    rewrite <- !(assoc_L (++)), (write16_back p (b1 ++ b2)).
    unfold mret, P_ret. destruct rr, mi; cbn in *. by subst.
  - lia.
  - by rewrite <- !(assoc_L (++)) in Hv2.
  - intros rr0 q Ht0 Hn0 Hl0 Hd0. cbn zeta. rewrite <- Ht0 in Ht.
    destruct (cases_MINFO rr0 Ht) as (_ & _ & ->). unfold unpackMInfo.
    apply (at_name_app _ (b2 ++ q)) in Hn1. apply (at_name_app _ q) in Hn2.
    rewrite Hlp in Hn1. rewrite (length_app (p ++ be16 0) b1), Hlp in Hn2.
    rewrite <- !(assoc_L (++)) in Hn1. rewrite <- !(assoc_L (++)) in Hn2. rewrite <- !(assoc_L (++)).
    rewrite (unpackName_at _ _ _ _ _ Hn1). cbn [mbind outcome_bind]. rewrite join_labels.
    assert (Ha : after_name f1 (length p + 2) (RMailBox mi) = (length p + 2 + length b1)%nat).
    { destruct (at_name_end _ _ _ _ _ Hn1) as [E1 E2]. unfold after_name.
      rewrite !length_app, length_be16 in E1, E2. case_decide as Hf.
      - specialize (E2 Hf). lia.
      - specialize (E1 ltac:(lia)). rewrite join_labels in E1.
        destruct (labels (RMailBox mi)) eqn:El; [by destruct (labels_ne (RMailBox mi))|]. lia. }
    rewrite Ha, (unpackName_at _ _ _ _ _ Hn2). cbn [mbind outcome_bind]. rewrite join_labels.
    eexists. split; [done|]. split; [done|].
    match goal with |- RData ?r = _ => destruct (cases_MINFO r Ht) as (_ & -> & _) end.
    rewrite Ht0 in Ht. destruct (cases_MINFO rr Ht) as (_ & -> & _). rewrite Hmi. by destruct mi.
Qed.

Lemma rd_good_WKS rr w : rrType rr = QueryTypeWKS -> WKS rr = Some w -> length (Address w) = 4%nat -> rd_good rr.
Proof.
  intros Ht Hw Ha p m dn Hv Hlen.
  assert (Hroom : Z.of_nat (rd_room rr) >= Z.of_nat (length (BitMap w)) + 5) by room rr.
  set (rd := Address w ++ Protocol w :: BitMap w).
  assert (Hrd : Z.of_nat (length rd) = 5 + Z.of_nat (length (BitMap w)))
    by (unfold rd; rewrite length_app; cbn [length]; lia).
  exists rd, m, dn. split_and!.
  - rewrite (proj1 (cases_WKS rr Ht)). unfold packWKS. rewrite Hw. cbn [deref_opt]. rewrite mret_bind.
    rewrite <- Hrd, u16_id by (unfold is_u16; lia). rewrite emit16_end by lia.
    unfold take_exact. rewrite decide_True by lia. rewrite mret_bind, (firstn_all2 (n := 4) (Address w)) by lia.
    unfold mbind at 1, P_bind at 1, emit at 1. unfold mbind at 1, P_bind at 1, emit at 1.
    unfold mbind at 1, P_bind at 1, emit at 1. unfold mbind at 1, P_bind at 1.
    unfold at_end at 1. cbn [pkt moff dnameOff dname].
    replace ((((p ++ be16 (Z.of_nat (length rd))) ++ Address w) ++ [Protocol w]) ++ BitMap w)
      with ((p ++ be16 (Z.of_nat (length rd))) ++ rd) by (unfold rd; by rewrite <- !(assoc_L (++))).
    rewrite advance_end by (done || (rewrite length_app, length_be16; lia)).
    by rewrite <- (assoc_L (++)).
  - lia.
  - by apply valid_app.
  - intros rr0 q Ht0 Hn0 Hl0 Hd0. cbn zeta. rewrite <- Ht0 in Ht.
    destruct (cases_WKS rr0 Ht) as (_ & _ & ->). rewrite Hl0, Nat2Z.id.
    assert (Hs : slice (E := dns_error) (p ++ be16 (Z.of_nat (length rd)) ++ rd ++ q) (length p + 2) (length p + 2 + length rd)
      = Ok rd).
    { rewrite (assoc_L (++) p). apply slice_app; rewrite length_app, length_be16; lia. }
    rewrite Hs. cbn [mbind outcome_bind].
    assert (Hu : wks_unpack rd = Ok w).
    { unfold wks_unpack. destruct w as [a pr bm]. cbn [Address Protocol BitMap] in *.
      destruct a as [|a0 [|a1 [|a2 [|a3 [|]]]]]; try done. unfold rd. cbn [app].
      unfold slice, get_at. rewrite !decide_True by (cbn [length]; lia).
      cbn [length drop take Nat.sub lookup list_lookup mbind outcome_bind].
      by rewrite Nat.sub_0_r, firstn_all. }
    rewrite Hu. eexists. split; [done|]. split; [done|].
    match goal with |- RData ?r = _ => destruct (cases_WKS r Ht) as (_ & -> & _) end.
    rewrite Ht0 in Ht. destruct (cases_WKS rr Ht) as (_ & -> & _). by rewrite Hw.
Qed.

Lemma rdata_ok_good rr : rdata_ok rr -> rd_good rr.
Proof.
  destruct 1; eauto using rd_good_A, rd_good_name, rd_good_MX, rd_good_MINFO, rd_good_SRV, rd_good_WKS.
Qed.

(** ** Records *)

Definition rr_ok (rr : ResourceRecord) : Prop :=
  name_text (rrName rr) /\ is_u16 (rrType rr) /\ is_u16 (rrClass rr) /\ is_u32 (TTL rr) /\ rdata_ok rr.

Definition rr_room (rr : ResourceRecord) : nat := length (rrName rr) + 12 + rd_room rr.

(** Two records with the same name, type, class, TTL, place of the TTL and data. *)
Definition same_rr (r1 r2 : ResourceRecord) : Prop := head_of r1 = head_of r2 /\ RData r1 = RData r2.

Lemma rdata_ok_offTTL rr o : rdata_ok rr -> rdata_ok (rr_offTTL rr o).
Proof. destruct 1; [eapply ok_A|eapply ok_name|eapply ok_MX|eapply ok_MINFO|eapply ok_SRV|eapply ok_WKS]; eauto. Qed.

Lemma rdata_ok_not_OPT rr : rdata_ok rr -> (rrType rr =? QueryTypeOPT) = false.
Proof.
  destruct 1 as [a b c d H _ _|t H _ _|? H _|? H _|? H _|? H _]; try by rewrite H.
  unfold name_types in H. rewrite !elem_of_cons in H.
  destruct H as [H|[H|[H|[H|[H|[H|H]]]]]]; [by rewrite H..|by apply not_elem_of_nil in H].
Qed.

(** The header fields of a record, read past its name. *)
Lemma rr_unpack_at (p nb rd q : list Z) ls f ty cl ttl r :
  is_u16 ty -> is_u16 cl -> is_u32 ttl -> is_u16 (Z.of_nat (length rd)) -> ls ≠ [] ->
  let p1 := p ++ nb ++ be16 ty ++ be16 cl ++ be32 ttl in
  let packet := p1 ++ be16 (Z.of_nat (length rd)) ++ rd ++ q in
  at_name packet (length p) ls (length p + length nb) f ->
  unpackRData (mkRR (join ls) ty cl ttl (Z.of_nat (length rd)) rd (Some []) None None None None None None None
    f (length p1 - 4)) packet (length p1 + 2) = Ok (r, packet) ->
  rr_unpack packet (length p) = Ok (r, packet, (length p1 + 2 + length rd)%nat).
Proof.
  intros Hty Hcl Httl Hrd Hne p1 packet Hn Hun. unfold rr_unpack.
  rewrite (unpackName_at _ _ _ _ _ Hn). cbn [mbind outcome_bind].
  destruct (at_name_end _ _ _ _ _ Hn) as [E1 E2].
  set (x := if decide (0 < f)%nat then _ else _).
  assert (Hx : x = (length p + length nb)%nat).
  { subst x. pose proof (at_name_labels _ _ _ _ _ Hn) as Hok. case_decide as Hf; [by rewrite (E2 Hf)|].
    destruct ls as [|l ls]; [done|]. apply Forall_cons in Hok as [Hl _].
    rewrite decide_False by (pose proof (join_ne l ls Hl); by destruct (join (l :: ls))).
    rewrite (E1 ltac:(lia)). lia. }
  clearbody x. subst x. clear E1 E2.
  assert (Hp1 : length p1 = (length p + length nb + 8)%nat)
    by (unfold p1; rewrite !length_app, !length_be16, length_be32; lia).
  assert (Hpk : packet = (p ++ nb) ++ be16 ty ++ be16 cl ++ be32 ttl ++ be16 (Z.of_nat (length rd)) ++ rd ++ q)
    by (unfold packet, p1; by rewrite <- !(assoc_L (++))).
  assert (R1 : ReadUint16 (E := dns_error) packet (length p + length nb) = Ok ty)
    by (rewrite Hpk; apply ReadUint16_be; [done|by rewrite length_app]).
  assert (R2 : ReadUint16 (E := dns_error) packet (length p + length nb + 2) = Ok cl).
  { rewrite Hpk, (assoc_L (++) (p ++ nb)). apply ReadUint16_be; [done|]. by rewrite !length_app. }
  assert (R3 : ReadUint32 (E := dns_error) packet (length p + length nb + 4) = Ok ttl).
  { rewrite Hpk, (assoc_L (++) (p ++ nb)), (assoc_L (++) _ (be16 cl)). apply ReadUint32_be; [done|].
    rewrite !length_app, !length_be16. lia. }
  assert (R4 : ReadUint16 (E := dns_error) packet (length p + length nb + 8) = Ok (Z.of_nat (length rd))).
  { unfold packet. by apply ReadUint16_be. }
  rewrite R1, R2, R3, R4. cbn [mbind outcome_bind]. rewrite Nat2Z.id.
  assert (Hs : slice (E := dns_error) packet (length p + length nb + 10) (length p + length nb + 10 + length rd) = Ok rd).
  { unfold packet. rewrite (assoc_L (++) p1). apply slice_app; rewrite length_app, length_be16; lia. }
  rewrite Hs. cbn [mbind outcome_bind]. rewrite Hp1 in Hun |- *.
  replace (length p + length nb + 8 - 4)%nat with (length p + length nb + 4)%nat in Hun by lia.
  replace (length p + length nb + 8 + 2)%nat with (length p + length nb + 10)%nat in Hun |- * by lia.
  rewrite Hun. done.
Qed.

Lemma emit16_2_end {B} v w p m d (k : P B) : Z.of_nat (length p) + 4 < 65536 ->
  (emit16 v;; emit16 w;; advance 4;; k) (at_end p m d) = k (at_end (p ++ be16 v ++ be16 w) m d).
Proof.
  intros Hl. unfold mbind at 1, P_bind at 1, emit16 at 1, at_end. cbn [pkt moff dnameOff dname].
  unfold mbind at 1, P_bind at 1, emit16 at 1. cbn [pkt moff dnameOff dname].
  unfold mbind at 1, P_bind at 1. change (AppendUint16 (AppendUint16 p v) w) with ((p ++ be16 v) ++ be16 w).
  rewrite <- (assoc_L (++)). by rewrite advance_end by (done || lia).
Qed.

Lemma off_emit32_end {B} v p m d (k : nat -> P B) : Z.of_nat (length p) + 4 < 65536 ->
  (off ← get_off; emit32 v;; advance 4;; k off) (at_end p m d) = k (length p) (at_end (p ++ be32 v) m d).
Proof.
  intros Hl. unfold mbind at 1, P_bind at 1, get_off, at_end. cbn [moff]. rewrite Nat2Z.id.
  unfold mbind at 1, P_bind at 1, emit32. cbn [pkt moff dnameOff dname].
  unfold mbind at 1, P_bind at 1. change (AppendUint32 p v) with (p ++ be32 v).
  by rewrite advance_end by (done || lia).
Qed.

(** Packing a record appends it and keeps the state at the end of the packet. *)
Lemma packRR_good rr p m d : rr_ok rr -> valid m p -> Z.of_nat (length p) + Z.of_nat (rr_room rr) <= 16384 ->
  exists bs m' d' o,
    packRR rr (at_end p m d) = Ok (rr_offTTL rr o, at_end (p ++ bs) m' d') /\
    (length bs <= rr_room rr)%nat /\ valid m' (p ++ bs) /\
    forall q, exists r, rr_unpack (p ++ bs ++ q) (length p) = Ok (r, p ++ bs ++ q, length (p ++ bs)) /\
      same_rr r (rr_offTTL rr o).
Proof.
  intros (Hok & Hty & Hcl & Httl & Hrd) Hv Hlen. unfold rr_room in Hlen.
  destruct (packDomainName_good true (rrName rr) p m d Hok) as (nb & m1 & d1 & Hpk & Hnb & Hgood); [lia|].
  set (p1 := p ++ nb ++ be16 (rrType rr) ++ be16 (rrClass rr) ++ be32 (TTL rr)).
  assert (Hp1 : length p1 = (length p + length nb + 8)%nat)
    by (unfold p1; rewrite !length_app, !length_be16, length_be32; lia).
  destruct (Hgood p eq_refl Hv) as [Hv1 [f Hn]].
  set (o := length (p ++ nb ++ be16 (rrType rr) ++ be16 (rrClass rr))).
  assert (Ho : o = (length p1 - 4)%nat)
    by (rewrite Hp1; unfold o; rewrite !length_app, !length_be16; lia).
  destruct (rdata_ok_good (rr_offTTL rr o) (rdata_ok_offTTL rr o Hrd) p1 m1 d1)
    as (rd & m2 & d2 & Hprd & Hrdl & Hv2 & Hun).
  { unfold p1. rewrite (assoc_L (++) p). by apply valid_app. }
  { change (rd_room (rr_offTTL rr o)) with (rd_room rr). lia. }
  change (rd_room (rr_offTTL rr o)) with (rd_room rr) in Hrdl.
  exists (nb ++ be16 (rrType rr) ++ be16 (rrClass rr) ++ be32 (TTL rr) ++ be16 (Z.of_nat (length rd)) ++ rd), m2, d2, o.
  assert (Happ : forall l, p1 ++ l = p ++ nb ++ be16 (rrType rr) ++ be16 (rrClass rr) ++ be32 (TTL rr) ++ l)
    by (intros; unfold p1; by rewrite <- !(assoc_L (++))).
  split_and!.
  - unfold packRR. rewrite (rdata_ok_not_OPT rr Hrd).
    rewrite (bind_at _ _ _ rr (at_end (p ++ nb) m1 d1)).
    2: { rewrite (bind_at _ _ _ _ _ Hpk). cbn [snd]. unfold mret, P_ret. by destruct rr. }
    rewrite emit16_2_end by (rewrite length_app; lia).
    rewrite (rdata_ok_not_OPT rr Hrd), mret_bind.
    rewrite off_emit32_end by (rewrite !length_app, !length_be16; lia).
    rewrite <- !(assoc_L (++)). fold o p1. rewrite Hprd. by rewrite Happ.
  - unfold rr_room. rewrite !length_app, !length_be16, length_be32. lia.
  - by rewrite <- Happ.
  - intros q. rewrite <- !(assoc_L (++)), <- !Happ.
    set (rr0 := mkRR (rrName rr) (rrType rr) (rrClass rr) (TTL rr) (Z.of_nat (length rd)) rd (Some [])
      None None None None None None None f (length p1 - 4)).
    destruct (Hun rr0 q) as (r & Hr & Hh & Hd); [done..|].
    exists r. split.
    + replace (length (p1 ++ be16 (Z.of_nat (length rd)) ++ rd)) with (length p1 + 2 + length rd)%nat
        by (rewrite !length_app, length_be16; lia).
      apply (rr_unpack_at p nb rd q (labels (rrName rr)) f); try done.
      * unfold is_u16. lia.
      * apply labels_ne.
      * apply (at_name_app _ (be16 (rrType rr) ++ be16 (rrClass rr) ++ be32 (TTL rr) ++ be16 (Z.of_nat (length rd)) ++ rd ++ q)) in Hn.
        rewrite length_app in Hn. rewrite <- !(assoc_L (++)) in Hn. by rewrite <- !(assoc_L (++)).
      * rewrite join_labels. exact Hr.
    + split; [|done]. rewrite Hh. unfold rr0, head_of. cbn. by rewrite <- Ho.
Qed.

(** The records of a section, as they are after packing. *)
Fixpoint rrs_room (rrs : list ResourceRecord) : nat :=
  match rrs with [] => 0 | rr :: rrs => rr_room rr + rrs_room rrs end.

(** The packed record is the record but for the place of its TTL. *)
Definition packed (rr rr' : ResourceRecord) : Prop := exists o, rr' = rr_offTTL rr o.

Lemma packRRs_good rrs : forall p m d, Forall rr_ok rrs -> valid m p ->
  Z.of_nat (length p) + Z.of_nat (rrs_room rrs) <= 16384 ->
  exists bs m' d' rrs',
    packRRs rrs (at_end p m d) = Ok (rrs', at_end (p ++ bs) m' d') /\
    (length bs <= rrs_room rrs)%nat /\ valid m' (p ++ bs) /\ Forall2 packed rrs rrs' /\
    forall q, exists rs, unpackRRs (length rrs) (p ++ bs ++ q) (length p) = Ok (rs, p ++ bs ++ q, length (p ++ bs)) /\
      Forall2 same_rr rs rrs'.
Proof.
  induction rrs as [|rr rrs IH]; intros p m d Hok Hv Hlen; cbn [packRRs rrs_room length unpackRRs] in *.
  - exists [], m, d, []. rewrite app_nil_r. split_and!; try done. intros q. exists []. by rewrite app_nil_l.
  - apply Forall_cons in Hok as [Hrr Hok].
    destruct (packRR_good rr p m d Hrr Hv) as (b1 & m1 & d1 & o & Hp1 & Hl1 & Hv1 & Hu1); [lia|].
    destruct (IH (p ++ b1) m1 d1 Hok Hv1) as (b2 & m2 & d2 & rrs' & Hp2 & Hl2 & Hv2 & Hpk & Hu2);
      [rewrite length_app; lia|].
    exists (b1 ++ b2), m2, d2, (rr_offTTL rr o :: rrs'). split_and!.
    + rewrite (bind_at _ _ _ _ _ Hp1), (bind_at _ _ _ _ _ Hp2). by rewrite (assoc_L (++)).
    + rewrite length_app. lia.
    + by rewrite (assoc_L (++)).
    + constructor; [by exists o|done].
    + intros q. destruct (Hu1 (b2 ++ q)) as (r & Hr & Hs). destruct (Hu2 q) as (rs & Hrs & Hss).
      exists (r :: rs). rewrite <- !(assoc_L (++)) in *. rewrite Hr. cbn [mbind outcome_bind].
      rewrite Hrs. cbn [mbind outcome_bind]. split; [done|by constructor].
Qed.

(** ** The question *)

Fixpoint plain (ls : list (list Z)) : list Z :=
  match ls with [] => [0] | l :: ls => Z.of_nat (length l) :: l ++ plain ls end.

Lemma enc_plain ls : forall m off, (enc false m off ls).1 = plain ls.
Proof.
  induction ls as [|l ls IH]; intros m off; [done|]. cbn [enc plain].
  specialize (IH (<[join (l :: ls) := off]> m) (off + 1 + Z.of_nat (length l))).
  destruct (enc false _ _ ls) as [bs m']. cbn [fst] in *. by rewrite IH.
Qed.

Lemma length_plain ls : ls ≠ [] -> length (plain ls) = (length (join ls) + 2)%nat.
Proof.
  intros Hne. induction ls as [|l ls IH]; [done|]. cbn [plain]. destruct ls as [|l2 ls].
  - cbn [plain join length]. rewrite length_app. cbn [length]. lia.
  - rewrite (join_cons l (l2 :: ls)) by done. cbn [length]. rewrite !length_app, IH by done. cbn [length]. lia.
Qed.

Lemma question_label_at l : forall name pre rest, Forall name_byte l -> rest ≠ [] ->
  question_label (length l) name (pre ++ l ++ rest) (length pre)
  = Ok (name ++ l, pre ++ l ++ rest, length (pre ++ l)).
Proof.
  induction l as [|c l IH]; intros name pre rest Hok Hr; cbn [length question_label].
  { by rewrite !app_nil_r. }
  apply Forall_cons in Hok as [(_ & _ & _ & Hc) Hok].
  rewrite (lower_at_same _ _ c) by (done || by apply list_lookup_middle).
  cbn [mbind outcome_bind]. rewrite decide_False.
  2: { rewrite !length_app. destruct rest; [done|]. cbn [length]. lia. }
  specialize (IH (name ++ [c]) (pre ++ [c]) rest Hok Hr). rewrite <- !(assoc_L (++)) in IH. cbn [app] in IH.
  rewrite length_app in IH. cbn [length] in IH. rewrite Nat.add_1_r in IH. exact IH.
Qed.

Lemma question_labels_at ls : forall fuel l name pre rest,
  label_ok l -> Forall label_ok ls -> rest ≠ [] -> (length ls < fuel)%nat ->
  question_labels fuel (Z.of_nat (length l)) name (pre ++ l ++ plain ls ++ rest) (length pre)
  = Ok (name ++ join (l :: ls), pre ++ l ++ plain ls ++ rest, length (pre ++ l ++ plain ls)).
Proof.
  induction ls as [|l2 ls IH]; intros fuel l name pre rest (Hne & _ & Hb) Hok Hr Hf;
    destruct fuel as [|fuel]; [lia| |lia|]; cbn [question_labels].
  all: rewrite (proj2 (Z.eqb_neq (Z.of_nat (length l)) 0)), Nat2Z.id by (destruct l; [done|simpl; lia]).
  all: rewrite question_label_at by (done || by destruct ls).
  all: cbn [mbind outcome_bind].
  - cbn [plain app]. rewrite (assoc_L (++)), get_at_tail0. cbn [mbind outcome_bind Z.eqb].
    cbn [join]. do 2 f_equal. rewrite (assoc_L (++)), (length_app (pre ++ l)). cbn [length]. lia.
  - apply Forall_cons in Hok as [Hl2 Hok]. cbn [length] in Hf.
    assert (Hget : get_at (E := list Z * list Z) (pre ++ l ++ plain (l2 :: ls) ++ rest) (length (pre ++ l))
      = Ok (Z.of_nat (length l2))).
    { rewrite (assoc_L (++)). cbn [plain app]. apply get_at_tail0. }
    rewrite Hget. cbn [mbind outcome_bind].
    rewrite (proj2 (Z.eqb_neq (Z.of_nat (length l2)) 0)) by (destruct Hl2 as (H2 & _); destruct l2; [done|simpl; lia]).
    rewrite decide_False.
    2: { rewrite !length_app. cbn [plain length]. rewrite length_app.
         destruct rest; [done|]. cbn [length]. lia. }
    specialize (IH fuel l2 (name ++ l ++ [46]) (pre ++ l ++ [Z.of_nat (length l2)]) rest Hl2 Hok Hr ltac:(lia)).
    rewrite <- !(assoc_L (++)) in IH. cbn [app] in IH. cbn [plain app]. rewrite <- !(assoc_L (++)).
    replace (S (length (pre ++ l))) with (length (pre ++ l ++ [Z.of_nat (length l2)]))
      by (rewrite !length_app; cbn [length]; lia).
    rewrite IH. rewrite (join_cons l (l2 :: ls)) by done. done.
Qed.

(** A packed question, read back. *)
Lemma question_unpack_at q0 name ty cl rest : qName q0 = [] -> name_text name -> is_u16 ty -> is_u16 cl ->
  let packet := plain (labels name) ++ be16 ty ++ be16 cl ++ rest in
  question_unpack q0 packet = Ok (mkQuestion name ty cl, packet).
Proof.
  intros Hq0 Hok Hty Hcl packet. unfold question_unpack.
  pose proof (length_plain (labels name) (labels_ne name)) as Hl. rewrite join_labels in Hl.
  pose proof (join_labels name) as Hj.
  assert (Hlp : length packet = (length name + 6 + length rest)%nat)
    by (unfold packet; rewrite !length_app, !length_be16, Hl; lia).
  destruct Hok as [_ Hok]. destruct (labels name) as [|l ls] eqn:El; [by destruct (labels_ne name)|].
  apply Forall_cons in Hok as [Hlab Hok].
  assert (Hfuel : (length ls < length packet)%nat).
  { rewrite Hlp. clear -Hj Hok Hlab. rewrite <- Hj. clear Hj. revert l Hlab.
    induction ls as [|l2 ls IH]; intros l Hlab; [simpl; lia|]. apply Forall_cons in Hok as [Hl2 Hok].
    specialize (IH Hok l2 Hl2). pose proof (length_join_lt l (l2 :: ls) Hlab). cbn [length]. lia. }
  pose proof (question_labels_at ls (length packet) l [] [Z.of_nat (length l)]
    (be16 ty ++ be16 cl ++ rest) Hlab Hok ltac:(done) Hfuel) as Hq.
  assert (Hpk : packet = Z.of_nat (length l) :: l ++ plain ls ++ be16 ty ++ be16 cl ++ rest)
    by (unfold packet; cbn [plain app]; by rewrite <- (assoc_L (++))).
  cbn [app length] in Hq. rewrite <- Hpk in Hq.
  assert (Hx : S (length (l ++ plain ls)) = (length name + 2)%nat) by (cbn [plain length] in Hl; lia).
  rewrite Hx, Hj in Hq. rewrite Hpk at 1. rewrite Hq0, Hq. cbn [mbind outcome_bind].
  rewrite decide_False by lia.
  assert (R1 : ReadUint16 (E := list Z * list Z) packet (length name + 2) = Ok ty) by (unfold packet; by apply ReadUint16_be).
  assert (R2 : ReadUint16 (E := list Z * list Z) packet (length name + 2 + 2) = Ok cl).
  { unfold packet. rewrite (assoc_L (++)). apply ReadUint16_be; [done|]. rewrite length_app, length_be16. lia. }
  rewrite R1, R2. done.
Qed.

Lemma packQuestion_good q p d : name_text (qName q) ->
  Z.of_nat (length p) + Z.of_nat (length (qName q)) + 6 <= 16384 ->
  exists m' d', packQuestion q (at_end p ∅ d)
      = Ok (q, at_end (p ++ plain (labels (qName q)) ++ be16 (qType q) ++ be16 (qClass q)) m' d') /\
    valid m' (p ++ plain (labels (qName q)) ++ be16 (qType q) ++ be16 (qClass q)).
Proof.
  intros Hok Hlen.
  pose proof (packDomainName_enc false (labels (qName q)) p ∅ d Hok) as Hp.
  pose proof (enc_valid false (labels (qName q)) ∅ p Hok (valid_empty p)) as Hv.
  pose proof (enc_plain (labels (qName q)) ∅ (Z.of_nat (length p))) as He.
  pose proof (length_plain (labels (qName q)) (labels_ne _)) as Hl. rewrite join_labels in Hp, Hl.
  specialize (Hp ltac:(lia)). destruct (enc false ∅ _ _) as [bs m']. cbn [fst] in He. subst bs.
  destruct Hp as [d' Hp]. destruct Hv as [Hv _]; [lia|]. exists m', d'. split.
  - unfold packQuestion. rewrite (bind_at _ _ _ _ _ Hp). cbn [snd].
    replace (mkP _ _ m' d') with (at_end (p ++ plain (labels (qName q))) m' d')
      by (unfold at_end; f_equal; rewrite length_app; lia).
    rewrite emit16_2_end by (rewrite length_app; lia). unfold mret, P_ret. rewrite <- (assoc_L (++)).
    by destruct q.
  - rewrite (assoc_L (++) p). by apply valid_app.
Qed.

(** ** Messages *)

(** A response that the library packs as it is: names of the domain-name kind,
    in lower case, records of the kinds of [rdata_ok], and a size that a
    compression pointer can address. *)
Record message_ok (m : Message) : Prop := {
  mo_response : IsQuery (Header m) = false;
  mo_header : packable (counted m);
  mo_name : name_text (qName (Question m));
  mo_type : is_u16 (qType (Question m));
  mo_class : is_u16 (qClass (Question m));
  mo_answer : Forall rr_ok (Answer m);
  mo_authority : Forall rr_ok (Authority m);
  mo_additional : Forall rr_ok (Additional m);
  mo_size : Z.of_nat sectionHeaderSize + Z.of_nat (length (qName (Question m))) + 6
    + Z.of_nat (rrs_room (Answer m)) + Z.of_nat (rrs_room (Authority m)) + Z.of_nat (rrs_room (Additional m)) <= 16384
}.

Lemma length_rrs_room rrs : (length rrs <= rrs_room rrs)%nat.
Proof. induction rrs as [|rr rrs IH]; [done|]. cbn [length rrs_room]. unfold rr_room. lia. Qed.

Lemma len16_id {A} (l : list A) : Z.of_nat (length l) < 65536 -> Z.to_nat (len16 l) = length l.
Proof. intros H. unfold len16. rewrite u16_id by (unfold is_u16; lia). apply Nat2Z.id. Qed.

(** A message that is ready to be unpacked into. *)
Definition blank (m : Message) : Prop :=
  fresh (Header m) /\ qName (Question m) = [] /\ Answer m = [] /\ Authority m = [] /\ Additional m = [].

Lemma Pack_good m m0 : message_ok m -> blank m0 ->
  exists m1 m2, Pack m = Ok m1 /\ Unpack (set_Packet m0 (Packet m1)) = Ok m2 /\
    Header m1 = counted m /\ Question m1 = Question m /\
    Header m2 = Header m1 /\ Question m2 = Question m1 /\ Packet m2 = Packet m1 /\
    Forall2 packed (Answer m) (Answer m1) /\ Forall2 same_rr (Answer m2) (Answer m1) /\
    Forall2 packed (Authority m) (Authority m1) /\ Forall2 same_rr (Authority m2) (Authority m1) /\
    Forall2 packed (Additional m) (Additional m1) /\ Forall2 same_rr (Additional m2) (Additional m1).
Proof.
  intros [Hresp Hhdr Hname Hty Hcl Ha Hb Hc Hsize] (Hfresh & Hq0 & Ha0 & Hb0 & Hc0).
  set (hp := header_pack (counted m)). assert (Hhp : length hp = sectionHeaderSize) by apply length_header_pack.
  set (q := Question m) in *. set (p0 := hp ++ plain (labels (qName q)) ++ be16 (qType q) ++ be16 (qClass q)).
  destruct (packQuestion_good q hp [] Hname) as (mq & dq & Hpq & Hvq); [lia|].
  assert (Hp0 : length p0 = (sectionHeaderSize + length (qName q) + 6)%nat).
  { unfold p0. rewrite !length_app, !length_be16, length_plain, join_labels, Hhp by apply labels_ne. lia. }
  fold p0 in Hpq, Hvq.
  destruct (packRRs_good (Answer m) p0 mq dq Ha Hvq) as (ba & ma & da & a1 & Hpa & Hla & Hva & Hka & Hua); [lia|].
  destruct (packRRs_good (Authority m) (p0 ++ ba) ma da Hb Hva) as (bb & mb & db & b1 & Hpb & Hlb & Hvb & Hkb & Hub);
    [rewrite length_app; lia|].
  destruct (packRRs_good (Additional m) ((p0 ++ ba) ++ bb) mb db Hc Hvb) as (bc & mc & dc & c1 & Hpc & Hlc & _ & Hkc & Huc);
    [rewrite !length_app; lia|].
  set (packet := p0 ++ ba ++ bb ++ bc).
  assert (Hpack : Pack m = Ok (mkMessage (counted m) q a1 b1 c1 packet)).
  { unfold Pack, pack_body. fold hp q.
    change (mkP hp (Z.of_nat sectionHeaderSize) ∅ []) with (mkP hp (Z.of_nat sectionHeaderSize) ∅ []).
    rewrite <- Hhp. fold (at_end hp ∅ []). rewrite (bind_at _ _ _ _ _ Hpq), Hresp.
    rewrite (bind_at _ _ _ _ _ Hpa), (bind_at _ _ _ _ _ Hpb), (bind_at _ _ _ _ _ Hpc).
    unfold mret, P_ret, at_end. cbn [pkt]. unfold set_Packet, packet. cbn.
    by rewrite <- !(assoc_L (++)). }
  destruct (Hua (bb ++ bc)) as (ra & Hra & Hsa). destruct (Hub bc) as (rb & Hrb & Hsb).
  destruct (Huc []) as (rc & Hrc & Hsc). rewrite !app_nil_r in Hrc. rewrite <- !(assoc_L (++)) in Hrb.
  rewrite <- !(assoc_L (++)) in Hrc. fold packet in Hra, Hrb, Hrc.
  exists (mkMessage (counted m) q a1 b1 c1 packet), (mkMessage (counted m) q ra rb rc packet).
  split; [done|]. split; [|by split_and!].
  assert (Hhq : UnpackHeaderQuestion (set_Packet m0 packet) = Ok (mkMessage (counted m) q [] [] [] packet)).
  { unfold UnpackHeaderQuestion, set_Packet. cbn [Header Question Answer Authority Additional Packet].
    assert (Hpk : packet = hp ++ plain (labels (qName q)) ++ be16 (qType q) ++ be16 (qClass q) ++ ba ++ bb ++ bc)
      by (unfold packet, p0; by rewrite <- !(assoc_L (++))).
    assert (Hh : header_unpack (E := dns_error) (Header m0) packet = Ok (counted m))
      by (rewrite Hpk; by apply header_unpack_packed).
    rewrite Hh. cbn [mbind outcome_bind]. rewrite decide_False by (unfold packet; rewrite length_app, Hp0; lia).
    rewrite Hpk, <- Hhp, drop_app_length, take_app_length.
    rewrite (question_unpack_at (Question m0) (qName q) (qType q) (qClass q)) by done.
    rewrite Ha0, Hb0, Hc0. by destruct q. }
  cbn [Packet]. unfold Unpack. rewrite Hhq. cbn [mbind outcome_bind Header Question Packet Answer Authority Additional].
  unfold question_size.
  replace (sectionHeaderSize + (length (qName q) + 6))%nat with (length p0) by lia.
  change (ANCount (counted m)) with (len16 (Answer m)). change (NSCount (counted m)) with (len16 (Authority m)).
  change (ARCount (counted m)) with (len16 (Additional m)).
  pose proof (length_rrs_room (Answer m)). pose proof (length_rrs_room (Authority m)).
  pose proof (length_rrs_room (Additional m)). rewrite !len16_id by lia.
  rewrite Hra. cbn [mbind outcome_bind]. rewrite Hrb. cbn [mbind outcome_bind].
  rewrite Hrc. done.
Qed.

(** C6: a response made of the following is sent as it is: packing it succeeds, and
    unpacking the packet into a blank message succeeds and gives the packed header with
    the section counts, the question, and in each section records with the same names,
    types, classes, TTLs, TTL offsets and data. The records are of the types A with a
    dotted IPv4 address, NS, CNAME, MB, MG, MR, PTR, MX, MINFO, SRV whose owner starts
    with its service and protocol, and WKS with an address of four bytes: not SOA, TXT,
    AAAA, HINFO, NULL and OPT, for which see the last section and
    [packAAAA_then_panics]. All names are in lower case, with labels of 1 to 63 bytes,
    numbers have the widths of their fields, the opcode is even and below 32, the
    response code is below 16, and the message without compression has at most 16384
    bytes. *)
Theorem Pack_Unpack m m0 : message_ok m -> blank m0 ->
  exists m1 m2, Pack m = Ok m1 /\ Unpack (set_Packet m0 (Packet m1)) = Ok m2 /\
    Header m1 = counted m /\ Question m1 = Question m /\
    Header m2 = Header m1 /\ Question m2 = Question m1 /\ Packet m2 = Packet m1 /\
    Forall2 packed (Answer m) (Answer m1) /\ Forall2 same_rr (Answer m2) (Answer m1) /\
    Forall2 packed (Authority m) (Authority m1) /\ Forall2 same_rr (Authority m2) (Authority m1) /\
    Forall2 packed (Additional m) (Additional m1) /\ Forall2 same_rr (Additional m2) (Additional m1).
Proof. apply Pack_good. Qed.

Definition demo_A : ResourceRecord :=
  rr_Text (mkRR (str "www.kilabit.info") QueryTypeA QueryClassIN 3600 0 [] None None None None None None None None 0 0)
    (Some (str "10.0.0.7")).
Definition demo_MX : ResourceRecord :=
  mkRR (str "kilabit.info") QueryTypeMX QueryClassIN 60 0 [] None None None None None
    (Some (mkMX (-5) (str "mail.kilabit.info"))) None None 0 0.
Definition demo_NS : ResourceRecord :=
  mkRR (str "kilabit.info") QueryTypeNS QueryClassIN 86400 0 [] (Some (str "ns1.www.kilabit.info"))
    None None None None None None None 0 0.
Definition demo_response : Message :=
  mkMessage (mkHeader 7 false 0 true false true true 0 1 0 0 0) (mkQuestion (str "www.kilabit.info") QueryTypeA QueryClassIN)
    [demo_A; demo_MX] [demo_NS] [] [].

Lemma demo_response_ok : message_ok demo_response.
Proof.
  split; try (apply (bool_decide_unpack _); vm_compute; exact I).
  - split; first [discriminate | apply (bool_decide_unpack _); vm_compute; exact I].
  - repeat apply Forall_cons_2; [..|apply Forall_nil_2]; split_and!;
      try (apply (bool_decide_unpack _); vm_compute; exact I).
    + apply (ok_A demo_A 10 0 0 7); first [reflexivity | apply (bool_decide_unpack _); vm_compute; exact I].
    + apply (ok_MX demo_MX (mkMX (-5) (str "mail.kilabit.info"))); first [reflexivity | cbn; lia | apply (bool_decide_unpack _); vm_compute; exact I].
  - repeat apply Forall_cons_2; [|apply Forall_nil_2]; split_and!;
      try (apply (bool_decide_unpack _); vm_compute; exact I).
    apply (ok_name demo_NS (str "ns1.www.kilabit.info")); first [reflexivity | apply (bool_decide_unpack _); vm_compute; exact I].
  - apply Forall_nil_2.
Qed.

Lemma Pack_Unpack_witness :
  exists m1 m2, Pack demo_response = Ok m1 /\ Unpack (set_Packet (message_Reset NewMessage) (Packet m1)) = Ok m2 /\
    Forall2 same_rr (Answer m2) (Answer m1).
Proof.
  destruct (Pack_Unpack demo_response (message_Reset NewMessage) demo_response_ok) as
    (m1 & m2 & H1 & H2 & _ & _ & _ & _ & _ & _ & Ha & _); [by repeat split|].
  exists m1, m2. split; [exact H1|split; [exact H2|exact Ha]].
Defined.

(** A name packed at the end of a packet, compressed or not, is read back
    from it at the place where it was packed, whatever is appended later; the
    table of names that compression uses stays right, so that this holds for
    the next name too, and [off] stays at the end of the packet. *)
Theorem packDomainName_unpackName dc name p m d : name_text name -> valid m p ->
  Z.of_nat (length p) + Z.of_nat (length name) + 2 <= 16384 ->
  exists bs m' d',
    packDomainName name dc (at_end p m d) = Ok ((Z.of_nat (length bs), name), at_end (p ++ bs) m' d') /\
    valid m' (p ++ bs) /\
    forall q, exists off, unpackName (p ++ bs ++ q) 0 (length p) = Ok (name, p ++ bs ++ q, off) /\
      after_name off (length p) name = length (p ++ bs).
Proof.
  intros Hok Hv Hlen. destruct (packDomainName_good dc name p m d Hok Hlen) as (bs & m' & d' & Hp & _ & Hg).
  exists bs, m', d'. destruct (Hg p eq_refl Hv) as [Hv' [f Hn]]. split; [done|]. split; [done|].
  intros q. exists f. destruct (at_name_end _ _ _ _ _ Hn) as [E1 E2].
  apply (at_name_app _ q) in Hn. rewrite <- (assoc_L (++)) in Hn.
  rewrite (unpackName_at _ _ _ _ _ Hn), join_labels. split; [done|]. unfold after_name.
  case_decide as Hf; [by rewrite (E2 Hf)|]. rewrite (E1 ltac:(lia)), join_labels.
  destruct (labels name) eqn:El; [by destruct (labels_ne name)|]. lia.
Qed.

Lemma packDomainName_unpackName_witness :
  exists bs m' d',
    packDomainName (str "mail.kilabit.info") true (at_end (replicate 12 0) ∅ [])
      = Ok ((19, str "mail.kilabit.info"), at_end (replicate 12 0 ++ bs) m' d').
Proof.
  destruct (packDomainName_unpackName true (str "mail.kilabit.info") (replicate 12 0) ∅ [])
    as (bs & m' & d' & H & _); [apply (bool_decide_unpack _); vm_compute; exact I|apply valid_empty|cbn; lia|].
  exists bs, m', d'. rewrite H. replace (Z.of_nat (length bs)) with 19; [reflexivity|].
  assert (H19 : (r ← packDomainName (str "mail.kilabit.info") true (at_end (replicate 12 0) ∅ []); Ok r.1.1) = Ok 19)
    by (vm_compute; reflexivity).
  rewrite H in H19. cbn in H19. congruence.
Defined.

(** ** Where [off] is lost *)

(** A name whose first label does not reach [off] makes packing panic. *)
Lemma packDomainName_short dc l ls p off m d : label_ok l -> Forall label_ok ls ->
  (dc = true -> m !! join (l :: ls) = None) ->
  Z.of_nat (length p) + Z.of_nat (length l) < off ->
  packDomainName (join (l :: ls)) dc (mkP p off m d) = Panic.
Proof.
  intros Hl Hok Hnone Hoff. pose proof Hl as (Hne & H63 & Hb). unfold packDomainName.
  rewrite ToLower_join by (by constructor).
  unfold mbind at 1, P_bind at 1, set_dname at 1. cbn [pkt moff dnameOff dname].
  unfold mbind at 1, P_bind at 1. rewrite maybe_compress.
  replace (if dc then m !! join (l :: ls) else None) with (@None Z) by (destruct dc; [by rewrite Hnone|done]).
  unfold mbind at 1, P_bind at 1, emit at 1. cbn [pkt moff dnameOff dname].
  unfold mbind at 1, P_bind at 1, note_dname at 1. cbn [pkt moff dnameOff dname].
  assert (Hw : forall m d, write_count (Z.of_nat (length l)) (mkP ((p ++ [0]) ++ l) off m d) = Panic).
  { intros m' d'. unfold write_count, set_at. cbn [pkt moff].
    rewrite decide_False; [done|]. rewrite !length_app. cbn [length]. lia. }
  assert (Hpos : 0 < Z.of_nat (length l)) by (destruct l; [done|simpl; lia]).
  unfold mbind at 1, P_bind at 1. destruct ls as [|l2 ls].
  - cbn [join]. rewrite <- (app_nil_r l) at 1. rewrite pack_label by (done || lia). cbn [packName_loop].
    unfold mret at 1, P_ret at 1. rewrite Z.add_0_l, (proj2 (Z.ltb_lt 0 _)) by done.
    unfold mbind at 1, P_bind at 1. unfold mbind at 1, P_bind at 1. by rewrite Hw.
  - rewrite (join_cons l (l2 :: ls)) by done. rewrite pack_label by (done || lia). cbn [packName_loop].
    rewrite Z.add_0_l. cbn [Z.eqb Pos.eqb]. rewrite (proj2 (Z.eqb_neq (Z.of_nat (length l)) 0)) by lia.
    unfold mbind at 1, P_bind at 1. by rewrite Hw.
Qed.

(** After an AAAA record [off] is sixteen bytes past the packet.  When its
    owner is a known name, such as the one of the question, a next record whose
    name is not known and whose first label is shorter than that makes packing
    the message panic. *)
Theorem packAAAA_then_panics rr ip rr2 l ls rest p m d o :
  rrType rr = QueryTypeAAAA -> ToLower (rrName rr) = rrName rr -> m !! rrName rr = Some o ->
  (exists text, Text rr = Some text /\ ParseIP text = Some ip) -> length ip = rdataIPv6Size ->
  (rrType rr2 =? QueryTypeOPT) = false -> rrName rr2 = join (l :: ls) -> label_ok l -> Forall label_ok ls ->
  m !! rrName rr2 = None -> (length l < 16)%nat -> Z.of_nat (length p) + 44 < 65536 ->
  packRRs (rr :: rr2 :: rest) (at_end p m d) = Panic.
Proof.
  intros Ht Hlow Hm (text & Htext & Hip) Hlip Ht2 Hn2 Hl Hls Hm2 Hl16 Hlen.
  assert (H1 : exists p' d', packRR rr (at_end p m d)
    = Ok (rr_offTTL rr (length p + 6), mkP p' (Z.of_nat (length p') + 16) m d')).
  { unfold packRR. rewrite Ht. cbn [Z.eqb Pos.eqb QueryTypeAAAA QueryTypeOPT].
    set (nb := [Z.lor maskPointer (u8 (Z.shiftr o 8)); u8 o]).
    assert (Hpk : packDomainName (rrName rr) true (at_end p m d) = Ok ((2, rrName rr), at_end (p ++ nb) m (rrName rr))).
    { unfold packDomainName. rewrite Hlow.
      unfold mbind at 1, P_bind at 1, set_dname at 1, at_end at 1. cbn [pkt moff dnameOff dname].
      unfold mbind at 1, P_bind at 1. rewrite (compress_some _ _ _ _ _ Hm).
      unfold mret, P_ret, at_end. cbn [moff]. rewrite u16_id by (unfold is_u16; lia).
      apply f_equal, f_equal. f_equal. rewrite length_app. unfold nb. cbn [length]. lia. }
    rewrite (bind_at _ _ _ rr (at_end (p ++ nb) m (rrName rr))).
    2: { rewrite (bind_at _ _ _ _ _ Hpk). cbn [snd]. unfold mret, P_ret. by destruct rr. }
    rewrite Ht. rewrite emit16_2_end by (rewrite length_app; cbn [length nb]; lia).
    change (QueryTypeAAAA =? QueryTypeOPT) with false. cbv iota. rewrite mret_bind.
    assert (Hl6 : length ((p ++ nb) ++ be16 QueryTypeAAAA ++ be16 (rrClass rr)) = (length p + 6)%nat)
      by (rewrite !length_app, !length_be16; cbn [length nb]; lia).
    rewrite off_emit32_end by (rewrite Hl6; lia). rewrite Hl6.
    set (p1 := ((p ++ nb) ++ _) ++ be32 (TTL rr)).
    assert (Hp1 : length p1 = (length p + 10)%nat) by (unfold p1; rewrite length_app, Hl6, length_be32; lia).
    rewrite (proj1 (cases_AAAA (rr_offTTL rr (length p + 6)) Ht)).
    unfold packAAAA. rewrite emit16_end by lia. change (Text (rr_offTTL rr _)) with (Text rr). rewrite Htext.
    cbn [deref_opt]. rewrite mret_bind, Hip. change (Z.of_nat rdataIPv6Size) with 16.
    assert (Hp2 : length (p1 ++ be16 16) = (length p + 12)%nat) by (rewrite length_app, length_be16; lia).
    rewrite emit_end by (rewrite ?Hlip, ?Hp2; (done || lia)).
    unfold mbind, P_bind, advance, at_end, mret, P_ret. cbn [pkt moff dnameOff dname].
    eexists _, _. do 3 f_equal. rewrite u16_id; [done|]. unfold is_u16. rewrite length_app, Hp2, Hlip.
    change rdataIPv6Size with 16%nat. lia. }
  destruct H1 as (p' & d' & H1). cbn [packRRs]. rewrite (bind_at _ _ _ _ _ H1).
  assert (H2 : packRR rr2 (mkP p' (Z.of_nat (length p') + 16) m d') = Panic).
  { unfold packRR. rewrite Ht2, Hn2. unfold mbind at 1, P_bind at 1. unfold mbind at 1, P_bind at 1.
    rewrite packDomainName_short; [done|done|done|intros _; by rewrite <- Hn2|lia]. }
  unfold mbind at 1, P_bind at 1. unfold mbind at 1, P_bind at 1. by rewrite H2.
Qed.

Definition demo_AAAA : ResourceRecord :=
  mkRR (str "www.kilabit.info") QueryTypeAAAA QueryClassIN 60 0 [] (Some (str "2001:db8::1")) None None None None None None None 0 0.

Lemma packAAAA_then_panics_witness :
  packRRs [demo_AAAA; demo_A] (at_end (replicate 34 0) {[ str "www.kilabit.info" := 12 ]} []) ≠ Panic /\
  packRRs [demo_AAAA; demo_NS] (at_end (replicate 34 0) {[ str "www.kilabit.info" := 12 ]} []) = Panic.
Proof.
  split; [by vm_compute|].
  apply (packAAAA_then_panics demo_AAAA (default [] (ParseIP (str "2001:db8::1"))) demo_NS (str "kilabit") [str "info"] []
    (replicate 34 0) _ [] 12);
    first [reflexivity | apply (bool_decide_unpack _); vm_compute; exact I | idtac].
  by exists (str "2001:db8::1").
Defined.
