(* ===== verification/DnsZone.v ===== *)
(** Package [lib/dns], file [masterfile.go]: the loader of zone files, with
    [lib/time/duration.go].

    The path of the file and the number of the line, which go into the text of
    errors only, are left out, and an error is its kind.  Tokens are parts of the
    buffer of the reader that are changed in place, behind the reader; they are
    values here. *)

From Stdlib Require Import ZArith Lia.
From S2P Require Import Prelude Ascii Utf8 Strconv IoReader DnsHeader DnsMessage.

Local Open Scope Z_scope.

(** ** [lib/time.ParseDuration]

    The operations on floating-point numbers, and [time.ParseDuration] on a
    number with a unit, are the fields of a class: [scale v n] is
    [v * float64(n)], [duration] truncates, and [seconds] is
    [uint32(time.Duration(d).Seconds())]. *)
Class Float64 : Type := {
  float : Type;
  float_zero : float;
  ParseFloat : list Z -> option float;
  std_ParseDuration : list Z -> option Z;
  scale : float -> Z -> float;
  plus : float -> float -> float;
  of_duration : Z -> float;
  duration : float -> Z;
  seconds : Z -> Z
}.

Section Zone.
Context {F : Float64} {U : Unicode}.

Definition Day : Z := 24 * 3600 * 1000000000.
Definition Week : Z := 7 * Day.

Fixpoint ParseDuration_loop (fuel : nat) (dur : float) (r : Reader) : outcome unit Z :=
  match fuel with
  | O => NoFuel
  | S fuel =>
      '(tok, _, c, r) ← ReadUntil r (str "wdhmsun") Spaces;
      if c =? 0 then Ok (duration dur)
      else
        match ParseFloat tok with
        | None => Err tt
        | Some v =>
            if c =? 119 then ParseDuration_loop fuel (plus dur (scale v Week)) r
            else if c =? 100 then ParseDuration_loop fuel (plus dur (scale v Day)) r
            else
              match std_ParseDuration (tok ++ [c]) with
              | None => Err tt
              | Some rest => ParseDuration_loop fuel (plus dur (of_duration rest)) r
              end
        end
  end.
Definition ParseDuration (s : list Z) : outcome unit Z :=
  let '(c, r) := SkipSpaces (Init s) in
  if negb (IsDigit c) then Err tt else ParseDuration_loop (S (length s)) float_zero r.

(** ** The state of the parser *)

Definition defMinimumTTL : Z := 3600.
Definition parseRRStart : Z := 0.
Definition parseRRTTL : Z := 1.
Definition parseRRClass : Z := 2.
Definition parseRRType : Z := 4.
Definition parseSOAStart : Z := 0.
Definition parseSOASerial : Z := 1.
Definition parseSOARefresh : Z := 2.
Definition parseSOARetry : Z := 4.
Definition parseSOAExpire : Z := 8.
Definition parseSOAMinimum : Z := 16.
Definition parseSOAEnd : Z := 31.

Inductive zone_error : Type :=
| ErrInvalidLine | ErrEmptyDirective | ErrInvalidCharacter | ErrTTL | ErrInvalidRR | ErrUnknown | ErrNULL
| ErrRData | ErrNumber | ErrIncomplete | ErrParentheses | ErrMissingValue | ErrQuote | ErrFile.

Record master : Type := mkMaster {
  reader : Reader;
  msgs : list Message;
  lastRR : option ResourceRecord;
  origin : list Z;
  m_ttl : Z;
  flag : Z
}.

Definition seps : list Z := [32; 9].
Definition terms : list Z := [59; 10].

Definition M (A : Type) : Type := master -> outcome zone_error (A * master).
#[export] Instance M_ret : MRet M := fun A a m => Ok (a, m).
#[export] Instance M_bind : MBind M := fun A B f x m =>
  match x m with Ok (a, m) => f a m | Err e => Err e | Panic => Panic | NoFuel => NoFuel end.

Definition fail {A} (e : zone_error) : M A := fun _ => Err e.
Definition panic {A} : M A := fun _ => Panic.
Definition no_fuel {A} : M A := fun _ => NoFuel.
Definition get_m : M master := fun m => Ok (m, m).
Definition put_reader (r : Reader) : M unit := fun m => Ok (tt, mkMaster r (msgs m) (lastRR m) (origin m) (m_ttl m) (flag m)).
Definition put_msgs (l : list Message) : M unit := fun m => Ok (tt, mkMaster (reader m) l (lastRR m) (origin m) (m_ttl m) (flag m)).
Definition put_lastRR (r : ResourceRecord) : M unit := fun m => Ok (tt, mkMaster (reader m) (msgs m) (Some r) (origin m) (m_ttl m) (flag m)).
Definition put_origin (o : list Z) : M unit := fun m => Ok (tt, mkMaster (reader m) (msgs m) (lastRR m) o (m_ttl m) (flag m)).
Definition put_ttl (t : Z) : M unit := fun m => Ok (tt, mkMaster (reader m) (msgs m) (lastRR m) (origin m) t (flag m)).
Definition put_flag (f : Z) : M unit := fun m => Ok (tt, mkMaster (reader m) (msgs m) (lastRR m) (origin m) (m_ttl m) f).
Definition or_flag (f : Z) : M unit := m ← get_m; put_flag (Z.lor (flag m) f).

(** The operations of the reader. *)
Definition of_reader {A} (f : Reader -> outcome zone_error (A * Reader)) : M A := fun m =>
  match f (reader m) with
  | Ok (a, r) => Ok (a, mkMaster r (msgs m) (lastRR m) (origin m) (m_ttl m) (flag m))
  | Err e => Err e | Panic => Panic | NoFuel => NoFuel
  end.
Definition skip_hspace : M (nat * Z) := of_reader SkipHorizontalSpace.
Definition read_until (seps terms : list Z) : M (list Z * bool * Z) := of_reader (fun r => ReadUntil r seps terms).
Definition skip_spaces : M Z := of_reader (fun r => Ok (SkipSpaces r)).
Definition skip_line : M unit := of_reader (fun r => Ok (tt, SkipLine r)).

Definition lift {A} (o : outcome zone_error A) : M A := fun m =>
  match o with Ok a => Ok (a, m) | Err e => Err e | Panic => Panic | NoFuel => NoFuel end.
Definition or_fail {A} (e : zone_error) (o : option A) : M A := match o with Some a => mret a | None => fail e end.
Definition fail_if (b : bool) (e : zone_error) : M unit := if b then fail e else mret tt.

(** [Init]. *)
Definition zone_Init (data origin : list Z) (ttl : Z) : master :=
  mkMaster (Init data) [] None (text_ToLower origin) ttl 0.

(** ** Directives *)

(** What follows a directive that is not ended by its token: nothing, or a
    comment. *)
Definition end_directive : M unit :=
  c ← skip_spaces;
  if c =? 0 then mret tt else if c =? 59 then skip_line else fail ErrInvalidCharacter.

(** A token that must be there on the line. *)
Definition field_token (e : zone_error) : M (list Z * bool * Z) :=
  '(_, c) ← skip_hspace;
  fail_if ((c =? 0) || (c =? 59)) e;;
  '(tok, isTerm, c) ← read_until seps terms;
  fail_if (isnil tok) e;;
  mret (tok, isTerm, c).

Definition directive_token : M (list Z * bool * Z) :=
  '(tok, isTerm, c) ← field_token ErrEmptyDirective; mret (ToLower tok, isTerm, c).

Definition parseDirectiveOrigin : M unit :=
  '(tok, isTerm, c) ← directive_token;
  put_origin tok;;
  if (isTerm : bool) then (if c =? 59 then skip_line else mret tt) else end_directive.

Definition parseTTL (tok : list Z) : M Z :=
  if IsDigits tok then or_fail ErrTTL (ParseUint32 tok)
  else match ParseDuration tok with Ok d => mret (seconds d) | Err _ => fail ErrTTL | Panic => panic | NoFuel => no_fuel end.

Definition parseDirectiveTTL : M unit :=
  '(tok, isTerm, _) ← directive_token;
  ttl ← parseTTL tok;
  put_ttl ttl;;
  if (isTerm : bool) then skip_line else end_directive.

(** ** Records *)

(** [bytes.TrimRight(out, ".")]. *)
Fixpoint trim_dots (s : list Z) : list Z :=
  match s with
  | [] => []
  | c :: s => match trim_dots s with [] => if c =? 46 then [] else [c] | t => c :: t end
  end.
Definition generateDomainName (dname : list Z) : M (list Z) :=
  m ← get_m;
  match dname, last (ToLower dname) with
  | c :: _, Some l =>
      if c =? 64 then mret (trim_dots (origin m))
      else if l =? 46 then mret (trim_dots (ToLower dname))
      else mret (trim_dots (ToLower dname ++ [46] ++ origin m))
  | _, _ => panic
  end.

Definition QueryClasses : list (list Z * Z) := [(str "IN", 1); (str "CH", 3); (str "HS", 4)].
Definition QueryTypes : list (list Z * Z) :=
  [(str "A", QueryTypeA); (str "NS", QueryTypeNS); (str "CNAME", QueryTypeCNAME); (str "SOA", QueryTypeSOA);
   (str "MB", QueryTypeMB); (str "MG", QueryTypeMG); (str "MR", QueryTypeMR); (str "NULL", QueryTypeNULL);
   (str "WKS", QueryTypeWKS); (str "PTR", QueryTypePTR); (str "HINFO", QueryTypeHINFO); (str "MINFO", QueryTypeMINFO);
   (str "MX", QueryTypeMX); (str "TXT", QueryTypeTXT); (str "AAAA", QueryTypeAAAA); (str "SRV", QueryTypeSRV);
   (str "OPT", QueryTypeOPT)].
Fixpoint assoc_of (k : list Z) (l : list (list Z * Z)) : option Z :=
  match l with [] => None | (k', v) :: l => if bool_decide (k = k') then Some v else assoc_of k l end.

Definition rr_Type (r : ResourceRecord) v := mkRR (rrName r) v (rrClass r) (TTL r) (rdlen r) (rdata r) (Text r) (SOA r) (WKS r) (HInfo r) (MInfo r) (MX r) (OPT r) (SRV r) (rrOff r) (offTTL r).
Definition rr_Class (r : ResourceRecord) v := mkRR (rrName r) (rrType r) v (TTL r) (rdlen r) (rdata r) (Text r) (SOA r) (WKS r) (HInfo r) (MInfo r) (MX r) (OPT r) (SRV r) (rrOff r) (offTTL r).
(** [&ResourceRecord{}]. *)
Definition zeroRR : ResourceRecord := mkRR [] 0 0 0 0 [] None None None None None None None None 0 0.

(** [parseRRClass], [parseRRType] and [parseRRClassOrType]: the record when the
    token is known. *)
Definition as_class (rr : ResourceRecord) (stok : list Z) : option ResourceRecord := rr_Class rr <$> assoc_of stok QueryClasses.
Definition as_type (rr : ResourceRecord) (stok : list Z) : option ResourceRecord := rr_Type rr <$> assoc_of stok QueryTypes.
Definition parseRRClassOrType (rr : ResourceRecord) (stok : list Z) : M ResourceRecord :=
  match as_class rr stok with
  | Some rr => or_flag parseRRClass;; mret rr
  | None =>
      match as_type rr stok with
      | Some rr => or_flag parseRRType;; mret rr
      | None => fail ErrUnknown
      end
  end.

(** The number of the field that [flag] says comes next in a SOA, and the loop
    over them; true when the last one is read.  The state that it returns is
    [isTerm] and [c] of the last token. *)
Definition set_soa (soa : RDataSOA) (flag v : Z) : option (RDataSOA * Z) :=
  let '(mkSOA mn rn s r t e mi) := soa in
  if flag =? 0 then Some (mkSOA mn rn (u32 v) r t e mi, parseSOASerial)
  else if flag =? 1 then Some (mkSOA mn rn s (s32 v) t e mi, parseSOARefresh)
  else if flag =? 3 then Some (mkSOA mn rn s r (s32 v) e mi, parseSOARetry)
  else if flag =? 7 then Some (mkSOA mn rn s r t (s32 v) mi, parseSOAExpire)
  else if flag =? 15 then Some (mkSOA mn rn s r t e (u32 v), parseSOAMinimum)
  else None.

Fixpoint soa_loop (fuel : nat) (isMultiline : bool) (soaterms : list Z) (soa : RDataSOA) (isTerm : bool) : M (RDataSOA * bool * Z) :=
  match fuel with
  | O => no_fuel
  | S fuel =>
      c ← (if isMultiline then
             c ← skip_spaces;
             (if c =? 59 then skip_line;; _ ← skip_spaces; mret c else mret c)
           else '(_, c) ← skip_hspace; mret c);
      if c =? 0 then
        m ← get_m; if negb (flag m =? parseSOAEnd) then fail ErrIncomplete else mret (soa, isTerm, c)
      else
        '(tok, isTerm, c) ← read_until seps soaterms;
        fail_if (isnil tok) ErrInvalidRR;;
        (if c =? 59 then skip_line;; _ ← skip_spaces; mret tt else mret tt);;
        v ← or_fail ErrNumber (ParseInt64 tok);
        m ← get_m;
        match set_soa soa (flag m) v with
        | None => fail ErrInvalidRR
        | Some (soa, f) => or_flag f;; (if f =? parseSOAMinimum then mret (soa, isTerm, c) else soa_loop fuel isMultiline soaterms soa isTerm)
        end
  end.

(** The loops at [out:] on [c]. *)
Fixpoint skip_comments (fuel : nat) (c : Z) : M Z :=
  match fuel with
  | O => no_fuel
  | S fuel => if c =? 59 then skip_line;; c ← skip_spaces; skip_comments fuel c else mret c
  end.
Fixpoint skip_newlines (fuel : nat) (c : Z) : M Z :=
  match fuel with
  | O => no_fuel
  | S fuel => if c =? 10 then c ← skip_spaces; skip_newlines fuel c else mret c
  end.

(** Every round of these loops reads a byte, or finds the end. *)
Definition rounds (m : master) : nat := S (S (length (V (reader m)))).

Definition parseSOA (rr : ResourceRecord) (tok : list Z) : M ResourceRecord :=
  mname ← generateDomainName (ToLower tok);
  '(_, c) ← skip_hspace;
  fail_if ((c =? 0) || (c =? 59)) ErrRData;;
  '(tok, isTerm, _) ← read_until seps terms;
  fail_if (isnil tok || isTerm) ErrInvalidRR;;
  rname ← generateDomainName (ToLower tok);
  '(tok, isTerm, _) ← read_until seps terms;
  fail_if (isnil tok) ErrInvalidRR;;
  let soa := mkSOA mname rname 0 0 0 0 0 in
  let isMultiline := bool_decide (tok = [40]) in
  soa ← (if isMultiline then put_flag parseSOAStart;; mret soa
         else
           v ← or_fail ErrNumber (ParseInt64 tok);
           or_flag parseSOASerial;;
           mret (mkSOA mname rname (u32 v) 0 0 0 0));
  m ← get_m;
  '(soa, isTerm, c) ← soa_loop (rounds m) isMultiline (if isMultiline then [10; 59; 41] else [10; 59]) soa isTerm;
  (if isMultiline then
     c ← (if (isTerm : bool) then c ← skip_comments (rounds m) c; skip_newlines (rounds m) c else skip_spaces);
     fail_if (negb (c =? 41)) ErrParentheses;;
     '(_, _, c) ← read_until seps terms;
     (if c =? 59 then skip_line else mret tt)
   else mret tt);;
  m ← get_m;
  (if m_ttl m =? 0 then put_ttl (Minimum soa) else mret tt);;
  mret (rr_SOA rr (Some soa)).

(** The second token of HINFO, MINFO and MX. *)
Definition second_token : M (list Z * bool) := '(tok, isTerm, _) ← field_token ErrMissingValue; mret (tok, isTerm).
Definition skip_rest (isTerm : bool) : M unit := if negb isTerm then skip_line else mret tt.

Definition parseHInfo (rr : ResourceRecord) (tok : list Z) : M ResourceRecord :=
  '(os, isTerm) ← second_token; skip_rest isTerm;; mret (rr_HInfo rr (Some (mkHINFO tok os))).
Definition parseMInfo (rr : ResourceRecord) (tok : list Z) : M ResourceRecord :=
  '(email, isTerm) ← second_token; skip_rest isTerm;; mret (rr_MInfo rr (Some (mkMINFO tok email))).
Definition parseMX (rr : ResourceRecord) (tok : list Z) : M ResourceRecord :=
  pref ← or_fail ErrNumber (ParseInt64 tok);
  '(tok, isTerm) ← second_token;
  exchange ← generateDomainName tok;
  skip_rest isTerm;;
  mret (rr_MX rr (Some (mkMX (s16 pref) exchange))).

Definition parseTXT (rr : ResourceRecord) (v : list Z) : M ResourceRecord :=
  '(tok, _, _) ← read_until [] [10];
  let v := TrimSpace (v ++ tok) in
  match v, last v with
  | c :: v', Some d =>
      fail_if (negb (c =? 34)) ErrQuote;;
      fail_if (negb (d =? 34)) ErrQuote;;
      match v' with
      | [] => panic
      | _ => mret (rr_Text rr (Some (removelast v')))
      end
  | _, _ => panic
  end.

(** The fields of SRV in their order; the service is read already. *)
Definition srv_token : M (list Z) := '(tok, _, _) ← field_token ErrIncomplete; mret tok.
Definition srv_number : M Z := tok ← srv_token; v ← or_fail ErrNumber (ParseInt64 tok); mret (u16 v).
Definition parseSRV (rr : ResourceRecord) (tok : list Z) : M ResourceRecord :=
  proto ← srv_token; name ← srv_token;
  priority ← srv_number; weight ← srv_number; port ← srv_number;
  target ← srv_token;
  '(_, c) ← skip_hspace;
  (if c =? 59 then skip_line else mret tt);;
  mret (rr_SRV rr (Some (mkSRV tok proto name priority weight port target))).

Definition parseRRData (rr : ResourceRecord) (tok : list Z) : M ResourceRecord :=
  let t := rrType rr in
  if (t =? QueryTypeA) || (t =? QueryTypeAAAA) then mret (rr_Text rr (Some tok))
  else if (t =? QueryTypeNS) || (t =? QueryTypeCNAME) || (t =? QueryTypeMB) || (t =? QueryTypeMG) || (t =? QueryTypeMR) || (t =? QueryTypePTR)
  then dname ← generateDomainName tok; mret (rr_Text rr (Some dname))
  else if t =? QueryTypeSOA then parseSOA rr tok
  else if t =? QueryTypeNULL then fail ErrNULL
  else if t =? QueryTypeWKS then mret rr
  else if t =? QueryTypeHINFO then parseHInfo rr tok
  else if t =? QueryTypeMINFO then parseMInfo rr tok
  else if t =? QueryTypeMX then parseMX rr tok
  else if t =? QueryTypeTXT then parseTXT rr tok
  else if t =? QueryTypeSRV then parseSRV rr tok
  else mret rr.

Definition is_digit_token (tok : list Z) : bool := match tok with c :: _ => IsDigit c | [] => false end.

(** The loop of [parseRR] over the tokens before the data. *)
Fixpoint rr_loop (fuel : nat) (rr : ResourceRecord) : M ResourceRecord :=
  match fuel with
  | O => no_fuel
  | S fuel =>
      '(tok, isTerm, c) ← field_token ErrInvalidRR;
      let orgtok := tok in
      let tok := ToUpper tok in
      m ← get_m;
      let f := flag m in
      if f =? parseRRStart then
        if is_digit_token tok then ttl ← parseTTL tok; or_flag parseRRTTL;; rr_loop fuel (rr_TTL rr ttl)
        else rr ← parseRRClassOrType rr tok; rr_loop fuel rr
      else if f =? parseRRTTL then rr ← parseRRClassOrType rr tok; rr_loop fuel rr
      else if f =? parseRRClass then
        if is_digit_token tok then ttl ← parseTTL tok; or_flag parseRRTTL;; rr_loop fuel (rr_TTL rr ttl)
        else
          match as_type rr tok with
          | Some rr => or_flag parseRRType;; rr_loop fuel rr
          | None => fail ErrUnknown
          end
      else if f =? Z.lor parseRRTTL parseRRClass then
        match as_type rr tok with
        | Some rr => or_flag parseRRType;; rr_loop fuel rr
        | None => fail ErrUnknown
        end
      else
        let orgtok := if (rrType rr =? QueryTypeTXT) && negb isTerm then orgtok ++ [c] else orgtok in
        parseRRData rr orgtok
  end.

Definition parseRR (prevRR : option ResourceRecord) (tok : list Z) : M ResourceRecord :=
  put_flag 0;;
  m ← get_m;
  rr ← (match prevRR with
        | None =>
            name ← generateDomainName tok;
            mret (rr_Class (rr_TTL (rr_Name zeroRR name) (m_ttl m)) (match lastRR m with Some l => rrClass l | None => 1 end))
        | Some prev =>
            let rr := rr_Class (rr_TTL (rr_Name zeroRR (rrName prev)) (TTL prev)) (rrClass prev) in
            if is_digit_token tok then ttl ← parseTTL tok; or_flag parseRRTTL;; mret (rr_TTL rr ttl)
            else parseRRClassOrType rr tok
        end);
  rr_loop (rounds m) rr.

(** ** Messages *)

Definition same_question (msg : Message) (rr : ResourceRecord) : bool :=
  bool_decide (qName (Question msg) = rrName rr) && (qType (Question msg) =? rrType rr) && (qClass (Question msg) =? rrClass rr).
Fixpoint push_msgs (l : list Message) (rr : ResourceRecord) : list Message :=
  match l with
  | [] => [mkMessage (mkHeader 0 false 0 true false false false 0 1 0 0 0) (mkQuestion (rrName rr) (rrType rr) (rrClass rr)) [rr] [] [] []]
  | msg :: l =>
      if same_question msg rr then set_sections msg (Answer msg ++ [rr]) (Authority msg) (Additional msg) :: l
      else msg :: push_msgs l rr
  end.
Definition push (rr : ResourceRecord) : M unit := m ← get_m; put_lastRR rr;; put_msgs (push_msgs (msgs m) rr).

Definition raise_TTL (ttl : Z) (rr : ResourceRecord) : ResourceRecord := if TTL rr <? ttl then rr_TTL rr ttl else rr.
Definition setMinimumTTL (ttl : Z) (l : list Message) : list Message :=
  (fun msg => set_sections msg (raise_TTL ttl <$> Answer msg) (raise_TTL ttl <$> Authority msg) (raise_TTL ttl <$> Additional msg)) <$> l.

(** [pack]: the message that cannot be packed keeps no count of answers; a panic
    of [Pack] is one of the loader. *)
Definition with_ANCount (h : SectionHeader) (n : Z) : SectionHeader :=
  mkHeader (hID h) (IsQuery h) (Op h) (IsAA h) (IsTC h) (IsRD h) (IsRA h) (RCode h) (QDCount h) n (NSCount h) (ARCount h).
Fixpoint zone_pack (l : list Message) : outcome zone_error (list Message) :=
  match l with
  | [] => Ok []
  | msg :: l =>
      match Pack msg with
      | Ok msg => l ← zone_pack l; Ok (msg :: l)
      | Err _ =>
          l ← zone_pack l;
          Ok (mkMessage (with_ANCount (counted msg) 0) (Question msg) (Answer msg) (Authority msg) (Additional msg) (Packet msg) :: l)
      | Panic => Panic
      | NoFuel => NoFuel
      end
  end.

(** ** The file *)

(** What [MasterLoad] does with the file of an [$INCLUDE]. *)
Context (load : list Z -> list Z -> Z -> outcome zone_error (list Message)).

Definition parseDirectiveInclude : M unit :=
  '(incfile, isTerm, c) ← directive_token;
  c ← (if (isTerm : bool) then mret c else skip_spaces);
  dname ← (if c =? 59 then skip_line;; mret []
           else if negb (c =? 0) then
             '(tok, isTerm, c) ← read_until seps terms;
             c ← (if (isTerm : bool) then mret c else skip_spaces);
             fail_if (negb (c =? 59)) ErrInvalidCharacter;;
             skip_line;;
             m ← get_m;
             mret (if isnil tok then origin m else tok)
           else mret []);
  m ← get_m;
  l ← lift (load incfile dname (m_ttl m));
  m ← get_m;
  put_msgs (msgs m ++ l).

(** The loop of [parse]; [rr] keeps its value from round to round. *)
Fixpoint zone_loop (fuel : nat) (rr : option ResourceRecord) : M unit :=
  match fuel with
  | O => no_fuel
  | S fuel =>
      '(n, c) ← skip_hspace;
      if c =? 0 then mret tt
      else if (c =? 10) || (c =? 59) then skip_line;; zone_loop fuel rr
      else
        '(tok, isTerm, _) ← read_until seps terms;
        fail_if isTerm ErrInvalidLine;;
        let tok := ToUpper tok in
        m ← get_m;
        rr ← (if bool_decide (tok = str "$ORIGIN") then parseDirectiveOrigin;; mret rr
              else if bool_decide (tok = str "$INCLUDE") then parseDirectiveInclude;; mret rr
              else if bool_decide (tok = str "$TTL") then parseDirectiveTTL;; mret rr
              else if bool_decide (tok = str "@") then (r ← parseRR None tok; mret (Some r))
              else if bool_decide (n = 0%nat) then (r ← parseRR None tok; mret (Some r))
              else (r ← parseRR (lastRR m) tok; mret (Some r)));
        (match rr with Some rr => push rr | None => mret tt end);;
        zone_loop fuel rr
  end.

Definition zone_parse : M unit :=
  m ← get_m;
  zone_loop (rounds m) None;;
  m ← get_m;
  let ttl := if m_ttl m =? 0 then defMinimumTTL else m_ttl m in
  put_ttl ttl;;
  l ← lift (zone_pack (setMinimumTTL ttl (msgs m)));
  put_msgs l.

End Zone.

(** [path.Base]. *)
Fixpoint trim_slashes (s : list Z) : list Z :=
  match s with
  | [] => []
  | c :: s => match trim_slashes s with [] => if c =? 47 then [] else [c] | t => c :: t end
  end.
Definition Base (path : list Z) : list Z :=
  match path with
  | [] => [46]
  | _ => match trim_slashes path with [] => [47] | p => List.last (Split 47 p) [] end
  end.

(** [MasterLoad], on the files of the system: [fuel] bounds the depth of
    inclusion, which the code does not. *)
Fixpoint MasterLoad {F : Float64} {U : Unicode} (files : list Z -> option (list Z)) (fuel : nat)
    (file origin : list Z) (ttl : Z) : outcome zone_error (list Message) :=
  match fuel with
  | O => NoFuel
  | S fuel =>
      match files file with
      | None => Err ErrFile
      | Some data =>
          let origin := if isnil origin then Base file else origin in
          match zone_parse (MasterLoad files fuel) (zone_Init data origin ttl) with
          | Ok (_, m) => Ok (msgs m)
          | Err e => Err e
          | Panic => Panic
          | NoFuel => NoFuel
          end
      end
  end.
