(* ===== verification/DnsZoneFacts.v ===== *)
(** Package [lib/dns]: a zone file with a record on each line is loaded as the
    records that it has, grouped by name, type and class; and the files that
    are not. *)

From Stdlib Require Import ZArith Lia.
From S2P Require Import Prelude Ascii Utf8 Strconv IoReader DnsHeader DnsMessage DnsUnpack DnsRoundtrip DnsZone.

Local Open Scope Z_scope.

(** ** Entries *)

(** A token: no blank, no semicolon, no end of line in it. *)
Definition word (w : list Z) : Prop :=
  Forall (fun b => (b ∉ [59; 10; 32; 9])) w /\ match w with c :: _ => c ≠ 13 /\ c ≠ 0 | [] => False end.
(** A domain name in lower case, without its last dot. *)
Definition domain (d : list Z) : Prop :=
  word d /\ ToLower d = d /\ head d ≠ Some 64 /\ last d ≠ Some 46.

Inductive zdata : Type :=
| ZText (t : Z) (text : list Z)
| ZName (t : Z) (dname : list Z)
| ZSOA (soa : RDataSOA)
| ZHINFO (h : RDataHINFO)
| ZMINFO (i : RDataMINFO)
| ZMX (x : RDataMX)
| ZSRV (s : RDataSRV)
| ZTXT (a b : list Z).

Record entry : Type := Entry { e_name : list Z; e_ttl : Z; e_data : zdata }.

Definition type_of (d : zdata) : Z :=
  match d with
  | ZText t _ | ZName t _ => t
  | ZSOA _ => QueryTypeSOA | ZHINFO _ => QueryTypeHINFO | ZMINFO _ => QueryTypeMINFO
  | ZMX _ => QueryTypeMX | ZSRV _ => QueryTypeSRV | ZTXT _ _ => QueryTypeTXT
  end.
Definition type_name (t : Z) : list Z :=
  match List.find (fun kv => kv.2 =? t) QueryTypes with Some (k, _) => k | None => [] end.

Definition is_s32 (v : Z) : Prop := - 2 ^ 31 <= v < 2 ^ 31.
Definition is_s16 (v : Z) : Prop := - 2 ^ 15 <= v < 2 ^ 15.

Definition data_ok (d : zdata) : Prop :=
  match d with
  | ZText t w => (t ∈ [QueryTypeA; QueryTypeAAAA]) /\ word w
  | ZName t w => (t ∈ [QueryTypeNS; QueryTypeCNAME; QueryTypeMB; QueryTypeMG; QueryTypeMR; QueryTypePTR]) /\ domain w
  | ZSOA s => domain (MName s) /\ domain (RName s) /\ is_u32 (Serial s) /\ is_s32 (Refresh s) /\ is_s32 (SOARetry s)
      /\ is_s32 (Expire s) /\ is_u32 (Minimum s)
  | ZHINFO h => word (CPU h) /\ word (OS h)
  | ZMINFO i => word (RMailBox i) /\ word (EmailBox i)
  | ZMX x => is_s16 (Preference x) /\ domain (Exchange x)
  | ZSRV s => word (Service s) /\ word (Proto s) /\ word (SrvName s) /\ is_u16 (Priority s) /\ is_u16 (Weight s)
      /\ is_u16 (Port s) /\ word (Target s)
  | ZTXT a b => Forall (fun c => (c ∉ [59; 10; 32; 9])) a /\ 10 ∉ b
  end.
Definition entry_ok (e : entry) : Prop := domain (e_name e) /\ is_u32 (e_ttl e) /\ data_ok (e_data e).

(** What the line has after the type: the tokens, separated by blanks. *)
Definition dot (d : list Z) : list Z := d ++ [46].
Definition tokens (d : zdata) : list (list Z) :=
  match d with
  | ZText _ w => [w]
  | ZName _ w => [dot w]
  | ZSOA s => [dot (MName s); dot (RName s); [40]; dec (Serial s); dec (Refresh s); dec (SOARetry s); dec (Expire s); dec (Minimum s); [41]]
  | ZHINFO h => [CPU h; OS h]
  | ZMINFO i => [RMailBox i; EmailBox i]
  | ZMX x => [dec (Preference x); dot (Exchange x)]
  | ZSRV s => [Service s; Proto s; SrvName s; dec (Priority s); dec (Weight s); dec (Port s); Target s]
  | ZTXT a b => [34 :: a; b ++ [34]]
  end.
Fixpoint words (l : list (list Z)) : list Z :=
  match l with [] => [] | [w] => w ++ [10] | w :: l => w ++ 32 :: words l end.
Definition line (e : entry) : list Z :=
  words (dot (e_name e) :: dec (e_ttl e) :: str "IN" :: type_name (type_of (e_data e)) :: tokens (e_data e)).
Definition zone_text (es : list entry) : list Z := concat (line <$> es).

(** The record of an entry. *)
Definition with_data (rr : ResourceRecord) (d : zdata) : ResourceRecord :=
  match d with
  | ZText _ w | ZName _ w => rr_Text rr (Some w)
  | ZSOA s => rr_SOA rr (Some s)
  | ZHINFO h => rr_HInfo rr (Some h)
  | ZMINFO i => rr_MInfo rr (Some i)
  | ZMX x => rr_MX rr (Some x)
  | ZSRV s => rr_SRV rr (Some s)
  | ZTXT a b => rr_Text rr (Some (a ++ 32 :: b))
  end.
Definition bare (e : entry) : ResourceRecord := mkRR (e_name e) (type_of (e_data e)) 1 (e_ttl e) 0 [] None None None None None None None None 0 0.
Definition record_of (e : entry) : ResourceRecord := with_data (bare e) (e_data e).

(** ** Case and numbers *)

Lemma lower_of_upper_byte c : lower_byte c = c -> lower_byte (upper_byte c) = c.
Proof.
  unfold upper_byte, lower_byte. intros Hl.
  destruct (Z.ltb_spec c 97), (Z.ltb_spec 122 c); cbn [orb]; try done; try lia.
  assert (Hu : u8 (c - 32) = c - 32) by (apply u8_id; unfold is_byte; lia). rewrite Hu.
  rewrite (proj2 (Z.ltb_ge (c - 32) 65)), (proj2 (Z.ltb_ge 90 (c - 32))) by lia. cbn [orb].
  rewrite u8_id by (unfold is_byte; lia). lia.
Qed.

Lemma lower_of_upper s : ToLower s = s -> ToLower (ToUpper s) = s.
Proof.
  induction s as [|c s IH]; [done|]. cbn. intros H. injection H as Hc Hs. by rewrite lower_of_upper_byte, IH by done.
Qed.

Lemma upper_digit c : IsDigit c = true -> upper_byte c = c.
Proof.
  unfold IsDigit, upper_byte. intros H%andb_true_iff. rewrite !Z.leb_le in H. by rewrite (proj2 (Z.ltb_lt c 97)) by lia.
Qed.

Lemma word_dec n : word (dec n).
Proof.
  assert (Hpos : forall n, 0 <= n -> word (dec n)).
  { intros k Hk. pose proof (dec_digits k Hk) as Hd. pose proof (dec_ne k Hk). split.
    - eapply Forall_impl; [exact Hd|]. intros c Hc. cbn beta. rewrite !not_elem_of_cons.
      unfold IsDigit in Hc. apply andb_true_iff in Hc. rewrite !Z.leb_le in Hc. repeat split; [lia..|apply not_elem_of_nil].
    - destruct (dec k) as [|c s]; [done|]. apply Forall_cons in Hd as [Hc _]. split; by apply digit_not. }
  destruct (Z.lt_ge_cases n 0) as [Hneg|Hp]; [|by apply Hpos].
  rewrite dec_neg by done. destruct (Hpos (- n) ltac:(lia)) as [Hw _]. split; [|done].
  constructor; [|done]. by apply (bool_decide_unpack _).
Qed.

Lemma word_dot d : domain d -> word (dot d).
Proof.
  intros ([Hw Hh] & _). unfold dot. split.
  - apply Forall_app. split; [done|]. constructor; [|done]. by apply (bool_decide_unpack _).
  - by destruct d.
Qed.

(** ** The reader on a token *)

Definition at_ (pre s : list Z) (l : list Message) (last : option ResourceRecord) (o : list Z) (t f : Z) : master :=
  mkMaster (mid pre s) l last o t f.

Lemma skip_hspace_word pre w s l last o t f : word w ->
  skip_hspace (at_ pre (w ++ s) l last o t f) = Ok ((0%nat, default 0 (head w)), at_ pre (w ++ s) l last o t f).
Proof.
  intros [Hw Hh]. destruct w as [|c w]; [done|]. destruct Hh as [Hh1 Hh2]. apply Forall_inv in Hw. cbn beta in Hw.
  rewrite !not_elem_of_cons in Hw. destruct Hw as (_ & _ & Hc32 & Hc9 & _).
  unfold skip_hspace, of_reader, SkipHorizontalSpace. cbn [reader at_]. rewrite unread_mid. cbn [app scan].
  rewrite (proj2 (Z.eqb_neq c 9)), (proj2 (Z.eqb_neq c 13)), (proj2 (Z.eqb_neq c 32)) by done. cbn [orb negb].
  unfold at_X, mid. cbn [X V]. rewrite Nat.add_0_r, decide_False by (rewrite length_app; cbn; lia).
  rewrite (get_at_Some _ _ c); [done|]. rewrite lookup_app_r by lia. by rewrite Nat.sub_diag.
Qed.

Lemma skip_hspace_eof pre l last o t f : skip_hspace (at_ pre [] l last o t f) = Ok ((0%nat, 0), at_ pre [] l last o t f).
Proof.
  unfold skip_hspace, of_reader, SkipHorizontalSpace. cbn [reader at_]. rewrite unread_mid. cbn [scan].
  unfold at_X, mid. cbn [X V]. rewrite Nat.add_0_r, decide_True by (rewrite app_nil_r; done). done.
Qed.

Lemma skip_spaces_word pre w s l last o t f : match w with c :: _ => IsSpace c = false | [] => False end ->
  skip_spaces (at_ pre (w ++ s) l last o t f) = Ok (default 0 (head w), at_ pre (w ++ s) l last o t f).
Proof.
  intros Hw. destruct w as [|c w]; [done|]. unfold skip_spaces, of_reader, SkipSpaces. cbn [reader at_].
  rewrite unread_mid. cbn [app scan]. rewrite Hw. cbn [negb]. unfold at_X, mid. cbn [X V]. by rewrite Nat.add_0_r.
Qed.

Lemma read_until_found ss ts pre w c s l last o t f : Forall (fun b => (b ∉ ts) /\ (b ∉ ss)) w -> (c ∈ ts) \/ (c ∈ ss) ->
  read_until ss ts (at_ pre (w ++ c :: s) l last o t f) = Ok ((w, elem_byte c ts, c), at_ (pre ++ w ++ [c]) s l last o t f).
Proof. intros Hw Hc. unfold read_until, of_reader. cbn [reader at_]. by rewrite ReadUntil_found. Qed.

Lemma read_until_word ts pre w c s l last o t f : Forall (fun b => (b ∉ [59; 10; 32; 9])) w ->
  c ∈ [32; 10] -> ts = terms \/ (ts = [10; 59; 41] /\ 41 ∉ w) ->
  read_until seps ts (at_ pre (w ++ c :: s) l last o t f) = Ok ((w, c =? 10, c), at_ (pre ++ w ++ [c]) s l last o t f).
Proof.
  intros Hw Hc Hts.
  assert (Hin : (c ∈ ts) \/ (c ∈ seps)).
  { rewrite !elem_of_cons, elem_of_nil in Hc. destruct Hc as [->|[->|[]]]; [right|left].
    - by apply (bool_decide_unpack _).
    - destruct Hts as [->|[-> _]]; by apply (bool_decide_unpack _). }
  rewrite read_until_found; [| |done].
  - assert (Hterm : elem_byte c ts = (c =? 10)).
    { rewrite !elem_of_cons, elem_of_nil in Hc. destruct Hc as [->|[->|[]]]; destruct Hts as [->|[-> _]]; reflexivity. }
    by rewrite Hterm.
  - apply Forall_forall. intros b Hb. rewrite Forall_forall in Hw. specialize (Hw b Hb). cbn beta in Hw.
    rewrite !not_elem_of_cons in Hw. destruct Hw as (H1 & H2 & H3 & H4 & _). unfold seps. split.
    + destruct Hts as [->|[-> Hn]]; unfold terms; rewrite !not_elem_of_cons; repeat split; try done; try apply not_elem_of_nil.
      by intros ->.
    + rewrite !not_elem_of_cons. repeat split; try done. apply not_elem_of_nil.
Qed.

(** ** Steps of the parser *)

Lemma bindM {A B} (x : M A) (f : A -> M B) m a m' : x m = Ok (a, m') -> @mbind M M_bind A B f x m = f a m'.
Proof. intros H. unfold mbind, M_bind. by rewrite H. Qed.

Lemma fail_false {B} e (f : unit -> M B) m : @mbind M M_bind unit B f (fail_if false e) m = f tt m.
Proof. done. Qed.

Lemma word_not_end w : word w -> (default 0 (head w) =? 0) || (default 0 (head w) =? 59) = false.
Proof.
  intros [Hw Hh]. destruct w as [|c w]; [done|]. apply Forall_inv in Hw. cbn beta in Hw. rewrite !not_elem_of_cons in Hw.
  cbn. apply orb_false_iff. rewrite !Z.eqb_neq. tauto.
Qed.

Lemma word_ne w : word w -> isnil w = false.
Proof. intros [_ H]. by destruct w. Qed.

Lemma trim_dots_id d : last d ≠ Some 46 -> trim_dots d = d.
Proof.
  induction d as [|c d IH]; [done|]. intros Hl. cbn [trim_dots]. destruct d as [|c' d].
  - cbn. destruct (Z.eqb_spec c 46) as [->|]; [by destruct Hl|done].
  - rewrite IH; [done|]. exact Hl.
Qed.

Lemma trim_dots_snoc d : trim_dots (d ++ [46]) = trim_dots d.
Proof. induction d as [|c d IH]; [done|]. cbn [app trim_dots]. by rewrite IH. Qed.

Lemma generate_dot d tok m : domain d -> ToLower tok = dot d -> head tok ≠ Some 64 -> generateDomainName tok m = Ok (d, m).
Proof.
  intros ([Hw Hh] & Hl & H64 & Hlast) Htok Hhd. unfold generateDomainName. rewrite (bindM get_m _ m m m) by done.
  destruct tok as [|c tok]; [by destruct d|]. rewrite Htok. unfold dot. rewrite last_snoc.
  rewrite (proj2 (Z.eqb_neq c 64)) by (intros ->; by apply Hhd). cbn [Z.eqb Pos.eqb].
  rewrite trim_dots_snoc, trim_dots_id by done. done.
Qed.

Lemma ToLower_dot d : domain d -> ToLower (dot d) = dot d.
Proof. intros (_ & Hl & _). unfold dot. by rewrite ToLower_app, Hl. Qed.

Lemma head_dot d : domain d -> head (dot d) ≠ Some 64.
Proof. intros ([_ Hh] & _ & H64 & _). by destruct d. Qed.

Section Steps.
Context {F : Float64} {U : Unicode}.

(** The state where [s] is to be read; what came before it does not matter. *)
Definition reads (m : master) (s : list Z) : Prop := exists pre, reader m = mid pre s.
Definition same (m m' : master) : Prop := msgs m' = msgs m /\ lastRR m' = lastRR m /\ origin m' = origin m /\ m_ttl m' = m_ttl m.

Lemma reads_at m s : reads m s -> exists pre, m = at_ pre s (msgs m) (lastRR m) (origin m) (m_ttl m) (flag m).
Proof. intros [pre Hr]. exists pre. destruct m. cbn in *. by subst. Qed.

Lemma same_trans m1 m2 m3 : same m1 m2 -> same m2 m3 -> same m1 m3.
Proof. unfold same. intuition congruence. Qed.

(** From [m] the operation reads up to [s], with the flag [f], and gives [a]. *)
Definition gives {A} (x : M A) (m : master) (a : A) (s : list Z) (f : Z) : Prop :=
  exists m', x m = Ok (a, m') /\ reads m' s /\ same m m' /\ flag m' = f.

Lemma gives_bind {A B} (x : M A) (k : A -> M B) m a s f b s' f' :
  gives x m a s f -> (forall m', reads m' s -> same m m' -> flag m' = f -> gives (k a) m' b s' f') ->
  gives (x ≫= k) m b s' f'.
Proof.
  intros (m1 & H1 & Hr & Hs & Hf) H2. destruct (H2 m1 Hr Hs Hf) as (m2 & H3 & Hr2 & Hs2 & Hf2).
  exists m2. rewrite (bindM _ _ _ _ _ H1). split; [done|]. split; [done|]. split; [by eapply same_trans|done].
Qed.

Lemma gives_ret {A} (a : A) m s : reads m s -> gives (mret a) m a s (flag m).
Proof. intros Hr. exists m. split; [done|]. split; [done|]. split; [by repeat split|done]. Qed.

(** The next token. *)
Lemma gives_hspace m w s : word w -> reads m (w ++ s) -> gives skip_hspace m (0%nat, default 0 (head w)) (w ++ s) (flag m).
Proof.
  intros Hw Hr. destruct (reads_at _ _ Hr) as [pre ->]. eexists. rewrite skip_hspace_word by done.
  split; [reflexivity|]. split; [by exists pre|]. by repeat split.
Qed.

Lemma gives_until m w c s : Forall (fun b => (b ∉ [59; 10; 32; 9])) w -> c ∈ [32; 10] -> reads m (w ++ c :: s) ->
  gives (read_until seps terms) m (w, c =? 10, c) s (flag m).
Proof.
  intros Hw Hc Hr. destruct (reads_at _ _ Hr) as [pre ->]. eexists. rewrite read_until_word by (done || by left).
  split; [reflexivity|]. split; [by eexists|]. by repeat split.
Qed.

Lemma words_cons w l : l ≠ [] -> words (w :: l) = w ++ 32 :: words l.
Proof. by destruct l. Qed.

(** A token and its separator; [l] are the tokens after it. *)
Definition sep_of (l : list (list Z)) : Z := if isnil l then 10 else 32.
Lemma words_sep w l s : words (w :: l) ++ s = w ++ sep_of l :: (match l with [] => s | _ => words l ++ s end).
Proof. destruct l; cbn [words sep_of isnil]; by rewrite <- (assoc_L (++)). Qed.
Definition after (l : list (list Z)) (s : list Z) : list Z := match l with [] => s | _ => words l ++ s end.

Lemma sep_of_in l : sep_of l ∈ [32; 10].
Proof. destruct l; by apply (bool_decide_unpack _). Qed.

Lemma gives_field e m w l s : word w -> reads m (words (w :: l) ++ s) ->
  gives (field_token e) m (w, isnil l, sep_of l) (after l s) (flag m).
Proof.
  intros Hw Hr. rewrite words_sep in Hr. unfold field_token.
  eapply gives_bind; [by apply gives_hspace|]. intros m1 Hr1 _ <-. cbv beta iota. rewrite word_not_end by done.
  eapply gives_bind; [by apply (gives_ret tt)|]. intros m2 Hr2 _ <-.
  eapply gives_bind; [apply gives_until; [apply Hw|apply sep_of_in|done]|]. intros m3 Hr3 _ <-. cbv beta iota. rewrite word_ne by done.
  eapply gives_bind; [by apply (gives_ret tt)|]. intros m4 Hr4 _ <-.
  replace (sep_of l =? 10) with (isnil l) by (by destruct l). by apply gives_ret.
Qed.

Lemma gives_second m w l s : word w -> reads m (words (w :: l) ++ s) ->
  gives second_token m (w, isnil l) (after l s) (flag m).
Proof. intros Hw Hr. eapply gives_bind; [by apply gives_field|]. intros m1 Hr1 _ <-. by apply gives_ret. Qed.

Lemma gives_srv m w l s : word w -> reads m (words (w :: l) ++ s) -> gives srv_token m w (after l s) (flag m).
Proof. intros Hw Hr. eapply gives_bind; [by apply gives_field|]. intros m1 Hr1 _ <-. by apply gives_ret. Qed.

Lemma gives_srv_number m n l s : is_u16 n -> reads m (words (dec n :: l) ++ s) -> gives srv_number m n (after l s) (flag m).
Proof.
  intros Hn Hr. unfold srv_number. eapply gives_bind; [apply gives_srv; [apply word_dec|done]|]. intros m1 Hr1 _ <-.
  unfold is_u16 in Hn. rewrite ParseInt64_dec by lia.
  eapply gives_bind; [by apply (gives_ret n)|]. intros m2 Hr2 _ <-.
  rewrite <- (u16_id n) at 2 by done. by apply gives_ret.
Qed.

(** Where a line starts, or the file ends. *)
Definition line_start (s : list Z) : Prop := s = [] \/ exists w s', word w /\ s = w ++ s'.

Lemma gives_srv_end m s : line_start s -> reads m s ->
  gives ('(_, c) ← skip_hspace; (if c =? 59 then skip_line else mret tt)) m tt s (flag m).
Proof.
  intros [->|(w & s' & Hw & ->)] Hr.
  - destruct (reads_at _ _ Hr) as [pre ->]. eexists. rewrite (bindM _ _ _ _ _ (skip_hspace_eof _ _ _ _ _ _)).
    split; [reflexivity|]. split; [by eexists|]. by repeat split.
  - eapply gives_bind; [by apply gives_hspace|]. intros m1 Hr1 _ <-.
    pose proof (word_not_end w Hw) as Hn. apply orb_false_iff in Hn as [_ ->]. by apply gives_ret.
Qed.

(** ** The data of each type *)

Lemma gives_spaces m w s : match w with c :: _ => IsSpace c = false | [] => False end -> reads m (w ++ s) ->
  gives skip_spaces m (default 0 (head w)) (w ++ s) (flag m).
Proof.
  intros Hw Hr. destruct (reads_at _ _ Hr) as [pre ->]. eexists. rewrite skip_spaces_word by done.
  split; [reflexivity|]. split; [by exists pre|]. by repeat split.
Qed.

Lemma dec_first n : match dec n with c :: _ => IsSpace c = false /\ c ≠ 59 /\ c ≠ 0 | [] => False end /\ 41 ∉ dec n.
Proof.
  assert (Hpos : forall n, 0 <= n -> match dec n with c :: _ => IsSpace c = false /\ c ≠ 59 /\ c ≠ 0 | [] => False end /\ 41 ∉ dec n).
  { intros k Hk. pose proof (dec_digits k Hk) as Hd. pose proof (dec_ne k Hk). split.
    - destruct (dec k) as [|c s]; [done|]. apply Forall_inv in Hd. unfold IsDigit in Hd. apply andb_true_iff in Hd. rewrite !Z.leb_le in Hd.
      unfold IsSpace. rewrite !orb_false_iff, !Z.eqb_neq. lia.
    - intros Hin. rewrite Forall_forall in Hd. by apply Hd in Hin. }
  destruct (Z.lt_ge_cases n 0) as [Hneg|Hp]; [|by apply Hpos].
  rewrite dec_neg by done. split; [done|]. rewrite not_elem_of_cons. split; [done|]. by apply Hpos; lia.
Qed.

Lemma soa_step fuel m soa b n rest soa' f' a s f : - 2 ^ 63 <= n < 2 ^ 63 -> reads m (dec n ++ 32 :: rest) ->
  set_soa soa (flag m) n = Some (soa', f') ->
  (forall m', reads m' rest -> same m m' -> flag m' = Z.lor (flag m) f' ->
     gives (if f' =? parseSOAMinimum then mret (soa', false, 32) else soa_loop fuel true [10; 59; 41] soa' false) m' a s f) ->
  gives (soa_loop (S fuel) true [10; 59; 41] soa b) m a s f.
Proof.
  intros Hn Hr Hset Hk. cbn [soa_loop]. destruct (dec_first n) as [Hhead H41].
  assert (Hsp : match dec n with c :: _ => IsSpace c = false | [] => False end) by (by destruct (dec n) as [|c ?]; [|destruct Hhead]).
  assert (Hc : (default 0 (head (dec n)) =? 59) = false /\ (default 0 (head (dec n)) =? 0) = false).
  { destruct (dec n); [done|]. cbn. rewrite !Z.eqb_neq. tauto. }
  destruct Hc as [Hc1 Hc2].
  eapply (gives_bind _ _ _ (default 0 (head (dec n))) (dec n ++ 32 :: rest) (flag m)).
  { eapply gives_bind; [by apply gives_spaces|]. intros m1 Hr1 _ <-. rewrite Hc1. by apply gives_ret. }
  intros m1 Hr1 Hs1 Hf1. rewrite Hc2.
  eapply (gives_bind _ _ _ (dec n, false, 32) rest (flag m1)).
  { destruct (reads_at _ _ Hr1) as [pre ->]. eexists. rewrite read_until_word; [split; [reflexivity|]|apply word_dec|by left|by right].
    split; [by eexists|]. by repeat split. }
  intros m2 Hr2 Hs2 Hf2. rewrite word_ne by apply word_dec.
  eapply gives_bind; [by apply (gives_ret tt)|]. intros m3 Hr3 Hs3 Hf3. cbn [Z.eqb Pos.eqb].
  eapply gives_bind; [by apply (gives_ret tt)|]. intros m4 Hr4 Hs4 Hf4. rewrite ParseInt64_dec by done.
  eapply gives_bind; [by apply (gives_ret n)|]. intros m5 Hr5 Hs5 Hf5.
  eapply (gives_bind get_m _ _ m5 rest (flag m5)); [exists m5; split; [done|]; split; [exact Hr5|]; by repeat split|].
  intros m6 Hr6 Hs6 Hf6. rewrite Hf5, Hf4, Hf3, Hf2, Hf1, Hset.
  eapply (gives_bind (or_flag f') _ _ tt rest (Z.lor (flag m6) f')).
  { exists (mkMaster (reader m6) (msgs m6) (lastRR m6) (origin m6) (m_ttl m6) (Z.lor (flag m6) f')).
    split; [done|]. split; [exact Hr6|]. split; [by repeat split|reflexivity]. }
  intros m7 Hr7 Hs7 Hf7. apply Hk; [done| |by rewrite Hf7, Hf6, Hf5, Hf4, Hf3, Hf2, Hf1].
  repeat (eapply same_trans; [eassumption|]). done.
Qed.

Lemma s32_id v : is_s32 v -> s32 v = v.
Proof. unfold is_s32, s32. intros. rewrite Z.mod_small; lia. Qed.
Lemma s16_id v : is_s16 v -> s16 v = v.
Proof. unfold is_s16, s16. intros. rewrite Z.mod_small; lia. Qed.
Lemma u32_id v : is_u32 v -> u32 v = v.
Proof. unfold is_u32, u32. intros. apply Z.mod_small. lia. Qed.

Lemma soa_loop_numbers n m mn rn s r t e mi rest :
  is_u32 s -> is_s32 r -> is_s32 t -> is_s32 e -> is_u32 mi -> flag m = 0 ->
  reads m (words [dec s; dec r; dec t; dec e; dec mi; [41]] ++ rest) ->
  gives (soa_loop (5 + n) true [10; 59; 41] (mkSOA mn rn 0 0 0 0 0) false) m (mkSOA mn rn s r t e mi, false, 32) ([41; 10] ++ rest) 31.
Proof.
  intros Hs Hr Ht He Hmi Hf Hreads.
  assert (Hw : words [dec s; dec r; dec t; dec e; dec mi; [41]] ++ rest
    = dec s ++ 32 :: dec r ++ 32 :: dec t ++ 32 :: dec e ++ 32 :: dec mi ++ 32 :: [41; 10] ++ rest)
    by (cbn [words]; repeat (rewrite <- (assoc_L (++)) || rewrite <- app_comm_cons); done).
  rewrite Hw in Hreads. unfold is_u32, is_s32 in *.
  eapply (soa_step _ _ _ _ s); [lia|exact Hreads|rewrite Hf; reflexivity|]. intros m1 Hr1 _ Hf1. rewrite Hf in Hf1. cbn in Hf1.
  rewrite u32_id by done. change (parseSOASerial =? parseSOAMinimum) with false. cbv iota.
  eapply (soa_step _ _ _ _ r); [lia|exact Hr1|rewrite Hf1; reflexivity|]. intros m2 Hr2 _ Hf2. rewrite Hf1 in Hf2. cbn in Hf2.
  rewrite s32_id by done. change (parseSOARefresh =? parseSOAMinimum) with false. cbv iota.
  eapply (soa_step _ _ _ _ t); [lia|exact Hr2|rewrite Hf2; reflexivity|]. intros m3 Hr3 _ Hf3. rewrite Hf2 in Hf3. cbn in Hf3.
  rewrite s32_id by done. change (parseSOARetry =? parseSOAMinimum) with false. cbv iota.
  eapply (soa_step _ _ _ _ e); [lia|exact Hr3|rewrite Hf3; reflexivity|]. intros m4 Hr4 _ Hf4. rewrite Hf3 in Hf4. cbn in Hf4.
  rewrite s32_id by done. change (parseSOAExpire =? parseSOAMinimum) with false. cbv iota.
  eapply (soa_step _ _ _ _ mi); [lia|exact Hr4|rewrite Hf4; reflexivity|]. intros m5 Hr5 _ Hf5. rewrite Hf4 in Hf5. cbn in Hf5.
  rewrite u32_id by done. change (parseSOAMinimum =? parseSOAMinimum) with true. cbv iota.
  replace 31 with (flag m5) by (by rewrite Hf5). by apply gives_ret.
Qed.

Definition gives_some {A} (x : M A) (m : master) (a : A) (s : list Z) : Prop := exists f, gives x m a s f.

Lemma gives_get m s : reads m s -> gives get_m m m s (flag m).
Proof. intros Hr. exists m. split; [done|]. split; [done|]. by repeat split. Qed.

Lemma gives_put_flag m s f : reads m s -> gives (put_flag f) m tt s f.
Proof. intros [pre Hr]. eexists. split; [reflexivity|]. split; [by exists pre|]. by repeat split. Qed.

Lemma gives_generate m s d tok : reads m s -> domain d -> ToLower tok = dot d -> head tok ≠ Some 64 ->
  gives (generateDomainName tok) m d s (flag m).
Proof.
  intros Hr Hd Ht Hh. exists m. rewrite (generate_dot d) by done. split; [done|]. split; [done|]. by repeat split.
Qed.

Lemma rounds_reads m s : reads m s -> (length s + 2 <= rounds m)%nat.
Proof. intros [pre Hr]. unfold rounds. rewrite Hr. cbn. rewrite length_app. lia. Qed.

Lemma plain_paren c : c = 40 \/ c = 41 -> Forall (fun b => (b ∉ [59; 10; 32; 9])) [c].
Proof. intros [->| ->]; (constructor; [by apply (bool_decide_unpack _)|done]). Qed.

Lemma gives_SOA rr soa m s : data_ok (ZSOA soa) -> m_ttl m ≠ 0 -> reads m (after (tail (tokens (ZSOA soa))) s) ->
  gives_some (parseSOA rr (dot (MName soa))) m (rr_SOA rr (Some soa)) s.
Proof.
  intros (Hmn & Hrn & Hs & Hr & Ht & He & Hmi) Httl Hreads. exists 31. destruct soa as [mn rn se re rt ex mi]. cbn [MName RName Serial Refresh SOARetry Expire Minimum] in *.
  unfold parseSOA. cbn [tokens tail after MName RName Serial Refresh SOARetry Expire Minimum] in Hreads.
  eapply gives_bind; [apply gives_generate; [exact Hreads|exact Hmn| |]|].
  { by rewrite !ToLower_dot. } { rewrite ToLower_dot by done. by apply head_dot. }
  intros m1 Hr1 S1 F1. rewrite words_sep in Hr1. cbv beta iota in Hr1.
  eapply gives_bind; [apply gives_hspace; [by apply word_dot|exact Hr1]|]. intros m2 Hr2 S2 F2. cbv beta iota. rewrite word_not_end by (by apply word_dot).
  eapply gives_bind; [by apply (gives_ret tt)|]. intros m3 Hr3 S3 F3.
  eapply gives_bind; [apply gives_until; [by apply word_dot|apply sep_of_in|exact Hr3]|]. intros m4 Hr4 S4 F4. cbv beta iota.
  rewrite word_ne by (by apply word_dot).
  eapply gives_bind; [by apply (gives_ret tt)|]. intros m5 Hr5 S5 F5.
  eapply gives_bind; [apply gives_generate; [exact Hr5|exact Hrn| |]|].
  { by rewrite !ToLower_dot. } { rewrite ToLower_dot by done. by apply head_dot. }
  intros m6 Hr6 S6 F6. rewrite words_sep in Hr6. cbv beta iota in Hr6.
  eapply gives_bind; [apply gives_until; [by apply (plain_paren 40); auto|apply sep_of_in|exact Hr6]|]. intros m7 Hr7 S7 F7. cbv beta iota.
  eapply gives_bind; [by apply (gives_ret tt)|]. intros m8 Hr8 S8 F8. cbv zeta. rewrite bool_decide_true by done.
  eapply (gives_bind _ _ _ (mkSOA mn rn 0 0 0 0 0) (words [dec se; dec re; dec rt; dec ex; dec mi; [41]] ++ s) 0).
  { eapply gives_bind; [by apply gives_put_flag|]. intros m9 Hr9 _ F9. replace 0 with (flag m9) by done. by apply gives_ret. }
  intros m9 Hr9 S9 F9. eapply gives_bind; [by apply gives_get|]. intros m10 Hr10 S10 F10. cbv beta.
  pose proof (rounds_reads _ _ Hr9) as Hfuel.
  assert (H5 : exists n, rounds m9 = (5 + n)%nat).
  { exists (rounds m9 - 5)%nat. cbn [words] in Hfuel. repeat (progress rewrite ?length_app, ?length_cons in Hfuel). lia. }
  destruct H5 as [n ->].
  eapply gives_bind; [eapply soa_loop_numbers; [exact Hs|exact Hr|exact Ht|exact He|exact Hmi|by rewrite F10, F9|exact Hr10]|].
  intros m11 Hr11 S11 F11. eapply (gives_bind _ _ _ tt s 31).
  { eapply gives_bind; [apply (gives_spaces _ [41]); [done|exact Hr11]|]. intros m12 Hr12 _ F12.
    eapply gives_bind; [by apply (gives_ret tt)|]. intros m13 Hr13 _ F13.
    eapply gives_bind; [apply (gives_until _ [41] 10 s); [by apply (plain_paren 41); auto|by apply (bool_decide_unpack _)|exact Hr13]|].
    intros m14 Hr14 _ F14. cbv beta iota. cbn [Z.eqb Pos.eqb]. exists m14. split; [done|]. split; [exact Hr14|]. split; [by repeat split|].
    rewrite F14, F13, F12. exact F11. }
  intros m12 Hr12 S12 F12. cbv beta iota. eapply gives_bind; [by apply gives_get|]. intros m13 Hr13 S13 F13. cbv beta iota.
  assert (Ht13 : m_ttl m12 = m_ttl m).
  { repeat match goal with H : same _ _ |- _ => destruct H as (_ & _ & _ & H) end. congruence. }
  rewrite Ht13, (proj2 (Z.eqb_neq _ _)) by done.
  eapply gives_bind; [by apply (gives_ret tt)|]. intros m14 Hr14 S14 F14.
  replace 31 with (flag m14) by (by rewrite F14, F13). by apply gives_ret.
Qed.

Lemma TrimSpace_quotes x : TrimSpace (34 :: x ++ [34]) = 34 :: x ++ [34].
Proof.
  unfold TrimSpace. cbn [length]. rewrite trim_left_hd by (done || lia). cbn [length].
  rewrite app_comm_cons, trim_right_snoc by lia. done.
Qed.

Lemma gives_TXT rr a b m s : data_ok (ZTXT a b) -> reads m (after [b ++ [34]] s) ->
  gives_some (parseTXT rr (34 :: a ++ [32])) m (rr_Text rr (Some (a ++ 32 :: b))) s.
Proof.
  intros [Ha Hb] Hr. exists (flag m). unfold parseTXT.
  eapply (gives_bind _ _ _ (b ++ [34], true, 10) s (flag m)).
  { destruct (reads_at _ _ Hr) as [pre ->]. cbn [after words]. rewrite <- !(assoc_L (++)). cbn [app].
    assert (Heq : b ++ 34 :: 10 :: s = (b ++ [34]) ++ 10 :: s) by (by rewrite <- (assoc_L (++))). rewrite Heq.
    eexists. rewrite read_until_found; [split; [reflexivity|]|..].
    - split; [by eexists|]. by repeat split.
    - apply Forall_app. split.
      + apply Forall_forall. intros c Hc. split; [|apply not_elem_of_nil]. rewrite list_elem_of_singleton. by intros ->.
      + constructor; [|done]. split; by apply (bool_decide_unpack _).
    - left. by left. }
  intros m1 Hr1 _ <-. cbv beta iota zeta.
  assert (Hv : (34 :: a ++ [32]) ++ b ++ [34] = 34 :: (a ++ 32 :: b) ++ [34]) by (cbn; by rewrite <- !(assoc_L (++))).
  rewrite Hv, TrimSpace_quotes. rewrite app_comm_cons, last_snoc. cbn [app].
  eapply gives_bind; [by apply (gives_ret tt)|]. intros m2 Hr2 _ <-.
  eapply gives_bind; [by apply (gives_ret tt)|]. intros m3 Hr3 _ <-.
  destruct ((a ++ 32 :: b) ++ [34]) as [|c v] eqn:E; [by destruct (a ++ 32 :: b)|]. rewrite <- E, removelast_last. by apply gives_ret.
Qed.

(** The first token, as [parseRRData] gets it. *)
Definition first_token (d : zdata) : list Z :=
  match d with ZTXT a _ => 34 :: a ++ [32] | _ => default [] (head (tokens d)) end.

Lemma gives_data rr d m s : data_ok d -> rrType rr = type_of d -> line_start s -> m_ttl m ≠ 0 -> reads m (after (tail (tokens d)) s) ->
  gives_some (parseRRData rr (first_token d)) m (with_data rr d) s.
Proof.
  intros Hok Ht Hs Httl Hr. unfold parseRRData. rewrite Ht.
  destruct d as [t w|t w|soa|h|i|x|v|a b]; cbn [type_of with_data first_token tokens tail head default after] in *.
  - destruct Hok as [Hin Hw]. exists (flag m). rewrite !elem_of_cons, elem_of_nil in Hin.
    destruct Hin as [->|[->|[]]]; by apply gives_ret.
  - destruct Hok as [Hin Hw]. exists (flag m).
    assert (Hname : gives (dname ← generateDomainName (dot w); mret (rr_Text rr (Some dname))) m (rr_Text rr (Some w)) s (flag m)).
    { eapply gives_bind; [apply (gives_generate _ _ w); [done|done|by apply ToLower_dot|by apply head_dot]|].
      intros m1 Hr1 _ <-. by apply gives_ret. }
    rewrite !elem_of_cons, elem_of_nil in Hin. destruct Hin as [->|[->|[->|[->|[->|[->|[]]]]]]]; exact Hname.
  - by apply gives_SOA.
  - destruct Hok as [Hc Ho], h as [cpu os]. exists (flag m). change (gives (parseHInfo rr cpu) m (rr_HInfo rr (Some (mkHINFO cpu os))) s (flag m)). unfold parseHInfo. cbn [CPU OS] in *.
    eapply gives_bind; [by apply (gives_second _ os [])|]. intros m1 Hr1 _ <-. cbv beta iota.
    eapply gives_bind; [by apply (gives_ret tt)|]. intros m2 Hr2 _ <-. by apply gives_ret.
  - destruct Hok as [Hc Ho], i as [r e]. exists (flag m). change (gives (parseMInfo rr r) m (rr_MInfo rr (Some (mkMINFO r e))) s (flag m)). unfold parseMInfo. cbn [RMailBox EmailBox] in *.
    eapply gives_bind; [by apply (gives_second _ e [])|]. intros m1 Hr1 _ <-. cbv beta iota.
    eapply gives_bind; [by apply (gives_ret tt)|]. intros m2 Hr2 _ <-. by apply gives_ret.
  - destruct Hok as [Hp He], x as [p e]. exists (flag m). change (gives (parseMX rr (dec p)) m (rr_MX rr (Some (mkMX p e))) s (flag m)). unfold parseMX. cbn [Preference Exchange] in *.
    unfold is_s16 in Hp. rewrite ParseInt64_dec by lia.
    eapply gives_bind; [by apply (gives_ret p)|]. intros m0 Hr0 _ <-.
    eapply gives_bind; [apply (gives_second _ (dot e) []); [by apply word_dot|exact Hr0]|]. intros m1 Hr1 _ <-. cbv beta iota.
    eapply gives_bind; [apply (gives_generate _ _ e); [exact Hr1|done|by apply ToLower_dot|by apply head_dot]|]. intros m2 Hr2 _ <-.
    eapply gives_bind; [by apply (gives_ret tt)|]. intros m3 Hr3 _ <-. rewrite s16_id by done. by apply gives_ret.
  - destruct Hok as (H1 & H2 & H3 & H4 & H5 & H6 & H7), v as [sv pr nm pi we po ta]. exists (flag m). change (gives (parseSRV rr sv) m (rr_SRV rr (Some (mkSRV sv pr nm pi we po ta))) s (flag m)). unfold parseSRV.
    cbn [Service Proto SrvName Priority Weight Port Target] in *.
    eapply gives_bind; [apply (gives_srv _ pr); [done|exact Hr]|]. intros m1 Hr1 _ <-.
    eapply gives_bind; [apply (gives_srv _ nm); [done|exact Hr1]|]. intros m2 Hr2 _ <-.
    eapply gives_bind; [apply (gives_srv_number _ pi); [done|exact Hr2]|]. intros m3 Hr3 _ <-.
    eapply gives_bind; [apply (gives_srv_number _ we); [done|exact Hr3]|]. intros m4 Hr4 _ <-.
    eapply gives_bind; [apply (gives_srv_number _ po); [done|exact Hr4]|]. intros m5 Hr5 _ <-.
    eapply gives_bind; [apply (gives_srv _ ta []); [done|exact Hr5]|]. intros m6 Hr6 _ <-. cbn [after] in Hr6.
    destruct (gives_srv_end _ _ Hs Hr6) as (m7 & H8 & Hr7 & Hs7 & Hf7).
    destruct (skip_hspace m6) as [[[n c] m6']| | |] eqn:E; unfold mbind, M_bind in H8; rewrite E in H8; try done.
    exists m7. unfold mbind, M_bind. rewrite E, H8. split; [done|]. by split.
  - by apply gives_TXT.
Qed.

(** ** A line *)

Lemma ToUpper_digits s : Forall (fun c => IsDigit c = true) s -> ToUpper s = s.
Proof. induction 1 as [|c s Hc _ IH]; [done|]. cbn. by rewrite upper_digit, IH. Qed.

Lemma gives_TTL n m s : is_u32 n -> reads m s -> gives (parseTTL (dec n)) m n s (flag m).
Proof.
  intros [H0 Hn] Hr. unfold parseTTL. pose proof (dec_digits n H0) as Hd.
  assert (Hdig : IsDigits (dec n) = true).
  { clear -Hd. induction Hd as [|c s Hc _ IH]; [done|]. cbn. by rewrite Hc. }
  rewrite Hdig. unfold ParseUint32. rewrite unsigned_dec by done. rewrite (proj2 (Z.ltb_lt _ _)) by lia. by apply gives_ret.
Qed.

Lemma gives_or_flag m s f : reads m s -> gives (or_flag f) m tt s (Z.lor (flag m) f).
Proof. intros [pre Hr]. eexists. split; [reflexivity|]. split; [by exists pre|]. by repeat split. Qed.

Lemma type_known d : data_ok d -> word (type_name (type_of d)) /\ ToUpper (type_name (type_of d)) = type_name (type_of d) /\
  assoc_of (type_name (type_of d)) QueryTypes = Some (type_of d).
Proof.
  assert (Hall : forall t, t ∈ [1; 2; 5; 6; 7; 8; 9; 12; 13; 14; 15; 16; 28; 33] ->
    word (type_name t) /\ ToUpper (type_name t) = type_name t /\ assoc_of (type_name t) QueryTypes = Some t).
  { intros t Ht. rewrite !elem_of_cons, elem_of_nil in Ht.
    repeat (destruct Ht as [->|Ht]; [split; [split; [by apply (bool_decide_unpack _)|by vm_compute]|by split]|]). done. }
  intros Hok. apply Hall. destruct d; cbn [type_of data_ok] in *; try by apply (bool_decide_unpack _).
  - destruct Hok as [Hin _]. revert Hin. rewrite !elem_of_cons, !elem_of_nil. cbn. tauto.
  - destruct Hok as [Hin _]. revert Hin. rewrite !elem_of_cons, !elem_of_nil. cbn. tauto.
Qed.

Lemma token_first d : data_ok d -> exists w l, tokens d = w :: l /\ word w /\
  (if (type_of d =? QueryTypeTXT) && negb (isnil l) then w ++ [sep_of l] else w) = first_token d.
Proof.
  intros Hok. destruct d as [t w|t w|soa|h|i|x|v|a b]; cbn [tokens type_of data_ok] in *; eexists _, _; (split; [reflexivity|]).
  - destruct Hok as [Hin Hw]. split; [done|]. by rewrite andb_false_r.
  - destruct Hok as [Hin Hw]. split; [by apply word_dot|]. by rewrite andb_false_r.
  - split; [apply word_dot, Hok|done].
  - split; [apply Hok|done].
  - split; [apply Hok|done].
  - split; [apply word_dec|done].
  - split; [apply Hok|done].
  - destruct Hok as [Ha _]. split; [|done]. split; [constructor; [by apply (bool_decide_unpack _)|done]|done].
Qed.

Lemma upper_not_at c : c ≠ 64 -> upper_byte c ≠ 64.
Proof.
  unfold upper_byte. destruct (Z.ltb_spec c 97), (Z.ltb_spec 122 c); cbn [orb]; try done.
  intros _. rewrite u8_id by (unfold is_byte; lia). lia.
Qed.

Lemma after_tokens w l s : words (w :: l) ++ s = w ++ sep_of l :: after l s.
Proof. apply words_sep. Qed.

Lemma some_bind {A B} (x : M A) (k : A -> M B) m a s f b s' :
  gives x m a s f -> (forall m', reads m' s -> same m m' -> flag m' = f -> gives_some (k a) m' b s') ->
  gives_some (x ≫= k) m b s'.
Proof.
  intros (m1 & H1 & Hr & Hs & Hf) H2. destruct (H2 m1 Hr Hs Hf) as (f' & m2 & H3 & Hr2 & Hs2 & Hf2).
  exists f', m2. rewrite (bindM _ _ _ _ _ H1). split; [done|]. split; [done|]. split; [by eapply same_trans|done].
Qed.

Lemma rr_loop_TTL fuel rr m t l s rr' s' : is_u32 t -> flag m = 0 -> reads m (words (dec t :: l) ++ s) ->
  (forall m', reads m' (after l s) -> same m m' -> flag m' = 1 -> gives_some (rr_loop fuel (rr_TTL rr t)) m' rr' s') ->
  gives_some (rr_loop (S fuel) rr) m rr' s'.
Proof.
  intros Ht Hf Hr Hk. cbn [rr_loop]. eapply some_bind; [apply gives_field; [apply word_dec|exact Hr]|]. intros m1 Hr1 S1 F1. cbv beta iota zeta.
  eapply some_bind; [by apply gives_get|]. intros m2 Hr2 S2 F2. rewrite F1, Hf. cbn [Z.eqb parseRRStart].
  pose proof (dec_digits t (proj1 Ht)) as Hd. rewrite (ToUpper_digits (dec t)) by done.
  assert (Hdig : is_digit_token (dec t) = true).
  { pose proof (dec_ne t (proj1 Ht)). destruct (dec t); [done|]. by apply Forall_inv in Hd. }
  rewrite Hdig. eapply some_bind; [by apply gives_TTL|]. intros m3 Hr3 S3 F3.
  eapply some_bind; [by apply gives_or_flag|]. intros m4 Hr4 S4 F4. apply Hk; [done| |].
  - repeat (eapply same_trans; [eassumption|]). done.
  - rewrite F4, F3, F2, F1, Hf. done.
Qed.

Lemma rr_loop_IN fuel rr m l s rr' s' : flag m = 1 -> reads m (words (str "IN" :: l) ++ s) ->
  (forall m', reads m' (after l s) -> same m m' -> flag m' = 3 -> gives_some (rr_loop fuel (rr_Class rr 1)) m' rr' s') ->
  gives_some (rr_loop (S fuel) rr) m rr' s'.
Proof.
  intros Hf Hr Hk. cbn [rr_loop].
  assert (Hin : word (str "IN")) by (split; [by apply (bool_decide_unpack _)|done]).
  eapply some_bind; [by apply gives_field|]. intros m1 Hr1 S1 F1. cbv beta iota zeta.
  eapply some_bind; [by apply gives_get|]. intros m2 Hr2 S2 F2. rewrite F1, Hf. cbn [Z.eqb parseRRStart parseRRTTL Pos.eqb].
  change (parseRRClassOrType rr (ToUpper (str "IN"))) with (or_flag parseRRClass ;; mret (rr_Class rr 1)).
  eapply (some_bind _ _ _ _ (after l s) (Z.lor (flag m2) parseRRClass)).
  { eapply gives_bind; [by apply gives_or_flag|]. intros m3 Hr3 S3 F3. rewrite <- F3. by apply gives_ret. }
  intros m4 Hr4 S4 F4. apply Hk; [done| |].
  - repeat (eapply same_trans; [eassumption|]). done.
  - rewrite F4, F2, F1, Hf. done.
Qed.

Lemma rr_loop_type fuel rr m d l s rr' s' : data_ok d -> flag m = 3 -> reads m (words (type_name (type_of d) :: l) ++ s) ->
  (forall m', reads m' (after l s) -> same m m' -> flag m' = 7 -> gives_some (rr_loop fuel (rr_Type rr (type_of d))) m' rr' s') ->
  gives_some (rr_loop (S fuel) rr) m rr' s'.
Proof.
  intros Hd Hf Hr Hk. destruct (type_known d Hd) as (Htw & Htu & Htk). cbn [rr_loop].
  eapply some_bind; [by apply gives_field|]. intros m1 Hr1 S1 F1. cbv beta iota zeta.
  eapply some_bind; [by apply gives_get|]. intros m2 Hr2 S2 F2. rewrite F1, Hf.
  change (3 =? parseRRStart) with false. change (3 =? parseRRTTL) with false. change (3 =? parseRRClass) with false.
  change (3 =? Z.lor parseRRTTL parseRRClass) with true. cbv iota.
  rewrite Htu. unfold as_type. rewrite Htk. cbn [fmap option_fmap option_map].
  eapply some_bind; [by apply gives_or_flag|]. intros m3 Hr3 S3 F3. apply Hk; [done| |].
  - repeat (eapply same_trans; [eassumption|]). done.
  - rewrite F3, F2, F1, Hf. done.
Qed.

Lemma rr_loop_data fuel rr m d s : data_ok d -> flag m = 7 -> rrType rr = type_of d -> line_start s -> m_ttl m ≠ 0 ->
  reads m (words (tokens d) ++ s) -> gives_some (rr_loop (S fuel) rr) m (with_data rr d) s.
Proof.
  intros Hd Hf Ht Hs Httl Hr. destruct (token_first d Hd) as (w & l & Htok & Hw & Hfirst). cbn [rr_loop]. rewrite Htok in Hr.
  eapply some_bind; [by apply gives_field|]. intros m1 Hr1 S1 F1. cbv beta iota zeta.
  eapply some_bind; [by apply gives_get|]. intros m2 Hr2 S2 F2. rewrite F1, Hf.
  change (7 =? parseRRStart) with false. change (7 =? parseRRTTL) with false. change (7 =? parseRRClass) with false.
  change (7 =? Z.lor parseRRTTL parseRRClass) with false. cbv iota. rewrite Ht, Hfirst.
  apply gives_data; try done.
  - destruct S1 as (_ & _ & _ & E1), S2 as (_ & _ & _ & E2). congruence.
  - by rewrite Htok.
Qed.

Lemma words_after l s : l ≠ [] -> after l s = words l ++ s.
Proof. by destruct l. Qed.

Lemma ttl_same m m' : same m m' -> m_ttl m ≠ 0 -> m_ttl m' ≠ 0.
Proof. by intros (_ & _ & _ & ->). Qed.

Lemma tokens_ne d : tokens d ≠ [].
Proof. by destruct d. Qed.

Lemma gives_RR e m s : entry_ok e -> line_start s -> m_ttl m ≠ 0 ->
  reads m (words (dec (e_ttl e) :: str "IN" :: type_name (type_of (e_data e)) :: tokens (e_data e)) ++ s) ->
  gives_some (parseRR None (ToUpper (dot (e_name e)))) m (record_of e) s.
Proof.
  intros (Hn & Ht & Hd) Hs Httl Hr. destruct e as [n t d]. cbn [e_name e_ttl e_data] in *. unfold parseRR.
  eapply some_bind; [by apply gives_put_flag|]. intros m1 Hr1 S1 F1.
  eapply some_bind; [by apply gives_get|]. intros m2 Hr2 S2 F2.
  set (cls := match lastRR m1 with Some l => rrClass l | None => 1 end).
  eapply (some_bind _ _ _ (rr_Class (rr_TTL (rr_Name zeroRR n) (m_ttl m1)) cls) _ (flag m2)).
  { eapply gives_bind.
    - apply (gives_generate _ _ n); [exact Hr2|exact Hn| |].
      + apply lower_of_upper. by apply ToLower_dot.
      + pose proof (head_dot n Hn) as Hh. destruct (dot n) as [|c x]; [done|]. cbn in *. intros [= H64]. apply Hh. f_equal.
        destruct (decide (c = 64)) as [->|Hc]; [done|]. by apply upper_not_at in Hc.
    - intros m3 Hr3 S3 F3. rewrite <- F3. by apply gives_ret. }
  intros m3 Hr3 S3 F3.
  assert (H4 : exists k, rounds m1 = S (S (S (S k)))).
  { pose proof (rounds_reads _ _ Hr1) as Hf. rewrite words_cons in Hf by done. rewrite words_cons in Hf by done.
    repeat (progress rewrite ?length_app, ?length_cons in Hf). exists (rounds m1 - 4)%nat. lia. }
  destruct H4 as [k ->].
  eapply rr_loop_TTL; [exact Ht|by rewrite F3, F2, F1|exact Hr3|]. intros m4 Hr4 S4 F4.
  eapply rr_loop_IN; [exact F4|exact Hr4|]. intros m5 Hr5 S5 F5.
  eapply rr_loop_type; [exact Hd|exact F5|exact Hr5|]. intros m6 Hr6 S6 F6.
  rewrite words_after in Hr6 by apply tokens_ne.
  apply (rr_loop_data k (mkRR n (type_of d) 1 t 0 [] None None None None None None None None 0 0)); try done.
  repeat (eapply ttl_same; [eassumption|]). done.
Qed.

(** ** The file *)

Lemma line_start_zone es : Forall entry_ok es -> line_start (zone_text es).
Proof.
  destruct 1 as [|e es [He _] _]; [by left|]. right.
  exists (dot (e_name e)), (32 :: words (dec (e_ttl e) :: str "IN" :: type_name (type_of (e_data e)) :: tokens (e_data e)) ++ zone_text es).
  split; [by apply word_dot|]. unfold zone_text. cbn [fmap list_fmap concat]. unfold line.
  by rewrite words_cons, <- (assoc_L (++)) by done.
Qed.

Lemma upper_dot_not d k : domain d -> last k ≠ Some 46 -> bool_decide (ToUpper (dot d) = k) = false.
Proof.
  intros _ Hk. apply bool_decide_false. intros <-. apply Hk. unfold dot.
  assert (Happ : forall a b, ToUpper (a ++ b) = ToUpper a ++ ToUpper b) by (induction a as [|c a IH]; intros b; cbn; [done|by rewrite IH]).
  rewrite Happ. apply last_snoc.
Qed.

Context (load : list Z -> list Z -> Z -> outcome zone_error (list Message)).

Lemma zone_loop_line fuel r e s m : entry_ok e -> line_start s -> m_ttl m ≠ 0 -> reads m (line e ++ s) ->
  exists m', zone_loop load (S fuel) r m = zone_loop load fuel (Some (record_of e)) m' /\ reads m' s /\ m_ttl m' = m_ttl m /\
    msgs m' = push_msgs (msgs m) (record_of e).
Proof.
  intros He Hs Httl Hr. pose proof He as (Hn & _ & _). cbn [zone_loop].
  assert (Hw : word (dot (e_name e))) by (by apply word_dot).
  unfold line in Hr. rewrite after_tokens in Hr.
  destruct (gives_hspace _ _ _ Hw Hr) as (m1 & H1 & Hr1 & S1 & F1). rewrite (bindM _ _ _ _ _ H1).
  pose proof (word_not_end _ Hw) as Hend. apply orb_false_iff in Hend as [Hend0 Hend59]. rewrite Hend0, Hend59.
  assert (H10 : (default 0 (head (dot (e_name e))) =? 10) = false).
  { destruct Hw as [Hw _]. destruct (dot (e_name e)) as [|c w]; [done|]. apply Forall_inv in Hw. cbn beta in Hw.
    rewrite !not_elem_of_cons in Hw. cbn. rewrite Z.eqb_neq. tauto. }
  rewrite H10. cbn [orb].
  destruct (gives_until m1 _ _ _ (proj1 Hw) (sep_of_in _) Hr1) as (m2 & H2 & Hr2 & S2 & F2). rewrite (bindM _ _ _ _ _ H2).
  change (sep_of _ =? 10) with false. rewrite fail_false. cbv zeta. rewrite (bindM get_m _ m2 m2 m2) by done.
  rewrite !upper_dot_not by done. rewrite bool_decide_true by done.
  assert (Httl2 : m_ttl m2 ≠ 0) by (by eapply ttl_same; [exact S2|]; eapply ttl_same; [exact S1|]).
  destruct (gives_RR e m2 s He Hs Httl2 Hr2) as (f & m3 & H3 & Hr3 & S3 & F3).
  assert (Hsame : same m m3) by (eapply same_trans; [exact S1|]; by eapply same_trans).
  destruct Hsame as (E1 & E2 & E3 & E4). eexists. split.
  - rewrite (bindM _ _ m2 (Some (record_of e)) m3) by (rewrite (bindM _ _ _ _ _ H3); done).
    reflexivity.
  - split; [destruct Hr3 as [pre Hr3]; by exists pre|]. cbn. split; [done|]. by rewrite E1.
Qed.

Lemma zone_loop_lines es : forall fuel r m, Forall entry_ok es -> m_ttl m ≠ 0 -> reads m (zone_text es) -> (length es < fuel)%nat ->
  exists m', zone_loop load fuel r m = Ok (tt, m') /\ m_ttl m' = m_ttl m /\
    msgs m' = fold_left push_msgs (record_of <$> es) (msgs m).
Proof.
  induction es as [|e es IH]; intros fuel r m Hok Httl Hr Hf; (destruct fuel as [|fuel]; [cbn in Hf; lia|]).
  - destruct (reads_at _ _ Hr) as [pre ->]. cbn [zone_loop zone_text fmap list_fmap concat].
    rewrite (bindM _ _ _ _ _ (skip_hspace_eof _ _ _ _ _ _)). by eexists.
  - apply Forall_cons in Hok as [He Hok].
    destruct (zone_loop_line fuel r e (zone_text es) m He (line_start_zone es Hok) Httl Hr) as (m1 & -> & Hr1 & Ht1 & Hm1).
    destruct (IH fuel (Some (record_of e)) m1 Hok) as (m2 & -> & Ht2 & Hm2); [by rewrite Ht1|done|cbn in Hf; lia|].
    exists m2. split; [done|]. rewrite Ht2, Hm2, Hm1. done.
Qed.

(** ** Messages *)

(** The records by name, type and class, in the order of their first record. *)
Definition rr_key (rr : ResourceRecord) : list Z * Z * Z := (rrName rr, rrType rr, rrClass rr).
Definition firsts (ks : list (list Z * Z * Z)) : list (list Z * Z * Z) :=
  fold_left (fun acc k => if decide (k ∈ acc) then acc else acc ++ [k]) ks [].
Definition message_for (rrs : list ResourceRecord) (k : list Z * Z * Z) : Message :=
  mkMessage (mkHeader 0 false 0 true false false false 0 1 0 0 0) (mkQuestion k.1.1 k.1.2 k.2) (filter (fun rr => rr_key rr = k) rrs) [] [] [].
Definition grouped (rrs : list ResourceRecord) : list Message := message_for rrs <$> firsts (rr_key <$> rrs).

Lemma firsts_snoc ks k : firsts (ks ++ [k]) = if decide (k ∈ firsts ks) then firsts ks else firsts ks ++ [k].
Proof. unfold firsts. by rewrite fold_left_app. Qed.

Lemma elem_firsts ks k : k ∈ firsts ks <-> k ∈ ks.
Proof.
  induction ks as [|k' ks IH] using rev_ind; [done|]. rewrite firsts_snoc.
  destruct (decide (k' ∈ firsts ks)) as [Hin|Hin]; rewrite ?elem_of_app, ?list_elem_of_singleton, IH; [|done].
  split; [auto|]. intros [?| ->]; [done|]. by apply IH.
Qed.

Lemma NoDup_firsts ks : NoDup (firsts ks).
Proof.
  induction ks as [|k ks IH] using rev_ind; [constructor|]. rewrite firsts_snoc. destruct (decide _) as [|Hn]; [done|].
  apply NoDup_app. split; [done|]. split; [|apply NoDup_singleton]. intros x Hx. rewrite list_elem_of_singleton. by intros ->.
Qed.

Lemma same_question_key rrs k rr : same_question (message_for rrs k) rr = bool_decide (rr_key rr = k).
Proof.
  destruct k as [[n t] c]. unfold same_question, rr_key, message_for. cbn.
  apply eq_true_iff_eq. rewrite !andb_true_iff, !Z.eqb_eq, !bool_decide_eq_true. split; [intros [[-> ->] ->]; done|]. by intros [= -> -> ->].
Qed.

Lemma push_grouped rrs rr ks : NoDup ks ->
  push_msgs (message_for rrs <$> ks) rr =
    (message_for (rrs ++ [rr]) <$> ks) ++ (if decide (rr_key rr ∈ ks) then [] else [mkMessage (mkHeader 0 false 0 true false false false 0 1 0 0 0)
       (mkQuestion (rrName rr) (rrType rr) (rrClass rr)) [rr] [] [] []]).
Proof.
  assert (Hother : forall k, rr_key rr ≠ k -> message_for (rrs ++ [rr]) k = message_for rrs k).
  { intros k Hk. unfold message_for. rewrite filter_app, filter_cons_False by done. by rewrite app_nil_r. }
  induction 1 as [|k ks Hk Hnd IH]; [done|]. rewrite !fmap_cons. cbn [push_msgs]. rewrite same_question_key.
  destruct (decide (rr_key rr = k)) as [He|Hne].
  - rewrite bool_decide_true, decide_True by (done || rewrite He; by left). rewrite app_nil_r. f_equal.
    + unfold message_for, set_sections. cbn. rewrite filter_app. f_equal. f_equal. by rewrite filter_cons_True.
    + apply list_fmap_ext. intros i k' Hk'. symmetry. apply Hother. intros Heq. apply Hk. rewrite <- He, Heq. by eapply list_elem_of_lookup_2.
  - rewrite bool_decide_false by done. rewrite IH. cbn [app]. rewrite Hother by done. f_equal. f_equal.
    destruct (decide (rr_key rr ∈ ks)) as [Hin|Hn]; [rewrite decide_True by (by right); done|].
    rewrite decide_False; [done|]. by intros [?|?]%elem_of_cons.
Qed.

Lemma fold_push_grouped rrs : fold_left push_msgs rrs [] = grouped rrs.
Proof.
  induction rrs as [|rr rrs IH] using rev_ind; [done|]. rewrite fold_left_app. cbn. rewrite IH. unfold grouped.
  rewrite push_grouped by apply NoDup_firsts. rewrite fmap_app. cbn [fmap list_fmap]. rewrite firsts_snoc.
  destruct (decide (rr_key rr ∈ _)) as [|Hn]; [by rewrite app_nil_r|]. rewrite fmap_app. f_equal. cbn [fmap list_fmap]. f_equal.
  unfold message_for. cbn. f_equal. rewrite filter_app, filter_cons_True by done.
  destruct (filter (fun r => rr_key r = rr_key rr) rrs) as [|r l] eqn:El; [done|].
  assert (Hr : r ∈ filter (fun r => rr_key r = rr_key rr) rrs) by (rewrite El; by left).
  apply list_elem_of_filter in Hr as [He Hr]. exfalso. apply Hn, elem_firsts. rewrite <- He. by apply list_elem_of_fmap_2.
Qed.

Lemma length_zone_text es : (length es <= length (zone_text es))%nat.
Proof.
  induction es as [|e es IH]; [done|]. unfold zone_text in *. cbn [fmap list_fmap concat]. rewrite length_app. cbn [length].
  set (n := length (concat _)) in *. unfold line. rewrite words_cons by done. repeat (progress rewrite ?length_app, ?length_cons). lia.
Qed.

Lemma zone_pack_ok l : Forall message_ok l -> exists l', zone_pack l = Ok l' /\ Forall2 (fun m m' => Pack m = Ok m') l l'.
Proof.
  induction 1 as [|m l Hm _ (l' & IH & Hl)]; [by exists []|]. destruct (Pack_good m (set_sections NewMessage [] [] [])) as (m1 & m2 & Hp & _); [done| |].
  { repeat split. }
  exists (m1 :: l'). cbn [zone_pack]. rewrite Hp, IH. split; [done|]. by constructor.
Qed.

End Steps.

(** C31: a zone file of the lines that [line] writes is loaded as the messages of its
    records. A line has an absolute owner name, a TTL in decimal of 32 bits, the class
    IN, the type and the data, with one blank between two tokens; names are in lower
    case, and absolute in the data of NS, CNAME, MB, MG, MR, PTR, SOA and MX; the
    numbers of an SOA stand between parentheses that are tokens; and a TXT has one
    string, of two words. For each name, type and class, in the order of their first
    record, there is one authoritative message with the records of that name, type and
    class in their order, with their data, and with TTLs not below the given one, which
    is not 0; if all these messages can be packed by [message_ok], each is. Other lines
    that a zone file can have are refused or misread: see [single_line_SOA],
    [text_lines] and [unit_TTL_ignored]. *)
Theorem zone_loads `{Float64, Unicode} files fuel file origin ttl es :
  files file = Some (zone_text es) -> ttl ≠ 0 -> Forall entry_ok es ->
  let ms := setMinimumTTL ttl (grouped (record_of <$> es)) in
  MasterLoad files (S fuel) file origin ttl = zone_pack ms /\
  (Forall message_ok ms -> exists l, MasterLoad files (S fuel) file origin ttl = Ok l /\ Forall2 (fun m m' => Pack m = Ok m') ms l).
Proof.
  intros Hfile Httl Hok ms.
  assert (Hload : MasterLoad files (S fuel) file origin ttl = zone_pack ms).
  { cbn [MasterLoad]. rewrite Hfile. set (load := MasterLoad files fuel).
    set (m := zone_Init (zone_text es) (if isnil origin then Base file else origin) ttl). unfold zone_parse.
    rewrite (bindM get_m _ m m m) by done.
    destruct (zone_loop_lines load es (rounds m) None m Hok) as (m1 & H1 & Ht1 & Hm1); [done|by exists []| |].
    { pose proof (length_zone_text es). unfold rounds. cbn. lia. }
    rewrite (bindM _ _ _ _ _ H1). rewrite (bindM get_m _ m1 m1 m1) by done. cbv zeta.
    rewrite Ht1. change (m_ttl m) with ttl. rewrite (proj2 (Z.eqb_neq ttl 0)) by done.
    unfold mbind, M_bind. cbn [put_ttl]. rewrite Hm1. change (msgs m) with (@nil Message). rewrite fold_push_grouped. fold ms.
    unfold lift. by destruct (zone_pack ms). }
  split; [done|]. intros Hms. destruct (zone_pack_ok ms Hms) as (l & Hl & Hall). exists l. by rewrite Hload.
Qed.

(** A zone with a SOA, two addresses of a host, a mail exchange and a text. *)
Definition demo_zone : list entry :=
  [Entry (str "kilabit.info") 3600 (ZSOA (mkSOA (str "ns.kilabit.info") (str "admin.kilabit.info") 7 60 (-5) 80 90));
   Entry (str "www.kilabit.info") 60 (ZText QueryTypeA (str "10.0.0.7"));
   Entry (str "kilabit.info") 3600 (ZMX (mkMX 10 (str "mail.kilabit.info")));
   Entry (str "www.kilabit.info") 9000 (ZText QueryTypeA (str "10.0.0.8"));
   Entry (str "kilabit.info") 3600 (ZTXT (str "v=spf1") (str "-all"))].
Definition no_floats : Float64 :=
  {| float := unit; float_zero := tt; ParseFloat := fun _ => None; std_ParseDuration := fun _ => None;
     scale := fun _ _ => tt; plus := fun _ _ => tt; of_duration := fun _ => tt; duration := fun _ => 0; seconds := fun _ => 0 |}.

Lemma zone_loads_witness :
  let F := no_floats in let U := ascii_tables in
  let files := fun f => if bool_decide (f = str "kilabit.info") then Some (zone_text demo_zone) else None in
  let ms := setMinimumTTL 300 (grouped (record_of <$> demo_zone)) in
  (MasterLoad files 1 (str "kilabit.info") [] 300 = zone_pack ms /\
   (Forall message_ok ms -> exists l, MasterLoad files 1 (str "kilabit.info") [] 300 = Ok l /\ Forall2 (fun m m' => Pack m = Ok m') ms l))
  /\ ((fun m => (qName (Question m), TTL <$> Answer m)) <$> ms) =
     [(str "kilabit.info", [3600]); (str "www.kilabit.info", [300; 9000]); (str "kilabit.info", [3600]); (str "kilabit.info", [3600])].
Proof.
  intros F U files ms. split; [|vm_compute; reflexivity].
  apply (zone_loads files 0); [reflexivity|done|].
  assert (Hd : forall d, bool_decide (Forall (fun b => (b ∉ [59; 10; 32; 9])) d) && bool_decide (ToLower d = d)
     && bool_decide (head d ≠ Some 64) && bool_decide (last d ≠ Some 46)
     && match d with c :: _ => bool_decide (c ≠ 13) && bool_decide (c ≠ 0) | [] => false end = true -> domain d).
  { intros d. rewrite !andb_true_iff, !bool_decide_eq_true. intros ((((H1 & H2) & H3) & H4) & H5). repeat split; try done.
    destruct d; [done|]. by rewrite andb_true_iff, !bool_decide_eq_true in H5. }
  assert (Hu : forall n, bool_decide (is_u32 n) = true -> is_u32 n) by (intros n; apply bool_decide_eq_true).
  repeat (constructor; [split; [apply Hd; vm_compute; reflexivity|split; [apply Hu; vm_compute; reflexivity|]]|]); [| | | | |constructor].
  - cbn. split; [apply Hd; vm_compute; reflexivity|]. split; [apply Hd; vm_compute; reflexivity|]. unfold is_u32, is_s32. lia.
  - split; [by left|]. split; [by apply (bool_decide_unpack _)|done].
  - split; [unfold is_s16; cbn; lia|apply Hd; vm_compute; reflexivity].
  - split; [by left|]. split; [by apply (bool_decide_unpack _)|done].
  - split; by apply (bool_decide_unpack _).
Defined.

(** ** Zone files that are not loaded as they are written *)

(** The TTLs and the texts of the answers of a file of some lines, at the origin
    [example.com], with a minimum of 300 seconds. *)
Definition load_lines (ls : list (list Z)) : outcome zone_error (list (list Z * Z * list (Z * option (list Z)))) :=
  let F := no_floats in
  let U := ascii_tables in
  match MasterLoad (fun _ => Some (concat ((fun l => l ++ [10]) <$> ls))) 1 (str "zone") (str "example.com") 300 with
  | Ok l => Ok ((fun m => (qName (Question m), qType (Question m), (fun rr => (TTL rr, Text rr)) <$> Answer m)) <$> l)
  | Err e => Err e
  | Panic => Panic
  | NoFuel => NoFuel
  end.

(** A directive after a record adds the record once more. *)
Lemma directive_repeats_record :
  load_lines [str "a A 10.0.0.1"; str "$ORIGIN example.org"; str "b A 10.0.0.2"] =
  Ok [(str "a.example.com", QueryTypeA, [(300, Some (str "10.0.0.1")); (300, Some (str "10.0.0.1"))]);
      (str "b.example.org", QueryTypeA, [(300, Some (str "10.0.0.2"))])].
Proof. vm_compute. reflexivity. Qed.

(** The line after a [$TTL] is lost. *)
Lemma ttl_directive_swallows_line :
  load_lines [str "$TTL 600"; str "a A 10.0.0.1"; str "b A 10.0.0.2"] =
  Ok [(str "b.example.com", QueryTypeA, [(600, Some (str "10.0.0.2"))])].
Proof. vm_compute. reflexivity. Qed.

(** A TTL of a record with a unit counts as none. *)
Lemma unit_TTL_ignored :
  load_lines [str "a 1d IN A 10.0.0.1"; str "b 86400 IN A 10.0.0.2"] =
  Ok [(str "a.example.com", QueryTypeA, [(300, Some (str "10.0.0.1"))]);
      (str "b.example.com", QueryTypeA, [(86400, Some (str "10.0.0.2"))])].
Proof. vm_compute. reflexivity. Qed.

(** A SOA on one line is refused; with a TTL and a class, and without its last two
    numbers, it is taken, and the second number is the time of expiry. *)
Lemma single_line_SOA :
  load_lines [str "@ SOA ns.x. admin.x. 1 2 3 4 5"] = Err ErrInvalidRR /\
  load_lines [str "@ 60 IN SOA ns.x. admin.x. 1 2 3 4 5"] = Err ErrInvalidRR /\
  (let F := no_floats in let U := ascii_tables in
   match MasterLoad (fun _ => Some (str "@ 60 IN SOA ns.x. admin.x. 1 2 3")) 1 (str "zone") (str "x") 300 with
   | Ok [m] => SOA <$> Answer m = [Some (mkSOA (str "ns.x") (str "admin.x") 1 0 0 2 3)]
   | _ => False
   end).
Proof. split_and!; vm_compute; reflexivity. Qed.

(** A text without a blank takes the next line with it, a comment before its first
    blank ends it, and a lone quotation mark panics. *)
Lemma text_lines :
  load_lines [str "a TXT " ++ [34] ++ str "x" ++ [34]; str "b A 10.0.0.1"] = Err ErrQuote /\
  load_lines [str "a TXT " ++ [34] ++ str "x;y z" ++ [34]] = Ok [(str "a.example.com", QueryTypeTXT, [(300, Some (str "xy z"))])] /\
  load_lines [str "a TXT " ++ [34; 32]] = Panic.
Proof. split_and!; vm_compute; reflexivity. Qed.

(** A record of type WKS, whose data is not parsed, panics in [pack]. *)
Lemma wks_line_panics : load_lines [str "a WKS x"] = Panic.
Proof. vm_compute. reflexivity. Qed.

(** A comment after the last number of a SOA in parentheses is refused; one after
    the others is not. *)
Lemma soa_comment_refused :
  load_lines [str "@ SOA ns.x. admin.x. ( 1 ; serial"; str "2 3 4 5 ; minimum"; str ")"] = Err ErrParentheses /\
  load_lines [str "@ SOA ns.x. admin.x. ( 1 ; serial"; str "2 3 4 5 )"] = Ok [(str "example.com", QueryTypeSOA, [(300, None)])].
Proof. split_and!; vm_compute; reflexivity. Qed.
