(* ===== verification/DnsHosts.v ===== *)
(** Package [lib/dns], file [hosts.go]: the loader of hosts files, with
    [IsHostnameValid] of [lib/net/is.go], and what it loads.

    The host name of a message is a part of the buffer of the reader that is
    changed to lower case in place, behind the reader; it is a value here. *)

From Stdlib Require Import ZArith Lia.
From S2P Require Import Prelude Ascii IoReader NetIP DnsHeader DnsMessage DnsRoundtrip.

Local Open Scope Z_scope.

(** ** [IsHostnameValid] *)

Definition inner_byte (c : Z) : bool := (c =? 46) || (c =? 45) || (c =? 95) || IsAlnum c.
Definition IsHostnameValid (hname : list Z) (isFQDN : bool) : bool :=
  match hname, last hname with
  | c :: rest, Some l =>
      if negb (IsAlnum c) && negb (c =? 95) then false
      else if negb (IsAlnum l) then false
      else if negb (forallb inner_byte (removelast rest)) then false
      else negb (isFQDN && negb (existsb (fun c => c =? 46) (removelast rest)))
  | _, _ => false
  end.

(** ** [hosts.go] *)

Definition defaultTTL : Z := 604800.

(** [newMessage]; none when the name or the address is not valid, or [Pack] fails. *)
Definition host_message (qtype : Z) (addr hname : list Z) : Message :=
  mkMessage (mkHeader 0 false 0 true false false false 0 1 1 0 0) (mkQuestion (ToLower hname) qtype QueryClassIN)
    [mkRR (ToLower hname) qtype QueryClassIN defaultTTL 0 [] (Some addr) None None None None None None None 0 0] [] [] [].
Definition address_type (addr : list Z) : Z := if existsb (fun c => c =? 58) addr then QueryTypeAAAA else QueryTypeA.
Definition newMessage (addr hname : list Z) : outcome unit (option Message) :=
  if negb (IsHostnameValid hname false) then Ok None
  else
    match ParseIP addr with
    | None => Ok None
    | Some _ =>
        match Pack (host_message (address_type addr) addr hname) with
        | Ok m => Ok (Some m)
        | Err _ => Ok None
        | Panic => Panic
        | NoFuel => NoFuel
        end
    end.

Definition hosts_seps : list Z := [9; 11; 32].
Definition hosts_terms : list Z := [10; 12; 35].

(** The loop over the names of an address. *)
Fixpoint names_loop (fuel : nat) (addr : list Z) (msgs : list Message) (r : Reader) : outcome unit (list Message * Reader) :=
  match fuel with
  | O => NoFuel
  | S fuel =>
      let '(c, r) := SkipSpaces r in
      if c =? 0 then Ok (msgs, r)
      else if c =? 35 then Ok (msgs, SkipLine r)
      else
        '(hname, isTerm, c, r) ← ReadUntil r hosts_seps hosts_terms;
        msg ← (match hname with [] => Ok None | _ => newMessage addr hname end);
        let msgs := match msg with Some msg => msgs ++ [msg] | None => msgs end in
        if (isTerm : bool) then
          if c =? 0 then Ok (msgs, r)
          else Ok (msgs, if c =? 35 then SkipLine r else r)
        else names_loop fuel addr msgs r
  end.

Fixpoint hosts_loop (fuel : nat) (msgs : list Message) (r : Reader) : outcome unit (list Message) :=
  match fuel with
  | O => NoFuel
  | S fuel =>
      let '(c, r) := SkipSpaces r in
      if c =? 0 then Ok msgs
      else if c =? 35 then hosts_loop fuel msgs (SkipLine r)
      else
        '(addr, isTerm, c, r) ← ReadUntil r hosts_seps hosts_terms;
        if (isTerm : bool) then
          if c =? 0 then Ok msgs
          else hosts_loop fuel msgs (if c =? 35 then SkipLine r else r)
        else
          '(msgs, r) ← names_loop (S (length (V r))) addr msgs r;
          hosts_loop fuel msgs r
  end.

(** [parse], on the content of a file: every round of the loops reads a byte, or
    finds the end. *)
Definition hosts_parse (r : Reader) : outcome unit (list Message) := hosts_loop (S (length (V r))) [] r.
Definition HostsLoad (files : list Z -> option (list Z)) (path : list Z) : option (outcome unit (list Message)) :=
  let path := match path with [] => str "/etc/hosts" | _ => path end in
  (fun data => hosts_parse (Init data)) <$> files path.

(** ** What is loaded *)

Lemma SkipSpaces_space pre c s : IsSpace c = true -> SkipSpaces (mid pre (c :: s)) = SkipSpaces (mid (pre ++ [c]) s).
Proof.
  intros Hc. unfold SkipSpaces. rewrite !unread_mid. cbn [scan]. rewrite Hc. cbn [negb lookup list_lookup].
  f_equal. unfold at_X, mid. cbn [X V]. f_equal; [rewrite length_app; cbn; lia|by rewrite <- (assoc_L (++))].
Qed.

(** The lines of a hosts file.  A gap is a run of blanks and tabs; a line can be
    indented by one, has a gap before each name, and can have one before a comment. *)
Definition gap (g : list Z) : Prop := Forall (fun c => c = 32 \/ c = 9) g.
Inductive hline : Type :=
| Host (indent addr gap0 name : list Z) (names : list (list Z * list Z)) (comment : option (list Z * list Z))
| Comment (indent t : list Z)
| Blank (indent : list Z).

Lemma SkipSpaces_gap g s : gap g -> forall pre, SkipSpaces (mid pre (g ++ s)) = SkipSpaces (mid (pre ++ g) s).
Proof.
  induction 1 as [|c g Hc _ IH]; intros pre; [by rewrite app_nil_r|]. cbn [app]. rewrite SkipSpaces_space by (by destruct Hc as [-> | ->]).
  by rewrite IH, <- (assoc_L (++)).
Qed.

Definition plain (w : list Z) : Prop := w ≠ [] /\ Forall (fun b => IsSpace b = false /\ b ≠ 35 /\ b ≠ 0) w.
Definition hline_ok (l : hline) : Prop :=
  match l with
  | Host i a g n ns c => gap i /\ plain a /\ gap g /\ g ≠ [] /\ plain n /\ Forall (fun gn => gap gn.1 /\ gn.1 ≠ [] /\ plain gn.2) ns /\
      match c with Some (g, t) => gap g /\ 10 ∉ t | None => True end
  | Comment i t => gap i /\ 10 ∉ t
  | Blank i => gap i
  end.

#[export] Instance plain_dec w : Decision (plain w).
Proof. unfold plain. apply _. Defined.
#[export] Instance gap_dec g : Decision (gap g).
Proof. unfold gap. apply _. Defined.
#[export] Instance hline_ok_dec l : Decision (hline_ok l).
Proof. destruct l as [? ? ? ? ? [[? ?]|]| |]; cbn; apply _. Defined.

Definition line_end (c : option (list Z * list Z)) : list Z := match c with None => [10] | Some (g, t) => g ++ 35 :: t ++ [10] end.
Fixpoint names_text (n : list Z) (ns : list (list Z * list Z)) (c : option (list Z * list Z)) : list Z :=
  match ns with [] => n ++ line_end c | (g, n') :: ns => n ++ g ++ names_text n' ns c end.
Definition hline_text (l : hline) : list Z :=
  match l with
  | Host i a g n ns c => i ++ a ++ g ++ names_text n ns c
  | Comment i t => i ++ 35 :: t ++ [10]
  | Blank i => i ++ [10]
  end.

(** The addresses and names, and the messages of them. *)
Definition pairs_of (l : hline) : list (list Z * list Z) :=
  match l with Host _ a _ n ns _ => (fun n => (a, n)) <$> n :: ns.*2 | _ => [] end.
Definition add_message (msgs : list Message) (m : option Message) : list Message :=
  match m with Some m => msgs ++ [m] | None => msgs end.
Fixpoint load_pairs (l : list (list Z * list Z)) (msgs : list Message) : outcome unit (list Message) :=
  match l with
  | [] => Ok msgs
  | (a, n) :: l => m ← newMessage a n; load_pairs l (add_message msgs m)
  end.

Lemma load_pairs_app l1 l2 msgs : load_pairs (l1 ++ l2) msgs = (ms ← load_pairs l1 msgs; load_pairs l2 ms).
Proof.
  revert msgs. induction l1 as [|[a n] l1 IH]; intros msgs; [done|]. cbn [app load_pairs].
  destruct (newMessage a n) as [m| | |]; cbn [mbind outcome_bind]; done || apply IH.
Qed.

Lemma plain_head w : plain w -> exists c s, w = c :: s /\ IsSpace c = false /\ (c =? 0) = false /\ (c =? 35) = false.
Proof.
  intros [Hne Hw]. destruct w as [|c s]; [done|]. apply Forall_inv in Hw as (Hs & H35 & H0).
  exists c, s. by rewrite !(proj2 (Z.eqb_neq _ _)).
Qed.

Lemma plain_name a w : plain w -> match w with [] => Ok None | _ => newMessage a w end = newMessage a w.
Proof. intros [Hne _]. by destruct w. Qed.

Lemma plain_read {E} pre w c s : plain w -> c = 32 \/ c = 9 \/ c = 10 \/ c = 35 ->
  ReadUntil (E := E) (mid pre (w ++ c :: s)) hosts_seps hosts_terms = Ok (w, (c =? 10) || (c =? 35), c, mid (pre ++ w ++ [c]) s).
Proof.
  intros [_ Hw] Hc. rewrite ReadUntil_found.
  - by destruct Hc as [-> |[-> |[-> | ->]]].
  - eapply Forall_impl; [exact Hw|]. intros b (Hs & H35 & _). unfold IsSpace in Hs.
    rewrite !orb_false_iff, !Z.eqb_neq in Hs. unfold hosts_terms, hosts_seps. rewrite !not_elem_of_cons.
    repeat split; try tauto; apply not_elem_of_nil.
  - destruct Hc as [-> |[-> |[-> | ->]]]; [right|right|left|left]; by apply (bool_decide_unpack _).
Qed.

(** A token behind a gap is found. *)
Lemma skip_to_plain pre g w s : gap g -> plain w -> exists b, SkipSpaces (mid pre (g ++ w ++ s)) = (b, mid (pre ++ g) (w ++ s)) /\ (b =? 0) = false /\ (b =? 35) = false.
Proof.
  intros Hg Hw. destruct (plain_head w Hw) as (b & t & -> & Hb & Hb0 & Hb35). exists b. rewrite SkipSpaces_gap by done. cbn [app].
  by rewrite SkipSpaces_mid_stop.
Qed.
Lemma gap_first g : gap g -> g ≠ [] -> exists c g', g = c :: g' /\ (c = 32 \/ c = 9) /\ gap g'.
Proof. intros Hg Hne. destruct g as [|c g]; [done|]. apply Forall_cons in Hg as [Hc Hg]. by exists c, g. Qed.

Lemma names_loop_lines a c s : match c with Some (g, t) => gap g /\ 10 ∉ t | None => True end -> forall ns g n fuel pre msgs,
  gap g -> plain n -> Forall (fun gn => gap gn.1 /\ gn.1 ≠ [] /\ plain gn.2) ns -> (length (names_text n ns c) <= fuel)%nat ->
  exists pre', names_loop fuel a msgs (mid pre (g ++ names_text n ns c ++ s)) =
    (ms ← load_pairs ((fun n => (a, n)) <$> n :: ns.*2) msgs; Ok (ms, mid pre' s)).
Proof.
  intros Hc. induction ns as [|[g' n'] ns IH]; intros g n fuel pre msgs Hg Hn Hns Hf; cbn [names_text] in *; pose proof Hn as [Hn0 _];
    rewrite length_app in Hf; (destruct fuel as [|fuel]; [destruct n; [done|cbn in Hf; lia]|]); rewrite <- (assoc_L (++)); cbn [names_loop fmap list_fmap load_pairs].
  - destruct (skip_to_plain pre g n (line_end c ++ s) Hg Hn) as (b & -> & -> & ->).
    destruct c as [[gc t]|]; cbn [line_end app]; [|rewrite plain_read by auto; cbn [mbind outcome_bind Z.eqb Pos.eqb orb]].
    + destruct Hc as [Hgc Ht]. rewrite <- !(assoc_L (++)). cbn [app]. rewrite <- (assoc_L (++)). cbn [app]. destruct gc as [|c gc]; cbn [app].
      * rewrite plain_read by auto. cbn [mbind outcome_bind Z.eqb Pos.eqb orb]. rewrite plain_name by done. eexists.
        destruct (newMessage a n) as [m| | |]; cbn [mbind outcome_bind]; [|done..]. by rewrite SkipLine_mid by done.
      * destruct fuel as [|fuel]; [destruct n; [done|cbn in Hf; lia]|]. apply Forall_cons in Hgc as [Hc Hgc].
        rewrite plain_read by tauto. cbn [mbind outcome_bind]. rewrite plain_name by done. eexists.
        assert (((c =? 10) || (c =? 35)) = false) as -> by (by destruct Hc as [-> | ->]).
        destruct (newMessage a n) as [m| | |]; cbn [mbind outcome_bind]; [|done..]. cbn [names_loop].
        rewrite SkipSpaces_gap, SkipSpaces_mid_stop by done. cbn [Z.eqb Pos.eqb].
        rewrite app_comm_cons, (SkipLine_mid _ (35 :: t)) by (by apply not_elem_of_cons). done.
    + eexists. rewrite plain_name by done. by destruct (newMessage a n) as [m| | |].
  - apply Forall_cons in Hns as [(Hg' & Hne & Hn') Hns]. cbn [fst snd] in *. destruct (gap_first g' Hg' Hne) as (d & g1 & -> & Hd & Hg1).
    destruct (skip_to_plain pre g n (((d :: g1) ++ names_text n' ns c) ++ s) Hg Hn) as (b & -> & -> & ->).
    cbn [app]. rewrite plain_read by tauto. cbn [mbind outcome_bind]. assert (((d =? 10) || (d =? 35)) = false) as -> by (by destruct Hd as [-> | ->]).
    rewrite plain_name by done. destruct (newMessage a n) as [m| | |]; cbn [mbind outcome_bind]; [|by exists pre..].
    destruct (IH g1 n' fuel ((pre ++ g) ++ n ++ [d]) (add_message msgs m)) as [pre' IH']; [done..|destruct n; [done|]; cbn in Hf; rewrite length_app in Hf; lia|].
    rewrite <- (assoc_L (++) g1). exists pre'. exact IH'.
Qed.

Lemma hosts_loop_indent i s : gap i -> forall fuel pre msgs, exists pre', hosts_loop fuel msgs (mid pre (i ++ s)) = hosts_loop fuel msgs (mid pre' s).
Proof. intros Hi fuel pre msgs. exists (pre ++ i). destruct fuel as [|fuel]; [done|]. cbn [hosts_loop]. by rewrite SkipSpaces_gap. Qed.

Lemma hosts_loop_lines ls : Forall hline_ok ls -> forall fuel pre msgs, (length (concat (hline_text <$> ls)) < fuel)%nat ->
  hosts_loop fuel msgs (mid pre (concat (hline_text <$> ls))) = load_pairs (ls ≫= pairs_of) msgs.
Proof.
  induction 1 as [|l ls Hl Hls IH]; intros fuel pre msgs Hf; (destruct fuel as [|fuel]; [lia|]); cbn [fmap list_fmap concat mbind list_bind] in *.
  - cbn [hosts_loop]. by rewrite SkipSpaces_mid_end.
  - rewrite length_app in Hf. set (s := concat (hline_text <$> ls)) in *. destruct l as [i a g n ns c|i t|i]; cbn [hline_text pairs_of] in *.
    + destruct Hl as (Hi & Ha & Hg & Hne & Hn & Hns & Hc). rewrite load_pairs_app, <- (assoc_L (++)).
      destruct (hosts_loop_indent i ((a ++ g ++ names_text n ns c) ++ s) Hi (S fuel) pre msgs) as [pre0 ->]. clear pre.
      destruct (gap_first g Hg Hne) as (d & g1 & -> & Hd & Hg1). rewrite <- (assoc_L (++)). cbn [hosts_loop].
      destruct (skip_to_plain pre0 [] a (((d :: g1) ++ names_text n ns c) ++ s) (Forall_nil_2 _) Ha) as (b & Hsp & Hb0 & Hb35).
      cbn [app] in Hsp |- *. rewrite Hsp, Hb0, Hb35, plain_read by tauto. cbn [mbind outcome_bind].
      assert (((d =? 10) || (d =? 35)) = false) as -> by (by destruct Hd as [-> | ->]). rewrite <- (assoc_L (++) g1).
      match goal with |- context [names_loop ?f a msgs (mid ?p _)] => destruct (names_loop_lines a c s Hc ns g1 n f p msgs Hg1 Hn Hns) as [pre' ->] end.
      { cbn [V mid]. rewrite !length_app. lia. }
      destruct (load_pairs _ msgs) as [ms| | |]; cbn [mbind outcome_bind]; [|done..].
      apply IH. rewrite !length_app in Hf. cbn in Hf. lia.
    + destruct Hl as [Hi Ht]. rewrite <- !(assoc_L (++)). cbn [app]. rewrite <- (assoc_L (++)). cbn [app].
      destruct (hosts_loop_indent i (35 :: t ++ 10 :: s) Hi (S fuel) pre msgs) as [pre0 ->]. clear pre.
      cbn [hosts_loop]. rewrite SkipSpaces_mid_stop by done. cbn [Z.eqb Pos.eqb].
      rewrite app_comm_cons, (SkipLine_mid _ (35 :: t)) by (by apply not_elem_of_cons). apply IH. rewrite length_app in Hf. cbn in Hf. rewrite length_app in Hf. lia.
    + rewrite <- (assoc_L (++)). cbn [app]. destruct (hosts_loop_indent i (10 :: s) Hl (S fuel) pre msgs) as [pre0 ->]. clear pre.
      specialize (IH (S fuel) (pre0 ++ [10]) msgs). cbn [hosts_loop] in *. rewrite SkipSpaces_space by done. apply IH. rewrite length_app in Hf. cbn in Hf. lia.
Qed.

(** An address and a name that become a message. *)
Definition host_ok (p : list Z * list Z) : Prop :=
  IsHostnameValid p.2 false = true /\ ParseIP p.1 ≠ None /\ message_ok (host_message (address_type p.1) p.1 p.2).
Definition is_host (p : list Z * list Z) (m : Message) : Prop := Pack (host_message (address_type p.1) p.1 p.2) = Ok m.

Lemma newMessage_ok p : host_ok p -> exists m, newMessage p.1 p.2 = Ok (Some m) /\ is_host p m.
Proof.
  destruct p as [a n]. intros (Hn & Ha & Hm). destruct (Pack_good _ (set_sections NewMessage [] [] []) Hm) as (m & _ & Hp & _); [by repeat split|].
  exists m. split; [|done]. unfold newMessage. cbn [fst snd] in *. rewrite Hn. destruct (ParseIP a); [|done]. by rewrite Hp.
Qed.

Lemma load_pairs_ok ps : Forall host_ok ps -> forall msgs, exists l, load_pairs ps msgs = Ok (msgs ++ l) /\ Forall2 is_host ps l.
Proof.
  induction 1 as [|p ps Hp _ IH]; intros msgs; [exists []; by rewrite app_nil_r|]. destruct (newMessage_ok p Hp) as (m & Hm & Hi).
  destruct (IH (msgs ++ [m])) as (l & Hl & Hall). exists (m :: l). destruct p as [a n]. cbn [load_pairs fst snd] in *. rewrite Hm. cbn [mbind outcome_bind add_message].
  rewrite Hl, <- (assoc_L (++)). split; [done|]. by constructor.
Qed.

(** C32: the lines of a hosts file are loaded in their order, with any runs of blanks
    and tabs as an indent, between the fields of a line, and before a comment. A line
    has an address and one or more names, of bytes that are not spaces, number signs or
    0, and then a comment or its end right behind the last name; or it has a comment
    alone, or nothing. Every address with every name on its line goes through
    [newMessage]; and when every name is a valid hostname and every address an IPv4
    address in its usual form ([host_ok]), the result is one packed message for each
    pair. A blank between the last name and the line feed joins the next line to this
    one, so such lines are not covered: see [trailing_blank_joins]. *)
Theorem hosts_load ls : Forall hline_ok ls ->
  let pairs := ls ≫= pairs_of in
  hosts_parse (Init (concat (hline_text <$> ls))) = load_pairs pairs [] /\
  (Forall host_ok pairs -> exists l, hosts_parse (Init (concat (hline_text <$> ls))) = Ok l /\ Forall2 is_host pairs l).
Proof.
  intros Hls pairs.
  assert (Hload : hosts_parse (Init (concat (hline_text <$> ls))) = load_pairs pairs []).
  { unfold hosts_parse. change (Init (concat (hline_text <$> ls))) with (mid [] (concat (hline_text <$> ls))).
    apply hosts_loop_lines; [done|]. cbn. lia. }
  split; [done|]. intros Hok. destruct (load_pairs_ok pairs Hok []) as (l & Hl & Hall). exists l. by rewrite Hload.
Qed.

Definition demo_hosts : list hline :=
  [Comment [] (str " Local hosts"); Host [] (str "127.0.0.1") [9; 32] (str "localhost") [([32; 32], str "LH")] None; Blank [9];
   Host [32] (str "10.0.0.7") [32] (str "www.kilabit.info") [] (Some ([9], str " web"))].

Lemma hosts_load_witness :
  let pairs := demo_hosts ≫= pairs_of in
  (hosts_parse (Init (concat (hline_text <$> demo_hosts))) = load_pairs pairs [] /\
   (Forall host_ok pairs -> exists l, hosts_parse (Init (concat (hline_text <$> demo_hosts))) = Ok l /\ Forall2 is_host pairs l))
  /\ match load_pairs pairs [] with Ok l => (fun m => qName (Question m)) <$> l = [str "localhost"; str "lh"; str "www.kilabit.info"] | _ => False end.
Proof.
  intros pairs. split; [|vm_compute; reflexivity]. apply (hosts_load demo_hosts).
  by apply (bool_decide_unpack _).
Defined.

(** ** Files that are not loaded as they are written *)

Definition host_names (ls : list (list Z)) : outcome unit (list (list Z * option (list Z))) :=
  match hosts_parse (Init (concat ((fun l => l ++ [10]) <$> ls))) with
  | Ok l => Ok ((fun m => (qName (Question m), match Answer m with rr :: _ => Text rr | [] => None end)) <$> l)
  | Err e => Err e
  | Panic => Panic
  | NoFuel => NoFuel
  end.

(** A blank at the end of a line joins the next line to it: the address there
    becomes a name of the first address, and so do its names. *)
Lemma trailing_blank_joins :
  host_names [str "127.0.0.1 localhost "; str "10.0.0.7 www"] =
  Ok [(str "localhost", Some (str "127.0.0.1")); (str "10.0.0.7", Some (str "127.0.0.1")); (str "www", Some (str "127.0.0.1"))].
Proof. vm_compute. reflexivity. Qed.
