(* ===== verification/Spf.v ===== *)
(** Package [lib/spf]: the check of a host against the policy of a domain, and the macros
    in policies.

    What the DNS client looks up is a parameter, and so is the clock.  The texts of errors
    are left out; a failed expansion is an error without more.  The meaning of macros is
    written down here a second time, after RFC 7208, for the proof that they have it. *)

From Stdlib Require Import ZArith Lia.
From S2P Require Import Prelude Ascii Utf8 Strconv GoStrings NetIP IoReader LibNet DnsHeader DnsMessage DnsHosts.

Local Open Scope Z_scope.

Definition ResultCodePass : Z := 0.
Definition ResultCodeNone : Z := 1.
Definition ResultCodeNeutral : Z := 2.
Definition ResultCodeFail : Z := 3.
Definition ResultCodeSoftfail : Z := 4.
Definition ResultCodeTempError : Z := 5.
Definition ResultCodePermError : Z := 6.

Definition qualifierPass : Z := 43.
Definition qualifierFail : Z := 45.
Definition qualifierSoftfail : Z := 126.
Definition qualifierNeutral : Z := 63.
Definition mechanismAll : list Z := str "all".
Definition mechanismInclude : list Z := str "include".
Definition modifierExp : list Z := str "exp".
Definition RCodeErrName : Z := 3.

Record directive : Type := mkDirective { qual : Z; mech : list Z; dir_value : list Z }.
Record modifier : Type := mkModifier { mod_name : list Z; mod_value : list Z }.
Record Result : Type := mkResult {
  IP : option (list Z); R_Domain : list Z; Sender : list Z; Hostname : list Z; R_Code : Z;
  senderLocal : list Z; senderDomain : list Z; terms : list Z; dirs : list directive; mods : list modifier
}.
Definition put_code r v := mkResult (IP r) (R_Domain r) (Sender r) (Hostname r) v (senderLocal r) (senderDomain r) (terms r) (dirs r) (mods r).
Definition put_terms r v := mkResult (IP r) (R_Domain r) (Sender r) (Hostname r) (R_Code r) (senderLocal r) (senderDomain r) v (dirs r) (mods r).
Definition put_dirs r v := mkResult (IP r) (R_Domain r) (Sender r) (Hostname r) (R_Code r) (senderLocal r) (senderDomain r) (terms r) v (mods r).
Definition put_mods r v := mkResult (IP r) (R_Domain r) (Sender r) (Hostname r) (R_Code r) (senderLocal r) (senderDomain r) (terms r) (dirs r) v.

(** ** Macros *)

Record macro : Type := mkMacro { m_out : list Z; nright : Z; dels : list Z; letter : Z; isReversed : bool }.
Definition put_out m v := mkMacro v (nright m) (dels m) (letter m) (isReversed m).
Definition macro_reset (m : macro) : macro := mkMacro (m_out m) 0 [] 0 false.

Definition isDelimiter (c : Z) : bool :=
  (c =? 46) || (c =? 45) || (c =? 43) || (c =? 44) || (c =? 47) || (c =? 95) || (c =? 61).
Definition isMacroLetter (mode : list Z) (c : Z) : bool :=
  if (c =? 115) || (c =? 108) || (c =? 111) || (c =? 100) || (c =? 105) || (c =? 112) || (c =? 104) || (c =? 118) then true
  else bool_decide (mode = modifierExp) && ((c =? 99) || (c =? 114) || (c =? 116)).

(** [bytes.Split] by a separator that is not empty. *)
Fixpoint split_by (fuel : nat) (s sep cur : list Z) : list (list Z) :=
  match fuel, s with
  | S fuel, c :: t => if HasPrefix s sep then cur :: split_by fuel (drop (length sep) s) sep [] else split_by fuel t sep (cur ++ [c])
  | _, _ => [cur]
  end.
Definition reverseValues (vs : list (list Z)) : list (list Z) := rev vs.
Definition chopRight (vs : list (list Z)) (n : Z) : list (list Z) :=
  if Z.of_nat (length vs) <? n then vs else drop (length vs - Z.to_nat n) vs.

Definition toDotIP (ip : option (list Z)) : list Z :=
  if IsIPv4 ip then ip_text (default [] ip)
  else if IsIPv6 ip then ToDotIPv6 (default [] ip)
  else ip_text (default [] ip).

(** [reverseByDot] and [reverseIP] of [lib/dns/funcs.go]. *)
Definition reverseByDot (ip : list Z) : list Z := fold_left (fun out a => match out with [] => a | _ => out ++ 46 :: a end) (rev (Split 46 ip)) [].
Definition reverseIP (ip : option (list Z)) : list Z * bool :=
  if IsIPv4 ip then (reverseByDot (ip_text (default [] ip)), true)
  else if IsIPv6 ip then (reverseByDot (ToDotIPv6 (default [] ip)), false)
  else ([], false).

Section Spf.
Context `{Unicode}.
(** What the client looks up, of a type and for a name, and the seconds of the clock. *)
Context (Lookup : Z -> list Z -> option Message) (now : Z).

(** [LookupPTR] of [lib/dns/funcs.go]: no name is an error. *)
Definition LookupPTR (ip : option (list Z)) : outcome unit (option (list Z)) :=
  match ip with
  | None => Ok None
  | Some _ =>
      let '(revIP, isIPv4) := reverseIP ip in
      if isnil revIP then Ok None
      else
        match Lookup QueryTypePTR (revIP ++ (if isIPv4 then str ".in-addr.arpa" else str ".ip6.arpa")) with
        | None => Ok None
        | Some msg =>
            match FilterAnswers msg QueryTypePTR with
            | [] => Ok (Some [])
            | rr :: _ => match RData rr with RText (Some v) => Ok (Some v) | RText None => Panic | _ => Ok None end
            end
        end
  end.

Definition expandLetter (ref : Result) (c : Z) : outcome unit (list Z) :=
  if c =? 115 then Ok (Sender ref)
  else if c =? 108 then Ok (senderLocal ref)
  else if c =? 111 then Ok (senderDomain ref)
  else if c =? 100 then Ok (R_Domain ref)
  else if c =? 105 then Ok (toDotIP (IP ref))
  else if c =? 112 then
    n ← LookupPTR (IP ref);
    Ok (match n with None | Some [] => str "unknown" | Some n => n end)
  else if c =? 118 then Ok (if IsIPv6 (IP ref) then str "ip6" else if IsIPv4 (IP ref) then str "in-addr" else [])
  else if c =? 104 then Ok (R_Domain ref)
  else if c =? 99 then Ok (toDotIP (IP ref))
  else if c =? 114 then Ok (Hostname ref)
  else if c =? 116 then Ok (dec now)
  else Ok [].

(** The value of a macro, from that of its letter. *)
Definition transform (value seps : list Z) (reversed : bool) (n : Z) : list Z :=
  let values := split_by (length value) value (match seps with [] => [46] | _ => seps end) [] in
  let values := if reversed then reverseValues values else values in
  join [46] (if 0 <? n then chopRight values n else values).
Definition expand (ref : Result) (m : macro) : outcome unit macro :=
  value ← expandLetter ref (letter m);
  Ok (macro_reset (put_out m (m_out m ++ transform value (dels m) (isReversed m) (nright m)))).

Fixpoint span_digits (s : list Z) : list Z * list Z :=
  match s with c :: t => if IsDigit c then let '(a, b) := span_digits t in (c :: a, b) else ([], s) | [] => ([], []) end.
Fixpoint span_delimiters (s : list Z) : list Z * list Z :=
  match s with c :: t => if isDelimiter c then let '(a, b) := span_delimiters t in (c :: a, b) else ([], s) | [] => ([], []) end.

(** What is between the letter and the closing brace, which is left to be read. *)
Definition macro_spec (data : list Z) (m : macro) : outcome unit (macro * list Z) :=
  '(m, data) ←
    (match data with
     | c :: _ =>
         if IsDigit c then
           let '(ds, data) := span_digits data in
           match ParseInt64 ds with
           | None => Err tt
           | Some n => if isnil data then Err tt else Ok (mkMacro (m_out m) n (dels m) (letter m) (isReversed m), data)
           end
         else Ok (m, data)
     | [] => Ok (m, data)
     end);
  '(m, data) ←
    (match data with
     | c :: t =>
         if c =? 114 then if isnil t then Err tt else Ok (mkMacro (m_out m) (nright m) (dels m) (letter m) true, t)
         else Ok (m, data)
     | [] => Ok (m, data)
     end);
  match data with
  | c :: _ =>
      if c =? 125 then Ok (m, data)
      else
        let '(ds, data) := span_delimiters data in
        match data with
        | [] => Err tt
        | c :: _ => if c =? 125 then Ok (mkMacro (m_out m) (nright m) (dels m ++ ds) (letter m) (isReversed m), data) else Err tt
        end
  | [] => Ok (m, data)
  end.

(** [macro.parse]: a text that ends within a macro is no error. *)
Inductive macro_state : Type := InText | InPercent | InBrace | InSpec.
Fixpoint macro_parse (fuel : nat) (ref : Result) (mode : list Z) (state : macro_state) (data : list Z) (m : macro) : outcome unit macro :=
  match fuel with
  | O => NoFuel
  | S fuel =>
      match data with
      | [] => Ok m
      | c :: t =>
          match state with
          | InText =>
              if c =? 37 then macro_parse fuel ref mode InPercent t m
              else if (c <? 33) || (126 <? c) then Err tt
              else macro_parse fuel ref mode InText t (put_out m (m_out m ++ [c]))
          | InPercent =>
              if c =? 123 then macro_parse fuel ref mode InBrace t m
              else if c =? 37 then macro_parse fuel ref mode InText t (put_out m (m_out m ++ [37]))
              else if c =? 95 then macro_parse fuel ref mode InText t (put_out m (m_out m ++ [32]))
              else if c =? 45 then macro_parse fuel ref mode InText t (put_out m (m_out m ++ str "%20"))
              else Err tt
          | InBrace =>
              if isMacroLetter mode c then macro_parse fuel ref mode InSpec t (mkMacro (m_out m) (nright m) (dels m) c (isReversed m))
              else Err tt
          | InSpec =>
              '(m, data) ← macro_spec data m;
              m ← expand ref m;
              macro_parse fuel ref mode InText (drop 1 data) m
          end
      end
  end.
Definition macroExpand (ref : Result) (mode data : list Z) : outcome unit (list Z) :=
  m ← macro_parse (S (length data)) ref mode InText data (mkMacro [] 0 [] 0 false);
  Ok (m_out m).

(** ** The check *)

Definition newResult (ip : option (list Z)) (domain sender hostname : list Z) : outcome unit Result :=
  match index_byte 64 sender with
  | None => Panic
  | Some i =>
      Ok (mkResult ip domain sender hostname (if IsHostnameValid domain true then 0 else ResultCodeNone)
            (take i sender) (drop (S i) sender) [] [] [])
  end.

(** The texts of the answers that are policies. *)
Fixpoint spf_records (txts : list ResourceRecord) : outcome unit (list (list Z)) :=
  match txts with
  | [] => Ok []
  | rr :: txts =>
      match RData rr with
      | RText None => Panic
      | RText (Some v) => rs ← spf_records txts; Ok (if HasPrefix v (str "v=spf1") then v :: rs else rs)
      | _ => spf_records txts
      end
  end.
Definition lookup_policy (r : Result) : outcome unit Result :=
  match Lookup QueryTypeTXT (R_Domain r) with
  | None => Ok (put_code r ResultCodeTempError)
  | Some msg =>
      let code := DnsHeader.RCode (Header msg) in
      if code =? RCodeOK then
        match FilterAnswers msg QueryTypeTXT with
        | [] => Ok (put_code r ResultCodeNone)
        | txts =>
            rs ← spf_records txts;
            match rs with
            | [] => Ok (put_code r ResultCodeNone)
            | [t] => Ok (put_terms r (text_ToLower t))
            | t :: _ => Ok (put_code (put_terms r t) ResultCodePermError)
            end
        end
      else if code =? RCodeErrName then Ok (put_code r ResultCodeNone)
      else Ok (put_code r ResultCodeTempError)
  end.

(** [parseDirective]: the directive, if the term is one, and the result. *)
Definition parseDirective (r : Result) (term : list Z) : outcome unit (option directive * Result) :=
  c ← get_at term 0;
  let '(q, term) := if (c =? qualifierPass) || (c =? qualifierNeutral) || (c =? qualifierSoftfail) || (c =? qualifierFail)
                    then (c, drop 1 term) else (qualifierPass, term) in
  let kv := Split 58 term in
  let mech := hd [] kv in
  if bool_decide (mech = mechanismAll) then Ok (Some (mkDirective q mech []), r)
  else if bool_decide (mech = mechanismInclude) then
    match kv with
    | _ :: spec :: _ =>
        match macroExpand r mechanismInclude spec with
        | Ok v => Ok (Some (mkDirective q mech v), r)
        | Err _ => Ok (None, put_code r ResultCodePermError)
        | Panic => Panic
        | NoFuel => NoFuel
        end
    | _ => Ok (Some (mkDirective q mech []), r)
    end
  else Ok (None, r).
Definition parseModifier (term : list Z) : modifier :=
  match Split 61 term with
  | n :: v :: _ => mkModifier n v
  | n :: _ => mkModifier n []
  | [] => mkModifier [] []
  end.
Fixpoint evaluate_terms (r : Result) (ts : list (list Z)) : outcome unit Result :=
  match ts with
  | [] => Ok r
  | t :: ts =>
      '(dir, r) ← parseDirective r t;
      match dir with
      | Some d =>
          let r := put_dirs r (dirs r ++ [d]) in
          if bool_decide (mech d = mechanismAll) then Ok r else evaluate_terms r ts
      | None => if negb (R_Code r =? 0) then Ok r else evaluate_terms (put_mods r (mods r ++ [parseModifier t])) ts
      end
  end.
Definition evaluateSPFRecord (r : Result) : outcome unit Result := evaluate_terms r (drop 1 (Fields (terms r))).

Definition CheckHost (ip : option (list Z)) (domain sender hostname : list Z) : outcome unit Result :=
  let sender := match index_byte 64 sender with None => str "postmaster@" ++ sender | Some _ => sender end in
  r ← newResult ip domain sender hostname;
  if negb (R_Code r =? 0) then Ok r
  else
    r ← lookup_policy r;
    if negb (R_Code r =? 0) then Ok r else evaluateSPFRecord r.
End Spf.

(** ** Macros, as they are written and what they mean *)

Inductive item : Type :=
| Lit (c : Z) | Percent | Blank | Encoded
| Macro (c : Z) (n : option Z) (reversed : bool) (seps : list Z).
Definition item_text (i : item) : list Z :=
  match i with
  | Lit c => [c]
  | Percent => str "%%"
  | Blank => str "%_"
  | Encoded => str "%-"
  | Macro c n r ds => 37 :: 123 :: c :: match n with Some n => dec n | None => [] end ++ (if r then [114] else []) ++ ds ++ [125]
  end.
Definition item_ok (mode : list Z) (i : item) : Prop :=
  match i with
  | Lit c => 33 <= c <= 126 /\ c <> 37
  | Macro c n _ ds => isMacroLetter mode c = true /\ (forall k, n = Some k -> 0 <= k < 2 ^ 63) /\ Forall (fun d => isDelimiter d = true) ds
  | _ => True
  end.

Section Meaning.
Context (Lookup : Z -> list Z -> option Message) (now : Z) (ref : Result) (mode : list Z).
(** The value of some letters. *)
Context (value : Z -> option (list Z)) (Hvalue : forall c v, value c = Some v -> expandLetter Lookup now ref c = Ok v).
Definition has_value (i : item) : Prop := match i with Macro c _ _ _ => is_Some (value c) | _ => True end.

(** What a macro stands for: the parts of the value of its letter between the separators,
    or else between dots, in reverse if it says so, the last ones if it has a number, with
    dots between them. *)
Definition item_value (i : item) : list Z :=
  match i with
  | Lit c => [c]
  | Percent => [37]
  | Blank => [32]
  | Encoded => str "%20"
  | Macro c n r ds => transform (default [] (value c)) ds r (default 0 n)
  end.

Lemma span_digits_app ds t : Forall (fun c => IsDigit c = true) ds -> match t with c :: _ => IsDigit c = false | [] => True end -> span_digits (ds ++ t) = (ds, t).
Proof.
  intros Hd Ht. induction Hd as [|c ds Hc _ IH]; cbn.
  - destruct t as [|c t]; [done|]. cbn. by rewrite Ht.
  - by rewrite Hc, IH.
Qed.
Lemma span_delimiters_app ds t : Forall (fun c => isDelimiter c = true) ds -> span_delimiters (ds ++ 125 :: t) = (ds, 125 :: t).
Proof. intros Hd. induction Hd as [|c ds Hc _ IH]; [done|]. cbn. by rewrite Hc, IH. Qed.
Lemma delimiter_not d : isDelimiter d = true -> d <> 125 /\ d <> 114 /\ IsDigit d = false.
Proof. intros H. repeat split; [intros ->|intros ->|]; try done. unfold isDelimiter in H. repeat (apply orb_true_iff in H as [H|H]); apply Z.eqb_eq in H as ->; done. Qed.

(** The three parts of [macro_spec]. *)
Lemma macro_spec_text c (n : option Z) (r : bool) ds rest m : (forall k, n = Some k -> 0 <= k < 2 ^ 63) -> Forall (fun d => isDelimiter d = true) ds ->
  nright m = 0 -> dels m = [] -> isReversed m = false -> letter m = c ->
  macro_spec (match n with Some n => dec n | None => [] end ++ (if r then [114] else []) ++ ds ++ 125 :: rest) m
  = Ok (mkMacro (m_out m) (default 0 n) ds c r, 125 :: rest).
Proof.
  intros Hn Hd Hm1 Hm2 Hm3 Hm4. set (tail_ := (if r then [114] else []) ++ ds ++ 125 :: rest).
  assert (Ht : exists a t, tail_ = a :: t /\ IsDigit a = false).
  { unfold tail_. destruct r; [by eexists _, _|]. destruct Hd as [|d ds Hd' _]; [by eexists _, _|]. exists d, (ds ++ 125 :: rest). split; [done|]. by apply delimiter_not. }
  unfold macro_spec.
  assert (H1 : (match match n with Some n => dec n | None => [] end ++ tail_ with
     | c :: _ =>
         if IsDigit c then
           let '(ds, data) := span_digits (match n with Some n => dec n | None => [] end ++ tail_) in
           match ParseInt64 ds with
           | None => Err tt
           | Some n => if isnil data then Err tt else Ok (mkMacro (m_out m) n (dels m) (letter m) (isReversed m), data)
           end
         else Ok (m, match n with Some n => dec n | None => [] end ++ tail_)
     | [] => Ok (m, match n with Some n => dec n | None => [] end ++ tail_)
     end) = (Ok (mkMacro (m_out m) (default 0 n) [] c false, tail_) : outcome unit _)).
  { destruct Ht as (a & t & Ht & Ha). destruct n as [k|].
    - specialize (Hn k eq_refl). pose proof (dec_digits k ltac:(lia)) as Hdig. pose proof (dec_ne k ltac:(lia)) as Hne.
      rewrite span_digits_app by (rewrite ?Ht; done). rewrite ParseInt64_dec by lia. destruct (dec k) as [|e es]; [done|]. cbn [app].
      apply Forall_cons in Hdig as [He _]. rewrite He, Ht. cbn [isnil]. by rewrite Hm2, Hm3, Hm4.
    - cbn [app]. rewrite Ht, Ha. destruct m as [o nr dl lt rv]. cbn in *. by subst. }
  rewrite H1. cbn [mbind outcome_bind]. clear H1 Ht. unfold tail_.
  destruct r; cbn [app].
  - cbn [Z.eqb Pos.eqb]. assert (Hne : isnil (ds ++ 125 :: rest) = false) by (destruct ds; done). rewrite Hne. cbn [mbind outcome_bind m_out nright letter dels isReversed].
    destruct Hd as [|d ds Hd' Hd]; [done|]. cbn [app]. destruct (delimiter_not d Hd') as (H1 & _ & _). rewrite (proj2 (Z.eqb_neq d 125) H1).
    change (d :: ds ++ 125 :: rest) with ((d :: ds) ++ 125 :: rest). rewrite span_delimiters_app by (by constructor). cbn [mbind outcome_bind Z.eqb Pos.eqb].
    by rewrite ?Hm2, ?Hm3, ?Hm4.
  - destruct Hd as [|d ds Hd' Hd]; [done|]. cbn [app]. destruct (delimiter_not d Hd') as (H1 & H2 & _). rewrite (proj2 (Z.eqb_neq d 114) H2). cbn [mbind outcome_bind].
    rewrite (proj2 (Z.eqb_neq d 125) H1). change (d :: ds ++ 125 :: rest) with ((d :: ds) ++ 125 :: rest). rewrite span_delimiters_app by (by constructor). cbn [mbind outcome_bind Z.eqb Pos.eqb].
    by rewrite ?Hm2, ?Hm3, ?Hm4.
Qed.

Definition start (out : list Z) : macro := mkMacro out 0 [] 0 false.
Lemma macro_parse_items items : forall fuel out, Forall (item_ok mode) items -> Forall has_value items -> (length (concat (item_text <$> items)) < fuel)%nat ->
  macro_parse Lookup now fuel ref mode InText (concat (item_text <$> items)) (start out) = Ok (start (out ++ concat (item_value <$> items))).
Proof.
  induction items as [|i items IH]; intros fuel out Hok Hval Hf.
  - destruct fuel; [cbn in Hf; lia|]. cbn. by rewrite app_nil_r.
  - apply Forall_cons in Hok as [Hi Hok], Hval as [Hv Hval]. cbn [fmap list_fmap concat] in *. rewrite length_app in Hf. rewrite (assoc_L (++)).
    assert (Hlit : forall fuel a, (length (concat (item_text <$> items)) < fuel)%nat ->
      macro_parse Lookup now fuel ref mode InText (concat (item_text <$> items)) (put_out (start out) (out ++ a)) = Ok (start ((out ++ a) ++ concat (item_value <$> items)))).
    { intros f a Hl. by apply IH. }
    destruct i as [c| | | |c n r ds]; cbn [item_text item_value item_ok has_value] in *.
    + destruct Hi as [[H1 H2] H3]. destruct fuel as [|fuel]; [lia|]. cbn [app macro_parse]. rewrite (proj2 (Z.eqb_neq c 37) H3).
      destruct (Z.ltb_spec c 33); [lia|]. destruct (Z.ltb_spec 126 c); [lia|]. cbn [orb]. apply Hlit. cbn in Hf. lia.
    + destruct fuel as [|[|fuel]]; [cbn in Hf; lia|cbn in Hf; lia|]. apply (Hlit fuel [37]). cbn in Hf. lia.
    + destruct fuel as [|[|fuel]]; [cbn in Hf; lia|cbn in Hf; lia|]. apply (Hlit fuel [32]). cbn in Hf. lia.
    + destruct fuel as [|[|fuel]]; [cbn in Hf; lia|cbn in Hf; lia|]. apply (Hlit fuel (str "%20")). cbn in Hf. lia.
    + destruct Hi as (Hc & Hn & Hd). do 3 (destruct fuel as [|fuel]; [cbn in Hf; lia|]). cbn [app macro_parse Z.eqb Pos.eqb]. rewrite Hc.
      rewrite <- !(assoc_L (++)). cbn [app]. set (data := _ ++ _).
      destruct fuel as [|fuel]; [cbn in Hf; rewrite ?length_app in Hf; cbn in Hf; lia|].
      assert (Hdata : exists a t, data = a :: t).
      { unfold data. destruct n as [k|]; [destruct (dec k) as [|e es] eqn:E; [by apply dec_ne in E; [|apply Hn]|by eexists _, _]|]. cbn [app]. destruct r; [by eexists _, _|]. destruct ds; by eexists _, _. }
      destruct Hdata as (a & t & Hdata). cbn [macro_parse]. rewrite Hdata. rewrite <- Hdata. unfold data. rewrite (macro_spec_text c) by done. cbn [mbind outcome_bind].
      unfold expand. cbn [letter]. destruct Hv as [v Hv]. rewrite (Hvalue c v Hv), bind_Ok, Hv. cbn [m_out dels isReversed nright drop].
      cbn [mbind outcome_bind]. rewrite drop_0, (assoc_L (++)). apply Hlit. cbn in Hf. rewrite ?length_app in Hf. cbn in Hf. lia.
Qed.
End Meaning.

(** *** What RFC 7208, section 7, says of macros

    The parts of a value are what is between the separators, each of them a character. *)
Fixpoint cut_any (seps s cur : list Z) : list (list Z) :=
  match s with
  | [] => [cur]
  | c :: s => if bool_decide (c ∈ seps) then cur :: cut_any seps s [] else cut_any seps s (cur ++ [c])
  end.
(** The last [n] parts, or all of them. *)
Definition last_parts (n : option Z) (vs : list (list Z)) : list (list Z) :=
  match n with Some n => drop (length vs - Z.to_nat n) vs | None => vs end.
Definition rfc_transform (value seps : list Z) (reversed : bool) (n : option Z) : list Z :=
  let parts := cut_any (if isnil seps then [46] else seps) value [] in
  join [46] (last_parts n (if reversed then rev parts else parts)).

(** Who sends: the address of the client, the domain that is checked, the two parts of the
    sender, the name of the receiving host and the time. *)
Record session : Type := mkSession { s_ip : option (list Z); s_domain : list Z; s_local : list Z; s_sender_domain : list Z; s_host : list Z; s_time : Z }.
Definition sender_of (s : session) : list Z := s_local s ++ 64 :: s_sender_domain s.
(** The letters, but for that of HELO and that of the validated name. *)
Definition letter_value (s : session) (c : Z) : option (list Z) :=
  if bool_decide (c = 115) then Some (sender_of s)
  else if bool_decide (c = 108) then Some (s_local s)
  else if bool_decide (c = 111) then Some (s_sender_domain s)
  else if bool_decide (c = 100) then Some (s_domain s)
  else if bool_decide (c ∈ [105; 99]) then Some (toDotIP (s_ip s))
  else if bool_decide (c = 118) then Some (if IsIPv6 (s_ip s) then str "ip6" else if IsIPv4 (s_ip s) then str "in-addr" else [])
  else if bool_decide (c = 114) then Some (s_host s)
  else if bool_decide (c = 116) then Some (dec (s_time s))
  else None.
(** What a text stands for: nothing, where a letter has no value here. *)
Definition rfc_value (s : session) (i : item) : option (list Z) :=
  match i with
  | Lit c => Some [c]
  | Percent => Some [37]
  | Blank => Some [32]
  | Encoded => Some (str "%20")
  | Macro c n r ds => (fun v => rfc_transform v ds r n) <$> letter_value s c
  end.
(** A macro as the standard has it, with one separator at most. *)
Definition rfc_item (mode : list Z) (i : item) : Prop :=
  item_ok mode i /\ match i with Macro _ n _ ds => (forall k, n = Some k -> 1 <= k) /\ (length ds <= 1)%nat | _ => True end.

Lemma split_by_one d s : forall fuel cur, (length s <= fuel)%nat -> split_by fuel s [d] cur = cut_any [d] s cur.
Proof.
  induction s as [|c s IH]; intros fuel cur Hf; [by destruct fuel|]. destruct fuel as [|fuel]; [cbn in Hf; lia|]. cbn [split_by cut_any].
  assert (Hp : HasPrefix (c :: s) [d] = bool_decide (c ∈ [d])).
  { cbn [HasPrefix]. assert (HasPrefix s [] = true) as -> by (by destruct s). rewrite andb_true_r.
    case_bool_decide as H; rewrite list_elem_of_singleton in H; [by apply Z.eqb_eq|by apply Z.eqb_neq]. }
  rewrite Hp. cbn in Hf. case_bool_decide; cbn [length drop]; by rewrite IH by lia.
Qed.
Lemma transform_rfc v ds r n : (forall k, n = Some k -> 1 <= k) -> (length ds <= 1)%nat -> transform v ds r (default 0 n) = rfc_transform v ds r n.
Proof.
  intros Hn Hd. unfold transform, rfc_transform. set (seps := match ds with [] => [46] | _ => ds end).
  assert (Hs : exists d, seps = [d] /\ (if isnil ds then [46] else ds) = [d]) by (unfold seps; destruct ds as [|d [|? ?]]; cbn in *; [by exists 46|by exists d|lia]).
  destruct Hs as (d & -> & ->). rewrite split_by_one by lia. unfold reverseValues, chopRight, last_parts. set (vs := if r then _ else _).
  destruct n as [k|]; [|done]. specialize (Hn k eq_refl). change (default 0 (Some k)) with k. rewrite (proj2 (Z.ltb_lt 0 k)) by lia. f_equal.
  destruct (Z.ltb_spec (Z.of_nat (length vs)) k); [|done]. by replace (length vs - Z.to_nat k)%nat with 0%nat by lia.
Qed.
Lemma letter_expands Lookup s ref c v : IP ref = s_ip s -> R_Domain ref = s_domain s -> Sender ref = sender_of s -> senderLocal ref = s_local s ->
  senderDomain ref = s_sender_domain s -> Hostname ref = s_host s -> letter_value s c = Some v -> expandLetter Lookup (s_time s) ref c = Ok v.
Proof.
  intros H1 H2 H3 H4 H5 H6. unfold letter_value, expandLetter. rewrite H1, H2, H3, H4, H5, H6.
  repeat (let Hc := fresh "Hc" in case_bool_decide as Hc; [first [subst c|rewrite !elem_of_cons, elem_of_nil in Hc; destruct Hc as [-> |[-> |[]]]]; intros [= <-]; reflexivity|]). done.
Qed.

Lemma values_there s items : forall vs, mapM (rfc_value s) items = Some vs -> Forall (has_value (letter_value s)) items.
Proof.
  induction items as [|i items IH]; intros vs Hvs; [constructor|]. cbn in Hvs. destruct (rfc_value s i) eqn:Ev; [|done]. cbn in Hvs.
  destruct (mapM (rfc_value s) items) as [vs'|]; [|done]. constructor; [|by apply (IH vs')]. destruct i; try done. cbn in *. by destruct (letter_value _ _).
Qed.


(** ** What the check can say *)

Lemma span_digits_le s : (length (span_digits s).2 <= length s)%nat.
Proof. induction s as [|c s IH]; cbn; [lia|]. destruct (IsDigit c); [|cbn; lia]. destruct (span_digits s). cbn in *. lia. Qed.
Lemma span_delimiters_le s : (length (span_delimiters s).2 <= length s)%nat.
Proof. induction s as [|c s IH]; cbn; [lia|]. destruct (isDelimiter c); [|cbn; lia]. destruct (span_delimiters s). cbn in *. lia. Qed.

(** A call that ends in a value or an error. *)
Definition fine {A} (o : outcome unit A) : Prop := match o with Ok _ | Err _ => True | _ => False end.

Lemma macro_spec_fine data m : fine (macro_spec data m) /\ forall m' data', macro_spec data m = Ok (m', data') -> (length data' <= length data)%nat.
Proof.
  unfold macro_spec.
  assert (H1 : forall (o : outcome unit (macro * list Z)) (k : macro -> list Z -> outcome unit (macro * list Z)), fine o -> (forall m d, o = Ok (m, d) -> (length d <= length data)%nat) ->
    (forall m d, (length d <= length data)%nat -> fine (k m d) /\ forall m' d', k m d = Ok (m', d') -> (length d' <= length data)%nat) ->
    fine ('(m, d) ← o; k m d) /\ forall m' d', ('(m, d) ← o; k m d) = Ok (m', d') -> (length d' <= length data)%nat).
  { intros [[m1 d1]|[]| |] k Hf Hl Hk; try done. apply Hk. by eapply Hl. }
  apply H1.
  - destruct data as [|c t]; [done|]. destruct (IsDigit c); [|done]. destruct (span_digits (c :: t)) as [ds d]. destruct (ParseInt64 ds); [|done]. by destruct (isnil d).
  - intros m1 d1. destruct data as [|c t]; [by intros [= <- <-]|]. destruct (IsDigit c); [|by intros [= <- <-]].
    pose proof (span_digits_le (c :: t)) as Hle. destruct (span_digits (c :: t)) as [ds d]. destruct (ParseInt64 ds); [|done]. destruct (isnil d); [done|]. by intros [= <- <-].
  - intros m1 d1 Hd1. apply H1.
    + destruct d1 as [|c t]; [done|]. destruct (c =? 114); [|done]. by destruct (isnil t).
    + intros m2 d2. destruct d1 as [|c t]; [by intros [= <- <-]|]. destruct (c =? 114); [|by intros [= <- <-]]. destruct (isnil t); [done|]. intros [= <- <-]. cbn in Hd1. lia.
    + intros m2 d2 Hd2. destruct d2 as [|c t]; [by split; [|intros ? ? [= <- <-]]|]. destruct (c =? 125); [by split; [|intros ? ? [= <- <-]]|].
      pose proof (span_delimiters_le (c :: t)) as Hle. destruct (span_delimiters (c :: t)) as [ds d]. destruct d as [|e d]; [done|]. destruct (e =? 125); [|done].
      split; [done|]. intros ? ? [= <- <-]. cbn in *. lia.
Qed.

Section Check.
Context `{U : Unicode} (Lookup : Z -> list Z -> option Message) (now : Z).
(** A record that the client gives has its text. *)
Definition texts_there : Prop := forall t name msg rr, Lookup t name = Some msg -> rr ∈ Answer msg -> RData rr <> RText None.
Hypothesis Htexts : texts_there.

Lemma FilterAnswers_in msg t rr : rr ∈ FilterAnswers msg t -> rr ∈ Answer msg.
Proof.
  unfold FilterAnswers. induction (Answer msg) as [|a l IH]; cbn; [done|]. destruct (rrType a =? t); [|intros H; right; by apply IH].
  intros [->|H]%elem_of_cons; [by left|right; by apply IH].
Qed.
Lemma LookupPTR_total ip : exists n, LookupPTR Lookup ip = Ok n.
Proof.
  unfold LookupPTR. destruct ip as [ip|]; [|eauto]. destruct (reverseIP (Some ip)) as [rv v4]. destruct (isnil rv); [eauto|].
  destruct (Lookup QueryTypePTR _) as [msg|] eqn:El; [|eauto]. destruct (FilterAnswers msg QueryTypePTR) as [|rr l] eqn:Ef; [eauto|].
  assert (Hrr : RData rr <> RText None) by (eapply Htexts; [done|]; apply (FilterAnswers_in msg QueryTypePTR); rewrite Ef; by left).
  destruct (RData rr) as [[v|]| | | | | | | |]; eauto. done.
Qed.
Lemma expandLetter_total ref c : exists v, expandLetter Lookup now ref c = Ok v.
Proof.
  unfold expandLetter. repeat (case_match; [by eauto|]). destruct (c =? 112); [destruct (LookupPTR_total (IP ref)) as [n ->]; cbn [mbind outcome_bind]; eauto|].
  repeat (case_match; [by eauto|]). eauto.
Qed.
Lemma macro_parse_fine ref mode : forall fuel st data m, (length data < fuel)%nat -> fine (macro_parse Lookup now fuel ref mode st data m).
Proof.
  induction fuel as [|fuel IH]; intros st data m Hf; [lia|]. cbn [macro_parse]. destruct data as [|c t]; [done|]. cbn in Hf. destruct st.
  - repeat case_match; try done; apply IH; lia.
  - repeat case_match; try done; apply IH; lia.
  - case_match; [apply IH; lia|done].
  - destruct (macro_spec_fine (c :: t) m) as [Hs Hl]. destruct (macro_spec (c :: t) m) as [[m' data']|[]| |]; try done. cbn [mbind outcome_bind].
    specialize (Hl m' data' eq_refl). unfold expand. destruct (expandLetter_total ref (letter m')) as [v ->]. cbn [mbind outcome_bind].
    apply IH. rewrite length_drop. cbn in Hl. lia.
Qed.
Lemma macroExpand_fine ref mode data : fine (macroExpand Lookup now ref mode data).
Proof.
  unfold macroExpand. pose proof (macro_parse_fine ref mode (S (length data)) InText data (mkMacro [] 0 [] 0 false) ltac:(lia)) as H.
  by destruct (macro_parse _ _ _ _ _ _ _ _).
Qed.

(** A term without its qualifier; whether it is [all]; what it includes. *)
Definition unqualified (t : list Z) : list Z :=
  match t with c :: t' => if bool_decide (c ∈ [qualifierPass; qualifierNeutral; qualifierSoftfail; qualifierFail]) then t' else t | [] => [] end.
Definition is_all (t : list Z) : Prop := hd [] (Split 58 (unqualified t)) = mechanismAll.
Definition included (t : list Z) : option (list Z) :=
  match Split 58 (unqualified t) with m :: spec :: _ => if bool_decide (m = mechanismInclude) then Some spec else None | _ => None end.
(** The domain that a term includes does not expand. *)
Definition broken (ref : Result) (t : list Z) : Prop := exists spec, included t = Some spec /\ macroExpand Lookup now ref mechanismInclude spec = Err tt.
(** A term up to the first [all] is broken. *)
Fixpoint fails (ref : Result) (ts : list (list Z)) : Prop :=
  match ts with [] => False | t :: ts => broken ref t \/ ~ is_all t /\ fails ref ts end.

(** Macros are expanded for a host and a sender, whatever was read of the policy so far. *)
Definition reader_of (ref r : Result) : Prop := IP r = IP ref /\ R_Domain r = R_Domain ref /\ Sender r = Sender ref /\ Hostname r = Hostname ref /\
  senderLocal r = senderLocal ref /\ senderDomain r = senderDomain ref.
Lemma macroExpand_reader ref r mode data : reader_of ref r -> macroExpand Lookup now r mode data = macroExpand Lookup now ref mode data.
Proof.
  intros (H1 & H2 & H3 & H4 & H5 & H6). assert (He : forall m, expand Lookup now r m = expand Lookup now ref m)
    by (intros m; unfold expand, expandLetter; by rewrite H1, H2, H3, H4, H5, H6).
  assert (Hp : forall fuel st data m, macro_parse Lookup now fuel r mode st data m = macro_parse Lookup now fuel ref mode st data m);
    [|unfold macroExpand; by rewrite Hp].
  induction fuel as [|fuel IH]; intros st d m; [done|]. cbn [macro_parse]. destruct d as [|c t]; [done|]. destruct st; repeat case_match; try done; try apply IH.
  destruct (macro_spec (c :: t) m) as [[m' d']| | |]; try done. cbn [mbind outcome_bind]. rewrite He. destruct (expand Lookup now ref m'); try done. apply IH.
Qed.

Lemma parseDirective_cases ref r t : t <> [] -> reader_of ref r ->
  (is_all t /\ ~ broken ref t /\ exists d, parseDirective Lookup now r t = Ok (Some d, r) /\ mech d = mechanismAll) \/
  (~ is_all t /\ broken ref t /\ parseDirective Lookup now r t = Ok (None, put_code r ResultCodePermError)) \/
  (~ is_all t /\ ~ broken ref t /\ exists d, parseDirective Lookup now r t = Ok (d, r) /\ forall d', d = Some d' -> mech d' <> mechanismAll).
Proof.
  intros Ht Hr. destruct t as [|c t]; [done|]. unfold is_all, broken, included, parseDirective, get_at. cbn [lookup list_lookup mbind outcome_bind unqualified].
  assert (Hq : exists q, (if (c =? qualifierPass) || (c =? qualifierNeutral) || (c =? qualifierSoftfail) || (c =? qualifierFail) then (c, drop 1 (c :: t)) else (qualifierPass, c :: t))
    = (q, if bool_decide (c ∈ [qualifierPass; qualifierNeutral; qualifierSoftfail; qualifierFail]) then t else c :: t)).
  { destruct (_ || _) eqn:E.
    - exists c. rewrite bool_decide_true; [done|]. rewrite !orb_true_iff, !Z.eqb_eq in E. rewrite !elem_of_cons. tauto.
    - exists qualifierPass. rewrite bool_decide_false; [done|]. rewrite !orb_false_iff, !Z.eqb_neq in E. rewrite !elem_of_cons, elem_of_nil. tauto. }
  destruct Hq as [q ->]. set (term := if bool_decide _ then t else _). cbv iota beta zeta.
  case_bool_decide as Ha.
  { left. split; [done|]. split; [|by eexists]. intros (spec & Hi & _). destruct (Split 58 term) as [|m [|s2 l]]; try done. cbn in Ha. subst m. done. }
  right. case_bool_decide as Hi.
  2: { right. split; [done|]. split; [|exists None; by split]. intros (spec & Hs & _). destruct (Split 58 term) as [|m [|s2 l]]; try done. cbn in Hi.
       by rewrite bool_decide_false in Hs. }
  destruct (Split 58 term) as [|m [|spec l]]; [done| |].
  { right. split; [done|]. split; [by intros (? & ? & _)|]. eexists. split; [done|]. by intros d' [= <-]. }
  cbn in Hi. subst m. rewrite bool_decide_true by done. rewrite (macroExpand_reader ref r) by done.
  pose proof (macroExpand_fine ref mechanismInclude spec) as Hm. destruct (macroExpand Lookup now ref mechanismInclude spec) as [v|[]| |] eqn:Em; try done.
  - right. split; [done|]. split; [intros (s' & [= <-] & H); congruence|]. eexists. split; [done|]. by intros d' [= <-].
  - left. split; [done|]. split; [by exists spec|done].
Qed.
Lemma evaluate_code ref ts : forall r, Forall (.≠ []) ts -> reader_of ref r -> R_Code r = 0 -> exists r', evaluate_terms Lookup now r ts = Ok r' /\
  (fails ref ts /\ R_Code r' = ResultCodePermError \/ ~ fails ref ts /\ R_Code r' = 0).
Proof.
  induction ts as [|t ts IH]; intros r Ht Hr Hc; [exists r; split; [done|right; split; [by intros []|done]]|]. apply Forall_cons in Ht as [Ht Hts]. cbn [evaluate_terms fails].
  destruct (parseDirective_cases ref r t Ht Hr) as [(Ha & Hb & d & -> & Hd)|[(Ha & Hb & ->)|(Ha & Hb & d & -> & Hd)]]; cbn [mbind outcome_bind].
  - rewrite bool_decide_true by done. eexists. split; [done|]. right. split; [tauto|exact Hc].
  - cbn [R_Code put_code negb Z.eqb Pos.eqb ResultCodePermError]. eexists. split; [done|]. left. split; [by left|done].
  - assert (Hgo : forall r1, reader_of ref r1 -> R_Code r1 = 0 -> exists r', evaluate_terms Lookup now r1 ts = Ok r' /\
      ((broken ref t \/ ~ is_all t /\ fails ref ts) /\ R_Code r' = ResultCodePermError \/ ~ (broken ref t \/ ~ is_all t /\ fails ref ts) /\ R_Code r' = 0)).
    { intros r1 H1 H2. destruct (IH r1 Hts H1 H2) as (r' & He & Hf). exists r'. split; [done|]. tauto. }
    destruct d as [d|]; [rewrite bool_decide_false by (by apply Hd)|rewrite Hc; cbn [negb Z.eqb]]; by apply Hgo.
Qed.
Lemma fields_from_ne fuel : forall s w, Forall (.≠ []) (fields_from fuel s w).
Proof.
  assert (Hw : forall w, Forall (.≠ []) (word_end w)) by (intros [|c w]; repeat constructor; done).
  induction fuel as [|fuel IH]; intros s w; [apply Hw|]. cbn [fields_from]. destruct s as [|c s]; [apply Hw|]. destruct (DecodeRune (c :: s)) as [r n].
  destruct (rune_IsSpace r); [apply Forall_app; split; [apply Hw|apply IH]|apply IH].
Qed.
(** The policies among the records of an answer. *)
Definition policies (msg : Message) : list (list Z) :=
  omap (fun rr => match RData rr with RText (Some v) => if HasPrefix v (str "v=spf1") then Some v else None | _ => None end) (FilterAnswers msg QueryTypeTXT).
Lemma spf_records_policies msg : (forall rr, rr ∈ FilterAnswers msg QueryTypeTXT -> RData rr <> RText None) -> spf_records (FilterAnswers msg QueryTypeTXT) = Ok (policies msg).
Proof.
  unfold policies. induction (FilterAnswers msg QueryTypeTXT) as [|rr txts IH]; intros H; [done|]. pose proof (H rr ltac:(by left)) as Hrr.
  specialize (IH (fun a Ha => H a ltac:(by right))). cbn [spf_records omap list_omap]. destruct (RData rr) as [[v|]| | | | | | | |]; try done; rewrite IH; try done.
  rewrite bind_Ok. by destruct (HasPrefix v (str "v=spf1")).
Qed.

(** The sender, and what is checked before the policy is read. *)
Definition full_sender (sender : list Z) : list Z := match index_byte 64 sender with None => str "postmaster@" ++ sender | Some _ => sender end.
Definition checked (ip : option (list Z)) (domain sender hostname : list Z) : Result :=
  let i := default 0%nat (index_byte 64 (full_sender sender)) in
  mkResult ip domain (full_sender sender) hostname 0 (take i (full_sender sender)) (drop (S i) (full_sender sender)) [] [] [].
(** No policy, an answer that cannot be had now, and a policy that cannot be read. *)
Definition no_policy (domain : list Z) : Prop :=
  IsHostnameValid domain true = false \/
  exists msg, Lookup QueryTypeTXT domain = Some msg /\ (DnsHeader.RCode (Header msg) = RCodeErrName \/ DnsHeader.RCode (Header msg) = RCodeOK /\ policies msg = []).
Definition no_answer (domain : list Z) : Prop :=
  IsHostnameValid domain true = true /\
  forall msg, Lookup QueryTypeTXT domain = Some msg -> DnsHeader.RCode (Header msg) <> RCodeErrName /\ DnsHeader.RCode (Header msg) <> RCodeOK.
Definition bad_policy (domain : list Z) (ref : Result) : Prop :=
  IsHostnameValid domain true = true /\
  exists msg, Lookup QueryTypeTXT domain = Some msg /\ DnsHeader.RCode (Header msg) = RCodeOK /\
    ((2 <= length (policies msg))%nat \/ exists t, policies msg = [t] /\ fails ref (drop 1 (Fields (text_ToLower t)))).

(** C16: the check of a host ends without a panic, where every TXT record of an answer has its
    text ([texts_there]), and tells the three outcomes without a verdict: its code is None
    exactly if the domain is not a valid hostname, or does not exist, or has no text
    that begins with the version of SPF; it is TempError exactly if the lookup fails or the
    answer has another error; and it is PermError exactly if there are two or more such
    texts, or there is one in which a term up to the first [all] includes a
    domain whose macros do not expand.  What the terms say of the host is read and not
    evaluated, so nothing is said here of the verdicts (see [minus_all_passes]). *)
Theorem CheckHost_outcomes ip domain sender hostname :
  exists r, CheckHost Lookup now ip domain sender hostname = Ok r /\
    (R_Code r = ResultCodeNone <-> no_policy domain) /\ (R_Code r = ResultCodeTempError <-> no_answer domain) /\
    (R_Code r = ResultCodePermError <-> bad_policy domain (checked ip domain sender hostname)).
Proof.
  assert (Hs : exists i, index_byte 64 (full_sender sender) = Some i).
  { unfold full_sender. destruct (index_byte 64 sender) as [i|] eqn:E; [by exists i|]. exists 10%nat. apply index_byte_Some.
    exists (str "postmaster"), sender. split_and!; [done|done|by apply (bool_decide_unpack _)]. }
  destruct Hs as [i Hs]. unfold CheckHost. fold (full_sender sender). set (ref := checked ip domain sender hostname). unfold newResult. rewrite Hs, bind_Ok.
  assert (Href : forall c, mkResult ip domain (full_sender sender) hostname c (take i (full_sender sender)) (drop (S i) (full_sender sender)) [] [] [] = put_code ref c)
    by (intros c; unfold ref, checked, put_code; by rewrite Hs).
  rewrite Href. clear Href. unfold no_policy, no_answer, bad_policy. destruct (IsHostnameValid domain true) eqn:Ev.
  2: { exists (put_code ref ResultCodeNone). split; [done|]. cbn. split_and!; split; try done; [by intros _; left|by intros [? _]..]. }
  cbn [put_code R_Code negb Z.eqb]. change (put_code ref 0) with ref. unfold lookup_policy. change (R_Domain ref) with domain.
  destruct (Lookup QueryTypeTXT domain) as [msg|] eqn:El.
  2: { exists (put_code ref ResultCodeTempError). split; [done|]. cbn. split_and!; split; try done; [by intros [?|(? & ? & _)]|by intros (_ & ? & ? & _)]. }
  assert (Hp := spf_records_policies msg (fun rr Hrr => Htexts _ _ _ _ El (FilterAnswers_in _ _ _ Hrr))).
  destruct (Z.eqb_spec (DnsHeader.RCode (Header msg)) RCodeOK) as [Eok|Eok].
  2: { assert (Hcase : exists c, (if DnsHeader.RCode (Header msg) =? RCodeErrName then Ok (put_code ref ResultCodeNone) else Ok (put_code ref ResultCodeTempError))
         = (Ok (put_code ref c) : outcome unit Result) /\ (c = ResultCodeNone <-> DnsHeader.RCode (Header msg) = RCodeErrName) /\ (c = ResultCodeNone \/ c = ResultCodeTempError)).
       { destruct (Z.eqb_spec (DnsHeader.RCode (Header msg)) RCodeErrName); eexists; (split; [done|]); split; by auto || by split. }
       destruct Hcase as (c & -> & Hc & Hc2). rewrite bind_Ok. cbn [R_Code put_code].
       assert (Hn : negb (c =? 0) = true) by (by destruct Hc2 as [-> | ->]). rewrite Hn. exists (put_code ref c). split; [done|]. cbn [R_Code put_code]. split_and!.
       - rewrite Hc. split; [intros H; right; exists msg; auto|]. intros [?|(m & [= <-] & [H|[H _]])]; done.
       - split; [intros ->; split; [done|]; intros m [= <-]; split; [|done]; by intros H%Hc|]. intros [_ H]. destruct (H msg eq_refl) as [H1 _].
         destruct Hc2 as [Hc2|Hc2]; [by apply Hc in Hc2|done].
       - split; [by intros ->; destruct Hc2|]. intros (_ & m & [= <-] & ? & _). done. }
  assert (Hnone : forall m, Some msg = Some m -> m = msg) by congruence. unfold policies in *. set (ps := omap _ _) in *.
  assert (Hlk : (match FilterAnswers msg QueryTypeTXT with
     | [] => Ok (put_code ref ResultCodeNone)
     | txts => rs ← spf_records txts; match rs with [] => Ok (put_code ref ResultCodeNone) | [t] => Ok (put_terms ref (text_ToLower t))
                                          | t :: _ => Ok (put_code (put_terms ref t) ResultCodePermError) end
     end : outcome unit Result) = match ps with [] => Ok (put_code ref ResultCodeNone) | [t] => Ok (put_terms ref (text_ToLower t))
                                          | t :: _ => Ok (put_code (put_terms ref t) ResultCodePermError) end).
  { unfold ps in *. destruct (FilterAnswers msg QueryTypeTXT) as [|a l]; [done|]. by rewrite Hp, bind_Ok. }
  rewrite Hlk. clear Hlk. fold ps in Hp. assert (Hps : forall m, m = msg -> omap (fun rr => match RData rr with RText (Some v) =>
    if HasPrefix v (str "v=spf1") then Some v else None | _ => None end) (FilterAnswers m QueryTypeTXT) = ps) by (by intros m ->). clearbody ps.
  destruct ps as [|t [|t2 ps]].
  - exists (put_code ref ResultCodeNone). split; [done|]. cbn [R_Code put_code]. split_and!; split; try done.
    + intros _. right. exists msg. auto.
    + intros [_ H]. by destruct (H msg eq_refl).
    + intros (_ & m & [= <-] & _ & [H|(t & H & _)]); [cbn in H|]; rewrite Hps in H by done; [cbn in H; lia|done].
  - rewrite bind_Ok. cbn [R_Code put_terms negb Z.eqb]. unfold evaluateSPFRecord. cbn [terms put_terms].
    destruct (evaluate_code ref (drop 1 (Fields (text_ToLower t))) (put_terms ref (text_ToLower t))) as (r' & -> & Hr'); [apply Forall_drop, fields_from_ne|done|done|].
    exists r'. split; [done|]. split_and!.
    + split; [intros H; rewrite H in Hr'; destruct Hr' as [[_ ?]|[_ ?]]; done|]. intros [?|(m & [= <-] & [H|[_ H]])]; [done|by rewrite Eok in H|]. by rewrite Hps in H.
    + split; [intros H; rewrite H in Hr'; destruct Hr' as [[_ ?]|[_ ?]]; done|]. intros [_ H]. by destruct (H msg eq_refl).
    + split.
      * intros H. rewrite H in Hr'. destruct Hr' as [[Hf _]|[_ ?]]; [|done]. split; [done|]. exists msg. split; [done|]. split; [done|]. right. exists t. by rewrite Hps.
      * intros (_ & m & [= <-] & _ & [H|(t' & H & Hf)]); rewrite Hps in H by done; [cbn in H; lia|]. injection H as <-. by destruct Hr' as [[_ ?]|[? _]].
  - exists (put_code (put_terms ref t) ResultCodePermError). split; [done|]. cbn [R_Code put_code]. split_and!; split; try done.
    + intros [?|(m & [= <-] & [H|[_ H]])]; [done|by rewrite Eok in H|]. by rewrite Hps in H.
    + intros [_ H]. by destruct (H msg eq_refl).
    + intros _. split; [done|]. exists msg. split; [done|]. split; [done|]. left. rewrite Hps by done. cbn. lia.
Qed.
End Check.

(** ** Concrete policies *)

Definition policy (text : list Z) : ResourceRecord :=
  mkRR [] QueryTypeTXT QueryClassIN 0 0 [] (Some text) None None None None None None None 0 0.
Definition answers_with (text : list Z) : Z -> list Z -> option Message := fun t _ =>
  if t =? QueryTypeTXT then Some (set_sections NewMessage [policy text] [] []) else None.
Lemma answers_with_texts text : texts_there (answers_with text).
Proof.
  intros t name msg rr. unfold answers_with. destruct (t =? QueryTypeTXT); [|done]. intros [= <-]. cbn [Answer set_sections].
  intros ->%list_elem_of_singleton. done.
Qed.
Definition check_of (text : list Z) : outcome unit Result :=
  CheckHost (H := ascii_tables) (answers_with text) 0 (Some [192; 0; 2; 1]) (str "example.org") (str "ann@mail.example") (str "host").

Lemma CheckHost_outcomes_witness : exists r, check_of (str "v=spf1 include:%{x}") = Ok r /\
  (R_Code r = ResultCodePermError <-> bad_policy (U := ascii_tables) (answers_with (str "v=spf1 include:%{x}")) 0 (str "example.org")
    (checked (Some [192; 0; 2; 1]) (str "example.org") (str "ann@mail.example") (str "host"))).
Proof.
  destruct (CheckHost_outcomes (U := ascii_tables) (answers_with (str "v=spf1 include:%{x}")) 0 (answers_with_texts _)
    (Some [192; 0; 2; 1]) (str "example.org") (str "ann@mail.example") (str "host")) as (r & HE & _ & _ & H).
  exists r. split; [exact HE|exact H].
Defined.
(** A domain to include whose macros do not expand, before and behind [all]. *)
Example include_broken : (exists r, check_of (str "v=spf1 include:%{x} all") = Ok r /\ R_Code r = ResultCodePermError) /\
  (exists r, check_of (str "v=spf1 all include:%{x}") = Ok r /\ R_Code r = ResultCodePass).
Proof. split; eexists; (split; [vm_compute; reflexivity|done]). Qed.
(** A policy that lets no host send is passed. *)
Example minus_all_passes : exists r, check_of (str "v=spf1 -all") = Ok r /\ R_Code r = ResultCodePass /\ (qual <$> dirs r) = [qualifierFail].
Proof. eexists. split; [vm_compute; reflexivity|]. by split. Qed.

Definition demo_result : Result :=
  mkResult (Some [192; 0; 2; 3]) (str "email.example.com") (str "strong-bad@email.example.com") (str "host") 0 (str "strong-bad") (str "email.example.com") [] [] [].
Definition demo_items : list item :=
  [Macro 100 (Some 2) false []; Lit 46; Macro 108 None true [45]; Lit 46; Macro 105 None true []; Percent].
Lemma demo_items_ok : Forall (rfc_item modifierExp) demo_items.
Proof.
  assert (Hd : forall d, isDelimiter d = true -> Forall (fun d => isDelimiter d = true) [d]) by (intros d Hd; by constructor).
  unfold demo_items, rfc_item. repeat (apply Forall_cons; split); try done; cbn [item_ok].
  all: split; [first [done|lia|split; [done|]; split; [intros k [= <-]; lia|by (done || apply Hd)]]|].
  all: first [done|split; [intros k [= <-]; lia|cbn; lia]].
Qed.
Definition demo_session : session :=
  mkSession (Some [192; 0; 2; 3]) (str "email.example.com") (str "strong-bad") (str "email.example.com") (str "host") 7.
(** Where the separators of a macro are several, the code looks for all of them in a row. *)
Example separators_in_a_row : macroExpand (answers_with []) 7 demo_result modifierExp (str "%{s-@}") = Err tt /\
  macroExpand (answers_with []) 7 demo_result modifierExp (str "%{lr-_}") = Ok (str "strong-bad").
Proof. split; vm_compute; reflexivity. Qed.
(** A macro that is not closed is dropped without an error. *)
Example open_macro_dropped : macroExpand (answers_with []) 7 demo_result mechanismInclude (str "a%{d") = Ok (str "a").
Proof. vm_compute. reflexivity. Qed.
(** The name of the host of HELO stands for the domain instead. *)
Example helo_is_domain : expandLetter (answers_with []) 7 demo_result 104 = Ok (R_Domain demo_result).
Proof. reflexivity. Qed.
