(* ===== verification/DkimTag.v ===== *)
(** Package [lib/email/dkim]: the tags of signatures and keys ([tag.go],
    [parser.go]), the names that occur as their values ([canon.go], [signalg.go],
    [hashalg.go], [keyflag.go], [keytype.go], [querymethod.go], [querytype.go],
    [queryoption.go]) and the text functions of [func.go].

    Values of types that have a constant for each meaning are the constructors of
    inductive types, and an error is its kind. *)

From Stdlib Require Import ZArith Lia.
From S2P Require Import Prelude Ascii Bytes Utf8 IoReader.

Local Open Scope Z_scope.

Inductive dkim_error : Type :=
| ErrCRLF | ErrTagKey | ErrTagValue | ErrMissingEqual | ErrDuplicateTag
| ErrVersion | ErrUnknownAlg | ErrCreatedAt | ErrExpiredAt | ErrCanon | ErrBodyLength
| errEmptySignAlg | errEmptySDID | errEmptySelector | errEmptyHeader | errEmptyBodyHash | errEmptySignature
| errFromHeader | errCreatedTime | ErrExpired | ErrAUID | ErrQueryType | ErrQueryOption
| ErrDecodeKey | ErrParseKey | ErrLookup (timeout : bool) | ErrEmptyKey | ErrDecodeSignature | ErrVerification | ErrSigning.

Definition sepColon : Z := 58.
Definition sepSlash : Z := 47.
Definition sepVBar : Z := 124.

(** ** Tags *)

Inductive tagKey : Type :=
| tagUnknown
| tagVersion | tagAlg | tagSDID | tagSelector | tagHeaders | tagBodyHash | tagSignature
| tagCreatedAt | tagExpiredAt
| tagCanon | tagPresentHeaders | tagAUID | tagBodyLength | tagQueryMethod
| tagDNSPublicKey | tagDNSKeyType | tagDNSNotes.
#[export] Instance tagKey_eq_dec : EqDecision tagKey.
Proof. solve_decision. Defined.

Definition tagKeys : list (tagKey * list Z) :=
  [(tagVersion, str "v"); (tagAlg, str "a"); (tagSDID, str "d"); (tagSelector, str "s"); (tagHeaders, str "h");
   (tagBodyHash, str "bh"); (tagSignature, str "b"); (tagCreatedAt, str "t"); (tagExpiredAt, str "x");
   (tagCanon, str "c"); (tagPresentHeaders, str "z"); (tagAUID, str "i"); (tagBodyLength, str "l");
   (tagQueryMethod, str "q"); (tagDNSPublicKey, str "p"); (tagDNSKeyType, str "k"); (tagDNSNotes, str "n")].

(** Looking for a name in a map from keys to names; the names are distinct. *)
Fixpoint key_of {K} (l : list (K * list Z)) (name : list Z) : option K :=
  match l with [] => None | (k, v) :: l => if bool_decide (v = name) then Some k else key_of l name end.

Record tag : Type := mkTag { key : tagKey; value : list Z }.

(** [newTag]: none for an empty key. *)
Definition key_byte (c : Z) : bool := IsAlnum c || (c =? 95).
Definition newTag (k : list Z) : outcome dkim_error (option tag) :=
  match k with
  | [] => Ok None
  | c :: _ =>
      if negb (IsAlpha c) then Err ErrTagKey
      else if negb (forallb key_byte k) then Err ErrTagKey
      else Ok (Some (mkTag (default tagUnknown (key_of tagKeys k)) []))
  end.

(** [setValue]; the receiver may be nil. *)
Definition is_base64 (k : tagKey) : bool :=
  match k with tagSignature | tagBodyHash | tagDNSPublicKey => true | _ => false end.
Fixpoint scan_value (isBase64 : bool) (val b64 : list Z) : option (list Z) :=
  match val with
  | [] => Some b64
  | c :: val =>
      if IsSpace c then scan_value isBase64 val b64
      else if (c <? 33) || (c =? 59) || (126 <? c) then if negb isBase64 then None else scan_value isBase64 val b64
      else scan_value isBase64 val (if isBase64 then b64 ++ [c] else b64)
  end.
Definition setValue (t : option tag) (val : list Z) : outcome dkim_error (option tag) :=
  match val with
  | [] => Ok t
  | _ =>
      match t with
      | None => Panic
      | Some t =>
          match scan_value (is_base64 (key t)) val [] with
          | None => Err ErrTagValue
          | Some b64 => Ok (Some (mkTag (key t) (if is_base64 (key t) then b64 else val)))
          end
      end
  end.

(** ** [parser.go] *)

Record parser : Type := mkParser { tags : list tagKey; rd : Reader }.
Definition newParser (v : list Z) : parser := mkParser [] (Init v).

(** The tag, the byte that the parser stands at, and the parser. *)
Definition fetchTagKey (p : parser) : outcome dkim_error (option tag * Z * parser) :=
  '(tok, isTerm, c, r) ← ReadUntil (rd p) [61] Spaces;
  t ← newTag tok;
  match t with
  | None => Ok (None, c, mkParser (tags p) r)
  | Some t =>
      r ← (if (isTerm : bool) || (c =? 0) then
             let '(c, r) := SkipSpaces r in
             if negb (c =? 61) then Err ErrMissingEqual else Ok (SkipN r 1).2
           else Ok r);
      ts ← (if decide (key t = tagUnknown) then Ok (tags p)
            else if decide (key t ∈ tags p) then Err ErrDuplicateTag else Ok (key t :: tags p));
      let '(c, r) := SkipSpaces r in
      Ok (Some t, c, mkParser ts r)
  end.

Fixpoint value_loop (fuel : nat) (v : list Z) (r : Reader) : outcome dkim_error (list Z * Reader) :=
  match fuel with
  | O => NoFuel
  | S fuel =>
      '(tok, isTerm, c, r) ← ReadUntil r [13] [59];
      let v := v ++ tok in
      if (isTerm : bool) || (c =? 0) then Ok (v, r) else value_loop fuel v (SkipSpaces r).2
  end.
Definition fetchTagValue (t : option tag) (p : parser) : outcome dkim_error (option tag * parser) :=
  '(v, r) ← value_loop (S (length (V (rd p)))) [] (rd p);
  t ← setValue t v;
  Ok (t, mkParser (tags p) r).

Definition fetchTag (p : parser) : outcome dkim_error (option tag * parser) :=
  let '(c, r) := SkipSpaces (rd p) in
  let p := mkParser (tags p) r in
  if c =? 0 then Ok (None, p)
  else
    '(t, c, p) ← fetchTagKey p;
    if c =? 0 then Ok (t, p) else fetchTagValue t p.

(** ** Names of values *)

Inductive Canon : Type := CanonSimple | CanonRelaxed.
#[export] Instance Canon_eq_dec : EqDecision Canon.
Proof. solve_decision. Defined.
Definition canonNames : list (Canon * list Z) := [(CanonSimple, str "simple"); (CanonRelaxed, str "relaxed")].
Definition canon_name (c : Canon) : list Z := match c with CanonSimple => str "simple" | CanonRelaxed => str "relaxed" end.

Definition parseCanonValue (v : list Z) : outcome dkim_error (option Canon) :=
  match v with
  | [] => Ok None
  | _ => match key_of canonNames v with Some k => Ok (Some k) | None => Err ErrCanon end
  end.
Definition unpackCanons (v : list Z) : outcome dkim_error (option Canon * option Canon) :=
  '(vHeader, vBody) ← match Split sepSlash v with
                      | [] => Ok ([], [])
                      | [h] => Ok (h, [])
                      | [h; b] => Ok (h, b)
                      | _ => Err ErrCanon
                      end;
  canonHeader ← parseCanonValue vHeader;
  match canonHeader with
  | None => Ok (None, None)
  | Some _ => canonBody ← parseCanonValue vBody; Ok (canonHeader, canonBody)
  end.

Inductive SignAlg : Type := SignAlgRS256 | SignAlgRS1.
#[export] Instance SignAlg_eq_dec : EqDecision SignAlg.
Proof. solve_decision. Defined.
Definition signAlgNames : list (SignAlg * list Z) := [(SignAlgRS256, str "rsa-sha256"); (SignAlgRS1, str "rsa-sha1")].
Definition signAlg_name (a : SignAlg) : list Z := match a with SignAlgRS256 => str "rsa-sha256" | SignAlgRS1 => str "rsa-sha1" end.

Inductive HashAlg : Type := HashAlgALL | HashAlgSHA256 | HashAlgSHA1.
#[export] Instance HashAlg_eq_dec : EqDecision HashAlg.
Proof. solve_decision. Defined.
Definition hashAlgNames : list (HashAlg * list Z) := [(HashAlgSHA256, str "sha256"); (HashAlgSHA1, str "sha1")].
Definition hashAlg_name (a : HashAlg) : list Z :=
  match a with HashAlgALL => [] | HashAlgSHA256 => str "sha256" | HashAlgSHA1 => str "sha1" end.
Definition unpackHashAlgs (v : list Z) : list HashAlg :=
  match omap (key_of hashAlgNames) (Split sepColon v) with [] => [HashAlgALL] | l => l end.
Fixpoint packHashAlgs_loop (bb : list Z) (algs : list HashAlg) : list Z :=
  match algs with
  | [] => bb
  | HashAlgALL :: _ => []
  | v :: algs => packHashAlgs_loop ((match bb with [] => [] | _ => bb ++ [sepColon] end) ++ hashAlg_name v) algs
  end.
Definition packHashAlgs (algs : list HashAlg) : list Z := packHashAlgs_loop [] algs.

Inductive KeyFlag : Type := KeyFlagTesting | KeyFlagStrict.
#[export] Instance KeyFlag_eq_dec : EqDecision KeyFlag.
Proof. solve_decision. Defined.
Definition keyFlag_byte (f : KeyFlag) : Z := match f with KeyFlagTesting => 121 | KeyFlagStrict => 115 end.
Definition flag_of (w : list Z) : option KeyFlag :=
  match w with
  | [c] => if c =? 121 then Some KeyFlagTesting else if c =? 115 then Some KeyFlagStrict else None
  | _ => None
  end.
Definition insertKeyFlag (flags : list KeyFlag) (k : KeyFlag) : list KeyFlag := if decide (k ∈ flags) then flags else flags ++ [k].
Definition unpackKeyFlags (v : list Z) : list KeyFlag :=
  fold_left (fun out w => match flag_of w with Some k => insertKeyFlag out k | None => out end) (Split sepColon v) [].
Definition packKeyFlags (flags : list KeyFlag) : list Z :=
  fold_left (fun bb f => (match bb with [] => [] | _ => bb ++ [sepColon] end) ++ [keyFlag_byte f]) flags [].

Inductive KeyType : Type := KeyTypeRSA.
Definition keyType_name (t : KeyType) : list Z := match t with KeyTypeRSA => str "rsa" end.
Definition parseKeyType (v : list Z) : option KeyType := key_of [(KeyTypeRSA, str "rsa")] v.

Inductive QueryType : Type := QueryTypeDNS.
Inductive QueryOption : Type := QueryOptionTXT.
Definition queryTypeNames : list (QueryType * list Z) := [(QueryTypeDNS, str "dns")].
Definition queryOptionNames : list (QueryOption * list Z) := [(QueryOptionTXT, str "txt")].
Definition queryType_name (t : QueryType) : list Z := match t with QueryTypeDNS => str "dns" end.
Definition queryOption_name (o : QueryOption) : list Z := match o with QueryOptionTXT => str "txt" end.
Record QueryMethod : Type := mkQuery { qmType : QueryType; qmOption : QueryOption }.

(** ** [func.go] *)

(** [DecodeQP]. *)
Fixpoint DecodeQP (raw : list Z) : list Z :=
  match raw with
  | [] => []
  | c :: rest =>
      if IsSpace c then DecodeQP rest
      else
        match rest with
        | h :: l :: rest' =>
            if c =? 61 then
              match ReadHexByte (E := unit) [h; l] 0 with
              | Ok (b, true) => b :: DecodeQP rest'
              | _ => c :: DecodeQP rest
              end
            else c :: DecodeQP rest
        | _ => c :: DecodeQP rest
        end
  end.

(** [Canonicalize]: up to the first [b=] that is not at the beginning, and from
    the semicolon after it; then without the last line end. *)
Fixpoint split_b (pre s : list Z) : option (list Z * list Z) :=
  match s with
  | [] => None
  | c :: s =>
      if (c =? 61) && bool_decide (1 < length pre)%nat && bool_decide (last pre = Some 98) then Some (pre ++ [c], s)
      else split_b (pre ++ [c]) s
  end.
Fixpoint from_semicolon (s : list Z) : list Z :=
  match s with [] => [] | c :: s' => if c =? 59 then s else from_semicolon s' end.
Definition cut_CRLF (out : list Z) : list Z :=
  let n := length out in
  if bool_decide (drop (n - 2) out = [13; 10]) then take (n - 2) out else out.
Definition Canonicalize (raw : list Z) : list Z :=
  match split_b [] raw with
  | None | Some (_, []) => []
  | Some (pre, s) => cut_CRLF (pre ++ from_semicolon s)
  end.
