(* ===== verification/DkimSignature.v ===== *)
(** Package [lib/email/dkim], file [signature.go]: signatures, and [key.go],
    [keypool.go]: keys.

    The hash functions, RSA and the parser of public keys are the fields of a
    class; the time is an argument, in seconds.  A byte slice that is nil is an
    empty one; the pointers of optional fields are options. *)

From Stdlib Require Import ZArith Lia.
From S2P Require Import Prelude Ascii Utf8 Strconv Base64 IoReader DkimTag.

Local Open Scope Z_scope.

(** Packages [crypto/sha1], [crypto/sha256], [crypto/rsa] and [crypto/x509]: the
    digests, [SignPKCS1v15], [VerifyPKCS1v15] and [ParsePKIXPublicKey], which
    gives keys of other kinds too. *)
Inductive public_key (K : Type) : Type := RSA_key (k : K) | other_key.
Arguments RSA_key {K} k.
Arguments other_key {K}.
Class Crypto : Type := {
  PrivateKey : Type;
  PublicKey : Type;
  sha256 : list Z -> list Z;
  sha1 : list Z -> list Z;
  SignPKCS1v15 : PrivateKey -> SignAlg -> list Z -> option (list Z);
  VerifyPKCS1v15 : PublicKey -> SignAlg -> list Z -> list Z -> bool;
  ParsePKIXPublicKey : list Z -> option (public_key PublicKey)
}.

Record Signature : Type := mkSignature {
  Version : list Z;
  Alg : option SignAlg;
  SDID : list Z;
  Selector : list Z;
  Headers : list (list Z);
  BodyHash : list Z;
  Value : list Z;
  CreatedAt : Z;
  ExpiredAt : Z;
  CanonHeader : option Canon;
  CanonBody : option Canon;
  PresentHeaders : list (list Z);
  AUID : list Z;
  BodyLength : option Z;
  QMethod : option QueryMethod;
  raw : list Z
}.
Definition zeroSignature : Signature := mkSignature [] None [] [] [] [] [] 0 0 None None [] [] None None [].

Definition put_Version (s : Signature) v := mkSignature v (Alg s) (SDID s) (Selector s) (Headers s) (BodyHash s) (Value s) (CreatedAt s) (ExpiredAt s) (CanonHeader s) (CanonBody s) (PresentHeaders s) (AUID s) (BodyLength s) (QMethod s) (raw s).
Definition put_Alg (s : Signature) v := mkSignature (Version s) v (SDID s) (Selector s) (Headers s) (BodyHash s) (Value s) (CreatedAt s) (ExpiredAt s) (CanonHeader s) (CanonBody s) (PresentHeaders s) (AUID s) (BodyLength s) (QMethod s) (raw s).
Definition put_SDID (s : Signature) v := mkSignature (Version s) (Alg s) v (Selector s) (Headers s) (BodyHash s) (Value s) (CreatedAt s) (ExpiredAt s) (CanonHeader s) (CanonBody s) (PresentHeaders s) (AUID s) (BodyLength s) (QMethod s) (raw s).
Definition put_Selector (s : Signature) v := mkSignature (Version s) (Alg s) (SDID s) v (Headers s) (BodyHash s) (Value s) (CreatedAt s) (ExpiredAt s) (CanonHeader s) (CanonBody s) (PresentHeaders s) (AUID s) (BodyLength s) (QMethod s) (raw s).
Definition put_Headers (s : Signature) v := mkSignature (Version s) (Alg s) (SDID s) (Selector s) v (BodyHash s) (Value s) (CreatedAt s) (ExpiredAt s) (CanonHeader s) (CanonBody s) (PresentHeaders s) (AUID s) (BodyLength s) (QMethod s) (raw s).
Definition put_BodyHash (s : Signature) v := mkSignature (Version s) (Alg s) (SDID s) (Selector s) (Headers s) v (Value s) (CreatedAt s) (ExpiredAt s) (CanonHeader s) (CanonBody s) (PresentHeaders s) (AUID s) (BodyLength s) (QMethod s) (raw s).
Definition put_Value (s : Signature) v := mkSignature (Version s) (Alg s) (SDID s) (Selector s) (Headers s) (BodyHash s) v (CreatedAt s) (ExpiredAt s) (CanonHeader s) (CanonBody s) (PresentHeaders s) (AUID s) (BodyLength s) (QMethod s) (raw s).
Definition put_CreatedAt (s : Signature) v := mkSignature (Version s) (Alg s) (SDID s) (Selector s) (Headers s) (BodyHash s) (Value s) v (ExpiredAt s) (CanonHeader s) (CanonBody s) (PresentHeaders s) (AUID s) (BodyLength s) (QMethod s) (raw s).
Definition put_ExpiredAt (s : Signature) v := mkSignature (Version s) (Alg s) (SDID s) (Selector s) (Headers s) (BodyHash s) (Value s) (CreatedAt s) v (CanonHeader s) (CanonBody s) (PresentHeaders s) (AUID s) (BodyLength s) (QMethod s) (raw s).
Definition put_Canons (s : Signature) h b := mkSignature (Version s) (Alg s) (SDID s) (Selector s) (Headers s) (BodyHash s) (Value s) (CreatedAt s) (ExpiredAt s) h b (PresentHeaders s) (AUID s) (BodyLength s) (QMethod s) (raw s).
Definition put_PresentHeaders (s : Signature) v := mkSignature (Version s) (Alg s) (SDID s) (Selector s) (Headers s) (BodyHash s) (Value s) (CreatedAt s) (ExpiredAt s) (CanonHeader s) (CanonBody s) v (AUID s) (BodyLength s) (QMethod s) (raw s).
Definition put_AUID (s : Signature) v := mkSignature (Version s) (Alg s) (SDID s) (Selector s) (Headers s) (BodyHash s) (Value s) (CreatedAt s) (ExpiredAt s) (CanonHeader s) (CanonBody s) (PresentHeaders s) v (BodyLength s) (QMethod s) (raw s).
Definition put_BodyLength (s : Signature) v := mkSignature (Version s) (Alg s) (SDID s) (Selector s) (Headers s) (BodyHash s) (Value s) (CreatedAt s) (ExpiredAt s) (CanonHeader s) (CanonBody s) (PresentHeaders s) (AUID s) v (QMethod s) (raw s).
Definition put_QMethod (s : Signature) v := mkSignature (Version s) (Alg s) (SDID s) (Selector s) (Headers s) (BodyHash s) (Value s) (CreatedAt s) (ExpiredAt s) (CanonHeader s) (CanonBody s) (PresentHeaders s) (AUID s) (BodyLength s) v (raw s).
Definition put_raw (s : Signature) v := mkSignature (Version s) (Alg s) (SDID s) (Selector s) (Headers s) (BodyHash s) (Value s) (CreatedAt s) (ExpiredAt s) (CanonHeader s) (CanonBody s) (PresentHeaders s) (AUID s) (BodyLength s) (QMethod s) v.


(** ** Validation *)

Definition validateHeaders (s : Signature) : option dkim_error :=
  if bool_decide (str "from" ∈ Headers s) then None else Some errFromHeader.

(** The time of the signature; [now] is [time.Now().Unix()]. *)
Definition validateTime (now : Z) (s : Signature) : option dkim_error :=
  if (ExpiredAt s =? 0) || (CreatedAt s =? 0) then None
  else if ExpiredAt s <? CreatedAt s then Some errCreatedTime
  else if ExpiredAt s <? u64 (now - 3600) then Some ErrExpired
  else None.

Definition HasSuffix (s suffix : list Z) : bool :=
  bool_decide (length suffix <= length s)%nat && bool_decide (drop (length s - length suffix) s = suffix).
Definition validateAUID (s : Signature) : option dkim_error :=
  match AUID s with
  | [] => None
  | _ =>
      match Split 64 (AUID s) with
      | [_; d] => if HasSuffix d (SDID s) then None else Some ErrAUID
      | _ => Some ErrAUID
      end
  end.

Definition Validate (now : Z) (s : Signature) : option dkim_error :=
  if negb (bool_decide (head (Version s) = Some 49)) then Some ErrVersion
  else if bool_decide (Alg s = None) then Some errEmptySignAlg
  else if isnil (SDID s) then Some errEmptySDID
  else if isnil (Selector s) then Some errEmptySelector
  else if isnil (Headers s) then Some errEmptyHeader
  else
    match validateHeaders s with
    | Some e => Some e
    | None =>
        if isnil (BodyHash s) then Some errEmptyBodyHash
        else if isnil (Value s) then Some errEmptySignature
        else match validateTime now s with Some e => Some e | None => validateAUID s end
    end.

(** ** Parsing *)

Definition setQueryMethod (s : Signature) (qtype qopt : list Z) : Signature * option dkim_error :=
  match qtype with
  | [] => (s, None)
  | _ =>
      match key_of queryTypeNames qtype with
      | None => (put_QMethod s (Some (mkQuery QueryTypeDNS QueryOptionTXT)), Some ErrQueryType)
      | Some k =>
          let s := put_QMethod s (Some (mkQuery k QueryOptionTXT)) in
          match qopt with
          | [] => (s, None)
          | _ =>
              match key_of queryOptionNames qopt with
              | None => (s, Some ErrQueryOption)
              | Some o => (put_QMethod s (Some (mkQuery k o)), None)
              end
          end
      end
  end.
Definition setQueryMethods (s : Signature) (v : list Z) : Signature :=
  fold_left (fun s m =>
    let '(qtype, qopt) := match Split sepSlash m with [t] => (t, []) | [t; o] => (t, o) | _ => ([], []) end in
    match setQueryMethod s qtype qopt with
    | (s, None) => s
    | (s, Some _) => put_QMethod s None
    end) (Split sepColon v) s.

Section Set_.
Context {U : Unicode}.

(** [set]: the signature is changed even where there is an error. *)
Definition sig_set (now : Z) (s : Signature) (t : tag) : Signature * option dkim_error :=
  let v := value t in
  match key t with
  | tagVersion => if bool_decide (v = [49]) then (put_Version s v, None) else (s, Some ErrVersion)
  | tagAlg => match key_of signAlgNames v with Some k => (put_Alg s (Some k), None) | None => (s, Some ErrUnknownAlg) end
  | tagSDID => if isnil v then (s, Some errEmptySDID) else (put_SDID s v, None)
  | tagHeaders =>
      if isnil v then (s, Some errEmptyHeader)
      else
        let s := put_Headers s (Headers s ++ ((fun h => text_ToLower (TrimSpace h)) <$> Split sepColon v)) in
        (s, validateHeaders s)
  | tagSelector => if isnil v then (s, Some errEmptySelector) else (put_Selector s v, None)
  | tagBodyHash => if isnil v then (s, Some errEmptyBodyHash) else (put_BodyHash s v, None)
  | tagSignature => if isnil v then (s, Some errEmptySignature) else (put_Value s v, None)
  | tagCreatedAt =>
      let '(n, ok) := ParseUint64 v in
      let s := put_CreatedAt s n in
      (s, if ok then validateTime now s else Some ErrCreatedAt)
  | tagExpiredAt =>
      let '(n, ok) := ParseUint64 v in
      let s := put_ExpiredAt s n in
      (s, if ok then validateTime now s else Some ErrExpiredAt)
  | tagCanon =>
      match unpackCanons v with
      | Ok (h, b) => (put_Canons s h b, None)
      | Err e => (put_Canons s None None, Some e)
      | _ => (s, None)
      end
  | tagPresentHeaders => (put_PresentHeaders s (PresentHeaders s ++ (TrimSpace <$> Split sepVBar v)), None)
  | tagAUID => let s := put_AUID s v in (s, validateAUID s)
  | tagBodyLength =>
      let '(n, ok) := ParseUint64 v in
      if ok then (put_BodyLength s (Some n), None) else (s, Some ErrBodyLength)
  | tagQueryMethod => (setQueryMethods s v, None)
  | tagUnknown | tagDNSPublicKey | tagDNSKeyType | tagDNSNotes => (s, None)
  end.

(** [Parse]; an error comes with the signature as far as it was read. *)
Definition with_sig {A} (s : option Signature) (o : outcome dkim_error A) : outcome (dkim_error * option Signature) A :=
  match o with Ok a => Ok a | Err e => Err (e, s) | Panic => Panic | NoFuel => NoFuel end.
Fixpoint Parse_loop (fuel : nat) (now : Z) (s : Signature) (p : parser) : outcome (dkim_error * option Signature) Signature :=
  match fuel with
  | O => NoFuel
  | S fuel =>
      '(t, p) ← with_sig (Some s) (fetchTag p);
      match t with
      | None => Ok s
      | Some t =>
          if decide (key t = tagUnknown) then Parse_loop fuel now s p
          else
            match sig_set now s t with
            | (s, Some e) => Err (e, Some s)
            | (s, None) => Parse_loop fuel now s p
            end
      end
  end.
Definition Parse (now : Z) (v : list Z) : outcome (dkim_error * option Signature) (option Signature) :=
  match v with
  | [] => Ok None
  | _ =>
      l ← with_sig None (if decide (length v < 2)%nat then Panic else get_at v (length v - 2));
      m ← with_sig None (get_at v (length v - 1));
      if negb (l =? 13) && negb (m =? 10) then Err (ErrCRLF, None)
      else
        s ← Parse_loop (S (length v)) now zeroSignature (newParser v);
        Ok (Some (put_raw s v))
  end.

(** ** Printing *)

Definition wrap (simple : bool) : list Z := if simple then [13; 10; 32] else [32].
Definition join_with (sep : list Z) (l : list (list Z)) : list Z :=
  match l with [] => [] | w :: l => fold_left (fun acc w => acc ++ sep ++ w) l w end.
Definition Pack (s : Signature) (simple : bool) : list Z :=
  let sigAlg := match Alg s with Some a => signAlg_name a | None => signAlg_name SignAlgRS256 end in
  str "v=" ++ Version s ++ str "; a=" ++ sigAlg ++ str "; d=" ++ SDID s ++ str "; s=" ++ Selector s ++ str ";" ++ wrap simple ++
  str "h=" ++ join_with [sepColon] (Headers s) ++ str ";" ++ wrap simple ++
  str "bh=" ++ BodyHash s ++ str ";" ++ wrap simple ++
  str "b=" ++ Value s ++ str ";" ++ wrap simple ++
  (if 0 <? CreatedAt s then str "t=" ++ dec (CreatedAt s) ++ str "; " else []) ++
  (if 0 <? ExpiredAt s then str "x=" ++ dec (ExpiredAt s) ++ str "; " else []) ++
  match CanonHeader s with
  | Some h =>
      str "c=" ++ canon_name h ++ match CanonBody s with Some b => [47] ++ canon_name b ++ str ";" | None => str ";" end ++ wrap simple
  | None => []
  end ++
  match PresentHeaders s with
  | [] => []
  | zs => str "z=" ++ join_with ([sepVBar] ++ wrap simple) zs ++ str ";" ++ wrap simple
  end ++
  (if isnil (AUID s) then [] else str "i=" ++ AUID s ++ str "; ") ++
  match BodyLength s with Some l => str "l=" ++ dec l ++ str "; " | None => [] end ++
  match QMethod s with Some q => str "q=" ++ queryType_name (qmType q) ++ [47] ++ queryOption_name (qmOption q) | None => [] end ++
  [13; 10].

Definition sig_Relaxed (s : Signature) : list Z := Pack s false.
Definition sig_Simple (s : Signature) : list Z := if isnil (raw s) then Pack s true else raw s.

Definition SetDefault (s : Signature) : Signature :=
  let s := if isnil (Version s) then put_Version s [49] else s in
  let s := match Alg s with None => put_Alg s (Some SignAlgRS256) | Some _ => s end in
  let s := match CanonHeader s with None => put_Canons s (Some CanonRelaxed) (CanonBody s) | Some _ => s end in
  match CanonBody s with None => put_Canons s (CanonHeader s) (Some CanonRelaxed) | Some _ => s end.
Definition NewSignature (sdid selector : list Z) : Signature :=
  SetDefault (put_Selector (put_SDID zeroSignature sdid) selector).

End Set_.

(** ** Hashing and signing *)

Section Signing.
Context {C : Crypto}.

Definition Hash (s : Signature) (inp : list Z) : list Z * list Z :=
  let h := match Alg s with None | Some SignAlgRS256 => sha256 inp | Some SignAlgRS1 => sha1 inp end in
  (h, b64_encode h).
Definition crypto_hash (s : Signature) : SignAlg := match Alg s with Some SignAlgRS1 => SignAlgRS1 | _ => SignAlgRS256 end.

(** [Sign], with a key. *)
Definition Sign (s : Signature) (pk : PrivateKey) (hashHeader : list Z) : outcome dkim_error Signature :=
  match SignPKCS1v15 pk (crypto_hash s) hashHeader with
  | None => Err ErrSigning
  | Some b => Ok (put_Value s (b64_encode b))
  end.

(** ** Keys *)

Record Key : Type := mkKey {
  Public : list Z;
  keyVersion : list Z;
  keyType : option KeyType;
  HashAlgs : list HashAlg;
  Notes : list Z;
  Services : list (list Z);
  Flags : list KeyFlag;
  RSA : option PublicKey;
  keyExpiredAt : Z
}.
Definition zeroKey : Key := mkKey [] [] None [] [] [] [] None 0.

Definition key_set (k : Key) (t : tag) : outcome dkim_error Key :=
  let v := value t in
  match key t with
  | tagDNSPublicKey =>
      match b64_decode false v with
      | None => Err ErrDecodeKey
      | Some pkey =>
          match ParsePKIXPublicKey pkey with
          | None => Err ErrParseKey
          | Some other_key => Panic
          | Some (RSA_key pk) => Ok (mkKey v (keyVersion k) (keyType k) (HashAlgs k) (Notes k) (Services k) (Flags k) (Some pk) (keyExpiredAt k))
          end
      end
  | tagVersion => Ok (mkKey (Public k) v (keyType k) (HashAlgs k) (Notes k) (Services k) (Flags k) (RSA k) (keyExpiredAt k))
  | tagHeaders => Ok (mkKey (Public k) (keyVersion k) (keyType k) (unpackHashAlgs v) (Notes k) (Services k) (Flags k) (RSA k) (keyExpiredAt k))
  | tagDNSKeyType => Ok (mkKey (Public k) (keyVersion k) (parseKeyType v) (HashAlgs k) (Notes k) (Services k) (Flags k) (RSA k) (keyExpiredAt k))
  | tagDNSNotes => Ok (mkKey (Public k) (keyVersion k) (keyType k) (HashAlgs k) v (Services k) (Flags k) (RSA k) (keyExpiredAt k))
  | tagSelector => Ok (mkKey (Public k) (keyVersion k) (keyType k) (HashAlgs k) (Notes k) (Split sepColon v) (Flags k) (RSA k) (keyExpiredAt k))
  | tagCreatedAt => Ok (mkKey (Public k) (keyVersion k) (keyType k) (HashAlgs k) (Notes k) (Services k) (unpackKeyFlags v) (RSA k) (keyExpiredAt k))
  | _ => Ok k
  end.
Fixpoint ParseTXT_loop (fuel : nat) (k : Key) (p : parser) : outcome dkim_error Key :=
  match fuel with
  | O => NoFuel
  | S fuel =>
      '(t, p) ← fetchTag p;
      match t with
      | None => Ok k
      | Some t => k ← key_set k t; ParseTXT_loop fuel k p
      end
  end.
Definition expires_at (k : Key) (t : Z) : Key :=
  mkKey (Public k) (keyVersion k) (keyType k) (HashAlgs k) (Notes k) (Services k) (Flags k) (RSA k) t.
Definition ParseTXT (now : Z) (txt : list Z) (ttl : Z) : outcome dkim_error (option Key) :=
  match txt with
  | [] => Ok None
  | _ => k ← ParseTXT_loop (S (length txt)) zeroKey (newParser txt); Ok (Some (expires_at k (s64 (now + ttl))))
  end.

Definition add_field (bb : list Z) (name v : list Z) : list Z := (match bb with [] => [] | _ => bb ++ [59; 32] end) ++ name ++ v.
Definition key_Pack (k : Key) : list Z :=
  let bb := if isnil (keyVersion k) then [] else str "v=" ++ keyVersion k in
  let bb := if isnil (Public k) then bb else add_field bb (str "p=") (Public k) in
  let bb := match keyType k with None => bb | Some t => add_field bb (str "k=") (keyType_name t) end in
  let bb := if isnil (HashAlgs k) then bb else add_field bb (str "h=") (packHashAlgs (HashAlgs k)) in
  let bb := if isnil (Notes k) then bb else add_field bb (str "n=") (Notes k) in
  let bb := if isnil (Services k) then bb else add_field bb (str "s=") (join_with [sepColon] (Services k)) in
  if isnil (Flags k) then bb else add_field bb (str "t=") (packKeyFlags (Flags k)).
Definition IsExpired (now : Z) (k : Key) : bool := keyExpiredAt k <? now.

(** [Verify]. *)
Definition Verify (s : Signature) (k : option Key) (headerHash : list Z) : option dkim_error :=
  match k with
  | None => Some ErrEmptyKey
  | Some k =>
      match RSA k with
      | None => Some ErrEmptyKey
      | Some pub =>
          match b64_decode true (Value s) with
          | None => Some ErrDecodeSignature
          | Some sigValue => if VerifyPKCS1v15 pub (crypto_hash s) headerHash sigValue then None else Some ErrVerification
          end
      end
  end.

(** [keypool.go]: the keys by name; [lookup] is [LookupKey], which asks a name
    server, at the time of the call. *)
Abbreviation pool := (gmap (list Z) Key).
Definition Put (kp : pool) (dname : list Z) (k : option Key) : pool :=
  match dname, k with
  | [], _ | _, None => kp
  | _, Some k => <[dname := k]> kp
  end.
Definition Get (lookup : list Z -> outcome dkim_error (option Key)) (now : Z) (kp : pool) (dname : list Z)
    : outcome dkim_error (option Key * pool) :=
  match dname with
  | [] => Ok (None, kp)
  | _ =>
      match kp !! dname with
      | Some k => if negb (IsExpired now k) then Ok (Some k, kp)
                  else k ← lookup dname; Ok (k, Put kp dname k)
      | None => k ← lookup dname; Ok (k, Put kp dname k)
      end
  end.
Definition Clear (kp : pool) : pool := ∅.

End Signing.
