(* ===== verification/DkimFacts.v ===== *)
(** Proofs on [DkimTag] and [DkimSignature]: signatures are parsed back from their
    text, in either form, and keys from theirs. *)

From Stdlib Require Import ZArith Lia.
From S2P Require Import Prelude Ascii Utf8 Strconv Base64 IoReader DkimTag DkimSignature.

Local Open Scope Z_scope.

(** ** Text of tags *)

(** A byte of a value. *)
Definition vchar (c : Z) : Prop := 33 <= c <= 126 /\ c ≠ 59.
#[export] Instance vchar_dec c : Decision (vchar c).
Proof. unfold vchar. apply _. Defined.

Lemma vchar_not_space c : vchar c -> IsSpace c = false.
Proof. unfold vchar, IsSpace. intros. rewrite !orb_false_iff, !Z.eqb_neq. lia. Qed.

Lemma vchar_ascii l : Forall vchar l -> is_ascii l.
Proof. intros H. eapply Forall_impl; [exact H|]. unfold vchar. intros. lia. Qed.

(** ** Trimming *)

Lemma vchar_edges w : Forall vchar w -> no_edge_space w.
Proof.
  intros Hw. rewrite Forall_forall in Hw. split; intros b Hb; apply vchar_not_space, Hw.
  - destruct w; [done|]. injection Hb as ->. by left.
  - by apply last_Some_elem_of.
Qed.

Ltac name_ok := by apply (bool_decide_unpack _).

(** ** One tag *)

Lemma SkipSpaces_mid_spaces pre sp c s : Forall (fun c => IsSpace c = true) sp -> IsSpace c = false ->
  SkipSpaces (mid pre (sp ++ c :: s)) = (c, mid (pre ++ sp) (c :: s)).
Proof.
  intros Hsp Hc. unfold SkipSpaces. rewrite unread_mid. rewrite scan_app; [|eapply Forall_impl; [exact Hsp|]; intros x Hx; cbn; by rewrite Hx|by rewrite Hc].
  rewrite list_lookup_middle by done. f_equal. apply mid_move.
Qed.

Lemma SkipSpaces_mid_spaces_end pre sp : Forall (fun c => IsSpace c = true) sp -> SkipSpaces (mid pre sp) = (0, mid (pre ++ sp) []).
Proof.
  intros Hsp. unfold SkipSpaces. rewrite unread_mid. rewrite scan_all by (eapply Forall_impl; [exact Hsp|]; intros x Hx; cbn; by rewrite Hx).
  rewrite lookup_ge_None_2 by done. f_equal. rewrite <- mid_move. by rewrite app_nil_r.
Qed.

(** A key and its equal sign. *)
Lemma fetchTag_at ts pre name k c rest :
  newTag name = Ok (Some (mkTag k [])) -> k ≠ tagUnknown -> k ∉ ts -> Forall (fun c => IsSpace c = false /\ c ≠ 61 /\ c ≠ 0) name ->
  IsSpace c = false -> c ≠ 0 ->
  fetchTag (mkParser ts (mid pre (name ++ 61 :: c :: rest))) =
  fetchTagValue (Some (mkTag k [])) (mkParser (k :: ts) (mid (pre ++ name ++ [61]) (c :: rest))).
Proof.
  intros Hnew Hk Hts Hname Hcs Hc0. destruct name as [|b name]; [done|].
  apply Forall_cons in Hname as H0. destruct H0 as [(Hb & _ & Hb0) _]. unfold fetchTag. cbn [rd tags app].
  rewrite SkipSpaces_mid_stop by done. rewrite (proj2 (Z.eqb_neq b 0)) by done. unfold fetchTagKey. cbn [rd tags].
  rewrite app_comm_cons, ReadUntil_found; [|eapply Forall_impl; [exact Hname|]; intros x (H1 & H2 & _); cbn beta; split;
    [intros Hin; apply IsSpace_Spaces in Hin; congruence|rewrite not_elem_of_cons; split; [done|apply not_elem_of_nil]]|right; by left].
  cbn [mbind outcome_bind]. rewrite Hnew. cbn [mbind outcome_bind key]. change (elem_byte 61 Spaces) with false. cbn [orb Z.eqb Pos.eqb mbind outcome_bind].
  rewrite !decide_False by done. cbn [mbind outcome_bind]. rewrite SkipSpaces_mid_stop by done. cbn [mbind outcome_bind].
  by rewrite (proj2 (Z.eqb_neq c 0)).
Qed.

(** What the loop over a value reads up to the semicolon. *)
Definition value_reads (v w : list Z) : Prop := forall pre rest fuel acc, (length v < fuel)%nat ->
  exists pre', value_loop fuel acc (mid pre (v ++ 59 :: rest)) = Ok (acc ++ w, mid pre' rest).

Lemma value_reads_plain v : Forall (fun c => c ≠ 13 /\ c ≠ 59) v -> value_reads v v.
Proof.
  intros Hv pre rest fuel acc Hf. destruct fuel as [|fuel]; [lia|]. cbn [value_loop].
  rewrite ReadUntil_found; [|eapply Forall_impl; [exact Hv|]; intros c [H1 H2]; cbn beta; rewrite !not_elem_of_cons; repeat split; try done; apply not_elem_of_nil|left; by left].
  cbn [mbind outcome_bind]. by eexists.
Qed.

Lemma value_reads_fold v sp v' w : Forall (fun c => c ≠ 13 /\ c ≠ 59) v -> Forall (fun c => IsSpace c = true) sp ->
  match v' with c :: _ => IsSpace c = false | [] => True end -> value_reads v' w -> value_reads (v ++ 13 :: sp ++ v') (v ++ w).
Proof.
  intros Hv Hsp Hh Hr pre rest fuel acc Hf. rewrite length_app in Hf. cbn in Hf. rewrite length_app in Hf.
  destruct fuel as [|fuel]; [lia|]. cbn [value_loop]. rewrite <- (assoc_L (++)). cbn [app].
  rewrite ReadUntil_found; [|eapply Forall_impl; [exact Hv|]; intros c [H1 H2]; cbn beta; rewrite !not_elem_of_cons; repeat split; try done; apply not_elem_of_nil|right; by left].
  cbn [mbind outcome_bind]. change (elem_byte 13 [59]) with false. cbn [orb Z.eqb].
  rewrite <- (assoc_L (++)).
  assert (Hskip : exists pre', (SkipSpaces (mid (pre ++ v ++ [13]) (sp ++ v' ++ 59 :: rest))).2 = mid pre' (v' ++ 59 :: rest)).
  { destruct v' as [|c v']; cbn [app]; rewrite SkipSpaces_mid_spaces by done; by eexists. }
  destruct Hskip as [pre' ->]. destruct (Hr pre' rest fuel (acc ++ v)) as [pre'' ->]; [lia|]. exists pre''. by rewrite <- (assoc_L (++)).
Qed.

(** Values that are stored as they are read, or, for [base64], without spaces. *)
Lemma scan_value_ok b val : Forall (fun c => vchar c \/ IsSpace c = true) val -> forall b64,
  scan_value b val b64 = Some (b64 ++ (if b then filter (fun c => IsSpace c = false) val else [])).
Proof.
  induction 1 as [|c val Hc _ IH]; intros b64; cbn [scan_value]; [by destruct b; rewrite app_nil_r|]. rewrite filter_cons. destruct Hc as [Hc|Hc].
  - rewrite vchar_not_space by done. rewrite decide_True by done. unfold vchar in Hc.
    rewrite (proj2 (Z.ltb_ge c 33)), (proj2 (Z.eqb_neq c 59)), (proj2 (Z.ltb_ge 126 c)) by lia. cbn [orb]. rewrite IH.
    destruct b; [by rewrite <- (assoc_L (++))|done].
  - rewrite Hc. rewrite decide_False by congruence. apply IH.
Qed.

Lemma setValue_vchar k v : v ≠ [] -> Forall vchar v -> setValue (Some (mkTag k [])) v = Ok (Some (mkTag k v)).
Proof.
  intros Hne Hv. unfold setValue. destruct v as [|c v]; [done|]. rewrite scan_value_ok by (eapply Forall_impl; [exact Hv|]; by left).
  cbn [key app]. destruct (is_base64 k); [|done]. rewrite filter_all; [done|]. eapply Forall_impl; [exact Hv|]. apply vchar_not_space.
Qed.

Lemma setValue_text k v : v ≠ [] -> is_base64 k = false -> Forall (fun c => vchar c \/ IsSpace c = true) v ->
  setValue (Some (mkTag k [])) v = Ok (Some (mkTag k v)).
Proof. intros Hne Hk Hv. unfold setValue. destruct v as [|c v]; [done|]. rewrite scan_value_ok by done. cbn [key]. by rewrite Hk. Qed.

(** ** Lists of words *)

Lemma join_with_cons sep w l : join_with sep (w :: l) = w ++ concat ((fun x => sep ++ x) <$> l).
Proof.
  cbn [join_with]. revert w. induction l as [|x l IH]; intros w; cbn [fold_left fmap list_fmap concat]; [by rewrite app_nil_r|].
  rewrite IH. by rewrite <- !(assoc_L (++)).
Qed.

Lemma Split_join c sp w l : c ∉ w -> c ∉ sp -> Forall (fun x => c ∉ x) l ->
  Split c (join_with (c :: sp) (w :: l)) = w :: ((fun x => sp ++ x) <$> l).
Proof.
  intros Hw Hsp Hl. rewrite join_with_cons. revert w Hw. induction Hl as [|x l Hx _ IH]; intros w Hw; cbn [fmap list_fmap concat].
  - rewrite app_nil_r. by apply Split_none.
  - cbn [app]. rewrite Split_sep by done. f_equal. rewrite <- IH by (rewrite elem_of_app; tauto). done.
Qed.

(** The text of the fields of [z=], and what is read of it. *)
Definition zchar (c : Z) : Prop := vchar c /\ c ≠ 124.
#[export] Instance zchar_dec c : Decision (zchar c).
Proof. unfold zchar. apply _. Defined.
Definition zword (w : list Z) : Prop := w ≠ [] /\ Forall zchar w.
#[export] Instance zword_dec w : Decision (zword w).
Proof. unfold zword. apply _. Defined.

Lemma zword_plain w : zword w -> Forall (fun c => c ≠ 13 /\ c ≠ 59) w.
Proof. intros [_ H]. eapply Forall_impl; [exact H|]. unfold zchar, vchar. intros. lia. Qed.

Lemma zs_reads simple w l : zword w -> Forall zword l ->
  value_reads (join_with (124 :: wrap simple) (w :: l)) (join_with (124 :: (if simple then [] else [32])) (w :: l)).
Proof.
  intros Hw Hl. destruct simple; cbn [wrap].
  - revert w Hw. induction Hl as [|x l Hx Hl IH]; intros w Hw.
    + by apply value_reads_plain, zword_plain.
    + assert (Hj : forall sp, join_with (124 :: sp) (w :: x :: l) = (w ++ [124]) ++ sp ++ join_with (124 :: sp) (x :: l)).
      { intros sp. rewrite !join_with_cons. cbn. by rewrite <- !(assoc_L (++)). }
      rewrite !Hj. cbn [app]. apply (value_reads_fold _ [10; 32]); [|by repeat constructor| |by apply IH].
      * apply Forall_app. split; [by apply zword_plain|]. by repeat constructor.
      * destruct Hx as [Hne Hx]. rewrite join_with_cons. destruct x; [done|]. apply vchar_not_space. by apply Forall_inv in Hx as [? _].
  - apply value_reads_plain. rewrite join_with_cons. apply Forall_app. split; [by apply zword_plain|].
    induction Hl as [|x l Hx Hl IH]; cbn [fmap list_fmap concat]; [done|]. apply Forall_app. split; [|done].
    cbn. repeat (constructor; [done|]). by apply zword_plain.
Qed.

Section Steps.
Context {U : Unicode} (now : Z).

(** From the signature [s], with the tags [ts] read, the parser reads [text] and
    goes on with [s'] and [ts'], after at most [d] tags. *)
Definition steps (d : nat) (s : Signature) (ts : list tagKey) (text : list Z) (s' : Signature) (ts' : list tagKey) : Prop :=
  forall n pre rest, (d <= n)%nat -> exists n' pre', (n <= n' + d)%nat /\
    Parse_loop (S n) now s (mkParser ts (mid pre (text ++ rest))) = Parse_loop (S n') now s' (mkParser ts' (mid pre' rest)).

Lemma steps_app d1 d2 s ts t1 s1 ts1 t2 s2 ts2 :
  steps d1 s ts t1 s1 ts1 -> steps d2 s1 ts1 t2 s2 ts2 -> steps (d1 + d2) s ts (t1 ++ t2) s2 ts2.
Proof.
  intros H1 H2 n pre rest Hn. rewrite <- (assoc_L (++)). destruct (H1 n pre (t2 ++ rest)) as (n1 & pre1 & Hn1 & ->); [lia|].
  destruct (H2 n1 pre1 rest) as (n2 & pre2 & Hn2 & ->); [lia|]. exists n2, pre2. split; [lia|done].
Qed.

Lemma steps_space d s ts t s' ts' sp : Forall (fun c => IsSpace c = true) sp -> steps d s ts t s' ts' -> steps d s ts (t ++ sp) s' ts'.
Proof.
  intros Hsp H n pre rest Hn. rewrite <- (assoc_L (++)). destruct (H n pre (sp ++ rest)) as (n1 & pre1 & Hn1 & ->); [lia|].
  exists n1, (pre1 ++ sp). split; [done|]. cbn [Parse_loop]. f_equal. unfold fetchTag. cbn [rd].
  assert (Hsk : SkipSpaces (mid pre1 (sp ++ rest)) = SkipSpaces (mid (pre1 ++ sp) rest)).
  { clear - Hsp. revert pre1. induction Hsp as [|c sp Hc _ IH]; intros pre; [by rewrite app_nil_r|].
    rewrite (cons_middle c pre sp), (assoc_L (++)), <- IH. unfold SkipSpaces. rewrite !unread_mid. cbn [app scan]. rewrite Hc. cbn.
    f_equal. unfold at_X, mid. cbn. f_equal; [rewrite length_app; cbn; lia|by rewrite <- (assoc_L (++))]. }
  by rewrite Hsk.
Qed.

Lemma steps_tag s ts name k v w w' s' :
  newTag name = Ok (Some (mkTag k [])) -> k ≠ tagUnknown -> k ∉ ts -> Forall (fun c => IsSpace c = false /\ c ≠ 61 /\ c ≠ 0) name ->
  value_reads v w -> match v with c :: _ => vchar c | [] => True end ->
  setValue (Some (mkTag k [])) w = Ok (Some (mkTag k w')) -> sig_set now s (mkTag k w') = (s', None) ->
  steps 1 s ts (name ++ 61 :: v ++ [59]) s' (k :: ts).
Proof.
  intros Hnew Hk Hts Hname Hv Hh Hset Hsig n pre rest Hn. destruct n as [|n]; [lia|]. exists n. cbn [Parse_loop].
  replace ((_ ++ _) ++ rest) with (name ++ 61 :: v ++ 59 :: rest) by (by rewrite <- !(assoc_L (++)); cbn; rewrite <- (assoc_L (++))).
  assert (Hc : exists c rest', v ++ 59 :: rest = c :: rest' /\ IsSpace c = false /\ c ≠ 0).
  { destruct v as [|c v]; [by exists 59, rest|]. exists c, (v ++ 59 :: rest). split; [done|]. split; [by apply vchar_not_space|]. unfold vchar in Hh. lia. }
  destruct Hc as (c & rest' & Hr & Hcs & Hc0). rewrite Hr. rewrite (fetchTag_at _ _ _ _ c rest') by done. rewrite <- Hr.
  unfold fetchTagValue. cbn [rd tags].
  destruct (Hv (pre ++ name ++ [61]) rest (S (length (V (mid (pre ++ name ++ [61]) (v ++ 59 :: rest))))) []) as [pre' ->].
  { cbn [V mid]. rewrite !length_app. cbn. rewrite ?length_app. lia. }
  cbn [mbind outcome_bind app]. rewrite Hset. cbn [with_sig mbind outcome_bind key]. rewrite decide_False by done. rewrite Hsig.
  exists pre'. split; [lia|done].
Qed.

Lemma steps_one s ts name k v s' :
  newTag name = Ok (Some (mkTag k [])) -> k ≠ tagUnknown -> k ∉ ts -> Forall (fun c => IsSpace c = false /\ c ≠ 61 /\ c ≠ 0) name ->
  v ≠ [] -> Forall vchar v -> sig_set now s (mkTag k v) = (s', None) -> steps 1 s ts (name ++ 61 :: v ++ [59]) s' (k :: ts).
Proof.
  intros Hnew Hk Hts Hname Hne Hv Hsig. eapply steps_tag; try done.
  - apply value_reads_plain. eapply Forall_impl; [exact Hv|]. unfold vchar. intros. lia.
  - destruct v; [done|]. by apply Forall_inv in Hv.
  - by apply setValue_vchar.
Qed.

(** The end of the text, and a last tag that ends it. *)
Lemma tags_end n s ts pre sp : Forall (fun c => IsSpace c = true) sp -> Parse_loop (S n) now s (mkParser ts (mid pre sp)) = Ok s.
Proof. intros Hsp. cbn [Parse_loop]. unfold fetchTag. cbn [rd]. by rewrite SkipSpaces_mid_spaces_end. Qed.

End Steps.

(** ** Signatures *)

Definition hchar (c : Z) : Prop := vchar c /\ c ≠ 58.
#[export] Instance hchar_dec c : Decision (hchar c).
Proof. unfold hchar. apply _. Defined.

(** The signatures that are read back from their text at the time [now]. *)
Record signature_ok (now : Z) (s : Signature) : Prop := {
  ok_version : Version s = [49];
  ok_alg : Alg s ≠ None;
  ok_sdid : SDID s ≠ [] /\ Forall vchar (SDID s);
  ok_selector : Selector s ≠ [] /\ Forall vchar (Selector s);
  ok_headers : Forall (fun h => Forall hchar h /\ ToLower h = h) (Headers s) /\ validateHeaders s = None;
  ok_hash : BodyHash s ≠ [] /\ Forall vchar (BodyHash s);
  ok_value : Value s ≠ [] /\ Forall vchar (Value s);
  ok_times : 0 <= CreatedAt s < 2 ^ 64 /\ 0 <= ExpiredAt s < 2 ^ 64 /\ validateTime now s = None;
  ok_canons : CanonHeader s = None -> CanonBody s = None;
  ok_present : Forall zword (PresentHeaders s);
  ok_auid : Forall vchar (AUID s) /\ validateAUID s = None;
  ok_length : match BodyLength s with Some l => 0 <= l < 2 ^ 64 | None => True end
}.

Lemma vchar_dec_text n : 0 <= n -> dec n ≠ [] /\ Forall vchar (dec n).
Proof.
  intros Hn. split; [by apply dec_ne|]. eapply Forall_impl; [by apply dec_digits|]. intros c Hc. unfold IsDigit in Hc.
  apply andb_true_iff in Hc. rewrite !Z.leb_le in Hc. unfold vchar. lia.
Qed.

Lemma headers_join s : Forall (fun h => Forall hchar h /\ ToLower h = h) (Headers s) -> validateHeaders s = None ->
  join_with [sepColon] (Headers s) ≠ [] /\ Forall vchar (join_with [sepColon] (Headers s)) /\
  Split sepColon (join_with [sepColon] (Headers s)) = Headers s.
Proof.
  intros Hh Hv. unfold validateHeaders in Hv. case_bool_decide as Hin; [clear Hv|done].
  destruct (Headers s) as [|w l]; [by apply elem_of_nil in Hin|]. apply Forall_cons in Hh as [[Hw _] Hl].
  assert (Hno : forall x, Forall hchar x -> sepColon ∉ x).
  { intros x Hx Hc. rewrite Forall_forall in Hx. apply Hx in Hc. by destruct Hc as [_ ?]. }
  assert (Hl' : Forall (fun x => sepColon ∉ x) l) by (eapply Forall_impl; [exact Hl|]; intros x [Hx _]; by apply Hno).
  split_and!.
  - rewrite join_with_cons. destruct w; [|done]. destruct l as [|x l]; [|done].
    apply list_elem_of_singleton in Hin. done.
  - rewrite join_with_cons. apply Forall_app. split; [eapply Forall_impl; [exact Hw|]; by intros c [? _]|].
    clear - Hl. induction Hl as [|x l [Hx _] _ IH]; cbn [fmap list_fmap concat app]; [constructor|].
    constructor; [by apply (bool_decide_unpack _)|]. apply Forall_app. split; [|done]. eapply Forall_impl; [exact Hx|]. by intros c [? _].
  - rewrite (Split_join sepColon []); [|by apply Hno|apply not_elem_of_nil|done]. f_equal. cbn. apply list_fmap_id.
Qed.

Lemma headers_lower `{Unicode} hs : Forall (fun h => Forall hchar h /\ ToLower h = h) hs -> (fun h => text_ToLower (TrimSpace h)) <$> hs = hs.
Proof.
  induction 1 as [|h hs [Hh Hl] _ IH]; [done|]. cbn. f_equal; [|done].
  assert (Hv : Forall vchar h) by (eapply Forall_impl; [exact Hh|]; by intros c [? _]).
  rewrite TrimSpace_id by (by apply vchar_edges || by apply vchar_ascii). by rewrite text_ToLower_ascii, Hl by (by apply vchar_ascii).
Qed.

Lemma present_trim sp zs : Forall (fun c => IsSpace c = true) sp -> Forall zword zs -> TrimSpace <$> ((fun x => sp ++ x) <$> zs) = zs.
Proof.
  intros Hsp. induction 1 as [|z zs [_ Hz] _ IH]; [done|]. cbn. f_equal; [|done].
  assert (Hv : Forall vchar z) by (eapply Forall_impl; [exact Hz|]; by intros c [? _]).
  apply TrimSpace_spaces; [done|by apply vchar_edges|by apply vchar_ascii].
Qed.

Lemma isnil_ne {A} (l : list A) : l ≠ [] -> isnil l = false.
Proof. by destruct l. Qed.


Section Signatures.
Context {U : Unicode} (now : Z).
Abbreviation steps := (steps now).

(** A tag, its semicolon and what separates it from the next one. *)
Definition piece (name v ws : list Z) : list Z := (name ++ 61 :: v ++ [59]) ++ ws.
Definition is_ws (ws : list Z) : Prop := Forall (fun c => IsSpace c = true) ws.

Lemma wrap_ws simple : is_ws (wrap simple).
Proof. destruct simple; by repeat constructor. Qed.

Lemma steps_piece s ts name k v ws s' : is_ws ws ->
  newTag name = Ok (Some (mkTag k [])) -> k ≠ tagUnknown -> k ∉ ts -> Forall (fun c => IsSpace c = false /\ c ≠ 61 /\ c ≠ 0) name ->
  v ≠ [] -> Forall vchar v -> sig_set now s (mkTag k v) = (s', None) -> steps 1 s ts (piece name v ws) s' (k :: ts).
Proof. intros Hws. intros. apply steps_space; [done|]. by apply steps_one. Qed.

(** The signature without what has no tag yet. *)
Definition required (s : Signature) : Signature :=
  mkSignature (Version s) (Alg s) (SDID s) (Selector s) (Headers s) (BodyHash s) (Value s) 0 0 None None [] [] None None [].
Definition required_tags : list tagKey := [tagSignature; tagBodyHash; tagHeaders; tagSelector; tagSDID; tagAlg; tagVersion].

Definition required_text (s : Signature) (simple : bool) : list Z :=
  piece (str "v") (Version s) [32] ++
  piece (str "a") (match Alg s with Some a => signAlg_name a | None => signAlg_name SignAlgRS256 end) [32] ++
  piece (str "d") (SDID s) [32] ++ piece (str "s") (Selector s) (wrap simple) ++
  piece (str "h") (join_with [sepColon] (Headers s)) (wrap simple) ++
  piece (str "bh") (BodyHash s) (wrap simple) ++ piece (str "b") (Value s) (wrap simple).

Ltac one_piece := eapply steps_piece; [try apply wrap_ws; by repeat constructor|reflexivity|done|by apply (bool_decide_unpack _)|name_ok|try done|try done|].

Lemma steps_required s simple : signature_ok now s -> steps 7 zeroSignature [] (required_text s simple) (required s) required_tags.
Proof.
  intros [Hver Halg [Hd Hd'] [Hs Hs'] [Hh Hh'] [Hbh Hbh'] [Hb Hb'] _ _ _ _ _].
  destruct (headers_join s Hh Hh') as (Hj & Hj' & Hsplit). unfold required_text, required.
  destruct (Alg s) as [alg|]; [clear Halg|done]. rewrite Hver.
  eapply (steps_app now 1 6); [one_piece; [by apply (bool_decide_unpack _)|reflexivity]|].
  eapply (steps_app now 1 5); [one_piece; [by destruct alg|by destruct alg; apply (bool_decide_unpack _)|by destruct alg]|].
  eapply (steps_app now 1 4); [one_piece; unfold sig_set; cbn [key value]; by rewrite isnil_ne|].
  eapply (steps_app now 1 3); [one_piece; unfold sig_set; cbn [key value]; by rewrite isnil_ne|].
  eapply (steps_app now 1 2); [one_piece|].
  { unfold sig_set. cbn [key value]. rewrite isnil_ne by done. rewrite Hsplit, headers_lower by done.
    cbn [DkimSignature.Headers put_Selector put_SDID put_Alg put_Version zeroSignature app]. f_equal. exact Hh'. }
  eapply (steps_app now 1 1); [one_piece; unfold sig_set; cbn [key value]; by rewrite isnil_ne|].
  one_piece. unfold sig_set. cbn [key value]. by rewrite isnil_ne.
Qed.

(** The optional tags. *)
Definition opt_piece (b : bool) (name v ws : list Z) : list Z := if b then piece name v ws else [].
Definition canon_text (s : Signature) : list Z :=
  match CanonHeader s with Some h => canon_name h ++ match CanonBody s with Some b => 47 :: canon_name b | None => [] end | None => [] end.
Definition optional_text (s : Signature) (simple : bool) : list Z :=
  opt_piece (0 <? CreatedAt s) (str "t") (dec (CreatedAt s)) [32] ++
  opt_piece (0 <? ExpiredAt s) (str "x") (dec (ExpiredAt s)) [32] ++
  opt_piece (match CanonHeader s with Some _ => true | None => false end) (str "c") (canon_text s) (wrap simple) ++
  opt_piece (negb (isnil (PresentHeaders s))) (str "z") (join_with (124 :: wrap simple) (PresentHeaders s)) (wrap simple) ++
  opt_piece (negb (isnil (AUID s))) (str "i") (AUID s) [32] ++
  opt_piece (match BodyLength s with Some _ => true | None => false end) (str "l") (dec (default 0 (BodyLength s))) [32].
Definition last_text (s : Signature) : list Z :=
  match QMethod s with Some q => str "q" ++ 61 :: queryType_name (qmType q) ++ [47] ++ queryOption_name (qmOption q) | None => [] end ++ [13; 10].

Ltac flatten := repeat (progress rewrite <- ?(assoc_L (++)) || rewrite <- ?app_comm_cons || cbn [app]).

Lemma required_assoc s simple (rest : list Z) :
  str "v=" ++ Version s ++ str "; a=" ++ match Alg s with Some a => signAlg_name a | None => signAlg_name SignAlgRS256 end ++
  str "; d=" ++ SDID s ++ str "; s=" ++ Selector s ++ str ";" ++ wrap simple ++
  str "h=" ++ join_with [sepColon] (Headers s) ++ str ";" ++ wrap simple ++ str "bh=" ++ BodyHash s ++ str ";" ++ wrap simple ++
  str "b=" ++ Value s ++ str ";" ++ wrap simple ++ rest = required_text s simple ++ rest.
Proof. unfold required_text, piece. by flatten. Qed.

Lemma Pack_pieces s simple : Pack s simple = required_text s simple ++ optional_text s simple ++ last_text s.
Proof.
  unfold Pack. cbv zeta. rewrite required_assoc. f_equal. unfold optional_text, opt_piece, piece. rewrite <- !(assoc_L (++)).
  apply (f_equal2 (++)); [by destruct (0 <? CreatedAt s); flatten|]. apply (f_equal2 (++)); [by destruct (0 <? ExpiredAt s); flatten|].
  apply (f_equal2 (++)); [unfold canon_text; by destruct (CanonHeader s), (CanonBody s); flatten|].
  apply (f_equal2 (++)); [by destruct (PresentHeaders s); cbn [isnil negb]; flatten|].
  apply (f_equal2 (++)); [by destruct (AUID s); cbn [isnil negb]; flatten|]. apply (f_equal2 (++)); [by destruct (BodyLength s); cbn [default]; flatten|].
  unfold last_text. by destruct (QMethod s); flatten.
Qed.

(** The signature with its tags one by one. *)
Definition with_t (s : Signature) := put_CreatedAt (required s) (CreatedAt s).
Definition with_x (s : Signature) := put_ExpiredAt (with_t s) (ExpiredAt s).
Definition with_c (s : Signature) := put_Canons (with_x s) (CanonHeader s) (CanonBody s).
Definition with_z (s : Signature) := put_PresentHeaders (with_c s) (PresentHeaders s).
Definition with_i (s : Signature) := put_AUID (with_z s) (AUID s).
Definition with_l (s : Signature) := put_BodyLength (with_i s) (BodyLength s).

Definition opt_tag (b : bool) (k : tagKey) (ts : list tagKey) : list tagKey := if b then k :: ts else ts.
Lemma opt_tag_notin b k k' ts : k ≠ k' -> k ∉ ts -> k ∉ opt_tag b k' ts.
Proof. intros. destruct b; cbn; [by apply not_elem_of_cons|done]. Qed.

Lemma steps_opt (b : bool) s ts name k v ws s' : (b = true -> steps 1 s ts (piece name v ws) s' (k :: ts)) -> (b = false -> s' = s) ->
  steps 1 s ts (opt_piece b name v ws) s' (opt_tag b k ts).
Proof.
  intros Ht Hf. destruct b; cbn; [by apply Ht|]. rewrite Hf by done. intros n pre rest Hn. exists n, pre. split; [lia|done].
Qed.

Ltac opt_one := apply steps_piece; [try apply wrap_ws; by repeat constructor|reflexivity|done|assumption|name_ok|try done|try done|].

Lemma steps_t s ts : signature_ok now s -> tagCreatedAt ∉ ts ->
  steps 1 (required s) ts (opt_piece (0 <? CreatedAt s) (str "t") (dec (CreatedAt s)) [32]) (with_t s) (opt_tag (0 <? CreatedAt s) tagCreatedAt ts).
Proof.
  intros [_ _ _ _ _ _ _ (Ht & _ & _) _ _ _ _] Hn. destruct (vchar_dec_text (CreatedAt s)) as [Hne Hd]; [lia|]. apply steps_opt; intros Hb.
  - opt_one. unfold sig_set. cbn [key value]. rewrite ParseUint64_dec by lia. done.
  - apply Z.ltb_ge in Hb. unfold with_t. replace (CreatedAt s) with 0 by lia. done.
Qed.

Lemma steps_x s ts : signature_ok now s -> tagExpiredAt ∉ ts ->
  steps 1 (with_t s) ts (opt_piece (0 <? ExpiredAt s) (str "x") (dec (ExpiredAt s)) [32]) (with_x s) (opt_tag (0 <? ExpiredAt s) tagExpiredAt ts).
Proof.
  intros [_ _ _ _ _ _ _ (_ & Hx & Hval) _ _ _ _] Hn. destruct (vchar_dec_text (ExpiredAt s)) as [Hne Hd]; [lia|]. apply steps_opt; intros Hb.
  - opt_one. unfold sig_set. cbn [key value]. rewrite ParseUint64_dec by lia. f_equal. exact Hval.
  - apply Z.ltb_ge in Hb. unfold with_x. replace (ExpiredAt s) with 0 by lia. done.
Qed.

Lemma steps_c s ts simple : signature_ok now s -> tagCanon ∉ ts ->
  steps 1 (with_x s) ts (opt_piece (match CanonHeader s with Some _ => true | None => false end) (str "c") (canon_text s) (wrap simple)) (with_c s)
    (opt_tag (match CanonHeader s with Some _ => true | None => false end) tagCanon ts).
Proof.
  intros [_ _ _ _ _ _ _ _ Hc _ _ _] Hn. apply steps_opt; intros Hb; unfold with_c, canon_text.
  - destruct (CanonHeader s) as [h|]; [|done]. opt_one; [by destruct h| |].
    + destruct h, (CanonBody s) as [[]|]; by apply (bool_decide_unpack _).
    + unfold sig_set. cbn [key value]. by destruct h, (CanonBody s) as [[]|].
  - destruct (CanonHeader s) as [h|]; [done|]. by rewrite Hc.
Qed.

Lemma steps_z s ts simple : signature_ok now s -> tagPresentHeaders ∉ ts ->
  steps 1 (with_c s) ts (opt_piece (negb (isnil (PresentHeaders s))) (str "z") (join_with (124 :: wrap simple) (PresentHeaders s)) (wrap simple)) (with_z s)
    (opt_tag (negb (isnil (PresentHeaders s))) tagPresentHeaders ts).
Proof.
  intros [_ _ _ _ _ _ _ _ _ Hz _ _] Hn. apply steps_opt; intros Hb; unfold with_z; [|by destruct (PresentHeaders s)].
  destruct (PresentHeaders s) as [|w l]; [done|]. apply Forall_cons in Hz as [Hw Hl].
  set (sp := if simple then [] else [32]). assert (Hsp : Forall (fun c => IsSpace c = true) sp) by (destruct simple; by repeat constructor).
  assert (Hno : forall x, zword x -> 124 ∉ x).
  { intros x [_ Hx] Hin. rewrite Forall_forall in Hx. apply Hx in Hin. by destruct Hin as [_ ?]. }
  apply steps_space; [apply wrap_ws|]. eapply (steps_tag now _ _ _ _ _ (join_with (124 :: sp) (w :: l)) (join_with (124 :: sp) (w :: l))); try done; [name_ok|by apply zs_reads| | |].
  - rewrite join_with_cons. destruct Hw as [Hne Hw]. destruct w; [done|]. by apply Forall_inv in Hw as [? _].
  - apply setValue_text; [|done|].
    + rewrite join_with_cons. destruct Hw as [Hne Hw]. by destruct w.
    + rewrite join_with_cons. apply Forall_app. split; [eapply Forall_impl; [apply Hw|]; intros c [? _]; by left|].
      clear Hb. induction Hl as [|x l Hx Hl IH]; cbn [fmap list_fmap concat app]; [constructor|].
      constructor; [left; by apply (bool_decide_unpack _)|]. rewrite <- (assoc_L (++)). apply Forall_app. split; [eapply Forall_impl; [exact Hsp|]; by right|].
      apply Forall_app. split; [|done]. eapply Forall_impl; [apply Hx|]. intros c [? _]. by left.
  - unfold sig_set. cbn [key value]. f_equal. f_equal. rewrite Split_join; [|by apply Hno|by destruct simple; apply (bool_decide_unpack _)|].
    + cbn [PresentHeaders with_c with_x with_t required put_Canons put_ExpiredAt put_CreatedAt app fmap list_fmap]. apply (f_equal2 cons); [|by apply present_trim].
      assert (Hv : Forall vchar w) by (eapply Forall_impl; [apply Hw|]; by intros c [? _]).
      apply TrimSpace_id; [by apply vchar_edges|by apply vchar_ascii].
    + eapply Forall_impl; [exact Hl|]. exact Hno.
Qed.

Lemma steps_i s ts : signature_ok now s -> tagAUID ∉ ts ->
  steps 1 (with_z s) ts (opt_piece (negb (isnil (AUID s))) (str "i") (AUID s) [32]) (with_i s) (opt_tag (negb (isnil (AUID s))) tagAUID ts).
Proof.
  intros [_ _ _ _ _ _ _ _ _ _ [Hi Hval] _] Hn. apply steps_opt; intros Hb; unfold with_i.
  - opt_one; [by destruct (AUID s)|]. unfold sig_set. cbn [key value]. f_equal. exact Hval.
  - by destruct (AUID s).
Qed.

Lemma steps_l s ts : signature_ok now s -> tagBodyLength ∉ ts ->
  steps 1 (with_i s) ts (opt_piece (match BodyLength s with Some _ => true | None => false end) (str "l") (dec (default 0 (BodyLength s))) [32]) (with_l s)
    (opt_tag (match BodyLength s with Some _ => true | None => false end) tagBodyLength ts).
Proof.
  intros [_ _ _ _ _ _ _ _ _ _ _ Hl] Hn. apply steps_opt; intros Hb; unfold with_l; destruct (BodyLength s) as [l|]; try done.
  cbn [default]. destruct (vchar_dec_text l) as [Hne Hd]; [lia|]. opt_one.
  unfold sig_set. cbn [key value]. by rewrite ParseUint64_dec.
Qed.

Ltac notin := repeat (apply opt_tag_notin; [done|]); by apply (bool_decide_unpack _).

Lemma steps_optional s simple : signature_ok now s -> exists ts, tagQueryMethod ∉ ts /\
  steps 6 (required s) required_tags (optional_text s simple) (with_l s) ts.
Proof.
  intros Hok. eexists. split; cycle 1.
  - unfold optional_text. eapply (steps_app now 1 5); [apply steps_t; [done|notin]|].
    eapply (steps_app now 1 4); [apply steps_x; [done|notin]|]. eapply (steps_app now 1 3); [apply steps_c; [done|notin]|].
    eapply (steps_app now 1 2); [apply steps_z; [done|notin]|]. eapply (steps_app now 1 1); [apply steps_i; [done|notin]|].
    apply steps_l; [done|notin].
  - notin.
Qed.

Lemma set_query s :
  sig_set now s (mkTag tagQueryMethod (str "dns/txt")) = (put_QMethod s (Some (mkQuery QueryTypeDNS QueryOptionTXT)), None).
Proof. destruct s. vm_compute. reflexivity. Qed.

Lemma Parse_loop_last n s ts pre : tagQueryMethod ∉ ts ->
  Parse_loop (S (S n)) now (with_l s) (mkParser ts (mid pre (last_text s))) = Ok (put_QMethod (with_l s) (QMethod s)).
Proof.
  intros Hts. unfold last_text. destruct (QMethod s) as [[[] []]|].
  - change ((str "q" ++ 61 :: _) ++ [13; 10]) with (str "q" ++ 61 :: 100 :: str "ns/txt" ++ [13; 10]).
    set (end_ := (pre ++ str "q" ++ [61]) ++ str "dns/txt" ++ [13; 10]).
    assert (Hfetch : fetchTag (mkParser ts (mid pre (str "q" ++ 61 :: 100 :: str "ns/txt" ++ [13; 10]))) =
      Ok (Some (mkTag tagQueryMethod (str "dns/txt")), mkParser (tagQueryMethod :: ts) (mid end_ []))).
    { rewrite (fetchTag_at _ _ _ tagQueryMethod) by (done || name_ok). unfold fetchTagValue. cbn [rd tags].
      change (100 :: str "ns/txt" ++ [13; 10]) with (str "dns/txt" ++ 13 :: [10]).
      set (pre1 := pre ++ str "q" ++ [61]). destruct (length (V (mid pre1 (str "dns/txt" ++ [13; 10])))) as [|k] eqn:Ek;
        [cbn in Ek; rewrite length_app in Ek; cbn in Ek; lia|]. cbn [value_loop].
      rewrite ReadUntil_found; [|by apply (bool_decide_unpack _)|right; by left]. cbn [mbind outcome_bind app]. change (elem_byte 13 [59]) with false.
      cbn [orb Z.eqb Pos.eqb]. rewrite (SkipSpaces_mid_spaces_end _ [10]) by (by repeat constructor). cbn [snd].
      rewrite ReadUntil_eof by done. cbn [mbind outcome_bind orb Z.eqb]. rewrite app_nil_r.
      rewrite setValue_vchar by (done || by apply (bool_decide_unpack _)).
      cbn [mbind outcome_bind tags]. unfold end_, pre1. rewrite <- !(assoc_L (++)). done. }
    cbn [Parse_loop]. rewrite Hfetch. cbn [with_sig mbind outcome_bind key]. rewrite decide_False by done.
    rewrite set_query.
    cbv iota. exact (tags_end now n _ _ end_ [] (Forall_nil_2 _)).
  - rewrite tags_end by (by repeat constructor). done.
Qed.

End Signatures.

Lemma length_required `{Unicode} now s simple : signature_ok now s -> (20 <= length (required_text s simple))%nat.
Proof.
  intros [Hv _ _ _ _ _ _ _ _ _ _ _]. unfold required_text, piece. rewrite Hv. repeat (progress rewrite ?length_app, ?length_cons).
  change (length (str "v")) with 1%nat. destruct (Alg s) as [[]|]; cbn [signAlg_name];
  [change (length (str "rsa-sha256")) with 10%nat|change (length (str "rsa-sha1")) with 8%nat|change (length (str "rsa-sha256")) with 10%nat]; cbn [length]; lia.
Qed.

Lemma ends_CRLF (v u : list Z) : v = u ++ [13; 10] ->
  length v = (length u + 2)%nat /\ get_at v (length v - 2) = Ok (E := dkim_error) 13 /\ get_at v (length v - 1) = Ok (E := dkim_error) 10.
Proof.
  intros ->. assert (Hl : length (u ++ [13; 10]) = (length u + 2)%nat) by by rewrite length_app. rewrite Hl.
  replace (length u + 2 - 2)%nat with (length u) by lia. replace (length u + 2 - 1)%nat with (S (length u)) by lia.
  split_and!; [done| |]; apply get_at_Some; rewrite lookup_app_r by lia; [by rewrite Nat.sub_diag|].
  by replace (S (length u) - length u)%nat with 1%nat by lia.
Qed.

Lemma Parse_of_Pack `{Unicode} now s simple : signature_ok now s -> Parse now (Pack s simple) = Ok (Some (put_raw s (Pack s simple))).
Proof.
  intros Hok. pose proof (steps_required now s simple Hok) as H1. destruct (steps_optional now s simple Hok) as (ts & Hts & H2).
  pose proof (steps_app now 7 6 _ _ _ _ _ _ _ _ H1 H2) as H3. pose proof (Pack_pieces s simple) as Htext.
  assert (Hlast : exists u, Pack s simple = u ++ [13; 10] /\ (20 <= length u)%nat).
  { assert (Hq : exists q, last_text s = q ++ [13; 10]) by (unfold last_text; by eexists). destruct Hq as [q Hq].
    exists (required_text s simple ++ optional_text s simple ++ q). rewrite Htext, Hq, <- !(assoc_L (++)). split; [done|].
    rewrite length_app. pose proof (length_required now s simple Hok). lia. }
  destruct Hlast as (u & Hu & Hlen). unfold Parse. destruct (Pack s simple) as [|c0 t] eqn:Ec; [by destruct u|]. rewrite <- Ec in *. clear c0 t Ec.
  destruct (ends_CRLF _ _ Hu) as (Hl & -> & ->). rewrite decide_False by lia.
  cbn [with_sig mbind outcome_bind Z.eqb Pos.eqb negb andb].
  rewrite Hl. destruct (H3 (length u + 2)%nat [] (last_text s)) as (n' & pre' & Hn' & Heq); [lia|].
  change (newParser (Pack s simple)) with (mkParser [] (mid [] (Pack s simple))). rewrite Htext at 1. rewrite (assoc_L (++)), Heq.
  destruct n' as [|n']; [lia|]. rewrite Parse_loop_last by done. cbn. by destruct s.
Qed.

(** C7: a signature that [signature_ok] describes is parsed back from the text that
    [Pack] prints, in the simple and in the relaxed form, with every field as it was. It
    has the version 1, an algorithm, and a domain, a selector, hashes and an identity of
    visible ASCII characters without semicolons, of which only the identity can be
    empty; the identity is one that [Validate] takes. The names of its headers are in
    lower case, without semicolons and colons, and [from] is among them; the headers
    listed with their values are not empty, without semicolons and bars; times and body
    length are numbers of 64 bits, and the times are valid when it is parsed; and the
    body has a canonicalization only if the headers have one. Other signatures that
    [Validate] takes can come back changed: a version of two digits, header names in
    upper case, or a canonicalization of the body alone, as in [Pack_body_form]. *)
Theorem Parse_Pack `{Unicode} now s simple : signature_ok now s -> Parse now (Pack s simple) = Ok (Some (put_raw s (Pack s simple))).
Proof. apply Parse_of_Pack. Qed.

Definition sample_signature : Signature :=
  mkSignature [49] (Some SignAlgRS256) (str "example.com") (str "mail") [str "from"; str "to"] (str "aGFzaA==") (str "c2lnbg==") 500000 600000
    (Some CanonRelaxed) (Some CanonSimple) [str "From:a@b"; str "To:c@d"] (str "me@sub.example.com") (Some 12) (Some (mkQuery QueryTypeDNS QueryOptionTXT)) [].
Lemma Parse_Pack_witness : Parse (U := ascii_tables) 500100 (Pack sample_signature true) = Ok (Some (put_raw sample_signature (Pack sample_signature true))).
Proof.
  apply Parse_Pack. split; try (by apply (bool_decide_unpack _)); try (vm_compute; intuition discriminate).
Defined.

(** ** Texts that panic, and values that are not what they say *)

(** An equal sign first, and one byte; a text that ends with a line feed alone is
    taken, as is one whose last byte but one is a carriage return. *)
Lemma Parse_texts : Parse (U := ascii_tables) 0 (61 :: str "x" ++ [13; 10]) = Panic /\ Parse (U := ascii_tables) 0 [10] = Panic /\
  Parse (U := ascii_tables) 0 (str "v=1;" ++ [10]) = Ok (Some (put_raw (put_Version zeroSignature [49]) (str "v=1;" ++ [10]))).
Proof. by split_and!; vm_compute. Qed.

(** The last query method counts, and one that is not known takes away those before. *)
Lemma setQueryMethods_last : QMethod (setQueryMethods zeroSignature (str "dns/txt:other")) = None /\
  QMethod (setQueryMethods zeroSignature (str "other:dns/txt")) = Some (mkQuery QueryTypeDNS QueryOptionTXT).
Proof. by split; vm_compute. Qed.

(** The form of the body is printed after that of the header only. *)
Lemma Pack_body_form s simple : CanonHeader s = None -> Pack s simple = Pack (put_Canons s None None) simple.
Proof. intros H. unfold Pack. destruct s; cbn in *. by rewrite H. Qed.

(** A public key that is not one of RSA panics. *)
Lemma other_key_panics `{Crypto} k v pkey : b64_decode false v = Some pkey -> ParsePKIXPublicKey pkey = Some other_key ->
  key_set k (mkTag tagDNSPublicKey v) = Panic.
Proof. intros Hd Hp. unfold key_set. cbn [key value]. by rewrite Hd, Hp. Qed.
