(* ===== verification/EmailField.v ===== *)
(** Package [lib/email]: header fields ([field.go], [fieldtype.go]), addresses
    ([address.go], [is.go]) and content types ([contenttype.go], [param.go]).

    An error is its kind.  The date of a field is kept as the numbers that the
    code hands to [time.Date]. *)

From Stdlib Require Import ZArith Lia.
From S2P Require Import Prelude Ascii Utf8 Strconv IoReader DnsHosts.

Local Open Scope Z_scope.

Inductive email_error : Type :=
| ErrFieldName | ErrSeparator | ErrEmptyValue | ErrFieldValue | ErrNoCRLF | ErrTooLong
| ErrDate | ErrMonth | ErrYear | ErrHour | ErrMinute | ErrSecond | ErrZone
| ErrAddress | ErrComment | ErrLocal | ErrDomain | ErrMultiple
| ErrContentType
| ErrHeaderEnd | ErrBoundary.

Definition cr : Z := 13.
Definition lf : Z := 10.
Definition is_wsp (c : Z) : bool := (c =? 9) || (c =? 32).

(** ** [fieldtype.go] *)

Inductive FieldType : Type :=
| FieldTypeOptional | FieldTypeDate | FieldTypeFrom | FieldTypeSender | FieldTypeReplyTo
| FieldTypeTo | FieldTypeCC | FieldTypeBCC | FieldTypeMessageID | FieldTypeInReplyTo | FieldTypeReferences
| FieldTypeSubject | FieldTypeComments | FieldTypeKeywords
| FieldTypeResentDate | FieldTypeResentFrom | FieldTypeResentSender | FieldTypeResentTo | FieldTypeResentCC
| FieldTypeResentBCC | FieldTypeResentMessageID | FieldTypeReturnPath | FieldTypeReceived
| FieldTypeMIMEVersion | FieldTypeContentType | FieldTypeContentTransferEncoding | FieldTypeContentID
| FieldTypeContentDescription | FieldTypeDKIMSignature.
#[export] Instance FieldType_eq_dec : EqDecision FieldType.
Proof. solve_decision. Defined.

Definition fieldNames : list (FieldType * list Z) :=
  [(FieldTypeDate, str "date"); (FieldTypeFrom, str "from"); (FieldTypeSender, str "sender"); (FieldTypeReplyTo, str "reply-to");
   (FieldTypeTo, str "to"); (FieldTypeCC, str "cc"); (FieldTypeBCC, str "bcc"); (FieldTypeMessageID, str "message-id");
   (FieldTypeInReplyTo, str "in-reply-to"); (FieldTypeReferences, str "references"); (FieldTypeSubject, str "subject");
   (FieldTypeComments, str "comments"); (FieldTypeKeywords, str "keywords"); (FieldTypeResentDate, str "resent-date");
   (FieldTypeResentFrom, str "resent-from"); (FieldTypeResentSender, str "resent-sender"); (FieldTypeResentTo, str "resent-to");
   (FieldTypeResentCC, str "resent-cc"); (FieldTypeResentBCC, str "resent-bcc"); (FieldTypeResentMessageID, str "resent-message-id");
   (FieldTypeReturnPath, str "return-path"); (FieldTypeReceived, str "received"); (FieldTypeMIMEVersion, str "mime-version");
   (FieldTypeContentType, str "content-type"); (FieldTypeContentTransferEncoding, str "content-transfer-encoding");
   (FieldTypeContentID, str "content-id"); (FieldTypeContentDescription, str "content-description");
   (FieldTypeDKIMSignature, str "dkim-signature")].
Fixpoint type_of_name (l : list (FieldType * list Z)) (name : list Z) : FieldType :=
  match l with [] => FieldTypeOptional | (t, n) :: l => if bool_decide (n = name) then t else type_of_name l name end.

(** ** [is.go] *)

Definition specialChars : list Z := [40; 41; 60; 62; 91; 93; 58; 59; 64; 92; 44; 34].
Fixpoint local_loop (dot : bool) (s : list Z) : bool :=
  match s with
  | [] => true
  | c :: s =>
      if (c <? 33) || (126 <? c) then false
      else if c =? 46 then if dot then false else local_loop true s
      else if bool_decide (c ∈ specialChars) then false else local_loop false s
  end.
Definition IsValidLocal (local : list Z) : bool :=
  match local, last local with
  | c :: _, Some l => if (c =? 46) || (l =? 46) then false else local_loop false local
  | _, _ => false
  end.

(** ** [address.go] *)

Definition stateBegin : Z := 1.
Definition stateDisplayName : Z := 2.
Definition stateLocalPart : Z := 4.
Definition stateDomain : Z := 8.
Definition stateEnd : Z := 16.
Definition stateGroupEnd : Z := 32.

Record Mailbox : Type := mkMailbox { mboxName : list Z; Local_ : list Z; Domain_ : list Z; Address_ : list Z; isAngle : bool }.
Definition Mailbox_String (m : Mailbox) : list Z :=
  (if isnil (mboxName m) then [] else mboxName m ++ [32]) ++ [60] ++ Local_ m ++ (if isnil (Domain_ m) then [] else 64 :: Domain_ m) ++ [62].

(** [skipComment], after the opening parenthesis: it calls itself on one inside. *)
Fixpoint skipComment (fuel : nat) (r : Reader) : outcome email_error (Z * Reader) :=
  match fuel with
  | O => NoFuel
  | S fuel =>
      let '(c, r) := SkipUntil r [92; 40; 41] in
      if c =? 0 then Err ErrComment
      else if c =? 92 then skipComment fuel (SkipN r 1).2
      else if c =? 40 then '(_, r) ← skipComment fuel r; skipComment fuel r
      else
        let '(c, r) := SkipSpaces r in
        if negb (c =? 40) then Ok (c, r) else skipComment fuel (SkipN r 1).2
  end.

Record addr_state : Type := mkAddr { st : Z; av : list Z; isGroup : bool; mbox : option Mailbox; mboxes_ : list Mailbox }.

(** A mailbox that ends with its domain, at a comma, a semicolon or the end. *)
Definition end_domain (s : addr_state) (v : list Z) : outcome email_error (option Mailbox * list Mailbox) :=
  if negb (IsHostnameValid v false) then Err ErrDomain
  else
    match mbox s with
    | None => Panic
    | Some m => Ok (None, mboxes_ s ++ [mkMailbox (mboxName m) (Local_ m) v (Address_ m) (isAngle m)])
    end.
Definition in_angle (m : option Mailbox) : bool := match m with Some m => isAngle m | None => false end.
Definition end_mailbox (s : addr_state) (v : list Z) : outcome email_error (option Mailbox * list Mailbox) :=
  if st s =? stateDomain then end_domain s v
  else if (st s =? stateEnd) && negb (isnil v) then Err ErrAddress
  else Ok (mbox s, mboxes_ s).

Definition addr_seps : list Z := [40; 58; 60; 64; 62; 44; 59].

(** One round of the loop of [ParseAddress] on a token and what ended it; the
    result is final at the end of the text. *)
Definition addr_step (fuel : nat) (s : addr_state) (tok : list Z) (c : Z) (r : Reader) : outcome email_error (addr_state * Reader) :=
  if c =? 40 then
    '(_, r) ← skipComment fuel r;
    Ok (mkAddr (st s) (av s ++ tok) (isGroup s) (mbox s) (mboxes_ s), r)
  else if c =? 58 then
    if negb (st s =? stateBegin) then Err ErrAddress
    else Ok (mkAddr stateDisplayName [] true (mbox s) (mboxes_ s), (SkipSpaces r).2)
  else if c =? 60 then
    if stateLocalPart <=? st s then Err ErrAddress
    else
      let v := TrimSpace (av s ++ tok) in
      Ok (mkAddr stateLocalPart [] (isGroup s) (Some (mkMailbox v [] [] [] true)) (mboxes_ s), r)
  else if c =? 64 then
    if stateDomain <=? st s then Err ErrAddress
    else
      let v := TrimSpace (av s ++ tok) in
      if isnil v then Err ErrLocal
      else if negb (IsValidLocal v) then Err ErrLocal
      else
        let m := default (mkMailbox [] [] [] [] false) (mbox s) in
        Ok (mkAddr stateDomain [] (isGroup s) (Some (mkMailbox (mboxName m) v (Domain_ m) (Address_ m) (isAngle m))) (mboxes_ s), r)
  else if c =? 62 then
    if stateDomain <? st s then Err ErrAddress
    else
      match mbox s with
      | None => Panic
      | Some m =>
          if negb (isAngle m) then Err ErrAddress
          else
            let v := TrimSpace (av s ++ tok) in
            if (st s =? stateDomain) && negb (IsHostnameValid v false) then Err ErrDomain
            else Ok (mkAddr stateEnd [] (isGroup s) None (mboxes_ s ++ [mkMailbox (mboxName m) (Local_ m) v (Address_ m) (isAngle m)]), r)
      end
  else if c =? 59 then
    if (st s <? stateDomain) || negb (isGroup s) then Err ErrAddress
    else if in_angle (mbox s) then Err ErrAddress
    else
      '(m, ms) ← end_mailbox s (TrimSpace (av s ++ tok));
      Ok (mkAddr stateGroupEnd [] false m ms, r)
  else if c =? 44 then
    if st s <? stateDomain then Err ErrAddress
    else if in_angle (mbox s) then Err ErrAddress
    else
      '(m, ms) ← end_mailbox s (TrimSpace (av s ++ tok));
      Ok (mkAddr stateBegin [] (isGroup s) m ms, r)
  else Ok (s, r).
Definition addr_end (s : addr_state) (tok : list Z) : outcome email_error (list Mailbox) :=
  if st s <? stateDomain then Err ErrAddress
  else if negb (st s =? stateEnd) && in_angle (mbox s) then Err ErrAddress
  else if isGroup s then Err ErrAddress
  else
    let v := TrimSpace (av s ++ tok) in
    if (st s =? stateGroupEnd) && negb (isnil v) then Err ErrAddress
    else if st s =? stateDomain then '(_, ms) ← end_domain s v; Ok ms
    else Ok (mboxes_ s).

Fixpoint addr_loop (fuel : nat) (s : addr_state) (r : Reader) : outcome email_error (list Mailbox) :=
  match fuel with
  | O => NoFuel
  | S fuel =>
      '(tok, _, c, r) ← ReadUntil r addr_seps [];
      if c =? 0 then addr_end s tok
      else '(s, r) ← addr_step fuel s tok c r; addr_loop fuel s r
  end.
Definition ParseAddress (raw : list Z) : outcome email_error (list Mailbox) :=
  let raw := TrimSpace raw in
  if isnil raw then Err ErrAddress
  else addr_loop (S (length raw)) (mkAddr stateBegin [] false None []) (SkipSpaces (Init raw)).2.

(** ** [param.go] and [contenttype.go] *)

Record Param : Type := mkParam { Key : list Z; pValue : list Z; Quoted : bool }.
Definition ParamNameBoundary : list Z := str "boundary".
Record ContentType : Type := mkContentType { Top : list Z; Sub : list Z; Params : list Param }.

Definition token_specials : list Z := [40; 41; 60; 62; 64; 44; 59; 58; 92; 34; 47; 91; 93; 63; 61].
Fixpoint token_loop (quoted : bool) (tok : list Z) : bool :=
  match tok with
  | [] => true
  | c :: tok =>
      if quoted && (c =? 32) then token_loop quoted tok
      else if c <? 33 then false
      else if quoted then token_loop quoted tok
      else if bool_decide (c ∈ token_specials) then false else token_loop quoted tok
  end.
Definition isValidToken (tok : list Z) (quoted : bool) : bool := if isnil tok then false else token_loop quoted tok.

Section Text.
Context {U : Unicode}.

Fixpoint params_loop (fuel : nat) (ct : ContentType) (c : Z) (r : Reader) : outcome email_error ContentType :=
  match fuel with
  | O => NoFuel
  | S fuel =>
      if c =? 0 then Ok ct
      else
        '(k, _, c, r) ← ReadUntil r [61] [];
        if c =? 0 then Ok ct
        else if negb (isValidToken k false) then Err ErrContentType
        else
          c ← Current r;
          '(v, quoted, r) ← (if c =? 34 then
                               '(v, _, c, r) ← ReadUntil (SkipN r 1).2 [34] [];
                               if negb (c =? 34) then Err ErrContentType else Ok (v, true, r)
                             else '(v, _, _, r) ← ReadUntil r [32] []; Ok (v, false, r));
          if negb (isValidToken v quoted) then Err ErrContentType
          else
            let '(c, r) := SkipSpaces r in
            params_loop fuel (mkContentType (Top ct) (Sub ct) (Params ct ++ [mkParam (text_ToLower k) v quoted])) c r
  end.
Definition ParseContentType (raw : list Z) : outcome email_error ContentType :=
  let raw := TrimSpace raw in
  if isnil raw then Ok (mkContentType (str "text") (str "plain") [mkParam (str "charset") (str "us-ascii") false])
  else
    '(top, _, c, r) ← ReadUntil (Init raw) [47] [];
    if c =? 0 then Err ErrContentType
    else if negb (isValidToken top false) then Err ErrContentType
    else
      '(sub, _, c, r) ← ReadUntil r [59] [];
      if negb (isValidToken sub false) then Err ErrContentType
      else if c =? 0 then Ok (mkContentType top sub [])
      else
        let '(c, r) := SkipSpaces r in
        params_loop (S (length raw)) (mkContentType top sub []) c r.
Fixpoint find_param (name : list Z) (l : list Param) : list Z :=
  match l with [] => [] | p :: l => if bool_decide (Key p = name) then pValue p else find_param name l end.
Definition GetParamValue (ct : ContentType) (name : list Z) : list Z := find_param (text_ToLower name) (Params ct).
Definition param_String (p : Param) : list Z :=
  32 :: Key p ++ [61] ++ (if Quoted p then 34 :: pValue p ++ [34] else pValue p).
Definition ContentType_String (ct : ContentType) : list Z := Top ct ++ [47] ++ Sub ct ++ [59] ++ concat (param_String <$> Params ct).

(** ** [field.go] *)

Record Date : Type := mkDate { dYear : Z; dMonth : Z; dDay : Z; dHour : Z; dMin : Z; dSec : Z; dOff : Z }.
Record Field : Type := mkField {
  fType : FieldType; Name : list Z; fValue : list Z; oriName : list Z; oriValue : list Z;
  date : option Date; mboxes : list Mailbox; fContentType : option ContentType; unpacked : bool
}.
Definition zeroField : Field := mkField FieldTypeOptional [] [] [] [] None [] None false.

(** [setName] and [updateType]: the name up to the first byte that is not visible. *)
Fixpoint relaxed_name (s : list Z) : list Z :=
  match s with
  | [] => []
  | c :: s =>
      if (c =? 32) || (c <? 33) || (126 <? c) then []
      else (if (65 <=? c) && (c <=? 90) then c + 32 else c) :: relaxed_name s
  end.
Definition setName (f : Field) (s : list Z) : Field :=
  mkField (type_of_name fieldNames (relaxed_name s)) (relaxed_name s) (fValue f) s (oriValue f) (date f) (mboxes f) (fContentType f) (unpacked f).

(** [setValue]. *)
Fixpoint skip_leading (s : list Z) : list Z :=
  match s with [] => [] | c :: s' => if IsSpace c then skip_leading s' else s end.
Fixpoint squeeze (spaces : bool) (s : list Z) : list Z :=
  match s with
  | [] => []
  | c :: s => if IsSpace c then squeeze true s else (if spaces then [32] else []) ++ c :: squeeze false s
  end.
Definition relaxed_value (s : list Z) : list Z :=
  let v := squeeze false (skip_leading s) in if isnil v then [] else v ++ [cr; lf].
Definition field_setValue (f : Field) (s : list Z) : Field :=
  mkField (fType f) (Name f) (relaxed_value s) (oriName f) s (date f) (mboxes f) (fContentType f) false.

(** The loop of [ParseField] over the value: where it ends, and whether it is folded.  The
    text may end behind the blank that folds the value. *)
Inductive value_scan_result : Type := VEnd (x : nat) (folded : bool) | VInvalid (e : email_error) (x : nat).
Fixpoint value_scan (x : nat) (folded : bool) (s : list Z) : value_scan_result :=
  match s with
  | [] => VInvalid ErrNoCRLF x
  | c :: s =>
      if is_wsp c then value_scan (S x) folded s
      else if c =? cr then
        match s with
        | [] => VInvalid ErrNoCRLF (S x)
        | d :: s =>
            if negb (d =? lf) then VInvalid ErrNoCRLF (S x)
            else
              match s with
              | [] => VEnd (S (S x)) folded
              | b :: s =>
                  if is_wsp b then match s with [] => VEnd (S (S (S x))) true | _ => value_scan (S (S (S x))) true s end
                  else VEnd (S (S x)) folded
              end
        end
      else if (c <? 33) || (126 <? c) then VInvalid ErrFieldValue x
      else value_scan (S x) folded s
  end.

Definition invalid {A} (e : email_error) (raw : list Z) (x : nat) : outcome (email_error * list Z) A := Err (e, drop x raw).
Definition ParseField (raw : list Z) : outcome (email_error * list Z) (option Field * list Z) :=
  match raw with
  | [] => Ok (None, [])
  | _ =>
      let x := scan (fun c => (c =? 32) || (c =? 58) || (c <? 33) || (126 <? c)) raw in
      match raw !! x with
      | None => invalid ErrFieldName raw x
      | Some c =>
          if negb ((c =? 32) || (c =? 58)) then invalid ErrFieldName raw x
          else
            let x := (x + scan (fun c => negb (is_wsp c)) (drop x raw))%nat in
            match raw !! x with
            | None => invalid ErrFieldName raw x
            | Some c =>
                if negb (c =? 58) then invalid ErrSeparator raw x
                else
                  let f := setName zeroField (take x raw) in
                  let start := S x in
                  let x := (start + scan (fun c => negb (is_wsp c)) (drop start raw))%nat in
                  if decide (length raw <= x)%nat then invalid ErrEmptyValue raw x
                  else
                    match value_scan x false (drop x raw) with
                    | VInvalid e x => invalid e raw x
                    | VEnd x folded =>
                        if negb folded && bool_decide (1000 < x)%nat then Err (ErrTooLong, [])
                        else
                          let f := field_setValue f (take (x - start) (drop start raw)) in
                          if isnil (fValue f) then invalid ErrEmptyValue raw x
                          else Ok (Some f, drop x raw)
                    end
            end
      end
  end.

Definition field_Relaxed (f : Field) : list Z := Name f ++ [58] ++ fValue f.
Definition field_Simple (f : Field) : list Z := oriName f ++ [58] ++ oriValue f.

(** [unpackDate] and the other readers of values. *)
Definition ShortMonths : list (list Z * Z) :=
  [(str "Jan", 1); (str "Feb", 2); (str "Mar", 3); (str "Apr", 4); (str "May", 5); (str "Jun", 6);
   (str "Jul", 7); (str "Aug", 8); (str "Sep", 9); (str "Oct", 10); (str "Nov", 11); (str "Dec", 12)].
Fixpoint month_of (l : list (list Z * Z)) (name : list Z) : option Z :=
  match l with [] => None | (n, m) :: l => if bool_decide (n = name) then Some m else month_of l name end.
Definition computeOffSeconds (off : Z) : Z :=
  let hour := Z.quot off 100 in
  let min := off - hour * 100 in
  s64 ((hour * 60 + min) * 60).
Definition full_year (year : Z) : Z :=
  if year <? 50 then year + 2000 else if year <? 1000 then year + 1900 else year.

Definition parse_date (v : list Z) : outcome email_error Date :=
  if isnil v then Err ErrDate
  else
    let '(c, r) := SkipSpaces (Init v) in
    r ← (if negb (IsDigit c) then
           '(v, _, c, r) ← ReadUntil r [44] [];
           if isnil v || negb (c =? 44) then Err ErrDate
           else let '(c, r) := SkipSpaces r in if c =? 0 then Err ErrDate else Ok r
         else Ok r);
    let '(day, c, r) := ScanInt64 r in
    if negb (c =? 32) then Err ErrMonth
    else
      '(m, _, _, r) ← ReadUntil (SkipSpaces r).2 [32; cr; lf] [];
      match month_of ShortMonths m with
      | None => Err ErrMonth
      | Some month =>
          let '(year, c, r) := ScanInt64 (SkipSpaces r).2 in
          if negb (c =? 32) then Err ErrYear
          else
            let year := full_year year in
            let '(hour, c, r) := ScanInt64 r in
            if negb (c =? 58) then Err ErrHour
            else if (hour <? 0) || (23 <? hour) then Err ErrHour
            else
              let '(min, c, r) := ScanInt64 (SkipN r 1).2 in
              if (min <? 0) || (59 <? min) then Err ErrMinute
              else
                '(sec, r) ← (if c =? 58 then
                               let '(sec, _, r) := ScanInt64 (SkipN r 1).2 in
                               if (sec <? 0) || (59 <? sec) then Err ErrSecond else Ok (sec, r)
                             else Ok (0, r));
                let '(c, r) := SkipSpaces r in
                if c =? 0 then Err ErrZone
                else
                  let '(off, _, _) := ScanInt64 r in
                  Ok (mkDate year month day hour min sec (computeOffSeconds off))
      end.

Definition unpackDate (f : Field) : outcome email_error Field :=
  d ← parse_date (fValue f);
  Ok (mkField (fType f) (Name f) (fValue f) (oriName f) (oriValue f) (Some d) (mboxes f) (fContentType f) true).
Definition unpackMailboxList (f : Field) : outcome email_error Field :=
  ms ← ParseAddress (fValue f);
  Ok (mkField (fType f) (Name f) (fValue f) (oriName f) (oriValue f) (date f) ms (fContentType f) true).
Definition unpackMailbox (f : Field) : outcome email_error Field :=
  ms ← ParseAddress (fValue f);
  if decide (length ms ≠ 1%nat) then Err ErrMultiple
  else Ok (mkField (fType f) (Name f) (fValue f) (oriName f) (oriValue f) (date f) (mboxes f) (fContentType f) true).
Definition unpackContentType (f : Field) : outcome email_error Field :=
  if unpacked f then Ok f
  else
    ct ← ParseContentType (fValue f);
    Ok (mkField (fType f) (Name f) (fValue f) (oriName f) (oriValue f) (date f) (mboxes f) (Some ct) true).

Definition field_Unpack (f : Field) : outcome email_error Field :=
  match fType f with
  | FieldTypeDate | FieldTypeResentDate => unpackDate f
  | FieldTypeFrom | FieldTypeReplyTo | FieldTypeTo | FieldTypeCC | FieldTypeBCC
  | FieldTypeResentFrom | FieldTypeResentTo | FieldTypeResentCC | FieldTypeResentBCC => unpackMailboxList f
  | FieldTypeSender | FieldTypeResentSender | FieldTypeReturnPath => unpackMailbox f
  | FieldTypeContentType => unpackContentType f
  | _ => Ok f
  end.

End Text.
