(* ===== verification/EmailMessage.v ===== *)
(** Package [lib/email]: headers ([header.go]), bodies ([body.go], [mime.go]) and
    messages ([message.go]), with the DKIM signatures of [lib/email/dkim] over
    them.

    A header is its fields, from top to bottom; a nil header is none. *)

From Stdlib Require Import ZArith Lia.
From S2P Require Import Prelude Ascii Utf8 IoReader EmailField DkimTag DkimSignature.

Local Open Scope Z_scope.

Definition boundSeps : list Z := [45; 45].

Abbreviation header := (list Field).

Section Email.
Context {U : Unicode}.

(** ** [header.go] *)

Fixpoint ParseHeader_loop (fuel : nat) (hdr : option header) (rest : list Z) : outcome (email_error * list Z) (option header * list Z) :=
  match fuel with
  | O => NoFuel
  | S fuel =>
      match rest with
      | [] => Ok (hdr, [])
      | [_] => Err (ErrHeaderEnd, rest)
      | a :: b :: rest' =>
          if (a =? cr) && (b =? lf) then Ok (hdr, rest')
          else
            '(f, rest) ← ParseField rest;
            match f with
            | Some f => ParseHeader_loop fuel (Some (default [] hdr ++ [f])) rest
            | None => Panic
            end
      end
  end.
Definition ParseHeader (raw : list Z) : outcome (email_error * list Z) (option header * list Z) :=
  ParseHeader_loop (S (length raw)) None raw.

(** [ContentType]: the fields too, since the one that is unpacked changes; an
    error gives none. *)
Fixpoint header_ContentType {E} (h : header) : outcome E (option ContentType * header) :=
  match h with
  | [] => Ok (None, [])
  | f :: h =>
      if negb (bool_decide (fType f = FieldTypeContentType)) then '(ct, h) ← header_ContentType h; Ok (ct, f :: h)
      else
        match fContentType f with
        | Some ct => Ok (Some ct, f :: h)
        | None =>
            match field_Unpack f with
            | Ok f => Ok (fContentType f, f :: h)
            | Err _ => Ok (None, f :: h)
            | Panic => Panic
            | NoFuel => NoFuel
            end
        end
  end.
(** [Boundary], on a pointer to a header. *)
Definition Boundary {E} (h : option header) : outcome E (list Z * option header) :=
  match h with
  | None => Panic
  | Some h =>
      '(ct, h) ← header_ContentType h;
      Ok (match ct with Some ct => GetParamValue ct ParamNameBoundary | None => [] end, Some h)
  end.

(** [DKIM]. *)
Fixpoint header_DKIM (n : nat) (h : header) : option header :=
  match h with
  | [] => None
  | f :: h' =>
      if bool_decide (fType f = FieldTypeDKIMSignature) then
        match n with
        | O => None
        | S O => Some h
        | S n => header_DKIM n h'
        end
      else header_DKIM n h'
  end.
Definition Filter (ft : FieldType) (h : header) : list Field := rev (filter (fun f => fType f = ft) h).
Definition PushTop (f : Field) (h : header) : header := f :: h.

Definition header_Relaxed (h : header) : list Z :=
  concat ((fun f => if isnil (Name f) || isnil (fValue f) then [] else Name f ++ [58] ++ fValue f) <$> h).
Definition header_Simple (h : header) : list Z :=
  concat ((fun f => if isnil (oriName f) || isnil (oriValue f) then [] else oriName f ++ [58] ++ oriValue f) <$> h).

(** [popByName]: from the bottom to the top, without a stop at the first one. *)
Definition popByName (name : list Z) (h : header) : option Field * header :=
  foldr (fun f (acc : option Field * header) => if bool_decide (Name f = name) then (Some f, acc.2) else (acc.1, f :: acc.2)) (None, []) h.

(** ** [mime.go] *)

Record MIME : Type := mkMIME { mHeader : option header; Content : list Z }.
Definition MIME_String (m : MIME) : list Z :=
  match mHeader m with Some h => header_Relaxed h | None => [] end ++ [cr; lf] ++ Content m.

(** Whether a line begins with two hyphens and the boundary, and ends in CRLF;
    the length of the line is looked at first. *)
Definition boundary_line {E} (line boundary : list Z) (minlen : nat) : outcome E bool :=
  if decide (length line < minlen)%nat then Ok false
  else
    c ← (if decide (length line < 2)%nat then Panic else get_at line (length line - 2));
    if negb (c =? cr) then Ok false
    else
      s ← slice line 0 2;
      if negb (bool_decide (s = boundSeps)) then Ok false
      else b ← slice line 2 (2 + length boundary); Ok (bool_decide (b = boundary)).

Fixpoint content_loop {E} (fuel : nat) (boundary content : list Z) (r : Reader) : outcome E (list Z * Reader) :=
  match fuel with
  | O => NoFuel
  | S fuel =>
      '(line, r) ← ReadLine r;
      match line with
      | [] => Ok (content, r)
      | _ =>
          b ← boundary_line line boundary (length boundary + 2);
          if b : bool then '(_, r) ← UnreadN r (length line); Ok (content, r)
          else content_loop fuel boundary (content ++ line) r
      end
  end.

(** [ParseBodyPart]. *)
Definition with_rest {A} (rest : list Z) (o : outcome (email_error * list Z) A) : outcome (email_error * list Z) A :=
  match o with Err (e, _) => Err (e, rest) | o => o end.
Definition ParseBodyPart (raw boundary : list Z) : outcome (email_error * list Z) (option MIME * list Z) :=
  match raw with
  | [] => Ok (None, raw)
  | _ =>
      if isnil boundary then Err (ErrBoundary, raw)
      else
        let minlen := (length boundary + 2)%nat in
        '(line, r) ← ReadLine (SkipSpaces (Init raw)).2;
        match line with
        | [] => rest ← Rest r; Ok (None, rest)
        | _ =>
            b ← boundary_line line boundary minlen;
            if negb b then Err (ErrBoundary, raw)
            else
              tail ← slice line minlen (length line - 2);
              rest ← Rest r;
              if bool_decide (tail = boundSeps) then Ok (None, rest)
              else
                '(h, rest) ← with_rest raw (ParseHeader rest);
                '(content, r) ← content_loop (S (length rest)) boundary [] (Init rest);
                rest ← Rest r;
                Ok (Some (mkMIME h content), rest)
        end
  end.

(** ** [body.go] *)

Record Body : Type := mkBody { Parts : list MIME; braw : list Z }.

Fixpoint skipPreamble_loop {E} (fuel : nat) (boundary : list Z) (r : Reader) : outcome E (list Z) :=
  match fuel with
  | O => NoFuel
  | S fuel =>
      '(line, r) ← ReadLine r;
      match line with
      | [] => Rest r
      | _ =>
          b ← boundary_line line boundary (length boundary + 4);
          if b : bool then '(_, r) ← UnreadN r (length line); Rest r else skipPreamble_loop fuel boundary r
      end
  end.
Definition skipPreamble {E} (raw boundary : list Z) : outcome E (list Z) := skipPreamble_loop (S (length raw)) boundary (Init raw).

Fixpoint parts_loop (fuel : nat) (boundary : list Z) (parts : list MIME) (rest : list Z) : outcome (email_error * list Z) (list MIME * list Z) :=
  match fuel with
  | O => NoFuel
  | S fuel =>
      '(m, rest) ← ParseBodyPart rest boundary;
      match m with
      | None => Ok (parts, rest)
      | Some m =>
          if decide (length rest < length boundary + 6)%nat then Ok (parts ++ [m], rest)
          else parts_loop fuel boundary (parts ++ [m]) rest
      end
  end.
Definition ParseBody (raw boundary : list Z) : outcome (email_error * list Z) (option Body * list Z) :=
  match raw with
  | [] => Ok (None, [])
  | _ =>
      if isnil boundary then Ok (Some (mkBody [mkMIME None raw] raw), [])
      else
        rest ← skipPreamble raw boundary;
        '(parts, rest) ← parts_loop (S (length raw)) boundary [] rest;
        Ok (Some (mkBody parts raw), rest)
  end.
Definition Body_String (b : Body) : list Z := concat (MIME_String <$> Parts b).

(** The bytes without [\t] and space at the end, and then without CRLFs at the
    end, as long as the last index is greater than 2; whether there was one. *)
Fixpoint last_not_wsp (s : list Z) (x : nat) : nat :=
  match x with
  | O => O
  | S x' => match s !! x' with Some c => if is_wsp c then last_not_wsp s x' else x | None => x end
  end.
Fixpoint strip_CRLFs (fuel : nat) (s : list Z) : list Z * bool :=
  match fuel with
  | O => (s, false)
  | S fuel =>
      let n := length s in
      if bool_decide (3 < n)%nat && bool_decide (drop (n - 2) s = [cr; lf]) then ((strip_CRLFs fuel (take (n - 2) s)).1, true)
      else (s, false)
  end.

(** The loop of [Relaxed] over the bytes up to [end]; [after] is what follows them
    in the body, which a [\r] at the end looks at. *)
Fixpoint relaxed_loop (hasSpace : nat) (out s after : list Z) : outcome unit (list Z) :=
  match s with
  | [] => Ok out
  | c :: s =>
      if (c =? 9) || (c =? 32) || (c =? 10) then relaxed_loop (S hasSpace) out s after
      else if c =? cr then
        match s with
        | d :: s =>
            if d =? lf then relaxed_loop 0 (out ++ (if bool_decide (1 < hasSpace)%nat then [32] else []) ++ [cr; lf]) s after
            else relaxed_loop (S hasSpace) out s after
        | [] =>
            match after with
            | [] => Panic
            | d :: _ => if d =? lf then Ok (out ++ (if bool_decide (1 < hasSpace)%nat then [32] else []) ++ [cr; lf]) else Ok out
            end
        end
      else relaxed_loop 0 (out ++ (if decide (hasSpace = 0%nat) then [] else [32]) ++ [c]) s after
  end.
Definition ends_with_CRLF (out : list Z) : bool := bool_decide (2 <= length out)%nat && bool_decide (drop (length out - 2) out = [cr; lf]).
(** [Relaxed] and [Simple] give a slice and what its array holds after it: zeros,
    the CRLFs that were cut off, or, where [append] moves the slice to a larger
    array, what [grown] says. *)
Definition body_Relaxed (b : Body) : outcome unit (list Z * list Z) :=
  match braw b with
  | [] => Ok ([], [])
  | raw =>
      let s := take (last_not_wsp raw (length raw)) raw in
      let '(s, hasCRLF) := strip_CRLFs (length s) s in
      out ← relaxed_loop 0 [] s (drop (length s) raw);
      let out := if ends_with_CRLF out then out else if (hasCRLF : bool) then out ++ [cr; lf] else out in
      Ok (out, replicate (length raw - length out) 0)
  end.

Context (grown : list Z -> list Z).
Definition body_Simple (b : Body) : outcome unit (list Z * list Z) :=
  match braw b with
  | [] => Ok ([cr; lf], [])
  | raw =>
      let '(out, _) := strip_CRLFs (length raw) raw in
      let spare := drop (length out) raw in
      let n := length out in
      if decide (n = 2%nat) then Ok (out, spare)
      else if decide (n < 2)%nat then Panic
      else
        c ← get_at out (n - 2);
        if c =? cr then Ok (out, spare)
        else
          d ← get_at out (n - 1);
          if negb (d =? lf) then
            Ok (out ++ [cr; lf], if decide (2 <= length spare)%nat then drop 2 spare else grown (out ++ [cr; lf]))
          else Ok (out, spare)
  end.

(** ** [message.go] *)

Inductive StatusType : Type := StatusUnverify | StatusNoSignature | StatusOK | StatusTempFail | StatusPermFail.
Inductive message_error : Type := MDkim (e : dkim_error) | MEmptyKey | MNoFrom | MBodyHash | MTimeout.
Record Status : Type := mkStatus { sType : StatusType; sSDID : list Z; sError : option message_error }.

Record Message : Type := mkMessage {
  Header : option header;
  MBody : option Body;
  DKIMSignature : option Signature;
  dkimStatus : option Status
}.

Definition ParseMessage (raw : list Z) : outcome (email_error * list Z) (option Message * list Z) :=
  match raw with
  | [] => Ok (None, [])
  | _ =>
      '(h, rest) ← ParseHeader raw;
      '(boundary, h) ← Boundary h;
      '(b, rest) ← ParseBody rest boundary;
      Ok (Some (mkMessage h b None None), rest)
  end.
Definition Message_String (m : Message) : list Z :=
  match Header m with Some h => header_Relaxed h | None => [] end ++ [cr; lf] ++ match MBody m with Some b => Body_String b | None => [] end.

End Email.
