(* ===== verification/EmailFacts.v ===== *)
(** Proofs on [EmailField] and [EmailMessage]: headers keep every byte of what
    they were parsed from, canonical forms are stable, and messages are parsed
    without a panic. *)

From Stdlib Require Import ZArith Lia.
From S2P Require Import Prelude Ascii Utf8 Strconv IoReader DnsHosts EmailField EmailMessage.

Local Open Scope Z_scope.

(** ** Fields and headers *)

(** The end of a value is inside the text. *)
Lemma value_scan_bounds s : forall x folded x' folded', value_scan x folded s = VEnd x' folded' -> (x < x' <= x + length s)%nat.
Proof.
  induction s as [s IH] using (induction_ltof1 _ (@length Z)); unfold ltof in IH.
  intros x folded x' folded' H. destruct s as [|c s]; [done|]. cbn [value_scan] in H.
  destruct (is_wsp c); [apply IH in H; cbn in *; lia|]. destruct (c =? cr).
  - destruct s as [|d s]; [done|]. destruct (negb (d =? lf)); [done|]. destruct s as [|b s].
    + injection H as <- _. cbn. lia.
    + destruct (is_wsp b); [|injection H as <- _; cbn; lia]. destruct s as [|e s]; [injection H as <- _; cbn; lia|]. apply IH in H; cbn in *; lia.
  - destruct ((c <? 33) || (126 <? c)); [done|]. apply IH in H; cbn in *; lia.
Qed.

(** The bytes of values. *)
Definition vis (c : Z) : Prop := 33 <= c <= 126.
Definition value_byte (c : Z) : Prop := IsSpace c = true \/ vis c.

Lemma wsp_value_byte c : is_wsp c = true -> value_byte c.
Proof. unfold is_wsp, value_byte, IsSpace. intros H. left. apply orb_true_iff in H as [->%Z.eqb_eq| ->%Z.eqb_eq]; done. Qed.

Lemma value_scan_bytes s : forall x folded x' folded', value_scan x folded s = VEnd x' folded' -> Forall value_byte (take (x' - x) s).
Proof.
  induction s as [s IH] using (induction_ltof1 _ (@length Z)); unfold ltof in IH.
  intros x folded x' folded' H. pose proof (value_scan_bounds _ _ _ _ _ H) as Hb. destruct s as [|c s]; [done|]. cbn [value_scan] in H.
  replace (x' - x)%nat with (S (x' - S x)) by lia. cbn [take].
  destruct (is_wsp c) eqn:Ec; [constructor; [by apply wsp_value_byte|]; eapply IH; [cbn; lia|exact H]|]. destruct (Z.eqb_spec c cr) as [->|].
  - destruct s as [|d s]; [done|]. destruct (Z.eqb_spec d lf) as [->|]; [|done]. cbn [negb] in H. constructor; [by left|]. destruct s as [|b s].
    + injection H as <- _. replace (S (S x) - S x)%nat with 1%nat by lia. by constructor; [left|].
    + destruct (is_wsp b) eqn:Eb.
      * destruct s as [|e s].
        { injection H as <- _. replace (S (S (S x)) - S x)%nat with 2%nat by lia. constructor; [by left|]. constructor; [by apply wsp_value_byte|constructor]. }
        pose proof (value_scan_bounds _ _ _ _ _ H). replace (x' - S x)%nat with (S (S (x' - S (S (S x))))) by lia. cbn [take].
        constructor; [by left|]. constructor; [by apply wsp_value_byte|]. eapply IH; [cbn; lia|exact H].
      * injection H as <- _. replace (S (S x) - S x)%nat with 1%nat by lia. by constructor; [left|].
  - destruct ((c <? 33) || (126 <? c)) eqn:E; [done|]. apply orb_false_iff in E as [E1%Z.ltb_ge E2%Z.ltb_ge].
    constructor; [by right|]. eapply IH; [cbn; lia|exact H].
Qed.

Lemma take_split {A} (i j : nat) (l : list A) : (i <= j)%nat -> take j l = take i l ++ take (j - i) (drop i l).
Proof. intros H. rewrite take_drop_commute. rewrite <- (take_drop i (take j l)) at 1. rewrite take_take. do 2 f_equal; [lia|]. f_equal. f_equal. lia. Qed.

Section Fields.
Context {U : Unicode}.

(** What is known of a field that was parsed. *)
Lemma ParseField_exact raw f rest : ParseField raw = Ok (Some f, rest) ->
  raw = field_Simple f ++ rest /\ oriValue f ≠ [] /\ Name f = relaxed_name (oriName f) /\ fType f = type_of_name fieldNames (Name f) /\
  fValue f = relaxed_value (oriValue f) /\ fValue f ≠ [] /\ fContentType f = None /\ unpacked f = false /\
  (58 ∉ oriName f) /\ Forall value_byte (oriValue f).
Proof.
  unfold ParseField. destruct raw as [|c0 raw0] eqn:Eraw; [done|]. rewrite <- Eraw. clear c0 raw0 Eraw. set (x1 := scan _ raw).
  assert (Hx1 : Forall (fun c => ((c =? 32) || (c =? 58) || (c <? 33) || (126 <? c)) = false) (take x1 raw)) by apply scan_spec.
  destruct (raw !! x1) as [c1|]; [|done]. destruct (negb _); [done|]. set (x2 := (x1 + _)%nat).
  pose proof (proj1 (scan_spec (fun c => negb (is_wsp c)) (drop x1 raw))) as Hx2.
  destruct (raw !! x2) as [c2|] eqn:Ec2; [|done]. destruct (Z.eqb_spec c2 58) as [->|]; [|done]. cbn [negb].
  set (x3 := (S x2 + _)%nat).
  pose proof (proj1 (scan_spec (fun c => negb (is_wsp c)) (drop (S x2) raw))) as Hx3'. destruct (decide (length raw <= x3)%nat) as [|Hx3]; [done|].
  destruct (value_scan x3 false (drop x3 raw)) as [x4 folded|] eqn:Ev; [|done].
  pose proof (value_scan_bytes _ _ _ _ _ Ev) as Hbytes. apply value_scan_bounds in Ev. rewrite length_drop in Ev.
  destruct (negb folded && _); [done|]. destruct (isnil _) eqn:Enil; [done|]. intros H. injection H as <- <-.
  cbn [fValue field_setValue setName zeroField fType Name oriName oriValue fContentType unpacked field_Simple] in *. split_and!; try done.
  - rewrite <- (take_drop_middle raw x2 58) at 1 by done. unfold field_Simple. cbn [oriName oriValue setName field_setValue].
    rewrite <- (assoc_L (++)). cbn [app]. f_equal. f_equal. rewrite <- (take_drop (x4 - S x2) (drop (S x2) raw)) at 1. f_equal.
    rewrite drop_drop. f_equal. lia.
  - intros Hn. rewrite Hn in Enil. done.
  - intros Hn. by rewrite Hn in Enil.
  - rewrite (take_split x1 x2 raw) by lia. rewrite not_elem_of_app. split; intros Hin.
    + rewrite Forall_forall in Hx1. apply Hx1 in Hin. discriminate Hin.
    + replace (x2 - x1)%nat with (scan (fun c => negb (is_wsp c)) (drop x1 raw)) in Hin by lia. rewrite Forall_forall in Hx2. apply Hx2 in Hin. discriminate Hin.
  - rewrite (take_split (x3 - S x2) (x4 - S x2)) by lia. rewrite drop_drop. apply Forall_app. split.
    + replace (x3 - S x2)%nat with (scan (fun c => negb (is_wsp c)) (drop (S x2) raw)) by lia. eapply Forall_impl; [exact Hx3'|].
      intros c Hc. apply wsp_value_byte. by apply negb_false_iff.
    + replace (S x2 + (x3 - S x2))%nat with x3 by lia. by replace (x4 - S x2 - (x3 - S x2))%nat with (x4 - x3)%nat by lia.
Qed.

Lemma ParseField_ends raw : match ParseField raw with Panic | NoFuel => False | Ok (None, _) => raw = [] | _ => True end.
Proof.
  unfold ParseField. destruct raw as [|c0 raw0]; [done|]. repeat (case_match; try done).
Qed.
(** What the fields of a parsed header satisfy. *)
Record parsed_field (f : Field) : Prop := {
  pf_value : oriValue f ≠ [];
  pf_name : Name f = relaxed_name (oriName f);
  pf_type : fType f = type_of_name fieldNames (Name f);
  pf_relaxed : fValue f = relaxed_value (oriValue f) /\ fValue f ≠ [];
  pf_packed : fContentType f = None /\ unpacked f = false;
  pf_bytes : (58 ∉ oriName f) /\ Forall value_byte (oriValue f)
}.
Definition fields_text (h : header) : list Z := concat (field_Simple <$> h).

Lemma ParseHeader_loop_exact fuel : forall hdr raw, (length raw < fuel)%nat ->
  match ParseHeader_loop fuel hdr raw with
  | Ok (h, rest) => exists fs, h = match fs with [] => hdr | _ => Some (default [] hdr ++ fs) end /\ Forall parsed_field fs /\
      (raw = fields_text fs ++ [cr; lf] ++ rest \/ raw = fields_text fs /\ rest = [])
  | Err _ => True
  | Panic | NoFuel => False
  end.
Proof.
  induction fuel as [|fuel IH]; intros hdr raw Hf; [lia|]. cbn [ParseHeader_loop].
  destruct raw as [|a [|b raw]]; [by exists []; split_and!; auto|done|].
  destruct ((a =? cr) && (b =? lf)) eqn:E.
  { apply andb_true_iff in E as [->%Z.eqb_eq ->%Z.eqb_eq]. exists []. by split_and!; auto. }
  pose proof (ParseField_ends (a :: b :: raw)) as Hend. destruct (ParseField (a :: b :: raw)) as [[[f|] rest]| | |] eqn:Ef; try done.
  cbn [mbind outcome_bind]. apply ParseField_exact in Ef as (Hraw & Hv & Hn & Ht & Hr & Hr' & Hc & Hu & Hnb & Hvb).
  assert (Hlen : (length rest < fuel)%nat).
  { apply (f_equal length) in Hraw. rewrite length_app in Hraw. unfold field_Simple in Hraw. rewrite length_app in Hraw. cbn in *. lia. }
  specialize (IH (Some (default [] hdr ++ [f])) rest Hlen). destruct (ParseHeader_loop _ _ rest) as [[h rest']| | |]; try done.
  destruct IH as (fs & -> & Hfs & Hrest). exists (f :: fs). split_and!.
  - destruct fs; [done|]. cbn. by rewrite <- (assoc_L (++)).
  - constructor; [by split|done].
  - unfold fields_text in *. cbn. destruct Hrest as [Hrest|[Hrest ->]]; [left|right]; rewrite Hraw, Hrest, <- ?(assoc_L (++)); done.
Qed.

Lemma header_Simple_text h : Forall parsed_field h -> Forall (fun f => Name f ≠ []) h -> header_Simple h = fields_text h.
Proof.
  intros Hp Hn. unfold header_Simple, fields_text. f_equal. apply list_fmap_ext. intros i f Hi.
  rewrite Forall_forall in Hp, Hn. apply list_elem_of_lookup_2 in Hi. destruct (Hp f Hi) as [Hv Hname _ _ _ _]. specialize (Hn f Hi).
  destruct (oriName f) as [|c n] eqn:En; [by rewrite Hname in Hn|]. destruct (oriValue f) eqn:Eo; [done|]. unfold field_Simple. by rewrite En, Eo.
Qed.

(** [ParseHeader] ends without a panic on every text, and keeps every byte of
    it: a text that it takes is the fields in their simple form, from top to
    bottom, the empty line and the rest, or the fields alone; and [Simple] of the
    header is that text where every field has a name. *)
Theorem ParseHeader_exact raw :
  match ParseHeader raw with
  | Ok (h, rest) =>
      let fs := default [] h in
      (raw = fields_text fs ++ [cr; lf] ++ rest \/ raw = fields_text fs /\ rest = []) /\
      Forall parsed_field fs /\ (Forall (fun f => Name f ≠ []) fs -> header_Simple fs = fields_text fs)
  | Err _ => True
  | Panic | NoFuel => False
  end.
Proof.
  pose proof (ParseHeader_loop_exact (S (length raw)) None raw ltac:(lia)) as H. unfold ParseHeader.
  destruct (ParseHeader_loop _ None raw) as [[h rest]| | |]; try done. destruct H as (fs & -> & Hfs & Hraw). cbv zeta.
  assert (Hd : default [] (match fs with [] => None | _ :: _ => Some (default [] None ++ fs) end) = fs) by by destruct fs.
  rewrite Hd. split_and!; [done..|]. by apply header_Simple_text.
Qed.

(** A text can end behind the blank that folds a value, one blank only. *)
Example fold_at_end : (exists f, ParseField (str "A: b" ++ [13; 10; 32]) = Ok (Some f, []) /\ fValue f = str "b" ++ [13; 10]) /\
  ParseField (str "A: b" ++ [13; 10; 32; 32]) = Err (ErrNoCRLF, []).
Proof. split; [|by vm_compute]. eexists. split; vm_compute; reflexivity. Qed.

(** An empty name is taken, so the text of such a header is not given back. *)
Example empty_name_taken : exists h, ParseHeader (str ": v" ++ [13; 10; 13; 10]) = Ok (Some h, []) /\ header_Simple h = [].
Proof. eexists. split; reflexivity. Qed.

End Fields.

(** ** The relaxed form *)

(** The words of a text, with the letters of the first one that were read. *)
Fixpoint words (w s : list Z) : list (list Z) :=
  match s with
  | [] => if isnil w then [] else [w]
  | c :: s => if IsSpace c then (if isnil w then words [] s else w :: words [] s) else words (w ++ [c]) s
  end.
Fixpoint join_words (ws : list (list Z)) : list Z :=
  match ws with [] => [] | [w] => w | w :: ws => w ++ 32 :: join_words ws end.
(** What a relaxed value is: words with single spaces between them. *)
Definition words_value (ws : list (list Z)) : list Z := match ws with [] => [] | _ => join_words ws ++ [cr; lf] end.

Definition is_word (w : list Z) : Prop := w ≠ [] /\ Forall (fun c => IsSpace c = false) w.

Lemma words_word s : forall w, Forall (fun c => IsSpace c = false) w -> Forall is_word (words w s).
Proof.
  induction s as [|c s IH]; intros w Hw; cbn [words].
  - destruct w as [|c w]; [constructor|]. by constructor; [split|constructor].
  - destruct (IsSpace c) eqn:Ec; [|apply IH, Forall_app; by repeat constructor].
    destruct w as [|d w]; [by apply IH|]. constructor; [done|by apply IH].
Qed.

Lemma join_words_cons w ws : join_words (w :: ws) = w ++ match ws with [] => [] | _ => 32 :: join_words ws end.
Proof. destruct ws; cbn; by rewrite ?app_nil_r. Qed.

Lemma words_ne s : forall w, w ≠ [] -> words w s ≠ [].
Proof.
  induction s as [|c s IH]; intros w Hw; cbn [words]; [by destruct w|]. destruct (IsSpace c); [by destruct w|]. apply IH. by destruct w.
Qed.

Lemma words_squeeze s : (forall w, w ≠ [] -> join_words (words w s) = w ++ squeeze false s) /\
  squeeze true s = match words [] s with [] => [] | ws => 32 :: join_words ws end.
Proof.
  induction s as [|c s [IHw IHt]]; cbn [words squeeze].
  - split; [|done]. intros w Hw. destruct w; [done|]. by rewrite app_nil_r.
  - destruct (IsSpace c) eqn:Ec; split; try done.
    + intros w Hw. destruct w as [|d w]; [done|]. cbn [isnil]. rewrite join_words_cons, IHt. by destruct (words [] s).
    + intros w Hw. rewrite IHw by (by destruct w). by rewrite <- (assoc_L (++)).
    + cbn [app]. pose proof (IHw [c] ltac:(done)) as H. pose proof (words_ne s [c] ltac:(done)) as Hne.
      destruct (words [c] s); [done|]. by rewrite H.
Qed.

Lemma relaxed_words s : relaxed_value s = words_value (words [] s).
Proof.
  unfold relaxed_value, words_value. induction s as [|c s IH]; [done|]. cbn [skip_leading words]. destruct (IsSpace c) eqn:Ec; [exact IH|].
  cbn [squeeze app]. rewrite Ec. cbn [app isnil]. pose proof (proj1 (words_squeeze s) [c] ltac:(done)) as H. cbn [app] in *.
  destruct (words [c] s) eqn:Ew; [done|]. rewrite H. done.
Qed.

(** Words are read back from a relaxed value. *)
Lemma words_app w u s : Forall (fun c => IsSpace c = false) u -> words w (u ++ s) = words (w ++ u) s.
Proof.
  intros Hu. revert w. induction Hu as [|c u Hc _ IH]; intros w; cbn [app words]; [by rewrite app_nil_r|].
  rewrite Hc, IH. by rewrite <- (assoc_L (++)).
Qed.

Lemma words_join ws : Forall is_word ws -> words [] (join_words ws ++ [cr; lf]) = ws.
Proof.
  induction 1 as [|w ws [Hne Hw] Hws IH]; [done|]. rewrite join_words_cons, <- (assoc_L (++)), words_app by done. cbn [app].
  destruct ws as [|w2 ws]; [by destruct w|]. cbn [app words]. change (IsSpace 32) with true. cbv iota. rewrite IH. by destruct w.
Qed.

Lemma relaxed_value_stable s : relaxed_value (relaxed_value s) = relaxed_value s.
Proof.
  rewrite (relaxed_words s), relaxed_words. destruct (words [] s) as [|w ws] eqn:E; [done|]. unfold words_value at 2.
  rewrite words_join; [done|]. rewrite <- E. apply words_word. constructor.
Qed.

(** The relaxed form of a value is its words, with one space between them,
    and a line end: folding and the number and kind of blanks do not count; and it is its own relaxed form. *)
Theorem relaxed_value_words s : relaxed_value s = words_value (words [] s) /\ relaxed_value (relaxed_value s) = relaxed_value s.
Proof. split; [apply relaxed_words|apply relaxed_value_stable]. Qed.

(** *** Headers in the relaxed form *)

Definition name_byte (c : Z) : Prop := vis c /\ c ≠ 58 /\ ~ (65 <= c <= 90).

Lemma relaxed_name_bytes s : 58 ∉ s -> Forall name_byte (relaxed_name s).
Proof.
  induction s as [|c s IH]; intros Hs; cbn [relaxed_name]; [constructor|]. apply not_elem_of_cons in Hs as [Hc Hs].
  destruct ((c =? 32) || (c <? 33) || (126 <? c)) eqn:E; [constructor|]. rewrite !orb_false_iff, !Z.ltb_ge in E.
  constructor; [|by apply IH]. unfold name_byte, vis. destruct ((65 <=? c) && (c <=? 90)) eqn:E2.
  - rewrite andb_true_iff, !Z.leb_le in E2. lia.
  - rewrite andb_false_iff, !Z.leb_gt in E2. lia.
Qed.

Lemma relaxed_name_id s : Forall name_byte s -> relaxed_name s = s.
Proof.
  induction 1 as [|c s (Hv & _ & Hu) _ IH]; [done|]. cbn [relaxed_name]. unfold vis in Hv.
  rewrite (proj2 (Z.eqb_neq c 32)), (proj2 (Z.ltb_ge c 33)), (proj2 (Z.ltb_ge 126 c)) by lia. cbn [orb]. rewrite IH.
  destruct ((65 <=? c) && (c <=? 90)) eqn:E; [|done]. rewrite andb_true_iff, !Z.leb_le in E. lia.
Qed.

Lemma words_vis s : Forall value_byte s -> forall w, Forall vis w -> Forall (Forall vis) (words w s).
Proof.
  induction 1 as [|c s Hc _ IH]; intros w Hw; cbn [words].
  - destruct w; cbn [isnil]; [constructor|by constructor; [|constructor]].
  - destruct (IsSpace c) eqn:Ec; [destruct w; cbn [isnil]; [|constructor; [done|]]; apply IH; constructor|].
    apply IH, Forall_app. split; [done|]. constructor; [|constructor]. destruct Hc as [Hc|Hc]; [congruence|done].
Qed.

(** A value in the relaxed form, and what may come after a field. *)
Definition not_folded (rest : list Z) : Prop := match rest with c :: _ => is_wsp c = false | [] => True end.

Lemma value_scan_vis x folded l s : Forall (fun c => vis c \/ c = 32) l -> value_scan x folded (l ++ s) = value_scan (x + length l) folded s.
Proof.
  intros Hl. revert x. induction Hl as [|c l Hc _ IH]; intros x; cbn [app length]; [by rewrite Nat.add_0_r|].
  cbn [value_scan]. rewrite <- Nat.add_succ_comm. destruct Hc as [Hc| ->]; [|exact (IH (S x))]. unfold vis in Hc.
  replace (is_wsp c) with false by (unfold is_wsp; rewrite (proj2 (Z.eqb_neq c 9)), (proj2 (Z.eqb_neq c 32)) by lia; done).
  unfold cr. rewrite (proj2 (Z.eqb_neq c 13)), (proj2 (Z.ltb_ge c 33)), (proj2 (Z.ltb_ge 126 c)) by lia. apply IH.
Qed.

Lemma join_words_vis ws : Forall (Forall vis) ws -> Forall (fun c => vis c \/ c = 32) (join_words ws).
Proof.
  induction 1 as [|w ws Hw _ IH]; [constructor|]. rewrite join_words_cons. apply Forall_app. split; [eapply Forall_impl; [exact Hw|]; by left|].
  destruct ws; [constructor|]. constructor; [by right|done].
Qed.

Lemma value_scan_end x folded l rest : Forall (fun c => vis c \/ c = 32) l -> not_folded rest ->
  value_scan x folded ((l ++ [cr; lf]) ++ rest) = VEnd (x + length (l ++ [cr; lf])) folded.
Proof.
  intros Hl Hrest. rewrite <- (assoc_L (++)), value_scan_vis by done. rewrite length_app. cbn [app length value_scan].
  change (is_wsp cr) with false. rewrite Z.eqb_refl. cbv iota. change (negb (lf =? lf)) with false. cbv iota.
  destruct rest as [|b rest]; [f_equal; lia|]. cbn in Hrest. rewrite Hrest. f_equal; lia.
Qed.

Lemma ParseField_relaxed_text name ws rest :
  name ≠ [] -> Forall name_byte name -> ws ≠ [] -> Forall (fun w => w ≠ [] /\ Forall vis w) ws -> not_folded rest ->
  (length name + 1 + length (words_value ws) <= 1000)%nat ->
  ParseField (name ++ 58 :: words_value ws ++ rest) =
    Ok (Some (mkField (type_of_name fieldNames name) name (words_value ws) name (words_value ws) None [] None false), rest).
Proof.
  intros Hn Hname Hws Hwv Hrest Hlen. set (v := words_value ws) in *.
  assert (Hv : exists c u, v = c :: u /\ vis c).
  { destruct ws as [|w ws]; [done|]. apply Forall_cons in Hwv as [[Hne Hw] _]. subst v. unfold words_value. rewrite join_words_cons.
    destruct w as [|c w]; [done|]. apply Forall_cons in Hw as [Hc _]. by eexists _, _. }
  destruct Hv as (c0 & u & Ev & Hc0). unfold ParseField. destruct name as [|n0 name']; [done|]. rewrite <- app_comm_cons. cbv iota. rewrite app_comm_cons.
  set (name := n0 :: name') in *.
  assert (Hscan : forall p, Forall (fun c => p c = false) name -> p 58 = true -> scan p (name ++ 58 :: v ++ rest) = length name) by (intros; by apply scan_app).
  rewrite Hscan; [|eapply Forall_impl; [exact Hname|]; intros c (Hc & H58 & _); cbn beta; unfold vis in Hc;
    rewrite (proj2 (Z.eqb_neq c 32)), (proj2 (Z.eqb_neq c 58)), (proj2 (Z.ltb_ge c 33)), (proj2 (Z.ltb_ge 126 c)) by lia; done|done].
  rewrite list_lookup_middle by done. cbn [Z.eqb Pos.eqb orb negb]. rewrite drop_app_length. cbn [scan]. change (negb (is_wsp 58)) with true. cbv iota.
  rewrite Nat.add_0_r, list_lookup_middle by done. cbn [Z.eqb Pos.eqb negb]. rewrite (cons_middle 58 name), (assoc_L (++)).
  replace (S (length name)) with (length (name ++ [58])) by (rewrite length_app; cbn; lia). rewrite drop_app_length, take_app_le by (rewrite length_app; lia).
  rewrite take_app_length.
  assert (H0 : scan (fun c => negb (is_wsp c)) (v ++ rest) = 0%nat).
  { rewrite Ev. cbn [app scan]. unfold is_wsp, vis in *. by rewrite (proj2 (Z.eqb_neq c0 9)), (proj2 (Z.eqb_neq c0 32)) by lia. }
  rewrite H0, Nat.add_0_r. rewrite decide_False by (rewrite !length_app, Ev; cbn; lia). rewrite drop_app_length.
  assert (Hend : value_scan (length (name ++ [58])) false (v ++ rest) = VEnd (length (name ++ [58]) + length v) false).
  { subst v. unfold words_value. destruct ws as [|w ws]; [done|]. apply value_scan_end; [|done]. apply join_words_vis.
    eapply Forall_impl; [exact Hwv|]. by intros ? [_ ?]. }
  rewrite Hend. replace (_ + length v - _)%nat with (length v) by lia. rewrite take_app_length.
  rewrite bool_decide_false by (rewrite length_app; change (length [58]) with 1%nat; lia). cbn [negb andb].
  assert (Hval : relaxed_value v = v).
  { rewrite relaxed_words. subst v. unfold words_value at 2. destruct ws as [|w ws]; [done|]. rewrite words_join; [done|].
    eapply Forall_impl; [exact Hwv|]. intros x [? Hx]. split; [done|]. eapply Forall_impl; [exact Hx|]. unfold vis, IsSpace. intros c Hc.
    rewrite !orb_false_iff, !Z.eqb_neq. lia. }
  cbn [field_setValue setName zeroField fValue fType Name oriName date mboxes fContentType]. rewrite Hval.
  destruct (isnil v) eqn:En; [by rewrite Ev in En|]. unfold field_setValue, setName. cbn [zeroField fType Name oriName date mboxes fContentType].
  rewrite Hval, relaxed_name_id by done. do 2 f_equal.
  by rewrite drop_app_ge, drop_app_length' by (rewrite ?length_app; lia).
Qed.

(** The field that the relaxed form of a field is. *)
Definition relaxed_field (f : Field) : Field := mkField (fType f) (Name f) (fValue f) (Name f) (fValue f) None [] None false.

Section Relaxed.
Context {U : Unicode}.

Lemma ParseField_relaxed f rest : parsed_field f -> Name f ≠ [] -> (length (field_Relaxed f) <= 1000)%nat -> not_folded rest ->
  ParseField (field_Relaxed f ++ rest) = Ok (Some (relaxed_field f), rest).
Proof.
  intros [Hv Hname Ht [Hr Hr'] _ [H58 Hb]] Hn Hlen Hrest. unfold field_Relaxed, relaxed_field in *. rewrite <- (assoc_L (++)). cbn [app] in *.
  rewrite !length_app in Hlen. cbn [length] in Hlen. rewrite Ht. rewrite relaxed_words in Hr.
  rewrite Hr in *. apply ParseField_relaxed_text; try done.
  - rewrite Hname. by apply relaxed_name_bytes.
  - intros Hw. by rewrite Hw in Hr'.
  - pose proof (words_word (oriValue f) [] ltac:(constructor)) as H1. pose proof (words_vis (oriValue f) Hb [] ltac:(constructor)) as H2.
    rewrite !Forall_forall in *. intros w Hw. split; [by apply H1|by apply H2].
  - lia.
Qed.

Lemma not_folded_Relaxed f rest : parsed_field f -> Name f ≠ [] -> not_folded (field_Relaxed f ++ rest).
Proof.
  intros Hp Hn. unfold field_Relaxed. assert (Hb : Forall name_byte (Name f)) by (rewrite (pf_name f Hp); apply relaxed_name_bytes, (pf_bytes f Hp)).
  destruct (Name f) as [|c n]; [done|]. cbn. apply Forall_inv in Hb as (Hc & _ & _). unfold vis in Hc. unfold is_wsp.
  by rewrite (proj2 (Z.eqb_neq c 9)), (proj2 (Z.eqb_neq c 32)) by lia.
Qed.

Lemma ParseHeader_loop_relaxed h : Forall parsed_field h -> Forall (fun f => Name f ≠ [] /\ (length (field_Relaxed f) <= 1000)%nat) h ->
  forall fuel hdr rest, (length h < fuel)%nat ->
  ParseHeader_loop fuel hdr (concat (field_Relaxed <$> h) ++ [cr; lf] ++ rest) =
    Ok (match h with [] => hdr | _ => Some (default [] hdr ++ (relaxed_field <$> h)) end, rest).
Proof.
  induction 1 as [|f h Hp Hps IH]; intros Hn fuel hdr rest Hf; (destruct fuel as [|fuel]; [cbn in Hf; lia|]).
  - reflexivity.
  - apply Forall_cons in Hn as [[Hnf Hl] Hn]. cbn [fmap list_fmap concat]. rewrite <- (assoc_L (++)). set (tail := concat _ ++ [cr; lf] ++ rest).
    assert (Htail : not_folded tail).
    { subst tail. destruct h as [|g h]; [done|]. cbn [fmap list_fmap concat]. rewrite <- (assoc_L (++)). apply Forall_cons in Hps as [Hg _], Hn as [[Hng _] _].
      by apply not_folded_Relaxed. }
    assert (Hhd : exists a b r, field_Relaxed f ++ tail = a :: b :: r /\ (a =? cr) = false).
    { assert (Hb : Forall name_byte (Name f)) by (rewrite (pf_name f Hp); apply relaxed_name_bytes, (pf_bytes f Hp)).
      unfold field_Relaxed. destruct (Name f) as [|c n]; [done|]. apply Forall_inv in Hb as (Hc & _ & _). unfold vis in Hc.
      assert (Hcr : (c =? cr) = false) by (apply Z.eqb_neq; unfold cr; lia). destruct n as [|d n]; by eexists _, _, _. }
    destruct Hhd as (a & b & r & Hr & Ha). cbn [ParseHeader_loop]. rewrite Hr, Ha. cbn [andb]. rewrite <- Hr.
    rewrite ParseField_relaxed by done. cbn [mbind outcome_bind]. unfold tail. rewrite IH by (done || cbn in Hf; lia).
    destruct h; cbn; [done|]. by rewrite <- (assoc_L (++)).
Qed.

End Relaxed.

Section RelaxedHeader.
Context {U : Unicode}.

(** The relaxed form of a header that was parsed, with the empty line after
    it, is parsed back to its fields, each with its relaxed name and value, where
    every field has a name and is no longer than a line may be. *)
Theorem ParseHeader_Relaxed raw h rest' rest : ParseHeader raw = Ok (Some h, rest') ->
  Forall (fun f => Name f ≠ [] /\ (length (field_Relaxed f) <= 1000)%nat) h ->
  ParseHeader (header_Relaxed h ++ [cr; lf] ++ rest) = Ok (Some (relaxed_field <$> h), rest).
Proof.
  intros Hp Hn. pose proof (ParseHeader_loop_exact (S (length raw)) None raw ltac:(lia)) as Hex. unfold ParseHeader in *.
  rewrite Hp in Hex. destruct Hex as (fs & Hfs & Hok & _). destruct fs as [|f0 fs]; [done|]. cbn [default app] in Hfs. injection Hfs as ->.
  assert (Hr : header_Relaxed (f0 :: fs) = concat (field_Relaxed <$> f0 :: fs)).
  { unfold header_Relaxed. f_equal. apply list_fmap_ext. intros i f Hi. apply list_elem_of_lookup_2 in Hi. rewrite Forall_forall in Hok, Hn.
    destruct (Hok f Hi) as [_ _ _ [_ Hv] _ _]. destruct (Hn f Hi) as [Hname _]. destruct (Name f) eqn:En; [done|]. destruct (fValue f) eqn:Ev; [done|].
    unfold field_Relaxed. by rewrite En, Ev. }
  assert (Hl : forall l, (length l <= length (concat (field_Relaxed <$> l)))%nat).
  { clear. induction l as [|f l IH]; [cbn; lia|]. rewrite fmap_cons. cbn [concat length]. unfold field_Relaxed at 1. rewrite !length_app. cbn [length]. lia. }
  specialize (Hl (f0 :: fs)). rewrite Hr. rewrite ParseHeader_loop_relaxed by (done || rewrite length_app; lia).
  done.
Qed.

Definition two_fields : list Z := str "From :  a@b.c" ++ [13; 10] ++ str "Subject: some" ++ [13; 10; 9] ++ str "text" ++ [13; 10; 13; 10].
Lemma ParseHeader_Relaxed_witness : exists h, ParseHeader two_fields = Ok (Some h, []) /\
  ParseHeader (header_Relaxed h ++ [cr; lf] ++ str "body") = Ok (Some (relaxed_field <$> h), str "body").
Proof.
  eexists. split; [reflexivity|]. apply (ParseHeader_Relaxed two_fields _ []); [reflexivity|]. by apply (bool_decide_unpack _).
Defined.

End RelaxedHeader.
