(* ===== verification/EmailTotal.v ===== *)
(** Proofs on [EmailMessage]: [ParseMessage] ends on every text, and panics on
    those that begin with an empty line only. *)

From Stdlib Require Import ZArith Lia.
From S2P Require Import Prelude Ascii Utf8 Strconv IoReader DnsHosts EmailField EmailMessage EmailFacts.

Local Open Scope Z_scope.

(** A computation that ends without a panic, with [P] of what it gives. *)
Definition returns {E A} (o : outcome E A) (P : A -> Prop) : Prop :=
  match o with Ok a => P a | Err _ => True | Panic | NoFuel => False end.

Lemma returns_bind {E A B} (m : outcome E A) (f : A -> outcome E B) (P : A -> Prop) (Q : B -> Prop) :
  returns m P -> (forall a, P a -> returns (f a) Q) -> returns (m ≫= f) Q.
Proof. destruct m; cbn; auto. Qed.

Lemma returns_weaken {E A} (o : outcome E A) (P Q : A -> Prop) : returns o P -> (forall a, P a -> Q a) -> returns o Q.
Proof. destruct o; cbn; auto. Qed.

(** ** Readers *)

(** How much is left to read. *)
Definition left (r : Reader) : nat := length (unread r).

Lemma Init_left s : left (Init s) = length s.
Proof. unfold left, Init, unread. cbn. done. Qed.

Lemma SkipSpaces_left r : wf r -> wf (SkipSpaces r).2 /\ (left (SkipSpaces r).2 <= left r)%nat /\ V (SkipSpaces r).2 = V r.
Proof.
  intros Hr. unfold SkipSpaces, wf, left, unread, at_X in *. cbn. pose proof (scan_le (fun c => negb (IsSpace c)) (drop (X r) (V r))) as H.
  rewrite !length_drop in *. split_and!; [lia..|done].
Qed.

Lemma SkipN_wf r n : wf r -> wf (SkipN r n).2 /\ (left (SkipN r n).2 <= left r)%nat.
Proof.
  intros Hr. unfold SkipN, wf, left, unread, at_X in *. case_decide; cbn in *; rewrite ?length_drop; lia.
Qed.

Lemma ReadUntil_returns {E} r seps terms : wf r ->
  returns (ReadUntil (E := E) r seps terms) (fun '(tok, _, c, r') => wf r' /\ V r' = V r /\ (left r' <= left r)%nat /\ ((left r' < left r)%nat \/ c = 0)).
Proof.
  intros Hr. destruct (ReadUntil_cases (E := E) r seps terms Hr) as (tok & t & c & r' & -> & Hw & HV & _ & Hcase). cbn.
  unfold left. destruct Hcase as [(-> & _)|(-> & -> & _ & ->)]; (split_and!; [done|done|..]); rewrite ?length_app; cbn; first [lia|by right|idtac].
Qed.

Lemma Current_returns {E} r : wf r -> returns (Current (E := E) r) (fun _ => True).
Proof.
  intros Hr. unfold Current. case_decide; [done|]. unfold get_at. destruct (lookup_lt_is_Some_2 (V r) (X r)) as [c ->]; [unfold wf in Hr; lia|done].
Qed.

Lemma ReadLine_returns {E} r : wf r ->
  returns (ReadLine (E := E) r) (fun '(line, r') => wf r' /\ V r' = V r /\ left r = (length line + left r')%nat /\
    (line = [] -> left r = 0%nat) /\ (line ≠ [] -> (length line <= X r')%nat)).
Proof.
  intros Hr. rewrite (mid_wf r Hr). destruct (ReadLine_mid (E := E) (take (X r) (V r)) (unread r)) as [[Hs ->]|(line & rest & Hs & Hne & _ & ->)]; cbn [returns].
  - unfold left. rewrite unread_mid. unfold wf, mid. cbn. rewrite length_app, Hs. cbn. split_and!; try lia; done.
  - unfold left. rewrite !unread_mid, Hs. unfold wf, mid. cbn. rewrite !length_app, <- (assoc_L (++)). split_and!; [lia|done|done|by intros ->|lia].
Qed.

Lemma Rest_returns {E} r : wf r -> returns (Rest (E := E) r) (fun rest => length rest = left r).
Proof.
  intros Hr. unfold Rest. rewrite slice_Ok by (unfold wf in Hr; lia). cbn. unfold left, unread.
  rewrite length_take, length_drop. lia.
Qed.

Lemma UnreadN_returns {E} r n : wf r -> (0 < n)%nat -> (n <= X r)%nat ->
  returns (UnreadN (E := E) r n) (fun '(_, r') => wf r' /\ left r' = (left r + n)%nat).
Proof.
  intros Hr Hn Hx. unfold UnreadN. rewrite decide_False by lia. unfold at_X, get_at, wf in *. cbn [X V].
  destruct (lookup_lt_is_Some_2 (V r) (X r - n)) as [c ->]; [lia|]. cbn. split; [lia|]. unfold left, unread. cbn. rewrite !length_drop. lia.
Qed.

(** ** Content types *)

Definition no_cr (ct : ContentType) : Prop := Forall (fun p => 13 ∉ pValue p) (Params ct).

Lemma token_no_cr tok quoted : isValidToken tok quoted = true -> 13 ∉ tok.
Proof.
  unfold isValidToken. destruct (isnil tok); [done|]. induction tok as [|c tok IH]; intros H; [apply not_elem_of_nil|]. cbn [token_loop] in H.
  rewrite not_elem_of_cons. split; [intros <-; by destruct quoted|]. apply IH.
  destruct (quoted && (c =? 32)); [done|]. destruct (c <? 33); [done|]. destruct quoted; [done|]. by case_bool_decide.
Qed.

Section Content.
Context {U : Unicode}.

Lemma params_loop_returns fuel : forall ct c r, wf r -> (left r < fuel)%nat -> no_cr ct -> returns (params_loop fuel ct c r) no_cr.
Proof.
  induction fuel as [|fuel IH]; intros ct c r Hr Hf Hct; [lia|]. cbn [params_loop]. destruct (c =? 0); [done|].
  eapply returns_bind; [by apply ReadUntil_returns|]. intros [[[k t] c1] r1] (Hr1 & _ & Hl1 & Hc1). destruct (Z.eqb_spec c1 0) as [|Hc10]; [done|].
  destruct (negb (isValidToken k false)); [done|]. eapply returns_bind; [by apply Current_returns|]. intros c2 _.
  eapply (returns_bind _ _ (fun '(v, quoted, r2) => wf r2 /\ (left r2 <= left r1)%nat)).
  - destruct (c2 =? 34).
    + pose proof (SkipN_wf r1 1 Hr1) as [Hs Hsl]. eapply returns_bind; [by apply ReadUntil_returns|]. intros [[[v t3] c3] r3] (Hr3 & _ & Hl3 & _).
      destruct (negb (c3 =? 34)); [done|]. cbn. split; [done|lia].
    + eapply returns_bind; [by apply ReadUntil_returns|]. intros [[[v t3] c3] r3] (Hr3 & _ & Hl3 & _). cbn. split; [done|lia].
  - intros [[v quoted] r2] [Hr2 Hl2]. destruct (isValidToken v quoted) eqn:Ev; [|done]. cbn [negb].
    pose proof (SkipSpaces_left r2 Hr2) as (Hr3 & Hl3 & _). destruct (SkipSpaces r2) as [c3 r3]. cbn [snd] in *. apply IH; [done| |].
    + destruct Hc1 as [Hc1|Hc1]; [lia|done].
    + unfold no_cr. cbn [Params]. apply Forall_app. split; [done|]. constructor; [|constructor]. cbn. by apply token_no_cr with quoted.
Qed.

Lemma ParseContentType_returns raw : returns (ParseContentType raw) no_cr.
Proof.
  unfold ParseContentType. set (s := TrimSpace raw). destruct (isnil s).
  { cbn. constructor; [|constructor]. cbn. by apply (bool_decide_unpack _). }
  eapply returns_bind; [apply ReadUntil_returns, Init_wf|]. intros [[[top t] c] r] (Hr & _ & Hl & _). rewrite Init_left in Hl.
  destruct (c =? 0); [done|]. destruct (negb _); [done|].
  eapply returns_bind; [by apply ReadUntil_returns|]. intros [[[sub t2] c2] r2] (Hr2 & _ & Hl2 & _).
  destruct (negb _); [done|]. destruct (c2 =? 0); [by constructor|].
  pose proof (SkipSpaces_left r2 Hr2) as (Hr3 & Hl3 & _). destruct (SkipSpaces r2) as [c3 r3]. cbn [snd] in *.
  apply params_loop_returns; [done|lia|by constructor].
Qed.

Lemma header_ContentType_returns {E} h : Forall parsed_field h ->
  returns (header_ContentType (E := E) h) (fun '(ct, _) => match ct with Some ct => no_cr ct | None => True end).
Proof.
  induction 1 as [|f h Hf _ IH]; cbn [header_ContentType]; [done|]. case_bool_decide as Ht; cbn [negb].
  - destruct (pf_packed f Hf) as [-> Hu]. unfold field_Unpack. rewrite Ht. unfold unpackContentType. rewrite Hu.
    pose proof (ParseContentType_returns (fValue f)) as H. by destruct (ParseContentType (fValue f)).
  - eapply returns_bind; [exact IH|]. by intros [ct h'] ?.
Qed.

Lemma find_param_no_cr name l : Forall (fun p => 13 ∉ pValue p) l -> 13 ∉ find_param name l.
Proof. induction 1 as [|p l Hp _ IH]; cbn; [apply not_elem_of_nil|]. by case_bool_decide. Qed.

Lemma Boundary_returns {E} h : Forall parsed_field h -> returns (Boundary (E := E) (Some h)) (fun '(b, _) => 13 ∉ b).
Proof.
  intros Hh. unfold Boundary. eapply returns_bind; [by apply header_ContentType_returns|]. intros [[ct|] h'] Hct; cbn; [|apply not_elem_of_nil].
  by apply find_param_no_cr.
Qed.

End Content.

(** ** Boundaries and parts *)

Lemma get_at_returns {E A} (l : list A) i : (i < length l)%nat -> returns (get_at (E := E) l i) (fun c => l !! i = Some c).
Proof. intros Hi. unfold get_at. by destruct (lookup_lt_is_Some_2 l i Hi) as [c ->]. Qed.

Lemma slice_returns {E A} (l : list A) lo hi : (lo <= hi <= length l)%nat -> returns (slice (E := E) l lo hi) (fun s => s = take (hi - lo) (drop lo l)).
Proof. intros H. by rewrite slice_Ok. Qed.

(** A line that begins with two hyphens and the boundary; its last byte but one is
    a carriage return, so, where there is none in the boundary, it comes after it. *)
Lemma boundary_line_returns {E} line b minlen : (length b + 2 <= minlen)%nat ->
  returns (boundary_line (E := E) line b minlen) (fun ok => ok = true -> (13 ∉ b) -> (length b + 2 <= length line - 2)%nat /\ (2 <= length line)%nat).
Proof.
  intros Hm. unfold boundary_line. case_decide as Hl; [done|]. rewrite (decide_False (P := (length line < 2)%nat)) by lia.
  eapply returns_bind; [apply get_at_returns; lia|]. intros c Hc. destruct (Z.eqb_spec c cr) as [->|]; [|done]. cbn [negb].
  eapply returns_bind; [apply slice_returns; lia|]. intros s Hs. case_bool_decide as Hsep; [|done]. cbn [negb].
  eapply returns_bind; [apply slice_returns; lia|]. intros b' Hb'. cbn. intros Hok Hno. apply bool_decide_eq_true in Hok. split; [|lia].
  rewrite drop_0 in Hs. replace (2 + length b - 2)%nat with (length b) in Hb' by lia.
  destruct (decide (length b + 2 <= length line - 2)%nat) as [|Hlt]; [done|]. exfalso. set (k := (length line - 2)%nat) in *.
  destruct (decide (k < 2)%nat) as [Hk|Hk].
  - assert (H1 : s !! k = Some 13) by (rewrite Hs; by rewrite lookup_take_lt by lia). rewrite Hsep in H1.
    destruct k as [|[|k]]; [done|done|lia].
  - apply Hno. apply list_elem_of_lookup. exists (k - 2)%nat. rewrite <- Hok, Hb'. rewrite lookup_take_lt by lia. rewrite lookup_drop.
    by replace (2 + (k - 2))%nat with k by lia.
Qed.

Lemma content_loop_returns {E} b fuel : forall content r, wf r -> (left r < fuel)%nat ->
  returns (content_loop (E := E) fuel b content r) (fun '(_, r') => wf r' /\ (left r' <= left r)%nat).
Proof.
  induction fuel as [|fuel IH]; intros content r Hr Hf; [lia|]. cbn [content_loop].
  eapply returns_bind; [by apply ReadLine_returns|]. intros [line r1] (Hr1 & _ & Hl & _ & Hx). destruct line as [|c line].
  { cbn. cbn in Hl. split; [done|lia]. }
  eapply returns_bind; [apply boundary_line_returns; lia|]. intros [] _.
  - eapply returns_bind; [apply UnreadN_returns; [done|cbn; lia|by apply Hx]|]. intros [c2 r2] [Hr2 Hl2]. cbn. split; [done|lia].
  - eapply returns_weaken; [apply IH; [done|cbn in Hl; lia]|]. intros [ct r2] [Hr2 Hl2]. split; [done|lia].
Qed.

Lemma skipPreamble_returns {E} b fuel : forall r, wf r -> (left r < fuel)%nat ->
  returns (skipPreamble_loop (E := E) fuel b r) (fun rest => (length rest <= left r)%nat).
Proof.
  induction fuel as [|fuel IH]; intros r Hr Hf; [lia|]. cbn [skipPreamble_loop].
  eapply returns_bind; [by apply ReadLine_returns|]. intros [line r1] (Hr1 & _ & Hl & _ & Hx). destruct line as [|c line].
  { eapply returns_weaken; [by apply Rest_returns|]. cbn in *. intros; lia. }
  eapply returns_bind; [apply boundary_line_returns; lia|]. intros [] _.
  - eapply returns_bind; [apply UnreadN_returns; [done|cbn; lia|by apply Hx]|]. intros [c2 r2] [Hr2 Hl2].
    eapply returns_weaken; [by apply Rest_returns|]. cbn in *. intros; lia.
  - eapply returns_weaken; [apply IH; [done|cbn in Hl; lia]|]. cbn in *. intros; lia.
Qed.

Section Parts.
Context {U : Unicode}.

Lemma ParseHeader_returns raw : returns (ParseHeader raw) (fun '(h, rest) =>
  (length rest <= length raw)%nat /\ Forall parsed_field (default [] h) /\ (h = None -> raw = [] \/ raw = cr :: lf :: rest)).
Proof.
  unfold ParseHeader. pose proof (ParseHeader_loop_exact (S (length raw)) None raw ltac:(lia)) as H.
  destruct (ParseHeader_loop _ _ _) as [[h rest]| | |]; try done. cbn. destruct H as (fs & -> & Hfs & Hraw). split_and!.
  - destruct Hraw as [->|[-> ->]]; rewrite ?length_app; cbn; lia.
  - by destruct fs.
  - destruct fs; [|done]. intros _. destruct Hraw as [->|[-> ->]]; [by right|by left].
Qed.

Lemma ParseBodyPart_returns raw b : 13 ∉ b -> returns (ParseBodyPart raw b) (fun '(m, rest) => m ≠ None -> (length rest < length raw)%nat).
Proof.
  intros Hb. unfold ParseBodyPart. destruct raw as [|c0 raw0]; [cbn; congruence|]. cbv iota. set (raw := c0 :: raw0). destruct (isnil b); [done|].
  pose proof (SkipSpaces_left (Init raw) (Init_wf raw)) as (Hr0 & Hl0 & _). rewrite Init_left in Hl0. destruct (SkipSpaces (Init raw)) as [c r0]. cbn [snd] in *.
  eapply returns_bind; [by apply ReadLine_returns|]. intros [line r1] (Hr1 & _ & Hl & _ & Hx). destruct line as [|c1 line0].
  { eapply returns_bind; [by apply Rest_returns|]. cbn. congruence. }
  set (line := c1 :: line0) in *. eapply returns_bind; [apply boundary_line_returns; lia|]. intros [] Hline; [|done]. cbn [negb].
  destruct (Hline eq_refl Hb) as [Hl1 Hl2]. eapply returns_bind; [apply slice_returns; lia|]. intros tail _.
  eapply returns_bind; [by apply Rest_returns|]. intros rest Hrest. case_bool_decide; [cbn; congruence|].
  eapply (returns_bind _ _ (fun '(h, rest') => (length rest' <= length rest)%nat)).
  { pose proof (ParseHeader_returns rest) as H1. destruct (ParseHeader rest) as [[h rest']|[]| |]; try done. cbn in *. by destruct H1. }
  intros [h rest'] Hrest'. eapply returns_bind; [apply content_loop_returns; [apply Init_wf|rewrite Init_left; lia]|]. rewrite Init_left.
  intros [content r2] [Hr2 Hl3]. eapply returns_bind; [by apply Rest_returns|]. intros rest2 Hr2'. cbn. intros _.
  assert (0 < length line)%nat by (unfold line; cbn; lia). fold raw. unfold raw in Hl0. cbn in *. lia.
Qed.

Lemma parts_loop_returns b fuel : 13 ∉ b -> forall parts rest, (length rest < fuel)%nat -> returns (parts_loop fuel b parts rest) (fun _ => True).
Proof.
  intros Hb. induction fuel as [|fuel IH]; intros parts rest Hf; [lia|]. cbn [parts_loop].
  eapply returns_bind; [by apply ParseBodyPart_returns|]. intros [[m|] rest'] H; [|done]. case_decide; [done|]. apply IH.
  specialize (H ltac:(done)). lia.
Qed.

Lemma ParseBody_returns raw b : 13 ∉ b -> returns (ParseBody raw b) (fun _ => True).
Proof.
  intros Hb. unfold ParseBody. destruct raw as [|c0 raw0]; [done|]. cbv iota. set (raw := c0 :: raw0). destruct (isnil b); [done|].
  eapply returns_bind; [apply skipPreamble_returns; [apply Init_wf|rewrite Init_left; lia]|]. rewrite Init_left. intros rest Hrest.
  eapply returns_bind; [apply parts_loop_returns; [done|lia]|]. by intros [parts rest'].
Qed.

(** C11: [ParseMessage] ends on every text, and it panics on a text that begins
    with an empty line, whose header is nil, and on no other. *)
Theorem ParseMessage_panics_iff raw :
  ParseMessage raw ≠ NoFuel /\ (ParseMessage raw = Panic <-> exists body, raw = cr :: lf :: body).
Proof.
  assert (Hret : (forall body, raw ≠ cr :: lf :: body) -> returns (ParseMessage raw) (fun _ => True)).
  { intros Hne. unfold ParseMessage. destruct raw as [|c0 raw0] eqn:Er; [done|]. rewrite <- Er in *.
    eapply returns_bind; [apply ParseHeader_returns|]. intros [[h|] rest] (_ & Hh & Hnone).
    - eapply returns_bind; [by apply Boundary_returns|]. intros [b h'] Hb. eapply returns_bind; [by apply ParseBody_returns|]. by intros [bd rest'].
    - destruct (Hnone eq_refl) as [->|H]; [done|]. by apply Hne in H. }
  assert (Hp : forall body, ParseMessage (cr :: lf :: body) = Panic) by (intros body; by destruct body).
  destruct (decide (take 2 raw = [cr; lf])) as [Ht|Ht].
  - destruct raw as [|a [|b0 body]]; try done. injection Ht as -> ->. rewrite Hp. split; [done|]. split; [by exists body|done].
  - assert (Hne : forall body, raw ≠ cr :: lf :: body) by (intros body ->; by cbn in Ht). specialize (Hret Hne).
    destruct (ParseMessage raw); try done; (split; [done|]); split; try done; intros [body Hb]; by apply Hne in Hb.
Qed.

End Parts.
