(* ===== verification/EmailAddress.v ===== *)
(** Proofs on [EmailField] and [EmailMessage]: addresses are parsed back from
    their text, and the simple form of a body; with the texts on which the
    functions panic or give something else than they say. *)

From Stdlib Require Import ZArith Lia.
From S2P Require Import Prelude Ascii Utf8 Strconv IoReader DnsHosts DkimTag DkimSignature DkimFacts EmailField EmailMessage.

Local Open Scope Z_scope.

(** ** Bodies *)

Section Bodies.
Context (grown : list Z -> list Z).

Definition crlfs (k : nat) : list Z := concat (replicate k [cr; lf]).

Lemma crlfs_S k : crlfs (S k) = crlfs k ++ [cr; lf].
Proof.
  unfold crlfs. rewrite replicate_S_end, concat_app. done.
Qed.

Lemma length_crlfs k : length (crlfs k) = (2 * k)%nat.
Proof. induction k as [|k IH]; [done|]. rewrite crlfs_S, length_app, IH. cbn. lia. Qed.

Lemma strip_end (fuel : nat) t : (2 <= length t)%nat -> t !! (length t - 1)%nat ≠ Some lf -> strip_CRLFs fuel t = (t, false).
Proof.
  intros Hn Hl. destruct fuel as [|fuel]; [done|]. cbn [strip_CRLFs]. rewrite (bool_decide_false (drop _ t = _)), andb_false_r; [done|].
  intros Hd. apply Hl. assert (H : drop (length t - 2) t !! 1%nat = Some lf) by by rewrite Hd. rewrite lookup_drop in H.
  by replace (length t - 2 + 1)%nat with (length t - 1)%nat in H by lia.
Qed.

Lemma strip_crlfs t : (3 <= length t)%nat -> t !! (length t - 1)%nat ≠ Some lf -> forall k fuel, (k <= fuel)%nat ->
  (strip_CRLFs fuel (t ++ crlfs k)).1 = t.
Proof.
  intros Hn Hl. induction k as [|k IH]; intros fuel Hf.
  - change (crlfs 0) with (@nil Z). rewrite app_nil_r. by rewrite strip_end by (done || lia).
  - destruct fuel as [|fuel]; [lia|]. cbn [strip_CRLFs]. rewrite crlfs_S, (assoc_L (++)). set (u := t ++ crlfs k).
    assert (Hu : (3 <= length u)%nat) by (unfold u; rewrite length_app; lia).
    assert (Hlen : length (u ++ [cr; lf]) = (length u + 2)%nat) by by rewrite length_app. rewrite Hlen.
    replace (length u + 2 - 2)%nat with (length u) by lia. rewrite drop_app_length, take_app_length.
    rewrite !bool_decide_true by (done || lia). cbn [andb fst]. apply IH. lia.
Qed.

(** The simple form of a body of three bytes or more is its text with one line
    end, however many were at its end; where the text has no carriage return as its
    last byte but one and no line feed as its last one. *)
Theorem body_Simple_spec ps t k : (3 <= length t)%nat -> t !! (length t - 2)%nat ≠ Some cr -> t !! (length t - 1)%nat ≠ Some lf ->
  exists spare, body_Simple grown (mkBody ps (t ++ crlfs k)) = Ok (t ++ [cr; lf], spare).
Proof.
  intros Hn H2 H1. unfold body_Simple. cbn [braw]. destruct (t ++ crlfs k) as [|c0 r0] eqn:E; [destruct t; [cbn in Hn; lia|done]|]. rewrite <- E. clear c0 r0 E.
  pose proof (strip_crlfs t Hn H1 k (length (t ++ crlfs k)) ltac:(rewrite length_app, length_crlfs; lia)) as Hs.
  destruct (strip_CRLFs _ (t ++ crlfs k)) as [out has]. cbn [fst] in Hs. subst out. rewrite !decide_False by lia.
  destruct (lookup_lt_is_Some_2 t (length t - 2)) as [c Hc]; [lia|]. destruct (lookup_lt_is_Some_2 t (length t - 1)) as [d Hd]; [lia|].
  rewrite (get_at_Some _ _ _ Hc), (get_at_Some _ _ _ Hd). cbn [mbind outcome_bind].
  destruct (Z.eqb_spec c cr) as [->|]; [done|]. destruct (Z.eqb_spec d lf) as [->|]; [done|]. cbn. by eexists.
Qed.

(** Other bodies: one byte, two bytes and a line end, a line feed alone. *)
Lemma short_bodies :
  body_Simple grown (mkBody [] [97]) = Panic /\
  body_Simple grown (mkBody [] [97; 98; 13; 10]) = Ok ([97; 98], [13; 10]) /\
  body_Simple grown (mkBody [] [97; 98; 99; 10]) = Ok ([97; 98; 99; 10], []).
Proof. by split_and!. Qed.

(** [Relaxed]: a carriage return at the end, a single blank before a line end,
    which is dropped, and two, of which one is kept. *)
Lemma relaxed_bodies :
  body_Relaxed (mkBody [] (str "ab" ++ [13])) = Panic /\
  body_Relaxed (mkBody [] (str "ab " ++ [13; 10] ++ str "cd" ++ [13; 10])) = Ok (str "ab" ++ [13; 10] ++ str "cd" ++ [13; 10], [0]) /\
  body_Relaxed (mkBody [] (str "ab  " ++ [13; 10] ++ str "cd" ++ [13; 10])) = Ok (str "ab " ++ [13; 10] ++ str "cd" ++ [13; 10], [0]) /\
  body_Relaxed (mkBody [] (str "ab" ++ [13] ++ str "xcd" ++ [13; 10])) = Ok (str "ab cd" ++ [13; 10], [0]).
Proof. by split_and!. Qed.

End Bodies.

Lemma body_Simple_spec_witness : exists spare, body_Simple (fun _ => []) (mkBody [] (str "text" ++ [13; 10; 13; 10])) = Ok (str "text" ++ [13; 10], spare).
Proof. exact (body_Simple_spec (fun _ => []) [] (str "text") 2 ltac:(cbn; lia) ltac:(done) ltac:(done)). Defined.

(** ** Addresses *)

(** A byte of a display name that needs no quotes. *)
Definition achar (c : Z) : Prop := 32 <= c <= 126 /\ (c ∉ addr_seps).
#[export] Instance achar_dec c : Decision (achar c).
Proof. unfold achar. apply _. Defined.

Record mailbox_ok (m : Mailbox) : Prop := {
  mb_name : Forall achar (mboxName m) /\ no_edge_space (mboxName m);
  mb_local : IsValidLocal (Local_ m) = true;
  mb_domain : IsHostnameValid (Domain_ m) false = true;
  mb_form : Address_ m = [] /\ isAngle m = true
}.

Definition addresses (ms : list Mailbox) : list Z := join_with [44; 32] (Mailbox_String <$> ms).

Lemma achar_token l : Forall achar l -> Forall (fun b => (b ∉ []) /\ (b ∉ addr_seps)) l.
Proof. intros H. eapply Forall_impl; [exact H|]. intros c [_ Hc]. split; [apply not_elem_of_nil|done]. Qed.

Lemma achar_ascii l : Forall achar l -> is_ascii l.
Proof. intros H. eapply Forall_impl; [exact H|]. unfold achar. intros c [Hc _]. lia. Qed.

Lemma local_chars local : IsValidLocal local = true -> local ≠ [] /\ Forall achar local /\ Forall (fun c => IsSpace c = false) local.
Proof.
  unfold IsValidLocal. destruct local as [|c0 l0]; [done|]. destruct (last (c0 :: l0)) as [d|]; [|done]. destruct ((c0 =? 46) || (d =? 46)); [done|].
  intros H. split; [done|]. revert H. generalize false at 1. induction (c0 :: l0) as [|c l IH]; intros dot H; [by split|]. cbn [local_loop] in H.
  destruct ((c <? 33) || (126 <? c)) eqn:Er; [done|]. rewrite orb_false_iff, !Z.ltb_ge in Er.
  assert (Hc : achar c /\ exists dot', local_loop dot' l = true).
  { unfold achar. destruct (Z.eqb_spec c 46) as [->|].
    - destruct dot; [done|]. split; [split; [lia|by apply (bool_decide_unpack _)]|by eexists].
    - case_bool_decide as Hs; [done|]. split; [|by eexists]. split; [lia|]. intros Hin. apply Hs. revert Hin. unfold addr_seps, specialChars.
      rewrite !elem_of_cons. tauto. }
  destruct Hc as [Hc [dot' Hl]]. destruct (IH dot' Hl) as [H1 H2]. split; (constructor; [|done]); [done|].
  assert (Hr : 32 < c <= 126) by lia. clear - Hr. unfold IsSpace. rewrite !orb_false_iff, !Z.eqb_neq. lia.
Qed.

Lemma host_chars d : IsHostnameValid d false = true -> d ≠ [] /\ Forall achar d /\ Forall (fun c => IsSpace c = false) d.
Proof.
  assert (Hb : forall c, inner_byte c = true -> achar c /\ IsSpace c = false).
  { intros c Hc. assert (Hr : 45 <= c <= 122 /\ c ≠ 58 /\ c ≠ 59 /\ c ≠ 60 /\ c ≠ 62 /\ c ≠ 64).
    { unfold inner_byte, IsAlnum, IsAlpha, IsDigit in Hc. rewrite !orb_true_iff, !andb_true_iff, !Z.eqb_eq, !Z.leb_le in Hc. lia. }
    unfold achar, addr_seps, IsSpace. rewrite !orb_false_iff, !Z.eqb_neq, !not_elem_of_cons. split_and!; try lia. apply not_elem_of_nil. }
  assert (Hall : forall l, Forall (fun c => inner_byte c = true) l -> Forall achar l /\ Forall (fun c => IsSpace c = false) l).
  { intros l Hl. split; (eapply Forall_impl; [exact Hl|]); intros c Hc; by apply Hb. }
  intros H. split; [by destruct d|]. apply Hall. unfold IsHostnameValid in H. destruct d as [|c rest]; [done|].
  destruct (last (c :: rest)) as [l|] eqn:El; [|done]. destruct (negb (IsAlnum c) && negb (c =? 95)) eqn:Ec; [done|].
  destruct (negb (IsAlnum l)) eqn:Ea; [done|]. destruct (negb (forallb inner_byte (removelast rest))) eqn:Er; [done|].
  apply negb_false_iff in Ea, Er. constructor.
  { unfold inner_byte. apply andb_false_iff in Ec as [Ec|Ec]; apply negb_false_iff in Ec; rewrite Ec; by rewrite ?orb_true_r. }
  destruct rest as [|c1 rest1] using rev_ind; [constructor|]. rewrite removelast_last in Er. apply Is_true_true, forallb_True in Er.
  rewrite app_comm_cons, last_snoc in El. injection El as ->. apply Forall_app. split.
  - eapply Forall_impl; [exact Er|]. intros x Hx. by apply Is_true_true.
  - constructor; [|constructor]. unfold inner_byte. by rewrite Ea, orb_true_r.
Qed.

Lemma spaceless_edges l : Forall (fun c => IsSpace c = false) l -> no_edge_space l.
Proof.
  intros H. rewrite Forall_forall in H. split; intros b Hb; apply H.
  - destruct l; [done|]. injection Hb as ->. by left.
  - by apply last_Some_elem_of.
Qed.

Lemma TrimSpace_both sp w sp' : Forall (fun c => IsSpace c = true) sp -> Forall (fun c => IsSpace c = true) sp' -> no_edge_space w -> is_ascii w -> w ≠ [] ->
  TrimSpace (sp ++ w ++ sp') = w.
Proof.
  intros Hsp Hsp' Hw Ha Hne.
  assert (Hspa : forall l, Forall (fun c => IsSpace c = true) l -> is_ascii l).
  { intros l Hl. eapply Forall_impl; [exact Hl|]. unfold IsSpace. intros c Hc. rewrite !orb_true_iff, !Z.eqb_eq in Hc. lia. }
  assert (Hright : forall fuel, (length sp' <= fuel)%nat -> trim_right fuel (w ++ sp') = w).
  { clear Hsp sp. induction sp' as [|c sp' IH] using rev_ind; intros fuel Hf; [rewrite app_nil_r; by apply trim_right_id|].
    apply Forall_app in Hsp' as [Hsp' Hc]. apply Forall_inv in Hc. rewrite length_app in Hf. cbn in Hf. destruct fuel as [|fuel]; [lia|].
    rewrite (assoc_L (++)), trim_right_snoc by (unfold IsSpace in Hc; rewrite !orb_true_iff, !Z.eqb_eq in Hc; lia). rewrite Hc. apply IH; [done|lia]. }
  unfold TrimSpace. destruct w as [|c w']; [done|]. set (w := c :: w') in *.
  assert (Hl : trim_left (length (sp ++ w ++ sp')) (sp ++ w ++ sp') = w ++ sp').
  { assert (Hn : (length sp <= length (sp ++ w ++ sp'))%nat) by (rewrite length_app; lia). revert Hn. generalize (length (sp ++ w ++ sp')). intros n Hn.
    clear Hright. induction Hsp as [|b sp Hb _ IH] in n, Hn |- *.
    - cbn [app]. unfold w. cbn [app]. apply Forall_inv in Ha. apply trim_left_hd; [done|]. by apply (proj1 Hw).
    - destruct n as [|n]; [cbn in Hn; lia|]. cbn [app trim_left].
      assert (H0 : 0 <= b < 128) by (unfold IsSpace in Hb; rewrite !orb_true_iff, !Z.eqb_eq in Hb; lia).
      rewrite DecodeRune_ascii by done. rewrite rune_IsSpace_ascii, Hb by done. cbn [drop]. apply IH. cbn in Hn. lia. }
  rewrite Hl. apply Hright. rewrite length_app. lia.
Qed.

Lemma addr_loop_sep fuel s pre tok c rest : Forall achar tok -> c ∈ addr_seps ->
  addr_loop (S fuel) s (mid pre (tok ++ c :: rest)) =
    ('(s, r) ← addr_step fuel s tok c (mid (pre ++ tok ++ [c]) rest); addr_loop fuel s r).
Proof.
  intros Ht Hc. cbn [addr_loop]. rewrite ReadUntil_found by (by apply achar_token || by right). cbn [mbind outcome_bind].
  destruct (Z.eqb_spec c 0) as [->|]; [|done]. exfalso. revert Hc. by apply (bool_decide_unpack _).
Qed.

Lemma step_angle fuel tok name grp mb ms r : TrimSpace tok = name ->
  addr_step fuel (mkAddr stateBegin [] grp mb ms) tok 60 r = Ok (mkAddr stateLocalPart [] grp (Some (mkMailbox name [] [] [] true)) ms, r).
Proof. by intros <-. Qed.

Lemma step_at fuel local name grp ms r : TrimSpace local = local -> IsValidLocal local = true ->
  addr_step fuel (mkAddr stateLocalPart [] grp (Some (mkMailbox name [] [] [] true)) ms) local 64 r =
    Ok (mkAddr stateDomain [] grp (Some (mkMailbox name local [] [] true)) ms, r).
Proof.
  intros Ht Hl. unfold addr_step. cbn [Z.eqb Pos.eqb st av app]. change (stateDomain <=? stateLocalPart) with false. cbv iota.
  rewrite Ht, Hl. by destruct local.
Qed.

Lemma step_end fuel local name dom grp ms r : TrimSpace dom = dom -> IsHostnameValid dom false = true ->
  addr_step fuel (mkAddr stateDomain [] grp (Some (mkMailbox name local [] [] true)) ms) dom 62 r =
    Ok (mkAddr stateEnd [] grp None (ms ++ [mkMailbox name local dom [] true]), r).
Proof.
  intros Ht Hd. unfold addr_step. cbn [Z.eqb Pos.eqb st av app mbox isAngle negb]. change (stateDomain <? stateDomain) with false. cbv iota.
  rewrite Ht, Hd. by rewrite andb_false_r.
Qed.

(** One mailbox in the text, after a comma and a blank or at the beginning. *)
Lemma addr_loop_mailbox fuel pre sp m ms rest : (sp = [] \/ sp = [32]) -> mailbox_ok m ->
  exists pre', addr_loop (S (S (S fuel))) (mkAddr stateBegin [] false None ms) (mid pre (sp ++ Mailbox_String m ++ rest)) =
    addr_loop fuel (mkAddr stateEnd [] false None (ms ++ [m])) (mid pre' rest).
Proof.
  intros Hsp [[Hn Hne] Hl Hd [Ha Hang]]. destruct m as [name local dom adr ang]. cbn [mboxName Local_ Domain_ Address_ isAngle] in *. subst adr ang.
  destruct (local_chars local Hl) as (Hl0 & Hlc & Hls). destruct (host_chars dom Hd) as (Hd0 & Hdc & Hds).
  set (tok := sp ++ name ++ (if isnil name then [] else [32])).
  assert (Hsp' : Forall (fun c => IsSpace c = true) sp) by (destruct Hsp as [->| ->]; by repeat constructor).
  assert (Hspa : Forall achar sp) by (destruct Hsp as [->| ->]; by apply (bool_decide_unpack _)).
  assert (Htok : TrimSpace tok = name).
  { unfold tok. destruct name as [|c name']; [destruct Hsp as [->| ->]; reflexivity|].
    apply TrimSpace_both; try done; [by repeat constructor|by apply achar_ascii]. }
  assert (Htokc : Forall achar tok).
  { unfold tok. repeat (apply Forall_app; split); [done|done|]. destruct (isnil name); [constructor|by apply (bool_decide_unpack _)]. }
  assert (Hstr : sp ++ Mailbox_String (mkMailbox name local dom [] true) ++ rest = tok ++ 60 :: local ++ 64 :: dom ++ 62 :: rest).
  { unfold Mailbox_String, tok. cbn [mboxName Local_ Domain_]. destruct dom as [|d0 dom']; [done|].
    destruct name as [|c name']; cbn [isnil]; rewrite <- ?(assoc_L (++)); cbn [app]; rewrite <- ?(assoc_L (++)); cbn [app]; by rewrite <- ?(assoc_L (++)). }
  assert (Hseps : forall c, c ∈ [60; 64; 62] -> c ∈ addr_seps) by (intros c; unfold addr_seps; rewrite !elem_of_cons; tauto).
  rewrite Hstr, addr_loop_sep by (done || by apply Hseps; repeat constructor). rewrite (step_angle _ _ name) by done. cbn [mbind outcome_bind].
  rewrite addr_loop_sep by (done || by apply Hseps; repeat constructor).
  rewrite step_at by (done || by apply TrimSpace_id; [apply spaceless_edges|apply achar_ascii]). cbn [mbind outcome_bind].
  rewrite addr_loop_sep by (done || by apply Hseps; repeat constructor).
  rewrite step_end by (done || by apply TrimSpace_id; [apply spaceless_edges|apply achar_ascii]). cbn [mbind outcome_bind]. by eexists.
Qed.

Lemma addr_loop_end fuel pre ms : addr_loop (S fuel) (mkAddr stateEnd [] false None ms) (mid pre []) = Ok ms.
Proof. cbn [addr_loop]. rewrite ReadUntil_eof by apply Forall_nil_2. reflexivity. Qed.

Lemma addr_loop_comma fuel pre ms rest : addr_loop (S fuel) (mkAddr stateEnd [] false None ms) (mid pre (44 :: rest)) =
  addr_loop fuel (mkAddr stateBegin [] false None ms) (mid (pre ++ [44]) rest).
Proof.
  cbn [addr_loop]. change (44 :: rest) with ([] ++ 44 :: rest). rewrite ReadUntil_found; [reflexivity|apply Forall_nil_2|right; by apply (bool_decide_unpack _)].
Qed.

Lemma addresses_cons m m2 ms : addresses (m :: m2 :: ms) = Mailbox_String m ++ [44; 32] ++ addresses (m2 :: ms).
Proof. unfold addresses. rewrite !fmap_cons, !join_with_cons, fmap_cons. cbn [concat app]. by rewrite <- ?(assoc_L (++)). Qed.

Lemma addr_loop_all ms : Forall mailbox_ok ms -> forall fuel pre acc m, mailbox_ok m -> (4 * length ms + 4 <= fuel)%nat -> forall sp, sp = [] \/ sp = [32] ->
  addr_loop fuel (mkAddr stateBegin [] false None acc) (mid pre (sp ++ addresses (m :: ms))) = Ok (acc ++ m :: ms).
Proof.
  induction 1 as [|m2 ms Hm2 _ IH]; intros fuel pre acc m Hm Hf sp Hsp.
  - destruct fuel as [|[|[|[|fuel]]]]; [cbn in Hf; lia..|]. unfold addresses. rewrite fmap_cons, join_with_cons. cbn [fmap list_fmap concat].
    destruct (addr_loop_mailbox (S fuel) pre sp m acc [] Hsp Hm) as [pre' ->]. by rewrite addr_loop_end.
  - destruct fuel as [|[|[|[|fuel]]]]; [cbn in Hf; lia..|].
    rewrite addresses_cons. change ([44; 32] ++ ?l) with (44 :: [32] ++ l). destruct (addr_loop_mailbox (S fuel) pre sp m acc (44 :: [32] ++ addresses (m2 :: ms)) Hsp Hm) as [pre' ->]. rewrite addr_loop_comma.
    rewrite IH; [by rewrite <- (assoc_L (++))|done|cbn in *; lia|by right].
Qed.

Lemma Mailbox_text m : mailbox_ok m -> is_ascii (Mailbox_String m) /\
  (exists c l, Mailbox_String m = c :: l /\ IsSpace c = false) /\ (exists l, Mailbox_String m = l ++ [62]).
Proof.
  intros [[Hn [Hne _]] Hl Hd _]. destruct m as [name local dom adr ang]. cbn [mboxName Local_ Domain_] in *.
  destruct (local_chars local Hl) as (_ & Hlc & _). destruct (host_chars dom Hd) as (_ & Hdc & _).
  unfold Mailbox_String. cbn [mboxName Local_ Domain_]. split_and!.
  - repeat (apply Forall_app; split).
    + destruct (isnil name); [constructor|]. apply Forall_app; split; [by apply achar_ascii|]. by repeat constructor.
    + by repeat constructor.
    + by apply achar_ascii.
    + destruct (isnil dom); [constructor|]. constructor; [done|by apply achar_ascii].
    + by repeat constructor.
  - destruct name as [|c name]; [by eexists _, _|]. eexists c, _. split; [done|]. by apply Hne.
  - eexists. by rewrite !(assoc_L (++)).
Qed.

Lemma addresses_text ms : ms ≠ [] -> Forall mailbox_ok ms -> is_ascii (addresses ms) /\
  (exists c l, addresses ms = c :: l /\ IsSpace c = false) /\ (exists l, addresses ms = l ++ [62]).
Proof.
  intros Hne Hms. induction Hms as [|m ms Hm Hms IH]; [done|]. destruct (Mailbox_text m Hm) as (Ha & (c & l & Hc & Hcs) & (e & He)).
  destruct ms as [|m2 ms].
  - unfold addresses. rewrite fmap_cons, join_with_cons. cbn [fmap list_fmap concat]. rewrite app_nil_r. split_and!; [done|by eexists _, _|by eexists].
  - destruct IH as (Ha2 & _ & (e2 & He2)); [done|]. rewrite addresses_cons. split_and!.
    + apply Forall_app; split; [done|]. apply Forall_app; split; [by repeat constructor|done].
    + rewrite Hc. by eexists _, _.
    + rewrite He2. eexists. by rewrite !(assoc_L (++)).
Qed.

Lemma length_addresses ms : Forall mailbox_ok ms -> (5 * length ms <= length (addresses ms))%nat.
Proof.
  assert (Hm : forall m, mailbox_ok m -> (5 <= length (Mailbox_String m))%nat).
  { intros m [_ Hl Hd _]. destruct (local_chars _ Hl) as [Hl0 _], (host_chars _ Hd) as [Hd0 _]. unfold Mailbox_String.
    destruct (Local_ m), (Domain_ m); try done. cbn [isnil]. rewrite !length_app. cbn. lia. }
  induction 1 as [|m ms Hmo Hms IH]; [cbn; lia|]. pose proof (Hm m Hmo). destruct ms as [|m2 ms].
  - unfold addresses. rewrite fmap_cons, join_with_cons. rewrite length_app. cbn. lia.
  - rewrite addresses_cons, !length_app. cbn [length] in *. lia.
Qed.

(** C35: one or more mailboxes are parsed back from the text that [String] prints of
    them, with a comma and a blank between two: the name, the local part and the domain
    of each, in their order. The mailboxes are those of [mailbox_ok]: the name, which
    can be empty, is of printable ASCII characters without the separators of addresses
    and without blanks at its ends; the local part is one that [IsValidLocal] takes; and
    the domain is a valid hostname. Without a domain, which [String] prints too, the
    local part comes back as the domain: see [address_texts]. *)
Theorem ParseAddress_addresses ms : ms ≠ [] -> Forall mailbox_ok ms -> ParseAddress (addresses ms) = Ok ms.
Proof.
  intros Hne Hms. destruct (addresses_text ms Hne Hms) as (Ha & (c & l & Hc & Hcs) & (e & He)).
  assert (Hedge : no_edge_space (addresses ms)).
  { split; intros b Hb; [rewrite Hc in Hb; by injection Hb as <-|]. rewrite He, last_snoc in Hb. by injection Hb as <-. }
  unfold ParseAddress. rewrite TrimSpace_id by done. rewrite Hc at 1. cbn [isnil].
  change (Init (addresses ms)) with (mid [] (addresses ms)). rewrite Hc at 2. rewrite SkipSpaces_mid_stop by done. rewrite <- Hc. cbn [snd].
  destruct ms as [|m ms]; [done|]. apply Forall_cons in Hms as [Hm Hms].
  apply (addr_loop_all ms Hms _ [] [] m Hm) with (sp := []); [|by left].
  pose proof (length_addresses (m :: ms) ltac:(by constructor)). cbn [length] in *. lia.
Qed.

Lemma ParseAddress_addresses_witness :
  ParseAddress (addresses [mkMailbox (str "A B") (str "a.b") (str "c.d") [] true; mkMailbox [] (str "x") (str "y") [] true]) =
    Ok [mkMailbox (str "A B") (str "a.b") (str "c.d") [] true; mkMailbox [] (str "x") (str "y") [] true].
Proof.
  apply ParseAddress_addresses; [done|]. apply Forall_cons; split; [|apply Forall_singleton];
    (split; [|reflexivity|reflexivity|split; reflexivity]); (split; [by apply (bool_decide_unpack _)|split; intros b H; by inversion H]).
Defined.

(** A closing bracket first, a mailbox without a domain, whose local part becomes
    the domain, and a blank in a local part. *)
Lemma address_texts :
  ParseAddress (str ">") = Panic /\
  ParseAddress (str "<postmaster>") = Ok [mkMailbox [] [] (str "postmaster") [] true] /\
  ParseAddress (str "a b@c.d") = Err ErrLocal.
Proof. by split_and!. Qed.

(** Parameters of a content type with semicolons between them, as they are written. *)
Lemma content_type_params :
  ParseContentType (U := ascii_tables) (str "text/plain; charset=utf-8; format=flowed") = Err ErrContentType /\
  ParseContentType (U := ascii_tables) (str "multipart/mixed; boundary=b; charset=utf-8") = Err ErrContentType /\
  ParseContentType (U := ascii_tables) (str "multipart/mixed; boundary=b charset=utf-8") =
    Ok (mkContentType (str "multipart") (str "mixed") [mkParam (str "boundary") (str "b") false; mkParam (str "charset") (str "utf-8") false]).
Proof. by split_and!; vm_compute. Qed.
