(* ===== verification/EmailDkim.v ===== *)
(** Package [lib/email], the signatures of messages in [message.go], and the
    lookup of keys in [lib/email/dkim/dns.go].

    The clock, the pool of keys and the way to ask a name server are arguments;
    the pool is handed on. *)

From Stdlib Require Import ZArith Lia.
From S2P Require Import Prelude Ascii Utf8 IoReader EmailField EmailMessage DkimTag DkimSignature.
From S2P Require DnsHeader DnsMessage.

Local Open Scope Z_scope.

(** ** [lookupDNSTXT]

    [ask] is [Lookup] of the DNS client for a TXT record. *)
Section Lookup.
Context {C : Crypto}.

Definition lookupDNSTXT (ask : list Z -> outcome dkim_error DnsMessage.Message) (now : Z) (dname : list Z) : outcome dkim_error (option Key) :=
  match dname with
  | [] => Ok None
  | _ =>
      msg ← ask dname;
      if negb (DnsHeader.RCode (DnsMessage.Header msg) =? DnsHeader.RCodeOK) then Err (ErrLookup false)
      else if isnil (DnsMessage.Answer msg) then Err (ErrLookup false)
      else
        match DnsMessage.FilterAnswers msg DnsMessage.QueryTypeTXT with
        | [rr] =>
            match DnsMessage.RData rr with
            | DnsMessage.RText (Some txt) => ParseTXT now txt (DnsMessage.TTL rr)
            | _ => Panic
            end
        | _ => Err (ErrLookup false)
        end
  end.
Definition LookupKey (ask : list Z -> outcome dkim_error DnsMessage.Message) (now : Z) (qm : QueryMethod) (dname : list Z) : outcome dkim_error (option Key) :=
  match dname with
  | [] => Ok None
  | _ => match qmType qm, qmOption qm with QueryTypeDNS, QueryOptionTXT => lookupDNSTXT ask now dname end
  end.

End Lookup.

(** ** [message.go] *)

Section Messages.
Context {U : Unicode} {C : Crypto} (grown : list Z -> list Z).

Abbreviation pool := (gmap (list Z) Key).

Definition CanonBody_of (sig : Signature) (b : option Body) : outcome unit (list Z) :=
  match b with
  | None => Panic
  | Some b =>
      '(body, spare) ← (match CanonBody sig with
                        | None | Some CanonSimple => body_Simple grown b
                        | Some CanonRelaxed => body_Relaxed b
                        end);
      match BodyLength sig with
      | None => Ok body
      | Some l =>
          if l =? 0 then Ok []
          else if Z.of_nat (length body + length spare) <? l then Panic
          else Ok (take (Z.to_nat l) (body ++ spare))
      end
  end.

(** The fields that are signed, in the order of [h=]. *)
Fixpoint signed_fields (canon : Field -> list Z) (names : list (list Z)) (h : header) : list Z :=
  match names with
  | [] => []
  | n :: names =>
      let '(f, h) := popByName n h in
      match f with Some f => canon f | None => [] end ++ signed_fields canon names h
  end.
Definition is_simple (c : option Canon) : bool := match c with Some CanonRelaxed => false | _ => true end.
Definition CanonHeader_of (sig : Signature) (sub : header) (dkimField : Field) : list Z :=
  if is_simple (CanonHeader sig) then
    signed_fields field_Simple (Headers sig) sub ++ oriName dkimField ++ [58] ++ Canonicalize (oriValue dkimField)
  else signed_fields field_Relaxed (Headers sig) sub ++ Name dkimField ++ [58] ++ Canonicalize (fValue dkimField).

Definition setDKIMHeaders (h : option header) (sig : Signature) : outcome unit Signature :=
  match Headers sig with
  | [] => match h with None => Panic | Some h => Ok (put_Headers sig (Name <$> h)) end
  | _ => Ok sig
  end.

Definition lift_unit {A} (o : outcome unit A) : outcome message_error A :=
  match o with Ok a => Ok a | Err _ => Panic | Panic => Panic | NoFuel => NoFuel end.

Definition dkim_field (sig : Signature) : Field :=
  mkField FieldTypeDKIMSignature (str "dkim-signature") (Pack sig false) (str "DKIM-Signature") (Pack sig true) None [] None false.

(** [DKIMSign], with a key and a signature: the message, which holds the signature. *)
Definition DKIMSign (now : Z) (pk : PrivateKey) (sig : Signature) (msg : Message) : outcome message_error Message :=
  sig ← lift_unit (setDKIMHeaders (Header msg) (SetDefault sig));
  match Validate now (put_Value (put_BodyHash sig [0]) [0]) with
  | Some e => Err (MDkim e)
  | None =>
      let sig := put_Value (put_BodyHash sig []) [] in
      body ← lift_unit (CanonBody_of sig (MBody msg));
      let sig := put_BodyHash sig (Hash sig body).2 in
      match Header msg with
      | None => Panic
      | Some h =>
          let hh := (Hash sig (CanonHeader_of sig h (dkim_field sig))).1 in
          match Sign sig pk hh with
          | Ok sig => Ok (mkMessage (Some (PushTop (dkim_field sig) h)) (MBody msg) (Some sig) (dkimStatus msg))
          | Err e => Err (MDkim e)
          | Panic => Panic
          | NoFuel => NoFuel
          end
      end
  end.

(** [DKIMVerify]: the status and the error that are returned, the message and the
    pool of keys. *)
Definition done_ (m : option Status) : option Status :=
  match m with
  | Some s => match sType s with StatusNoSignature | StatusOK | StatusPermFail => m | _ => None end
  | None => None
  end.
Definition set_status (msg : Message) (s : Status) : Message := mkMessage (Header msg) (MBody msg) (DKIMSignature msg) (Some s).
Definition set_signature (msg : Message) (sig : Signature) : Message := mkMessage (Header msg) (MBody msg) (Some sig) (dkimStatus msg).
Definition result : Type := option Status * option message_error * Message * pool.
Definition finish {E : Type} (msg : Message) (kp : pool) (t : StatusType) (sdid : list Z) (e : option message_error) : outcome E result :=
  let s := mkStatus t sdid e in Ok (Some s, e, set_status msg s, kp).

(** From the signature on, once it is parsed and validated. *)
Definition verify_message (lookup : list Z -> outcome dkim_error (option Key)) (now : Z) (kp : pool) (sub : header) (f : Field)
    (sig : Signature) (msg : Message) : outcome unit result :=
  let sdid := SDID sig in
  match Filter FieldTypeFrom sub with
  | [] => finish msg kp StatusPermFail sdid (Some MNoFrom)
  | _ =>
      match Get lookup now kp (Selector sig ++ str "._domainkey." ++ SDID sig) with
      | Err (ErrLookup true as e) => finish msg kp StatusTempFail sdid (Some (MDkim e))
      | Err e => finish msg kp StatusPermFail sdid (Some (MDkim e))
      | Panic => Panic
      | NoFuel => NoFuel
      | Ok (k, kp) =>
          let msg := set_signature msg sig in
          body ← CanonBody_of sig (MBody msg);
          if negb (bool_decide (BodyHash sig = (Hash sig body).2)) then
            Ok (None, Some MBodyHash, set_status msg (mkStatus StatusPermFail sdid (Some MBodyHash)), kp)
          else
            match Verify sig k (Hash sig (CanonHeader_of sig sub f)).1 with
            | Some e => finish msg kp StatusPermFail sdid (Some (MDkim e))
            | None => finish msg kp StatusOK sdid None
            end
      end
  end.
Definition DKIMVerify (lookup : list Z -> outcome dkim_error (option Key)) (now : Z) (kp : pool) (msg : Message) : outcome unit result :=
  match done_ (dkimStatus msg) with
  | Some s => Ok (Some s, sError s, msg, kp)
  | None =>
      match Header msg with
      | None => Panic
      | Some h =>
          match header_DKIM 1 h with
          | None | Some [] => finish msg kp StatusNoSignature [] None
          | Some ((f :: _) as sub) =>
              match Parse now (fValue f) with
              | Panic => Panic
              | NoFuel => NoFuel
              | Ok None => Panic
              | Err (e, sig) => finish msg kp StatusPermFail (match sig with Some s => SDID s | None => [] end) (Some (MDkim e))
              | Ok (Some sig) =>
                  match Validate now sig with
                  | Some e => finish msg kp StatusPermFail (SDID sig) (Some (MDkim e))
                  | None => verify_message lookup now kp sub f sig msg
                  end
              end
          end
      end
  end.

End Messages.
