(* ===== verification/EmailDkimFacts.v ===== *)
(** Proofs on [EmailDkim]: what the signature covers does not depend on its own
    value, and a message that was signed is verified. *)

From Stdlib Require Import ZArith Lia.
From S2P Require Import Prelude Ascii Utf8 Strconv Base64 IoReader EmailField EmailMessage DkimTag DkimSignature DkimFacts EmailDkim.

Local Open Scope Z_scope.

(** ** The text up to the value of the signature *)

(** No [=] comes after a [b], where [b] says whether one is before the text. *)
Fixpoint no_b (b : bool) (l : list Z) : bool :=
  match l with [] => true | c :: l => negb ((c =? 61) && b) && no_b (c =? 98) l end.

Lemma no_b_plain b l c l' : 61 ∉ l -> c ≠ 61 -> no_b b (l ++ c :: l') = no_b (c =? 98) l'.
Proof.
  revert b. induction l as [|d l IH]; intros b Hl Hc; cbn [app no_b].
  - by rewrite (proj2 (Z.eqb_neq c 61)).
  - apply not_elem_of_cons in Hl as [Hd Hl]. rewrite (proj2 (Z.eqb_neq d 61)) by done. cbn. by apply IH.
Qed.

Lemma split_b_first acc l s : no_b (bool_decide (last acc = Some 98)) l -> (1 < length acc + length l + 1)%nat ->
  split_b acc (l ++ 98 :: 61 :: s) = Some (acc ++ l ++ [98; 61], s).
Proof.
  revert acc. induction l as [|c l IH]; intros acc Hl Hn; cbn [app split_b].
  - cbn [Z.eqb Pos.eqb andb]. rewrite length_app, last_snoc. cbn [length] in *. rewrite !bool_decide_true by (done || lia).
    cbn. by rewrite <- (assoc_L (++)).
  - cbn [no_b] in Hl. apply andb_True in Hl as [Hc Hl].
    assert (Hnot : (c =? 61) && bool_decide (1 < length acc)%nat && bool_decide (last acc = Some 98) = false).
    { destruct (c =? 61); [|done]. destruct (bool_decide (last acc = _)); [done|]. by rewrite andb_false_r. }
    rewrite Hnot. rewrite IH.
    + by rewrite <- (assoc_L (++)).
    + rewrite last_snoc. destruct (Z.eqb_spec c 98) as [->|Hne]; [by rewrite bool_decide_true|]. rewrite bool_decide_false by congruence. done.
    + rewrite length_app. cbn [length] in *. lia.
Qed.

Lemma from_semicolon_at v s : 59 ∉ v -> from_semicolon (v ++ 59 :: s) = 59 :: s.
Proof.
  induction v as [|c v IH]; intros Hv; cbn; [done|]. apply not_elem_of_cons in Hv as [Hc Hv].
  rewrite (proj2 (Z.eqb_neq c 59)) by done. by apply IH.
Qed.

Lemma b64_char_not_b i : 0 <= i < 16 -> b64_char (i * 4) ≠ 98 /\ b64_char (i * 4) ≠ 61.
Proof.
  intros Hi. unfold b64_char. repeat case_match; lia.
Qed.

Lemma no_b_hash h l : is_bytes h -> no_b false (b64_encode h ++ 59 :: l) = no_b false l.
Proof.
  assert (Hc : forall i, 0 <= i < 64 -> (b64_char i =? 61) = false) by (intros; by apply b64_char_ne).
  assert (Hq : forall b h, is_bytes h -> no_b b (b64_encode h ++ 59 :: l) = no_b false l \/ h = []).
  2: { intros Hh. destruct (Hq false h Hh) as [->| ->]; done. }
  intros b h0. revert b h0. fix IH 2. intros b [|x [|y [|z s]]] Hs; [by right|..]; left;
    repeat (apply Forall_cons in Hs as [? Hs]); unfold is_byte in *; cbn [b64_encode app no_b].
  - rewrite !Hc by (Z.to_euclidean_division_equations; lia). cbn [andb negb Z.eqb Pos.eqb].
    replace (x mod 4 * 16) with (x mod 4 * 4 * 4) by lia. destruct (b64_char_not_b (x mod 4 * 4)) as [H1 _]; [Z.to_euclidean_division_equations; lia|].
    by rewrite (proj2 (Z.eqb_neq _ _) H1).
  - rewrite !Hc by (Z.to_euclidean_division_equations; lia). cbn [andb negb Z.eqb Pos.eqb].
    destruct (b64_char_not_b (y mod 16)) as [H1 _]; [Z.to_euclidean_division_equations; lia|].
    by rewrite (proj2 (Z.eqb_neq _ _) H1).
  - rewrite !Hc by (Z.to_euclidean_division_equations; lia). cbn [andb negb].
    destruct (IH (b64_char (z mod 64) =? 98) s) as [->| ->]; [done..|]. cbn. done.
Qed.

Lemma no_b_piece c v simple l : c ≠ 61 -> c ≠ 98 -> 61 ∉ v -> no_b false (piece [c] v (wrap simple) ++ l) = no_b false l.
Proof.
  intros H1 H2 Hv. unfold piece. rewrite <- !(assoc_L (++)). cbn [app no_b].
  rewrite (proj2 (Z.eqb_neq c 61)), (proj2 (Z.eqb_neq c 98)) by done. cbn [andb negb Z.eqb Pos.eqb].
  rewrite <- (assoc_L (++)). cbn [app]. rewrite no_b_plain by done. by destruct simple.
Qed.

Section Canon.
Context {U : Unicode}.

Definition head_text (s : Signature) (simple : bool) : list Z :=
  piece (str "v") (Version s) (wrap false) ++
  piece (str "a") (match Alg s with Some a => signAlg_name a | None => signAlg_name SignAlgRS256 end) (wrap false) ++
  piece (str "d") (SDID s) (wrap false) ++ piece (str "s") (Selector s) (wrap simple) ++
  piece (str "h") (join_with [sepColon] (Headers s)) (wrap simple) ++ piece (str "bh") (BodyHash s) (wrap simple).
Definition tail_text (s : Signature) (simple : bool) : list Z := wrap simple ++ optional_text s simple ++ last_text s.

Lemma Pack_split s simple : Pack s simple = head_text s simple ++ 98 :: 61 :: Value s ++ 59 :: tail_text s simple.
Proof.
  rewrite Pack_pieces. unfold required_text, head_text, tail_text, piece. rewrite <- !(assoc_L (++)). cbn [app].
  rewrite <- !(assoc_L (++)). cbn [app]. rewrite <- ?(assoc_L (++)). reflexivity.
Qed.

(** The parts of the text that come before the value of the signature hold no [=]. *)
Record plain_head (s : Signature) : Prop := {
  ph_version : 61 ∉ Version s;
  ph_sdid : 61 ∉ SDID s;
  ph_selector : 61 ∉ Selector s;
  ph_headers : Forall (fun h => 61 ∉ h) (Headers s)
}.

Lemma plain_join hs : Forall (fun h => 61 ∉ h) hs -> 61 ∉ join_with [sepColon] hs.
Proof.
  intros H. destruct H as [|w l Hw Hl]; [apply not_elem_of_nil|]. rewrite join_with_cons, not_elem_of_app. split; [done|].
  induction Hl as [|x l Hx _ IH]; cbn; [apply not_elem_of_nil|]. rewrite not_elem_of_cons, not_elem_of_app. done.
Qed.

Lemma no_b_head s simple h : plain_head s -> is_bytes h -> BodyHash s = b64_encode h -> no_b false (head_text s simple) = true.
Proof.
  intros [Hv Hd Hs Hh] Hb Hbh. unfold head_text.
  rewrite !(no_b_piece 118), (no_b_piece 97), (no_b_piece 100), (no_b_piece 115), (no_b_piece 104) by
    (done || by apply plain_join || (by destruct (Alg s) as [[]|]; apply (bool_decide_unpack _))).
  unfold piece. rewrite Hbh. rewrite <- !(assoc_L (++)). cbn [str app]. change (str "bh" ++ _) with (98 :: 104 :: 61 :: (b64_encode h ++ [59]) ++ wrap simple).
  cbn [no_b Z.eqb Pos.eqb andb negb]. rewrite <- !(assoc_L (++)). cbn [app]. rewrite no_b_hash by done. by destruct simple.
Qed.

Lemma Canonicalize_Pack s simple h : plain_head s -> is_bytes h -> BodyHash s = b64_encode h -> 59 ∉ Value s ->
  Canonicalize (Pack s simple) = cut_CRLF (head_text s simple ++ [98; 61] ++ 59 :: tail_text s simple).
Proof.
  intros Hp Hb Hbh Hv. unfold Canonicalize. rewrite Pack_split, split_b_first.
  - cbn [app]. destruct (Value s ++ _) as [|c l] eqn:E; [by destruct (Value s)|]. rewrite <- E, from_semicolon_at by done.
    by rewrite <- (assoc_L (++)).
  - cbn [last]. rewrite bool_decide_false by done. by rewrite (no_b_head s simple h).
  - cbn [length]. unfold head_text, piece. rewrite !length_app. cbn. lia.
Qed.

End Canon.

(** ** Signing and verifying *)

Section SignVerify.
Context {U : Unicode} {C : Crypto} (grown : list Z -> list Z).
Context (digest_bytes : forall s x, is_bytes (Hash s x).1 /\ (Hash s x).1 ≠ []).

(** The signature that is made, but for its hash and its value. *)
Definition prepared (msg : Message) (sig : Signature) : Signature :=
  let s := SetDefault sig in
  put_Headers s (match Headers s with [] => match Header msg with Some h => Name <$> h | None => [] end | hs => hs end).

(** What the values of a signature are made of: visible characters without
    semicolons, and domain, selector and names of fields without equal signs. *)
Definition dchar (c : Z) : Prop := vchar c /\ c ≠ 61.
#[export] Instance dchar_dec c : Decision (dchar c).
Proof. unfold dchar. apply _. Defined.
Definition nchar (c : Z) : Prop := hchar c /\ c ≠ 61.
#[export] Instance nchar_dec c : Decision (nchar c).
Proof. unfold nchar. apply _. Defined.
Record signable (later : Z) (s : Signature) : Prop := {
  sg_version : Version s = [49];
  sg_sdid : Forall dchar (SDID s);
  sg_selector : Forall dchar (Selector s);
  sg_headers : Forall (fun h => Forall nchar h /\ ToLower h = h /\ h ≠ str "dkim-signature") (Headers s);
  sg_times : 0 <= CreatedAt s < 2 ^ 64 /\ 0 <= ExpiredAt s < 2 ^ 64 /\ validateTime later s = None;
  sg_canons : CanonHeader s ≠ None;
  sg_present : Forall zword (PresentHeaders s);
  sg_auid : Forall vchar (AUID s);
  sg_length : match BodyLength s with Some l => 0 <= l < 2 ^ 64 | None => True end
}.

Lemma b64_vchar c : is_b64 c = true -> vchar c.
Proof.
  unfold is_b64, b64_index. intros H. unfold vchar.
  destruct ((65 <=? c) && (c <=? 90)) eqn:E1; [rewrite andb_true_iff, !Z.leb_le in E1; lia|].
  destruct ((97 <=? c) && (c <=? 122)) eqn:E2; [rewrite andb_true_iff, !Z.leb_le in E2; lia|].
  destruct ((48 <=? c) && (c <=? 57)) eqn:E3; [rewrite andb_true_iff, !Z.leb_le in E3; lia|].
  destruct (Z.eqb_spec c 43); [lia|]. destruct (Z.eqb_spec c 47); [lia|]. apply Z.eqb_eq in H. lia.
Qed.

Lemma b64_encode_vchar h : is_bytes h -> Forall vchar (b64_encode h).
Proof. intros Hh. eapply Forall_impl; [by apply b64_text|]. apply b64_vchar. Qed.

Lemma b64_encode_ne h : h ≠ [] -> b64_encode h ≠ [].
Proof. by destruct h as [|a [|b [|c h]]]. Qed.

(** What [Validate] says of the signature with a hash and a value. *)
Lemma Validate_values now s h v : h ≠ [] -> v ≠ [] ->
  Validate now (put_Value (put_BodyHash s h) v) = Validate now (put_Value (put_BodyHash s [0]) [0]).
Proof. intros Hh Hv. destruct s, h, v; done. Qed.

Lemma Validate_parts now s : Validate now s = None ->
  Alg s ≠ None /\ SDID s ≠ [] /\ Selector s ≠ [] /\ validateHeaders s = None /\ validateTime now s = None /\ validateAUID s = None.
Proof.
  unfold Validate. intros H. repeat (case_match; try done). case_bool_decide; [done|]. split_and!; try done.
  - by destruct (SDID s).
  - by destruct (Selector s).
Qed.

Lemma Validate_later now later s : Validate now s = None -> validateTime later s = None -> Validate later s = None.
Proof. unfold Validate. intros H Ht. repeat (case_match; try done). Qed.

Lemma signable_ok now later s h v : signable later s -> Validate now (put_Value (put_BodyHash s [0]) [0]) = None ->
  is_bytes h -> h ≠ [] -> is_bytes v -> v ≠ [] -> signature_ok later (put_Value (put_BodyHash s (b64_encode h)) (b64_encode v)).
Proof.
  intros [Hv Hd Hs Hh Ht Hc Hp Hi Hl] Hval Hhb Hhn Hvb Hvn. apply Validate_parts in Hval as (Ha & Hd' & Hs' & Hh' & _ & Hi').
  destruct s; cbn in *. split; cbn; try done.
  - split; [done|]. eapply Forall_impl; [exact Hd|]. by intros c [? _].
  - split; [done|]. eapply Forall_impl; [exact Hs|]. by intros c [? _].
  - split; [|done]. eapply Forall_impl; [exact Hh|]. intros x (Hx & ? & _). split; [|done]. eapply Forall_impl; [exact Hx|]. by intros c [? _].
  - split; [by apply b64_encode_ne|by apply b64_encode_vchar].
  - split; [by apply b64_encode_ne|by apply b64_encode_vchar].
Qed.

Lemma signable_plain later s h v : signable later s -> plain_head (put_Value (put_BodyHash s h) v).
Proof.
  intros [Hv Hd Hs Hh _ _ _ _ _].
  assert (Hno : forall l, Forall dchar l -> 61 ∉ l) by (intros l H Hin; rewrite Forall_forall in H; apply H in Hin; by destruct Hin).
  destruct s; cbn in *. split; cbn; [by rewrite Hv; apply (bool_decide_unpack _)|by apply Hno..|].
  eapply Forall_impl; [exact Hh|]. intros x (Hx & _) Hin. rewrite Forall_forall in Hx. apply Hx in Hin. by destruct Hin.
Qed.

(** The signed text is the same with and without the value, and in the header to
    which the field was added. *)
Lemma Canonicalize_value later s h v simple : signable later s -> is_bytes h -> is_bytes v ->
  Canonicalize (Pack (put_Value (put_BodyHash s (b64_encode h)) (b64_encode v)) simple) =
  Canonicalize (Pack (put_Value (put_BodyHash s (b64_encode h)) []) simple).
Proof.
  intros Hs Hh Hv. assert (Hno : 59 ∉ b64_encode v).
  { intros Hin. pose proof (b64_encode_vchar v Hv) as Hf. rewrite Forall_forall in Hf. apply Hf in Hin. by destruct Hin. }
  rewrite !(Canonicalize_Pack _ _ h); first [done|apply not_elem_of_nil|by apply signable_plain with later].
Qed.

Lemma signed_fields_top canon f names h : Forall (fun n => n ≠ Name f) names -> signed_fields canon names (f :: h) = signed_fields canon names h.
Proof.
  intros Hn. revert h. induction Hn as [|n names Hne _ IH]; intros h; cbn [signed_fields]; [done|].
  change (popByName n (f :: h)) with (let acc := popByName n h in if bool_decide (Name f = n) then (Some f, acc.2) else (acc.1, f :: acc.2)).
  cbv zeta. rewrite bool_decide_false by done. destruct (popByName n h) as [x h']. cbn. by rewrite IH.
Qed.

Lemma signed_names sig : Forall (fun n => Forall nchar n /\ ToLower n = n /\ n ≠ str "dkim-signature") (Headers sig) ->
  Forall (fun n => n ≠ str "dkim-signature") (Headers sig).
Proof. intros H. eapply Forall_impl; [exact H|]. by intros n (_ & _ & ?). Qed.

Lemma lift_Ok_bind {A B} (a : A) (k : A -> outcome message_error B) : (lift_unit (Ok a) ≫= k) = k a.
Proof. reflexivity. Qed.

(** What [DKIMSign] gives. *)
Lemma DKIMSign_inv now pk sig msg msg' : DKIMSign grown now pk sig msg = Ok msg' ->
  let s := put_Value (put_BodyHash (prepared msg sig) []) [] in
  exists h body v, Header msg = Some h /\ CanonBody_of grown s (MBody msg) = Ok body /\
    Validate now (put_Value (put_BodyHash (prepared msg sig) [0]) [0]) = None /\
    let s := put_BodyHash s (Hash s body).2 in
    SignPKCS1v15 pk (crypto_hash s) (Hash s (CanonHeader_of s h (dkim_field s))).1 = Some v /\
    msg' = mkMessage (Some (dkim_field (put_Value s (b64_encode v)) :: h)) (MBody msg) (Some (put_Value s (b64_encode v))) (dkimStatus msg).
Proof.
  unfold DKIMSign. intros H. cbv zeta. destruct (Header msg) as [h|] eqn:Eh.
  2: { exfalso. unfold setDKIMHeaders in H. destruct (Headers (SetDefault sig)); [discriminate H|]. cbn [lift_unit mbind outcome_bind] in H.
       destruct (Validate _ _); [discriminate H|]. destruct (lift_unit (CanonBody_of grown _ _)); discriminate H. }
  assert (Hp : setDKIMHeaders (Some h) (SetDefault sig) = Ok (prepared msg sig)).
  { unfold setDKIMHeaders, prepared. rewrite Eh. destruct (SetDefault sig) as [? ? ? ? [|? ?]]; done. }
  rewrite Hp in H. set (s0 := prepared msg sig) in *. clearbody s0. clear Hp. rewrite lift_Ok_bind in H. cbv beta in H.
  destruct (Validate _ _) as [|] eqn:Ev; [done|].
  destruct (CanonBody_of grown (put_Value (put_BodyHash s0 []) []) (MBody msg)) as [body|[]| |] eqn:Eb; try done.
  rewrite lift_Ok_bind in H. cbv beta zeta in H. set (s := put_BodyHash _ _) in H. unfold Sign in H.
  destruct (SignPKCS1v15 pk (crypto_hash s) _) as [v|] eqn:Es; [|done]. injection H as <-.
  exists h, body, v. split_and!; [reflexivity|reflexivity|reflexivity|exact Es|reflexivity].
Qed.

(** The header that is hashed is the same for the one who signs and for the one who verifies. *)
Lemma CanonHeader_signed later s bh v r h : signable later s -> is_bytes bh -> is_bytes v ->
  let s1 := put_Value (put_BodyHash s (b64_encode bh)) [] in
  let s2 := put_Value s1 (b64_encode v) in
  CanonHeader_of (put_raw s2 r) (dkim_field s2 :: h) (dkim_field s2) = CanonHeader_of s1 h (dkim_field s1).
Proof.
  intros Hok Hbh Hv s1 s2. unfold CanonHeader_of. pose proof (sg_headers _ _ Hok) as Hn.
  change (CanonHeader (put_raw s2 r)) with (CanonHeader s). change (CanonHeader s1) with (CanonHeader s).
  change (Headers (put_raw s2 r)) with (Headers s). change (Headers s1) with (Headers s).
  assert (Hc : forall simple, Canonicalize (Pack s2 simple) = Canonicalize (Pack s1 simple)) by (intros simple; by apply Canonicalize_value with later).
  rewrite !signed_fields_top by (by apply signed_names).
  destruct (is_simple (CanonHeader s)); cbn [dkim_field oriName oriValue Name fValue]; by rewrite Hc.
Qed.

Lemma SetDefault_same s : SDID (SetDefault s) = SDID s /\ Selector (SetDefault s) = Selector s.
Proof. destruct s as [[] [] ? ? ? ? ? ? ? [] [] ? ? ? ? ?]; done. Qed.

Lemma header_DKIM_top f h : fType f = FieldTypeDKIMSignature -> header_DKIM 1 (f :: h) = Some (f :: h).
Proof. intros Hf. cbn [header_DKIM]. by rewrite bool_decide_true. Qed.

Lemma Filter_top ft f h : fType f ≠ ft -> Filter ft (f :: h) = Filter ft h.
Proof. intros Hf. unfold Filter. by rewrite filter_cons_False. Qed.

Lemma Get_pooled (lookup : list Z -> outcome dkim_error (option Key)) (now : Z) (kp : gmap (list Z) Key) (dname : list Z) k : dname ≠ [] -> kp !! dname = Some k -> IsExpired now k = false -> Get lookup now kp dname = Ok (Some k, kp).
Proof. intros Hd Hk He. unfold Get. destruct dname; [done|]. by rewrite Hk, He. Qed.

(** A signature is verified where the key is found and all that is hashed is as it was signed. *)
Lemma verify_message_ok lookup now kp kp' k pub sub f sig msg body v :
  Filter FieldTypeFrom sub ≠ [] -> Get lookup now kp (Selector sig ++ str "._domainkey." ++ SDID sig) = Ok (Some k, kp') -> RSA k = Some pub ->
  CanonBody_of grown sig (MBody msg) = Ok body -> BodyHash sig = (Hash sig body).2 -> is_bytes v -> Value sig = b64_encode v ->
  VerifyPKCS1v15 pub (crypto_hash sig) (Hash sig (CanonHeader_of sig sub f)).1 v = true ->
  exists msg', verify_message grown lookup now kp sub f sig msg = Ok (Some (mkStatus StatusOK (SDID sig) None), None, msg', kp').
Proof.
  intros Hfrom Hget Hpub Hbody Hhash Hvb Hv Hver. unfold verify_message. destruct (Filter FieldTypeFrom sub); [done|]. rewrite Hget. cbv iota beta zeta.
  change (MBody (set_signature msg sig)) with (MBody msg). rewrite Hbody. cbn [mbind outcome_bind]. rewrite bool_decide_true by done. cbn [negb]. unfold Verify. rewrite Hpub, Hv, b64_roundtrip, Hver by done.
  unfold finish. by eexists.
Qed.

(** C3: a message with a [From] field and without a DKIM status that [DKIMSign] signed
    is verified by [DKIMVerify]: the status is OK, for the domain of the signature. The
    conditions are: what the RSA functions sign they verify with the public key of the
    pair, and a signature is a non-empty list of bytes; the lookup of the selector and
    the domain gives that public key; and the signature is [signable] after its defaults
    are set. That is: its version is 1; domain and selector are of visible ASCII
    characters without semicolons and equal signs; the names of the signed headers,
    which are those of the message if none are given, are in lower case, of visible
    characters without semicolons, colons and equal signs, and none is [dkim-signature];
    the times are of 64 bits, and the signature is not expired when it is verified; the
    headers that are listed with their values are non-empty, of visible characters
    without semicolons and bars; the identity is of visible characters without
    semicolons; and a length of the body is of 64 bits. With a name in another case the
    signature does not verify: see [cased_header_fails]. *)
Theorem sign_verify lookup now later pk pub k kp kp' sig msg msg' :
  (forall alg hash v, SignPKCS1v15 pk alg hash = Some v -> is_bytes v /\ v ≠ [] /\ VerifyPKCS1v15 pub alg hash v = true) ->
  DKIMSign grown now pk sig msg = Ok msg' -> signable later (prepared msg sig) -> done_ (dkimStatus msg) = None ->
  match Header msg with Some h => Filter FieldTypeFrom h ≠ [] | None => False end ->
  Get lookup later kp (Selector sig ++ str "._domainkey." ++ SDID sig) = Ok (Some k, kp') -> RSA k = Some pub ->
  exists msg'', DKIMVerify grown lookup later kp msg' = Ok (Some (mkStatus StatusOK (SDID sig) None), None, msg'', kp').
Proof.
  intros Hrsa Hsign Hok Hdone Hfrom Hget Hpub. destruct (DKIMSign_inv _ _ _ _ _ Hsign) as (h & body & v & Eh & Hbody & Hval & Hv & ->).
  rewrite Eh in Hfrom. destruct (Hrsa _ _ _ Hv) as (Hvb & Hvn & Hver).
  set (s0 := prepared msg sig) in *. set (bh := (Hash s0 body).1). assert (Hbh := digest_bytes s0 body).
  assert (Hs : put_BodyHash (put_Value (put_BodyHash s0 []) []) (Hash (put_Value (put_BodyHash s0 []) []) body).2 = put_Value (put_BodyHash s0 (b64_encode bh)) [])
    by reflexivity.
  rewrite Hs in *. set (s1 := put_Value (put_BodyHash s0 (b64_encode bh)) []) in *.
  set (s2 := put_Value s1 (b64_encode v)).
  assert (H2 : s2 = put_Value (put_BodyHash s0 (b64_encode bh)) (b64_encode v)) by reflexivity.
  assert (Hs2 : signature_ok later s2) by (rewrite H2; apply (signable_ok now); try done; apply Hbh).
  assert (Hval2 : Validate later (put_raw s2 (Pack s2 false)) = None).
  { change (Validate later s2 = None). rewrite H2. rewrite (Validate_values _ _ _ _ (b64_encode_ne _ (proj2 Hbh)) (b64_encode_ne _ Hvn)).
    apply (Validate_later now); [done|]. apply (sg_times _ _ Hok). }
  unfold DKIMVerify. cbn [dkimStatus Header]. rewrite Hdone, header_DKIM_top by done. cbn [fValue dkim_field].
  fold s2. rewrite (Parse_of_Pack later s2 false) by done. rewrite Hval2.
  destruct (SetDefault_same sig) as [Hd Hsel]. change (SDID s0 = SDID sig) in Hd. change (Selector s0 = Selector sig) in Hsel.
  rewrite <- Hd. rewrite <- Hd, <- Hsel in Hget.
  apply (verify_message_ok lookup later kp kp' k pub _ _ (put_raw s2 (Pack s2 false)) _ body v); try done.
  assert (Hc : CanonHeader_of (put_raw s2 (Pack s2 false)) (dkim_field s2 :: h) (dkim_field s2) = CanonHeader_of s1 h (dkim_field s1))
    by (apply CanonHeader_signed with later; [done|apply Hbh|done]).
  by rewrite Hc.
Qed.

End SignVerify.

(** ** A concrete instance *)

Section Example_.

(** Hash functions and a key pair to try the definitions on. *)
Definition toy_hash (x : list Z) : list Z := [fold_left (fun a c => (a * 31 + c) mod 256) x 7; Z.of_nat (length x) mod 256].
Definition toy_sign (k : Z) (h : list Z) : list Z := 1 :: ((fun c => (c + k) mod 256) <$> h).
Definition toy : Crypto := {|
  PrivateKey := Z; PublicKey := Z; sha256 := toy_hash; sha1 := toy_hash;
  SignPKCS1v15 := fun k _ h => Some (toy_sign k h);
  VerifyPKCS1v15 := fun k _ h v => bool_decide (v = toy_sign k h);
  ParsePKIXPublicKey := fun p => match p with [c] => Some (RSA_key c) | _ => None end |}.

Definition toy_field (t : FieldType) (name ori v : list Z) : Field := mkField t name (v ++ [13; 10]) ori (32 :: v ++ [13; 10]) None [] None false.
Definition toy_message : Message :=
  mkMessage (Some [toy_field FieldTypeFrom (str "from") (str "From") (str "a@b.c"); toy_field FieldTypeSubject (str "subject") (str "Subject") (str "hello")])
    (Some (mkBody [] (str "some text" ++ [13; 10]))) None None.
Definition toy_key : DkimSignature.Key (C := toy) := mkKey (C := toy) [] [] None [] [] [] [] (Some (5 : @PublicKey toy)) 200000.
Definition toy_sig : Signature := put_ExpiredAt (put_CreatedAt (NewSignature (str "b.c") (str "sel")) 100000) 900000.

Lemma toy_digest s x : is_bytes (Hash (C := toy) s x).1 /\ (Hash (C := toy) s x).1 ≠ [].
Proof.
  assert (H : is_bytes (toy_hash x) /\ toy_hash x ≠ []).
  { split; [|done]. unfold toy_hash. constructor; [|constructor; [|constructor]]; unfold is_byte.
    - assert (Hf : forall a, 0 <= a < 256 -> 0 <= fold_left (fun a c => (a * 31 + c) mod 256) x a < 256);
        [|apply Hf; lia]. induction x as [|c x IH]; intros a Ha; cbn; [done|]. apply IH. by apply Z.mod_pos_bound.
    - by apply Z.mod_pos_bound. }
  unfold Hash. cbn. by destruct (Alg s) as [[]|].
Qed.

Lemma toy_rsa (alg : SignAlg) h v : SignPKCS1v15 (Crypto := toy) (5 : @PrivateKey toy) alg h = Some v ->
  is_bytes v /\ v ≠ [] /\ VerifyPKCS1v15 (Crypto := toy) (5 : @PublicKey toy) alg h v = true.
Proof.
  intros H. cbn in *. injection H as <-. split_and!; [|done|by apply bool_decide_true].
  unfold toy_sign. constructor; [done|]. apply Forall_fmap, Forall_true. intros c. by apply Z.mod_pos_bound.
Qed.

Lemma sign_verify_witness : exists msg msg'',
  DKIMSign (C := toy) (fun _ => []) 100000 (5 : @PrivateKey toy) toy_sig toy_message = Ok msg /\
  DKIMVerify (U := ascii_tables) (C := toy) (fun _ => []) (fun _ => Ok None) 100500 {[str "sel._domainkey.b.c" := toy_key]} msg =
    Ok (Some (mkStatus StatusOK (str "b.c") None), None, msg'', {[str "sel._domainkey.b.c" := toy_key]}).
Proof.
  destruct (DKIMSign (C := toy) (fun _ => []) 100000 (5 : @PrivateKey toy) toy_sig toy_message) as [msg| | |] eqn:E;
    [|by vm_compute in E..].
  destruct (sign_verify (U := ascii_tables) (C := toy) (fun _ => []) toy_digest (fun _ => Ok None) 100000 100500 5 5 toy_key
    {[str "sel._domainkey.b.c" := toy_key]} {[str "sel._domainkey.b.c" := toy_key]} toy_sig toy_message msg) as [msg'' H].
  - apply toy_rsa.
  - exact E.
  - split; try (by apply (bool_decide_unpack _)); vm_compute; intuition discriminate.
  - reflexivity.
  - cbn. discriminate.
  - apply Get_pooled; [done|apply lookup_singleton_eq|reflexivity].
  - reflexivity.
  - exists msg, msg''. split; [reflexivity|exact H].
Defined.

(** What the next examples look at: the status that [DKIMVerify] gives, if any. *)
Definition toy_verify (msg : Message) : option (option StatusType) :=
  match DKIMVerify (U := ascii_tables) (C := toy) (fun _ => []) (fun _ => Ok (Some toy_key)) 100500 ∅ msg with
  | Ok (s, _, _, _) => Some (sType <$> s)
  | _ => None
  end.
Definition toy_signed (sig : Signature) (msg : Message) : option Message :=
  match DKIMSign (C := toy) (fun _ => []) 100000 (5 : @PrivateKey toy) sig msg with Ok m => Some m | _ => None end.

(** A message with its header as it is read from the text that [String] prints. *)
Definition sent (msg : Message) : option Message :=
  match ParseHeader (header_Relaxed (default [] (Header msg)) ++ [13; 10]) with
  | Ok (h, _) => Some (mkMessage h (MBody msg) None None)
  | _ => None
  end.

(** With the settings of [NewSignature] the signature is good for the message in
    memory and not for the one that was printed and parsed: [Pack] ends the field
    with a blank, which is signed and which the relaxed form of the value that was
    read does not have.  With a query method, the last tag, it is good for both. *)
Lemma default_signature_lost_in_transport :
  (toy_signed toy_sig toy_message ≫= toy_verify) = Some (Some StatusOK) /\
  ((toy_signed toy_sig toy_message ≫= sent) ≫= toy_verify) = Some (Some StatusPermFail) /\
  ((toy_signed (put_QMethod toy_sig (Some (mkQuery QueryTypeDNS QueryOptionTXT))) toy_message ≫= sent) ≫= toy_verify) = Some (Some StatusOK).
Proof. split_and!; vm_compute; reflexivity. Qed.

(** A message that has a signature is not signed again with the default headers,
    among which is the field of the first signature: verifying takes all fields of
    the name off, the new signature too. *)
Lemma second_signature_fails :
  ((toy_signed toy_sig toy_message ≫= toy_signed toy_sig) ≫= toy_verify) = Some (Some StatusPermFail).
Proof. vm_compute. reflexivity. Qed.

(** A header name that is not in lower case is not found when the message is signed, and
    is when it is verified, as its name is read in lower case. *)
Example cased_header_fails :
  (toy_signed (put_Headers toy_sig [str "from"; str "subject"]) toy_message ≫= toy_verify) = Some (Some StatusOK) /\
  (toy_signed (put_Headers toy_sig [str "from"; str "Subject"]) toy_message ≫= toy_verify) = Some (Some StatusPermFail).
Proof. split; vm_compute; reflexivity. Qed.

(** Without a body, and with a length greater than that of the body, there is a panic. *)
Lemma body_panics sig : CanonBody_of (fun _ => []) sig None = Panic /\
  CanonBody_of (fun _ => []) (put_BodyLength toy_sig (Some 100)) (MBody toy_message) = Panic.
Proof. by split. Qed.

End Example_.
