(* ===== verification/DnsServer.v ===== *)
(** Package [lib/dns], files [server.go] and [request.go]: what the server does
    with a request, from the packet of a client to the packet that is written
    back, and its forwarders.

    Every goroutine is an actor of a state machine whose steps are atomic: the
    listeners, [processRequest], the forwarders and who restarts them.  A channel is
    the list of what is in it; a step that would block is not enabled.  A client is
    a number, and what is written to the clients is a log.  Sockets are left out:
    that a forwarder connects, and the reply that it gets, are given with the step. *)

From Stdlib Require Import ZArith Lia.
From S2P Require Import Prelude Ascii Base64 DnsHeader DnsMessage DnsUnpack DnsCaches.

Local Open Scope Z_scope.

Definition QueryClassCS : Z := 2.
Definition QueryClassCH : Z := 3.
Definition QueryClassHS : Z := 4.
Definition QueryTypeAXFR : Z := 252.
Definition QueryTypeMAILB : Z := 253.
Definition QueryTypeMAILA : Z := 254.
Definition RCodeErrServer : Z := 2.
Definition RCodeNotImplemented : Z := 4.

(** ** [request.go] *)

Inductive connType : Type := connTypeUDP | connTypeTCP | connTypeDoH | connTypeDoT.
Record request : Type := mkRequest { kind : connType; message : Message; writer : nat }.

(** The setters of a message, which change its header and its packet. *)
Definition on_header (f : hdr_packet -> hdr_packet) (m : Message) : Message :=
  let '(h, p) := f (Header m, Packet m) in mkMessage h (Question m) (Answer m) (Authority m) (Additional m) p.

(** [error]: the packet that is written. *)
Definition request_error (m : Message) (rcode : Z) : list Z :=
  Packet (on_header (fun hp => SetResponseCode hp rcode) (on_header (fun hp => SetQuery hp false) m)).

(** ** The state *)

(** A forwarder: whether it is a primary one, whether it uses a connection per
    request, the channels that it was started with, what is in its stopper, and
    where its goroutine is. *)
Inductive forwarder_state : Type := Starting | Connecting | Running | Stopped.
Record forwarder : Type := mkForwarder {
  isPrimary : bool; per_request : bool; queue : option nat; fallback : option nat; stopper : bool; fstate : forwarder_state
}.
Definition set_fstate (f : forwarder) v := mkForwarder (isPrimary f) (per_request f) (queue f) (fallback f) (stopper f) v.
Definition set_stopper (f : forwarder) v := mkForwarder (isPrimary f) (per_request f) (queue f) (fallback f) v (fstate f).

Record server : Type := mkServer {
  srv_caches : caches;
  requestq : list request;
  chans : list (list request);      (** the channels of forwarders; the first one is [primaryq] *)
  fallbackq : option nat;
  fwn : Z;
  forwarders : list forwarder;      (** all that were started *)
  fwStoppers : list nat;
  written : list (request * list Z)
}.
Definition set_caches (s : server) v := mkServer v (requestq s) (chans s) (fallbackq s) (fwn s) (forwarders s) (fwStoppers s) (written s).
Definition set_requestq (s : server) v := mkServer (srv_caches s) v (chans s) (fallbackq s) (fwn s) (forwarders s) (fwStoppers s) (written s).
Definition set_chans (s : server) v := mkServer (srv_caches s) (requestq s) v (fallbackq s) (fwn s) (forwarders s) (fwStoppers s) (written s).
Definition set_fallbackq (s : server) v := mkServer (srv_caches s) (requestq s) (chans s) v (fwn s) (forwarders s) (fwStoppers s) (written s).
Definition set_fwn (s : server) v := mkServer (srv_caches s) (requestq s) (chans s) (fallbackq s) v (forwarders s) (fwStoppers s) (written s).
Definition set_forwarders (s : server) v := mkServer (srv_caches s) (requestq s) (chans s) (fallbackq s) (fwn s) v (fwStoppers s) (written s).
Definition set_fwStoppers (s : server) v := mkServer (srv_caches s) (requestq s) (chans s) (fallbackq s) (fwn s) (forwarders s) v (written s).
Definition write (s : server) (req : request) (p : list Z) : server :=
  mkServer (srv_caches s) (requestq s) (chans s) (fallbackq s) (fwn s) (forwarders s) (fwStoppers s) (written s ++ [(req, p)]).

(** [NewServer], before the forwarders are started. *)
Definition NewServer (pruneThreshold : Z) : server := mkServer (newCaches pruneThreshold) [] [[]] None 0 [] [] [].

Definition capacity : nat := 512.
Definition put (q : list request) (req : request) : option (list request) :=
  if decide (length q < capacity)%nat then Some (q ++ [req]) else None.
(** Sending on a channel of forwarders. *)
Definition send (s : server) (ch : nat) (req : request) : option server :=
  q ← chans s !! ch; q ← put q req; Some (set_chans s (<[ch := q]> (chans s))).

(** ** The caches *)

(** [newAnswer] and [upsert]: the answer is a new object. *)
Definition cache_message (c : caches) (m : Message) (isLocal : bool) (now : Z) : C (bool * caches) :=
  let nu := base.fresh (dom (hp c)) in
  caches_upsert (set_hp c (<[nu := newAnswer m isLocal now]> (hp c))) nu.
(** [populateCaches]: how many were inserted. *)
Fixpoint populateCaches (c : caches) (msgs : list Message) (now : Z) (n : nat) : C (nat * caches) :=
  match msgs with
  | [] => Ok (n, c)
  | m :: msgs => '(inserted, c) ← cache_message c m true now; populateCaches c msgs now (if (inserted : bool) then S n else n)
  end.

(** ** Listeners *)

(** What is sent back when the packet has no valid question: the names are lowered
    in place as far as they were read. *)
Definition unread_packet (p : list Z) : list Z :=
  if decide (length p <= sectionHeaderSize)%nat then p
  else
    match question_unpack question_Reset (drop sectionHeaderSize p) with
    | Err (_, p') => take sectionHeaderSize p ++ p'
    | _ => p
    end.
(** [serveUDP] and [handleDoHRequest] on one packet. *)
Definition receive (s : server) (k : connType) (w : nat) (p : list Z) : outcome unit server :=
  match UnpackHeaderQuestion (set_Packet NewMessage p) with
  | Ok m => match put (requestq s) (mkRequest k m w) with Some q => Ok (set_requestq s q) | None => Err tt end
  | Err _ => let m := set_Packet NewMessage (unread_packet p) in Ok (write s (mkRequest k m w) (request_error m RCodeErrServer))
  | Panic => Panic
  | NoFuel => NoFuel
  end.

(** [serveTCPClient] on what one read gives, whose first two bytes, the length, are
    dropped ([TCPClient.recv]); none where the connection is closed. *)
Definition serveTCPClient (s : server) (k : connType) (w : nat) (chunk : list Z) : outcome unit (option server) :=
  match chunk with
  | [] => Ok None
  | [_] => Panic
  | _ :: _ :: p => match p with [] => Ok None | _ => s ← receive s k w p; Ok (Some s) end
  end.

(** [ServeHTTP]: the status that is answered, or the packet of the request. *)
Inductive http_result : Type := Status (code : Z) | Raw (p : list Z).
Inductive http_method : Type := MethodGet | MethodPost | other_method.
(** [RawURLEncoding]. *)
Definition url_char (c : Z) : Z := if c =? 45 then 43 else if c =? 95 then 47 else c.
Definition url_decode (s : list Z) : option (list Z) :=
  if existsb (fun c => (c =? 43) || (c =? 47)) s then None else b64_decode false (url_char <$> s).
Definition handleDoHGet (dns : list Z) : http_result :=
  match dns with
  | [] => Status 400
  | _ => match url_decode dns with None => Status 400 | Some raw => Raw raw end
  end.
(** The body is none where it cannot be read. *)
Definition handleDoHPost (body : option (list Z)) : http_result :=
  match body with None => Status 400 | Some raw => Raw raw end.
Definition ServeHTTP (meth : http_method) (accept dns : list Z) (body : option (list Z)) : http_result :=
  match accept with
  | [] => Status 415
  | _ =>
      if negb (bool_decide (ToLower accept = str "application/dns-message")) then Status 415
      else match meth with MethodGet => handleDoHGet dns | MethodPost => handleDoHPost body | other_method => Status 405 end
  end.

(** ** [processRequest] *)

Definition isImplemented (m : Message) : bool :=
  let q := Question m in
  if bool_decide (qClass q ∈ [QueryClassCS; QueryClassCH; QueryClassHS]) then false
  else if (QueryTypeA <=? qType q) && (qType q <=? QueryTypeTXT) then true
  else bool_decide (qType q ∈ [QueryTypeAAAA; QueryTypeSRV; QueryTypeOPT; QueryTypeAXFR; QueryTypeMAILB; QueryTypeMAILA]).

Definition hasForwarders (s : server) : bool := 0 <? fwn s.
Definition decForwarder (s : server) : server := let n := fwn s - 1 in set_fwn s (if n <=? 0 then 0 else n).
Definition incForwarder (s : server) : server := set_fwn s (fwn s + 1).

(** A request that no answer of the caches is for. *)
Definition forward (s : server) (req : request) : outcome unit server :=
  if hasForwarders s then match send s 0 req with Some s => Ok s | None => Err tt end
  else
    match fallbackq s with
    | Some ch => match send s ch req with Some s => Ok s | None => Err tt end
    | None => Ok (write s req (request_error (message req) RCodeErrServer))
    end.

(** An answer that is sent from the caches: its identifier is that of the request,
    and its age is taken off. *)
Definition serve_answer (s : server) (req : request) (a : addr) (now : Z) : outcome unit server :=
  let c := srv_caches s in
  an ← deref (hp c) a;
  match msg an with
  | None => Panic
  | Some m =>
      if IsExpired m then forward s req
      else
        let m := on_header (fun hp => SetID hp (hID (Header (message req)))) m in
        h ← updateTTL (<[a := set_msg an (Some m)]> (hp c)) a now;
        an ← deref h a;
        match msg an with
        | None => Panic
        | Some m => Ok (write (set_caches s (set_hp c h)) req (Packet m))
        end
  end.

(** One round of the loop. *)
Definition process (s : server) (req : request) (now : Z) : outcome unit server :=
  if negb (isImplemented (message req)) then Ok (write s req (request_error (message req) RCodeNotImplemented))
  else
    let q := Question (message req) in
    '(_, a, c) ← caches_get (srv_caches s) (qName q) (qType q) (qClass q) now;
    let s := set_caches s c in
    match a with
    | None => forward s req
    | Some a => serve_answer s req a now
    end.
Definition processRequest (s : server) (now : Z) : outcome unit server :=
  match requestq s with
  | [] => Err tt
  | req :: rest => process (set_requestq s rest) req now
  end.

(** ** [processResponse] *)

Definition isResponseValid (req : request) (res : Message) : bool :=
  let q := Question (message req) in
  bool_decide (qName q = qName (Question res)) && (qType q =? qType (Question res)) && (qClass q =? qClass (Question res)).
Definition processResponse (s : server) (req : request) (res : Message) (now : Z) : outcome unit server :=
  if negb (isResponseValid req res) then Ok (write s req (request_error (message req) RCodeErrServer))
  else
    let s := write s req (Packet res) in
    if negb (RCode (Header res) =? 0) then Ok s
    else '(_, c) ← cache_message (srv_caches s) res false now; Ok (set_caches s c).

(** ** Forwarders *)

(** The name servers of the options: a forwarder is one for each, with its kind. *)
Record options : Type := mkOptions { primary : list bool; fallbacks : list bool }.
Definition hasFallback (o : options) : bool := negb (isnil (fallbacks o)).

Definition startAllForwarders (s : server) (o : options) : server :=
  let s := set_fwStoppers s [] in
  let s := if hasFallback o && bool_decide (fallbackq s = None)
           then set_fallbackq (set_chans s (chans s ++ [[]])) (Some (length (chans s)))
           else set_fallbackq s None in
  set_forwarders s (forwarders s ++
    ((fun tcp => mkForwarder true tcp (Some 0%nat) (fallbackq s) false Starting) <$> primary o) ++
    (if hasFallback o then (fun tcp => mkForwarder false tcp (fallbackq s) None false Starting) <$> fallbacks o else [])).
Definition stopAllForwarders (s : server) : server :=
  set_forwarders s (fold_left (fun fs i => alter (fun f => set_stopper f true) i fs) (fwStoppers s) (forwarders s)).
Definition RestartForwarders (s : server) (o : options) : server := startAllForwarders (stopAllForwarders s) o.

Definition put_forwarder (s : server) (i : nat) (f : forwarder) : server := set_forwarders s (<[i := f]> (forwarders s)).
Definition newStopper (s : server) (i : nat) : server := set_fwStoppers s (fwStoppers s ++ [i]).
(** The beginning of a forwarder. *)
Definition begin_forwarder (s : server) (i : nat) (f : forwarder) : server :=
  let s := newStopper s i in
  if per_request f then put_forwarder (if isPrimary f then incForwarder s else s) i (set_fstate f Running)
  else put_forwarder s i (set_fstate f Connecting).
(** [stopForwarder], and the end of a forwarder or its next connection. *)
Definition stopForwarder (s : server) (f : forwarder) : server := if isPrimary f then decForwarder s else s.
Definition leave (s : server) (i : nat) (f : forwarder) (st : forwarder_state) : server :=
  put_forwarder (stopForwarder s f) i (set_fstate f st).

(** The outcome of a query to a name server; a forwarder with a connection per
    request may fail to connect. *)
Inductive reply : Type := Reply (m : Message) | QueryFailed | ConnectFailed.

(** One round of a running forwarder on a request. *)
Definition forward_failed (s : server) (i : nat) (f : forwarder) (req : request) : option server :=
  s ← match fallback f with Some ch => send s ch req | None => Some s end;
  Some (if per_request f then s else leave s i f Connecting).
Definition forward_round (s : server) (i : nat) (f : forwarder) (r : reply) (now : Z) : outcome unit server :=
  match queue f ≫= (fun ch => (fun q => (ch, q)) <$> chans s !! ch) with
  | Some (ch, req :: q) =>
      let s := set_chans s (<[ch := q]> (chans s)) in
      match r with
      | Reply m => processResponse s req m now
      | QueryFailed => match forward_failed s i f req with Some s => Ok s | None => Err tt end
      | ConnectFailed => if per_request f then Ok s else Err tt
      end
  | _ => Err tt
  end.

(** ** The steps *)

Inductive action : Type :=
| Receive (k : connType) (w : nat) (p : list Z)
| Process (now : Z)
| Prune (now : Z)
| Populate (msgs : list Message) (now : Z)
| Restart (o : options)
| Begin (i : nat)
| Connect (i : nat) (ok : bool)
| Forward (i : nat) (r : reply) (now : Z)
| Halt (i : nat).

Definition with_forwarder (s : server) (i : nat) (f : forwarder -> outcome unit server) : outcome unit server :=
  match forwarders s !! i with Some fw => f fw | None => Err tt end.
Definition perform (s : server) (a : action) : outcome unit server :=
  match a with
  | Receive k w p => receive s k w p
  | Process now => processRequest s now
  | Prune now => '(_, c) ← prune (srv_caches s) now; Ok (set_caches s c)
  | Populate msgs now => '(_, c) ← populateCaches (srv_caches s) msgs now 0; Ok (set_caches s c)
  | Restart o => Ok (RestartForwarders s o)
  | Begin i => with_forwarder s i (fun f => match fstate f with Starting => Ok (begin_forwarder s i f) | _ => Err tt end)
  | Connect i ok =>
      with_forwarder s i (fun f =>
        match fstate f with
        | Connecting =>
            if (ok : bool) then Ok (put_forwarder (if isPrimary f then incForwarder s else s) i (set_fstate f Running))
            else if stopper f then Ok (leave s i f Stopped) else Ok s
        | _ => Err tt
        end)
  | Forward i r now => with_forwarder s i (fun f => match fstate f with Running => forward_round s i f r now | _ => Err tt end)
  | Halt i => with_forwarder s i (fun f => match fstate f with Running => if stopper f then Ok (leave s i f Stopped) else Err tt | _ => Err tt end)
  end.
Fixpoint performs (s : server) (l : list action) : outcome unit server :=
  match l with [] => Ok s | a :: l => s ← perform s a; performs s l end.
