(* ===== verification/DnsServerFacts.v ===== *)
(** Proofs on [DnsServer]: no request is answered twice, answers are errors or
    come from the replies to the question that was asked or from what was loaded for it,
    and what the count of forwarders is worth. *)

From Stdlib Require Import ZArith Lia.
From S2P Require Import Prelude DnsHeader DnsMessage DnsTTL DnsUnpack DnsCaches DnsServer.

Local Open Scope Z_scope.

(** ** Requests are conserved *)

(** The clients whose requests were answered, and those whose requests wait. *)
Definition answered_ids (s : server) : list nat := (fun x => writer x.1) <$> written s.
Definition writers (q : list request) : list nat := writer <$> q.
Definition waiting_ids (s : server) : list nat := writers (requestq s) ++ concat (writers <$> chans s).
Definition ids (s : server) : list nat := answered_ids s ++ waiting_ids s.
Definition received (l : list action) : list nat := omap (fun a => match a with Receive _ w _ => Some w | _ => None end) l.

Lemma ids_set_caches s c : ids (set_caches s c) = ids s.
Proof. done. Qed.

Lemma ids_write s req p : ids (write s req p) ≡ₚ writer req :: ids s.
Proof.
  unfold ids, answered_ids, waiting_ids. cbn [written write requestq chans]. rewrite fmap_app. cbn [fmap list_fmap fst].
  rewrite <- (assoc_L (++)). cbn [app]. by rewrite <- Permutation_middle.
Qed.

Lemma put_Some q req q' : put q req = Some q' -> q' = q ++ [req].
Proof. unfold put. by case_decide; intros [= <-]. Qed.

(** A channel with another content. *)
Lemma concat_chan (cs : list (list request)) ch q q' x : cs !! ch = Some q ->
  writers q' ≡ₚ x :: writers q -> concat (writers <$> <[ch := q']> cs) ≡ₚ x :: concat (writers <$> cs).
Proof.
  intros Hq Hp. rewrite insert_take_drop by (by apply lookup_lt_Some in Hq). rewrite <- (take_drop_middle cs ch q) at 3 by done.
  rewrite !fmap_app, !fmap_cons, !concat_app. cbn [concat]. rewrite Hp. cbn [app]. by rewrite <- Permutation_middle.
Qed.

Lemma ids_send s ch req s' : send s ch req = Some s' -> ids s' ≡ₚ writer req :: ids s.
Proof.
  unfold send. destruct (chans s !! ch) as [q|] eqn:Hq; [|done]. cbn. destruct (put q req) as [q'|] eqn:Hp; [|done]. intros [= <-].
  apply put_Some in Hp as ->. unfold ids, answered_ids, waiting_ids. cbn [written requestq chans set_chans].
  rewrite (concat_chan _ _ _ _ (writer req) Hq) by (unfold writers; rewrite fmap_app; cbn; by rewrite <- Permutation_cons_append).
  by rewrite <- !Permutation_middle.
Qed.

Lemma ids_forward s req s' : forward s req = Ok s' -> ids s' ≡ₚ writer req :: ids s.
Proof.
  unfold forward. destruct (hasForwarders s).
  - destruct (send s 0 req) as [s1|] eqn:E; intros [= <-]. by apply ids_send in E.
  - destruct (fallbackq s) as [ch|].
    + destruct (send s ch req) as [s1|] eqn:E; intros [= <-]. by apply ids_send in E.
    + intros [= <-]. apply ids_write.
Qed.

Lemma ids_serve_answer s req a now s' : serve_answer s req a now = Ok s' -> ids s' ≡ₚ writer req :: ids s.
Proof.
  unfold serve_answer. intros H. bind_inv H. destruct (msg x) as [m|]; [|done]. destruct (IsExpired m); [by apply ids_forward|].
  bind_inv H. bind_inv H. destruct (msg x1); [|done]. injection H as <-. by rewrite ids_write.
Qed.

Lemma ids_process s req now s' : process s req now = Ok s' -> ids s' ≡ₚ writer req :: ids s.
Proof.
  unfold process. destruct (negb (isImplemented (message req))); [intros [= <-]; apply ids_write|]. intros H. bind_inv H. destruct x as [[b [a|]] c].
  - apply ids_serve_answer in H. exact H.
  - apply ids_forward in H. exact H.
Qed.

Lemma ids_processRequest s now s' : processRequest s now = Ok s' -> ids s' ≡ₚ ids s.
Proof.
  unfold processRequest. destruct (requestq s) as [|req rest] eqn:Hq; [done|]. intros H. apply ids_process in H. rewrite H.
  unfold ids, answered_ids, waiting_ids. cbn [written requestq chans set_requestq]. rewrite Hq.
  unfold writers. cbn [fmap list_fmap app]. by rewrite <- Permutation_middle.
Qed.

Lemma ids_processResponse s req m now s' : processResponse s req m now = Ok s' -> ids s' ≡ₚ writer req :: ids s.
Proof.
  unfold processResponse. destruct (negb (isResponseValid req m)); [intros [= <-]; apply ids_write|].
  destruct (negb _); [intros [= <-]; apply ids_write|]. intros H. bind_inv H. destruct x as [b c]. injection H as <-.
  rewrite ids_set_caches. apply ids_write.
Qed.

Lemma ids_inc (s : server) (b : bool) i f : ids (put_forwarder (if b then incForwarder s else s) i f) = ids s.
Proof. by destruct b. Qed.
Lemma ids_leave s i f st : ids (leave s i f st) = ids s.
Proof. unfold leave, stopForwarder. by destruct (isPrimary f). Qed.

Lemma ids_start s o : ids (startAllForwarders s o) = ids s.
Proof.
  unfold startAllForwarders, ids, answered_ids, waiting_ids. destruct (hasFallback o && _); cbn; [|done].
  rewrite fmap_app, concat_app. cbn. by rewrite app_nil_r.
Qed.

(** What a step does with the requests: one more, or the same, or one less where a
    forwarder fails and has nowhere to send the request. *)
Definition loses (s : server) (a : action) : bool :=
  match a with
  | Forward i QueryFailed _ => match forwarders s !! i with Some f => bool_decide (fallback f = None) | None => false end
  | Forward _ ConnectFailed _ => true
  | _ => false
  end.

Lemma ids_forward_round s i f r now s' : forwarders s !! i = Some f -> forward_round s i f r now = Ok s' ->
  if loses s (Forward i r now) then exists w, ids s ≡ₚ w :: ids s' else ids s' ≡ₚ ids s.
Proof.
  intros Hf. unfold forward_round. destruct (queue f) as [ch|]; [|done]. cbn [mbind option_bind]. destruct (chans s !! ch) as [[|req q]|] eqn:Hq; try done.
  cbn [fmap option_fmap option_map]. set (s1 := set_chans s (<[ch := q]> (chans s))).
  assert (H1 : ids s ≡ₚ writer req :: ids s1).
  { unfold ids, answered_ids, waiting_ids, s1. cbn [written requestq chans set_chans].
    assert (Hq' : <[ch := q]> (chans s) !! ch = Some q) by (apply list_lookup_insert_eq; by apply lookup_lt_Some in Hq).
    pose proof (concat_chan _ _ _ (req :: q) (writer req) Hq' ltac:(done)) as Hc.
    rewrite list_insert_insert_eq, list_insert_id in Hc by done. rewrite Hc. by rewrite <- !Permutation_middle. }
  destruct r as [m| |]; cbn [loses].
  - intros H. apply ids_processResponse in H. by rewrite H, H1.
  - rewrite Hf. unfold forward_failed. destruct (fallback f) as [fb|].
    + rewrite bool_decide_false by done. destruct (send s1 fb req) as [s2|] eqn:E; [|done]. cbn. intros [= <-].
      apply ids_send in E. rewrite H1, <- E. destruct (per_request f); [done|]. by rewrite ids_leave.
    + rewrite bool_decide_true by done. cbn. intros [= <-]. exists (writer req). rewrite H1. destruct (per_request f); [done|]. by rewrite ids_leave.
  - destruct (per_request f); [|done]. intros [= <-]. by exists (writer req).
Qed.

Lemma perform_ids s a s' : perform s a = Ok s' ->
  if loses s a then exists w, ids s ≡ₚ w :: ids s' else ids s' ≡ₚ received [a] ++ ids s.
Proof.
  destruct a as [k w p|now|now|msgs now|o|i|i ok|i r now|i]; cbn [perform loses received omap list_omap app].
  - unfold receive. destruct (UnpackHeaderQuestion _) as [m|e| |]; try done.
    + destruct (put (requestq s) _) as [q|] eqn:E; intros [= <-]. apply put_Some in E as ->.
      unfold ids, answered_ids, waiting_ids. cbn [written requestq chans set_requestq]. unfold writers. rewrite fmap_app. cbn [fmap list_fmap writer].
      rewrite <- !(assoc_L (++)). cbn [app]. by rewrite <- !Permutation_middle.
    + intros [= <-]. by rewrite ids_write.
  - apply ids_processRequest.
  - intros H. bind_inv H. destruct x as [n c]. by injection H as <-.
  - intros H. bind_inv H. destruct x as [n c]. by injection H as <-.
  - intros [= <-]. unfold RestartForwarders. by rewrite ids_start.
  - unfold with_forwarder. destruct (forwarders s !! i) as [f|]; [|done]. destruct (fstate f); try done. intros [= <-].
    unfold begin_forwarder. destruct (per_request f); [by rewrite ids_inc|done].
  - unfold with_forwarder. destruct (forwarders s !! i) as [f|]; [|done]. destruct (fstate f); try done.
    destruct ok; [intros [= <-]; by rewrite ids_inc|]. destruct (stopper f); intros [= <-]; [by rewrite ids_leave|done].
  - unfold with_forwarder. destruct (forwarders s !! i) as [f|] eqn:Hf; [|done]. destruct (fstate f); try done. intros H.
    apply (ids_forward_round s i f r now s' Hf) in H. cbn [loses] in H. by rewrite Hf in H.
  - unfold with_forwarder. destruct (forwarders s !! i) as [f|]; [|done]. destruct (fstate f); try done.
    destruct (stopper f); [|done]. intros [= <-]. by rewrite ids_leave.
Qed.

(** Whether a run loses a request. *)
Fixpoint run_loses (s : server) (l : list action) : bool :=
  match l with
  | [] => false
  | a :: l => loses s a || match perform s a with Ok s => run_loses s l | _ => false end
  end.

Lemma received_cons a l : received (a :: l) = received [a] ++ received l.
Proof. by destruct a. Qed.

Lemma performs_ids l : forall s s', performs s l = Ok s' ->
  ids s' ⊆+ received l ++ ids s /\ (run_loses s l = false -> ids s' ≡ₚ received l ++ ids s).
Proof.
  induction l as [|a l IH]; intros s s' H; [by injection H as <-|]. cbn [performs] in H. bind_inv H. rename x into s1.
  destruct (IH s1 s' H) as [Hsub Heq]. apply perform_ids in Hx as Hp. rewrite received_cons. cbn [run_loses]. rewrite Hx.
  destruct (loses s a) eqn:El; cbn [orb].
  - split; [|done]. destruct Hp as [w Hp].
    assert (Hl : received [a] = []) by (destruct a as [| | | | | | |? []|]; done). rewrite Hl. cbn [app].
    rewrite Hsub, Hp. apply submseteq_skips_l, submseteq_cons. done.
  - rewrite Hp in Hsub. split.
    + rewrite Hsub. rewrite (assoc_L (++)). by rewrite (comm (++) (received l)).
    + intros Hno. rewrite (Heq Hno), Hp. rewrite (assoc_L (++)). by rewrite (comm (++) (received l)).
Qed.

(** C12: whatever the clients send, the name servers reply and the order in which the
    goroutines run, with restarts of the forwarders in between: the requests that were
    answered and those that wait are among the requests that were received, each as
    often; so no client gets two answers to one request. In a run in which no forwarder
    without a fallback fails to query, and no connect of a TCP forwarder fails, they are
    all of them: no request is lost. A failed connect loses its request even with a
    fallback: see [tcp_connect_loses]. *)
Theorem requests_conserved thr l s : performs (NewServer thr) l = Ok s ->
  answered_ids s ++ waiting_ids s ⊆+ received l /\
  (run_loses (NewServer thr) l = false -> answered_ids s ++ waiting_ids s ≡ₚ received l) /\
  (NoDup (received l) -> NoDup (answered_ids s)).
Proof.
  intros H. apply performs_ids in H as [Hsub Heq]. change (ids (NewServer thr)) with (@nil nat) in *. rewrite app_nil_r in *.
  split_and!; [exact Hsub|exact Heq|]. intros Hnd. apply submseteq_Permutation in Hsub as [k Hk].
  rewrite Hk in Hnd. apply NoDup_app in Hnd as [Hids _]. by apply NoDup_app in Hids as [? _].
Qed.

(** ** Answers are for the question that was asked *)

Definition asked (m : Message) : question := (qName (Question m), qType (Question m), qClass (Question m)).

(** A message whose TTLs have gone down: the header, the question and the records, but
    for their TTLs, are the same, and so is the packet outside of the places of the TTLs. *)
Definition untimed (rrs : list ResourceRecord) : list ResourceRecord := (fun rr => rr_TTL rr 0) <$> rrs.
Definition ttl_byte (m : Message) (i : nat) : Prop := exists o, o ∈ offTTL <$> ttl_records m /\ (o <= i < o + 4)%nat.
Definition same_content (m0 m : Message) : Prop :=
  Question m = Question m0 /\ untimed (Answer m) = untimed (Answer m0) /\ untimed (Authority m) = untimed (Authority m0) /\
  untimed (Additional m) = untimed (Additional m0) /\ length (Packet m) = length (Packet m0).
Definition retimed (m0 m : Message) : Prop :=
  same_content m0 m /\ Header m = Header m0 /\ forall i, ~ ttl_byte m0 i -> Packet m !! i = Packet m0 !! i.
(** A copy of a message: the identifier, the first two bytes of the packet, may differ too. *)
Definition copy_of (m0 m : Message) : Prop :=
  same_content m0 m /\ upd_ID (Header m) (hID (Header m0)) = Header m0 /\
  forall i, (2 <= i)%nat -> ~ ttl_byte m0 i -> Packet m !! i = Packet m0 !! i.
(** The packet of a message begins with an identifier. *)
Definition identified (id : Z) (m : Message) : Prop :=
  (2 < length (Packet m))%nat -> forall i, (i < 2)%nat -> ~ ttl_byte m i -> Packet m !! i = [u8 (Z.shiftr id 8); u8 id] !! i.

Lemma offTTL_untimed rrs rrs0 : untimed rrs = untimed rrs0 -> offTTL <$> rrs = offTTL <$> rrs0.
Proof.
  intros H. apply (f_equal (fmap offTTL)) in H. unfold untimed in H. rewrite <- !list_fmap_compose in H.
  etrans; [|etrans; [exact H|]]; by apply list_fmap_ext.
Qed.
Lemma keep_untimed rrs : untimed (keep true rrs) = keep true (untimed rrs).
Proof.
  unfold keep, untimed. induction rrs as [|rr rrs IH]; [done|]. cbn [fmap list_fmap]. rewrite !filter_cons.
  change (touched true (rr_TTL rr 0)) with (touched true rr). destruct (decide (touched true rr = true)); [cbn; by rewrite IH|done].
Qed.
Lemma same_ttl_byte m0 m : same_content m0 m -> forall i, ttl_byte m i <-> ttl_byte m0 i.
Proof.
  intros (_ & Ha & Hb & Hc & _) i. unfold ttl_byte, ttl_records. rewrite !fmap_app, (offTTL_untimed _ _ Ha), (offTTL_untimed _ _ Hb).
  by rewrite (offTTL_untimed (keep true (Additional m)) (keep true (Additional m0))) by (by rewrite !keep_untimed, Hc).
Qed.
Lemma same_content_trans m0 m1 m2 : same_content m0 m1 -> same_content m1 m2 -> same_content m0 m2.
Proof. intros (H1 & H2 & H3 & H4 & H5) (G1 & G2 & G3 & G4 & G5). unfold same_content. by rewrite G1, G2, G3, G4, G5. Qed.
Lemma copy_of_refl m : copy_of m m.
Proof. split; [by split_and!|]. split; [by destruct m as [[]]|done]. Qed.
Lemma copy_of_retimed m0 m1 m2 : copy_of m0 m1 -> retimed m1 m2 -> copy_of m0 m2.
Proof.
  intros (H1 & H2 & H3) (G1 & G2 & G3). split; [by eapply same_content_trans|]. split; [by rewrite G2|].
  intros i Hi Hn. rewrite G3; [by apply H3|]. by rewrite (same_ttl_byte m0 m1).
Qed.
Lemma identified_retimed id m0 m : identified id m0 -> retimed m0 m -> identified id m.
Proof.
  intros H (G1 & _ & G3) Hl i Hi Hn. rewrite (same_ttl_byte m0) in Hn by done. rewrite G3 by done. apply H; [|done..].
  destruct G1 as (_ & _ & _ & _ & <-). done.
Qed.

Definition with_ID (id : Z) : Message -> Message := on_header (fun hp => SetID hp id).
Lemma copy_of_with_ID m0 m id : copy_of m0 m -> copy_of m0 (with_ID id m) /\ identified id (with_ID id m).
Proof.
  intros ((H1 & H2 & H3 & H4 & H5) & H6 & H7). unfold with_ID, on_header, SetID. cbn [fst snd]. split.
  - split; [|split].
    + split_and!; try done. cbn [Packet]. case_decide; [by rewrite !length_insert|done].
    + cbn [Header]. rewrite <- H6. by destruct (Header m).
    + intros i Hi Hn. cbn [Packet]. case_decide; [rewrite !list_lookup_insert_ne by lia|]; by apply H7.
  - intros Hl i Hi _. cbn [Packet] in *. case_decide as Hd; [|done]. rewrite !length_insert in Hl.
    destruct i as [|[|]]; [| |lia]; [rewrite list_lookup_insert_ne by lia|]; rewrite list_lookup_insert_eq by (rewrite ?length_insert; lia); done.
Qed.

Lemma write_TTLs_same {E} rrs : forall p p', write_TTLs (E := E) p rrs = Ok p' ->
  length p' = length p /\ forall i, Forall (fun rr => i < offTTL rr \/ offTTL rr + 4 <= i)%nat rrs -> p' !! i = p !! i.
Proof.
  induction rrs as [|rr rrs IH]; intros p p' H; cbn [write_TTLs] in H; [by injection H as <-|]. bind_inv H. rename x into p1.
  assert (Hin := WriteUint32_inv _ _ _ _ Hx).
  destruct (WriteUint32_Ok (E := E) p (offTTL rr) (TTL rr) Hin) as (q & Hq & Hlq & Hsame). assert (q = p1) as -> by congruence.
  apply IH in H as [Hl H]. split; [congruence|]. intros i [Hi Hr]%Forall_cons. rewrite H by done. by apply Hsame.
Qed.
Lemma untimed_aged n skipOPT rrs : untimed (DnsTTL.aged n skipOPT <$> rrs) = untimed rrs.
Proof. unfold untimed. rewrite <- list_fmap_compose. apply list_fmap_ext. intros _ rr _. cbn. unfold DnsTTL.aged. by destruct (touched skipOPT rr). Qed.
Lemma SubTTL_retimed {E} m n m' : SubTTL (E := E) m n = Ok m' -> retimed m m'.
Proof.
  rewrite SubTTL_eq. intros H. bind_inv H. rename x into p. injection H as <-. apply write_TTLs_same in Hx as [Hl Hs].
  assert (Hc : same_content m (aged_message n m p)) by (by split_and!; cbn; rewrite ?untimed_aged).
  split; [done|]. split; [done|]. intros i Hi. cbn [Packet aged_message]. apply Hs, Forall_forall. intros rr Hrr.
  destruct (decide (offTTL rr <= i < offTTL rr + 4)%nat) as [Hd|]; [|lia]. exfalso. apply Hi. rewrite <- (same_ttl_byte _ _ Hc).
  exists (offTTL rr). split; [|done]. apply list_elem_of_fmap. by exists rr.
Qed.

(** The answers of a run: messages of local files and replies of name servers. *)
Section Sound.
Context (src : list action).

Inductive came (m : Message) : Prop :=
| came_local msgs now : Populate msgs now ∈ src -> m ∈ msgs -> came m
| came_reply i now : Forward i (Reply m) now ∈ src -> came m.

(** The caches hold, under its question, a copy of a message that came. *)
Definition faithful (c : caches) : Prop := wf c /\ forall k m, cached c k = Some m -> exists m0, came m0 /\ copy_of m0 m /\ asked m0 = k.

(** What is written for a request. *)
Inductive suits : request * list Z -> Prop :=
| suits_error req rcode : suits (req, request_error (message req) rcode)
| suits_reply req i m now : Forward i (Reply m) now ∈ src -> asked m = asked (message req) -> suits (req, Packet m)
| suits_cached req m0 m : came m0 -> asked m0 = asked (message req) -> copy_of m0 m -> identified (hID (Header (message req))) m -> suits (req, Packet m).

Definition sound (s : server) : Prop := faithful (srv_caches s) /\ Forall suits (written s).

Lemma sound_write s req p : sound s -> suits (req, p) -> sound (write s req p).
Proof. intros [Hc Hw] Hp. split; [exact Hc|]. cbn [written write]. apply Forall_app. split; [done|]. by apply Forall_singleton. Qed.
Lemma sound_error s req rcode : sound s -> sound (write s req (request_error (message req) rcode)).
Proof. intros Hs. apply sound_write; [done|]. constructor. Qed.
Lemma sound_caches s c : sound s -> faithful c -> sound (set_caches s c).
Proof. by intros [_ Hw] Hc. Qed.

Lemma cache_message_faithful c m isLocal now b c' : faithful c -> came m -> cache_message c m isLocal now = Ok (b, c') -> faithful c'.
Proof.
  intros [Hc Hf] Hm. unfold cache_message. set (nu := base.fresh _).
  assert (Hnu : hp c !! nu = None) by (apply not_elem_of_dom, is_fresh).
  destruct (alloc_good c nu m isLocal now Hc Hnu) as (Hc1 & Hcached & Hfr).
  destruct (upsert_good _ _ _ _ Hc1 Hfr) as (b' & c2 & -> & Hc2 & _ & Hcached2). intros [= <- <-]. split; [done|].
  intros k m'. rewrite Hcached2, Hcached. case_decide as Hk; [|apply Hf]. intros [= <-]. exists m. split; [done|]. split; [apply copy_of_refl|]. rewrite Hk. by destruct isLocal.
Qed.

Lemma populateCaches_faithful msgs now : forall c n n' c', faithful c -> (forall m, m ∈ msgs -> came m) -> populateCaches c msgs now n = Ok (n', c') -> faithful c'.
Proof.
  induction msgs as [|m msgs IH]; intros c n n' c' Hc Hin; cbn [populateCaches]; [by intros [= <- <-]|].
  intros H. bind_inv H. destruct x as [b c1]. apply IH in H; [done| |intros m' Hm'; apply Hin; by right]. eapply cache_message_faithful; [done| |done]. apply Hin. by left.
Qed.

Lemma prune_faithful c now n c' : faithful c -> prune c now = Ok (n, c') -> faithful c'.
Proof.
  intros [Hc Hf]. destruct (prune_good c now Hc) as (k & c1 & -> & Hc1 & _ & _ & _ & _ & HL). intros [= <- <-]. split; [done|].
  intros q m Hm. apply Hf. apply cached_live in Hm as (a & an & Hl & Hrest); [|done]. apply cached_live; [done|].
  exists a, an. split; [|done]. by apply HL.
Qed.


Lemma updateTTL_inv h a now h' an m : h !! a = Some an -> msg an = Some m -> updateTTL h a now = Ok h' ->
  exists an' m', h' = <[a := an']> h /\ key an' = key an /\ el an' = el an /\ receivedAt an' = receivedAt an /\
    msg an' = Some m' /\ retimed m m'.
Proof.
  intros Ha Hm. unfold updateTTL, deref. rewrite Ha. cbn [mbind outcome_bind]. destruct (receivedAt an =? 0).
  - intros [= <-]. exists an, m. rewrite insert_id by done. by split_and!.
  - cbn [msg set_accessed set_times]. rewrite Hm. intros H. bind_inv H. apply SubTTL_retimed in Hx. injection H as <-. by eexists _, _.
Qed.

Lemma forward_sound s req s' : sound s -> forward s req = Ok s' -> sound s'.
Proof.
  intros Hs. unfold forward, send. destruct (hasForwarders s); [|destruct (fallbackq s) as [ch|]].
  - destruct (chans s !! 0%nat) as [q|]; [|done]. cbn. destruct (put q req); intros [= <-]. exact Hs.
  - destruct (chans s !! ch) as [q|]; [|done]. cbn. destruct (put q req); intros [= <-]. exact Hs.
  - intros [= <-]. by apply sound_error.
Qed.

Lemma serve_answer_sound s req a now s' an m : sound s -> live (srv_caches s) a an -> msg an = Some m -> key an = asked (message req) ->
  serve_answer s req a now = Ok s' -> sound s'.
Proof.
  intros Hs Hl Hm Hk. pose proof Hs as [[Hc Hf] Hw]. pose proof Hl as (_ & _ & _ & Hh). unfold serve_answer, deref. rewrite Hh.
  cbn [mbind outcome_bind]. rewrite Hm. destruct (IsExpired m); [by apply forward_sound|].
  set (m1 := on_header _ m). change m1 with (with_ID (hID (Header (message req))) m) in *. clear m1. set (m1 := with_ID _ m). intros H. bind_inv H. rename x into h.
  apply (updateTTL_inv _ _ _ _ (set_msg an (Some m1)) m1) in Hx as (an' & m2 & -> & Hk' & Hel & Hrec & Hm' & Hq); [|apply lookup_insert_eq|done].
  rewrite lookup_insert_eq in H. cbn [mbind outcome_bind] in H. rewrite Hm' in H. injection H as <-. rewrite insert_insert_eq.
  destruct (Hf (key an) m) as (m0 & H0 & Hcopy & Ha); [apply cached_live; eauto|].
  destruct (copy_of_with_ID m0 m (hID (Header (message req))) Hcopy) as [Hc1 Hi1].
  assert (Hc2 : copy_of m0 m2) by (by apply copy_of_retimed with m1).
  destruct (retouch_one _ a an an' m2 Hc Hl Hk' Hel Hrec Hm') as [Hc' Hcached].
  apply sound_write; [|apply (suits_cached _ m0); [done|congruence|done|by apply identified_retimed with m1]].
  apply sound_caches; [exact Hs|]. split; [done|]. intros k m'. rewrite Hcached.
  case_decide as Hd; [|apply Hf]. intros [= <-]. exists m0. split_and!; congruence || done.
Qed.

Lemma process_sound s req now s' : sound s -> process s req now = Ok s' -> sound s'.
Proof.
  intros Hs. pose proof Hs as [[Hc Hf] _]. unfold process. destruct (negb _); [intros [= <-]; by apply sound_error|].
  destruct (get_good (srv_caches s) (qName (Question (message req))) (qType (Question (message req))) (qClass (Question (message req))) now Hc)
    as (b & r & c & -> & Hc' & _ & Hcached & Hr). cbn [mbind outcome_bind].
  assert (Hs' : sound (set_caches s c)) by (apply sound_caches; [done|]; split; [done|]; intros k m; rewrite Hcached; apply Hf).
  destruct r as [a|]; [|by apply forward_sound]. destruct Hr as (an & Hl & Hk & Hm & _). pose proof Hl as (ans & Hv & Hin & Hh).
  destruct (wf_in c Hc' _ _ _ Hv Hin) as (an' & Hh' & _ & m & Hm'). assert (an' = an) as -> by congruence.
  by apply (serve_answer_sound _ req a now s' an m).
Qed.

Lemma isResponseValid_asked req res : isResponseValid req res = true <-> asked res = asked (message req).
Proof.
  unfold isResponseValid, asked. rewrite !andb_true_iff, bool_decide_eq_true, !Z.eqb_eq.
  split; [intros [[-> ->] ->]; done|intros [= -> -> ->]; done].
Qed.

Lemma processResponse_sound s i req res now s' : sound s -> Forward i (Reply res) now ∈ src -> processResponse s req res now = Ok s' -> sound s'.
Proof.
  intros Hs Hin. unfold processResponse. destruct (isResponseValid req res) eqn:Hv; cbn [negb]; [|intros [= <-]; by apply sound_error].
  apply isResponseValid_asked in Hv. assert (Hs' : sound (write s req (Packet res))) by (apply sound_write; [done|]; by apply suits_reply with i now).
  destruct (negb _); [by intros [= <-]|]. intros H. bind_inv H. destruct x as [b c]. injection H as <-.
  apply sound_caches; [done|]. eapply cache_message_faithful; [apply Hs| |exact Hx]. by apply came_reply with i now.
Qed.

Lemma forward_round_sound s i f r now s' : sound s -> Forward i r now ∈ src -> forward_round s i f r now = Ok s' -> sound s'.
Proof.
  intros Hs Hin. unfold forward_round. destruct (queue f ≫= _) as [[ch [|req q]]|]; try done. set (s1 := set_chans s _).
  assert (H1 : sound s1) by exact Hs. destruct r as [m| |]; [by apply processResponse_sound with i| |].
  - unfold forward_failed. destruct (fallback f) as [fb|].
    + unfold send. destruct (chans s1 !! fb) as [qf|]; [|done]. cbn. destruct (put qf req); [|done]. cbn. intros [= <-].
      destruct (per_request f); [exact H1|]. unfold leave, stopForwarder. by destruct (isPrimary f).
    + cbn. intros [= <-]. destruct (per_request f); [exact H1|]. unfold leave, stopForwarder. by destruct (isPrimary f).
  - destruct (per_request f); intros [= <-]. exact H1.
Qed.

Lemma perform_sound s a s' : sound s -> a ∈ src -> perform s a = Ok s' -> sound s'.
Proof.
  intros Hs Hin. pose proof Hs as [Hc Hw]. destruct a as [k w p|now|now|msgs now|o|i|i ok|i r now|i]; cbn [perform]; unfold with_forwarder;
    try (destruct (forwarders s !! i) as [f|]; [|done]; destruct (fstate f); try done).
  - unfold receive. destruct (UnpackHeaderQuestion _) as [m|e| |]; try done; [|intros [= <-]; by apply sound_error].
    destruct (put _ _); intros [= <-]. exact Hs.
  - unfold processRequest. destruct (requestq s) as [|req rest]; [done|]. by apply process_sound.
  - intros H. bind_inv H. destruct x as [n c]. injection H as <-. apply sound_caches; [done|]. by eapply prune_faithful.
  - intros H. bind_inv H. destruct x as [n c]. injection H as <-. apply sound_caches; [done|]. eapply populateCaches_faithful; [done| |done]. intros m Hm. by apply came_local with msgs now.
  - intros [= <-]. unfold RestartForwarders, startAllForwarders. by destruct (hasFallback o && _).
  - intros [= <-]. unfold begin_forwarder. destruct (per_request f); [|exact Hs]. by destruct (isPrimary f).
  - unfold leave, stopForwarder. destruct ok; [|destruct (stopper f)]; intros [= <-]; [by destruct (isPrimary f)..|exact Hs].
  - by apply forward_round_sound.
  - unfold leave, stopForwarder. destruct (stopper f); [|done]. intros [= <-]. by destruct (isPrimary f).
Qed.

Lemma performs_sound l : forall s s', sound s -> l ⊆ src -> performs s l = Ok s' -> sound s'.
Proof.
  induction l as [|a l IH]; intros s s' Hs Hl H; [by injection H as <-|]. cbn [performs] in H. bind_inv H.
  apply (IH _ _ (perform_sound _ _ _ Hs (Hl a ltac:(by left)) Hx)); [|done]. intros b Hb. apply Hl. by right.
Qed.

Lemma NewServer_sound thr : sound (NewServer thr).
Proof. split; [|done]. split; [apply newCaches_wf|]. intros k m. cbn [srv_caches NewServer]. by rewrite newCaches_cached. Qed.

End Sound.

(** C13: whatever the clients send, the name servers reply and the order in which the
    goroutines run: what is written for a request is the error of the request, or the packet of
    a reply that a forwarder got in this run, for the question of the request, or the
    packet of a message of the caches.  Such a message, like all that the caches hold, is a copy of one
    that came in this run, from a local file or in a reply of a name server, and that asks
    the question under which it is held; a copy differs at most in its identifier and in its
    TTLs, in the packet too.  The packet of a cached message begins with the identifier of the request where it has
    more than two bytes and no TTL is written over them.  Nothing is said of the identifier of a reply, which is not
    compared with that of the request. *)
Theorem answers_suit thr l s : performs (NewServer thr) l = Ok s ->
  Forall (suits l) (written s) /\
  forall k m, cached (srv_caches s) k = Some m -> exists m0, came l m0 /\ copy_of m0 m /\ asked m0 = k.
Proof. intros H. by destruct (performs_sound l l _ _ (NewServer_sound l thr) ltac:(done) H) as [[_ Hf] Hw]. Qed.

(** ** The count of forwarders *)

(** The primary forwarders that take requests. *)
Definition counted (f : forwarder) : bool := isPrimary f && match fstate f with Running => true | _ => false end.
Definition count (l : list forwarder) : Z := Z.of_nat (length (filter (fun f => counted f = true) l)).
Definition running (s : server) : Z := count (forwarders s).

Lemma counted_app l1 l2 : count (l1 ++ l2) = count l1 + count l2.
Proof. unfold count. rewrite filter_app, length_app. lia. Qed.
Lemma count_cons f l : count (f :: l) = Z.b2z (counted f) + count l.
Proof. unfold count. rewrite filter_cons. destruct (counted f); [rewrite decide_True by done|rewrite decide_False by done]; cbn [length Z.b2z]; lia. Qed.
Lemma count_none l : Forall (fun f => counted f = false) l -> count l = 0.
Proof. induction 1 as [|f l Hf _ IH]; [done|]. rewrite count_cons, Hf, IH. done. Qed.

Lemma running_put s i f f' : forwarders s !! i = Some f ->
  running (put_forwarder s i f') = running s - Z.b2z (counted f) + Z.b2z (counted f').
Proof.
  intros Hf. unfold running, put_forwarder. cbn [forwarders set_forwarders].
  rewrite insert_take_drop by (by apply lookup_lt_Some in Hf). rewrite <- (take_drop_middle (forwarders s) i f Hf) at 3.
  rewrite !counted_app, !count_cons. lia.
Qed.

Lemma running_pos s i f : forwarders s !! i = Some f -> counted f = true -> 1 <= running s.
Proof.
  intros Hf Hc. unfold running. rewrite <- (take_drop_middle (forwarders s) i f Hf), counted_app, count_cons, Hc.
  unfold count. cbn [Z.b2z]. lia.
Qed.

Lemma running_start s o : running (startAllForwarders s o) = running s.
Proof.
  unfold startAllForwarders, running. cbn [forwarders set_forwarders set_fwStoppers set_fallbackq set_chans].
  destruct (hasFallback o && _); cbn [forwarders set_forwarders set_fwStoppers set_fallbackq set_chans].
  all: rewrite counted_app, (count_none (_ ++ _)); [lia|]; apply Forall_app; split; [|destruct (hasFallback o); [|done]].
  all: apply Forall_fmap, Forall_forall; intros x _; unfold counted; cbn; by rewrite ?andb_false_r.
Qed.

Lemma running_stop s : running (stopAllForwarders s) = running s.
Proof.
  unfold running, stopAllForwarders. cbn [forwarders set_forwarders]. generalize (forwarders s). induction (fwStoppers s) as [|i l IH]; intros fs; [done|].
  cbn [fold_left]. rewrite IH. clear IH. revert i. induction fs as [|f fs IHf]; intros i; [done|].
  destruct i as [|i]; cbn [alter list_alter]; rewrite !count_cons; [done|]. by rewrite (IHf i).
Qed.

(** What keeps both as they are. *)
Definition same_count (s s' : server) : Prop := fwn s' = fwn s /\ forwarders s' = forwarders s.

Lemma forward_same s req s' : forward s req = Ok s' -> same_count s s'.
Proof.
  unfold forward, send. destruct (hasForwarders s); [|destruct (fallbackq s) as [ch|]].
  - destruct (chans s !! 0%nat) as [q|]; [|done]. cbn. by destruct (put q req); intros [= <-].
  - destruct (chans s !! ch) as [q|]; [|done]. cbn. by destruct (put q req); intros [= <-].
  - by intros [= <-].
Qed.

Lemma process_same s req now s' : process s req now = Ok s' -> same_count s s'.
Proof.
  unfold process, serve_answer. destruct (negb _); [by intros [= <-]|]. intros H. bind_inv H. destruct x as [[b [a|]] c].
  - bind_inv H. destruct (msg x) as [m|]; [|done]. destruct (IsExpired m); [by apply forward_same in H|].
    bind_inv H. bind_inv H. destruct (msg x1); [|done]. by injection H as <-.
  - by apply forward_same in H.
Qed.

Lemma processResponse_same s req res now s' : processResponse s req res now = Ok s' -> same_count s s'.
Proof.
  unfold processResponse. destruct (negb _); [by intros [= <-]|]. destruct (negb _); [by intros [= <-]|]. intros H.
  bind_inv H. destruct x as [b c]. by injection H as <-.
Qed.

(** A primary forwarder that is stopped before it is connected. *)
Definition miscounts (s : server) (a : action) : bool :=
  match a with
  | Connect i false => match forwarders s !! i with Some f => stopper f && isPrimary f | None => false end
  | _ => false
  end.

(** The count is never more than the forwarders that run, and as many where none
    was stopped before it was connected. *)
Definition fair (exact : bool) (s : server) : Prop := 0 <= fwn s <= running s /\ (exact = true -> fwn s = running s).

Lemma fair_same b s s' : same_count s s' -> fair b s -> fair b s'.
Proof. unfold fair, running. by intros [-> ->]. Qed.

Lemma fair_begin b s i f f' : fair b s -> forwarders s !! i = Some f -> counted f = false ->
  counted f' = isPrimary f -> fair b (put_forwarder (if isPrimary f then incForwarder s else s) i f').
Proof.
  intros Hs Hf Hc Hc'. unfold fair. rewrite (running_put _ i f) by (by destruct (isPrimary f)). rewrite Hc, Hc'.
  unfold fair, running in *. destruct (isPrimary f); cbn [fwn forwarders put_forwarder incForwarder set_fwn set_forwarders Z.b2z];
    destruct Hs as [Hle He]; (split; [lia|]); intros Hb; specialize (He Hb); lia.
Qed.

Lemma fair_leave b s i f st : fair b s -> forwarders s !! i = Some f -> (b = true -> counted f = isPrimary f) ->
  st ≠ Running -> fair b (leave s i f st).
Proof.
  intros Hs Hf Hc Hst. unfold leave, fair. rewrite (running_put _ i f) by (unfold stopForwarder; by destruct (isPrimary f)).
  assert (Hn : counted (set_fstate f st) = false) by (unfold counted; cbn; destruct st; by rewrite ?andb_false_r). rewrite Hn.
  assert (H1 : counted f = true -> isPrimary f = true) by (unfold counted; by destruct (isPrimary f)).
  assert (Hr : counted f = true -> 1 <= running s) by (intros; by eapply running_pos). unfold fair, stopForwarder, decForwarder, running in *.
  destruct (isPrimary f), (counted f); cbn [fwn forwarders put_forwarder set_fwn set_forwarders Z.b2z].
  - specialize (Hr eq_refl). destruct (Z.leb_spec (fwn s - 1) 0); destruct Hs as [Hle He]; (split; [lia|]); intros Hb; specialize (He Hb); lia.
  - destruct Hs as [Hle He]. split; [destruct (Z.leb_spec (fwn s - 1) 0); lia|]. intros Hb. by specialize (Hc Hb).
  - by specialize (H1 eq_refl).
  - destruct Hs as [Hle He]. split; [lia|]. intros Hb. specialize (He Hb). lia.
Qed.

Lemma forward_round_fair b s i f r now s' : fair b s -> forwarders s !! i = Some f -> fstate f = Running ->
  forward_round s i f r now = Ok s' -> fair b s'.
Proof.
  intros Hs Hf Hst. unfold forward_round. destruct (queue f ≫= _) as [[ch [|req q]]|]; try done. set (s1 := set_chans s _).
  assert (H1 : fair b s1) by exact Hs. destruct r as [m| |].
  - intros H. apply processResponse_same in H. by eapply fair_same.
  - unfold forward_failed. intros H.
    assert (Hl : forall s2, same_count s s2 -> fair b (if per_request f then s2 else leave s2 i f Connecting)).
    { intros s2 H2. pose proof (fair_same b _ _ H2 Hs) as Hs2. destruct (per_request f); [done|].
      apply fair_leave; [done|by destruct H2 as [_ ->]| |done]. intros _. unfold counted. rewrite Hst. by destruct (isPrimary f). }
    destruct (fallback f) as [fb|]; [|injection H as <-; by apply Hl].
    unfold send in H. destruct (chans s1 !! fb) as [qf|]; [|done]. cbn in H. destruct (put qf req); [|done]. injection H as <-. by apply Hl.
  - destruct (per_request f); intros [= <-]. exact H1.
Qed.

Lemma perform_fair b s a s' : fair b s -> (b = true -> miscounts s a = false) -> perform s a = Ok s' -> fair b s'.
Proof.
  intros Hs Hb. destruct a as [k w p|now|now|msgs now|o|i|i ok|i r now|i]; cbn [perform]; unfold with_forwarder;
    try (destruct (forwarders s !! i) as [f|] eqn:Hf; [|done]; destruct (fstate f) eqn:Hst; try done).
  - unfold receive. destruct (UnpackHeaderQuestion _) as [m|e| |]; try done; [|by intros [= <-]].
    destruct (put _ _); intros [= <-]. exact Hs.
  - unfold processRequest. destruct (requestq s) as [|req rest]; [done|]. intros H. apply process_same in H. exact (fair_same b _ _ H Hs).
  - intros H. bind_inv H. destruct x as [n c]. by injection H as <-.
  - intros H. bind_inv H. destruct x as [n c]. by injection H as <-.
  - intros [= <-]. unfold RestartForwarders, fair. rewrite running_start, running_stop.
    replace (fwn (startAllForwarders _ _)) with (fwn s); [exact Hs|]. unfold startAllForwarders. by destruct (hasFallback o && _).
  - intros [= <-]. unfold begin_forwarder. assert (Hc : counted f = false) by (unfold counted; rewrite Hst; apply andb_false_r).
    destruct (per_request f).
    + apply (fair_begin b (newStopper s i) i f); [exact Hs|exact Hf|done|]. unfold counted. cbn. apply andb_true_r.
    + unfold fair. rewrite (running_put _ i f) by exact Hf. replace (counted (set_fstate f Connecting)) with false by (unfold counted; cbn; by rewrite andb_false_r).
      rewrite Hc. unfold fair, running in *. cbn. cbn in Hs. rewrite Z.sub_0_r, Z.add_0_r. exact Hs.
  - assert (Hc : counted f = false) by (unfold counted; rewrite Hst; apply andb_false_r). destruct ok.
    + intros [= <-]. apply fair_begin; try done. unfold counted. cbn. apply andb_true_r.
    + cbn [miscounts] in Hb. rewrite Hf in Hb. destruct (stopper f); intros [= <-]; [|done]. apply fair_leave; [done..| |done].
      intros E. specialize (Hb E). cbn in Hb. congruence.
  - by apply forward_round_fair.
  - destruct (stopper f); [|done]. intros [= <-]. apply fair_leave; [done..| |done]. intros _. unfold counted. rewrite Hst. by destruct (isPrimary f).
Qed.

Fixpoint run_miscounts (s : server) (l : list action) : bool :=
  match l with
  | [] => false
  | a :: l => miscounts s a || match perform s a with Ok s => run_miscounts s l | _ => false end
  end.

Lemma performs_fair b l : forall s s', fair b s -> (b = true -> run_miscounts s l = false) -> performs s l = Ok s' -> fair b s'.
Proof.
  induction l as [|a l IH]; intros s s' Hs Hb H; [by injection H as <-|]. cbn [performs] in H. bind_inv H. rename x into s1.
  cbn [run_miscounts] in Hb. rewrite Hx in Hb. apply (IH s1 s'); [|intros E; specialize (Hb E); by apply orb_false_elim in Hb as [_ ?]|done].
  apply (perform_fair b s a s1); [done| |done]. intros E. specialize (Hb E). by apply orb_false_elim in Hb as [? _].
Qed.

(** C14: the count of forwarders is never more than the primary forwarders that are
    connected, so a request goes to their channel only when one of them takes it; and
    it is their number as long as none is stopped before it was connected. *)
Theorem forwarders_counted thr l s : performs (NewServer thr) l = Ok s ->
  0 <= fwn s <= running s /\ (run_miscounts (NewServer thr) l = false -> fwn s = running s).
Proof.
  intros H. assert (H0 : forall b, fair b (NewServer thr)) by (intros b; by split).
  split; [apply (performs_fair false l _ s (H0 _)); done|].
  intros Hm. by apply (performs_fair true l _ s (H0 _)).
Qed.

(** ** Traces *)

(** A query for the address of [a], with an identifier. *)
Definition query (id : Z) : list Z := [0; id; 1; 0; 0; 1; 0; 0; 0; 0; 0; 0; 1; 97; 0; 0; 1; 0; 1].
Definition query_upper (id : Z) : list Z := [0; id; 1; 0; 0; 1; 0; 0; 0; 0; 0; 0; 1; 65; 0; 0; 1; 0; 1].
(** What a name server replies, with one record. *)
Definition reply_packet (id : Z) : list Z :=
  [0; id; 129; 128; 0; 1; 0; 1; 0; 0; 0; 0; 1; 97; 0; 0; 1; 0; 1; 192; 12; 0; 1; 0; 1; 0; 0; 0; 60; 0; 4; 1; 2; 3; 4].
Definition the_reply (id : Z) : Message :=
  match Unpack (set_Packet NewMessage (reply_packet id)) with Ok m => m | _ => NewMessage end.
Definition one_udp : options := mkOptions [false] [].
Definition one_tcp : options := mkOptions [true] [].
Definition run (l : list action) : outcome unit server := performs (NewServer 100) l.
Definition answers_of (o : outcome unit server) : option (list (nat * list Z)) :=
  match o with Ok s => Some ((fun x => (writer x.1, x.2)) <$> written s) | _ => None end.
Definition fwn_of (o : outcome unit server) : option Z := match o with Ok s => Some (fwn s) | _ => None end.
Definition ordinary : list action :=
  [Restart one_udp; Begin 0; Connect 0 true; Receive connTypeUDP 1 (query 7); Process 10; Forward 0 (Reply (the_reply 7)) 10;
   Receive connTypeUDP 2 (query 8); Process 20].

Lemma requests_conserved_witness : exists s, run ordinary = Ok s /\ answered_ids s ++ waiting_ids s ≡ₚ [1; 2]%nat /\ NoDup (answered_ids s).
Proof.
  unfold run. destruct (performs (NewServer 100) ordinary) as [s|e| |] eqn:E; [|vm_compute in E; discriminate E..]. exists s. split; [reflexivity|].
  destruct (requests_conserved 100 ordinary s E) as (_ & H2 & H3). split; [apply H2; vm_compute; reflexivity|].
  apply H3. apply (bool_decide_unpack _). vm_compute. exact I.
Defined.

Lemma answers_suit_witness : exists s, run ordinary = Ok s /\ Forall (suits ordinary) (written s) /\ length (written s) = 2%nat.
Proof.
  unfold run. destruct (performs (NewServer 100) ordinary) as [s|e| |] eqn:E; [|vm_compute in E; discriminate E..]. exists s. split; [reflexivity|].
  destruct (answers_suit 100 ordinary s E) as (H & _). split; [exact H|].
  assert (Hl : Ok (E := unit) (length (written s)) = (s ← performs (NewServer 100) ordinary; Ok (length (written s)))) by (rewrite E; reflexivity).
  vm_compute in Hl. injection Hl as Hl. exact Hl.
Defined.

Lemma forwarders_counted_witness : exists s, run ordinary = Ok s /\ fwn s = running s.
Proof.
  unfold run. destruct (performs (NewServer 100) ordinary) as [s|e| |] eqn:E; [|vm_compute in E; discriminate E..]. exists s. split; [reflexivity|].
  destruct (forwarders_counted 100 ordinary s E) as [_ H]. apply H. vm_compute. reflexivity.
Defined.

(** *** What goes wrong *)

(** The count of a forwarder that was stopped before it was connected is taken off
    though it was never added: with another one that runs, no forwarder is left by the
    count, and every request gets an error. *)
Definition stopped_early : list action :=
  [Restart one_udp; Begin 0; Restart one_udp; Begin 1; Connect 1 true; Connect 0 false].
Example restart_loses_forwarders : exists s, run stopped_early = Ok s /\ running s = 1 /\ fwn s = 0 /\
  answers_of (run (stopped_early ++ [Receive connTypeUDP 1 (query 7); Process 10]))
  = Some [(1%nat, [0; 7; 129; 2; 0; 1; 0; 0; 0; 0; 0; 0; 1; 97; 0; 0; 1; 0; 1])].
Proof. eexists. vm_compute. repeat split. Qed.

(** A second start of the forwarders with a fallback turns the fallback off. *)
Definition only_fallback : options := mkOptions [] [false].
Definition restarted : list action := [Restart only_fallback; Begin 0; Connect 0 true; Restart only_fallback; Begin 1; Connect 1 true].
Example restart_disables_fallback : exists s, run restarted = Ok s /\ fallbackq s = None /\ queue <$> last (forwarders s) = Some None.
Proof. eexists. vm_compute. repeat split. Qed.

(** A request is lost where the connection to a name server over TCP fails, even with
    a fallback, and where a query fails without one. *)
Definition left_over (l : list action) : option (list nat) := match run l with Ok s => Some (ids s) | _ => None end.
Example tcp_connect_loses : left_over [Restart (mkOptions [true] [false]); Begin 0; Receive connTypeUDP 1 (query 7); Process 10; Forward 0 ConnectFailed 10] = Some [].
Proof. vm_compute. reflexivity. Qed.
Example query_failure_loses : left_over [Restart one_udp; Begin 0; Connect 0 true; Receive connTypeUDP 1 (query 7); Process 10; Forward 0 QueryFailed 10] = Some [].
Proof. vm_compute. reflexivity. Qed.
(** A packet of thirteen bytes stops the server. *)
Example cut_question_panics : run [Receive connTypeUDP 1 (take 13 (query 7))] = Panic.
Proof. vm_compute. reflexivity. Qed.
